(* ===== verification/_CoqProject ===== *)
-Q . S2P
Prelude.v
RustStd.v
Bitmap.v
FileCache.v
HttpLib.v
HttpHeader.v
HttpCtx.v
HttpBody.v
BodyStream.v
HttpFilter.v
Wire.v
TunnelPack.v
StreamPack.v
StreamOrder.v
StreamNet.v
StreamWindow.v
StreamLive.v
StreamFair.v
TunnelStream.v
Channel.v
PeerClient.v
Tunnel.v
Upstream.v
Balance.v
UpstreamServer.v
Access.v
AddrUtil.v
Queue.v
QueueHeap.v
QueueOps.v
QueueList.v
Var.v
DomainIndex.v
BufReader.v
Tunnel1Pack.v
AnyproxyPack.v
SslHello.v
HttpHost.v
DomainStream.v
CacheFile.v
CacheRestart.v
CacheHot.v
StreamBuf.v
StreamBufSpec.v
StreamDeque.v
StreamCopy.v
StreamRelay.v
StreamTake.v
StreamRelayEnd.v
StreamRun.v
CacheGate.v
CacheServe.v
CacheGateRun.v
CacheWorld.v
CacheFlight.v
CacheTurns.v
ConfLine.v
ConfValue.v
ConfNumber.v
ConfModules.v
ConfParse.v
ConfText.v
ConfHeap.v
ConfTree.v
ConfBuild.v
ConfMerge.v
ConfCore.v
ConfInherit.v
ConfStart.v
ConfRun.v
Tunnel1Wire.v
Tunnel1Peer.v
Tunnel1Close.v
Tunnel1Conn.v
Tunnel1Sessions.v
Tunnel1Stream.v
Tunnel1Client.v
Tunnel1Order.v
Tunnel1Pool.v
Tunnel1Run.v
