(* ===== verification/Prelude.v ===== *)
(** * any-proxys: a verification library for its protocol, cache and routing core

    any-proxys is a proxy in Rust: it accepts TCP, QUIC, TLS and HTTP
    connections, picks an upstream server for each, and relays, caching HTTP
    answers in files and carrying streams over several connections at once
    through a tunnel of its own.  This library translates the parts of it that
    decide something (which bytes a client gets, what the cache holds, in which
    order a tunnel delivers, which server answers, who is let in) into
    executable definitions and proves what they guarantee.

    ** Conventions

    A call of the program is a function into [outcome]: [Ok], the [Err] of a
    [Result], [Panic] (an index out of range, a division by zero, [unwrap] of
    [None], a failed [assert!]), or [Fuel] for a bounded recursion that was cut
    short.  Code that mutates is a function of the state monad [stm], which
    keeps the state also when the call fails.  A [u64] or [usize] is a [Z] with
    its wrap-around written out ([wrap64], [swrap64] for [i64], [wrap32],
    [wrap 128]): the arithmetic is that of a release build.  Bytes are numbers
    below 256, text is a [string] of bytes.  The length of something held in
    memory is not wrapped.  An asynchronous task is the function of one turn of
    its loop; what can happen between two turns of different tasks is a step
    relation.  Log lines, timing and statistics are
    left out, and so are locks: the interleaving is at the grain of a turn.

    ** Files

    - [Prelude]: results, the state monad, machine integers, indexing a list as
      Rust does, sums and counts; the tactics and the hint database [anyproxy].
    - [RustStd]: the string functions of the Rust standard library.

    The HTTP cache ([any-proxy/src/proxy/http_proxy]):
    - [Bitmap] ([bitmap.rs]): the bitmap of the slices on disk.
    - [FileCache] ([any-base/src/file_ext.rs], [write_cache_file] of [util.rs],
      the draining loop of [http_server_proxy.rs]): the page buffer between the
      upstream and the cache file.
    - [HttpLib]: the interface [HttpCrate] of the http crates, and an instance.
    - [HttpHeader] ([http_header_parse.rs]): ranges, dates, lengths, lifetimes.
    - [HttpCtx] ([http_stream_request.rs], [async_write_msg.rs]): the state of a
      request.
    - [HttpBody] ([util.rs], [http_filter_body_range.rs],
      [HttpStream::stream_to_client]): the body path. [BodyStream] has its
      theorems.
    - [HttpFilter] ([http_filter_header_parse.rs],
      [http_filter_header_range.rs], [http_filter_header_not_modified.rs],
      [send_multipart_range_body]): the header path.
    - [CacheFile] ([http_cache_file_node.rs], [load_cache_file_head] of
      [http_cache_file.rs], [http_parse]): the file of a cached answer, written
      and read; [CacheRestart] its theorems.
    - [CacheHot] ([sort_hot] and the counting of [load_cache_file]): hot files.
    - [CacheGate] ([get_cache_file_node] and what it calls): the nodes of one
      cache in a store of references, and the gate of a key, one definition per
      stretch between two places where another request can run.
    - [CacheServe] ([stream_cache_request_not_range],
      [get_or_update_cache_file_node], [stream_end_err],
      [cache_file_node_to_pool], [set_cache_file_node] and
      [update_or_create_cache_file] with its relatives of [util.rs]): what a
      request does once it is through the gate, a [Stage] for each place where it
      waits; and ([del_cache_file], [del_md5], [set_expires_cache_file],
      [del_expires_cache_file] of [util.rs]) how an answer, and with it the
      manager of its key, is taken away.
    - [CacheGateRun]: what these do to the gates, by relations
      that every computation moves the store by; [CacheWorld] all requests and
      deletions together as a step relation; [CacheFlight] and [CacheTurns] the theorems.
    These meet in [Ctx]: the parse filter notes what the upstream answered, the
    range filter fixes which bytes are owed and where reading starts, and
    [stream_to_client] then reads, caches, marks the bitmap, clips and sends.

    Connections and what they are:
    - [Wire]: a connection read byte by byte ([AsyncRead]; [ReadLaws] says what a
      reader promises, [Conn] is a connection as the events of the network), the
      read calls of tokio, the header of a pack, which the three protocols of the
      proxy share, and the interface [Toml] of their encoder.
    - [BufReader] ([any-base/src/io_rb/buf_reader.rs]): the buffered reader that
      can go back; it takes a reader that keeps [ReadLaws] and keeps them itself.
    - [Tunnel1Pack] ([any-tunnel/src/protopack.rs]), [AnyproxyPack]
      ([any-proxy/src/protopack/anyproxy.rs]): the packs of the first tunnel, and
      the hello and heartbeat of the proxy.
    - [SslHello] ([ssl_hello.rs]), [HttpHost] ([http_parse_v1.rs]): the server
      name of a TLS client, the host of a plain request.
    - [DomainStream] ([proxy/domain_stream.rs], [tunnel_stream.rs],
      [heartbeat_stream.rs], [parse_proxy_domain] of [proxy/util.rs]): the tries
      one after the other, and the domain that is chosen by [DomainIndex].
    Every try is written for any reader and proved against [ReadLaws]; the
    connection runs it on a [BufReader] over its socket and goes back after it.

    The two directions of a proxied connection ([any-proxy/src/proxy/stream_stream*.rs]):
    - [StreamBuf] ([stream_stream_buf.rs]): chunks, the buffer that is read
      into, pieces of files, and the queue that is written; a class with the
      operations the kinds of buffers share. [StreamBufSpec] and [StreamDeque]
      show what they hold.
    - [StreamCopy] ([stream_stream_tmp_file.rs], [stream_stream_write.rs],
      [stream_stream_cache.rs], [stream_stream_memory.rs], [ConfStream::new] of
      [config/net_core.rs]): one direction, from its settings to its close.
      [Share] is what the plugins of a direction share; the loop of the cache
      is [cache_turn], that of the memory [memory_turn].
    - [StreamRelay]: what the two ends promise ([ReaderLaws], [WriterLaws]), the
      invariant of a direction, and its writing half; [StreamTake] its reading
      half up to the temporary file; [StreamRelayEnd] reading, closing and the
      loops, with the theorems; [StreamRun] two ends that keep the laws.
    A direction reads into [read_buffer]; [take_read_buffer] moves that to
    [caches], in memory or as a piece of the temporary file; [fill_write_buffer]
    takes one out again and [write_handle_run] queues and writes it.

    The tunnel ([any-tunnel2/src]):
    - [TunnelPack] ([protopack.rs], [peer_stream.rs]): packs on the wire.
    - [StreamPack] ([stream_pack.rs], built with the feature [anyack]): the
      tasks of a stream.
    - [StreamOrder], [StreamNet], [StreamWindow], [StreamLive], [StreamFair]:
      its receiving half, two of them joined by a network, its sending half, why
      its receiving half never comes to a stop, and fair executions as functions
      from times to states.
    - [TunnelStream] ([stream.rs]): the stream an application reads and writes,
      on top of the pieces a [StreamPack] delivers.
    - [Channel] ([any-base/src/anychannel.rs]): the map of channels, its slots
      and its interface to the crate of channels.
    - [PeerClient] ([peer_client.rs]): the routing of packs to streams.
    - [Tunnel] ([tunnel.rs], [client.rs], [server.rs]): which peer carries a new
      stream and which one an accepted connection joins.
    A pack read by [TunnelPack] goes to [PeerClient], which hands it to the
    channel of its stream; [StreamPack] takes it from there and delivers pieces
    in order to [TunnelStream].

    The first tunnel ([any-tunnel/src], packs in [Tunnel1Pack]):
    - [Tunnel1Wire]: what is written on a connection is read back pack for pack.
    - [Tunnel1Peer] ([peer_stream.rs]): one end of a connection, which carries one
      session after the other. [turn] is what its task does with a message, a
      pack, or a turn of its writing side.
    - [Tunnel1Close]: the handshake that closes a session, by itself, with all
      its states; [Tunnel1Conn] both ends and the packs between them as a step
      relation, and [looks], which ties an end to its part in the handshake;
      [Tunnel1Sessions] the theorem.
    - [Tunnel1Stream] ([stream.rs], [round_async_channel.rs]): the stream of an
      application, and the channels it spreads its packs over, one for each
      connection of the session.
    - [Tunnel1Client] ([PeerClientToStream] of [peer_client.rs]): the task that
      puts the packs of all connections in order; [Tunnel1Order] a direction of a
      session from stream to stream.
    - [Tunnel1Pool] ([client.rs]): the connections kept between sessions.
    - [Tunnel1Run]: runs of these, among them two that go wrong.
    A pack goes from [Tunnel1Stream] over a channel to the [PeerStream] of that
    channel, over its connection to the [PeerStream] at the other end, and from
    there to the [PeerClientToStream] of the session, which feeds the other
    [Stream].

    Upstream servers ([any-proxy/src/upstream], [config/upstream_*.rs]):
    - [Upstream]: the six balancers, the bookkeeping of a heartbeat, a turn of
      a domain's resolver, a turn of [UpstreamServer::run], [add_proxy_pass].
      Servers live in a store [cells]; the three collections of [UpstreamData]
      hold references into it, as the [ShareRw]s of the code do.
    - [Balance], [UpstreamServer]: their theorems.

    Configuration and admission:
    - [Access] ([config/net_access_ip.rs]): [ip_allow], [ip_deny] and the check
      of a client, with the reading of addresses of the standard library.
    - [AddrUtil] ([util/util.rs]): address and port lists, listener keys, hosts.
    - [DomainIndex] ([util/domain_index.rs]): which listener entry a host name
      belongs to.
    - [Var] ([util/var.rs]): templates with variables, for log formats and keys.

    The configuration ([any-base/src/module], [any-proxy/src/config]):
    - [ConfLine] (the reading half of [Modules::parse_config] in [module.rs]):
      comments, heads of entries, values on one line or many.
    - [ConfValue] ([VALUE_MAP] of [module.rs], [parse_utils.rs]): the values by
      their types, sizes and times; [ConfNumber] its theorems.
    - [ConfModules] ([GModules]): the modules and the numbers they are given.
    - [ConfParse] ([Modules::parse_config] and [parse_config_file]): from an entry
      to its command, against the interface [Commands]; [ConfText] is the text of
      a tree of entries and blocks and its reading.
    - [ConfHeap] ([net.rs], [net_server.rs], [net_local.rs],
      [net_local_core.rs]): the instance of [Commands] for the blocks, over a heap
      of shared vectors; what the other modules keep is the interface
      [DataModules]. [ConfTree] is the tree a file means, [ConfBuild] shows that
      reading builds it on the heap, [ConfMerge] that merging merges it.
    - [ConfCore] ([net_core.rs]): the settings of a proxied connection, the
      instance of [DataModules] for their module; [ConfInherit] what a [local]
      gets.
    - [ConfStart] ([parse_module_config]): from the file to the merged heap;
      [ConfRun] the modules as declared and a file they read.
    A [server] or [local] of the file is a vector of references, one for each
    module of the block at the module's [ctx_index]; [download_of] and [upload_of]
    make of the settings the [ConfStream] that [StreamCopy] relays with.

    Shared data structures:
    - [Queue] ([any-base/src/queue.rs]): the intrusive queue on a heap of nodes
      with counted handles; [QueueHeap] its shape, [QueueOps] its operations on
      that shape, [QueueList] the list it implements.

    ** What is shown

    - Ordered delivery ([delivered_is_prefix], [all_pieces_delivered]): over a
      network that loses, repeats and reorders packs, whatever the interleaving
      of the tasks of both ends, each application receives a prefix of what the
      other wrote, and all of it once every piece has arrived; a piece that is
      awaited and arrives is delivered by the next turn ([stream_never_stuck]).
      In an execution in which both ends go on, the clock does, and the network
      lets through one of the packs it is given for ever, all that is written is
      delivered and acknowledged, because what is lost is sent again
      ([losses_recovered]). What an application reads are the bytes the other one wrote, however
      reads and writes are cut ([bytes_arrive_in_order]).
    - Relaying ([relay_in_order], [closes_after_all], [turns_return]): what one
      end of a proxied connection is given is a prefix of what the other end
      sent, through memory, the temporary file and partial writes, and all of it
      when a direction closes because its reader has ended and no write failed,
      but for one that waits for the other direction and sends files; no turn
      panics or goes on for ever. A reader of bytes keeps memory and file within
      their sizes in the loop with a cache ([held_within_budgets]) and there is room whenever the code reads
      ([read_finds_room]); the buffers are lists of bytes
      ([read_buffer_is_list]) and the settings of any configuration do
      ([conf_stream_new_good]).
    - Routing ([packs_reach_their_stream], [stream_accepted_once]): a pack reaches
      the stream it is addressed to and no other, and a stream is handed to the
      accepting side once. [one_peer_per_address]: however connects
      interleave, the streams to one address share one peer that is dialled no more
      once it is there; what two connects at once do is in [second_session].
    - Sessions of the first tunnel ([sessions_kept_apart], [session_in_order]): a
      connection that is used again gives each session what was sent in it, and
      a session over many connections is one stream of bytes. The handshake
      between two sessions comes to its end ([handshake_ends]) and a connection
      is in the pool once ([pool_lends_once]).
    - Flow control ([window_is_exact], [expired_packs_resent]): the window counts
      the bytes not acknowledged, and what expires is sent again.
    - Framing ([stream_roundtrip]): what is written is read
      back pack for pack however the bytes are cut.
    - Recognition ([recognition_loses_nothing], [tls_connection_routed],
      [http_connection_routed]): no byte of a connection is lost by finding out
      what it is, and the domain its client names is the one it goes to. The
      reader below keeps its positions in its buffer ([reader_keeps_its_shape])
      and goes back to where it was ([rollback_restores]).
    - Range answers ([stream_to_client_spec], [range_request_answered], the
      theorems on [get_http_range] and its relatives): the client gets the bytes its range denotes, or 416.
    - Caching ([update_bitset_spec], [align_bitset_end_index_spec],
      [repair_spec], [drain_spec], [cached_answers_have_validators]): the file
      gets the body, the bitmap marks what was written, and a run served from
      the cache is marked throughout; all of it is found again after a restart
      ([cache_survives_restart]).
    - One request upstream ([one_upstream_per_opening], [waits_bounded],
      [fresh_node_answers]): in every interleaving of all requests and deletions
      the gate of a manager admits one at a time, but for the strays the code lets
      by, and a key has one manager and one more for each time it lost it; no
      request waits again before another got through; and what is there and
      fresh is answered without the gate.
    - Configuration ([configuration_loaded], [printed_configuration],
      [settings_inherited], [modules_numbered], [whole_sizes],
      [integer_lists]): a file is read as the tree it is the text of, errors
      included; the shared vectors hold that tree, merged level by level; a
      [local] works with the innermost setting that differs from where settings
      start; sizes are read exactly.
    - Balancing ([weight_is_fair]) and upkeep of the servers ([run_reconciles]);
      [random_spec], [round_robin_visits_all], [server_cycle] and others say the
      rest of it.
    - Admission ([access_first_match]), addresses ([ipv4_roundtrip],
      [address_list_expanded], [host_and_port_forms]), host names
      ([index_resolves], [domain_index_order]), templates ([var_template]).
    - The queue behaves as a list ([queue_refines_list]), sorts stably
      ([queue_sort_stable]) and frees every node with its last handle
      ([queue_drop_frees]).
    - Faults of the code, as theorems about what it does:
      [quoted_tag_never_matches], [cache_control_time_panics],
      [read_flag_spins_at_end], [long_cipher_list_panics],
      [time_break_loses_file], [hot_marks_coldest],
      [abandoned_session_leaks], [half_closed_loses],
      [stray_end_opens_gate], [stale_head_spins],
      [name_beyond_the_hello], [round_robin_panics], [get_ports_drops_ranges],
      [set_bit_clear_miscounts], [last_byte_never_marked],
      [partial_first_slice_marked].

    ** Fuel

    Recursion that is not structural takes fuel, and each has a theorem or
    lemma that the fuel given suffices: [run_loop] gets one more round than the
    bitmap has bytes ([run_loop_spec]); the draining loop two rounds
    ([drain_spec]); [send_file], [stream_loop] and [stream_to_client] a round
    per piece that is left ([stream_to_client_spec]); [read_flag] a round
    per byte of the flag and one more ([stream_roundtrip], [hello_roundtrip]), and
    none suffices on a closed connection ([read_flag_spins_at_end]); a read that
    waits a round per answer the connection still keeps it waiting ([waits]);
    [write_out] two rounds per byte not yet queued, one per byte queued and two
    more, [write_pages] a round per byte, [write_loop] two ([turns_return]);
    the loops over the extensions of a TLS hello and its names a round per byte
    that is left ([read_domain_ends]); those over a request a round per byte of
    its buffer ([read_host_ends]); [bytes_split] a round per byte and one more
    ([split_lines]); [deliver] a round per cached pack
    and a few more ([deliver_total]); [resend_loop] a round per outstanding
    pack ([expired_packs_resent]); the scans of the balancers a round per
    configured server ([random_spec], [round_robin_visits_all]); the loops of
    the queue a round per element and one more ([queue_refines_list],
    [queue_sort_stable]); the parser of a template a round per character and
    one more ([var_template]), the length of a printed number 13 rounds of
    ten bits ([len_loop]); the search of the domain index a round
    per character of the name and one more ([index_resolves]);
    [hand_on] a round per pack kept and two more ([turn_ok]); [explore] ends within
    its 200 rounds, as the states it finds are closed under steps
    ([states_closed]).

    ** Parameters

    What is not in the repository is an argument: the socket of a connection
    ([AsyncRead], laws [ReadLaws]), the two ends of a direction ([AsyncReader]
    and [AsyncWriter], laws [ReaderLaws] and [WriterLaws]: what a write takes is
    a first part of what it was given, a read gives no more than it was asked
    for), the files it may use ([Disk]), the http crates
    ([HttpCrate], laws [HttpCrateLaws]; [HttpParse] for the parser of a head,
    the addresses and the names of methods), the toml encoder ([Toml], law
    [TomlLaws]: it reads back what it printed), the channel to the client
    ([ClientChan], [ClientAccepts]), the hash of the standard library
    ([DefaultHasher]), the channels of the executor ([AsyncChannel], laws
    [AsyncChannelLaws]), regular expressions, the printing of a floating-point
    value, the clock, the random number, the resolver's answers and
    the order of addresses.  Each law has an instance that satisfies it.

    For the configuration: the files of the disk ([files]), the other modules'
    settings ([DataModules]), the toml reader, regular expressions and sample
    variables of the rules ([RuleText]), and the maps of open static files, the
    page size and the toml reader of the settings ([CoreWorld]).

    ** Not modelled

    - HTTP cache: the gate of the slices of a large file, the tasks that purge
      and that go through the queue of expiry (what they do to a key is in
      [CacheServe]), the index of urls, the insertion of a new file into it.
      They repeat the gate of a node over more shared maps.
    - First tunnel ([any-tunnel]): when a client adds connections to a session
      ([check_or_create_peer_stream]) and connects them, the registry of sessions
      in [server.rs] (an ordered map of a crate), and the counting of handles and
      wait groups that ends its tasks.
    - HTTP routing and serving ([http_router.rs], [http_server_*.rs],
      [websocket]): thin layers over the crates of routing, serving and web
      sockets, whose behaviour is not in the repository.
    - Configuration: the commands of the modules other than [net], [net_server],
      [net_local], [net_local_core] and [net_core] (two are in [Access] and
      [AddrUtil]), [init_conf] but for the rules, what a reload keeps of the old
      configuration, and the working threads the modules start.
    - Byte buffers of [any-base] ([stream_buf.rs], the writers of [io] and
      [io_rb]) that the modelled paths do not use.
    - Sockets, TLS, QUIC, executors and process management: calls of the
      operating system and of tokio.
    - eBPF and WebAssembly hosts, their generated bindings, the vendored hyper. *)

From stdpp Require Export base tactics numbers list gmap sets strings.
From Stdlib Require Export ZArith Lia.
From Stdlib Require Strings.Ascii.
Export Stdlib.Strings.Ascii(ascii(..), N_of_ascii, ascii_of_N).
Export (notations) Stdlib.Strings.Ascii.

#[global] Open Scope Z_scope.

(** ** Results of a call

    A call of the program returns a value, returns an [Err] of its [Result]
    type, or panics (index out of range, division by zero, [unwrap] of
    [None]).  [Fuel] is the result of a bounded recursion that was cut
    short; every function that can give it has a theorem that it does not
    with the fuel the development uses. *)
Inductive outcome (A : Type) : Type :=
  | Ok (a : A)
  | Err (e : string)
  | Panic
  | Fuel.
Arguments Ok {A} a.
Arguments Err {A} e.
Arguments Panic {A}.
Arguments Fuel {A}.

#[global] Instance outcome_ret : MRet outcome := fun A a => Ok a.
#[global] Instance outcome_bind : MBind outcome := fun A B f m =>
  match m with
  | Ok a => f a
  | Err e => Err e
  | Panic => Panic
  | Fuel => Fuel
  end.
#[global] Instance outcome_fmap : FMap outcome := fun A B f m =>
  match m with
  | Ok a => Ok (f a)
  | Err e => Err e
  | Panic => Panic
  | Fuel => Fuel
  end.

#[global] Instance outcome_eq_dec `{EqDecision A} : EqDecision (outcome A).
Proof. solve_decision. Defined.

Lemma outcome_bind_ok {A B} (m : outcome A) (f : A -> outcome B) b :
  m ≫= f = Ok b <-> exists a, m = Ok a /\ f a = Ok b.
Proof.
  split; [|by intros (a & -> & Hf)].
  destruct m as [a| | |]; cbn; intros H; try discriminate. by exists a.
Qed.

Lemma outcome_fmap_ok {A B} (m : outcome A) (f : A -> B) b :
  f <$> m = Ok b <-> exists a, m = Ok a /\ f a = b.
Proof.
  split; [|by intros (a & -> & <-)].
  destruct m as [a| | |]; cbn; intros H; try discriminate.
  injection H as <-. by exists a.
Qed.

(** [expect o] is [o.unwrap()]. *)
Definition expect {A} (o : option A) : outcome A :=
  match o with Some a => Ok a | None => Panic end.

(** [ok_or e o] is [o.ok_or(e)]. *)
Definition ok_or {A} (e : string) (o : option A) : outcome A :=
  match o with Some a => Ok a | None => Err e end.

Definition is_ok {A} (o : outcome A) : bool :=
  match o with Ok _ => true | _ => false end.

(** ** Machine integers

    A [w]-bit unsigned integer is a [Z] in [0, 2^w); the arithmetic of the
    release profile wraps. *)
Definition wrap (w x : Z) : Z := x mod 2 ^ w.
Abbreviation wrap8 := (wrap 8).
Abbreviation wrap16 := (wrap 16).
Abbreviation wrap32 := (wrap 32).
Abbreviation wrap64 := (wrap 64).

(** Two's complement reading of the low [w] bits. *)
Definition swrap (w x : Z) : Z :=
  let y := x mod 2 ^ w in if y <? 2 ^ (w - 1) then y else y - 2 ^ w.
Abbreviation swrap64 := (swrap 64).

Definition in_width (w x : Z) : Prop := 0 <= x < 2 ^ w.
Abbreviation is_u8 := (in_width 8).
Abbreviation is_u16 := (in_width 16).
Abbreviation is_u32 := (in_width 32).
Abbreviation is_u64 := (in_width 64).

Lemma wrap_id w x : in_width w x -> wrap w x = x.
Proof. unfold wrap, in_width. intros H. by apply Z.mod_small. Qed.

Lemma wrap_range w x : 0 <= w -> in_width w (wrap w x).
Proof. intros Hw. apply Z.mod_pos_bound. by apply Z.pow_pos_nonneg. Qed.

Lemma swrap64_id x : - 2 ^ 63 <= x < 2 ^ 63 -> swrap64 x = x.
Proof.
  intros H. unfold swrap. change (64 - 1) with 63.
  destruct (decide (0 <= x)).
  - rewrite Z.mod_small by lia. case_match; lia.
  - rewrite <- (Z.mod_add x 1) by lia. rewrite Z.mod_small by lia. case_match; lia.
Qed.

(** Division and remainder panic on a zero divisor. *)
Definition zdiv (a b : Z) : outcome Z := if b =? 0 then Panic else Ok (a / b).
Definition zrem (a b : Z) : outcome Z := if b =? 0 then Panic else Ok (a mod b).

Lemma zdiv_ok a b : b <> 0 -> zdiv a b = Ok (a / b).
Proof. unfold zdiv. intros. case_match; [lia|done]. Qed.
Lemma zrem_ok a b : b <> 0 -> zrem a b = Ok (a mod b).
Proof. unfold zrem. intros. case_match; [lia|done]. Qed.

(** ** Vectors

    Indexing a vector or slice panics out of range. *)
Definition zlen {A} (l : list A) : Z := Z.of_nat (length l).

Definition vget {A} (l : list A) (i : Z) : outcome A :=
  if 0 <=? i then expect (l !! Z.to_nat i) else Panic.

Definition vset {A} (l : list A) (i : Z) (x : A) : outcome (list A) :=
  if (0 <=? i) && (i <? zlen l) then Ok (<[Z.to_nat i := x]> l) else Panic.

(** [&l[a..b]] *)
Definition vslice {A} (l : list A) (a b : Z) : outcome (list A) :=
  if (0 <=? a) && (a <=? b) && (b <=? zlen l)
  then Ok (take (Z.to_nat (b - a)) (drop (Z.to_nat a) l)) else Panic.

Lemma zlen_nonneg {A} (l : list A) : 0 <= zlen l.
Proof. unfold zlen. lia. Qed.

Lemma zlen_app {A} (l k : list A) : zlen (l ++ k) = zlen l + zlen k.
Proof. unfold zlen. rewrite length_app. lia. Qed.

Lemma zlen_take {A} (l : list A) n : 0 <= n <= zlen l -> zlen (take (Z.to_nat n) l) = n.
Proof. unfold zlen. rewrite length_take. lia. Qed.

Lemma zlen_drop {A} (l : list A) n : 0 <= n <= zlen l -> zlen (drop (Z.to_nat n) l) = zlen l - n.
Proof. unfold zlen. rewrite length_drop. lia. Qed.

Lemma vget_ok {A} (l : list A) i x :
  vget l i = Ok x <-> 0 <= i /\ l !! Z.to_nat i = Some x.
Proof.
  unfold vget. destruct (Z.leb_spec 0 i); cbn.
  - destruct (l !! Z.to_nat i) eqn:E; cbn; split; intros H'; [|destruct H'| |destruct H'];
      first [split; [done|congruence]|congruence].
  - split; [done|lia].
Qed.

Lemma vget_in_range {A} (l : list A) i :
  0 <= i < zlen l -> exists x, vget l i = Ok x /\ l !! Z.to_nat i = Some x.
Proof.
  intros Hi. destruct (lookup_lt_is_Some_2 l (Z.to_nat i)) as [x Hx].
  { unfold zlen in Hi. lia. }
  exists x. split; [|done]. apply vget_ok. split; [lia|done].
Qed.

Lemma vget_out {A} (l : list A) i : ~ (0 <= i < zlen l) -> vget l i = Panic.
Proof.
  intros Hi. unfold vget. destruct (Z.leb_spec 0 i); [|done].
  rewrite lookup_ge_None_2; [done|]. unfold zlen in Hi. lia.
Qed.

Lemma vset_ok {A} (l : list A) i x :
  0 <= i < zlen l -> vset l i x = Ok (<[Z.to_nat i := x]> l).
Proof.
  intros Hi. unfold vset.
  destruct (Z.leb_spec 0 i); [|lia]. by destruct (Z.ltb_spec i (zlen l)); [|lia].
Qed.

Lemma vslice_ok {A} (l : list A) a b :
  0 <= a -> a <= b -> b <= zlen l ->
  vslice l a b = Ok (take (Z.to_nat (b - a)) (drop (Z.to_nat a) l)).
Proof.
  intros Ha Hab Hb. unfold vslice.
  destruct (Z.leb_spec 0 a); [|lia]. destruct (Z.leb_spec a b); [|lia].
  by destruct (Z.leb_spec b (zlen l)); [|lia].
Qed.

(** ** Sums and counts *)

Definition zsum (l : list Z) : Z := foldr Z.add 0 l.

Lemma zsum_app l k : zsum (l ++ k) = zsum l + zsum k.
Proof. unfold zsum. induction l as [|x l IH]; cbn; lia. Qed.

Lemma zsum_nonneg l : Forall (fun x => 0 <= x) l -> 0 <= zsum l.
Proof. unfold zsum. induction 1; cbn; lia. Qed.

Lemma zsum_pointwise {A} (f g : A -> Z) l :
  Forall (fun x => f x <= g x) l -> zsum (f <$> l) <= zsum (g <$> l).
Proof. unfold zsum. induction 1; cbn; lia. Qed.

(** A pointwise bound whose sums agree is an equality. *)
Lemma zsum_tight {A} (f g : A -> Z) l :
  Forall (fun x => f x <= g x) l -> zsum (f <$> l) = zsum (g <$> l) ->
  Forall (fun x => f x = g x) l.
Proof.
  induction 1 as [|x l Hx Hl IH]; [done|]. intros E.
  pose proof (zsum_pointwise _ _ _ Hl). unfold zsum in *. cbn in E.
  constructor; [lia|]. apply IH. lia.
Qed.

Lemma zsum_linear {A} (f g : A -> Z) a b l :
  zsum ((fun x => a * f x - b * g x) <$> l) = a * zsum (f <$> l) - b * zsum (g <$> l).
Proof. unfold zsum. induction l; cbn; lia. Qed.

(** How often [x] is in a list. *)
Definition zcount `{EqDecision A} (x : A) (l : list A) : Z :=
  zsum ((fun y => if decide (y = x) then 1 else 0) <$> l).

Lemma zcount_app `{EqDecision A} (x : A) l k : zcount x (l ++ k) = zcount x l + zcount x k.
Proof. unfold zcount. by rewrite fmap_app, zsum_app. Qed.

Lemma zcount_one `{EqDecision A} (x y : A) : zcount x [y] = if decide (y = x) then 1 else 0.
Proof. unfold zcount, zsum. cbn. lia. Qed.

Lemma zcount_nonneg `{EqDecision A} (x : A) l : 0 <= zcount x l.
Proof. apply zsum_nonneg, Forall_fmap, Forall_true. intros y. cbn. case_decide; lia. Qed.

(** Elements of a list without repetitions account for all of a list drawn
    from it. *)
Lemma zcount_total `{EqDecision A} (l k : list A) :
  NoDup l -> (forall x, x ∈ k -> x ∈ l) -> zsum ((fun x => zcount x k) <$> l) = zlen k.
Proof.
  intros Hl. induction k as [|y k IH]; intros Hk.
  - clear. unfold zlen. cbn. induction l as [|x l IH]; [done|]. unfold zsum in *. cbn in *. lia.
  - assert (zsum ((fun x => zcount x (y :: k)) <$> l) =
            zsum ((fun x => zcount x k) <$> l) + zcount y l) as ->.
    { clear. unfold zcount, zsum. induction l as [|x l IH]; [done|]. cbn in *.
      destruct (decide (y = x)), (decide (x = y)); try congruence; lia. }
    rewrite IH by (intros; apply Hk; by constructor).
    assert (zcount y l = 1) as ->; [|unfold zlen; cbn; lia].
    assert (y ∈ l) as Hy by (apply Hk; by constructor). clear -Hl Hy.
    induction Hl as [|x l Hx Hl IH]; [by apply elem_of_nil in Hy|].
    change (zcount y (x :: l)) with (zcount y ([x] ++ l)). rewrite zcount_app, zcount_one.
    apply elem_of_cons in Hy as [->|Hy].
    + rewrite decide_True by done.
      assert (zcount x l = 0) as ->; [|done]. clear -Hx. induction l as [|z l IH]; [done|].
      change (zcount x (z :: l)) with (zcount x ([z] ++ l)). rewrite zcount_app, zcount_one.
      apply not_elem_of_cons in Hx as [Hz Hx]. rewrite decide_False by done. rewrite IH by done. lia.
    + rewrite decide_False by (intros ->; done). rewrite IH by done. lia.
Qed.

(** ** Stateful calls

    A handler that works on a shared context is a function from the context to
    its result and the context it leaves, which survives an [Err]. *)
Definition stm (S A : Type) : Type := S -> outcome A * S.

#[global] Instance stm_ret {S} : MRet (stm S) := fun A a s => (Ok a, s).
#[global] Instance stm_bind {S} : MBind (stm S) := fun A B f m s =>
  match m s with
  | (Ok a, s) => f a s
  | (Err e, s) => (Err e, s)
  | (Panic, s) => (Panic, s)
  | (Fuel, s) => (Fuel, s)
  end.

Definition gets {S A} (f : S -> A) : stm S A := fun s => (Ok (f s), s).
Definition modify {S} (f : S -> S) : stm S unit := fun s => (Ok tt, f s).
Definition lift {S A} (o : outcome A) : stm S A := fun s => (o, s).
Definition fail {S A} (e : string) : stm S A := fun s => (Err e, s).
Definition done_ {S} : stm S unit := fun s => (Ok tt, s).

(** [attempt m] is the [Result] of a call whose error is looked at and not
    passed on. *)
Definition attempt {S A} (m : stm S A) : stm S (option A) := fun s =>
  match m s with
  | (Ok a, s) => (Ok (Some a), s)
  | (Err _, s) => (Ok None, s)
  | (Panic, s) => (Panic, s)
  | (Fuel, s) => (Fuel, s)
  end.

(** A call on the first component of a pair. *)
Definition on_fst {S T A} (m : stm S A) : stm (S * T) A := fun '(s, t) =>
  let (o, s) := m s in (o, (s, t)).

Lemma stm_bind_ok {S A B} (m : stm S A) (f : A -> stm S B) s b s' :
  (m ≫= f) s = (Ok b, s') <-> exists a s1, m s = (Ok a, s1) /\ f a s1 = (Ok b, s').
Proof.
  unfold mbind, stm_bind. destruct (m s) as [[a|e| |] s1]; split; intros H;
    try discriminate; try (destruct H as (? & ? & [=] & ?); by subst).
  by exists a, s1.
Qed.

(** One step of a stateful computation whose first call is known. *)
Lemma stm_step {S A B} (m : stm S A) (f : A -> stm S B) s a s1 :
  m s = (Ok a, s1) -> (m ≫= f) s = f a s1.
Proof. unfold mbind, stm_bind. by intros ->. Qed.

Lemma on_fst_ok {S T A} (m : stm S A) s (t : T) a s1 :
  m s = (Ok a, s1) -> on_fst m (s, t) = (Ok a, (s1, t)).
Proof. unfold on_fst. by intros ->. Qed.

(** [n] calls in a row and their results. *)
Fixpoint calls {S A} (n : nat) (m : stm S A) : stm S (list A) :=
  match n with
  | O => mret []
  | Datatypes.S n => a ← m; l ← calls n m; mret (a :: l)
  end.

Ltac step := erewrite stm_step by reflexivity; cbv beta iota.
Tactic Notation "step" "by" tactic3(t) := erewrite stm_step; [|t]; cbv beta iota.

(** The steps of a computation that returned. *)
Ltac steps_in H :=
  repeat lazymatch type of H with
  | (mbind _ _) _ = (Ok _, _) =>
      let a := fresh "a" in let s := fresh "s" in let E := fresh "Es" in
      apply stm_bind_ok in H as (a & s & E & H);
      lazymatch type of E with
      | gets _ _ = _ => unfold gets in E; injection E as ? ?; subst a s
      | modify _ _ = _ => unfold modify in E; injection E as ? ?; subst a s
      | lift _ _ = _ => unfold lift in E; injection E as E ?; subst s
      | _ => idtac
      end; cbv beta iota in H
  end.

(** [setter eta field] is the update of one field of a record whose
    eta-expansion is [eta]. *)
Ltac setter eta field :=
  let e := eval cbv beta delta [eta] in eta in
  let x := eval pattern field in e in
  match x with
  | ?g _ => let t := eval cbv beta in (fun v => g (fun _ => v)) in exact t
  end.

(** ** Automation

    [outcomes] splits the hypotheses that say a computation returned, and
    [zcases] decides the integer comparisons a goal tests. *)
Ltac outcomes :=
  repeat match goal with
  | H : _ ≫= _ = Ok _ |- _ =>
      let a := fresh "v" in let E := fresh "E" in
      apply outcome_bind_ok in H as (a & E & H)
  | H : _ <$> _ = Ok _ |- _ =>
      let a := fresh "v" in let E := fresh "E" in
      apply outcome_fmap_ok in H as (a & E & H)
  | H : Ok _ = Ok _ |- _ => injection H as H
  | H : mret _ = Ok _ |- _ => unfold mret, outcome_ret in H; injection H as H
  | H : Err _ = Ok _ |- _ => discriminate H
  | H : Panic = Ok _ |- _ => discriminate H
  | H : Fuel = Ok _ |- _ => discriminate H
  end.

Ltac zcase :=
  match goal with
  | |- context [Z.leb ?a ?b] => destruct (Z.leb_spec a b)
  | |- context [Z.ltb ?a ?b] => destruct (Z.ltb_spec a b)
  | |- context [Z.eqb ?a ?b] => destruct (Z.eqb_spec a b)
  | H : context [Z.leb ?a ?b] |- _ => destruct (Z.leb_spec a b)
  | H : context [Z.ltb ?a ?b] |- _ => destruct (Z.ltb_spec a b)
  | H : context [Z.eqb ?a ?b] |- _ => destruct (Z.eqb_spec a b)
  end.
Ltac zcases := repeat (zcase; cbn [andb orb negb] in *; try lia).

(** [unwrap] removes the wrap-arounds that [lia] can see are exact. *)
Ltac unwrap :=
  repeat match goal with
  | |- context [wrap ?w ?x] =>
      lazymatch x with
      | context [wrap _ _] => fail
      | _ => rewrite (wrap_id w x) by (unfold in_width; lia)
      end
  end.

Create HintDb anyproxy.
#[export] Hint Resolve zlen_nonneg wrap_range : anyproxy.
