(* ===== verification/RustStd.v ===== *)
(** The functions of the Rust standard library the components use on text:
    trimming, searching, splitting, and reading and writing decimal numbers.
    Text is a sequence of bytes; white space and digits are the ASCII ones. *)
From Stdlib Require Import Decimal DecimalString DecimalN DecimalNat DecimalPos DecimalFacts.
From S2P Require Import Prelude.
#[local] Open Scope string_scope.
#[local] Open Scope Z_scope.

(** ** Lengths and slices *)

Definition slen (s : string) : Z := Z.of_nat (String.length s).

(** [s.chars]: the bytes of a string. *)
Fixpoint bytes_of (s : string) : list ascii :=
  match s with EmptyString => [] | String c s => c :: bytes_of s end.

Fixpoint of_bytes (l : list ascii) : string :=
  match l with [] => EmptyString | c :: l => String c (of_bytes l) end.

Lemma app_cons (c : ascii) s t : String c s +:+ t = String c (s +:+ t).
Proof. done. Qed.

Lemma app_nil t : "" +:+ t = t.
Proof. done. Qed.

Lemma of_bytes_of s : of_bytes (bytes_of s) = s.
Proof. induction s as [|c s IH]; cbn; [done|by rewrite IH]. Qed.

Lemma bytes_of_of l : bytes_of (of_bytes l) = l.
Proof. induction l as [|c l IH]; cbn; [done|by rewrite IH]. Qed.

Lemma bytes_of_app s t : bytes_of (s +:+ t) = (bytes_of s ++ bytes_of t)%list.
Proof. induction s as [|c s IH]; [done|]. rewrite app_cons. cbn. by rewrite IH. Qed.

Lemma of_bytes_app l k : of_bytes (l ++ k)%list = of_bytes l +:+ of_bytes k.
Proof. induction l as [|c l IH]; cbn; [done|]. by rewrite app_cons, IH. Qed.

Lemma bytes_length s : length (bytes_of s) = String.length s.
Proof. induction s as [|c s IH]; cbn; [done|by rewrite IH]. Qed.

Lemma app_empty_r s : s +:+ "" = s.
Proof. induction s as [|c s IH]; [done|]. rewrite app_cons. by rewrite IH. Qed.

Lemma app_assoc_s s t u : (s +:+ t) +:+ u = s +:+ (t +:+ u).
Proof. induction s as [|c s IH]; [done|]. rewrite !app_cons. by rewrite IH. Qed.

Lemma slen_app s t : slen (s +:+ t) = slen s + slen t.
Proof.
  unfold slen. rewrite <- !bytes_length, bytes_of_app, length_app. lia.
Qed.

Lemma slen_nonneg s : 0 <= slen s.
Proof. unfold slen. lia. Qed.

(** [&s[..n]] and [&s[n..]], total. *)
Fixpoint stake (n : nat) (s : string) : string :=
  match n, s with
  | S n, String c s => String c (stake n s)
  | _, _ => ""
  end.

Fixpoint sdrop (n : nat) (s : string) : string :=
  match n, s with
  | O, s => s
  | S n, String _ s => sdrop n s
  | S _, EmptyString => ""
  end.

Lemma stake_sdrop n : forall s, stake n s +:+ sdrop n s = s.
Proof.
  induction n as [|n IH]; intros s; [done|]. destruct s as [|c s]; [done|].
  cbn. rewrite app_cons. by rewrite IH.
Qed.

(** [&s[a..b]] as the source writes it: a panic out of range. *)
Definition sslice (s : string) (a b : Z) : outcome string :=
  if (0 <=? a) && (a <=? b) && (b <=? slen s)
  then Ok (stake (Z.to_nat (b - a)) (sdrop (Z.to_nat a) s)) else Panic.

(** [&s[a..b]] of a text that need not be ASCII: a cut inside a character
    panics too. *)
Definition is_continuation (c : ascii) : bool := let n := N_of_ascii c in ((128 <=? n) && (n <? 192))%N.
Definition cut_ok (s : string) (i : Z) : bool :=
  (0 <=? i) && match sdrop (Z.to_nat i) s with
               | "" => i <=? slen s
               | String c _ => negb (is_continuation c)
               end.
Definition text_slice (s : string) (a b : Z) : outcome string :=
  if cut_ok s a && cut_ok s b then sslice s a b else Panic.

(** ** White space *)

Definition is_ws (c : ascii) : bool :=
  let n := N_of_ascii c in ((9 <=? n) && (n <=? 13))%N || (n =? 32)%N.

Fixpoint trim_start (s : string) : string :=
  match s with
  | String c s' => if is_ws c then trim_start s' else s
  | EmptyString => ""
  end.

Fixpoint trim_end (s : string) : string :=
  match s with
  | EmptyString => ""
  | String c s' =>
      match trim_end s' with
      | EmptyString => if is_ws c then "" else String c ""
      | t => String c t
      end
  end.

(** [str::trim] *)
Definition trim (s : string) : string := trim_end (trim_start s).

Fixpoint no_ws (s : string) : bool :=
  match s with EmptyString => true | String c s => negb (is_ws c) && no_ws s end.

Lemma trim_no_ws s : no_ws s = true -> trim s = s.
Proof.
  intros H. unfold trim.
  assert (trim_start s = s) as ->.
  { destruct s as [|c s]; [done|]. cbn in *. apply andb_true_iff in H as [H _].
    by rewrite (proj1 (negb_true_iff _) H). }
  induction s as [|c s IH]; [done|]. cbn in *. apply andb_true_iff in H as [Hc Hs].
  rewrite IH by done. destruct s; [|done]. by rewrite (proj1 (negb_true_iff _) Hc).
Qed.

(** ** Searching and splitting at a character or a pattern *)

(** [s.find(c)] for a character. *)
Fixpoint find_char (c : ascii) (s : string) : option nat :=
  match s with
  | EmptyString => None
  | String d s => if Ascii.eqb c d then Some O else S <$> find_char c s
  end.

(** [s.rfind(c)] *)
Fixpoint rfind_char (c : ascii) (s : string) : option nat :=
  match s with
  | EmptyString => None
  | String d s =>
      match rfind_char c s with
      | Some n => Some (S n)
      | None => if Ascii.eqb c d then Some O else None
      end
  end.

(** [s.starts_with(p)] *)
Fixpoint starts_with (p s : string) : bool :=
  match p, s with
  | EmptyString, _ => true
  | String a p, String b s => Ascii.eqb a b && starts_with p s
  | _, EmptyString => false
  end.

(** [s.find(p)] for a string pattern. *)
Fixpoint find_str (p s : string) : option nat :=
  if starts_with p s then Some O
  else match s with
       | EmptyString => None
       | String _ s => S <$> find_str p s
       end.

(** [s.split(c)]: never empty. *)
Fixpoint split_char (c : ascii) (s : string) : list string :=
  match s with
  | EmptyString => [""]
  | String d s' =>
      if Ascii.eqb c d then "" :: split_char c s'
      else match split_char c s' with
           | w :: ws => String d w :: ws
           | [] => [String d ""]
           end
  end.

(** [s.split_once(c)] *)
Definition split_once (c : ascii) (s : string) : option (string * string) :=
  i ← find_char c s; Some (stake i s, sdrop (S i) s).

(** [s.rsplit_once(c)] *)
Definition rsplit_once (c : ascii) (s : string) : option (string * string) :=
  i ← rfind_char c s; Some (stake i s, sdrop (S i) s).

(** [s.split_once(p)] for a string pattern. *)
Definition split_once_str (p s : string) : option (string * string) :=
  i ← find_str p s; Some (stake i s, sdrop (i + String.length p) s).

(** [s.matches(c).count()] *)
Fixpoint count_char (c : ascii) (s : string) : nat :=
  match s with
  | EmptyString => O
  | String d s => ((if Ascii.eqb c d then 1 else 0) + count_char c s)%nat
  end.

Fixpoint ends_with_char (c : ascii) (s : string) : bool :=
  match s with
  | EmptyString => false
  | String d EmptyString => Ascii.eqb c d
  | String _ s => ends_with_char c s
  end.

(** [s.to_lowercase()] on ASCII. *)
Definition lower_char (c : ascii) : ascii :=
  let n := N_of_ascii c in
  if ((65 <=? n) && (n <=? 90))%N then ascii_of_N (n + 32) else c.

Fixpoint to_lowercase (s : string) : string :=
  match s with EmptyString => "" | String c s => String (lower_char c) (to_lowercase s) end.

(** ** Decimal numbers *)

(** [n.to_string()] of an unsigned integer. *)
Definition show_u (n : Z) : string := NilZero.string_of_uint (N.to_uint (Z.to_N n)).

(** The digits of a decimal literal. *)
Definition digits (s : string) : option Z :=
  d ← NilZero.uint_of_string s; Some (Z.of_N (N.of_uint d)).

(** [s.parse::<u{w}>()]: an optional [+], one or more digits, and the value
    must fit. *)
Definition parse_u (w : Z) (s : string) : option Z :=
  let body := match s with String c s' => if Ascii.eqb c "+" then s' else s | _ => s end in
  n ← digits body;
  if n <? 2 ^ w then Some n else None.

Lemma show_digits n : 0 <= n -> digits (show_u n) = Some n.
Proof.
  intros Hn. unfold digits, show_u.
  assert (N.to_uint (Z.to_N n) = Decimal.Nil \/ N.to_uint (Z.to_N n) <> Decimal.Nil) as [E|E].
  { destruct (N.to_uint (Z.to_N n)); [by left|by right..]. }
  { pose proof (DecimalN.Unsigned.of_to (Z.to_N n)) as H. rewrite E in H. cbn in H.
    assert (n = 0) as -> by lia. done. }
  rewrite NilZero.usu by done. cbn. rewrite DecimalN.Unsigned.of_to. f_equal. lia.
Qed.

Definition is_digit (c : ascii) : bool :=
  let n := N_of_ascii c in ((48 <=? n) && (n <=? 57))%N.

Fixpoint all_digits (s : string) : bool :=
  match s with EmptyString => true | String c s => is_digit c && all_digits s end.

Lemma string_of_uint_digits d : all_digits (NilEmpty.string_of_uint d) = true.
Proof. induction d; cbn; done. Qed.

Lemma show_all_digits n : all_digits (show_u n) = true.
Proof.
  unfold show_u. destruct (N.to_uint (Z.to_N n)) eqn:E; cbn; try apply string_of_uint_digits.
  done.
Qed.

Lemma show_nonempty n : show_u n <> "".
Proof. unfold show_u. destruct (N.to_uint (Z.to_N n)); cbn; done. Qed.

Lemma is_digit_cases c : is_digit c = true -> is_ws c = false /\ c <> "+"%char.
Proof. by destruct c as [[] [] [] [] [] [] [] []]; cbn. Qed.

Lemma all_digits_no_ws s : all_digits s = true -> no_ws s = true.
Proof.
  induction s as [|c s IH]; [done|]. cbn. rewrite !andb_true_iff. intros [Hc Hs].
  split; [by rewrite (proj1 (is_digit_cases c Hc))|by apply IH].
Qed.

(** Reading back what was written. *)
Lemma parse_show w n : 0 <= n < 2 ^ w -> parse_u w (show_u n) = Some n.
Proof.
  intros Hn. unfold parse_u.
  assert (match show_u n with String c s' => if Ascii.eqb c "+" then s' else show_u n
          | "" => show_u n end = show_u n) as ->.
  { pose proof (show_all_digits n) as Hd. destruct (show_u n) as [|c s]; [done|].
    cbn in Hd. apply andb_true_iff in Hd as [Hc _].
    destruct (Ascii.eqb_spec c "+") as [->|]; [done|done]. }
  rewrite show_digits by lia. cbn. by destruct (Z.ltb_spec n (2 ^ w)); [|lia].
Qed.

Lemma trim_show n : trim (show_u n) = show_u n.
Proof. apply trim_no_ws, all_digits_no_ws, show_all_digits. Qed.

Lemma parse_u_range w s n : parse_u w s = Some n -> 0 <= n < 2 ^ w.
Proof.
  unfold parse_u, digits. set (b := match s with "" => s | _ => _ end).
  destruct (NilZero.uint_of_string b) as [d|]; cbn; [|done].
  destruct (Z.ltb_spec (Z.of_N (N.of_uint d)) (2 ^ w)); [|done].
  intros E. injection E as <-. lia.
Qed.

Lemma parse_u_empty w : parse_u w "" = None.
Proof. done. Qed.

(** *** Splitting at a character that does not occur in the left part *)

Fixpoint has_char (c : ascii) (s : string) : bool :=
  match s with EmptyString => false | String d s => Ascii.eqb c d || has_char c s end.

Lemma find_char_app c s t :
  has_char c s = false -> find_char c (s +:+ String c t) = Some (String.length s).
Proof.
  induction s as [|d s IH]; intros H.
  - rewrite app_nil. cbn. by rewrite Ascii.eqb_refl.
  - cbn in H. apply orb_false_iff in H as [Hd Hs]. rewrite app_cons. cbn. by rewrite Hd, IH.
Qed.

Lemma find_char_none c s : has_char c s = false -> find_char c s = None.
Proof.
  induction s as [|d s IH]; cbn; [done|]. intros H.
  apply orb_false_iff in H as [-> Hs]. by rewrite IH.
Qed.

Lemma stake_app s t : stake (String.length s) (s +:+ t) = s.
Proof. induction s as [|c s IH]; [by destruct t|]. rewrite app_cons. cbn. by rewrite IH. Qed.

Lemma sdrop_app s t : sdrop (String.length s) (s +:+ t) = t.
Proof. induction s as [|c s IH]; [done|]. rewrite app_cons. exact IH. Qed.

Lemma sdrop_app_S s c t : sdrop (S (String.length s)) (s +:+ String c t) = t.
Proof. induction s as [|d s IH]; [done|]. rewrite app_cons. exact IH. Qed.

Lemma split_once_app c s t :
  has_char c s = false -> split_once c (s +:+ String c t) = Some (s, t).
Proof.
  intros H. unfold split_once. rewrite find_char_app by done. cbn [mbind option_bind].
  by rewrite stake_app, sdrop_app_S.
Qed.

Lemma digits_no_char c s : is_digit c = false -> all_digits s = true -> has_char c s = false.
Proof.
  intros Hc. induction s as [|d s IH]; cbn; [done|]. rewrite andb_true_iff. intros [Hd Hs].
  rewrite IH by done. rewrite orb_false_r. apply Ascii.eqb_neq. congruence.
Qed.

Lemma split_char_none c s : find_char c s = None -> split_char c s = [s].
Proof.
  induction s as [|d s IH]; [done|]. cbn. destruct (Ascii.eqb c d); [done|].
  destruct (find_char c s); cbn; [done|]. intros _. by rewrite IH.
Qed.

Lemma split_char_some c s i :
  find_char c s = Some i -> (2 <= length (split_char c s))%nat.
Proof.
  revert i. induction s as [|d s IH]; intros i; [done|]. cbn. destruct (Ascii.eqb c d).
  - intros _. cbn. destruct s as [|e s]; cbn; [lia|].
    destruct (Ascii.eqb c e); cbn; [lia|]. destruct (split_char c s); cbn; lia.
  - destruct (find_char c s) as [j|]; cbn; [|done]. intros _.
    specialize (IH j eq_refl). destruct (split_char c s); cbn in *; lia.
Qed.

Lemma sdrop_string_app p s : sdrop (String.length p) (p +:+ s) = s.
Proof. apply sdrop_app. Qed.

(** [s.trim_matches(c)] *)
Fixpoint trim_start_char (c : ascii) (s : string) : string :=
  match s with
  | String d s' => if Ascii.eqb c d then trim_start_char c s' else s
  | EmptyString => ""
  end.

Fixpoint trim_end_char (c : ascii) (s : string) : string :=
  match s with
  | EmptyString => ""
  | String d s' =>
      match trim_end_char c s' with
      | EmptyString => if Ascii.eqb c d then "" else String d ""
      | t => String d t
      end
  end.

Definition trim_matches (c : ascii) (s : string) : string :=
  trim_end_char c (trim_start_char c s).

(** [format!("{:0>n}", x)] of an integer. *)
Fixpoint zeros (n : nat) : string :=
  match n with O => "" | S n => String "0" (zeros n) end.

Definition pad_zeros (n : nat) (s : string) : string :=
  zeros (n - String.length s) +:+ s.

Lemma has_char_app c s t : has_char c (s +:+ t) = has_char c s || has_char c t.
Proof.
  induction s as [|d s IH]; [done|]. rewrite app_cons. cbn. by rewrite IH, orb_assoc.
Qed.

(** ** The end of a text, and lists of words *)

Lemma has_char_rfind c s : has_char c s = false -> rfind_char c s = None.
Proof.
  induction s as [|d s IH]; [done|]. cbn. intros [H1 H2]%orb_false_elim.
  by rewrite (IH H2), H1.
Qed.

Lemma rfind_app c s t : has_char c t = false -> rfind_char c (s +:+ String c t) = Some (String.length s).
Proof.
  intros H. induction s as [|d s IH].
  - rewrite app_nil. cbn. by rewrite (has_char_rfind _ _ H), Ascii.eqb_refl.
  - rewrite app_cons. cbn. by rewrite IH.
Qed.

Lemma rsplit_once_app c s t : has_char c t = false -> rsplit_once c (s +:+ String c t) = Some (s, t).
Proof.
  intros H. unfold rsplit_once. rewrite rfind_app by done. cbn [mbind option_bind]. by rewrite stake_app, sdrop_app_S.
Qed.

Lemma rsplit_once_none c s : has_char c s = false -> rsplit_once c s = None.
Proof. intros H. unfold rsplit_once. by rewrite has_char_rfind. Qed.

Lemma split_char_app c s t :
  has_char c s = false -> split_char c (s +:+ String c t) = s :: split_char c t.
Proof.
  induction s as [|d s IH]; intros H.
  - rewrite app_nil. cbn. by rewrite Ascii.eqb_refl.
  - rewrite app_cons. cbn in *. apply orb_false_elim in H as [-> H]. by rewrite IH.
Qed.

(** Words with [c] between them. *)
Fixpoint join (c : ascii) (ws : list string) : string :=
  match ws with
  | [] => ""
  | [w] => w
  | w :: ws => w +:+ String c (join c ws)
  end.

Lemma split_join c ws :
  ws <> [] -> Forall (fun w => has_char c w = false) ws -> split_char c (join c ws) = ws.
Proof.
  intros Hne H. induction H as [|w ws Hw H IH]; [done|]. destruct ws as [|w' ws].
  - cbn. by apply split_char_none, find_char_none.
  - change (join c (w :: w' :: ws)) with (w +:+ String c (join c (w' :: ws))).
    rewrite split_char_app by done. by rewrite IH.
Qed.

Lemma no_ws_app s t : no_ws (s +:+ t) = no_ws s && no_ws t.
Proof. induction s as [|c s IH]; [done|]. rewrite app_cons. cbn. by rewrite IH, andb_assoc. Qed.

Lemma no_ws_space s : no_ws s = true -> has_char " " s = false.
Proof.
  induction s as [|c s IH]; [done|]. cbn [no_ws has_char]. intros [Hc Hs]%andb_prop.
  rewrite (IH Hs), orb_false_r. apply Ascii.eqb_neq. intros <-. by vm_compute in Hc.
Qed.

(** ** UTF-8

    Bytes as they come from a connection are numbers below 256. *)

(** The number of bytes of a character that starts with [a], if one can. *)
Definition utf8_width (a : Z) : nat :=
  if a <? 128 then 1 else if a <? 194 then 0 else if a <? 224 then 2 else if a <? 240 then 3
  else if a <? 245 then 4 else 0.

Definition utf8_cont (b : Z) : bool := (128 <=? b) && (b <=? 191).

(** The second byte of a longer character: some are overlong, surrogates or
    out of range. *)
Definition utf8_second (a b : Z) : bool :=
  if a =? 224 then (160 <=? b) && (b <=? 191)
  else if a =? 237 then (128 <=? b) && (b <=? 159)
  else if a =? 240 then (144 <=? b) && (b <=? 191)
  else if a =? 244 then (128 <=? b) && (b <=? 143)
  else utf8_cont b.

(** The characters of [l], and between them the shortest pieces that are
    none. *)
Fixpoint utf8_chunks (l : list Z) : list (bool * list Z) :=
  match l with
  | [] => []
  | a :: l1 =>
      match utf8_width a with
      | 1%nat => (true, [a]) :: utf8_chunks l1
      | 2%nat =>
          match l1 with
          | b :: l2 => if utf8_cont b then (true, [a; b]) :: utf8_chunks l2
                       else (false, [a]) :: utf8_chunks l1
          | [] => [(false, [a])]
          end
      | 3%nat =>
          match l1 with
          | b :: l2 =>
              if utf8_second a b then
                match l2 with
                | c :: l3 => if utf8_cont c then (true, [a; b; c]) :: utf8_chunks l3
                             else (false, [a; b]) :: utf8_chunks l2
                | [] => [(false, [a; b])]
                end
              else (false, [a]) :: utf8_chunks l1
          | [] => [(false, [a])]
          end
      | 4%nat =>
          match l1 with
          | b :: l2 =>
              if utf8_second a b then
                match l2 with
                | c :: l3 =>
                    if utf8_cont c then
                      match l3 with
                      | d :: l4 => if utf8_cont d then (true, [a; b; c; d]) :: utf8_chunks l4
                                   else (false, [a; b; c]) :: utf8_chunks l3
                      | [] => [(false, [a; b; c])]
                      end
                    else (false, [a; b]) :: utf8_chunks l2
                | [] => [(false, [a; b])]
                end
              else (false, [a]) :: utf8_chunks l1
          | [] => [(false, [a])]
          end
      | _ => (false, [a]) :: utf8_chunks l1
      end
  end.

Definition text_of (l : list Z) : string := of_bytes ((fun x => ascii_of_N (Z.to_N x)) <$> l).

(** [String::from_utf8] *)
Definition from_utf8 (l : list Z) : outcome string :=
  if forallb fst (utf8_chunks l) then Ok (text_of l) else Err "FromUtf8Error".

(** [String::from_utf8_lossy]: U+FFFD for each piece that is no character. *)
Definition from_utf8_lossy (l : list Z) : string :=
  text_of (utf8_chunks l ≫= fun '(ok, d) => if ok : bool then d else [239; 191; 189])%list.

(** [s.as_bytes()] *)
Definition as_bytes (s : string) : list Z := (fun c => Z.of_N (N_of_ascii c)) <$> bytes_of s.

Lemma text_of_bytes s : text_of (as_bytes s) = s.
Proof.
  unfold text_of, as_bytes. induction s as [|c s IH]; [done|]. cbn. f_equal; [|exact IH].
  rewrite N2Z.id. apply Stdlib.Strings.Ascii.ascii_N_embedding.
Qed.

(** What is ASCII reads as it is. *)
Definition is_ascii (s : string) : bool := forallb (fun x => x <? 128) (as_bytes s).

Lemma utf8_chunks_ascii l :
  forallb (fun x => x <? 128) l = true -> utf8_chunks l = (fun x => (true, [x])) <$> l.
Proof.
  induction l as [|a l IH]; [done|]. cbn [forallb]. intros [Ha Hl]%andb_true_iff.
  cbn [utf8_chunks]. unfold utf8_width. rewrite Ha. cbn. by rewrite IH.
Qed.

Lemma lossy_ascii s : is_ascii s = true -> from_utf8_lossy (as_bytes s) = s.
Proof.
  intros H. unfold from_utf8_lossy. rewrite utf8_chunks_ascii by exact H.
  rewrite <- (text_of_bytes s) at 2. f_equal. generalize (as_bytes s) as l. intros l. induction l as [|x l IH]; [done|]. cbn. by f_equal.
Qed.

Lemma utf8_ascii s : is_ascii s = true -> from_utf8 (as_bytes s) = Ok s.
Proof.
  intros H. unfold from_utf8. rewrite utf8_chunks_ascii by exact H.
  assert (forall l : list Z, forallb fst ((fun x => (true, [x])) <$> l) = true) as -> by (intros l; by induction l).
  by rewrite text_of_bytes.
Qed.
