(* ===== verification/Bitmap.v ===== *)
(** The slice bitmap of a cache file (any-proxy/src/proxy/http_proxy/bitmap.rs):
    which slices of a cached body are on disk, the largest cached run that a
    range request can be served from, and the marking of the slices a body
    write has completed. *)
From S2P Require Import Prelude.

(** ** Data *)

(** [struct BitMap] *)
Record BitMap := mkBitMap {
  bitset : list Z;            (* Vec<u8> *)
  slice_size : Z;             (* usize: number of slices (bits in use) *)
  curr_slice_size : Z;        (* usize: slices marked so far *)
}.

(** ** Operations *)

(** [BitMap::new] *)
Definition bitmap_new (byte_size slice_size : Z) : BitMap :=
  mkBitMap (replicate (Z.to_nat byte_size) 0) slice_size 0.

(** [bitmap_size]: bytes and bits needed for [size] bytes in slices of [slice]. *)
Definition bitmap_size (size slice : Z) : outcome (Z * Z) :=
  if size <=? 0 then Ok (0, 0)
  else
    q ← zdiv (size - 1) slice;
    let slice_size := wrap64 (q + 1) in
    let byte_size := wrap64 (wrap64 (slice_size - 1) / 8 + 1) in
    Ok (byte_size, slice_size).

(** [BitMap::from_slice] *)
Definition from_slice (size slice : Z) : outcome BitMap :=
  '(byte_size, slice_size) ← bitmap_size size slice;
  Ok (bitmap_new byte_size slice_size).

(** [BitMap::get_bit] *)
Definition get_bit (bm : BitMap) (index : Z) : outcome bool :=
  let byte_index := index / 8 in
  let bit_index := index mod 8 in
  b ← vget (bitset bm) byte_index;
  Ok (negb (Z.land b (Z.shiftl 1 bit_index) =? 0)).

(** [BitMap::set_bit] *)
Definition set_bit (bm : BitMap) (index : Z) (value : bool) : outcome BitMap :=
  old ← get_bit bm index;
  if Bool.eqb old value then Ok bm
  else
    let curr := wrap64 (curr_slice_size bm + 1) in
    let byte_index := index / 8 in
    let bit_index := index mod 8 in
    b ← vget (bitset bm) byte_index;
    let b' := if value then Z.lor b (Z.shiftl 1 bit_index)
              else Z.land b (Z.lxor 255 (Z.shiftl 1 bit_index)) in
    bs ← vset (bitset bm) byte_index b';
    Ok (mkBitMap bs (slice_size bm) curr).

(** The body of the loop of [BitMap::repair]: count the bits from [index] on. *)
Fixpoint repair_loop (bm : BitMap) (index : Z) (n : nat) (curr : Z) : outcome Z :=
  match n with
  | O => Ok curr
  | S n =>
      b ← get_bit bm index;
      repair_loop bm (index + 1) n (if (b : bool) then wrap64 (curr + 1) else curr)
  end.

(** [BitMap::repair] *)
Definition repair (bm : BitMap) : outcome BitMap :=
  curr ← repair_loop bm 0 (Z.to_nat (slice_size bm)) 0;
  Ok (mkBitMap (bitset bm) (slice_size bm) curr).

(** [BitMap::is_full] *)
Definition is_full (bm : BitMap) : bool := slice_size bm =? curr_slice_size bm.

(** [BitMap::size] *)
Definition bitmap_bytes (bm : BitMap) : Z := zlen (bitset bm).

(** The loop of [BitMap::to_string]. *)
Fixpoint to_string_loop (bm : BitMap) (index : Z) (n : nat) (acc : string) : outcome string :=
  match n with
  | O => Ok acc
  | S n =>
      b ← get_bit bm index;
      to_string_loop bm (index + 1) n (acc +:+ (if (b : bool) then "1" else "0"))%string
  end.

(** [BitMap::to_string] *)
Definition bitmap_to_string (bm : BitMap) : outcome string :=
  to_string_loop bm 0 (Z.to_nat (slice_size bm)) "".

(** [align_bitset_start_index] *)
Definition align_bitset_start_index (range_start slice : Z) : outcome Z :=
  r ← zrem range_start slice;
  if negb (r =? 0) then Err "not align" else zdiv range_start slice.

(** The test the aligned functions share: the range is made of whole slices. *)
Definition range_aligned (range_start range_end slice : Z) : outcome bool :=
  r1 ← zrem range_start slice;
  r2 ← zrem (wrap64 (range_end + 1)) slice;
  Ok (negb (negb (r1 =? 0) || negb (r2 =? 0))).

(** [align_bitset_index]: the slice numbers of an aligned range. *)
Definition align_bitset_index (range_start range_end slice : Z) : outcome (list Z) :=
  if range_end <=? range_start then Err "range_start >= range_end"
  else
    al ← range_aligned range_start range_end slice;
    if negb al then Err "not align"
    else
      index ← zdiv range_start slice;
      size ← zdiv (wrap64 (range_end - range_start + 1)) slice;
      Ok (seqZ index size).

(** [is_first_n_bits_set] *)
Definition is_first_n_bits_set (byte n : Z) : outcome bool :=
  if 8 <? n then Panic
  else
    let mask := wrap8 (Z.shiftl 1 n - 1) in
    Ok (Z.land byte mask =? mask).

(** [is_first_n_bits_set_skip] *)
Definition is_first_n_bits_set_skip (byte skip n : Z) : outcome bool :=
  if 8 <? wrap8 (skip + n) then Panic
  else is_first_n_bits_set (Z.shiftr byte skip) n.

(** The inner loop of [align_bitset_end_index]: the longest prefix of the
    [num] bits of one byte, tried from [num - 1] down. *)
Fixpoint partial_run (b skip : Z) (num : nat) : outcome Z :=
  match num with
  | O => Ok 0
  | S n =>
      if (n =? 0)%nat then Ok 0
      else
        r ← is_first_n_bits_set_skip b skip (Z.of_nat n);
        if (r : bool) then Ok (Z.of_nat n) else partial_run b skip n
  end.

(** The outer loop of [align_bitset_end_index]: one byte of the bitmap per
    round; the result is the number of leading set bits. *)
Fixpoint run_loop (fuel : nat) (bs : list Z) (index size len : Z) : outcome Z :=
  match fuel with
  | O => Fuel
  | S fuel =>
      if size <=? 0 then Ok len
      else
        let byte_index := index / 8 in
        if zlen bs <=? byte_index then Ok len
        else
          let skip := index mod 8 in
          let num := Z.min size (8 - skip) in
          b ← vget bs byte_index;
          r ← is_first_n_bits_set_skip b skip num;
          if (r : bool)
          then run_loop fuel bs (wrap64 (index + num)) (size - num) (wrap64 (len + num))
          else
            n ← partial_run b skip (Z.to_nat num);
            Ok (wrap64 (len + n))
  end.

(** [align_bitset_end_index]: the end of the longest cached stretch, in steps
    of the requested range's length, that starts at [range_start] and stays
    below [slice_end]; 0 when the requested range is not cached. *)
Definition align_bitset_end_index (bm : BitMap)
    (range_start range_end slice_end slice : Z) : outcome Z :=
  if range_end <=? range_start then Err "range_start >= range_end"
  else
    al ← range_aligned range_start range_end slice;
    r3 ← zrem (wrap64 (slice_end + 1)) slice;
    if negb al || negb (r3 =? 0) then Err "not align"
    else
      index ← zdiv range_start slice;
      size ← zdiv (wrap64 (wrap64 (slice_end - range_start) + 1)) slice;
      len ← run_loop (S (S (length (bitset bm)))) (bitset bm) index size 0;
      size ← zdiv (wrap64 (range_end - range_start + 1)) slice;
      q ← zdiv len size;
      let len := wrap64 (q * size) in
      if len <=? 0 then Ok 0
      else Ok (wrap64 (wrap64 (range_start + wrap64 (len * slice)) - 1)).

(** The loop of [align_bitset_ok]. *)
Fixpoint all_set (bm : BitMap) (indexs : list Z) : outcome bool :=
  match indexs with
  | [] => Ok true
  | i :: indexs =>
      b ← get_bit bm i;
      if negb b then Ok false else all_set bm indexs
  end.

(** [align_bitset_ok] *)
Definition align_bitset_ok (bm : BitMap) (range_start range_end slice : Z) : outcome bool :=
  indexs ← align_bitset_index range_start range_end slice;
  all_set bm indexs.

(** The slices [update_bitset] marks: those that end inside the written
    range, and the last slice of the file when the write reached its end. *)
Definition update_indexs (range_start range_end slice skip file_length : Z) : outcome (list Z) :=
  index ← zdiv range_start slice;
  size ← zdiv (wrap64 (range_end + 1)) slice;
  if size <? index then Panic  (* Vec::with_capacity(size - index) *)
  else
    let indexs := base.filter (fun v => ~ (0 < skip /\ skip = v)) (seqZ index (size - index)) in
    if wrap64 (range_end + 1) =? file_length
    then last ← zdiv range_end slice; Ok (indexs ++ [last])
    else Ok indexs.

Fixpoint set_bits (bm : BitMap) (indexs : list Z) : outcome BitMap :=
  match indexs with
  | [] => Ok bm
  | i :: indexs => bm' ← set_bit bm i true; set_bits bm' indexs
  end.

(** [update_bitset]: the flag says whether any slice was marked. *)
Definition update_bitset (bm : BitMap)
    (range_start range_end slice skip_bitset_index file_length : Z) : outcome (BitMap * bool) :=
  if range_end <? range_start then Err "range_start >= range_end"
  else if range_start =? range_end then Ok (bm, false)
  else
    indexs ← update_indexs range_start range_end slice skip_bitset_index file_length;
    bm' ← set_bits bm indexs;
    Ok (bm', negb (bool_decide (indexs = []))).

(** ** Examples of the source's comments *)

Example bitmap_size_ex :
  (bitmap_size 99 100, bitmap_size 100 100, bitmap_size 101 100, bitmap_size 801 100)
  = (Ok (1, 1), Ok (1, 1), Ok (1, 2), Ok (2, 9)).
Proof. reflexivity. Qed.

Example update_ex :
  (b ← from_slice 1000 100; '(b, _) ← update_bitset b 0 299 100 (-1) 1000; bitmap_to_string b)
  = Ok "1110000000"%string.
Proof. reflexivity. Qed.

Example end_index_ex :
  (b ← from_slice 1000 100; '(b, _) ← update_bitset b 0 499 100 (-1) 1000;
   align_bitset_end_index b 0 199 999 100) = Ok 399.
Proof. reflexivity. Qed.

(** ** Specification

    [bit_at bs i] is bit [i] of the bitmap, false beyond its end; [count n]
    is the number of set bits below [n]; [run_len] is the number of leading
    set bits. *)
Definition byte_at (bs : list Z) (i : Z) : Z := default 0 (bs !! Z.to_nat (i / 8)).

Definition bit_at (bs : list Z) (i : Z) : bool :=
  Z.testbit (byte_at bs i) (i mod 8).

Fixpoint count_bits (bs : list Z) (n : nat) : Z :=
  match n with
  | O => 0
  | S n => count_bits bs n + (if bit_at bs (Z.of_nat n) then 1 else 0)
  end.

Fixpoint run_len (bs : list Z) (index : Z) (n : nat) : Z :=
  match n with
  | O => 0
  | S n => if bit_at bs index then 1 + run_len bs (index + 1) n else 0
  end.

Record bitmap_wf (bm : BitMap) : Prop := {
  wf_bytes : Forall is_u8 (bitset bm);
  wf_slices : 0 <= slice_size bm <= 8 * zlen (bitset bm);
  wf_size : 8 * zlen (bitset bm) < 2 ^ 63;
}.

(** The counter is the number of slices marked. *)
Definition bitmap_counted (bm : BitMap) : Prop :=
  curr_slice_size bm = count_bits (bitset bm) (Z.to_nat (slice_size bm)).

(** *** Bits of a byte *)

Lemma land_pow2_zero b k : 0 <= k -> (Z.land b (Z.shiftl 1 k) =? 0) = negb (Z.testbit b k).
Proof.
  intros Hk. rewrite Z.shiftl_1_l.
  destruct (Z.testbit b k) eqn:E; cbn.
  - apply Z.eqb_neq. intros H0.
    assert (Z.testbit (Z.land b (2 ^ k)) k = true) as Ht.
    { by rewrite Z.land_spec, E, Z.pow2_bits_true. }
    by rewrite H0, Z.bits_0 in Ht.
  - apply Z.eqb_eq. apply Z.bits_inj. intros m. rewrite Z.land_spec, Z.bits_0.
    destruct (decide (m = k)) as [->|Hne]; [by rewrite E|].
    rewrite Z.pow2_bits_false by done. by rewrite andb_false_r.
Qed.

Lemma u8_bits b : 0 <= b < 2 ^ 8 <-> 0 <= b /\ forall k, 8 <= k -> Z.testbit b k = false.
Proof.
  split.
  - intros Hb. split; [lia|]. intros k Hk.
    destruct (decide (b = 0)) as [->|]; [apply Z.bits_0|].
    apply Z.bits_above_log2; [lia|].
    apply (Z.lt_le_trans _ 8); [apply Z.log2_lt_pow2; lia|lia].
  - intros [H0 Hk]. split; [done|].
    destruct (decide (b = 0)); [lia|]. apply Z.log2_lt_pow2; [lia|].
    destruct (decide (Z.log2 b < 8)); [done|].
    assert (Z.testbit b (Z.log2 b) = true) by (apply Z.bit_log2; lia).
    rewrite Hk in H by lia. done.
Qed.

Lemma lor_bit_u8 b k : is_u8 b -> 0 <= k < 8 -> is_u8 (Z.lor b (Z.shiftl 1 k)).
Proof.
  unfold in_width. rewrite !u8_bits. intros [H0 Hb] Hk. split.
  - apply Z.lor_nonneg. split; [done|]. apply Z.shiftl_nonneg. lia.
  - intros m Hm. rewrite Z.lor_spec, Hb by done.
    rewrite Z.shiftl_1_l, Z.pow2_bits_false by lia. done.
Qed.

Lemma testbit_lor_bit b k m :
  0 <= k -> Z.testbit (Z.lor b (Z.shiftl 1 k)) m = (k =? m) || Z.testbit b m.
Proof.
  intros Hk. rewrite Z.lor_spec, Z.shiftl_1_l, orb_comm. f_equal.
  by rewrite Z.pow2_bits_eqb.
Qed.

Lemma first_bits_spec byte n :
  0 <= n <= 8 ->
  exists r, is_first_n_bits_set byte n = Ok r /\
    (r = true <-> forall k, 0 <= k < n -> Z.testbit byte k = true).
Proof.
  intros Hn. unfold is_first_n_bits_set. destruct (Z.ltb_spec 8 n); [lia|].
  assert (wrap8 (Z.shiftl 1 n - 1) = Z.ones n) as ->.
  { unfold wrap, Z.ones. rewrite !Z.shiftl_1_l, Z.sub_1_r.
    apply Z.mod_small. split; [pose proof (Z.pow_pos_nonneg 2 n); lia|].
    assert (2 ^ n <= 2 ^ 8) by (apply Z.pow_le_mono_r; lia). lia. }
  eexists. split; [done|]. rewrite Z.eqb_eq. split.
  - intros E k Hk.
    assert (Z.testbit (Z.land byte (Z.ones n)) k = true) as Ht.
    { rewrite E, Z.ones_spec_low by lia. done. }
    rewrite Z.land_spec, andb_true_iff in Ht. by destruct Ht.
  - intros Hall. apply Z.bits_inj'. intros m Hm. rewrite Z.land_spec.
    destruct (decide (m < n)).
    + rewrite Hall by lia. done.
    + rewrite Z.ones_spec_high by lia. apply andb_false_r.
Qed.

Lemma first_bits_skip_spec byte skip n :
  0 <= skip -> 0 <= n -> skip + n <= 8 ->
  exists r, is_first_n_bits_set_skip byte skip n = Ok r /\
    (r = true <-> forall k, 0 <= k < n -> Z.testbit byte (skip + k) = true).
Proof.
  intros Hs Hn Hsn. unfold is_first_n_bits_set_skip.
  rewrite wrap_id by (unfold in_width; lia). destruct (Z.ltb_spec 8 (skip + n)); [lia|].
  destruct (first_bits_spec (Z.shiftr byte skip) n) as (r & Hr & Hiff); [lia|].
  exists r. split; [done|]. rewrite Hiff.
  split; intros H' k Hk; specialize (H' k Hk);
    rewrite Z.shiftr_spec, (Z.add_comm k) in * by lia; done.
Qed.

(** *** Reading and marking one bit *)

Lemma byte_lookup (bs : list Z) i :
  0 <= i < 8 * zlen bs -> bs !! Z.to_nat (i / 8) = Some (byte_at bs i).
Proof.
  intros Hi. unfold byte_at. destruct (lookup_lt_is_Some_2 bs (Z.to_nat (i / 8))) as [b Hb].
  { unfold zlen in Hi. enough (i / 8 < Z.of_nat (length bs)) by (pose proof (Z.div_pos i 8); lia).
    apply Z.div_lt_upper_bound; lia. }
  by rewrite Hb.
Qed.

Lemma vget_byte (bs : list Z) i :
  0 <= i < 8 * zlen bs -> vget bs (i / 8) = Ok (byte_at bs i).
Proof.
  intros Hi. apply vget_ok. split; [apply Z.div_pos; lia|by apply byte_lookup].
Qed.

Lemma get_bit_spec bm i :
  0 <= i < 8 * zlen (bitset bm) -> get_bit bm i = Ok (bit_at (bitset bm) i).
Proof.
  intros Hi. unfold get_bit. rewrite vget_byte by done. cbn [mbind outcome_bind].
  rewrite land_pow2_zero by (apply Z.mod_pos_bound; lia). by rewrite negb_involutive.
Qed.

Lemma get_bit_out bm i :
  ~ (0 <= i < 8 * zlen (bitset bm)) -> get_bit bm i = Panic.
Proof.
  intros Hi. unfold get_bit. rewrite vget_out; [done|]. intros [H0 H1].
  apply Hi. pose proof (Z.div_mod i 8). pose proof (Z.mod_pos_bound i 8). lia.
Qed.

Lemma bit_index_neq i j : i <> j -> i / 8 = j / 8 -> i mod 8 <> j mod 8.
Proof. pose proof (Z.div_mod i 8). pose proof (Z.div_mod j 8). lia. Qed.

Lemma byte_at_insert (bs : list Z) i j b :
  0 <= i < 8 * zlen bs -> 0 <= j ->
  byte_at (<[Z.to_nat (i / 8) := b]> bs) j = if decide (i / 8 = j / 8) then b else byte_at bs j.
Proof.
  intros Hi Hj. unfold byte_at.
  pose proof (byte_lookup bs i Hi) as Hl. apply lookup_lt_Some in Hl as Hlen.
  pose proof (Z.div_pos i 8). pose proof (Z.div_pos j 8).
  case_decide as E.
  - rewrite <- E. by rewrite list_lookup_insert_eq by lia.
  - by rewrite list_lookup_insert_ne by lia.
Qed.

Lemma bit_at_insert (bs : list Z) i j :
  0 <= i < 8 * zlen bs -> 0 <= j ->
  bit_at (<[Z.to_nat (i / 8) := Z.lor (byte_at bs i) (Z.shiftl 1 (i mod 8))]> bs) j
  = bool_decide (i = j) || bit_at bs j.
Proof.
  intros Hi Hj. unfold bit_at. rewrite byte_at_insert by done.
  pose proof (Z.mod_pos_bound i 8). case_decide as E.
  - rewrite testbit_lor_bit by lia.
    assert (byte_at bs i = byte_at bs j) as -> by (unfold byte_at; by rewrite E). f_equal.
    destruct (decide (i = j)) as [->|Hne].
    + by rewrite bool_decide_eq_true_2, Z.eqb_refl.
    + rewrite bool_decide_eq_false_2 by done. apply Z.eqb_neq. by apply bit_index_neq.
  - rewrite bool_decide_eq_false_2 by congruence. done.
Qed.

Definition mark (bm : BitMap) (i : Z) : BitMap :=
  if bit_at (bitset bm) i then bm
  else mkBitMap
         (<[Z.to_nat (i / 8) := Z.lor (byte_at (bitset bm) i) (Z.shiftl 1 (i mod 8))]>
            (bitset bm))
         (slice_size bm) (wrap64 (curr_slice_size bm + 1)).

Lemma set_bit_true bm i :
  0 <= i < 8 * zlen (bitset bm) -> set_bit bm i true = Ok (mark bm i).
Proof.
  intros Hi. unfold set_bit, mark. rewrite get_bit_spec by done. cbn [mbind outcome_bind].
  destruct (bit_at (bitset bm) i); cbn [Bool.eqb]; [done|].
  rewrite vget_byte by done. cbn [mbind outcome_bind]. rewrite vset_ok; [done|].
  split; [apply Z.div_pos; lia|]. apply Z.div_lt_upper_bound; lia.
Qed.

Lemma mark_length bm i : zlen (bitset (mark bm i)) = zlen (bitset bm).
Proof. unfold mark, zlen. case_match; cbn; [done|by rewrite length_insert]. Qed.

Lemma mark_slices bm i : slice_size (mark bm i) = slice_size bm.
Proof. unfold mark. by case_match. Qed.

Lemma mark_bit bm i j :
  0 <= i < 8 * zlen (bitset bm) -> 0 <= j ->
  bit_at (bitset (mark bm i)) j = bool_decide (i = j) || bit_at (bitset bm) j.
Proof.
  intros Hi Hj. unfold mark. destruct (bit_at (bitset bm) i) eqn:E; cbn [bitset].
  - destruct (decide (i = j)) as [<-|]; [by rewrite E, orb_true_r|].
    by rewrite bool_decide_eq_false_2.
  - by apply bit_at_insert.
Qed.

Lemma mark_wf bm i : 0 <= i < 8 * zlen (bitset bm) -> bitmap_wf bm -> bitmap_wf (mark bm i).
Proof.
  intros Hi [Hb Hs Hz]. split; rewrite ?mark_length, ?mark_slices; try done.
  unfold mark. case_match; [done|]. cbn. apply Forall_insert; [done|].
  apply lor_bit_u8; [|by apply Z.mod_pos_bound].
  eapply Forall_lookup_1; [exact Hb|by apply byte_lookup].
Qed.

Lemma count_bits_bound bs n : 0 <= count_bits bs n <= Z.of_nat n.
Proof. induction n as [|n IH]; cbn [count_bits]; [lia|]. case_match; lia. Qed.

Lemma count_bits_ext bs bs' n :
  (forall j, 0 <= j < Z.of_nat n -> bit_at bs j = bit_at bs' j) ->
  count_bits bs n = count_bits bs' n.
Proof.
  induction n as [|n IH]; cbn [count_bits]; intros H; [done|].
  rewrite H by lia. rewrite IH; [done|]. intros j Hj. apply H. lia.
Qed.

Lemma count_bits_mark bs bs' i n :
  0 <= i < Z.of_nat n -> bit_at bs i = false ->
  (forall j, 0 <= j -> bit_at bs' j = bool_decide (i = j) || bit_at bs j) ->
  count_bits bs' n = count_bits bs n + 1.
Proof.
  induction n as [|n IH]; intros Hi Hf Hj; [lia|]. cbn [count_bits].
  rewrite (Hj (Z.of_nat n)) by lia. destruct (decide (i = Z.of_nat n)) as [->|Hne].
  - rewrite bool_decide_eq_true_2 by done. rewrite Hf. cbn [orb].
    rewrite (count_bits_ext bs' bs); [lia|]. intros j Hjn. rewrite Hj by lia.
    by rewrite bool_decide_eq_false_2 by lia.
  - rewrite bool_decide_eq_false_2 by done. cbn [orb]. rewrite IH by (done || lia). lia.
Qed.

Lemma mark_counted bm i :
  bitmap_wf bm -> 0 <= i < slice_size bm -> bitmap_counted bm -> bitmap_counted (mark bm i).
Proof.
  intros Hwf Hi Hc. pose proof (wf_slices _ Hwf). pose proof (wf_size _ Hwf).
  unfold bitmap_counted in *. rewrite mark_slices. unfold mark.
  destruct (bit_at (bitset bm) i) eqn:E; [done|]. cbn [bitset curr_slice_size].
  rewrite (count_bits_mark (bitset bm) _ i); [|lia|done|].
  - rewrite Hc. apply wrap_id.
    pose proof (count_bits_bound (bitset bm) (Z.to_nat (slice_size bm))). unfold in_width. lia.
  - intros j Hj. apply bit_at_insert; lia.
Qed.

(** *** Marking a list of bits *)

Lemma set_bits_spec ix : forall bm,
  Forall (fun i => 0 <= i < 8 * zlen (bitset bm)) ix ->
  exists bm', set_bits bm ix = Ok bm' /\ bm' = foldl mark bm ix.
Proof.
  induction ix as [|i ix IH]; intros bm Hf; [by exists bm|].
  apply Forall_cons in Hf as [Hi Hf]. cbn. rewrite set_bit_true by done. cbn.
  apply IH. by rewrite mark_length.
Qed.

Lemma foldl_mark_bit ix : forall bm j,
  0 <= j -> Forall (fun i => 0 <= i < 8 * zlen (bitset bm)) ix ->
  bit_at (bitset (foldl mark bm ix)) j = bool_decide (j ∈ ix) || bit_at (bitset bm) j.
Proof.
  induction ix as [|i ix IH]; intros bm j Hj Hf; [done|].
  apply Forall_cons in Hf as [Hi Hf]. cbn [foldl]. rewrite IH by (done || by rewrite mark_length).
  rewrite mark_bit by done. rewrite (bool_decide_ext (j ∈ i :: ix) (i = j \/ j ∈ ix)).
  - rewrite bool_decide_or. destruct (bool_decide (j ∈ ix)), (bool_decide (i = j)); done.
  - rewrite elem_of_cons. split; intros [E|E]; auto.
Qed.

Lemma foldl_mark_inv ix : forall bm,
  bitmap_wf bm -> bitmap_counted bm -> Forall (fun i => 0 <= i < slice_size bm) ix ->
  bitmap_wf (foldl mark bm ix) /\ bitmap_counted (foldl mark bm ix) /\
  slice_size (foldl mark bm ix) = slice_size bm.
Proof.
  induction ix as [|i ix IH]; intros bm Hwf Hc Hf; [done|].
  apply Forall_cons in Hf as [Hi Hf]. cbn [foldl].
  pose proof (wf_slices _ Hwf).
  destruct (IH (mark bm i)) as (H1 & H2 & H3).
  - apply mark_wf; [lia|done].
  - by apply mark_counted.
  - by rewrite mark_slices.
  - by rewrite mark_slices in H3.
Qed.

(** *** Runs of set bits *)

Lemma bit_at_out bs i : 8 * zlen bs <= i -> bit_at bs i = false.
Proof.
  intros Hi. unfold bit_at, byte_at. rewrite lookup_ge_None_2; [cbn; apply Z.bits_0|].
  unfold zlen in Hi. assert (Z.of_nat (length bs) <= i / 8) by (apply Z.div_le_lower_bound; lia). lia.
Qed.

Lemma run_len_bound bs n : forall i, 0 <= run_len bs i n <= Z.of_nat n.
Proof.
  induction n as [|n IH]; intros i; cbn [run_len]; [lia|].
  case_match; [specialize (IH (i + 1))|]; lia.
Qed.

Lemma run_len_split bs m : forall i n,
  (m <= n)%nat -> (forall k, 0 <= k < Z.of_nat m -> bit_at bs (i + k) = true) ->
  run_len bs i n = Z.of_nat m + run_len bs (i + Z.of_nat m) (n - m).
Proof.
  induction m as [|m IH]; intros i n Hn Hk.
  - by rewrite Z.add_0_r, Nat.sub_0_r.
  - destruct n as [|n]; [lia|]. cbn [run_len].
    specialize (Hk 0) as H0. rewrite Z.add_0_r in H0. rewrite H0 by lia.
    rewrite (IH (i + 1) n); [|lia|].
    + replace (i + 1 + Z.of_nat m) with (i + Z.of_nat (S m)) by lia.
      replace (S n - S m)%nat with (n - m)%nat by lia. lia.
    + intros k Hkm. replace (i + 1 + k) with (i + (k + 1)) by lia. apply Hk. lia.
Qed.

Lemma run_len_stop bs m i n :
  (m < n)%nat -> (forall k, 0 <= k < Z.of_nat m -> bit_at bs (i + k) = true) ->
  bit_at bs (i + Z.of_nat m) = false -> run_len bs i n = Z.of_nat m.
Proof.
  intros Hm Hk Hf. rewrite (run_len_split bs m i n) by (lia || done).
  destruct (n - m)%nat eqn:E; [lia|]. cbn [run_len]. rewrite Hf. lia.
Qed.

Lemma run_len_all bs n : forall i k,
  0 <= k < run_len bs i n -> bit_at bs (i + k) = true.
Proof.
  induction n as [|n IH]; intros i k Hk; cbn [run_len] in Hk; [lia|].
  destruct (bit_at bs i) eqn:E; [|lia].
  destruct (decide (k = 0)) as [->|]; [by rewrite Z.add_0_r|].
  replace (i + k) with (i + 1 + (k - 1)) by lia. apply IH. lia.
Qed.

(** Bits of one byte, seen as bits of the bitmap. *)
Lemma bit_at_byte bs i k :
  0 <= i -> 0 <= k -> i mod 8 + k < 8 ->
  bit_at bs (i + k) = Z.testbit (byte_at bs i) (i mod 8 + k).
Proof.
  intros Hi Hk Hlt. unfold bit_at, byte_at.
  pose proof (Z.div_mod i 8). pose proof (Z.mod_pos_bound i 8).
  assert ((i + k) / 8 = i / 8) as ->.
  { symmetry. apply (Z.div_unique_pos _ _ _ (i mod 8 + k)); lia. }
  assert ((i + k) mod 8 = i mod 8 + k) as ->; [|done].
  symmetry. apply (Z.mod_unique_pos _ _ (i / 8)); lia.
Qed.

Lemma partial_run_spec b skip num :
  0 <= skip -> skip + Z.of_nat num <= 8 ->
  exists m, partial_run b skip num = Ok (Z.of_nat m) /\ (m <= num - 1)%nat /\
    (forall k, 0 <= k < Z.of_nat m -> Z.testbit b (skip + k) = true) /\
    (forall m', (m < m' < num)%nat ->
       ~ forall k, 0 <= k < Z.of_nat m' -> Z.testbit b (skip + k) = true).
Proof.
  intros Hs. induction num as [|n IH]; intros Hn; cbn [partial_run].
  { exists 0%nat. repeat split; (done || lia). }
  destruct (Nat.eqb_spec n 0) as [->|Hn0].
  { exists 0%nat. repeat split; (done || lia). }
  destruct (first_bits_skip_spec b skip (Z.of_nat n)) as (r & -> & Hr); [lia..|].
  cbn [mbind outcome_bind]. destruct r.
  - exists n. repeat split; [lia|by apply Hr|lia].
  - destruct IH as (m & -> & Hm & Hset & Hnot); [lia|].
    exists m. repeat split; [lia|done|]. intros m' Hm'.
    destruct (decide (m' = n)) as [->|]; [|apply Hnot; lia].
    intros Hall. apply Hr in Hall. done.
Qed.

(** The byte-wise loop computes the reference run length. *)
Lemma run_loop_spec bs : 8 * zlen bs < 2 ^ 63 -> forall fuel index size len,
  0 <= index < 2 ^ 62 -> 0 <= size < 2 ^ 62 -> 0 <= len < 2 ^ 62 ->
  (Z.to_nat (zlen bs - index / 8) + 2 <= fuel)%nat \/
    ((1 <= fuel)%nat /\ (size = 0 \/ zlen bs <= index / 8)) ->
  len + size < 2 ^ 62 -> index + size < 2 ^ 62 ->
  run_loop fuel bs index size len = Ok (len + run_len bs index (Z.to_nat size)).
Proof.
  intros Hlen. induction fuel as [|fuel IH]; intros index size len Hi Hsz Hl Hfuel Hls His; [lia|].
  cbn [run_loop]. destruct (Z.leb_spec size 0).
  { replace (Z.to_nat size) with 0%nat by lia. cbn. f_equal. lia. }
  destruct (Z.leb_spec (zlen bs) (index / 8)) as [Hout|Hin].
  { replace (Z.to_nat size) with (S (Z.to_nat size - 1)) by lia. cbn [run_len].
    rewrite bit_at_out; [f_equal; lia|]. pose proof (Z.div_mod index 8).
    pose proof (Z.mod_pos_bound index 8). lia. }
  pose proof (Z.div_mod index 8). pose proof (Z.mod_pos_bound index 8).
  set (num := Z.min size (8 - index mod 8)). assert (1 <= num <= 8) by lia.
  rewrite vget_byte by lia. cbn [mbind outcome_bind].
  destruct (first_bits_skip_spec (byte_at bs index) (index mod 8) num)
    as (r & -> & Hr); [lia..|]. cbn [mbind outcome_bind].
  assert (forall k, 0 <= k < num ->
    bit_at bs (index + k) = Z.testbit (byte_at bs index) (index mod 8 + k)) as Hb.
  { intros k Hk. apply bit_at_byte; lia. }
  destruct r.
  - rewrite !wrap_id by (unfold in_width; lia). rewrite IH; try lia.
    + f_equal. rewrite (run_len_split bs (Z.to_nat num) index (Z.to_nat size)).
      * rewrite Z2Nat.id by lia. replace (Z.to_nat size - Z.to_nat num)%nat
          with (Z.to_nat (size - num)) by lia. lia.
      * lia.
      * intros k Hk. rewrite Hb by lia. apply Hr; [done|lia].
    + destruct (decide (size <= 8 - index mod 8)).
      * right. split; [lia|]. left. lia.
      * assert (num = 8 - index mod 8) as -> by lia.
        assert ((index + (8 - index mod 8)) / 8 = index / 8 + 1) as ->.
        { symmetry. apply (Z.div_unique_pos _ _ _ 0); lia. }
        destruct (decide (index / 8 + 1 < zlen bs)); [left|right]; lia.
  - destruct (partial_run_spec (byte_at bs index) (index mod 8) (Z.to_nat num))
      as (m & -> & Hm & Hset & Hnot); [lia..|]. cbn [mbind outcome_bind].
    rewrite wrap_id by (unfold in_width; lia). do 2 f_equal. symmetry.
    apply run_len_stop; [lia| |].
    + intros k Hk. rewrite Hb by lia. by apply Hset.
    + rewrite Hb by lia. destruct (Z.testbit _ (index mod 8 + Z.of_nat m)) eqn:E; [|done].
      exfalso. assert (forall k, 0 <= k < Z.of_nat (S m) ->
        Z.testbit (byte_at bs index) (index mod 8 + k) = true) as Hall.
      { intros k Hk. destruct (decide (k = Z.of_nat m)) as [->|]; [done|apply Hset; lia]. }
      destruct (decide (S m < Z.to_nat num)%nat); [by apply (Hnot (S m)); [lia|]|].
      assert (false = true); [|done]. apply Hr. intros k Hk. apply Hall. lia.
Qed.

(** ** Properties *)

Lemma aligned_ok rs re s :
  0 < s -> 0 <= rs -> 0 <= re < 2 ^ 62 ->
  range_aligned rs re s = Ok (bool_decide (rs mod s = 0) && bool_decide ((re + 1) mod s = 0)).
Proof.
  intros Hs Hrs Hre. unfold range_aligned. rewrite wrap_id by (unfold in_width; lia).
  rewrite !zrem_ok by lia. cbn [mbind outcome_bind]. rewrite negb_orb, !negb_involutive.
  f_equal. f_equal; destruct (Z.eqb_spec (rs mod s) 0), (Z.eqb_spec ((re + 1) mod s) 0);
    by (rewrite ?bool_decide_eq_true_2 by done; rewrite ?bool_decide_eq_false_2 by done).
Qed.

(** The arguments for which the aligned functions do not report an error. *)
Record aligned_range (rs re s : Z) : Prop := {
  ar_slice : 0 < s;
  ar_order : 0 <= rs < re;
  ar_bound : re < 2 ^ 61;
  ar_start : rs mod s = 0;
  ar_end : (re + 1) mod s = 0;
}.

Lemma aligned_range_true rs re s : aligned_range rs re s -> range_aligned rs re s = Ok true.
Proof.
  intros [Hs Ho Hb H1 H2]. rewrite aligned_ok by lia.
  by rewrite !bool_decide_eq_true_2 by done.
Qed.

Lemma aligned_range_size rs re s :
  aligned_range rs re s -> 1 <= (re - rs + 1) / s /\ (re - rs + 1) = s * ((re - rs + 1) / s).
Proof.
  intros [Hs Ho Hb H1 H2].
  assert ((re - rs + 1) mod s = 0) as Hm.
  { replace (re - rs + 1) with (re + 1 - rs) by lia. rewrite Zminus_mod, H1, H2. done. }
  apply Z_div_exact_full_2 in Hm; [|lia]. split; [|done].
  destruct (decide (1 <= (re - rs + 1) / s)); [done|].
  assert ((re - rs + 1) / s <= 0) by lia. nia.
Qed.

Lemma align_bitset_end_index_spec_lemma bm rs re se s :
  bitmap_wf bm -> aligned_range rs re s -> aligned_range rs se s ->
  align_bitset_end_index bm rs re se s =
    let n := (re - rs + 1) / s in
    let run := run_len (bitset bm) (rs / s) (Z.to_nat ((se - rs + 1) / s)) in
    Ok (if run / n * n =? 0 then 0 else rs + run / n * n * s - 1).
Proof.
  intros Hwf Hr Hse. pose proof (wf_size _ Hwf) as Hsz.
  pose proof (aligned_range_size _ _ _ Hr) as [Hn Hnm].
  pose proof (aligned_range_size _ _ _ Hse) as [Hm Hmm].
  pose proof (aligned_range_true _ _ _ Hr) as Hal.
  destruct Hr as [Hs Ho Hb H1 H2]. destruct Hse as [_ Hso Hsb _ Hs2].
  set (n := (re - rs + 1) / s) in *. set (m := (se - rs + 1) / s) in *.
  assert (rs = s * (rs / s)) as Hrs by (by apply Z_div_exact_full_2; [lia|]).
  assert (0 <= rs / s) by (apply Z.div_pos; lia).
  unfold align_bitset_end_index. destruct (Z.leb_spec re rs); [lia|].
  rewrite Hal. cbn [mbind outcome_bind].
  rewrite (wrap_id 64 (se + 1)) by (unfold in_width; lia). rewrite zrem_ok by lia.
  cbn [mbind outcome_bind]. rewrite Hs2. cbn [Z.eqb negb orb].
  rewrite zdiv_ok by lia. cbn [mbind outcome_bind].
  rewrite (wrap_id 64 (se - rs)), (wrap_id 64 (se - rs + 1)) by (unfold in_width; lia).
  rewrite (wrap_id 64 (re - rs + 1)) by (unfold in_width; lia).
  rewrite !zdiv_ok by lia. cbn [mbind outcome_bind]. fold m n.
  assert (0 <= m) by lia. assert (s * (rs / s + m) = se + 1) by lia.
  assert (rs / s + m <= s * (rs / s + m)) by nia.
  rewrite run_loop_spec; try lia.
  2:{ left. unfold zlen. pose proof (Z.div_pos (rs / s) 8). lia. }
  cbn [mbind outcome_bind]. rewrite !zdiv_ok by lia. cbn [mbind outcome_bind]. rewrite Z.add_0_l.
  pose proof (run_len_bound (bitset bm) (Z.to_nat m) (rs / s)) as Hrun.
  set (run := run_len _ _ _) in *.
  assert (0 <= run / n) by (apply Z.div_pos; lia).
  assert (n * (run / n) <= run) by (apply Z.mul_div_le; lia).
  assert (run / n * n <= m) by lia.
  assert (s * (run / n * n) <= s * m) by (apply Z.mul_le_mono_nonneg_l; lia).
  rewrite (wrap_id 64 (run / n * n)) by (unfold in_width; lia).
  destruct (Z.eqb_spec (run / n * n) 0) as [->|]; [done|].
  destruct (Z.leb_spec (run / n * n) 0); [lia|].
  assert (s * 1 <= s * (run / n * n)) by (apply Z.mul_le_mono_nonneg_l; lia).
  rewrite (wrap_id 64 (run / n * n * s)) by (unfold in_width; lia).
  rewrite (wrap_id 64 (rs + _)) by (unfold in_width; lia).
  rewrite wrap_id by (unfold in_width; lia). done.
Qed.

(** [align_bitset_end_index] refines its bit-by-bit specification: it
    answers with the end of the longest prefix, in whole multiples of the
    requested length, of the run of cached slices that starts at
    [range_start], and with 0 when the request itself is not cached. *)
Theorem align_bitset_end_index_spec bm rs re se s :
  bitmap_wf bm -> aligned_range rs re s -> aligned_range rs se s ->
  align_bitset_end_index bm rs re se s =
    let n := (re - rs + 1) / s in
    let run := run_len (bitset bm) (rs / s) (Z.to_nat ((se - rs + 1) / s)) in
    Ok (if run / n * n =? 0 then 0 else rs + run / n * n * s - 1).
Proof. apply align_bitset_end_index_spec_lemma. Qed.

Definition demo_bitmap : BitMap := mkBitMap [31; 0] 10 5.

Lemma align_bitset_end_index_spec_witness :
  align_bitset_end_index demo_bitmap 0 199 999 100 = Ok 399.
Proof.
  rewrite (align_bitset_end_index_spec demo_bitmap 0 199 999 100).
  - vm_compute. reflexivity.
  - split; cbn; [repeat constructor; unfold in_width; lia|unfold zlen; cbn; lia..].
  - split; (lia || reflexivity).
  - split; (lia || reflexivity).
Defined.

(** A stretch that [align_bitset_end_index] answers with is on disk:
    every slice between the start and the answer is marked, the answer stays
    below [slice_end], and it is at least the requested end. *)
Theorem align_bitset_end_index_safe bm rs re se s e :
  bitmap_wf bm -> aligned_range rs re s -> aligned_range rs se s ->
  align_bitset_end_index bm rs re se s = Ok e -> e <> 0 ->
  re <= e <= se /\ forall i, rs <= i * s <= e -> bit_at (bitset bm) i = true.
Proof.
  intros Hwf Hr Hse. rewrite align_bitset_end_index_spec_lemma by done.
  pose proof (aligned_range_size _ _ _ Hr) as [Hn Hnm].
  pose proof (aligned_range_size _ _ _ Hse) as [Hm Hmm].
  destruct Hr as [Hs Ho Hb H1 H2]. destruct Hse as [_ Hso Hsb _ Hs2].
  set (n := (re - rs + 1) / s) in *. set (m := (se - rs + 1) / s) in *.
  assert (rs = s * (rs / s)) as Hrs by (by apply Z_div_exact_full_2; [lia|]).
  cbn zeta. pose proof (run_len_bound (bitset bm) (Z.to_nat m) (rs / s)) as Hrun.
  pose proof (run_len_all (bitset bm) (Z.to_nat m) (rs / s)) as Hall.
  set (run := run_len _ _ _) in *. intros He Hne.
  assert (0 <= run / n) by (apply Z.div_pos; lia).
  assert (n * (run / n) <= run) by (apply Z.mul_div_le; lia).
  destruct (Z.eqb_spec (run / n * n) 0) as [Hz|Hz]; injection He as <-; [done|].
  set (q := run / n) in *. assert (1 <= q) by nia.
  assert (n <= q * n) by nia. assert (q * n <= m) by lia.
  assert (s * n <= s * (q * n)) by nia. assert (s * (q * n) <= s * m) by nia.
  split; [lia|]. intros i Hi. replace i with (rs / s + (i - rs / s)) by lia.
  apply Hall. nia.
Qed.

Lemma align_bitset_end_index_safe_witness :
  199 <= 399 <= 999 /\ bit_at (bitset demo_bitmap) 3 = true.
Proof.
  assert (bitmap_wf demo_bitmap) as Hwf.
  { split; cbn; [repeat constructor; unfold in_width; lia|unfold zlen; cbn; lia..]. }
  assert (aligned_range 0 199 100) by (split; (lia || reflexivity)).
  assert (aligned_range 0 999 100) by (split; (lia || reflexivity)).
  destruct (align_bitset_end_index_safe demo_bitmap 0 199 999 100 399) as [H1 H2];
    [done..|reflexivity|lia|]. split; [exact H1|apply H2; lia].
Defined.

(** *** Marking what a write completed *)

Definition in_update (rs re s skip flen i : Z) : Prop :=
  (rs / s <= i < (re + 1) / s /\ ~ (0 < skip /\ skip = i)) \/ (re + 1 = flen /\ i = re / s).

#[export] Instance in_update_dec rs re s skip flen i : Decision (in_update rs re s skip flen i).
Proof. unfold in_update. apply _. Defined.

Lemma update_indexs_spec rs re s skip flen :
  0 < s -> 0 <= rs <= re -> re < 2 ^ 62 ->
  exists ix, update_indexs rs re s skip flen = Ok ix /\
    forall i, i ∈ ix <-> in_update rs re s skip flen i.
Proof.
  intros Hs Hr Hb. unfold update_indexs, in_update.
  rewrite !wrap_id by (unfold in_width; lia). rewrite !zdiv_ok by lia.
  cbn [mbind outcome_bind].
  assert (rs / s <= (re + 1) / s) by (apply Z.div_le_mono; lia).
  destruct (Z.ltb_spec ((re + 1) / s) (rs / s)); [lia|].
  destruct (Z.eqb_spec (re + 1) flen) as [E|E].
  - eexists. split; [done|]. intros i.
    rewrite elem_of_app, list_elem_of_singleton, list_elem_of_filter, elem_of_seqZ.
    split; [intros [[? ?]|?]; [left; split; [lia|done]|by right]|].
    intros [[? ?]|[_ ->]]; [left; split; [done|lia]|by right].
  - eexists. split; [done|]. intros i. rewrite list_elem_of_filter, elem_of_seqZ.
    split; [intros [? ?]; left; split; [lia|done]|].
    intros [[? ?]|[? _]]; [split; [done|lia]|done].
Qed.

Lemma update_bitset_spec_lemma bm rs re s skip flen :
  bitmap_wf bm -> bitmap_counted bm -> 0 < s -> 0 <= rs < re -> re < 2 ^ 62 ->
  re / s < slice_size bm ->
  exists bm' b, update_bitset bm rs re s skip flen = Ok (bm', b) /\
    bitmap_wf bm' /\ bitmap_counted bm' /\ slice_size bm' = slice_size bm /\
    forall i, 0 <= i ->
      bit_at (bitset bm') i = bool_decide (in_update rs re s skip flen i) || bit_at (bitset bm) i.
Proof.
  intros Hwf Hc Hs Hr Hb Hin. unfold update_bitset.
  destruct (Z.ltb_spec re rs); [lia|]. destruct (Z.eqb_spec rs re); [lia|].
  destruct (update_indexs_spec rs re s skip flen) as (ix & -> & Hix); [lia..|].
  cbn [mbind outcome_bind]. pose proof (wf_slices _ Hwf).
  assert (Forall (fun i => 0 <= i < slice_size bm) ix) as Hf.
  { apply Forall_forall. intros i Hi. apply Hix in Hi.
    assert (0 <= rs / s) by (apply Z.div_pos; lia).
    assert (rs / s <= re / s) by (apply Z.div_le_mono; lia).
    assert ((re + 1) / s <= re / s + 1).
    { apply Z.div_le_upper_bound; [lia|]. pose proof (Z.div_mod re s).
      pose proof (Z.mod_pos_bound re s). lia. }
    destruct Hi as [[? _]|[_ ->]]; lia. }
  destruct (set_bits_spec ix bm) as (bm' & -> & ->).
  { eapply Forall_impl; [exact Hf|]. cbn. intros. lia. }
  cbn [mbind outcome_bind]. eexists _, _. split; [done|].
  destruct (foldl_mark_inv ix bm) as (H1 & H2 & H3); [done..|].
  repeat split; try done; try apply H1.
  intros i Hi. rewrite foldl_mark_bit; [|done|].
  - f_equal. apply bool_decide_ext. apply Hix.
  - eapply Forall_impl; [exact Hf|]. cbn. intros. lia.
Qed.

(** C35. [update_bitset] marks exactly the slices the write finished (those
    that end inside it, save the skipped one, and the last slice of a file
    whose end was written), keeps the bitmap well formed and its counter
    equal to the number of marked slices. *)
Theorem update_bitset_spec bm rs re s skip flen :
  bitmap_wf bm -> bitmap_counted bm -> 0 < s -> 0 <= rs < re -> re < 2 ^ 62 ->
  re / s < slice_size bm ->
  exists bm' b, update_bitset bm rs re s skip flen = Ok (bm', b) /\
    bitmap_wf bm' /\ bitmap_counted bm' /\ slice_size bm' = slice_size bm /\
    forall i, 0 <= i ->
      bit_at (bitset bm') i = bool_decide (in_update rs re s skip flen i) || bit_at (bitset bm) i.
Proof. apply update_bitset_spec_lemma. Qed.

(** Marking slices never changes the number of bytes of the bitmap. *)
Lemma set_bits_length ix bm bm' :
  set_bits bm ix = Ok bm' -> length (bitset bm') = length (bitset bm).
Proof.
  revert bm. induction ix as [|i ix IH]; intros bm; cbn [set_bits].
  - intros E. by injection E as <-.
  - intros E. outcomes. rewrite (IH _ E). clear IH E. unfold set_bit in E0. outcomes.
    case_match; outcomes; [by subst|]. subst v. cbn. unfold vset in E2.
    case_match; [|done]. injection E2 as <-. apply length_insert.
Qed.

Lemma update_bitset_length bm rs re s skip flen bm' b :
  update_bitset bm rs re s skip flen = Ok (bm', b) ->
  length (bitset bm') = length (bitset bm).
Proof.
  unfold update_bitset. destruct (_ <? _); [done|]. destruct (_ =? _); intros E.
  - by injection E as <- <-.
  - outcomes. subst. by eapply set_bits_length.
Qed.

Lemma update_bitset_spec_witness :
  exists bm' b, update_bitset demo_bitmap 500 799 100 (-1) 1000 = Ok (bm', b) /\
    bit_at (bitset bm') 7 = true.
Proof.
  destruct (update_bitset_spec demo_bitmap 500 799 100 (-1) 1000) as (bm' & b & H1 & _ & _ & _ & H2).
  - split; cbn; [repeat constructor; unfold in_width; lia|unfold zlen; cbn; lia..].
  - reflexivity.
  - lia.
  - lia.
  - lia.
  - vm_compute. reflexivity.
  - exists bm', b. split; [exact H1|]. rewrite H2 by lia. vm_compute. reflexivity.
Defined.

(** *** Sizes, counting and clearing *)

Lemma repair_loop_spec bm : bitmap_wf bm -> forall n i c,
  0 <= i -> 0 <= c <= i -> i + Z.of_nat n <= 8 * zlen (bitset bm) ->
  c = count_bits (bitset bm) (Z.to_nat i) ->
  repair_loop bm i n c = Ok (count_bits (bitset bm) (Z.to_nat i + n)).
Proof.
  intros Hwf. induction n as [|n IH]; intros i c Hi Hc Hn ->.
  { cbn. by rewrite Nat.add_0_r. }
  pose proof (wf_size _ Hwf). cbn [repair_loop]. rewrite get_bit_spec by lia.
  cbn [mbind outcome_bind].
  assert (count_bits (bitset bm) (Z.to_nat (i + 1)) =
          count_bits (bitset bm) (Z.to_nat i) + if bit_at (bitset bm) i then 1 else 0) as Hs.
  { replace (Z.to_nat (i + 1)) with (S (Z.to_nat i)) by lia. cbn [count_bits].
    by rewrite Z2Nat.id by lia. }
  rewrite IH; [|lia| |lia|].
  - do 2 f_equal. lia.
  - case_match; rewrite ?wrap_id by (unfold in_width; lia); lia.
  - case_match; rewrite ?wrap_id by (unfold in_width; lia); lia.
Qed.

Lemma repair_counts bm :
  bitmap_wf bm -> repair bm = Ok (mkBitMap (bitset bm) (slice_size bm) (count_bits (bitset bm) (Z.to_nat (slice_size bm)))).
Proof.
  intros Hwf. pose proof (wf_slices _ Hwf). unfold repair.
  by rewrite (repair_loop_spec bm Hwf _ 0) by (done || lia).
Qed.

(** [repair] (run when a cache file is read back) recomputes the counter:
    whatever it was, afterwards it is the number of marked slices, and the
    bits are untouched; the bitmap is then full exactly when every slice of
    the file is marked. *)
Theorem repair_spec bm :
  bitmap_wf bm ->
  exists bm', repair bm = Ok bm' /\ bitset bm' = bitset bm /\ bitmap_counted bm' /\
    (is_full bm' = true <-> forall i, 0 <= i < slice_size bm -> bit_at (bitset bm) i = true).
Proof.
  intros Hwf. pose proof (wf_slices _ Hwf). rewrite repair_counts by done.
  eexists. split; [done|]. cbn. split; [done|]. split; [done|].
  unfold is_full. cbn. rewrite Z.eqb_eq.
  assert (forall n, count_bits (bitset bm) n = Z.of_nat n <->
    forall i, 0 <= i < Z.of_nat n -> bit_at (bitset bm) i = true) as Hfull.
  { induction n as [|n IH]; cbn [count_bits]; [split; [lia|done]|].
    pose proof (count_bits_bound (bitset bm) n). split.
    - intros E i Hi. destruct (bit_at (bitset bm) (Z.of_nat n)) eqn:Eb; [|lia].
      destruct (decide (i = Z.of_nat n)) as [->|]; [done|]. apply IH; lia.
    - intros Hall. rewrite Hall by lia. rewrite (proj2 IH); [lia|].
      intros i Hi. apply Hall. lia. }
  specialize (Hfull (Z.to_nat (slice_size bm))). rewrite Z2Nat.id in Hfull by lia.
  rewrite <- Hfull. by split; intros E; symmetry.
Qed.

Lemma repair_spec_witness :
  exists bm', repair demo_bitmap = Ok bm' /\ bitset bm' = bitset demo_bitmap.
Proof.
  destruct (repair_spec demo_bitmap) as (bm' & H1 & H2 & _).
  - split; cbn; [repeat constructor; unfold in_width; lia|unfold zlen; cbn; lia..].
  - exists bm'. split; [exact H1|exact H2].
Defined.

(** A fresh bitmap has a bit per slice of the file and no slice marked. *)
Lemma from_slice_wf size slice :
  0 < slice -> 0 < size < 2 ^ 62 ->
  exists bm, from_slice size slice = Ok bm /\ bitmap_wf bm /\ bitmap_counted bm /\
    slice_size bm = (size - 1) / slice + 1.
Proof.
  intros Hs Hsz. unfold from_slice, bitmap_size. destruct (Z.leb_spec size 0); [lia|].
  rewrite zdiv_ok by lia. cbn [mbind outcome_bind].
  set (q := (size - 1) / slice).
  assert (0 <= q) by (apply Z.div_pos; lia).
  assert (q <= size - 1) by (apply Z.div_le_upper_bound; nia).
  rewrite (wrap_id 64 (q + 1)) by (unfold in_width; lia).
  replace (q + 1 - 1) with q by lia. rewrite (wrap_id 64 q) by (unfold in_width; lia).
  assert (0 <= q / 8) by (apply Z.div_pos; lia).
  assert (q / 8 <= q) by (apply Z.div_le_upper_bound; lia).
  rewrite wrap_id by (unfold in_width; lia). cbn.
  assert (zlen (replicate (Z.to_nat (q / 8 + 1)) 0) = q / 8 + 1) as Hl.
  { unfold zlen. rewrite length_replicate. lia. }
  pose proof (Z.div_mod q 8). pose proof (Z.mod_pos_bound q 8).
  eexists. split; [done|]. split; [split; cbn; rewrite ?Hl|split]; try lia.
  - apply Forall_replicate. unfold in_width. lia.
  - unfold bitmap_counted. cbn.
    assert (forall n, count_bits (replicate (Z.to_nat (q / 8 + 1)) 0) n = 0) as ->; [|done].
    induction n as [|n IH]; [done|]. cbn [count_bits]. rewrite IH.
    unfold bit_at, byte_at. destruct (replicate _ 0 !! _) eqn:E; cbn; [|by rewrite Z.bits_0].
    apply lookup_replicate in E as [-> _]. by rewrite Z.bits_0.
  - done.
Qed.

(** [set_bit(_, false)] counts the clearing of a bit as one more marked
    slice: on a bitmap with a marked slice, clearing it leaves the counter one
    above, not one below, its former value, so the counter no longer agrees
    with the bits. *)
Theorem set_bit_clear_miscounts bm i bm' :
  bitmap_wf bm -> 0 <= i < slice_size bm -> bit_at (bitset bm) i = true ->
  0 <= curr_slice_size bm < 2 ^ 63 ->
  set_bit bm i false = Ok bm' -> curr_slice_size bm' = curr_slice_size bm + 1.
Proof.
  intros Hwf Hi Hb Hc. pose proof (wf_slices _ Hwf). unfold set_bit.
  rewrite get_bit_spec by lia. rewrite Hb. cbn [mbind outcome_bind Bool.eqb].
  rewrite vget_byte by lia. cbn [mbind outcome_bind]. intros H'. outcomes. subst bm'. cbn.
  apply wrap_id. unfold in_width. lia.
Qed.

Lemma set_bit_clear_miscounts_witness :
  curr_slice_size (mkBitMap [30; 0] 10 6) = 5 + 1.
Proof.
  apply (set_bit_clear_miscounts demo_bitmap 0).
  - split; cbn; [repeat constructor; unfold in_width; lia|unfold zlen; cbn; lia..].
  - cbn. lia.
  - reflexivity.
  - cbn. lia.
  - reflexivity.
Defined.
