(* ===== verification/FileCache.v ===== *)
(** The write buffer of a cache file: [FileCacheBytes] of
    [any-base/src/file_ext.rs], a queue of byte chunks drained to disk in
    whole pages, and the drain loop of [stream_to_client]
    ([any-proxy/src/proxy/http_proxy/http_server_proxy.rs]). *)
From S2P Require Import Prelude.
#[local] Open Scope Z_scope.

Record FileCacheBytes := mkCache {
  datas : list (list Z);
  size : Z;
  page_size : Z
}.

(** [FileCacheBytes::new] *)
Definition cache_new (page : Z) : FileCacheBytes := mkCache [] 0 page.

Definition remaining (c : FileCacheBytes) : Z := size c.

Definition push_back (data : list Z) (c : FileCacheBytes) : FileCacheBytes :=
  mkCache (datas c ++ [data]) (wrap64 (size c + zlen data)) (page_size c).

(** [push_back_vec] and [push_back_deque] *)
Definition push_back_vec (ds : list (list Z)) (c : FileCacheBytes) : FileCacheBytes :=
  fold_left (fun c data => push_back data c) ds c.

(** The loop of [advance]: whole chunks are popped, the last one is cut. *)
Fixpoint advance_loop (ds : list (list Z)) (cnt : Z) : outcome (list (list Z)) :=
  match ds with
  | [] => Panic
  | first :: rest =>
      if zlen first <=? cnt then
        let cnt := cnt - zlen first in
        if cnt <=? 0 then Ok rest else advance_loop rest cnt
      else Ok (drop (Z.to_nat cnt) first :: rest)
  end.

Definition advance (cnt : Z) (c : FileCacheBytes) : outcome FileCacheBytes :=
  if negb (cnt <=? remaining c) then Panic
  else if (remaining c <? cnt) || (remaining c <=? 0) then Panic
  else
    let n := size c - cnt in
    if n <=? 0 then Ok (mkCache [] n (page_size c))
    else
      ds ← advance_loop (datas c) cnt;
      Ok (mkCache ds n (page_size c)).

(** The chunks of [page_chunks_copy]: chunks are shared until [left] bytes
    are taken. *)
Fixpoint take_chunks (ds : list (list Z)) (left : Z) : list (list Z) :=
  match ds with
  | [] => []
  | buf :: ds =>
      if left <=? 0 then []
      else
        let buf := if left <? zlen buf then take (Z.to_nat left) buf else buf in
        buf :: take_chunks ds (left - zlen buf)
  end.

Definition page_chunks_copy (is_end : bool) (c : FileCacheBytes)
    : outcome (option FileCacheBytes) :=
  if remaining c <=? 0 then Ok None
  else if is_end then Ok (Some c)
  else
    n ← zdiv (remaining c) (page_size c);
    let page := n * page_size c in
    if page <=? 0 then Ok None
    else Ok (Some (mkCache (take_chunks (datas c) page) page (page_size c))).

Definition chunk_all_bytes (c : FileCacheBytes) : outcome (list Z) :=
  if zlen (datas c) =? 1 then vget (datas c) 0 else Ok (concat (datas c)).

(** ** Files

    A file is the byte at each offset; [write_all_at] writes a run of bytes. *)
Definition file := Z -> Z.

Definition write_all_at (data : list Z) (off : Z) (f : file) : file :=
  fun i => if (off <=? i) && (i <? off + zlen data)
           then default 0 (data !! Z.to_nat (i - off)) else f i.

(** [write_cache_file]: the whole buffer is written at [file_seek] and its
    size is returned. *)
Definition write_cache_file (f : file) (file_seek : Z) (c : FileCacheBytes)
    : outcome (Z * file) :=
  data ← chunk_all_bytes c;
  Ok (remaining c, write_all_at data file_seek f).

(** The loop of [stream_to_client] that empties the buffer: [curr] is
    [bitmap_curr_slice_start]. *)
Fixpoint drain (fuel : nat) (is_end : bool) (body_start curr : Z) (f : file)
    (c : FileCacheBytes) : outcome (Z * file * FileCacheBytes) :=
  match fuel with
  | O => Fuel
  | S fuel =>
      page ← page_chunks_copy is_end c;
      match page with
      | None => Ok (curr, f, c)
      | Some page =>
          '(n, f) ← write_cache_file f (wrap64 (curr + body_start)) page;
          c ← advance n c;
          drain fuel is_end body_start (wrap64 (curr + n)) f c
      end
  end.

(** ** Specification: the buffer is a flat run of bytes *)

Definition content (c : FileCacheBytes) : list Z := concat (datas c).

Definition cache_wf (c : FileCacheBytes) : Prop :=
  size c = zlen (content c) /\ 0 < page_size c /\ size c < 2 ^ 64.

(** How many of [n] buffered bytes a drain writes. *)
Definition flushed (is_end : bool) (page n : Z) : Z :=
  if is_end then n else n / page * page.

Lemma advance_loop_content ds cnt :
  0 <= cnt -> cnt < zlen (concat ds) ->
  exists ds', advance_loop ds cnt = Ok ds' /\ concat ds' = drop (Z.to_nat cnt) (concat ds).
Proof.
  revert cnt. induction ds as [|d ds IH]; intros cnt H0 Hlt; cbn [advance_loop concat] in *.
  { unfold zlen in Hlt. cbn in Hlt. lia. }
  rewrite zlen_app in Hlt. unfold zlen in *. zcases.
  - eexists. split; [done|]. rewrite drop_app_length' by lia. done.
  - destruct (IH (cnt - Z.of_nat (length d))) as (ds' & -> & Hds'); [lia..|].
    exists ds'. split; [done|]. rewrite Hds', drop_app_ge by lia. f_equal. lia.
  - eexists. split; [done|]. cbn. by rewrite drop_app_le by lia.
Qed.

Lemma take_chunks_content ds left :
  0 <= left -> concat (take_chunks ds left) = take (Z.to_nat left) (concat ds).
Proof.
  revert left. induction ds as [|d ds IH]; intros left H; cbn [take_chunks concat].
  { by rewrite take_nil. }
  zcases; cbn [concat].
  - replace (Z.to_nat left) with O by lia. done.
  - unfold zlen in *. rewrite IH by (rewrite length_take; lia).
    rewrite length_take, take_app_le by lia.
    replace (Z.to_nat (left - _)) with O by lia. by rewrite take_0, app_nil_r.
  - unfold zlen in *. rewrite IH by lia. rewrite take_app_ge by lia. do 2 f_equal. lia.
Qed.

(** Advancing drops bytes from the front. *)
Lemma advance_spec c cnt :
  cache_wf c -> 0 < size c -> 0 <= cnt <= size c ->
  exists c', advance cnt c = Ok c' /\ cache_wf c' /\ page_size c' = page_size c /\
             content c' = drop (Z.to_nat cnt) (content c).
Proof.
  intros (Hs & Hp & Hb) H0 Hc. unfold advance, remaining. zcases.
  - eexists. split; [done|]. unfold cache_wf, content. cbn. split_and!; try done; try lia.
    { unfold zlen. cbn. lia. }
    symmetry. apply drop_ge. unfold content, zlen in Hs. lia.
  - destruct (advance_loop_content (datas c) cnt) as (ds & -> & Hds);
      [lia|unfold content in Hs; lia|].
    eexists. split; [done|]. unfold cache_wf, content in *. cbn. rewrite Hds.
    split_and!; try done; try lia. rewrite zlen_drop by lia. lia.
Qed.

(** The copy holds the front of the buffer: all of it at the end, else as
    many whole pages as there are. *)
Lemma page_chunks_copy_spec is_end c :
  cache_wf c ->
  let n := flushed is_end (page_size c) (size c) in
  0 <= n <= size c /\
  ((n = 0 /\ page_chunks_copy is_end c = Ok None) \/
   (0 < n /\ exists p, page_chunks_copy is_end c = Ok (Some p) /\ cache_wf p /\
             size p = n /\ content p = take (Z.to_nat n) (content c))).
Proof.
  intros (Hs & Hp & Hb). cbn zeta. unfold page_chunks_copy, remaining, flushed.
  pose proof (zlen_nonneg (content c)).
  assert (0 <= size c / page_size c * page_size c <= size c) as Hq.
  { pose proof (Z.mul_div_le (size c) (page_size c)). pose proof (Z.div_pos (size c) (page_size c)).
    nia. }
  destruct is_end.
  - split; [lia|]. zcases; [left; split; [lia|done]|]. right. split; [lia|].
    exists c. split_and!; try done. by rewrite take_ge by (unfold zlen in Hs; lia).
  - split; [done|]. rewrite zdiv_ok by lia. cbn [mbind outcome_bind]. zcases.
    + left. split; [|done]. rewrite Z.div_small by lia. lia.
    + left. split; [lia|done].
    + right. split; [lia|]. eexists. split; [done|].
      unfold cache_wf, content. cbn. rewrite take_chunks_content by lia.
      rewrite zlen_take by (unfold content in Hs; lia). split_and!; done || lia.
Qed.

Lemma chunk_all_bytes_content c : chunk_all_bytes c = Ok (content c).
Proof.
  unfold chunk_all_bytes, content, zlen. destruct (datas c) as [|d [|e ds]].
  - done.
  - cbn. by rewrite app_nil_r.
  - cbn [length]. by destruct (Z.eqb_spec (Z.of_nat (S (S (length ds)))) 1); [lia|].
Qed.

Lemma write_cache_file_ok f off c :
  write_cache_file f off c = Ok (size c, write_all_at (content c) off f).
Proof. unfold write_cache_file. by rewrite chunk_all_bytes_content. Qed.

Lemma flushed_idem page n :
  0 < page -> 0 <= n -> flushed false page (n - flushed false page n) = 0.
Proof.
  intros Hp Hn. unfold flushed.
  rewrite Z.div_small; [lia|]. pose proof (Z.mod_pos_bound n page).
  pose proof (Z.div_mod n page). lia.
Qed.

Lemma drain_spec_lemma is_end bstart curr f c :
  cache_wf c -> 0 <= curr -> 0 <= bstart -> curr + bstart + size c < 2 ^ 64 ->
  let n := flushed is_end (page_size c) (size c) in
  exists f' c', drain 2 is_end bstart curr f c = Ok (curr + n, f', c') /\
    (forall i, f' i = write_all_at (take (Z.to_nat n) (content c)) (curr + bstart) f i) /\
    cache_wf c' /\ page_size c' = page_size c /\
    content c' = drop (Z.to_nat n) (content c).
Proof.
  intros Hwf Hc Hb Hlt n. destruct (page_chunks_copy_spec is_end c Hwf) as [Hn Hcase].
  fold n in Hn, Hcase. destruct Hcase as [[Hn0 E]|[Hn0 (p & E & Hwp & Hsp & Hcp)]].
  - exists f, c. cbn [drain]. rewrite E, Hn0. cbn [mbind outcome_bind]. split_and!; try done.
    + by rewrite Z.add_0_r.
    + intros i. unfold write_all_at. change (zlen (take (Z.to_nat 0) (content c))) with 0. by zcases.
  - cbn [drain]. rewrite E. cbn [mbind outcome_bind]. rewrite write_cache_file_ok. cbn [mbind outcome_bind]. rewrite Hsp, Hcp.
    destruct (advance_spec c n Hwf) as (c' & -> & Hwc & Hpc & Hcc); [lia..|].
    cbn [mbind outcome_bind].
    assert (size c' = size c - n) as Hsc.
    { destruct Hwf as [Hs _], Hwc as [-> _]. rewrite Hcc, zlen_drop by lia. lia. }
    destruct (page_chunks_copy_spec is_end c' Hwc) as [_ [[_ ->]|[Hpos _]]].
    + cbn [mbind outcome_bind]. rewrite !wrap_id by (unfold in_width; lia).
      eexists _, c'. by split_and!.
    + exfalso. rewrite Hpc, Hsc in Hpos. unfold n in Hpos. destruct Hwf as (? & ? & ?).
      destruct is_end; [unfold flushed in Hpos; lia|].
      rewrite flushed_idem in Hpos; lia.
Qed.

(** C36. One drain terminates, and moves to the file exactly the whole pages
    buffered so far (everything once the body has ended): the bytes land at
    the file offset of the position reached, the position advances by their
    number, and the buffer keeps the rest in order. *)
Theorem drain_spec is_end bstart curr f c :
  cache_wf c -> 0 <= curr -> 0 <= bstart -> curr + bstart + size c < 2 ^ 64 ->
  let n := flushed is_end (page_size c) (size c) in
  exists f' c', drain 2 is_end bstart curr f c = Ok (curr + n, f', c') /\
    (forall i, f' i = write_all_at (take (Z.to_nat n) (content c)) (curr + bstart) f i) /\
    cache_wf c' /\ page_size c' = page_size c /\
    content c' = drop (Z.to_nat n) (content c).
Proof. apply drain_spec_lemma. Qed.

(** A chunk pushed is a chunk at the end of the content. *)
Lemma push_back_spec data c :
  cache_wf c -> size c + zlen data < 2 ^ 64 ->
  cache_wf (push_back data c) /\ page_size (push_back data c) = page_size c /\
  content (push_back data c) = content c ++ data.
Proof.
  intros (Hs & Hp & Hb) Hd. pose proof (zlen_nonneg data). pose proof (zlen_nonneg (content c)).
  assert (content (push_back data c) = content c ++ data) as Hc.
  { unfold content, push_back. cbn. by rewrite concat_app, concat_cons, app_nil_r. }
  split_and!; try done. unfold cache_wf. rewrite Hc, zlen_app. cbn.
  rewrite wrap_id by (unfold in_width; lia). split_and!; lia.
Qed.

Lemma drain_spec_witness :
  exists f' c', drain 2 false 10 100 (fun _ => 0) (mkCache [[1; 2]; [3; 4; 5]] 5 2)
    = Ok (104, f', c') /\ content c' = [5].
Proof.
  destruct (drain_spec false 10 100 (fun _ => 0) (mkCache [[1; 2]; [3; 4; 5]] 5 2))
    as (f' & c' & E & _ & _ & _ & Hc); [by vm_compute|by vm_compute..|].
  exists f', c'. split; [exact E|exact Hc].
Defined.
