(* ===== verification/HttpLib.v ===== *)
(** The [http], [httpdate] and [hyper] crates, as far as the header code of
    [any-proxy/src/proxy/http_proxy] calls them: an interface of operations
    with no definition, and one concrete instance (an association list of
    printable values) for the witnesses. *)
From S2P Require Import Prelude RustStd.
#[local] Open Scope string_scope.
#[local] Open Scope Z_scope.

(** [HeaderMap<HeaderValue>]: [hget] is [get], [hset] is [insert], [hdel] is
    [remove], [hiter] is the iteration [for (k, v) in headers].  [hv_str] is
    [HeaderValue::to_str] ([None] for its error), [hv_new] is
    [HeaderValue::from_static] and [HeaderValue::from_bytes] on text,
    [hv_bytes] is [as_bytes].  [date_parse] is [HttpDate::from_str] (and
    [parse_http_date]) in seconds since the epoch, [date_fmt] its printer,
    [date_rfc2822] is chrono's [parse_from_rfc2822], and [reason] is
    [StatusCode::canonical_reason]. *)
Class HttpCrate := {
  HeaderMap : Type;
  HeaderValue : Type;
  hget : HeaderMap -> string -> option HeaderValue;
  hset : string -> HeaderValue -> HeaderMap -> HeaderMap;
  hdel : string -> HeaderMap -> HeaderMap;
  hiter : HeaderMap -> list (string * HeaderValue);
  hv_str : HeaderValue -> option string;
  hv_new : string -> HeaderValue;
  hv_bytes : HeaderValue -> string;
  date_parse : string -> option Z;
  date_rfc2822 : string -> option Z;
  date_fmt : Z -> string;
  reason : Z -> option string
}.

(** What the code relies on: a header that was set is the one found, other
    headers are untouched, and text put in a header value is read back. *)
Class HttpCrateLaws `{HttpCrate} : Prop := {
  hget_hset k v m : hget (hset k v m) k = Some v;
  hget_hset_ne k k' v m : k <> k' -> hget (hset k v m) k' = hget m k';
  hget_hdel k m : hget (hdel k m) k = None;
  hget_hdel_ne k k' m : k <> k' -> hget (hdel k m) k' = hget m k';
  hv_str_new s : hv_str (hv_new s) = Some s
}.

(** *** A concrete instance *)

Fixpoint assoc_get {A} (m : list (string * A)) (k : string) : option A :=
  match m with
  | [] => None
  | (k', v) :: m => if String.eqb k k' then Some v else assoc_get m k
  end.

Definition assoc_del {A} (k : string) (m : list (string * A)) : list (string * A) :=
  List.filter (fun p => negb (String.eqb k p.1)) m.

Definition assoc_http : HttpCrate := {|
  HeaderMap := list (string * string);
  HeaderValue := string;
  hget := assoc_get;
  hset k v m := (k, v) :: assoc_del k m;
  hdel := assoc_del;
  hiter m := m;
  hv_str v := Some v;
  hv_new s := s;
  hv_bytes v := v;
  date_parse := digits;
  date_rfc2822 := digits;
  date_fmt := show_u;
  reason c := if c =? 200 then Some "OK" else if c =? 206 then Some "Partial Content" else None
|}.

Lemma assoc_get_del {A} k (m : list (string * A)) : assoc_get (assoc_del k m) k = None.
Proof.
  induction m as [|[k' v] m IH]; [done|]. unfold assoc_del. cbn.
  destruct (String.eqb_spec k k') as [->|Hk]; cbn; [done|].
  by destruct (String.eqb_spec k k').
Qed.

Lemma assoc_get_del_ne {A} k k' (m : list (string * A)) :
  k <> k' -> assoc_get (assoc_del k m) k' = assoc_get m k'.
Proof.
  intros Hk. induction m as [|[j v] m IH]; [done|]. unfold assoc_del. cbn.
  destruct (String.eqb_spec k j) as [->|Hj]; cbn.
  - destruct (String.eqb_spec k' j); [congruence|]. done.
  - by destruct (String.eqb_spec k' j).
Qed.

Lemma assoc_http_laws : @HttpCrateLaws assoc_http.
Proof.
  split.
  - intros k v m. cbn. by rewrite String.eqb_refl.
  - intros k k' v m Hk. cbn. destruct (String.eqb_spec k' k); [congruence|].
    by apply assoc_get_del_ne.
  - intros. apply assoc_get_del.
  - intros. by apply assoc_get_del_ne.
  - done.
Qed.
