(* ===== verification/HttpHeader.v ===== *)
(** The header readers of [any-proxy/src/proxy/http_proxy/http_header_parse.rs]:
    byte ranges, content ranges, lengths, dates and cache lifetimes. *)
From S2P Require Import Prelude RustStd HttpLib.
#[local] Open Scope string_scope.
#[local] Open Scope Z_scope.

(** [HttpRange] (and [HttpContentRange]) of [http_stream_request.rs]. *)
Record HttpRange := mkRange {
  is_range : bool;
  raw_content_length : Z;
  content_length : Z;
  range_start : Z;
  range_end : Z
}.

#[export] Instance HttpRange_eq_dec : EqDecision HttpRange.
Proof. solve_decision. Defined.

(** The request methods of [http::Method]. *)
Inductive Method := GET | POST | PUT | DELETE | HEAD | OPTIONS | CONNECT | PATCH | TRACE
  | Extension (name : string).

(** The protocol versions of [http::Version]. *)
Inductive Version := HTTP_09 | HTTP_10 | HTTP_11 | HTTP_2 | HTTP_3.

Section reader.
Context `{HttpCrate}.

(** ** Validators, lengths and dates *)

Definition e_tag (headers : HeaderMap) : HeaderValue :=
  match hget headers "etag" with
  | None => hv_new ""
  | Some etag => etag
  end.

Definition header_value_to_str (v : HeaderValue) : outcome string :=
  s ← ok_or "ToStrError" (hv_str v); Ok (trim s).

Definition content_range (headers : HeaderMap) : outcome HttpRange :=
  let data := mkRange false 0 0 0 0 in
  match hget headers "content-range" with
  | None => Ok data
  | Some v =>
      range ← ok_or "ToStrError" (hv_str v);
      if (slen range <? 6) || negb (String.eqb (stake 6 range) "bytes ") then Ok data
      else
        let range := sdrop 6 range in
        if slen range <=? 0 then Ok data
        else
          '(range, raw) ← ok_or "content_range" (split_once "/" range);
          '(first, last) ← ok_or "content_range" (split_once "-" range);
          first ← ok_or "ParseIntError" (parse_u 64 (trim first));
          last ← ok_or "ParseIntError" (parse_u 64 (trim last));
          if last <? first then Err ""
          else
            raw ← ok_or "ParseIntError" (parse_u 64 (trim raw));
            Ok (mkRange true raw (wrap64 (last - first + 1)) first last)
  end.

(** [pub fn content_length] *)
Definition read_content_length (headers : HeaderMap) : outcome Z :=
  match hget headers "content-length" with
  | None => Ok 0
  | Some v =>
      s ← ok_or "ToStrError" (hv_str v);
      ok_or "ParseIntError" (parse_u 64 (trim s))
  end.

Definition transfer_encoding (headers : HeaderMap) : outcome (option string) :=
  match hget headers "transfer-encoding" with
  | None => Ok None
  | Some v => s ← ok_or "ToStrError" (hv_str v); Ok (Some (trim s))
  end.

(** [SystemTime::duration_since(UNIX_EPOCH).unwrap().as_secs()]: a time
    before the epoch panics. *)
Definition epoch_secs (t : Z) : outcome Z := if t <? 0 then Panic else Ok t.

(** The date in the header [name], which both [last_modified] and [if_range]
    read. *)
Definition date_header (name : string) (headers : HeaderMap) : outcome (HeaderValue * Z) :=
  match hget headers name with
  | None => Ok (hv_new "", 0)
  | Some v =>
      s ← ok_or "ToStrError" (hv_str v);
      t ← ok_or "httpdate" (date_parse s);
      secs ← epoch_secs t;
      Ok (v, secs)
  end.

Definition last_modified (headers : HeaderMap) : outcome (HeaderValue * Z) :=
  date_header "last-modified" headers.

Definition if_range (headers : HeaderMap) : outcome (HeaderValue * Z) :=
  date_header "if-range" headers.

(** [now.add(Duration::from_secs(d))]: the sum is checked in the signed
    64-bit seconds of a [SystemTime], and an overflow panics. *)
Definition time_add (now d : Z) : outcome Z :=
  if now + d <? 2 ^ 63 then Ok (now + d) else Panic.

(** The result is the lifetime as [i64], the expiry second, and the expiry
    time. *)
Definition cache_control_time (now : Z) (headers : HeaderMap) : outcome (Z * Z * option Z) :=
  let v := match hget headers "cache-control" with
           | Some v => Some v
           | None => hget headers "pragma"
           end in
  match v with
  | None => Ok (-1, 0, None)
  | Some v =>
      s ← ok_or "ToStrError" (hv_str v);
      match rfind_char "=" s with
      | None => Ok (0, 0, None)
      | Some i =>
          t ← ok_or "ParseIntError" (parse_u 64 (trim (sdrop (i + 1) s)));
          expires ← time_add now t;
          expires_n ← epoch_secs expires;
          Ok (swrap64 t, expires_n, Some expires)
      end
  end.

(** ** Byte ranges *)

(** [parse_http_range]: [data] is the structure the caller passes by
    reference, the result is that structure when the call returns [Ok]. *)
Definition parse_http_range (range : string) (data : HttpRange) (raw : Z) : outcome HttpRange :=
  match split_once "-" range with
  | None => Err ""
  | Some (v1, v2) =>
      let v1 := trim v1 in
      let v2 := trim v2 in
      match parse_u 64 (trim v1), parse_u 64 (trim v2) with
      | None, None => Err ""
      | None, Some vv2 =>
          if raw <? vv2 then Err ""
          else Ok (mkRange true (raw_content_length data) vv2 (raw - vv2) (raw - 1))
      | Some vv1, vv2 =>
          if raw <=? vv1 then Err ""
          else
            last ← match vv2 with
                   | Some vv2 => Ok (if raw <=? vv2 then raw - 1 else vv2)
                   | None => if 0 <? slen v2 then Err "" else Ok (raw - 1)
                   end;
            if last <? vv1 then Err ""
            else Ok (mkRange true (raw_content_length data) (wrap64 (last - vv1 + 1)) vv1 last)
      end
  end.

(** The prefix test [range.len() < 6 || &range[0..6] != "bytes="] and the
    early returns before it: the text after the unit, if there is any. *)
Definition range_value (headers : HeaderMap) : option string :=
  v ← hget headers "range";
  range ← hv_str v;
  if (slen range <? 6) || negb (String.eqb (stake 6 range) "bytes=") then None
  else let range := sdrop 6 range in
       if slen range <=? 0 then None else Some range.

Definition whole (raw : Z) : HttpRange := mkRange false raw raw 0 0.

(** [get_http_range] has its own copy of the body of [parse_http_range]. *)
Definition get_http_range (headers : HeaderMap) (raw : Z) : outcome HttpRange :=
  let data := whole raw in
  match hget headers "range" with
  | None => Ok data
  | Some v =>
      if raw <=? 0 then Ok data
      else match hv_str v with
      | None => Ok data
      | Some range =>
          if (slen range <? 6) || negb (String.eqb (stake 6 range) "bytes=") then Ok data
          else
            let range := sdrop 6 range in
            if slen range <=? 0 then Ok data
            else match split_once "-" range with
            | None => Err ""
            | Some (v1, v2) =>
                let v1 := trim v1 in
                let v2 := trim v2 in
                match parse_u 64 (trim v1), parse_u 64 (trim v2) with
                | None, None => Err ""
                | None, Some vv2 =>
                    if raw <? vv2 then Err ""
                    else Ok (mkRange true raw vv2 (raw - vv2) (raw - 1))
                | Some vv1, vv2 =>
                    if raw <=? vv1 then Err ""
                    else
                      last ← match vv2 with
                             | Some vv2 => Ok (if raw <=? vv2 then raw - 1 else vv2)
                             | None => if 0 <? slen v2 then Err "" else Ok (raw - 1)
                             end;
                      if last <? vv1 then Err ""
                      else Ok (mkRange true raw (wrap64 (last - vv1 + 1)) vv1 last)
                end
            end
      end
  end.

(** [for range in ranges.iter() { .. parse_http_range(..)?; push_back }] *)
Fixpoint parse_ranges (ranges : list string) (raw : Z) : outcome (list HttpRange) :=
  match ranges with
  | [] => Ok []
  | range :: ranges =>
      data ← parse_http_range range (whole raw) raw;
      datas ← parse_ranges ranges raw;
      Ok (data :: datas)
  end.

Definition get_http_multipart_range (headers : HeaderMap) (raw : Z)
    : outcome (HttpRange * option (list HttpRange)) :=
  let data := whole raw in
  match hget headers "range" with
  | None => Ok (data, None)
  | Some v =>
      if raw <=? 0 then Ok (data, None)
      else match hv_str v with
      | None => Ok (data, None)
      | Some range =>
          if (slen range <? 6) || negb (String.eqb (stake 6 range) "bytes=")
          then Ok (data, None)
          else
            let range := sdrop 6 range in
            if slen range <=? 0 then Ok (data, None)
            else
              let ranges := split_char "," range in
              if zlen ranges <=? 0 then Ok (data, None)
              else if zlen ranges =? 1 then
                r0 ← vget ranges 0;
                data ← parse_http_range r0 data raw;
                Ok (data, None)
              else
                datas ← parse_ranges ranges raw;
                Ok (data, Some datas)
      end
  end.

(** The bounds as the upstream slice requests use them, [-1] where open. *)
Definition get_http_range_ext (headers : HeaderMap) : outcome (Z * Z) :=
  match hget headers "range" with
  | None => Ok (0, -1)
  | Some v =>
      match hv_str v with
      | None => Ok (0, -1)
      | Some range =>
          if (slen range <? 6) || negb (String.eqb (stake 6 range) "bytes=") then Ok (0, -1)
          else
            let range := sdrop 6 range in
            if slen range <=? 0 then Ok (0, -1)
            else match split_once "-" range with
            | None => Err ""
            | Some (v1, v2) =>
                let v1 := trim v1 in
                let v2 := trim v2 in
                match parse_u 64 (trim v1), parse_u 64 (trim v2) with
                | None, None => Err ""
                | None, Some _ => Ok (-1, -1)
                | Some vv1, vv2 =>
                    let first := swrap64 vv1 in
                    last ← match vv2 with
                           | Some vv2 => Ok (swrap64 vv2)
                           | None => if 0 <? slen v2 then Err "" else Ok (-1)
                           end;
                    if (0 <? first) && (0 <? last) && (last <? first) then Err ""
                    else Ok (first, last)
                end
            end
      end
  end.

Definition is_http_multipart_range (headers : HeaderMap) : bool * bool :=
  match hget headers "range" with
  | None => (false, false)
  | Some v =>
      match hv_str v with
      | None => (false, false)
      | Some range =>
          if (slen range <? 6) || negb (String.eqb (stake 6 range) "bytes=")
          then (false, false)
          else
            let range := sdrop 6 range in
            if slen range <=? 0 then (false, false)
            else match split_once "," range with
            | None => (true, false)
            | Some _ => (true, true)
            end
      end
  end.

(** ** Sizes and the text of a response head *)

(** [uri] is the path and query of the request's URI, when it has one. *)
Definition http_headers_size (uri : option (option string)) (status_code : option Z)
    (headers : HeaderMap) : Z :=
  let size := 20 in
  let size := match uri with
              | Some path_and_query => size + slen (default "/" path_and_query)
              | None => size
              end in
  let size := match status_code with
              | Some c => size + 3 + match reason c with Some r => slen r | None => 0 end
              | None => size
              end in
  fold_left (fun size '(k, v) => size + slen k + slen (hv_bytes v) + 3) (hiter headers) size.

Definition is_request_body_nil (method : Method) : bool :=
  match method with
  | GET | HEAD | OPTIONS | DELETE | TRACE => true
  | _ => false
  end.

Definition crlf : string := String (ascii_of_N 13) (String (ascii_of_N 10) "").

Definition write_headers (headers : HeaderMap) (dst : string) : string :=
  fold_left (fun dst '(name, value) =>
    (((dst +:+ name) +:+ ": ") +:+ hv_bytes value) +:+ crlf) (hiter headers) dst.

(** [http_respons_to_vec]: an unexpected version and a status without a
    canonical reason panic. *)
Definition http_respons_to_vec (version : Version) (status : Z) (headers : HeaderMap)
    : outcome string :=
  dst ← match version with
        | HTTP_10 => Ok "HTTP/1.0"
        | HTTP_11 => Ok "HTTP/1.1"
        | HTTP_2 => Ok "HTTP/1.1"
        | _ => Panic
        end;
  r ← expect (reason status);
  let dst := ((((dst +:+ " ") +:+ show_u status) +:+ " ") +:+ r) +:+ crlf in
  Ok (write_headers headers dst +:+ crlf).

End reader.

(** ** Specification of a byte range *)

(** The three forms of a byte range and how they are written. *)
Inductive range_spec := FromTo (a b : Z) | From (a : Z) | Suffix (n : Z).

Definition print_spec (r : range_spec) : string :=
  match r with
  | FromTo a b => show_u a +:+ String "-" (show_u b)
  | From a => show_u a +:+ String "-" ""
  | Suffix n => String "-" (show_u n)
  end.

(** First byte, last byte and length the range denotes in [raw] bytes. *)
Definition resolve (raw : Z) (r : range_spec) : option (Z * Z * Z) :=
  match r with
  | FromTo a b =>
      if (a <? raw) && (a <=? b)
      then Some (a, Z.min b (raw - 1), Z.min b (raw - 1) - a + 1) else None
  | From a => if a <? raw then Some (a, raw - 1, raw - a) else None
  | Suffix n => if n <=? raw then Some (raw - n, raw - 1, n) else None
  end.

Definition spec_u64 (r : range_spec) : Prop :=
  match r with FromTo a b => is_u64 a /\ is_u64 b | From a => is_u64 a | Suffix n => is_u64 n end.

(** A range that lies in [raw] bytes and whose length is that of its bounds. *)
Definition in_bounds (raw : Z) (d : HttpRange) : Prop :=
  raw_content_length d = raw /\ 0 <= range_start d /\ 0 <= content_length d /\
  range_start d + content_length d = range_end d + 1 /\ range_end d < raw.

Lemma split_show n t : split_once "-" (show_u n +:+ String "-" t) = Some (show_u n, t).
Proof. apply split_once_app, digits_no_char, show_all_digits. done. Qed.

Lemma parse_http_range_print r data raw :
  is_u64 raw -> spec_u64 r ->
  parse_http_range (print_spec r) data raw =
  match resolve raw r with
  | Some (a, b, n) => Ok (mkRange true (raw_content_length data) n a b)
  | None => Err ""
  end.
Proof.
  unfold in_width. intros Hraw Hr. unfold parse_http_range.
  destruct r as [a b|a|n]; cbn [print_spec resolve spec_u64] in *.
  - destruct Hr as [Ha Hb]. unfold in_width in *.
    rewrite split_show, !trim_show, !parse_show by done. cbn [mbind outcome_bind].
    zcases; try (by destruct_and?); rewrite wrap_id by (unfold in_width; lia);
      do 2 f_equal; lia.
  - unfold in_width in Hr.
    rewrite split_show, !trim_show, parse_show by done. cbn [trim trim_start trim_end].
    rewrite parse_u_empty. change (0 <? slen "") with false.
    cbn [mbind outcome_bind].
    zcases; first [done | rewrite wrap_id by (unfold in_width; lia); do 2 f_equal; lia].
  - change (split_once "-" (String "-" (show_u n))) with (Some ("", show_u n)).
    cbn [trim trim_start trim_end]. fold (trim (show_u n)).
    rewrite !trim_show, parse_show, parse_u_empty by done. by zcases.
Qed.

Lemma parse_http_range_bounds r data raw d :
  is_u64 raw -> 0 < raw -> raw_content_length data = raw ->
  parse_http_range r data raw = Ok d -> is_range d = true /\ in_bounds raw d.
Proof.
  unfold in_width, parse_http_range, in_bounds. intros Hu Hraw Hd.
  destruct (split_once "-" r) as [[v1 v2]|]; [|done].
  destruct (parse_u 64 (trim (trim v1))) as [a|] eqn:Ea;
    destruct (parse_u 64 (trim (trim v2))) as [b|] eqn:Eb; cbn; intros Hok; try discriminate;
    repeat (case_match; cbn in Hok; try discriminate);
    repeat match goal with E : parse_u _ _ = Some _ |- _ => apply parse_u_range in E end;
    injection Hok as <-; cbn; zcases; rewrite ?wrap_id by (unfold in_width; lia);
    repeat split; lia.
Qed.

Section range_theorems.
Context `{HttpCrate}.

(** The two copies of the range reader are the same function. *)
Lemma get_http_range_eq headers raw :
  get_http_range headers raw =
  match range_value headers with
  | Some r => if raw <=? 0 then Ok (whole raw) else parse_http_range r (whole raw) raw
  | None => Ok (whole raw)
  end.
Proof.
  unfold get_http_range, range_value.
  destruct (hget headers "range") as [v|]; cbn [mbind option_bind]; [|done].
  destruct (hv_str v) as [s|]; [|by case_match]. cbn [mbind option_bind].
  destruct (_ || _); [by case_match|]. cbn zeta.
  by destruct (slen (sdrop 6 s) <=? 0); destruct (raw <=? 0).
Qed.

Lemma get_http_multipart_range_eq headers raw :
  get_http_multipart_range headers raw =
  match range_value headers with
  | Some r =>
      if raw <=? 0 then Ok (whole raw, None)
      else if zlen (split_char "," r) =? 1
      then (fun d => (d, None)) <$> parse_http_range r (whole raw) raw
      else (fun ds => (whole raw, Some ds)) <$> parse_ranges (split_char "," r) raw
  | None => Ok (whole raw, None)
  end.
Proof.
  unfold get_http_multipart_range, range_value.
  destruct (hget headers "range") as [v|]; cbn [mbind option_bind]; [|done].
  destruct (hv_str v) as [s|]; [|by case_match]. cbn [mbind option_bind].
  destruct (_ || _); [by case_match|]. cbn zeta.
  destruct (slen (sdrop 6 s) <=? 0); destruct (raw <=? 0); try done.
  destruct (find_char "," (sdrop 6 s)) as [i|] eqn:E.
  - pose proof (split_char_some _ _ _ E) as Hl. unfold zlen. zcases.
    by destruct (parse_ranges _ raw).
  - rewrite (split_char_none _ _ E). change (zlen [_] <=? 0) with false.
    change (zlen [_] =? 1) with true. change (vget [?x] 0) with (Ok x).
    cbn [mbind outcome_bind]. by destruct (parse_http_range _ _ raw).
Qed.

Lemma range_value_print headers v r :
  hget headers "range" = Some v -> hv_str v = Some ("bytes=" +:+ print_spec r) ->
  range_value headers = Some (print_spec r).
Proof.
  intros Hv Hs. unfold range_value. rewrite Hv. cbn [mbind option_bind]. rewrite Hs.
  cbn [mbind option_bind]. rewrite slen_app. change (slen "bytes=") with 6.
  rewrite (stake_app "bytes="), (sdrop_app "bytes="). cbn [String.eqb].
  pose proof (slen_nonneg (print_spec r)). change (negb _) with false.
  assert (0 < slen (print_spec r)).
  { destruct r; cbn [print_spec]; rewrite ?slen_app; unfold slen; cbn; lia. }
  by zcases.
Qed.

Lemma get_http_range_resolves_lemma headers raw v r :
  is_u64 raw -> 0 < raw -> spec_u64 r ->
  hget headers "range" = Some v -> hv_str v = Some ("bytes=" +:+ print_spec r) ->
  get_http_range headers raw =
  match resolve raw r with
  | Some (a, b, n) => Ok (mkRange true raw n a b)
  | None => Err ""
  end.
Proof.
  intros Hu Hraw Hr Hv Hs. rewrite get_http_range_eq, (range_value_print _ _ _ Hv Hs).
  destruct (Z.leb_spec raw 0); [lia|]. by rewrite parse_http_range_print.
Qed.

(** A request for one byte range, written in any of its three forms with
    numbers that fit in 64 bits, is answered with exactly the bytes the range
    denotes in the body, and refused exactly when it denotes none. *)
Theorem get_http_range_resolves headers raw v r :
  is_u64 raw -> 0 < raw -> spec_u64 r ->
  hget headers "range" = Some v -> hv_str v = Some ("bytes=" +:+ print_spec r) ->
  get_http_range headers raw =
  match resolve raw r with
  | Some (a, b, n) => Ok (mkRange true raw n a b)
  | None => Err ""
  end.
Proof. apply get_http_range_resolves_lemma. Qed.

Lemma parse_ranges_bounds rs raw ds :
  is_u64 raw -> 0 < raw -> parse_ranges rs raw = Ok ds ->
  length ds = length rs /\ Forall (fun d => is_range d = true /\ in_bounds raw d) ds.
Proof.
  intros Hu Hraw. revert ds. induction rs as [|r rs IH]; intros ds; cbn [parse_ranges].
  - intros E. injection E as <-. by split.
  - intros E. outcomes. subst ds. destruct (IH _ E1) as [Hl Hf].
    cbn. split; [by rewrite Hl|]. constructor; [|done].
    by apply (parse_http_range_bounds r (whole raw)).
Qed.

Lemma multipart_ranges_in_bounds headers raw d ds :
  is_u64 raw -> get_http_multipart_range headers raw = Ok (d, ds) ->
  (is_range d = true -> in_bounds raw d) /\
  Forall (fun d => is_range d = true /\ in_bounds raw d) (default [] ds).
Proof.
  intros Hu. rewrite get_http_multipart_range_eq.
  destruct (range_value headers) as [r|]; [|intros E; by injection E as <- <-].
  destruct (Z.leb_spec raw 0); [intros E; by injection E as <- <-|].
  case_match; intros E; outcomes; injection E as <- <-; cbn [default].
  - split; [|done]. intros _. by apply (parse_http_range_bounds r (whole raw)).
  - split; [done|]. by apply (parse_ranges_bounds (split_char "," r) raw).
Qed.

(** Whatever the header says, an accepted range request, single or
    multipart, names only bytes of the body: every range handed on ends below
    [raw], is not shorter than 0, and its length is that of its bounds (it is
    empty for [-0], whose start is one past its end). *)
Theorem get_http_multipart_range_bounds headers raw d ds :
  is_u64 raw -> get_http_multipart_range headers raw = Ok (d, ds) ->
  (is_range d = true -> in_bounds raw d) /\
  Forall (fun d => is_range d = true /\ in_bounds raw d) (default [] ds).
Proof. apply multipart_ranges_in_bounds. Qed.

Lemma get_http_multipart_range_single_lemma headers raw :
  (is_http_multipart_range headers).2 = false ->
  get_http_multipart_range headers raw =
  (fun d => (d, None)) <$> get_http_range headers raw.
Proof.
  rewrite get_http_range_eq, get_http_multipart_range_eq.
  unfold is_http_multipart_range, range_value.
  destruct (hget headers "range") as [v|]; cbn [mbind option_bind]; [|done].
  destruct (hv_str v) as [s|]; [|done]. cbn [mbind option_bind].
  destruct (_ || _); [done|]. cbn zeta.
  destruct (slen (sdrop 6 s) <=? 0); [done|].
  unfold split_once. destruct (find_char "," (sdrop 6 s)) eqn:E; [done|].
  rewrite (split_char_none _ _ E). intros _. change (zlen [_] =? 1) with true.
  by destruct (raw <=? 0).
Qed.

(** The multipart reader is the single-range reader on every request that
    [is_http_multipart_range] does not call multipart. *)
Theorem get_http_multipart_range_single headers raw :
  (is_http_multipart_range headers).2 = false ->
  get_http_multipart_range headers raw =
  (fun d => (d, None)) <$> get_http_range headers raw.
Proof. apply get_http_multipart_range_single_lemma. Qed.

(** A [Content-Range] header printed for the bytes [a..b] of [raw] is read
    back as that range, with the length of the bounds. *)
Theorem content_range_roundtrip headers v a b raw :
  0 <= a -> a <= b -> b < 2 ^ 64 - 1 -> is_u64 raw ->
  hget headers "content-range" = Some v ->
  hv_str v = Some ("bytes " +:+ (show_u a +:+ String "-" (show_u b +:+ String "/" (show_u raw)))) ->
  content_range headers = Ok (mkRange true raw (b - a + 1) a b).
Proof.
  unfold in_width. intros Ha Hab Hb Hraw Hv Hs. unfold content_range. rewrite Hv, Hs.
  cbn [ok_or mbind outcome_bind]. rewrite slen_app. change (slen "bytes ") with 6.
  rewrite (stake_app "bytes "), (sdrop_app "bytes "). cbn [String.eqb].
  set (t := show_u a +:+ _). assert (0 < slen t).
  { unfold t. rewrite slen_app. unfold slen. cbn. lia. }
  change (negb _) with false. zcases. unfold t.
  assert (forall u, show_u a +:+ String "-" (show_u b +:+ u)
                    = (show_u a +:+ String "-" (show_u b)) +:+ u) as ->.
  { intros u. by rewrite app_assoc_s, app_cons. }
  rewrite split_once_app.
  - cbn [ok_or mbind outcome_bind]. rewrite split_show. cbn [ok_or mbind outcome_bind].
    rewrite !trim_show, !parse_show by lia. cbn [ok_or mbind outcome_bind].
    zcases. rewrite wrap_id by (unfold in_width; lia). done.
  - assert (forall s u, has_char "/" (s +:+ u) = has_char "/" s || has_char "/" u) as Happ.
    { clear. induction s as [|c s IH]; intros u; [done|]. rewrite app_cons. cbn.
      by rewrite IH, orb_assoc. }
    rewrite Happ. cbn [has_char].
    by rewrite !(digits_no_char "/") by (done || apply show_all_digits).
Qed.

(** A cache lifetime too large for the clock stops the request with a
    panic instead of an error: this happens exactly when the header is
    readable, its number fits in 64 bits, and now plus the number passes the
    last second a [SystemTime] can hold. *)
Theorem cache_control_time_panics now headers :
  0 <= now ->
  (cache_control_time now headers = Panic <->
   exists v s i t,
     match hget headers "cache-control" with
     | Some v => Some v | None => hget headers "pragma" end = Some v /\
     hv_str v = Some s /\ rfind_char "=" s = Some i /\
     parse_u 64 (trim (sdrop (i + 1) s)) = Some t /\ 2 ^ 63 <= now + t).
Proof.
  intros Hnow. unfold cache_control_time. cbn zeta.
  set (o := match hget headers "cache-control" with Some v => Some v | None => _ end).
  destruct o as [v|]; [|split; [done|by intros (? & ? & ? & ? & ? & _)]].
  destruct (hv_str v) as [s|] eqn:Es; cbn [ok_or mbind outcome_bind];
    [|split; [done|intros (? & ? & ? & ? & [=<-] & ? & _); congruence]].
  destruct (rfind_char "=" s) as [i|] eqn:Ei;
    [|split; [done|intros (? & ? & ? & ? & [=<-] & ? & ? & _); congruence]].
  destruct (parse_u 64 (trim (sdrop (i + 1) s))) as [t|] eqn:Et; cbn [ok_or mbind outcome_bind];
    [|split; [done|intros (? & ? & ? & ? & [=<-] & ? & ? & ? & _); congruence]].
  apply parse_u_range in Et as Ht. unfold time_add, epoch_secs. zcases.
  - cbn. zcases. split; [done|]. intros (v' & s' & i' & t' & [=<-] & Hs & Hi & Hp & Hlt).
    assert (s' = s) as -> by congruence. assert (i' = i) as -> by congruence.
    rewrite Et in Hp. injection Hp as <-. lia.
  - split; [|done]. intros _. exists v, s, i, t. repeat split; done || lia.
Qed.

End range_theorems.

(** ** Concrete requests *)

#[local] Existing Instance assoc_http.

Definition header (k v : string) : HeaderMap := [(k, v)].
Definition range_request (s : string) : HeaderMap := header "range" s.

Lemma get_http_range_resolves_witness :
  get_http_range (range_request "bytes=500-999") 800
  = Ok (mkRange true 800 300 500 799).
Proof.
  apply (get_http_range_resolves (range_request "bytes=500-999") 800 "bytes=500-999"
           (FromTo 500 999)); unfold in_width; cbn; first [lia | done].
Defined.

Lemma get_http_multipart_range_bounds_witness :
  Forall (fun d => is_range d = true /\ in_bounds 100 d)
    [mkRange true 100 10 0 9; mkRange true 100 10 90 99].
Proof.
  refine (proj2 (get_http_multipart_range_bounds (range_request "bytes=0-9, 90-") 100
    (whole 100) (Some [mkRange true 100 10 0 9; mkRange true 100 10 90 99]) _ _)).
  - unfold in_width. lia.
  - vm_compute. reflexivity.
Defined.

Lemma get_http_multipart_range_single_witness :
  get_http_multipart_range (range_request "bytes=-20") 100 = Ok (mkRange true 100 20 80 99, None).
Proof.
  rewrite (get_http_multipart_range_single (range_request "bytes=-20") 100);
    [vm_compute|]; reflexivity.
Defined.

Lemma content_range_roundtrip_witness :
  content_range (header "content-range" "bytes 5-9/20") = Ok (mkRange true 20 5 5 9).
Proof.
  apply (content_range_roundtrip (header "content-range" "bytes 5-9/20") "bytes 5-9/20" 5 9 20);
    unfold in_width; first [lia | reflexivity].
Defined.

Lemma cache_control_time_panics_witness :
  cache_control_time 1700000000 (header "cache-control" "max-age=18446744073709551615") = Panic.
Proof.
  apply cache_control_time_panics; [lia|].
  exists "max-age=18446744073709551615", "max-age=18446744073709551615", 7%nat, (2 ^ 64 - 1).
  repeat split; vm_compute; first [reflexivity | discriminate].
Defined.

(** The empty suffix is accepted, as a range of no bytes whose first byte is
    past its last. *)
Example empty_suffix_accepted :
  get_http_range (range_request "bytes=-0") 100 = Ok (mkRange true 100 0 100 99).
Proof. vm_compute. reflexivity. Qed.

(** A suffix longer than the body is refused rather than answered with the
    whole body. *)
Example long_suffix_refused :
  get_http_range (range_request "bytes=-500") 100 = Err "".
Proof. vm_compute. reflexivity. Qed.
