(* ===== verification/HttpCtx.v ===== *)
(** The per-request state the HTTP filters share: the fields of
    [HttpStreamRequestContext], [HttpIn] and [HttpOut]
    ([any-proxy/src/proxy/http_proxy/http_stream_request.rs]) they read and
    write. *)
From S2P Require Import Prelude RustStd Bitmap FileCache HttpLib HttpHeader.
#[local] Open Scope string_scope.
#[local] Open Scope Z_scope.

(** [MsgReadBufFile] of [any-base/src/io/async_write_msg.rs]; the file is its
    handle. *)
Record MsgReadBufFile := mkFileBuf { file_ext : Z; f_seek : Z; f_size : Z }.

Inductive HttpBodyBuf :=
  | Bytes (data : list Z)
  | File (buf : MsgReadBufFile).

Record HttpBodyBufFilter := mkBody { b_buf : HttpBodyBuf; b_seek : Z; b_size : Z }.

Definition from_bytes (data : list Z) (seek size : Z) : HttpBodyBufFilter :=
  mkBody (Bytes data) seek size.
Definition from_file (buf : MsgReadBufFile) (seek size : Z) : HttpBodyBufFilter :=
  mkBody (File buf) seek size.
Definition to_bytes (b : HttpBodyBufFilter) : option (list Z) :=
  match b_buf b with Bytes d => Some d | File _ => None end.
Definition to_file (b : HttpBodyBufFilter) : option MsgReadBufFile :=
  match b_buf b with File f => Some f | Bytes _ => None end.

Definition to_content_range (r : HttpRange) : HttpRange := r.

(** [multipart_range]: the ranges still to send and the part headers still to
    send. *)
Record HttpMultipartRange := mkMultipart {
  ranges : list HttpRange;
  body : list string;
  body_header_len : Z
}.

Record HttpMultipartRangeHeader := mkMultipartHeader {
  body_len : Z;
  header_value : string
}.

(** The open node of a cache file, shared by the requests that use it: the
    contents of the file, where the bitmap and the body start in it
    ([fix.bitmap_start], [fix.body_start]), its [cache_file_slice], its bitmap
    and how many references to that bitmap wait in [bitmap_to_file]. *)
Record CacheNode := mkNode {
  n_file : file;
  bitmap_start : Z;
  body_start : Z;
  cache_file_slice : Z;
  bitmap : BitMap;
  bitmap_to_file : nat
}.

Inductive StreamFlowErr := Init | ReadClose | ReadErr | WriteClose.

Section ctx.
Context `{HttpCrate}.

Record HttpResponseInfo := mkInfo {
  last_modified_time : Z;
  info_last_modified : HeaderValue;
  info_e_tag : HeaderValue;
  info_cache_control_time : Z;
  expires_time : Z;
  info_range : HttpRange
}.

Record HttpIn := mkIn {
  in_headers : HeaderMap;
  is_head : bool;
  curr_upstream_method : option Method;
  is_load_range : bool;
  is_parse_range : bool;
  in_range : HttpRange;
  multipart_range : option HttpMultipartRange;
  multipart_range_header : option HttpMultipartRangeHeader;
  left_content_length : Z;
  out_content_length : Z;
  curr_slice_start : Z;
  bitmap_curr_slice_start : Z;
  bitmap_last_slice_start : Z;
  skip_bitset_index : Z;
  slice_start : Z;
  slice_end : Z;
  is_slice : bool
}.

Record HttpOut := mkOut {
  status : Z;
  out_headers : HeaderMap;
  is_cache : bool;
  is_cache_err : bool;
  response_info : option HttpResponseInfo;
  o_left_content_length : Z;
  o_out_content_length : Z;
  o_transfer_encoding : option string;
  out_range : HttpRange
}.

(** [http_cache_file] is [None] when the request has no cache file, and
    [Some None] when its file has no open node.  [upstream_read] is the byte
    counter [read] of [upstream_stream_flow_info].
    [conf_expires] and [cache_valids] are the [expires] and
    [proxy_cache_valids] of the location's configuration. *)
Record Ctx := mkCtx {
  r_in : HttpIn;
  r_out : HttpOut;
  in_body_buf : option HttpBodyBufFilter;
  out_body_buf : option HttpBodyBufFilter;
  is_request_cache : bool;
  http_request_slice : Z;
  http_cache_file : option (option CacheNode);
  is_http_upstream : bool;
  upstream_read : Z;
  is_try_cache : bool;
  is_no_cache : bool;
  is_last_upstream_cache : bool;
  upstream_err : option StreamFlowErr;
  client_err : option StreamFlowErr;
  conf_expires : Z;
  cache_valids : gmap Z Z
}.

(** *** Updates of one field *)

Definition eta_in (r : HttpIn) : HttpIn :=
  mkIn (in_headers r) (is_head r) (curr_upstream_method r) (is_load_range r)
    (is_parse_range r) (in_range r) (multipart_range r) (multipart_range_header r)
    (left_content_length r) (out_content_length r) (curr_slice_start r)
    (bitmap_curr_slice_start r) (bitmap_last_slice_start r) (skip_bitset_index r)
    (slice_start r) (slice_end r) (is_slice r).

Definition eta_out (r : HttpOut) : HttpOut :=
  mkOut (status r) (out_headers r) (is_cache r) (is_cache_err r) (response_info r)
    (o_left_content_length r) (o_out_content_length r) (o_transfer_encoding r) (out_range r).

Definition eta_ctx (c : Ctx) : Ctx :=
  mkCtx (r_in c) (r_out c) (in_body_buf c) (out_body_buf c) (is_request_cache c)
    (http_request_slice c) (http_cache_file c) (is_http_upstream c)
    (upstream_read c) (is_try_cache c) (is_no_cache c)
    (is_last_upstream_cache c) (upstream_err c) (client_err c) (conf_expires c)
    (cache_valids c).

Definition set_r_in : HttpIn -> Ctx -> Ctx := ltac:(setter eta_ctx r_in).
Definition set_r_out : HttpOut -> Ctx -> Ctx := ltac:(setter eta_ctx r_out).
Definition set_in_body_buf : option HttpBodyBufFilter -> Ctx -> Ctx :=
  ltac:(setter eta_ctx in_body_buf).
Definition set_out_body_buf : option HttpBodyBufFilter -> Ctx -> Ctx :=
  ltac:(setter eta_ctx out_body_buf).
Definition set_node : option (option CacheNode) -> Ctx -> Ctx :=
  ltac:(setter eta_ctx http_cache_file).
Definition set_upstream_read : Z -> Ctx -> Ctx := ltac:(setter eta_ctx upstream_read).
Definition set_last_upstream_cache : bool -> Ctx -> Ctx :=
  ltac:(setter eta_ctx is_last_upstream_cache).
Definition set_upstream_err : option StreamFlowErr -> Ctx -> Ctx :=
  ltac:(setter eta_ctx upstream_err).
Definition set_client_err : option StreamFlowErr -> Ctx -> Ctx :=
  ltac:(setter eta_ctx client_err).

Definition set_load_range : bool -> HttpIn -> HttpIn := ltac:(setter eta_in is_load_range).
Definition set_parse_range : bool -> HttpIn -> HttpIn := ltac:(setter eta_in is_parse_range).
Definition set_range : HttpRange -> HttpIn -> HttpIn := ltac:(setter eta_in in_range).
Definition set_multipart : option HttpMultipartRange -> HttpIn -> HttpIn :=
  ltac:(setter eta_in multipart_range).
Definition set_multipart_header : option HttpMultipartRangeHeader -> HttpIn -> HttpIn :=
  ltac:(setter eta_in multipart_range_header).
Definition set_left : Z -> HttpIn -> HttpIn := ltac:(setter eta_in left_content_length).
Definition set_out_len : Z -> HttpIn -> HttpIn := ltac:(setter eta_in out_content_length).
Definition set_curr : Z -> HttpIn -> HttpIn := ltac:(setter eta_in curr_slice_start).
Definition set_bitmap_curr : Z -> HttpIn -> HttpIn :=
  ltac:(setter eta_in bitmap_curr_slice_start).
Definition set_bitmap_last : Z -> HttpIn -> HttpIn :=
  ltac:(setter eta_in bitmap_last_slice_start).
Definition set_skip : Z -> HttpIn -> HttpIn := ltac:(setter eta_in skip_bitset_index).
Definition set_slice_start : Z -> HttpIn -> HttpIn := ltac:(setter eta_in slice_start).
Definition set_slice_end : Z -> HttpIn -> HttpIn := ltac:(setter eta_in slice_end).

Definition set_status : Z -> HttpOut -> HttpOut := ltac:(setter eta_out status).
Definition set_out_headers : HeaderMap -> HttpOut -> HttpOut :=
  ltac:(setter eta_out out_headers).
Definition set_is_cache : bool -> HttpOut -> HttpOut := ltac:(setter eta_out is_cache).
Definition set_cache_err : bool -> HttpOut -> HttpOut := ltac:(setter eta_out is_cache_err).
Definition set_info : option HttpResponseInfo -> HttpOut -> HttpOut :=
  ltac:(setter eta_out response_info).
Definition set_o_left : Z -> HttpOut -> HttpOut := ltac:(setter eta_out o_left_content_length).
Definition set_o_out_len : Z -> HttpOut -> HttpOut :=
  ltac:(setter eta_out o_out_content_length).
Definition set_transfer : option string -> HttpOut -> HttpOut :=
  ltac:(setter eta_out o_transfer_encoding).
Definition set_out_range : HttpRange -> HttpOut -> HttpOut := ltac:(setter eta_out out_range).

(** Updates inside the context. *)
Definition upd_in (f : HttpIn -> HttpIn) : stm Ctx unit :=
  modify (fun c => set_r_in (f (r_in c)) c).
Definition upd_out (f : HttpOut -> HttpOut) : stm Ctx unit :=
  modify (fun c => set_r_out (f (r_out c)) c).
Definition insert_header (k : string) (v : HeaderValue) : stm Ctx unit :=
  upd_out (fun o => set_out_headers (hset k v (out_headers o)) o).
Definition remove_header (k : string) : stm Ctx unit :=
  upd_out (fun o => set_out_headers (hdel k (out_headers o)) o).

(** [StatusCode::is_success] and the two tests of the context. *)
Definition is_success (s : Z) : bool := (200 <=? s) && (s <? 300).
Definition is_out_status_ok (c : Ctx) : bool :=
  (status (r_out c) =? 200) || (status (r_out c) =? 206).
Definition is_out_status_err (c : Ctx) : bool :=
  (400 <=? status (r_out c)) && (status (r_out c) <? 600).

End ctx.
