(* ===== verification/HttpBody.v ===== *)
(** The body path of a proxied response: reading the upstream body
    ([response_body_read], [write_body_to_client], [slice_update_bitset] of
    [any-proxy/src/proxy/http_proxy/util.rs]), clipping it to the requested
    range ([http_filter_body_range.rs]) and the loop [stream_to_client] of
    [http_server_proxy.rs] that drives them. *)
From S2P Require Import Prelude RustStd HttpLib HttpHeader HttpCtx Bitmap FileCache.
#[local] Open Scope string_scope.
#[local] Open Scope Z_scope.

(** *** [MsgReadBufFile] *)

(** [to_msg_write_buf] (and [to_msg_write_buf_file], [get]): on a 64-bit
    machine [usize::max_value()] is the largest [u64]. *)
Definition to_msg_write_buf (b : MsgReadBufFile) : Z * MsgReadBufFile :=
  let size := Z.min (f_size b) (2 ^ 64 - 1) in
  (size, mkFileBuf (file_ext b) (f_seek b) size).

Definition has_remaining (b : MsgReadBufFile) : bool := 0 <? f_size b.

(** [MsgReadBufFile::advance] *)
Definition file_advance (cnt : Z) (b : MsgReadBufFile) : MsgReadBufFile :=
  mkFileBuf (file_ext b) (wrap64 (f_seek b + cnt)) (wrap64 (f_size b - cnt)).

(** The client's channel, as [write_msg] of [stream_channel_write] reports on
    it: the number of bytes taken (zero once the client has closed) or an
    error. *)
Class ClientChan := {
  Chan : Type;
  write_msg : HttpBodyBuf -> Chan -> outcome Z * Chan
}.

(** What the upstream connection still has to give: hyper's body chunks, or
    the file of a cache hit. *)
Inductive HttpResponseBody :=
  | Body (data : list (outcome (list Z)))
  | BodyFile (file : option MsgReadBufFile).

Section body.
Context `{HttpCrate} `{ClientChan}.

Definition response_body_read (rb : HttpResponseBody)
    : stm Ctx (option HttpBodyBufFilter * HttpResponseBody) := fun c =>
  match rb with
  | Body data =>
      if (o_left_content_length (r_out c) <=? 0) &&
         match o_transfer_encoding (r_out c) with None => true | Some _ => false end
      then (Ok (None, rb), c)
      else match data with
      | [] => (Ok (None, rb), c)
      | Ok buf :: rest =>
          if zlen buf <=? 0 then (Ok (None, Body rest), c)
          else (Ok (Some (from_bytes buf (curr_slice_start (r_in c)) (zlen buf)), Body rest), c)
      | _ :: rest =>
          (Err "err:stream_rx close", set_client_err (Some Init) (set_upstream_err (Some ReadErr) c))
      end
  | BodyFile None => (Ok (None, rb), c)
  | BodyFile (Some buf) =>
      let seek := curr_slice_start (r_in c) in
      match
        match o_transfer_encoding (r_out c) with
        | Some _ => Ok (f_size buf)
        | None =>
            info ← expect (response_info (r_out c));
            Ok (wrap64 (range_end (info_range info) - curr_slice_start (r_in c) + 1))
        end
      with
      | Ok size =>
          (Ok (Some (from_file (mkFileBuf (file_ext buf) seek size) seek size), BodyFile None), c)
      | Err e => (Err e, c)
      | Panic => (Panic, c)
      | Fuel => (Fuel, c)
      end
  end.

(** The bounds of a buffer clipped to the requested range: [None] when the
    buffer lies outside it. *)
Definition clip (r : HttpRange) (first last : Z) : option (Z * Z) :=
  if HttpHeader.range_end r <? first then None
  else if last <? range_start r then None
  else
    let first := if first <? range_start r then range_start r else first in
    let last := if HttpHeader.range_end r <? last then HttpHeader.range_end r else last in
    Some (first, last).

Definition no_transfer_encoding (c : Ctx) : bool :=
  match o_transfer_encoding (r_out c) with None => true | Some _ => false end.

(** The buffer handed to the client for the bytes [first..last] of the body:
    a slice of the bytes, or a window of the cache file, whose body starts
    after the stored head. *)
Definition out_body (c : Ctx) (b : HttpBodyBufFilter) (first last : Z)
    : outcome HttpBodyBufFilter :=
  let size := wrap64 (wrap64 (last - first) + 1) in
  match b_buf b with
  | Bytes data =>
      let index := wrap64 (first - b_seek b) in
      data ← vslice data index (wrap64 (index + size));
      Ok (from_bytes data first size)
  | File buf =>
      start ← match http_cache_file c with
              | Some node => node ← expect node; Ok (body_start node)
              | None => Ok 0
              end;
      Ok (from_file (mkFileBuf (file_ext buf) (wrap64 (first + start)) size) first size)
  end.

Definition do_http_filter_body_range : stm Ctx unit := fun c =>
  match in_body_buf c with
  | None => (Panic, c)
  | Some b =>
      let c := set_in_body_buf None c in
      let c := set_r_in (set_curr (wrap64 (curr_slice_start (r_in c) + b_size b)) (r_in c)) c in
      let first := b_seek b in
      let last := wrap64 (wrap64 (first + b_size b) - 1) in
      match
        (if is_request_cache c && no_transfer_encoding c
         then clip (in_range (r_in c)) first last
         else Some (first, last))
      with
      | None => (Ok tt, c)
      | Some (first, last) =>
          match out_body c b first last with
          | Ok out =>
              let n := swrap64 (b_size out) in
              if left_content_length (r_in c) <? n then
                if is_request_cache c && no_transfer_encoding c
                then (Err "out_body_buf_size > rctx.r_in.left_content_length", c)
                else (Ok tt, set_out_body_buf (Some out) c)
              else
                let c := set_r_in (set_left (left_content_length (r_in c) - n) (r_in c)) c in
                (Ok tt, set_out_body_buf (Some out) c)
          | Err e => (Err e, c)
          | Panic => (Panic, c)
          | Fuel => (Fuel, c)
          end
      end
  end.

(** *** Sending to the client *)

Definition client_closed (e : string) : stm (Ctx * Chan) Z := fun '(c, ch) =>
  (Err e, (set_client_err (Some WriteClose) (set_upstream_err (Some Init) c), ch)).

Definition send (buf : HttpBodyBuf) (closed : string) : stm (Ctx * Chan) Z := fun '(c, ch) =>
  match write_msg buf ch with
  | (Ok n, ch) => if n =? 0 then client_closed closed (c, ch) else (Ok n, (c, ch))
  | (o, ch) => (o, (c, ch))
  end.

(** The loop that writes a file window. *)
Fixpoint send_file (fuel : nat) (b : MsgReadBufFile) : stm (Ctx * Chan) unit :=
  match fuel with
  | O => lift Fuel
  | S fuel =>
      if has_remaining b then
        let '(size, w) := to_msg_write_buf b in
        _ ← send (File w) "err:File client close";
        send_file fuel (file_advance size b)
      else done_
  end.

Definition write_body_to_client (b : option HttpBodyBufFilter) : stm (Ctx * Chan) unit :=
  match b with
  | None => done_
  | Some b =>
      match b_buf b with
      | Bytes data => _ ← send (Bytes data) "err:Bytes client close"; done_
      | File f => send_file 2 f
      end
  end.

(** *** The cache file *)

Definition on_node (f : CacheNode -> CacheNode) : Ctx -> Ctx := fun c =>
  set_node (option_map (option_map f) (http_cache_file c)) c.

Definition set_file (f : file) (n : CacheNode) : CacheNode :=
  mkNode f (bitmap_start n) (body_start n) (cache_file_slice n) (bitmap n) (bitmap_to_file n).

(** The result tells whether a slice was marked; the bitmap is queued for
    writing when one was. *)
Definition slice_update_bitset (n : CacheNode) : stm Ctx bool := fun c =>
  let i := r_in c in
  if (bitmap_curr_slice_start i <=? 0)
     || (bitmap_curr_slice_start i =? bitmap_last_slice_start i)
  then (Ok false, c)
  else
    match update_bitset (bitmap n) (bitmap_last_slice_start i) (bitmap_curr_slice_start i - 1)
            (cache_file_slice n) (skip_bitset_index i) (raw_content_length (in_range i)) with
    | Ok (bm, is_ok) =>
        (Ok is_ok,
         on_node (fun n => mkNode (n_file n) (bitmap_start n) (body_start n) (cache_file_slice n)
                             bm (if is_ok then S (bitmap_to_file n) else bitmap_to_file n)) c)
    | Err e => (Err e, c)
    | Panic => (Panic, c)
    | Fuel => (Fuel, c)
    end.

(** The queue of the node is emptied and the bitmap written once. *)
Definition bitmap_to_cache_file : stm Ctx unit := fun c =>
  let c := on_node (fun n =>
    match bitmap_to_file n with
    | O => n
    | S _ => mkNode (write_all_at (bitset (bitmap n)) (bitmap_start n) (n_file n))
               (bitmap_start n) (body_start n) (cache_file_slice n) (bitmap n) O
    end) c in
  (Ok tt, set_r_in (set_bitmap_last (bitmap_curr_slice_start (r_in c)) (r_in c)) c).

(** The first half of a turn of [stream_to_client]: the bytes read are
    buffered, the whole pages (everything at the end) written to the cache
    file, and the slices completed are marked.  The state is the context and
    the buffer. *)
Definition cache_turn (b : option HttpBodyBufFilter) : stm (Ctx * FileCacheBytes) unit :=
  fun '(c, fc) =>
  if negb (is_cache (r_out c)) || is_cache_err (r_out c) then (Ok tt, (c, fc))
  else match http_cache_file c with
  | None | Some None => (Ok tt, (set_r_out (set_cache_err true (r_out c)) c, fc))
  | Some (Some n) =>
      let fc := match b with
                | Some b => match b_buf b with Bytes d => push_back d fc | File _ => fc end
                | None => fc
                end in
      let is_end := match b with Some _ => false | None => true end in
      match drain 2 is_end (body_start n) (bitmap_curr_slice_start (r_in c)) (n_file n) fc with
      | Ok (curr, f, fc) =>
          let c := on_node (set_file f) c in
          let c := set_r_in (set_bitmap_curr curr (r_in c)) c in
          match slice_update_bitset n c with
          | (Ok true, c) => let (o, c) := bitmap_to_cache_file c in (o, (c, fc))
          | (Ok false, c) => (Ok tt, (c, fc))
          | (Err e, c) => (Err e, (c, fc))
          | (Panic, c) => (Panic, (c, fc))
          | (Fuel, c) => (Fuel, (c, fc))
          end
      | Err e => (Err e, (c, fc))
      | Panic => (Panic, (c, fc))
      | Fuel => (Fuel, (c, fc))
      end
  end.

(** *** The loop *)

(** The second half of a turn: the filter, then the client. *)
Definition client_turn (b : HttpBodyBufFilter) : stm (Ctx * Chan) unit := fun '(c, ch) =>
  let c := match b_buf b with
           | Bytes d => if is_http_upstream c
                        then set_upstream_read (swrap64 (upstream_read c + zlen d)) c else c
           | File _ => c
           end in
  let c := set_in_body_buf (Some b) c in
  match do_http_filter_body_range c with
  | (Ok _, c) =>
      write_body_to_client (out_body_buf c) (set_out_body_buf None c, ch)
  | (Err e, c) => (Err e, (c, ch))
  | (Panic, c) => (Panic, (c, ch))
  | (Fuel, c) => (Fuel, (c, ch))
  end.

Fixpoint stream_loop (fuel : nat) (rb : HttpResponseBody)
    : stm (Ctx * Chan * FileCacheBytes) unit := fun '(c, ch, fc) =>
  match fuel with
  | O => (Fuel, (c, ch, fc))
  | S fuel =>
      match response_body_read rb c with
      | (Ok (b, rb), c) =>
          match cache_turn b (c, fc) with
          | (Ok _, (c, fc)) =>
              match b with
              | None => (Ok tt, (set_upstream_err (Some ReadClose) c, ch, fc))
              | Some b =>
                  match client_turn b (c, ch) with
                  | (Ok _, (c, ch)) => stream_loop fuel rb (c, ch, fc)
                  | (o, (c, ch)) => (o, (c, ch, fc))
                  end
              end
          | (o, (c, fc)) => (o, (c, ch, fc))
          end
      | (Err e, c) => (Err e, (set_upstream_err (Some ReadClose) c, ch, fc))
      | (Panic, c) => (Panic, (c, ch, fc))
      | (Fuel, c) => (Fuel, (c, ch, fc))
      end
  end.

(** A turn per chunk the body has, and one to see its end. *)
Definition body_turns (rb : HttpResponseBody) : nat :=
  match rb with Body data => S (length data) | BodyFile _ => 2 end.

(** [page] is the page size of the machine. *)
Definition stream_to_client (page : Z) (rb : HttpResponseBody)
    : stm (Ctx * Chan * FileCacheBytes) unit := fun '(c, ch, _) =>
  stream_loop (body_turns rb) rb (c, ch, cache_new page).

End body.
