(* ===== verification/BodyStream.v ===== *)
(** What the body loop of [HttpBody] guarantees: the client receives exactly
    the bytes of the requested range, the cache file receives the whole body,
    and the bitmap marks no slice whose bytes are not in the file. *)
From S2P Require Import Prelude RustStd Bitmap FileCache HttpLib HttpHeader HttpCtx HttpBody.
#[local] Open Scope Z_scope.

(** ** Windows of a run of bytes *)

(** The bytes of [d], which starts at position [s], between the positions [a]
    and [e]. *)
Definition window {A} (a e s : Z) (d : list A) : list A :=
  drop (Z.to_nat (a - s)) (take (Z.to_nat (e + 1 - s)) d).

Lemma window_app {A} a e s (d k : list A) :
  window a e s (d ++ k) = window a e s d ++ window a e (s + zlen d) k.
Proof.
  unfold window, zlen. rewrite take_app, drop_app, length_take. f_equal.
  destruct (decide (Z.to_nat (e + 1 - s) < length d)%nat).
  - replace (Z.to_nat (e + 1 - (s + Z.of_nat (length d)))) with O by lia.
    replace (Z.to_nat (e + 1 - s) - length d)%nat with O by lia. by rewrite !take_0, !drop_nil.
  - f_equal; [lia|]. f_equal. lia.
Qed.

(** The number of bytes of a range that lie at or after [s]. *)
Definition need (a e s : Z) : Z := Z.max 0 (e + 1 - Z.max a s).

Lemma window_need {A} a e s (d : list A) :
  need a e (s + zlen d) + zlen (window a e s d) = need a e s.
Proof.
  unfold need, window, zlen. rewrite length_drop, length_take. lia.
Qed.

Lemma window_empty {A} a e s (d : list A) :
  e < s \/ s + zlen d <= a -> window a e s d = [].
Proof.
  unfold window, zlen. intros [H|H].
  - replace (Z.to_nat (e + 1 - s)) with O by lia. rewrite take_0. apply drop_nil.
  - apply drop_ge. rewrite length_take. lia.
Qed.

Lemma vslice_window {A} a e s (d : list A) :
  0 <= s -> a <= e -> s <= e -> a < s + zlen d ->
  let f := Z.max s a in
  let l := Z.min (s + zlen d - 1) e in
  vslice d (f - s) (f - s + (l - f + 1)) = Ok (window a e s d).
Proof.
  intros Hs Hae H1 H2. cbn zeta. unfold window. pose proof (zlen_nonneg d).
  rewrite vslice_ok by lia. f_equal. unfold zlen in *. rewrite skipn_firstn_comm.
  replace (Z.to_nat (Z.max s a - s)) with (Z.to_nat (a - s)) by lia.
  destruct (decide (e < s + Z.of_nat (length d))).
  - f_equal. lia.
  - rewrite !take_ge by (rewrite length_drop; lia). done.
Qed.

Lemma write_all_at_app d k off f i :
  write_all_at (d ++ k) off f i = write_all_at k (off + zlen d) (write_all_at d off f) i.
Proof.
  unfold write_all_at. rewrite zlen_app. pose proof (zlen_nonneg d). pose proof (zlen_nonneg k).
  zcases; try done.
  - rewrite lookup_app_r by (unfold zlen in *; lia). do 2 f_equal. unfold zlen in *. lia.
  - by rewrite lookup_app_l by (unfold zlen in *; lia).
Qed.

(** ** The client's side *)

(** A client that stays connected takes every run of bytes it is sent. *)
Class ClientAccepts `{ClientChan} := {
  chan_sent : Chan -> list Z;
  write_msg_ok data ch : data <> [] ->
    exists n ch', write_msg (Bytes data) ch = (Ok n, ch') /\ n <> 0 /\
                  chan_sent ch' = chan_sent ch ++ data
}.

Section stream.
Context `{HttpCrate} `{ClientAccepts}.

(** The request serves the bytes [a..e] of the body, is at position [s] of it
    and still owes the client the bytes from there on. *)
Record client_ready (a e s : Z) (c : Ctx) : Prop := {
  cr_cached : is_request_cache c = true;
  cr_plain : o_transfer_encoding (r_out c) = None;
  cr_a : range_start (in_range (r_in c)) = a;
  cr_e : HttpHeader.range_end (in_range (r_in c)) = e;
  cr_bounds : 0 <= a /\ a <= e /\ e < 2 ^ 62 /\ 0 <= s;
  cr_curr : curr_slice_start (r_in c) = s;
  cr_left : left_content_length (r_in c) = need a e s;
  cr_out : out_body_buf c = None
}.

(** What the client's half of a turn leaves alone. *)
Record same_cache (c c' : Ctx) : Prop := {
  sc_out : r_out c' = r_out c;
  sc_node : http_cache_file c' = http_cache_file c;
  sc_range : in_range (r_in c') = in_range (r_in c);
  sc_curr : bitmap_curr_slice_start (r_in c') = bitmap_curr_slice_start (r_in c);
  sc_last : bitmap_last_slice_start (r_in c') = bitmap_last_slice_start (r_in c);
  sc_skip : skip_bitset_index (r_in c') = skip_bitset_index (r_in c)
}.

Lemma swrap64_small x : 0 <= x < 2 ^ 62 -> swrap64 x = x.
Proof. intros. apply swrap64_id. lia. Qed.

(** The filter on a chunk of bytes. *)
Lemma body_range_bytes a e s c d :
  client_ready a e s (set_in_body_buf None c) ->
  in_body_buf c = Some (from_bytes d s (zlen d)) ->
  0 < zlen d -> s + zlen d < 2 ^ 62 ->
  exists c', do_http_filter_body_range c = (Ok tt, c') /\
    out_body_buf c' =
      (if decide (window a e s d = []) then None
       else Some (from_bytes (window a e s d) (Z.max s a) (zlen (window a e s d)))) /\
    client_ready a e (s + zlen d) (set_out_body_buf None c') /\ same_cache c c'.
Proof.
  intros [Hc Ht Ha He Hb Hcur Hl Ho] Hin Hd Hsd.
  cbn [set_in_body_buf is_request_cache r_out r_in out_body_buf] in *.
  unfold do_http_filter_body_range. rewrite Hin. cbn [b_size b_seek from_bytes].
  cbn [set_in_body_buf set_r_in is_request_cache r_in set_curr in_range curr_slice_start].
  match goal with |- context [no_transfer_encoding ?c'] =>
    assert (no_transfer_encoding c' = true) as Hnt
      by (unfold no_transfer_encoding; cbn; by rewrite Ht) end.
  rewrite Hc, Hnt. cbn [andb].
  rewrite Hcur. unwrap.
  unfold clip. rewrite Ha, He.
  pose proof (window_need a e s d) as Hn. unfold need in *.
  destruct (decide (e < s \/ s + zlen d <= a)) as [Hout|Hin'].
  - rewrite (window_empty a e s d) in * by done. change (zlen []) with 0 in *.
    rewrite decide_True by done.
    destruct (Z.ltb_spec e s); [|destruct (Z.ltb_spec (s + zlen d - 1) a); [|lia]];
      (eexists; split; [reflexivity|]; split; [done|]; split; [|by split];
       split; cbn; try done; unfold need; lia).
  - destruct (Z.ltb_spec e s); [lia|]. destruct (Z.ltb_spec (s + zlen d - 1) a); [lia|].
    pose proof (vslice_window a e s d) as Hv. cbn zeta in Hv.
    assert (zlen (window a e s d)
            = Z.min (s + zlen d - 1) e - Z.max s a + 1) as Hw by lia.
    replace (if s <? a then a else s) with (Z.max s a) by (zcases; lia).
    replace (if e <? s + zlen d - 1 then e else s + zlen d - 1)
      with (Z.min (s + zlen d - 1) e) by (zcases; lia).
    unfold out_body. cbn [b_buf b_seek from_bytes].
    unwrap. rewrite Hv by lia.
    cbn [mbind outcome_bind b_size from_bytes left_content_length set_curr].
    rewrite swrap64_small by lia. rewrite Hl.
    destruct (Z.ltb_spec (Z.max 0 (e + 1 - Z.max a s))
                (Z.min (s + zlen d - 1) e - Z.max s a + 1)); [lia|].
    eexists. split; [reflexivity|]. rewrite decide_False.
    2:{ intros E. rewrite E in Hw. change (zlen []) with 0 in Hw. lia. }
    split; [cbn; by rewrite <- Hw|]. split; [|by split].
    split; cbn; try done; unfold need; lia.
Qed.

Lemma client_turn_bytes a e s c ch d :
  client_ready a e s c -> 0 < zlen d -> s + zlen d < 2 ^ 62 ->
  exists c' ch', client_turn (from_bytes d s (zlen d)) (c, ch) = (Ok tt, (c', ch')) /\
    chan_sent ch' = chan_sent ch ++ window a e s d /\
    client_ready a e (s + zlen d) c' /\ same_cache c c'.
Proof.
  intros Hr Hd Hsd. unfold client_turn. cbn [b_buf from_bytes].
  set (c1 := if is_http_upstream c then _ else c).
  assert (client_ready a e s c1 /\ same_cache c c1) as [Hr1 Hs1].
  { unfold c1. destruct (is_http_upstream c); (split; [|by split]); [|done].
    destruct Hr. by split. }
  destruct (body_range_bytes a e s (set_in_body_buf (Some (from_bytes d s (zlen d))) c1) d)
    as (c2 & -> & Ho & Hr2 & Hs2); [|done..|].
  { destruct Hr1. by split. }
  assert (same_cache c (set_out_body_buf None c2)) as Hs.
  { destruct Hs1, Hs2. split; cbn in *; congruence. }
  rewrite Ho. destruct (decide (window a e s d = [])) as [->|Hne].
  - eexists _, ch. split; [reflexivity|]. by rewrite app_nil_r.
  - destruct (write_msg_ok (window a e s d) ch Hne) as (n & ch' & Hw & Hn & Hsent).
    cbn [write_body_to_client b_buf from_bytes]. unfold mbind, stm_bind, send. rewrite Hw.
    rewrite (proj2 (Z.eqb_neq n 0) Hn). eexists _, ch'. by split.
Qed.

(** ** The cache's side *)

(** [n] holds the bytes from [lo] to [hi] of a body of [flen] bytes beyond
    those [old] marks: a slice newly marked lies between the two. *)
Definition marks_within (sl flen lo hi : Z) (old new : BitMap) : Prop :=
  forall i, 0 <= i -> bit_at (bitset new) i = true ->
    bit_at (bitset old) i = true \/ (lo <= i * sl /\ Z.min ((i + 1) * sl) flen <= hi).

(** The request started at the slice boundary [s0], has read the body up to
    [s], and everything it read is in the file or in the buffer. *)
Record cache_ready (s0 s : Z) (n : CacheNode) (c : Ctx) (fc : FileCacheBytes) : Prop := {
  ca_on : is_cache (r_out c) = true /\ is_cache_err (r_out c) = false;
  ca_node : http_cache_file c = Some (Some n);
  ca_buf : cache_wf fc;
  ca_curr : bitmap_curr_slice_start (r_in c) = s - size fc;
  ca_last : s0 <= bitmap_last_slice_start (r_in c) <= s - size fc;
  ca_start : 0 <= s0 /\ s0 mod cache_file_slice n = 0 /\ skip_bitset_index (r_in c) <= 0;
  ca_wf : bitmap_wf (bitmap n) /\ bitmap_counted (bitmap n);
  ca_slice : 0 < cache_file_slice n;
  ca_len : raw_content_length (in_range (r_in c)) <= slice_size (bitmap n) * cache_file_slice n;
  ca_max : raw_content_length (in_range (r_in c)) < 2 ^ 62;
  ca_area : 0 <= bitmap_start n /\ bitmap_start n + zlen (bitset (bitmap n)) <= body_start n;
  ca_body : body_start n < 2 ^ 62
}.

(** A node that differs from [n] only in its bitmap, of the same size. *)
Definition set_bitmap (bm : BitMap) (k : nat) (n : CacheNode) : CacheNode :=
  mkNode (n_file n) (bitmap_start n) (body_start n) (cache_file_slice n) bm k.

Lemma in_update_within s0 rs re sl skip flen i :
  0 < sl -> 0 <= s0 <= rs -> rs <= re -> s0 mod sl = 0 -> re < flen ->
  in_update rs re sl skip flen i ->
  s0 <= i * sl /\ Z.min ((i + 1) * sl) flen <= re + 1.
Proof.
  intros Hsl H00 Hr Hm Hf Hu.
  assert (s0 = s0 / sl * sl) as Hs0.
  { pose proof (Z.div_mod s0 sl). lia. }
  assert (s0 / sl <= rs / sl) by (apply Z.div_le_mono; lia).
  assert (rs / sl <= re / sl) by (apply Z.div_le_mono; lia).
  pose proof (Z.mul_div_le (re + 1) sl Hsl).
  destruct Hu as [[Hi _]|[He ->]]; split; nia.
Qed.

(** The context after the cache's half of a turn. *)
Definition touch (c : Ctx) (n : CacheNode) (curr last : Z) : Ctx :=
  set_r_in (set_bitmap_last last (set_bitmap_curr curr (r_in c))) (set_node (Some (Some n)) c).

Lemma touch_id c n :
  http_cache_file c = Some (Some n) ->
  touch c n (bitmap_curr_slice_start (r_in c)) (bitmap_last_slice_start (r_in c)) = c.
Proof. intros E. destruct c as [[]]; cbn in *. by subst. Qed.

Lemma slice_update_step s0 n0 n c lo hi flen :
  http_cache_file c = Some (Some n) -> bitmap n0 = bitmap n ->
  cache_file_slice n0 = cache_file_slice n ->
  bitmap_curr_slice_start (r_in c) = hi -> bitmap_last_slice_start (r_in c) = lo ->
  raw_content_length (in_range (r_in c)) = flen ->
  bitmap_wf (bitmap n) /\ bitmap_counted (bitmap n) -> 0 < cache_file_slice n ->
  0 <= s0 <= lo -> s0 mod cache_file_slice n = 0 ->
  lo <= hi -> hi <= flen -> flen < 2 ^ 62 ->
  flen <= slice_size (bitmap n) * cache_file_slice n ->
  exists b bm k, slice_update_bitset n0 c = (Ok b, touch c (set_bitmap bm k n) hi lo) /\
    (bitmap_wf bm /\ bitmap_counted bm) /\ slice_size bm = slice_size (bitmap n) /\
    zlen (bitset bm) = zlen (bitset (bitmap n)) /\
    marks_within (cache_file_slice n) flen s0 hi (bitmap n) bm.
Proof.
  intros Hn Hbm Hsl <- <- Hflen Hwf Hs H0s Hm Hlh Hf Hmax Hcap.
  unfold slice_update_bitset. cbn zeta.
  set (hi := bitmap_curr_slice_start (r_in c)) in *.
  set (lo := bitmap_last_slice_start (r_in c)) in *.
  assert (exists b bm k, (Ok false, c) = (Ok b, touch c (set_bitmap bm k n) hi lo) /\
    (bitmap_wf bm /\ bitmap_counted bm) /\ slice_size bm = slice_size (bitmap n) /\
    zlen (bitset bm) = zlen (bitset (bitmap n)) /\
    marks_within (cache_file_slice n) flen s0 hi (bitmap n) bm) as Hsame.
  { exists false, (bitmap n), (bitmap_to_file n). rewrite touch_id by (rewrite Hn; by destruct n).
    split_and!; try done; try apply Hwf. intros i _ Hi. by left. }
  destruct (Z.leb_spec hi 0); [exact Hsame|]. destruct (Z.eqb_spec hi lo); [exact Hsame|].
  cbn [orb]. rewrite Hbm, Hsl, Hflen.
  assert (on_node_eq : forall f, on_node f c = touch c (f n) hi lo).
  { intros f. unfold on_node, touch, hi, lo. rewrite Hn. by destruct c as [[]]. }
  destruct (decide (lo = hi - 1)) as [Heq|Hne].
  { exists false, (bitmap n), (bitmap_to_file n). unfold update_bitset.
    destruct (Z.ltb_spec (hi - 1) lo); [lia|]. destruct (Z.eqb_spec lo (hi - 1)); [|lia].
    rewrite on_node_eq. split_and!; try done; try apply Hwf. intros i _ Hi. by left. }
  destruct (update_bitset_spec_lemma (bitmap n) lo (hi - 1) (cache_file_slice n)
              (skip_bitset_index (r_in c)) flen) as (bm & b & E & Hw' & Hc' & Hss & Hbits);
    try apply Hwf; try lia.
  { apply Z.div_lt_upper_bound; lia. }
  rewrite E, on_node_eq. eexists b, bm, _. split; [reflexivity|]. split_and!; try done.
  - unfold zlen. f_equal. by eapply update_bitset_length.
  - intros i Hi. rewrite Hbits by done. intros [Hu|Ho]%orb_true_iff; [right|by left].
    apply bool_decide_eq_true_1 in Hu.
    destruct (in_update_within s0 lo (hi - 1) (cache_file_slice n)
                (skip_bitset_index (r_in c)) flen i); done || lia.
Qed.

(** The parts of a node no request changes. *)
Record same_node (n n' : CacheNode) : Prop := {
  sn_body : body_start n' = body_start n;
  sn_bstart : bitmap_start n' = bitmap_start n;
  sn_slice : cache_file_slice n' = cache_file_slice n;
  sn_size : slice_size (bitmap n') = slice_size (bitmap n);
  sn_bytes : zlen (bitset (bitmap n')) = zlen (bitset (bitmap n))
}.

Lemma marks_within_trans sl flen lo h1 h2 b1 b2 b3 :
  h1 <= h2 -> marks_within sl flen lo h1 b1 b2 -> marks_within sl flen lo h2 b2 b3 ->
  marks_within sl flen lo h2 b1 b3.
Proof.
  intros Hh H12 H23 i Hi Hb. destruct (H23 i Hi Hb) as [H2|]; [|by right].
  destruct (H12 i Hi H2) as [|]; [by left|right]. lia.
Qed.

(** Writing the bitmap leaves the body area alone. *)
Lemma bitmap_to_cache_file_step c n curr last :
  0 <= bitmap_start n -> bitmap_start n + zlen (bitset (bitmap n)) <= body_start n ->
  exists n', bitmap_to_cache_file (touch c n curr last) = (Ok tt, touch c n' curr curr) /\
    same_node n n' /\ bitmap n' = bitmap n /\
    forall i, body_start n <= i -> n_file n' i = n_file n i.
Proof.
  intros Hb1 Hb2. unfold bitmap_to_cache_file. destruct (bitmap_to_file n) as [|k] eqn:E.
  - exists n. split_and!; try done. f_equal. unfold on_node, touch. cbn. by rewrite E.
  - eexists. split; [unfold on_node, touch; cbn; rewrite E; reflexivity|].
    split_and!; [done..|]. intros i Hi. cbn. unfold write_all_at. by zcases.
Qed.

(** Marking after a drain: the slices the position [hi] completes are marked
    and, when there are any, the bitmap is written. *)
Lemma mark_step {A} (fc : A) s0 n0 n c lo hi flen :
  bitmap n0 = bitmap n -> cache_file_slice n0 = cache_file_slice n ->
  raw_content_length (in_range (r_in c)) = flen ->
  bitmap_wf (bitmap n) /\ bitmap_counted (bitmap n) -> 0 < cache_file_slice n ->
  0 <= s0 <= lo -> s0 mod cache_file_slice n = 0 ->
  lo <= hi -> hi <= flen -> flen < 2 ^ 62 ->
  flen <= slice_size (bitmap n) * cache_file_slice n ->
  0 <= bitmap_start n -> bitmap_start n + zlen (bitset (bitmap n)) <= body_start n ->
  exists n' last,
    match slice_update_bitset n0 (touch c n hi lo) with
    | (Ok true, c) => let (o, c) := bitmap_to_cache_file c in (o, (c, fc))
    | (Ok false, c) => (Ok tt, (c, fc))
    | (Err e, c) => (Err e, (c, fc))
    | (Panic, c) => (Panic, (c, fc))
    | (Fuel, c) => (Fuel, (c, fc))
    end = (Ok tt, (touch c n' hi last, fc)) /\
    lo <= last <= hi /\ same_node n n' /\
    (bitmap_wf (bitmap n') /\ bitmap_counted (bitmap n')) /\
    (forall i, body_start n <= i -> n_file n' i = n_file n i) /\
    marks_within (cache_file_slice n) flen s0 hi (bitmap n) (bitmap n').
Proof.
  intros Hbm Hsl Hfl Hwf Hs H0s Hm Hlh Hf Hmax Hcap Hb1 Hb2.
  destruct (slice_update_step s0 n0 n (touch c n hi lo) lo hi flen)
    as (b & bm & k & -> & Hwf' & Hsz & Hln & Hmk); try done.
  destruct b.
  - destruct (bitmap_to_cache_file_step (touch c n hi lo) (set_bitmap bm k n) hi lo)
      as (n' & -> & Hsn & Hbn & Hfile); [done|by cbn; rewrite Hln|].
    exists n', hi. split; [done|]. rewrite Hbn. split_and!; try done; try lia; try apply Hwf'.
    destruct Hsn. split; cbn in *; try congruence; by rewrite Hbn.
  - exists (set_bitmap bm k n), lo. split_and!; try done; try lia; try apply Hwf'.
Qed.

Lemma cache_turn_step s0 s n c fc d is_end :
  cache_ready s0 s n c fc -> s + zlen d <= raw_content_length (in_range (r_in c)) ->
  (is_end = true -> d = []) ->
  exists n' curr last fc' w,
    cache_turn (if is_end : bool then None else Some (from_bytes d s (zlen d))) (c, fc)
      = (Ok tt, (touch c n' curr last, fc')) /\
    cache_ready s0 (s + zlen d) n' (touch c n' curr last) fc' /\ same_node n n' /\
    w ++ content fc' = content fc ++ d /\ (is_end = true -> content fc' = []) /\
    curr = bitmap_curr_slice_start (r_in c) + zlen w /\
    (forall i, body_start n <= i ->
       n_file n' i = write_all_at w (bitmap_curr_slice_start (r_in c) + body_start n) (n_file n) i) /\
    marks_within (cache_file_slice n) (raw_content_length (in_range (r_in c))) s0 curr
      (bitmap n) (bitmap n').
Proof.
  intros [[Hon Herr] Hn Hbuf Hcurr Hlast (H00 & Hm & Hskip) [Hwf Hcnt] Hsl Hlen Hmax [Ha1 Ha2] Hbs]
    Hs Hend.
  unfold cache_turn. rewrite Hon, Herr, Hn. cbn [negb orb].
  set (fc1 := match (if is_end then None else Some _) with Some b => _ | None => fc end).
  assert (cache_wf fc1 /\ page_size fc1 = page_size fc /\ content fc1 = content fc ++ d)
    as (Hbuf1 & Hpg1 & Hc1).
  { unfold fc1. destruct is_end; [by rewrite Hend, app_nil_r by done|].
    destruct Hbuf as (E & ? & ?). pose proof (zlen_nonneg d).
    apply push_back_spec; [by split|lia]. }
  assert (size fc1 = size fc + zlen d) as Hsz.
  { destruct Hbuf as [-> _], Hbuf1 as [-> _]. by rewrite Hc1, zlen_app. }
  set (e := match (if is_end then None else Some _) with Some _ => false | None => true end).
  assert (e = is_end) as -> by (unfold e; by destruct is_end).
  set (bc := bitmap_curr_slice_start (r_in c)) in *.
  pose proof (zlen_nonneg d). assert (0 <= size fc) by (destruct Hbuf as [-> _]; apply zlen_nonneg).
  assert (0 <= body_start n) by (pose proof (zlen_nonneg (bitset (bitmap n))); lia).
  destruct (drain_spec_lemma is_end (body_start n) bc (n_file n) fc1) as (f & fc2 & E & Hf & Hbuf2 & Hp2 & Hc2);
    [done|lia..|].
  destruct (page_chunks_copy_spec is_end fc1 Hbuf1) as [Hfl _].
  set (k := flushed is_end (page_size fc1) (size fc1)) in *. rewrite E.
  set (w := take (Z.to_nat k) (content fc1)).
  assert (zlen w = k) as Hw by (apply zlen_take; destruct Hbuf1 as [<- _]; lia).
  assert (w ++ content fc2 = content fc ++ d) as Hsplit.
  { rewrite <- Hc1, Hc2. apply take_drop. }
  assert (size fc2 = size fc + zlen d - k) as Hsz2.
  { destruct Hbuf2 as [-> _]. rewrite Hc2, zlen_drop by (destruct Hbuf1 as [<- _]; lia).
    destruct Hbuf1 as [<- _]. lia. }
  cbv beta iota zeta.
  assert (set_r_in (set_bitmap_curr (bc + k) (r_in (on_node (set_file f) c))) (on_node (set_file f) c)
          = touch c (set_file f n) (bc + k) (bitmap_last_slice_start (r_in c))) as ->
    by (unfold on_node, touch; by rewrite Hn).
  destruct (mark_step fc2 s0 n (set_file f n) c (bitmap_last_slice_start (r_in c)) (bc + k)
    (raw_content_length (in_range (r_in c)))) as (n' & last & -> & Hla & Hsn & Hwf' & Hfile & Hmk);
    try done; try lia.
  destruct Hsn as [Hs1 Hs2 Hs3 Hs4 Hs5]. cbn in Hs1, Hs2, Hs3, Hs4, Hs5.
  exists n', (bc + k), last, fc2, w. split_and!; try done.
  - split; cbn; rewrite ?Hs1, ?Hs2, ?Hs3, ?Hs4, ?Hs5; try done; try lia.
  - intros ->. unfold k, flushed in Hsz2. destruct Hbuf2 as [E2 _].
    apply length_zero_iff_nil. unfold zlen in E2. lia.
  - lia.
  - intros i Hi. rewrite Hfile by done. apply Hf.
Qed.

(** ** The loop *)

Lemma client_ready_touch a e s c n curr last :
  client_ready a e s c -> client_ready a e s (touch c n curr last).
Proof. intros []. by split. Qed.

Lemma cache_ready_same s0 s n c c' fc :
  cache_ready s0 s n c fc -> same_cache c c' -> cache_ready s0 s n c' fc.
Proof.
  intros [] []. split; rewrite ?sc_out0, ?sc_node0, ?sc_range0, ?sc_curr0, ?sc_last0, ?sc_skip0; done.
Qed.

Lemma same_node_trans n1 n2 n3 : same_node n1 n2 -> same_node n2 n3 -> same_node n1 n3.
Proof. intros [] []. split; congruence. Qed.

Lemma body_read_chunk a e s c d ds :
  client_ready a e s c -> 0 < o_left_content_length (r_out c) -> 0 < zlen d ->
  response_body_read (Body (Ok <$> d :: ds)) c
  = (Ok (Some (from_bytes d s (zlen d)), Body (Ok <$> ds)), c).
Proof.
  intros Hr Ho Hd. destruct Hr. cbn. zcases. cbn. by rewrite cr_curr0.
Qed.

Lemma body_read_end a e s c :
  client_ready a e s c -> 0 < o_left_content_length (r_out c) ->
  response_body_read (Body []) c = (Ok (None, Body []), c).
Proof. intros Hr Ho. cbn. by zcases. Qed.

(** What one run over the chunks [ds] achieves, from position [s] on. *)
Definition streamed (a e s0 s : Z) (n : CacheNode) (c : Ctx) (ch : Chan) (fc : FileCacheBytes)
    (ds : list (list Z)) (r : outcome unit * (Ctx * Chan * FileCacheBytes)) : Prop :=
  exists c' ch' fc' n', r = (Ok tt, (c', ch', fc')) /\
    chan_sent ch' = chan_sent ch ++ window a e s (concat ds) /\
    left_content_length (r_in c') = need a e (s + zlen (concat ds)) /\
    http_cache_file c' = Some (Some n') /\ same_node n n' /\
    (forall i, body_start n <= i ->
       n_file n' i = write_all_at (content fc ++ concat ds)
                       (bitmap_curr_slice_start (r_in c) + body_start n) (n_file n) i) /\
    marks_within (cache_file_slice n) (raw_content_length (in_range (r_in c))) s0
      (s + zlen (concat ds)) (bitmap n) (bitmap n').

Lemma stream_loop_end a e s0 s n c ch fc :
  client_ready a e s c -> cache_ready s0 s n c fc -> 0 < o_left_content_length (r_out c) ->
  s <= raw_content_length (in_range (r_in c)) ->
  streamed a e s0 s n c ch fc [] (stream_loop 1 (Body []) (c, ch, fc)).
Proof.
  intros Hcl Hca Ho Hs. cbn [stream_loop]. rewrite (body_read_end a e s) by done.
  destruct (cache_turn_step s0 s n c fc [] true)
    as (n' & curr & last & fc' & w & E & Hca' & Hsn & Hw & Hend & Hcurr & Hf & Hmk);
    [done|change (zlen []) with 0; lia|done|]. cbn [zlen] in E. rewrite E.
  rewrite (Hend eq_refl), !app_nil_r in Hw. subst w.
  eexists _, ch, fc', n'. split; [reflexivity|]. cbn [concat]. change (zlen []) with 0.
  rewrite Z.add_0_r. split_and!; try done.
  - unfold window. by rewrite take_nil, drop_nil, app_nil_r.
  - apply (cr_left _ _ _ _ Hcl).
  - by rewrite app_nil_r.
  - replace s with curr; [done|].
    rewrite Hcurr, (ca_curr _ _ _ _ _ Hca). destruct (ca_buf _ _ _ _ _ Hca) as [-> _]. lia.
Qed.

Lemma stream_loop_chunk a e s0 s n c ch fc d ds :
  client_ready a e s c -> cache_ready s0 s n c fc -> 0 < o_left_content_length (r_out c) ->
  0 < zlen d -> s + zlen d <= raw_content_length (in_range (r_in c)) ->
  (forall s n c ch fc, client_ready a e s c -> cache_ready s0 s n c fc ->
     0 < o_left_content_length (r_out c) ->
     s + zlen (concat ds) <= raw_content_length (in_range (r_in c)) ->
     streamed a e s0 s n c ch fc ds (stream_loop (S (length ds)) (Body (Ok <$> ds)) (c, ch, fc))) ->
  s + zlen (concat (d :: ds)) <= raw_content_length (in_range (r_in c)) ->
  streamed a e s0 s n c ch fc (d :: ds)
    (stream_loop (S (S (length ds))) (Body (Ok <$> d :: ds)) (c, ch, fc)).
Proof.
  intros Hcl Hca Ho Hd Hs IH Hs'. set (fuel := S (length ds)) in *. cbn [stream_loop].
  rewrite (body_read_chunk a e s) by done.
  destruct (cache_turn_step s0 s n c fc d false)
    as (n1 & curr & last & fc1 & w & E & Hca1 & Hsn1 & Hw & _ & Hcurr & Hf & Hmk); [done..|].
  rewrite E. pose proof (ca_max _ _ _ _ _ Hca) as Hmax.
  destruct (client_turn_bytes a e s (touch c n1 curr last) ch d)
    as (c2 & ch2 & -> & Hsent & Hcl2 & Hsame); [by apply client_ready_touch|done|lia|].
  pose proof (cache_ready_same _ _ _ _ _ _ Hca1 Hsame) as Hca2.
  assert (in_range (r_in c2) = in_range (r_in c)) as Hrg by apply (sc_range _ _ Hsame).
  cbn [concat] in Hs'. rewrite zlen_app in Hs'.
  destruct (IH (s + zlen d) n1 c2 ch2 fc1) as (c' & ch' & fc' & n' & -> & Hsent' & Hleft & Hn' & Hsn & Hf' & Hmk');
    [done|done|by rewrite (sc_out _ _ Hsame)|rewrite Hrg; lia|].
  eexists c', ch', fc', n'. split; [reflexivity|]. cbn [concat].
  rewrite window_app, zlen_app, !Z.add_assoc.
  assert (curr <= s + zlen d) as Hcs.
  { pose proof (ca_curr _ _ _ _ _ Hca1) as E1. cbn in E1.
    destruct (ca_buf _ _ _ _ _ Hca1) as [E2 _]. pose proof (zlen_nonneg (content fc1)). lia. }
  split_and!; try done.
  - by rewrite Hsent', Hsent, app_assoc.
  - by eapply same_node_trans.
  - intros i Hi. destruct Hsn1. rewrite Hf' by lia.
    rewrite (sc_curr _ _ Hsame). cbn [touch set_r_in r_in set_bitmap_last set_bitmap_curr bitmap_curr_slice_start].
    rewrite app_assoc, <- Hw, <- app_assoc, (write_all_at_app w).
    unfold write_all_at at 1 3. rewrite sn_body0, Hcurr, Hf by lia.
    replace (bitmap_curr_slice_start (r_in c) + zlen w + body_start n)
      with (bitmap_curr_slice_start (r_in c) + body_start n + zlen w) by lia. done.
  - destruct Hsn1. rewrite Hrg, sn_slice0 in Hmk'. pose proof (zlen_nonneg (concat ds)).
    eapply marks_within_trans; [|exact Hmk|exact Hmk']. lia.
Qed.

Lemma stream_loop_spec a e s0 ds :
  Forall (fun d => 0 < zlen d) ds ->
  forall s n c ch fc, client_ready a e s c -> cache_ready s0 s n c fc ->
    0 < o_left_content_length (r_out c) ->
    s + zlen (concat ds) <= raw_content_length (in_range (r_in c)) ->
    streamed a e s0 s n c ch fc ds (stream_loop (S (length ds)) (Body (Ok <$> ds)) (c, ch, fc)).
Proof.
  induction 1 as [|d ds Hd Hds IH]; intros s n c ch fc Hcl Hca Ho Hs.
  - apply stream_loop_end; try done. change (zlen (concat [])) with 0 in Hs. lia.
  - apply stream_loop_chunk; try done. cbn [concat] in Hs. rewrite zlen_app in Hs.
    pose proof (zlen_nonneg (concat ds)). lia.
Qed.

(** C14. A response body that arrives in any number of chunks, of any sizes,
    is streamed to its end: the call returns, a client that stays connected
    has received exactly the bytes of its range in order, the cache file holds
    every byte of the body at its place, and every slice the bitmap marks in
    addition lies wholly within the bytes that were written. *)
Theorem stream_to_client_spec page a e s n c ch fc0 ds :
  client_ready a e s c -> cache_ready s s n c (cache_new page) ->
  0 < o_left_content_length (r_out c) -> Forall (fun d => 0 < zlen d) ds ->
  s + zlen (concat ds) <= raw_content_length (in_range (r_in c)) ->
  streamed a e s s n c ch (cache_new page) ds
    (stream_to_client page (Body (Ok <$> ds)) (c, ch, fc0)).
Proof.
  intros Hcl Hca Ho Hds Hs. unfold stream_to_client, body_turns. rewrite length_fmap.
  by apply stream_loop_spec.
Qed.

(** ** Two slices the marking gets wrong *)

(** A body that ends one byte after the last position marked leaves the
    bitmap as it was: a file whose last slice is one byte long is never
    full. *)
Theorem last_byte_never_marked n c :
  http_cache_file c = Some (Some n) -> 0 <= bitmap_last_slice_start (r_in c) ->
  bitmap_curr_slice_start (r_in c) = bitmap_last_slice_start (r_in c) + 1 ->
  exists k, slice_update_bitset n c = (Ok false, on_node (set_bitmap (bitmap n) k) c).
Proof.
  intros Hn Hl Hc. exists (bitmap_to_file n). unfold slice_update_bitset. rewrite Hc.
  destruct (Z.leb_spec (bitmap_last_slice_start (r_in c) + 1) 0); [lia|].
  destruct (Z.eqb_spec (bitmap_last_slice_start (r_in c) + 1) (bitmap_last_slice_start (r_in c)));
    [lia|].
  cbn [orb]. unfold update_bitset.
  replace (bitmap_last_slice_start (r_in c) + 1 - 1) with (bitmap_last_slice_start (r_in c)) by lia.
  rewrite Z.ltb_irrefl, Z.eqb_refl. f_equal. unfold on_node. by rewrite Hn.
Qed.

(** A transfer that starts inside slice 0 marks slice 0 once it passes its
    end, though the bytes before the start were never fetched: the index 0
    the range filter leaves in [skip_bitset_index] is not taken for one. *)
Theorem partial_first_slice_marked bm first last sl flen :
  bitmap_wf bm -> bitmap_counted bm -> 0 < first < sl -> sl <= last + 1 -> first < last ->
  last < 2 ^ 62 -> last / sl < slice_size bm ->
  exists bm' b, update_bitset bm first last sl (first / sl) flen = Ok (bm', b) /\
    bit_at (bitset bm') 0 = true.
Proof.
  intros Hwf Hc Hf Hl Hfl Hm Hcap.
  destruct (update_bitset_spec_lemma bm first last sl (first / sl) flen)
    as (bm' & b & E & _ & _ & _ & Hbits); try done; try lia.
  exists bm', b. split; [done|]. rewrite Hbits by lia. apply orb_true_iff. left.
  apply bool_decide_eq_true_2. left. rewrite Z.div_small by lia. split; [|lia].
  split; [lia|]. apply Z.div_str_pos. lia.
Qed.

End stream.

(** ** A concrete run *)

#[local] Existing Instance assoc_http.

#[local] Instance list_chan : ClientChan := {
  Chan := list Z;
  write_msg b ch := match b with Bytes d => (Ok (zlen d), ch ++ d) | File f => (Ok (f_size f), ch) end
}.

#[local] Instance list_accepts : ClientAccepts.
Proof.
  refine {| chan_sent := fun ch : Chan => (ch : list Z) |}.
  intros d ch Hd. exists (zlen d), (ch ++ d). split_and!; try done.
  unfold zlen. destruct d; [done|]. cbn. lia.
Defined.

(** Slices of four bytes of a ten-byte body, of which the client wants the
    bytes 2 to 7. *)
Definition demo_node : CacheNode := mkNode (fun _ => 0) 0 8 4 (mkBitMap [0] 3 0) O.

Definition demo_in : HttpIn :=
  mkIn [] false None true true (mkRange true 10 6 2 7) None None 6 6 0 0 0 (-1) 0 11 false.

Definition demo_ctx : Ctx :=
  mkCtx demo_in (mkOut 206 [] true false None 10 10 None (mkRange true 10 10 0 9)) None None true 4
    (Some (Some demo_node)) true 0 false false true None None 0 ∅.

Definition demo_chunks : list (list Z) := [[10; 11; 12]; [13; 14; 15; 16; 17]; [18; 19]].

Definition demo_chan (l : list Z) : Chan := l.

Lemma stream_to_client_spec_witness :
  exists c' fc', stream_to_client 2 (Body (Ok <$> demo_chunks)) (demo_ctx, demo_chan [], cache_new 2)
    = (Ok tt, (c', demo_chan [12; 13; 14; 15; 16; 17], fc')).
Proof.
  destruct (stream_to_client_spec 2 2 7 0 demo_node demo_ctx (demo_chan []) (cache_new 2) demo_chunks)
    as (c' & ch' & fc' & n' & E & Hs & _).
  - by split.
  - split; try done; try (cbn; lia); try (by vm_compute).
    split; [|by vm_compute]. split; [repeat constructor; unfold in_width; lia|..]; by vm_compute.
  - by vm_compute.
  - repeat constructor.
  - by vm_compute.
  - exists c', fc'. vm_compute in Hs. rewrite <- Hs. exact E.
Defined.

Lemma last_byte_never_marked_witness :
  let c := set_r_in (set_bitmap_curr 9 (set_bitmap_last 8 demo_in)) demo_ctx in
  exists k, slice_update_bitset demo_node c
            = (Ok false, on_node (set_bitmap (bitmap demo_node) k) c).
Proof. intros c. apply (last_byte_never_marked demo_node c); by vm_compute. Defined.

Lemma partial_first_slice_marked_witness :
  exists bm' b, update_bitset (mkBitMap [0] 3 0) 2 7 4 (2 / 4) 10 = Ok (bm', b) /\
    bit_at (bitset bm') 0 = true.
Proof.
  apply (partial_first_slice_marked (mkBitMap [0] 3 0) 2 7 4 10); try done; try lia.
  split; [repeat constructor; unfold in_width; lia|by vm_compute..].
Defined.
