(* ===== verification/HttpFilter.v ===== *)
(** The response-header filters of
    [any-proxy/src/proxy/http_proxy/http_filter/]: [http_filter_header_parse.rs]
    (what the upstream answered), [http_filter_header_range.rs] (which bytes
    the client gets) and [http_filter_header_not_modified.rs] (conditional
    requests). *)
From S2P Require Import Prelude RustStd Bitmap FileCache HttpLib HttpHeader HttpCtx HttpBody.
#[local] Open Scope string_scope.
#[local] Open Scope Z_scope.

Definition NOT_MODIFIED : Z := 304.
Definition PRECONDITION_FAILED : Z := 412.
Definition RANGE_NOT_SATISFIABLE : Z := 416.
Definition PARTIAL_CONTENT : Z := 206.

Section filters.
Context `{HttpCrate} `{ClientChan}.

(** ** Parsing the upstream's answer *)

(** The range the answer covers: that of its [Content-Range], which must
    agree with its length, or all of it. *)
Definition answer_range (headers : HeaderMap) : outcome (HttpRange * option string) :=
  cr ← content_range headers;
  te ← transfer_encoding headers;
  len ← read_content_length headers;
  let len := match te with Some _ => if 0 <? len then 0 else len | None => len end in
  if is_range cr then
    if negb (content_length cr =? len) then Err "status, version, content_range"
    else Ok (cr, te)
  else Ok (mkRange (is_range cr) len len (if 0 <? len then 0 else range_start cr)
             (if 0 <? len then len - 1 else HttpHeader.range_end cr), te).

(** The headers a cacheable error status gets: a lifetime, and a validator of
    each kind if it has none. *)
Definition add_valid_headers (now expires : Z) (headers : HeaderMap) : HeaderMap :=
  if (0 <? expires) && negb (bool_decide (is_Some (hget headers "cache-control"))) then
    let h := hset "cache-control" (hv_new ("max-age=" +:+ show_u expires)) headers in
    let h := if bool_decide (is_Some (hget h "etag")) then h else hset "etag" (hv_new "default") h in
    if bool_decide (is_Some (hget h "last-modified")) then h
    else hset "last-modified" (hv_new (date_fmt now)) h
  else headers.

Definition add_expires_header (expires : Z) (headers : HeaderMap) : HeaderMap :=
  if (0 <? expires) && negb (bool_decide (is_Some (hget headers "cache-control")))
  then hset "cache-control" (hv_new ("max-age=" +:+ show_u expires)) headers
  else headers.

Definition hv_is_empty (v : HeaderValue) : bool := String.eqb (hv_bytes v) "".

(** The asynchronous block of [do_http_filter_header_parse]. *)

(** Its first half: the lengths and the encoding of the answer are noted, and
    the headers the configuration asks for are added. *)
Definition note_answer (now : Z) : stm Ctx HttpRange :=
  o ← gets r_out;
  '(cr, te) ← lift (answer_range (out_headers o));
  i ← gets r_in;
  let left := match curr_upstream_method i with
              | Some HEAD => if is_success (status o) then 0 else swrap64 (content_length cr)
              | Some _ => swrap64 (content_length cr)
              | None => 0
              end in
  let conditional := (status o =? NOT_MODIFIED) || (status o =? PRECONDITION_FAILED) in
  _ ← upd_out (fun o =>
        let h := if conditional then hdel "content-range" (hdel "content-length" (out_headers o))
                 else out_headers o in
        let left := if conditional then 0 else left in
        set_out_range cr (set_cache_err false (set_transfer te
          (set_o_out_len left (set_o_left left (set_out_headers h o))))));
  ok ← gets is_out_status_ok;
  _ ← modify (fun c =>
        let o := r_out c in
        let h :=
          if ok : bool then add_expires_header (conf_expires c) (out_headers o)
          else if bool_decide (cache_valids c = ∅) then out_headers o
          else
            let expires := match cache_valids c !! status o with
                           | Some e => e
                           | None => default 0 (cache_valids c !! 0)
                           end in
            add_valid_headers now expires (out_headers o) in
        set_r_out (set_out_headers h o) c);
  mret cr.

(** Its second half: whether the upstream allows caching, and what the cache
    will remember of an answer that covers the range [cr]. *)
Definition cache_decision (now : Z) (cr : HttpRange) : stm Ctx bool :=
  headers ← gets (fun c => out_headers (r_out c));
  let tag := e_tag headers in
  '(lm, lm_time) ← lift (last_modified headers);
  '(cc_time, exp_time, exp_sys) ← lift (cache_control_time now headers);
  c ← gets (fun c => c);
  let cacheable := negb ((cc_time <=? 0) || hv_is_empty tag || hv_is_empty lm
                         || negb (no_transfer_encoding c) || is_no_cache c) in
  if negb (is_request_cache c) then
    _ ← upd_out (set_is_cache false); mret cacheable
  else
    _ ← match exp_sys with
        | Some t =>
            if bool_decide (is_Some (hget headers "expires")) then done_
            else insert_header "expires" (hv_new (date_fmt t))
        | None => done_
        end;
    _ ← upd_in (fun i => set_bitmap_last (curr_slice_start i) (set_bitmap_curr (curr_slice_start i) i));
    _ ← upd_out (fun o => set_info (Some (mkInfo lm_time lm tag cc_time exp_time cr))
                            (set_is_cache cacheable o));
    mret cacheable.

Definition parse_answer (now : Z) : stm Ctx bool :=
  cr ← note_answer now; cache_decision now cr.

(** An error of the block is looked at only when the request tried the
    cache. *)
Definition do_http_filter_header_parse (now : Z) : stm Ctx unit := fun c =>
  match parse_answer now c with
  | (Panic, c) => (Panic, c)
  | (Fuel, c) => (Fuel, c)
  | (r, c) =>
      if is_try_cache c then
        match r with
        | Ok b =>
            match http_cache_file c with
            | None => (Panic, c)
            | Some _ => (Ok tt, set_last_upstream_cache b c)
            end
        | Err e => (Err e, c)
        | _ => (Panic, c)
        end
      else (Ok tt, c)
  end.

(** ** Ranges *)

(** The bytes of a text. *)
Definition text_bytes (s : string) : list Z := Z.of_N ∘ N_of_ascii <$> bytes_of s.

(** The state is the context and [client_write_tx]. *)
Definition send_multipart_range_body : stm (Ctx * option Chan) unit := fun '(c, tx) =>
  match multipart_range (r_in c) with
  | None => (Ok tt, (c, tx))
  | Some m =>
      match body m with
      | [] => (Err "multipart_range.body.len() <= 0", (c, tx))
      | b :: bs =>
          let c := set_r_in (set_multipart (Some (mkMultipart (ranges m) bs (body_header_len m)))
                               (r_in c)) c in
          match tx with
          | None => (Err "client_write_tx.is_none()", (c, None))
          | Some ch =>
              match write_body_to_client (Some (from_bytes (text_bytes b) 0 (slen b))) (c, ch) with
              | (Ok _, (c, ch)) => (Ok tt, (c, Some ch))
              | (r, (c, _)) => (r, (c, None))
              end
          end
      end
  end.

(** The text before the bytes of one part, and the text after the last. *)
Definition multipart_body (id : Z) (d : HttpRange) : string :=
  crlf +:+ "--" +:+ pad_zeros 20 (show_u id) +:+ crlf
  +:+ "Content-Type: application/octet-stream" +:+ crlf
  +:+ "Content-Range: bytes " +:+ show_u (range_start d) +:+ "-" +:+ show_u (HttpHeader.range_end d)
  +:+ "/" +:+ show_u (raw_content_length d) +:+ crlf +:+ crlf.

Definition multipart_body_end (id : Z) : string :=
  crlf +:+ "--" +:+ pad_zeros 20 (show_u id) +:+ "--" +:+ crlf.

(** Lengths and texts of the parts, in order: the totals of the body and of
    the texts, and the texts. *)
Fixpoint multipart_parts (id : Z) (ds : list HttpRange) (blen hlen : Z) (bodys : list string)
    : Z * Z * list string :=
  match ds with
  | [] => (blen, hlen, bodys)
  | d :: ds =>
      let b := multipart_body id d in
      multipart_parts id ds (wrap64 (blen + (slen b + content_length d)))
        (wrap64 (hlen + slen b)) (bodys ++ [b])%list
  end.

(** The first branch of [get_http_filter_header_range]: [id] is the number
    [get_multipart_range_id] gives. *)
Definition first_range (id raw : Z) : stm Ctx HttpRange :=
  _ ← upd_in (set_parse_range true);
  headers ← gets (fun c => in_headers (r_in c));
  '(range, multi) ← lift (get_http_multipart_range headers raw);
  match multi with
  | None => mret range
  | Some ds =>
      let '(blen, hlen, bodys) := multipart_parts id ds 0 0 [] in
      let ending := multipart_body_end id in
      let all := (ds ++ [mkRange false raw 0 0 0])%list in
      range ← lift (expect (head all));
      _ ← upd_in (fun i =>
            set_multipart_header
              (Some (mkMultipartHeader (wrap64 (blen + slen ending))
                       ("multipart/byteranges; boundary=" +:+ pad_zeros 20 (show_u id))))
              (set_multipart
                 (Some (mkMultipart (tail all) (bodys ++ [ending])%list (wrap64 (hlen + slen ending)))) i));
      mret range
  end.

(** The second branch: the next range of a multipart answer, whose text is
    sent at once.  The result carries [raw_content_length], which the last
    part sets to zero. *)
Definition next_range (raw : Z) : stm (Ctx * option Chan) (HttpRange * Z) :=
  i ← on_fst (gets r_in);
  match multipart_range i with
  | None => fail "rctx.r_in.multipart_range.is_none"
  | Some m =>
      match ranges m with
      | [] => fail "rctx.r_in.multipart_range.ranges.len() <= 0"
      | d :: ds =>
          _ ← on_fst (upd_in (set_multipart (Some (mkMultipart ds (body m) (body_header_len m)))));
          _ ← send_multipart_range_body;
          mret (d, match ds with [] => 0 | _ => raw end)
      end
  end.

(** The range in force after [If-Range] and for a request without one. *)
Definition whole_range (d : HttpRange) (raw : Z) : HttpRange :=
  if is_range d then d
  else mkRange false (raw_content_length d) raw 0 (if 0 <? raw then raw - 1 else 0).

Definition check_if_range (d : HttpRange) : stm Ctx HttpRange :=
  if is_range d then
    headers ← gets (fun c => in_headers (r_in c));
    '(_, t) ← lift (if_range headers);
    o ← gets r_out;
    info ← lift (expect (response_info o));
    if (0 <? t) && negb (t =? last_modified_time info) then
      _ ← upd_in (fun i => set_multipart_header None (set_multipart None i));
      mret (mkRange false (raw_content_length d) (content_length d) (range_start d)
              (HttpHeader.range_end d))
    else mret d
  else mret d.

(** How many bytes the client is owed, and where reading starts: at the slice
    of the first byte, or at the first byte itself, in which case the slice it
    falls in is not to be marked. *)
Definition set_lengths (d : HttpRange) : stm Ctx unit :=
  o ← gets r_out;
  i ← gets r_in;
  _ ← (if (is_head i && is_success (status o)) || (status o =? NOT_MODIFIED)
          || (status o =? PRECONDITION_FAILED)
       then upd_in (fun i => set_multipart None (set_out_len 0 (set_left 0 i)))
       else upd_in (fun i => set_out_len (swrap64 (content_length d))
                               (set_left (swrap64 (content_length d)) i)));
  if is_success (status o) then done_
  else upd_in (fun i => set_multipart_header None (set_multipart None i)).

Definition set_slices (d : HttpRange) : stm Ctx unit :=
  slice ← gets http_request_slice;
  first ← lift (zdiv (range_start d) slice);
  last ← lift (zdiv (HttpHeader.range_end d) slice);
  _ ← upd_in (fun i =>
        set_slice_end (wrap64 (wrap64 (wrap64 (last * slice) + slice) - 1))
          (set_slice_start (wrap64 (first * slice)) i));
  i ← gets r_in;
  if is_slice i then
    upd_in (fun i => set_bitmap_last (slice_start i) (set_bitmap_curr (slice_start i)
                       (set_curr (slice_start i) i)))
  else
    _ ← upd_in (fun i => set_bitmap_last (range_start d) (set_bitmap_curr (range_start d)
                           (set_curr (range_start d) i)));
    r ← lift (zrem (range_start d) slice);
    upd_in (set_skip (if r =? 0 then -1 else swrap64 first)).

Definition get_http_filter_header_range (id raw : Z) : stm (Ctx * option Chan) unit :=
  i ← on_fst (gets r_in);
  if is_load_range i then done_
  else
    _ ← on_fst (upd_in (set_load_range true));
    '(d, raw) ← (if is_parse_range i then next_range raw
                 else d ← on_fst (first_range id raw); mret (d, raw));
    d ← on_fst (check_if_range d);
    let d := whole_range d raw in
    _ ← on_fst (set_lengths d);
    _ ← on_fst (set_slices d);
    on_fst (upd_in (set_range d)).

Definition content_range_text (d : HttpRange) : string :=
  "bytes " +:+ (show_u (range_start d) +:+ String "-" (show_u (HttpHeader.range_end d)
    +:+ String "/" (show_u (raw_content_length d)))).

(** [x.to_string()] of a signed number. *)
Definition show_i (x : Z) : string := if x <? 0 then String "-" (show_u (- x)) else show_u x.

(** The headers of the answer for the range in force. *)
Definition range_headers : stm Ctx unit :=
  c ← gets (fun c => c);
  let i := r_in c in
  if negb (is_out_status_ok c) then
    insert_header "content-length" (hv_new (show_i (out_content_length i)))
  else if is_range (in_range i) then
    if negb (no_transfer_encoding c) then fail "err:response_info.transfer_encoding.is_some()"
    else
      _ ← remove_header "accept-ranges";
      _ ← upd_out (set_status PARTIAL_CONTENT);
      match multipart_range_header i with
      | Some m =>
          _ ← insert_header "content-type" (hv_new (header_value m));
          _ ← insert_header "content-length" (hv_new (show_u (body_len m)));
          remove_header "content-range"
      | None =>
          _ ← insert_header "content-range" (hv_new (content_range_text (in_range i)));
          insert_header "content-length" (hv_new (show_u (content_length (in_range i))))
      end
  else
    _ ← remove_header "content-range";
    if no_transfer_encoding c
    then insert_header "content-length" (hv_new (show_u (content_length (in_range i))))
    else done_.

Definition do_http_filter_header_range (id : Z) : stm (Ctx * option Chan) unit :=
  c ← on_fst (gets (fun c => c));
  if negb (is_request_cache c) then done_
  else
    info ← lift (expect (response_info (r_out c)));
    let raw := raw_content_length (info_range info) in
    ret ← attempt (get_http_filter_header_range id raw);
    match ret with
    | None =>
        _ ← on_fst (insert_header "content-range" (hv_new ("bytes */" +:+ show_u raw)));
        on_fst (upd_out (set_status RANGE_NOT_SATISFIABLE))
    | Some _ => on_fst range_headers
    end.

(** ** Conditional requests *)

Definition get_if_unmodified_since (headers : HeaderMap) : option Z :=
  v ← hget headers "if-unmodified-since"; s ← hv_str v; date_rfc2822 s.

Definition precondition_failed : stm Ctx unit :=
  _ ← upd_out (set_status PRECONDITION_FAILED); fail "".

Definition parse_if_unmodified_since (last_modified_time : Z) : stm Ctx unit :=
  headers ← gets (fun c => in_headers (r_in c));
  match get_if_unmodified_since headers with
  | Some t =>
      t ← lift (epoch_secs t);
      if (last_modified_time <=? 0) || (t <? last_modified_time) then precondition_failed else done_
  | None => done_
  end.

Definition quote : ascii := ascii_of_N 34.
#[global] Arguments quote : simpl never.

(** [W/] in front of a weak tag. *)
Definition strip_weak (is_weak : bool) (s : string) : string :=
  if is_weak && (2 <? slen s) && String.eqb (stake 2 s) "W/" then sdrop 2 s else s.

Definition get_etag (headers : HeaderMap) (key : string) (is_weak : bool) : option (list string) :=
  v ← hget headers key;
  s ← hv_str v;
  Some ((fun t => strip_weak is_weak (trim (trim_matches quote t))) <$>
          split_char "," (strip_weak is_weak s)).

Definition is_any (tags : list string) : bool :=
  match tags with [t] => String.eqb t "*" | _ => false end.

Definition parse_if_match (tag : HeaderValue) : stm Ctx unit :=
  headers ← gets (fun c => in_headers (r_in c));
  match get_etag headers "if-match" false with
  | None => done_
  | Some tags =>
      if is_any tags then done_
      else if hv_is_empty tag then precondition_failed
      else if existsb (String.eqb (hv_bytes tag)) tags then done_
      else precondition_failed
  end.

Definition get_if_modified_since (headers : HeaderMap) : option Z :=
  v ← hget headers "if-modified-since"; s ← hv_str v; date_parse s.

Definition parse_if_modified_since (headers : HeaderMap) (last_modified_time : Z)
    : outcome (option bool) :=
  match get_if_modified_since headers with
  | Some t => t ← epoch_secs t; Ok (Some (t <? last_modified_time))
  | None => Ok None
  end.

Definition parse_if_none_match (headers : HeaderMap) (tag : HeaderValue) : option bool :=
  tags ← get_etag headers "if-none-match" true;
  Some (if is_any tags then true
        else if hv_is_empty tag then false
        else existsb (String.eqb (hv_bytes tag)) tags).

Definition do_http_filter_header_not_modified : stm Ctx unit :=
  c ← gets (fun c => c);
  if negb (is_request_cache c) then done_
  else if negb (is_success (status (r_out c))) then done_
  else
    let tag := e_tag (out_headers (r_out c)) in
    '(_, lm_time) ← lift (last_modified (out_headers (r_out c)));
    _ ← parse_if_unmodified_since lm_time;
    _ ← parse_if_match tag;
    modified ← lift (parse_if_modified_since (in_headers (r_in c)) lm_time);
    let none_match := parse_if_none_match (in_headers (r_in c)) tag in
    match modified, none_match with
    | None, None => done_
    | Some true, _ => done_
    | _, Some false => done_
    | _, _ => _ ← upd_out (set_status NOT_MODIFIED); fail ""
    end.

(** [http_filter_header_not_modified]: the result is not looked at. *)
Definition http_filter_header_not_modified : stm Ctx unit :=
  _ ← attempt do_http_filter_header_not_modified; done_.

End filters.

(** ** Where reading starts *)

Lemma in_width_64_62 x : 0 <= x < 2 ^ 62 -> in_width 64 x.
Proof. unfold in_width. lia. Qed.

Section range_filter.
Context `{HttpCrate} `{ClientChan}.

(** The slices that cover the range [d], and the position reading starts at. *)
Record placed (slice : Z) (d : HttpRange) (i : HttpIn) : Prop := {
  pl_start : slice_start i <= range_start d < slice_start i + slice /\ slice_start i mod slice = 0;
  pl_end : slice_end i - slice < HttpHeader.range_end d <= slice_end i /\
           (slice_end i + 1) mod slice = 0;
  pl_curr : curr_slice_start i = (if is_slice i then slice_start i else range_start d);
  pl_bitmap : bitmap_curr_slice_start i = curr_slice_start i /\
              bitmap_last_slice_start i = curr_slice_start i;
  pl_skip : is_slice i = false ->
            skip_bitset_index i = (if range_start d mod slice =? 0 then -1 else range_start d / slice)
}.

Lemma div_bounds x s : 0 < s -> 0 <= x ->
  0 <= x / s * s /\ x / s * s <= x < x / s * s + s /\ (x / s * s) mod s = 0.
Proof.
  intros Hs Hx. pose proof (Z.div_mod x s). pose proof (Z.mod_pos_bound x s).
  pose proof (Z.div_pos x s). rewrite Z.mod_mul by lia. split_and!; nia.
Qed.

Lemma set_slices_spec d c slice :
  http_request_slice c = slice -> 0 < slice < 2 ^ 61 ->
  0 <= range_start d < 2 ^ 61 -> 0 <= HttpHeader.range_end d < 2 ^ 61 ->
  exists i, set_slices d c = (Ok tt, set_r_in i c) /\ placed slice d i /\
    left_content_length i = left_content_length (r_in c) /\
    out_content_length i = out_content_length (r_in c) /\
    multipart_range_header i = multipart_range_header (r_in c).
Proof.
  intros <- Hs Hf Hl.
  destruct (div_bounds (range_start d) (http_request_slice c)) as (Hf0 & Hf1 & Hf2); [lia..|].
  destruct (div_bounds (HttpHeader.range_end d) (http_request_slice c)) as (Hl0 & Hl1 & Hl2); [lia..|].
  unfold set_slices, gets, lift, upd_in, modify, mbind, stm_bind.
  rewrite !zdiv_ok, zrem_ok by lia. unwrap. cbn [r_in set_r_in is_slice set_slice_end set_slice_start].
  destruct (is_slice (r_in c)) eqn:E.
  - eexists. split; [reflexivity|]. split; [|done]. split; cbn; rewrite ?E; try done; try lia.
    replace (_ - 1 + 1) with (HttpHeader.range_end d / http_request_slice c * http_request_slice c
      + 1 * http_request_slice c) by lia. rewrite Z.mod_add by lia. lia.
  - eexists. split; [reflexivity|]. split; [|done]. split; cbn; rewrite ?E; try done; try lia.
    + replace (_ - 1 + 1) with (HttpHeader.range_end d / http_request_slice c * http_request_slice c
        + 1 * http_request_slice c) by lia. rewrite Z.mod_add by lia. lia.
    + intros _. case_match; [done|]. apply swrap64_id.
      pose proof (Z.div_le_upper_bound (range_start d) (http_request_slice c) (range_start d)).
      pose proof (Z.div_pos (range_start d) (http_request_slice c)). nia.
Qed.

(** A fresh cacheable answer of [raw] bytes to a request without
    [If-Range]. *)
Record serves (raw : Z) (c : Ctx) : Prop := {
  sv_cache : is_request_cache c = true;
  sv_info : exists info, response_info (r_out c) = Some info /\
                         raw_content_length (info_range info) = raw;
  sv_raw : 0 < raw < 2 ^ 61;
  sv_load : is_load_range (r_in c) = false;
  sv_parse : is_parse_range (r_in c) = false;
  sv_if_range : hget (in_headers (r_in c)) "if-range" = None;
  sv_status : status (r_out c) = 200;
  sv_plain : o_transfer_encoding (r_out c) = None;
  sv_multi : multipart_range_header (r_in c) = None;
  sv_slice : 0 < http_request_slice c < 2 ^ 61
}.

Lemma print_spec_not_multipart headers v r :
  hget headers "range" = Some v -> hv_str v = Some ("bytes=" +:+ print_spec r) ->
  (is_http_multipart_range headers).2 = false.
Proof.
  intros Hv Hs. pose proof (range_value_print _ _ _ Hv Hs) as E.
  unfold range_value in E. unfold is_http_multipart_range. rewrite Hv in *.
  cbn [mbind option_bind] in E. rewrite Hs in *. cbn [mbind option_bind] in E.
  destruct (_ || _); [done|]. cbn zeta in *. destruct (_ <=? 0); [done|].
  change (sdrop 6 _) with (print_spec r). unfold split_once. rewrite find_char_none; [done|].
  assert (forall n, has_char "," (show_u n) = false) as Hd
    by (intros; by apply digits_no_char, show_all_digits).
  assert (forall a t, has_char "," (show_u a +:+ String "-" t) = has_char "," t) as Happ.
  { intros a t. rewrite has_char_app, Hd. done. }
  destruct r; cbn [print_spec]; rewrite ?Happ, ?Hd; try done. cbn. apply Hd.
Qed.

Lemma first_range_single id raw c d :
  get_http_multipart_range (in_headers (r_in c)) raw = Ok (d, None) ->
  first_range id raw c = (Ok d, set_r_in (set_parse_range true (r_in c)) c).
Proof.
  intros Hd. unfold first_range. step.
  step. step by (unfold lift; cbn; by rewrite Hd).
  reflexivity.
Qed.

Lemma check_if_range_none c d info :
  hget (in_headers (r_in c)) "if-range" = None -> response_info (r_out c) = Some info ->
  check_if_range d c = (Ok d, c).
Proof.
  intros Hif Hi. unfold check_if_range. destruct (is_range d); [|done].
  step. unfold if_range, date_header. rewrite Hif.
  step. step. rewrite Hi.
  by step.
Qed.

Lemma set_lengths_ok c d :
  status (r_out c) = 200 -> 0 <= content_length d < 2 ^ 61 ->
  exists i, set_lengths d c = (Ok tt, set_r_in i c) /\
    left_content_length i = (if is_head (r_in c) then 0 else content_length d) /\
    multipart_range_header i = multipart_range_header (r_in c).
Proof.
  intros Hst Hd. unfold set_lengths. step.
  step. rewrite Hst. change (is_success 200) with true.
  rewrite andb_true_r. destruct (is_head (r_in c)); cbn [orb Z.eqb NOT_MODIFIED PRECONDITION_FAILED].
  - step. eexists. split; [reflexivity|done].
  - step. eexists. split; [reflexivity|]. split; [|done]. cbn.
    apply swrap64_id. lia.
Qed.

Lemma get_range_single id raw c tx d :
  serves raw c ->
  get_http_multipart_range (in_headers (r_in c)) raw = Ok (d, None) -> is_range d = true ->
  0 <= range_start d < 2 ^ 61 -> 0 <= HttpHeader.range_end d < 2 ^ 61 ->
  0 <= content_length d < 2 ^ 61 ->
  exists i, get_http_filter_header_range id raw (c, tx) = (Ok tt, (set_r_in i c, tx)) /\
    in_range i = d /\ placed (http_request_slice c) d i /\ multipart_range_header i = None /\
    left_content_length i = (if is_head (r_in c) then 0 else content_length d).
Proof.
  intros [_ (info & Hi & _) _ Hl Hp Hif Hst Hte Hm Hs] Hd Hr H1 H2 H3.
  unfold get_http_filter_header_range. step. rewrite Hl, Hp.
  step.
  step by (erewrite stm_step; [reflexivity|apply on_fst_ok, first_range_single, Hd]).
  set (c1 := set_r_in _ (set_r_in _ c)).
  step by (apply on_fst_ok; by apply (check_if_range_none c1 d info)).
  unfold whole_range. rewrite Hr.
  destruct (set_lengths_ok c1 d) as (i1 & E1 & Hl1 & Hm1); [done|done|].
  step by (by apply on_fst_ok).
  destruct (set_slices_spec d (set_r_in i1 c1) (http_request_slice c))
    as (i2 & E2 & Hpl & Hl2 & _ & Hm2); [done..|].
  step by (by apply on_fst_ok).
  eexists. split; [reflexivity|]. split; [done|]. split; [by destruct Hpl; split|].
  cbn. rewrite Hm2, Hl2. cbn. by rewrite Hm1, Hl1.
Qed.

Lemma resolve_bounds raw r a b n :
  0 < raw < 2 ^ 61 -> spec_u64 r -> resolve raw r = Some (a, b, n) ->
  0 <= a < 2 ^ 61 /\ 0 <= b < 2 ^ 61 /\ 0 <= n < 2 ^ 61.
Proof.
  unfold in_width. intros Hraw Hr. destruct r; cbn in *; unfold in_width in *;
    case_match; intros E; simplify_eq; lia.
Qed.

(** The headers of a partial answer. *)
Lemma range_headers_partial `{!HttpCrateLaws} c :
  status (r_out c) = 200 -> o_transfer_encoding (r_out c) = None ->
  is_range (in_range (r_in c)) = true -> multipart_range_header (r_in c) = None ->
  exists o, range_headers c = (Ok tt, set_r_out o c) /\ status o = PARTIAL_CONTENT /\
    hget (out_headers o) "content-range" = Some (hv_new (content_range_text (in_range (r_in c)))) /\
    hget (out_headers o) "content-length" = Some (hv_new (show_u (content_length (in_range (r_in c))))).
Proof.
  intros Hst Hte Hr Hm. unfold range_headers. step. unfold is_out_status_ok, no_transfer_encoding.
  rewrite Hst, Hte, Hr, Hm. change (negb _) with false. cbv iota.
  do 3 step. eexists. split; [reflexivity|]. split; [done|]. cbn.
  by rewrite hget_hset_ne, !hget_hset by done.
Qed.

(** C24. A cacheable answer to a request for one byte range, in any of its
    forms, is turned into the partial answer the range denotes: status 206,
    the matching [Content-Range] and [Content-Length], exactly that many bytes
    owed to the client, and reading starts at the right slice; a range the
    body does not have is answered with 416 and the body's size. *)
Theorem range_request_answered `{!HttpCrateLaws} id raw c tx v r :
  serves raw c -> spec_u64 r ->
  hget (in_headers (r_in c)) "range" = Some v -> hv_str v = Some ("bytes=" +:+ print_spec r) ->
  exists c', do_http_filter_header_range id (c, tx) = (Ok tt, (c', tx)) /\
    match resolve raw r with
    | Some (a, b, n) =>
        let d := mkRange true raw n a b in
        status (r_out c') = PARTIAL_CONTENT /\
        hget (out_headers (r_out c')) "content-range" = Some (hv_new (content_range_text d)) /\
        hget (out_headers (r_out c')) "content-length" = Some (hv_new (show_u n)) /\
        in_range (r_in c') = d /\ placed (http_request_slice c) d (r_in c') /\
        left_content_length (r_in c') = (if is_head (r_in c) then 0 else n)
    | None =>
        status (r_out c') = RANGE_NOT_SATISFIABLE /\
        hget (out_headers (r_out c')) "content-range" = Some (hv_new ("bytes */" +:+ show_u raw))
    end.
Proof.
  intros Hsv Hr Hv Hs.
  assert (get_http_multipart_range (in_headers (r_in c)) raw
          = match resolve raw r with
            | Some (a, b, n) => Ok (mkRange true raw n a b, None) | None => Err "" end) as Hm.
  { rewrite get_http_multipart_range_single_lemma by by eapply print_spec_not_multipart.
    destruct (sv_raw _ _ Hsv). rewrite (get_http_range_resolves_lemma _ raw v r);
      [by destruct (resolve raw r) as [[[]]|]|unfold in_width; lia|done..]. }
  destruct (sv_info _ _ Hsv) as (info & Hi & Hraw).
  unfold do_http_filter_header_range. step. rewrite (sv_cache _ _ Hsv). cbn [negb]. rewrite Hi.
  step. rewrite Hraw. destruct (resolve raw r) as [[[a b] n]|] eqn:Er.
  - destruct (resolve_bounds raw r a b n) as (Ha & Hb & Hn); [apply Hsv|done..|].
    destruct (get_range_single id raw c tx (mkRange true raw n a b))
      as (i & E & Hrg & Hpl & Hmh & Hleft); [done..|].
    step by (unfold attempt; by rewrite E).
    destruct (range_headers_partial (set_r_in i c)) as (o & E2 & Hx1 & Hx2 & Hx3);
      [apply Hsv|apply Hsv|cbn; by rewrite Hrg|done|].
    eexists. split; [by apply on_fst_ok|]. cbn. cbn in Hx2, Hx3. rewrite Hrg in Hx2, Hx3. done.
  - step by (unfold attempt, get_http_filter_header_range; step;
             rewrite (sv_load _ _ Hsv), (sv_parse _ _ Hsv); step;
             unfold mbind, stm_bind, on_fst, first_range;
             unfold mbind, stm_bind, on_fst, gets, lift, upd_in, modify;
             cbn [r_in set_r_in in_headers set_parse_range set_load_range]; by rewrite Hm).
    step. eexists. split; [reflexivity|]. split; [done|]. cbn. apply hget_hset.
Qed.

(** ** Multipart answers *)

Lemma multipart_parts_spec id ds blen hlen bodys :
  0 <= blen -> 0 <= hlen -> Forall (fun d => 0 <= content_length d) ds ->
  blen + zsum (slen <$> (multipart_body id <$> ds)) + zsum (content_length <$> ds) < 2 ^ 64 ->
  hlen + zsum (slen <$> (multipart_body id <$> ds)) < 2 ^ 64 ->
  multipart_parts id ds blen hlen bodys =
    (blen + zsum (slen <$> (multipart_body id <$> ds)) + zsum (content_length <$> ds),
     hlen + zsum (slen <$> (multipart_body id <$> ds)),
     (bodys ++ (multipart_body id <$> ds))%list).
Proof.
  intros Hb Hh Hds. revert blen hlen bodys Hb Hh. induction Hds as [|d ds Hd Hds IH];
    intros blen hlen bodys Hb Hh H1 H2; cbn [multipart_parts].
  { change (zsum _) with 0. change (zsum _) with 0. rewrite !Z.add_0_r. by rewrite app_nil_r. }
  cbn [fmap list_fmap] in *. unfold zsum in *. cbn [foldr] in *. fold (zsum) in *.
  fold (zsum (slen <$> (multipart_body id <$> ds))) in *. fold (zsum (content_length <$> ds)) in *.
  pose proof (slen_nonneg (multipart_body id d)).
  assert (0 <= zsum (slen <$> (multipart_body id <$> ds))).
  { apply zsum_nonneg. rewrite !Forall_fmap. apply Forall_true. intros. apply slen_nonneg. }
  assert (0 <= zsum (content_length <$> ds)) by (apply zsum_nonneg; by rewrite Forall_fmap).
  rewrite !wrap_id by (unfold in_width; lia). rewrite IH by lia. f_equal; [f_equal; lia|].
  by rewrite <- app_assoc.
Qed.

(** The announced length of a multipart answer is the length of what is
    sent: the texts of the parts and of the end, and the bytes of every
    range.  The ranges are queued in the order asked for, each with its text,
    and the end mark comes last. *)
Theorem multipart_answer_length id raw c ds d0 :
  is_u64 raw -> get_http_multipart_range (in_headers (r_in c)) raw = Ok (d0, Some ds) ->
  zsum (slen <$> (multipart_body id <$> ds)) + zsum (content_length <$> ds)
    + slen (multipart_body_end id) < 2 ^ 64 ->
  exists d i m h, first_range id raw c = (Ok d, set_r_in i c) /\
    multipart_range i = Some m /\ multipart_range_header i = Some h /\
    d :: ranges m = (ds ++ [mkRange false raw 0 0 0])%list /\
    body m = ((multipart_body id <$> ds) ++ [multipart_body_end id])%list /\
    body_len h = zsum (slen <$> body m) + zsum (content_length <$> ds) /\
    body_header_len m = zsum (slen <$> body m).
Proof.
  intros Hu Hm Hlt.
  assert (Forall (fun d => 0 <= content_length d) ds) as Hds.
  { eapply Forall_impl; [by apply (multipart_ranges_in_bounds _ _ _ _ Hu Hm)|].
    intros d [_ Hb]. unfold in_bounds in Hb. lia. }
  pose proof (slen_nonneg (multipart_body_end id)).
  assert (0 <= zsum (content_length <$> ds)) by (apply zsum_nonneg; by rewrite Forall_fmap).
  assert (0 <= zsum (slen <$> (multipart_body id <$> ds))).
  { apply zsum_nonneg. rewrite !Forall_fmap. apply Forall_true. intros. apply slen_nonneg. }
  unfold first_range. step. step. step by (unfold lift; cbn; by rewrite Hm).
  rewrite multipart_parts_spec by (done || lia).
  destruct (ds ++ [mkRange false raw 0 0 0])%list as [|d all] eqn:E; [by destruct ds|].
  step. step. exists d. do 3 eexists. split; [reflexivity|]. cbn.
  split; [done|]. split; [done|]. cbn. split_and!; try done.
  - rewrite fmap_app, zsum_app. cbn. rewrite wrap_id by (unfold in_width; lia). lia.
  - rewrite fmap_app, zsum_app. cbn. rewrite wrap_id by (unfold in_width; lia). lia.
Qed.

(** ** Conditional requests *)

(** A validator without quotes, as the text of an entity tag. *)
Definition plain_tag (t : string) : Prop :=
  no_ws t = true /\ has_char quote t = false /\ has_char "," t = false /\
  starts_with "W/" t = false /\ t <> "*".

Lemma trim_start_char_none c s : has_char c s = false -> trim_start_char c s = s.
Proof. destruct s as [|d s]; [done|]. cbn. intros [-> _]%orb_false_iff. done. Qed.

Lemma trim_end_char_none c s : has_char c s = false -> trim_end_char c s = s.
Proof.
  induction s as [|d s IH]; [done|]. cbn. intros [Hd Hs]%orb_false_iff.
  rewrite IH by done. destruct s; [by rewrite Hd|done].
Qed.

Lemma trim_end_char_last c s : has_char c s = false -> trim_end_char c (s +:+ String c "") = s.
Proof.
  induction s as [|d s IH]; intros Hs.
  - rewrite app_nil. cbn. by rewrite Ascii.eqb_refl.
  - cbn in Hs. apply orb_false_iff in Hs as [Hd Hs]. rewrite app_cons. cbn. rewrite IH by done.
    destruct s; [by rewrite Hd|done].
Qed.

Lemma starts_with_stake p s : starts_with p s = false -> String.eqb (stake (String.length p) s) p = false.
Proof.
  revert s. induction p as [|a p IH]; intros [|b s]; try done. cbn.
  destruct (Ascii.eqb_spec a b) as [->|Hn]; cbn.
  - rewrite Ascii.eqb_refl. apply IH.
  - intros _. destruct (Ascii.eqb_spec b a); [congruence|done].
Qed.

Lemma strip_weak_plain w t : starts_with "W/" t = false -> strip_weak w t = t.
Proof.
  intros Ht. unfold strip_weak.
  rewrite (starts_with_stake "W/" t Ht : String.eqb (stake 2 t) "W/" = false).
  by rewrite andb_false_r.
Qed.

Definition quoted (t : string) : string := String quote (t +:+ String quote "").

Lemma get_etag_quoted headers key w v t :
  plain_tag t -> hget headers key = Some v -> hv_str v = Some (quoted t) ->
  get_etag headers key w = Some [t].
Proof.
  intros (Hws & Hq & Hc & Hw & _) Hv Hs. unfold get_etag. rewrite Hv. cbn [mbind option_bind].
  rewrite Hs. cbn [mbind option_bind]. rewrite strip_weak_plain by done.
  rewrite split_char_none by (apply find_char_none; unfold quoted; cbn;
    by rewrite has_char_app, Hc).
  cbn [fmap list_fmap]. unfold trim_matches, quoted. cbn [trim_start_char].
  rewrite Ascii.eqb_refl.
  destruct t as [|d t].
  - by destruct w.
  - rewrite app_cons. cbn [trim_start_char]. cbn in Hq. apply orb_false_iff in Hq as [Hd Ht].
    rewrite Hd. rewrite <- app_cons, trim_end_char_last by (cbn; by rewrite Hd, Ht).
    by rewrite trim_no_ws, strip_weak_plain.
Qed.

Lemma get_etag_plain headers key w v t :
  plain_tag t -> hget headers key = Some v -> hv_str v = Some t ->
  get_etag headers key w = Some [t].
Proof.
  intros (Hws & Hq & Hc & Hw & _) Hv Hs. unfold get_etag. rewrite Hv. cbn [mbind option_bind].
  rewrite Hs. cbn [mbind option_bind]. rewrite strip_weak_plain by done.
  rewrite split_char_none by by apply find_char_none.
  cbn [fmap list_fmap]. unfold trim_matches.
  by rewrite trim_start_char_none, trim_end_char_none, trim_no_ws, strip_weak_plain.
Qed.

Lemma quoted_ne t : has_char quote t = false -> String.eqb (quoted t) t = false.
Proof.
  intros H'. apply String.eqb_neq. intros E. rewrite <- E in H'. unfold quoted in H'. cbn in H'.
  by rewrite Ascii.eqb_refl in H'.
Qed.

(** An entity tag with its quotes, the form every tag has in HTTP, never
    matches itself: the quotes are taken off the tags a client sends and not
    off the answer's.  A client that revalidates with the tag it was given
    gets the full answer again, and one that requires it with [If-Match] is
    refused with 412. *)
Theorem quoted_tag_never_matches c v w t :
  plain_tag t -> hv_bytes w = quoted t -> hv_str v = Some (quoted t) ->
  (hget (in_headers (r_in c)) "if-none-match" = Some v ->
   parse_if_none_match (in_headers (r_in c)) w = Some false) /\
  (hget (in_headers (r_in c)) "if-match" = Some v ->
   exists c', parse_if_match w c = (Err "", c') /\ status (r_out c') = PRECONDITION_FAILED).
Proof.
  intros Ht Hw Hs. pose proof Ht as (_ & Hq & _ & _ & Hstar). apply String.eqb_neq in Hstar.
  assert (hv_is_empty w = false) as He by (unfold hv_is_empty; by rewrite Hw).
  split; intros Hv.
  - unfold parse_if_none_match. rewrite (get_etag_quoted _ _ _ _ _ Ht Hv Hs).
    cbn [mbind option_bind is_any existsb]. by rewrite Hstar, He, Hw, quoted_ne.
  - unfold parse_if_match. step. rewrite (get_etag_quoted _ _ _ _ _ Ht Hv Hs).
    cbn [is_any existsb]. rewrite Hstar, He, Hw, quoted_ne by done. cbn [orb].
    unfold precondition_failed. step. eexists. split; [reflexivity|done].
Qed.

(** A tag without quotes does match: a client that holds the current
    version, by its tag and, if it says so, by its date, is answered 304;
    one that holds another version gets the answer unchanged. *)
Theorem plain_tag_revalidates c v w t u lm :
  is_request_cache c = true -> is_success (status (r_out c)) = true ->
  plain_tag t -> plain_tag u -> u <> "" ->
  hget (out_headers (r_out c)) "etag" = Some w -> hv_bytes w = u ->
  last_modified (out_headers (r_out c)) = Ok lm ->
  hget (in_headers (r_in c)) "if-unmodified-since" = None ->
  hget (in_headers (r_in c)) "if-match" = None ->
  hget (in_headers (r_in c)) "if-modified-since" = None ->
  hget (in_headers (r_in c)) "if-none-match" = Some v -> hv_str v = Some t ->
  http_filter_header_not_modified c =
  (Ok tt, if String.eqb u t then set_r_out (set_status NOT_MODIFIED (r_out c)) c else c).
Proof.
  intros Hc Hst Ht Hu Hu0 Hw Hwb Hlm H1 H2 H3 Hv Hs.
  pose proof Ht as (_ & _ & _ & _ & Hstar). apply String.eqb_neq in Hstar.
  assert (e_tag (out_headers (r_out c)) = w) as Hetag by (unfold e_tag; by rewrite Hw).
  assert (hv_is_empty w = false) as He.
  { unfold hv_is_empty. rewrite Hwb. by apply String.eqb_neq. }
  assert (do_http_filter_header_not_modified c =
    (if String.eqb u t then (Err "", set_r_out (set_status NOT_MODIFIED (r_out c)) c)
     else (Ok tt, c))) as E.
  { unfold do_http_filter_header_not_modified. step. rewrite Hc, Hst, Hlm, Hetag. cbn [negb].
    destruct lm as [lmv lmt]. step.
    step by (unfold parse_if_unmodified_since, get_if_unmodified_since; step; by rewrite H1).
    step by (unfold parse_if_match, get_etag; step; by rewrite H2).
    unfold parse_if_modified_since, get_if_modified_since, parse_if_none_match. rewrite H3.
    rewrite (get_etag_plain _ _ _ _ _ Ht Hv Hs). cbn [mbind option_bind is_any existsb].
    step. rewrite Hstar, He, Hwb, orb_false_r. by destruct (String.eqb u t). }
  unfold http_filter_header_not_modified. unfold mbind, stm_bind, attempt. rewrite E.
  by destruct (String.eqb u t).
Qed.

(** ** What may be cached *)

Lemma note_answer_keeps now c cr c' :
  note_answer now c = (Ok cr, c') ->
  is_request_cache c' = is_request_cache c /\ is_no_cache c' = is_no_cache c.
Proof.
  unfold note_answer. intros E. steps_in E. destruct a as [r te]. unfold upd_out in E.
  steps_in E. unfold mret, stm_ret in E. by injection E as <- <-.
Qed.

Lemma cache_decision_spec now cr c b c' :
  cache_decision now cr c = (Ok b, c') -> is_request_cache c = true ->
  is_cache (r_out c') = b /\
  (b = true ->
   is_no_cache c = false /\ o_transfer_encoding (r_out c') = None /\
   exists info, response_info (r_out c') = Some info /\ 0 < info_cache_control_time info /\
     hv_is_empty (info_e_tag info) = false /\ hv_is_empty (info_last_modified info) = false).
Proof.
  unfold cache_decision. intros E Hc. steps_in E. destruct a as [lm lmt]. steps_in E.
  destruct a as [[cc et] es]. steps_in E. rewrite Hc in E. cbn [negb] in E.
  unfold upd_in, upd_out in E. steps_in E. unfold mret, stm_ret in E. injection E as <- <-.
  assert (o_transfer_encoding (r_out s) = o_transfer_encoding (r_out c)) as Hte.
  { destruct es as [t|]; [destruct (bool_decide _)|]; unfold insert_header, upd_out, modify, done_ in Es1;
      by injection Es1 as _ <-. }
  split; [done|]. cbn. rewrite Hte, negb_true_iff, !orb_false_iff. unfold no_transfer_encoding.
  intros ((((H1 & H2) & H3) & H4) & H5). split; [done|].
  split; [by destruct (o_transfer_encoding (r_out c))|]. eexists. split; [done|]. cbn.
  split; [|done]. by apply Z.leb_gt in H1.
Qed.

(** The cache takes an answer only under the conditions that make it
    safe to replay: caching is allowed for the request, the answer has a
    known length (no transfer encoding), a positive lifetime, an entity tag
    and a modification date; and then the position of the cache file is that
    of the answer. *)
Theorem cached_answers_have_validators now c b c' :
  parse_answer now c = (Ok b, c') -> is_request_cache c = true ->
  is_cache (r_out c') = b /\
  (b = true ->
   is_no_cache c = false /\ o_transfer_encoding (r_out c') = None /\
   exists info, response_info (r_out c') = Some info /\ 0 < info_cache_control_time info /\
     hv_is_empty (info_e_tag info) = false /\ hv_is_empty (info_last_modified info) = false).
Proof.
  unfold parse_answer. intros E Hc. steps_in E.
  destruct (note_answer_keeps _ _ _ _ Es) as [Hk1 Hk2]. rewrite <- Hk2.
  apply (cache_decision_spec _ _ _ _ _ E). by rewrite Hk1.
Qed.

End range_filter.

(** ** Concrete requests *)

#[local] Existing Instance assoc_http.
#[local] Existing Instance assoc_http_laws.
#[local] Instance unit_chan : ClientChan := {| Chan := unit; write_msg b ch := (Ok 1, ch) |}.

Definition hmap (l : list (string * string)) : HeaderMap := l.
Definition hval (s : string) : HeaderValue := s.

Definition request_ctx (hin hout : HeaderMap) : Ctx :=
  mkCtx
    (mkIn hin false (Some GET) false false (mkRange false 0 0 0 0) None None 0 0 0 0 0 (-1) 0 0 true)
    (mkOut 200 hout false false
       (Some (mkInfo 100 (hval "100") (hval "abc") 60 0 (mkRange false 1000 1000 0 999)))
       0 0 None (mkRange false 0 0 0 0))
    None None true 100 None true 0 false false true None None 0 ∅.

Lemma range_request_answered_witness :
  exists c', do_http_filter_header_range 7
    (request_ctx (hmap [("range", "bytes=150-420")]) (hmap []), None) = (Ok tt, (c', None)) /\
    slice_start (r_in c') <= 150 < slice_start (r_in c') + 100 /\ left_content_length (r_in c') = 271.
Proof.
  destruct (range_request_answered 7 1000 (request_ctx (hmap [("range", "bytes=150-420")]) (hmap []))
    None (hval "bytes=150-420") (FromTo 150 420)) as (c' & E & _ & _ & _ & _ & Hp & Hl).
  - split; try done. by eexists.
  - unfold spec_u64, in_width. lia.
  - done.
  - done.
  - exists c'. split; [exact E|]. split; [apply (pl_start _ _ _ Hp)|exact Hl].
Defined.

Lemma multipart_answer_length_witness :
  exists d i m h,
    first_range 7 1000 (request_ctx (hmap [("range", "bytes=0-9,990-")]) (hmap []))
      = (Ok d, set_r_in i (request_ctx (hmap [("range", "bytes=0-9,990-")]) (hmap []))) /\
    multipart_range i = Some m /\ multipart_range_header i = Some h /\ length (body m) = 3%nat.
Proof.
  destruct (multipart_answer_length 7 1000
    (request_ctx (hmap [("range", "bytes=0-9,990-")]) (hmap []))
    [mkRange true 1000 10 0 9; mkRange true 1000 10 990 999] (whole 1000))
    as (d & i & m & h & E & Hm & Hh & _ & Hb & _).
  - unfold in_width. lia.
  - vm_compute. reflexivity.
  - vm_compute. reflexivity.
  - exists d, i, m, h. split_and!; [exact E|exact Hm|exact Hh|by rewrite Hb].
Defined.

Lemma quoted_tag_never_matches_witness :
  parse_if_none_match (hmap [("if-none-match", quoted "abc")]) (hval (quoted "abc")) = Some false.
Proof.
  apply (quoted_tag_never_matches
    (request_ctx (hmap [("if-none-match", quoted "abc")]) (hmap [])) (hval (quoted "abc"))
    (hval (quoted "abc")) "abc"); repeat split; done.
Defined.

Lemma plain_tag_revalidates_witness :
  let c := request_ctx (hmap [("if-none-match", "abc")])
             (hmap [("etag", "abc"); ("last-modified", "100")]) in
  status (r_out (http_filter_header_not_modified c).2) = 304.
Proof.
  cbv zeta. rewrite (plain_tag_revalidates _ (hval "abc") (hval "abc") "abc" "abc" (hval "100", 100));
    by repeat split.
Defined.

Lemma cached_answers_have_validators_witness :
  let c := request_ctx (hmap [])
             (hmap [("etag", "abc"); ("last-modified", "100"); ("content-length", "1000");
                    ("cache-control", "max-age=60")]) in
  exists b c', parse_answer 5000 c = (Ok b, c') /\ o_transfer_encoding (r_out c') = None.
Proof.
  cbv zeta. set (c := request_ctx _ _).
  destruct (parse_answer 5000 c) as [o c'] eqn:E.
  assert (o = Ok true) as -> by (vm_compute in E; congruence).
  exists true, c'. split; [done|].
  by apply (cached_answers_have_validators 5000 c true c' E).
Defined.
