(* ===== verification/Wire.v ===== *)
(** What the protocols of the program use of the crates around them: reading a
    connection ([tokio::io::AsyncRead] and its extensions), and writing values
    as bytes ([toml]); and the loop, common to the three packed protocols, that
    waits for a flag. *)
From S2P Require Import Prelude RustStd.
#[local] Open Scope string_scope.
#[local] Open Scope list_scope.
#[local] Open Scope Z_scope.

(** ** Polling and waiting *)

(** [std::task::Poll] *)
Inductive Poll (A : Type) := Ready (a : A) | Pending.
Arguments Ready {A}.
Arguments Pending {A}.

(** [AsyncRead]: [poll_read n] fills at most [n] bytes.  A task that waits is
    woken [waits] times at most before the next bytes, or the end, are there. *)
Class AsyncRead (R : Type) := {
  poll_read : Z -> stm R (Poll (list Z));
  waits : R -> nat
}.

(** [.await]: polled until it is ready. *)
Fixpoint await {S A} (fuel : nat) (m : stm S (Poll A)) : stm S A :=
  match fuel with
  | O => lift Fuel
  | Datatypes.S fuel => p ← m; match p with Ready a => mret a | Pending => await fuel m end
  end.

Section read.
Context `{AsyncRead R}.

(** [read(&mut buf[..n]).await] *)
Definition read (n : Z) : stm R (list Z) := w ← gets waits; await (S w) (poll_read n).

(** [read_exact(&mut buf[..n]).await]: an error at the end of the stream. *)
Fixpoint read_exact_loop (fuel : nat) (n : Z) : stm R (list Z) :=
  if n <=? 0 then mret []
  else match fuel with
  | O => lift Fuel
  | S fuel =>
      d ← read n;
      match d with
      | [] => fail "UnexpectedEof"
      | _ => x ← read_exact_loop fuel (n - zlen d); mret (d ++ x)
      end
  end.

Definition read_exact (n : Z) : stm R (list Z) := read_exact_loop (Z.to_nat n) n.

Definition read_u8 : stm R Z :=
  b ← read_exact 1; match b with [x] => mret x | _ => lift Panic end.

(** Big-endian. *)
Definition read_u16 : stm R Z :=
  b ← read_exact 2; match b with [hi; lo] => mret (hi * 256 + lo) | _ => lift Panic end.

(** The loop that reads a flag: [read_size] bytes, all as in the flag, have
    been read. *)
Fixpoint read_flag (flag : list Z) (fuel : nat) (read_size : Z) (got : list Z) : stm R bool :=
  match fuel with
  | O => lift Fuel
  | S fuel =>
      if read_size =? zlen flag then mret true
      else
        b ← read (zlen flag - read_size);
        let read_size := read_size + zlen b in
        let got := got ++ b in
        if bool_decide (take (Z.to_nat read_size) flag = got)
        then read_flag flag fuel read_size got
        else mret false
  end.

End read.

(** [write_u16] *)
Definition u16_bytes (x : Z) : list Z := [x / 256; x mod 256].

(** ** A connection

    What the socket will answer to the polls: bytes that arrive, nothing yet,
    an error; then the end of the stream for ever. *)
Inductive IoEvent := Bytes (d : list Z) | Wait | Broken (e : string).
Definition Conn := list IoEvent.

Definition conn_poll_read (n : Z) : stm Conn (Poll (list Z)) := fun c =>
  match c with
  | [] => (Ok (Ready []), [])
  | Bytes d :: c => if zlen d <=? n then (Ok (Ready d), c)
                    else (Ok (Ready (take (Z.to_nat n) d)), Bytes (drop (Z.to_nat n) d) :: c)
  | Wait :: c => (Ok Pending, c)
  | Broken e :: c => (Err e, c)
  end.

#[export] Instance conn_read : AsyncRead Conn := {
  poll_read := conn_poll_read;
  waits c := length c
}.

(** ** What a reader promises

    [content] is all the bytes it will give. Its state is [good] between any
    two reads, and [ready k] if the next [k] bytes, as far as there are any,
    come without an error. *)
Class ReadLaws (R : Type) `{AsyncRead R} := {
  content : R -> list Z;
  good : R -> Prop;
  ready : Z -> R -> Prop;
  poll_good n r : good r -> 0 <= n ->
    match poll_read n r with
    | (Ok (Ready d), r') => good r' /\ content r = d ++ content r' /\ zlen d <= n
    | (Ok Pending, r') => good r' /\ content r' = content r /\ (waits r' < waits r)%nat
    | (Err _, r') => good r' /\ content r' = content r
    | _ => False
    end;
  ready_good k r : ready k r -> good r;
  ready_mono k j r : ready k r -> j <= k -> ready j r;
  poll_ready k n r : ready k r -> 0 < n <= k ->
    match poll_read n r with
    | (Ok (Ready d), r') => ready (k - zlen d) r' /\ (d = [] -> content r = [])
    | (Ok Pending, r') => ready k r'
    | _ => False
    end
}.

(** What a reader still has, as a relation between two of its states. *)
Definition consumed `{ReadLaws R} (r r' : R) : Prop :=
  good r -> good r' /\ exists d, content r = d ++ content r'.

(** [m] leads from any state to one that [P] relates to it, and [m] runs to
    the end or stops at an error. *)
Definition keeps {S A} (P : S -> S -> Prop) (m : stm S A) : Prop := forall s, P s (m s).2.

Section keeps.
Context {S : Type} (P : S -> S -> Prop) `{!PreOrder P}.

Lemma keeps_ret {A} (a : A) : keeps P (mret a).
Proof. intros s. reflexivity. Qed.
Lemma keeps_lift {A} (o : outcome A) : keeps P (lift o).
Proof. intros s. reflexivity. Qed.
Lemma keeps_fail {A} e : keeps P (fail e : stm S A).
Proof. intros s. reflexivity. Qed.
Lemma keeps_gets {A} (f : S -> A) : keeps P (gets f).
Proof. intros s. reflexivity. Qed.
Lemma keeps_bind {A B} (m : stm S A) (f : A -> stm S B) :
  keeps P m -> (forall a, keeps P (f a)) -> keeps P (m ≫= f).
Proof.
  intros Hm Hf s. specialize (Hm s). unfold mbind, stm_bind.
  destruct (m s) as [[a|e| |] s1]; cbn in *; [|done..]. etrans; [exact Hm|apply Hf].
Qed.
Lemma keeps_await {A} fuel (m : stm S (Poll A)) : keeps P m -> keeps P (await fuel m).
Proof.
  intros Hm. induction fuel as [|fuel IH]; [apply keeps_lift|].
  apply keeps_bind; [done|]. intros [a|]; [apply keeps_ret|done].
Qed.
End keeps.

Create HintDb keeps discriminated.
#[export] Hint Resolve keeps_ret keeps_lift keeps_fail keeps_gets keeps_bind keeps_await : keeps.
(** Splits a computation into its reads. *)
Ltac keep := repeat lazymatch goal with
  | |- forall _, _ => intro
  | |- keeps _ (mbind _ _) => apply keeps_bind; [exact _|..]
  | |- keeps _ (mret _) => apply keeps_ret; exact _
  | |- keeps _ (lift _) => apply keeps_lift; exact _
  | |- keeps _ (fail _) => apply keeps_fail; exact _
  | |- keeps _ (gets _) => apply keeps_gets; exact _
  | |- keeps _ (match _ with _ => _ end) => case_match
  | |- _ => solve [auto with keeps]
  end.

Section keeps_read.
Context `{AsyncRead R} (P : R -> R -> Prop) `{!PreOrder P}.
Hypothesis HP : forall n, 0 <= n -> keeps P (poll_read n).

Lemma keeps_read n : 0 <= n -> keeps P (read n).
Proof. intros Hn. unfold read. keep. Qed.

Lemma keeps_read_exact n : keeps P (read_exact n).
Proof.
  unfold read_exact. generalize (Z.to_nat n) as fuel. intros fuel. revert n.
  induction fuel as [|fuel IH]; intros n; cbn [read_exact_loop]; destruct (Z.leb_spec n 0); keep.
  apply keeps_read; lia.
Qed.

Lemma keeps_u8 : keeps P read_u8.
Proof. unfold read_u8. keep. apply keeps_read_exact. Qed.
Lemma keeps_u16 : keeps P read_u16.
Proof. unfold read_u16. keep. apply keeps_read_exact. Qed.

Lemma keeps_flag flag fuel k got : got = take (Z.to_nat k) flag -> 0 <= k <= zlen flag -> keeps P (read_flag flag fuel k got).
Proof.
  revert k got. induction fuel as [|fuel IH]; intros k got Hg Hk; cbn [read_flag]; [apply keeps_lift; exact _|].
  case_match; [apply keeps_ret; exact _|].
  apply keeps_bind; [done|apply keeps_read; lia|]. intros b. case_bool_decide as Hb; [|apply keeps_ret; exact _].
  apply IH; [done|]. subst got. apply (f_equal length) in Hb. rewrite length_app, !length_take in Hb. unfold zlen in *. lia.
Qed.
End keeps_read.
#[export] Hint Resolve keeps_read_exact keeps_u8 keeps_u16 : keeps.

(** ** Reading what is there *)

Section laws.
Context `{ReadLaws R}.

(** [m] stops, in a good state, having taken some bytes; those are what [Q]
    says if it returns.  [F] is what is known if it never stops, [Pa] if it
    panics. *)
Definition takes {A} (Pa F : Prop) (m : stm R A) (Q : A -> list Z -> Prop) (r : R) : Prop :=
  match m r with
  | (Ok a, r') => good r' /\ exists d, content r = d ++ content r' /\ Q a d
  | (Err _, r') => good r' /\ exists d, content r = d ++ content r'
  | (Panic, _) => Pa
  | (Fuel, _) => F
  end.

Lemma takes_ret {A} Pa F (a : A) (Q : A -> list Z -> Prop) r : good r -> Q a [] -> takes Pa F (mret a) Q r.
Proof. intros Hg HQ. split; [done|]. by exists []. Qed.

Lemma takes_fail {A} Pa F e (Q : A -> list Z -> Prop) r : good r -> takes Pa F (fail e) Q r.
Proof. intros Hg. split; [done|]. by exists []. Qed.

Lemma takes_lift {A} Pa F (o : outcome A) (Q : A -> list Z -> Prop) r :
  good r -> o <> Panic -> o <> Fuel -> (forall a, o = Ok a -> Q a []) -> takes Pa F (lift o) Q r.
Proof. intros Hg Hp Hf HQ. unfold takes, lift. destruct o as [a|e| |]; [|by split; [|exists []]|done..]. split; [done|]. exists []. auto. Qed.

Lemma takes_bind {A B} Pa F (m : stm R A) (f : A -> stm R B) Q Q' r :
  takes Pa F m Q r ->
  (forall a d r', good r' -> content r = d ++ content r' -> Q a d -> takes Pa F (f a) (fun b e => Q' b (d ++ e)) r') ->
  takes Pa F (m ≫= f) Q' r.
Proof.
  unfold takes, mbind, stm_bind. intros Hm Hf. destruct (m r) as [[a|e| |] r1]; [|done..].
  destruct Hm as (Hg & d & Hd & HQ). specialize (Hf a d r1 Hg Hd HQ).
  destruct (f a r1) as [[b|e| |] r2]; [| |done..].
  - destruct Hf as (? & e & He & ?). split; [done|]. exists (d ++ e). by rewrite Hd, He, app_assoc.
  - destruct Hf as (? & k & He). split; [done|]. exists (d ++ k). by rewrite Hd, He, app_assoc.
Qed.

Lemma takes_mono {A} Pa F (m : stm R A) (Q Q' : A -> list Z -> Prop) r :
  takes Pa F m Q r -> (forall a d, Q a d -> Q' a d) -> takes Pa F m Q' r.
Proof.
  unfold takes. destruct (m r) as [[a|e| |] r1]; [|done..]. intros (? & d & ? & ?) HQ. split; [done|]. exists d. auto.
Qed.

Lemma takes_weaken {A} (Pa Pa' F F' : Prop) (m : stm R A) Q r :
  (Pa -> Pa') -> (F -> F') -> takes Pa F m Q r -> takes Pa' F' m Q r.
Proof. unfold takes. destruct (m r) as [[a|e| |] r1]; auto. Qed.

Lemma read_takes Pa F n r : good r -> 0 <= n -> takes Pa F (read n) (fun a d => a = d /\ zlen d <= n) r.
Proof.
  intros Hg Hn. unfold read, takes. step. change (waits (id r)) with (waits r).
  remember (waits r) as w eqn:Ew. assert (waits r <= w)%nat as Hw by lia. clear Ew.
  enough (forall r0, content r = content r0 -> good r0 -> (waits r0 <= w)%nat -> takes Pa F (await (S w) (poll_read n)) (fun a d => a = d /\ zlen d <= n) r0) as Hx by (by apply Hx).
  clear Hg Hw. induction w as [|w IH]; intros r0 Hr0 Hg Hw; unfold takes; pose proof (poll_good n r0 Hg Hn) as Hp.
  - cbn [await]. unfold mbind, stm_bind. destruct (poll_read n r0) as [[[d|]|e| |] r1]; [| |by destruct Hp as [? ->]; split; [|exists []]|done..].
    + destruct Hp as (? & ? & ?). split; [done|]. by exists d.
    + destruct Hp as (? & ? & ?). lia.
  - change (await (S (S w)) (poll_read n)) with (p ← poll_read n; match p with Ready a => mret a | Pending => await (S w) (poll_read n) end).
    unfold mbind, stm_bind. destruct (poll_read n r0) as [[[d|]|e| |] r1]; [| |by destruct Hp as [? ->]; split; [|exists []]|done..].
    + destruct Hp as (? & ? & ?). split; [done|]. by exists d.
    + destruct Hp as (Hg1 & Hc & Hw1). rewrite <- Hc. apply IH; [congruence|done|lia].
Qed.

Lemma read_ready k n r :
  ready k r -> 0 < n <= k ->
  exists d r', read n r = (Ok d, r') /\ ready (k - zlen d) r' /\ content r = d ++ content r' /\ zlen d <= n /\ (d = [] -> content r = []).
Proof.
  intros Hr Hn. unfold read. step. remember (waits r) as w eqn:Ew. assert (waits r <= w)%nat as Hw by lia. clear Ew.
  revert r Hr Hw. induction w as [|w IH]; intros r Hr Hw;
    pose proof (poll_ready k n r Hr Hn) as Hp; pose proof (poll_good n r (ready_good k r Hr) ltac:(lia)) as Hq.
  - cbn [await]. unfold mbind, stm_bind. destruct (poll_read n r) as [[[d|]|e| |] r1]; [|lia|done..].
    destruct Hp, Hq as (? & ? & ?). by exists d, r1.
  - change (await (S (S w)) (poll_read n)) with (p ← poll_read n; match p with Ready a => mret a | Pending => await (S w) (poll_read n) end).
    unfold mbind, stm_bind. destruct (poll_read n r) as [[[d|]|e| |] r1]; [| |done..].
    + destruct Hp, Hq as (? & ? & ?). by exists d, r1.
    + destruct Hq as (? & Hc & ?). rewrite <- Hc. apply IH; [done|lia].
Qed.

Lemma read_exact_ready k n r a b :
  ready k r -> zlen a = n -> n <= k -> content r = a ++ b ->
  exists r', read_exact n r = (Ok a, r') /\ content r' = b /\ ready (k - n) r'.
Proof.
  unfold read_exact. intros Hr Ha Hk Hc. assert (length a <= Z.to_nat n)%nat as Hf by (unfold zlen in *; lia).
  revert Hf. generalize (Z.to_nat n) as fuel. intros fuel. revert k n r a Hr Ha Hk Hc.
  induction fuel as [|fuel IH]; intros k n r a Hr Ha Hk Hc Hf; cbn [read_exact_loop]; destruct (Z.leb_spec n 0) as [Hn|Hn].
  1,3: destruct a; [|unfold zlen in *; cbn in *; lia]; exists r; replace (k - n) with k by (unfold zlen in *; cbn in *; lia); by split_and!.
  { unfold zlen in *. lia. }
  destruct (read_ready k n r Hr) as (d & r1 & E & Hr1 & Hd & Hl & He); [lia|]. step by exact E.
  assert (exists a', a = d ++ a' /\ content r1 = a' ++ b) as (a' & -> & Hc1).
  { rewrite Hc in Hd. destruct (app_eq_app _ _ _ _ Hd) as (m & [[-> Hm]|[-> Hm]]).
    - by exists m.
    - assert (m = []) as -> by (destruct m; [done|]; unfold zlen in *; rewrite ?length_app in *; cbn in *; lia).
      exists []. by rewrite !app_nil_r, Hm. }
  assert (0 < zlen d) as Hd0.
  { destruct d; [|unfold zlen; cbn; lia]. rewrite He in Hc by done. destruct a'; [unfold zlen in Ha; cbn in Ha; lia|done]. }
  destruct (IH (k - zlen d) (n - zlen d) r1 a') as (r' & E' & Hc' & Hr'); [done|unfold zlen in *; rewrite length_app in *; lia|lia|done|unfold zlen in *; rewrite length_app in Hf; lia|].
  destruct d as [|x d]; [by unfold zlen in Hd0; cbn in Hd0|]. step by exact E'. exists r'. split_and!; [done|done|].
  by replace (k - n) with (k - zlen (x :: d) - (n - zlen (x :: d))) by lia.
Qed.

Lemma read_u8_ready k r x b :
  ready k r -> 1 <= k -> content r = x :: b -> exists r', read_u8 r = (Ok x, r') /\ content r' = b /\ ready (k - 1) r'.
Proof.
  intros Hr Hk Hc. destruct (read_exact_ready k 1 r [x] b) as (r' & E & ? & ?); [done..|].
  exists r'. split; [|done]. unfold read_u8. by step by exact E.
Qed.

Lemma read_u16_ready k r x b :
  ready k r -> 2 <= k -> content r = u16_bytes x ++ b -> exists r', read_u16 r = (Ok x, r') /\ content r' = b /\ ready (k - 2) r'.
Proof.
  intros Hr Hk Hc. destruct (read_exact_ready k 2 r (u16_bytes x) b) as (r' & E & ? & ?); [done..|].
  exists r'. split; [|done]. unfold read_u16. step by exact E. unfold mret, stm_ret. cbn. do 2 f_equal.
  pose proof (Z.div_mod x 256). lia.
Qed.
End laws.

Section laws2.
Context `{ReadLaws R}.

Lemma read_exact_takes n r : good r -> takes False False (read_exact n) (fun a d => a = d /\ zlen d = Z.max 0 n) r.
Proof.
  intros Hg. unfold read_exact. assert (n <= Z.of_nat (Z.to_nat n)) as Hf by lia.
  revert Hf. generalize (Z.to_nat n) as fuel. intros fuel. revert n r Hg.
  induction fuel as [|fuel IH]; intros n r Hg Hf; cbn [read_exact_loop]; destruct (Z.leb_spec n 0) as [Hn|Hn].
  1,3: apply takes_ret; [done|]; split; [done|unfold zlen; cbn; lia].
  { lia. }
  eapply takes_bind; [apply read_takes; [done|lia]|]. cbv beta. intros a d r1 Hg1 Hc [-> Hd].
  destruct d as [|x d]; [by apply takes_fail|].
  eapply takes_bind; [apply IH; [done|]|]; [unfold zlen; cbn [length]; lia|]. cbv beta. intros a e r2 Hg2 Hc2 [-> He].
  apply takes_ret; [done|]. rewrite !app_nil_r. split; [done|]. unfold zlen in *. rewrite length_app in *. cbn [length] in *. lia.
Qed.

Lemma read_u8_takes r : good r -> takes False False read_u8 (fun x d => d = [x]) r.
Proof.
  intros Hg. unfold read_u8. eapply takes_bind; [by apply read_exact_takes|]. cbv beta. intros a d r1 Hg1 Hc [-> Hd].
  destruct d as [|x [|y d]]; [done|by apply takes_ret|unfold zlen in Hd; cbn in Hd; lia].
Qed.

Lemma read_u16_takes r : good r -> takes False False read_u16 (fun x d => zlen d = 2) r.
Proof.
  intros Hg. unfold read_u16. eapply takes_bind; [by apply read_exact_takes|]. cbv beta. intros a d r1 Hg1 Hc [-> Hd].
  destruct d as [|x [|y [|z d]]]; [done|done|by apply takes_ret|unfold zlen in Hd; cbn in Hd; lia].
Qed.

(** A flag that is there is read, a turn for each of its bytes and one to see
    that it is whole. *)
Lemma read_flag_ready flag fuel j k r rest :
  ready k r -> 0 <= j <= zlen flag -> zlen flag - j <= k -> (Z.to_nat (zlen flag - j) < fuel)%nat ->
  content r = drop (Z.to_nat j) flag ++ rest ->
  exists r', read_flag flag fuel j (take (Z.to_nat j) flag) r = (Ok true, r') /\ content r' = rest /\ ready (k - (zlen flag - j)) r'.
Proof.
  revert j k r. induction fuel as [|fuel IH]; intros j k r Hr Hj Hk Hf Hc; [lia|].
  cbn [read_flag]. destruct (Z.eqb_spec j (zlen flag)) as [->|Hne].
  { exists r. split; [done|]. split; [|by replace (k - _) with k by lia]. rewrite Hc, drop_ge; [done|]. unfold zlen. lia. }
  destruct (read_ready k (zlen flag - j) r Hr) as (b & r1 & E & Hr1 & Hb & Hl & He); [lia|]. step by exact E.
  assert (length (drop (Z.to_nat j) flag) = Z.to_nat (zlen flag - j)) as Hd by (rewrite length_drop; unfold zlen in *; lia).
  assert (0 < zlen b) as Hb0.
  { destruct b; [|unfold zlen; cbn; lia]. rewrite He in Hc by done. symmetry in Hc. apply app_eq_nil in Hc as [Hx _]. rewrite Hx in Hd. cbn in Hd. lia. }
  assert (b = take (length b) (drop (Z.to_nat j) flag) /\ content r1 = drop (length b) (drop (Z.to_nat j) flag) ++ rest) as [Hb1 Hb2].
  { rewrite Hc in Hb. rewrite <- (take_drop (length b) (drop (Z.to_nat j) flag)), <- app_assoc in Hb.
    apply app_inj_1 in Hb as [Hb1 Hb2]; [by split|]. rewrite length_take. unfold zlen in *. lia. }
  assert (take (Z.to_nat j) flag ++ b = take (Z.to_nat (j + zlen b)) flag) as Ei.
  { rewrite Hb1 at 1. rewrite take_take_drop. f_equal. unfold zlen in *. lia. }
  rewrite Ei. rewrite bool_decide_true by done.
  destruct (IH (j + zlen b) (k - zlen b) r1) as (r' & E' & Hc' & Hr'); [done|lia..| |].
  { rewrite Hb2, drop_drop. do 2 f_equal. unfold zlen in *. lia. }
  exists r'. split; [done|]. split; [done|]. by replace (k - (zlen flag - j)) with (k - zlen b - (zlen flag - (j + zlen b))) by lia.
Qed.

(** However it ends, what was read is a beginning of the flag, or differs from
    it; only a closed connection keeps the loop from ending. *)
Lemma read_flag_takes flag fuel j got r :
  good r -> got = take (Z.to_nat j) flag -> 0 <= j <= zlen flag ->
  takes False True (read_flag flag fuel j got) (fun b d => b = true -> got ++ d = flag) r.
Proof.
  revert j got r. induction fuel as [|fuel IH]; intros j got r Hg Hgot Hj; cbn [read_flag]; [done|].
  destruct (Z.eqb_spec j (zlen flag)) as [->|Hne].
  { apply takes_ret; [done|]. intros _. rewrite app_nil_r. subst got. rewrite take_ge; [done|]. unfold zlen. lia. }
  eapply takes_bind; [apply read_takes; [done|lia]|]. cbv beta. intros a d r1 Hg1 Hc [-> Hd].
  case_bool_decide as Hb; [|by apply takes_ret].
  eapply takes_mono; [apply IH; [done|done|]|].
  - subst got. apply (f_equal length) in Hb. rewrite length_app, !length_take in Hb. unfold zlen in *. lia.
  - cbv beta. intros b e Hx Hbt. by rewrite app_assoc, Hx.
Qed.
End laws2.

(** ** The connection keeps the promises *)

Definition event_bytes (e : IoEvent) : list Z := match e with Bytes d => d | _ => [] end.
Definition conn_content (c : Conn) : list Z := concat (event_bytes <$> c).

(** No read of such a connection fails, and none is empty before the end. *)
Definition live (c : Conn) : Prop :=
  Forall (fun e => match e with Bytes d => d <> [] | Wait => True | Broken _ => False end) c.

#[export] Program Instance conn_laws : ReadLaws Conn := {
  content := conn_content;
  good _ := True;
  ready _ c := live c
}.
Next Obligation.
  intros n [|[d| |e] c] _ Hn; cbn.
  - split_and!; [done|done|unfold zlen; cbn; lia].
  - destruct (Z.leb_spec (zlen d) n); cbn; [done|]. split_and!; [done| |unfold zlen; rewrite length_take; lia].
    by rewrite app_assoc, take_drop.
  - split_and!; [done..|lia].
  - done.
Qed.
Next Obligation. done. Qed.
Next Obligation. done. Qed.
Next Obligation.
  intros k n [|[d| |e] c] Hl Hn; cbn; [done| | |by inversion Hl].
  - inversion Hl as [|? ? Hd Hc]; subst. destruct (Z.leb_spec (zlen d) n); cbn.
    + split; [done|]. intros ->. done.
    + assert (n < zlen d) as Hlt by lia. unfold zlen in Hlt. split.
      * constructor; [|done]. intros E%(f_equal length). rewrite length_drop in E. cbn in E. lia.
      * intros E%(f_equal length). rewrite length_take in E. cbn in E. lia.
  - by inversion Hl.
Qed.

(** A byte at a time, with a pause before each. *)
Definition drips (b : list Z) : Conn := b ≫= (fun x => [Wait; Bytes [x]]).

Lemma drips_live b : live (drips b) /\ conn_content (drips b) = b.
Proof.
  induction b as [|x b [IH1 IH2]]; [by split; [constructor|]|]. split.
  - unfold drips. cbn. by repeat constructor.
  - unfold drips, conn_content in *. cbn. by f_equal.
Qed.

(** ** Serialization

    The [toml] crate writes a value as bytes and reads it back. *)
Class Toml (T : Type) := {
  to_vec : T -> outcome (list Z);
  from_slice : list Z -> outcome T
}.

Class TomlLaws (T : Type) `{Toml T} : Prop := {
  from_slice_to_vec (v : T) s : to_vec v = Ok s -> from_slice s = Ok v;
  from_slice_returns s : match (from_slice s : outcome T) with Panic | Fuel => False | _ => True end
}.

(** One such crate: values as the bits of their code number, one per byte. *)
Fixpoint pos_bits (p : positive) : list Z :=
  match p with xH => [] | xO p => 0 :: pos_bits p | xI p => 1 :: pos_bits p end.

Fixpoint bits_pos (l : list Z) : positive :=
  match l with [] => xH | 0 :: l => xO (bits_pos l) | _ :: l => xI (bits_pos l) end.

Lemma bits_pos_bits p : bits_pos (pos_bits p) = p.
Proof. induction p as [p IH|p IH|]; cbn; by rewrite ?IH. Qed.

Definition code_toml (T : Type) `{Countable T} : Toml T := {|
  to_vec v := Ok (pos_bits (encode v));
  from_slice s := ok_or "decode" (decode (bits_pos s))
|}.

Lemma code_toml_laws (T : Type) `{Countable T} : @TomlLaws T (code_toml T).
Proof.
  split.
  - intros v s E. cbn in *. injection E as <-. by rewrite bits_pos_bits, decode_encode.
  - intros s. cbn. by destruct (decode _).
Qed.

(** ** Headers

    The beginning of a pack, the same in the three protocols: the flag, the
    size of the header and the header; with the number of bytes that took.
    [None]: this is no such pack. *)
Section header.
Context `{AsyncRead R} {Hd : Type} `{Toml Hd}.

(** A turn per byte of the flag, and one to see that it is whole. *)
Definition flag_fuel : nat := 21.

Definition read_header (flag : list Z) (slice_len : Z) : stm R (option (Hd * Z)) :=
  is_flag ← read_flag flag flag_fuel 0 [];
  if negb is_flag then mret None
  else
    header_size ← read_u16;
    if (slice_len <? header_size) || (header_size <=? 0)
    then fail "err:header_size > slice.len()"
    else
      header_slice ← read_exact header_size;
      header ← lift (from_slice header_slice);
      mret (Some (header, zlen flag + 2 + header_size)).

(** What a writer puts there. *)
Definition header_bytes (flag header_slice : list Z) : list Z :=
  flag ++ u16_bytes (wrap16 (zlen header_slice)) ++ header_slice.

Lemma keeps_header (P : R -> R -> Prop) `{!PreOrder P} flag slice_len :
  (forall n, 0 <= n -> keeps P (poll_read n)) -> keeps P (read_header flag slice_len).
Proof. intros HP. unfold read_header. pose proof (zlen_nonneg flag). keep. by apply keeps_flag; [..|lia]. Qed.
End header.
#[export] Hint Resolve keeps_header : keeps.

Section header_laws.
Context `{ReadLaws R} {Hd : Type} `{TomlLaws Hd}.

Lemma read_header_ready flag slice_len (h : Hd) hs k r rest :
  to_vec h = Ok hs -> 0 < zlen hs <= slice_len -> slice_len < 2 ^ 16 -> zlen flag <= 20 ->
  ready k r -> zlen (header_bytes flag hs) <= k -> content r = header_bytes flag hs ++ rest ->
  exists r', read_header flag slice_len r = (Ok (Some (h, zlen (header_bytes flag hs))), r') /\ content r' = rest /\ ready (k - zlen (header_bytes flag hs)) r'.
Proof.
  unfold header_bytes. intros Hh Hl Hs Hfl Hr Hk Hc. rewrite <- !app_assoc in Hc. rewrite !zlen_app in *.
  pose proof (zlen_nonneg flag). revert Hc Hk. unwrap. change (zlen (u16_bytes (zlen hs))) with 2. intros Hc Hk. unfold read_header.
  destruct (read_flag_ready flag flag_fuel 0 k r (u16_bytes (zlen hs) ++ hs ++ rest) Hr) as (r1 & E1 & Hc1 & Hr1);
    [lia|lia|unfold flag_fuel; lia|exact Hc|].
  change (take (Z.to_nat 0) flag) with (@nil Z) in E1. step by exact E1. cbn [negb].
  destruct (read_u16_ready _ r1 (zlen hs) (hs ++ rest) Hr1) as (r2 & E2 & Hc2 & Hr2); [lia|done|].
  step by exact E2. zcases.
  destruct (read_exact_ready _ (zlen hs) r2 hs rest Hr2) as (r3 & E3 & Hc3 & Hr3); [done|lia|done|].
  step by exact E3. step by (unfold lift; by rewrite (from_slice_to_vec _ _ Hh)).
  exists r3. split_and!; [by rewrite Z.add_assoc|done|]. match goal with H : ready ?a r3 |- ready ?b r3 => by replace b with a by lia end.
Qed.

(** Whatever is there, a header that was read took the bytes of its frame. *)
Lemma read_header_takes flag slice_len r :
  good r ->
  takes False True (read_header flag slice_len : stm R (option (Hd * Z))) (fun h d => forall x n, h = Some (x, n) -> zlen d = n /\ n <= zlen flag + 2 + slice_len) r.
Proof.
  intros Hg. pose proof (zlen_nonneg flag). unfold read_header.
  eapply takes_bind; [apply read_flag_takes; [done..|lia]|]. cbv beta. intros b d r1 Hg1 Hc Hb.
  destruct b; cbn [negb]; [|by apply takes_ret]. specialize (Hb eq_refl). cbn [app] in Hb. subst d.
  eapply takes_bind; [eapply takes_weaken, read_u16_takes; done|]. cbv beta. intros n d r2 Hg2 Hc2 Hd2.
  destruct (Z.ltb_spec slice_len n), (Z.leb_spec n 0); cbn [orb]; try by apply takes_fail.
  eapply takes_bind; [eapply takes_weaken, read_exact_takes; done|]. cbv beta. intros a e r3 Hg3 Hc3 [-> He].
  eapply takes_bind.
  { apply (takes_lift _ _ _ (fun h d => d = [])); [done|..]; pose proof (from_slice_returns (T := Hd) e) as Hf; by destruct (from_slice e). }
  cbv beta. intros h f r4 Hg4 Hc4 ->. apply takes_ret; [done|]. intros x m [= <- <-].
  rewrite !app_nil_r, !zlen_app. lia.
Qed.
End header_laws.

(** ** Parsers

    [m] reads [a] from the bytes [b]: wherever they stand in front of a reader
    that is sure of them, it returns [a] and stops right after them. *)
Section parses.
Context `{ReadLaws R}.

Definition parses {A} (m : stm R A) (b : list Z) (a : A) : Prop :=
  forall k r rest, ready k r -> zlen b <= k -> content r = b ++ rest ->
  exists r', m r = (Ok a, r') /\ content r' = rest /\ ready (k - zlen b) r'.

Lemma parses_ret {A} (a : A) : parses (mret a) [] a.
Proof. intros k r rest Hr Hk Hc. exists r. split_and!; [done..|]. by replace (k - _) with k by (unfold zlen; cbn; lia). Qed.

Lemma parses_step {A B} (m : stm R A) (f : A -> stm R B) b a k r rest :
  parses m b a -> ready k r -> zlen b <= k -> content r = b ++ rest ->
  exists r', (m ≫= f) r = f a r' /\ content r' = rest /\ ready (k - zlen b) r'.
Proof. intros Hm Hr Hk Hc. destruct (Hm k r rest Hr Hk Hc) as (r' & E & ? & ?). exists r'. by rewrite (stm_step _ _ _ _ _ E). Qed.

Lemma parses_bind {A B} (m : stm R A) (f : A -> stm R B) b1 b2 a c :
  parses m b1 a -> parses (f a) b2 c -> parses (m ≫= f) (b1 ++ b2) c.
Proof.
  intros Hm Hf k r rest Hr Hk Hc. rewrite zlen_app in *. rewrite <- app_assoc in Hc. pose proof (zlen_nonneg b2).
  destruct (parses_step m f b1 a k r _ Hm Hr ltac:(lia) Hc) as (r1 & E & Hc1 & Hr1).
  destruct (Hf _ _ _ Hr1 ltac:(lia) Hc1) as (r2 & E2 & Hc2 & Hr2). exists r2. rewrite E. split_and!; [done..|].
  by replace (k - (zlen b1 + zlen b2)) with (k - zlen b1 - zlen b2) by lia.
Qed.

Lemma parses_bind_nil {A B} (m : stm R A) (f : A -> stm R B) b a c :
  parses m [] a -> parses (f a) b c -> parses (m ≫= f) b c.
Proof. apply (parses_bind m f [] b). Qed.

Lemma parses_last {A B} (m : stm R A) (f : A -> stm R B) b a c :
  parses m b a -> parses (f a) [] c -> parses (m ≫= f) b c.
Proof. intros Hm Hf. rewrite <- (app_nil_r b). by eapply parses_bind. Qed.

Lemma parses_lift {A} (o : outcome A) a : o = Ok a -> parses (lift o) [] a.
Proof. intros ->. apply parses_ret. Qed.

Lemma parses_exact n b : zlen b = n -> parses (read_exact n) b b.
Proof. intros <- k r rest Hr Hk Hc. by apply read_exact_ready. Qed.

Lemma parses_u8 x : parses read_u8 [x] x.
Proof. intros k r rest Hr Hk Hc. by apply read_u8_ready. Qed.

Lemma parses_u16 x : parses read_u16 (u16_bytes x) x.
Proof. intros k r rest Hr Hk Hc. by apply read_u16_ready. Qed.
End parses.

Lemma parses_header `{ReadLaws R} {Hd} `{TomlLaws Hd} flag slice_len (h : Hd) hs :
  to_vec h = Ok hs -> 0 < zlen hs <= slice_len -> slice_len < 2 ^ 16 -> zlen flag <= 20 ->
  parses (read_header flag slice_len) (header_bytes flag hs) (Some (h, zlen (header_bytes flag hs))).
Proof. intros ? ? ? ? k r rest Hr Hk Hc. by apply read_header_ready. Qed.

Create HintDb parses discriminated.
#[export] Hint Resolve parses_ret parses_u8 parses_u16 : parses.

(** ** Another protocol

    What does not begin like the flag is known for no pack after one read. *)
Section other.
Context `{ReadLaws R} {Hd : Type} `{Toml Hd}.

Lemma read_flag_other flag y fs fuel k r x rest :
  flag = y :: fs -> ready k r -> zlen flag <= k -> content r = x :: rest -> x <> y ->
  exists r' j, read_flag flag (S fuel) 0 [] r = (Ok false, r') /\ ready j r'.
Proof.
  intros -> Hr Hk Hc Hx. cbn [read_flag]. assert (0 < zlen (y :: fs)) by (unfold zlen; cbn; lia).
  destruct (Z.eqb_spec 0 (zlen (y :: fs))); [lia|].
  destruct (read_ready k (zlen (y :: fs) - 0) r Hr) as (d & r1 & E & Hr1 & Hcd & _ & He); [lia|].
  exists r1, (k - zlen d). split; [|done]. step by exact E. rewrite bool_decide_false; [done|].
  destruct d as [|z d]; [by rewrite He in Hc|]. rewrite Hc in Hcd. cbn in Hcd. injection Hcd as <- _.
  intros Ht. replace (Z.to_nat (0 + zlen (x :: d))) with (S (length d)) in Ht by (unfold zlen; cbn; lia). cbn in Ht. congruence.
Qed.

Lemma read_header_other flag slice_len y fs k r x rest :
  flag = y :: fs -> ready k r -> zlen flag <= k -> content r = x :: rest -> x <> y ->
  exists r' j, (read_header flag slice_len : stm R (option (Hd * Z))) r = (Ok None, r') /\ ready j r'.
Proof.
  intros Hf Hr Hk Hc Hx. destruct (read_flag_other flag y fs 20 k r x rest) as (r' & j & E & Hr'); [done..|].
  exists r', j. split; [|done]. unfold read_header. change flag_fuel with 21%nat. by step by exact E.
Qed.
End other.
