(* ===== verification/TunnelPack.v ===== *)
(** The wire protocol of the multiplexing tunnel,
    [any-tunnel2/src/protopack.rs]: packs, their framing, and the reader and
    writer of a connection. *)
From S2P Require Import Prelude RustStd Wire.
#[local] Open Scope string_scope.
#[local] Open Scope Z_scope.

Definition TUNNEL_MAX_HEADER_SIZE : Z := 4096.
Definition TUNNEL_FLAG : string := "${72tunnel_anyproxy}".
Definition TUNNEL_VERSION : string := "tunnel2.0.1.0".

Record TunnelHeader := mkTunnelHeader { header_type : Z; body_size : Z }.

Inductive TunnelHeaderType :=
  | HdrHello | HdrData | HdrDataAck | HdrClose | HdrHeartbeat | HdrHeartbeatAck
  | HdrAddConnect | HdrMaxConnect.

Record TunnelHello := mkHello { version : string; session_id : string }.
Record TunnelDataHeader := mkDataHeader { stream_id : Z; pack_id : Z; pack_size : Z }.
Record TunnelData := mkData { data_header : TunnelDataHeader; datas : list Z }.
Record TunnelDataAckHeader := mkAckHeader { ack_stream_id : Z; data_size : Z }.
Record TunnelDataAckData := mkAckData { pack_ids : list Z }.
Record TunnelDataAck := mkAck { ack_header : TunnelDataAckHeader; ack_data : TunnelDataAckData }.
Record TunnelClose := mkClose { close_stream_id : Z }.
Record TunnelHeartbeat := mkHeartbeat { hb_stream_id : Z; hb_time : Z }.
Record TunnelAddConnect := mkAddConnect { add_peer_stream_size : Z }.
Record TunnelMaxConnect := mkMaxConnect { max_peer_stream_size : Z }.

(** [TunnelPack], and [TunnelArcPack], which shares its contents. *)
Inductive TunnelPack :=
  | PHello (v : TunnelHello)
  | PData (v : TunnelData)
  | PDataAck (v : TunnelDataAck)
  | PClose (v : TunnelClose)
  | PHeartbeat (v : TunnelHeartbeat)
  | PHeartbeatAck (v : TunnelHeartbeat)
  | PAddConnect (v : TunnelAddConnect)
  | PMaxConnect (v : TunnelMaxConnect).

(** [typ as u8] and [FromPrimitive::from_u8] *)
Definition type_code (t : TunnelHeaderType) : Z :=
  match t with
  | HdrHello => 0 | HdrData => 1 | HdrDataAck => 2 | HdrClose => 3 | HdrHeartbeat => 4
  | HdrHeartbeatAck => 5 | HdrAddConnect => 6 | HdrMaxConnect => 7
  end.

Definition from_u8 (x : Z) : option TunnelHeaderType :=
  if x =? 0 then Some HdrHello else if x =? 1 then Some HdrData
  else if x =? 2 then Some HdrDataAck else if x =? 3 then Some HdrClose
  else if x =? 4 then Some HdrHeartbeat else if x =? 5 then Some HdrHeartbeatAck
  else if x =? 6 then Some HdrAddConnect else if x =? 7 then Some HdrMaxConnect
  else None.

(** ** Serialization

    The [toml] crate writes a value as bytes and reads it back. *)
Class TunnelToml := {
  toml_header :: Toml TunnelHeader;
  toml_hello :: Toml TunnelHello;
  toml_data_header :: Toml TunnelDataHeader;
  toml_ack_header :: Toml TunnelDataAckHeader;
  toml_ack_data :: Toml TunnelDataAckData;
  toml_close :: Toml TunnelClose;
  toml_heartbeat :: Toml TunnelHeartbeat;
  toml_add :: Toml TunnelAddConnect;
  toml_max :: Toml TunnelMaxConnect
}.

Class TunnelTomlLaws `{TunnelToml} : Prop := {
  laws_header :: TomlLaws TunnelHeader;
  laws_hello :: TomlLaws TunnelHello;
  laws_data_header :: TomlLaws TunnelDataHeader;
  laws_ack_header :: TomlLaws TunnelDataAckHeader;
  laws_ack_data :: TomlLaws TunnelDataAckData;
  laws_close :: TomlLaws TunnelClose;
  laws_heartbeat :: TomlLaws TunnelHeartbeat;
  laws_add :: TomlLaws TunnelAddConnect;
  laws_max :: TomlLaws TunnelMaxConnect
}.

Definition flag_bytes : list Z := as_bytes TUNNEL_FLAG.

Section pack.
Context `{TunnelToml}.

(** ** Writing

    The result is the bytes put on the connection. *)
Definition write_pack {T} `{Toml T} (typ : TunnelHeaderType) (value : T) : outcome (list Z) :=
  slice ← to_vec value;
  let header := mkTunnelHeader (type_code typ) (wrap16 (zlen slice)) in
  header_slice ← to_vec header;
  Ok (flag_bytes ++ u16_bytes (wrap16 (zlen header_slice)) ++ header_slice ++ slice)%list.

Definition write_tunnel_data (value : TunnelData) : outcome (list Z) :=
  b ← write_pack HdrData (data_header value);
  Ok (b ++ datas value)%list.

Definition write_tunnel_data_ack (value : TunnelDataAck) : outcome (list Z) :=
  data_slice ← to_vec (ack_data value);
  let header := mkAckHeader (ack_stream_id (ack_header value)) (wrap32 (zlen data_slice)) in
  b ← write_pack HdrDataAck header;
  Ok (b ++ data_slice)%list.

(** ** Reading *)

Context `{AsyncRead R}.

(** The value of a pack after its header. *)
Definition read_body (header_type : TunnelHeaderType) (body_slice : list Z) : stm R TunnelPack :=
  match header_type with
  | HdrHello => v ← lift (from_slice body_slice); mret (PHello v)
  | HdrData =>
      header ← lift (from_slice body_slice);
      datas ← read_exact (pack_size header);
      mret (PData (mkData header datas))
  | HdrDataAck =>
      header ← lift (from_slice body_slice);
      datas ← read_exact (data_size header);
      data ← lift (from_slice datas);
      mret (PDataAck (mkAck header data))
  | HdrClose => v ← lift (from_slice body_slice); mret (PClose v)
  | HdrHeartbeat => v ← lift (from_slice body_slice); mret (PHeartbeat v)
  | HdrHeartbeatAck => v ← lift (from_slice body_slice); mret (PHeartbeatAck v)
  | HdrAddConnect => v ← lift (from_slice body_slice); mret (PAddConnect v)
  | HdrMaxConnect => v ← lift (from_slice body_slice); mret (PMaxConnect v)
  end.

(** [slice_len] is the length of the caller's buffer. *)
Definition read_pack (slice_len : Z) (typ : option TunnelHeaderType) : stm R (option TunnelPack) :=
  header ← read_header flag_bytes slice_len;
  match header with
  | None => mret None
  | Some (header, _) =>
      header_typ ← lift (ok_or "err:TunnelHeaderType" (from_u8 (header_type header)));
      if match typ with Some t => negb (header_type header =? type_code t) | None => false end
      then mret None
      else if slice_len <? body_size header then fail "err:TunnelData body_size"
      else
        body_slice ← read_exact (body_size header);
        p ← read_body header_typ body_slice;
        mret (Some p)
  end.

Definition read_pack_all (slice_len : Z) : stm R TunnelPack :=
  p ← read_pack slice_len None;
  match p with
  | None => fail "err:pack.is_none"
  | Some p => mret p
  end.

Definition read_tunnel_hello : stm R TunnelHello :=
  p ← read_pack TUNNEL_MAX_HEADER_SIZE (Some HdrHello);
  match p with
  | Some (PHello v) => mret v
  | _ => fail "err:not tunnel_hello"
  end.

(** ** The connection of a peer, [any-tunnel2/src/peer_stream.rs] *)

(** What [write_stream] writes for a pack; a hello is only logged. *)
Definition write_any (p : TunnelPack) : outcome (list Z) :=
  match p with
  | PHello v => Ok []
  | PData v => write_tunnel_data v
  | PDataAck v => write_tunnel_data_ack v
  | PClose v => write_pack HdrClose v
  | PHeartbeat v => write_pack HdrHeartbeat v
  | PHeartbeatAck v => write_pack HdrHeartbeatAck v
  | PAddConnect v => write_pack HdrAddConnect v
  | PMaxConnect v => write_pack HdrMaxConnect v
  end.

(** [write_stream]: the bytes written for the packs received until the
    channel closes. *)
Fixpoint write_stream (packs : list TunnelPack) : outcome (list Z) :=
  match packs with
  | [] => Ok []
  | p :: packs => b ← write_any p; bs ← write_stream packs; Ok (b ++ bs)%list
  end.

(** The stream a pack read is handed to, with its contents; a hello is
    dropped. *)
Definition dispatch (p : TunnelPack) : option (Z * TunnelPack) :=
  match p with
  | PHello _ => None
  | PData v => Some (stream_id (data_header v), p)
  | PDataAck v => Some (ack_stream_id (ack_header v), p)
  | PClose v => Some (close_stream_id v, p)
  | PHeartbeat v => Some (hb_stream_id v, p)
  | PHeartbeatAck v => Some (hb_stream_id v, p)
  | PAddConnect v => Some (0, p)
  | PMaxConnect v => Some (0, p)
  end.

(** [n] turns of the loop of [read_stream]: what was sent on. *)
Fixpoint read_stream (n : nat) : stm R (list (Z * TunnelPack)) :=
  match n with
  | O => mret []
  | S n =>
      p ← read_pack_all TUNNEL_MAX_HEADER_SIZE;
      ps ← read_stream n;
      mret (match dispatch p with Some x => x :: ps | None => ps end)
  end.

(** Any reader is left as reads leave it. *)
Lemma keeps_pack2 (P : R -> R -> Prop) `{!PreOrder P} slice_len typ :
  (forall n, 0 <= n -> keeps P (poll_read n)) -> keeps P (read_pack slice_len typ).
Proof. intros HP. unfold read_pack, read_body. keep. Qed.
End pack.

(** ** Reading what was written *)

Section roundtrip.
Context `{TunnelTomlLaws} `{ReadLaws R}.

(** The serialized value fits the buffer of the reader. *)
Definition frame_fits {T} `{Toml T} (typ : TunnelHeaderType) (v : T) (slice hs : list Z) : Prop :=
  to_vec v = Ok slice /\ to_vec (mkTunnelHeader (type_code typ) (zlen slice)) = Ok hs /\
  zlen slice <= TUNNEL_MAX_HEADER_SIZE /\ 0 < zlen hs <= TUNNEL_MAX_HEADER_SIZE.

Lemma write_pack_frame {T} `{Toml T} typ (v : T) slice hs :
  frame_fits typ v slice hs -> write_pack typ v = Ok (header_bytes flag_bytes hs ++ slice)%list.
Proof.
  unfold frame_fits, TUNNEL_MAX_HEADER_SIZE. intros (Hs & Hh & Hls & Hlh). unfold write_pack. rewrite Hs.
  cbn [mbind outcome_bind]. pose proof (zlen_nonneg slice). unwrap. rewrite Hh.
  cbn [mbind outcome_bind]. unfold header_bytes. by rewrite <- !app_assoc.
Qed.

Lemma from_u8_code t : from_u8 (type_code t) = Some t.
Proof. by destruct t. Qed.

(** The reader's way through a frame. *)
Lemma read_pack_frame {T} `{Toml T} want typ (v : T) slice hs k r rest :
  frame_fits typ v slice hs -> (want = None \/ want = Some typ) ->
  ready k r -> zlen (header_bytes flag_bytes hs ++ slice) <= k ->
  content r = (header_bytes flag_bytes hs ++ slice ++ rest)%list ->
  exists r', content r' = rest /\ ready (k - zlen (header_bytes flag_bytes hs ++ slice)) r' /\
    read_pack TUNNEL_MAX_HEADER_SIZE want r = (p ← read_body typ slice; mret (Some p)) r'.
Proof.
  unfold frame_fits, TUNNEL_MAX_HEADER_SIZE. intros (Hs & Hh & Hls & Hlh) Hw Hr Hk Hc. unfold read_pack.
  rewrite zlen_app in *. pose proof (zlen_nonneg slice).
  destruct (read_header_ready flag_bytes 4096 _ hs k r (slice ++ rest) Hh) as (r3 & E3 & Hc3 & Hr3);
    [done|done|vm_compute; congruence|done|lia|done|].
  step by exact E3. cbn [header_type body_size]. rewrite from_u8_code. step.
  assert ((match want with Some t => negb (type_code typ =? type_code t) | None => false end) = false) as ->.
  { destruct Hw as [->| ->]; [done|]. by rewrite Z.eqb_refl. }
  zcases.
  destruct (read_exact_ready _ (zlen slice) r3 slice rest Hr3) as (r4 & E4 & Hc4 & Hr4); [done|lia|done|].
  step by exact E4. exists r4. split_and!; [done| |done].
  match goal with H : ready ?a r4 |- ready ?b r4 => by replace b with a by lia end.
Qed.

(** The pack a reader gets for [p]: an acknowledgement carries the size of
    its serialized list. *)
Definition as_read (p q : TunnelPack) : Prop :=
  match p with
  | PDataAck v => exists s, to_vec (ack_data v) = Ok s /\
      q = PDataAck (mkAck (mkAckHeader (ack_stream_id (ack_header v)) (zlen s)) (ack_data v))
  | _ => q = p
  end.

(** What the peer may write: the frames fit, and a data pack announces its
    size. *)
Definition pack_fits (p : TunnelPack) : Prop :=
  match p with
  | PHello v => False
  | PData v => pack_size (data_header v) = zlen (datas v) /\
               exists s h, frame_fits HdrData (data_header v) s h
  | PDataAck v => exists d s h, to_vec (ack_data v) = Ok d /\ zlen d < 2 ^ 32 /\
      frame_fits HdrDataAck (mkAckHeader (ack_stream_id (ack_header v)) (zlen d)) s h
  | PClose v => exists s h, frame_fits HdrClose v s h
  | PHeartbeat v => exists s h, frame_fits HdrHeartbeat v s h
  | PHeartbeatAck v => exists s h, frame_fits HdrHeartbeatAck v s h
  | PAddConnect v => exists s h, frame_fits HdrAddConnect v s h
  | PMaxConnect v => exists s h, frame_fits HdrMaxConnect v s h
  end.

(** What a reader gets from the bytes of [p], when it is sure of them. *)
Definition reads_back (p : TunnelPack) (b : list Z) : Prop :=
  forall k r rest, ready k r -> zlen b <= k -> content r = (b ++ rest)%list ->
  exists q r', read_pack_all TUNNEL_MAX_HEADER_SIZE r = (Ok q, r') /\ as_read p q /\
               content r' = rest /\ ready (k - zlen b) r'.

Lemma simple_roundtrip {T} `{TomlLaws T} typ (v : T) s h (mk : T -> TunnelPack) (k : Z) r rest :
  frame_fits typ v s h -> read_body (R := R) typ s = (v ← lift (from_slice s); mret (mk v)) ->
  exists b, write_pack typ v = Ok b /\
  (ready k r -> zlen b <= k -> content r = (b ++ rest)%list ->
   exists r', read_pack_all TUNNEL_MAX_HEADER_SIZE r = (Ok (mk v), r') /\ content r' = rest /\ ready (k - zlen b) r').
Proof.
  intros Hf Hb. eexists. split; [by apply write_pack_frame|]. intros Hr Hk Hc. rewrite <- !app_assoc in Hc.
  destruct (read_pack_frame None typ v s h k r rest Hf) as (r' & Hc' & Hr' & E); [by left|done..|].
  exists r'. split_and!; [|done..]. unfold read_pack_all. step by (rewrite E, Hb; step by (step by (unfold lift; by rewrite (from_slice_to_vec v s) by apply Hf); reflexivity); reflexivity).
  done.
Qed.

(** A pack written is the pack read, however the bytes are cut into chunks. *)
Lemma pack_roundtrip p : pack_fits p -> exists b, write_any p = Ok b /\ reads_back p b.
Proof.
  unfold reads_back. intros Hp.
  assert (forall T (HT : Toml T) (HL : TomlLaws T) typ (v : T) s h (mk : T -> TunnelPack),
    frame_fits typ v s h -> read_body (R := R) typ s = (v ← lift (from_slice s); mret (mk v)) -> as_read (mk v) (mk v) ->
    exists b, write_pack typ v = Ok b /\ reads_back (mk v) b) as Hsimple.
  { intros T HT HL typ v s h mk Hf Hb Has. eexists. split; [by apply write_pack_frame|]. intros k r rest Hr Hk Hc.
    destruct (simple_roundtrip typ v s h mk k r rest Hf Hb) as (b' & Eb & Hx).
    rewrite (write_pack_frame _ _ _ _ Hf) in Eb. injection Eb as <-. destruct (Hx Hr Hk Hc) as (r' & ? & ? & ?). by exists (mk v), r'. }
  destruct p as [v|v|v|v|v|v|v|v]; cbn [pack_fits write_any] in *; [done|..].
  - destruct Hp as (Hsz & s & h & Hf). unfold write_tunnel_data. rewrite (write_pack_frame _ _ _ _ Hf).
    cbn [mbind outcome_bind]. eexists. split; [done|]. intros k r rest Hr Hk Hc. rewrite <- !app_assoc in Hc.
    rewrite zlen_app in Hk. pose proof (zlen_nonneg (datas v)).
    destruct (read_pack_frame None _ _ _ _ k r (datas v ++ rest) Hf) as (r1 & Hc1 & Hr1 & E); [by left|done|lia|done|].
    destruct (read_exact_ready _ (zlen (datas v)) r1 (datas v) rest Hr1) as (r2 & E2 & Hc2 & Hr2); [done|lia|done|].
    exists (PData v), r2. split_and!; [|done|done|].
    + unfold read_pack_all. step by (rewrite E; cbn [read_body]; step by (step by (unfold lift; by rewrite (from_slice_to_vec _ s) by apply Hf);
        rewrite Hsz; step by exact E2; reflexivity); reflexivity). by destruct v.
    + by rewrite zlen_app, Z.sub_add_distr.
  - destruct Hp as (d & s & h & Hd & Hdl & Hf). unfold write_tunnel_data_ack. rewrite Hd.
    cbn [mbind outcome_bind]. pose proof (zlen_nonneg d). unwrap.
    rewrite (write_pack_frame _ _ _ _ Hf). cbn [mbind outcome_bind]. eexists. split; [done|].
    intros k r rest Hr Hk Hc. rewrite <- !app_assoc in Hc. rewrite zlen_app in Hk.
    destruct (read_pack_frame None _ _ _ _ k r (d ++ rest) Hf) as (r1 & Hc1 & Hr1 & E); [by left|done|lia|done|].
    destruct (read_exact_ready _ (zlen d) r1 d rest Hr1) as (r2 & E2 & Hc2 & Hr2); [done|lia|done|].
    exists (PDataAck (mkAck (mkAckHeader (ack_stream_id (ack_header v)) (zlen d)) (ack_data v))), r2. split_and!; [|by exists d|done|].
    + unfold read_pack_all. step by (rewrite E; cbn [read_body]; step by (step by (unfold lift; by rewrite (from_slice_to_vec _ s) by apply Hf);
        cbn [data_size]; step by exact E2; step by (unfold lift; by rewrite (from_slice_to_vec _ _ Hd)); reflexivity); reflexivity). done.
    + by rewrite zlen_app, Z.sub_add_distr.
  - destruct Hp as (s & h & Hf). by eapply (Hsimple _ _ _ HdrClose v s h PClose Hf).
  - destruct Hp as (s & h & Hf). by eapply (Hsimple _ _ _ HdrHeartbeat v s h PHeartbeat Hf).
  - destruct Hp as (s & h & Hf). by eapply (Hsimple _ _ _ HdrHeartbeatAck v s h PHeartbeatAck Hf).
  - destruct Hp as (s & h & Hf). by eapply (Hsimple _ _ _ HdrAddConnect v s h PAddConnect Hf).
  - destruct Hp as (s & h & Hf). by eapply (Hsimple _ _ _ HdrMaxConnect v s h PMaxConnect Hf).
Qed.

(** C19. A connection carries packs faithfully: whatever packs one peer
    writes, and however the network cuts the bytes into chunks and delays
    them, the other peer hands on exactly those packs, in order, each to its
    stream, and stops reading right after the last byte of the last pack. *)
Theorem stream_roundtrip packs :
  Forall pack_fits packs ->
  exists b, write_stream packs = Ok b /\
    forall k r rest, ready k r -> zlen b <= k -> content r = (b ++ rest)%list ->
    exists qs r', read_stream (length packs) r = (Ok (omap dispatch qs), r') /\
      Forall2 as_read packs qs /\ content r' = rest /\ ready (k - zlen b) r'.
Proof.
  induction 1 as [|p packs Hp Hps IH]; cbn [write_stream read_stream length].
  { exists []. split; [done|]. intros k r rest Hr Hk Hc. exists [], r. split_and!; [done..|]. by replace (k - _) with k by (unfold zlen; cbn; lia). }
  destruct (pack_roundtrip p Hp) as (b & -> & Hrd). destruct IH as (bs & -> & IH). cbn [mbind outcome_bind].
  eexists. split; [done|]. intros k r rest Hr Hk Hc. rewrite <- app_assoc in Hc. rewrite zlen_app in Hk. pose proof (zlen_nonneg bs).
  destruct (Hrd k r (bs ++ rest)%list Hr) as (q & r1 & E & Hq & Hc1 & Hr1); [lia|done|].
  destruct (IH (k - zlen b) r1 rest Hr1) as (qs & r2 & E2 & Hqs & Hc2 & Hr2); [lia|done|].
  exists (q :: qs), r2. split_and!; [|by constructor|done|].
  - step by exact E. step by exact E2. cbn [omap list_omap]. by destruct (dispatch q).
  - by rewrite zlen_app, Z.sub_add_distr.
Qed.

End roundtrip.

(** A peer that closes the connection between two packs is not noticed:
    the loop that waits for the flag reads no byte, sees no difference, and
    turns for ever. *)
Theorem read_flag_spins_at_end fuel : read_flag flag_bytes fuel 0 [] ([] : Conn) = (Fuel, []).
Proof. induction fuel as [|fuel IH]; [done|]. exact IH. Qed.

(** ** A concrete serialization *)

#[export] Instance TunnelHeader_dec : EqDecision TunnelHeader.
Proof. solve_decision. Defined.
#[export] Instance TunnelHello_dec : EqDecision TunnelHello.
Proof. solve_decision. Defined.
#[export] Instance TunnelDataHeader_dec : EqDecision TunnelDataHeader.
Proof. solve_decision. Defined.
#[export] Instance TunnelDataAckHeader_dec : EqDecision TunnelDataAckHeader.
Proof. solve_decision. Defined.
#[export] Instance TunnelDataAckData_dec : EqDecision TunnelDataAckData.
Proof. solve_decision. Defined.
#[export] Instance TunnelClose_dec : EqDecision TunnelClose.
Proof. solve_decision. Defined.
#[export] Instance TunnelHeartbeat_dec : EqDecision TunnelHeartbeat.
Proof. solve_decision. Defined.
#[export] Instance TunnelAddConnect_dec : EqDecision TunnelAddConnect.
Proof. solve_decision. Defined.
#[export] Instance TunnelMaxConnect_dec : EqDecision TunnelMaxConnect.
Proof. solve_decision. Defined.
#[export] Instance TunnelData_dec : EqDecision TunnelData.
Proof. solve_decision. Defined.
#[export] Instance TunnelDataAck_dec : EqDecision TunnelDataAck.
Proof. solve_decision. Defined.
#[export] Instance TunnelPack_dec : EqDecision TunnelPack.
Proof. solve_decision. Defined.

#[local] Instance TunnelHeader_cnt : Countable TunnelHeader.
Proof. by apply (inj_countable' (fun h => (header_type h, body_size h)) (fun p => mkTunnelHeader p.1 p.2)); intros []. Defined.
#[local] Instance TunnelHello_cnt : Countable TunnelHello.
Proof. by apply (inj_countable' (fun h => (version h, session_id h)) (fun p => mkHello p.1 p.2)); intros []. Defined.
#[local] Instance TunnelDataHeader_cnt : Countable TunnelDataHeader.
Proof. by apply (inj_countable' (fun h => (stream_id h, pack_id h, pack_size h)) (fun p => mkDataHeader p.1.1 p.1.2 p.2)); intros []. Defined.
#[local] Instance TunnelDataAckHeader_cnt : Countable TunnelDataAckHeader.
Proof. by apply (inj_countable' (fun h => (ack_stream_id h, data_size h)) (fun p => mkAckHeader p.1 p.2)); intros []. Defined.
#[local] Instance TunnelDataAckData_cnt : Countable TunnelDataAckData.
Proof. by apply (inj_countable' pack_ids mkAckData); intros []. Defined.
#[local] Instance TunnelClose_cnt : Countable TunnelClose.
Proof. by apply (inj_countable' close_stream_id mkClose); intros []. Defined.
#[local] Instance TunnelHeartbeat_cnt : Countable TunnelHeartbeat.
Proof. by apply (inj_countable' (fun h => (hb_stream_id h, hb_time h)) (fun p => mkHeartbeat p.1 p.2)); intros []. Defined.
#[local] Instance TunnelAddConnect_cnt : Countable TunnelAddConnect.
Proof. by apply (inj_countable' add_peer_stream_size mkAddConnect); intros []. Defined.
#[local] Instance TunnelMaxConnect_cnt : Countable TunnelMaxConnect.
Proof. by apply (inj_countable' max_peer_stream_size mkMaxConnect); intros []. Defined.

Definition code_tunnel_toml : TunnelToml := {|
  toml_header := code_toml _; toml_hello := code_toml _; toml_data_header := code_toml _;
  toml_ack_header := code_toml _; toml_ack_data := code_toml _; toml_close := code_toml _;
  toml_heartbeat := code_toml _; toml_add := code_toml _; toml_max := code_toml _
|}.

Lemma code_tunnel_laws : @TunnelTomlLaws code_tunnel_toml.
Proof. split; apply code_toml_laws. Qed.

Definition demo_packs : list TunnelPack :=
  [PData (mkData (mkDataHeader 3 1 4) [10; 20; 30; 40]); PClose (mkClose 3)].

Lemma stream_roundtrip_witness :
  let _ := code_tunnel_toml in
  exists b, write_stream demo_packs = Ok b /\
    exists qs r', read_stream 2 (drips b) = (Ok qs, r') /\ conn_content r' = [] /\ length qs = 2%nat.
Proof.
  intros toml.
  destruct (@stream_roundtrip code_tunnel_toml code_tunnel_laws Conn conn_read conn_laws demo_packs) as (b & Hb & Hr).
  { repeat constructor; try (eexists _, _); repeat split; vm_compute; try reflexivity; discriminate. }
  exists b. split; [exact Hb|].
  destruct (Hr (zlen b) (drips b) []) as (qs & r' & E & Hq & Hc & _).
  { apply drips_live. }
  { lia. }
  { rewrite app_nil_r. apply drips_live. }
  exists (omap dispatch qs), r'. split; [exact E|]. split; [done|].
  apply Forall2_cons_inv_l in Hq as (q1 & qs1 & H1 & Hq & ->).
  apply Forall2_cons_inv_l in Hq as (q2 & qs2 & H2 & Hq & ->).
  apply Forall2_nil_inv_l in Hq as ->. cbn in H1, H2. by subst.
Defined.
