(* ===== verification/StreamPack.v ===== *)
(** A stream of the multiplexing tunnel, [any-tunnel2/src/stream_pack.rs]:
    numbering, reordering and acknowledging of data packs, the send window,
    retransmission and heartbeats. *)
From S2P Require Import Prelude TunnelPack.
#[local] Open Scope string_scope.
#[local] Open Scope Z_scope.

(** [any-tunnel2/src/lib.rs] *)
Definition DEFAULT_MERGE_ACK_SIZE : Z := 128.
Definition DEFAULT_WINDOW_LEN : Z := 1024 * 1024.
Definition DEFAULT_HEADBEAT_TIMEOUT : Z := 1000 * 2.
Definition DEFAULT_CLOSE_TIMEOUT : Z := 1000 * 10.

Record WaitingPackInfo := mkWaiting {
  insert_timestamp : Z;
  first_send_timestamp : Z;
  wait_pack_id : Z
}.

(** [StreamPack], with the [SendWindowWait] in it: [window] is
    [curr_send_pack_len], [window_pack_id] its [curr_pack_id].  [tx] is what
    was put on [stream_pack_to_peer_stream_tx] so far, and [tx_open] tells
    whether its receiver is alive. *)
Record StreamPack := mkStream {
  sp_stream_id : Z;
  tx : list TunnelPack;
  tx_open : bool;
  waiting_pack_map : gmap Z (TunnelPack * Z);
  waiting_pack_infos : list WaitingPackInfo;
  window : Z;
  window_pack_id : Z;
  curr_timestamp : Z;
  rtt_timestamp : Z;
  ack_resp_timestamp : Z;
  is_close : bool
}.

Definition eta_stream (s : StreamPack) : StreamPack :=
  mkStream (sp_stream_id s) (tx s) (tx_open s) (waiting_pack_map s) (waiting_pack_infos s)
    (window s) (window_pack_id s) (curr_timestamp s) (rtt_timestamp s) (ack_resp_timestamp s)
    (is_close s).

Definition set_tx : list TunnelPack -> StreamPack -> StreamPack := ltac:(setter eta_stream tx).
Definition set_map : gmap Z (TunnelPack * Z) -> StreamPack -> StreamPack :=
  ltac:(setter eta_stream waiting_pack_map).
Definition set_infos : list WaitingPackInfo -> StreamPack -> StreamPack :=
  ltac:(setter eta_stream waiting_pack_infos).
Definition set_window : Z -> StreamPack -> StreamPack := ltac:(setter eta_stream window).
Definition set_window_pack_id : Z -> StreamPack -> StreamPack :=
  ltac:(setter eta_stream window_pack_id).
Definition set_now : Z -> StreamPack -> StreamPack := ltac:(setter eta_stream curr_timestamp).
Definition set_rtt : Z -> StreamPack -> StreamPack := ltac:(setter eta_stream rtt_timestamp).
Definition set_ack_resp : Z -> StreamPack -> StreamPack :=
  ltac:(setter eta_stream ack_resp_timestamp).
Definition set_close : bool -> StreamPack -> StreamPack := ltac:(setter eta_stream is_close).

(** [StreamPack::new] at time [now]. *)
Definition stream_new (id now : Z) : StreamPack :=
  mkStream id [] true ∅ [] 0 0 now 50 now false.

(** ** Sending *)

(** [stream_pack_to_peer_stream_tx.send] *)
Definition send_tx (p : TunnelPack) : stm StreamPack unit := fun s =>
  if tx_open s then (Ok tt, set_tx (tx s ++ [p])%list s) else (Err "send", s).

(** [SendWindowWait::add_window_size] and [waker] *)
Definition add_window_size (n id : Z) (s : StreamPack) : StreamPack :=
  set_window (wrap64 (window s + n)) (set_window_pack_id id s).
Definition waker (n : Z) (s : StreamPack) : StreamPack := set_window (wrap64 (window s - n)) s.

(** [SendWindowWait::poll] is ready. *)
Definition window_ready (s : StreamPack) : bool := negb (DEFAULT_WINDOW_LEN <=? window s).

Definition send_tunnel_data_ack (ids : list Z) : stm StreamPack unit := fun s =>
  let ack := mkAck (mkAckHeader (sp_stream_id s) 0) (mkAckData ids) in
  (Ok tt, (send_tx (PDataAck ack) s).2).

Definition send_heartbeat : stm StreamPack unit := fun s =>
  send_tx (PHeartbeat (mkHeartbeat (sp_stream_id s) (curr_timestamp s))) s.

Definition send_heartbeat_ack (v : TunnelHeartbeat) : stm StreamPack unit :=
  send_tx (PHeartbeatAck (mkHeartbeat (hb_stream_id v) (hb_time v))).

Definition send_pack_close : stm StreamPack unit := fun s =>
  send_tx (PClose (mkClose (sp_stream_id s))) s.

(** A pack is remembered until it is acknowledged, and sent. *)
Definition stream_pack_to_peer_client (id : Z) (p : TunnelPack) (first : Z) : stm StreamPack unit :=
  fun s =>
  let now := curr_timestamp s in
  let first := if 0 <? first then first else now in
  let s := set_infos (waiting_pack_infos s ++ [mkWaiting now first id])%list s in
  let s := set_map (<[id := (p, first)]> (waiting_pack_map s)) s in
  send_tx p s.

(** One turn of [stream_to_stream_pack] on the bytes [data] of the local
    stream; [id] is its local [pack_id].  It starts when [window_ready]. *)
Definition stream_to_stream_pack (data : list Z) (id : Z) : stm StreamPack Z := fun s =>
  let s := add_window_size (zlen data) id s in
  let id := wrap32 (id + 1) in
  let header := mkDataHeader (sp_stream_id s) id (wrap32 (zlen data)) in
  match stream_pack_to_peer_client id (PData (mkData header data)) 0 s with
  | (Ok _, s) => (Ok id, s)
  | (Err e, s) => (Err e, s)
  | (Panic, s) => (Panic, s)
  | (Fuel, s) => (Fuel, s)
  end.

(** ** Retransmission *)

(** How long a pack may wait, by the round trip time as it is read before the
    sleep of [check_waiting_pack_timeout]. *)
Definition timeout_millis (rtt : Z) : Z := (if rtt <=? 1000 then 1000 else rtt) * 3.

(** The inner loop of [check_waiting_pack_timeout] at time [now]. *)
Fixpoint resend_loop (fuel : nat) (now limit : Z) : stm StreamPack unit := fun s =>
  match fuel with
  | O => (Fuel, s)
  | S fuel =>
      match waiting_pack_infos s with
      | [] => (Ok tt, s)
      | info :: infos =>
          if limit <? now - insert_timestamp info then
            let s := set_infos infos s in
            match waiting_pack_map s !! wait_pack_id info with
            | None => resend_loop fuel now limit s
            | Some (p, first) =>
                let s := set_map (delete (wait_pack_id info) (waiting_pack_map s)) s in
                match stream_pack_to_peer_client (wait_pack_id info) p first s with
                | (Ok _, s) => resend_loop fuel now limit s
                | (o, s) => (o, s)
                end
            end
          else (Ok tt, s)
      end
  end.

(** A turn of [check_waiting_pack_timeout] after its sleep; [rtt] was read before
    it, and may have changed since. *)
Definition check_waiting_pack_timeout (rtt : Z) : stm StreamPack unit := fun s =>
  if is_close s then (Ok tt, s)
  else resend_loop (S (length (waiting_pack_infos s))) (curr_timestamp s) (timeout_millis rtt) s.

(** A turn of [heartbeat]: the result tells whether the stream gives up. *)
Definition heartbeat : stm StreamPack bool := fun s =>
  let diff := curr_timestamp s - ack_resp_timestamp s in
  if DEFAULT_CLOSE_TIMEOUT <=? diff then (Ok true, s)
  else if diff <? DEFAULT_HEADBEAT_TIMEOUT then (Ok false, s)
  else match send_heartbeat s with
  | (Ok _, s) => (Ok false, s)
  | (Err e, s) => (Err e, s)
  | (Panic, s) => (Panic, s)
  | (Fuel, s) => (Fuel, s)
  end.

(** ** Receiving *)

(** The locals of [peer_client_to_stream_pack], and its channel to the local
    stream: what was put on it, and whether the stream has closed it. *)
Record Recv := mkRecv {
  next_id : Z;
  send_pack_id_map : gset Z;
  recv_pack_cache_map : gmap Z TunnelData;
  delivered : list TunnelData;
  stream_closed : bool
}.

Definition recv_new : Recv := mkRecv 1 ∅ ∅ [] false.

(** What a turn waits for: a pack, a second without one, or the end of the
    channel. *)
Inductive RecvEvent := Got (p : TunnelPack) | TimedOut | ChannelClosed.

(** The packs an acknowledgement names are forgotten and their room in the
    window given back; the result is the time the first of them was sent. *)
Fixpoint ack_loop (ids : list Z) (first : Z) (s : StreamPack) : Z * StreamPack :=
  match ids with
  | [] => (first, s)
  | id :: ids =>
      match waiting_pack_map s !! id with
      | None => ack_loop ids first s
      | Some (p, t) =>
          let s := set_map (delete id (waiting_pack_map s)) s in
          let s := match p with PData v => waker (zlen (datas v)) s | _ => s end in
          ack_loop ids (if first =? 0 then t else first) s
      end
  end.

Definition on_ack (v : TunnelDataAck) (s : StreamPack) : StreamPack :=
  let (first, s) := ack_loop (pack_ids (ack_data v)) 0 s in
  if 0 <? first
  then set_ack_resp (curr_timestamp s) (set_rtt (curr_timestamp s - first) s)
  else s.

(** The first half of a turn: the data pack to hand on, if it is the one
    awaited, and the identifiers to acknowledge at once. *)
Definition receive (ev : RecvEvent) : stm (StreamPack * Recv) (option TunnelData * list Z) :=
  fun '(s, r) =>
  match ev with
  | TimedOut => (Ok (None, []), (s, r))
  | ChannelClosed => (Err "err:peer_client_to_stream_pack_rx close", (s, r))
  | Got (PHello _) => (Err "err:TunnelHello", (s, r))
  | Got (PAddConnect _) => (Err "err:TunnelAddConnect", (s, r))
  | Got (PMaxConnect _) => (Err "err:TunnelMaxConnect", (s, r))
  | Got (PData d) =>
      let id := pack_id (data_header d) in
      if negb (stream_id (data_header d) =? sp_stream_id s)
      then (Err "err:value.header.stream_id != self.stream_id", (s, r))
      else if decide (id ∈ send_pack_id_map r) then (Ok (None, [id]), (s, r))
      else if id =? next_id r then (Ok (Some d, []), (s, r))
      else (Ok (None, []),
            (s, mkRecv (next_id r) (send_pack_id_map r) (<[id := d]> (recv_pack_cache_map r))
                  (delivered r) (stream_closed r)))
  | Got (PDataAck v) =>
      if negb (ack_stream_id (ack_header v) =? sp_stream_id s)
      then (Err "err:stream_id != self.stream_id", (s, r))
      else (Ok (None, []), (on_ack v s, r))
  | Got (PClose v) =>
      (Err (if negb (close_stream_id v =? sp_stream_id s)
            then "err:TunnelClose.stream_id != self.stream_id" else "err:TunnelClose"), (s, r))
  | Got (PHeartbeat v) =>
      if negb (hb_stream_id v =? sp_stream_id s)
      then (Err "err:TunnelClose.stream_id != self.stream_id", (s, r))
      else match send_heartbeat_ack v s with
      | (Ok _, s) => (Ok (None, []), (s, r))
      | (Err e, s) => (Err e, (s, r))
      | (Panic, s) => (Panic, (s, r))
      | (Fuel, s) => (Fuel, (s, r))
      end
  | Got (PHeartbeatAck v) =>
      if negb (hb_stream_id v =? sp_stream_id s)
      then (Err "err:TunnelClose.stream_id != self.stream_id", (s, r))
      else (Ok (None, []), (set_ack_resp (curr_timestamp s) s, r))
  end.

(** How the local stream takes a pack: at once, after a wait, after a wait
    during which it closed, or not at all because it was closed; a closed
    channel stays closed. *)
Inductive TrySend := Sent | Full (taken : bool) | Closed.

(** Acknowledge when enough identifiers have gathered. *)
Definition flush_acks (ids : list Z) (merge : Z) (s : StreamPack) : list Z * StreamPack :=
  if merge <=? zlen ids then ([], (send_tunnel_data_ack ids s).2) else (ids, s).

(** The second half of a turn: packs are handed on in order as long as the
    next one is there.  Each round takes the outcome of [try_send] and
    whether [is_write_break] was raised meanwhile from [env]; without an
    entry the stream takes the pack and the flag is down. *)
Fixpoint deliver (fuel : nat) (env : list (TrySend * bool)) (d : option TunnelData)
    (ids : list Z) (merge : Z) : stm (StreamPack * Recv) (list Z) := fun '(s, r) =>
  match fuel with
  | O => (Fuel, (s, r))
  | S fuel =>
      let next := match d with
                  | Some d => Some (d, recv_pack_cache_map r)
                  | None => d ← recv_pack_cache_map r !! next_id r;
                            Some (d, delete (next_id r) (recv_pack_cache_map r))
                  end in
      match next with
      | None => (Ok ids, (s, r))
      | Some (d, cache) =>
          let id := pack_id (data_header d) in
          let r := mkRecv (wrap32 (next_id r + 1)) ({[id]} ∪ send_pack_id_map r) cache
                     (delivered r) (stream_closed r) in
          let taken := mkRecv (next_id r) (send_pack_id_map r) cache (delivered r ++ [d])%list false in
          let closed := mkRecv (next_id r) (send_pack_id_map r) cache (delivered r) true in
          let (ids, s) := flush_acks (ids ++ [id])%list merge s in
          let (res, brk) := default (Sent, false) (head env) in
          let res := if stream_closed r then Closed else res in
          match res with
          | Sent =>
              if brk then (Ok ids, (s, taken))
              else deliver fuel (tail env) None ids DEFAULT_MERGE_ACK_SIZE (s, taken)
          | Full ok =>
              let (ids, s) := flush_acks ids 1 s in
              if negb ok then (Ok ids, (s, closed))
              else if brk then (Ok ids, (s, taken))
              else deliver fuel (tail env) None ids 1 (s, taken)
          | Closed => (Ok ids, (s, closed))
          end
      end
  end.

(** A pack per entry of the cache, the one just received, and a look that
    finds nothing. *)
Definition deliver_fuel (r : Recv) : nat := size (recv_pack_cache_map r) + 3.

(** One turn of [peer_client_to_stream_pack]: an error closes the stream, and
    a closed stream only sleeps. *)
Definition turn (ev : RecvEvent) (env : list (TrySend * bool)) (s : StreamPack) (r : Recv)
    : StreamPack * Recv :=
  if is_close s then (s, r)
  else
    match
      ('(d, ids) ← receive ev;
       ids ← (fun '(s, r) => deliver (deliver_fuel r) env d ids DEFAULT_MERGE_ACK_SIZE (s, r));
       if decide (ids = []) then done_ else on_fst (send_tunnel_data_ack ids)) (s, r)
    with
    | (Ok _, sr) => sr
    | (_, (s, r)) => (set_close true s, r)
    end.
