(* ===== verification/StreamOrder.v ===== *)
(** Ordered, exactly-once delivery over a network that loses, repeats and
    reorders packs: the receiving half of [StreamPack]. *)
From S2P Require Import Prelude TunnelPack StreamPack.
#[local] Open Scope Z_scope.

(** ** Data packs of a stream

    [written] is what the sending application gave to the stream, piece by
    piece; piece [i] travels as pack [i + 1]. *)
Definition genuine (written : list (list Z)) (v : TunnelData) : Prop :=
  1 <= pack_id (data_header v) /\
  written !! Z.to_nat (pack_id (data_header v) - 1) = Some (datas v).

Lemma genuine_app written more v : genuine written v -> genuine (written ++ more) v.
Proof. intros [H1 H2]. split; [done|]. by apply lookup_app_l_Some. Qed.

Lemma genuine_range written v :
  genuine written v -> 1 <= pack_id (data_header v) <= zlen written.
Proof. intros [H1 H2]. apply lookup_lt_Some in H2. unfold zlen. lia. Qed.

(** What the receiver has handed on is the beginning of what was written. *)
Record recv_inv (written : list (list Z)) (r : Recv) : Prop := {
  ri_prefix : datas <$> delivered r = take (length (delivered r)) written;
  ri_len : (length (delivered r) <= length written)%nat;
  ri_next : stream_closed r = false -> next_id r = 1 + zlen (delivered r);
  ri_cache : forall i v, recv_pack_cache_map r !! i = Some v ->
             pack_id (data_header v) = i /\ genuine written v;
  ri_sent : stream_closed r = false -> forall i, i ∈ send_pack_id_map r -> i < next_id r
}.

Lemma recv_inv_new written : recv_inv written recv_new.
Proof. split; cbn; try done; lia. Qed.

Lemma recv_inv_app written more r : recv_inv written r -> recv_inv (written ++ more) r.
Proof.
  intros [H1 H2 H3 H4 H5]. split; try done.
  - by rewrite take_app_le.
  - rewrite length_app. lia.
  - intros i v Hv. destruct (H4 i v Hv). split; [done|by apply genuine_app].
Qed.

(** What a turn does to the sending side: it adds no data pack and forgets
    only packs it waited for. *)
Record quiet (s s' : StreamPack) : Prop := {
  qu_tx : forall v, PData v ∈ tx s' -> PData v ∈ tx s;
  qu_map : waiting_pack_map s' ⊆ waiting_pack_map s;
  qu_id : sp_stream_id s' = sp_stream_id s
}.

#[export] Instance quiet_refl : Reflexive quiet.
Proof. by split. Qed.

#[export] Instance quiet_trans : Transitive quiet.
Proof.
  intros a b c [] []. split; [by auto|by etransitivity|congruence].
Qed.

Lemma send_tx_quiet p s :
  (forall v, p <> PData v) -> quiet s (send_tx p s).2.
Proof.
  intros Hp. unfold send_tx. destruct (tx_open s); [|done]. split; try done.
  cbn. intros v [Hv|Hv]%elem_of_app; [done|]. apply list_elem_of_singleton in Hv. by destruct (Hp v).
Qed.

Lemma send_ack_quiet ids s : quiet s (send_tunnel_data_ack ids s).2.
Proof. apply send_tx_quiet. done. Qed.

Lemma flush_acks_quiet ids m s ids' s' : flush_acks ids m s = (ids', s') -> quiet s s'.
Proof.
  unfold flush_acks. case_match; intros E; injection E as <- <-; [apply send_ack_quiet|done].
Qed.

Lemma ack_loop_quiet ids first s t s' : ack_loop ids first s = (t, s') -> quiet s s'.
Proof.
  revert first s. induction ids as [|id ids IH]; intros first s; cbn [ack_loop].
  { intros E. by injection E as <- <-. }
  destruct (waiting_pack_map s !! id) as [[p u]|]; [|apply IH].
  intros E%IH. etransitivity; [|exact E]. destruct p; split; cbn; try done; apply delete_subseteq.
Qed.

Lemma on_ack_quiet v s : quiet s (on_ack v s).
Proof.
  unfold on_ack. destruct (ack_loop _ 0 s) as [t s'] eqn:E. apply ack_loop_quiet in E.
  case_match; [|done]. etransitivity; [exact E|]. by split.
Qed.

(** ** The receiver keeps its invariant *)

Lemma recv_step_inv written r v cache :
  recv_inv written r -> genuine written v -> pack_id (data_header v) = next_id r ->
  zlen written < 2 ^ 32 - 1 -> stream_closed r = false ->
  (forall i u, cache !! i = Some u -> recv_pack_cache_map r !! i = Some u) ->
  recv_inv written
    (mkRecv (wrap32 (next_id r + 1)) ({[pack_id (data_header v)]} ∪ send_pack_id_map r) cache
       (delivered r ++ [v]) false).
Proof.
  intros [H1 H2 H3 H4 H5] Hg Hid Hlt Hc Hcache. specialize (H3 Hc). specialize (H5 Hc).
  pose proof (genuine_range _ _ Hg) as Hr. destruct Hg as [_ Hg].
  rewrite Hid, H3 in *. unfold zlen in *.
  replace (Z.to_nat (1 + Z.of_nat (length (delivered r)) - 1)) with (length (delivered r)) in Hg by lia.
  apply lookup_lt_Some in Hg as Hl. unwrap. split; cbn.
  - rewrite length_app. cbn. rewrite Nat.add_1_r, (take_S_r _ _ _ Hg), fmap_app. by rewrite H1.
  - rewrite length_app. cbn. lia.
  - intros _. unfold zlen. rewrite length_app. cbn. lia.
  - intros i u Hu. by apply H4, Hcache.
  - intros _ i [->%elem_of_singleton|Hi]%elem_of_union; [lia|]. specialize (H5 i Hi). lia.
Qed.

Lemma recv_close_inv written r n sent cache :
  recv_inv written r -> (forall i u, cache !! i = Some u -> recv_pack_cache_map r !! i = Some u) ->
  recv_inv written (mkRecv n sent cache (delivered r) true).
Proof. intros [H1 H2 H3 H4 H5] Hc. split; cbn; try done. intros i u Hu. by apply H4, Hc. Qed.

(** What [deliver] takes next: the pack it was given, or the one the cache has
    for the number awaited. *)
Lemma awaited_ok written r d v cache :
  recv_inv written r ->
  (forall v, d = Some v -> genuine written v /\ pack_id (data_header v) = next_id r) ->
  match d with
  | Some d => Some (d, recv_pack_cache_map r)
  | None => d ← recv_pack_cache_map r !! next_id r; Some (d, delete (next_id r) (recv_pack_cache_map r))
  end = Some (v, cache) ->
  (genuine written v /\ pack_id (data_header v) = next_id r) /\
  forall i u, cache !! i = Some u -> recv_pack_cache_map r !! i = Some u.
Proof.
  intros Hr Hd. destruct d as [w|].
  - intros [= <- <-]. by split; [apply Hd|].
  - destruct (_ !! next_id r) as [u|] eqn:Eu; cbn; [|done].
    intros [= <- <-]. destruct (ri_cache _ _ Hr _ _ Eu). split; [done|].
    intros i x Hx. by apply lookup_delete_Some in Hx as [_ Hx].
Qed.

Lemma deliver_inv written fuel env d ids m s r o s' r' :
  recv_inv written r -> zlen written < 2 ^ 32 - 1 ->
  (forall v, d = Some v -> genuine written v /\ pack_id (data_header v) = next_id r) ->
  deliver fuel env d ids m (s, r) = (o, (s', r')) ->
  recv_inv written r' /\ quiet s s'.
Proof.
  intros Hr Hw. revert env d ids m s r Hr.
  induction fuel as [|fuel IH]; intros env d ids m s r Hr Hd; cbn [deliver].
  { intros E. by injection E as <- <- <-. }
  set (next := match d with Some _ => _ | None => _ end).
  assert (forall v cache, next = Some (v, cache) ->
    (genuine written v /\ pack_id (data_header v) = next_id r) /\
    forall i u, cache !! i = Some u -> recv_pack_cache_map r !! i = Some u) as Hnext by (intros v cache; by apply (awaited_ok _ _ d)).
  destruct next as [[v cache]|]; [|intros E; by injection E as <- <- <-].
  destruct (Hnext v cache eq_refl) as [[Hg Hid] Hcache]. clear Hnext.
  destruct (flush_acks _ m s) as [ids1 s1] eqn:E1. apply flush_acks_quiet in E1.
  destruct (default _ _) as [res brk]. cbn [stream_closed next_id send_pack_id_map delivered].
  destruct (stream_closed r) eqn:Ec.
  { intros E. injection E as <- <- <-. split; [by apply (recv_close_inv written r)|done]. }
  pose proof (recv_step_inv written r v cache Hr Hg Hid Hw Ec Hcache) as Hstep.
  destruct res as [|ok|].
  - destruct brk; intros E.
    + injection E as <- <- <-. by split.
    + edestruct (IH (tail env) None) as [HA HB]; [exact Hstep|done|exact E|]. split; [done|by etransitivity].
  - destruct (flush_acks ids1 1 s1) as [ids2 s2] eqn:E2. apply flush_acks_quiet in E2.
    assert (quiet s s2) by by etransitivity. destruct ok; cbn [negb].
    + destruct brk; intros E.
      * injection E as <- <- <-. by split.
      * edestruct (IH (tail env) None) as [HA HB]; [exact Hstep|done|exact E|]. split; [done|by etransitivity].
    + intros E. injection E as <- <- <-. split; [by apply (recv_close_inv written r)|done].
  - intros E. injection E as <- <- <-. split; [by apply (recv_close_inv written r)|done].
Qed.

(** An event of an honest network: its data packs were sent. *)
Definition honest (written : list (list Z)) (ev : RecvEvent) : Prop :=
  forall v, ev = Got (PData v) -> genuine written v.

Lemma receive_inv written ev s r o s' r' :
  recv_inv written r -> honest written ev ->
  receive ev (s, r) = (o, (s', r')) ->
  recv_inv written r' /\ quiet s s' /\
  forall d ids, o = Ok (d, ids) -> forall v, d = Some v ->
    genuine written v /\ pack_id (data_header v) = next_id r'.
Proof.
  intros Hr Hh. unfold receive. destruct ev as [p| |];
    [|intros E; injection E as <- <- <-; (split_and!; try done; congruence)..].
  destruct p as [v|v|v|v|v|v|v|v]; try (intros E; injection E as <- <- <-; (split_and!; try done; congruence)).
  - case_match; [intros E; injection E as <- <- <-; (split_and!; try done; congruence)|].
    case_decide; [intros E; injection E as <- <- <-; split_and!; try done; congruence|].
    destruct (Z.eqb_spec (pack_id (data_header v)) (next_id r)); intros E; injection E as <- <- <-.
    + split_and!; [done|done|]. intros d ids [= <- <-] w [= <-]. split; [by apply Hh|done].
    + split_and!; [|done|congruence]. destruct Hr as [H1 H2 H3 H4 H5]. split; cbn; try done.
      intros i w [[<- <-]|[_ Hw]]%lookup_insert_Some; [|by apply H4]. split; [done|by apply Hh].
  - case_match; intros E; injection E as <- <- <-; split_and!; try done; [apply on_ack_quiet|congruence].
  - case_match; [intros E; injection E as <- <- <-; (split_and!; try done; congruence)|].
    unfold send_heartbeat_ack, send_tx. destruct (tx_open s); intros E; injection E as <- <- <-;
      split_and!; try done; [|congruence].
    split; try done. cbn. intros w [Hw|Hw]%elem_of_app; [done|].
    by apply list_elem_of_singleton in Hw.
  - case_match; intros E; injection E as <- <- <-; split_and!; try done; congruence.
Qed.

Lemma turn_inv written ev env s r :
  recv_inv written r -> honest written ev -> zlen written < 2 ^ 32 - 1 ->
  recv_inv written (turn ev env s r).2 /\ quiet s (turn ev env s r).1.
Proof.
  intros Hr Hh Hw. unfold turn. destruct (is_close s); [by split|].
  unfold mbind, stm_bind. destruct (receive ev (s, r)) as [o [s1 r1]] eqn:E1.
  destruct (receive_inv written ev s r o s1 r1) as (Hr1 & Hq1 & Hd); [done..|].
  assert (forall s', quiet s s' -> quiet s (set_close true s')) as Hcl.
  { intros s' []. by split. }
  destruct o as [[d ids]|e| |]; [|by split; [|apply Hcl]..].
  destruct (deliver _ env d ids _ (s1, r1)) as [o2 [s2 r2]] eqn:E2.
  destruct (deliver_inv written (deliver_fuel r1) env d ids DEFAULT_MERGE_ACK_SIZE s1 r1 o2 s2 r2) as [Hr2 Hq2]; [done|done|by eapply Hd|done|].
  assert (quiet s s2) by by etransitivity.
  destruct o2 as [ids2|e| |]; [|by split; [|apply Hcl]..].
  destruct (decide (ids2 = [])); [by split|]. unfold on_fst.
  destruct (send_tunnel_data_ack ids2 s2) as [o3 s3] eqn:E3.
  assert (quiet s2 s3) by (pose proof (send_ack_quiet ids2 s2) as Hq; by rewrite E3 in Hq).
  assert (quiet s s3) by by etransitivity.
  destruct o3; by split; [|auto].
Qed.

(** ** A turn always comes to an end *)

Lemma deliver_total fuel env (d : option TunnelData) ids m s r :
  (size (recv_pack_cache_map r) + (if d is Some _ then 1 else 0) < fuel)%nat ->
  exists ids' s' r', deliver fuel env d ids m (s, r) = (Ok ids', (s', r')).
Proof.
  revert env d ids m s r. induction fuel as [|fuel IH]; intros env d ids m s r Hf; [lia|].
  cbn [deliver]. set (next := match d with Some _ => _ | None => _ end).
  assert (forall v cache, next = Some (v, cache) -> (size cache < fuel)%nat) as Hnext.
  { unfold next. destruct d as [v|]; [intros w cache [= _ <-]; lia|].
    intros w cache. destruct (_ !! next_id r) as [u|] eqn:Eu; cbn; [|done].
    intros [= _ <-]. rewrite map_size_delete, Eu.
    assert (size (recv_pack_cache_map r) <> O); [|lia].
    intros E0%map_size_empty_inv. by rewrite E0, lookup_empty in Eu. }
  destruct next as [[v cache]|]; [|by eauto]. specialize (Hnext v cache eq_refl).
  destruct (flush_acks _ m s) as [ids1 s1]. destruct (default _ _) as [res brk].
  destruct (if stream_closed _ then _ else _) as [|ok|]; [|destruct (flush_acks ids1 1 s1) as [ids2 s2]; destruct ok; cbn [negb]|by eauto].
  - destruct brk; [by eauto|]. apply IH. cbn. lia.
  - destruct brk; [by eauto|]. apply IH. cbn. lia.
  - by eauto.
Qed.

(** ** Nothing is held back

    While the local stream is open and keeps up, a turn leaves no pack in the
    cache that could be handed on. *)
Lemma flush_acks_close ids m s ids' s' :
  flush_acks ids m s = (ids', s') -> is_close s' = is_close s.
Proof.
  unfold flush_acks, send_tunnel_data_ack, send_tx.
  case_match; intros E; injection E as <- <-; [|done]. by destruct (tx_open s).
Qed.

Lemma deliver_open written fuel (d : option TunnelData) ids m s r :
  recv_inv written r -> zlen written < 2 ^ 32 - 1 -> stream_closed r = false ->
  (forall v, d = Some v -> genuine written v /\ pack_id (data_header v) = next_id r) ->
  (size (recv_pack_cache_map r) + (if d is Some _ then 1 else 0) < fuel)%nat ->
  exists ids' s' r', deliver fuel [] d ids m (s, r) = (Ok ids', (s', r')) /\
    recv_inv written r' /\ stream_closed r' = false /\ is_close s' = is_close s /\
    recv_pack_cache_map r' !! next_id r' = None /\
    next_id r + (if d is Some _ then 1 else 0) <= next_id r' /\
    forall i, next_id r' <= i -> recv_pack_cache_map r' !! i = recv_pack_cache_map r !! i.
Proof.
  intros Hr Hw. revert d ids m s r Hr.
  induction fuel as [|fuel IH]; intros d ids m s r Hr Hc Hd Hf; [lia|].
  cbn [deliver]. set (next := match d with Some _ => _ | None => _ end).
  destruct next as [[v cache]|] eqn:En.
  - assert ((genuine written v /\ pack_id (data_header v) = next_id r) /\ (size cache < fuel)%nat /\
      forall i, i <> next_id r \/ is_Some d -> cache !! i = recv_pack_cache_map r !! i)
      as ([Hg Hid] & Hsz & Hcache).
    { unfold next in En. destruct d as [w|].
      - injection En as <- <-. split; [by apply Hd|]. split; [lia|done].
      - destruct (_ !! next_id r) as [u|] eqn:Eu; cbn in En; [|done]. injection En as <- <-.
        destruct (ri_cache _ _ Hr _ _ Eu). split; [done|]. split.
        + rewrite map_size_delete, Eu. assert (size (recv_pack_cache_map r) <> O); [|lia].
          intros E0%map_size_empty_inv. by rewrite E0, lookup_empty in Eu.
        + intros i [Hi|[? ?]]; [|done]. by rewrite lookup_delete_ne. }
    assert (forall i u, cache !! i = Some u -> recv_pack_cache_map r !! i = Some u) as Hsub.
    { unfold next in En. destruct d as [w|]; [by injection En as _ <-|].
      destruct (_ !! next_id r) as [u|] eqn:Eu; cbn in En; [|done]. injection En as _ <-.
      intros i x Hx. by apply lookup_delete_Some in Hx as [_ Hx]. }
    destruct (flush_acks _ m s) as [ids1 s1] eqn:E1. apply flush_acks_close in E1.
    cbn [head default tail stream_closed next_id send_pack_id_map delivered]. rewrite Hc.
    pose proof (recv_step_inv written r v cache Hr Hg Hid Hw Hc Hsub) as Hstep.
    set (r1 := mkRecv (wrap32 (next_id r + 1)) ({[pack_id (data_header v)]} ∪ send_pack_id_map r) cache
      (delivered r ++ [v]) false) in *.
    assert (next_id r1 = next_id r + 1) as Hn1.
    { pose proof (genuine_range _ _ Hg). cbn. rewrite Hid in *. unwrap. done. }
    edestruct (IH None ids1 DEFAULT_MERGE_ACK_SIZE s1 r1)
      as (ids' & s' & r' & E & Hr' & Hc' & Hs' & Hnone & Hle & Hcc); [done|done|done|cbn; lia|].
    cbn [default id]. exists ids', s', r'. split; [exact E|]. split_and!; try done.
    + congruence.
    + destruct d; lia.
    + intros i Hi. rewrite Hcc by done. cbn. apply Hcache. left. lia.
  - exists ids, s, r. unfold next in En. destruct d as [w|]; [done|].
    split_and!; try done; [|lia]. by destruct (_ !! next_id r).
Qed.

(** Every pack received so far was handed on or waits in the cache for an
    earlier one. *)
Record caught_up (written : list (list Z)) (seen : list TunnelData) (s : StreamPack) (r : Recv)
    : Prop := {
  cu_inv : recv_inv written r;
  cu_open : stream_closed r = false;
  cu_live : is_close s = false;
  cu_next : recv_pack_cache_map r !! next_id r = None;
  cu_seen : forall v, v ∈ seen -> pack_id (data_header v) < next_id r \/
            is_Some (recv_pack_cache_map r !! pack_id (data_header v))
}.

Lemma turn_caught_up written seen s r v :
  caught_up written seen s r -> zlen written < 2 ^ 32 - 1 ->
  genuine written v -> stream_id (data_header v) = sp_stream_id s ->
  caught_up written (v :: seen) (turn (Got (PData v)) [] s r).1 (turn (Got (PData v)) [] s r).2 /\
  sp_stream_id (turn (Got (PData v)) [] s r).1 = sp_stream_id s.
Proof.
  intros [Hr Hc Hl Hn Hs] Hw Hg Hid.
  assert (sp_stream_id (turn (Got (PData v)) [] s r).1 = sp_stream_id s) as Hsid.
  { apply (qu_id _ _ (proj2 (turn_inv written (Got (PData v)) [] s r Hr
      ltac:(intros w [= <-]; exact Hg) Hw))). }
  split; [|exact Hsid]. clear Hsid. unfold turn. rewrite Hl.
  assert (exists d ids r1, receive (Got (PData v)) (s, r) = (Ok (d, ids), (s, r1)) /\
    recv_inv written r1 /\ stream_closed r1 = false /\ next_id r1 = next_id r /\
    (forall w, d = Some w -> genuine written w /\ pack_id (data_header w) = next_id r1) /\
    (forall i, is_Some (recv_pack_cache_map r !! i) -> is_Some (recv_pack_cache_map r1 !! i)) /\
    (pack_id (data_header v) < next_id r + (if d is Some _ then 1 else 0) \/
     is_Some (recv_pack_cache_map r1 !! pack_id (data_header v))))
    as (d & ids & r1 & E1 & Hr1 & Hc1 & Hn1 & Hd & Hmono & Hv).
  { assert (honest written (Got (PData v))) as Hh by (intros w [= <-]; exact Hg).
    destruct (receive (Got (PData v)) (s, r)) as [o [s1 r1]] eqn:E1.
    destruct (receive_inv _ _ _ _ _ _ _ Hr Hh E1) as (Hr1 & _ & Hd). unfold receive in E1.
    rewrite Hid, Z.eqb_refl in E1. cbn [negb] in E1. case_decide as Hin.
    - injection E1 as <- <- <-. exists None, [pack_id (data_header v)], r. split_and!; try done.
      left. pose proof (ri_sent _ _ Hr Hc _ Hin). lia.
    - destruct (Z.eqb_spec (pack_id (data_header v)) (next_id r)) as [He|He];
        injection E1 as <- <- <-.
      + exists (Some v), [], r. split_and!; try done; [by eapply Hd|]. left. cbn. lia.
      + eexists None, [], _. split_and!; try done; cbn.
        * intros i Hi. destruct (decide (pack_id (data_header v) = i)) as [->|];
            [by rewrite lookup_insert_eq|by rewrite lookup_insert_ne].
        * right. by rewrite lookup_insert_eq. }
  destruct (deliver_open written (deliver_fuel r1) d ids DEFAULT_MERGE_ACK_SIZE s r1)
    as (ids2 & s2 & r2 & E2 & Hr2 & Hc2 & Hl2 & Hn2 & Hle & Hcc); [done..|unfold deliver_fuel; destruct d; lia|].
  unfold mbind, stm_bind. rewrite E1, E2.
  assert (forall s3, is_close s3 = false -> caught_up written (v :: seen) s3 r2) as Hdone.
  { intros s3 Hs3. split; try done. intros w [->|Hin]%elem_of_cons.
    - destruct (Z.lt_ge_cases (pack_id (data_header v)) (next_id r2)); [by left|right].
      destruct Hv as [Hv|Hv]; [destruct d; lia|]. by rewrite Hcc.
    - destruct (Z.lt_ge_cases (pack_id (data_header w)) (next_id r2)); [by left|right].
      destruct (Hs w Hin) as [Hw'|Hw']; [destruct d; lia|]. rewrite Hcc by done. by apply Hmono. }
  destruct (decide (ids2 = [])); [apply Hdone; cbn; congruence|].
  unfold on_fst, send_tunnel_data_ack. apply Hdone. cbn. unfold send_tx.
  destruct (tx_open s2); cbn; congruence.
Qed.

(** The receiver fed with the packs [vs], in the order they arrive. *)
Fixpoint feed (vs : list TunnelData) (s : StreamPack) (r : Recv) : StreamPack * Recv :=
  match vs with
  | [] => (s, r)
  | v :: vs => let (s, r) := turn (Got (PData v)) [] s r in feed vs s r
  end.

Lemma feed_caught_up written vs seen s r :
  caught_up written seen s r -> zlen written < 2 ^ 32 - 1 ->
  (forall v, v ∈ vs -> genuine written v /\ stream_id (data_header v) = sp_stream_id s) ->
  caught_up written (reverse vs ++ seen) (feed vs s r).1 (feed vs s r).2.
Proof.
  revert seen s r. induction vs as [|v vs IH]; intros seen s r Hcu Hw Hvs; [done|].
  cbn [feed]. destruct (Hvs v) as [Hg Hid]; [constructor|].
  destruct (turn_caught_up written seen s r v) as [Hcu' Hsid]; [done..|].
  destruct (turn (Got (PData v)) [] s r) as [s1 r1]. cbn in Hcu', Hsid.
  rewrite reverse_cons, <- app_assoc. apply IH; [done..|].
  intros w Hw'. rewrite Hsid. apply Hvs. by constructor.
Qed.

(** When a pack of every number was seen, everything was handed on. *)
Lemma caught_up_complete written seen s r :
  caught_up written seen s r ->
  (forall i, 1 <= i <= zlen written -> exists v, v ∈ seen /\ pack_id (data_header v) = i) ->
  datas <$> delivered r = written /\ next_id r = 1 + zlen written.
Proof.
  intros [Hr Hc _ Hn Hs] Hall.
  assert (length (delivered r) = length written) as Hlen.
  { pose proof (ri_len _ _ Hr). destruct (decide (length (delivered r) = length written)); [done|].
    destruct (Hall (next_id r)) as (v & Hv & Hid).
    { rewrite (ri_next _ _ Hr Hc). unfold zlen in *. lia. }
    destruct (Hs v Hv) as [Hlt|[x Hx]]; [lia|]. rewrite Hid in Hx. congruence. }
  rewrite (ri_prefix _ _ Hr), (ri_next _ _ Hr Hc), Hlen. split; [apply firstn_all|]. unfold zlen. lia.
Qed.

(** Whatever the network does to the order of the packs, and however
    often it repeats them, once every piece has arrived the receiving
    application has got every piece exactly once and in order: all of what
    was written, and nothing else. *)
Theorem all_pieces_delivered written vs id now :
  zlen written < 2 ^ 32 - 1 ->
  (forall v, v ∈ vs -> genuine written v /\ stream_id (data_header v) = id) ->
  (forall i, 1 <= i <= zlen written -> exists v, v ∈ vs /\ pack_id (data_header v) = i) ->
  datas <$> delivered (feed vs (stream_new id now) recv_new).2 = written.
Proof.
  intros Hw Hvs Hall.
  assert (caught_up written [] (stream_new id now) recv_new) as H0.
  { split; try done; [apply recv_inv_new|]. intros v Hv. by apply elem_of_nil in Hv. }
  pose proof (feed_caught_up written vs [] _ _ H0 Hw Hvs) as Hcu. rewrite app_nil_r in Hcu.
  apply (caught_up_complete _ _ _ _ Hcu). intros i Hi. destruct (Hall i Hi) as (v & Hv & Hid).
  exists v. by rewrite elem_of_reverse.
Qed.

(** Three pieces that arrive last first, with repetitions. *)
Definition demo_pack (i : Z) (d : list Z) : TunnelData := mkData (mkDataHeader 7 i (zlen d)) d.

Lemma all_pieces_delivered_witness :
  datas <$> delivered
    (feed [demo_pack 3 [6]; demo_pack 2 [4; 5]; demo_pack 3 [6]; demo_pack 1 [1; 2]; demo_pack 2 [4; 5]]
       (stream_new 7 0) recv_new).2 = [[1; 2]; [4; 5]; [6]].
Proof.
  apply (all_pieces_delivered [[1; 2]; [4; 5]; [6]]).
  - done.
  - intros v Hv. repeat (apply elem_of_cons in Hv as [->|Hv]); try (by apply elem_of_nil in Hv);
      (split; [by split|done]).
  - intros i Hi. change (zlen _) with 3 in Hi.
    assert (i = 1 \/ i = 2 \/ i = 3) as [-> | [-> | ->]] by lia;
      [exists (demo_pack 1 [1; 2])|exists (demo_pack 2 [4; 5])|exists (demo_pack 3 [6])];
      (split; [|done]); rewrite !elem_of_cons; tauto.
Defined.
