(* ===== verification/StreamNet.v ===== *)
(** Two streams joined by an unreliable network: what the pair guarantees in
    every reachable state, and what the sending half of [StreamPack] keeps. *)
From S2P Require Import Prelude TunnelPack StreamPack StreamOrder.
#[local] Open Scope Z_scope.

(** ** One end

    [snd_id] is the local [pack_id] of [stream_to_stream_pack], [written] the
    pieces it took from the application, and [ended] tells that the [select!]
    of [StreamPack::start] has returned. *)
Record Endpoint := mkEnd {
  sp : StreamPack;
  rx : Recv;
  snd_id : Z;
  written : list (list Z);
  ended : bool
}.

Definition end_new (id now : Z) : Endpoint := mkEnd (stream_new id now) recv_new 0 [] false.

(** The moves of an end that is sent the packs of [incoming]: the tasks of
    [StreamPack::start] in any interleaving.  A task that fails ends the
    stream, which then says so to its peer. *)
Inductive end_step (incoming : TunnelPack -> Prop) : Endpoint -> Endpoint -> Prop :=
  | step_write e d id s :
      ended e = false -> window_ready (sp e) = true ->
      stream_to_stream_pack d (snd_id e) (sp e) = (Ok id, s) ->
      end_step incoming e (mkEnd s (rx e) id (written e ++ [d]) false)
  | step_write_fails e d err s :
      ended e = false -> window_ready (sp e) = true ->
      stream_to_stream_pack d (snd_id e) (sp e) = (Err err, s) ->
      end_step incoming e
        (mkEnd (send_pack_close s).2 (rx e) (snd_id e) (written e ++ [d]) true)
  | step_receive e ev env :
      ended e = false -> (forall p, ev = Got p -> incoming p) ->
      end_step incoming e
        (mkEnd (turn ev env (sp e) (rx e)).1 (turn ev env (sp e) (rx e)).2 (snd_id e) (written e) false)
  | step_resend e rtt s :
      ended e = false -> check_waiting_pack_timeout rtt (sp e) = (Ok tt, s) ->
      end_step incoming e (mkEnd s (rx e) (snd_id e) (written e) false)
  | step_heartbeat e s :
      ended e = false -> heartbeat (sp e) = (Ok false, s) ->
      end_step incoming e (mkEnd s (rx e) (snd_id e) (written e) false)
  | step_tick e now :
      ended e = false ->
      end_step incoming e (mkEnd (set_now now (sp e)) (rx e) (snd_id e) (written e) false)
  | step_end e :
      ended e = false ->
      end_step incoming e (mkEnd (send_pack_close (sp e)).2 (rx e) (snd_id e) (written e) true).

(** A network that may deliver any pack ever sent, any number of times, in
    any order, or never. *)
Definition sent (e : Endpoint) (p : TunnelPack) : Prop := p ∈ tx (sp e).

Inductive net_step : Endpoint * Endpoint -> Endpoint * Endpoint -> Prop :=
  | net_left a a' b : end_step (sent b) a a' -> net_step (a, b) (a', b)
  | net_right a b b' : end_step (sent a) b b' -> net_step (a, b) (a, b').

Inductive reachable (id t1 t2 : Z) : Endpoint * Endpoint -> Prop :=
  | reach_init : reachable id t1 t2 (end_new id t1, end_new id t2)
  | reach_step s s' : reachable id t1 t2 s -> net_step s s' -> reachable id t1 t2 s'.

(** ** The sending half *)

Record send_inv (w : list (list Z)) (s : StreamPack) : Prop := {
  se_tx : forall v, PData v ∈ tx s -> genuine w v;
  se_map : forall i p t, waiting_pack_map s !! i = Some (p, t) ->
           exists v, p = PData v /\ pack_id (data_header v) = i /\ genuine w v
}.

Lemma send_inv_quiet w s s' : send_inv w s -> quiet s s' -> send_inv w s'.
Proof.
  intros [H1 H2] [Q1 Q2 _]. split; [by auto|]. intros i p t Hi. eapply H2.
  by eapply lookup_weaken.
Qed.

Lemma send_inv_app w more s : send_inv w s -> send_inv (w ++ more) s.
Proof.
  intros [H1 H2]. split.
  - intros v Hv. by apply genuine_app, H1.
  - intros i p t Hi. destruct (H2 i p t Hi) as (v & ? & ? & ?). exists v. split_and!; try done.
    by apply genuine_app.
Qed.

Lemma to_peer_inv w id v first s o s' :
  send_inv w s -> genuine w v -> pack_id (data_header v) = id ->
  stream_pack_to_peer_client id (PData v) first s = (o, s') -> send_inv w s'.
Proof.
  intros [H1 H2] Hg Hid. unfold stream_pack_to_peer_client, send_tx.
  set (f := if 0 <? first then _ else _). clearbody f.
  assert (forall i p t, <[id:=(PData v, f)]> (waiting_pack_map s) !! i = Some (p, t) ->
    exists v, p = PData v /\ pack_id (data_header v) = i /\ genuine w v) as Hm.
  { intros i p t [[<- [= <- <-]]|[_ Hi]]%lookup_insert_Some; [by exists v|by eapply H2]. }
  cbn [tx_open set_map set_infos]. destruct (tx_open s); intros E; injection E as <- <-; split; try done.
  cbn. intros u [Hu|Hu]%elem_of_app; [by auto|]. apply list_elem_of_singleton in Hu.
  by injection Hu as ->.
Qed.

Lemma resend_inv w fuel now limit s o s' :
  send_inv w s -> resend_loop fuel now limit s = (o, s') -> send_inv w s'.
Proof.
  revert s. induction fuel as [|fuel IH]; intros s Hs; cbn [resend_loop].
  { intros E. by injection E as <- <-. }
  destruct (waiting_pack_infos s) as [|info infos]; [intros E; by injection E as <- <-|].
  case_match; [|intros E; by injection E as <- <-].
  cbn [waiting_pack_map set_infos].
  destruct (waiting_pack_map s !! wait_pack_id info) as [[p first]|] eqn:Ei.
  2:{ apply IH. destruct Hs. by split. }
  destruct (se_map _ _ Hs _ _ _ Ei) as (v & -> & Hid & Hg).
  destruct (stream_pack_to_peer_client _ _ _ _) as [o1 s1] eqn:E1.
  assert (send_inv w s1) as Hs1.
  { eapply to_peer_inv; [|exact Hg|exact Hid|exact E1]. destruct Hs as [H1 H2]. split; [done|].
    cbn. intros i p t [_ Hi]%lookup_delete_Some. by eapply H2. }
  destruct o1; [by apply IH|intros E; by injection E as <- <-..].
Qed.

Lemma send_close_quiet s : quiet s (send_pack_close s).2.
Proof. by apply send_tx_quiet. Qed.

Lemma heartbeat_quiet s o s' : heartbeat s = (o, s') -> quiet s s'.
Proof.
  unfold heartbeat, send_heartbeat. case_match; [intros E; by injection E as <- <-|].
  case_match; [intros E; by injection E as <- <-|].
  pose proof (send_tx_quiet (PHeartbeat (mkHeartbeat (sp_stream_id s) (curr_timestamp s))) s
    ltac:(done)) as Hq.
  destruct (send_tx _ s) as [[] s1]; intros E; by injection E as <- <-.
Qed.

Lemma write_inv d id s o s' w :
  send_inv w s -> id = zlen w -> zlen w < 2 ^ 32 - 1 ->
  stream_to_stream_pack d id s = (o, s') ->
  send_inv (w ++ [d]) s' /\ forall id', o = Ok id' -> id' = zlen (w ++ [d]).
Proof.
  intros Hs -> Hlt. unfold stream_to_stream_pack. pose proof (zlen_nonneg w).
  cbn [sp_stream_id add_window_size set_window set_window_pack_id]. unwrap.
  destruct (stream_pack_to_peer_client _ _ 0 _) as [o1 s1] eqn:E1. intros E.
  assert (zlen (w ++ [d]) = zlen w + 1) as Hl by (rewrite zlen_app; done).
  assert (send_inv (w ++ [d]) s1) as Hs1.
  { refine (to_peer_inv _ _ _ _ _ _ _ _ _ _ E1); [|split|reflexivity].
    - apply send_inv_app. destruct Hs. by split.
    - cbn. lia.
    - cbn. replace (Z.to_nat (zlen w + 1 - 1)) with (length w) by (unfold zlen; lia).
      by rewrite lookup_app_r, Nat.sub_diag by lia. }
  destruct o1; injection E as <- <-; (split; [done|]); try done. intros id' [= <-]. lia.
Qed.

(** ** The pair *)

Definition in_bound (e : Endpoint) : Prop := zlen (written e) < 2 ^ 32 - 1.

(** [b] has handed on a beginning of what [a] wrote, and everything [a] sent
    is genuine. *)
Record flow_inv (a b : Endpoint) : Prop := {
  fl_recv : recv_inv (written a) (rx b);
  fl_send : send_inv (written a) (sp a);
  fl_id : ended a = false -> snd_id a = zlen (written a)
}.

Lemma end_step_bound inc e e' : end_step inc e e' -> in_bound e' -> in_bound e.
Proof.
  unfold in_bound. destruct 1; cbn; try done; rewrite zlen_app; pose proof (zlen_nonneg [d]); lia.
Qed.

(** A move of the sender. *)
Lemma flow_send inc a a' b :
  in_bound a' -> end_step inc a a' -> recv_inv (written b) (rx a) -> in_bound b ->
  (forall p, inc p -> sent b p) -> send_inv (written b) (sp b) ->
  flow_inv a b -> flow_inv a' b /\ recv_inv (written b) (rx a').
Proof.
  intros Hb Hstep Hra Hbb Hinc Hsb [Hr Hs Hid].
  pose proof (end_step_bound _ _ _ Hstep Hb) as Hb0.
  destruct Hstep as [a d id s He Hw E|a d err s He Hw E|a ev env He Hev|a rtt s He E|a s He E|a now He|a He];
    cbn [rx sp written snd_id ended].
  - destruct (write_inv _ _ _ _ _ _ Hs (Hid He) Hb0 E) as [Hs' Hid'].
    split; [|done]. split; cbn; [by apply recv_inv_app|done|intros _; by apply Hid'].
  - destruct (write_inv _ _ _ _ _ _ Hs (Hid He) Hb0 E) as [Hs' _].
    split; [|done]. split; cbn; [by apply recv_inv_app| |done].
    eapply send_inv_quiet; [done|]. apply send_close_quiet.
  - destruct (turn_inv (written b) ev env (sp a) (rx a)) as [Hr' Hq]; [done| |done|].
    { intros v Hv. apply (se_tx _ _ Hsb). by apply (Hinc (PData v)), Hev. }
    split; [|done]. split; cbn; [done|by eapply send_inv_quiet|by auto].
  - split; [|done]. split; cbn; [done| |by auto]. unfold check_waiting_pack_timeout in E.
    destruct (is_close (sp a)); [by injection E as <-|by eapply resend_inv].
  - split; [|done]. split; cbn; [done| |by auto]. eapply send_inv_quiet; [done|].
    by eapply heartbeat_quiet.
  - split; [|done]. split; cbn; [done| |by auto]. destruct Hs. by split.
  - split; [|done]. split; cbn; [done| |done]. eapply send_inv_quiet; [done|]. apply send_close_quiet.
Qed.

Definition net_inv (s : Endpoint * Endpoint) : Prop :=
  in_bound s.1 -> in_bound s.2 -> flow_inv s.1 s.2 /\ flow_inv s.2 s.1.

Lemma net_inv_step s s' : net_inv s -> net_step s s' -> net_inv s'.
Proof.
  intros Hi Hstep Ha Hb. destruct Hstep as [a a' b Hst|a b b' Hst]; cbn in *.
  - destruct (Hi (end_step_bound _ _ _ Hst Ha) Hb) as [H1 H2].
    destruct (flow_send _ a a' b Ha Hst) as [H1' Hr]; try done; [apply H2|apply H2|].
    split; [done|]. destruct H2. by split.
  - destruct (Hi Ha (end_step_bound _ _ _ Hst Hb)) as [H1 H2].
    destruct (flow_send _ b b' a Hb Hst) as [H2' Hr]; try done; [apply H1|apply H1|].
    split; [|done]. destruct H1. by split.
Qed.

(** C1. Between two ends of a stream, over a network that loses, repeats and
    reorders packs as it likes, and with sending, receiving, retransmission,
    heartbeats and closing interleaved in any way, each application receives
    a beginning of what the other one wrote: no byte is lost in the middle,
    repeated, altered or out of order. *)
Theorem delivered_is_prefix id t1 t2 a b :
  reachable id t1 t2 (a, b) -> in_bound a -> in_bound b ->
  (datas <$> delivered (rx b)) `prefix_of` written a /\
  (datas <$> delivered (rx a)) `prefix_of` written b.
Proof.
  intros Hr Ha Hb.
  assert (forall s, reachable id t1 t2 s -> net_inv s) as Hinv.
  { induction 1 as [|s s' _ IH Hst]; [|by eapply net_inv_step].
    intros _ _. split; split; cbn; try apply recv_inv_new; try done;
      split; cbn; try (intros v Hv; by apply elem_of_nil in Hv); by intros. }
  destruct (Hinv _ Hr Ha Hb) as [[Hr1 _ _] [Hr2 _ _]]. cbn in *.
  split; [rewrite (ri_prefix _ _ Hr1)|rewrite (ri_prefix _ _ Hr2)]; apply prefix_take.
Qed.

(** A piece written on one side and its pack received on the other. *)
Lemma delivered_is_prefix_witness :
  exists a b, reachable 7 0 0 (a, b) /\ datas <$> delivered (rx b) = [[1; 2; 3]] /\
    (datas <$> delivered (rx b)) `prefix_of` written a.
Proof.
  set (s := (stream_to_stream_pack [1; 2; 3] 0 (stream_new 7 0)).2).
  set (a := mkEnd s recv_new 1 [[1; 2; 3]] false).
  set (p := PData (mkData (mkDataHeader 7 1 3) [1; 2; 3])).
  set (t := turn (Got p) [] (stream_new 7 0) recv_new).
  set (b := mkEnd t.1 t.2 0 [] false).
  assert (reachable 7 0 0 (a, b)) as Hr.
  { eapply reach_step; [eapply reach_step; [apply reach_init|]|].
    - apply (net_left (end_new 7 0) a). apply (step_write _ (end_new 7 0) [1; 2; 3] 1); by vm_compute.
    - apply (net_right a (end_new 7 0) b). apply (step_receive _ (end_new 7 0) (Got p) []); [done|].
      intros q [= <-]. unfold sent. vm_compute. constructor. }
  exists a, b. split; [exact Hr|]. split; [by vm_compute|].
  by apply (delivered_is_prefix 7 0 0 a b Hr).
Defined.
