(* ===== verification/StreamWindow.v ===== *)
(** Flow control and retransmission of the sending half of [StreamPack]: the
    window counts the bytes not yet acknowledged, and every pack not yet
    acknowledged is kept for another transmission. *)
From S2P Require Import Prelude TunnelPack StreamPack StreamOrder StreamNet.
#[local] Open Scope Z_scope.

Definition pack_len (p : TunnelPack) : Z :=
  match p with PData v => zlen (datas v) | _ => 0 end.

(** The bytes sent and not acknowledged. *)
Definition in_flight (m : gmap Z (TunnelPack * Z)) : Z :=
  map_fold (fun _ x acc => pack_len x.1 + acc) 0 m.

Lemma in_flight_empty : in_flight ∅ = 0.
Proof. done. Qed.

Lemma in_flight_insert m i x :
  m !! i = None -> in_flight (<[i := x]> m) = pack_len x.1 + in_flight m.
Proof. intros Hi. unfold in_flight. rewrite map_fold_insert_L; [done| |done]. intros. lia. Qed.

Lemma in_flight_delete m i x :
  m !! i = Some x -> in_flight m = pack_len x.1 + in_flight (delete i m).
Proof.
  intros Hi. rewrite <- (insert_delete_id m i x Hi) at 1.
  by rewrite in_flight_insert by apply lookup_delete_eq.
Qed.

Lemma pack_len_nonneg p : 0 <= pack_len p.
Proof. destruct p; cbn; try lia. apply zlen_nonneg. Qed.

Lemma in_flight_nonneg m : 0 <= in_flight m.
Proof.
  induction m as [|i x m Hi IH] using map_ind; [done|].
  rewrite in_flight_insert by done. pose proof (pack_len_nonneg x.1). lia.
Qed.

(** ** The invariant *)

Record wait_inv (limit : Z) (s : StreamPack) : Prop := {
  wt_window : window s = in_flight (waiting_pack_map s);
  wt_limit : in_flight (waiting_pack_map s) <= limit;
  wt_small : limit < 2 ^ 63;
  wt_cover : forall i, is_Some (waiting_pack_map s !! i) ->
             exists info, info ∈ waiting_pack_infos s /\ wait_pack_id info = i
}.

(** An operation that does not touch the waiting packs. *)
Record same_wait (s s' : StreamPack) : Prop := {
  sw_map : waiting_pack_map s' = waiting_pack_map s;
  sw_infos : waiting_pack_infos s' = waiting_pack_infos s;
  sw_window : window s' = window s
}.

#[export] Instance same_wait_refl : Reflexive same_wait.
Proof. by split. Qed.
#[export] Instance same_wait_trans : Transitive same_wait.
Proof. intros a b c [] []. split; congruence. Qed.

Lemma wait_inv_same l s s' : wait_inv l s -> same_wait s s' -> wait_inv l s'.
Proof. intros [] [E1 E2 E3]. split; rewrite ?E1, ?E2, ?E3; done. Qed.

Lemma send_tx_same p s : same_wait s (send_tx p s).2.
Proof. unfold send_tx. by destruct (tx_open s). Qed.

Lemma flush_acks_same ids m s ids' s' : flush_acks ids m s = (ids', s') -> same_wait s s'.
Proof.
  unfold flush_acks. case_match; intros E; injection E as <- <-; [apply send_tx_same|done].
Qed.

Lemma deliver_same fuel env d ids m s r o s' r' :
  deliver fuel env d ids m (s, r) = (o, (s', r')) -> same_wait s s'.
Proof.
  revert env d ids m s r. induction fuel as [|fuel IH]; intros env d ids m s r; cbn [deliver].
  { intros E. by injection E as <- <- <-. }
  destruct (match d with Some _ => _ | None => _ end) as [[v cache]|];
    [|intros E; by injection E as <- <- <-].
  destruct (flush_acks _ m s) as [ids1 s1] eqn:E1. apply flush_acks_same in E1.
  destruct (default _ _) as [res brk]. destruct (if stream_closed _ then _ else _) as [|ok|].
  - destruct brk; intros E; [by injection E as <- <- <-|]. etransitivity; [exact E1|by eapply IH].
  - destruct (flush_acks ids1 1 s1) as [ids2 s2] eqn:E2. apply flush_acks_same in E2.
    assert (same_wait s s2) by by etransitivity.
    destruct ok; cbn [negb]; [|intros E; by injection E as <- <- <-].
    destruct brk; intros E; [by injection E as <- <- <-|]. etransitivity; [done|by eapply IH].
  - intros E. by injection E as <- <- <-.
Qed.

Lemma waker_inv l s i p t :
  wait_inv l s -> waiting_pack_map s !! i = Some (p, t) ->
  wait_inv l
    (match p with
     | PData v => waker (zlen (datas v)) (set_map (delete i (waiting_pack_map s)) s)
     | _ => set_map (delete i (waiting_pack_map s)) s
     end).
Proof.
  intros [H1 H2 H3 H4] Hi. pose proof (in_flight_delete _ _ _ Hi) as Hd. cbn [fst] in Hd.
  pose proof (in_flight_nonneg (delete i (waiting_pack_map s))).
  assert (forall j, is_Some (delete i (waiting_pack_map s) !! j) ->
    exists info, info ∈ waiting_pack_infos s /\ wait_pack_id info = j) as Hcov.
  { intros j [x [_ Hx]%lookup_delete_Some]. apply H4. by exists x. }
  pose proof (pack_len_nonneg p).
  destruct p; split; cbn [window waiting_pack_map set_map waker set_window waiting_pack_infos pack_len] in *;
    try done; try lia.
  unwrap. lia.
Qed.

Lemma ack_loop_inv l ids first s t s' :
  wait_inv l s -> ack_loop ids first s = (t, s') -> wait_inv l s'.
Proof.
  revert first s. induction ids as [|id ids IH]; intros first s Hs; cbn [ack_loop].
  { intros E. by injection E as <- <-. }
  destruct (waiting_pack_map s !! id) as [[p u]|] eqn:Ei; [|by apply IH].
  apply IH. pose proof (waker_inv l s id p u Hs Ei) as Hw. by destruct p.
Qed.

Lemma turn_wait_inv l ev env s r : wait_inv l s -> wait_inv l (turn ev env s r).1.
Proof.
  intros Hs. unfold turn. destruct (is_close s); [done|]. unfold mbind, stm_bind.
  destruct (receive ev (s, r)) as [o [s1 r1]] eqn:E1.
  assert (wait_inv l s1) as Hs1.
  { unfold receive in E1. destruct ev as [p| |]; [|by injection E1 as <- <- <-..].
    destruct p as [v|v|v|v|v|v|v|v]; try (by injection E1 as <- <- <-).
    - repeat (case_match || case_decide); by injection E1 as <- <- <-.
    - case_match; injection E1 as <- <- <-; [done|]. unfold on_ack.
      destruct (ack_loop _ 0 s) as [t s2] eqn:E2. pose proof (ack_loop_inv _ _ _ _ _ _ Hs E2) as H2.
      case_match; [|done]. eapply wait_inv_same; [exact H2|by split].
    - case_match; [by injection E1 as <- <- <-|]. unfold send_heartbeat_ack in E1.
      pose proof (send_tx_same (PHeartbeatAck (mkHeartbeat (hb_stream_id v) (hb_time v))) s) as Hq.
      destruct (send_tx _ s) as [[] s2]; injection E1 as <- <- <-; by eapply wait_inv_same.
    - case_match; injection E1 as <- <- <-; [done|]. eapply wait_inv_same; [exact Hs|by split]. }
  assert (forall s', wait_inv l s' -> wait_inv l (set_close true s')) as Hcl.
  { intros s' Hs'. eapply wait_inv_same; [exact Hs'|by split]. }
  destruct o as [[d ids]|e| |]; [|by apply Hcl..].
  destruct (deliver _ env d ids _ (s1, r1)) as [o2 [s2 r2]] eqn:E2.
  pose proof (wait_inv_same _ _ _ Hs1 (deliver_same _ _ _ _ _ _ _ _ _ _ E2)) as Hs2.
  destruct o2 as [ids2|e| |]; [|by apply Hcl..].
  destruct (decide (ids2 = [])); [done|]. unfold on_fst. cbn.
  eapply wait_inv_same; [exact Hs2|apply send_tx_same].
Qed.

(** A pack sent again under its own number, or a new one. *)
Lemma to_peer_wait l id p first s o s' :
  waiting_pack_map s !! id = None ->
  window s = pack_len p + in_flight (waiting_pack_map s) ->
  pack_len p + in_flight (waiting_pack_map s) <= l -> l < 2 ^ 63 ->
  (forall i, is_Some (waiting_pack_map s !! i) ->
     exists info, info ∈ waiting_pack_infos s /\ wait_pack_id info = i) ->
  stream_pack_to_peer_client id p first s = (o, s') -> wait_inv l s'.
Proof.
  intros Hn Hw Hl H63 Hcov. unfold stream_pack_to_peer_client.
  set (f := if 0 <? first then _ else _). set (s1 := set_map _ _).
  assert (wait_inv l s1) as Hs1.
  { split; cbn; rewrite ?in_flight_insert by done; cbn; try done.
    intros i Hi. destruct (decide (id = i)) as [<-|Hne].
    - eexists. split; [apply elem_of_app; right; by constructor|done].
    - rewrite lookup_insert_ne in Hi by done. destruct (Hcov i Hi) as (info & Hin & ?).
      exists info. split; [apply elem_of_app; by left|done]. }
  clearbody s1. unfold send_tx.
  destruct (tx_open s1); intros E; injection E as <- <-; [|done].
  eapply wait_inv_same; [exact Hs1|by split].
Qed.

Lemma resend_wait l fuel now limit s o s' :
  wait_inv l s -> resend_loop fuel now limit s = (o, s') -> wait_inv l s'.
Proof.
  revert s. induction fuel as [|fuel IH]; intros s Hs; cbn [resend_loop].
  { intros E. by injection E as <- <-. }
  destruct (waiting_pack_infos s) as [|info infos] eqn:Ei; [intros E; by injection E as <- <-|].
  case_match; [|intros E; by injection E as <- <-]. cbn [waiting_pack_map set_infos].
  destruct Hs as [H1 H2 H3 H4]. rewrite Ei in H4.
  assert (forall i, i <> wait_pack_id info -> is_Some (waiting_pack_map s !! i) ->
    exists info0, info0 ∈ infos /\ wait_pack_id info0 = i) as Hcov.
  { intros i Hne Hi. destruct (H4 i Hi) as (j & [->|Hj]%elem_of_cons & Hid); [done|by exists j]. }
  destruct (waiting_pack_map s !! wait_pack_id info) as [[p first]|] eqn:Em.
  - pose proof (in_flight_delete _ _ _ Em) as Hd. cbn [fst] in Hd.
    destruct (stream_pack_to_peer_client _ _ _ _) as [o1 s1] eqn:E1.
    assert (wait_inv l s1) as Hs1.
    { eapply to_peer_wait; [..|exact E1]; cbn; try lia.
      - apply lookup_delete_eq.
      - intros i [x [Hne Hx]%lookup_delete_Some]. apply Hcov; [done|by exists x]. }
    destruct o1; [by apply IH|intros E; by injection E as <- <-..].
  - apply IH. split; cbn; try done. intros i Hi. apply Hcov; [|done].
    intros ->. rewrite Em in Hi. by destruct Hi.
Qed.

(** ** Every reachable state *)

(** No piece the application wrote is longer than [m] bytes. *)
Definition pieces_bound (m : Z) (e : Endpoint) : Prop := Forall (fun d => zlen d <= m) (written e).

Definition window_limit (m : Z) : Z := DEFAULT_WINDOW_LEN - 1 + m.

Record end_inv (m : Z) (e : Endpoint) : Prop := {
  ei_wait : wait_inv (window_limit m) (sp e);
  ei_send : send_inv (written e) (sp e);
  ei_id : ended e = false -> snd_id e = zlen (written e)
}.

Lemma write_wait m d id s o s' w :
  wait_inv (window_limit m) s -> send_inv w s -> id = zlen w -> zlen w < 2 ^ 32 - 1 ->
  window_ready s = true -> zlen d <= m ->
  stream_to_stream_pack d id s = (o, s') -> wait_inv (window_limit m) s'.
Proof.
  intros [H1 H2 H3 H4] Hse -> Hlt Hr Hd. unfold stream_to_stream_pack.
  pose proof (zlen_nonneg w). pose proof (zlen_nonneg d).
  unfold window_ready, window_limit, DEFAULT_WINDOW_LEN in *.
  apply negb_true_iff, Z.leb_gt in Hr.
  pose proof (in_flight_nonneg (waiting_pack_map s)).
  cbn [sp_stream_id add_window_size set_window set_window_pack_id]. unwrap.
  destruct (stream_pack_to_peer_client _ _ 0 _) as [o1 s1] eqn:E1.
  assert (wait_inv (1024 * 1024 - 1 + m) s1) as Hs1.
  { eapply to_peer_wait; [..|exact E1]; cbn [waiting_pack_map window waiting_pack_infos
      add_window_size set_window set_window_pack_id pack_len datas].
    - destruct (waiting_pack_map s !! (zlen w + 1)) as [[p t]|] eqn:Em; [|done].
      destruct (se_map _ _ Hse _ _ _ Em) as (v & _ & Hid & Hg). apply genuine_range in Hg. lia.
    - unwrap. lia.
    - lia.
    - done.
    - done. }
  destruct o1; intros E; by injection E as <- <-.
Qed.

Lemma heartbeat_same s o s' : heartbeat s = (o, s') -> same_wait s s'.
Proof.
  unfold heartbeat, send_heartbeat. case_match; [intros E; by injection E as <- <-|].
  case_match; [intros E; by injection E as <- <-|].
  pose proof (send_tx_same (PHeartbeat (mkHeartbeat (sp_stream_id s) (curr_timestamp s))) s) as Hq.
  destruct (send_tx _ s) as [[] s1]; intros E; by injection E as <- <-.
Qed.

Lemma end_step_wait m inc e e' :
  in_bound e' -> pieces_bound m e' -> end_step inc e e' -> end_inv m e ->
  wait_inv (window_limit m) (sp e').
Proof.
  unfold pieces_bound. intros Hb Hp Hst [Hw Hs Hid]. pose proof (end_step_bound _ _ _ Hst Hb) as Hb0.
  destruct Hst as [e d id s He Hwr E|e d err s He Hwr E|e ev env He Hev|e rtt s He E|e s He E|e now He|e He];
    cbn [sp written] in *.
  - apply Forall_app in Hp as [_ Hd]. apply (proj1 (Forall_singleton _ _)) in Hd.
    exact (write_wait m _ _ _ _ _ _ Hw Hs (Hid He) Hb0 Hwr Hd E).
  - apply Forall_app in Hp as [_ Hd]. apply (proj1 (Forall_singleton _ _)) in Hd.
    eapply wait_inv_same; [|apply send_tx_same].
    exact (write_wait m _ _ _ _ _ _ Hw Hs (Hid He) Hb0 Hwr Hd E).
  - by apply turn_wait_inv.
  - unfold check_waiting_pack_timeout in E.
    destruct (is_close (sp e)); [by injection E as <-|by eapply resend_wait].
  - eapply wait_inv_same; [exact Hw|by eapply heartbeat_same].
  - eapply wait_inv_same; [exact Hw|by split].
  - eapply wait_inv_same; [exact Hw|apply send_tx_same].
Qed.

Lemma end_bounds_step m inc e e' : end_step inc e e' -> pieces_bound m e' -> pieces_bound m e.
Proof.
  unfold pieces_bound. destruct 1; cbn; try done; intros [Hp _]%Forall_app; done.
Qed.

Lemma reachable_net_inv id t1 t2 s : reachable id t1 t2 s -> net_inv s.
Proof.
  induction 1 as [|s s' _ IH Hst]; [|by eapply net_inv_step].
  intros _ _. split; split; cbn; try apply recv_inv_new; try done;
    split; cbn; try (intros v Hv; by apply elem_of_nil in Hv); by intros.
Qed.

Lemma wait_inv_init m id now :
  0 <= m < 2 ^ 62 -> wait_inv (window_limit m) (stream_new id now).
Proof.
  intros Hm. unfold window_limit, DEFAULT_WINDOW_LEN.
  split; cbn [window waiting_pack_map stream_new waiting_pack_infos]; rewrite ?in_flight_empty;
    try done; try lia.
  intros i [x Hx]. by rewrite lookup_empty in Hx.
Qed.

Definition pair_wait (m : Z) (s : Endpoint * Endpoint) : Prop :=
  in_bound s.1 -> in_bound s.2 -> pieces_bound m s.1 -> pieces_bound m s.2 ->
  wait_inv (window_limit m) (sp s.1) /\ wait_inv (window_limit m) (sp s.2).

Lemma reachable_wait m id t1 t2 s :
  0 <= m < 2 ^ 62 -> reachable id t1 t2 s -> pair_wait m s.
Proof.
  intros Hm. induction 1 as [|s s' Hr IH Hst]; [by split; apply wait_inv_init|].
  pose proof (reachable_net_inv _ _ _ _ Hr) as Hn.
  intros Hb1 Hb2 Hp1 Hp2. destruct Hst as [a a' b Hst|a b b' Hst]; cbn in *.
  - pose proof (end_step_bound _ _ _ Hst Hb1) as Hb. pose proof (end_bounds_step _ _ _ _ Hst Hp1) as Hp.
    destruct (IH Hb Hb2 Hp Hp2) as [Hwa Hwb]. destruct (Hn Hb Hb2) as [[_ Hs Hid] _].
    split; [|done]. eapply end_step_wait; [done..|]. by split.
  - pose proof (end_step_bound _ _ _ Hst Hb2) as Hb. pose proof (end_bounds_step _ _ _ _ Hst Hp2) as Hp.
    destruct (IH Hb1 Hb Hp1 Hp) as [Hwa Hwb]. destruct (Hn Hb1 Hb) as [_ [_ Hs Hid]].
    split; [done|]. eapply end_step_wait; [done..|]. by split.
Qed.

(** C15. Flow control is exact in every reachable state: the window counts
    precisely the bytes sent and not yet acknowledged, however acknowledgements
    are repeated and packs retransmitted, so an end never has more than the
    window plus one piece outstanding; and each of those packs is queued for
    retransmission. *)
Theorem window_is_exact m id t1 t2 a b :
  0 <= m < 2 ^ 62 -> reachable id t1 t2 (a, b) ->
  in_bound a -> in_bound b -> pieces_bound m a -> pieces_bound m b ->
  window (sp a) = in_flight (waiting_pack_map (sp a)) /\
  window (sp a) < DEFAULT_WINDOW_LEN + m /\
  forall i, is_Some (waiting_pack_map (sp a) !! i) ->
    exists info, info ∈ waiting_pack_infos (sp a) /\ wait_pack_id info = i.
Proof.
  intros Hm Hr H1 H2 H3 H4. destruct (reachable_wait m id t1 t2 _ Hm Hr H1 H2 H3 H4) as [Hw _].
  destruct Hw as [Hw Hl _ Hc]. cbn in *. unfold window_limit in Hl. rewrite Hw. split_and!; [done|lia|done].
Qed.

(** ** Retransmission *)

Definition expired (rtt : Z) (s : StreamPack) (info : WaitingPackInfo) : Prop :=
  timeout_millis rtt < curr_timestamp s - insert_timestamp info.

(** The packs that the entries name, of those still waiting. *)
Definition still_waiting (m : gmap Z (TunnelPack * Z)) (infos : list WaitingPackInfo)
    : list TunnelPack :=
  omap (fun info => fst <$> m !! wait_pack_id info) infos.

Lemma still_waiting_same m m' infos :
  (forall i, fst <$> m !! i = fst <$> m' !! i) -> still_waiting m infos = still_waiting m' infos.
Proof.
  intros Hm. unfold still_waiting. induction infos as [|info infos IH]; [done|].
  cbn [omap list_omap]. by rewrite Hm, IH.
Qed.

(** The queue is a run of expired entries before the first that is not. *)
Record due (s : StreamPack) (now limit : Z) (exp rest : list WaitingPackInfo) : Prop := {
  du_open : tx_open s = true;
  du_now : curr_timestamp s = now;
  du_infos : waiting_pack_infos s = exp ++ rest;
  du_exp : Forall (fun info => limit < now - insert_timestamp info) exp;
  du_rest : forall info, head rest = Some info -> now - insert_timestamp info <= limit
}.

Lemma resend_one s now limit info exp rest p first :
  0 <= limit -> due s now limit (info :: exp) rest ->
  waiting_pack_map s !! wait_pack_id info = Some (p, first) ->
  exists s1 new,
    stream_pack_to_peer_client (wait_pack_id info) p first
      (set_map (delete (wait_pack_id info) (waiting_pack_map s)) (set_infos (exp ++ rest) s))
      = (Ok tt, s1) /\
    due s1 now limit exp (rest ++ [new]) /\ tx s1 = tx s ++ [p] /\
    (forall i, fst <$> waiting_pack_map s1 !! i = fst <$> waiting_pack_map s !! i).
Proof.
  intros Hl [Ho Hn Hi He Hr] Hm. unfold stream_pack_to_peer_client, send_tx.
  set (f := if 0 <? first then _ else _). clearbody f. cbn [tx_open set_map set_infos]. rewrite Ho.
  eexists _, _. split; [reflexivity|]. cbn. split_and!; [|done|].
  - inversion He; subst. split; cbn; try done.
    + by rewrite app_assoc.
    + intros j Hj. destruct rest as [|x rest]; cbn in Hj.
      * injection Hj as <-. cbn. lia.
      * apply Hr. done.
  - intros i. destruct (decide (wait_pack_id info = i)) as [<-|Hne].
    + by rewrite lookup_insert_eq, Hm.
    + by rewrite lookup_insert_ne, lookup_delete_ne by done.
Qed.

Lemma resend_loop_spec fuel now limit s exp rest :
  0 <= limit -> due s now limit exp rest -> (length exp < fuel)%nat ->
  exists s', resend_loop fuel now limit s = (Ok tt, s') /\
    tx s' = tx s ++ still_waiting (waiting_pack_map s) exp /\
    (forall i, fst <$> waiting_pack_map s' !! i = fst <$> waiting_pack_map s !! i).
Proof.
  intros Hl. revert s exp rest. induction fuel as [|fuel IH]; intros s exp rest Hd Hf; [lia|].
  pose proof Hd as [Ho Hn Hi He Hr]. cbn [resend_loop]. rewrite Hi.
  destruct exp as [|info exp]; cbn [app].
  - assert ((match rest with [] => (Ok tt, s) | info :: infos =>
      if limit <? now - insert_timestamp info then (Fuel, s) else (Ok tt, s) end) = (Ok tt, s)) as E.
    { destruct rest as [|x rest]; [done|]. specialize (Hr x eq_refl). by zcases. }
    exists s. split; [|by rewrite app_nil_r].
    destruct rest as [|x rest]; [done|]. by destruct (limit <? _).
  - inversion He as [|? ? Hx He']; subst. destruct (Z.ltb_spec limit (curr_timestamp s - insert_timestamp info)); [|lia].
    cbn [waiting_pack_map set_infos].
    destruct (waiting_pack_map s !! wait_pack_id info) as [[p first]|] eqn:Em.
    + destruct (resend_one s (curr_timestamp s) limit info exp rest p first)
        as (s1 & new & -> & Hd1 & Ht1 & Hm1); [done..|].
      destruct (IH s1 exp (rest ++ [new]) Hd1) as (s' & E & Ht & Hm); [cbn in Hf; lia|].
      exists s'. split; [exact E|]. split.
      * rewrite Ht, Ht1, (still_waiting_same _ _ _ Hm1). unfold still_waiting at 2.
        cbn [omap list_omap]. rewrite Em. cbn. by rewrite <- app_assoc.
      * intros i. by rewrite Hm.
    + destruct (IH (set_infos (exp ++ rest) s) exp rest) as (s' & E & Ht & Hm);
        [by split|cbn in Hf; lia|].
      exists s'. split; [exact E|]. split; [|done]. rewrite Ht. unfold still_waiting at 2.
      cbn [omap list_omap]. by rewrite Em.
Qed.

(** C25. A timeout check ends, whatever the round trip time was before its sleep, and sends again, in the order of their first
    transmission, exactly the packs whose time has run out and that are still
    not acknowledged; every one of them stays registered for the next check. *)
Theorem expired_packs_resent rtt s exp rest :
  is_close s = false -> tx_open s = true ->
  waiting_pack_infos s = exp ++ rest -> Forall (expired rtt s) exp ->
  (forall info, head rest = Some info -> ~ expired rtt s info) ->
  exists s', check_waiting_pack_timeout rtt s = (Ok tt, s') /\
    tx s' = tx s ++ still_waiting (waiting_pack_map s) exp /\
    (forall i, fst <$> waiting_pack_map s' !! i = fst <$> waiting_pack_map s !! i).
Proof.
  intros Hc Ho Hi He Hr. unfold check_waiting_pack_timeout. rewrite Hc.
  apply (resend_loop_spec _ _ _ _ exp rest).
  - unfold timeout_millis. zcases.
  - split; try done. intros info Hh. specialize (Hr info Hh). unfold expired in Hr. lia.
  - rewrite Hi, length_app. lia.
Qed.

(** ** Concrete runs *)

Definition demo_hello : StreamPack := stream_new 7 0.

Lemma window_is_exact_witness :
  exists a, reachable 7 0 0 (a, end_new 7 0) /\ window (sp a) = 3.
Proof.
  set (a := mkEnd (stream_to_stream_pack [1; 2; 3] 0 (stream_new 7 0)).2 recv_new 1 [[1; 2; 3]] false).
  assert (reachable 7 0 0 (a, end_new 7 0)) as Hr.
  { eapply reach_step; [apply reach_init|]. apply net_left.
    apply (step_write _ (end_new 7 0) [1; 2; 3] 1); by vm_compute. }
  exists a. split; [exact Hr|].
  destruct (window_is_exact 3 7 0 0 a (end_new 7 0)) as [-> _]; try done.
  - repeat constructor. done.
  - constructor.
Defined.

Lemma expired_packs_resent_witness :
  exists s', check_waiting_pack_timeout 50
      (set_now 5000 (stream_to_stream_pack [1; 2; 3] 0 (stream_new 7 0)).2) = (Ok tt, s') /\
    length (tx s') = 2%nat.
Proof.
  destruct (expired_packs_resent 50
    (set_now 5000 (stream_to_stream_pack [1; 2; 3] 0 (stream_new 7 0)).2)
    [mkWaiting 0 0 1] []) as (s' & E & Ht & _); try done.
  - constructor; [by vm_compute|constructor].
  - exists s'. split; [exact E|]. rewrite Ht. by vm_compute.
Defined.
