(* ===== verification/StreamLive.v ===== *)
(** What a pair of streams can always still achieve: nothing that was written
    is ever out of reach, and the window never stays closed for good. *)
From S2P Require Import Prelude TunnelPack StreamPack StreamOrder StreamNet StreamWindow.
#[local] Open Scope Z_scope.

(** ** What an end has said stays said *)

Record grows (s s' : StreamPack) : Prop := {
  gr_tx : forall p, p ∈ tx s -> p ∈ tx s';
  gr_open : tx_open s' = tx_open s;
  gr_close : is_close s' = is_close s;
  gr_id : sp_stream_id s' = sp_stream_id s
}.

#[export] Instance grows_refl : Reflexive grows.
Proof. by split. Qed.
#[export] Instance grows_trans : Transitive grows.
Proof. intros a b c [] []. split; [by auto|congruence..]. Qed.

Lemma send_tx_grows p s : grows s (send_tx p s).2.
Proof.
  unfold send_tx. destruct (tx_open s) eqn:E; split; try done. intros q Hq. cbn. apply elem_of_app. by left.
Qed.

Lemma flush_acks_grows ids m s ids' s' : flush_acks ids m s = (ids', s') -> grows s s'.
Proof. unfold flush_acks. case_match; intros E; injection E as <- <-; [apply send_tx_grows|done]. Qed.

Lemma deliver_grows fuel env d ids m s r o s' r' :
  deliver fuel env d ids m (s, r) = (o, (s', r')) -> grows s s'.
Proof.
  revert env d ids m s r. induction fuel as [|fuel IH]; intros env d ids m s r; cbn [deliver].
  { intros E. by injection E as <- <- <-. }
  destruct (match d with Some _ => _ | None => _ end) as [[v cache]|]; [|intros E; by injection E as <- <- <-].
  destruct (flush_acks _ m s) as [ids1 s1] eqn:E1. apply flush_acks_grows in E1.
  destruct (default _ _) as [res brk]. destruct (if stream_closed _ then _ else _) as [|ok|].
  - destruct brk; intros E; [by injection E as <- <- <-|]. etransitivity; [exact E1|by eapply IH].
  - destruct (flush_acks ids1 1 s1) as [ids2 s2] eqn:E2. apply flush_acks_grows in E2.
    assert (grows s s2) by by etransitivity.
    destruct ok; cbn [negb]; [|intros E; by injection E as <- <- <-].
    destruct brk; intros E; [by injection E as <- <- <-|]. etransitivity; [done|by eapply IH].
  - intros E. by injection E as <- <- <-.
Qed.

Lemma ack_loop_grows ids first s t s' : ack_loop ids first s = (t, s') -> grows s s'.
Proof.
  revert first s. induction ids as [|id ids IH]; intros first s; cbn [ack_loop].
  { intros E. by injection E as <- <-. }
  destruct (waiting_pack_map s !! id) as [[p u]|]; [|apply IH].
  intros E%IH. etransitivity; [|exact E]. by destruct p.
Qed.

Lemma receive_grows ev s r o s' r' : receive ev (s, r) = (o, (s', r')) -> grows s s'.
Proof.
  unfold receive. destruct ev as [p| |]; [|intros E; by injection E as <- <- <-..].
  destruct p as [v|v|v|v|v|v|v|v]; try (intros E; by injection E as <- <- <-).
  - repeat (case_match || case_decide); intros E; by injection E as <- <- <-.
  - case_match; intros E; injection E as <- <- <-; [done|]. unfold on_ack.
    destruct (ack_loop _ 0 s) as [t s2] eqn:E2. apply ack_loop_grows in E2.
    case_match; [|done]. etransitivity; [exact E2|by split].
  - case_match; [intros E; by injection E as <- <- <-|]. unfold send_heartbeat_ack.
    pose proof (send_tx_grows (PHeartbeatAck (mkHeartbeat (hb_stream_id v) (hb_time v))) s) as Hq.
    destruct (send_tx _ s) as [[] s2]; intros E; by injection E as <- <- <-.
  - case_match; intros E; injection E as <- <- <-; [done|by split].
Qed.

(** A turn adds to what was said; it may close the stream. *)
Lemma turn_grows ev env s r : exists s', grows s s' /\
  ((turn ev env s r).1 = s' \/ (turn ev env s r).1 = set_close true s').
Proof.
  unfold turn. destruct (is_close s); [exists s; by split; [|left]|]. unfold mbind, stm_bind.
  destruct (receive ev (s, r)) as [o [s1 r1]] eqn:E1. apply receive_grows in E1.
  destruct o as [[d ids]|e| |]; [|exists s1; split; [done|by right]..].
  destruct (deliver _ env d ids _ (s1, r1)) as [o2 [s2 r2]] eqn:E2. apply deliver_grows in E2.
  assert (grows s s2) by by etransitivity.
  destruct o2 as [ids2|e| |]; [|exists s2; split; [done|by right]..].
  destruct (decide (ids2 = [])); [exists s2; by split; [|left]|]. unfold on_fst. cbn.
  eexists. split; [|by left]. etransitivity; [done|apply send_tx_grows].
Qed.

(** ** Everything written was sent

    The packs are those of stream [id], the way to the peer is open, and an
    end that is not over has sent a pack for each piece it took. *)
Definition of_stream (id : Z) (p : TunnelPack) : Prop :=
  match p with PData v => stream_id (data_header v) = id | _ => True end.

Record out_inv (id : Z) (w : list (list Z)) (s : StreamPack) : Prop := {
  ou_open : tx_open s = true;
  ou_id : sp_stream_id s = id;
  ou_tx : forall p, p ∈ tx s -> of_stream id p;
  ou_map : forall i x, waiting_pack_map s !! i = Some x -> of_stream id x.1;
  ou_all : forall i, 1 <= i <= zlen w -> exists v, PData v ∈ tx s /\ pack_id (data_header v) = i
}.

Lemma out_inv_new id now : out_inv id [] (stream_new id now).
Proof.
  split; cbn; try done; [by intros p Hp%elem_of_nil|]. intros i Hi. unfold zlen in Hi. cbn in Hi. lia.
Qed.

Lemma out_inv_quiet id w s s' : out_inv id w s -> quiet s s' -> grows s s' -> out_inv id w s'.
Proof.
  intros [H1 H2 H3 H4 H5] [Q1 Q2 Q3] [G1 G2 _ _]. split; [congruence|congruence|..].
  - intros p Hp. destruct p as [v|v|v|v|v|v|v|v]; try done. by apply H3, Q1.
  - intros i x Hx. apply (H4 i). by eapply lookup_weaken.
  - intros i Hi. destruct (H5 i Hi) as (v & Hv & Hid). exists v. split; [by apply G1|done].
Qed.

Lemma out_inv_close id w s : out_inv id w s -> out_inv id w (set_close true s).
Proof. intros []. by split. Qed.

(** Sending a pack of the stream, for the first time or again. *)
Lemma to_peer_out id w n p first s :
  out_inv id w s -> of_stream id p ->
  exists s', stream_pack_to_peer_client n p first s = (Ok tt, s') /\ out_inv id w s' /\
    p ∈ tx s' /\ is_close s' = is_close s.
Proof.
  intros [H1 H2 H3 H4 H5] Hp. unfold stream_pack_to_peer_client, send_tx.
  set (f := if 0 <? first then _ else _). clearbody f. cbn [tx_open set_map set_infos]. rewrite H1.
  eexists. split; [reflexivity|]. cbn. split_and!; [|apply elem_of_app; right; by constructor|done].
  split; cbn; try done.
  - intros q [Hq|Hq]%elem_of_app; [by apply H3|]. apply list_elem_of_singleton in Hq. by subst.
  - intros i x [[_ <-]|[_ Hx]]%lookup_insert_Some; [done|by eapply H4].
  - intros i Hi. destruct (H5 i Hi) as (v & Hv & Hid). exists v. split; [apply elem_of_app; by left|done].
Qed.

Lemma resend_out id w fuel now limit s o s' :
  out_inv id w s -> resend_loop fuel now limit s = (o, s') -> out_inv id w s'.
Proof.
  revert s. induction fuel as [|fuel IH]; intros s Hs; cbn [resend_loop]; [by intros [= <- <-]|].
  destruct (waiting_pack_infos s) as [|info infos]; [by intros [= <- <-]|].
  case_match; [|by intros [= <- <-]]. cbn [waiting_pack_map set_infos].
  assert (out_inv id w (set_infos infos s)) as H0 by (destruct Hs; by split).
  destruct (waiting_pack_map s !! wait_pack_id info) as [[p first]|] eqn:Ei; [|by apply IH].
  set (s1 := set_map _ _). assert (out_inv id w s1) as Hs1.
  { destruct H0 as [H1 H2 H3 H4 H5]. split; try done. cbn. intros i x [_ Hx]%lookup_delete_Some. by eapply H4. }
  destruct (to_peer_out id w (wait_pack_id info) p first s1 Hs1) as (s2 & -> & Hs2 & _).
  { apply (ou_map _ _ _ Hs _ _ Ei). }
  by apply IH.
Qed.

Lemma write_out id w d s :
  out_inv id w s -> zlen w < 2 ^ 32 - 1 ->
  exists s', stream_to_stream_pack d (zlen w) s = (Ok (zlen w + 1), s') /\ out_inv id (w ++ [d]) s'.
Proof.
  intros Hs Hlt. unfold stream_to_stream_pack. pose proof (zlen_nonneg w).
  assert (out_inv id w (add_window_size (zlen d) (zlen w) s)) as Hs1 by (destruct Hs; by split).
  revert Hs1. generalize (add_window_size (zlen d) (zlen w) s). intros s1 Hs1. unwrap. set (p := PData _).
  destruct (to_peer_out id w (zlen w + 1) p 0 s1 Hs1) as (s2 & -> & [H1 H2 H3 H4 H5] & Hp & _).
  { cbn. apply (ou_id _ _ _ Hs1). }
  eexists. split; [reflexivity|]. split; try done. intros i Hi. rewrite zlen_app in Hi. change (zlen [d]) with 1 in Hi.
  destruct (decide (i = zlen w + 1)) as [->|Hne]; [by eexists|]. apply H5. lia.
Qed.

Definition end_out (id : Z) (e : Endpoint) : Prop :=
  in_bound e -> ended e = false -> out_inv id (written e) (sp e).

Lemma turn_out id w wp ev env s r :
  out_inv id w s -> recv_inv wp r -> honest wp ev -> zlen wp < 2 ^ 32 - 1 ->
  out_inv id w (turn ev env s r).1.
Proof.
  intros Hs Hr Hh Hw. destruct (turn_inv wp ev env s r Hr Hh Hw) as [_ Hq].
  destruct (turn_grows ev env s r) as (s' & Hg & E).
  destruct E as [E|E]; rewrite E in *.
  - by eapply out_inv_quiet.
  - destruct Hq as [Q1 Q2 Q3]. apply out_inv_close. eapply out_inv_quiet; [exact Hs| |exact Hg]. by split.
Qed.

Lemma heartbeat_grows s o s' : heartbeat s = (o, s') -> grows s s'.
Proof.
  unfold heartbeat, send_heartbeat. case_match; [intros E; by injection E as <- <-|].
  case_match; [intros E; by injection E as <- <-|].
  pose proof (send_tx_grows (PHeartbeat (mkHeartbeat (sp_stream_id s) (curr_timestamp s))) s) as Hq.
  destruct (send_tx _ s) as [[] s1]; intros E; by injection E as <- <-.
Qed.

Lemma end_step_out id inc wp e e' :
  end_step inc e e' -> (forall v, inc (PData v) -> genuine wp v) -> zlen wp < 2 ^ 32 - 1 ->
  recv_inv wp (rx e) -> (ended e = false -> snd_id e = zlen (written e)) ->
  end_out id e -> end_out id e'.
Proof.
  intros Hst Hinc Hwp Hr Hid Ho Hb He'. pose proof (end_step_bound _ _ _ Hst Hb) as Hb0. unfold in_bound in *.
  destruct Hst as [e d n s He Hwr E|e d err s He Hwr E|e ev env He Hev|e rtt s He E|e s He E|e now He|e He];
    cbn [sp written rx snd_id ended] in *; try done; specialize (Ho Hb0 He).
  - rewrite (Hid He) in E. destruct (write_out id _ d _ Ho Hb0) as (s' & E' & Hs').
    rewrite E in E'. by injection E' as _ <-.
  - apply (turn_out id _ wp); try done. intros v ->. by apply Hinc, Hev.
  - unfold check_waiting_pack_timeout in E. destruct (is_close (sp e)); [by injection E as <-|by eapply resend_out].
  - eapply out_inv_quiet; [exact Ho|by eapply heartbeat_quiet|by eapply heartbeat_grows].
  - destruct Ho. by split.
Qed.

Lemma reachable_out id t1 t2 s :
  reachable id t1 t2 s -> in_bound s.1 -> in_bound s.2 -> end_out id s.1 /\ end_out id s.2.
Proof.
  induction 1 as [|s s' Hr IH Hst]; [by split; intros _ _; apply out_inv_new|]. intros H1 H2.
  pose proof (reachable_net_inv _ _ _ _ Hr) as Hn. destruct Hst as [a a' b Hst|a b b' Hst]; cbn in *.
  - pose proof (end_step_bound _ _ _ Hst H1) as Hb. destruct (IH Hb H2) as [Ia Ib]. destruct (Hn Hb H2) as [Fa Fb].
    split; [|done]. eapply (end_step_out id _ (written b)); [exact Hst|..]; try done; try apply Fa; try apply Fb.
  - pose proof (end_step_bound _ _ _ Hst H2) as Hb. destruct (IH H1 Hb) as [Ia Ib]. destruct (Hn H1 Hb) as [Fa Fb].
    split; [done|]. eapply (end_step_out id _ (written a)); [exact Hst|..]; try done; try apply Fa; try apply Fb.
Qed.

(** ** What was handed on is known *)

(** The receiver remembers every number it got past, so that a pack that comes
    again is acknowledged again. *)
Definition knows_all (r : Recv) : Prop := forall i, 1 <= i < next_id r -> i ∈ send_pack_id_map r.

Lemma knows_step wp r v c d cl :
  knows_all r -> genuine wp v -> pack_id (data_header v) = next_id r -> zlen wp < 2 ^ 32 - 1 ->
  knows_all (mkRecv (wrap32 (next_id r + 1)) ({[pack_id (data_header v)]} ∪ send_pack_id_map r) c d cl).
Proof.
  intros Hk Hg Hid Hw i. pose proof (genuine_range _ _ Hg) as Hr. rewrite Hid in *. cbn. unwrap. intros Hi.
  rewrite elem_of_union, elem_of_singleton. destruct (decide (i = next_id r)); [by left|right].
  apply Hk. lia.
Qed.

Lemma deliver_knows wp fuel env d ids m s r o s' r' :
  recv_inv wp r -> knows_all r -> zlen wp < 2 ^ 32 - 1 ->
  (forall v, d = Some v -> genuine wp v /\ pack_id (data_header v) = next_id r) ->
  deliver fuel env d ids m (s, r) = (o, (s', r')) -> knows_all r'.
Proof.
  intros Hr Hk Hw. revert env d ids m s r Hr Hk.
  induction fuel as [|fuel IH]; intros env d ids m s r Hr Hk Hd; cbn [deliver]; [by intros [= <- <- <-]|].
  set (next := match d with Some _ => _ | None => _ end).
  assert (forall v cache, next = Some (v, cache) ->
    (genuine wp v /\ pack_id (data_header v) = next_id r) /\
    forall i u, cache !! i = Some u -> recv_pack_cache_map r !! i = Some u) as Hnext by (intros v cache; by apply (awaited_ok _ _ d)).
  destruct next as [[v cache]|]; [|by intros [= <- <- <-]].
  destruct (Hnext v cache eq_refl) as [[Hg Hid] Hcache]. clear Hnext.
  destruct (flush_acks _ m s) as [ids1 s1]. destruct (default _ _) as [res brk].
  cbn [stream_closed next_id send_pack_id_map delivered].
  assert (forall d cl, knows_all (mkRecv (wrap32 (next_id r + 1))
    ({[pack_id (data_header v)]} ∪ send_pack_id_map r) cache d cl)) as Hk'.
  { intros d' cl. by eapply knows_step. }
  destruct (stream_closed r) eqn:Ec; [by intros [= <- <- <-]|].
  pose proof (recv_step_inv wp r v cache Hr Hg Hid Hw Ec Hcache) as Hstep.
  destruct res as [|ok|]; [|destruct (flush_acks ids1 1 s1) as [ids2 s2]; destruct ok; cbn [negb]|by intros [= <- <- <-]].
  - destruct brk; [by intros [= <- <- <-]|]. by apply (IH (tail env) None).
  - destruct brk; [by intros [= <- <- <-]|]. by apply (IH (tail env) None).
  - by intros [= <- <- <-].
Qed.

Lemma turn_knows wp ev env s r :
  recv_inv wp r -> knows_all r -> honest wp ev -> zlen wp < 2 ^ 32 - 1 ->
  knows_all (turn ev env s r).2.
Proof.
  intros Hr Hk Hh Hw. unfold turn. destruct (is_close s); [done|]. unfold mbind, stm_bind.
  destruct (receive ev (s, r)) as [o [s1 r1]] eqn:E1.
  destruct (receive_inv wp ev s r o s1 r1) as (Hr1 & _ & Hd); [done..|].
  assert (knows_all r1) as Hk1.
  { revert E1. unfold receive. destruct ev as [[]| |]; repeat (case_match || case_decide); by intros [= <- <- <-]. }
  destruct o as [[d ids]|e| |]; [|done..].
  destruct (deliver _ env d ids _ (s1, r1)) as [o2 [s2 r2]] eqn:E2.
  assert (knows_all r2) by (eapply (deliver_knows wp); [exact Hr1|exact Hk1|exact Hw| |exact E2]; by eapply Hd).
  destruct o2 as [ids2|e| |]; [|done..].
  destruct (decide (ids2 = [])); [done|]. unfold on_fst. by destruct (send_tunnel_data_ack ids2 s2) as [[] ?].
Qed.

Lemma end_step_knows inc wp e e' :
  end_step inc e e' -> (forall v, inc (PData v) -> genuine wp v) -> zlen wp < 2 ^ 32 - 1 ->
  recv_inv wp (rx e) -> knows_all (rx e) -> knows_all (rx e').
Proof.
  intros Hst Hinc Hw Hr Hk. destruct Hst as [| |e ev env He Hev| | | |]; try done.
  apply (turn_knows wp); try done. intros v ->. by apply Hinc, Hev.
Qed.

Lemma reachable_knows id t1 t2 s :
  reachable id t1 t2 s -> in_bound s.1 -> in_bound s.2 -> knows_all (rx s.1) /\ knows_all (rx s.2).
Proof.
  induction 1 as [|s s' Hr IH Hst]; [by split; intros i; cbn; lia|]. intros H1 H2.
  pose proof (reachable_net_inv _ _ _ _ Hr) as Hn. destruct Hst as [a a' b Hst|a b b' Hst]; cbn in *.
  - pose proof (end_step_bound _ _ _ Hst H1) as Hb. destruct (IH Hb H2) as [Ia Ib]. destruct (Hn Hb H2) as [Fa Fb].
    split; [|done]. eapply (end_step_knows _ (written b)); [exact Hst|..]; try done; try apply Fb.
  - pose proof (end_step_bound _ _ _ Hst H2) as Hb. destruct (IH H1 Hb) as [Ia Ib]. destruct (Hn H1 Hb) as [Fa Fb].
    split; [done|]. eapply (end_step_knows _ (written a)); [exact Hst|..]; try done; try apply Fa.
Qed.

(** ** A way on *)

Fixpoint take_packs (ps : list TunnelPack) (s : StreamPack) (r : Recv) : StreamPack * Recv :=
  match ps with
  | [] => (s, r)
  | p :: ps => let (s, r) := turn (Got p) [] s r in take_packs ps s r
  end.

Lemma take_feed vs s r : take_packs (PData <$> vs) s r = feed vs s r.
Proof.
  revert s r. induction vs as [|v vs IH]; intros s r; [done|]. cbn [fmap list_fmap take_packs feed].
  destruct (turn _ [] s r). apply IH.
Qed.

(** An end that takes packs, as moves of the pair. *)
Definition with_state (sr : StreamPack * Recv) (e : Endpoint) : Endpoint :=
  mkEnd sr.1 sr.2 (snd_id e) (written e) false.

Lemma take_steps inc ps e :
  (forall p, p ∈ ps -> inc p) -> ended e = false -> rtc (end_step inc) e (with_state (take_packs ps (sp e) (rx e)) e).
Proof.
  revert e. induction ps as [|p ps IH]; intros e Hps He.
  - destruct e; cbn in *; subst. apply rtc_refl.
  - eapply rtc_l; [apply (step_receive _ e (Got p) []); [done|intros q [= <-]; apply Hps; by constructor]|].
    cbn [take_packs]. destruct (turn (Got p) [] (sp e) (rx e)) as [s r]. cbn [fst snd].
    apply (IH (mkEnd s r (snd_id e) (written e) false)); [|done]. intros q Hq. apply Hps. by constructor.
Qed.

Lemma right_steps a b b' : rtc (end_step (sent a)) b b' -> rtc net_step (a, b) (a, b').
Proof. induction 1 as [|x y z Hst _ IH]; [apply rtc_refl|]. eapply rtc_l; [by apply net_right|done]. Qed.

Lemma left_steps a a' b : rtc (end_step (sent b)) a a' -> rtc net_step (a, b) (a', b).
Proof. induction 1 as [|x y z Hst _ IH]; [apply rtc_refl|]. eapply rtc_l; [by apply net_left|done]. Qed.

Lemma reachable_rtc id t1 t2 s s' : reachable id t1 t2 s -> rtc net_step s s' -> reachable id t1 t2 s'.
Proof. intros Hr. induction 1 as [|x y z Hst _ IH]; [done|]. apply IH. by eapply reach_step. Qed.

(** After a second without a pack nothing waits that could be handed on. *)
Lemma timeout_catches_up w s r :
  recv_inv w r -> zlen w < 2 ^ 32 - 1 -> stream_closed r = false -> is_close s = false ->
  caught_up w [] (turn TimedOut [] s r).1 (turn TimedOut [] s r).2 /\
  grows s (turn TimedOut [] s r).1.
Proof.
  intros Hr Hw Hc Hl. unfold turn. rewrite Hl. unfold mbind, stm_bind. cbn [receive].
  destruct (deliver_open w (deliver_fuel r) None [] DEFAULT_MERGE_ACK_SIZE s r)
    as (ids & s' & r' & E & Hr' & Hc' & Hl' & Hn & _); [done..|unfold deliver_fuel; lia|].
  rewrite E. apply deliver_grows in E.
  assert (forall s2, is_close s2 = false -> caught_up w [] s2 r') as Hdone.
  { intros s2 H2. split; try done. intros v Hv. by apply elem_of_nil in Hv. }
  destruct (decide (ids = [])); cbn; [split; [apply Hdone; congruence|done]|].
  unfold on_fst, send_tunnel_data_ack. cbn.
  pose proof (send_tx_grows (PDataAck (mkAck (mkAckHeader (sp_stream_id s') 0) (mkAckData ids))) s') as Hg.
  split; [|by etransitivity]. apply Hdone. rewrite (gr_close _ _ Hg). congruence.
Qed.

(** A pack that comes again is acknowledged again, and nothing else happens. *)
Definition ack_one (id i : Z) : TunnelPack := PDataAck (mkAck (mkAckHeader id 0) (mkAckData [i])).

Lemma turn_again w seen s r v :
  caught_up w seen s r -> stream_id (data_header v) = sp_stream_id s ->
  pack_id (data_header v) ∈ send_pack_id_map r ->
  turn (Got (PData v)) [] s r = ((send_tx (ack_one (sp_stream_id s) (pack_id (data_header v))) s).2, r).
Proof.
  intros [Hr Hc Hl Hn Hs] Hid Hin. unfold turn. rewrite Hl. unfold mbind, stm_bind. cbn [receive].
  rewrite Hid, Z.eqb_refl. cbn [negb]. rewrite decide_True by done.
  unfold deliver_fuel. rewrite Nat.add_comm. cbn [Nat.add deliver]. rewrite Hn. cbn [mbind option_bind].
  rewrite decide_False by done. done.
Qed.

Lemma feed_again w seen vs s r :
  caught_up w seen s r -> tx_open s = true ->
  (forall v, v ∈ vs -> stream_id (data_header v) = sp_stream_id s /\ pack_id (data_header v) ∈ send_pack_id_map r) ->
  exists s', feed vs s r = (s', r) /\ grows s s' /\
    forall v, v ∈ vs -> ack_one (sp_stream_id s) (pack_id (data_header v)) ∈ tx s'.
Proof.
  revert s. induction vs as [|v vs IH]; intros s Hcu Ho Hvs.
  { exists s. split_and!; [done|done|by intros v Hv%elem_of_nil]. }
  destruct (Hvs v) as [Hid Hin]; [by constructor|]. cbn [feed]. rewrite (turn_again w seen) by done.
  set (p := ack_one (sp_stream_id s) (pack_id (data_header v))).
  pose proof (send_tx_grows p s) as Hg.
  assert (p ∈ tx (send_tx p s).2) as Hp.
  { unfold send_tx. rewrite Ho. cbn. apply elem_of_app. right. by constructor. }
  set (s1 := (send_tx p s).2) in *. destruct (IH s1) as (s' & E & Hg' & Ha).
  - destruct Hcu. split; try done. by rewrite (gr_close _ _ Hg).
  - by rewrite (gr_open _ _ Hg).
  - intros u Hu. rewrite (gr_id _ _ Hg). apply Hvs. by constructor.
  - rewrite (gr_id _ _ Hg) in Ha. exists s'. split_and!; [exact E|by etransitivity|].
    intros u [->|Hu]%elem_of_cons; [by apply (gr_tx _ _ Hg')|by apply Ha].
Qed.

(** The sender forgets a pack when its acknowledgement arrives. *)
Lemma turn_ack i s r :
  is_close s = false ->
  exists s' r', turn (Got (ack_one (sp_stream_id s) i)) [] s r = (s', r') /\
    waiting_pack_map s' = delete i (waiting_pack_map s) /\ is_close s' = false /\
    sp_stream_id s' = sp_stream_id s.
Proof.
  intros Hl. unfold turn. rewrite Hl. unfold mbind, stm_bind. cbn [receive ack_one ack_header ack_stream_id].
  rewrite Z.eqb_refl. cbn [negb]. set (v := mkAck _ _).
  assert (waiting_pack_map (on_ack v s) = delete i (waiting_pack_map s) /\ grows s (on_ack v s)) as [Hm Hg].
  { unfold on_ack. cbn [v ack_data pack_ids ack_loop].
    destruct (waiting_pack_map s !! i) as [[p t]|] eqn:Ei.
    - cbn [Z.eqb]. destruct p; (case_match; [split; [done|by split]|split; [done|by split]]).
    - cbn. by rewrite delete_id. }
  set (s1 := on_ack v s) in *.
  destruct (deliver_total (deliver_fuel r) [] None [] DEFAULT_MERGE_ACK_SIZE s1 r)
    as (ids & s2 & r2 & E); [unfold deliver_fuel; lia|].
  rewrite E. pose proof (sw_map _ _ (deliver_same _ _ _ _ _ _ _ _ _ _ E)) as Hm2. apply deliver_grows in E.
  assert (grows s s2) as Hg2 by by etransitivity.
  destruct (decide (ids = [])).
  { exists s2, r2. split_and!; [done|congruence|rewrite (gr_close _ _ Hg2); congruence|apply (gr_id _ _ Hg2)]. }
  unfold on_fst, send_tunnel_data_ack.
  set (p := PDataAck (mkAck (mkAckHeader (sp_stream_id s2) 0) (mkAckData ids))).
  assert (grows s (send_tx p s2).2) as Hg3 by (etransitivity; [exact Hg2|apply send_tx_grows]).
  eexists _, _. split_and!; [done|rewrite (sw_map _ _ (send_tx_same _ _)); congruence
    |rewrite (gr_close _ _ Hg3); congruence|apply (gr_id _ _ Hg3)].
Qed.

Lemma take_acks ids s r :
  is_close s = false ->
  exists s' r', take_packs (ack_one (sp_stream_id s) <$> ids) s r = (s', r') /\ is_close s' = false /\
    forall i, waiting_pack_map s' !! i = if decide (i ∈ ids) then None else waiting_pack_map s !! i.
Proof.
  revert s r. induction ids as [|i ids IH]; intros s r Hl; [by exists s, r|].
  cbn [fmap list_fmap take_packs]. destruct (turn_ack i s r Hl) as (s1 & r1 & -> & Hm & Hl1 & Hid).
  rewrite <- Hid. destruct (IH s1 r1 Hl1) as (s' & r' & E & Hl' & Hm'). exists s', r'. split_and!; [done|done|].
  intros j. rewrite Hm', Hm. destruct (decide (j ∈ ids)) as [Hj|Hj].
  - by rewrite decide_True by by constructor.
  - destruct (decide (i = j)) as [->|Hne].
    + rewrite decide_True by by constructor. apply lookup_delete_eq.
    + rewrite decide_False; [by rewrite lookup_delete_ne|]. rewrite elem_of_cons. intros [?|?]; congruence.
Qed.

Definition data_of (p : TunnelPack) : option TunnelData := match p with PData v => Some v | _ => None end.

Lemma data_of_spec v (ps : list TunnelPack) : v ∈ omap data_of ps <-> PData v ∈ ps.
Proof.
  rewrite list_elem_of_omap. split; [intros (p & Hp & E)|intros Hv; by exists (PData v)].
  destruct p; cbn in E; try done. by injection E as ->.
Qed.

(** An end that goes on: its [select!] has not returned and no task of it has
    closed the stream. *)
Definition running (e : Endpoint) : Prop := ended e = false /\ is_close (sp e) = false.

Lemma sent_feed a vs e :
  (forall v, v ∈ vs -> sent a (PData v)) -> ended e = false ->
  rtc (end_step (sent a)) e (with_state (feed vs (sp e) (rx e)) e).
Proof.
  intros Hvs He. rewrite <- take_feed. apply take_steps; [|done].
  intros p (v & -> & Hv)%list_elem_of_fmap. by apply Hvs.
Qed.

(** The receiver's part, first to get everything and then to say so. *)
Lemma receiver_catches_up id t1 t2 a b :
  reachable id t1 t2 (a, b) -> in_bound a -> in_bound b -> running a -> running b -> stream_closed (rx b) = false ->
  exists s r seen, rtc net_step (a, b) (a, with_state (s, r) b) /\ caught_up (written a) seen s r /\
    datas <$> delivered r = written a /\ next_id r = 1 + zlen (written a).
Proof.
  intros Hr Ha Hb [Hea Hla] [Heb Hlb] Hc.
  destruct (reachable_out _ _ _ _ Hr Ha Hb) as [Oa Ob]. specialize (Oa Ha Hea). specialize (Ob Hb Heb). cbn in *.
  destruct (reachable_net_inv _ _ _ _ Hr Ha Hb) as [Fa Fb]. cbn in *.
  destruct (timeout_catches_up (written a) (sp b) (rx b)) as [C0 G0]; [apply Fa|done..|].
  pose proof (step_receive (sent a) b TimedOut [] Heb ltac:(done)) as S0.
  destruct (turn TimedOut [] (sp b) (rx b)) as [s0 r0]. cbn in *.
  set (vs := omap data_of (tx (sp a))).
  assert (forall v, v ∈ vs -> genuine (written a) v /\ stream_id (data_header v) = sp_stream_id s0) as Hvs.
  { intros v Hv%data_of_spec. split; [by apply (se_tx _ _ (fl_send _ _ Fa))|].
    rewrite (gr_id _ _ G0), (ou_id _ _ _ Ob). by apply (ou_tx _ _ _ Oa (PData v)). }
  pose proof (feed_caught_up (written a) vs [] s0 r0 C0 Ha Hvs) as C1. rewrite app_nil_r in C1.
  destruct (caught_up_complete _ _ _ _ C1) as [Hdel Hnext].
  { intros i Hi. destruct (ou_all _ _ _ Oa i Hi) as (v & Hv & Hid). exists v.
    rewrite elem_of_reverse. split; [by apply data_of_spec|done]. }
  pose proof (sent_feed a vs (mkEnd s0 r0 (snd_id b) (written b) false)) as S1. cbn [sp rx] in S1.
  destruct (feed vs s0 r0) as [s r]. cbn in *. exists s, r, (reverse vs). split_and!; try done.
  apply right_steps. eapply rtc_l; [exact S0|]. apply S1; [|done]. intros v Hv. by apply data_of_spec.
Qed.

Lemma receiver_acks id t1 t2 a b seen :
  reachable id t1 t2 (a, b) -> in_bound a -> in_bound b -> ended a = false -> ended b = false ->
  caught_up (written a) seen (sp b) (rx b) -> next_id (rx b) = 1 + zlen (written a) ->
  exists s, rtc net_step (a, b) (a, with_state (s, rx b) b) /\
    forall i, 1 <= i <= zlen (written a) -> ack_one id i ∈ tx s.
Proof.
  intros Hr Ha Hb Hea Heb C Hnext.
  destruct (reachable_out _ _ _ _ Hr Ha Hb) as [Oa Ob]. specialize (Oa Ha Hea). specialize (Ob Hb Heb). cbn in *.
  destruct (reachable_net_inv _ _ _ _ Hr Ha Hb) as [Fa _]. cbn in *.
  destruct (reachable_knows _ _ _ _ Hr Ha Hb) as [_ Kb]. cbn in *.
  set (vs := omap data_of (tx (sp a))).
  destruct (feed_again (written a) seen vs (sp b) (rx b) C (ou_open _ _ _ Ob)) as (s & E & _ & Hack).
  { intros v Hv%data_of_spec. rewrite (ou_id _ _ _ Ob). split; [by apply (ou_tx _ _ _ Oa (PData v))|].
    apply Kb. pose proof (genuine_range _ _ (se_tx _ _ (fl_send _ _ Fa) _ Hv)). lia. }
  exists s. split.
  - pose proof (sent_feed a vs b) as S. rewrite E in S. apply right_steps, S; [|done].
    intros v Hv. by apply data_of_spec.
  - intros i Hi. destruct (ou_all _ _ _ Oa i Hi) as (v & Hv & <-). rewrite (ou_id _ _ _ Ob) in Hack.
    apply Hack. by apply data_of_spec.
Qed.

(** Nothing is ever out of reach: from every state a pair of streams can
    get into, whatever was lost, repeated or reordered on the way, as long as
    both ends run and the receiving application is there, the pair can go on to
    a state in which the application has received everything the other one
    wrote, nothing is left unacknowledged, and the window is open again. *)
Theorem stream_never_stuck m id t1 t2 a b :
  0 <= m < 2 ^ 62 -> reachable id t1 t2 (a, b) ->
  in_bound a -> in_bound b -> pieces_bound m a -> pieces_bound m b ->
  running a -> running b -> stream_closed (rx b) = false ->
  exists a' b', rtc net_step (a, b) (a', b') /\ running a' /\ written a' = written a /\
    datas <$> delivered (rx b') = written a /\
    waiting_pack_map (sp a') = ∅ /\ window_ready (sp a') = true.
Proof.
  intros Hm Hr Ha Hb Pa Pb Ra Rb Hc. pose proof Ra as [Hea Hla]. pose proof Rb as [Heb Hlb].
  destruct (receiver_catches_up _ _ _ _ _ Hr Ha Hb Ra Rb Hc) as (s1 & r1 & seen & S1 & C1 & Hdel & Hnext).
  set (b1 := with_state (s1, r1) b) in *. pose proof (reachable_rtc _ _ _ _ _ Hr S1) as R1.
  destruct (receiver_acks id t1 t2 a b1 seen R1 Ha Hb Hea eq_refl C1 Hnext) as (s2 & S2 & Hack).
  set (b2 := with_state (s2, rx b1) b1) in *. pose proof (reachable_rtc _ _ _ _ _ R1 S2) as R2.
  destruct (reachable_out _ _ _ _ R2 Ha Hb) as [Oa _]. specialize (Oa Ha Hea). cbn in Oa.
  destruct (reachable_net_inv _ _ _ _ R2 Ha Hb) as [Fa _]. cbn in Fa.
  set (ids := seqZ 1 (zlen (written a))).
  destruct (take_acks ids (sp a) (rx a) Hla) as (s3 & r3 & E & Hl3 & Hm3).
  pose proof (take_steps (sent b2) (ack_one (sp_stream_id (sp a)) <$> ids) a) as S3. rewrite E in S3.
  assert (rtc net_step (a, b2) (with_state (s3, r3) a, b2)) as S4.
  { apply left_steps, S3; [|done]. intros p (i & -> & Hi%elem_of_seqZ)%list_elem_of_fmap.
    rewrite (ou_id _ _ _ Oa). apply Hack. lia. }
  pose proof (reachable_rtc _ _ _ _ _ R2 S4) as R3.
  assert (waiting_pack_map s3 = ∅) as Hempty.
  { apply map_empty. intros i. rewrite Hm3. case_decide as Hi; [done|].
    destruct (waiting_pack_map (sp a) !! i) as [[p t]|] eqn:Ei; [|done]. exfalso. apply Hi, elem_of_seqZ.
    destruct (se_map _ _ (fl_send _ _ Fa) _ _ _ Ei) as (v & _ & <- & Hg). apply genuine_range in Hg. lia. }
  destruct (reachable_wait m _ _ _ _ Hm R3 Ha Hb Pa Pb) as [W _]. cbn in W.
  exists (with_state (s3, r3) a), b2. split_and!; try done.
  - do 2 (etransitivity; [done|]). done.
  - unfold window_ready. cbn. rewrite (wt_window _ _ W), Hempty. done.
Qed.

(** Two pieces are written, the first pack is lost and the second arrives. *)
Definition live_a : Endpoint :=
  let s1 := (stream_to_stream_pack [1; 2] 0 (stream_new 7 0)).2 in
  mkEnd (stream_to_stream_pack [3] 1 s1).2 recv_new 2 [[1; 2]; [3]] false.
Definition live_b : Endpoint :=
  let t := turn (Got (PData (mkData (mkDataHeader 7 2 1) [3]))) [] (stream_new 7 0) recv_new in
  mkEnd t.1 t.2 0 [] false.

Lemma stream_never_stuck_witness :
  delivered (rx live_b) = [] /\
  exists a' b', rtc net_step (live_a, live_b) (a', b') /\ datas <$> delivered (rx b') = [[1; 2]; [3]] /\
    window_ready (sp a') = true.
Proof.
  split; [by vm_compute|].
  destruct (stream_never_stuck 2 7 0 0 live_a live_b) as (a' & b' & S & _ & _ & Hd & _ & Hw).
  - lia.
  - eapply reach_step; [eapply reach_step; [eapply reach_step; [apply reach_init|]|]|].
    + apply net_left, (step_write _ (end_new 7 0) [1; 2] 1); by vm_compute.
    + apply net_left. eapply (step_write _ _ [3] 2); by vm_compute.
    + apply (net_right live_a (end_new 7 0) live_b).
      apply (step_receive _ (end_new 7 0) (Got (PData (mkData (mkDataHeader 7 2 1) [3]))) []); [done|].
      intros q [= <-]. unfold sent. vm_compute. apply elem_of_cons. right. constructor.
  - done.
  - done.
  - repeat constructor; done.
  - constructor.
  - by split; vm_compute.
  - by split; vm_compute.
  - by vm_compute.
  - by exists a', b'.
Defined.
