(* ===== verification/StreamFair.v ===== *)
(** What a pair of streams does achieve: over a network that may lose any pack,
    but not every copy of it, all that is written is delivered and acknowledged
    in every run, because packs are sent again until they are. *)
From Stdlib Require Import Sorting.Sorted.
From S2P Require Import Prelude TunnelPack StreamPack StreamOrder StreamNet StreamWindow StreamLive.
#[local] Open Scope Z_scope.

(** ** What an end acknowledges *)

(** The numbers that the acknowledgements among some packs name. *)
Definition acked (l : list TunnelPack) : list Z :=
  l ≫= fun p => match p with PDataAck v => pack_ids (ack_data v) | _ => [] end.

Lemma acked_app l k : acked (l ++ k) = acked l ++ acked k.
Proof. apply bind_app. Qed.

(** Numbers gathered are named in an acknowledgement or still gathered. *)
Lemma flush_law ids m s ids' s' :
  tx_open s = true -> flush_acks ids m s = (ids', s') ->
  exists l, tx s' = tx s ++ l /\ acked l ++ ids' = ids /\ tx_open s' = true.
Proof.
  intros Ho. unfold flush_acks, send_tunnel_data_ack, send_tx. rewrite Ho.
  case_match; intros [= <- <-]; eexists; (split; [cbn; try reflexivity; by rewrite app_nil_r|]); cbn; [by rewrite !app_nil_r|done].
Qed.

Lemma deliver_law fuel env d ids m s r ids' s' r' :
  tx_open s = true -> deliver fuel env d ids m (s, r) = (Ok ids', (s', r')) ->
  exists l taken, tx s' = tx s ++ l /\ acked l ++ ids' = ids ++ taken /\ tx_open s' = true /\
    send_pack_id_map r ⊆ send_pack_id_map r' /\ Forall (.∈ send_pack_id_map r') taken.
Proof.
  revert env d ids m s r. induction fuel as [|fuel IH]; intros env d ids m s r Ho; cbn [deliver]; [done|].
  destruct (match d with Some _ => _ | None => _ end) as [[v cache]|].
  2:{ intros [= <- <- <-]. exists [], []. rewrite !app_nil_r. by split_and!. }
  destruct (flush_acks _ m s) as [ids1 s1] eqn:E1. destruct (flush_law _ _ _ _ _ Ho E1) as (l1 & T1 & A1 & O1).
  set (id := pack_id (data_header v)) in *.
  assert (forall l ids2 s2, tx s2 = tx s ++ l -> acked l ++ ids2 = ids ++ [id] -> tx_open s2 = true ->
    forall d', send_pack_id_map d' = {[id]} ∪ send_pack_id_map r ->
    exists l taken, tx s2 = tx s ++ l /\ acked l ++ ids2 = ids ++ taken /\ tx_open s2 = true /\
      send_pack_id_map r ⊆ send_pack_id_map d' /\ Forall (.∈ send_pack_id_map d') taken) as Hend.
  { intros l ids2 s2 T A O r2 Hr2. exists l, [id]. rewrite Hr2. split_and!; [done..|clear; set_solver|]. constructor; [clear; set_solver|done]. }
  assert (forall l ids2 m s2 env r2, tx s2 = tx s ++ l -> acked l ++ ids2 = ids ++ [id] -> tx_open s2 = true ->
    send_pack_id_map r2 = {[id]} ∪ send_pack_id_map r ->
    deliver fuel env None ids2 m (s2, r2) = (Ok ids', (s', r')) ->
    exists l taken, tx s' = tx s ++ l /\ acked l ++ ids' = ids ++ taken /\ tx_open s' = true /\
      send_pack_id_map r ⊆ send_pack_id_map r' /\ Forall (.∈ send_pack_id_map r') taken) as Hon.
  { intros l ids2 m2 s2 env2 r2 T A O Hr2 E. destruct (IH env2 None ids2 m2 s2 r2 O E) as (l' & tk & T' & A' & O' & S' & F').
    exists (l ++ l'), (id :: tk). rewrite Hr2 in S'. split_and!; [by rewrite T', T, app_assoc| |done|set_solver|constructor; [set_solver|done]].
    by rewrite acked_app, <- app_assoc, A', app_assoc, A, <- app_assoc. }
  destruct (default _ _) as [res brk]. cbn [stream_closed next_id send_pack_id_map delivered].
  destruct (if stream_closed r then _ else _) as [|ok|].
  - destruct brk; [intros [= <- <- <-]; by eapply Hend|]. by apply (Hon l1).
  - destruct (flush_acks ids1 1 s1) as [ids2 s2] eqn:E2. destruct (flush_law _ _ _ _ _ O1 E2) as (l2 & T2 & A2 & O2).
    assert (tx s2 = tx s ++ (l1 ++ l2)) as T by (by rewrite T2, T1, app_assoc).
    assert (acked (l1 ++ l2) ++ ids2 = ids ++ [id]) as A by (by rewrite acked_app, <- app_assoc, A2).
    destruct ok; cbn [negb]; [|intros [= <- <- <-]; by eapply Hend].
    destruct brk; [intros [= <- <- <-]; by eapply Hend|]. by apply (Hon (l1 ++ l2)).
  - intros [= <- <- <-]. by eapply Hend.
Qed.

(** What the receiver has of a pack: it handed it on, or keeps it. *)
Definition has (i : Z) (r : Recv) : Prop := i < next_id r \/ is_Some (recv_pack_cache_map r !! i).

Lemma deliver_has wp fuel env d ids m s r o s' r' :
  recv_inv wp r -> zlen wp < 2 ^ 32 - 1 -> stream_closed r = false ->
  (forall v, d = Some v -> genuine wp v /\ pack_id (data_header v) = next_id r) ->
  (size (recv_pack_cache_map r) + (if d is Some _ then 1 else 0) < fuel)%nat ->
  deliver fuel env d ids m (s, r) = (o, (s', r')) -> stream_closed r' = false ->
  (forall i, has i r \/ (i = next_id r /\ is_Some d) -> has i r') /\ delivered r `prefix_of` delivered r'.
Proof.
  intros Hr Hw. revert env d ids m s r Hr.
  induction fuel as [|fuel IH]; intros env d ids m s r Hr Hc Hd Hf; [lia|]. cbn [deliver].
  set (next := match d with Some _ => _ | None => _ end).
  assert (forall v cache, next = Some (v, cache) ->
    (genuine wp v /\ pack_id (data_header v) = next_id r) /\ (size cache < fuel)%nat /\
    (forall i u, cache !! i = Some u -> recv_pack_cache_map r !! i = Some u) /\
    (forall i, i <> next_id r -> cache !! i = recv_pack_cache_map r !! i)) as Hnext.
  { unfold next. destruct d as [w|].
    - intros v cache [= <- <-]. split_and!; [by apply Hd|by apply Hd|lia|done|done].
    - intros v cache. destruct (_ !! next_id r) as [u|] eqn:Eu; cbn; [|done]. intros [= <- <-].
      destruct (ri_cache _ _ Hr _ _ Eu). split_and!; try done.
      + rewrite map_size_delete, Eu. assert (size (recv_pack_cache_map r) <> O); [|lia].
        intros E0%map_size_empty_inv. by rewrite E0, lookup_empty in Eu.
      + intros i x Hx. by apply lookup_delete_Some in Hx as [_ Hx].
      + intros i Hi. by rewrite lookup_delete_ne. }
  destruct next as [[v cache]|] eqn:En.
  2:{ intros [= <- <- <-] _. split; [|done]. unfold next in En. destruct d; [done|]. by intros i [?|[_ [? ?]]]. }
  destruct (Hnext v cache eq_refl) as ((Hg & Hid) & Hsz & Hsub & Hcache). clear Hnext.
  destruct (flush_acks _ m s) as [ids1 s1]. destruct (default _ _) as [res brk].
  cbn [stream_closed next_id send_pack_id_map delivered]. rewrite Hc.
  pose proof (recv_step_inv wp r v cache Hr Hg Hid Hw Hc Hsub) as Hstep.
  set (r1 := mkRecv (wrap32 (next_id r + 1)) ({[pack_id (data_header v)]} ∪ send_pack_id_map r) cache
      (delivered r ++ [v]) false) in *.
  assert (next_id r1 = next_id r + 1) as Hn1.
  { pose proof (genuine_range _ _ Hg). cbn. rewrite Hid in *. unwrap. done. }
  assert ((forall i, has i r \/ i = next_id r /\ is_Some d -> has i r1) /\ delivered r `prefix_of` delivered r1) as [H1 P1].
  { split; [|by apply prefix_app_r]. intros i Hi. unfold has. rewrite Hn1. cbn [r1 recv_pack_cache_map].
    destruct (Z.lt_ge_cases i (next_id r + 1)); [by left|right]. rewrite Hcache by lia. unfold has in Hi. destruct Hi as [[?|?]|[? _]]; [lia|done|lia]. }
  assert (forall env ids m s2, deliver fuel env None ids m (s2, r1) = (o, (s', r')) -> stream_closed r' = false ->
    (forall i, has i r \/ i = next_id r /\ is_Some d -> has i r') /\ delivered r `prefix_of` delivered r') as Hon.
  { intros env2 ids2 m2 s2 E Hc'. destruct (IH env2 None ids2 m2 s2 r1 Hstep) as [H2 P2]; try done; [cbn; lia|].
    split; [|by etransitivity]. intros i Hi. apply H2. left. by apply H1. }
  destruct res as [|ok|].
  - destruct brk; [by intros [= <- <- <-]|]. apply Hon.
  - destruct (flush_acks ids1 1 s1) as [ids2 s2]. destruct ok; cbn [negb]; [|by intros [= <- <- <-]].
    destruct brk; [by intros [= <- <- <-]|]. apply Hon.
  - by intros [= <- <- <-].
Qed.

(** ** A turn of the receiving half that leaves the stream open *)

Lemma turn_split ev env s r s' r' :
  is_close s = false -> turn ev env s r = (s', r') -> is_close s' = false ->
  exists d ids s1 r1 ids2 s2, receive ev (s, r) = (Ok (d, ids), (s1, r1)) /\
    deliver (deliver_fuel r1) env d ids DEFAULT_MERGE_ACK_SIZE (s1, r1) = (Ok ids2, (s2, r')) /\
    s' = (if decide (ids2 = []) then s2 else (send_tunnel_data_ack ids2 s2).2).
Proof.
  intros Hl. unfold turn. rewrite Hl. unfold mbind, stm_bind.
  destruct (receive ev (s, r)) as [o [s1 r1]]. destruct o as [[d ids]|e| |]; [|by intros [= <- <-]..].
  destruct (deliver _ env d ids _ (s1, r1)) as [o2 [s2 r2]] eqn:E2. destruct o2 as [ids2|e| |]; [|by intros [= <- <-]..].
  intros E _. exists d, ids, s1, r1, ids2, s2. split; [done|]. destruct (decide (ids2 = [])).
  - injection E as <- <-. by split.
  - unfold on_fst in E. cbn in E. injection E as <- <-. by split.
Qed.

Lemma receive_law wp ev s r d ids s1 r1 :
  recv_inv wp r -> stream_closed r = false -> tx_open s = true ->
  receive ev (s, r) = (Ok (d, ids), (s1, r1)) ->
  (exists l, tx s1 = tx s ++ l /\ acked l = []) /\ tx_open s1 = true /\
  send_pack_id_map r1 = send_pack_id_map r /\ delivered r1 = delivered r /\ stream_closed r1 = false /\
  Forall (.∈ send_pack_id_map r) ids /\ (forall i, has i r -> has i r1) /\
  forall v, ev = Got (PData v) ->
    (has (pack_id (data_header v)) r1 \/ pack_id (data_header v) = next_id r1 /\ is_Some d) /\
    (pack_id (data_header v) ∈ send_pack_id_map r -> ids = [pack_id (data_header v)]).
Proof.
  intros Hr Hc Ho. unfold receive.
  assert (exists l, tx s = tx s ++ l /\ acked l = []) as Hsame by (exists []; by rewrite app_nil_r).
  destruct ev as [p| |]; [|by intros [= <- <- <- <-]|done]. destruct p as [v|v|v|v|v|v|v|v]; try done.
  - case_match; [done|]. case_decide as Hin.
    { intros [= <- <- <- <-]. split_and!; try done; [by constructor|]. intros u [= <-]. split; [|done]. left. left.
      by apply (ri_sent _ _ Hr Hc). }
    destruct (Z.eqb_spec (pack_id (data_header v)) (next_id r)); intros [= <- <- <- <-].
    + split_and!; try done. intros u [= <-]. split; [by right|done].
    + split_and!; try done.
      * intros i [?|Hi]; [by left|right]. cbn. destruct (decide (pack_id (data_header v) = i)) as [->|];
          [by rewrite lookup_insert_eq|by rewrite lookup_insert_ne].
      * intros u [= <-]. split; [|done]. left. right. cbn. by rewrite lookup_insert_eq.
  - case_match; [done|]. intros [= <- <- <- <-]. unfold on_ack.
    assert (forall ids t s t' s', ack_loop ids t s = (t', s') -> tx s' = tx s /\ tx_open s' = tx_open s) as Hack.
    { clear. induction ids as [|i ids IH]; intros t s t' s'; cbn [ack_loop]; [by intros [= <- <-]|].
      destruct (waiting_pack_map s !! i) as [[p u]|]; [|apply IH]. intros E%IH. by destruct p. }
    destruct (ack_loop _ 0 s) as [t s2] eqn:E2. apply Hack in E2 as [E2 E3].
    case_match; cbn; rewrite ?E2, ?E3; by split_and!.
  - case_match; [done|]. unfold send_heartbeat_ack, send_tx. rewrite Ho. intros [= <- <- <- <-].
    split_and!; try done. eexists. cbn. by split.
  - case_match; [done|]. intros [= <- <- <- <-]. by split_and!.
Qed.

Lemma turn_law wp ev env s r s' r' :
  recv_inv wp r -> honest wp ev -> zlen wp < 2 ^ 32 - 1 -> stream_closed r = false -> tx_open s = true ->
  is_close s = false -> turn ev env s r = (s', r') -> is_close s' = false -> stream_closed r' = false ->
  exists l, tx s' = tx s ++ l /\ (forall j, j ∈ acked l -> j ∈ send_pack_id_map r') /\
    send_pack_id_map r ⊆ send_pack_id_map r' /\ (forall i, has i r -> has i r') /\
    delivered r `prefix_of` delivered r' /\
    (forall v, ev = Got (PData v) -> has (pack_id (data_header v)) r' /\
      (pack_id (data_header v) ∈ send_pack_id_map r -> pack_id (data_header v) ∈ acked l)) /\
    (env = [] -> recv_pack_cache_map r' !! next_id r' = None).
Proof.
  intros Hr Hh Hw Hc Ho Hl E Hl' Hc'. destruct (turn_split _ _ _ _ _ _ Hl E Hl') as (d & ids & s1 & r1 & ids2 & s2 & E1 & E2 & ->).
  destruct (receive_inv wp ev s r _ s1 r1 Hr Hh E1) as (Hr1 & _ & Hd). specialize (Hd d ids eq_refl).
  destruct (receive_law wp ev s r d ids s1 r1 Hr Hc Ho E1) as ((l0 & T0 & A0) & O1 & M1 & D1 & C1 & F1 & H1 & Hv).
  destruct (deliver_law _ _ _ _ _ _ _ _ _ _ O1 E2) as (l & tk & T & A & O & S & F).
  assert (size (recv_pack_cache_map r1) + (if d is Some _ then 1 else 0) < deliver_fuel r1)%nat as Hf by (unfold deliver_fuel; destruct d; lia).
  destruct (deliver_has wp _ env d ids _ s1 r1 _ s2 r' Hr1 Hw C1 Hd Hf E2 Hc') as [Hh' P'].
  assert (exists l', tx (if decide (ids2 = []) then s2 else (send_tunnel_data_ack ids2 s2).2) = tx s ++ l' /\ acked l' = ids ++ tk) as (l' & T' & A').
  { destruct (decide (ids2 = [])) as [->|].
    - exists (l0 ++ l). split; [by rewrite T, T0, app_assoc|]. by rewrite acked_app, A0, <- A, app_nil_r.
    - exists ((l0 ++ l) ++ [PDataAck (mkAck (mkAckHeader (sp_stream_id s2) 0) (mkAckData ids2))]). split.
      + unfold send_tunnel_data_ack, send_tx. rewrite O. cbn. by rewrite T, T0, !app_assoc.
      + rewrite !acked_app, A0, <- A. cbn. by rewrite app_nil_r. }
  exists l'. rewrite M1 in S. rewrite D1 in P'. split_and!; try done.
  - intros j. rewrite A', elem_of_app. intros [Hj|Hj]; [|by apply (proj1 (Forall_forall _ _) F)].
    apply S. by apply (proj1 (Forall_forall _ _) F1).
  - intros i Hi. apply Hh'. left. by apply H1.
  - intros v Ev. destruct (Hv v Ev) as [Hv1 Hv2]. split; [by apply Hh'|]. intros Hin. rewrite A', (Hv2 Hin). apply elem_of_app. left. by constructor.
  - intros ->. destruct (deliver_open wp (deliver_fuel r1) d ids DEFAULT_MERGE_ACK_SIZE s1 r1) as (i2 & s3 & r3 & E3 & _ & _ & _ & Hn & _); [done..|].
    rewrite E2 in E3. by injection E3 as _ _ <-.
Qed.

(** ** What waits to be acknowledged *)

Definition waits (i : Z) (s : StreamPack) : Prop := is_Some (waiting_pack_map s !! i).

#[export] Instance waits_dec i s : Decision (waits i s).
Proof. unfold waits. apply _. Defined.

(** A pack that waits is in the queue since [t] at the latest. *)
Definition tracked (i t : Z) (s : StreamPack) : Prop :=
  waits i s -> exists info, info ∈ waiting_pack_infos s /\ wait_pack_id info = i /\ insert_timestamp info <= t.

(** The queue is ordered by time. *)
Definition before (x y : WaitingPackInfo) : Prop := insert_timestamp x <= insert_timestamp y.
Record timed (s : StreamPack) : Prop := {
  ti_sorted : StronglySorted before (waiting_pack_infos s);
  ti_now : Forall (fun x => insert_timestamp x <= curr_timestamp s) (waiting_pack_infos s)
}.

Lemma sorted_snoc l x : StronglySorted before l -> Forall (fun y => insert_timestamp y <= insert_timestamp x) l ->
  StronglySorted before (l ++ [x]).
Proof.
  induction 1 as [|y l Hl IH Hy]; intros Hx; [by repeat constructor|]. inversion Hx; subst. cbn. constructor; [by apply IH|].
  apply Forall_app. split; [done|]. by constructor.
Qed.

(** A pack is put on the queue and sent. *)
Lemma to_peer_spec id p first s :
  tx_open s = true ->
  exists s' f info, stream_pack_to_peer_client id p first s = (Ok tt, s') /\ tx s' = tx s ++ [p] /\ tx_open s' = true /\
    waiting_pack_map s' = <[id := (p, f)]> (waiting_pack_map s) /\
    waiting_pack_infos s' = waiting_pack_infos s ++ [info] /\ wait_pack_id info = id /\
    insert_timestamp info = curr_timestamp s /\ curr_timestamp s' = curr_timestamp s.
Proof.
  intros Ho. unfold stream_pack_to_peer_client, send_tx. cbn [tx_open set_map set_infos]. rewrite Ho.
  eexists _, _, _. split; [reflexivity|]. cbn. by split_and!.
Qed.

Lemma timed_to_peer s s' info :
  timed s -> waiting_pack_infos s' = waiting_pack_infos s ++ [info] -> insert_timestamp info = curr_timestamp s ->
  curr_timestamp s' = curr_timestamp s -> timed s'.
Proof.
  intros [H1 H2] Hi Ht Hn. split; rewrite Hi; [apply sorted_snoc; [done|by rewrite Ht]|].
  apply Forall_app. rewrite Hn. split; [done|]. constructor; [lia|done].
Qed.

(** What a timeout check does to the queue: it loses an entry of a pack that
    waits only by sending the pack. *)
Lemma resend_facts w fuel now limit s o s' :
  send_inv w s -> tx_open s = true -> timed s -> resend_loop fuel now limit s = (o, s') ->
  exists l, tx s' = tx s ++ l /\ acked l = [] /\ timed s' /\ curr_timestamp s' = curr_timestamp s /\
    (forall i, waits i s' <-> waits i s) /\
    forall i t, tracked i t s -> (exists v, PData v ∈ l /\ pack_id (data_header v) = i) \/ tracked i t s'.
Proof.
  revert s. induction fuel as [|fuel IH]; intros s Hs Ho Ht; cbn [resend_loop].
  { intros [= <- <-]. exists []. rewrite app_nil_r. split_and!; try done. by right. }
  destruct (waiting_pack_infos s) as [|info infos] eqn:Ei.
  { intros [= <- <-]. exists []. rewrite app_nil_r. split_and!; try done. by right. }
  destruct (limit <? _).
  2:{ intros [= <- <-]. exists []. rewrite app_nil_r. split_and!; try done. by right. }
  cbn [waiting_pack_map set_infos].
  assert (timed (set_infos infos s)) as Ht0.
  { destruct Ht as [H1 H2]. rewrite Ei in *. inversion H1; inversion H2; subst. by split. }
  destruct (waiting_pack_map s !! wait_pack_id info) as [[p first]|] eqn:Em.
  - destruct (se_map _ _ Hs _ _ _ Em) as (v & -> & Hid & Hg).
    set (s0 := set_map _ _). destruct (to_peer_spec (wait_pack_id info) (PData v) first s0 Ho)
      as (s1 & f & new & E1 & T1 & O1 & M1 & I1 & N1 & N2 & C1). rewrite E1.
    assert (timed s1) as Ht1 by (eapply (timed_to_peer s0); [by destruct Ht0|done..]).
    assert (send_inv w s1) as Hs1.
    { eapply (to_peer_inv w (wait_pack_id info) v first s0); [|done|done|exact E1]. destruct Hs as [S1 S2]. split; [done|].
      cbn. intros i p t [_ Hi]%lookup_delete_Some. by eapply S2. }
    intros E. destruct (IH s1 Hs1 O1 Ht1 E) as (l & T & A & Ht' & C & W & K).
    exists (PData v :: l). split; [by rewrite T, T1, <- app_assoc|]. split; [done|]. split; [done|]. split; [by rewrite C, C1|].
    assert (forall i, waits i s1 <-> waits i s) as W1.
    { intros i. unfold waits. rewrite M1. cbn. destruct (decide (wait_pack_id info = i)) as [<-|Hne].
      - rewrite lookup_insert_eq, Em. split; eauto.
      - by rewrite lookup_insert_ne, lookup_delete_ne. }
    split; [intros i; by rewrite W|]. intros i t Hi. destruct (decide (i = wait_pack_id info)) as [->|Hne].
    { left. exists v. split; [by constructor|done]. }
    destruct (K i t) as [(u & Hu & Hui)|Hk]; [|left; exists u; split; [by constructor|done]|by right].
    intros Hw%W1. destruct (Hi Hw) as (x & Hx & Hxi & Hxt). rewrite Ei in Hx. apply elem_of_cons in Hx as [->|Hx]; [done|].
    exists x. rewrite I1. split; [apply elem_of_app; by left|done].
  - intros E. destruct (IH (set_infos infos s)) as (l & T & A & Ht' & C & W & K); [by destruct Hs|done|done|exact E|].
    exists l. split_and!; try done. intros i t Hi. apply K. intros Hw. destruct (Hi Hw) as (x & Hx & Hxi & Hxt).
    rewrite Ei in Hx. apply elem_of_cons in Hx as [->|Hx]; [|by exists x].
    exfalso. unfold waits in Hw. cbn in Hw. rewrite <- Hxi, Em in Hw. by destruct Hw.
Qed.

(** ** What a turn of the receiving half does to the queue *)

Lemma set_tx_same s : set_tx (tx s) s = s.
Proof. by destruct s. Qed.

Lemma send_tx_set p s : exists l, (send_tx p s).2 = set_tx l s.
Proof. unfold send_tx. destruct (tx_open s); eexists; [done|]. by rewrite set_tx_same. Qed.

Lemma flush_set ids m s ids' s' : flush_acks ids m s = (ids', s') -> exists l, s' = set_tx l s.
Proof. unfold flush_acks. case_match; intros [= <- <-]; [apply send_tx_set|exists (tx s); by rewrite set_tx_same]. Qed.

Lemma deliver_set fuel env d ids m s r o s' r' :
  deliver fuel env d ids m (s, r) = (o, (s', r')) -> exists l, s' = set_tx l s.
Proof.
  revert env d ids m s r. induction fuel as [|fuel IH]; intros env d ids m s r; cbn [deliver].
  { intros [= <- <- <-]. exists (tx s). by rewrite set_tx_same. }
  destruct (match d with Some _ => _ | None => _ end) as [[v cache]|].
  2:{ intros [= <- <- <-]. exists (tx s). by rewrite set_tx_same. }
  destruct (flush_acks _ m s) as [ids1 s1] eqn:E1. apply flush_set in E1 as [l1 ->].
  destruct (default _ _) as [res brk].
  assert (forall l o0 r0, (o0, (set_tx l s, r0)) = (o, (s', r')) -> exists l', s' = set_tx l' s) as Hend by (intros l ? ? [= _ <- _]; by exists l).
  assert (forall l env ids m r0, deliver fuel env None ids m (set_tx l s, r0) = (o, (s', r')) -> exists l', s' = set_tx l' s) as Hon.
  { intros l env2 ids2 m2 r2 E. destruct (IH _ _ _ _ _ _ E) as [l' ->]. by exists l'. }
  destruct (if stream_closed _ then _ else _) as [|ok|]; [|destruct (flush_acks ids1 1 _) as [ids2 s2] eqn:E2; apply flush_set in E2 as [l2 ->]; destruct ok; cbn [negb]|].
  - destruct brk; [apply Hend|apply Hon].
  - destruct brk; [apply (Hend l2)|apply (Hon l2)].
  - apply (Hend l2).
  - apply Hend.
Qed.

Lemma ack_loop_queue ids t s t' s' :
  ack_loop ids t s = (t', s') ->
  waiting_pack_infos s' = waiting_pack_infos s /\ curr_timestamp s' = curr_timestamp s /\
  forall i, waits i s' <-> waits i s /\ i ∉ ids.
Proof.
  revert t s. induction ids as [|j ids IH]; intros t s; cbn [ack_loop].
  { intros [= <- <-]. split_and!; try done. intros i. split; [|tauto]. intros Hi. split; [done|apply not_elem_of_nil]. }
  destruct (waiting_pack_map s !! j) as [[p u]|] eqn:Ej.
  - set (s1 := match p with PData _ => _ | _ => _ end).
    assert (waiting_pack_infos s1 = waiting_pack_infos s /\ curr_timestamp s1 = curr_timestamp s /\
      waiting_pack_map s1 = delete j (waiting_pack_map s)) as (I1 & C1 & M1) by (by destruct p).
    intros (I & C & W)%IH. rewrite I, C. split_and!; try done. intros i. rewrite W, not_elem_of_cons. unfold waits. rewrite M1.
    destruct (decide (i = j)) as [->|Hne].
    + rewrite lookup_delete_eq. split; [intros [[? ?] _]; done|tauto].
    + rewrite lookup_delete_ne by done. tauto.
  - intros (I & C & W)%IH. rewrite I, C. split_and!; try done. intros i. rewrite W, not_elem_of_cons. unfold waits.
    split; [|tauto]. intros [Hi ?]. split_and!; try done. intros ->. rewrite Ej in Hi. by destruct Hi.
Qed.

(** It takes packs off as acknowledgements name them. *)
Lemma turn_queue ev env s r s' r' :
  is_close s = false -> turn ev env s r = (s', r') -> is_close s' = false ->
  waiting_pack_infos s' = waiting_pack_infos s /\ curr_timestamp s' = curr_timestamp s /\
  forall i, waits i s' <-> waits i s /\ forall v, ev = Got (PDataAck v) -> i ∉ pack_ids (ack_data v).
Proof.
  intros Hl E Hl'. destruct (turn_split _ _ _ _ _ _ Hl E Hl') as (d & ids & s1 & r1 & ids2 & s2 & E1 & E2 & ->).
  assert (exists l, (if decide (ids2 = []) then s2 else (send_tunnel_data_ack ids2 s2).2) = set_tx l s1) as [l ->].
  { destruct (deliver_set _ _ _ _ _ _ _ _ _ _ E2) as [l ->]. destruct (decide (ids2 = [])); [by exists l|].
    unfold send_tunnel_data_ack. cbn. destruct (send_tx_set (PDataAck (mkAck (mkAckHeader (sp_stream_id s1) 0) (mkAckData ids2))) (set_tx l s1)) as [l' ->].
    by exists l'. }
  assert (forall s1 : StreamPack, waiting_pack_infos s1 = waiting_pack_infos s -> curr_timestamp s1 = curr_timestamp s ->
    waiting_pack_map s1 = waiting_pack_map s -> (forall v, ev <> Got (PDataAck v)) ->
    waiting_pack_infos s1 = waiting_pack_infos s /\ curr_timestamp s1 = curr_timestamp s /\
    forall i, waits i s1 <-> waits i s /\ forall v, ev = Got (PDataAck v) -> i ∉ pack_ids (ack_data v)) as Hsame.
  { intros s0 I0 C0 M0 Hev. split_and!; try done. intros i. unfold waits. rewrite M0. split; [|tauto]. intros Hi. split; [done|].
    intros v Ev. by destruct (Hev v). }
  unfold receive in E1. destruct ev as [p| |]; [|injection E1 as <- <- <- <-; by apply Hsame|done].
  destruct p as [v|v|v|v|v|v|v|v]; try done.
  - repeat (case_match || case_decide); try done; injection E1 as <- <- <- <-; by apply Hsame.
  - case_match; [done|]. injection E1 as <- <- <- <-. unfold on_ack.
    destruct (ack_loop _ 0 s) as [t s3] eqn:E3. apply ack_loop_queue in E3 as (I & C & W).
    assert (forall s4 : StreamPack, waiting_pack_infos s4 = waiting_pack_infos s3 -> curr_timestamp s4 = curr_timestamp s3 ->
      waiting_pack_map s4 = waiting_pack_map s3 ->
      waiting_pack_infos s4 = waiting_pack_infos s /\ curr_timestamp s4 = curr_timestamp s /\
      forall i, waits i s4 <-> waits i s /\ forall u, Got (PDataAck v) = Got (PDataAck u) -> i ∉ pack_ids (ack_data u)) as Hack.
    { intros s4 I4 C4 M4. rewrite I4, C4. split_and!; try done. intros i.
      transitivity (waits i s3); [unfold waits; by rewrite M4|]. rewrite W. split; intros [? H']; (split; [done|]); [by intros u [= <-]|by apply H']. }
    destruct (0 <? t); apply Hack; reflexivity.
  - case_match; [done|]. unfold send_heartbeat_ack in E1.
    destruct (send_tx_set (PHeartbeatAck (mkHeartbeat (hb_stream_id v) (hb_time v))) s) as [l1 El].
    destruct (send_tx _ s) as [[] s3]; try done; cbn in El; subst s3. injection E1 as <- <- <- <-. by apply Hsame.
  - case_match; [done|]. injection E1 as <- <- <- <-. by apply Hsame.
Qed.

(** ** One step of an end that goes on *)

(** The packs an end sends between two of its states. *)
Definition news (s s' : StreamPack) : list TunnelPack := drop (length (tx s)) (tx s').

Lemma news_app s s' l : tx s' = tx s ++ l -> news s s' = l.
Proof. intros E. unfold news. by rewrite E, drop_app_length. Qed.

Definition sends_data (i : Z) (s s' : StreamPack) : Prop := exists v, PData v ∈ news s s' /\ pack_id (data_header v) = i.

(** The sending half, whose peer has said [acks]. *)
Record sender_step (acks : list Z) (a a' : Endpoint) : Prop := {
  ss_written : exists more, written a' = written a ++ more;
  ss_timed : curr_timestamp (sp a) <= curr_timestamp (sp a') -> timed (sp a');
  ss_waits : forall i, i <= zlen (written a) -> waits i (sp a') -> waits i (sp a);
  ss_keeps : forall i, waits i (sp a) -> waits i (sp a') \/ i ∈ acks;
  ss_new : forall i, zlen (written a) < i <= zlen (written a') -> waits i (sp a');
  ss_tracked : forall i t, i <= zlen (written a) -> tracked i t (sp a) ->
    sends_data i (sp a) (sp a') \/ tracked i t (sp a')
}.

(** A step that leaves the queue as it is. *)
Lemma sender_same acks a a' :
  written a' = written a -> waiting_pack_infos (sp a') = waiting_pack_infos (sp a) ->
  (forall i, waits i (sp a') -> waits i (sp a)) -> (forall i, waits i (sp a) -> waits i (sp a') \/ i ∈ acks) ->
  timed (sp a) -> sender_step acks a a'.
Proof.
  intros Hw Hi H1 H2 [S N]. split; try rewrite Hw; try done.
  - exists []. by rewrite app_nil_r.
  - intros Hc. split; rewrite Hi; [done|]. eapply Forall_impl; [exact N|]. cbn. lia.
  - intros i _. apply H1.
  - intros i. lia.
  - intros i t _ Ht. right. intros Hw'. rewrite Hi. by apply Ht, H1.
Qed.

Lemma sender_steps b a a' :
  end_step (sent b) a a' -> send_inv (written a) (sp a) -> tx_open (sp a) = true -> snd_id a = zlen (written a) ->
  zlen (written a') < 2 ^ 32 - 1 -> running a -> running a' -> timed (sp a) ->
  sender_step (acked (tx (sp b))) a a'.
Proof.
  intros Hst Hs Ho Hid Hb [Ha Hl] [Ha' Hl'] Ht.
  destruct Hst as [a d n s He Hwr E|a d err s He Hwr E|a ev env He Hev|a rtt s He E|a s He E|a now He|a He]; try done; cbn [sp written] in *.
  - unfold stream_to_stream_pack in E. rewrite Hid in E. rewrite zlen_app in Hb. change (zlen [d]) with 1 in Hb.
    pose proof (zlen_nonneg (written a)). rewrite (wrap_id 32) in E by (unfold in_width; lia).
    set (p := PData _) in E. set (s0 := add_window_size _ _ _) in E.
    destruct (to_peer_spec (zlen (written a) + 1) p 0 s0 Ho) as (s1 & f & info & E1 & T1 & O1 & M1 & I1 & N1 & N2 & C1).
    rewrite E1 in E. injection E as _ <-.
    assert (forall i, i <> zlen (written a) + 1 -> (waits i s1 <-> waits i (sp a))) as W.
    { intros i Hi. unfold waits. rewrite M1. cbn. by rewrite lookup_insert_ne. }
    assert (waits (zlen (written a) + 1) s1) as Wn by (unfold waits; rewrite M1; cbn; rewrite lookup_insert_eq; eauto).
    split; cbn.
    + by exists [d].
    + intros _. eapply (timed_to_peer s0); [by destruct Ht|done..].
    + intros i Hi. apply W. lia.
    + intros i Hi. left. destruct (decide (i = zlen (written a) + 1)) as [->|]; [done|by apply W].
    + intros i Hi. rewrite zlen_app in Hi. change (zlen [d]) with 1 in Hi. by replace i with (zlen (written a) + 1) by lia.
    + intros i t Hi Htr. right. intros Hw. destruct (Htr (proj1 (W i ltac:(lia)) Hw)) as (x & Hx & ? & ?).
      exists x. rewrite I1. split; [apply elem_of_app; by left|done].
  - destruct (turn ev env (sp a) (rx a)) as [s r] eqn:E. cbn in Hl'. destruct (turn_queue _ _ _ _ _ _ Hl E Hl') as (I & C & W).
    apply sender_same; try done; cbn.
    + intros i Hi. by apply W.
    + intros i Hi. destruct (decide (i ∈ acked (tx (sp b)))); [by right|left]. apply W. split; [done|]. intros v -> Hin.
      pose proof (Hev _ eq_refl) as Hp. unfold sent in Hp. apply n. unfold acked. apply list_elem_of_bind. by exists (PDataAck v).
  - unfold check_waiting_pack_timeout in E. rewrite Hl in E.
    destruct (resend_facts _ _ _ _ _ _ _ Hs Ho Ht E) as (l & T & A & Ht' & C & W & K). split; cbn; try done.
    + exists []. by rewrite app_nil_r.
    + intros i _. apply W.
    + intros i Hi. left. by apply W.
    + intros i. lia.
    + intros i t _ Htr. destruct (K i t Htr) as [Hv|?]; [left|by right]. unfold sends_data. cbn. by rewrite (news_app _ _ _ T).
  - assert (exists l, s = set_tx l (sp a)) as [l ->].
    { unfold heartbeat, send_heartbeat in E. case_match; [done|]. case_match; [injection E as <-; exists (tx (sp a)); by rewrite set_tx_same|].
      destruct (send_tx_set (PHeartbeat (mkHeartbeat (sp_stream_id (sp a)) (curr_timestamp (sp a)))) (sp a)) as [l El].
      destruct (send_tx _ (sp a)) as [[] s1]; try done. injection E as <-. by exists l. }
    apply sender_same; try done. intros i Hi. by left.
  - apply sender_same; try done. intros i Hi. by left.
Qed.

(** The receiving half. *)
Record receiver_step (b b' : Endpoint) : Prop := {
  rs_known : send_pack_id_map (rx b) ⊆ send_pack_id_map (rx b');
  rs_has : forall i, has i (rx b) -> has i (rx b');
  rs_delivered : delivered (rx b) `prefix_of` delivered (rx b');
  rs_acks : exists l, tx (sp b') = tx (sp b) ++ l /\ forall j, j ∈ acked l -> j ∈ send_pack_id_map (rx b')
}.

Lemma receiver_same b b' l : rx b' = rx b -> tx (sp b') = tx (sp b) ++ l -> acked l = [] -> receiver_step b b'.
Proof. intros Hr Ht Ha. split; rewrite ?Hr; try done. exists l. rewrite Ha. split; [done|]. by intros j ?%elem_of_nil. Qed.

Lemma resend_acked w fuel now limit s o s' :
  send_inv w s -> tx_open s = true -> resend_loop fuel now limit s = (o, s') -> exists l, tx s' = tx s ++ l /\ acked l = [].
Proof.
  revert s. induction fuel as [|fuel IH]; intros s Hs Ho; cbn [resend_loop].
  { intros [= <- <-]. exists []. by rewrite app_nil_r. }
  destruct (waiting_pack_infos s) as [|info infos]; [intros [= <- <-]; exists []; by rewrite app_nil_r|].
  destruct (limit <? _); [|intros [= <- <-]; exists []; by rewrite app_nil_r]. cbn [waiting_pack_map set_infos].
  destruct (waiting_pack_map s !! wait_pack_id info) as [[p first]|] eqn:Em.
  - destruct (se_map _ _ Hs _ _ _ Em) as (v & -> & Hid & Hg). set (s0 := set_map _ _).
    destruct (to_peer_spec (wait_pack_id info) (PData v) first s0 Ho) as (s1 & f & new & E1 & T1 & O1 & _). rewrite E1.
    assert (send_inv w s1) as Hs1.
    { eapply (to_peer_inv w (wait_pack_id info) v first s0); [|done|done|exact E1]. destruct Hs as [S1 S2]. split; [done|].
      cbn. intros i p t [_ Hi]%lookup_delete_Some. by eapply S2. }
    intros E. destruct (IH s1 Hs1 O1 E) as (l & T & A). exists (PData v :: l). split; [by rewrite T, T1, <- app_assoc|done].
  - intros E. destruct (IH (set_infos infos s)) as (l & T & A); [by destruct Hs|done|exact E|by exists l].
Qed.

Lemma receiver_steps a b b' :
  end_step (sent a) b b' -> send_inv (written b) (sp b) -> tx_open (sp b) = true ->
  send_inv (written a) (sp a) -> recv_inv (written a) (rx b) -> zlen (written a) < 2 ^ 32 - 1 ->
  running b -> running b' -> stream_closed (rx b) = false -> stream_closed (rx b') = false -> receiver_step b b'.
Proof.
  intros Hst Hs Ho Hsa Hr Hw [Hb Hl] [Hb' Hl'] Hc Hc'.
  destruct Hst as [b d n s He Hwr E|b d err s He Hwr E|b ev env He Hev|b rtt s He E|b s He E|b now He|b He]; try done; cbn [sp written rx] in *.
  - unfold stream_to_stream_pack in E. set (p := PData _) in E. set (s0 := add_window_size _ _ _) in E.
    destruct (to_peer_spec (wrap32 (snd_id b + 1)) p 0 s0 Ho) as (s1 & f & info & E1 & T1 & _). rewrite E1 in E. injection E as _ <-.
    by apply (receiver_same _ _ [p]).
  - destruct (turn ev env (sp b) (rx b)) as [s r] eqn:E. cbn in *.
    destruct (turn_law (written a) ev env (sp b) (rx b) s r) as (l & T & A & S & H & P & _); try done.
    + intros v ->. apply (se_tx _ _ Hsa). by apply (Hev (PData v)).
    + split; try done. by exists l.
  - unfold check_waiting_pack_timeout in E. rewrite Hl in E. destruct (resend_acked _ _ _ _ _ _ _ Hs Ho E) as (l & T & A).
    by apply (receiver_same _ _ l).
  - unfold heartbeat, send_heartbeat, send_tx in E. rewrite Ho in E.
    repeat case_match; try done; injection E as <-; [apply (receiver_same _ _ [])|eapply (receiver_same _ _ [_])]; try done; by rewrite app_nil_r.
  - apply (receiver_same _ _ []); try done. by rewrite app_nil_r.
Qed.

(** A timeout check sends what has waited too long. *)
Lemma check_sends rtt i t w s s' :
  is_close s = false -> tx_open s = true -> send_inv w s -> timed s -> tracked i t s -> waits i s ->
  timeout_millis rtt < curr_timestamp s - t ->
  check_waiting_pack_timeout rtt s = (Ok tt, s') -> sends_data i s s'.
Proof.
  intros Hl Ho Hs [Hso _] Ht Hw Hlt E. destruct (Ht Hw) as (info & Hin & Hid & Hti).
  set (P := fun x => timeout_millis rtt < curr_timestamp s - insert_timestamp x).
  assert (forall l, StronglySorted before l -> info ∈ l -> exists exp rest, l = exp ++ rest /\ Forall P exp /\
    (forall x, head rest = Some x -> ~ P x) /\ info ∈ exp) as Hsplit.
  { induction l as [|x l IH]; intros Hsl Hil; [by apply elem_of_nil in Hil|]. inversion Hsl as [|? ? Hsl' Hx]; subst.
    assert (P x) as Px.
    { unfold P. apply elem_of_cons in Hil as [<-|Hil]; [lia|]. rewrite Forall_forall in Hx. specialize (Hx info Hil). unfold before in Hx. lia. }
    apply elem_of_cons in Hil as [<-|Hil'].
    - assert (exists exp rest, l = exp ++ rest /\ Forall P exp /\ forall x, head rest = Some x -> ~ P x) as (exp & rest & -> & He & Hr).
      { clear. induction l as [|y l (exp & rest & -> & He & Hr)]; [by exists [], []|].
        destruct (Z.lt_ge_cases (timeout_millis rtt) (curr_timestamp s - insert_timestamp y)) as [Py|Py]; [exists (y :: exp), rest|exists [], (y :: exp ++ rest)]; (split_and!; [done|by constructor|]); [done|].
        intros z [= <-]. unfold P. lia. }
      exists (info :: exp), rest. split_and!; [done|by constructor|done|constructor].
    - destruct (IH Hsl' Hil') as (exp & rest & -> & He & Hr & Hi). exists (x :: exp), rest. split_and!; [done|by constructor|done|by constructor]. }
  destruct (Hsplit _ Hso Hin) as (exp & rest & Hi & He & Hr & Hie).
  unfold check_waiting_pack_timeout in E. rewrite Hl in E.
  destruct (resend_loop_spec (S (length (waiting_pack_infos s))) (curr_timestamp s) (timeout_millis rtt) s exp rest) as (s1 & E1 & T & _).
  - unfold timeout_millis. zcases.
  - split; try done. intros x Hx. specialize (Hr x Hx). unfold P in Hr. lia.
  - rewrite Hi, length_app. lia.
  - rewrite E in E1. injection E1 as <-. destruct Hw as [[p f] Hp]. destruct (se_map _ _ Hs _ _ _ Hp) as (v & -> & Hv & _).
    exists v. split; [|done]. rewrite (news_app _ _ _ T). unfold still_waiting. apply list_elem_of_omap. exists info. split; [done|]. by rewrite Hid, Hp.
Qed.

(** ** Fair runs *)

Abbreviation Ends := (Endpoint * Endpoint)%type.

(** What happens between two states of the pair: a timeout check of the left end
    with a round trip time of at most [B]; a turn of an end with what its network
    or the clock gives it, by how its application takes what is handed on. *)
Definition checks (B : Z) (s s' : Ends) : Prop :=
  exists rtt st, rtt <= B /\ check_waiting_pack_timeout rtt (sp s.1) = (Ok tt, st) /\
    s' = (mkEnd st (rx s.1) (snd_id s.1) (written s.1) false, s.2).

Definition turned (ev : RecvEvent) (env : list (TrySend * bool)) (e : Endpoint) : Endpoint :=
  mkEnd (turn ev env (sp e) (rx e)).1 (turn ev env (sp e) (rx e)).2 (snd_id e) (written e) false.

Definition gets_data (i : Z) (s s' : Ends) : Prop :=
  exists v env, PData v ∈ tx (sp s.1) /\ pack_id (data_header v) = i /\ s' = (s.1, turned (Got (PData v)) env s.2).
Definition gets_ack (i : Z) (s s' : Ends) : Prop :=
  exists v env, PDataAck v ∈ tx (sp s.2) /\ i ∈ pack_ids (ack_data v) /\ s' = (turned (Got (PDataAck v)) env s.1, s.2).
Definition takes_all (s s' : Ends) : Prop :=
  exists ev, (forall p, ev = Got p -> sent s.1 p) /\ s' = (s.1, turned ev [] s.2).

Definition says_data (i : Z) (s s' : Ends) : Prop := sends_data i (sp s.1) (sp s'.1).
Definition says_ack (i : Z) (s s' : Ends) : Prop := i ∈ acked (news (sp s.2) (sp s'.2)).

(** A run in which both ends go on for ever. The left end looks for timeouts
    again and again, however far its clock has got; the application on the right
    again and again takes all there is; and the network is a fair one: a pack of
    a number that is sent for ever arrives for ever, and an acknowledgement of it
    too. *)
Record fair_run (m B id t1 t2 : Z) (e : nat -> Ends) : Prop := {
  fr_init : e 0%nat = (end_new id t1, end_new id t2);
  fr_step : forall n, net_step (e n) (e (S n));
  fr_running : forall n, running (e n).1 /\ running (e n).2 /\ stream_closed (rx (e n).2) = false;
  fr_bound : forall n, in_bound (e n).1 /\ in_bound (e n).2 /\ pieces_bound m (e n).1 /\ pieces_bound m (e n).2;
  fr_clock : forall n, curr_timestamp (sp (e n).1) <= curr_timestamp (sp (e (S n)).1);
  fr_check : forall T n, exists k, (n <= k)%nat /\ T <= curr_timestamp (sp (e k).1) /\ checks B (e k) (e (S k));
  fr_take : forall n, exists k, (n <= k)%nat /\ takes_all (e k) (e (S k));
  fr_data : forall i n, (exists k, (n <= k)%nat /\ gets_data i (e k) (e (S k))) \/
    (exists k, (n <= k)%nat /\ forall j, (k <= j)%nat -> ~ says_data i (e j) (e (S j)));
  fr_ack : forall i n, (exists k, (n <= k)%nat /\ gets_ack i (e k) (e (S k))) \/
    (exists k, (n <= k)%nat /\ forall j, (k <= j)%nat -> ~ says_ack i (e j) (e (S j)))
}.

Section Run.
Context {m B id t1 t2 : Z} {e : nat -> Ends} (Hm : 0 <= m < 2 ^ 62) (F : fair_run m B id t1 t2 e).

Local Abbreviation a n := (e n).1.
Local Abbreviation b n := (e n).2.

Lemma run_reach n : reachable id t1 t2 (e n).
Proof. induction n as [|n IH]; [rewrite (fr_init _ _ _ _ _ _ F); constructor|]. eapply reach_step; [exact IH|apply F]. Qed.

Lemma run_facts n :
  send_inv (written (a n)) (sp (a n)) /\ send_inv (written (b n)) (sp (b n)) /\
  tx_open (sp (a n)) = true /\ tx_open (sp (b n)) = true /\ snd_id (a n) = zlen (written (a n)) /\
  recv_inv (written (a n)) (rx (b n)) /\ knows_all (rx (b n)).
Proof.
  pose proof (run_reach n) as R. destruct (fr_bound _ _ _ _ _ _ F n) as (Ha & Hb & _).
  destruct (fr_running _ _ _ _ _ _ F n) as ([Ea _] & [Eb _] & _).
  destruct (e n) as [a b]. cbn in *. destruct (reachable_net_inv _ _ _ _ R Ha Hb) as [Fa Fb].
  destruct (reachable_out _ _ _ _ R Ha Hb) as [Oa Ob]. specialize (Oa Ha Ea). specialize (Ob Hb Eb).
  destruct (reachable_knows _ _ _ _ R Ha Hb) as [_ K].
  split_and!; [apply Fa|apply Fb|apply Oa|apply Ob|by apply Fa|apply Fa|exact K].
Qed.

(** Every step is one of the sender and one of the receiver. *)
Lemma receiver_run n : receiver_step (b n) (b (S n)).
Proof.
  destruct (run_facts n) as (Sa & Sb & Oa & Ob & Hid & Hr & _). destruct (fr_bound _ _ _ _ _ _ F n) as (Ha & Hb & _).
  destruct (fr_running _ _ _ _ _ _ F n) as (Ra & Rb & C). destruct (fr_running _ _ _ _ _ _ F (S n)) as (Ra' & Rb' & C').
  pose proof (fr_step _ _ _ _ _ _ F n) as St. destruct (e n) as [x y], (e (S n)) as [x' y']. cbn in *.
  inversion St as [? ? ? Hs|? ? ? Hs]; subst.
  - apply (receiver_same _ _ []); try done. by rewrite app_nil_r.
  - by apply (receiver_steps x').
Qed.

Lemma sender_timed n : timed (sp (a n)) -> sender_step (acked (tx (sp (b n)))) (a n) (a (S n)).
Proof.
  intros Ht. destruct (run_facts n) as (Sa & Sb & Oa & Ob & Hid & Hr & _).
  destruct (fr_running _ _ _ _ _ _ F n) as (Ra & Rb & C). destruct (fr_running _ _ _ _ _ _ F (S n)) as (Ra' & Rb' & C').
  destruct (fr_bound _ _ _ _ _ _ F (S n)) as (Ha' & _).
  pose proof (fr_step _ _ _ _ _ _ F n) as St. destruct (e n) as [x y], (e (S n)) as [x' y']. cbn in *.
  inversion St as [? ? ? Hs|? ? ? Hs]; subst; [by apply sender_steps|]. apply sender_same; try done. intros i Hi. by left.
Qed.

Lemma timed_run n : timed (sp (a n)).
Proof.
  induction n as [|n IH]; [rewrite (fr_init _ _ _ _ _ _ F); split; constructor|].
  apply (ss_timed _ _ _ (sender_timed n IH)), F.
Qed.

Lemma sender_run n : sender_step (acked (tx (sp (b n)))) (a n) (a (S n)).
Proof. apply sender_timed, timed_run. Qed.

(** ** What stays so *)

Lemma later (P : nat -> Prop) n k : (forall j, (n <= j)%nat -> P j -> P (S j)) -> (n <= k)%nat -> P n -> P k.
Proof. intros Hs Hk Hn. induction Hk as [|k Hk IH]; [done|]. by apply Hs. Qed.

Lemma written_later n k : (n <= k)%nat -> exists more, written (a k) = written (a n) ++ more.
Proof.
  intros Hk. apply (later (fun k => exists more, written (a k) = written (a n) ++ more) n k); [|done|exists []; by rewrite app_nil_r].
  intros j _ [more E]. destruct (ss_written _ _ _ (sender_run j)) as [more' E']. exists (more ++ more'). by rewrite E', E, app_assoc.
Qed.

Lemma length_later n k : (n <= k)%nat -> zlen (written (a n)) <= zlen (written (a k)).
Proof. intros [more ->]%written_later. rewrite zlen_app. pose proof (zlen_nonneg more). lia. Qed.

Lemma known_later i n k : (n <= k)%nat -> i ∈ send_pack_id_map (rx (b n)) -> i ∈ send_pack_id_map (rx (b k)).
Proof. intros Hk. apply (later (fun k => i ∈ send_pack_id_map (rx (b k))) n k); [|done]. intros j _. apply (rs_known _ _ (receiver_run j)). Qed.

Lemma has_later i n k : (n <= k)%nat -> has i (rx (b n)) -> has i (rx (b k)).
Proof. intros Hk. apply (later (fun k => has i (rx (b k))) n k); [|done]. intros j _. apply (rs_has _ _ (receiver_run j)). Qed.

Lemma delivered_later n k : (n <= k)%nat -> delivered (rx (b n)) `prefix_of` delivered (rx (b k)).
Proof.
  intros Hk. apply (later (fun k => delivered (rx (b n)) `prefix_of` delivered (rx (b k))) n k); [|done|done].
  intros j _ H. etransitivity; [exact H|]. apply (rs_delivered _ _ (receiver_run j)).
Qed.

Lemma done_later i n k : (n <= k)%nat -> i <= zlen (written (a n)) -> ~ waits i (sp (a n)) -> ~ waits i (sp (a k)).
Proof.
  intros Hk Hi. apply (later (fun k => ~ waits i (sp (a k))) n k); [|done]. intros j Hj Hn Hw. apply Hn.
  apply (ss_waits _ _ _ (sender_run j)); [|done]. pose proof (length_later n j Hj). lia.
Qed.

(** Only what is known is acknowledged, and what no longer waits is known. *)
Lemma acks_known n j : j ∈ acked (tx (sp (b n))) -> j ∈ send_pack_id_map (rx (b n)).
Proof.
  revert j. induction n as [|n IH]; intros j; [rewrite (fr_init _ _ _ _ _ _ F); by intros ?%elem_of_nil|].
  destruct (rs_acks _ _ (receiver_run n)) as (l & -> & Hl). rewrite acked_app, elem_of_app. intros [Hj|Hj]; [|by apply Hl].
  apply (known_later j n); [lia|by apply IH].
Qed.

Lemma waits_or_known n i : 1 <= i <= zlen (written (a n)) -> waits i (sp (a n)) \/ i ∈ send_pack_id_map (rx (b n)).
Proof.
  induction n as [|n IH]; [rewrite (fr_init _ _ _ _ _ _ F); change (zlen _) with 0; lia|]. intros Hi.
  destruct (Z.le_gt_cases i (zlen (written (a n)))) as [Hle|Hgt]; [|left; apply (ss_new _ _ _ (sender_run n)); lia].
  destruct IH as [Hw|Hk]; [lia| |right; apply (known_later i n); [lia|done]].
  destruct (ss_keeps _ _ _ (sender_run n) i Hw) as [?|Ha]; [by left|right].
  apply (known_later i n); [lia|]. by apply acks_known.
Qed.

(** ** What comes to pass *)

(** A pack no longer sent is no longer waited for. *)
Lemma quiet_done i n :
  i <= zlen (written (a n)) -> (forall j, (n <= j)%nat -> ~ says_data i (e j) (e (S j))) ->
  exists k, (n <= k)%nat /\ ~ waits i (sp (a k)).
Proof.
  intros Hi Hq. destruct (decide (waits i (sp (a n)))) as [Hw|Hw]; [|by exists n].
  destruct (fr_bound _ _ _ _ _ _ F n) as (Ha & Hb & Pa & Pb).
  destruct (reachable_wait m _ _ _ _ Hm (run_reach n) Ha Hb Pa Pb) as [[_ _ _ Hcov] _].
  destruct (Hcov i Hw) as (info & Hin & Hid). set (t := insert_timestamp info).
  assert (forall k, (n <= k)%nat -> tracked i t (sp (a k))) as Htr.
  { intros k Hk. apply (later (fun k => tracked i t (sp (a k))) n k); [|done|by exists info].
    intros j Hj Hj'. destruct (ss_tracked _ _ _ (sender_run j) i t) as [Hs|?]; try done.
    - pose proof (length_later n j Hj). lia.
    - by destruct (Hq j Hj). }
  destruct (fr_check _ _ _ _ _ _ F (t + Z.max B 1000 * 3 + 1) n) as (k & Hk & HT & rtt & st & Hrtt & E & Es).
  destruct (decide (waits i (sp (a k)))) as [Hwk|Hwk]; [|by exists k]. exfalso. apply (Hq k Hk).
  destruct (run_facts k) as (Sa & _ & Oa & _). destruct (fr_running _ _ _ _ _ _ F k) as ([_ La] & _).
  unfold says_data. rewrite Es. cbn [fst sp]. eapply (check_sends rtt i t); [exact La|exact Oa|exact Sa|apply timed_run|by apply Htr|exact Hwk| |exact E].
  unfold timeout_millis. zcases.
Qed.

(** A pack arrives or is no longer waited for. *)
Lemma served i n :
  i <= zlen (written (a n)) ->
  exists k, (n <= k)%nat /\ (gets_data i (e k) (e (S k)) \/ ~ waits i (sp (a k))).
Proof.
  intros Hi. destruct (fr_data _ _ _ _ _ _ F i n) as [(k & Hk & Hg)|(k & Hk & Hq)]; [exists k; auto|].
  destruct (quiet_done i k) as (k' & Hk' & Hw); [pose proof (length_later n k Hk); lia|done|]. exists k'. split; [lia|by right].
Qed.

(** What a turn of the receiver that takes a step of the run does. *)
Lemma turned_law n ev env :
  e (S n) = (a n, turned ev env (b n)) -> (forall p, ev = Got p -> sent (a n) p) ->
  exists l, tx (sp (b (S n))) = tx (sp (b n)) ++ l /\
    (forall v, ev = Got (PData v) -> has (pack_id (data_header v)) (rx (b (S n))) /\
      (pack_id (data_header v) ∈ send_pack_id_map (rx (b n)) -> pack_id (data_header v) ∈ acked l)) /\
    (env = [] -> recv_pack_cache_map (rx (b (S n))) !! next_id (rx (b (S n))) = None).
Proof.
  intros E Hs. destruct (run_facts n) as (Sa & _ & _ & Ob & _ & Hr & _). destruct (fr_bound _ _ _ _ _ _ F n) as (Ha & _).
  destruct (fr_running _ _ _ _ _ _ F n) as (_ & [_ Lb] & C). destruct (fr_running _ _ _ _ _ _ F (S n)) as (_ & [_ Lb'] & C').
  rewrite E in *. unfold turned in *. cbn [fst snd sp rx] in *.
  destruct (turn ev env (sp (b n)) (rx (b n))) as [s r] eqn:Et. cbn [fst snd] in *.
  destruct (turn_law (written (a n)) ev env (sp (b n)) (rx (b n)) s r) as (l & T & _ & _ & _ & _ & V & D); try done.
  - intros v ->. apply (se_tx _ _ Sa). by apply (Hs (PData v)).
  - by exists l.
Qed.

Lemma has_pack i n : 1 <= i <= zlen (written (a n)) -> exists k, (n <= k)%nat /\ has i (rx (b k)).
Proof.
  intros Hi. destruct (served i n) as (k & Hk & [(v & env & Hv & <- & E)|Hw]); [lia| |].
  - exists (S k). split; [lia|]. destruct (turned_law k _ _ E) as (l & _ & V & _); [by intros p [= <-]|]. by apply V.
  - exists k. split; [done|]. left. destruct (waits_or_known k i) as [?|Hin]; [pose proof (length_later n k Hk); lia|done|].
    destruct (run_facts k) as (_ & _ & _ & _ & _ & Hr & _). destruct (fr_running _ _ _ _ _ _ F k) as (_ & _ & C). by apply (ri_sent _ _ Hr C).
Qed.

Lemma has_all N n : Z.of_nat N <= zlen (written (a n)) ->
  exists k, (n <= k)%nat /\ forall i, 1 <= i <= Z.of_nat N -> has i (rx (b k)).
Proof.
  induction N as [|N IH]; intros HN; [exists n; split; [done|lia]|].
  destruct IH as (k & Hk & Hall); [lia|]. destruct (has_pack (Z.of_nat (S N)) k) as (k' & Hk' & Hl); [pose proof (length_later n k Hk); lia|].
  exists k'. split; [lia|]. intros i Hi. destruct (decide (i = Z.of_nat (S N))) as [->|]; [done|]. apply (has_later i k); [done|]. apply Hall. lia.
Qed.

(** All that was written is handed on. *)
Lemma pieces_handed_on n : exists k, (n <= k)%nat /\ zlen (written (a n)) < next_id (rx (b k)).
Proof.
  destruct (has_all (length (written (a n))) n) as (k & Hk & Hall); [unfold zlen; lia|].
  destruct (fr_take _ _ _ _ _ _ F k) as (j & Hj & ev & Hev & E). exists (S j). split; [lia|].
  destruct (turned_law j ev [] E Hev) as (_ & _ & _ & D). specialize (D eq_refl).
  destruct (run_facts (S j)) as (_ & _ & _ & _ & _ & Hr & _). destruct (fr_running _ _ _ _ _ _ F (S j)) as (_ & _ & C).
  pose proof (ri_next _ _ Hr C). pose proof (zlen_nonneg (delivered (rx (b (S j))))).
  destruct (Z.lt_ge_cases (zlen (written (a n))) (next_id (rx (b (S j))))); [done|].
  destruct (has_later (next_id (rx (b (S j)))) k (S j)) as [?|[x Hx]]; [lia|apply Hall; unfold zlen in *; lia|lia|congruence].
Qed.

(** And acknowledged. *)
Lemma acknowledged i n : 1 <= i <= zlen (written (a n)) -> exists k, (n <= k)%nat /\ ~ waits i (sp (a k)).
Proof.
  intros Hi. destruct (pieces_handed_on n) as (k0 & Hk0 & Hn0).
  assert (i ∈ send_pack_id_map (rx (b k0))) as Hin by (destruct (run_facts k0) as (_ & _ & _ & _ & _ & _ & K); apply K; lia).
  destruct (fr_ack _ _ _ _ _ _ F i k0) as [(k & Hk & v & env & Hv & Hiv & E)|(k & Hk & Hq)].
  - exists (S k). split; [lia|]. destruct (fr_running _ _ _ _ _ _ F k) as ([_ La] & _). destruct (fr_running _ _ _ _ _ _ F (S k)) as ([_ La'] & _).
    rewrite E in La' |- *. cbn [fst sp turned] in *. destruct (turn (Got (PDataAck v)) env (sp (a k)) (rx (a k))) as [s r] eqn:Et. cbn [fst] in *.
    destruct (turn_queue _ _ _ _ _ _ La Et La') as (_ & _ & W). rewrite W. intros [_ H]. by apply (H v).
  - destruct (served i k) as (k' & Hk' & [(v & env & Hv & <- & E)|Hw]); [pose proof (length_later n k ltac:(lia)); lia| |exists k'; split; [lia|done]].
    exfalso. apply (Hq k' Hk'). destruct (turned_law k' _ _ E) as (l & T & V & _); [by intros p [= <-]|].
    unfold says_ack. rewrite (news_app _ _ _ T). apply (V v eq_refl). by apply (known_later _ k0); [lia|].
Qed.

Lemma acknowledged_all N n : Z.of_nat N <= zlen (written (a n)) ->
  exists k, (n <= k)%nat /\ forall i, 1 <= i <= Z.of_nat N -> ~ waits i (sp (a k)).
Proof.
  induction N as [|N IH]; intros HN; [exists n; split; [done|lia]|].
  destruct IH as (k & Hk & Hall); [lia|]. pose proof (length_later n k Hk).
  destruct (acknowledged (Z.of_nat (S N)) k) as (k' & Hk' & Hl); [lia|].
  exists k'. split; [lia|]. intros i Hi. destruct (decide (i = Z.of_nat (S N))) as [->|]; [done|]. apply (done_later i k); [done|lia|]. apply Hall. lia.
Qed.

(** The window opens: it does while all that was written is acknowledged, or
    before. *)
Lemma window_opens n : exists k, (n <= k)%nat /\ window_ready (sp (a k)) = true.
Proof.
  destruct (acknowledged_all (length (written (a n))) n) as (k & Hk & Hall); [unfold zlen; lia|].
  assert (forall j, (n <= j)%nat -> (exists k, (n <= k)%nat /\ window_ready (sp (a k)) = true) \/ written (a j) = written (a n)) as Hor.
  { intros j Hj. apply (later (fun j => (exists k, (n <= k)%nat /\ window_ready (sp (a k)) = true) \/ written (a j) = written (a n)) n j); [|done|by right].
    intros i Hi [?|E]; [by left|]. destruct (window_ready (sp (a i))) eqn:Ew; [by left; exists i|right].
    rewrite <- E. pose proof (fr_step _ _ _ _ _ _ F i) as St. destruct (e i) as [x y], (e (S i)) as [x' y']. cbn in *.
    inversion St as [? ? ? Hs|? ? ? Hs]; subst; [|done]. destruct Hs; try done; cbn in *; congruence. }
  destruct (Hor k Hk) as [?|E]; [done|]. exists k. split; [done|].
  destruct (fr_bound _ _ _ _ _ _ F k) as (Ha & Hb & Pa & Pb).
  destruct (reachable_wait m _ _ _ _ Hm (run_reach k) Ha Hb Pa Pb) as [[Hw _ _ _] _].
  destruct (run_facts k) as (Sa & _). assert (waiting_pack_map (sp (a k)) = ∅) as Hmt.
  { apply map_empty. intros i. destruct (waiting_pack_map (sp (a k)) !! i) as [[p t]|] eqn:Ei; [|done]. exfalso.
    destruct (se_map _ _ Sa _ _ _ Ei) as (v & _ & Hid & Hg%genuine_range). rewrite E, Hid in Hg.
    apply (Hall i); [unfold zlen in Hg; lia|]. unfold waits. by rewrite Ei. }
  unfold window_ready. by rewrite Hw, Hmt.
Qed.
End Run.

(** C3. Losses are recovered: in every run of a pair of streams over a network
    that loses, repeats and reorders packs, but lets one through of those it is
    given again and again, everything written so far is at some time handed to the
    application on the other side, in order, and acknowledged, and stays so; and
    the window is open again and again. *)
Theorem losses_recovered m B id t1 t2 e :
  0 <= m < 2 ^ 62 -> fair_run m B id t1 t2 e ->
  forall n,
    (exists k, (n <= k)%nat /\ forall j, (k <= j)%nat ->
      written (e n).1 `prefix_of` (datas <$> delivered (rx (e j).2)) /\
      forall i, 1 <= i <= zlen (written (e n).1) -> waiting_pack_map (sp (e j).1) !! i = None) /\
    (exists k, (n <= k)%nat /\ window_ready (sp (e k).1) = true).
Proof.
  intros Hm F n. split; [|by apply (window_opens Hm F)].
  destruct (pieces_handed_on Hm F n) as (k1 & Hk1 & Hn). destruct (acknowledged_all Hm F (length (written (e n).1)) n) as (k2 & Hk2 & Hall); [unfold zlen; lia|].
  exists (Nat.max k1 k2). split; [lia|]. intros j Hj. split.
  - destruct (run_facts F k1) as (_ & _ & _ & _ & _ & Hr & _). destruct (fr_running _ _ _ _ _ _ F k1) as (_ & _ & C).
    rewrite (ri_next _ _ Hr C) in Hn. destruct (written_later F n k1 Hk1) as [more E].
    transitivity (datas <$> delivered (rx (e k1).2)); [|destruct (delivered_later F k1 j) as [l ->]; [lia|rewrite fmap_app; by apply prefix_app_r]].
    rewrite (ri_prefix _ _ Hr), E. rewrite take_app_ge by (unfold zlen in Hn; lia). by apply prefix_app_r.
  - intros i Hi. destruct (waiting_pack_map (sp (e j).1) !! i) as [x|] eqn:Ei; [|done]. exfalso.
    apply (done_later F i k2 j); [lia|pose proof (length_later F n k2 Hk2); lia| |by exists x]. apply Hall. unfold zlen in Hi. lia.
Qed.

(** ** A fair run

    A piece is written and its pack is lost; it is sent again when the clock has
    got past the timeout, arrives, and its acknowledgement does. From then on the
    clock ticks, the left end looks for timeouts and the right one waits. *)
Definition on_left (f : Endpoint -> Endpoint) (s : Ends) : Ends := (f s.1, s.2).
Definition on_right (f : Endpoint -> Endpoint) (s : Ends) : Ends := (s.1, f s.2).
Definition e_write (d : list Z) (x : Endpoint) : Endpoint :=
  mkEnd (stream_to_stream_pack d (snd_id x) (sp x)).2 (rx x) (snd_id x + 1) (written x ++ [d]) false.
Definition e_tick (now : Z) (x : Endpoint) : Endpoint := mkEnd (set_now now (sp x)) (rx x) (snd_id x) (written x) false.
Definition e_check (x : Endpoint) : Endpoint := mkEnd (check_waiting_pack_timeout 50 (sp x)).2 (rx x) (snd_id x) (written x) false.

Definition lost_data : TunnelData := mkData (mkDataHeader 7 1 2) [1; 2].
Definition lost_ack : TunnelDataAck := mkAck (mkAckHeader 7 0) (mkAckData [1]).
Definition recovery : list (Ends -> Ends) :=
  [on_left (e_write [1; 2]); on_left (e_tick 4000); on_left e_check; on_right (turned (Got (PData lost_data)) []);
   on_left (turned (Got (PDataAck lost_ack)) []); on_left (e_tick 8000); on_left e_check].

Definition recovering (n : nat) : Ends := foldl (fun s f => f s) (end_new 7 0, end_new 7 0) (take n recovery).
Definition recovered : Ends := Eval vm_compute in recovering 7.

Definition lossy_run (n : nat) : Ends :=
  if (n <? 7)%nat then recovering n else on_left (e_tick (8000 + Z.of_nat ((n - 7 + 2) / 3))) recovered.

Lemma lossy_tail j : lossy_run (7 + j) = on_left (e_tick (8000 + Z.of_nat ((j + 2) / 3))) recovered.
Proof. unfold lossy_run. rewrite (proj2 (Nat.ltb_ge _ _)) by lia. by replace (7 + j - 7)%nat with j by lia. Qed.

(** The states are the seven at the beginning and those after. *)
Lemma lossy_cases (P : Ends -> Prop) :
  (forall n, (n < 7)%nat -> P (recovering n)) -> (forall now, P (on_left (e_tick now) recovered)) -> forall n, P (lossy_run n).
Proof.
  intros H1 H2 n. destruct (Nat.lt_ge_cases n 7) as [Hn|Hn].
  - unfold lossy_run. rewrite (proj2 (Nat.ltb_lt _ _)) by done. by apply H1.
  - replace n with (7 + (n - 7))%nat by lia. rewrite lossy_tail. apply H2.
Qed.

Lemma lossy_first n : (n < 7)%nat -> n = 0%nat \/ n = 1%nat \/ n = 2%nat \/ n = 3%nat \/ n = 4%nat \/ n = 5%nat \/ n = 6%nat.
Proof. lia. Qed.

Lemma lossy_step n : net_step (lossy_run n) (lossy_run (S n)).
Proof.
  destruct (Nat.lt_ge_cases n 7) as [Hn|Hn].
  - apply lossy_first in Hn as [-> | [-> | [-> | [-> | [-> | [-> | ->]]]]]].
    + apply net_left. apply (step_write _ (end_new 7 0) [1; 2] 1); by vm_compute.
    + apply net_left. by apply (step_tick _ (recovering 1).1 4000).
    + apply net_left. apply (step_resend _ (recovering 2).1 50); by vm_compute.
    + apply net_right. apply (step_receive _ (recovering 3).2 (Got (PData lost_data)) []); [done|]. intros p [= <-]. vm_compute. constructor.
    + apply net_left. apply (step_receive _ (recovering 4).1 (Got (PDataAck lost_ack)) []); [done|]. intros p [= <-]. vm_compute. constructor.
    + apply net_left. by apply (step_tick _ (recovering 5).1 8000).
    + apply (net_left (recovering 6).1 (lossy_run 7).1). apply (step_resend _ (recovering 6).1 50); by vm_compute.
  - replace n with (7 + (n - 7))%nat by lia. generalize (n - 7)%nat as j. intros j. rewrite <- Nat.add_succ_r, !lossy_tail.
    set (now := 8000 + _). set (now' := 8000 + _). apply (net_left _ _ recovered.2).
    apply (step_tick _ (e_tick now recovered.1) now'). done.
Qed.

Lemma lossy_fair : fair_run 2 50 7 0 0 lossy_run.
Proof.
  assert (forall n j, (n + 7 <= j)%nat -> exists now now', lossy_run j = on_left (e_tick now) recovered /\ lossy_run (S j) = on_left (e_tick now') recovered) as Hq.
  { intros n j Hj. replace j with (7 + (j - 7))%nat by lia. rewrite <- Nat.add_succ_r, !lossy_tail. by eexists _, _. }
  split.
  - reflexivity.
  - exact lossy_step.
  - apply (lossy_cases (fun s => running s.1 /\ running s.2 /\ stream_closed (rx s.2) = false)); [|done]. intros n Hn. by apply lossy_first in Hn as [-> | [-> | [-> | [-> | [-> | [-> | ->]]]]]].
  - apply (lossy_cases (fun s => in_bound s.1 /\ in_bound s.2 /\ pieces_bound 2 s.1 /\ pieces_bound 2 s.2)).
    + intros n Hn. apply lossy_first in Hn as [-> | [-> | [-> | [-> | [-> | [-> | ->]]]]]]; (split_and!; [done|done|repeat constructor; done|constructor]).
    + intros now. split_and!; [done|done|repeat constructor; done|constructor].
  - intros n. destruct (Nat.lt_ge_cases n 7) as [Hn|Hn].
    + apply lossy_first in Hn as [-> | [-> | [-> | [-> | [-> | [-> | ->]]]]]]; vm_compute; congruence.
    + replace n with (7 + (n - 7))%nat by lia. rewrite <- Nat.add_succ_r, !lossy_tail. cbn [on_left e_tick fst sp curr_timestamp set_now].
      apply Z.add_le_mono_l, inj_le, Nat.Div0.div_le_mono. lia.
  - intros T n. set (q := (n + Z.to_nat T)%nat). exists (7 + (3 * q + 1))%nat. split; [lia|].
    rewrite <- Nat.add_succ_r, !lossy_tail.
    replace ((3 * q + 1 + 2) / 3)%nat with (q + 1)%nat by (apply (Nat.div_unique _ 3 _ 0); lia).
    replace ((S (3 * q + 1) + 2) / 3)%nat with (q + 1)%nat by (apply (Nat.div_unique _ 3 _ 1); lia).
    split; [cbn [on_left e_tick fst sp curr_timestamp set_now]; lia|].
    exists 50, (set_now (8000 + Z.of_nat (q + 1)) (sp recovered.1)). split_and!; [done|reflexivity|reflexivity].
  - intros n. exists (7 + (3 * n + 2))%nat. split; [lia|]. rewrite <- Nat.add_succ_r, !lossy_tail.
    replace ((3 * n + 2 + 2) / 3)%nat with (n + 1)%nat by (apply (Nat.div_unique _ 3 _ 1); lia).
    replace ((S (3 * n + 2) + 2) / 3)%nat with (n + 1)%nat by (apply (Nat.div_unique _ 3 _ 2); lia).
    exists TimedOut. split; [done|]. reflexivity.
  - intros i n. right. exists (n + 7)%nat. split; [lia|]. intros j Hj (v & Hv & _).
    destruct (Hq n j Hj) as (now & now' & E1 & E2). rewrite E1, E2 in Hv. vm_compute in Hv. by apply elem_of_nil in Hv.
  - intros i n. right. exists (n + 7)%nat. split; [lia|]. intros j Hj Hv. unfold says_ack in Hv.
    destruct (Hq n j Hj) as (now & now' & E1 & E2). rewrite E1, E2 in Hv. vm_compute in Hv. by apply elem_of_nil in Hv.
Qed.

(** The lost piece is delivered for good, and the window opens again. *)
Lemma losses_recovered_witness :
  delivered (rx (lossy_run 3).2) = [] /\
  exists k, forall j, (k <= j)%nat -> [[1; 2]] `prefix_of` (datas <$> delivered (rx (lossy_run j).2)).
Proof.
  split; [vm_compute; reflexivity|].
  destruct (losses_recovered 2 50 7 0 0 lossy_run) with (n := 1%nat) as [(k & _ & Hk) _]; [lia|exact lossy_fair|].
  exists k. intros j Hj. apply (Hk j Hj).
Defined.
