(* ===== verification/TunnelStream.v ===== *)
(** The application's end of a tunnel stream, [any-tunnel2/src/stream.rs]:
    reading the packs as bytes, writing bytes as pieces. *)
From S2P Require Import Prelude Wire TunnelPack StreamPack StreamOrder StreamNet StreamWindow.
#[local] Open Scope string_scope.
#[local] Open Scope list_scope.
#[local] Open Scope Z_scope.

(** ** A pack that is being read *)

Record StreamBuf := mkBuf { tunnel_data : TunnelData; pos : Z }.

Definition buf_new (d : TunnelData) : StreamBuf := mkBuf d 0.
Definition remaining (b : StreamBuf) : Z := wrap64 (zlen (datas (tunnel_data b)) - pos b).

Definition split_to (at_ : Z) (b : StreamBuf) : outcome (list Z * StreamBuf) :=
  let len := zlen (datas (tunnel_data b)) in
  let end_ := wrap64 (pos b + at_) in
  let end_ := if len <? end_ then len else end_ in
  d ← vslice (datas (tunnel_data b)) (pos b) end_; Ok (d, mkBuf (tunnel_data b) end_).

(** ** The stream

    [stream_tx] and [stream_rx] tell whether these are still there; [sending]
    is the future of a write that waits, by the bytes it holds.  The channels:
    [inq] is what waits to be read and [in_closed] whether no more can come,
    [pieces] what was put on [stream_tx]. *)
Record Stream := mkTStream {
  stream_tx : bool;
  stream_rx : bool;
  buf : option StreamBuf;
  sending : option (list Z);
  send_len : Z;
  inq : list TunnelData;
  in_closed : bool;
  pieces : list (list Z)
}.

Definition stream_open : Stream := mkTStream true true None None 0 [] false [].

Definition eta_tstream (s : Stream) : Stream :=
  mkTStream (stream_tx s) (stream_rx s) (buf s) (sending s) (send_len s) (inq s) (in_closed s) (pieces s).
Definition set_stx : bool -> Stream -> Stream := ltac:(setter eta_tstream stream_tx).
Definition set_srx : bool -> Stream -> Stream := ltac:(setter eta_tstream stream_rx).
Definition set_buf : option StreamBuf -> Stream -> Stream := ltac:(setter eta_tstream buf).
Definition set_sending : option (list Z) -> Stream -> Stream := ltac:(setter eta_tstream sending).
Definition set_send_len : Z -> Stream -> Stream := ltac:(setter eta_tstream send_len).
Definition set_inq : list TunnelData -> Stream -> Stream := ltac:(setter eta_tstream inq).
Definition set_pieces : list (list Z) -> Stream -> Stream := ltac:(setter eta_tstream pieces).

Definition read_close (s : Stream) : Stream := set_srx false s.
Definition write_close (s : Stream) : Stream := set_stx false s.
Definition close (s : Stream) : Stream := read_close (write_close s).

(** The bytes of the pack at hand, for [room] bytes to fill. *)
Definition from_buf (room : Z) : stm Stream (option (list Z)) :=
  b ← gets buf;
  match b with
  | None => mret None
  | Some b =>
      let remain := remaining b in
      if 0 <? remain then
        let split_at := Z.min room remain in
        '(d, b) ← lift (split_to split_at b);
        _ ← modify (set_buf (if split_at =? remain then None else Some b));
        mret (Some d)
      else _ ← modify (set_buf None); mret None
  end.

(** The loop of [read_channel]: what waits in [q] is taken until there is
    something to give.  The end of the channel closes the stream. *)
Fixpoint read_loop (room : Z) (q : list TunnelData) : stm Stream (Poll (list Z)) :=
  d ← from_buf room;
  match d with
  | Some d => mret (Ready d)
  | None =>
      match q with
      | [] => c ← gets in_closed; if c : bool then _ ← modify close; mret (Ready []) else mret Pending
      | d :: q => _ ← modify (fun s => set_inq q (set_buf (Some (buf_new d)) s)); read_loop room q
      end
  end.

(** [poll_read]: [read_channel] is polled once and dropped, and the bytes are
    none at the end of the stream. *)
Definition poll_read (room : Z) : stm Stream (Poll (list Z)) :=
  s ← gets id;
  if negb (stream_rx s) then mret (Ready []) else read_loop room (inq s).

(** What the channel to the [StreamPack] does with a piece. *)
Inductive SendPoll := Taken | Waits | Refused.

(** [poll_write]: a write that waits is kept, and the next call goes on with
    it, whatever bytes it is given. *)
Definition poll_write (bytes : list Z) (poll : SendPoll) : stm Stream (Poll Z) :=
  s ← gets id;
  if negb (stream_tx s) then mret (Ready 0)
  else
    let slice := default bytes (sending s) in
    let len := match sending s with Some _ => send_len s | None => zlen bytes end in
    _ ← modify (set_send_len len);
    match poll with
    | Taken => _ ← modify (fun s => set_sending None (set_pieces (pieces s ++ [slice]) s)); mret (Ready len)
    | Refused => _ ← modify (fun s => close (set_sending None s)); mret (Ready 0)
    | Waits => _ ← modify (set_sending (Some slice)); mret Pending
    end.

Definition poll_flush : stm Stream unit :=
  tx ← gets stream_tx; if tx : bool then mret tt else fail "ConnectionReset".
Definition poll_shutdown : stm Stream unit := modify write_close.

(** ** Reading *)

(** The bytes that arrived and were not read. *)
Definition at_hand (s : Stream) : list Z :=
  (match buf s with Some b => drop (Z.to_nat (pos b)) (datas (tunnel_data b)) | None => [] end ++
   concat (datas <$> inq s)).

Definition stream_ok (s : Stream) : Prop :=
  forall b, buf s = Some b -> 0 <= pos b <= zlen (datas (tunnel_data b)) /\ zlen (datas (tunnel_data b)) < 2 ^ 63.

Definition fits (d : TunnelData) : Prop := zlen (datas d) < 2 ^ 63.

Lemma split_ok at_ b :
  0 <= pos b <= zlen (datas (tunnel_data b)) -> zlen (datas (tunnel_data b)) < 2 ^ 63 ->
  0 <= at_ <= zlen (datas (tunnel_data b)) - pos b ->
  split_to at_ b = Ok (take (Z.to_nat at_) (drop (Z.to_nat (pos b)) (datas (tunnel_data b))),
                       mkBuf (tunnel_data b) (pos b + at_)).
Proof.
  intros Hp Hl Ha. unfold split_to. unwrap. destruct (Z.ltb_spec (zlen (datas (tunnel_data b))) (pos b + at_)); [lia|].
  rewrite vslice_ok by lia. cbn. by replace (pos b + at_ - pos b) with at_ by lia.
Qed.

Lemma from_buf_ok room s :
  stream_ok s -> 0 < room ->
  exists r s', from_buf room s = (Ok r, s') /\ stream_ok s' /\ inq s' = inq s /\ in_closed s' = in_closed s /\
    match r with
    | Some d => d <> [] /\ zlen d <= room /\ at_hand s = d ++ at_hand s'
    | None => buf s' = None /\ at_hand s = at_hand s'
    end.
Proof.
  intros Hs Hr. unfold from_buf. step. unfold at_hand. destruct (buf s) as [b|] eqn:Eb.
  2:{ exists None, s. rewrite Eb. split_and!; done. }
  destruct (Hs b Eb) as [Hp Hl]. unfold remaining. unwrap.
  set (n := zlen (datas (tunnel_data b)) - pos b). destruct (Z.ltb_spec 0 n) as [Hn|Hn].
  - rewrite split_ok by lia. step. step.
    set (k := Z.min room n). eexists _, _. split; [done|].
    assert (0 < k <= n) as Hk by lia.
    assert (length (drop (Z.to_nat (pos b)) (datas (tunnel_data b))) = Z.to_nat n) as Hlen.
    { rewrite length_drop. unfold n, zlen. lia. }
    split_and!; [|done|done| | |].
    + intros b'. cbn. destruct (k =? n); [done|]. intros [= <-]. cbn. lia.
    + intros E%(f_equal length). rewrite length_take, Hlen in E. cbn in E. lia.
    + unfold zlen. rewrite length_take, Hlen. lia.
    + cbn [buf set_buf inq]. rewrite app_assoc. f_equal. destruct (Z.eqb_spec k n) as [->|Hne].
      * rewrite app_nil_r, take_ge; [done|lia].
      * cbn [tunnel_data pos]. rewrite Z2Nat.inj_add by lia. rewrite <- drop_drop. by rewrite take_drop.
  - eexists None, _. split; [done|]. split_and!; [by intros b'|done..|]. cbn.
    rewrite drop_ge; [done|]. unfold n, zlen in *. lia.
Qed.

Definition given (r : Poll (list Z)) : list Z := match r with Ready d => d | Pending => [] end.

Lemma read_loop_ok room q s :
  stream_ok s -> 0 < room -> inq s = q -> Forall fits q ->
  exists r s', read_loop room q s = (Ok r, s') /\ stream_ok s' /\ Forall fits (inq s') /\
    at_hand s = given r ++ at_hand s' /\ zlen (given r) <= room /\
    (given r = [] -> at_hand s' = [] /\ (r = Pending <-> in_closed s = false)).
Proof.
  intros Hs Hr. revert s Hs. induction q as [|d q IH]; intros s Hs Hq Hf; cbn [read_loop].
  - destruct (from_buf_ok room s Hs Hr) as (o & s1 & E & Hs1 & Hi & Hc & Ho). step by exact E.
    destruct o as [d|]; [destruct Ho as (Hd & Hl & Ha); exists (Ready d), s1; split_and!; [done|done|by rewrite Hi, Hq|done|done|done]|].
    destruct Ho as [Hb Ha]. step.
    assert (at_hand s1 = []) as H0 by (unfold at_hand; by rewrite Hb, Hi, Hq).
    destruct (in_closed s1) eqn:E1.
    + step. eexists (Ready []), _. split; [done|]. split_and!; [done|by cbn; rewrite Hi, Hq|done|unfold zlen; cbn; lia|].
      intros _. split; [exact H0|]. split; [done|congruence].
    + eexists Pending, s1. split_and!; [done|done|by rewrite Hi, Hq|done|unfold zlen; cbn; lia|]. intros _. split; [done|]. by rewrite <- Hc.
  - destruct (from_buf_ok room s Hs Hr) as (o & s1 & E & Hs1 & Hi & Hc & Ho). step by exact E.
    destruct o as [w|]; [destruct Ho as (Hd & Hl & Ha); exists (Ready w), s1; split_and!; [done|done|by rewrite Hi, Hq|done|done|done]|].
    destruct Ho as [Hb Ha]. step. inversion Hf as [|? ? Hd Hf']; subst.
    set (s2 := set_inq q (set_buf (Some (buf_new d)) s1)).
    destruct (IH s2) as (r & s' & E' & H1 & H2 & H3 & H4 & H5); [|done|done|].
    { intros b [= <-]. cbn. pose proof (zlen_nonneg (datas d)). unfold fits in Hd. lia. }
    exists r, s'. split_and!; [exact E'|done|done| |done|].
    + rewrite <- H3, Ha. unfold at_hand. rewrite Hb, Hi, Hq. cbn. done.
    + intros Hg. destruct (H5 Hg) as [? H6]. split; [done|]. rewrite H6. cbn. by rewrite Hc.
Qed.

(** ** What happens to a stream *)

(** A pack arrives, the other side closes, the application reads. *)
Inductive ReadEvent := Arrive (d : TunnelData) | Finish | Read (room : Z).

Definition read_event (ev : ReadEvent) : stm Stream (list Z) :=
  match ev with
  | Arrive d => _ ← modify (fun s => set_inq (inq s ++ [d]) s); mret []
  | Finish => _ ← modify (fun s => mkTStream (stream_tx s) (stream_rx s) (buf s) (sending s) (send_len s) (inq s) true (pieces s)); mret []
  | Read room => r ← poll_read room; mret (given r)
  end.

Fixpoint read_events (evs : list ReadEvent) : stm Stream (list Z) :=
  match evs with
  | [] => mret []
  | ev :: evs => d ← read_event ev; ds ← read_events evs; mret (d ++ ds)
  end.

Definition arrival (ev : ReadEvent) : list TunnelData := match ev with Arrive d => [d] | _ => [] end.
Definition arrivals (evs : list ReadEvent) : list TunnelData := evs ≫= arrival.

Definition event_ok (ev : ReadEvent) : Prop :=
  match ev with Arrive d => fits d | Finish => True | Read room => 0 < room end.

Lemma read_event_ok ev s :
  stream_ok s -> Forall fits (inq s) -> event_ok ev ->
  exists d s', read_event ev s = (Ok d, s') /\ stream_ok s' /\ Forall fits (inq s') /\
    at_hand s ++ concat (datas <$> arrival ev) = d ++ at_hand s'.
Proof.
  intros Hs Hf He. destruct ev as [d| |room]; cbn [read_event arrival event_ok] in *.
  - step. eexists _, _. split; [done|]. split_and!; [done|by apply Forall_app; split; [|constructor]|].
    unfold at_hand. cbn [inq set_inq buf app]. by rewrite fmap_app, concat_app, app_assoc.
  - step. eexists _, _. split; [done|]. split_and!; [done|done|]. cbn. by rewrite app_nil_r.
  - cbn [fmap list_fmap concat]. rewrite app_nil_r. unfold poll_read.
    assert (exists r s', (s ← gets id; if negb (stream_rx s) then mret (Ready []) else read_loop room (inq s)) s = (Ok r, s') /\
      stream_ok s' /\ Forall fits (inq s') /\ at_hand s = given r ++ at_hand s') as (r & s' & E & H1 & H2 & H3).
    { step. change (id s) with s. destruct (stream_rx s); cbn [negb]; [|by exists (Ready []), s].
      destruct (read_loop_ok room (inq s) s Hs He eq_refl Hf) as (r & s' & E & H1 & H2 & H3 & _). by exists r, s'. }
    step by exact E. by exists (given r), s'.
Qed.

Lemma read_events_ok evs s :
  stream_ok s -> Forall fits (inq s) -> Forall event_ok evs ->
  exists d s', read_events evs s = (Ok d, s') /\ stream_ok s' /\
    at_hand s ++ concat (datas <$> arrivals evs) = d ++ at_hand s'.
Proof.
  intros Hs Hf He. revert s Hs Hf. induction He as [|ev evs Hev He IH]; intros s Hs Hf.
  { exists [], s. split_and!; [done|done|]. by rewrite app_nil_r. }
  destruct (read_event_ok ev s Hs Hf Hev) as (d & s1 & E1 & Hs1 & Hf1 & H1).
  destruct (IH s1 Hs1 Hf1) as (ds & s2 & E2 & Hs2 & H2).
  exists (d ++ ds), s2. cbn [read_events]. step by exact E1. step by exact E2. split_and!; [done|done|].
  unfold arrivals in *. cbn [mbind list_bind]. rewrite fmap_app, concat_app, app_assoc, H1, <- !app_assoc.
  by rewrite H2.
Qed.

(** ** Writing *)

(** A write as [AsyncWrite] asks for it: the same bytes until they are taken. *)
Fixpoint write (bytes : list Z) (waits : nat) : stm Stream (Poll Z) :=
  match waits with
  | O => poll_write bytes Taken
  | S n => _ ← poll_write bytes Waits; write bytes n
  end.

Fixpoint writes (l : list (list Z * nat)) : stm Stream (list (Poll Z)) :=
  match l with
  | [] => mret []
  | (bytes, n) :: l => r ← write bytes n; rs ← writes l; mret (r :: rs)
  end.

Definition writing (bytes : list Z) (s : Stream) : Prop :=
  stream_tx s = true /\ (sending s = None \/ sending s = Some bytes /\ send_len s = zlen bytes).

Lemma write_ok bytes n s :
  writing bytes s ->
  exists s', write bytes n s = (Ok (Ready (zlen bytes)), s') /\ stream_tx s' = true /\ sending s' = None /\
    pieces s' = pieces s ++ [bytes].
Proof.
  revert s. induction n as [|n IH]; intros s [Ht Hw]; cbn [write].
  - unfold poll_write. step. change (id s) with s. rewrite Ht. cbn [negb]. step. step.
    assert (match sending s with Some _ => send_len s | None => zlen bytes end = zlen bytes /\
      default bytes (sending s) = bytes) as [-> ->] by (destruct Hw as [->|[-> ->]]; done).
    eexists. split; [done|]. by split_and!.
  - destruct (IH (set_sending (Some bytes) (set_send_len (zlen bytes) s))) as (s' & E & H1 & H2 & H3).
    { split; [done|]. by right. }
    exists s'. split; [|by split_and!]. rewrite <- E. erewrite stm_step; [done|].
    unfold poll_write. step. change (id s) with s. rewrite Ht. cbn [negb].
    assert (match sending s with Some _ => send_len s | None => zlen bytes end = zlen bytes /\
      default bytes (sending s) = bytes) as [-> ->] by (destruct Hw as [->|[-> ->]]; done).
    step. step. done.
Qed.

Lemma writes_ok l s :
  stream_tx s = true -> sending s = None ->
  exists s', writes l s = (Ok ((fun x => Ready (zlen x.1)) <$> l), s') /\ pieces s' = pieces s ++ l.*1.
Proof.
  revert s. induction l as [|[bytes n] l IH]; intros s Ht Hn; cbn [writes].
  { exists s. by rewrite app_nil_r. }
  destruct (write_ok bytes n s) as (s1 & E1 & H1 & H2 & H3); [by split; [|left]|].
  destruct (IH s1 H1 H2) as (s2 & E2 & H4). exists s2. step by exact E1. step by exact E2. split; [done|].
  by rewrite H4, H3, <- app_assoc.
Qed.

(** C12. The tunnel is a byte stream from application to application: of two ends
    joined by any network, one writes buffers of any size, the stream takes them
    from its channel piece by piece, and the other reads into buffers of any
    size while packs arrive.  The bytes read are a beginning of the bytes
    written, and each write answered the length of its buffer. *)
Theorem bytes_arrive_in_order id t1 t2 a b l evs :
  reachable id t1 t2 (a, b) -> in_bound a -> in_bound b ->
  written a `prefix_of` l.*1 -> Forall (fun d => zlen d < 2 ^ 63) l.*1 ->
  arrivals evs `prefix_of` delivered (rx b) -> Forall (fun ev => forall room, ev = Read room -> 0 < room) evs ->
  exists sa sb out,
    writes l stream_open = (Ok ((fun x => Ready (zlen x.1)) <$> l), sa) /\ pieces sa = l.*1 /\
    read_events evs stream_open = (Ok out, sb) /\ out `prefix_of` concat l.*1.
Proof.
  intros Hr Ha Hb Hw Hl Hev Hroom. destruct (reachable_net_inv _ _ _ _ Hr Ha Hb) as [[Hri _ _] _]. cbn in Hri.
  assert ((datas <$> arrivals evs) `prefix_of` l.*1) as Hpre.
  { etransitivity; [|exact Hw]. transitivity (datas <$> delivered (rx b)).
    { destruct Hev as [k ->]. rewrite fmap_app. by eexists. }
    rewrite (ri_prefix _ _ Hri). apply prefix_take. }
  destruct (writes_ok l stream_open eq_refl eq_refl) as (sa & Ea & Hp).
  assert (Forall event_ok evs) as He.
  { apply Forall_forall. intros ev Hin. destruct ev as [d| |room]; cbn; [|done|by eapply (proj1 (Forall_forall _ _) Hroom)].
    rewrite Forall_forall in Hl. apply Hl. destruct Hpre as [k Hk]. rewrite Hk. apply elem_of_app. left.
    apply list_elem_of_fmap. exists d. split; [done|]. unfold arrivals. apply list_elem_of_bind.
    exists (Arrive d). split; [by constructor|done]. }
  destruct (read_events_ok evs stream_open) as (out & sb & Eb & _ & Hout); [done|constructor|done|].
  exists sa, sb, out. split_and!; [exact Ea|exact Hp|exact Eb|].
  destruct Hpre as [k Hk]. exists (at_hand sb ++ concat k). cbn in Hout. by rewrite Hk, concat_app, Hout, <- app_assoc.
Qed.

(** One buffer of three bytes, written after a wait and read two bytes at a
    time. *)
Definition demo_a : Endpoint :=
  mkEnd (stream_to_stream_pack [1; 2; 3] 0 (stream_new 7 0)).2 recv_new 1 [[1; 2; 3]] false.
Definition demo_b : Endpoint :=
  let t := turn (Got (PData (mkData (mkDataHeader 7 1 3) [1; 2; 3]))) [] (stream_new 7 0) recv_new in
  mkEnd t.1 t.2 0 [] false.

Lemma bytes_arrive_in_order_witness : exists sa sb,
  writes [([1; 2; 3], 1%nat)] stream_open = (Ok [Ready 3], sa) /\
  read_events [Read 2; Arrive (mkData (mkDataHeader 7 1 3) [1; 2; 3]); Read 2; Read 2] stream_open = (Ok [1; 2; 3], sb) /\
  [1; 2; 3] `prefix_of` concat [[1; 2; 3]].
Proof.
  set (evs := [Read 2; Arrive (mkData (mkDataHeader 7 1 3) [1; 2; 3]); Read 2; Read 2]).
  assert (reachable 7 0 0 (demo_a, demo_b)) as Hr.
  { eapply reach_step; [eapply reach_step; [apply reach_init|]|].
    - apply net_left, (step_write _ (end_new 7 0) [1; 2; 3] 1); by vm_compute.
    - apply (net_right demo_a (end_new 7 0) demo_b).
      apply (step_receive _ (end_new 7 0) (Got (PData (mkData (mkDataHeader 7 1 3) [1; 2; 3]))) []); [done|].
      intros q [= <-]. unfold sent. vm_compute. constructor. }
  destruct (bytes_arrive_in_order 7 0 0 demo_a demo_b [([1; 2; 3], 1%nat)] evs) as (sa & sb & out & E1 & _ & E2 & P); try done.
  - by repeat constructor.
  - repeat constructor; intros room [= <-]; done.
  - exists sa, sb. assert (out = [1; 2; 3]) as -> by (vm_compute in E2; by injection E2 as <- _).
    by split_and!.
Defined.
