(* ===== verification/Channel.v ===== *)
(** Channels and the map of channels the tunnel routes packs with,
    [any-base/src/anychannel.rs].  The channels themselves are the crate
    [async_channel], an interface here. *)
From S2P Require Import Prelude.
#[local] Open Scope Z_scope.

(** ** The crate

    A world [W] holds channels for messages [M], which go by number.
    [chan_new] makes one, [chan_send] is the [send] of its sender once there
    is room, [false] when the channel is closed, and [chan_close] closes it
    from either side. *)
Class AsyncChannel (M W : Type) := {
  chan_new : W -> Z * W;
  chan_send : Z -> M -> W -> bool * W;
  chan_close : Z -> W -> W
}.

(** What its documentation says: [chans] gives, for every channel made so far,
    the messages it took and whether it is closed. *)
Class AsyncChannelLaws (M W : Type) `{AsyncChannel M W} := {
  chans : W -> gmap Z (list M * bool);
  law_new w : chans w !! (chan_new w).1 = None /\
    chans (chan_new w).2 = <[(chan_new w).1 := ([], false)]> (chans w);
  law_send c m w l : chans w !! c = Some (l, false) ->
    (chan_send c m w).1 = true /\ chans (chan_send c m w).2 = <[c := (l ++ [m], false)]> (chans w);
  law_full c m w l : chans w !! c = Some (l, true) ->
    (chan_send c m w).1 = false /\ chans (chan_send c m w).2 = chans w;
  law_close c w : chans (chan_close c w) = alter (fun x => (x.1, true)) c (chans w)
}.

(** ** The map *)

Inductive AnyAsyncSenderErr (M : Type) :=
  | SendNone (m : M)
  | SendClose (m : M)
  | SendErr
  | SendOk.
Arguments SendNone {M}.
Arguments SendClose {M}.
Arguments SendErr {M}.
Arguments SendOk {M}.

Section map.
Context {M W : Type} `{AsyncChannel M W}.

(** [AnyAsyncChannelMap]: a key whose channel has closed keeps its entry. *)
Record AnyAsyncChannelMap := mkChannelMap { tx_map : gmap Z (option Z); world : W }.

Definition map_new (w : W) : AnyAsyncChannelMap := mkChannelMap ∅ w.

(** [is_empty], as it is written. *)
Definition is_empty (m : AnyAsyncChannelMap) : bool :=
  existsb (fun x => match x.2 with Some _ => true | None => false end) (map_to_list (tx_map m)).

Definition channel (key : Z) : stm AnyAsyncChannelMap Z := fun m =>
  let (c, w) := chan_new (world m) in (Ok c, mkChannelMap (<[key := Some c]> (tx_map m)) w).

Definition remove (key : Z) : stm AnyAsyncChannelMap unit := fun m =>
  match tx_map m !! key with
  | Some (Some c) => (Ok tt, mkChannelMap (<[key := None]> (tx_map m)) (chan_close c (world m)))
  | _ => (Ok tt, m)
  end.

Definition remove_all : stm AnyAsyncChannelMap unit := fun m =>
  (Ok tt, mkChannelMap ((fun _ => None) <$> tx_map m)
     (foldr (fun x w => match x.2 with Some c => chan_close c w | None => w end) (world m)
        (map_to_list (tx_map m)))).

(** [send]: a closed channel is found out here, and its entry emptied. *)
Definition send (key : Z) (any_msg : M) : stm AnyAsyncChannelMap (AnyAsyncSenderErr M) := fun m =>
  match tx_map m !! key with
  | Some (Some c) =>
      match chan_send c any_msg (world m) with
      | (true, w) => (Ok SendOk, mkChannelMap (tx_map m) w)
      | (false, w) => (Ok SendErr, mkChannelMap (<[key := None]> (tx_map m)) (chan_close c w))
      end
  | Some None => (Ok (SendClose any_msg), m)
  | None => (Ok (SendNone any_msg), m)
  end.

(** ** What a key stands for

    [Absent]: never given a channel; [Open l gone]: its channel took the
    messages [l], and its receiver is [gone] or not; [Ended]: it was found
    closed. *)
Inductive Route := Absent | Open (l : list M) (gone : bool) | Ended.

Context `{!AsyncChannelLaws M W}.

Definition route_of (m : AnyAsyncChannelMap) (key : Z) (r : Route) : Prop :=
  match r with
  | Absent => tx_map m !! key = None
  | Open l gone => exists c, tx_map m !! key = Some (Some c) /\ chans (world m) !! c = Some (l, gone)
  | Ended => tx_map m !! key = Some None
  end.

(** No channel serves two keys. *)
Definition separate (m : AnyAsyncChannelMap) : Prop :=
  forall k k' c, tx_map m !! k = Some (Some c) -> tx_map m !! k' = Some (Some c) -> k = k'.

(** The map stands for [f]. *)
Definition routes (m : AnyAsyncChannelMap) (f : Z -> Route) : Prop :=
  separate m /\ forall k, route_of m k (f k).

Definition fset (f : Z -> Route) (k : Z) (r : Route) (x : Z) : Route := if decide (x = k) then r else f x.

Lemma routes_new w : routes (map_new w) (fun _ => Absent).
Proof. split; [intros k k' c Hc|intros k]; cbn in *; by rewrite lookup_empty in *. Qed.

(** A change of the world that leaves the channels of the other keys alone. *)
Lemma routes_world m f key c x w :
  routes m f -> tx_map m !! key = Some (Some c) -> chans w = <[c := x]> (chans (world m)) ->
  routes (mkChannelMap (tx_map m) w) (fset f key (Open x.1 x.2)).
Proof.
  intros [Hs Hf] Hc Hw. split; [exact Hs|]. intros k. unfold fset. case_decide as Hk; cbn.
  - subst k. exists c. split; [done|]. by rewrite Hw, lookup_insert_eq; destruct x.
  - specialize (Hf k). destruct (f k) as [|l gone|]; cbn in *; [done| |done].
    destruct Hf as (c' & Hc' & Hl). exists c'. split; [done|]. rewrite Hw, lookup_insert_ne; [done|].
    intros <-. by apply Hk, (Hs k key c).
Qed.

Lemma channel_routes key m f :
  routes m f -> exists c m', channel key m = (Ok c, m') /\ routes m' (fset f key (Open [] false)) /\
    tx_map m' = <[key := Some c]> (tx_map m).
Proof.
  intros [Hs Hf]. unfold channel. destruct (law_new (world m)) as [Hn Hw].
  destruct (chan_new (world m)) as [c w]. cbn in *. exists c, (mkChannelMap (<[key := Some c]> (tx_map m)) w).
  split; [done|]. split; [|done].
  assert (forall k, tx_map m !! k <> Some (Some c)) as Hfresh.
  { intros k Hk. specialize (Hf k). unfold route_of in Hf. rewrite Hk in Hf.
    destruct (f k); [done| |done]. destruct Hf as (c' & [= <-] & Hl). congruence. }
  split.
  - intros k k' c'. cbn. rewrite !lookup_insert_Some. intros [[<- [= <-]]|[Hk Hc]] [[<- E]|[Hk' Hc']];
      first [done|by destruct (Hfresh k')|injection E as <-; by destruct (Hfresh k)|by apply (Hs k k' c')].
  - intros k. unfold fset. case_decide as Hk; cbn.
    + subst k. exists c. by rewrite Hw, !lookup_insert_eq.
    + specialize (Hf k). destruct (f k) as [|l gone|]; cbn in *; [by rewrite lookup_insert_ne| |by rewrite lookup_insert_ne].
      destruct Hf as (c' & Hc' & Hl). exists c'. rewrite Hw, !lookup_insert_ne; [done|intros <-; by apply (Hfresh k)|done].
Qed.

(** What [send] does to the route of its key, and what it answers. *)
Definition sent_route (r : Route) (msg : M) : AnyAsyncSenderErr M * Route :=
  match r with
  | Absent => (SendNone msg, Absent)
  | Open l false => (SendOk, Open (l ++ [msg]) false)
  | Open l true => (SendErr, Ended)
  | Ended => (SendClose msg, Ended)
  end.

Lemma fset_eq f k r : fset f k r k = r.
Proof. unfold fset. by rewrite decide_True. Qed.

Lemma fset_id f k r x : f k = r -> fset f k r x = f x.
Proof. unfold fset. case_decide; congruence. Qed.

Lemma routes_ext m f g : routes m f -> (forall k, f k = g k) -> routes m g.
Proof. intros [Hs Hf] E. split; [done|]. intros k. by rewrite <- E. Qed.

Lemma routes_end m f key c w :
  routes m f -> tx_map m !! key = Some (Some c) ->
  (forall c', c' <> c -> chans w !! c' = chans (world m) !! c') ->
  routes (mkChannelMap (<[key := None]> (tx_map m)) w) (fset f key Ended).
Proof.
  intros [Hs Hf] Hc Hw. split.
  - intros k k' c'. cbn. rewrite !lookup_insert_Some. intros [[_ ?]|[_ H1]] [[_ ?]|[_ H2]]; try done. by apply (Hs k k' c').
  - intros k. unfold fset. case_decide as Hk; cbn; [subst; apply lookup_insert_eq|].
    specialize (Hf k). destruct (f k) as [|l gone|]; cbn in *; [by rewrite lookup_insert_ne| |by rewrite lookup_insert_ne].
    destruct Hf as (c' & Hc' & Hl). exists c'. rewrite lookup_insert_ne by done. split; [done|].
    rewrite Hw; [done|]. intros ->. by apply Hk, (Hs k key c).
Qed.

Lemma send_routes key msg m f :
  routes m f -> exists m', send key msg m = (Ok (sent_route (f key) msg).1, m') /\
    routes m' (fset f key (sent_route (f key) msg).2) /\
    (forall k, is_Some (tx_map m' !! k) <-> is_Some (tx_map m !! k)).
Proof.
  intros Hm. pose proof Hm as [Hs Hf]. specialize (Hf key). unfold send.
  destruct (f key) as [|l gone|] eqn:E; cbn in Hf.
  - rewrite Hf. exists m. split_and!; [done| |done]. apply (routes_ext _ f); [done|]. intros k. symmetry. by apply fset_id.
  - destruct Hf as (c & Hc & Hl). rewrite Hc. destruct gone; cbn [sent_route fst snd].
    + destruct (law_full c msg (world m) l Hl) as [E1 E2]. destruct (chan_send c msg (world m)) as [b w]. cbn in *. subst b.
      eexists. split; [done|]. split.
      * eapply routes_end; [done..|]. intros c' Hne. by rewrite law_close, lookup_alter_ne, E2.
      * intros k. cbn. destruct (decide (key = k)) as [<-|]; [by rewrite lookup_insert_eq, Hc|by rewrite lookup_insert_ne].
    + destruct (law_send c msg (world m) l Hl) as [E1 E2]. destruct (chan_send c msg (world m)) as [b w]. cbn in *. subst b.
      eexists. split; [done|]. split; [|done]. by apply (routes_world m f key c (l ++ [msg], false)).
  - rewrite Hf. exists m. split_and!; [done| |done]. apply (routes_ext _ f); [done|]. intros k. symmetry. by apply fset_id.
Qed.

(** The receiver of a key's channel goes away. *)
Definition receiver_gone (key : Z) (m : AnyAsyncChannelMap) : AnyAsyncChannelMap :=
  match tx_map m !! key with
  | Some (Some c) => mkChannelMap (tx_map m) (chan_close c (world m))
  | _ => m
  end.

Definition gone_route (r : Route) : Route := match r with Open l _ => Open l true | _ => r end.

Lemma gone_routes key m f : routes m f -> routes (receiver_gone key m) (fset f key (gone_route (f key))).
Proof.
  intros Hm. pose proof Hm as [Hs Hf]. specialize (Hf key). unfold receiver_gone.
  destruct (f key) as [|l gone|] eqn:E; cbn in Hf.
  - rewrite Hf. apply (routes_ext _ f); [done|]. intros k. symmetry. by apply fset_id.
  - destruct Hf as (c & Hc & Hl). rewrite Hc. apply (routes_world m f key c (l, true)); [done..|].
    rewrite law_close. apply map_eq. intros c'. destruct (decide (c' = c)) as [->|Hne].
    + by rewrite lookup_alter_eq, lookup_insert_eq, Hl.
    + by rewrite lookup_alter_ne, lookup_insert_ne.
  - rewrite Hf. apply (routes_ext _ f); [done|]. intros k. symmetry. by apply fset_id.
Qed.

End map.
Arguments AnyAsyncChannelMap : clear implicits.
Arguments Route : clear implicits.

(** ** A world of channels *)

Abbreviation chan_world M := (gmap Z (list M * bool)).

#[global] Instance world_channel {M} : AsyncChannel M (chan_world M) := {
  chan_new w := let c := fresh (dom w) in (c, <[c := ([], false)]> w);
  chan_send c m w :=
    match w !! c with
    | Some (l, false) => (true, <[c := (l ++ [m], false)]> w)
    | _ => (false, w)
    end;
  chan_close c w := alter (fun x => (x.1, true)) c w
}.

#[global] Instance world_channel_laws {M} : AsyncChannelLaws M (chan_world M).
Proof.
  refine {| chans := fun w : chan_world M => w |}.
  - intros w. split; [|done]. apply not_elem_of_dom, is_fresh.
  - intros c m w l Hc. cbn. by rewrite Hc.
  - intros c m w l Hc. cbn. by rewrite Hc.
  - done.
Defined.
