(* ===== verification/PeerClient.v ===== *)
(** A peer of the tunnel, [any-tunnel2/src/peer_client.rs]: every pack of its
    connections goes to the stream it names, and a pack of a new stream to the
    listener; and the registry of peers, [tunnel.rs], [client.rs], [server.rs]. *)
From S2P Require Import Prelude TunnelPack Channel.
#[local] Open Scope string_scope.
#[local] Open Scope Z_scope.

(** [any-tunnel2/src/lib.rs] *)
Record PeerStreamTunnelData := mkPeerData { td_stream_id : Z; typ : TunnelHeaderType; pack : TunnelPack }.

Section peer.
Context {W : Type} `{AsyncChannel TunnelPack W}.

(** [PeerClient].  [peer_stream_connect] and [accept_tx] tell whether these are
    there, [accept_open] whether the listener is; [to_peer] is what was put on
    [stream_pack_to_peer_stream_tx], whose receiver the peer keeps itself,
    [accepted] what was put on [accept_tx], [registered] the answers to
    [RegisterStream], all as the stream and the channel of its packs, and
    [peer_streams] counts the connections handed to [insert_peer_stream]. *)
Record PeerClient := mkPeer {
  peer_stream_connect : bool;
  accept_tx : bool;
  accept_open : bool;
  stream_pack_tx_map : AnyAsyncChannelMap W;
  peer_stream_len : Z;
  peer_stream_max_len : Z;
  is_max_peer_stream : bool;
  to_peer : list TunnelPack;
  accepted : list (Z * Z);
  registered : list (Z * Z);
  peer_streams : Z
}.

Definition eta_peer (s : PeerClient) : PeerClient :=
  mkPeer (peer_stream_connect s) (accept_tx s) (accept_open s) (stream_pack_tx_map s) (peer_stream_len s)
    (peer_stream_max_len s) (is_max_peer_stream s) (to_peer s) (accepted s) (registered s) (peer_streams s).
Definition set_tx_map : AnyAsyncChannelMap W -> PeerClient -> PeerClient := ltac:(setter eta_peer stream_pack_tx_map).
Definition set_len : Z -> PeerClient -> PeerClient := ltac:(setter eta_peer peer_stream_len).
Definition set_is_max : bool -> PeerClient -> PeerClient := ltac:(setter eta_peer is_max_peer_stream).
Definition set_to_peer : list TunnelPack -> PeerClient -> PeerClient := ltac:(setter eta_peer to_peer).
Definition set_accepted : list (Z * Z) -> PeerClient -> PeerClient := ltac:(setter eta_peer accepted).
Definition set_registered : list (Z * Z) -> PeerClient -> PeerClient := ltac:(setter eta_peer registered).
Definition set_streams : Z -> PeerClient -> PeerClient := ltac:(setter eta_peer peer_streams).

(** [PeerClient::new] with a connector or a listener. *)
Definition peer_new (connect accept : bool) (max : Z) (w : W) : PeerClient :=
  mkPeer connect accept true (map_new w) 0 max false [] [] [] 0.

(** A call on the map of channels. *)
Definition on_map {A} (m : stm (AnyAsyncChannelMap W) A) : stm PeerClient A := fun s =>
  let (o, t) := m (stream_pack_tx_map s) in (o, set_tx_map t s).

(** [stream_pack_to_peer_stream_tx.send(p).await?] *)
Definition to_peer_send (p : TunnelPack) : stm PeerClient unit :=
  modify (fun s => set_to_peer (to_peer s ++ [p])%list s).

(** [add_peer_stream], where [connected] is the outcome of [connect] and the
    hello: the connection runs in a task of its own. *)
Definition add_peer_stream (connected : bool) : stm PeerClient unit :=
  c ← gets peer_stream_connect;
  if negb c then lift Panic
  else if connected then modify (fun s => set_streams (peer_streams s + 1) s)
  else fail "err:peer_stream_connect.connect".

(** The task counts itself, at its start and at its end. *)
Definition stream_started : stm PeerClient unit :=
  modify (fun s => set_len (swrap 32 (peer_stream_len s + 1)) s).
Definition stream_ended : stm PeerClient unit :=
  modify (fun s => set_len (swrap 32 (peer_stream_len s - 1)) s).

(** [register_stream]: the channel of the new stream's packs; [insert_stream]
    starts a [StreamPack] on it. *)
Definition register_stream (id : Z) : stm PeerClient Z := on_map (channel id).

(** [accept_tx.send(stream)] *)
Definition accept_send (id c : Z) : stm PeerClient unit :=
  o ← gets accept_open;
  if o : bool then modify (fun s => set_accepted (accepted s ++ [(id, c)])%list s) else fail "err:accept_tx".

(** [cmd_register_stream]; the caller may have given up. *)
Definition cmd_register_stream (id : Z) (waiting : bool) : stm PeerClient unit :=
  c ← register_stream id;
  if waiting then modify (fun s => set_registered (registered s ++ [(id, c)])%list s)
  else fail "err:cmd_register_stream".

(** The last lines of [cmd_peer_stream_to_peer_client]. *)
Definition reply_close (d : PeerStreamTunnelData) : stm PeerClient unit :=
  match typ d with
  | HdrClose => done_
  | _ => to_peer_send (PClose (mkClose (td_stream_id d)))
  end.

(** A pack for a stream: the part of [cmd_peer_stream_to_peer_client] after the
    packs for the peer itself. *)
Definition to_stream (d : PeerStreamTunnelData) : stm PeerClient unit :=
  ret ← on_map (send (td_stream_id d) (pack d));
  match ret with
  | SendErr | SendOk => done_
  | SendClose _ => reply_close d
  | SendNone p =>
      a ← gets accept_tx;
      if a : bool then
        c ← register_stream (td_stream_id d);
        _ ← accept_send (td_stream_id d) c;
        _ ← on_map (send (td_stream_id d) p);
        done_
      else reply_close d
  end.

(** [cmd_peer_stream_to_peer_client]; [None] is the end of the channel, and
    [connected] the outcome of a connect should one be made. *)
Definition cmd_peer_stream_to_peer_client (connected : bool) (msg : option PeerStreamTunnelData)
    : stm PeerClient unit :=
  match msg with
  | None => done_
  | Some d =>
      match typ d with
      | HdrAddConnect =>
          c ← gets peer_stream_connect;
          if negb c then done_
          else
            s ← gets id;
            let max := swrap 32 (peer_stream_max_len s) in
            if max <=? peer_stream_len s then to_peer_send (PMaxConnect (mkMaxConnect (wrap64 max)))
            else _ ← attempt (add_peer_stream connected); done_
      | HdrMaxConnect => modify (set_is_max true)
      | _ => to_stream d
      end
  end.

(** A turn of [cmd_check_connect] on its local [w_num]; [full] tells whether
    the channel to the connections is. *)
Definition cmd_check_connect (full connected : bool) (w_num : Z) : stm PeerClient Z :=
  let '(w_num, is_w) :=
    if full then
      let w_num := w_num + 1 in if w_num <=? 2 then (w_num, false) else (0, true)
    else (0, false) in
  if negb is_w then mret w_num
  else
    s ← gets id;
    if negb (peer_stream_connect s) then
      if is_max_peer_stream s then mret w_num
      else _ ← to_peer_send (PAddConnect (mkAddConnect 0)); mret w_num
    else if peer_stream_len s <? swrap 32 (peer_stream_max_len s)
      then _ ← attempt (add_peer_stream connected); mret w_num
      else mret w_num.

(** What [channel_recv] waits for, the turns of [cmd_check_connect], and what
    happens outside: the receiver of a stream's packs goes away, and connections
    come and go. *)
Inductive PeerEvent :=
  | Msg (connected : bool) (d : PeerStreamTunnelData)
  | RegisterStream (id : Z) (waiting : bool)
  | StreamGone (id : Z)
  | CheckConnect (full connected : bool) (w_num : Z)
  | Started
  | Finished.

Definition peer_turn (ev : PeerEvent) : stm PeerClient unit :=
  match ev with
  | Msg connected d => cmd_peer_stream_to_peer_client connected (Some d)
  | RegisterStream id waiting => cmd_register_stream id waiting
  | StreamGone id => modify (fun s => set_tx_map (receiver_gone id (stream_pack_tx_map s)) s)
  | CheckConnect full connected w_num => _ ← cmd_check_connect full connected w_num; done_
  | Started => stream_started
  | Finished => stream_ended
  end.

Fixpoint peer_run (evs : list PeerEvent) : stm PeerClient unit :=
  match evs with
  | [] => done_
  | ev :: evs => _ ← peer_turn ev; peer_run evs
  end.

(** ** Where packs go

    What a peer with or without a listener makes of the events: the route of
    every stream, the streams it told the other side to close, and those it gave
    to the listener, in order. *)
Record Routing := mkRouting { route : Z -> Route TunnelPack; closes : list Z; accepts : list Z }.

Definition is_close_pack (d : PeerStreamTunnelData) : bool := match typ d with HdrClose => true | _ => false end.
Definition is_control (d : PeerStreamTunnelData) : bool :=
  match typ d with HdrAddConnect | HdrMaxConnect => true | _ => false end.

Definition route_event (accept : bool) (ev : PeerEvent) (x : Routing) : Routing :=
  match ev with
  | Msg _ d =>
      if is_control d then x
      else
        let id := td_stream_id d in
        let set r := fset (route x) id r in
        let refuse := mkRouting (route x) (closes x ++ (if is_close_pack d then [] else [id])) (accepts x) in
        match route x id with
        | Open l false => mkRouting (set (Open (l ++ [pack d]) false)) (closes x) (accepts x)
        | Open l true => mkRouting (set Ended) (closes x) (accepts x)
        | Ended => refuse
        | Absent =>
            if accept then mkRouting (set (Open [pack d] false)) (closes x) (accepts x ++ [id]) else refuse
        end
  | RegisterStream id _ => mkRouting (fset (route x) id (Open [] false)) (closes x) (accepts x)
  | StreamGone id => mkRouting (fset (route x) id (gone_route (route x id))) (closes x) (accepts x)
  | CheckConnect _ _ _ | Started | Finished => x
  end%list.

Definition route_events (accept : bool) (evs : list PeerEvent) (x : Routing) : Routing :=
  foldl (fun x ev => route_event accept ev x) x evs.

Definition close_of (p : TunnelPack) : option Z := match p with PClose v => Some (close_stream_id v) | _ => None end.

Context `{!AsyncChannelLaws TunnelPack W}.

Record routed (accept : bool) (x : Routing) (s : PeerClient) : Prop := {
  rt_accept : accept_tx s = accept;
  rt_open : accept_open s = true;
  rt_map : routes (stream_pack_tx_map s) (route x);
  rt_closes : omap close_of (to_peer s) = closes x;
  rt_accepts : (accepted s).*1 = accepts x
}.

(** Connections do not matter for the routes. *)
Lemma routed_add accept x s c :
  routed accept x s -> peer_stream_connect s = true ->
  exists o s', attempt (add_peer_stream c) s = (Ok o, s') /\ routed accept x s'.
Proof.
  intros [] Hc. unfold attempt, add_peer_stream. step. rewrite Hc. cbn [negb].
  destruct c; eexists _, _; (split; [done|by split]).
Qed.

Lemma routed_send accept x s p :
  routed accept x s -> close_of p = None ->
  exists s', to_peer_send p s = (Ok tt, s') /\ routed accept x s'.
Proof.
  intros [] Hp. eexists. split; [done|]. split; try done. cbn. rewrite omap_app. cbn. by rewrite Hp, app_nil_r.
Qed.

Lemma routed_reply accept x s d :
  routed accept x s ->
  exists s', reply_close d s = (Ok tt, s') /\
    routed accept (mkRouting (route x) (closes x ++ (if is_close_pack d then [] else [td_stream_id d])) (accepts x)) s'.
Proof.
  intros []. unfold reply_close, is_close_pack.
  destruct (typ d); eexists; (split; [done|]); split; cbn; rewrite ?app_nil_r, ?omap_app; try done; by f_equal.
Qed.

Lemma on_map_send accept x s id p :
  routed accept x s ->
  exists s', on_map (send id p) s = (Ok (sent_route (route x id) p).1, s') /\
    routed accept (mkRouting (fset (route x) id (sent_route (route x id) p).2) (closes x) (accepts x)) s'.
Proof.
  intros []. unfold on_map. destruct (send_routes id p _ _ rt_map0) as (t & E & Ht & _). rewrite E.
  eexists. split; [done|]. by split.
Qed.

Lemma routed_ext accept x y s :
  routed accept x s -> (forall k, route x k = route y k) -> closes x = closes y -> accepts x = accepts y ->
  routed accept y s.
Proof. intros [] E1 E2 E3. split; try congruence. by eapply routes_ext. Qed.

Lemma routed_register accept x s id :
  routed accept x s ->
  exists c s', register_stream id s = (Ok c, s') /\
    routed accept (mkRouting (fset (route x) id (Open [] false)) (closes x) (accepts x)) s'.
Proof.
  intros []. unfold register_stream, on_map. destruct (channel_routes id _ _ rt_map0) as (c & t & E & Ht & _). rewrite E.
  eexists _, _. split; [done|]. by split.
Qed.

Lemma to_stream_routed accept x s c d :
  routed accept x s -> is_control d = false ->
  exists s', to_stream d s = (Ok tt, s') /\ routed accept (route_event accept (Msg c d) x) s'.
Proof.
  intros R Hd. unfold to_stream, route_event. rewrite Hd.
  destruct (on_map_send accept x s (td_stream_id d) (pack d) R) as (s1 & E1 & R1). step by exact E1. clear E1.
  destruct (route x (td_stream_id d)) as [|l [|]|] eqn:Er; cbn [sent_route fst snd] in *; try (by exists s1).
  - apply (routed_ext _ _ x) in R1; [|intros k; by apply fset_id|done..].
    step by reflexivity. rewrite (rt_accept _ _ _ R1). destruct accept; [|by apply routed_reply].
    destruct (routed_register _ _ _ (td_stream_id d) R1) as (ch & s2 & E2 & R2). step by exact E2.
    unfold accept_send at 1. rewrite (stm_step _ _ s2 tt (set_accepted (accepted s2 ++ [(td_stream_id d, ch)]) s2)).
    2:{ step by reflexivity. by rewrite (rt_open _ _ _ R2). }
    set (s3 := set_accepted _ _).
    assert (routed true (mkRouting (fset (route x) (td_stream_id d) (Open [] false)) (closes x)
      (accepts x ++ [td_stream_id d])) s3) as R3.
    { destruct R2 as [H1 H2 H3 H4 H5]. split; try done. cbn. by rewrite fmap_app, H5. }
    destruct (on_map_send _ _ _ (td_stream_id d) (pack d) R3) as (s4 & E4 & R4). step by exact E4.
    exists s4. split; [done|]. eapply routed_ext; [exact R4|..]; try done. intros k.
    cbn [route]. rewrite fset_eq. unfold fset. by case_decide.
  - apply (routed_ext _ _ x) in R1; [|intros k; by apply fset_id|done..]. by apply routed_reply.
Qed.

Lemma msg_routed accept x s c d :
  routed accept x s ->
  exists s', cmd_peer_stream_to_peer_client c (Some d) s = (Ok tt, s') /\ routed accept (route_event accept (Msg c d) x) s'.
Proof.
  intros R. destruct (is_control d) eqn:Hd.
  - unfold cmd_peer_stream_to_peer_client, route_event. rewrite Hd. unfold is_control in Hd.
    destruct (typ d); try done.
    + step by reflexivity. destruct (peer_stream_connect s) eqn:Hc; cbn [negb]; [|by exists s].
      step by reflexivity. case_match; [by apply routed_send|].
      destruct (routed_add accept x s c R Hc) as (o & s' & E & R'). step by exact E. by exists s'.
    + eexists. split; [done|]. destruct R. by split.
  - destruct (to_stream_routed accept x s c d R Hd) as (s' & E & R'). exists s'. split; [|done].
    unfold cmd_peer_stream_to_peer_client. unfold is_control in Hd. by destruct (typ d).
Qed.

Lemma check_routed accept x s full connected n :
  routed accept x s -> exists m s', cmd_check_connect full connected n s = (Ok m, s') /\ routed accept x s'.
Proof.
  intros R. unfold cmd_check_connect. destruct (if full then _ else _) as [m [|]]; cbn [negb]; [|by eexists _, _].
  step by reflexivity. change (id s) with s. destruct (peer_stream_connect s) eqn:Hc; cbn [negb].
  - case_match; [|by eexists _, _]. destruct (routed_add accept x s connected R Hc) as (o & s' & E & R').
    step by exact E. by eexists _, _.
  - case_match; [by eexists _, _|]. destruct (routed_send accept x s (PAddConnect (mkAddConnect 0)) R) as (s' & E & R'); [done|].
    step by exact E. by eexists _, _.
Qed.

Lemma turn_routed accept x s ev :
  routed accept x s -> (forall id, ev <> RegisterStream id false) ->
  exists s', peer_turn ev s = (Ok tt, s') /\ routed accept (route_event accept ev x) s'.
Proof.
  intros R Hev. destruct ev as [c d|id [|]|id|full connected n| |]; cbn [peer_turn].
  - by apply msg_routed.
  - unfold cmd_register_stream. destruct (routed_register _ _ _ id R) as (ch & s' & E & R'). step by exact E.
    eexists. split; [done|]. destruct R'. by split.
  - by destruct (Hev id).
  - eexists. split; [done|]. destruct R. split; try done. by apply gone_routes.
  - destruct (check_routed accept x s full connected n R) as (m & s' & E & R'). step by exact E. by exists s'.
  - eexists. split; [done|]. destruct R. by split.
  - eexists. split; [done|]. destruct R. by split.
Qed.

Lemma run_routed accept evs x s :
  routed accept x s -> Forall (fun ev => forall id, ev <> RegisterStream id false) evs ->
  exists s', peer_run evs s = (Ok tt, s') /\ routed accept (route_events accept evs x) s'.
Proof.
  intros R F. revert x s R. induction F as [|ev evs Hev F IH]; intros x s R; [by exists s|].
  destruct (turn_routed accept x s ev R Hev) as (s1 & E1 & R1). cbn [peer_run]. step by exact E1.
  apply (IH _ _ R1).
Qed.

Lemma new_routed connect accept max w :
  routed accept (mkRouting (fun _ => Absent) [] []) (peer_new connect accept max w).
Proof. by split. Qed.

(** C13. A peer routes by the stream alone: whatever packs arrive and however
    registrations, ends of streams, connections and requests for connections
    fall between them, every stream that runs has got exactly the packs that
    named it since it began, in the order of their arrival; a pack of a stream
    nobody knows goes to the listener with a new stream, which gets it first;
    and a pack of a stream that ended is answered with a close, unless it is
    one. *)
Theorem packs_reach_their_stream connect accept max w evs :
  Forall (fun ev => forall id, ev <> RegisterStream id false) evs ->
  exists s, peer_run evs (peer_new connect accept max w) = (Ok tt, s) /\
    let x := route_events accept evs (mkRouting (fun _ => Absent) [] []) in
    (forall id, route_of (stream_pack_tx_map s) id (route x id)) /\
    separate (stream_pack_tx_map s) /\
    omap close_of (to_peer s) = closes x /\ (accepted s).*1 = accepts x.
Proof.
  intros F. destruct (run_routed accept evs _ _ (new_routed connect accept max w) F) as (s & E & [_ _ [Hs Hr] Hc Ha]).
  exists s. split; [exact E|]. by split_and!.
Qed.

(** ** A stream is accepted once *)

Lemma route_event_accepts accept ev x :
  NoDup (accepts x) -> (forall id, id ∈ accepts x -> route x id <> Absent) ->
  NoDup (accepts (route_event accept ev x)) /\
  forall id, id ∈ accepts (route_event accept ev x) -> route (route_event accept ev x) id <> Absent.
Proof.
  intros Hn Hk. assert (forall id r, r <> Absent -> forall i, i ∈ accepts x -> fset (route x) id r i <> Absent) as Hset.
  { intros id r Hr i Hi. unfold fset. case_decide; [done|by apply Hk]. }
  destruct ev as [c d|id wt|id| | |]; cbn [route_event]; try by split.
  - destruct (is_control d); [by split|]. destruct (route x (td_stream_id d)) as [|l [|]|] eqn:E; cbn; try (split; [done|by auto]).
    destruct accept; cbn; [|by split]. split.
    + apply NoDup_app. split_and!; [done| |apply NoDup_singleton].
      intros i Hi ->%list_elem_of_singleton. by apply (Hk _ Hi).
    + intros i [Hi| ->%list_elem_of_singleton]%elem_of_app; [by apply Hset|]. by rewrite fset_eq.
  - split; [done|]. by apply Hset.
  - cbn. split; [done|]. intros i Hi. unfold fset. case_decide; [|by apply Hk].
    subst. destruct (route x id) eqn:E; [|done|done]. by destruct (Hk _ Hi).
Qed.

Lemma route_events_accepts accept evs x :
  NoDup (accepts x) -> (forall id, id ∈ accepts x -> route x id <> Absent) ->
  NoDup (accepts (route_events accept evs x)).
Proof.
  revert x. induction evs as [|ev evs IH]; intros x Hn Hk; [done|].
  destruct (route_event_accepts accept ev x Hn Hk). by apply IH.
Qed.

(** A run that goes on answered every registration. *)
Lemma run_waited evs s s' :
  peer_run evs s = (Ok tt, s') -> Forall (fun ev => forall id, ev <> RegisterStream id false) evs.
Proof.
  revert s. induction evs as [|ev evs IH]; intros s; [done|]. cbn [peer_run]. intros ([] & s1 & E1 & E)%stm_bind_ok.
  constructor; [|by eapply IH]. intros id ->. revert E1. cbn [peer_turn]. unfold cmd_register_stream.
  intros (c & s2 & _ & E1)%stm_bind_ok. done.
Qed.

(** The listener is given a stream at most once, however late, often or out
    of order packs of the stream still arrive, and also after it ended. *)
Theorem stream_accepted_once connect accept max w evs s :
  peer_run evs (peer_new connect accept max w) = (Ok tt, s) -> NoDup (accepted s).*1.
Proof.
  intros E. destruct (run_routed accept evs _ _ (new_routed connect accept max w) (run_waited _ _ _ E)) as (s' & E' & R).
  rewrite E in E'. injection E' as <-. rewrite (rt_accepts _ _ _ R). apply route_events_accepts; [apply NoDup_nil_2|].
  intros id Hid. by apply elem_of_nil in Hid.
Qed.

End peer.

(** ** Concrete runs *)

Definition demo_data (id n : Z) : PeerStreamTunnelData :=
  mkPeerData id HdrData (PData (mkData (mkDataHeader id n 1) [n])).

Definition demo_events : list PeerEvent :=
  [Msg true (demo_data 5 1); Msg true (demo_data 6 1); Msg true (demo_data 5 2); StreamGone 5;
   Msg true (demo_data 5 3); Msg true (demo_data 5 4); Msg true (mkPeerData 5 HdrClose (PClose (mkClose 5)))].

Lemma packs_reach_their_stream_witness : exists s,
  peer_run demo_events (peer_new false true 4 (∅ : chan_world TunnelPack)) = (Ok tt, s) /\
  (accepted s).*1 = [5; 6] /\ omap close_of (to_peer s) = [5] /\
  route_of (stream_pack_tx_map s) 5 Ended /\ route_of (stream_pack_tx_map s) 6 (Open [pack (demo_data 6 1)] false).
Proof.
  destruct (packs_reach_their_stream false true 4 (∅ : chan_world TunnelPack) demo_events) as (s & E & R & _ & C & A).
  - repeat constructor; congruence.
  - exists s. split; [exact E|]. split; [exact A|]. split; [exact C|]. split; [exact (R 5)|exact (R 6)].
Defined.

Lemma stream_accepted_once_witness : exists s,
  peer_run demo_events (peer_new false true 4 (∅ : chan_world TunnelPack)) = (Ok tt, s) /\ NoDup (accepted s).*1.
Proof.
  destruct (peer_run demo_events (peer_new false true 4 (∅ : chan_world TunnelPack))) as [o s] eqn:E.
  assert (o = Ok tt) as -> by (vm_compute in E; by injection E as <- _).
  exists s. split; [done|]. by eapply (stream_accepted_once false true 4 ∅ demo_events s).
Defined.
