(* ===== verification/Tunnel.v ===== *)
(** The registry of the tunnel's peers: which peer a stream or a connection
    belongs to, [any-tunnel2/src/tunnel.rs], [client.rs] and [server.rs]. *)
From S2P Require Import Prelude RustStd TunnelPack.
#[local] Open Scope string_scope.
#[local] Open Scope Z_scope.

(** [Protocol4] of [lib.rs]. *)
Inductive Protocol4 := TCP | UDP.
Definition protocol_string (p : Protocol4) : string := match p with TCP => "tcp" | UDP => "udp" end.

(** [Tunnel]: the peers by number, under the key of their client or listener
    and their own.  [started] is what was sent to the task that runs the peers,
    [running] tells whether it is there; [peers] counts those made. *)
Record Tunnel := mkTunnel {
  peer_client_sender_map : gmap string (gmap string Z);
  started : list Z;
  running : bool;
  peers : Z
}.

Definition tunnel_new : Tunnel := mkTunnel ∅ [] true 0.

Definition get_peer_client (tunnel_key register_id : string) (t : Tunnel) : option Z :=
  m ← peer_client_sender_map t !! tunnel_key; m !! register_id.

(** [insert_peer_client]: the peer that is there, or a new one. *)
Definition insert_peer_client (tunnel_key register_id : string) : stm Tunnel Z := fun t =>
  let m := default ∅ (peer_client_sender_map t !! tunnel_key) in
  match m !! register_id with
  | Some p => (Ok p, mkTunnel (<[tunnel_key := m]> (peer_client_sender_map t)) (started t) (running t) (peers t))
  | None =>
      let p := peers t in
      let map := <[tunnel_key := <[register_id := p]> m]> (peer_client_sender_map t) in
      if running t then (Ok p, mkTunnel map (started t ++ [p])%list (running t) (p + 1))
      else (Err "err:insert_peer_client", mkTunnel map (started t) (running t) (p + 1))
  end.

(** ** A client

    [next_stream_id] is [STREAM_ID]; [dialled] are the addresses connecting was
    begun to, [connections] the connections given to a peer, each with the
    session its hello names, and [streams] the streams registered with a peer. *)
Record Client := mkClient {
  tunnel : Tunnel;
  client_id : Z;
  next_stream_id : Z;
  dialled : list string;
  connections : list (Z * string);
  streams : list (Z * Z)
}.

Definition client_new (id : Z) : Client := mkClient tunnel_new id 1 [] [] [].

Definition eta_client (s : Client) : Client :=
  mkClient (tunnel s) (client_id s) (next_stream_id s) (dialled s) (connections s) (streams s).
Definition set_tunnel : Tunnel -> Client -> Client := ltac:(setter eta_client tunnel).
Definition set_next : Z -> Client -> Client := ltac:(setter eta_client next_stream_id).
Definition set_dialled : list string -> Client -> Client := ltac:(setter eta_client dialled).
Definition set_connections : list (Z * string) -> Client -> Client := ltac:(setter eta_client connections).
Definition set_streams : list (Z * Z) -> Client -> Client := ltac:(setter eta_client streams).

Definition register_id (proto : Protocol4) (sock_addr : string) : string := protocol_string proto +:+ sock_addr.

(** [Client::get_peer_client]: the peers of a client stand under its number. *)
Definition peer_of (rid : string) (s : Client) : option Z :=
  get_peer_client (show_u (client_id s)) rid (tunnel s).

(** Where a call of [Client::connect] is: it gives way to other calls wherever
    it awaits something, that is before it asks for the address ([Start]),
    before it looks the peer up ([Look]), while it connects ([Dial]), before it
    has the lock to insert the peer ([Insert]), while it writes the hello and
    hands the connection over ([Hello]) and while it registers its stream
    ([Register]). *)
Inductive Pc :=
  | Start
  | Look (rid : string)
  | Dial (rid : string)
  | Insert (rid session : string)
  | Hello (p : Z) (session : string)
  | Register (p stream_id : Z)
  | Connected (p stream_id : Z)
  | Failed (e : string).

(** [STREAM_ID.fetch_add], which follows on the peer without an await. *)
Definition take_number (p : Z) (s : Client) : Pc * Client :=
  (Register p (next_stream_id s), set_next (wrap32 (next_stream_id s + 1)) s).

(** [Client::connect] to the address [addr], whose text is given, from one await
    to the next.  [ok] tells whether what was awaited works, [session] is the
    text [format!] makes of the connection's addresses and the time. *)
Definition connect (addr : option (Protocol4 * string)) (ok : bool) (session : string) (pc : Pc) (s : Client) : Pc * Client :=
  match pc with
  | Start =>
      match addr with
      | Some (proto, connect_addr) => (Look (register_id proto connect_addr), s)
      | None => (Failed "err:peer_stream_connect.connect_addr", s)
      end
  | Look rid =>
      match peer_of rid s with
      | Some p => take_number p s
      | None => (Dial rid, set_dialled (dialled s ++ [rid])%list s)
      end
  | Dial rid => (if ok then Insert rid session else Failed "err:peer_stream_connect.connect", s)
  | Insert rid session =>
      let (o, t) := insert_peer_client (show_u (client_id s)) rid (tunnel s) in
      (match o with Ok p => Hello p session | _ => Failed "err:insert_peer_client" end, set_tunnel t s)
  | Hello p session =>
      if ok then take_number p (set_connections (connections s ++ [(p, session)])%list s)
      else (Failed "err:client_insert_peer_stream", s)
  | Register p stream_id =>
      if ok then (Connected p stream_id, set_streams (streams s ++ [(p, stream_id)])%list s)
      else (Failed "err:async_register_stream", s)
  | Connected _ _ | Failed _ => (pc, s)
  end.

(** A call, and a client with the calls made of it so far. *)
Record Call := mkCall { c_addr : option (Protocol4 * string); c_pc : Pc }.
Record World := mkWorld { client : Client; calls : list Call }.

Definition world_new (id : Z) : World := mkWorld (client_new id) [].

(** What happens: somebody connects, or a call goes on to its next await. *)
Inductive Act :=
  | Connect (addr : option (Protocol4 * string))
  | Turn (i : nat) (ok : bool) (session : string).

Definition act (w : World) (a : Act) : World :=
  match a with
  | Connect addr => mkWorld (client w) (calls w ++ [mkCall addr Start])%list
  | Turn i ok session =>
      match calls w !! i with
      | Some c =>
          let (pc, s) := connect (c_addr c) ok session (c_pc c) (client w) in
          mkWorld s (<[i := mkCall (c_addr c) pc]> (calls w))
      | None => w
      end
  end.

Definition run (acts : list Act) (w : World) : World := foldl act w acts.

(** ** A server

    [accepts] are the [Accept]s by number, under their listener's key. *)
Record Server := mkServer { s_tunnel : Tunnel; accepts : gmap string Z; accepts_made : Z; s_connections : list (Z * Z) }.

Definition server_new : Server := mkServer tunnel_new ∅ 0 [].

(** [get_accept]: the one that is there, or a new one. *)
Definition get_accept (tunnel_key : string) : stm Server Z := fun s =>
  match accepts s !! tunnel_key with
  | Some a => (Ok a, s)
  | None => let a := accepts_made s in
            (Ok a, mkServer (s_tunnel s) (<[tunnel_key := a]> (accepts s)) (a + 1) (s_connections s))
  end.

Definition on_server_tunnel {A} (m : stm Tunnel A) : stm Server A := fun s =>
  let (o, t) := m (s_tunnel s) in (o, mkServer t (accepts s) (accepts_made s) (s_connections s)).

Definition server_insert_peer_client (tunnel_key register_id : string) : stm Server (Z * Z) :=
  a ← get_accept tunnel_key;
  p ← on_server_tunnel (insert_peer_client tunnel_key register_id);
  mret (p, a).

(** [insert_peer_stream]: a connection with the hello it begins with; the
    session names its peer. *)
Definition insert_peer_stream (tunnel_key : string) (hello : outcome TunnelHello) : stm Server unit :=
  h ← lift hello;
  '(p, a) ← server_insert_peer_client tunnel_key (session_id h);
  modify (fun s => mkServer (s_tunnel s) (accepts s) (accepts_made s) (s_connections s ++ [(p, a)])%list).

(** [listen]: the listener's and the publisher's end. *)
Definition listen (proto : Protocol4) (listen_addr : string) : stm Server (Z * string) :=
  let tunnel_key := register_id proto listen_addr in
  a ← get_accept tunnel_key; mret (a, tunnel_key).

(** ** One peer for each address *)

Record registry_ok (t : Tunnel) : Prop := {
  rg_made : forall k r p, get_peer_client k r t = Some p -> p < peers t;
  rg_one : forall k r k' r' p, get_peer_client k r t = Some p -> get_peer_client k' r' t = Some p -> k = k' /\ r = r'
}.

Lemma get_insert k r k' r' m f p :
  f !! k = m ->
  forall st ru n, get_peer_client k' r' (mkTunnel (<[k := <[r := p]> (default ∅ m)]> f) st ru n) =
    if decide (k' = k /\ r' = r) then Some p else f !! k' ≫= fun x => x !! r'.
Proof.
  intros Hf st ru n. unfold get_peer_client. cbn.
  destruct (decide (k' = k)) as [->|Hk].
  - rewrite lookup_insert_eq. cbn. destruct (decide (r' = r)) as [->|Hr].
    + by rewrite lookup_insert_eq, decide_True.
    + rewrite lookup_insert_ne by congruence. rewrite decide_False by (intros [_ ?]; congruence). rewrite Hf. destruct m; cbn; [done|]. apply lookup_empty.
  - rewrite lookup_insert_ne by congruence. by rewrite decide_False by (intros [? _]; congruence).
Qed.

(** Whatever it answers, afterwards the peer is there, and every other one as it
    was. *)
Lemma insert_peer_ok k r t :
  registry_ok t ->
  exists p t', (insert_peer_client k r t).2 = t' /\ registry_ok t' /\ running t' = running t /\
    get_peer_client k r t' = Some p /\
    (forall k' r' q, get_peer_client k' r' t = Some q -> get_peer_client k' r' t' = Some q) /\
    (insert_peer_client k r t).1 =
      match get_peer_client k r t with
      | Some _ => Ok p
      | None => if running t then Ok p else Err "err:insert_peer_client"
      end.
Proof.
  intros [Hm Ho]. unfold insert_peer_client. set (m := default ∅ _).
  assert (get_peer_client k r t = m !! r) as Eg.
  { unfold get_peer_client, m. destruct (_ !! k); cbn; [done|by rewrite lookup_empty]. }
  rewrite Eg. destruct (m !! r) as [p|] eqn:Em.
  - exists p. eexists. split; [done|].
    assert (forall k' r', get_peer_client k' r'
      (mkTunnel (<[k := m]> (peer_client_sender_map t)) (started t) (running t) (peers t)) = get_peer_client k' r' t) as Es.
    { intros k' r'. unfold get_peer_client. cbn. destruct (decide (k' = k)) as [->|].
      - rewrite lookup_insert_eq. clear Eg. revert Em. unfold m. destruct (_ !! k); cbn; [done|by rewrite lookup_empty].
      - by rewrite lookup_insert_ne. }
    split_and!; [|done|by rewrite Es, Eg|by setoid_rewrite Es|by destruct (running t)].
    split; [by setoid_rewrite Es|by setoid_rewrite Es].
  - set (t' := mkTunnel (<[k := <[r := peers t]> m]> (peer_client_sender_map t))
      (if running t then started t ++ [peers t] else started t)%list (running t) (peers t + 1)).
    assert (forall k' r', get_peer_client k' r' t' =
      if decide (k' = k /\ r' = r) then Some (peers t) else get_peer_client k' r' t) as Es.
    { intros k' r'. by apply get_insert. }
    exists (peers t), t'. split_and!.
    + unfold t'. by destruct (running t).
    + split.
      * intros k' r' q. rewrite Es. cbn. case_decide; [intros [= <-]; lia|]. intros Hq%Hm. lia.
      * intros k1 r1 k2 r2 q. rewrite !Es. do 2 case_decide; [destruct_and!; subst; done| | |by apply Ho].
        -- intros [= <-] Hq%Hm. lia.
        -- intros Hq%Hm [= <-]. lia.
    + done.
    + rewrite Es. by rewrite decide_True.
    + intros k' r' q Hq. rewrite Es, decide_False; [done|]. intros [-> ->]. congruence.
    + by destruct (running t).
Qed.

(** ** What a client keeps *)

Lemma register_id_inj p p' a a' : register_id p a = register_id p' a' -> p = p' /\ a = a'.
Proof. unfold register_id. destruct p, p'; cbn; intros [=]; by subst. Qed.

(** The number a call has taken, and whether it may still take one. *)
Definition number_of (c : Call) : option Z :=
  match c_pc c with Register _ n | Connected _ n => Some n | _ => None end.
Definition unnumbered (c : Call) : Z :=
  match c_pc c with Start | Look _ | Dial _ | Insert _ _ | Hello _ _ => 1 | _ => 0 end.

(** What a call holds belongs to its address. *)
Definition call_ok (s : Client) (c : Call) : Prop :=
  match c_pc c with
  | Start | Failed _ => True
  | Look rid | Dial rid | Insert rid _ => exists proto a, c_addr c = Some (proto, a) /\ rid = register_id proto a
  | Hello p _ | Register p _ | Connected p _ =>
      exists proto a, c_addr c = Some (proto, a) /\ peer_of (register_id proto a) s = Some p
  end.

Record world_ok (w : World) : Prop := {
  wo_registry : registry_ok (tunnel (client w));
  wo_calls : forall i c, calls w !! i = Some c -> call_ok (client w) c;
  wo_first : 0 < next_stream_id (client w);
  wo_next : next_stream_id (client w) + zsum (unnumbered <$> calls w) <= 1 + zlen (calls w);
  wo_used : forall i c n, calls w !! i = Some c -> number_of c = Some n -> n < next_stream_id (client w);
  wo_numbers : forall i j c d n, calls w !! i = Some c -> calls w !! j = Some d ->
    number_of c = Some n -> number_of d = Some n -> i = j
}.

(** How often connecting to an address was begun. *)
Definition dials (r : string) (s : Client) : nat := length (filter (.= r) (dialled s)).

(** A client that kept its registry and the peers in it, and did not connect to
    what has a peer. *)
Definition grown (s s' : Client) : Prop :=
  registry_ok (tunnel s') /\
  forall r p, peer_of r s = Some p -> peer_of r s' = Some p /\ dials r s' = dials r s.

Lemma peers_grown_same s s' : registry_ok (tunnel s) -> tunnel s' = tunnel s -> client_id s' = client_id s ->
  dialled s' = dialled s -> grown s s'.
Proof. intros R Et Ei Ed. split; [by rewrite Et|]. intros r p. unfold peer_of, dials. by rewrite Et, Ei, Ed. Qed.

Lemma peers_grown_refl s : registry_ok (tunnel s) -> grown s s.
Proof. by intros; apply peers_grown_same. Qed.

(** What a turn makes of the numbers: nothing, or the call takes the next. *)
Definition numbers_kept (s s' : Client) (c c' : Call) : Prop :=
  (next_stream_id s' = next_stream_id s /\ unnumbered c' <= unnumbered c /\
    (number_of c' = number_of c \/ number_of c' = None)) \/
  (unnumbered c = 1 /\ unnumbered c' = 0 /\ next_stream_id s' = wrap32 (next_stream_id s + 1) /\
    number_of c' = Some (next_stream_id s)).

Lemma connect_ok s addr ok session pc pc' s' :
  registry_ok (tunnel s) -> call_ok s (mkCall addr pc) -> connect addr ok session pc s = (pc', s') ->
  grown s s' /\ call_ok s' (mkCall addr pc') /\ numbers_kept s s' (mkCall addr pc) (mkCall addr pc').
Proof.
  intros R C E. destruct pc as [|rid|rid|rid ss|p ss|p n|p n|e]; cbn in E.
  - destruct addr as [[proto a]|]; injection E as <- <-;
      (split_and!; [by apply peers_grown_same|cbn; eauto|left; cbn; auto with lia]).
  - destruct (peer_of rid s) as [p|] eqn:Ep; injection E as <- <-.
    + split_and!; [by apply peers_grown_same| |right; by cbn]. destruct C as (proto & a & Ha & ->). by exists proto, a.
    + split_and!; [|done|left; cbn; auto with lia]. split; [done|]. intros r p Hp. split; [done|].
      unfold dials. cbn. rewrite filter_app, filter_cons_False by congruence. by rewrite app_nil_r.
  - injection E as <- <-. split_and!; [by apply peers_grown_same|by destruct ok|left; destruct ok; cbn; auto with lia].
  - destruct (insert_peer_ok (show_u (client_id s)) rid (tunnel s) R) as (p & t & Et & R' & _ & Ep & M & Eo).
    destruct (insert_peer_client _ _ _) as [o t0]. cbn in Et, Eo. subst t0. injection E as <- <-.
    split_and!; [by split; [|intros; split; [apply M|]]| |].
    + destruct C as (proto & a & Ha & ->). revert Eo. case_match; [|destruct (running _)]; intros ->; try done; by exists proto, a.
    + left. revert Eo. case_match; [|destruct (running _)]; intros ->; cbn; auto with lia.
  - destruct ok; injection E as <- <-; (split_and!; [by apply peers_grown_same|done|]); [right; by cbn|left; cbn; auto with lia].
  - destruct ok; injection E as <- <-; (split_and!; [by apply peers_grown_same|done|left; cbn; auto with lia]).
  - injection E as <- <-. split_and!; [by apply peers_grown_refl|done|left; auto with lia].
  - injection E as <- <-. split_and!; [by apply peers_grown_refl|done|left; auto with lia].
Qed.

Lemma call_ok_grown s s' c : grown s s' -> call_ok s c -> call_ok s' c.
Proof.
  intros [_ G]. unfold call_ok. destruct (c_pc c); try done;
    intros (proto & a & Ha & Hp); exists proto, a; split; try done; by apply G.
Qed.

Lemma unnumbered_nonneg l : 0 <= zsum (unnumbered <$> l) <= zlen l.
Proof.
  unfold zlen. induction l as [|c l IH]; cbn [fmap list_fmap zsum foldr length]; [done|].
  fold (zsum (unnumbered <$> l)). assert (0 <= unnumbered c <= 1) by (unfold unnumbered; case_match; lia). lia.
Qed.

Lemma unnumbered_insert i c c' l : l !! i = Some c ->
  zsum (unnumbered <$> <[i := c']> l) = zsum (unnumbered <$> l) - unnumbered c + unnumbered c'.
Proof.
  intros Hc. rewrite <- (take_drop_middle l i c Hc) at 2. rewrite insert_take_drop by (by eapply lookup_lt_Some).
  rewrite !fmap_app, !zsum_app. cbn. fold (zsum (unnumbered <$> drop (S i) l)). lia.
Qed.

(** A turn of a call, or a new one. *)
Lemma call_added w addr : world_ok w -> 2 + zlen (calls w) < 2 ^ 32 -> world_ok (act w (Connect addr)).
Proof.
  intros [R C F N U I] Hlen.
  assert (forall i c, (calls w ++ [mkCall addr Start])%list !! i = Some c ->
    calls w !! i = Some c \/ c = mkCall addr Start) as Hin.
  { intros i c [?|[_ [_ <-]%list_lookup_singleton_Some]]%lookup_app_Some; auto. }
  split; cbn; [done| |done| | |].
  - intros i c [Hc| ->]%Hin; [by eapply C|done].
  - rewrite fmap_app, zsum_app, zlen_app. cbn. change (zlen [_]) with 1. lia.
  - intros i c n [Hc| ->]%Hin; [by eapply U|done].
  - intros i j c d n Hi Hj Nc Nd. destruct (Hin _ _ Hi) as [Hi'| ->], (Hin _ _ Hj) as [Hj'| ->]; [by eapply I|done..].
Qed.

Lemma call_turned w i ok session :
  world_ok w -> 2 + zlen (calls w) < 2 ^ 32 ->
  world_ok (act w (Turn i ok session)) /\ grown (client w) (client (act w (Turn i ok session))).
Proof.
  intros [R C F N U I] Hlen. pose proof (unnumbered_nonneg (calls w)) as Hu. cbn.
  destruct (calls w !! i) as [c|] eqn:Ec; [|by split; [split|apply peers_grown_refl]].
  destruct (connect _ _ _ _ _) as [pc s] eqn:E. destruct c as [addr pc0]. cbn in E |- *.
  destruct (connect_ok _ _ _ _ _ _ _ R (C _ _ Ec) E) as (G & C' & K). set (c := mkCall addr pc0) in *. set (c' := mkCall addr pc) in *.
  assert (0 < next_stream_id (client w) <= 1 + zlen (calls w)) as Hn by lia.
  assert (next_stream_id (client w) <= next_stream_id s) as Hmono.
  { destruct K as [(-> & _)|(_ & _ & -> & _)]; [done|]. unwrap. lia. }
  assert (forall j d, <[i := c']> (calls w) !! j = Some d -> j = i /\ d = c' \/ j <> i /\ calls w !! j = Some d) as Hin.
  { intros j d [(-> & <- & _)|[? ?]]%list_lookup_insert_Some; auto. }
  split; [|exact G]. split; cbn; [apply G| |lia| | |].
  - intros j d [[-> ->]|[_ Hd]]%Hin; [done|]. by eapply call_ok_grown, C.
  - unfold zlen. rewrite length_insert, (unnumbered_insert _ _ _ _ Ec). fold (zlen (calls w)).
    destruct K as [(-> & ? & _)|(-> & -> & -> & _)]; [lia|]. unwrap. lia.
  - intros j d n [[-> ->]|[_ Hd]]%Hin Nd; [|specialize (U _ _ _ Hd Nd); lia].
    destruct K as [(En & _ & [Hk|Hk])|(_ & _ & -> & Hk)]; rewrite Hk in Nd; [|done|].
    + rewrite En. by apply (U _ _ _ Ec).
    + injection Nd as <-. unwrap. lia.
  - assert (forall j d n, calls w !! j = Some d -> number_of d = Some n -> number_of c' = Some n -> j = i) as Hnew.
    { intros j d n Hd Nd Nc. destruct K as [(_ & _ & [Hk|Hk])|(_ & _ & _ & Hk)]; rewrite Hk in Nc; [by eapply I|done|].
      injection Nc as <-. specialize (U _ _ _ Hd Nd). lia. }
    intros j k d e n [[-> ->]|[_ Hd]]%Hin [[-> ->]|[_ He]]%Hin Nd Ne; [done|symmetry; by eapply Hnew|by eapply Hnew|by eapply I].
Qed.

Lemma length_act w a : zlen (calls (act w a)) <= zlen (calls w) + 1.
Proof.
  destruct a as [addr|i ok session]; cbn; [rewrite zlen_app; by cbn|].
  destruct (calls w !! i); [|lia]. destruct (connect _ _ _ _ _). cbn. unfold zlen. rewrite length_insert. lia.
Qed.

Lemma length_run acts w : zlen (calls (run acts w)) <= zlen (calls w) + zlen acts.
Proof.
  revert w. induction acts as [|a acts IH]; intros w; [unfold zlen; cbn; lia|].
  cbn. specialize (IH (act w a)). pose proof (length_act w a). unfold run, zlen in *. cbn. lia.
Qed.

Lemma connects_ok acts w :
  world_ok w -> zlen (calls w) + zlen acts + 2 < 2 ^ 32 ->
  world_ok (run acts w) /\ grown (client w) (client (run acts w)).
Proof.
  revert w. induction acts as [|a acts IH]; intros w O Hn; [by split; [|apply peers_grown_refl, O]|].
  change (a :: acts) with ([a] ++ acts)%list in Hn. rewrite zlen_app in Hn. change (zlen [a]) with 1 in Hn.
  pose proof (zlen_nonneg acts). pose proof (length_act w a).
  assert (world_ok (act w a) /\ grown (client w) (client (act w a))) as [O1 [_ G1]].
  { destruct a; [|apply call_turned; [done|lia]]. split; [apply call_added; [done|lia]|apply peers_grown_refl, O]. }
  destruct (IH (act w a)) as [O2 [R2 G2]]; [done|lia|]. split; [exact O2|]. split; [done|].
  intros r p Hp. destruct (G1 r p Hp) as [Hp1 D1], (G2 r p (proj1 (G1 r p Hp))) as [Hp2 D2]. split; [exact Hp2|exact (eq_trans D2 D1)].
Qed.

Lemma world_new_ok id : world_ok (world_new id).
Proof. by split; [split| | | | |]. Qed.

(** C34. However the calls of [connect] of a client take turns, and whatever
    fails: two calls that are connected have the same peer exactly when they
    connected to the same address, and never the same stream number; and from
    when an address has a peer it keeps it, is not connected to by any further
    call, and is the address every later stream of that peer is for. *)
Theorem one_peer_per_address id acts :
  zlen acts + 2 < 2 ^ 32 ->
  let w := run acts (world_new id) in
  (forall i j c d p q n m, calls w !! i = Some c -> calls w !! j = Some d ->
    c_pc c = Connected p n -> c_pc d = Connected q m ->
    (p = q <-> c_addr c = c_addr d) /\ (n = m -> i = j)) /\
  (forall before more r p, acts = (before ++ more)%list ->
    peer_of r (client (run before (world_new id))) = Some p ->
    peer_of r (client w) = Some p /\ dials r (client w) = dials r (client (run before (world_new id)))).
Proof.
  intros Hn w. split.
  - intros i j c d p q n m Hc Hd Pc Pd.
    destruct (connects_ok acts (world_new id)) as [O _]; [apply world_new_ok|change (zlen (calls (world_new id))) with 0; lia|]. fold w in O. destruct O as [[_ R1] C _ _ _ I].
    pose proof (C _ _ Hc) as Oc. pose proof (C _ _ Hd) as Od. unfold call_ok in Oc, Od. rewrite Pc in Oc. rewrite Pd in Od.
    destruct Oc as (proto & a & Ha & Hp), Od as (proto' & a' & Ha' & Hq).
    split.
    + rewrite Ha, Ha'. split; [|intros [= <- <-]; congruence].
      intros <-. destruct (R1 _ _ _ _ _ Hp Hq) as [_ [-> ->]%register_id_inj]. done.
    + intros <-. apply (I i j c d n Hc Hd); unfold number_of; by rewrite ?Pc, ?Pd.
  - intros before more r p -> Hp. unfold w. replace (run (before ++ more) (world_new id)) with (run more (run before (world_new id))) by (symmetry; apply foldl_app).
    rewrite zlen_app in Hn. pose proof (zlen_nonneg before). pose proof (zlen_nonneg more).
    destruct (connects_ok before (world_new id)) as [O _]; [apply world_new_ok|change (zlen (calls (world_new id))) with 0; lia|].
    pose proof (length_run before (world_new id)) as Hl. change (zlen (calls (world_new id))) with 0 in Hl.
    destruct (connects_ok more _ O) as [_ [_ G]]; [lia|]. by apply G.
Qed.

(** Two calls for one address at once: neither finds a peer, both dial, and both
    get the peer the first to insert made; a later call finds it. *)
Definition demo_addr : option (Protocol4 * string) := Some (TCP, "10.0.0.1:80").
Definition demo_acts : list Act :=
  [Connect demo_addr; Connect demo_addr; Turn 0 true ""; Turn 1 true ""; Turn 0 true ""; Turn 1 true "";
   Turn 1 true "b"; Turn 0 true "a"; Turn 0 true "a"; Turn 1 true "b"; Turn 1 true "b"; Turn 0 true "a"; Turn 0 true "";
   Turn 1 true ""; Connect (Some (UDP, "10.0.0.1:80")); Turn 2 true ""; Turn 2 true ""; Turn 2 false "";
   Connect demo_addr; Turn 3 true ""; Turn 3 true ""; Turn 3 true ""].

Lemma one_peer_per_address_witness :
  let w := run demo_acts (world_new 1) in
  c_pc <$> calls w = [Connected 0 2; Connected 0 1; Failed "err:peer_stream_connect.connect"; Connected 0 3] /\
  dials "tcp10.0.0.1:80" (client w) = dials "tcp10.0.0.1:80" (client (run (take 9 demo_acts) (world_new 1))).
Proof.
  split; [vm_compute; reflexivity|]. destruct (one_peer_per_address 1 demo_acts) as [_ H]; [vm_compute; reflexivity|].
  apply (H (take 9 demo_acts) (drop 9 demo_acts) "tcp10.0.0.1:80" 0); [reflexivity|vm_compute; reflexivity].
Defined.

(** The second of two such connections names a session of its own, though it is
    given to the peer that stands for the first: the server, which keys its peers
    by the session of the hello, makes another peer of it. *)
Example second_session :
  connections (client (run demo_acts (world_new 1))) = [(0, "b"); (0, "a")] /\
  (_ ← insert_peer_stream "k" (Ok (mkHello "1" "b")); insert_peer_stream "k" (Ok (mkHello "1" "a"))) server_new =
    (Ok tt, mkServer (mkTunnel {["k" := {["a" := 1; "b" := 0]}]} [0; 1] true 2) {["k" := 0]} 1 [(0, 0); (1, 0)]).
Proof. split; vm_compute; reflexivity. Qed.
