(* ===== verification/Upstream.v ===== *)
(** Upstream servers: the balancers ([any-proxy/src/upstream/balancer]), the
    heartbeat of a server ([upstream_heartbeat_server.rs]), the resolution of
    its domain ([upstream_dynamic_domain_server.rs]) and the reconciliation of
    the server lists ([upstream_server.rs]). *)
From S2P Require Import Prelude RustStd.
#[local] Open Scope string_scope.
#[local] Open Scope list_scope.
#[local] Open Scope Z_scope.

(** ** State *)

Record UpstreamHeartbeat := mkHeartbeatConf {
  interval : Z;
  timeout : Z;
  fail_max : Z;
  http : bool
}.

(** [UpstreamHeartbeatData]: an address as it prints, a connector by its
    identity. *)
Record UpstreamHeartbeatData := mkServer {
  domain_index : Z;
  index : Z;
  heartbeat : option UpstreamHeartbeat;
  addr : string;
  connect : Z;
  curr_fail : Z;
  disable : bool;
  is_proxy_protocol_hello : option bool;
  total_elapsed : Z;
  count_elapsed : Z;
  avg_elapsed : Z;
  weight : Z;
  effective_weight : Z;
  current_weight : Z
}.

Definition eta_server (h : UpstreamHeartbeatData) : UpstreamHeartbeatData :=
  mkServer (domain_index h) (index h) (heartbeat h) (addr h) (connect h) (curr_fail h) (disable h)
    (is_proxy_protocol_hello h) (total_elapsed h) (count_elapsed h) (avg_elapsed h) (weight h)
    (effective_weight h) (current_weight h).

Definition set_fail : Z -> UpstreamHeartbeatData -> UpstreamHeartbeatData :=
  ltac:(setter eta_server curr_fail).
Definition set_disable : bool -> UpstreamHeartbeatData -> UpstreamHeartbeatData :=
  ltac:(setter eta_server disable).
Definition set_total : Z -> UpstreamHeartbeatData -> UpstreamHeartbeatData :=
  ltac:(setter eta_server total_elapsed).
Definition set_count : Z -> UpstreamHeartbeatData -> UpstreamHeartbeatData :=
  ltac:(setter eta_server count_elapsed).
Definition set_avg : Z -> UpstreamHeartbeatData -> UpstreamHeartbeatData :=
  ltac:(setter eta_server avg_elapsed).
Definition set_effective : Z -> UpstreamHeartbeatData -> UpstreamHeartbeatData :=
  ltac:(setter eta_server effective_weight).
Definition set_current : Z -> UpstreamHeartbeatData -> UpstreamHeartbeatData :=
  ltac:(setter eta_server current_weight).

(** [UpstreamDynamicDomainData]: [make d i a] is [heartbeat.heartbeat] for the
    domain's host and settings, which builds the server [i] for address [a]. *)
Record UpstreamDynamicDomainData := mkDomain {
  d_index : Z;
  make : Z -> Z -> string -> outcome UpstreamHeartbeatData;
  addrs : list string
}.

(** [UpstreamData].  The three collections share their servers: [cells] is the
    store the references point into.  [shutdowns] are the servers whose
    heartbeat task was told to stop, and [spawned] the indices for which one
    was started. *)
Record UpstreamData := mkUps {
  cells : gmap Z UpstreamHeartbeatData;
  next_cell : Z;
  is_heartbeat_change : bool;
  is_dynamic_domain_change : bool;
  is_sort_heartbeats_active : bool;
  balancer : string;
  ups_dynamic_domains : list UpstreamDynamicDomainData;
  ups_heartbeats : list Z;
  ups_heartbeats_active : list Z;
  ups_heartbeats_map : gmap Z Z;
  ups_heartbeats_index : Z;
  round_robin_index : Z;
  shutdowns : list Z;
  spawned : list Z
}.

Definition eta_ups (s : UpstreamData) : UpstreamData :=
  mkUps (cells s) (next_cell s) (is_heartbeat_change s) (is_dynamic_domain_change s)
    (is_sort_heartbeats_active s) (balancer s) (ups_dynamic_domains s) (ups_heartbeats s)
    (ups_heartbeats_active s) (ups_heartbeats_map s) (ups_heartbeats_index s)
    (round_robin_index s) (shutdowns s) (spawned s).

Definition set_cells : gmap Z UpstreamHeartbeatData -> UpstreamData -> UpstreamData :=
  ltac:(setter eta_ups cells).
Definition set_next_cell : Z -> UpstreamData -> UpstreamData := ltac:(setter eta_ups next_cell).
Definition set_change : bool -> UpstreamData -> UpstreamData :=
  ltac:(setter eta_ups is_heartbeat_change).
Definition set_domain_change : bool -> UpstreamData -> UpstreamData :=
  ltac:(setter eta_ups is_dynamic_domain_change).
Definition set_sort : bool -> UpstreamData -> UpstreamData :=
  ltac:(setter eta_ups is_sort_heartbeats_active).
Definition set_domains : list UpstreamDynamicDomainData -> UpstreamData -> UpstreamData :=
  ltac:(setter eta_ups ups_dynamic_domains).
Definition set_heartbeats : list Z -> UpstreamData -> UpstreamData :=
  ltac:(setter eta_ups ups_heartbeats).
Definition set_active : list Z -> UpstreamData -> UpstreamData :=
  ltac:(setter eta_ups ups_heartbeats_active).
Definition set_hmap : gmap Z Z -> UpstreamData -> UpstreamData :=
  ltac:(setter eta_ups ups_heartbeats_map).
Definition set_hindex : Z -> UpstreamData -> UpstreamData :=
  ltac:(setter eta_ups ups_heartbeats_index).
Definition set_rr : Z -> UpstreamData -> UpstreamData := ltac:(setter eta_ups round_robin_index).
Definition set_shutdowns : list Z -> UpstreamData -> UpstreamData :=
  ltac:(setter eta_ups shutdowns).
Definition set_spawned : list Z -> UpstreamData -> UpstreamData := ltac:(setter eta_ups spawned).

(** A reference always points at a server. *)
Definition cell (r : Z) : stm UpstreamData UpstreamHeartbeatData := fun s =>
  (expect (cells s !! r), s).
Definition put (r : Z) (h : UpstreamHeartbeatData) : stm UpstreamData unit :=
  modify (fun s => set_cells (<[r := h]> (cells s)) s).

(** ** Balancers

    The answer: the proxy protocol setting, whether the server is disabled,
    and its connector. *)
Definition Conn : Type := option bool * bool * Z.
Definition conn_of (h : UpstreamHeartbeatData) : Conn :=
  (is_proxy_protocol_hello h, disable h, connect h).

Definition get_connect_data (l : list Z) (i : Z) : stm UpstreamData (option Conn) :=
  if zlen l <=? 0 then mret None
  else r ← lift (vget l i); h ← cell r; mret (Some (conn_of h)).

Definition fair (ip : string) : stm UpstreamData (option Conn) :=
  hbs ← gets ups_heartbeats; act ← gets ups_heartbeats_active;
  if zlen act <=? 0 then get_connect_data hbs 0 else get_connect_data act 0.

(** [DefaultHasher] on the text of an address: some number of 64 bits, the
    same for the same text. *)
Class DefaultHasher := finish : string -> Z.

Definition ip_hash `{DefaultHasher} (ip : string) : stm UpstreamData (option Conn) :=
  hbs ← gets ups_heartbeats;
  if zlen hbs <=? 0 then mret None
  else i ← lift (zrem (finish ip) (zlen hbs)); get_connect_data hbs i.

Definition ip_hash_active `{DefaultHasher} (ip : string) : stm UpstreamData (option Conn) :=
  hbs ← gets ups_heartbeats; act ← gets ups_heartbeats_active;
  if zlen act <=? 0 then get_connect_data hbs 0
  else i ← lift (zrem (finish ip) (zlen act)); get_connect_data act i.

(** The loop of [random] from position [i]; it stops at [start]. *)
Fixpoint random_loop (fuel : nat) (i start : Z) : stm UpstreamData (option Conn) :=
  match fuel with
  | O => lift Fuel
  | S fuel =>
      hbs ← gets ups_heartbeats; act ← gets ups_heartbeats_active;
      r ← lift (vget act i); h ← cell r;
      if disable h then
        i ← lift (zrem (wrap64 (i + 1)) (zlen hbs));
        if i =? start then get_connect_data hbs 0 else random_loop fuel i start
      else mret (Some (conn_of h))
  end.

(** A round per configured server brings the loop back to its start. *)
Definition loop_fuel (s : UpstreamData) : nat := S (length (ups_heartbeats s)).

(** [rnd] is the number drawn. *)
Definition random (rnd : Z) (ip : string) : stm UpstreamData (option Conn) :=
  hbs ← gets ups_heartbeats; act ← gets ups_heartbeats_active; fuel ← gets loop_fuel;
  if zlen act <=? 0 then get_connect_data hbs 0
  else i ← lift (zrem rnd (zlen act)); random_loop fuel i i.

Fixpoint round_robin_loop (fuel : nat) (i start : Z) : stm UpstreamData (option Conn) :=
  match fuel with
  | O => lift Fuel
  | S fuel =>
      hbs ← gets ups_heartbeats; act ← gets ups_heartbeats_active;
      r ← lift (vget act i); h ← cell r;
      if disable h then
        _ ← modify (fun s => set_rr (wrap64 (round_robin_index s + 1)) s);
        rr ← gets round_robin_index;
        i ← lift (zrem rr (zlen hbs));
        if i =? start then get_connect_data hbs 0 else round_robin_loop fuel i start
      else mret (Some (conn_of h))
  end.

Definition round_robin (ip : string) : stm UpstreamData (option Conn) :=
  hbs ← gets ups_heartbeats; act ← gets ups_heartbeats_active; fuel ← gets loop_fuel;
  if zlen act <=? 0 then get_connect_data hbs 0
  else
    _ ← modify (fun s => set_rr (wrap64 (round_robin_index s + 1)) s);
    rr ← gets round_robin_index;
    i ← lift (zrem rr (zlen act)); round_robin_loop fuel i i.

(** A server's turn in the loop of [weight]: its current weight grows by its
    effective weight, which recovers towards the configured one. *)
Definition gain (h : UpstreamHeartbeatData) : UpstreamHeartbeatData :=
  let h := set_current (swrap64 (current_weight h + effective_weight h)) h in
  if effective_weight h <? weight h
  then set_effective (swrap64 (effective_weight h + 1)) h else h.

(** The loop of [weight]: [i] is the position, [best] the heaviest so far. *)
Fixpoint weight_loop (l : list Z) (i best total : Z) : stm UpstreamData (Z * Z) :=
  match l with
  | [] => mret (best, total)
  | r :: l =>
      h ← cell r;
      _ ← put r (gain h);
      let total := swrap64 (total + effective_weight h) in
      if best =? -1 then weight_loop l (i + 1) (swrap 32 i) total
      else
        act ← gets ups_heartbeats_active;
        b ← lift (vget act (wrap64 best)); curr ← cell b;
        weight_loop l (i + 1)
          (if current_weight curr <? current_weight (gain h) then swrap 32 i else best) total
  end.

Definition weight_balancer (ip : string) : stm UpstreamData (option Conn) :=
  hbs ← gets ups_heartbeats; act ← gets ups_heartbeats_active;
  if zlen act <=? 0 then get_connect_data hbs 0
  else if zlen hbs =? 1 then get_connect_data act 0
  else
    '(best, total) ← weight_loop act 0 (-1) 0;
    let i := wrap64 best in
    c ← get_connect_data act i;
    '(hello, is_disable, conn) ← lift (expect c);
    _ ← (if (is_disable : bool) then done_
         else r ← lift (vget act i); h ← cell r;
              put r (set_current (swrap64 (current_weight h - total)) h));
    mret (Some (hello, is_disable, conn)).

(** ** Heartbeats

    A turn of [raw_heartbeat] or [http_heartbeat] for the server [r] that
    tolerates [fail] failures: [ret] is the time an exchange took, if it
    worked.  The division of a weight rounds towards zero. *)
Definition heartbeat_ok (r elapsed : Z) : stm UpstreamData unit :=
  h ← cell r;
  let h := set_count (wrap64 (count_elapsed h + 1))
             (set_total (wrap 128 (total_elapsed h + elapsed)) h) in
  avg ← lift (zdiv (total_elapsed h) (count_elapsed h));
  _ ← put r (set_avg avg h);
  _ ← modify (set_sort true);
  h ← cell r;
  if disable h then
    _ ← modify (set_change true);
    put r (set_disable false (set_fail 0 h))
  else done_.

Definition heartbeat_err (r fail : Z) : stm UpstreamData unit :=
  h ← cell r;
  let h := set_fail (wrap64 (curr_fail h + 1)) h in
  let n := swrap64 (curr_fail h) in
  _ ← lift (if n =? 0 then Panic else Ok tt);
  let h := set_effective (swrap64 (Z.quot (weight h) n)) h in
  if (fail <? curr_fail h) && negb (disable h) then
    _ ← modify (set_change true);
    put r (set_disable true h)
  else put r h.

Definition heartbeat_turn (r fail : Z) (ret : option Z) : stm UpstreamData unit :=
  match ret with
  | Some elapsed => heartbeat_ok r elapsed
  | None => heartbeat_err r fail
  end.

(** ** Domains

    [sort_by] is a stable sort. *)
Fixpoint insert_by {A} (le : A -> A -> bool) (x : A) (l : list A) : list A :=
  match l with
  | [] => [x]
  | y :: l => if le x y then x :: y :: l else y :: insert_by le x l
  end.

Definition sort_by {A} (le : A -> A -> bool) (l : list A) : list A := foldr (insert_by le) [] l.

(** A turn of [UpstreamDynamicDomainServer::start] for the domain [d] after
    its sleep: [known] are the addresses it last saw, [found] the answer of
    the resolver, [le] the order of addresses.  The result is the addresses it
    has seen now. *)
Definition domain_turn (le : string -> string -> bool) (d : Z) (known : list string)
    (found : option (list string)) : stm UpstreamData (list string) :=
  match found with
  | None => mret known
  | Some found =>
      let curr := sort_by le found in
      if decide (known = curr) then mret known
      else
        _ ← modify (set_domain_change true);
        ds ← gets ups_dynamic_domains;
        x ← lift (vget ds d);
        ds ← lift (vset ds d (mkDomain (d_index x) (make x) curr));
        _ ← modify (set_domains ds);
        mret curr
  end.

(** ** Reconciliation: a turn of [UpstreamServer::run] *)

(** The key of an address of a domain. *)
Definition addr_key (d : Z) (a : string) : string := show_u d +:+ ("_" +:+ a).
Definition server_key (h : UpstreamHeartbeatData) : string := addr_key (domain_index h) (addr h).
Definition domain_keys (ds : list UpstreamDynamicDomainData) : list string :=
  concat ((fun d => addr_key (d_index d) <$> addrs d) <$> ds).

(** The positions, from [i] on, of the servers whose address is gone. *)
Fixpoint del_indexs (live : gset string) (l : list Z) (i : Z) : stm UpstreamData (list Z) :=
  match l with
  | [] => mret []
  | r :: l =>
      h ← cell r;
      ix ← del_indexs live l (i + 1);
      mret (if decide (server_key h ∈ live) then ix else i :: ix)
  end.

(** [Vec::remove] *)
Definition vremove (l : list Z) (i : Z) : outcome (Z * list Z) :=
  r ← vget l i; Ok (r, take (Z.to_nat i) l ++ drop (S (Z.to_nat i)) l).

Definition del_heartbeat (i : Z) : stm UpstreamData unit :=
  hbs ← gets ups_heartbeats;
  '(r, hbs) ← lift (vremove hbs i);
  _ ← modify (set_heartbeats hbs);
  h ← cell r;
  modify (fun s => set_shutdowns (shutdowns s ++ [r])
            (set_hmap (delete (index h) (ups_heartbeats_map s)) s)).

(** From the last position to the first. *)
Fixpoint del_loop (ix : list Z) : stm UpstreamData unit :=
  match ix with
  | [] => done_
  | i :: ix => _ ← del_loop ix; del_heartbeat i
  end.

Fixpoint heartbeat_keys (l : list Z) : stm UpstreamData (gset string) :=
  match l with
  | [] => mret ∅
  | r :: l => h ← cell r; ks ← heartbeat_keys l; mret ({[server_key h]} ∪ ks)
  end.

Definition add_heartbeat (d : UpstreamDynamicDomainData) (a : string) : stm UpstreamData unit :=
  i ← gets ups_heartbeats_index;
  h ← lift (make d (d_index d) i a);
  r ← gets next_cell;
  _ ← put r h;
  _ ← modify (fun s => set_next_cell (r + 1) (set_heartbeats (ups_heartbeats s ++ [r])
        (set_hmap (<[i := r]> (ups_heartbeats_map s))
        (set_hindex (wrap64 (ups_heartbeats_index s + 1)) s))));
  match heartbeat h with
  | None => done_
  | Some _ => modify (fun s => set_spawned (spawned s ++ [index h]) s)
  end.

Fixpoint add_addrs (known : gset string) (d : UpstreamDynamicDomainData) (l : list string)
    : stm UpstreamData unit :=
  match l with
  | [] => done_
  | a :: l =>
      _ ← (if decide (addr_key (d_index d) a ∈ known) then done_ else add_heartbeat d a);
      add_addrs known d l
  end.

Fixpoint add_domains (known : gset string) (ds : list UpstreamDynamicDomainData)
    : stm UpstreamData unit :=
  match ds with
  | [] => done_
  | d :: ds => _ ← add_addrs known d (addrs d); add_domains known ds
  end.

Definition update_domains : stm UpstreamData unit :=
  c ← gets is_dynamic_domain_change;
  if negb c then done_
  else
    _ ← modify (fun s => set_change true (set_domain_change false s));
    ds ← gets ups_dynamic_domains;
    hbs ← gets ups_heartbeats;
    ix ← del_indexs (list_to_set (domain_keys ds)) hbs 0;
    _ ← del_loop ix;
    hbs ← gets ups_heartbeats;
    known ← heartbeat_keys hbs;
    add_domains known ds.

(** The servers that are not disabled. *)
Fixpoint enabled (l : list Z) : stm UpstreamData (list Z) :=
  match l with
  | [] => mret []
  | r :: l => h ← cell r; rs ← enabled l; mret (if disable h then rs else r :: rs)
  end.

Definition rebuild_active : stm UpstreamData unit :=
  c ← gets is_heartbeat_change;
  if negb c then done_
  else
    _ ← modify (fun s => set_sort true (set_change false s));
    hbs ← gets ups_heartbeats;
    act ← enabled hbs;
    modify (set_active act).

Definition avg_of (s : UpstreamData) (r : Z) : Z := default 0 (avg_elapsed <$> cells s !! r).

Definition sort_active : stm UpstreamData unit :=
  c ← gets is_sort_heartbeats_active; b ← gets balancer;
  if c && String.eqb b "fair" then
    _ ← modify (set_sort false);
    modify (fun s => set_active
      (sort_by (fun a b => avg_of s a <=? avg_of s b) (ups_heartbeats_active s)) s)
  else done_.

Definition run_turn : stm UpstreamData unit :=
  _ ← update_domains; _ ← rebuild_active; sort_active.

(** ** Configuration

    [UpstreamHeartbeatTcp::heartbeat] ([config/upstream_proxy_pass_tcp.rs]):
    [conf] is the socket configuration found under its name, [connector] makes
    the connector and [probe] the client of an HTTP heartbeat. *)
Record ProxyPassTcp := mkProxyPass {
  pp_heartbeat : option UpstreamHeartbeat;
  pp_hello : option bool;
  pp_weight : option Z
}.

Definition tcp_heartbeat (conf : option Z) (connector : Z -> string -> Z)
    (probe : string -> outcome unit) (tcp : ProxyPassTcp) (ups_heartbeat : option UpstreamHeartbeat)
    (is_weight : bool) (d i : Z) (a : string) : outcome UpstreamHeartbeatData :=
  conf ← ok_or "err:tcp_config_name" conf;
  let hb := match pp_heartbeat tcp with Some h => Some h | None => ups_heartbeat end in
  if is_weight && bool_decide (pp_weight tcp = None) then Err "err:weight nil"
  else
    let w := default 1 (pp_weight tcp) in
    _ ← (match hb with
         | Some h => if http h then probe a else Ok tt
         | None => Ok tt
         end);
    Ok (mkServer d i hb a (connector conf a) 0 false (pp_hello tcp) 0 0 0 w w 0).

(** [upstream_block::Conf] before any [proxy_pass], and [add_proxy_pass] for
    the addresses [found] by the resolver: the active list starts as the list
    of all servers. *)
Definition ups_new (b : string) : UpstreamData :=
  mkUps ∅ 0 false false false b [] [] [] ∅ 0 0 [] [].

Fixpoint add_all (d : UpstreamDynamicDomainData) (l : list string) : stm UpstreamData unit :=
  match l with
  | [] => done_
  | a :: l =>
      i ← gets ups_heartbeats_index;
      h ← lift (make d (d_index d) i a);
      r ← gets next_cell;
      _ ← put r h;
      _ ← modify (fun s => set_next_cell (r + 1) (set_heartbeats (ups_heartbeats s ++ [r])
            (set_active (ups_heartbeats_active s ++ [r])
            (set_hmap (<[i := r]> (ups_heartbeats_map s))
            (set_hindex (wrap64 (ups_heartbeats_index s + 1)) s)))));
      add_all d l
  end.

(** The heartbeat a balancer needs of servers that configure none, and whether
    it needs weights. *)
Definition default_heartbeat (b : string) : option UpstreamHeartbeat :=
  if String.eqb b "fair" then Some (mkHeartbeatConf 10 10 3 false) else None.
Definition needs_weight (b : string) : bool := String.eqb b "weight".

Definition add_proxy_pass (le : string -> string -> bool)
    (mk : option UpstreamHeartbeat -> bool -> Z -> Z -> string -> outcome UpstreamHeartbeatData)
    (found : list string) : stm UpstreamData unit :=
  b ← gets balancer;
  let found := sort_by le found in
  n ← gets (fun s => zlen (ups_dynamic_domains s));
  let d := mkDomain n (mk (default_heartbeat b) (needs_weight b)) found in
  _ ← modify (fun s => set_domains (ups_dynamic_domains s ++ [d]) s);
  add_all d found.
