(* ===== verification/Balance.v ===== *)
(** What the balancers of [Upstream] guarantee. *)
From S2P Require Import Prelude RustStd Upstream.
#[local] Open Scope string_scope.
#[local] Open Scope list_scope.
#[local] Open Scope Z_scope.

(** ** Servers behind references *)

(** The references [rs] point at the servers [hs]. *)
Definition holds (c : gmap Z UpstreamHeartbeatData) : list Z -> list UpstreamHeartbeatData -> Prop :=
  Forall2 (fun r h => c !! r = Some h).

Lemma cell_ok r s h : cells s !! r = Some h -> cell r s = (Ok h, s).
Proof. unfold cell. by intros ->. Qed.

Lemma set_cells_same c s : c = cells s -> set_cells c s = s.
Proof. intros ->. by destruct s. Qed.

Lemma holds_lookup c rs hs i r :
  holds c rs hs -> rs !! i = Some r -> exists h, hs !! i = Some h /\ c !! r = Some h.
Proof. intros H E. exact (Forall2_lookup_l _ _ _ _ _ H E). Qed.

Lemma holds_len c rs hs : holds c rs hs -> length rs = length hs.
Proof. exact (Forall2_length _ _ _). Qed.

Lemma holds_insert c rs hs r h :
  r ∉ rs -> holds c rs hs -> holds (<[r := h]> c) rs hs.
Proof.
  intros Hr H. induction H as [|r' h' rs hs E H IH]; [constructor|].
  apply not_elem_of_cons in Hr as [Hne Hr]. constructor; [by rewrite lookup_insert_ne|by apply IH].
Qed.

Lemma holds_update c rs hs i r h :
  NoDup rs -> holds c rs hs -> rs !! i = Some r -> holds (<[r := h]> c) rs (<[i := h]> hs).
Proof.
  intros Hnd H. revert i. induction H as [|r' h' rs hs E H IH]; intros i Hi; [done|].
  apply NoDup_cons in Hnd as [Hr Hnd]. destruct i as [|i]; cbn in *.
  - injection Hi as ->. constructor; [by rewrite lookup_insert_eq|by apply holds_insert].
  - constructor; [|by apply IH]. rewrite lookup_insert_ne; [done|]. intros ->.
    apply Hr. by eapply list_elem_of_lookup_2.
Qed.

Lemma alter_at {A} (f : A -> A) (l : list A) (i : nat) x : l !! i = Some x -> alter f i l = <[i := f x]> l.
Proof.
  intros E. apply list_eq. intros j. destruct (decide (i = j)) as [<-|Hne].
  - rewrite list_lookup_alter_eq, E, list_lookup_insert_eq; [done|]. by eapply lookup_lt_Some.
  - by rewrite list_lookup_alter_ne, list_lookup_insert_ne by done.
Qed.

(** Reading position [i] of a list of servers. *)
Lemma get_connect_data_ok l hs s i h :
  holds (cells s) l hs -> 0 <= i -> hs !! Z.to_nat i = Some h ->
  get_connect_data l i s = (Ok (Some (conn_of h)), s).
Proof.
  intros Hl Hi Hh. unfold get_connect_data.
  destruct (Forall2_lookup_r _ _ _ _ _ Hl Hh) as (r & Hr & Hc).
  assert (0 < zlen l) by (apply lookup_lt_Some in Hr; unfold zlen; lia).
  destruct (Z.leb_spec (zlen l) 0); [lia|].
  step by (unfold lift; by rewrite (proj2 (vget_ok l i r)) by done).
  step by (by apply cell_ok). done.
Qed.

(** ** Weighted round robin *)

(** Position [b] carries the greatest current weight. *)
Definition heaviest (hs : list UpstreamHeartbeatData) (b : Z) : Prop :=
  0 <= b /\ exists h, hs !! Z.to_nat b = Some h /\
    Forall (fun h' => current_weight h' <= current_weight h) hs.

(** The total the loop computes, with its wrap-around. *)
Definition total_of (total : Z) (hs : list UpstreamHeartbeatData) : Z :=
  foldl (fun t h => swrap64 (t + effective_weight h)) total hs.

Lemma heaviest_snoc hs h b :
  heaviest hs b ->
  exists hb, hs !! Z.to_nat b = Some hb /\
    heaviest (hs ++ [h]) (if current_weight hb <? current_weight h then zlen hs else b).
Proof.
  intros (Hb & hb & Hhb & Hall). exists hb. split; [done|].
  destruct (Z.ltb_spec (current_weight hb) (current_weight h)).
  - split; [apply zlen_nonneg|]. exists h. unfold zlen. rewrite Nat2Z.id.
    split; [by rewrite lookup_app_r, Nat.sub_diag by lia|].
    apply Forall_app. split; [|by repeat constructor].
    eapply Forall_impl; [exact Hall|]. cbn. lia.
  - split; [done|]. exists hb. split; [by rewrite lookup_app_l by (by eapply lookup_lt_Some)|].
    apply Forall_app. by repeat constructor.
Qed.

Lemma swrap32_id x : 0 <= x < 2 ^ 31 -> swrap 32 x = x.
Proof.
  intros H. unfold swrap. change (32 - 1) with 31. rewrite Z.mod_small by lia.
  by destruct (Z.ltb_spec x (2 ^ 31)); [|lia].
Qed.

Lemma weight_loop_spec rs2 : forall rs1 hs1 hs2 s best total,
  ups_heartbeats_active s = rs1 ++ rs2 -> NoDup (rs1 ++ rs2) -> zlen (rs1 ++ rs2) < 2 ^ 31 ->
  holds (cells s) rs1 hs1 -> holds (cells s) rs2 hs2 ->
  (hs1 = [] /\ best = -1 \/ heaviest hs1 best) ->
  exists c best', weight_loop rs2 (zlen rs1) best total s =
      (Ok (best', total_of total hs2), set_cells c s) /\
    holds c (rs1 ++ rs2) (hs1 ++ (gain <$> hs2)) /\
    (forall r, r ∉ rs2 -> c !! r = cells s !! r) /\
    (hs1 ++ (gain <$> hs2) = [] /\ best' = -1 \/ heaviest (hs1 ++ (gain <$> hs2)) best').
Proof.
  induction rs2 as [|r rs2 IH]; intros rs1 hs1 hs2 s best total Ha Hnd Hlen H1 H2 Hb.
  { apply Forall2_nil_inv_l in H2 as ->. exists (cells s), best. cbn. rewrite !app_nil_r.
    split; [|done]. by destruct s. }
  apply Forall2_cons_inv_l in H2 as (h & hs2' & Er & H2 & ->).
  assert ((r ∉ rs1) /\ (r ∉ rs2) /\ NoDup rs2) as (Hr1 & Hr2 & Hnd2).
  { apply NoDup_app in Hnd as (_ & Hd & [Hr ?]%NoDup_cons). split_and!; try done.
    intros Hin. apply (Hd r Hin). by constructor. }
  set (s1 := set_cells (<[r := gain h]> (cells s)) s).
  assert (zlen rs1 = zlen hs1) as El by (unfold zlen; by rewrite (holds_len _ _ _ H1)).
  assert (0 <= zlen rs1 < 2 ^ 31) as Hb1.
  { rewrite zlen_app in Hlen. pose proof (zlen_nonneg rs1). pose proof (zlen_nonneg (r :: rs2)). lia. }
  assert (holds (cells s1) (rs1 ++ [r]) (hs1 ++ [gain h])) as H1'.
  { apply Forall2_app; [by apply holds_insert|]. constructor; [|constructor]. cbn. apply lookup_insert_eq. }
  assert (exists best1, weight_loop (r :: rs2) (zlen rs1) best total s =
    weight_loop rs2 (zlen (rs1 ++ [r])) best1 (swrap64 (total + effective_weight h)) s1 /\
    heaviest (hs1 ++ [gain h]) best1) as (best1 & Estep & Hb').
  { cbn [weight_loop]. step by (by apply cell_ok). step.
    replace (zlen (rs1 ++ [r])) with (zlen rs1 + 1) by (rewrite zlen_app; done).
    destruct Hb as [[-> ->]|Hb].
    - exists (zlen rs1). cbn [Z.eqb Pos.eqb]. rewrite swrap32_id by lia. split; [done|].
      rewrite El. cbn. split; [done|]. exists (gain h). split; [done|]. by repeat constructor.
    - destruct (heaviest_snoc hs1 (gain h) best Hb) as (hb & Ehb & Hnext).
      assert (0 <= best) as Hb0 by (apply Hb).
      destruct (Forall2_lookup_r _ _ _ _ _ H1 Ehb) as (rb & Erb & Ecb).
      assert (best < zlen rs1) by (apply lookup_lt_Some in Erb; unfold zlen; lia).
      eexists. split; [|exact Hnext].
      destruct (Z.eqb_spec best (-1)); [lia|].
      step. step by (unfold lift; rewrite wrap_id by (unfold in_width; lia);
        change (ups_heartbeats_active _) with (ups_heartbeats_active s); rewrite Ha;
        rewrite (proj2 (vget_ok _ best rb)); [done|split; [done|by rewrite lookup_app_l by (by eapply lookup_lt_Some)]]).
      step by (apply cell_ok; cbn; rewrite lookup_insert_ne; [exact Ecb|];
        intros ->; apply Hr1; by eapply list_elem_of_lookup_2).
      rewrite swrap32_id, El by lia. done. }
  rewrite Estep.
  destruct (IH (rs1 ++ [r]) (hs1 ++ [gain h]) hs2' s1 best1 (swrap64 (total + effective_weight h)))
    as (c & best' & E & Hc & Ho & Hbest); rewrite <- ?app_assoc in *; try done; [|by right|].
  { by apply holds_insert. }
  exists c, best'. cbn [app fmap list_fmap total_of foldl] in *. split_and!; try done.
  intros r' Hr'. apply not_elem_of_cons in Hr' as [Hne Hr']. rewrite Ho by done. cbn.
  by rewrite lookup_insert_ne.
Qed.

(** What a call does to the servers: each gains, and the heaviest pays the
    total. *)
Definition weigh (hs : list UpstreamHeartbeatData) (b total : Z) : list UpstreamHeartbeatData :=
  alter (fun h => set_current (swrap64 (current_weight h - total)) h) (Z.to_nat b) (gain <$> hs).

Lemma conn_of_gain h : conn_of (gain h) = conn_of h.
Proof. unfold gain. by case_match. Qed.

Lemma weight_balancer_spec ip s rs hs :
  ups_heartbeats_active s = rs -> rs <> [] -> NoDup rs -> zlen rs < 2 ^ 31 ->
  zlen (ups_heartbeats s) <> 1 -> holds (cells s) rs hs ->
  Forall (fun h => disable h = false) hs ->
  exists c b h, weight_balancer ip s = (Ok (Some (conn_of h)), set_cells c s) /\
    hs !! Z.to_nat b = Some h /\ heaviest (gain <$> hs) b /\
    holds c rs (weigh hs b (total_of 0 hs)) /\ (forall r, r ∉ rs -> c !! r = cells s !! r).
Proof.
  intros Ha Hne Hnd Hlen H1 Hh Hen.
  destruct (weight_loop_spec rs [] [] hs s (-1) 0) as (c & b & E & Hc & Ho & Hb); try done;
    [constructor|by left|].
  cbn [app] in *.
  destruct Hb as [[Hnil _]|Hb].
  { apply fmap_nil_inv in Hnil as ->. inversion Hh. by subst. }
  destruct Hb as (Hb0 & g & Hg & Hall).
  apply list_lookup_fmap_Some in Hg as (h & -> & Hh').
  assert ((gain <$> hs) !! Z.to_nat b = Some (gain h)) as Hgh by (by rewrite list_lookup_fmap, Hh').
  destruct (Forall2_lookup_r _ _ _ _ _ Hh Hh') as (r & Hr & Hrc).
  assert (c !! r = Some (gain h)) as Hcr.
  { destruct (holds_lookup _ _ _ _ _ Hc Hr) as (g & Hg & Hcg).
    cbn in *. congruence. }
  assert (b < zlen rs) as Hlt by (apply lookup_lt_Some in Hr; unfold zlen; lia).
  assert (vget rs b = Ok r) as Hv by (by apply vget_ok).
  exists (<[r := set_current (swrap64 (current_weight (gain h) - total_of 0 hs)) (gain h)]> c), b, h.
  split; [|split_and!].
  - unfold weight_balancer. do 2 step. rewrite Ha.
    assert (0 < zlen rs) by (destruct rs; [done|unfold zlen; cbn; lia]).
    destruct (Z.leb_spec (zlen rs) 0); [lia|]. destruct (Z.eqb_spec (zlen (ups_heartbeats s)) 1); [lia|].
    step by exact E. rewrite wrap_id by (unfold in_width; lia).
    step by (eapply get_connect_data_ok; [exact Hc|done|exact Hgh]).
    step. rewrite conn_of_gain. unfold conn_of.
    assert (disable h = false) as -> by (eapply Forall_lookup_1 in Hen; [|exact Hh']; done).
    step by (step by (unfold lift; by rewrite Hv); step by (by apply cell_ok); reflexivity).
    done.
  - done.
  - split; [done|]. by exists (gain h).
  - unfold weigh. rewrite (alter_at _ _ _ _ Hgh). by apply holds_update.
  - intros r' Hr'. rewrite lookup_insert_ne; [by apply Ho|]. intros ->. apply Hr'.
    by eapply list_elem_of_lookup_2.
Qed.

(** [W] calls of [weight], where [W] is the sum of the weights. *)
Definition total_weight (hs : list UpstreamHeartbeatData) : Z := zsum (weight <$> hs).

(** A server at rest: nothing gained, its weight not lowered by failures. *)
Definition rested (h : UpstreamHeartbeatData) : Prop :=
  effective_weight h = weight h /\ 0 <= weight h /\ current_weight h = 0 /\ disable h = false.

(** The servers after the connections [picks]. *)
Definition after (hs : list UpstreamHeartbeatData) (picks : list Conn) : list UpstreamHeartbeatData :=
  (fun h => set_current (zlen picks * weight h - total_weight hs * zcount (conn_of h) picks) h)
    <$> hs.

(** The connections handed out so far went to the servers, none more than one
    ahead of its share. *)
Record shared (hs : list UpstreamHeartbeatData) (picks : list Conn) : Prop := {
  sh_in : forall c, c ∈ picks -> c ∈ conn_of <$> hs;
  sh_share : Forall (fun h => total_weight hs * (zcount (conn_of h) picks - 1) <
                              zlen picks * weight h) hs
}.

Section fairness.
Context (hs : list UpstreamHeartbeatData).
Hypothesis Hrest : Forall rested hs.
Hypothesis Hconn : NoDup (conn_of <$> hs).
Hypothesis Hpos : 0 < total_weight hs < 2 ^ 31.

Lemma weight_le h : h ∈ hs -> 0 <= weight h <= total_weight hs.
Proof using Hrest.
  clear Hconn Hpos. unfold total_weight, zsum. intros Hin.
  induction Hrest as [|x l Hx Hl IH]; [by apply elem_of_nil in Hin|].
  assert (0 <= zsum (weight <$> l)) as Hs.
  { apply zsum_nonneg, Forall_fmap. eapply Forall_impl; [exact Hl|]. by intros ? (_ & ? & _). }
  unfold zsum in Hs. destruct Hx as (_ & ? & _). cbn.
  apply elem_of_cons in Hin as [->|Hin]; [lia|]. specialize (IH Hl Hin). lia.
Qed.

Lemma picks_total picks :
  shared hs picks -> zsum ((fun h => zcount (conn_of h) picks) <$> hs) = zlen picks.
Proof using Hconn.
  intros [Hin _]. rewrite <- (zcount_total _ _ Hconn Hin). by rewrite <- list_fmap_compose.
Qed.

(** What a server carries after a round of gains. *)
Definition load (picks : list Conn) (h : UpstreamHeartbeatData) : Z :=
  (zlen picks + 1) * weight h - total_weight hs * zcount (conn_of h) picks.

Lemma load_sum picks : shared hs picks -> zsum (load picks <$> hs) = total_weight hs.
Proof using Hconn.
  intros Hs. unfold load. rewrite zsum_linear, (picks_total _ Hs). fold (total_weight hs). lia.
Qed.

(** No overflow within a period. *)
Lemma share_small w k n :
  0 <= w <= total_weight hs -> 0 <= k < total_weight hs -> 0 <= n ->
  total_weight hs * (n - 1) < k * w ->
  - 2 ^ 63 <= k * w - total_weight hs * n + w < 2 ^ 63.
Proof using Hpos.
  intros Hw Hk Hn Hs. assert (k * w <= 2 ^ 31 * 2 ^ 31) by nia.
  assert (0 <= total_weight hs * n) by nia. lia.
Qed.

Lemma gain_after picks :
  shared hs picks -> zlen picks < total_weight hs ->
  gain <$> after hs picks = (fun h => set_current (load picks h) h) <$> hs.
Proof using Hrest Hpos.
  intros [_ Hsh] Hlen. unfold after. rewrite <- list_fmap_compose. apply list_fmap_ext.
  intros i h Hh. assert (h ∈ hs) as Hin by (by eapply list_elem_of_lookup_2).
  pose proof (weight_le h Hin). rewrite Forall_forall in Hsh, Hrest.
  specialize (Hsh h Hin). destruct (Hrest h Hin) as (He & _ & _ & _).
  pose proof (zcount_nonneg (conn_of h) picks). pose proof (zlen_nonneg picks).
  unfold compose, gain. cbn. rewrite He. destruct (Z.ltb_spec (weight h) (weight h)); [lia|].
  rewrite swrap64_id by (by apply share_small). unfold load, set_current. cbn. f_equal. lia.
Qed.

(** The heaviest server carries something. *)
Lemma heaviest_loaded picks h :
  shared hs picks -> Forall (fun h' => load picks h' <= load picks h) hs -> 0 < load picks h.
Proof using Hconn Hpos.
  intros Hs Hall. destruct (decide (0 < load picks h)); [done|exfalso].
  pose proof (load_sum picks Hs) as E.
  assert (zsum (load picks <$> hs) <= zsum ((fun _ => 0) <$> hs)) as Hle.
  { apply zsum_pointwise. eapply Forall_impl; [exact Hall|]. cbn. lia. }
  assert (zsum ((fun _ => 0) <$> hs) = 0) as E0.
  { clear. unfold zsum. induction hs; cbn in *; lia. }
  lia.
Qed.

Lemma total_of_after picks : total_of 0 (after hs picks) = total_weight hs.
Proof using Hrest Hpos.
  unfold after, total_of, total_weight in *.
  set (f := fun h => set_current _ h).
  assert (Forall (fun h => effective_weight (f h) = weight h /\ 0 <= weight h) hs) as Hf.
  { eapply Forall_impl; [exact Hrest|]. by intros h (He & ? & _). }
  assert (forall t, 0 <= t -> t + zsum (weight <$> hs) < 2 ^ 31 ->
    foldl (fun t h => swrap64 (t + effective_weight h)) t (f <$> hs) =
    t + zsum (weight <$> hs)) as Hgen.
  { clearbody f. clear Hrest Hconn Hpos. induction Hf as [|h l [He Hw] Hl IH]; intros t Ht Hb.
    - cbn. lia.
    - unfold zsum in *. cbn in *. rewrite He.
      assert (0 <= foldr Z.add 0 (weight <$> l)).
      { apply (zsum_nonneg (weight <$> l)), Forall_fmap. eapply Forall_impl; [exact Hl|]. by intros ? []. }
      rewrite swrap64_id by lia. rewrite IH; lia. }
  rewrite Hgen; lia.
Qed.

Lemma weigh_after picks b h :
  shared hs picks -> zlen picks < total_weight hs -> 0 <= b -> hs !! Z.to_nat b = Some h ->
  0 < load picks h ->
  weigh (after hs picks) b (total_weight hs) = after hs (picks ++ [conn_of h]).
Proof using Hrest Hconn Hpos.
  intros Hs Hlen Hb Hh Hload. unfold weigh. rewrite gain_after by done.
  apply list_eq. intros i. unfold after.
  destruct (decide (Z.to_nat b = i)) as [<-|Hne].
  - rewrite list_lookup_alter_eq, !list_lookup_fmap, Hh. cbn. f_equal.
    rewrite zlen_app, zcount_app, zcount_one, decide_True by done. change (zlen [conn_of h]) with 1.
    unfold set_current, load in *. cbn.
    rewrite swrap64_id; [f_equal; lia|].
    assert (h ∈ hs) as Hin by (by eapply list_elem_of_lookup_2).
    pose proof (weight_le h Hin). pose proof (zcount_nonneg (conn_of h) picks).
    pose proof (zlen_nonneg picks). nia.
  - rewrite list_lookup_alter_ne, !list_lookup_fmap by done. destruct (hs !! i) as [g|] eqn:Eg; [|done].
    cbn. f_equal. rewrite zlen_app, zcount_app, zcount_one. change (zlen [conn_of h]) with 1.
    rewrite decide_False; [unfold load; f_equal; lia|]. intros E. apply Hne. eapply (NoDup_lookup (conn_of <$> hs)); [done| |];
      rewrite list_lookup_fmap, ?Hh, ?Eg; [done|]. cbn. by rewrite E.
Qed.

Lemma shared_snoc picks h :
  shared hs picks -> h ∈ hs -> 0 < load picks h -> shared hs (picks ++ [conn_of h]).
Proof using Hrest Hconn.
  intros [Hin Hsh] Hh Hload. split.
  - intros c [Hc| ->%list_elem_of_singleton]%elem_of_app; [by auto|]. by apply list_elem_of_fmap_2.
  - apply Forall_forall. intros g Hg. rewrite Forall_forall in Hsh. specialize (Hsh g Hg).
    pose proof (weight_le g Hg).
    rewrite zlen_app, zcount_app, zcount_one. unfold zlen at 2. cbn.
    case_decide as E; [|lia].
    assert (g = h) as ->; [|unfold load in Hload; lia].
    apply list_elem_of_lookup in Hg as [i Hi]. apply list_elem_of_lookup in Hh as [j Hj].
    assert (i = j) as <-; [|congruence].
    eapply (NoDup_lookup (conn_of <$> hs)); [done| |]; rewrite list_lookup_fmap, ?Hi, ?Hj; [done|].
    cbn. by rewrite E.
Qed.

Lemma weight_pick ip s rs picks :
  ups_heartbeats_active s = rs -> NoDup rs -> zlen rs < 2 ^ 31 -> zlen (ups_heartbeats s) <> 1 ->
  holds (cells s) rs (after hs picks) -> shared hs picks -> zlen picks < total_weight hs ->
  exists c h, weight_balancer ip s = (Ok (Some (conn_of h)), set_cells c s) /\
    shared hs (picks ++ [conn_of h]) /\ holds c rs (after hs (picks ++ [conn_of h])) /\
    (forall r, r ∉ rs -> c !! r = cells s !! r).
Proof using Hrest Hconn Hpos.
  intros Ha Hnd Hlen H1 Hh Hs Ht.
  destruct (weight_balancer_spec ip s rs (after hs picks)) as (c & b & g & E & Hg & Hb & Hc & Ho);
    try done.
  { intros ->. apply holds_len in Hh. unfold after in Hh. rewrite length_fmap in Hh.
    assert (hs = []) as E by (by destruct hs). unfold total_weight, zsum in Hpos.
    rewrite E in Hpos. cbn in Hpos. lia. }
  { unfold after. apply Forall_fmap. eapply Forall_impl; [exact Hrest|]. by intros ? (_ & _ & _ & ?). }
  unfold after in Hg. apply list_lookup_fmap_Some in Hg as (h & -> & Hh').
  rewrite gain_after in Hb by done. destruct Hb as (Hb0 & g & Hg & Hall).
  rewrite list_lookup_fmap, Hh' in Hg. injection Hg as <-.
  rewrite Forall_fmap in Hall. cbn in Hall.
  pose proof (heaviest_loaded picks h Hs Hall) as Hload.
  exists c, h. split; [exact E|]. split_and!; [|..|done].
  - apply shared_snoc; [done| |done]. by eapply list_elem_of_lookup_2.
  - rewrite total_of_after in Hc. by rewrite <- (weigh_after picks b h).
Qed.

Lemma weight_picks ip rs n : forall s picks,
  ups_heartbeats_active s = rs -> NoDup rs -> zlen rs < 2 ^ 31 -> zlen (ups_heartbeats s) <> 1 ->
  holds (cells s) rs (after hs picks) -> shared hs picks ->
  zlen picks + Z.of_nat n <= total_weight hs ->
  exists c more, calls n (weight_balancer ip) s = (Ok (Some <$> more), set_cells c s) /\
    length more = n /\ shared hs (picks ++ more) /\ holds c rs (after hs (picks ++ more)) /\
    (forall r, r ∉ rs -> c !! r = cells s !! r).
Proof using Hrest Hconn Hpos.
  induction n as [|n IH]; intros s picks Ha Hnd Hlen H1 Hh Hs Ht.
  { exists (cells s), []. rewrite app_nil_r. by destruct s. }
  destruct (weight_pick ip s rs picks) as (c & h & E & Hs' & Hc & Ho); try done; [lia|].
  destruct (IH (set_cells c s) (picks ++ [conn_of h])) as (c' & more & E' & Hl & Hs2 & Hc2 & Ho2);
    try done.
  { rewrite zlen_app. unfold zlen at 2. cbn. lia. }
  exists c', (conn_of h :: more). rewrite <- app_assoc in *. split; [|split_and!].
  - cbn [calls]. step by exact E. step by exact E'. done.
  - cbn. by rewrite Hl.
  - done.
  - done.
  - intros r Hr. rewrite Ho2 by done. by apply Ho.
Qed.

End fairness.

(** C26. Weighted round robin is fair: from servers at rest, as many calls as the
    weights add up to hand out every server exactly as often as its weight
    says, and leave every server as it was, so the next period is the same
    again. *)
Theorem weight_is_fair ip s rs hs :
  ups_heartbeats_active s = rs -> NoDup rs -> zlen rs < 2 ^ 31 -> zlen (ups_heartbeats s) <> 1 ->
  holds (cells s) rs hs -> Forall rested hs -> NoDup (conn_of <$> hs) ->
  0 < total_weight hs < 2 ^ 31 ->
  exists picks, calls (Z.to_nat (total_weight hs)) (weight_balancer ip) s = (Ok (Some <$> picks), s) /\
    zlen picks = total_weight hs /\
    Forall (fun h => zcount (conn_of h) picks = weight h) hs.
Proof.
  intros Ha Hnd Hlen H1 Hh Hrest Hconn Hpos.
  assert (after hs [] = hs) as H0.
  { unfold after. transitivity (id <$> hs); [|apply list_fmap_id]. apply list_fmap_ext.
    intros i h Hi. assert (rested h) as (_ & _ & Hc & _) by (by eapply Forall_lookup_1 in Hrest).
    unfold zlen, zcount, zsum. cbn. rewrite Z.mul_0_r, Z.sub_0_r. destruct h. cbn in *. by subst. }
  destruct (weight_picks hs Hrest Hconn Hpos ip rs (Z.to_nat (total_weight hs)) s [])
    as (c & picks & E & Hl & Hs & Hc & Ho); try done.
  { by rewrite H0. }
  { split; [by intros ? ?%elem_of_nil|]. apply Forall_forall. intros h Hin.
    unfold zcount, zsum, zlen. cbn. lia. }
  { unfold zlen. cbn. lia. }
  cbn [app] in *. assert (zlen picks = total_weight hs) as Hlp by (unfold zlen; lia).
  assert (Forall (fun h => zcount (conn_of h) picks = weight h) hs) as Hcount.
  { apply (zsum_tight (fun h => zcount (conn_of h) picks) weight).
    - eapply Forall_impl; [exact (sh_share _ _ Hs)|]. cbn. intros h. rewrite Hlp. nia.
    - rewrite (picks_total hs Hconn picks Hs). done. }
  exists picks. split; [|done]. rewrite E. f_equal. apply set_cells_same, map_eq. intros r. destruct (decide (r ∈ rs)) as [Hr|Hr]; [|by apply Ho].
  apply list_elem_of_lookup in Hr as [i Hi].
  destruct (holds_lookup _ _ _ _ _ Hh Hi) as (h & Hhi & ->).
  destruct (holds_lookup _ _ _ _ _ Hc Hi) as (h' & Hhi' & ->).
  unfold after in Hhi'. rewrite list_lookup_fmap, Hhi in Hhi'. injection Hhi' as <-.
  eapply Forall_lookup_1 in Hcount; [|exact Hhi]. cbn in Hcount. rewrite Hcount, Hlp.
  eapply Forall_lookup_1 in Hrest; [|exact Hhi]. destruct Hrest as (_ & _ & Hc0 & _).
  rewrite Z.sub_diag. f_equal. destruct h. cbn in *. by subst.
Qed.

(** ** Random choice

    The first server of a list that is not disabled. *)
Definition first_up (hs : list UpstreamHeartbeatData) : option UpstreamHeartbeatData :=
  List.find (fun h => negb (disable h)) hs.

Section scan.
Context (s : UpstreamData) (hs : list UpstreamHeartbeatData) (h0 : UpstreamHeartbeatData).
Hypothesis Hact : holds (cells s) (ups_heartbeats_active s) hs.
Hypothesis Hall : zlen (ups_heartbeats_active s) <= zlen (ups_heartbeats s) < 2 ^ 63.
Hypothesis Hfirst : get_connect_data (ups_heartbeats s) 0 s = (Ok (Some (conn_of h0)), s).

Lemma hs_len : zlen hs = zlen (ups_heartbeats_active s).
Proof using Hact. unfold zlen. by rewrite (holds_len _ _ _ Hact). Qed.

Lemma scan_up fuel i start h :
  0 <= i -> hs !! Z.to_nat i = Some h -> disable h = false ->
  random_loop (S fuel) i start s = (Ok (Some (conn_of h)), s).
Proof using Hact.
  intros Hi Hh Hd. destruct (Forall2_lookup_r _ _ _ _ _ Hact Hh) as (r & Hr & Hc).
  cbn [random_loop]. do 2 step. step by (unfold lift; by rewrite (proj2 (vget_ok _ i r))).
  step by (by apply cell_ok). by rewrite Hd.
Qed.

Lemma scan_down fuel i start h :
  0 <= i -> hs !! Z.to_nat i = Some h -> disable h = true ->
  random_loop (S fuel) i start s =
  let j := if i + 1 =? zlen (ups_heartbeats s) then 0 else i + 1 in
  if j =? start then (Ok (Some (conn_of h0)), s) else random_loop fuel j start s.
Proof using Hact Hall Hfirst.
  intros Hi Hh Hd. destruct (Forall2_lookup_r _ _ _ _ _ Hact Hh) as (r & Hr & Hc).
  assert (i < zlen (ups_heartbeats_active s)) by (apply lookup_lt_Some in Hr; unfold zlen; lia).
  cbn [random_loop]. do 2 step. step by (unfold lift; by rewrite (proj2 (vget_ok _ i r))).
  step by (by apply cell_ok). rewrite Hd. unwrap.
  step by (unfold lift; by rewrite zrem_ok by lia).
  assert ((i + 1) mod zlen (ups_heartbeats s) =
          if i + 1 =? zlen (ups_heartbeats s) then 0 else i + 1) as ->.
  { destruct (Z.eqb_spec (i + 1) (zlen (ups_heartbeats s))) as [->|].
    - apply Z.mod_same. lia.
    - apply Z.mod_small. lia. }
  cbn zeta. by case_match.
Qed.

(** The rest of the active list, from [i] up to [stop]. *)
Lemma scan fuel : forall i start (stop : Z),
  0 <= i <= stop -> stop <= zlen hs -> (start <= i \/ stop <= start) ->
  (Z.to_nat (stop - i) < fuel)%nat ->
  exists fuel', (Z.of_nat fuel' = Z.of_nat fuel - (stop - i)) /\
  random_loop fuel i start s =
  match first_up (take (Z.to_nat (stop - i)) (drop (Z.to_nat i) hs)) with
  | Some h => (Ok (Some (conn_of h)), s)
  | None => if i =? stop then random_loop fuel' i start s
            else let j := if stop =? zlen (ups_heartbeats s) then 0 else stop in
                 if j =? start then (Ok (Some (conn_of h0)), s) else random_loop fuel' j start s
  end.
Proof using Hact Hall Hfirst.
  induction fuel as [|fuel IH]; intros i start stop Hi Hstop Hst Hf; [lia|].
  destruct (Z.eqb_spec i stop) as [->|Hne].
  { exists (S fuel). split; [lia|]. by rewrite Z.sub_diag. }
  destruct (vget_in_range hs i) as (h & _ & Hh); [lia|].
  assert (Z.to_nat (stop - i) = S (Z.to_nat (stop - (i + 1)))) as -> by lia.
  rewrite (drop_S _ _ _ Hh). replace (S (Z.to_nat i)) with (Z.to_nat (i + 1)) by lia.
  unfold first_up. cbn [take List.find]. destruct (disable h) eqn:Hd; cbn [negb].
  - rewrite (scan_down fuel i start h) by (done || lia). cbn zeta.
    pose proof hs_len. destruct (Z.eqb_spec (i + 1) stop) as [<-|Hne'].
    + exists fuel. split; [lia|]. rewrite Z.sub_diag. cbn.
      by destruct (Z.eqb_spec i (i + 1)); [lia|].
    + destruct (Z.eqb_spec (i + 1) (zlen (ups_heartbeats s))); [lia|].
      destruct (Z.eqb_spec (i + 1) start); [lia|].
      destruct (IH (i + 1) start stop) as (fuel' & Hfuel & ->); try lia.
      exists fuel'. split; [lia|]. fold (first_up (take (Z.to_nat (stop - (i + 1))) (drop (Z.to_nat (i + 1)) hs))).
      case_match; [done|]. by destruct (Z.eqb_spec (i + 1) stop); [lia|].
  - exists (Z.to_nat (Z.of_nat (S fuel) - (stop - i))). split; [lia|].
    by apply scan_up; [lia|..].
Qed.
End scan.

(** Random choice gives the first server that is up from the position drawn,
    going round the active list, and the first configured one when all are
    down.  But it goes round by the number of configured servers: when some
    are out of the active list, and the servers from the position drawn to
    its end have just gone down, it runs past the end and panics. *)
Theorem random_spec rnd ip s hs h0 :
  let n := zlen (ups_heartbeats_active s) in
  0 < n <= zlen (ups_heartbeats s) -> zlen (ups_heartbeats s) < 2 ^ 63 -> 0 <= rnd ->
  holds (cells s) (ups_heartbeats_active s) hs ->
  get_connect_data (ups_heartbeats s) 0 s = (Ok (Some (conn_of h0)), s) ->
  let start := Z.to_nat (rnd mod n) in
  random rnd ip s =
  (match first_up (drop start hs) with
   | Some h => Ok (Some (conn_of h))
   | None =>
       if n <? zlen (ups_heartbeats s) then Panic
       else Ok (Some (conn_of (default h0 (first_up (take start hs)))))
   end, s).
Proof.
  cbn zeta. set (n := zlen (ups_heartbeats_active s)). set (m := zlen (ups_heartbeats s)).
  intros Hn Hm Hr Hact H0. pose proof (hs_len s hs Hact) as Hl. fold n in Hl.
  pose proof (Z.mod_pos_bound rnd n ltac:(lia)) as Hstart. set (i := rnd mod n) in *.
  unfold random. do 3 step. fold n. destruct (Z.leb_spec n 0); [lia|].
  step by (unfold lift; by rewrite zrem_ok by lia). fold i.
  assert (Z.of_nat (loop_fuel s) = m + 1) as Hfuel by (unfold loop_fuel, m, zlen; lia).
  destruct (scan s hs h0 Hact ltac:(fold n m; lia) H0 (loop_fuel s) i i n) as (fuel & Hf & ->); try lia.
  assert (take (Z.to_nat (n - i)) (drop (Z.to_nat i) hs) = drop (Z.to_nat i) hs) as ->.
  { apply take_ge. rewrite length_drop. unfold zlen in Hl. lia. }
  destruct (first_up (drop _ hs)) as [h|] eqn:E1; [done|].
  destruct (Z.eqb_spec i n); [lia|]. fold m. cbn zeta.
  destruct (Z.ltb_spec n m); destruct (Z.eqb_spec n m); try lia.
  - destruct (Z.eqb_spec n i); [lia|]. destruct fuel as [|fuel]; [lia|].
    cbn [random_loop]. do 2 step. fold n. unfold lift at 1, mbind, stm_bind.
    by rewrite vget_out by (fold n; lia).
  - destruct (Z.eqb_spec 0 i) as [<-|]; [by rewrite take_0|].
    destruct (scan s hs h0 Hact ltac:(fold n m; lia) H0 fuel 0 i i) as (fuel' & _ & ->); try lia.
    rewrite Z.sub_0_r, drop_0. destruct (first_up (take _ hs)); [done|]. cbv zeta.
    destruct (Z.eqb_spec 0 i); [lia|]. destruct (Z.eqb_spec i (zlen (ups_heartbeats s))); [unfold m in *; lia|].
    by rewrite Z.eqb_refl.
Qed.

(** ** Round robin *)

Lemma round_robin_up ip s hs h :
  let n := zlen (ups_heartbeats_active s) in
  let rr := wrap64 (round_robin_index s + 1) in
  0 < n -> holds (cells s) (ups_heartbeats_active s) hs ->
  hs !! Z.to_nat (rr mod n) = Some h -> disable h = false ->
  round_robin ip s = (Ok (Some (conn_of h)), set_rr rr s).
Proof.
  cbn zeta. set (n := zlen _). set (rr := wrap64 _). intros Hn Hact Hh Hd.
  pose proof (Z.mod_pos_bound rr n ltac:(lia)).
  destruct (Forall2_lookup_r _ _ _ _ _ Hact Hh) as (r & Hr & Hc).
  unfold round_robin. do 3 step. fold n. destruct (Z.leb_spec n 0); [lia|].
  do 2 step. fold rr. change (round_robin_index (set_rr rr s)) with rr.
  step by (unfold lift; by rewrite zrem_ok by lia).
  cbn [loop_fuel round_robin_loop]. do 2 step.
  change (ups_heartbeats_active (set_rr rr s)) with (ups_heartbeats_active s).
  step by (unfold lift; rewrite (proj2 (vget_ok _ _ r)); [done|by split; [lia|]]).
  step by (by apply cell_ok). by rewrite Hd.
Qed.

(** With every active server up, successive calls go through the active list
    in order, round and round: as many calls as there are servers hand out
    each exactly once. *)
Theorem round_robin_visits_all ip s hs :
  let n := zlen (ups_heartbeats_active s) in
  0 < n -> 0 <= round_robin_index s -> round_robin_index s + n < 2 ^ 64 ->
  holds (cells s) (ups_heartbeats_active s) hs -> Forall (fun h => disable h = false) hs ->
  calls (length hs) (round_robin ip) s =
    (Ok (Some <$> (rotate (Z.to_nat (round_robin_index s + 1)) (conn_of <$> hs))),
     set_rr (round_robin_index s + n) s) /\
  rotate (Z.to_nat (round_robin_index s + 1)) (conn_of <$> hs) ≡ₚ conn_of <$> hs.
Proof.
  cbn zeta. intros Hn Hr0 Hr Hact Hup. set (n := zlen (ups_heartbeats_active s)) in *.
  pose proof (hs_len s hs Hact) as Hl. fold n in Hl.
  assert (forall k s', Z.of_nat k <= n -> s' = set_rr (round_robin_index s + n - Z.of_nat k) s ->
    calls k (round_robin ip) s' =
    (Ok (Some <$> drop (length hs - k) (rotate (Z.to_nat (round_robin_index s + 1)) (conn_of <$> hs))),
     set_rr (round_robin_index s + n) s)) as Hgen.
  2:{ split.
      - rewrite (Hgen (length hs) s); [by rewrite Nat.sub_diag|unfold zlen in Hl; lia|].
        replace (_ - _) with (round_robin_index s) by (unfold zlen in Hl; lia). by destruct s.
      - unfold rotate. rewrite Permutation_app_comm. by rewrite take_drop. }
  induction k as [|k IH]; intros s' Hk ->.
  { cbn. rewrite drop_ge by (rewrite length_rotate, length_fmap; lia).
    by rewrite Z.sub_0_r. }
  set (rr := round_robin_index s + n - Z.of_nat (S k)).
  assert (wrap64 (rr + 1) = rr + 1) as Ew by (apply wrap_id; unfold in_width, rr; lia).
  pose proof (Z.mod_pos_bound (rr + 1) n ltac:(lia)) as Hm.
  destruct (vget_in_range hs ((rr + 1) mod n)) as (h & _ & Hh); [lia|].
  assert (rotate (Z.to_nat (round_robin_index s + 1)) (conn_of <$> hs) !! (length hs - S k)%nat =
          Some (conn_of h)) as Hx.
  { apply lookup_rotate_r_Some. rewrite length_fmap. unfold zlen in Hl. split; [|lia].
    rewrite list_lookup_fmap. unfold rotate_nat_add.

    replace (Z.to_nat _) with (Z.to_nat ((rr + 1) mod n)); [by rewrite Hh|].
    f_equal. rewrite <- Hl. f_equal. unfold rr, zlen in *. lia. }
  cbn [calls]. step by (apply (round_robin_up ip _ hs h); [exact Hn|exact Hact|cbn; fold n; by rewrite Ew|
    by eapply Forall_lookup_1 in Hup]).
  cbn [round_robin_index set_rr]. rewrite Ew.
  step by (apply IH; [lia|]; unfold set_rr, rr; cbn; f_equal; lia).
  rewrite (drop_S _ _ _ Hx). replace (S (length hs - S k)) with (length hs - k)%nat
    by (unfold zlen in Hl; lia). done.
Qed.

(** Round robin reads the active list at a position counted by the number of
    configured servers once it has met one that is down, and panics when that
    position lies past the active list. *)
Theorem round_robin_panics ip s hs h :
  let n := zlen (ups_heartbeats_active s) in
  let rr := round_robin_index s + 1 in
  0 < n < zlen (ups_heartbeats s) -> 0 <= rr < 2 ^ 64 - 1 ->
  holds (cells s) (ups_heartbeats_active s) hs ->
  hs !! Z.to_nat (rr mod n) = Some h -> disable h = true ->
  n <= (rr + 1) mod zlen (ups_heartbeats s) ->
  round_robin ip s = (Panic, set_rr (rr + 1) s).
Proof.
  cbn zeta. set (n := zlen (ups_heartbeats_active s)). set (rr := round_robin_index s + 1).
  intros Hn Hr Hact Hh Hd Hpast. pose proof (Z.mod_pos_bound rr n ltac:(lia)).
  destruct (Forall2_lookup_r _ _ _ _ _ Hact Hh) as (r & Er & Ec).
  assert (exists fuel, loop_fuel s = S (S fuel)) as (fuel & Hf).
  { unfold loop_fuel, zlen in *. exists (pred (length (ups_heartbeats s))). lia. }
  unfold round_robin. do 3 step. fold n. destruct (Z.leb_spec n 0); [lia|].
  do 2 step. cbn [round_robin_index set_rr]. fold rr. rewrite (wrap_id 64 rr) by (unfold in_width; lia).
  step by (unfold lift; by rewrite zrem_ok by lia).
  rewrite Hf. cbn [round_robin_loop]. do 2 step.
  change (ups_heartbeats_active (set_rr rr s)) with (ups_heartbeats_active s).
  change (ups_heartbeats (set_rr rr s)) with (ups_heartbeats s).
  step by (unfold lift; rewrite (proj2 (vget_ok _ _ r)); [done|by split; [lia|]]).
  step by (by apply cell_ok). rewrite Hd. do 2 step. cbn [round_robin_index set_rr].
  rewrite (wrap_id 64 (rr + 1)) by (unfold in_width; lia).
  step by (unfold lift; by rewrite zrem_ok by lia).
  destruct (Z.eqb_spec ((rr + 1) mod zlen (ups_heartbeats s)) (rr mod n)); [lia|].
  do 2 step. cbn [ups_heartbeats_active set_rr]. unfold lift at 1, mbind, stm_bind.
  by rewrite vget_out by (fold n; lia).
Qed.

(** ** Examples *)

(** Server [i] with its weight, up or down. *)
Definition demo (i w : Z) (down : bool) : UpstreamHeartbeatData :=
  mkServer 0 i None (show_u i) i 0 down None 0 0 0 w w 0.

(** The servers [hs], of which the first [n] are active. *)
Definition demo_ups (hs : list UpstreamHeartbeatData) (n : nat) : UpstreamData :=
  let rs := seqZ 0 (zlen hs) in
  mkUps (list_to_map (zip rs hs)) (zlen hs) false false false "weight" [] rs (take n rs) ∅ 0 0 [] [].

Definition demo_weights : list UpstreamHeartbeatData :=
  [demo 0 5 false; demo 1 1 false; demo 2 1 false].

Lemma weight_is_fair_witness :
  exists picks, calls 7 (weight_balancer "") (demo_ups demo_weights 3) =
    (Ok (Some <$> picks), demo_ups demo_weights 3) /\ zlen picks = 7 /\
    Forall (fun h => zcount (conn_of h) picks = weight h) demo_weights.
Proof.
  apply (weight_is_fair "" (demo_ups demo_weights 3) [0; 1; 2] demo_weights).
  - done.
  - by apply (bool_decide_eq_true_1 _).
  - done.
  - done.
  - repeat constructor.
  - repeat constructor; done.
  - by apply (bool_decide_eq_true_1 _).
  - done.
Defined.

(** The order is the interleaved one: a heavy server is not used up first. *)
Example weight_order :
  (calls 7 (weight_balancer "") (demo_ups demo_weights 3)).1 =
  Ok ((fun i => Some (None, false, i)) <$> [0; 0; 1; 0; 2; 0; 0]).
Proof. vm_compute. reflexivity. Qed.

Lemma round_robin_visits_all_witness :
  calls 3 (round_robin "") (demo_ups demo_weights 3) =
    (Ok (Some <$> rotate 1 (conn_of <$> demo_weights)), set_rr 3 (demo_ups demo_weights 3)) /\
  rotate 1 (conn_of <$> demo_weights) ≡ₚ conn_of <$> demo_weights.
Proof.
  apply (round_robin_visits_all "" (demo_ups demo_weights 3) demo_weights); try done;
    repeat constructor.
Defined.

(** Three servers, of which the second went down since the active list was
    made without the third. *)
Definition demo_down : UpstreamData := demo_ups [demo 0 1 false; demo 1 1 true; demo 2 1 true] 2.

Lemma round_robin_panics_witness :
  round_robin "" demo_down = (Panic, set_rr 2 demo_down).
Proof.
  apply (round_robin_panics "" demo_down [demo 0 1 false; demo 1 1 true] (demo 1 1 true));
    try done; repeat constructor.
Defined.

Lemma random_spec_witness : random 1 "" demo_down = (Panic, demo_down).
Proof.
  exact (random_spec 1 "" demo_down [demo 0 1 false; demo 1 1 true] (demo 0 1 false)
    ltac:(done) ltac:(done) ltac:(done) ltac:(repeat constructor) ltac:(reflexivity)).
Defined.
