(* ===== verification/UpstreamServer.v ===== *)
(** What the heartbeats and the reconciliation of [Upstream] guarantee. *)
From stdpp Require Import sorting.
From S2P Require Import Prelude RustStd Upstream.
#[local] Open Scope string_scope.
#[local] Open Scope list_scope.
#[local] Open Scope Z_scope.

(** ** Heartbeats *)

(** The heartbeats of a server, one result after the other. *)
Fixpoint heartbeats (r fail : Z) (rets : list (option Z)) : stm UpstreamData unit :=
  match rets with
  | [] => done_
  | ret :: rets => _ ← heartbeat_turn r fail ret; heartbeats r fail rets
  end.

Definition failures (rets : list (option Z)) : Z :=
  zsum ((fun ret => match ret with Some _ => 0 | None => 1 end) <$> rets).

Lemma failures_bound rets : 0 <= failures rets <= zlen rets.
Proof.
  unfold failures, zsum, zlen. induction rets as [|[] rets IH]; cbn [length fmap list_fmap foldr] in *; lia.
Qed.

(** No counter of the server wraps within [n] more heartbeats. *)
Definition countable (h : UpstreamHeartbeatData) (n : Z) : Prop :=
  0 <= curr_fail h /\ curr_fail h + n < 2 ^ 63 /\ 0 <= count_elapsed h /\ count_elapsed h + n < 2 ^ 64.

Lemma cell_at r s h : cells s !! r = Some h -> cell r s = (Ok h, s).
Proof. unfold cell. by intros ->. Qed.

Lemma heartbeat_ok_spec r e s h n :
  cells s !! r = Some h -> countable h n -> 0 < n ->
  exists s' h', heartbeat_ok r e s = (Ok tt, s') /\ cells s' !! r = Some h' /\
    disable h' = false /\ curr_fail h' = (if disable h then 0 else curr_fail h) /\
    is_heartbeat_change s' = disable h || is_heartbeat_change s /\ countable h' (n - 1).
Proof.
  intros Hr (? & ? & ? & ?) Hn. unfold heartbeat_ok.
  step by (by apply cell_at). cbn [count_elapsed total_elapsed set_count set_total]. unwrap.
  step by (unfold lift; by rewrite zdiv_ok by lia).
  do 2 step. step by (apply cell_at; cbn; apply lookup_insert_eq). cbn [disable set_avg set_count set_total].
  destruct (disable h) eqn:Ed.
  - eexists _, _. split; [step; reflexivity|]. cbn. rewrite lookup_insert_eq. split; [reflexivity|].
    unfold countable. cbn. split_and!; try done; lia.
  - eexists _, _. split; [reflexivity|]. cbn. rewrite lookup_insert_eq. split; [reflexivity|].
    unfold countable. cbn. rewrite Ed. split_and!; try done; lia.
Qed.

Lemma heartbeat_err_spec r fail s h n :
  cells s !! r = Some h -> countable h n -> 0 < n ->
  exists s' h', heartbeat_err r fail s = (Ok tt, s') /\ cells s' !! r = Some h' /\
    curr_fail h' = curr_fail h + 1 /\ disable h' = (fail <? curr_fail h + 1) || disable h /\
    is_heartbeat_change s' =
      ((fail <? curr_fail h + 1) && negb (disable h)) || is_heartbeat_change s /\
    countable h' (n - 1).
Proof.
  intros Hr (? & ? & ? & ?) Hn. unfold heartbeat_err.
  step by (by apply cell_at). cbn [curr_fail set_fail weight]. unwrap. rewrite (swrap64_id (curr_fail h + 1)) by lia.
  destruct (Z.eqb_spec (curr_fail h + 1) 0); [lia|]. step.
  change (curr_fail (set_effective _ _)) with (curr_fail h + 1).
  change (disable (set_effective _ _)) with (disable h).
  destruct (Z.ltb_spec fail (curr_fail h + 1)), (disable h) eqn:Ed; cbn [andb orb negb];
    (eexists _, _; split; [first [reflexivity | step; reflexivity]|]);
    cbn; rewrite lookup_insert_eq; (split; [reflexivity|]); cbn; rewrite ?Ed;
    (split_and!; try done; unfold countable; cbn; split_and!; lia).
Qed.

Lemma heartbeats_up r fail rets : forall s h n,
  cells s !! r = Some h -> disable h = false -> countable h n -> zlen rets <= n ->
  curr_fail h + failures rets <= fail ->
  exists s' h', heartbeats r fail rets s = (Ok tt, s') /\ cells s' !! r = Some h' /\
    disable h' = false /\ curr_fail h' = curr_fail h + failures rets /\
    is_heartbeat_change s' = is_heartbeat_change s /\ countable h' (n - zlen rets).
Proof.
  induction rets as [|ret rets IH]; intros s h n Hr Hd Hc Hn Hf.
  { exists s, h. unfold failures, zsum, zlen. cbn. rewrite Z.add_0_r, Z.sub_0_r. by split_and!. }
  pose proof (failures_bound rets). change (zlen (ret :: rets)) with (zlen ([ret] ++ rets)) in *.
  rewrite zlen_app in *. change (zlen [ret]) with 1 in *. pose proof (zlen_nonneg rets).
  replace (n - (1 + zlen rets)) with (n - 1 - zlen rets) by lia.
  destruct ret as [e|].
  - change (failures (Some e :: rets)) with (failures rets) in *.
    destruct (heartbeat_ok_spec r e s h n) as (s1 & h1 & E & Hr1 & Hd1 & Hf1 & Hch & Hc1); try done; [lia|].
    rewrite Hd in *. destruct (IH s1 h1 (n - 1)) as (s2 & h2 & E2 & ?); try done; [lia|lia|].
    exists s2, h2. cbn [heartbeats heartbeat_turn]. split; [by step by exact E|].
    rewrite <- Hf1. cbn in Hch. by rewrite <- Hch.
  - change (failures (None :: rets)) with (1 + failures rets) in *.
    destruct (heartbeat_err_spec r fail s h n) as (s1 & h1 & E & Hr1 & Hf1 & Hd1 & Hch & Hc1); try done; [lia|].
    rewrite Hd in *. destruct (Z.ltb_spec fail (curr_fail h + 1)); [lia|]. cbn in Hd1, Hch.
    destruct (IH s1 h1 (n - 1)) as (s2 & h2 & E2 & ? & ? & ? & ? & ?); try done; [lia|lia|].
    exists s2, h2. cbn [heartbeats heartbeat_turn]. split; [by step by exact E|].
    split_and!; try done; [lia|congruence].
Qed.

Lemma heartbeats_down r fail k : forall s h n,
  cells s !! r = Some h -> disable h = true -> countable h n -> Z.of_nat k <= n ->
  exists s' h', heartbeats r fail (replicate k None) s = (Ok tt, s') /\ cells s' !! r = Some h' /\
    disable h' = true /\ is_heartbeat_change s' = is_heartbeat_change s /\
    countable h' (n - Z.of_nat k).
Proof.
  induction k as [|k IH]; intros s h n Hr Hd Hc Hn.
  { exists s, h. cbn. rewrite Z.sub_0_r. by split_and!. }
  destruct (heartbeat_err_spec r fail s h n) as (s1 & h1 & E & Hr1 & Hf1 & Hd1 & Hch & Hc1); try done; [lia|].
  rewrite Hd in *. rewrite orb_true_r in Hd1. rewrite andb_false_r in Hch. cbn in Hch.
  destruct (IH s1 h1 (n - 1)) as (s2 & h2 & E2 & ? & ? & ? & ?); try done; [lia|].
  exists s2, h2. cbn [heartbeats replicate heartbeat_turn]. split; [by step by exact E|].
  split_and!; try done; [congruence|]. by replace (n - Z.of_nat (S k)) with (n - 1 - Z.of_nat k) by lia.
Qed.

(** The life of a server: it stays in use through [fail] failures, however
    many successes lie between them; one more takes it out and asks for the
    active list to be made again; it stays out until a heartbeat succeeds,
    which brings it back with a clean count. *)
Theorem server_cycle r fail pre k e post s h :
  cells s !! r = Some h -> disable h = false -> curr_fail h = 0 ->
  countable h (zlen pre + Z.of_nat k + zlen post + 2) ->
  failures pre = fail -> failures post <= fail ->
  exists s1 h1 s2 h2 s3 h3,
    (heartbeats r fail pre s = (Ok tt, s1) /\ cells s1 !! r = Some h1 /\ disable h1 = false) /\
    (heartbeats r fail (replicate (S k) None) s1 = (Ok tt, s2) /\ cells s2 !! r = Some h2 /\
     disable h2 = true /\ is_heartbeat_change s2 = true) /\
    (heartbeats r fail (Some e :: post) s2 = (Ok tt, s3) /\ cells s3 !! r = Some h3 /\
     disable h3 = false /\ curr_fail h3 = failures post /\ is_heartbeat_change s3 = true).
Proof.
  intros Hr Hd Hf0 Hc Hpre Hpost. pose proof (zlen_nonneg pre). pose proof (zlen_nonneg post).
  destruct (heartbeats_up r fail pre s h _ Hr Hd Hc) as (s1 & h1 & E1 & Hr1 & Hd1 & Hf1 & _ & Hc1); [lia|lia|].
  destruct (heartbeat_err_spec r fail s1 h1 _ Hr1 Hc1) as (s2 & h2 & E2 & Hr2 & _ & Hd2 & Hch2 & Hc2); [lia|].
  rewrite Hd1 in *. destruct (Z.ltb_spec fail (curr_fail h1 + 1)); [|lia]. cbn in Hd2, Hch2.
  destruct (heartbeats_down r fail k s2 h2 _ Hr2 Hd2 Hc2) as (s3 & h3 & E3 & Hr3 & Hd3 & Hch3 & Hc3); [lia|].
  destruct (heartbeat_ok_spec r e s3 h3 _ Hr3 Hc3) as (s4 & h4 & E4 & Hr4 & Hd4 & Hf4 & Hch4 & Hc4); [lia|].
  rewrite Hd3 in *.
  destruct (heartbeats_up r fail post s4 h4 _ Hr4 Hd4 Hc4) as (s5 & h5 & E5 & Hr5 & Hd5 & Hf5 & Hch5 & _); [lia|lia|].
  exists s1, h1, s3, h3, s5, h5. split_and!; try done.
  - cbn [heartbeats replicate heartbeat_turn]. by step by exact E2.
  - congruence.
  - cbn [heartbeats heartbeat_turn]. by step by exact E4.
  - lia.
  - rewrite Hch5, Hch4. done.
Qed.

(** ** Sorting *)

Section sort.
Context {A : Type} (le : A -> A -> bool).
Hypothesis le_total : forall x y, le x y = false -> le y x = true.
Hypothesis le_trans : forall x y z, le x y = true -> le y z = true -> le x z = true.

Lemma insert_by_perm x l : insert_by le x l ≡ₚ x :: l.
Proof using.
  clear. induction l as [|y l IH]; [done|]. cbn. destruct (le x y); [done|]. rewrite IH. constructor.
Qed.

Lemma sort_by_perm l : sort_by le l ≡ₚ l.
Proof using.
  clear le_total le_trans. induction l as [|x l IH]; [done|]. cbn. by rewrite insert_by_perm, IH.
Qed.

Lemma insert_by_sorted x l :
  StronglySorted (fun a b => le a b = true) l -> StronglySorted (fun a b => le a b = true) (insert_by le x l).
Proof using le_total le_trans.
  induction 1 as [|y l Hl IH Hy]; cbn; [by repeat constructor|].
  destruct (le x y) eqn:E.
  - constructor; [by constructor|]. constructor; [done|].
    eapply Forall_impl; [exact Hy|]. cbn. intros z. by apply le_trans.
  - constructor; [done|]. rewrite insert_by_perm. constructor; [by apply le_total|done].
Qed.

Lemma sort_by_sorted l : StronglySorted (fun a b => le a b = true) (sort_by le l).
Proof using le_total le_trans.
  induction l as [|x l IH]; cbn; [constructor|]. by apply insert_by_sorted.
Qed.
End sort.

(** ** The lists of servers

    [ps] are the servers with their references, in the order of the list. *)
Definition server : Type := Z * UpstreamHeartbeatData.
Definition key_of (p : server) : string := server_key p.2.

Record ups_wf (s : UpstreamData) (ps : list server) : Prop := {
  uw_list : ups_heartbeats s = ps.*1;
  uw_cells : Forall (fun p => cells s !! p.1 = Some p.2) ps;
  uw_refs : NoDup ps.*1;
  uw_fresh : forall r h, cells s !! r = Some h -> r < next_cell s;
  uw_map : forall i r, ups_heartbeats_map s !! i = Some r <-> exists h, (r, h) ∈ ps /\ index h = i;
  uw_keys : NoDup ((fun p => index p.2) <$> ps);
  uw_index : Forall (fun p => index p.2 < ups_heartbeats_index s) ps;
  uw_next : 0 <= ups_heartbeats_index s
}.

(** [heartbeat] of a domain makes a fresh server for the address. *)
Definition builds (d : UpstreamDynamicDomainData) : Prop :=
  forall i a, exists h, make d (d_index d) i a = Ok h /\
    domain_index h = d_index d /\ index h = i /\ addr h = a /\ disable h = false.

Lemma tcp_builds conf connector probe tcp hb is_weight d l :
  (forall a, probe a = Ok tt) -> (is_weight = true -> pp_weight tcp <> None) ->
  builds (mkDomain d (tcp_heartbeat (Some conf) connector probe tcp hb is_weight) l).
Proof.
  intros Hp Hw i a. unfold tcp_heartbeat. cbn.
  assert (is_weight && bool_decide (pp_weight tcp = None) = false) as ->.
  { destruct is_weight; [|done]. cbn. apply bool_decide_eq_false. by apply Hw. }
  rewrite Hp. destruct (match pp_heartbeat tcp with Some _ => _ | None => _ end) as [h|];
    [destruct (http h)|]; cbn; by eexists.
Qed.

(** ** Taking servers out *)

Section live.
Context (live : list string).

Definition kept (ps : list server) : list server := base.filter (fun p => key_of p ∈ live) ps.
Definition gone (ps : list server) : list server := base.filter (fun p => ~ key_of p ∈ live) ps.

(** The positions of the stale servers, from [i] on. *)
Fixpoint stale (ps : list server) (i : Z) : list Z :=
  match ps with
  | [] => []
  | p :: ps => if decide (key_of p ∈ live) then stale ps (i + 1) else i :: stale ps (i + 1)
  end.

Lemma del_indexs_spec s ps : forall i,
  Forall (fun p => cells s !! p.1 = Some p.2) ps ->
  del_indexs (list_to_set live) ps.*1 i s = (Ok (stale ps i), s).
Proof.
  induction ps as [|[r h] ps IH]; intros i Hc; [done|].
  apply Forall_cons in Hc as [Hr Hc]. cbn [fmap list_fmap del_indexs stale fst].
  step by (by apply cell_at). step by (by apply IH). change (key_of (r, h)) with (server_key h).
  unfold mret, stm_ret. do 2 f_equal.
  destruct (decide (server_key h ∈ live)) as [Hin|Hin].
  - by rewrite decide_True by (by apply elem_of_list_to_set).
  - by rewrite decide_False by (by rewrite elem_of_list_to_set).
Qed.

Definition forget (m : gmap Z Z) (ps : list server) : gmap Z Z :=
  foldr (fun p => delete (index p.2)) m ps.

(** The list of servers after the stale ones past [pre] were removed. *)
Definition without (s : UpstreamData) (pre : list Z) (ps : list server) : UpstreamData :=
  set_shutdowns (shutdowns s ++ reverse (gone ps).*1)
    (set_hmap (forget (ups_heartbeats_map s) (gone ps)) (set_heartbeats (pre ++ (kept ps).*1) s)).

Lemma del_heartbeat_spec s pre r h rest :
  ups_heartbeats s = pre ++ r :: rest -> cells s !! r = Some h ->
  del_heartbeat (zlen pre) s =
  (Ok tt, set_shutdowns (shutdowns s ++ [r])
            (set_hmap (delete (index h) (ups_heartbeats_map s)) (set_heartbeats (pre ++ rest) s))).
Proof.
  intros Hl Hr. unfold del_heartbeat. step. rewrite Hl.
  step by (unfold lift, vremove; rewrite (proj2 (vget_ok _ _ r));
           [reflexivity|split; [apply zlen_nonneg|unfold zlen; rewrite Nat2Z.id; by apply list_lookup_middle]]).
  step. step by (by apply cell_at).
  unfold modify. cbn [shutdowns set_heartbeats ups_heartbeats_map]. do 4 f_equal.
  unfold zlen. rewrite Nat2Z.id, take_app_length. f_equal.
  replace (S (length pre)) with (length (pre ++ [r])) by (rewrite length_app; cbn; lia).
  by rewrite (cons_middle r pre rest), app_assoc, drop_app_length.
Qed.

Lemma del_loop_spec ps : forall pre s,
  ups_heartbeats s = pre ++ ps.*1 -> Forall (fun p => cells s !! p.1 = Some p.2) ps ->
  del_loop (stale ps (zlen pre)) s = (Ok tt, without s pre ps).
Proof.
  induction ps as [|[r h] ps IH]; intros pre s Hl Hc.
  { cbn. unfold without, done_. cbn. rewrite !app_nil_r. cbn in Hl. rewrite app_nil_r in Hl.
    rewrite <- Hl. by destruct s. }
  apply Forall_cons in Hc as [Hr Hc]. cbn [stale fmap list_fmap fst] in *.
  assert (zlen pre + 1 = zlen (pre ++ [r])) as -> by (by rewrite zlen_app).
  assert (ups_heartbeats s = (pre ++ [r]) ++ ps.*1) as Hl' by (by rewrite <- app_assoc).
  specialize (IH (pre ++ [r]) s Hl' Hc). unfold without, kept, gone in *.
  rewrite !filter_cons. destruct (decide (key_of (r, h) ∈ live)) as [Hin|Hin].
  - rewrite IH. rewrite (decide_False (P := ~ _)) by (by intros ?). cbn [fmap list_fmap fst].
    by rewrite <- app_assoc.
  - rewrite (decide_True (P := ~ _)) by done. cbn [del_loop]. step by exact IH.
    erewrite del_heartbeat_spec; [|by cbn; rewrite <- app_assoc|done].
    cbn [fmap list_fmap fst]. rewrite reverse_cons, app_assoc. reflexivity.
Qed.

Lemma forget_lookup m ps i r :
  forget m ps !! i = Some r <-> m !! i = Some r /\ Forall (fun p => index p.2 <> i) ps.
Proof.
  induction ps as [|p ps IH]; cbn [forget foldr]; [by rewrite Forall_nil; split; [|intros []]|].
  fold (forget m ps). rewrite lookup_delete_Some, IH, Forall_cons. split; intros (? & ? & ?); by repeat split.
Qed.

Lemma Forall_kept (P : server -> Prop) ps : Forall P ps -> Forall P (kept ps).
Proof.
  rewrite !Forall_forall. intros H p [_ Hp]%list_elem_of_filter. by apply H.
Qed.

Lemma without_wf s ps : ups_wf s ps -> ups_wf (without s [] ps) (kept ps).
Proof.
  intros [Hl Hc Hr Hf Hm Hk Hi H0]. unfold kept, gone. split; cbn.
  - done.
  - by apply Forall_kept.
  - eapply sublist_NoDup; [exact Hr|]. apply fmap_sublist, sublist_filter.
  - exact Hf.
  - intros i r. rewrite forget_lookup, Hm, Forall_forall. setoid_rewrite list_elem_of_filter. split.
    + intros [(h & Hin & Hh) Hout]. exists h. split; [split; [|done]|done].
      destruct (decide (key_of (r, h) ∈ live)); [done|]. exfalso. by apply (Hout (r, h)).
    + intros (h & [Hlive Hin] & Hh). split; [by exists h|]. intros [r' h'] [Hdead Hin'] Hh'. cbn in Hh'.
      apply Hdead. assert ((r', h') = (r, h)) as ->; [|done].
      apply list_elem_of_lookup in Hin as [j Hj]. apply list_elem_of_lookup in Hin' as [j' Hj'].
      assert (j = j') as <-; [|congruence].
      eapply (NoDup_lookup ((fun p => index p.2) <$> ps)); [done| |];
        rewrite list_lookup_fmap, ?Hj, ?Hj'; [done|]. cbn. by rewrite Hh, Hh'.
  - eapply sublist_NoDup; [exact Hk|]. apply fmap_sublist, sublist_filter.
  - by apply Forall_kept.
  - done.
Qed.
End live.

(** ** Putting servers in *)

Lemma heartbeat_keys_spec s ps :
  Forall (fun p => cells s !! p.1 = Some p.2) ps ->
  heartbeat_keys ps.*1 s = (Ok (list_to_set (key_of <$> ps)), s).
Proof.
  induction 1 as [|[r h] ps Hr Hc IH]; [done|]. cbn [fmap list_fmap heartbeat_keys fst].
  step by (by apply cell_at). step by exact IH. done.
Qed.

(** What putting servers in leaves alone. *)
Definition rest (s : UpstreamData) : bool * bool * string * list Z :=
  (is_heartbeat_change s, is_dynamic_domain_change s, balancer s, shutdowns s).

Definition fresh_up (p : server) : Prop := disable p.2 = false.

(** A new server in the lists, under the next index. *)
Definition put_in (h : UpstreamHeartbeatData) (s : UpstreamData) : UpstreamData :=
  set_next_cell (next_cell s + 1) (set_heartbeats (ups_heartbeats s ++ [next_cell s])
    (set_hmap (<[ups_heartbeats_index s := next_cell s]> (ups_heartbeats_map s))
    (set_hindex (ups_heartbeats_index s + 1) (set_cells (<[next_cell s := h]> (cells s)) s)))).

Lemma put_in_wf h s ps :
  ups_wf s ps -> index h = ups_heartbeats_index s -> ups_wf (put_in h s) (ps ++ [(next_cell s, h)]).
Proof.
  intros [Hl Hc Hr Hf Hm Hk Hi H0] Hix. set (r := next_cell s).
  assert (r ∉ ps.*1) as Hnew.
  { intros ([r' h'] & Er & Hin)%list_elem_of_fmap. cbn in Er. subst r'.
    rewrite Forall_forall in Hc. specialize (Hc _ Hin). cbn in Hc. specialize (Hf _ _ Hc). lia. }
  split; cbn; fold r.
  - by rewrite fmap_app, Hl.
  - apply Forall_app. split; [|constructor; [cbn; apply lookup_insert_eq|constructor]].
    apply Forall_forall. intros [r' h'] Hin. cbn.
    rewrite lookup_insert_ne; [by rewrite Forall_forall in Hc; apply (Hc _ Hin)|].
    intros <-. apply Hnew. by apply (list_elem_of_fmap_2 fst) in Hin.
  - rewrite fmap_app. apply NoDup_app. split_and!; [done| |by apply NoDup_singleton].
    intros x Hx ->%list_elem_of_singleton. by apply Hnew.
  - intros r' h' [[<- _]|[_ Hr']]%lookup_insert_Some; [lia|]. specialize (Hf _ _ Hr'). lia.
  - intros i r'. rewrite lookup_insert_Some, Hm. setoid_rewrite elem_of_app.
    setoid_rewrite list_elem_of_singleton. split.
    + intros [[<- <-]|[Hne (h' & Hin & E)]]; [exists h|exists h']; (split; [|done]); [by right|by left].
    + intros (h' & [Hin|[= -> ->]] & E); [right|left; split; congruence].
      split; [|by eauto]. intros <-. rewrite Forall_forall in Hi. specialize (Hi _ Hin). cbn in Hi. lia.
  - rewrite fmap_app. apply NoDup_app. split_and!; [done| |by apply NoDup_singleton].
    intros x ([r' h'] & -> & Hin)%list_elem_of_fmap Hx. cbn in Hx. apply list_elem_of_singleton in Hx.
    rewrite Forall_forall in Hi. specialize (Hi _ Hin). cbn in Hi. lia.
  - apply Forall_app. split; [eapply Forall_impl; [exact Hi|]; cbn; lia|].
    constructor; [cbn; lia|constructor].
  - lia.
Qed.

Lemma add_heartbeat_spec d a s ps :
  builds d -> ups_wf s ps -> ups_heartbeats_index s < 2 ^ 64 - 1 ->
  exists s' p, add_heartbeat d a s = (Ok tt, s') /\ ups_wf s' (ps ++ [p]) /\ rest s' = rest s /\
    fresh_up p /\ key_of p = addr_key (d_index d) a /\
    ups_heartbeats_index s' = ups_heartbeats_index s + 1.
Proof.
  intros Hb Hwf Hn. pose proof (uw_next _ _ Hwf) as H0.
  destruct (Hb (ups_heartbeats_index s) a) as (h & Eh & Hd & Hix & Ha & Hup).
  pose proof (put_in_wf h s ps Hwf Hix) as Hwf'.
  assert (exists s', add_heartbeat d a s = (Ok tt, s') /\ ups_wf s' (ps ++ [(next_cell s, h)]) /\
    rest s' = rest s /\ ups_heartbeats_index s' = ups_heartbeats_index s + 1) as (s' & E & ? & ? & ?).
  { unfold add_heartbeat. step. step by (unfold lift; by rewrite Eh). do 3 step.
    cbn [ups_heartbeats set_cells ups_heartbeats_map ups_heartbeats_index]. unwrap. fold (put_in h s).
    destruct (heartbeat h); (eexists; split; [reflexivity|]); [|done].
    split; [|done]. destruct Hwf'. by split. }
  exists s', (next_cell s, h). split_and!; try done. unfold key_of, server_key. cbn. by rewrite Hd, Ha.
Qed.

Lemma add_addrs_spec known d l : forall s ps,
  builds d -> ups_wf s ps -> ups_heartbeats_index s + zlen l < 2 ^ 64 ->
  exists s' new, add_addrs known d l s = (Ok tt, s') /\ ups_wf s' (ps ++ new) /\ rest s' = rest s /\
    Forall fresh_up new /\ key_of <$> new = base.filter (fun k => ~ k ∈ known) (addr_key (d_index d) <$> l) /\
    ups_heartbeats_index s' <= ups_heartbeats_index s + zlen l.
Proof.
  induction l as [|a l IH]; intros s ps Hb Hwf Hn.
  { exists s, []. rewrite app_nil_r. unfold zlen. cbn. split_and!; first [done|constructor|lia]. }
  change (zlen (a :: l)) with (zlen ([a] ++ l)) in *. rewrite zlen_app in *.
  change (zlen [a]) with 1 in *. pose proof (zlen_nonneg l).
  cbn [add_addrs fmap list_fmap]. rewrite filter_cons.
  destruct (decide (addr_key (d_index d) a ∈ known)) as [Hin|Hin].
  - rewrite (decide_False (P := ~ _)) by (by intros ?). step.
    destruct (IH s ps) as (s' & new & E & ? & ? & ? & ? & ?); try done; [lia|].
    exists s', new. split_and!; try done. lia.
  - rewrite (decide_True (P := ~ _)) by done.
    destruct (add_heartbeat_spec d a s ps) as (s1 & p & E1 & Hwf1 & Hr1 & Hup & Hk & Hi); try done; [lia|].
    destruct (IH s1 (ps ++ [p])) as (s' & new & E & Hwf' & Hr' & Hups & Hks & Hi'); try done; [lia|].
    exists s', (p :: new). step by exact E1. rewrite <- app_assoc in Hwf'. split_and!; try done.
    + congruence.
    + by constructor.
    + cbn. by rewrite Hk, Hks.
    + lia.
Qed.

Lemma add_domains_spec known ds : forall s ps,
  Forall builds ds -> ups_wf s ps -> ups_heartbeats_index s + zlen (domain_keys ds) < 2 ^ 64 ->
  exists s' new, add_domains known ds s = (Ok tt, s') /\ ups_wf s' (ps ++ new) /\ rest s' = rest s /\
    Forall fresh_up new /\ key_of <$> new = base.filter (fun k => ~ k ∈ known) (domain_keys ds).
Proof.
  induction ds as [|d ds IH]; intros s ps Hb Hwf Hn.
  { exists s, []. by rewrite app_nil_r. }
  apply Forall_cons in Hb as [Hd Hb]. unfold domain_keys in *. cbn [fmap list_fmap concat] in *.
  rewrite zlen_app in Hn. pose proof (zlen_nonneg (concat ((fun d => addr_key (d_index d) <$> addrs d) <$> ds))).
  assert (zlen (addr_key (d_index d) <$> addrs d) = zlen (addrs d)) as El
    by (unfold zlen; by rewrite length_fmap).
  destruct (add_addrs_spec known d (addrs d) s ps) as (s1 & new1 & E1 & Hwf1 & Hr1 & Hu1 & Hk1 & Hi1);
    try done; [lia|].
  destruct (IH s1 (ps ++ new1)) as (s2 & new2 & E2 & Hwf2 & Hr2 & Hu2 & Hk2); try done; [lia|].
  exists s2, (new1 ++ new2). cbn [add_domains]. step by exact E1. rewrite <- app_assoc in Hwf2.
  split_and!; try done.
  - congruence.
  - by apply Forall_app.
  - by rewrite fmap_app, filter_app, Hk1, Hk2.
Qed.

(** ** The whole turn *)

Lemma enabled_spec s ps :
  Forall (fun p => cells s !! p.1 = Some p.2) ps ->
  enabled ps.*1 s = (Ok (base.filter fresh_up ps).*1, s).
Proof.
  unfold fresh_up. induction 1 as [|[r h] ps Hr Hc IH]; [done|].
  cbn [fmap list_fmap enabled fst] in *. step by (by apply cell_at). step by exact IH.
  rewrite filter_cons. unfold mret, stm_ret. cbn [snd].
  destruct (disable h) eqn:E; [by rewrite decide_False|by rewrite decide_True].
Qed.

Lemma update_domains_spec s ps :
  ups_wf s ps -> is_dynamic_domain_change s = true -> Forall builds (ups_dynamic_domains s) ->
  ups_heartbeats_index s + zlen (domain_keys (ups_dynamic_domains s)) < 2 ^ 64 ->
  let live := domain_keys (ups_dynamic_domains s) in
  exists s' new, update_domains s = (Ok tt, s') /\ ups_wf s' (kept live ps ++ new) /\
    rest s' = (true, false, balancer s, shutdowns s ++ reverse (gone live ps).*1) /\
    Forall fresh_up new /\
    key_of <$> new = base.filter (fun k => ~ k ∈ key_of <$> kept live ps) live.
Proof.
  intros Hwf Hc Hb Hn. cbn zeta. set (live := domain_keys (ups_dynamic_domains s)).
  set (s1 := set_change true (set_domain_change false s)).
  assert (ups_wf s1 ps) as Hwf1 by (destruct Hwf; by split).
  pose proof (without_wf live s1 ps Hwf1) as Hwf2.
  destruct (add_domains_spec (list_to_set (key_of <$> kept live ps)) (ups_dynamic_domains s)
              (without live s1 [] ps) (kept live ps)) as (s' & new & E & Hwf' & Hr & Hu & Hk); try done.
  exists s', new. split; [|split_and!; try done].
  - unfold update_domains. step. rewrite Hc. cbn [negb]. do 3 step. fold s1.
    change (ups_dynamic_domains s1) with (ups_dynamic_domains s). fold live.
    rewrite (uw_list _ _ Hwf1). step by (apply del_indexs_spec; apply Hwf1).
    step by (apply (del_loop_spec live ps []); apply Hwf1). step.
    rewrite (uw_list _ _ Hwf2). step by (apply heartbeat_keys_spec; apply Hwf2). exact E.
  - rewrite Hk. apply list_filter_iff. intros k. by rewrite elem_of_list_to_set.
Qed.

Lemma rebuild_active_spec s ps :
  ups_wf s ps -> is_heartbeat_change s = true ->
  rebuild_active s =
    (Ok tt, set_active (base.filter fresh_up ps).*1 (set_sort true (set_change false s))).
Proof.
  intros Hwf Hc. unfold rebuild_active. step. rewrite Hc. cbn [negb]. do 2 step. cbn [ups_heartbeats set_sort set_change].
  rewrite (uw_list _ _ Hwf). step by (apply enabled_spec; apply Hwf). done.
Qed.

(** The servers kept, together with those put in for the addresses they do
    not cover, cover each address once. *)
Lemma reconciled_keys live ps new :
  NoDup live -> NoDup (key_of <$> ps) ->
  key_of <$> new = base.filter (fun k => ~ k ∈ key_of <$> kept live ps) live ->
  key_of <$> (kept live ps ++ new) ≡ₚ live.
Proof.
  intros Hl Hp Hk. rewrite fmap_app, Hk.
  apply NoDup_Permutation; [|done|].
  - apply NoDup_app. split_and!.
    + eapply sublist_NoDup; [exact Hp|]. apply fmap_sublist, sublist_filter.
    + intros k Hin [Hout _]%list_elem_of_filter. done.
    + by apply NoDup_filter.
  - intros k. rewrite elem_of_app, list_elem_of_filter. split.
    + intros [(p & -> & [Hlive _]%list_elem_of_filter)%list_elem_of_fmap|[_ Hin]]; done.
    + intros Hin. destruct (decide (k ∈ key_of <$> kept live ps)); auto.
Qed.

(** The order by average response time. *)
Definition by_avg (s : UpstreamData) (a b : Z) : bool := avg_of s a <=? avg_of s b.

(** C27. After a domain changed, a turn of the upstream server brings the servers
    in line with it: there is exactly one for every address of every domain;
    the servers whose address remained are the same as before, with their
    failures and weights; the heartbeats of the others are stopped; the
    active list is made of the servers that are up, in order, or by average
    response time for the fair balancer; and nothing is left to do. *)
Theorem run_reconciles s ps :
  ups_wf s ps -> is_dynamic_domain_change s = true -> Forall builds (ups_dynamic_domains s) ->
  ups_heartbeats_index s + zlen (domain_keys (ups_dynamic_domains s)) < 2 ^ 64 ->
  NoDup (domain_keys (ups_dynamic_domains s)) -> NoDup (key_of <$> ps) ->
  let live := domain_keys (ups_dynamic_domains s) in
  exists s' new, run_turn s = (Ok tt, s') /\
    ups_wf s' (kept live ps ++ new) /\ key_of <$> (kept live ps ++ new) ≡ₚ live /\
    shutdowns s' = shutdowns s ++ reverse (gone live ps).*1 /\
    ups_heartbeats_active s' ≡ₚ (base.filter fresh_up (kept live ps ++ new)).*1 /\
    (if String.eqb (balancer s) "fair"
     then StronglySorted (fun a b => by_avg s' a b = true) (ups_heartbeats_active s')
     else ups_heartbeats_active s' = (base.filter fresh_up (kept live ps ++ new)).*1) /\
    is_heartbeat_change s' = false /\ is_dynamic_domain_change s' = false.
Proof.
  intros Hwf Hc Hb Hn Hnd Hps. cbn zeta.
  destruct (update_domains_spec s ps Hwf Hc Hb Hn) as (s1 & new & E & Hwf1 & Hr & _ & Hk).
  injection Hr as Hch Hdc Hbal Hsd.
  pose proof (rebuild_active_spec _ _ Hwf1 Hch) as E2.
  set (act := (base.filter fresh_up (kept _ ps ++ new)).*1) in *.
  set (s2 := set_active act (set_sort true (set_change false s1))) in *.
  assert (exists s', sort_active s2 = (Ok tt, s') /\ cells s' = cells s2 /\
    ups_heartbeats_active s' =
      (if String.eqb (balancer s) "fair" then sort_by (by_avg s2) act else act) /\
    (forall qs, ups_wf s2 qs -> ups_wf s' qs) /\ shutdowns s' = shutdowns s2 /\
    is_heartbeat_change s' = false /\ is_dynamic_domain_change s' = is_dynamic_domain_change s2)
    as (s' & E3 & Hcells & Hact & Hwf' & Hsd' & Hch' & Hdc').
  { unfold sort_active. do 2 step. change (balancer s2) with (balancer s1). rewrite Hbal. cbn [is_sort_heartbeats_active s2 set_active set_sort andb].
    destruct (String.eqb (balancer s) "fair").
    - eexists. split; [step; reflexivity|]. split_and!; try done. intros qs []. by split.
    - exists s2. split_and!; done. }
  exists s', new. split_and!.
  - unfold run_turn. step by exact E. step by exact E2. exact E3.
  - apply Hwf'. destruct Hwf1. by split.
  - by apply reconciled_keys.
  - rewrite Hsd'. exact Hsd.
  - rewrite Hact. destruct (String.eqb _ _); [by rewrite sort_by_perm|done].
  - rewrite Hact. destruct (String.eqb _ _); [|done].
    assert (by_avg s' = by_avg s2) as -> by (unfold by_avg, avg_of; by rewrite Hcells).
    apply sort_by_sorted; unfold by_avg; intros; lia.
  - done.
  - rewrite Hdc'. exact Hdc.
Qed.

(** ** Configuration and resolution *)

Lemma add_all_spec d l : forall s ps,
  builds d -> ups_wf s ps -> ups_heartbeats_active s = ups_heartbeats s ->
  ups_heartbeats_index s + zlen l < 2 ^ 64 ->
  exists s' new, add_all d l s = (Ok tt, s') /\ ups_wf s' (ps ++ new) /\
    key_of <$> new = addr_key (d_index d) <$> l /\ ups_heartbeats_active s' = ups_heartbeats s' /\
    ups_dynamic_domains s' = ups_dynamic_domains s.
Proof.
  induction l as [|a l IH]; intros s ps Hb Hwf Ha Hn.
  { exists s, []. by rewrite app_nil_r. }
  change (zlen (a :: l)) with (zlen ([a] ++ l)) in *. rewrite zlen_app in *.
  change (zlen [a]) with 1 in *. pose proof (zlen_nonneg l). pose proof (uw_next _ _ Hwf).
  destruct (Hb (ups_heartbeats_index s) a) as (h & Eh & Hd & Hix & Had & _).
  pose proof (put_in_wf h s ps Hwf Hix) as Hwf1.
  set (s1 := set_active (ups_heartbeats s ++ [next_cell s]) (put_in h s)).
  destruct (IH s1 (ps ++ [(next_cell s, h)])) as (s' & new & E & Hwf' & Hk & Ha' & Hds); try done.
  { destruct Hwf1. by split. }
  { cbn. lia. }
  exists s', ((next_cell s, h) :: new). rewrite <- app_assoc in Hwf'. split_and!; try done.
  - cbn [add_all]. step. step by (unfold lift; by rewrite Eh). do 3 step.
    cbn [ups_heartbeats ups_heartbeats_active set_cells ups_heartbeats_map ups_heartbeats_index].
    rewrite Ha. unwrap. exact E.
  - cbn. rewrite Hk. unfold key_of, server_key. cbn. by rewrite Hd, Had.
Qed.

(** Configuring a domain keeps the lists in order: there is a server for each
    address of each domain configured so far, all of them active. *)
Theorem add_proxy_pass_spec le hb found s ps :
  let mk := hb (default_heartbeat (balancer s)) (needs_weight (balancer s)) in
  builds (mkDomain (zlen (ups_dynamic_domains s)) mk found) ->
  ups_wf s ps -> ups_heartbeats_active s = ups_heartbeats s ->
  key_of <$> ps = domain_keys (ups_dynamic_domains s) ->
  ups_heartbeats_index s + zlen found < 2 ^ 64 ->
  exists s' new, add_proxy_pass le hb found s = (Ok tt, s') /\ ups_wf s' (ps ++ new) /\
    ups_heartbeats_active s' = ups_heartbeats s' /\
    key_of <$> (ps ++ new) = domain_keys (ups_dynamic_domains s') /\
    ups_dynamic_domains s' =
      ups_dynamic_domains s ++ [mkDomain (zlen (ups_dynamic_domains s)) mk (sort_by le found)].
Proof.
  intros mk Hb Hwf Ha Hk Hn. set (d := mkDomain (zlen (ups_dynamic_domains s)) mk (sort_by le found)).
  set (s1 := set_domains (ups_dynamic_domains s ++ [d]) s).
  destruct (add_all_spec d (sort_by le found) s1 ps) as (s' & new & E & Hwf' & Hkn & Ha' & Hds); try done.
  { destruct Hwf. by split. }
  { unfold zlen. by rewrite (sort_by_perm le found). }
  exists s', new. split_and!; try done.
  rewrite fmap_app, Hk, Hkn, Hds. unfold s1, domain_keys. cbn.
  rewrite fmap_app, concat_app. cbn. by rewrite app_nil_r.
Qed.

(** A resolver's answer is acted on exactly when it differs from what is known
    in more than the order of the addresses. *)
Theorem domain_turn_detects le d x known found s :
  (forall a b, le a b = false -> le b a = true) ->
  (forall a b c, le a b = true -> le b c = true -> le a c = true) ->
  (forall a b, le a b = true -> le b a = true -> a = b) ->
  0 <= d -> ups_dynamic_domains s !! Z.to_nat d = Some x -> known = sort_by le known ->
  exists s', domain_turn le d known (Some found) s = (Ok (sort_by le found), s') /\
    (known ≡ₚ found -> s' = s) /\
    (~ known ≡ₚ found -> is_dynamic_domain_change s' = true /\
      ups_dynamic_domains s' =
        <[Z.to_nat d := mkDomain (d_index x) (make x) (sort_by le found)]> (ups_dynamic_domains s)).
Proof.
  intros Htot Htrans Hanti Hd Hx Hk. unfold domain_turn.
  destruct (decide (known = sort_by le found)) as [E|Hne].
  - exists s. split; [by rewrite E|]. split; [done|]. intros Hno. exfalso. apply Hno.
    by rewrite E, sort_by_perm.
  - assert (~ known ≡ₚ found) as Hno.
    { intros Hp. apply Hne. rewrite Hk.
      eapply (StronglySorted_unique_strong (fun a b => le a b = true)).
      - intros ????. by apply Hanti.
      - by apply sort_by_sorted.
      - by apply sort_by_sorted.
      - by rewrite !sort_by_perm. }
    exists (set_domains (<[Z.to_nat d := mkDomain (d_index x) (make x) (sort_by le found)]>
              (ups_dynamic_domains s)) (set_domain_change true s)).
    split; [|split; [by intros ?|]].
    + do 2 step. cbn [ups_dynamic_domains set_domain_change].
      step by (unfold lift; by rewrite (proj2 (vget_ok _ _ x))).
      step by (unfold lift; rewrite vset_ok; [reflexivity|apply lookup_lt_Some in Hx; unfold zlen; lia]).
      step. reflexivity.
    + intros _. done.
Qed.

(** ** Examples *)

Definition tcp_pass : ProxyPassTcp := mkProxyPass None None (Some 2).
Definition demo_hb : option UpstreamHeartbeat -> bool -> Z -> Z -> string ->
    outcome UpstreamHeartbeatData :=
  tcp_heartbeat (Some 0) (fun c a => slen a) (fun a => Ok tt) tcp_pass.
Definition demo_make : Z -> Z -> string -> outcome UpstreamHeartbeatData :=
  demo_hb (default_heartbeat "fair") false.

(** Some total order of printed addresses. *)
Definition str_le (a b : string) : bool := Pos.leb (encode a) (encode b).

(** Two addresses configured, in the order of the sort. *)
Definition demo_start : UpstreamData :=
  (add_proxy_pass str_le demo_hb ["10.0.0.2:80"; "10.0.0.1:80"] (ups_new "fair")).2.

Definition demo_servers : list server :=
  zip (ups_heartbeats demo_start)
    (omap (fun r => cells demo_start !! r) (ups_heartbeats demo_start)).

Lemma demo_builds d l : builds (mkDomain d demo_make l).
Proof. by apply tcp_builds. Qed.

Lemma new_wf b : ups_wf (ups_new b) [].
Proof.
  split; try done; try constructor.
  - intros [=].
  - intros (h & Hin & _). by apply elem_of_nil in Hin.
Qed.

Lemma demo_start_wf : ups_wf demo_start demo_servers.
Proof.
  destruct (add_all_spec (mkDomain 0 demo_make ["10.0.0.1:80"; "10.0.0.2:80"])
    ["10.0.0.1:80"; "10.0.0.2:80"]
    (set_domains [mkDomain 0 demo_make ["10.0.0.1:80"; "10.0.0.2:80"]] (ups_new "fair")) [])
    as (s' & new & E & Hwf & _); try done.
  { apply demo_builds. }
  { pose proof (new_wf "fair") as []. by split. }
  assert (s' = demo_start) as -> by (by apply (f_equal snd) in E).
  assert (new = demo_servers) as <-; [|exact Hwf].
  destruct Hwf as [Hl Hc _ _ _ _ _]. unfold demo_servers. rewrite Hl. cbn [app].
  cbn [app] in Hc. clear -Hc. induction Hc as [|[r h] qs Hr _ IH]; [done|].
  cbn in Hr |- *. rewrite Hr. cbn. f_equal. exact IH.
Qed.

Lemma add_proxy_pass_spec_witness :
  exists s' new, add_proxy_pass str_le demo_hb ["10.0.0.2:80"; "10.0.0.1:80"] (ups_new "fair") = (Ok tt, s') /\
    ups_wf s' ([] ++ new) /\ ups_heartbeats_active s' = ups_heartbeats s' /\
    key_of <$> ([] ++ new) = domain_keys (ups_dynamic_domains s') /\
    ups_dynamic_domains s' = [mkDomain 0 demo_make (sort_by str_le ["10.0.0.2:80"; "10.0.0.1:80"])].
Proof.
  apply (add_proxy_pass_spec str_le demo_hb ["10.0.0.2:80"; "10.0.0.1:80"] (ups_new "fair") []); try done.
  - apply demo_builds.
  - apply new_wf.
Defined.

Lemma domains_wf b ds s ps : ups_wf s ps -> ups_wf (set_domain_change b (set_domains ds s)) ps.
Proof. intros []. by split. Qed.

(** The first address goes and another one comes. *)
Definition demo_changed : UpstreamData :=
  set_domain_change true (set_domains [mkDomain 0 demo_make ["10.0.0.2:80"; "10.0.0.3:80"]] demo_start).

Lemma run_reconciles_witness :
  exists s' new, run_turn demo_changed = (Ok tt, s') /\
    key_of <$> (kept ["0_10.0.0.2:80"; "0_10.0.0.3:80"] demo_servers ++ new) ≡ₚ
      ["0_10.0.0.2:80"; "0_10.0.0.3:80"] /\
    shutdowns s' = [0].
Proof.
  destruct (run_reconciles demo_changed demo_servers) as (s' & new & E & _ & Hk & Hs & _).
  - apply domains_wf, demo_start_wf.
  - reflexivity.
  - repeat constructor. apply demo_builds.
  - by vm_compute.
  - by apply (bool_decide_eq_true_1 _).
  - by apply (bool_decide_eq_true_1 _).
  - exists s', new. split_and!; [exact E|exact Hk|rewrite Hs; by vm_compute].
Defined.

Lemma server_cycle_witness :
  exists s1 h1, heartbeats 0 2 [None; Some 7; None] demo_start = (Ok tt, s1) /\
    cells s1 !! 0 = Some h1 /\ disable h1 = false /\
    exists s2 h2, heartbeats 0 2 [None] s1 = (Ok tt, s2) /\ cells s2 !! 0 = Some h2 /\ disable h2 = true.
Proof.
  destruct (server_cycle 0 2 [None; Some 7; None] 0 5 [] demo_start
    (mkServer 0 0 (default_heartbeat "fair") "10.0.0.1:80" 11 0 false None 0 0 0 2 2 0))
    as (s1 & h1 & s2 & h2 & s3 & h3 & (E1 & R1 & D1) & (E2 & R2 & D2 & _) & _); try done.
  exists s1, h1. split_and!; try done. by exists s2, h2.
Defined.

Lemma domain_turn_detects_witness :
  exists s', domain_turn str_le 0 ["10.0.0.1:80"; "10.0.0.2:80"] (Some ["10.0.0.3:80"]) demo_start =
    (Ok ["10.0.0.3:80"], s') /\ is_dynamic_domain_change s' = true.
Proof.
  destruct (domain_turn_detects str_le 0 (mkDomain 0 demo_make ["10.0.0.1:80"; "10.0.0.2:80"])
    ["10.0.0.1:80"; "10.0.0.2:80"] ["10.0.0.3:80"] demo_start) as (s' & E & _ & Hc); try done.
  - intros a b. unfold str_le. rewrite Pos.leb_gt, Pos.leb_le. lia.
  - intros a b c. unfold str_le. rewrite !Pos.leb_le. lia.
  - intros a b. unfold str_le. rewrite !Pos.leb_le. intros. apply (inj encode). lia.
  - exists s'. split; [exact E|]. apply Hc. intros Hp. by apply Permutation_length in Hp.
Defined.
