(* ===== verification/Access.v ===== *)
(** Access by client address, [any-proxy/src/config/net_access_ip.rs], with the
    reading of addresses of the standard library ([IpAddr::from_str]). *)
From S2P Require Import Prelude RustStd.
#[local] Open Scope string_scope.
#[local] Open Scope Z_scope.

(** ** Addresses

    An IPv4 address is its four octets, an IPv6 address its eight groups. *)
Inductive IpAddr := V4 (octets : list Z) | V6 (groups : list Z).

(** [from_be_bytes] *)
Definition from_be_bytes (bytes : list Z) : Z := foldl (fun n b => n * 256 + b) 0 bytes.

Definition v6_octets (groups : list Z) : list Z :=
  concat ((fun g => [g / 256; g mod 256]) <$> groups).

Definition ip_bits (ip : IpAddr) : Z :=
  match ip with V4 o => from_be_bytes o | V6 g => from_be_bytes (v6_octets g) end.

(** A parser gives what it read and the rest of the text. *)
Definition parser (A : Type) : Type := string -> option (A * string).

Definition read_given_char (c : ascii) : parser unit := fun s =>
  match s with
  | String d s => if Ascii.eqb c d then Some (tt, s) else None
  | EmptyString => None
  end.

(** [char::to_digit] *)
Definition to_digit (radix : Z) (c : ascii) : option Z :=
  let n := Z.of_N (N_of_ascii c) in
  let d := if (48 <=? n) && (n <=? 57) then n - 48
           else if (97 <=? n) && (n <=? 122) then n - 87
           else if (65 <=? n) && (n <=? 90) then n - 55 else radix in
  if d <? radix then Some d else None.

(** The digits at the start of a text: their value, their number. *)
Fixpoint read_digits (radix value count : Z) (s : string) : Z * Z * string :=
  match s with
  | String c t =>
      match to_digit radix c with
      | Some d => read_digits radix (value * radix + d) (count + 1) t
      | None => (value, count, s)
      end
  | EmptyString => (value, count, s)
  end.

(** [read_number] for an unsigned type of [w] bits. *)
Definition read_number (w radix max_digits : Z) (allow_zero_prefix : bool) : parser Z := fun s =>
  let '(value, count, rest) := read_digits radix 0 0 s in
  if max_digits <? count then None
  else if count =? 0 then None
  else if negb allow_zero_prefix && starts_with "0" s && (1 <? count) then None
  else if value <? 2 ^ w then Some (value, rest) else None.

Definition read_separator {A} (sep : ascii) (i : nat) (p : parser A) : parser A := fun s =>
  match i with
  | O => p s
  | S _ => '(_, s) ← read_given_char sep s; p s
  end.

(** [n] octets, of which the first is the [i]th. *)
Fixpoint read_octets (n i : nat) : parser (list Z) := fun s =>
  match n with
  | O => Some ([], s)
  | S n =>
      '(x, s) ← read_separator "."%char i (read_number 8 10 3 false) s;
      '(l, s) ← read_octets n (S i) s;
      Some (x :: l, s)
  end.

Definition read_ipv4_addr : parser (list Z) := read_octets 4 0.

(** [read_groups]: up to [n] groups more of [limit], the first the [i]th; the
    flag says that an embedded IPv4 address ended them. *)
Fixpoint read_groups (n limit i : nat) (s : string) : list Z * bool * string :=
  match n with
  | O => ([], false, s)
  | S n =>
      match (if (i + 1 <? limit)%nat then read_separator ":"%char i read_ipv4_addr s else None) with
      | Some ([a; b; c; d], s) => ([a * 256 + b; c * 256 + d], true, s)
      | _ =>
          match read_separator ":"%char i (read_number 16 16 4 true) s with
          | Some (g, s) => let '(l, v4, s) := read_groups n limit (S i) s in (g :: l, v4, s)
          | None => ([], false, s)
          end
      end
  end.

Definition read_ipv6_addr : parser (list Z) := fun s =>
  let '(front, v4, s) := read_groups 8 8 0 s in
  if (length front =? 8)%nat then Some (front, s)
  else if v4 then None
  else
    '(_, s) ← read_given_char ":"%char s;
    '(_, s) ← read_given_char ":"%char s;
    let limit := (8 - (length front + 1))%nat in
    let '(back, _, s) := read_groups limit limit 0 s in
    Some ((front ++ repeat 0 (8 - length front - length back) ++ back)%list, s).

Definition ip_from_str (s : string) : option IpAddr :=
  match (match read_ipv4_addr s with
         | Some (o, s) => Some (V4 o, s)
         | None => '(g, s) ← read_ipv6_addr s; Some (V6 g, s)
         end) with
  | Some (ip, EmptyString) => Some ip
  | _ => None
  end.

(** ** Configuration

    [ConfIpv4] and [ConfIpv6] differ in the width of [ip_bin] alone. *)
Record ConfIpv := mkIpv { data : string; ip : string; ip_bin : Z; offset : Z; is_deny : bool }.

Record ConfIp := mkConfIp { ipv4 : list ConfIpv; ipv6 : list ConfIpv; is_deny_all : bool }.

Definition conf_ip_new : ConfIp := mkConfIp [] [] false.

(** The [ip] of a [Conf]. *)
Definition Conf : Type := option ConfIp.

Definition merge_conf (parent : option Conf) (child : Conf) : Conf :=
  match parent with
  | Some p => match child with None => p | Some c => Some c end
  | None => child
  end.

(** The shift for a prefix length, [width] without one. *)
Definition read_offset (width : Z) (s : string) (len : option string) : outcome Z :=
  match len with
  | None => Ok 0
  | Some len =>
      n ← ok_or ("err:ip_allow => addr:" +:+ s) (parse_u 32 len);
      if (n <=? 0) || (width <? n) then Err ("err:ip_allow => addr:" +:+ s) else Ok (width - n)
  end.

Definition ip_add (s : string) (deny : bool) : stm Conf unit := fun c =>
  let '(ip_str, len) := match rsplit_once "/"%char s with
                        | None => (s, None)
                        | Some (a, b) => (a, Some b)
                        end in
  let c := match c with None => conf_ip_new | Some c => c end in
  if String.eqb ip_str "all" then (Ok tt, Some (mkConfIp (ipv4 c) (ipv6 c) true))
  else
    match ip_from_str ip_str with
    | None => (Err ("err:ip_allow => addr:" +:+ s), Some c)
    | Some (V4 o) =>
        match read_offset 32 s len with
        | Ok off => (Ok tt, Some (mkConfIp
            (ipv4 c ++ [mkIpv s ip_str (from_be_bytes o) off deny])%list (ipv6 c) (is_deny_all c)))
        | Err e => (Err e, Some c)
        | Panic => (Panic, Some c)
        | Fuel => (Fuel, Some c)
        end
    | Some (V6 g) =>
        match read_offset 128 s len with
        | Ok off => (Ok tt, Some (mkConfIp (ipv4 c)
            (ipv6 c ++ [mkIpv s ip_str (from_be_bytes (v6_octets g)) off deny])%list (is_deny_all c)))
        | Err e => (Err e, Some c)
        | Panic => (Panic, Some c)
        | Fuel => (Fuel, Some c)
        end
    end.

Definition ip_allow (s : string) : stm Conf unit := ip_add s false.
Definition ip_deny (s : string) : stm Conf unit := ip_add s true.

(** ** The check of a connection *)

(** [crate::Error]: go on, or stop. *)
Inductive Verdict := VOk | VReturn.

Fixpoint check_rules (rules : list ConfIpv) (bin : Z) : option Verdict :=
  match rules with
  | [] => None
  | r :: rules =>
      if Z.shiftr bin (offset r) =? Z.shiftr (ip_bin r) (offset r)
      then Some (if is_deny r then VReturn else VOk)
      else check_rules rules bin
  end.

(** [scc] is the configuration of the connection's server, if it has one. *)
Definition access (scc : option Conf) (remote : IpAddr) : Verdict :=
  match scc with
  | None | Some None => VOk
  | Some (Some c) =>
      match (match remote with
             | V4 o => check_rules (ipv4 c) (from_be_bytes o)
             | V6 g => check_rules (ipv6 c) (from_be_bytes (v6_octets g))
             end) with
      | Some v => v
      | None => if is_deny_all c then VReturn else VOk
      end
  end.

(** ** Directives and what they mean *)

Inductive directive :=
  | All (deny : bool)
  | Block (text : string) (base : IpAddr) (len : option Z) (deny : bool).

Definition width (ip : IpAddr) : Z := match ip with V4 _ => 32 | V6 _ => 128 end.

Definition text_of (d : directive) : string :=
  match d with
  | All _ => "all"
  | Block t _ None _ => t
  | Block t _ (Some n) _ => t +:+ String "/" (show_u n)
  end.

Definition deny_of (d : directive) : bool :=
  match d with All deny => deny | Block _ _ _ deny => deny end.

(** The text is that of an address, and the prefix length fits its family. *)
Definition well_written (d : directive) : Prop :=
  match d with
  | All _ => True
  | Block t b len _ =>
      ip_from_str t = Some b /\ has_char "/" t = false /\
      (forall n, len = Some n -> 1 <= n <= width b)
  end.

(** The addresses of a block: the same family, and the same leading bits. *)
Definition covers (d : directive) (ip : IpAddr) : Prop :=
  match d with
  | All _ => False
  | Block _ b len _ =>
      width b = width ip /\
      forall i, width b - default (width b) len <= i -> Z.testbit (ip_bits b) i = Z.testbit (ip_bits ip) i
  end.

Definition is_all (d : directive) : bool := match d with All _ => true | _ => false end.

(** The directives of a configuration block, in order. *)
Fixpoint configure (ds : list directive) : stm Conf unit :=
  match ds with
  | [] => done_
  | d :: ds => _ ← (if deny_of d then ip_deny (text_of d) else ip_allow (text_of d)); configure ds
  end.

(** The rule a directive adds to the list of its family. *)
Definition rule (w : Z) (d : directive) : option ConfIpv :=
  match d with
  | All _ => None
  | Block t b len deny =>
      if width b =? w then Some (mkIpv (text_of d) t (ip_bits b) (w - default w len) deny) else None
  end.

Definition conf_after (c : Conf) (ds : list directive) : Conf :=
  match ds with
  | [] => c
  | _ => let c := default conf_ip_new c in
         Some (mkConfIp (ipv4 c ++ omap (rule 32) ds)%list (ipv6 c ++ omap (rule 128) ds)%list
                 (is_deny_all c || existsb is_all ds))
  end.

Lemma ip_add_block t b len deny c :
  well_written (Block t b len deny) ->
  ip_add (text_of (Block t b len deny)) deny c = (Ok tt, conf_after c [Block t b len deny]).
Proof.
  intros (Hip & Hs & Hn). unfold ip_add, conf_after.
  assert (String.eqb t "all" = false) as Hall by (apply String.eqb_neq; by intros ->).
  assert (exists l, match rsplit_once "/" (text_of (Block t b len deny)) with
          | None => (text_of (Block t b len deny), None) | Some (a, b) => (a, Some b) end = (t, l) /\
          forall s, read_offset (width b) s l = Ok (width b - default (width b) len)) as (l & -> & Hl).
  { destruct len as [n|]; cbn [text_of].
    - rewrite rsplit_once_app by (apply digits_no_char; [done|apply show_all_digits]).
      exists (Some (show_u n)). split; [done|]. intros s. specialize (Hn n eq_refl).
      assert (width b <= 128) by (destruct b; cbn; lia).
      unfold read_offset. rewrite parse_show by lia. cbn.
      destruct (Z.leb_spec n 0); [lia|]. by destruct (Z.ltb_spec (width b) n); [lia|].
    - rewrite rsplit_once_none by done. exists None. split; [done|]. intros s. cbn. f_equal. lia. }
  rewrite Hall, Hip. destruct b as [o|g]; cbn [width] in Hl; rewrite Hl; cbn;
    rewrite ?app_nil_r, orb_false_r; destruct c; done.
Qed.

Lemma configure_spec ds : forall c,
  Forall well_written ds -> configure ds c = (Ok tt, conf_after c ds).
Proof.
  induction ds as [|d ds IH]; intros c H; [done|]. apply Forall_cons in H as [Hd H].
  assert ((if deny_of d then ip_deny (text_of d) else ip_allow (text_of d)) c =
          (Ok tt, conf_after c [d])) as E.
  { destruct d as [deny|t b len deny].
    - cbn. destruct deny, c as [[]|]; cbn; by rewrite ?app_nil_r, ?orb_true_r.
    - pose proof (ip_add_block t b len deny c Hd). by destruct deny. }
  cbn [configure]. step by exact E. rewrite IH by done. apply (f_equal (pair (Ok tt))).
  destruct ds as [|d' ds]; [done|]. unfold conf_after. cbn [default ipv4 ipv6 is_deny_all].
  change (d :: d' :: ds) with ([d] ++ (d' :: ds))%list. rewrite !omap_app, !app_assoc, existsb_app.
  by rewrite orb_assoc.
Qed.

(** ** The decision *)

Lemma shift_eq a b k :
  0 <= k -> ((Z.shiftr a k =? Z.shiftr b k) = true <-> forall i, k <= i -> Z.testbit b i = Z.testbit a i).
Proof.
  intros Hk. rewrite Z.eqb_eq. split.
  - intros E i Hi. replace i with (i - k + k) by lia. rewrite <- !Z.shiftr_spec by lia. by rewrite E.
  - intros H. apply Z.bits_inj'. intros i Hi. rewrite !Z.shiftr_spec by done. symmetry. apply H. lia.
Qed.

Definition rules_of (w : Z) (ds : list directive) (ip : IpAddr) : option Verdict :=
  check_rules (omap (rule w) ds) (ip_bits ip).

Lemma rules_hit t b len deny ip ds :
  well_written (Block t b len deny) -> covers (Block t b len deny) ip ->
  rules_of (width ip) (Block t b len deny :: ds) ip = Some (if deny then VReturn else VOk).
Proof.
  intros (_ & _ & Hn) [Hw Hb]. unfold rules_of. cbn. rewrite Hw, Z.eqb_refl. cbn.
  assert (0 <= width ip - default (width ip) len) as Hk.
  { destruct len as [n|]; cbn; [specialize (Hn n eq_refl); lia|lia]. }
  rewrite Hw in Hb. by rewrite (proj2 (shift_eq (ip_bits ip) (ip_bits b) _ Hk) Hb).
Qed.

Lemma rules_miss d ip ds :
  well_written d -> ~ covers d ip -> rules_of (width ip) (d :: ds) ip = rules_of (width ip) ds ip.
Proof.
  unfold rules_of. destruct d as [|t b len deny]; [done|]. intros (_ & _ & Hn) Hc. cbn.
  destruct (Z.eqb_spec (width b) (width ip)) as [Hw|]; [|done]. cbn.
  case_match eqn:E; [|done]. exfalso. apply Hc. split; [done|]. rewrite Hw.
  apply shift_eq; [|done]. rewrite Hw in Hn.
  destruct len as [n|]; cbn; [specialize (Hn n eq_refl); lia|lia].
Qed.

Lemma rules_skip pre ip ds :
  Forall well_written pre -> Forall (fun d => ~ covers d ip) pre ->
  rules_of (width ip) (pre ++ ds) ip = rules_of (width ip) ds ip.
Proof.
  induction pre as [|d pre IH]; [done|]. intros [Hw Hws]%Forall_cons [Hc Hcs]%Forall_cons.
  cbn [app]. rewrite rules_miss by done. by apply IH.
Qed.

Lemma access_after ds ip :
  access (Some (conf_after None ds)) ip =
  match rules_of (width ip) ds ip with
  | Some v => v
  | None => if existsb is_all ds then VReturn else VOk
  end.
Proof. destruct ds as [|d ds]; [by destruct ip|]. by destruct ip. Qed.

(** Access control decides by the first directive that covers the client's
    address, whatever the mix of addresses, prefixes and families around it;
    a client no directive covers is refused as soon as one of them says
    [all], be it an allowing one. *)
Theorem access_first_match ds ip :
  Forall well_written ds ->
  exists c, configure ds None = (Ok tt, c) /\
    (forall pre t b len deny post,
      ds = (pre ++ Block t b len deny :: post)%list ->
      covers (Block t b len deny) ip -> Forall (fun d => ~ covers d ip) pre ->
      access (Some c) ip = if deny then VReturn else VOk) /\
    (Forall (fun d => ~ covers d ip) ds ->
      access (Some c) ip = if existsb is_all ds then VReturn else VOk).
Proof.
  intros Hw. exists (conf_after None ds). split; [by apply configure_spec|]. rewrite access_after. split.
  - intros pre t b len deny post -> Hc Hpre. apply Forall_app in Hw as [Hw1 [Hw2 _]%Forall_cons].
    rewrite rules_skip by done. by rewrite rules_hit.
  - intros Hno. rewrite <- (app_nil_r ds). rewrite rules_skip by done. by rewrite app_nil_r.
Qed.

(** ** Printed IPv4 addresses *)

Definition show_v4 (o : list Z) : string :=
  match o with
  | [a; b; c; d] => show_u a +:+ String "." (show_u b +:+ String "." (show_u c +:+ String "." (show_u d)))
  | _ => ""
  end.

Lemma read_digits_app radix s : forall v k v' k' t,
  read_digits radix v k s = (v', k', "") ->
  read_digits radix v k (s +:+ t) = read_digits radix v' k' t.
Proof.
  induction s as [|c s IH]; intros v k v' k' t H; [by injection H as <- <-|].
  rewrite app_cons. cbn in *. destruct (to_digit radix c); [by apply IH|discriminate].
Qed.

(** What reading the digits of a printed octet gives. *)
Definition octet_ok (n : Z) : bool :=
  let '(v, k, rest) := read_digits 10 0 0 (show_u n) in
  (v =? n) && (0 <? k) && (k <=? 3) && String.eqb rest "" && negb (starts_with "0" (show_u n) && (1 <? k)).

Lemma octet_read n t :
  0 <= n < 256 -> (forall v k, read_digits 10 v k t = (v, k, t)) ->
  read_number 8 10 3 false (show_u n +:+ t) = Some (n, t).
Proof.
  intros Hn Ht.
  assert (octet_ok n = true) as H.
  { assert (Forall (fun n => octet_ok n = true) (seqZ 0 256)) as Hall.
    { apply (bool_decide_eq_true_1 _). vm_compute. reflexivity. }
    rewrite Forall_forall in Hall. apply Hall. apply elem_of_seqZ. lia. }
  unfold octet_ok in H. destruct (read_digits 10 0 0 (show_u n)) as [[v k] rest] eqn:E.
  apply andb_prop in H as [H Hz]. apply andb_prop in H as [H Hr%String.eqb_eq].
  apply andb_prop in H as [H H3%Z.leb_le]. apply andb_prop in H as [->%Z.eqb_eq H0%Z.ltb_lt]. subst rest.
  unfold read_number. rewrite (read_digits_app _ _ _ _ _ _ t E), Ht.
  destruct (Z.ltb_spec 3 k); [lia|]. destruct (Z.eqb_spec k 0); [lia|].
  assert (starts_with "0" (show_u n +:+ t) = starts_with "0" (show_u n)) as Es.
  { pose proof (show_nonempty n). destruct (show_u n); [done|]. by rewrite app_cons. }
  apply negb_true_iff in Hz. cbn [negb]. rewrite andb_true_l, Es, Hz.
  by destruct (Z.ltb_spec n (2 ^ 8)); [|lia].
Qed.

(** A printed IPv4 address is read back as itself. *)
Theorem ipv4_roundtrip a b c d :
  0 <= a < 256 -> 0 <= b < 256 -> 0 <= c < 256 -> 0 <= d < 256 ->
  ip_from_str (show_v4 [a; b; c; d]) = Some (V4 [a; b; c; d]).
Proof.
  intros Ha Hb Hc Hd. unfold ip_from_str, read_ipv4_addr. cbn [show_v4 read_octets read_separator].
  rewrite octet_read by done. cbn [mbind option_bind read_given_char Ascii.eqb Bool.eqb].
  rewrite octet_read by done. cbn [mbind option_bind read_given_char Ascii.eqb Bool.eqb].
  rewrite octet_read by done. cbn [mbind option_bind read_given_char Ascii.eqb Bool.eqb].
  rewrite <- (app_empty_r (show_u d)). by rewrite octet_read by done.
Qed.

Lemma ipv4_roundtrip_witness : ip_from_str "192.168.90.1" = Some (V4 [192; 168; 90; 1]).
Proof. apply (ipv4_roundtrip 192 168 90 1); lia. Defined.

(** ** Examples *)

Example ipv6_read : ip_from_str "fe80::1:ffff" = Some (V6 [65152; 0; 0; 0; 0; 0; 1; 65535]).
Proof. vm_compute. reflexivity. Qed.

Example ipv6_embedded : ip_from_str "::ffff:10.0.0.1" = Some (V6 [0; 0; 0; 0; 0; 65535; 2560; 1]).
Proof. vm_compute. reflexivity. Qed.

Example ipv4_bad : ip_from_str "10.0.0.01" = None /\ ip_from_str "10.0.0.256" = None.
Proof. vm_compute. done. Qed.

(** The block of the demo configuration. *)
Definition demo_block : list directive :=
  [Block "127.0.0.1" (V4 [127; 0; 0; 1]) (Some 24) false;
   Block "192.168.90.1" (V4 [192; 168; 90; 1]) None true; All true].

Lemma demo_covers : covers (Block "127.0.0.1" (V4 [127; 0; 0; 1]) (Some 24) false) (V4 [127; 0; 0; 77]).
Proof.
  split; [done|]. apply (shift_eq (ip_bits (V4 [127; 0; 0; 77])) (ip_bits (V4 [127; 0; 0; 1])) 8); done.
Qed.

Lemma access_first_match_witness :
  exists c, configure demo_block None = (Ok tt, c) /\
    access (Some c) (V4 [127; 0; 0; 77]) = VOk.
Proof.
  destruct (access_first_match demo_block (V4 [127; 0; 0; 77])) as (c & E & Hhit & _).
  - unfold demo_block. rewrite !Forall_cons, Forall_nil. cbn [well_written].
    split_and!; try done; intros n [= <-]; cbn; lia.
  - exists c. split; [exact E|]. refine (Hhit [] _ _ _ _ _ eq_refl demo_covers _). constructor.
Defined.

(** [ip_allow all] refuses everyone. *)
Example allow_all_denies :
  match ip_allow "all" None with (_, c) => access (Some c) (V4 [10; 0; 0; 1]) end = VReturn.
Proof. vm_compute. reflexivity. Qed.
