(* ===== verification/AddrUtil.v ===== *)
(** Addresses, ports and keys of the configuration,
    [any-proxy/src/util/util.rs]. *)
From S2P Require Import Prelude RustStd Access.
#[local] Open Scope string_scope.
#[local] Open Scope Z_scope.

(** ** Lists of addresses *)

(** One address of a list, trimmed and not empty: the addresses it stands
    for. *)
Definition expand_addr (addr : string) : outcome (list string) :=
  let err := "err:addr => addr:" +:+ addr in
  '(ip, port) ← ok_or err (rsplit_once ":" addr);
  let ip := trim ip in
  let port := trim port in
  match find_char "~" port with
  | None => Ok [addr]
  | Some _ =>
      if negb (bool_decide (find_char "[" port = Some O)) then Err err
      else if negb (bool_decide (S <$> find_char "]" port = Some (String.length port))) then Err err
      else
        port ← sslice port 1 (slen port - 1);
        let ports := split_char "~" port in
        a ← vget ports 0; port_start ← ok_or err (parse_u 64 (trim a));
        b ← vget ports 1; port_end ← ok_or err (parse_u 64 (trim b));
        if port_end <? port_start then Err err
        else
          let port_end := wrap64 (port_end + 1) in
          Ok ((fun v => ip +:+ String ":" (show_u v)) <$> seqZ port_start (port_end - port_start))
  end.

Fixpoint expand_addrs (addrs : list string) : outcome (list string) :=
  match addrs with
  | [] => Ok []
  | addr :: addrs =>
      let addr := trim addr in
      if slen addr <=? 0 then expand_addrs addrs
      else x ← expand_addr addr; y ← expand_addrs addrs; Ok (x ++ y)%list
  end.

Definition str_to_str_addrs (addr : string) : outcome (list string) :=
  datas ← expand_addrs (split_char " " addr);
  if zlen datas <=? 0 then Err ("err:addr => addr:" +:+ addr) else Ok datas.

(** ** Lists of ports *)

(** The ports one entry of a list adds. *)
Definition entry_ports (addr : string) : outcome (list Z) :=
  let addr := trim addr in
  if slen addr <=? 0 then Ok []
  else
    let addrs := split_char "-" addr in
    if zlen addrs =? 1 then
      a ← vget addrs 0;
      Ok (match parse_u 16 a with None => [] | Some p => [p] end)
    else if zlen addrs =? 2 then
      a ← vget addrs 0;
      match parse_u 16 a with
      | None => Ok []
      | Some port1 =>
          b ← vget addrs 0;
          match parse_u 16 b with
          | None => Ok []
          | Some port2 =>
              if port2 <? port1 then Ok [] else Ok (seqZ port1 (port2 - port1))
          end
      end
    else Ok [].

Fixpoint entries_ports (addrs : list string) : outcome (list Z) :=
  match addrs with
  | [] => Ok []
  | addr :: addrs => x ← entry_ports addr; y ← entries_ports addrs; Ok (x ++ y)%list
  end.

Definition get_ports (ports : string) : outcome (list Z) :=
  entries_ports (split_char "," (trim ports)).

(** ** Keys of a listening address *)

Record SocketAddr := mkSocketAddr { sa_ip : IpAddr; sa_port : Z }.

Definition is_ipv4 (a : SocketAddr) : bool := match sa_ip a with V4 _ => true | V6 _ => false end.

Definition tcp_key_from_addr (a : SocketAddr) : outcome string :=
  Ok (if is_ipv4 a then "tcp" +:+ show_u (sa_port a) else "tcp6" +:+ show_u (sa_port a)).
Definition udp_key_from_addr (a : SocketAddr) : outcome string :=
  Ok (if is_ipv4 a then "udp" +:+ show_u (sa_port a) else "udp6" +:+ show_u (sa_port a)).
Definition quic_key_from_addr (a : SocketAddr) : outcome string :=
  Ok (if is_ipv4 a then "quic" +:+ show_u (sa_port a) else "quic6" +:+ show_u (sa_port a)).

(** ** Host and port *)

Definition host_and_port (http_host : string) : outcome (string * string) :=
  let s := trim http_host in
  if starts_with "[" s && ends_with_char "]" s then
    h ← sslice s 1 (slen s - 1); Ok (h, "")
  else
    match (if starts_with "[" s then split_once_str "]:" (sdrop 1 s) else None) with
    | Some (host, port) => Ok (host, port)
    | None =>
        if (count_char ":" s =? 1)%nat then expect (rsplit_once ":" s)
        else Ok (s, "")
    end.

(** ** What an entry of an address list stands for *)

(** An address with a port, or with a span of ports. *)
Inductive entry := Single (host : string) (port : Z) | Span (host : string) (first last : Z).

Definition print_entry (e : entry) : string :=
  match e with
  | Single h p => h +:+ String ":" (show_u p)
  | Span h a b => h +:+ String ":" (String "[" (show_u a +:+ String "~" (show_u b +:+ "]")))
  end.

Definition addr_of (h : string) (p : Z) : string := h +:+ String ":" (show_u p).

Definition meaning (e : entry) : list string :=
  match e with
  | Single h p => [addr_of h p]
  | Span h a b => addr_of h <$> seqZ a (b + 1 - a)
  end.

Definition entry_ok (e : entry) : Prop :=
  match e with
  | Single h p => no_ws h = true /\ 0 <= p
  | Span h a b => no_ws h = true /\ 0 <= a <= b /\ b < 2 ^ 64 - 1
  end.

Lemma show_no_ws n : no_ws (show_u n) = true.
Proof. apply all_digits_no_ws, show_all_digits. Qed.

Lemma show_no_char c n : is_digit c = false -> has_char c (show_u n) = false.
Proof. intros H. apply digits_no_char; [done|apply show_all_digits]. Qed.

Lemma print_no_ws e : entry_ok e -> no_ws (print_entry e) = true.
Proof.
  destruct e as [h p|h a b]; cbn [entry_ok print_entry]; intros [Hh _];
    rewrite !no_ws_app; cbn; rewrite ?no_ws_app; cbn; rewrite ?no_ws_app; by rewrite Hh, ?show_no_ws.
Qed.

Lemma slen_pos c s t : 0 < slen (s +:+ String c t).
Proof. rewrite slen_app. pose proof (slen_nonneg s). unfold slen at 2. cbn. lia. Qed.

(** A text in brackets: where the closing one is, and what lies between. *)
Lemma bracket_end s :
  has_char "]" s = false ->
  S <$> find_char "]" (String "[" (s +:+ "]")) = Some (String.length (String "[" (s +:+ "]"))).
Proof.
  intros H. change (String "[" (s +:+ "]")) with (String "[" s +:+ String "]" "").
  rewrite find_char_app by exact H. cbn. do 2 f_equal.
  pose proof (slen_app s "]") as E. unfold slen in E. cbn in E.
  change (String.length (String "[" s +:+ "]")) with (S (String.length (s +:+ "]"))). lia.
Qed.

Lemma bracket_slice s :
  sslice (String "[" (s +:+ "]")) 1 (slen (String "[" (s +:+ "]")) - 1) = Ok s.
Proof.
  assert (slen (String "[" (s +:+ "]")) = slen s + 2) as ->.
  { change (String "[" (s +:+ "]")) with ("[" +:+ (s +:+ "]")). rewrite !slen_app.
    change (slen "[") with 1. change (slen "]") with 1. lia. }
  pose proof (slen_nonneg s). unfold sslice.
  assert (slen (String "[" (s +:+ "]")) = slen s + 2) as ->.
  { change (String "[" (s +:+ "]")) with ("[" +:+ (s +:+ "]")). rewrite !slen_app.
    change (slen "[") with 1. change (slen "]") with 1. lia. }
  destruct (Z.leb_spec 1 (slen s + 2 - 1)); [|lia]. destruct (Z.leb_spec (slen s + 2 - 1) (slen s + 2)); [|lia].
  cbn [andb Z.leb]. change (Z.to_nat 1) with 1%nat. cbn [sdrop].
  replace (Z.to_nat (slen s + 2 - 1 - 1)) with (String.length s) by (unfold slen; lia).
  cbn. by rewrite stake_app.
Qed.

Lemma expand_entry e : entry_ok e -> expand_addr (print_entry e) = Ok (meaning e).
Proof.
  destruct e as [h p|h a b]; cbn [entry_ok print_entry meaning]; unfold expand_addr.
  - intros [Hh Hp]. rewrite rsplit_once_app by (by apply show_no_char). cbn [ok_or mbind outcome_bind].
    rewrite trim_show. by rewrite find_char_none by (by apply show_no_char).
  - intros (Hh & Hab & Hb). set (span := show_u a +:+ String "~" (show_u b)).
    assert (String "[" (show_u a +:+ String "~" (show_u b +:+ "]")) = String "[" (span +:+ "]")) as ->.
    { unfold span. by rewrite app_assoc_s, app_cons. }
    assert (forall c, is_digit c = false -> c <> "~"%char -> has_char c span = false) as Hspan.
    { intros c Hc Hne. unfold span. rewrite has_char_app. cbn. rewrite !show_no_char by done.
      apply Ascii.eqb_neq in Hne. by rewrite Hne. }
    assert (has_char ":" (String "[" (span +:+ "]")) = false) as Hc.
    { cbn. rewrite has_char_app, Hspan by done. done. }
    rewrite rsplit_once_app by exact Hc. cbn [ok_or mbind outcome_bind].
    rewrite (trim_no_ws h) by done. rewrite (trim_no_ws (String "[" _)).
    2:{ unfold span. cbn. rewrite !no_ws_app. cbn. by rewrite !show_no_ws. }
    assert (exists i, find_char "~" (String "[" (span +:+ "]")) = Some i) as [i ->].
    { exists (S (String.length (show_u a))). unfold span. rewrite app_assoc_s, app_cons.
      change (String "[" (show_u a +:+ String "~" (show_u b +:+ "]"))) with
        (String "[" (show_u a) +:+ String "~" (show_u b +:+ "]")).
      apply find_char_app. cbn. by rewrite show_no_char. }
    rewrite bracket_end by (by apply Hspan). rewrite !bool_decide_true by done. cbn [negb].
    rewrite bracket_slice. cbn [mbind outcome_bind].
    assert (split_char "~" span = [show_u a; show_u b]) as ->.
    { unfold span. rewrite split_char_app by (by apply show_no_char).
      by rewrite split_char_none by (by apply find_char_none, show_no_char). }
    change (vget [show_u a; show_u b] 0) with (Ok (show_u a)).
    change (vget [show_u a; show_u b] 1) with (Ok (show_u b)).
    cbn [mbind outcome_bind]. rewrite !trim_show, !parse_show by lia. cbn [ok_or mbind outcome_bind]. destruct (Z.ltb_spec b a); [lia|].
    rewrite wrap_id by (unfold in_width; lia). done.
Qed.

(** A list of addresses means what it says: each entry its address, or its
    address with each port of its span, both ends included, in the order of
    the list. *)
Theorem address_list_expanded es :
  es <> [] -> Forall entry_ok es ->
  str_to_str_addrs (join " " (print_entry <$> es)) = Ok (concat (meaning <$> es)).
Proof.
  intros Hne Hok. unfold str_to_str_addrs. rewrite split_join.
  2:{ by destruct es. }
  2:{ apply Forall_fmap. eapply Forall_impl; [exact Hok|]. intros e He. by apply no_ws_space, print_no_ws. }
  assert (expand_addrs (print_entry <$> es) = Ok (concat (meaning <$> es))) as ->.
  { clear Hne. induction Hok as [|e es He Hok IH]; [done|]. cbn [fmap list_fmap expand_addrs concat].
    rewrite trim_no_ws by (by apply print_no_ws).
    assert (0 < slen (print_entry e)) by (destruct e; apply slen_pos).
    destruct (Z.leb_spec (slen (print_entry e)) 0); [lia|].
    rewrite expand_entry by done. cbn. cbn in IH. by rewrite IH. }
  cbn. destruct (Z.leb_spec (zlen (concat (meaning <$> es))) 0) as [Hl|]; [|done].
  exfalso. destruct Hok as [|e es He _]; [done|]. cbn in Hl. rewrite zlen_app in Hl.
  pose proof (zlen_nonneg (concat (meaning <$> es))).
  assert (0 < zlen (meaning e)); [|lia]. destruct e as [h p|h a b]; [done|].
  cbn. unfold zlen. rewrite length_fmap, length_seqZ. cbn in He. lia.
Qed.

(** ** What a list of ports stands for *)

Inductive ports_entry := Port (p : Z) | Range (a b : Z).

Definition print_ports (e : ports_entry) : string :=
  match e with Port p => show_u p | Range a b => show_u a +:+ String "-" (show_u b) end.

Definition u16_entry (e : ports_entry) : Prop :=
  match e with Port p => is_u16 p | Range a b => is_u16 a /\ is_u16 b end.

Lemma entry_ports_spec e :
  u16_entry e ->
  entry_ports (print_ports e) = Ok (match e with Port p => [p] | Range _ _ => [] end).
Proof.
  intros He. unfold entry_ports.
  assert (no_ws (print_ports e) = true) as Hws.
  { destruct e; cbn; rewrite ?no_ws_app; cbn; by rewrite !show_no_ws. }
  rewrite trim_no_ws by done.
  assert (0 < slen (print_ports e)) as Hl.
  { destruct e as [p|a b]; [|apply slen_pos]. cbn. pose proof (show_nonempty p).
    destruct (show_u p); [done|]. unfold slen. cbn. lia. }
  destruct (Z.leb_spec (slen (print_ports e)) 0); [lia|].
  destruct e as [p|a b]; cbn [print_ports u16_entry] in *.
  - rewrite split_char_none by (by apply find_char_none, show_no_char).
    change (zlen [show_u p] =? 1) with true. change (vget [show_u p] 0) with (Ok (show_u p)).
    cbn [mbind outcome_bind]. by rewrite parse_show.
  - destruct He as [Ha Hb]. rewrite split_char_app by (by apply show_no_char).
    rewrite split_char_none by (by apply find_char_none, show_no_char).
    change (zlen [show_u a; show_u b] =? 1) with false. change (zlen [show_u a; show_u b] =? 2) with true.
    change (vget [show_u a; show_u b] 0) with (Ok (show_u a)).
    cbn [mbind outcome_bind]. rewrite !parse_show by done. destruct (Z.ltb_spec a a); [lia|].
    by rewrite Z.sub_diag.
Qed.

(** The single ports are read; a range, the form the configuration files
    use, is read as none, because its end is taken from its start. *)
Theorem get_ports_drops_ranges es :
  es <> [] -> Forall u16_entry es ->
  get_ports (join "," (print_ports <$> es)) =
  Ok (omap (fun e => match e with Port p => Some p | Range _ _ => None end) es).
Proof.
  intros Hne Hok. unfold get_ports.
  assert (forall e, no_ws (print_ports e) = true) as Hws.
  { intros e. destruct e; cbn; rewrite ?no_ws_app; cbn; by rewrite !show_no_ws. }
  rewrite trim_no_ws.
  2:{ clear. induction es as [|e [|e' es] IH]; [done| |].
      - destruct e; cbn; rewrite ?no_ws_app; cbn; by rewrite !show_no_ws.
      - change (join "," (print_ports <$> e :: e' :: es)) with
          (print_ports e +:+ String "," (join "," (print_ports <$> e' :: es))).
        rewrite no_ws_app. cbn [no_ws]. rewrite IH. destruct e; cbn; rewrite ?no_ws_app; cbn;
        by rewrite !show_no_ws. }
  rewrite split_join.
  2:{ by destruct es. }
  2:{ apply Forall_fmap, Forall_true. intros e. destruct e; cbn; rewrite ?has_char_app; cbn;
      by rewrite !show_no_char. }
  clear Hne. induction Hok as [|e es He Hok IH]; [done|].
  cbn [fmap list_fmap entries_ports omap list_omap]. rewrite entry_ports_spec by done.
  cbn. cbn in IH. rewrite IH. by destruct e.
Qed.

(** ** Hosts *)

Lemma find_str_app s t :
  has_char "]" s = false -> find_str "]:" (s +:+ String "]" (String ":" t)) = Some (String.length s).
Proof.
  induction s as [|c s IH]; intros H.
  - rewrite app_nil. cbn. done.
  - rewrite app_cons. cbn [has_char] in H. apply orb_false_elim in H as [Hc H].
    cbn [find_str starts_with]. rewrite Hc. cbn [andb]. by rewrite (IH H).
Qed.

Lemma ends_app s c : ends_with_char c (s +:+ String c "") = true.
Proof.
  induction s as [|d s IH]; [rewrite app_nil; cbn; apply Ascii.eqb_refl|].
  rewrite app_cons. cbn [ends_with_char]. destruct (s +:+ String c "") eqn:E; [|done].
  apply (f_equal String.length) in E. pose proof (slen_app s (String c "")) as El.
  unfold slen in El. cbn in *. lia.
Qed.

Lemma ends_none s c : has_char c s = false -> ends_with_char c s = false.
Proof.
  induction s as [|d s IH]; [done|]. cbn [has_char ends_with_char].
  intros [Hd H]%orb_false_elim. destruct s; [done|by apply IH].
Qed.

Lemma ends_app_none s t c : t <> "" -> has_char c t = false -> ends_with_char c (s +:+ t) = false.
Proof.
  intros Ht H. induction s as [|d s IH]; [by apply ends_none|]. rewrite app_cons. cbn [ends_with_char].
  destruct (s +:+ t) eqn:E; [|done]. destruct s; [by rewrite app_nil in E|by rewrite app_cons in E].
Qed.

Lemma starts_none s c : has_char c s = false -> starts_with (String c "") s = false.
Proof. destruct s as [|d s]; [done|]. cbn [has_char starts_with]. by intros [-> _]%orb_false_elim. Qed.

Lemma count_char_app c s t : count_char c (s +:+ t) = (count_char c s + count_char c t)%nat.
Proof. induction s as [|d s IH]; [done|]. rewrite app_cons. cbn. by rewrite IH, Nat.add_assoc. Qed.

Lemma count_none c s : has_char c s = false -> count_char c s = 0%nat.
Proof. induction s as [|d s IH]; [done|]. cbn. intros [-> H]%orb_false_elim. by rewrite IH. Qed.

(** A host header is taken apart in each of its forms: a name or an IPv4
    address with a port, an IPv6 address in brackets with a port or without,
    and a bare name or IPv6 address. *)
Theorem host_and_port_forms h p :
  no_ws h = true -> has_char "]" h = false -> has_char "[" h = false -> 0 <= p ->
  (has_char ":" h = false -> host_and_port (h +:+ String ":" (show_u p)) = Ok (h, show_u p)) /\
  host_and_port (String "[" (h +:+ "]")) = Ok (h, "") /\
  host_and_port (String "[" (h +:+ String "]" (String ":" (show_u p)))) = Ok (h, show_u p) /\
  (count_char ":" h <> 1%nat -> host_and_port h = Ok (h, "")).
Proof.
  intros Hws Hr Hl Hp. unfold host_and_port. split_and!.
  - intros Hc. rewrite trim_no_ws by (rewrite no_ws_app, Hws; cbn; by rewrite show_no_ws).
    rewrite starts_none by (rewrite has_char_app, Hl; cbn; by rewrite show_no_char). cbn [andb].
    rewrite count_char_app, (count_none _ h) by done. cbn. rewrite count_none by (by apply show_no_char).
    cbn. by rewrite rsplit_once_app by (by apply show_no_char).
  - rewrite trim_no_ws by (cbn; by rewrite no_ws_app, Hws).
    change (String "[" (h +:+ "]")) with (String "[" h +:+ String "]" "") at 2.
    rewrite ends_app. cbn [starts_with Ascii.eqb Bool.eqb andb]. by rewrite bracket_slice.
  - rewrite trim_no_ws by (cbn; rewrite no_ws_app, Hws; cbn; by rewrite show_no_ws).
    change (String "[" (h +:+ String "]" (String ":" (show_u p)))) with
      (String "[" h +:+ String "]" (String ":" (show_u p))) at 2.
    assert (String "[" h +:+ String "]" (String ":" (show_u p)) =
            (String "[" h +:+ "]:") +:+ show_u p) as -> by (by rewrite app_assoc_s).
    rewrite ends_app_none by first [apply show_nonempty|by apply show_no_char].
    rewrite andb_false_r. cbn [starts_with Ascii.eqb Bool.eqb andb sdrop].
    unfold split_once_str. rewrite find_str_app by done. cbn [mbind option_bind].
    rewrite stake_app. do 3 f_equal. rewrite <- (sdrop_app (h +:+ "]:") (show_u p)) at 2.
    rewrite app_assoc_s. f_equal. pose proof (slen_app h "]:") as E. unfold slen in E. cbn in E |- *. lia.
  - intros Hc. rewrite trim_no_ws by done. rewrite starts_none by done. cbn [andb].
    by rewrite (proj2 (Nat.eqb_neq _ _) Hc).
Qed.

(** ** Examples *)

Definition demo_entries : list entry := [Single "10.0.0.1" 80; Span "[::1]" 8001 8003].

Lemma address_list_expanded_witness :
  str_to_str_addrs "10.0.0.1:80 [::1]:[8001~8003]" =
  Ok ["10.0.0.1:80"; "[::1]:8001"; "[::1]:8002"; "[::1]:8003"].
Proof.
  apply (address_list_expanded demo_entries); [done|].
  repeat constructor; cbn; lia.
Defined.

Lemma get_ports_drops_ranges_witness : get_ports "53,10001-10101,8080" = Ok [53; 8080].
Proof.
  apply (get_ports_drops_ranges [Port 53; Range 10001 10101; Port 8080]); [done|].
  repeat constructor; cbn; done.
Defined.

Lemma host_and_port_forms_witness :
  host_and_port (String "[" ("fe80::1" +:+ String "]" (String ":" (show_u 443)))) = Ok ("fe80::1", "443").
Proof. by apply (host_and_port_forms "fe80::1" 443). Defined.
