(* ===== verification/Queue.v ===== *)
(** The intrusive doubly linked list of [any-base/src/queue.rs], on which the
    cache keeps its files in order of use: nodes in a heap, reached by counted
    handles and linked in a ring through the queue's sentinel. *)
From S2P Require Import Prelude.
#[local] Open Scope Z_scope.

(** ** Memory

    [QueueNodeInner].  The shared counter a node points to is [n_len]. *)
Record QueueNodeInner (T : Type) := mkInner {
  n_prev : Z;
  n_next : Z;
  n_data : option T;
  ref_cnt : Z;
  in_queue : bool;
  n_len : option Z
}.
Arguments mkInner {T}.
Arguments n_prev {T}.
Arguments n_next {T}.
Arguments n_data {T}.
Arguments ref_cnt {T}.
Arguments in_queue {T}.
Arguments n_len {T}.

(** [Queue]: the sentinel and the length counter. *)
Record Queue := mkQueue { q_sentinel : Z; q_len : Z }.

Section queue.
Context {T : Type}.
Implicit Types n : QueueNodeInner T.

Definition eta_inner n : QueueNodeInner T :=
  mkInner (n_prev n) (n_next n) (n_data n) (ref_cnt n) (in_queue n) (n_len n).
Definition set_prev : Z -> QueueNodeInner T -> QueueNodeInner T := ltac:(setter eta_inner (@n_prev T)).
Definition set_next : Z -> QueueNodeInner T -> QueueNodeInner T := ltac:(setter eta_inner (@n_next T)).
Definition set_ref : Z -> QueueNodeInner T -> QueueNodeInner T := ltac:(setter eta_inner (@ref_cnt T)).
Definition set_in_queue : bool -> QueueNodeInner T -> QueueNodeInner T :=
  ltac:(setter eta_inner (@in_queue T)).
Definition set_len : option Z -> QueueNodeInner T -> QueueNodeInner T :=
  ltac:(setter eta_inner (@n_len T)).

(** The nodes that are allocated, and the shared length counters. *)
Record Mem := mkMem { heap : gmap Z (QueueNodeInner T); lens : gmap Z Z }.

Definition set_heap (h : gmap Z (QueueNodeInner T)) (s : Mem) : Mem := mkMem h (lens s).
Definition set_lens (l : gmap Z Z) (s : Mem) : Mem := mkMem (heap s) l.

(** Reading or writing a node that is not allocated is undefined in the
    program.  Here it is a [Panic], so that a theorem that a call returns says
    that it does not happen. *)
Definition load (p : Z) : stm Mem (QueueNodeInner T) := fun s => (expect (heap s !! p), s).
Definition update (p : Z) (f : QueueNodeInner T -> QueueNodeInner T) : stm Mem unit := fun s =>
  match heap s !! p with
  | Some _ => (Ok tt, set_heap (alter f p (heap s)) s)
  | None => (Panic, s)
  end.
Definition alloc (p : Z) (n : QueueNodeInner T) : stm Mem unit :=
  modify (fun s => set_heap (<[p := n]> (heap s)) s).
Definition free (p : Z) : stm Mem unit := modify (fun s => set_heap (delete p (heap s)) s).

(** [fetch_add(d)] on a length counter, and its value. *)
Definition fetch_add (c d : Z) : stm Mem unit :=
  modify (fun s => set_lens (alter (fun x => wrap64 (x + d)) c (lens s)) s).
Definition len_of (c : Z) : stm Mem Z := gets (fun s => default 0 (lens s !! c)).

(** ** Handles

    A [QueueNode] is the address of its node.  [p] is the address a [Box] got,
    one that was not in use. *)
Definition node_new (p : Z) (d : T) : stm Mem Z :=
  _ ← alloc p (mkInner p p (Some d) 1 false None); mret p.
Definition new_sentinel (p : Z) : stm Mem Z :=
  _ ← alloc p (mkInner p p None 1 true None); mret p.

(** [from_raw], which is also [clone]. *)
Definition from_raw (p : Z) : stm Mem Z :=
  _ ← update p (fun n => set_ref (wrap64 (ref_cnt n + 1)) n); mret p.

(** One owner less: the end of a handle, and of a stay in a queue. *)
Definition release (p : Z) : stm Mem unit :=
  n ← load p;
  if ref_cnt n =? 1 then free p
  else update p (fun n => set_ref (wrap64 (ref_cnt n - 1)) n).
Definition drop_handle : Z -> stm Mem unit := release.

Definition is_detached (p : Z) : stm Mem bool := n ← load p; mret (negb (in_queue n)).
Definition node_data (p : Z) : stm Mem T := n ← load p; lift (expect (n_data n)).
Definition next (p : Z) : stm Mem Z := n ← load p; from_raw (n_next n).
Definition prev (p : Z) : stm Mem Z := n ← load p; from_raw (n_prev n).

Definition remove (p : Z) : stm Mem unit :=
  n ← load p;
  if negb (in_queue n) then done_
  else
    _ ← update (n_next n) (set_prev (n_prev n));
    _ ← update (n_prev n) (set_next (n_next n));
    _ ← update p (set_prev p);
    _ ← update p (set_next p);
    _ ← update p (set_in_queue false);
    n ← load p;
    _ ← (match n_len n with
         | Some c => _ ← update p (set_len None); fetch_add c (-1)
         | None => done_
         end);
    release p.

Definition insert_after (self node : Z) : stm Mem unit :=
  d ← is_detached self;
  if d : bool then lift Panic
  else
    d ← is_detached node;
    if negb d then lift Panic
    else
      n ← load self;
      c ← lift (expect (n_len n));
      _ ← update node (fun n => set_ref (wrap64 (ref_cnt n + 1)) n);
      _ ← update node (set_len (Some c));
      n ← load self;
      _ ← update node (set_prev self);
      _ ← update node (set_next (n_next n));
      _ ← update (n_next n) (set_prev node);
      _ ← update self (set_next node);
      _ ← update node (set_in_queue true);
      fetch_add c 1.

(** ** Queues

    [p] is the address of the sentinel, [c] that of the counter. *)
Definition queue_new (p c : Z) : stm Mem Queue :=
  _ ← modify (fun s => set_lens (<[c := 0]> (lens s)) s);
  s ← new_sentinel p;
  _ ← update s (set_len (Some c));
  mret (mkQueue s c).

Definition empty (q : Queue) : stm Mem bool := n ← len_of (q_len q); mret (n =? 0).
Definition sentinel (q : Queue) : stm Mem Z := from_raw (q_sentinel q).
Definition head_raw (q : Queue) : stm Mem Z := n ← load (q_sentinel q); from_raw (n_next n).
Definition tail_raw (q : Queue) : stm Mem Z := n ← load (q_sentinel q); from_raw (n_prev n).

Definition head (q : Queue) : stm Mem (option Z) :=
  e ← empty q; if e : bool then mret None else p ← head_raw q; mret (Some p).
Definition last (q : Queue) : stm Mem (option Z) :=
  e ← empty q; if e : bool then mret None else p ← tail_raw q; mret (Some p).

Definition insert_head (q : Queue) (node : Z) : stm Mem unit := insert_after (q_sentinel q) node.

(** The handle of the last node is a temporary. *)
Definition insert_tail (q : Queue) (node : Z) : stm Mem unit :=
  t ← tail_raw q; _ ← insert_after t node; drop_handle t.

Definition pop_head (q : Queue) : stm Mem (option Z) :=
  n ← head q;
  match n with None => mret None | Some p => _ ← remove p; mret (Some p) end.
Definition pop_tail (q : Queue) : stm Mem (option Z) :=
  n ← last q;
  match n with None => mret None | Some p => _ ← remove p; mret (Some p) end.

(** A round per node of the queue and one to see its end. *)
Definition rounds (q : Queue) : stm Mem nat := n ← len_of (q_len q); mret (S (Z.to_nat n)).

(** The loop of [collect] at the handle [p]; the handles it gathers are the
    caller's. *)
Fixpoint collect_loop (fuel : nat) (sent p : Z) : stm Mem (list Z) :=
  match fuel with
  | O => lift Fuel
  | S fuel =>
      if p =? sent then _ ← drop_handle p; mret []
      else
        c ← from_raw p;
        p' ← next p;
        _ ← drop_handle p;
        l ← collect_loop fuel sent p';
        mret (c :: l)
  end.

Definition collect (q : Queue) : stm Mem (list Z) :=
  fuel ← rounds q;
  s ← sentinel q;
  p ← next s;
  l ← collect_loop fuel s p;
  _ ← drop_handle s;
  mret l.

(** The inner loop of [sort]: the place for [p] at or before [at_]. *)
Fixpoint sort_place (cmp : T -> T -> comparison) (fuel : nat) (sent p at_ : Z) : stm Mem Z :=
  match fuel with
  | O => lift Fuel
  | S fuel =>
      if at_ =? sent then mret at_
      else
        a ← node_data at_; b ← node_data p;
        match cmp a b with
        | Gt => at' ← prev at_; _ ← drop_handle at_; sort_place cmp fuel sent p at'
        | _ => mret at_
        end
  end.

(** The outer loop of [sort] at the handle [p]: [rest] is the fuel, [fuel]
    that of the inner loop. *)
Fixpoint sort_loop (cmp : T -> T -> comparison) (rest fuel : nat) (sent p : Z) : stm Mem unit :=
  match rest with
  | O => lift Fuel
  | S rest =>
      if p =? sent then drop_handle p
      else
        nxt ← next p;
        at_ ← prev p;
        _ ← remove p;
        at_ ← sort_place cmp fuel sent p at_;
        _ ← insert_after at_ p;
        _ ← drop_handle p;
        _ ← drop_handle at_;
        sort_loop cmp rest fuel sent nxt
  end.

Definition sort (cmp : T -> T -> comparison) (q : Queue) : stm Mem unit :=
  n ← len_of (q_len q);
  if n <=? 1 then done_
  else
    fuel ← rounds q;
    s ← sentinel q;
    h ← head_raw q;
    p ← next h;
    _ ← drop_handle h;
    _ ← sort_loop cmp fuel fuel s p;
    drop_handle s.

(** The walk of [clear] along the chain it cut off. *)
Fixpoint clear_loop (fuel : nat) (sent cur : Z) : stm Mem unit :=
  match fuel with
  | O => lift Fuel
  | S fuel =>
      if cur =? sent then done_
      else
        n ← load cur;
        _ ← update cur (set_prev cur);
        _ ← update cur (set_next cur);
        _ ← update cur (set_len None);
        _ ← update cur (set_in_queue false);
        _ ← release cur;
        clear_loop fuel sent (n_next n)
  end.

Definition clear (q : Queue) : stm Mem unit :=
  e ← empty q;
  if e : bool then done_
  else
    fuel ← rounds q;
    n ← load (q_sentinel q);
    _ ← update (q_sentinel q) (set_next (q_sentinel q));
    _ ← update (q_sentinel q) (set_prev (q_sentinel q));
    _ ← modify (fun s => set_lens (<[q_len q := 0]> (lens s)) s);
    clear_loop fuel (q_sentinel q) (n_next n).

(** The end of a queue: [clear], then its handle of the sentinel. *)
Definition drop_queue (q : Queue) : stm Mem unit := _ ← clear q; drop_handle (q_sentinel q).

End queue.
Arguments Mem : clear implicits.
Arguments QueueNodeInner : clear implicits.
