(* ===== verification/QueueHeap.v ===== *)
(** The heap of a linked queue: the ring of links, the invariant that ties
    links, flags, counters and handles together, and what [remove] and
    [insert_after] of [Queue] do to it. *)
From S2P Require Import Prelude Queue.
#[local] Open Scope Z_scope.

(** A node is still allocated after some writes. *)
Ltac alive := cbn [heap set_lens]; rewrite ?lookup_alter_is_Some; by eauto.

Section queue.
Context {T : Type}.
Implicit Types n : QueueNodeInner T.
Implicit Types m : Mem T.

(** ** The ring

    [nx] and [pv] are the links of the nodes: they lead round the list [l] and
    back to the sentinel [s]. *)
Record ring (nx pv : Z -> option Z) (s : Z) (l : list Z) : Prop := {
  r_nodup : NoDup (s :: l);
  r_next : nx <$> (s :: l) = Some <$> (l ++ [s]);
  r_prev : pv <$> (l ++ [s]) = Some <$> (s :: l)
}.

Lemma ring_ext nx pv nx' pv' s l :
  ring nx pv s l -> (forall x, x ∈ s :: l -> nx' x = nx x /\ pv' x = pv x) -> ring nx' pv' s l.
Proof.
  intros [H1 H2 H3] E. split; [done|rewrite <- H2|rewrite <- H3].
  - apply list_fmap_ext. intros i x Hx. apply E. by eapply list_elem_of_lookup_2.
  - apply list_fmap_ext. intros i x Hx. apply E. apply list_elem_of_lookup_2 in Hx.
    rewrite elem_of_app, list_elem_of_singleton in Hx. rewrite elem_of_cons. tauto.
Qed.

(** The two ends of a stretch of the ring. *)
Lemma cons_snoc (x : Z) l : exists l' y, x :: l = l' ++ [y].
Proof. destruct (exists_last (l := x :: l)) as (l' & y & E); [done|]. by exists l', y. Qed.

Lemma snoc_cons (x : Z) l : exists y l', l ++ [x] = y :: l'.
Proof. destruct l as [|y l]; [by exists x, []|by exists y, (l ++ [x])]. Qed.

(** The neighbours of a node, and the ring without it. *)
Lemma ring_split nx pv s l1 p l2 :
  ring nx pv s (l1 ++ p :: l2) ->
  exists a pre b post, s :: l1 = pre ++ [a] /\ l2 ++ [s] = b :: post /\
    nx <$> pre = Some <$> l1 /\ nx a = Some p /\ nx p = Some b /\ nx <$> l2 = Some <$> post /\
    pv <$> l1 = Some <$> pre /\ pv p = Some a /\ pv b = Some p /\ pv <$> post = Some <$> l2.
Proof.
  intros [_ H2 H3]. destruct (cons_snoc s l1) as (pre & a & Ea), (snoc_cons s l2) as (b & post & Eb).
  exists a, pre, b, post. split; [done|]. split; [done|].
  assert (length pre = length l1) as L1 by (apply (f_equal length) in Ea; rewrite length_app in Ea; cbn in Ea; lia).
  assert (length post = length l2) as L2 by (apply (f_equal length) in Eb; rewrite length_app in Eb; cbn in Eb; lia).
  change (s :: l1 ++ p :: l2) with ((s :: l1) ++ p :: l2) in *. rewrite <- app_assoc in H2, H3.
  cbn [app] in H2, H3. change (s :: l1 ++ p :: l2) with ((s :: l1) ++ p :: l2) in *.
  rewrite Ea, Eb in H2, H3. rewrite <- app_assoc in H2, H3. cbn [app] in H2, H3.
  rewrite !fmap_app, !fmap_cons in H2, H3.
  apply app_inj_1 in H2 as [N1 H2]; [|by rewrite !length_fmap].
  apply app_inj_1 in H3 as [P1 H3]; [|by rewrite !length_fmap].
  injection H2 as Na Np N2. injection H3 as Pp Pb P2. done.
Qed.

(** A list of links none of which leaves [x] is not touched by a change there. *)
Lemma links_ne (f g : Z -> option Z) (l : list Z) (k : list (option Z)) :
  f <$> l = k -> (forall y, y ∈ l -> g y = f y) -> g <$> l = k.
Proof.
  intros <- E. apply list_fmap_ext. intros i y Hy. apply E. by eapply list_elem_of_lookup_2.
Qed.

Lemma ring_remove nx pv nx' pv' s l1 p l2 :
  ring nx pv s (l1 ++ p :: l2) ->
  (forall x, nx' x = if decide (pv p = Some x) then nx p else if decide (x = p) then Some p else nx x) ->
  (forall x, pv' x = if decide (nx p = Some x) then pv p else if decide (x = p) then Some p else pv x) ->
  ring nx' pv' s (l1 ++ l2).
Proof.
  intros R Hn Hp. pose proof (r_nodup _ _ _ _ R) as ND.
  destruct (ring_split _ _ _ _ _ _ R) as (a & pre & b & post & Ea & Eb & N1 & Na & Np & N2 & P1 & Pp & Pb & P2).
  assert (forall x, nx' x = if decide (Some a = Some x) then Some b
                            else if decide (x = p) then Some p else nx x) as Hn'.
  { intros x. rewrite Hn, Pp. by rewrite Np. }
  assert (forall x, pv' x = if decide (Some b = Some x) then Some a
                            else if decide (x = p) then Some p else pv x) as Hp'.
  { intros x. rewrite Hp, Np. by rewrite Pp. }
  clear Hn Hp.
  assert (NoDup ((pre ++ [a]) ++ p :: l2)) as ND1 by (rewrite <- Ea; done).
  assert (NoDup (l1 ++ p :: b :: post)) as ND2.
  { rewrite <- Eb. change (p :: l2 ++ [s]) with ((p :: l2) ++ [s]). rewrite app_assoc.
    apply NoDup_app. apply NoDup_cons in ND as [Hs ND]. split_and!; [done| |apply NoDup_singleton].
    intros x Hx ->%list_elem_of_singleton. done. }
  apply NoDup_app in ND1 as (ND1 & D2 & [D3 _]%NoDup_cons).
  apply NoDup_app in ND1 as (_ & D1 & _). setoid_rewrite elem_of_app in D2.
  apply NoDup_app in ND2 as (_ & D4 & [D5 [D6 _]%NoDup_cons]%NoDup_cons).
  assert (forall y, y ∈ pre -> Some a <> Some y /\ y <> p) as E1.
  { intros y Hy. split; [intros [= ->]; apply (D1 y Hy); left|]. intros ->.
    apply (D2 p); [by left|left]. }
  assert (forall y, y ∈ l2 -> Some a <> Some y /\ y <> p) as E2.
  { intros y Hy. split; [intros [= ->]; apply (D2 y); [right; left|by right]|]. by intros ->. }
  assert (forall y, y ∈ l1 -> Some b <> Some y /\ y <> p) as E3.
  { intros y Hy. split; [intros [= ->]; apply (D4 y Hy); right; left|]. intros ->.
    apply (D4 p Hy). left. }
  assert (forall y, y ∈ post -> Some b <> Some y /\ y <> p) as E4.
  { intros y Hy. split; [by intros [= ->]|]. intros ->. apply D5. by right. }
  split.
  - change (s :: l1 ++ p :: l2) with ((s :: l1) ++ p :: l2) in ND.
    change (s :: l1 ++ l2) with ((s :: l1) ++ l2). clear -ND.
    apply NoDup_app in ND as (H1 & H2 & [_ H3]%NoDup_cons). apply NoDup_app. split_and!; [done| |done].
    intros x Hx Hl. apply (H2 x Hx). by right.
  - change (s :: l1 ++ l2) with ((s :: l1) ++ l2). rewrite <- app_assoc, Ea, Eb, <- app_assoc. cbn [app].
    rewrite !fmap_app, !fmap_cons. f_equal; [|f_equal].
    + eapply links_ne; [exact N1|]. intros y [? ?]%E1. by rewrite Hn', !decide_False.
    + rewrite Hn'. by rewrite decide_True.
    + eapply links_ne; [exact N2|]. intros y [? ?]%E2. by rewrite Hn', !decide_False.
  - change (s :: l1 ++ l2) with ((s :: l1) ++ l2). rewrite <- app_assoc, Ea, Eb, <- app_assoc. cbn [app].
    rewrite !fmap_app, !fmap_cons. f_equal; [|f_equal].
    + eapply links_ne; [exact P1|]. intros y [? ?]%E3. by rewrite Hp', !decide_False.
    + rewrite Hp'. by rewrite decide_True.
    + eapply links_ne; [exact P2|]. intros y [? ?]%E4. by rewrite Hp', !decide_False.
Qed.

Lemma nodup_insert (l1 l2 : list Z) x p :
  NoDup (l1 ++ x :: l2) -> p ∉ l1 ++ x :: l2 -> NoDup (l1 ++ x :: p :: l2).
Proof.
  intros ND Hp. change (x :: p :: l2) with ([x] ++ p :: l2). rewrite app_assoc, <- Permutation_middle.
  rewrite <- app_assoc. by constructor.
Qed.

(** The ring cut after [x]: its links, and which nodes are apart. *)
Lemma ring_cut nx pv s l1 x l2 l :
  ring nx pv s l -> s :: l = l1 ++ x :: l2 ->
  exists l0 b post, s :: l0 = l1 ++ [x] /\ l2 ++ [s] = b :: post /\
    (nx <$> l1 = Some <$> l0 /\ nx x = Some b /\ nx <$> l2 = Some <$> post) /\
    (pv <$> l0 = Some <$> l1 /\ pv b = Some x /\ pv <$> post = Some <$> l2) /\
    (forall y, y ∈ l1 \/ y ∈ l2 -> y <> x) /\ (forall y, y ∈ l0 \/ y ∈ post -> y <> b) /\
    (forall y, y ∈ l0 \/ y ∈ b :: post -> y ∈ s :: l).
Proof.
  intros [ND H2 H3] E.
  assert (exists l0, s :: l0 = l1 ++ [x] /\ l = l0 ++ l2) as (l0 & E0 & ->).
  { destruct l1 as [|y l1]; injection E as -> ->; [by exists []|]. exists (l1 ++ [x]). by rewrite <- app_assoc. }
  destruct (snoc_cons s l2) as (b & post & Eb). exists l0, b, post. split; [done|]. split; [done|].
  assert (length l1 = length l0) as L1.
  { apply (f_equal length) in E0. rewrite length_app in E0. cbn in E0. lia. }
  assert (length post = length l2) as L2 by (apply (f_equal length) in Eb; rewrite length_app in Eb; cbn in Eb; lia).
  rewrite E, <- app_assoc, Eb in H2. rewrite E, <- app_assoc, Eb in H3. rewrite !fmap_app, !fmap_cons in H2, H3.
  apply app_inj_1 in H2 as [N1 H2]; [|by rewrite !length_fmap].
  apply app_inj_1 in H3 as [P1 H3]; [|by rewrite !length_fmap].
  injection H2 as Nx N2. injection H3 as Pb P2. split; [done|]. split; [done|].
  assert (NoDup (l0 ++ b :: post)) as ND2.
  { rewrite <- Eb, app_assoc, <- Permutation_cons_append. done. }
  assert (NoDup (l1 ++ x :: l2)) as ND1 by (rewrite <- E; done).
  rewrite <- Permutation_middle in ND1, ND2. apply NoDup_cons in ND1 as [D1 _], ND2 as [D2 _].
  rewrite elem_of_app in D1, D2. split; [by intros y Hy ->|]. split; [by intros y Hy ->|].
  intros y. rewrite <- Eb, elem_of_cons, !elem_of_app, list_elem_of_singleton. tauto.
Qed.

Lemma ring_insert nx pv nx' pv' s l1 x l2 p l :
  ring nx pv s l -> s :: l = l1 ++ x :: l2 -> p ∉ s :: l ->
  (forall y, nx' y = if decide (y = x) then Some p else if decide (y = p) then nx x else nx y) ->
  (forall y, pv' y = if decide (nx x = Some y) then Some p else if decide (y = p) then Some x else pv y) ->
  exists l', s :: l' = l1 ++ x :: p :: l2 /\ ring nx' pv' s l'.
Proof.
  intros R E Hnp Hn Hp. pose proof (r_nodup _ _ _ _ R) as ND.
  destruct (ring_cut _ _ _ _ _ _ _ R E) as (l0 & b & post & E0 & Eb & (N1 & Nx & N2) & (P1 & Pb & P2) & Dx & Db & Din).
  exists (l0 ++ p :: l2).
  assert (s :: l0 ++ p :: l2 = l1 ++ x :: p :: l2) as E'.
  { change (s :: l0 ++ p :: l2) with ((s :: l0) ++ p :: l2). by rewrite E0, <- app_assoc. }
  split; [done|].
  assert (forall y, pv' y = if decide (Some b = Some y) then Some p else if decide (y = p) then Some x else pv y) as Hp'.
  { intros y. by rewrite Hp, Nx. }
  assert (forall y, y ∈ l1 ++ x :: l2 -> y <> p) as Hne by (intros y Hy ->; by rewrite <- E in Hy).
  assert (forall y, y ∈ l0 \/ y ∈ b :: post -> y <> p) as Hne' by (intros y Hy ->; by apply Hnp, Din).
  assert (b <> p) as Hbp by (apply Hne'; right; left).
  assert (x <> p) as Hxp by (apply Hne, elem_of_app; right; left).
  split; [rewrite E'; apply nodup_insert; by rewrite <- E|rewrite E', <- app_assoc..];
    cbn [app]; rewrite Eb, !fmap_app, !fmap_cons; (f_equal; [|f_equal; [|f_equal]]).
  - eapply links_ne; [exact N1|]. intros y Hy. rewrite Hn, decide_False, decide_False; [done| |].
    + apply Hne, elem_of_app. by left.
    + apply Dx. by left.
  - by rewrite Hn, decide_True.
  - by rewrite Hn, decide_False, decide_True.
  - eapply links_ne; [exact N2|]. intros y Hy. rewrite Hn, decide_False, decide_False; [done| |].
    + apply Hne, elem_of_app. right. by right.
    + apply Dx. by right.
  - eapply links_ne; [exact P1|]. intros y Hy. rewrite Hp', decide_False, decide_False; [done| |].
    + apply Hne'. by left.
    + intros [= ->]. apply (Db y); [by left|done].
  - rewrite Hp', decide_False, decide_True; [done|done|congruence].
  - by rewrite Hp', decide_True.
  - eapply links_ne; [exact P2|]. intros y Hy. rewrite Hp', decide_False, decide_False; [done| |].
    + apply Hne'. right. by right.
    + intros [= ->]. apply (Db y); [by right|done].
Qed.

Lemma ring_next nx pv s l l1 x l2 b post :
  ring nx pv s l -> s :: l = l1 ++ x :: l2 -> l2 ++ [s] = b :: post -> nx x = Some b.
Proof.
  intros [_ H2 _] E Eb. assert (length l1 + length l2 = length l)%nat as L.
  { apply (f_equal length) in E. rewrite length_app in E. cbn in E. lia. }
  rewrite E in H2. assert (exists l0, l ++ [s] = l0 ++ b :: post /\ length l0 = length l1) as (l0 & E0 & L0).
  { destruct l1 as [|y l1]; injection E as -> ->; [by exists []|]. exists (l1 ++ [x]).
    rewrite <- !app_assoc. cbn [app]. rewrite Eb. split; [done|]. rewrite length_app. cbn. lia. }
  rewrite E0, !fmap_app, !fmap_cons in H2. apply app_inj_1 in H2 as [_ H2]; [by injection H2|].
  by rewrite !length_fmap.
Qed.

Lemma ring_prev nx pv s l l1 x l2 pre a :
  ring nx pv s l -> l ++ [s] = l1 ++ x :: l2 -> s :: l1 = pre ++ [a] -> pv x = Some a.
Proof.
  intros [_ _ H3] E Ea. assert (s :: l = pre ++ a :: removelast (x :: l2)) as E0.
  { change (a :: removelast (x :: l2)) with ([a] ++ removelast (x :: l2)).
    rewrite app_assoc, <- Ea. cbn [app]. f_equal. rewrite <- (removelast_last l s), E.
    by rewrite removelast_app. }
  rewrite E, E0, !fmap_app, !fmap_cons in H3. apply app_inj_1 in H3 as [_ H3]; [by injection H3|].
  rewrite !length_fmap. apply (f_equal length) in Ea. rewrite length_app in Ea. cbn in Ea. lia.
Qed.

(** ** What holds of memory

    [hc] is the number of handles there are to each node.  A node is counted
    by its handles and by the queue it is in; a sentinel only by its handles. *)
Definition owned n : Z := match n_data n with Some _ => if in_queue n then 1 else 0 | None => 0 end.

Record node_ok (hc : Z -> Z) (x : Z) n : Prop := {
  no_flag : in_queue n = bool_decide (is_Some (n_len n));
  no_loop : in_queue n = false -> n_prev n = x /\ n_next n = x /\ is_Some (n_data n);
  no_count : ref_cnt n = hc x + owned n;
  no_live : 0 < ref_cnt n
}.

Record mem_ok (hc : Z -> Z) (m : Mem T) : Prop := {
  mo_node : forall x n, heap m !! x = Some n -> node_ok hc x n;
  mo_held : forall x, 0 <= hc x < 2 ^ 64 - 1;
  mo_alive : forall x, 0 < hc x -> is_Some (heap m !! x)
}.

(** The queue [q] holds the nodes [l], in this order, and no other node points
    at its counter. *)
Record queue_inv (q : Queue) (l : list Z) (m : Mem T) : Prop := {
  qi_ring : ring (fun x => n_next <$> heap m !! x) (fun x => n_prev <$> heap m !! x) (q_sentinel q) l;
  qi_mem : forall x n, heap m !! x = Some n -> (n_len n = Some (q_len q) <-> x ∈ q_sentinel q :: l);
  qi_sent : exists n, heap m !! q_sentinel q = Some n /\ n_data n = None;
  qi_data : forall x, x ∈ l -> exists n d, heap m !! x = Some n /\ n_data n = Some d;
  qi_count : lens m !! q_len q = Some (zlen l);
  qi_fits : zlen l < 2 ^ 64
}.

Definition dat (m : Mem T) (x : Z) : option T := heap m !! x ≫= n_data.

(** What a call on the queue [q] leaves: the handles are [hc], the queue
    holds [l], every other queue is as it was, and no node appeared, got other
    data or joined another queue. *)
Record leads (q : Queue) (hc : Z -> Z) (l : list Z) (m m' : Mem T) : Prop := {
  ld_mem : mem_ok hc m';
  ld_queue : queue_inv q l m';
  ld_others : forall q' l', q_len q' <> q_len q -> queue_inv q' l' m -> queue_inv q' l' m';
  ld_dat : forall x, is_Some (heap m' !! x) -> is_Some (heap m !! x) /\ dat m' x = dat m x;
  ld_joins : forall x n' c, heap m' !! x = Some n' -> c <> q_len q -> n_len n' = Some c ->
             exists n, heap m !! x = Some n /\ n_len n = Some c
}.

Lemma leads_trans q hc1 l1 hc2 l2 m m1 m2 :
  leads q hc1 l1 m m1 -> leads q hc2 l2 m1 m2 -> leads q hc2 l2 m m2.
Proof.
  intros [_ _ O1 D1 J1] [M2 Q2 O2 D2 J2]. split; [done|done|by auto|..].
  - intros x Hx. destruct (D2 x Hx) as [H1 ->]. by apply D1.
  - intros x n c Hx Hc E. destruct (J2 x n c Hx Hc E) as (n1 & H1 & E1). by apply (J1 x n1).
Qed.

Definition upd (hc : Z -> Z) (p d x : Z) : Z := if decide (x = p) then hc x + d else hc x.

Lemma mem_ok_ext hc hc' m : (forall x, hc x = hc' x) -> mem_ok hc m -> mem_ok hc' m.
Proof.
  intros E [H1 H2 H3]. split.
  - intros x n Hx. destruct (H1 x n Hx). split; [done|done|by rewrite <- E|done].
  - intros x. rewrite <- E. apply H2.
  - intros x. rewrite <- E. apply H3.
Qed.

Lemma leads_ext q hc hc' l m m' : (forall x, hc x = hc' x) -> leads q hc l m m' -> leads q hc' l m m'.
Proof. intros E [M Q O D J]. split; [by eapply mem_ok_ext|done..]. Qed.

Lemma leads_refl q hc l m : mem_ok hc m -> queue_inv q l m -> leads q hc l m m.
Proof. intros. split; [done..|]. intros x n c Hx _ E. by exists n. Qed.

(** Calls that only count: every node of a queue stays as it is but for its
    count. *)
Record keeps (m m' : Mem T) : Prop := {
  k_lens : lens m' = lens m;
  k_back : forall x n', heap m' !! x = Some n' ->
           exists n, heap m !! x = Some n /\ set_ref 0 n' = set_ref 0 n;
  k_stay : forall x n, heap m !! x = Some n -> in_queue n = true -> is_Some (heap m' !! x)
}.

Lemma strip_fields n n' :
  set_ref 0 n' = set_ref 0 n ->
  n_prev n' = n_prev n /\ n_next n' = n_next n /\ n_data n' = n_data n /\
  in_queue n' = in_queue n /\ n_len n' = n_len n.
Proof. destruct n, n'. cbn. by intros [= -> -> -> -> ->]. Qed.

Lemma queue_in q l hc m x :
  mem_ok hc m -> queue_inv q l m -> x ∈ q_sentinel q :: l ->
  exists n, heap m !! x = Some n /\ in_queue n = true /\ n_len n = Some (q_len q).
Proof.
  intros M Q Hx. assert (exists n, heap m !! x = Some n) as [n Hn].
  { apply elem_of_cons in Hx as [->|Hx]; [destruct (qi_sent _ _ _ Q) as (n & ? & _)|
      destruct (qi_data _ _ _ Q x Hx) as (n & _ & ? & _)]; by exists n. }
  exists n. assert (n_len n = Some (q_len q)) as Hl by by eapply (qi_mem _ _ _ Q).
  split_and!; [done| |done]. rewrite (no_flag _ _ _ (mo_node _ _ M x n Hn)), Hl.
  by apply bool_decide_true.
Qed.

Lemma keeps_queue q l hc m m' :
  mem_ok hc m -> keeps m m' -> queue_inv q l m -> queue_inv q l m'.
Proof.
  intros M [K1 K2 K3] Q.
  assert (forall x, x ∈ q_sentinel q :: l -> exists n n', heap m !! x = Some n /\
    heap m' !! x = Some n' /\ set_ref 0 n' = set_ref 0 n) as H.
  { intros x Hx. destruct (queue_in _ _ _ _ _ M Q Hx) as (n & Hn & Hi & _).
    destruct (K3 x n Hn Hi) as [n' Hn']. destruct (K2 x n' Hn') as (n0 & Hn0 & E).
    exists n0, n'. done. }
  destruct Q as [R QM QS QD QC QF]. split; [|..|by rewrite K1|done].
  - eapply ring_ext; [exact R|]. intros x Hx. destruct (H x Hx) as (n & n' & -> & -> & E). cbn.
    apply strip_fields in E as (E1 & E2 & _). by rewrite E1, E2.
  - intros x n' Hn'. destruct (K2 x n' Hn') as (n & Hn & E). apply strip_fields in E as (_ & _ & _ & _ & ->).
    by apply QM.
  - destruct QS as (n & Hn & Hd). destruct (H (q_sentinel q)) as (n0 & n' & Hn0 & Hn' & E); [left|].
    exists n'. split; [done|]. apply strip_fields in E as (_ & _ & -> & _). by simplify_eq.
  - intros x Hx. destruct (QD x Hx) as (n & d & Hn & Hd). destruct (H x) as (n0 & n' & Hn0 & Hn' & E); [by right|].
    exists n', d. split; [done|]. apply strip_fields in E as (_ & _ & -> & _). by simplify_eq.
Qed.

Lemma keeps_leads q l hc hc' m m' :
  mem_ok hc m -> mem_ok hc' m' -> keeps m m' -> queue_inv q l m -> leads q hc' l m m'.
Proof.
  intros M M' K Q. split; [done|by apply (keeps_queue q l hc m m')|intros q' l' _; by apply (keeps_queue q' l' hc m m')|..].
  - intros x [n' Hn']. destruct (k_back _ _ K x n' Hn') as (n & Hn & E). split; [by exists n|].
    apply strip_fields in E as (_ & _ & E & _). unfold dat. rewrite Hn', Hn. cbn. by rewrite E.
  - intros x n' c Hn' _ Hc. destruct (k_back _ _ K x n' Hn') as (n & Hn & E). exists n. split; [done|].
    apply strip_fields in E as (_ & _ & _ & _ & <-). done.
Qed.

Lemma update_step p f (m : Mem T) n :
  heap m !! p = Some n -> update p f m = (Ok tt, mkMem (alter f p (heap m)) (lens m)).
Proof. intros H. unfold update. by rewrite H. Qed.

Lemma load_step p (m : Mem T) n : heap m !! p = Some n -> load p m = (Ok n, m).
Proof. intros H. unfold load. by rewrite H. Qed.

Lemma from_raw_ok hc m p :
  mem_ok hc m -> is_Some (heap m !! p) -> hc p < 2 ^ 64 - 2 ->
  exists m', from_raw p m = (Ok p, m') /\ mem_ok (upd hc p 1) m' /\ keeps m m'.
Proof.
  intros [M1 M2 M3] [n Hn] Hlt. eexists. unfold from_raw. split; [by step by by eapply update_step|].
  assert (forall x n', alter (fun n => set_ref (wrap64 (ref_cnt n + 1)) n) p (heap m) !! x = Some n' ->
    exists n, heap m !! x = Some n /\
      n' = if decide (p = x) then set_ref (ref_cnt n + 1) n else n) as H.
  { intros x n' [[-> (n0 & Hx & ->)]|[Hne Hx]]%lookup_alter_Some.
    - exists n0. rewrite decide_True by done. split; [done|]. destruct (M1 _ _ Hx) as [_ _ C L].
      pose proof (M2 x). rewrite wrap_id; [done|]. unfold in_width.
      assert (owned n0 <= 1); [|lia]. unfold owned. repeat case_match; lia.
    - exists n'. by rewrite decide_False. }
  split; [|split; [done|..]]; cbn [heap lens].
  - split; cbn [heap].
    + intros x n' (n0 & Hx & ->)%H. destruct (M1 x n0 Hx) as [F L C V]. unfold upd.
      destruct (decide (p = x)) as [->|]; split; cbn; try done.
      * rewrite decide_True by done. rewrite C. unfold owned. cbn. lia.
      * lia.
      * by rewrite decide_False.
    + intros x. specialize (M2 x). unfold upd. case_decide; subst; lia.
    + intros x. unfold upd. rewrite lookup_alter_is_Some. case_decide; [subst; by exists n|apply M3].
  - intros x n' (n0 & Hx & ->)%H. exists n0. split; [done|]. by case_decide.
  - intros x n0 Hx _. rewrite lookup_alter_is_Some. by exists n0.
Qed.

(** The last handle to a sentinel is the queue's. *)
Lemma release_ok hc m p :
  mem_ok hc m -> 0 < hc p -> (dat m p <> None \/ 1 < hc p) ->
  exists m', release p m = (Ok tt, m') /\ mem_ok (upd hc p (-1)) m' /\ keeps m m'.
Proof.
  intros [M1 M2 M3] Hp Hd. destruct (M3 p Hp) as [n Hn]. unfold release. step by by eapply load_step.
  destruct (M1 p n Hn) as [F L C V]. pose proof (M2 p) as Hb.
  assert (0 <= owned n <= 1) as Ho by (unfold owned; repeat case_match; lia).
  destruct (Z.eqb_spec (ref_cnt n) 1) as [E|E]; eexists; (split; [first [by eapply update_step|done]|]).
  - assert (hc p = 1 /\ owned n = 0) as [H1 H0] by lia.
    assert (in_queue n = false) as Hq.
    { destruct Hd as [Hd|]; [|lia]. unfold dat in Hd. rewrite Hn in Hd. cbn in Hd. unfold owned in H0.
      repeat case_match; done || lia. }
    split; [split; cbn|split; cbn; [done|..]].
    + intros x n' [Hne Hx]%lookup_delete_Some. destruct (M1 x n' Hx). split; try done.
      unfold upd. by rewrite decide_False.
    + intros x. specialize (M2 x). unfold upd. case_decide; subst; lia.
    + intros x. unfold upd. case_decide; [subst; lia|]. rewrite lookup_delete_ne by done. apply M3.
    + intros x n' [_ Hx]%lookup_delete_Some. by exists n'.
    + intros x n' Hx Hq'. rewrite lookup_delete_ne; [by exists n'|]. intros <-. simplify_eq. congruence.
  - assert (wrap64 (ref_cnt n - 1) = ref_cnt n - 1) as Hw by (apply wrap_id; unfold in_width; lia).
    split; [split; cbn|split; cbn; [done|..]].
    + intros x n' [[<- (n0 & Hx & ->)]|[Hne Hx]]%lookup_alter_Some.
      * assert (n0 = n) as -> by congruence. rewrite Hw. unfold upd. split; cbn; try done; [|lia].
        rewrite decide_True by done. rewrite C. unfold owned. cbn. lia.
      * destruct (M1 x n' Hx). split; try done. unfold upd. by rewrite decide_False.
    + intros x. specialize (M2 x). unfold upd. case_decide; subst; lia.
    + intros x. unfold upd. rewrite lookup_alter_is_Some. case_decide; [subst; by exists n|apply M3].
    + intros x n' [[<- (n0 & Hx & ->)]|[Hne Hx]]%lookup_alter_Some; [by exists n0|by exists n'].
    + intros x n' Hx _. rewrite lookup_alter_is_Some. by exists n'.
Qed.

Lemma others_frame q (m m' : Mem T) :
  (forall x n c, c <> q_len q -> n_len n = Some c -> heap m !! x = Some n <-> heap m' !! x = Some n) ->
  (forall c, c <> q_len q -> lens m' !! c = lens m !! c) ->
  forall q' l', q_len q' <> q_len q -> queue_inv q' l' m -> queue_inv q' l' m'.
Proof.
  intros HF HL q' l' Hne [R QM QS QD QC QF].
  assert (forall x, x ∈ q_sentinel q' :: l' -> exists n, heap m !! x = Some n /\ heap m' !! x = Some n) as H.
  { intros x Hx. assert (exists n, heap m !! x = Some n) as [n Hn].
    { apply elem_of_cons in Hx as [->|Hx]; [destruct QS as (n & ? & _)|destruct (QD x Hx) as (n & _ & ? & _)];
        by exists n. }
    exists n. split; [done|]. apply (HF x n (q_len q')); [done| |done]. by apply (QM x n). }
  split; [|..|by rewrite HL|done].
  - eapply ring_ext; [exact R|]. intros x Hx. destruct (H x Hx) as (n & E1 & E2). by rewrite E1, E2.
  - intros x n Hn. split.
    + intros Hc. apply (QM x n); [|done]. by apply (HF x n (q_len q')).
    + intros Hx. destruct (H x Hx) as (n0 & E1 & E2).
      assert (n0 = n) as -> by congruence. by apply (QM x n).
  - destruct QS as (n & Hn & Hd). destruct (H (q_sentinel q')) as (n0 & E1 & E2); [left|].
    assert (n0 = n) as -> by congruence. by exists n.
  - intros x Hx. destruct (QD x Hx) as (n & d & Hn & Hd). destruct (H x) as (n0 & E1 & E2); [by right|].
    assert (n0 = n) as -> by congruence. by exists n, d.
Qed.

Lemma update_alive p f (m : Mem T) :
  is_Some (heap m !! p) -> update p f m = (Ok tt, mkMem (alter f p (heap m)) (lens m)).
Proof. intros [n H]. by eapply update_step. Qed.

(** A call that rewires the neighbours of [p] in the queue [q]. *)
Record rewired (q : Queue) (p : Z) (m m' : Mem T) : Prop := {
  rw_back : forall y n', heap m' !! y = Some n' -> y <> p ->
            exists n, heap m !! y = Some n /\ n_data n' = n_data n /\ ref_cnt n' = ref_cnt n /\
              in_queue n' = in_queue n /\ n_len n' = n_len n /\
              (n_len n <> Some (q_len q) -> n' = n);
  rw_alive : forall y, is_Some (heap m !! y) -> is_Some (heap m' !! y);
  rw_lens : forall c, c <> q_len q -> lens m' !! c = lens m !! c;
  rw_node : exists n n' d, heap m !! p = Some n /\ heap m' !! p = Some n' /\ n_data n = Some d /\
            n_data n' = Some d /\ forall c, c <> q_len q -> n_len n <> Some c /\ n_len n' <> Some c
}.

Lemma rewired_leads q hc l l' p m m' n' :
  mem_ok hc m -> queue_inv q l m -> rewired q p m m' -> heap m' !! p = Some n' -> node_ok hc p n' ->
  ring (fun x => n_next <$> heap m' !! x) (fun x => n_prev <$> heap m' !! x) (q_sentinel q) l' ->
  (forall y, y ∈ q_sentinel q :: l' <->
     if decide (y = p) then n_len n' = Some (q_len q) else y ∈ q_sentinel q :: l) ->
  lens m' !! q_len q = Some (zlen l') -> zlen l' < 2 ^ 64 -> leads q hc l' m m'.
Proof.
  intros M Q [HB HA HL (n & n0 & d & Hn & Hn0 & Hd & Hd' & Hc)] Hn' Hok R Hmem HC HF.
  assert (n0 = n') as -> by congruence.
  assert (q_sentinel q <> p) as Hsp.
  { intros <-. destruct (qi_sent _ _ _ Q) as (n1 & H1 & H2). congruence. }
  split.
  - split; [|apply M|intros x Hx; by apply HA, (mo_alive _ _ M)].
    intros x n1 Hx. destruct (decide (x = p)) as [->|Hne]; [congruence|].
    destruct (HB x n1 Hx Hne) as (n2 & Hx2 & E1 & E2 & E3 & E4 & E5).
    destruct (mo_node _ _ M x n2 Hx2) as [F L C V]. split; [by rewrite E3, E4|..|by rewrite E2].
    + rewrite E3. intros Hf. rewrite E5; [by apply L|]. rewrite F in Hf.
      apply bool_decide_eq_false in Hf. intros E. apply Hf. rewrite E. by eexists.
    + unfold owned. by rewrite E1, E2, E3.
  - split; [done|..|done|done].
    + intros x n1 Hx. rewrite Hmem. destruct (decide (x = p)) as [->|Hne]; [by simplify_eq|].
      destruct (HB x n1 Hx Hne) as (n2 & Hx2 & _ & _ & _ & -> & _). by apply (qi_mem _ _ _ Q).
    + destruct (qi_sent _ _ _ Q) as (n1 & H1 & Hd1). destruct (HA (q_sentinel q)) as [n2 H2]; [by exists n1|].
      exists n2. split; [done|]. destruct (HB _ _ H2 Hsp) as (n3 & H3 & -> & _). congruence.
    + intros x Hx. destruct (decide (x = p)) as [->|Hne]; [by exists n', d|].
      assert (x ∈ l) as Hxl.
      { specialize (Hmem x). rewrite decide_False in Hmem by done.
        assert (x ∈ q_sentinel q :: l') as Hx' by by right. apply Hmem, elem_of_cons in Hx' as [->|]; [|done].
        pose proof (r_nodup _ _ _ _ R) as ND. apply NoDup_cons in ND as [ND _]. done. }
      destruct (qi_data _ _ _ Q x Hxl) as (n1 & d1 & H1 & Hd1).
      destruct (HA x) as [n2 H2]; [by exists n1|]. exists n2, d1. split; [done|].
      destruct (HB _ _ H2 Hne) as (n3 & H3 & -> & _). congruence.
  - apply others_frame; [|done]. intros x n1 c Hne E. destruct (decide (x = p)) as [->|Hxp].
    + destruct (Hc c Hne). split; intros; congruence.
    + split; intros Hx.
      * destruct (HA x) as [n2 H2]; [by exists n1|].
        destruct (HB _ _ H2 Hxp) as (n3 & H3 & _ & _ & _ & _ & E3). rewrite H2, E3; congruence.
      * destruct (HB _ _ Hx Hxp) as (n3 & H3 & _ & _ & _ & E3 & E4). rewrite E4; congruence.
  - intros x [n1 Hx]. destruct (decide (x = p)) as [->|Hne]; unfold dat.
    + rewrite Hn, Hn0. cbn. by rewrite Hd, Hd'.
    + destruct (HB _ _ Hx Hne) as (n2 & H2 & E & _). rewrite Hx, H2. cbn. by rewrite E.
  - intros x n1 c Hx Hne E. destruct (decide (x = p)) as [->|Hxp]; [destruct (Hc c Hne); congruence|].
    destruct (HB _ _ Hx Hxp) as (n2 & H2 & _ & _ & _ & E4 & _). exists n2. split; [done|congruence].
Qed.

(** How a rewired heap comes about: the links of two neighbours are set, and
    [p] becomes [n']. *)
Lemma rewired_intro q p (f g : Z -> Z) a b n n' d (m m' : Mem T) na nb :
  heap m !! p = Some n -> n_data n = Some d -> n_data n' = Some d ->
  (forall c, c <> q_len q -> n_len n <> Some c /\ n_len n' <> Some c) ->
  heap m !! a = Some na -> n_len na = Some (q_len q) ->
  heap m !! b = Some nb -> n_len nb = Some (q_len q) ->
  (forall c, c <> q_len q -> lens m' !! c = lens m !! c) ->
  (forall y, heap m' !! y =
     if decide (y = p) then Some n'
     else (fun n => (if decide (a = y) then set_next (f y) else id)
                   ((if decide (b = y) then set_prev (g y) else id) n)) <$> heap m !! y) ->
  rewired q p m m'.
Proof.
  intros Hn Hd Hd' Hc Ha Hca Hb Hcb HL EH. split; [|..|done|].
  - intros y n1. rewrite EH. intros H Hy. rewrite decide_False in H by done.
    apply fmap_Some in H as (n0 & Hy0 & ->). exists n0.
    destruct (decide (a = y)) as [->|], (decide (b = y)) as [->|]; cbn; split_and!; try done; congruence.
  - intros y Hy. rewrite EH. case_decide; [done|]. by apply fmap_is_Some.
  - exists n, n', d. split_and!; try done. rewrite EH. by rewrite decide_True.
Qed.

(** *** Removing *)

(** The node that is left behind. *)
Definition detached (hc : Z -> Z) (p : Z) n : QueueNodeInner T :=
  mkInner p p (n_data n) (hc p) false None.

Lemma remove_run hc m p n c a b na nb :
  mem_ok hc m -> 0 < hc p -> heap m !! p = Some n -> n_len n = Some c -> is_Some (n_data n) ->
  n_prev n = a -> n_next n = b -> heap m !! a = Some na -> heap m !! b = Some nb -> a <> p -> b <> p ->
  exists m', remove p m = (Ok tt, m') /\
    lens m' = alter (fun x => wrap64 (x + -1)) c (lens m) /\
    forall x, heap m' !! x =
      if decide (x = p) then Some (detached hc p n)
      else (fun n => (if decide (a = x) then set_next b else id)
                    ((if decide (b = x) then set_prev a else id) n)) <$> heap m !! x.
Proof.
  intros M Hp Hn Hc [d Hd] Ha Hb Hna Hnb Hap Hbp.
  destruct (mo_node _ _ M p n Hn) as [F L C V]. pose proof (mo_held _ _ M p) as Hh.
  assert (in_queue n = true) as Hq by (rewrite F, Hc; by apply bool_decide_true).
  assert (ref_cnt n = hc p + 1) as Hr by (rewrite C; unfold owned; by rewrite Hd, Hq).
  unfold remove. step by (by eapply load_step). rewrite Hq, Ha, Hb. cbn [negb].
  do 5 (step by (apply update_alive; alive)).
  set (n5 := set_in_queue false (set_next p (set_prev p n))).
  step by (eapply (load_step _ _ n5); cbn [heap];
           rewrite !lookup_alter_eq, !lookup_alter_ne by done; by rewrite Hn).
  change (n_len n5) with (n_len n). rewrite Hc.
  step by (unfold mbind, stm_bind; rewrite update_alive by alive; reflexivity).
  unfold release.
  step by (eapply (load_step _ _ (set_len None n5)); cbn [heap set_lens];
           rewrite !lookup_alter_eq, !lookup_alter_ne by done; by rewrite Hn).
  change (ref_cnt (set_len None n5)) with (ref_cnt n). rewrite Hr.
  destruct (Z.eqb_spec (hc p + 1) 1); [lia|]. eexists. split; [apply update_alive; alive|].
  split; [done|]. intros x. cbn [heap set_lens lens]. case_decide as Hx.
  - subst x. rewrite !lookup_alter_eq, !lookup_alter_ne by done. rewrite Hn. cbn. unfold detached.
    rewrite Hr, Z.add_simpl_r, wrap_id; [done|]. unfold in_width. lia.
  - rewrite !(lookup_alter_ne _ _ p x) by done. rewrite !lookup_alter.
    destruct (decide (a = x)) as [->|], (decide (b = x)) as [->|]; by destruct (heap m !! x).
Qed.

Lemma remove_ok q hc l1 p l2 m :
  mem_ok hc m -> queue_inv q (l1 ++ p :: l2) m -> 0 < hc p ->
  exists m', remove p m = (Ok tt, m') /\ leads q hc (l1 ++ l2) m m' /\
    exists n, heap m' !! p = Some n /\ in_queue n = false.
Proof.
  intros M Q Hp. destruct (qi_data _ _ _ Q p) as (n & d & Hn & Hd).
  { apply elem_of_app. right. left. }
  assert (p ∈ q_sentinel q :: l1 ++ p :: l2) as Hin by (right; apply elem_of_app; right; left).
  assert (n_len n = Some (q_len q)) as Hc by by eapply (qi_mem _ _ _ Q).
  destruct (ring_split _ _ _ _ _ _ (qi_ring _ _ _ Q)) as (a & pre & b & post & Ea & Eb & _ & _ & Np & _ & _ & Pp & _).
  rewrite Hn in Np, Pp. injection Np as Hb. injection Pp as Ha.
  assert (a ∈ q_sentinel q :: l1) as Hia by (rewrite Ea; apply elem_of_app; right; left).
  assert (b ∈ l2 ++ [q_sentinel q]) as Hib by (rewrite Eb; left).
  rewrite elem_of_app, list_elem_of_singleton in Hib. rewrite elem_of_cons in Hia.
  pose proof (r_nodup _ _ _ _ (qi_ring _ _ _ Q)) as ND.
  apply NoDup_cons in ND as [Hs ND]. rewrite elem_of_app, elem_of_cons in Hs.
  apply NoDup_app in ND as (_ & D1 & [D2 _]%NoDup_cons).
  assert (a <> p) as Hap by (intros ->; destruct Hia as [->|Hia]; [tauto|apply (D1 p Hia); left]).
  assert (b <> p) as Hbp by (intros ->; destruct Hib as [?| ->]; [tauto|tauto]).
  destruct (queue_in _ _ _ _ a M Q) as (na & Hna & Hqa & Hca).
  { rewrite elem_of_cons, elem_of_app. tauto. }
  destruct (queue_in _ _ _ _ b M Q) as (nb & Hnb & Hqb & Hcb).
  { rewrite elem_of_cons, elem_of_app, elem_of_cons. tauto. }
  destruct (remove_run hc m p n _ a b na nb M Hp Hn Hc) as (m' & E & EL & EH); [by exists d|done..|].
  assert (heap m' !! p = Some (detached hc p n)) as Hp' by (rewrite EH; by rewrite decide_True).
  exists m'. split; [done|]. split; [|by eexists].
  eapply rewired_leads; [done|done| |exact Hp'|..].
  - apply (rewired_intro q p (fun _ => b) (fun _ => a) a b n (detached hc p n) d m m' na nb); try done.
    + intros c Hne. cbn. rewrite Hc. split; congruence.
    + intros c Hne. by rewrite EL, lookup_alter_ne.
  - split; cbn; try done. unfold owned. cbn. rewrite Hd. lia.
  - eapply ring_remove; [apply (qi_ring _ _ _ Q)|..]; intros x; rewrite EH, Hn; cbn; rewrite Ha, Hb.
    + destruct (decide (x = p)) as [->|Hne]; cbn; [by rewrite decide_False by congruence|].
      destruct (decide (a = x)) as [->|].
      * destruct (decide (Some _ = Some _)); [|congruence]. rewrite Hna. done.
      * destruct (decide (Some _ = Some _)); [congruence|]. destruct (heap m !! x); [|done]. cbn. by case_decide.
    + destruct (decide (x = p)) as [->|Hne]; cbn; [by rewrite decide_False by congruence|].
      destruct (decide (b = x)) as [->|].
      * destruct (decide (Some _ = Some _)); [|congruence]. rewrite Hnb. cbn. by case_decide.
      * destruct (decide (Some _ = Some _)); [congruence|]. destruct (heap m !! x); [|done]. cbn. by case_decide.
  - intros y. cbn. case_decide as Hy; rewrite !elem_of_cons, !elem_of_app, ?elem_of_cons; [subst y|tauto].
    split; [|done]. intros [E0%symmetry|[?|?]]; [tauto|destruct (D1 p); [done|left]|done].
  - rewrite EL, lookup_alter_eq, (qi_count _ _ _ Q). cbn. f_equal. pose proof (qi_fits _ _ _ Q) as Hf.
    unfold zlen in *. rewrite !length_app in *. cbn in *. rewrite wrap_id; [|unfold in_width]; lia.
  - pose proof (qi_fits _ _ _ Q) as Hf. unfold zlen in *. rewrite !length_app in *. cbn in *. lia.
Qed.

(** A node in no queue stays where it is. *)
Lemma remove_detached p (m : Mem T) n :
  heap m !! p = Some n -> in_queue n = false -> remove p m = (Ok tt, m).
Proof. intros Hn Hq. unfold remove. step by (by eapply load_step). by rewrite Hq. Qed.

(** *** Inserting *)

Definition linked (hc : Z -> Z) (c x b p : Z) n : QueueNodeInner T :=
  mkInner x b (n_data n) (hc p + 1) true (Some c).

Lemma insert_run hc m x p nx np nb c :
  mem_ok hc m -> heap m !! x = Some nx -> in_queue nx = true -> n_len nx = Some c ->
  heap m !! p = Some np -> in_queue np = false ->
  heap m !! n_next nx = Some nb -> x <> p -> n_next nx <> p ->
  exists m', insert_after x p m = (Ok tt, m') /\
    lens m' = alter (fun z => wrap64 (z + 1)) c (lens m) /\
    forall y, heap m' !! y =
      if decide (y = p) then Some (linked hc c x (n_next nx) p np)
      else (fun n => (if decide (x = y) then set_next p else id)
                    ((if decide (n_next nx = y) then set_prev p else id) n)) <$> heap m !! y.
Proof.
  intros M Hx Hqx Hc Hp Hqp Hb Hxp Hbp. destruct (mo_node _ _ M p np Hp) as [F L C V].
  pose proof (mo_held _ _ M p) as Hh.
  assert (ref_cnt np = hc p) as Hr by (rewrite C; unfold owned; rewrite Hqp; case_match; lia).
  unfold insert_after.
  step by (unfold is_detached; step by (by eapply load_step); rewrite Hqx; reflexivity). cbn [negb].
  step by (unfold is_detached; step by (by eapply load_step); rewrite Hqp; reflexivity). cbn [negb].
  step by (by eapply load_step). rewrite Hc. step.
  do 2 (step by (apply update_alive; alive)).
  step by (eapply (load_step _ _ nx); cbn [heap]; by rewrite !lookup_alter_ne by done).
  do 5 (step by (apply update_alive; alive)).
  eexists. split; [reflexivity|]. split; [done|]. intros y. cbn [heap set_lens lens].
  case_decide as Hy.
  - subst y. rewrite !lookup_alter. rewrite !(decide_True (P := p = p)) by done.
    rewrite !decide_False by done. rewrite Hp. cbn. unfold linked. rewrite Hr, wrap_id; [done|].
    unfold in_width. lia.
  - rewrite !lookup_alter. repeat (case_decide; try congruence); subst;
      try (rewrite Hx || rewrite Hb); try done; by destruct (heap m !! y).
Qed.

Lemma insert_after_ok q hc l l1 x l2 p np m :
  mem_ok hc m -> queue_inv q l m -> q_sentinel q :: l = l1 ++ x :: l2 ->
  heap m !! p = Some np -> in_queue np = false -> zlen l + 1 < 2 ^ 64 ->
  exists m' l', insert_after x p m = (Ok tt, m') /\ q_sentinel q :: l' = l1 ++ x :: p :: l2 /\
    leads q hc l' m m'.
Proof.
  intros M Q El Hp Hqp Hfit.
  assert (x ∈ q_sentinel q :: l) as Hix by (rewrite El; apply elem_of_app; right; left).
  destruct (queue_in _ _ _ _ x M Q Hix) as (nx & Hx & Hqx & Hcx).
  destruct (snoc_cons (q_sentinel q) l2) as (b & post & Eb).
  pose proof (ring_next _ _ _ _ _ _ _ _ _ (qi_ring _ _ _ Q) El Eb) as Nx.
  cbn in Nx. rewrite Hx in Nx. injection Nx as Hb.
  assert (b ∈ q_sentinel q :: l) as Hib.
  { assert (b ∈ l2 ++ [q_sentinel q]) as H by (rewrite Eb; left).
    rewrite elem_of_app, list_elem_of_singleton in H. destruct H as [H| ->]; [|left].
    rewrite El, elem_of_app, elem_of_cons. tauto. }
  destruct (queue_in _ _ _ _ b M Q Hib) as (nb & Hnb & Hqb & Hcb).
  assert (p ∉ q_sentinel q :: l) as Hnp.
  { intros H. destruct (queue_in _ _ _ _ p M Q H) as (? & ? & ? & _). congruence. }
  assert (x <> p) as Hxp by (by intros ->). assert (b <> p) as Hbp by (by intros ->).
  destruct (mo_node _ _ M p np Hp) as [Fp Lp Cp Vp]. destruct (Lp Hqp) as (_ & _ & [d Hd]).
  destruct (insert_run hc m x p nx np nb (q_len q)) as (m' & E & EL & EH); try done; [by rewrite Hb..|].
  rewrite Hb in EH.
  destruct (ring_insert _ _ (fun y => n_next <$> heap m' !! y) (fun y => n_prev <$> heap m' !! y)
    _ l1 x l2 p l (qi_ring _ _ _ Q) El Hnp) as (l' & El' & R').
  { intros y. rewrite EH, Hx. cbn. rewrite Hb. destruct (decide (y = p)) as [->|].
    - by rewrite decide_False.
    - destruct (decide (y = x)) as [->|].
      + rewrite decide_True by done. by rewrite Hx.
      + rewrite decide_False by congruence. destruct (heap m !! y); [|done]. cbn. by case_decide. }
  { intros y. rewrite EH, Hx. cbn. rewrite Hb. destruct (decide (y = p)) as [->|].
    - destruct (decide (Some _ = Some _)); [congruence|done].
    - destruct (decide (b = y)) as [->|].
      + destruct (decide (Some _ = Some _)); [|congruence]. rewrite Hnb. cbn. by case_decide.
      + destruct (decide (Some _ = Some _)); [congruence|]. destruct (heap m !! y); [|done]. cbn. by case_decide. }
  exists m', l'. split; [done|]. split; [done|].
  assert (forall y, y ∈ q_sentinel q :: l' <-> y = p \/ y ∈ q_sentinel q :: l) as Hin.
  { intros y. rewrite El', El, !elem_of_app, !elem_of_cons. tauto. }
  assert (zlen l' = zlen l + 1) as Hz.
  { apply (f_equal length) in El, El'. rewrite length_app in El, El'. cbn in El, El'. unfold zlen. lia. }
  assert (heap m' !! p = Some (linked hc (q_len q) x b p np)) as Hp' by (rewrite EH; by rewrite decide_True).
  eapply rewired_leads; [done|done| |exact Hp'|..].
  - apply (rewired_intro q p (fun _ => p) (fun _ => p) x b np (linked hc (q_len q) x b p np) d m m' nx nb); try done.
    + intros c Hne. cbn. split; [|congruence]. intros E'. rewrite Fp, E' in Hqp. by rewrite bool_decide_true in Hqp.
    + intros c Hne. by rewrite EL, lookup_alter_ne.
  - split; cbn; try done; [|pose proof (mo_held _ _ M p); lia]. unfold owned. cbn. rewrite Hd. lia.
  - exact R'.
  - intros y. rewrite Hin. cbn. case_decide; [split; [done|by left]|tauto].
  - rewrite EL, lookup_alter_eq, (qi_count _ _ _ Q). cbn. f_equal. rewrite Hz, wrap_id; [done|].
    unfold in_width, zlen in *. lia.
  - lia.
Qed.


Lemma insert_after_panics x p (m : Mem T) nx np :
  heap m !! x = Some nx -> heap m !! p = Some np -> in_queue nx = false \/ in_queue np = true ->
  insert_after x p m = (Panic, m).
Proof.
  intros Hx Hp H. unfold insert_after.
  step by (unfold is_detached; step by (by eapply load_step); reflexivity).
  destruct (in_queue nx); cbn [negb]; [|done]. destruct H as [|Hqp]; [done|].
  step by (unfold is_detached; step by (by eapply load_step); rewrite Hqp; reflexivity). done.
Qed.

End queue.
