(* ===== verification/QueueOps.v ===== *)
(** Each operation of [Queue] on a heap that holds the list [l]: which list it
    leaves, and which handles. *)
From stdpp Require Import sorting.
From S2P Require Import Prelude Queue QueueHeap.
#[local] Open Scope Z_scope.

Section queue.
Context {T : Type}.
Implicit Types n : QueueNodeInner T.
Implicit Types m : Mem T.

(** ** The operations of a queue *)

Lemma take_handle q l hc m p :
  mem_ok hc m -> queue_inv q l m -> is_Some (heap m !! p) -> hc p < 2 ^ 64 - 2 ->
  exists m', from_raw p m = (Ok p, m') /\ leads q (upd hc p 1) l m m'.
Proof.
  intros M Q Hp Hlt. destruct (from_raw_ok hc m p M Hp Hlt) as (m' & E & M' & K).
  exists m'. split; [done|]. by eapply keeps_leads.
Qed.

Lemma end_handle q l hc m p :
  mem_ok hc m -> queue_inv q l m -> 0 < hc p -> (p ∈ l \/ 1 < hc p) ->
  exists m', drop_handle p m = (Ok tt, m') /\ leads q (upd hc p (-1)) l m m'.
Proof.
  intros M Q Hp Hl. destruct (release_ok hc m p M Hp) as (m' & E & M' & K).
  { destruct Hl as [Hl|]; [left|by right]. destruct (qi_data _ _ _ Q p Hl) as (n & d & Hn & Hd).
    unfold dat. rewrite Hn. cbn. by rewrite Hd. }
  exists m'. split; [done|]. by eapply keeps_leads.
Qed.

Lemma next_ok q l hc m l1 x l2 b post :
  mem_ok hc m -> queue_inv q l m -> q_sentinel q :: l = l1 ++ x :: l2 ->
  l2 ++ [q_sentinel q] = b :: post -> hc b < 2 ^ 64 - 2 ->
  exists m', next x m = (Ok b, m') /\ leads q (upd hc b 1) l m m'.
Proof.
  intros M Q El Eb Hlt. pose proof (ring_next _ _ _ _ _ _ _ _ _ (qi_ring _ _ _ Q) El Eb) as Nx.
  cbn in Nx. apply fmap_Some in Nx as (n & Hn & ->). unfold next. step by (by eapply load_step).
  apply take_handle; [done|done| |done].
  destruct (queue_in q l hc m (n_next n) M Q) as (nb & ? & _); [|by exists nb].
  assert (n_next n ∈ l2 ++ [q_sentinel q]) as H by (rewrite Eb; left).
  rewrite elem_of_app, list_elem_of_singleton in H. destruct H as [H| ->]; [|left].
  rewrite El, elem_of_app, elem_of_cons. tauto.
Qed.

Lemma prev_ok q l hc m l1 x l2 pre a :
  mem_ok hc m -> queue_inv q l m -> l ++ [q_sentinel q] = l1 ++ x :: l2 ->
  q_sentinel q :: l1 = pre ++ [a] -> hc a < 2 ^ 64 - 2 ->
  exists m', prev x m = (Ok a, m') /\ leads q (upd hc a 1) l m m'.
Proof.
  intros M Q El Ea Hlt. pose proof (ring_prev _ _ _ _ _ _ _ _ _ (qi_ring _ _ _ Q) El Ea) as Px.
  cbn in Px. apply fmap_Some in Px as (n & Hn & ->). unfold prev. step by (by eapply load_step).
  apply take_handle; [done|done| |done].
  destruct (queue_in q l hc m (n_prev n) M Q) as (nb & ? & _); [|by exists nb].
  assert (n_prev n ∈ q_sentinel q :: l1) as H by (rewrite Ea; apply elem_of_app; right; left).
  apply elem_of_cons in H as [->|H]; [left|].
  assert (n_prev n ∈ l ++ [q_sentinel q]) as H' by (rewrite El; apply elem_of_app; by left).
  rewrite elem_of_app, list_elem_of_singleton in H'. rewrite elem_of_cons. tauto.
Qed.

(** The queue's own handle keeps the sentinel; there is room for the handles a
    call makes. *)
Record held (q : Queue) (hc : Z -> Z) : Prop := {
  hd_sentinel : 0 < hc (q_sentinel q);
  hd_room : forall x, hc x < 2 ^ 64 - 8
}.

Lemma empty_ok q l m : queue_inv q l m -> empty q m = (Ok (bool_decide (l = [])), m).
Proof.
  intros Q. unfold empty, len_of. step. rewrite (qi_count _ _ _ Q). cbn.
  unfold mret, stm_ret. f_equal. f_equal. destruct l; [done|]. unfold zlen. cbn. apply Z.eqb_neq. lia.
Qed.

Lemma upd_same hc p d : upd hc p d p = hc p + d.
Proof. unfold upd. by rewrite decide_True. Qed.

Lemma upd_cancel hc p x : upd (upd hc p 1) p (-1) x = hc x.
Proof. unfold upd. case_decide; lia. Qed.

Lemma head_ok q l hc m :
  mem_ok hc m -> queue_inv q l m -> held q hc ->
  exists m', head q m = (Ok (hd_error l), m') /\
    leads q (match l with [] => hc | b :: _ => upd hc b 1 end) l m m'.
Proof.
  intros M Q [Hs Hr]. unfold head. step by (by apply empty_ok). destruct l as [|b l].
  { eexists. split; [done|]. by apply leads_refl. }
  rewrite bool_decide_false by done.
  destruct (next_ok q (b :: l) hc m [] (q_sentinel q) (b :: l) b (l ++ [q_sentinel q]))
    as (m' & E & L); [done..|specialize (Hr b); lia|].
  exists m'. split; [|done]. by step by exact E.
Qed.

Lemma last_ok q l hc m :
  mem_ok hc m -> queue_inv q l m -> held q hc ->
  exists m', last q m = (Ok (list.last l), m') /\
    leads q (match list.last l with None => hc | Some b => upd hc b 1 end) l m m'.
Proof.
  intros M Q [Hs Hr]. unfold last. step by (by apply empty_ok).
  destruct l as [|b l _] using rev_ind.
  { eexists. split; [done|]. by apply leads_refl. }
  rewrite bool_decide_false by (by destruct l). rewrite last_snoc.
  destruct (prev_ok q (l ++ [b]) hc m (l ++ [b]) (q_sentinel q) [] (q_sentinel q :: l) b)
    as (m' & E & L); [done..|specialize (Hr b); lia|].
  exists m'. split; [|done]. by step by exact E.
Qed.

(** A node of ours that is in no queue. *)
Definition free_node (hc : Z -> Z) (m : Mem T) (p : Z) : Prop :=
  0 < hc p /\ exists n, heap m !! p = Some n /\ in_queue n = false.

(** A node in no queue does not get into one by what is done to [q]. *)
Lemma leads_free q hc hc' l m m' p n n' :
  mem_ok hc m -> leads q hc' l m m' -> p ∉ q_sentinel q :: l ->
  heap m !! p = Some n -> in_queue n = false -> heap m' !! p = Some n' -> in_queue n' = false.
Proof.
  intros M L Hp Hn Hq Hn'. rewrite (no_flag _ _ _ (mo_node _ _ (ld_mem _ _ _ _ _ L) p n' Hn')).
  apply bool_decide_eq_false. intros [c Hc]. destruct (decide (c = q_len q)) as [->|Hne].
  - by apply (qi_mem _ _ _ (ld_queue _ _ _ _ _ L) p n' Hn') in Hc.
  - destruct (ld_joins _ _ _ _ _ L p n' c Hn' Hne Hc) as (n3 & H3 & H3').
    assert (n3 = n) as -> by congruence.
    rewrite (no_flag _ _ _ (mo_node _ _ M p n Hn)), H3' in Hq. by rewrite bool_decide_true in Hq.
Qed.

Lemma insert_head_ok q l hc m p :
  mem_ok hc m -> queue_inv q l m -> free_node hc m p -> zlen l + 1 < 2 ^ 64 ->
  exists m', insert_head q p m = (Ok tt, m') /\ leads q hc (p :: l) m m'.
Proof.
  intros M Q (_ & n & Hn & Hq) Hf.
  destruct (insert_after_ok q hc l [] (q_sentinel q) l p n m) as (m' & l' & E & El & L); [done..|].
  injection El as ->. by exists m'.
Qed.

Lemma insert_tail_ok q l hc m p :
  mem_ok hc m -> queue_inv q l m -> held q hc -> free_node hc m p -> zlen l + 1 < 2 ^ 64 ->
  exists m', insert_tail q p m = (Ok tt, m') /\ leads q hc (l ++ [p]) m m'.
Proof.
  intros M Q [Hs Hr] (Hp & n & Hn & Hq) Hf.
  destruct (cons_snoc (q_sentinel q) l) as (pre & a & Ea).
  destruct (qi_sent _ _ _ Q) as (ns & Hns & _).
  assert (n_prev ns = a) as Hpv.
  { pose proof (ring_prev _ _ _ _ _ _ _ _ _ (qi_ring _ _ _ Q) (eq_refl (l ++ [q_sentinel q])) Ea) as H.
    cbn in H. rewrite Hns in H. by injection H. }
  assert (a ∈ q_sentinel q :: l) as Ha by (rewrite Ea; apply elem_of_app; right; left).
  destruct (queue_in q l hc m a M Q Ha) as (na & Hna & _).
  destruct (from_raw_ok hc m a M) as (m1 & E1 & M1 & K1); [by exists na|specialize (Hr a); lia|].
  assert (leads q (upd hc a 1) l m m1) as L1 by by eapply keeps_leads.
  assert (0 < upd hc a 1 p) as Hp1 by (unfold upd; case_decide; lia).
  destruct (mo_alive _ _ M1 p Hp1) as [n1 Hn1]. destruct (k_back _ _ K1 p n1 Hn1) as (n0 & Hn0 & En).
  apply strip_fields in En as (_ & _ & _ & Eq & _). assert (n0 = n) as -> by congruence.
  destruct (insert_after_ok q (upd hc a 1) l pre a [] p n1 m1) as (m2 & l' & E2 & El & L2);
    [done|apply L1|done|done|congruence|done|].
  assert (l' = l ++ [p]) as ->.
  { change (pre ++ [a; p]) with (pre ++ ([a] ++ [p])) in El. rewrite app_assoc, <- Ea in El. by injection El. }
  destruct (end_handle q (l ++ [p]) (upd hc a 1) m2 a) as (m3 & E3 & L3); [apply L2|apply L2|..].
  { rewrite upd_same. pose proof (mo_held _ _ M a). lia. }
  { rewrite upd_same, elem_of_app. apply elem_of_cons in Ha as [->|Ha]; [right; lia|by left; left]. }
  exists m3. split.
  - unfold insert_tail, tail_raw. rewrite <- Hpv in E1.
    erewrite stm_step; [|erewrite stm_step by (by eapply load_step); exact E1]. cbv beta iota.
    rewrite Hpv. step by exact E2. exact E3.
  - eapply leads_ext; [|eapply leads_trans; [exact L1|eapply leads_trans; [exact L2|exact L3]]].
    intros x. apply upd_cancel.
Qed.

Lemma pop_head_ok q l hc m :
  mem_ok hc m -> queue_inv q l m -> held q hc ->
  exists m', pop_head q m = (Ok (hd_error l), m') /\
    leads q (match l with [] => hc | b :: _ => upd hc b 1 end) (tail l) m m'.
Proof.
  intros M Q H. destruct (head_ok q l hc m M Q H) as (m1 & E1 & L1). unfold pop_head. step by exact E1.
  destruct l as [|b l]; [by exists m1|]. cbn [list.head tail].
  destruct (remove_ok q (upd hc b 1) [] b l m1) as (m2 & E2 & L2 & _); [apply L1|apply L1|..].
  { rewrite upd_same. pose proof (mo_held _ _ M b). lia. }
  exists m2. split; [by step by exact E2|]. by eapply leads_trans.
Qed.

Lemma pop_tail_ok q l hc m :
  mem_ok hc m -> queue_inv q l m -> held q hc ->
  exists m', pop_tail q m = (Ok (list.last l), m') /\
    leads q (match list.last l with None => hc | Some b => upd hc b 1 end) (removelast l) m m'.
Proof.
  intros M Q H. destruct (last_ok q l hc m M Q H) as (m1 & E1 & L1). unfold pop_tail. step by exact E1.
  destruct l as [|b l _] using rev_ind; [by exists m1|]. rewrite last_snoc in *. rewrite removelast_last.
  destruct (remove_ok q (upd hc b 1) l b [] m1) as (m2 & E2 & L2 & _); [apply L1|apply L1|..].
  { rewrite upd_same. pose proof (mo_held _ _ M b). lia. }
  exists m2. split; [by step by exact E2|]. rewrite app_nil_r in L2. by eapply leads_trans.
Qed.

(** ** Sorting

    Insertion from the right end of a sorted list, past what is greater. *)
Fixpoint insert_rev (gt : Z -> Z -> bool) (p : Z) (l : list Z) : list Z :=
  match l with
  | [] => [p]
  | y :: l => if gt y p then y :: insert_rev gt p l else p :: y :: l
  end.
Definition insert_last (gt : Z -> Z -> bool) (l : list Z) (p : Z) : list Z :=
  reverse (insert_rev gt p (reverse l)).
Definition sort_list (gt : Z -> Z -> bool) (l : list Z) : list Z := foldl (insert_last gt) [] l.

Lemma insert_last_nil gt p : insert_last gt [] p = [p].
Proof. done. Qed.

Lemma insert_last_snoc gt l y p :
  insert_last gt (l ++ [y]) p = if gt y p then insert_last gt l p ++ [y] else l ++ [y; p].
Proof.
  unfold insert_last. rewrite reverse_snoc. cbn [insert_rev].
  destruct (gt y p); rewrite !reverse_cons; [done|]. by rewrite reverse_involutive, <- app_assoc.
Qed.

Lemma insert_last_split gt l p : exists k1 k2,
  l = k1 ++ k2 /\ insert_last gt l p = k1 ++ p :: k2 /\ Forall (fun y => gt y p = true) k2 /\
  (k1 = [] \/ exists k y, k1 = k ++ [y] /\ gt y p = false).
Proof.
  induction l as [|y l IH] using rev_ind.
  { exists [], []. split_and!; try done. by left. }
  rewrite insert_last_snoc. destruct (gt y p) eqn:E.
  - destruct IH as (k1 & k2 & -> & -> & HF & Hk). exists k1, (k2 ++ [y]). rewrite <- !app_assoc.
    split_and!; try done. apply Forall_app. split; [done|by constructor].
  - exists (l ++ [y]), []. rewrite app_nil_r, <- app_assoc. split_and!; try done. right. by exists l, y.
Qed.

Lemma sort_list_snoc gt l p : sort_list gt (l ++ [p]) = insert_last gt (sort_list gt l) p.
Proof. unfold sort_list. by rewrite foldl_app. Qed.

Lemma sort_list_perm gt l : sort_list gt l ≡ₚ l.
Proof.
  induction l as [|p l IH] using rev_ind; [done|]. rewrite sort_list_snoc.
  destruct (insert_last_split gt (sort_list gt l) p) as (k1 & k2 & E & -> & _).
  rewrite <- Permutation_middle, <- E, IH. by rewrite Permutation_app_comm.
Qed.

Section order.
Context (gt : Z -> Z -> bool).
Context (gt_total : forall x y, gt x y = true -> gt y x = false).
Context (le_trans : forall x y z, gt x y = false -> gt y z = false -> gt x z = false).

Lemma sort_list_sorted l : StronglySorted (fun x y => gt x y = false) (sort_list gt l).
Proof.
  induction l as [|p l IH] using rev_ind; [constructor|]. rewrite sort_list_snoc.
  destruct (insert_last_split gt (sort_list gt l) p) as (k1 & k2 & E & -> & HF & Hk). rewrite E in IH.
  assert (forall y, y ∈ k1 -> gt y p = false) as H1.
  { destruct Hk as [->|(k & y0 & -> & H0)]; [intros y Hy; by apply elem_of_nil in Hy|].
    intros y [Hy|Hy]%elem_of_app; [|by apply list_elem_of_singleton in Hy as ->].
    eapply le_trans; [|exact H0]. rewrite <- app_assoc in IH.
    apply StronglySorted_app in IH as [IH _]. apply IH; [done|left]. }
  assert (forall y, y ∈ k2 -> gt p y = false) as H2.
  { intros y Hy. apply gt_total. rewrite Forall_forall in HF. by apply HF. }
  rewrite StronglySorted_app in IH. rewrite StronglySorted_app, StronglySorted_cons, Forall_forall.
  destruct IH as (IH1 & IH2 & IH3). split_and!; try done.
  intros x y Hx [->|Hy]%elem_of_cons; by auto.
Qed.

(** Elements that compare equal keep their order. *)
Definition alike (a x : Z) : Prop := gt a x = false /\ gt x a = false.

Lemma sort_list_stable a l : filter (alike a) (sort_list gt l) = filter (alike a) l.
Proof.
  induction l as [|p l IH] using rev_ind; [done|]. rewrite sort_list_snoc, filter_app, <- IH.
  destruct (insert_last_split gt (sort_list gt l) p) as (k1 & k2 & -> & -> & HF & _).
  rewrite !filter_app, <- app_assoc. f_equal. rewrite !filter_cons, filter_nil.
  destruct (decide (alike a p)) as [[Ha1 Ha2]|Ha].
  - assert (filter (alike a) k2 = []) as ->; [|done]. clear IH. induction HF as [|y k2 Hy HF IH]; [done|].
    rewrite filter_cons_False; [done|]. intros [H1 H2].
    assert (gt y p = false); [by eapply le_trans|congruence].
  - by rewrite app_nil_r.
Qed.

End order.

(** The loops of [sort] on nodes whose data is [D]. *)
Section sort_loops.
Context (cmp : T -> T -> comparison) (D : Z -> T).

Definition gt (x y : Z) : bool := match cmp (D x) (D y) with Gt => true | _ => false end.

Lemma node_data_ok p d (m : Mem T) : dat m p = Some d -> node_data p m = (Ok d, m).
Proof.
  unfold dat. intros H. apply bind_Some in H as (n & Hn & Hd). unfold node_data.
  step by (by eapply load_step). by rewrite Hd.
Qed.

Lemma leads_data q hc l m m' x :
  leads q hc l m m' -> 0 < hc x \/ x ∈ l -> dat m' x = dat m x.
Proof.
  intros L Hx. apply (ld_dat _ _ _ _ _ L). destruct Hx as [Hx|Hx].
  - by apply (mo_alive _ _ (ld_mem _ _ _ _ _ L)).
  - destruct (qi_data _ _ _ (ld_queue _ _ _ _ _ L) x Hx) as (n & _ & ? & _). by exists n.
Qed.

Lemma sort_place_ok q p fuel : forall l1 l2 hc m pre a,
  (length l1 < fuel)%nat -> q_sentinel q :: l1 = pre ++ [a] ->
  mem_ok (upd hc a 1) m -> queue_inv q (l1 ++ l2) m ->
  (forall x, hc x < 2 ^ 64 - 4) -> (forall x, 0 <= hc x) -> 0 < hc (q_sentinel q) -> 0 < hc p ->
  p ∉ q_sentinel q :: l1 ++ l2 -> dat m p = Some (D p) -> (forall x, x ∈ l1 -> dat m x = Some (D x)) ->
  exists m' a' k1 k2 pre', sort_place cmp fuel (q_sentinel q) p a m = (Ok a', m') /\
    q_sentinel q :: k1 = pre' ++ [a'] /\ l1 = k1 ++ k2 /\ insert_last gt l1 p = k1 ++ p :: k2 /\
    leads q (upd hc a' 1) (l1 ++ l2) m m'.
Proof.
  induction fuel as [|fuel IH]; intros l1 l2 hc m pre a Hf Ea M Q Hr H0 Hs Hp Hnp Dp Dl; [lia|].
  cbn [sort_place]. destruct l1 as [|y l1 _] using rev_ind.
  - assert (a = q_sentinel q) as ->.
    { destruct pre as [|? [|? ?]]; by injection Ea as <-. }
    rewrite Z.eqb_refl. exists m, (q_sentinel q), [], [], []. split_and!; try done.
    by apply leads_refl.
  - change (q_sentinel q :: l1 ++ [y]) with ((q_sentinel q :: l1) ++ [y]) in Ea.
    apply app_inj_2 in Ea as [<- Ea]; [|done]. injection Ea as <-.
    pose proof (r_nodup _ _ _ _ (qi_ring _ _ _ Q)) as ND. apply NoDup_cons in ND as [Hsl _].
    rewrite <- app_assoc, elem_of_app in Hsl. cbn in Hsl. rewrite elem_of_cons in Hsl.
    assert (y <> q_sentinel q) as Hys by (intros ->; tauto). rewrite (proj2 (Z.eqb_neq _ _) Hys).
    assert (y ∈ l1 ++ [y]) as Hyl by (apply elem_of_app; right; left).
    step by (by apply node_data_ok, Dl). step by (by apply node_data_ok).
    rewrite insert_last_snoc. unfold gt at 1. destruct (cmp (D y) (D p)) eqn:Ec.
    1,2: exists m, y, (l1 ++ [y]), [], (q_sentinel q :: l1); rewrite <- !app_assoc; split_and!; try done;
         by rewrite app_assoc; apply leads_refl.
    rewrite <- app_assoc in Q. cbn [app] in Q. destruct (cons_snoc (q_sentinel q) l1) as (pre & b & Eb).
    destruct (prev_ok q (l1 ++ y :: l2) (upd hc y 1) m l1 y (l2 ++ [q_sentinel q]) pre b) as (m1 & E1 & L1);
      [done|done|by rewrite <- app_assoc|done|specialize (Hr b); unfold upd; case_decide; lia|].
    step by exact E1.
    assert (b <> p) as Hbp.
    { intros ->. apply Hnp. assert (p ∈ q_sentinel q :: l1) as H by (rewrite Eb; apply elem_of_app; right; left).
      rewrite elem_of_cons, !elem_of_app in *. tauto. }
    assert (y <> p) as Hyp by (intros ->; apply Hnp; right; rewrite !elem_of_app; left; right; left).
    assert (b <> y) as Hby.
    { intros ->. assert (y ∈ q_sentinel q :: l1) as H by (rewrite Eb; apply elem_of_app; right; left).
      apply elem_of_cons in H as [|H]; [done|]. pose proof (r_nodup _ _ _ _ (qi_ring _ _ _ Q)) as ND.
      apply NoDup_cons in ND as [_ ND]. apply NoDup_app in ND as (_ & ND & _). apply (ND y H). left. }
    destruct (end_handle q (l1 ++ y :: l2) (upd (upd hc y 1) b 1) m1 y) as (m2 & E2 & L2); [apply L1|apply L1|..].
    { specialize (H0 y). unfold upd. repeat case_decide; lia. }
    { left. apply elem_of_app. right. left. }
    step by exact E2.
    assert (leads q (upd hc b 1) (l1 ++ y :: l2) m m2) as L12.
    { eapply leads_ext; [|by eapply leads_trans]. intros x. unfold upd. repeat case_decide; lia. }
    destruct (IH l1 (y :: l2) hc m2 pre b) as (m3 & a' & k1 & k2 & pre' & E3 & Ek & -> & Ei & L3).
    { rewrite length_app in Hf. cbn in Hf. lia. }
    all: try done; try apply L12.
    { rewrite elem_of_cons, !elem_of_app, ?elem_of_cons, ?elem_of_nil in *. tauto. }
    { rewrite (leads_data _ _ _ _ _ _ L12); [done|]. left. unfold upd. case_decide; lia. }
    { intros x Hx. rewrite (leads_data _ _ _ _ _ _ L12); [apply Dl, elem_of_app; by left|].
      right. apply elem_of_app. by left. }
    exists m3, a', k1, (k2 ++ [y]), pre'. split; [exact E3|]. split; [done|].
    rewrite Ei, <- !app_assoc in *. split_and!; [done|done|]. by eapply leads_trans.
Qed.

(** The chosen place and the node put there. *)
Lemma sort_move q p a hc pre r m fuel :
  mem_ok (upd hc a 1) m -> queue_inv q (pre ++ p :: r) m -> (exists pre0, q_sentinel q :: pre = pre0 ++ [a]) ->
  (forall x, hc x < 2 ^ 64 - 5) -> (forall x, 0 <= hc x) -> 0 < hc (q_sentinel q) -> 0 < hc p ->
  (length pre < fuel)%nat -> (forall x, x ∈ pre ++ p :: r -> dat m x = Some (D x)) ->
  exists m', (forall k : stm (Mem T) unit,
      (_ ← remove p; a' ← sort_place cmp fuel (q_sentinel q) p a;
       _ ← insert_after a' p; _ ← drop_handle p; _ ← drop_handle a'; k) m = k m') /\
    leads q (upd hc p (-1)) (insert_last gt pre p ++ r) m m'.
Proof.
  intros M Q [pre0 Ea] Hr H0 Hs Hp Hn Dl.
  destruct (remove_ok q (upd hc a 1) pre p r m) as (m1 & E1 & L1 & n & Hpn & Hpq);
    [done|done|unfold upd; case_decide; lia|].
  pose proof (r_nodup _ _ _ _ (qi_ring _ _ _ Q)) as ND.
  assert (p ∉ q_sentinel q :: pre ++ r) as Hnp.
  { apply NoDup_cons in ND as [N1 N2]. rewrite elem_of_app, elem_of_cons in N1.
    apply NoDup_app in N2 as (_ & N2 & [N3 _]%NoDup_cons). rewrite elem_of_cons, elem_of_app.
    intros [->|[H|H]]; [tauto|apply (N2 p H); left|done]. }
  assert (forall x, x ∈ pre ++ r -> dat m1 x = Some (D x)) as D1.
  { intros x Hx. rewrite (leads_data _ _ _ _ _ _ L1); [|by right]. apply Dl.
    rewrite elem_of_app in Hx. rewrite elem_of_app, elem_of_cons. tauto. }
  assert (dat m1 p = Some (D p)) as Dp.
  { rewrite (leads_data _ _ _ _ _ _ L1); [apply Dl, elem_of_app; right; left|].
    left. unfold upd. case_decide; lia. }
  destruct (sort_place_ok q p fuel pre r hc m1 pre0 a Hn Ea (ld_mem _ _ _ _ _ L1) (ld_queue _ _ _ _ _ L1))
    as (m2 & a' & k1 & k2 & pre' & E2 & Ek & Epre & Ei & L2); try done.
  { intros x. specialize (Hr x). lia. }
  { intros x Hx. apply D1, elem_of_app. by left. }
  assert (0 < upd hc a' 1 p) as Hp2 by (unfold upd; case_decide; lia).
  destruct (mo_alive _ _ (ld_mem _ _ _ _ _ L2) p Hp2) as [n2 Hn2].
  assert (in_queue n2 = false) as Hq2 by (eapply leads_free; [apply (ld_mem _ _ _ _ _ L1)|exact L2|exact Hnp|done..]).
  destruct (insert_after_ok q (upd hc a' 1) (pre ++ r) pre' a' (k2 ++ r) p n2 m2) as (m3 & l' & E3 & El & L3).
  { apply L2. } { apply L2. } { by rewrite Epre, <- app_assoc, app_comm_cons, Ek, <- app_assoc. }
  { done. } { done. }
  { pose proof (qi_fits _ _ _ Q). unfold zlen in *. rewrite !length_app in *. cbn in *. lia. }
  assert (l' = insert_last gt pre p ++ r) as ->.
  { rewrite Ei, <- app_assoc. cbn [app]. change (pre' ++ a' :: p :: k2 ++ r) with (pre' ++ [a'] ++ p :: k2 ++ r) in El.
    rewrite app_assoc, <- Ek in El. by injection El. }
  destruct (end_handle q (insert_last gt pre p ++ r) (upd hc a' 1) m3 p) as (m4 & E4 & L4);
    [apply L3|apply L3|done|left; rewrite Ei; rewrite !elem_of_app; left; right; left|].
  assert (a' ∈ q_sentinel q :: k1) as Ha' by (rewrite Ek; apply elem_of_app; right; left).
  assert (a' <> p) as Hap.
  { intros ->. apply Hnp. rewrite Epre, elem_of_cons, !elem_of_app. rewrite elem_of_cons in Ha'. tauto. }
  destruct (end_handle q (insert_last gt pre p ++ r) (upd (upd hc a' 1) p (-1)) m4 a') as (m5 & E5 & L5);
    [apply L4|apply L4|..].
  { specialize (H0 a'). unfold upd. repeat case_decide; lia. }
  { apply elem_of_cons in Ha' as [->|Ha']; [right; unfold upd; repeat case_decide; lia|].
    left. rewrite Ei, !elem_of_app. by left; left. }
  exists m5. split.
  { intros k. step by exact E1. step by exact E2. step by exact E3. step by exact E4. by step by exact E5. }
  eapply leads_ext; [|eapply leads_trans; [exact L1|eapply leads_trans; [exact L2|eapply leads_trans;
    [exact L3|eapply leads_trans; [exact L4|exact L5]]]]].
  intros x. unfold upd. repeat case_decide; lia.
Qed.

Lemma insert_last_length l p : length (insert_last gt l p) = S (length l).
Proof.
  destruct (insert_last_split gt l p) as (k1 & k2 & -> & -> & _). rewrite !length_app. cbn. lia.
Qed.

Lemma insert_last_elem l p x : x ∈ insert_last gt l p <-> x = p \/ x ∈ l.
Proof.
  destruct (insert_last_split gt l p) as (k1 & k2 & -> & -> & _).
  rewrite !elem_of_app, elem_of_cons. tauto.
Qed.

Lemma sort_loop_ok q fuel : forall rest r pre hc m p post,
  (length r < rest)%nat -> (length (pre ++ r) < fuel)%nat -> r ++ [q_sentinel q] = p :: post ->
  mem_ok (upd hc p 1) m -> queue_inv q (pre ++ r) m ->
  (forall x, hc x < 2 ^ 64 - 7) -> (forall x, 0 <= hc x) -> 0 < hc (q_sentinel q) ->
  (forall x, x ∈ pre ++ r -> dat m x = Some (D x)) ->
  exists m', sort_loop cmp rest fuel (q_sentinel q) p m = (Ok tt, m') /\
    leads q hc (foldl (insert_last gt) pre r) m m'.
Proof.
  induction rest as [|rest IH]; intros r pre hc m p post Hf Hfu Er M Q Hr H0 Hs Dl; [lia|].
  cbn [sort_loop]. destruct r as [|p0 r].
  - injection Er as <- _. rewrite Z.eqb_refl. rewrite app_nil_r in Q.
    destruct (end_handle q pre (upd hc (q_sentinel q) 1) m (q_sentinel q)) as (m' & E & L);
      [done|done|rewrite upd_same; lia..|].
    exists m'. split; [done|]. eapply leads_ext; [|exact L]. intros x. apply upd_cancel.
  - injection Er as <- <-. pose proof (r_nodup _ _ _ _ (qi_ring _ _ _ Q)) as ND.
    assert (p0 <> q_sentinel q) as Hps.
    { intros ->. apply NoDup_cons in ND as [H _]. apply H, elem_of_app. right. left. }
    rewrite (proj2 (Z.eqb_neq _ _) Hps).
    destruct (snoc_cons (q_sentinel q) r) as (b & post & Eb).
    destruct (next_ok q (pre ++ p0 :: r) (upd hc p0 1) m (q_sentinel q :: pre) p0 r b post) as (m1 & E1 & L1);
      [done..|specialize (Hr b); unfold upd; case_decide; lia|].
    destruct (cons_snoc (q_sentinel q) pre) as (pre0 & a & Ea).
    destruct (prev_ok q (pre ++ p0 :: r) (upd (upd hc p0 1) b 1) m1 pre p0 (r ++ [q_sentinel q]) pre0 a)
      as (m2 & E2 & L2);
      [apply L1|apply L1|by rewrite <- app_assoc|done|specialize (Hr a); unfold upd; repeat case_decide; lia|].
    assert (leads q (upd (upd (upd hc p0 1) b 1) a 1) (pre ++ p0 :: r) m m2) as L12 by by eapply leads_trans.
    destruct (sort_move q p0 a (upd (upd hc p0 1) b 1) pre r m2 fuel) as (m3 & E3 & L3); try apply L12.
    { by exists pre0. }
    { intros x. specialize (Hr x). unfold upd. repeat case_decide; lia. }
    { intros x. specialize (H0 x). unfold upd. repeat case_decide; lia. }
    { unfold upd. repeat case_decide; lia. }
    { specialize (H0 p0). unfold upd. repeat case_decide; lia. }
    { rewrite length_app in Hfu. cbn in Hfu. lia. }
    { intros x Hx. rewrite (leads_data _ _ _ _ _ _ L12) by (by right). by apply Dl. }
    assert (leads q (upd hc b 1) (insert_last gt pre p0 ++ r) m m3) as L13.
    { eapply leads_ext; [|by eapply leads_trans]. intros x. unfold upd. repeat case_decide; lia. }
    destruct (IH r (insert_last gt pre p0) hc m3 b post) as (m4 & E4 & L4); try done; try apply L13.
    { cbn in Hf. lia. }
    { rewrite length_app, insert_last_length. rewrite length_app in Hfu. cbn in Hfu. lia. }
    { intros x Hx. rewrite (leads_data _ _ _ _ _ _ L13) by (by right). apply Dl.
      rewrite elem_of_app, insert_last_elem in Hx. rewrite elem_of_app, elem_of_cons. tauto. }
    exists m4. split; [step by exact E1; step by exact E2; by rewrite E3|]. by eapply leads_trans.
Qed.

Lemma sort_ok q l hc m :
  mem_ok hc m -> queue_inv q l m -> held q hc -> (forall x, x ∈ l -> dat m x = Some (D x)) ->
  exists m', sort cmp q m = (Ok tt, m') /\ leads q hc (sort_list gt l) m m'.
Proof.
  intros M Q [Hs Hr] Dl. unfold sort, len_of. step. rewrite (qi_count _ _ _ Q). cbn [default from_option id].
  destruct (Z.leb_spec (zlen l) 1) as [Hl|Hl].
  { exists m. split; [done|]. assert (sort_list gt l = l) as ->; [|by apply leads_refl].
    destruct l as [|x [|y l]]; [done|done|]. unfold zlen in Hl. cbn in Hl. lia. }
  destruct l as [|x [|y l]]; [done|done|]. unfold rounds, len_of.
  step by (step; reflexivity). rewrite (qi_count _ _ _ Q). cbn [default from_option id].
  destruct (qi_sent _ _ _ Q) as (ns & Hns & _).
  destruct (take_handle q (x :: y :: l) hc m (q_sentinel q)) as (m1 & E1 & L1);
    [done|done|by exists ns|specialize (Hr (q_sentinel q)); lia|].
  destruct (next_ok q (x :: y :: l) (upd hc (q_sentinel q) 1) m1 [] (q_sentinel q) (x :: y :: l) x
    (y :: l ++ [q_sentinel q])) as (m2 & E2 & L2);
    [apply L1|apply L1|done|done|specialize (Hr x); unfold upd; case_decide; lia|].
  pose proof (r_nodup _ _ _ _ (qi_ring _ _ _ Q)) as ND.
  destruct (next_ok q (x :: y :: l) (upd (upd hc (q_sentinel q) 1) x 1) m2 [q_sentinel q] x (y :: l) y
    (l ++ [q_sentinel q])) as (m3 & E3 & L3);
    [apply L2|apply L2|done|done|specialize (Hr y); unfold upd; repeat case_decide; lia|].
  destruct (end_handle q (x :: y :: l) (upd (upd (upd hc (q_sentinel q) 1) x 1) y 1) m3 x) as (m4 & E4 & L4);
    [apply L3|apply L3|pose proof (mo_held _ _ M x); unfold upd; repeat case_decide; lia|left; left|].
  assert (leads q (upd (upd hc (q_sentinel q) 1) y 1) (x :: y :: l) m m4) as L14.
  { eapply leads_ext; [|eapply leads_trans; [exact L1|eapply leads_trans; [exact L2|eapply leads_trans;
      [exact L3|exact L4]]]]. intros z. unfold upd. repeat case_decide; lia. }
  destruct (sort_loop_ok q (S (Z.to_nat (zlen (x :: y :: l)))) (S (Z.to_nat (zlen (x :: y :: l)))) (y :: l) [x]
    (upd hc (q_sentinel q) 1) m4 y (l ++ [q_sentinel q])) as (m5 & E5 & L5); try done; try apply L14.
  { unfold zlen. cbn. lia. } { unfold zlen. cbn. lia. }
  { intros z. specialize (Hr z). unfold upd. case_decide; lia. }
  { intros z. pose proof (mo_held _ _ M z). unfold upd. case_decide; lia. }
  { rewrite upd_same. lia. }
  { intros z Hz. rewrite (leads_data _ _ _ _ _ _ L14) by (by right). by apply Dl. }
  destruct (end_handle q (foldl (insert_last gt) [x] (y :: l)) (upd hc (q_sentinel q) 1) m5 (q_sentinel q))
    as (m6 & E6 & L6); [apply L5|apply L5|rewrite upd_same; lia..|].
  exists m6. split.
  - step by exact E1. step by (exact E2). step by exact E3. step by exact E4. step by exact E5. exact E6.
  - eapply leads_ext; [|eapply leads_trans; [exact L14|eapply leads_trans; [exact L5|exact L6]]].
    intros z. apply upd_cancel.
Qed.

End sort_loops.

(** ** Gathering and clearing *)

(** One more handle to each node of [r]. *)
Definition add_handles (hc : Z -> Z) (r : list Z) (x : Z) : Z := hc x + zcount x r.

Lemma zcount_cons (x y : Z) l : zcount x (y :: l) = (if decide (y = x) then 1 else 0) + zcount x l.
Proof. change (y :: l) with ([y] ++ l). by rewrite zcount_app, zcount_one. Qed.

Lemma collect_loop_ok q l fuel : forall r pre hc m p post,
  (length r < fuel)%nat -> l = pre ++ r -> r ++ [q_sentinel q] = p :: post ->
  mem_ok (upd hc p 1) m -> queue_inv q l m ->
  (forall x, hc x + zcount x r < 2 ^ 64 - 4) -> (forall x, 0 <= hc x) -> 0 < hc (q_sentinel q) ->
  exists m', collect_loop fuel (q_sentinel q) p m = (Ok r, m') /\ leads q (add_handles hc r) l m m'.
Proof.
  induction fuel as [|fuel IH]; intros r pre hc m p post Hf El Er M Q Hr H0 Hs; [lia|].
  cbn [collect_loop]. destruct r as [|p0 r].
  - injection Er as <- _. rewrite Z.eqb_refl.
    destruct (end_handle q l (upd hc (q_sentinel q) 1) m (q_sentinel q)) as (m' & E & L);
      [done|done|rewrite upd_same; lia..|].
    exists m'. split; [by step by exact E|]. eapply leads_ext; [|exact L].
    intros x. rewrite upd_cancel. unfold add_handles. cbn. lia.
  - injection Er as <- <-. pose proof (r_nodup _ _ _ _ (qi_ring _ _ _ Q)) as ND. rewrite El in ND.
    assert (p0 <> q_sentinel q) as Hps.
    { intros ->. apply NoDup_cons in ND as [H _]. apply H, elem_of_app. right. left. }
    rewrite (proj2 (Z.eqb_neq _ _) Hps).
    assert (forall x, hc x < 2 ^ 64 - 4 /\ hc x + (if decide (p0 = x) then 1 else 0) < 2 ^ 64 - 4) as Hr'.
    { intros x. specialize (Hr x). rewrite zcount_cons in Hr. pose proof (zcount_nonneg x r). case_decide; lia. }
    assert (p0 ∈ l) as Hpl by (rewrite El; apply elem_of_app; right; left).
    destruct (take_handle q l (upd hc p0 1) m p0) as (m1 & E1 & L1); [done|done|..].
    { destruct (qi_data _ _ _ Q p0 Hpl) as (n & _ & Hn & _). by exists n. }
    { rewrite upd_same. specialize (Hr' p0). lia. }
    destruct (snoc_cons (q_sentinel q) r) as (b & post & Eb).
    destruct (next_ok q l (upd (upd hc p0 1) p0 1) m1 (q_sentinel q :: pre) p0 r b post) as (m2 & E2 & L2);
      [apply L1|apply L1|by rewrite El|done| |].
    { specialize (Hr' b). unfold upd. repeat case_decide; lia. }
    destruct (end_handle q l (upd (upd (upd hc p0 1) p0 1) b 1) m2 p0) as (m3 & E3 & L3);
      [apply L2|apply L2|specialize (H0 p0); unfold upd; repeat case_decide; lia|by left|].
    assert (leads q (upd (upd hc p0 1) b 1) l m m3) as L13.
    { eapply leads_ext; [|eapply leads_trans; [exact L1|eapply leads_trans; [exact L2|exact L3]]].
      intros x. unfold upd. repeat case_decide; lia. }
    destruct (IH r (pre ++ [p0]) (upd hc p0 1) m3 b post) as (m4 & E4 & L4); try done; try apply L13.
    { cbn in Hf. lia. } { by rewrite <- app_assoc. }
    { intros x. specialize (Hr x). rewrite zcount_cons in Hr. unfold upd. repeat case_decide; try lia; congruence. }
    { intros x. specialize (H0 x). unfold upd. case_decide; lia. }
    { unfold upd. case_decide; lia. }
    exists m4. split; [step by exact E1; step by exact E2; step by exact E3; by step by exact E4|].
    eapply leads_ext; [|by eapply leads_trans]. intros x. unfold add_handles, upd. rewrite zcount_cons.
    repeat case_decide; try lia; congruence.
Qed.

Lemma collect_ok q l hc m :
  mem_ok hc m -> queue_inv q l m -> held q hc ->
  exists m', collect q m = (Ok l, m') /\ leads q (add_handles hc l) l m m'.
Proof.
  intros M Q [Hs Hr]. unfold collect, rounds, len_of. step by (step; reflexivity).
  rewrite (qi_count _ _ _ Q). cbn [default from_option id].
  destruct (qi_sent _ _ _ Q) as (ns & Hns & _). pose proof (r_nodup _ _ _ _ (qi_ring _ _ _ Q)) as ND.
  destruct (take_handle q l hc m (q_sentinel q)) as (m1 & E1 & L1);
    [done|done|by exists ns|specialize (Hr (q_sentinel q)); lia|].
  destruct (snoc_cons (q_sentinel q) l) as (b & post & Eb).
  destruct (next_ok q l (upd hc (q_sentinel q) 1) m1 [] (q_sentinel q) l b post) as (m2 & E2 & L2);
    [apply L1|apply L1|done|done|specialize (Hr b); unfold upd; case_decide; lia|].
  assert (forall x, zcount x l <= 1) as Hc.
  { apply NoDup_cons in ND as [_ ND]. intros x. clear -ND. induction ND as [|y l Hy ND IH]; [done|].
    rewrite zcount_cons. case_decide; [subst y|lia].
    assert (zcount x l = 0); [|lia]. clear -Hy. induction l as [|z l IH]; [done|]. rewrite zcount_cons.
    apply not_elem_of_cons in Hy as [H1 H2]. rewrite decide_False by done. rewrite IH; [done|done]. }
  destruct (collect_loop_ok q l (S (Z.to_nat (zlen l))) l [] (upd hc (q_sentinel q) 1) m2 b post)
    as (m3 & E3 & L3); try done; try apply L2.
  { unfold zlen. lia. }
  { intros x. specialize (Hr x). specialize (Hc x). unfold upd. case_decide; lia. }
  { intros x. pose proof (mo_held _ _ M x). unfold upd. case_decide; lia. }
  { rewrite upd_same. lia. }
  destruct (end_handle q l (add_handles (upd hc (q_sentinel q) 1) l) m3 (q_sentinel q)) as (m4 & E4 & L4);
    [apply L3|apply L3|..].
  { pose proof (zcount_nonneg (q_sentinel q) l). unfold add_handles, upd. case_decide; lia. }
  { right. pose proof (zcount_nonneg (q_sentinel q) l). unfold add_handles, upd. case_decide; [lia|done]. }
  exists m4. split; [step by exact E1; step by exact E2; step by exact E3; by step by exact E4|].
  eapply leads_ext; [|eapply leads_trans; [exact L1|eapply leads_trans; [exact L2|eapply leads_trans;
    [exact L3|exact L4]]]]. intros x. unfold add_handles, upd. repeat case_decide; lia.
Qed.

(** A node that only the queue keeps is freed; the others are left behind. *)
Definition let_go (hc : Z -> Z) (x : Z) (o : option (QueueNodeInner T)) : option (QueueNodeInner T) :=
  if decide (hc x = 0) then None else detached hc x <$> o.

Lemma clear_step hc x n (m : Mem T) :
  heap m !! x = Some n -> ref_cnt n = hc x + 1 -> 0 <= hc x < 2 ^ 64 - 1 ->
  exists m', (forall k : stm (Mem T) unit,
      (_ ← update x (set_prev x); _ ← update x (set_next x); _ ← update x (set_len None);
       _ ← update x (set_in_queue false); _ ← release x; k) m = k m') /\
    lens m' = lens m /\
    forall y, heap m' !! y = if decide (y = x) then let_go hc x (heap m !! x) else heap m !! y.
Proof.
  intros Hn Hr Hh.
  set (n4 := set_in_queue false (set_len None (set_next x (set_prev x n)))).
  assert (ref_cnt n4 = hc x + 1) as Hr4 by done.
  set (h4 := alter (set_in_queue false) x (alter (set_len None) x (alter (set_next x) x
               (alter (set_prev x) x (heap m))))).
  assert (h4 !! x = Some n4) as H4 by (unfold h4; rewrite !lookup_alter_eq; by rewrite Hn).
  assert (forall y, y <> x -> h4 !! y = heap m !! y) as H4'.
  { intros y Hy. unfold h4. by rewrite !lookup_alter_ne by done. }
  assert (forall k : stm (Mem T) unit,
    (_ ← update x (set_prev x); _ ← update x (set_next x); _ ← update x (set_len None);
     _ ← update x (set_in_queue false); _ ← release x; k) m = (_ ← release x; k) (mkMem h4 (lens m))) as E4.
  { intros k. by do 4 (step by (apply update_alive; alive)). }
  unfold release in *. unfold let_go.
  destruct (decide (hc x = 0)) as [H0|H0].
  - exists (mkMem (delete x h4) (lens m)). split; [|split; [done|]].
    + intros k. rewrite E4. step by (step by (by eapply load_step); rewrite Hr4, H0; reflexivity). done.
    + intros y. cbn. destruct (decide (y = x)) as [->|Hy]; [by rewrite lookup_delete_eq|].
      rewrite lookup_delete_ne by done. by apply H4'.
  - exists (mkMem (alter (fun n => set_ref (wrap64 (ref_cnt n - 1)) n) x h4) (lens m)). split; [|split; [done|]].
    + intros k. rewrite E4. step by (step by (by eapply load_step); rewrite Hr4;
        rewrite (proj2 (Z.eqb_neq (hc x + 1) 1)) by lia; by eapply update_step). done.
    + intros y. cbn. destruct (decide (y = x)) as [->|Hy].
      * rewrite lookup_alter_eq, H4, Hn. cbn. unfold detached. rewrite Hr, Z.add_simpl_r, wrap_id; [done|].
        unfold in_width. lia.
      * rewrite lookup_alter_ne by done. by apply H4'.
Qed.

Lemma clear_loop_ok hc s fuel : forall r m b post,
  (length r < fuel)%nat -> NoDup r -> s ∉ r -> r ++ [s] = b :: post ->
  ((fun x => n_next <$> heap m !! x) <$> r) = Some <$> post ->
  (forall x n, x ∈ r -> heap m !! x = Some n -> ref_cnt n = hc x + 1) ->
  (forall x, 0 <= hc x < 2 ^ 64 - 1) ->
  exists m', clear_loop fuel s b m = (Ok tt, m') /\ lens m' = lens m /\
    forall y, heap m' !! y = if decide (y ∈ r) then let_go hc y (heap m !! y) else heap m !! y.
Proof.
  induction fuel as [|fuel IH]; intros r m b post Hf ND Hs Eb Hn Hr Hh; [lia|]. cbn [clear_loop].
  destruct r as [|x r].
  - injection Eb as <- _. rewrite Z.eqb_refl. exists m. done.
  - injection Eb as <- <-. apply NoDup_cons in ND as [Hx ND]. apply not_elem_of_cons in Hs as [Hxs Hs].
    rewrite (proj2 (Z.eqb_neq x s)) by done. destruct (snoc_cons s r) as (b & post & Eb).
    rewrite Eb in Hn. cbn in Hn. injection Hn as Hnx Hn. apply fmap_Some in Hnx as (n & Hxn & ->).
    step by (by eapply load_step).
    destruct (clear_step hc x n m Hxn) as (m1 & E1 & EL1 & EH1); [apply (Hr x n); [left|done]|done|].
    rewrite E1.
    destruct (IH r m1 (n_next n) post) as (m2 & E2 & EL2 & EH2); try done.
    { cbn in Hf. lia. }
    { rewrite <- Hn. apply list_fmap_ext. intros i y Hy. rewrite EH1, decide_False; [done|].
      intros ->. apply Hx. by eapply list_elem_of_lookup_2. }
    { intros y n1 Hy. rewrite EH1, decide_False by (by intros ->). apply Hr. by right. }
    exists m2. split; [done|]. split; [congruence|]. intros y. rewrite EH2, !EH1.
    destruct (decide (y = x)) as [->|Hy].
    + rewrite decide_False by done. by rewrite decide_True by left.
    + destruct (decide (y ∈ r)); [rewrite decide_True by (by right)|
        rewrite decide_False by (by rewrite not_elem_of_cons)]; done.
Qed.

Lemma clear_run q l hc m :
  mem_ok hc m -> queue_inv q l m -> 0 < hc (q_sentinel q) ->
  exists m', clear q m = (Ok tt, m') /\ lens m' = <[q_len q := 0]> (lens m) /\
    forall y, heap m' !! y =
      if decide (y ∈ l) then let_go hc y (heap m !! y)
      else (fun n => if decide (y = q_sentinel q) then set_next y (set_prev y n) else n) <$> heap m !! y.
Proof.
  intros M Q Hs. unfold clear. step by (by apply empty_ok).
  destruct (qi_sent _ _ _ Q) as (ns & Hns & Hds). pose proof (qi_ring _ _ _ Q) as [ND RN RP].
  destruct (decide (l = [])) as [->|Hl].
  - rewrite bool_decide_true by done. exists m. split; [done|]. split.
    + destruct m as [h ls]. cbn. rewrite insert_id; [done|]. apply (qi_count _ _ _ Q).
    + intros y. rewrite decide_False by apply not_elem_of_nil. case_decide as Hy.
      * subst y. rewrite Hns. cbn. f_equal. cbn in RN, RP. rewrite Hns in RN, RP. cbn in RN, RP.
        injection RN as RN. injection RP as RP. destruct ns. cbn in *. by subst.
      * by destruct (heap m !! y).
  - rewrite bool_decide_false by done. unfold rounds, len_of. step by (step; reflexivity).
    rewrite (qi_count _ _ _ Q). cbn [default from_option id]. step by (by eapply load_step).
    do 2 (step by (apply update_alive; alive)). step.
    apply NoDup_cons in ND as [Hsl ND]. destruct (snoc_cons (q_sentinel q) l) as (b & post & Eb).
    rewrite Eb in RN. cbn in RN. rewrite Hns in RN. injection RN as Hb RN. rewrite Hb.
    cbn [heap set_lens lens]. set (h1 := alter _ _ (alter _ _ _)).
    assert (forall y, y <> q_sentinel q -> h1 !! y = heap m !! y) as H1.
    { intros y Hy. unfold h1. by rewrite !lookup_alter_ne. }
    destruct (clear_loop_ok hc (q_sentinel q) (S (Z.to_nat (zlen l))) l
      (set_lens (<[q_len q:=0]> (lens m)) (mkMem h1 (lens m))) b post) as (m' & E & EL & EH); try done.
    { unfold zlen. lia. }
    { rewrite <- RN. apply list_fmap_ext. intros i y Hy. cbn. rewrite H1; [done|].
      intros ->. apply Hsl. by eapply list_elem_of_lookup_2. }
    { intros x n Hx. cbn. rewrite H1 by (by intros ->). intros Hn.
      destruct (queue_in q l hc m x M Q) as (n' & Hn' & Hq & _); [by right|].
      assert (n' = n) as -> by congruence.
      destruct (qi_data _ _ _ Q x Hx) as (n' & d & Hn1 & Hd). assert (n' = n) as -> by congruence.
      rewrite (no_count _ _ _ (mo_node _ _ M x n Hn)). unfold owned. by rewrite Hd, Hq. }
    { apply M. }
    exists m'. split; [exact E|]. split; [exact EL|]. intros y. rewrite EH. cbn [heap set_lens].
    destruct (decide (y ∈ l)) as [Hy|Hy].
    + rewrite H1; [done|by intros ->].
    + case_decide as Hys; [|rewrite H1 by done; by destruct (heap m !! y)]. subst y. unfold h1.
      rewrite !lookup_alter_eq. by rewrite Hns.
Qed.

(** The heap a [clear] leaves. *)
Record cleared (q : Queue) (l : list Z) (hc : Z -> Z) (m m' : Mem T) : Prop := {
  cl_sent : exists n, heap m !! q_sentinel q = Some n /\ n_data n = None /\ in_queue n = true /\
            n_len n = Some (q_len q) /\
            heap m' !! q_sentinel q = Some (set_next (q_sentinel q) (set_prev (q_sentinel q) n));
  cl_back : forall y n', heap m' !! y = Some n' -> y <> q_sentinel q ->
            exists n, heap m !! y = Some n /\ n_data n' = n_data n /\
              (y ∈ l /\ 0 < hc y /\ n' = detached hc y n \/ (y ∉ l) /\ n' = n);
  cl_held : forall y, 0 < hc y -> is_Some (heap m' !! y);
  cl_rest : forall y n, heap m !! y = Some n -> y <> q_sentinel q -> y ∉ l -> heap m' !! y = Some n
}.

Lemma clear_cleared q l hc m :
  mem_ok hc m -> queue_inv q l m -> 0 < hc (q_sentinel q) ->
  exists m', clear q m = (Ok tt, m') /\ lens m' = <[q_len q := 0]> (lens m) /\ cleared q l hc m m'.
Proof.
  intros M Q Hs. destruct (clear_run q l hc m M Q Hs) as (m' & E & EL & EH). exists m'. split; [done|].
  split; [done|]. destruct (qi_sent _ _ _ Q) as (ns & Hns & Hds).
  destruct (queue_in q l hc m (q_sentinel q) M Q) as (ns' & Hns' & Hqs & Hls); [left|].
  assert (ns' = ns) as -> by congruence. pose proof (r_nodup _ _ _ _ (qi_ring _ _ _ Q)) as ND.
  apply NoDup_cons in ND as [Hsl _]. split.
  - exists ns. split_and!; try done. rewrite EH, decide_False, Hns by done. cbn. by rewrite decide_True.
  - intros y n' Hy Hys. rewrite EH in Hy. destruct (decide (y ∈ l)) as [Hyl|Hyl].
    + unfold let_go in Hy. destruct (decide (hc y = 0)) as [|Hy0]; [done|].
      apply fmap_Some in Hy as (n & Hn & ->). exists n. split; [done|]. split; [done|]. left.
      pose proof (mo_held _ _ M y). split; [done|]. split; [lia|done].
    + destruct (decide (y = q_sentinel q)) as [|_]; [done|]. apply fmap_Some in Hy as (n & Hn & ->). exists n.
      split; [done|]. split; [done|]. by right.
  - intros y Hy. rewrite EH. pose proof (mo_alive _ _ M y Hy) as [n Hn]. rewrite Hn. unfold let_go.
    destruct (decide (y ∈ l)); [|by eexists]. rewrite decide_False by lia. by eexists.
  - intros y n Hn Hys Hyl. rewrite EH, decide_False, Hn by done. cbn. by rewrite decide_False.
Qed.

Lemma cleared_mem q l hc m m' :
  mem_ok hc m -> queue_inv q l m -> cleared q l hc m m' -> mem_ok hc m'.
Proof.
  intros M Q [(ns & Hns & Hds & Hqs & Hls & Hns1) HB HH _]. split; [|apply M|done].
  intros x n' Hx. destruct (decide (x = q_sentinel q)) as [->|Hxs].
  - rewrite Hns1 in Hx. injection Hx as <-. destruct (mo_node _ _ M _ _ Hns) as [F L C V].
    split; cbn; [done|congruence|done|done].
  - destruct (HB x n' Hx Hxs) as (n & Hn & _ & [(Hxl & Hh & ->)|[Hxl ->]]); [|by apply M].
    destruct (qi_data _ _ _ Q x Hxl) as (n1 & d & Hn1 & Hd). assert (n1 = n) as -> by congruence.
    split; cbn; try done. unfold owned. cbn. rewrite Hd. lia.
Qed.

Lemma clear_ok q l hc m :
  mem_ok hc m -> queue_inv q l m -> 0 < hc (q_sentinel q) ->
  exists m', clear q m = (Ok tt, m') /\ leads q hc [] m m'.
Proof.
  intros M Q Hs. destruct (clear_cleared q l hc m M Q Hs) as (m' & E & EL & C). exists m'. split; [done|].
  pose proof (cleared_mem _ _ _ _ _ M Q C) as M'. destruct C as [(ns & Hns & Hds & Hqs & Hls & Hns1) HB HH HR].
  split; [done|..].
  - split; [split; [apply NoDup_singleton|cbn; by rewrite Hns1..]|..].
    + intros x n' Hx. rewrite list_elem_of_singleton. destruct (decide (x = q_sentinel q)) as [->|Hxs].
      * rewrite Hns1 in Hx. by injection Hx as <-.
      * destruct (HB x n' Hx Hxs) as (n & Hn & _ & [(Hxl & Hh & ->)|[Hxl ->]]); [done|].
        rewrite (qi_mem _ _ _ Q x n Hn), elem_of_cons. tauto.
    + by eexists.
    + intros x Hx. by apply elem_of_nil in Hx.
    + by rewrite EL, lookup_insert_eq.
    + done.
  - apply others_frame; [|intros c Hc; by rewrite EL, lookup_insert_ne].
    intros x n c Hc Hnc. destruct (decide (x = q_sentinel q)) as [->|Hxs].
    { rewrite Hns, Hns1. split; intros [= <-]; cbn in *; congruence. }
    split; intros Hx.
    + apply HR; [done|done|]. intros Hxl. assert (n_len n = Some (q_len q)); [|congruence].
      apply (qi_mem _ _ _ Q x n Hx). by right.
    + destruct (HB x n Hx Hxs) as (n1 & Hn1 & _ & [(_ & _ & ->)|[_ ->]]); done.
  - intros x [n' Hx]. unfold dat. destruct (decide (x = q_sentinel q)) as [->|Hxs]; [by rewrite Hns, Hns1|].
    destruct (HB x n' Hx Hxs) as (n & Hn & Ed & _). rewrite Hx, Hn. cbn. by rewrite Ed.
  - intros x n' c Hx Hc Hnc. destruct (decide (x = q_sentinel q)) as [->|Hxs].
    { exists ns. split; [done|]. rewrite Hns1 in Hx. by injection Hx as <-. }
    destruct (HB x n' Hx Hxs) as (n & Hn & _ & [(_ & _ & ->)|[_ ->]]); [done|by exists n].
Qed.

End queue.
