(* ===== verification/QueueList.v ===== *)
(** What a linked queue promises to its users: any calls they may make give
    what a plain list gives, sorting is stable, and a dropped queue frees what
    nobody holds. *)
From stdpp Require Import sorting.
From S2P Require Import Prelude Queue QueueHeap QueueOps.
#[local] Open Scope Z_scope.

Section queue.
Context {T : Type}.
Implicit Types n : QueueNodeInner T.
Implicit Types m : Mem T.

(** ** What the queue promises *)

(** A world whose only queue is [q]. *)
Definition only_queue (q : Queue) (m : Mem T) : Prop :=
  forall x n c, heap m !! x = Some n -> n_len n = Some c -> c = q_len q.

Lemma only_leads q hc l m m' : only_queue q m -> leads q hc l m m' -> only_queue q m'.
Proof.
  intros O L x n c Hx Hc. destruct (decide (c = q_len q)) as [|Hne]; [done|].
  destruct (ld_joins _ _ _ _ _ L x n c Hx Hne Hc) as (n0 & H0 & Hc0). by apply (O x n0).
Qed.

Lemma only_free q hc l m p :
  mem_ok hc m -> queue_inv q l m -> only_queue q m -> 0 < hc p -> p <> q_sentinel q -> p ∉ l ->
  free_node hc m p.
Proof.
  intros M Q O Hp Hs Hl. split; [done|]. destruct (mo_alive _ _ M p Hp) as [n Hn]. exists n. split; [done|].
  rewrite (no_flag _ _ _ (mo_node _ _ M p n Hn)). apply bool_decide_eq_false. intros [c Hc].
  assert (c = q_len q) as -> by by apply (O p n). apply (qi_mem _ _ _ Q p n Hn), elem_of_cons in Hc. tauto.
Qed.

(** The calls on a queue and on the nodes its user holds. *)
Inductive QueueCall :=
  | NodeNew (p : Z) (d : T)
  | DropNode (p : Z)
  | PushFront (p : Z)
  | PushBack (p : Z)
  | InsertAfter (x p : Z)
  | PopFront
  | PopBack
  | Remove (p : Z)
  | SortBy (cmp : T -> T -> comparison)
  | Clear.

Definition run_call (q : Queue) (op : QueueCall) : stm (Mem T) (option Z) :=
  match op with
  | NodeNew p d => p ← node_new p d; mret (Some p)
  | DropNode p => _ ← drop_handle p; mret None
  | PushFront p => _ ← insert_head q p; mret None
  | PushBack p => _ ← insert_tail q p; mret None
  | InsertAfter x p => _ ← insert_after x p; mret None
  | PopFront => pop_head q
  | PopBack => pop_tail q
  | Remove p => _ ← remove p; mret None
  | SortBy cmp => _ ← sort cmp q; mret None
  | Clear => _ ← clear q; mret None
  end.

Fixpoint run_calls (q : Queue) (ops : list QueueCall) : stm (Mem T) (list (option Z)) :=
  match ops with
  | [] => mret []
  | op :: ops => r ← run_call q op; rs ← run_calls q ops; mret (r :: rs)
  end.

(** What they mean on a list and a count of handles; [D] is the data of the
    nodes. *)
Definition ListState : Type := list Z * (Z -> Z).

Fixpoint list_insert_after (x p : Z) (l : list Z) : list Z :=
  match l with
  | [] => []
  | y :: l => if decide (y = x) then y :: p :: l else y :: list_insert_after x p l
  end.

Definition take_out (o : option Z) (hc : Z -> Z) : Z -> Z :=
  match o with None => hc | Some b => upd hc b 1 end.

Definition list_call (D : Z -> T) (op : QueueCall) (st : ListState) : option Z * ListState :=
  let (l, hc) := st in
  match op with
  | NodeNew p d => (Some p, (l, upd hc p 1))
  | DropNode p => (None, (l, upd hc p (-1)))
  | PushFront p => (None, (p :: l, hc))
  | PushBack p => (None, (l ++ [p], hc))
  | InsertAfter x p => (None, (list_insert_after x p l, hc))
  | PopFront => (hd_error l, (tail l, take_out (hd_error l) hc))
  | PopBack => (list.last l, (removelast l, take_out (list.last l) hc))
  | Remove p => (None, (filter (fun y => y <> p) l, hc))
  | SortBy cmp => (None, (sort_list (gt cmp D) l, hc))
  | Clear => (None, ([], hc))
  end.

(** The calls a user may make: with handles of its own, on nodes that are in
    the queue or in none, and with addresses that are not in use. *)
Definition may (q : Queue) (D : Z -> T) (op : QueueCall) (st : ListState) : Prop :=
  let (l, hc) := st in
  held q (list_call D op st).2.2 /\ zlen l + 1 < 2 ^ 64 /\
  match op with
  | NodeNew p d => hc p = 0 /\ (p ∉ l) /\ D p = d
  | DropNode p => 0 < hc p /\ p <> q_sentinel q
  | PushFront p | PushBack p => 0 < hc p /\ p <> q_sentinel q /\ p ∉ l
  | InsertAfter x p => x ∈ l /\ 0 < hc p /\ p <> q_sentinel q /\ p ∉ l
  | Remove p => 0 < hc p /\ p <> q_sentinel q
  | _ => True
  end.

Fixpoint list_calls (D : Z -> T) (ops : list QueueCall) (st : ListState) : list (option Z) * ListState :=
  match ops with
  | [] => ([], st)
  | op :: ops =>
      let (r, st) := list_call D op st in
      let (rs, st) := list_calls D ops st in (r :: rs, st)
  end.

Fixpoint may_all (q : Queue) (D : Z -> T) (ops : list QueueCall) (st : ListState) : Prop :=
  match ops with
  | [] => True
  | op :: ops => may q D op st /\ may_all q D ops (list_call D op st).2
  end.

Record world (q : Queue) (D : Z -> T) (st : ListState) (m : Mem T) : Prop := {
  wo_mem : mem_ok st.2 m;
  wo_queue : queue_inv q st.1 m;
  wo_only : only_queue q m;
  wo_held : held q st.2;
  wo_data : forall x d, dat m x = Some d -> D x = d
}.

Lemma world_leads q D l hc l' hc' m m' :
  world q D (l, hc) m -> leads q hc' l' m m' -> held q hc' -> world q D (l', hc') m'.
Proof.
  intros [M Q O H WD] L H'. split; [apply L|apply L|by eapply only_leads|done|].
  intros x d Hx. apply WD. rewrite <- Hx. symmetry. apply (ld_dat _ _ _ _ _ L).
  unfold dat in Hx. apply bind_Some in Hx as (n & Hn & _). by exists n.
Qed.

Lemma list_insert_after_split x p l1 l2 :
  x ∉ l1 -> list_insert_after x p (l1 ++ x :: l2) = l1 ++ x :: p :: l2.
Proof.
  induction l1 as [|y l1 IH]; cbn; intros H; [by rewrite decide_True|].
  apply not_elem_of_cons in H as [H1 H2]. rewrite decide_False by done. by rewrite IH.
Qed.

Lemma filter_ne (p : Z) (l : list Z) : p ∉ l -> filter (fun y => y <> p) l = l.
Proof.
  induction l as [|y l IH]; [done|]. intros [H1 H2]%not_elem_of_cons.
  rewrite filter_cons_True by congruence. by rewrite IH.
Qed.

Lemma filter_remove (p : Z) (l1 l2 : list Z) :
  p ∉ l1 -> p ∉ l2 -> filter (fun y => y <> p) (l1 ++ p :: l2) = l1 ++ l2.
Proof. intros H1 H2. rewrite filter_app, filter_cons_False by tauto. by rewrite !filter_ne. Qed.

Lemma node_new_ok q hc l m p d :
  mem_ok hc m -> queue_inv q l m -> heap m !! p = None -> hc p = 0 ->
  exists m', node_new p d m = (Ok p, m') /\ mem_ok (upd hc p 1) m' /\ queue_inv q l m' /\
    (only_queue q m -> only_queue q m') /\ dat m' p = Some d /\ forall x, x <> p -> dat m' x = dat m x.
Proof.
  intros M Q Hp Hh. eexists. split; [reflexivity|]. cbn [modify alloc set_heap].
  set (n0 := mkInner p p (Some d) 1 false None).
  assert (forall x n, <[p:=n0]> (heap m) !! x = Some n -> x = p /\ n = n0 \/ x <> p /\ heap m !! x = Some n) as HB.
  { intros x n. destruct (decide (x = p)) as [->|Hne]; [rewrite lookup_insert_eq|rewrite lookup_insert_ne by done];
      intros H; [left|right]; split; congruence. }
  split; [|split; [|split; [|split]]].
  - split; cbn.
    + intros x n [[-> ->]|[Hne Hx]]%HB.
      * split; cbn; try done. rewrite upd_same. unfold owned. cbn. lia.
      * destruct (mo_node _ _ M x n Hx). split; try done. unfold upd. by rewrite decide_False.
    + intros x. pose proof (mo_held _ _ M x). unfold upd. case_decide; [subst; lia|done].
    + intros x. unfold upd. case_decide as Hx; [subst; rewrite lookup_insert_eq; by eexists|].
      rewrite lookup_insert_ne by done. apply (mo_alive _ _ M).
  - apply (others_frame (mkQueue p (q_len q + 1)) m); [|done| |done].
    + intros x n c _ Hc. cbn. split; [intros Hx; rewrite lookup_insert_ne; [done|congruence]|].
      intros [[-> ->]|[_ Hx]]%HB; [done|done].
    + cbn. lia.
  - intros O x n c [[-> ->]|[_ Hx]]%HB Hc; [done|]. by apply (O x n).
  - unfold dat. cbn. by rewrite lookup_insert_eq.
  - intros x Hx. unfold dat. cbn. by rewrite lookup_insert_ne.
Qed.

Lemma queue_new_ok s c m (hc : Z -> Z) :
  mem_ok hc m -> heap m !! s = None -> hc s = 0 -> (forall x n, heap m !! x = Some n -> n_len n <> Some c) ->
  exists m', queue_new s c m = (Ok (mkQueue s c), m') /\ mem_ok (upd hc s 1) m' /\
    queue_inv (mkQueue s c) [] m' /\ (forall x, dat m' x = dat m x) /\
    forall x n, heap m' !! x = Some n -> x = s \/ heap m !! x = Some n.
Proof.
  intros M Hs Hh Hc. unfold queue_new. step. unfold new_sentinel.
  step by (step; reflexivity). step by (apply update_alive; cbn; rewrite lookup_insert_eq; by eexists).
  eexists. split; [reflexivity|]. cbn [heap lens set_heap set_lens]. rewrite alter_insert_eq.
  set (n0 := set_len (Some c) _).
  assert (forall x n, <[s:=n0]> (heap m) !! x = Some n -> x = s /\ n = n0 \/ x <> s /\ heap m !! x = Some n) as HB.
  { intros x n. destruct (decide (x = s)) as [->|Hne]; [rewrite lookup_insert_eq|rewrite lookup_insert_ne by done];
      intros H; [left|right]; split; congruence. }
  split; [|split; [|split; [|by intros x n [[-> _]|[_ Hx]]%HB; [left|right]]]].
  - split; cbn.
    + intros x n [[-> ->]|[Hne Hx]]%HB.
      * split; cbn; try done. rewrite upd_same. unfold owned. cbn. lia.
      * destruct (mo_node _ _ M x n Hx). split; try done. unfold upd. by rewrite decide_False.
    + intros x. pose proof (mo_held _ _ M x). unfold upd. case_decide; [subst; lia|done].
    + intros x. unfold upd. case_decide as Hx; [subst; rewrite lookup_insert_eq; by eexists|].
      rewrite lookup_insert_ne by done. apply (mo_alive _ _ M).
  - split; cbn.
    + split; [apply NoDup_singleton|cbn; by rewrite lookup_insert_eq..].
    + intros x n [[-> ->]|[Hne Hx]]%HB; rewrite list_elem_of_singleton; [done|].
      split; [intros E; by destruct (Hc x n Hx)|done].
    + exists n0. by rewrite lookup_insert_eq.
    + intros x Hx. by apply elem_of_nil in Hx.
    + by rewrite lookup_insert_eq.
    + done.
  - intros x. unfold dat. cbn. destruct (decide (x = s)) as [->|Hne].
    + by rewrite lookup_insert_eq, Hs.
    + by rewrite lookup_insert_ne.
Qed.

(** An empty queue in an empty memory. *)
Lemma world_new s c (D : Z -> T) : exists m,
  queue_new s c (mkMem ∅ ∅) = (Ok (mkQueue s c), m) /\ world (mkQueue s c) D ([], upd (fun _ => 0) s 1) m.
Proof.
  destruct (queue_new_ok s c (mkMem ∅ ∅) (fun _ => 0)) as (m & E & M & Q & HD & HN); try done.
  exists m. split; [done|]. split; [done|done| | |].
  - intros x n c' Hx Hc. destruct (HN x n Hx) as [->|H]; [|cbn in H; by rewrite lookup_empty in H].
    assert (n_len n = Some c); [|cbn; congruence]. apply (qi_mem _ _ _ Q s n Hx). left.
  - split; cbn; [rewrite upd_same; lia|]. intros x. unfold upd. case_decide; lia.
  - intros x d Hx. rewrite HD in Hx. unfold dat in Hx. cbn in Hx. by rewrite lookup_empty in Hx.
Qed.

Lemma may_not_sentinel q D l hc m p :
  world q D (l, hc) m -> hc p = 0 -> p ∉ l -> heap m !! p = None.
Proof.
  intros [M Q W H _] Hp Hl. cbn in *. destruct (heap m !! p) as [n|] eqn:Hn; [|done].
  destruct (mo_node _ _ M p n Hn) as [F L C V]. exfalso.
  assert (0 < owned n) as Ho by lia. unfold owned in Ho. destruct (n_data n) as [d|] eqn:Hd; [|lia].
  destruct (in_queue n) eqn:Hq; [|lia]. symmetry in F. apply bool_decide_eq_true in F as [c Hc].
  assert (c = q_len q) as -> by by apply (W p n).
  apply (qi_mem _ _ _ Q p n Hn), elem_of_cons in Hc as [->|]; [|done].
  pose proof (hd_sentinel _ _ H). lia.
Qed.

(** A node one holds a handle to has data: it is not the sentinel. *)
Lemma held_data q D l hc m p :
  world q D (l, hc) m -> 0 < hc p -> p <> q_sentinel q -> dat m p <> None.
Proof.
  intros [M Q O _ _] Hp Hps. cbn in *. destruct (mo_alive _ _ M p Hp) as [n Hn].
  destruct (mo_node _ _ M p n Hn) as [F L _ _]. unfold dat. rewrite Hn. cbn.
  destruct (n_data n) eqn:Hd; [done|]. destruct (in_queue n) eqn:Hq; [|by destruct (L eq_refl) as (_ & _ & [? ?])].
  symmetry in F. apply bool_decide_eq_true in F as [c Hc]. assert (c = q_len q) as -> by by apply (O p n).
  apply (qi_mem _ _ _ Q p n Hn), elem_of_cons in Hc as [|Hpl]; [done|].
  destruct (qi_data _ _ _ Q p Hpl) as (n1 & d & Hn1 & Hd1). congruence.
Qed.

Lemma remove_any q D l hc m p :
  world q D (l, hc) m -> 0 < hc p -> p <> q_sentinel q ->
  exists m', remove p m = (Ok tt, m') /\ leads q hc (filter (fun y => y <> p) l) m m'.
Proof.
  intros [M Q O _ _] Hp Hps. cbn in *. destruct (decide (p ∈ l)) as [Hpl|Hpl].
  - apply list_elem_of_split in Hpl as (l1 & l2 & ->).
    pose proof (r_nodup _ _ _ _ (qi_ring _ _ _ Q)) as ND. apply NoDup_cons in ND as [_ ND].
    apply NoDup_app in ND as (_ & N1 & [N2 _]%NoDup_cons).
    destruct (remove_ok q hc l1 p l2 m M Q Hp) as (m' & E & L & _). exists m'. split; [done|].
    rewrite filter_remove; [done| |done]. intros Hpl. apply (N1 p Hpl). left.
  - destruct (only_free q hc l m p) as (_ & n & Hn & Hnq); [done..|]. exists m.
    split; [by eapply remove_detached|]. rewrite filter_ne by done. by apply leads_refl.
Qed.

(** A call does what the list says. *)
Lemma call_ok q D op st m :
  world q D st m -> may q D op st ->
  exists m', run_call q op m = (Ok (list_call D op st).1, m') /\ world q D (list_call D op st).2 m'.
Proof.
  destruct st as [l hc]. intros W (Hh & Hz & Hop). pose proof W as [M Q O H WD]. cbn [fst snd] in *.
  assert (forall x, x ∈ l -> dat m x = Some (D x)) as HD.
  { intros x Hx. destruct (qi_data _ _ _ Q x Hx) as (n & d & Hn & Hd).
    assert (dat m x = Some d) as E by (unfold dat; rewrite Hn; done). by rewrite E, (WD x d E). }
  destruct op as [p d|p|p|p|x p| | |p|cmp|]; cbn [list_call run_call fst snd] in *.
  - destruct Hop as (Hp & Hpl & Hd).
    destruct (node_new_ok q hc l m p d) as (m' & E & M' & Q' & O' & Hdp & Hdx);
      [done|done|by eapply may_not_sentinel|done|].
    exists m'. split; [by step by exact E|]. split; [done|done|by apply O'|done|].
    intros x d' Hx. destruct (decide (x = p)) as [->|Hne]; [congruence|]. rewrite Hdx in Hx by done. by apply WD.
  - destruct Hop as [Hp Hps]. destruct (release_ok hc m p M Hp) as (m' & E & M' & K); [left; by eapply held_data|].
    exists m'. split; [by step by exact E|]. eapply world_leads; [done| |done]. by eapply keeps_leads.
  - destruct Hop as (Hp & Hps & Hpl).
    destruct (insert_head_ok q l hc m p) as (m' & E & L); [done|done|by eapply only_free|done|].
    exists m'. split; [by step by exact E|]. by eapply world_leads.
  - destruct Hop as (Hp & Hps & Hpl).
    destruct (insert_tail_ok q l hc m p) as (m' & E & L); [done|done|done|by eapply only_free|done|].
    exists m'. split; [by step by exact E|]. by eapply world_leads.
  - destruct Hop as (Hx & Hp & Hps & Hpl). destruct (only_free q hc l m p) as (_ & n & Hn & Hnq); [done..|].
    apply list_elem_of_split in Hx as (l1 & l2 & ->).
    pose proof (r_nodup _ _ _ _ (qi_ring _ _ _ Q)) as ND. apply NoDup_cons in ND as [_ ND].
    apply NoDup_app in ND as (_ & ND & _).
    assert (x ∉ l1) as Hxl by (intros Hxl; apply (ND x Hxl); left).
    destruct (insert_after_ok q hc (l1 ++ x :: l2) (q_sentinel q :: l1) x l2 p n m) as (m' & l' & E & El & L); try done.
    injection El as ->. exists m'. split; [by step by exact E|]. rewrite list_insert_after_split by done.
    by eapply world_leads.
  - destruct (pop_head_ok q l hc m M Q H) as (m' & E & L). exists m'. split; [done|].
    eapply world_leads; [done| |done]. by destruct l.
  - destruct (pop_tail_ok q l hc m M Q H) as (m' & E & L). exists m'. split; [done|].
    eapply world_leads; [done| |done]. by destruct (list.last l).
  - destruct Hop as [Hp Hps]. destruct (remove_any q D l hc m p W Hp Hps) as (m' & E & L).
    exists m'. split; [by step by exact E|]. by eapply world_leads.
  - destruct (sort_ok cmp D q l hc m M Q H HD) as (m' & E & L). exists m'. split; [by step by exact E|].
    by eapply world_leads.
  - destruct (clear_ok q l hc m M Q) as (m' & E & L); [apply H|]. exists m'. split; [by step by exact E|].
    by eapply world_leads.
Qed.

Lemma calls_ok q D ops : forall st m,
  world q D st m -> may_all q D ops st ->
  exists m', run_calls q ops m = (Ok (list_calls D ops st).1, m') /\ world q D (list_calls D ops st).2 m'.
Proof.
  induction ops as [|op ops IH]; intros st m W H; [by exists m|]. destruct H as [H1 H2].
  destruct (call_ok q D op st m W H1) as (m1 & E1 & W1). cbn [run_calls list_calls].
  destruct (list_call D op st) as [r st1]. destruct (IH st1 m1 W1 H2) as (m2 & E2 & W2).
  exists m2. destruct (list_calls D ops st1) as [rs st2]. split; [|done].
  step by exact E1. by step by exact E2.
Qed.

(** C30. The linked queue is a list: any sequence of calls its users may make
    returns, without touching a freed node, what the same calls give on a list
    of nodes and a count of handles, and leaves the ring, the length counter
    and every reference count as that list and those handles say. *)
Theorem queue_refines_list q D ops st m :
  world q D st m -> may_all q D ops st ->
  exists m', run_calls q ops m = (Ok (list_calls D ops st).1, m') /\ world q D (list_calls D ops st).2 m'.
Proof. apply calls_ok. Qed.

(** [sort] is a stable sort: for a comparison that is a total preorder it
    returns, rearranges the nodes of the queue without copying or losing one,
    leaves them in order, and keeps nodes that compare equal in the order they
    had. *)
Theorem queue_sort_stable cmp D q l hc m :
  mem_ok hc m -> queue_inv q l m -> held q hc -> (forall x, x ∈ l -> dat m x = Some (D x)) ->
  (forall a b, cmp a b = Gt -> cmp b a <> Gt) ->
  (forall a b c, cmp a b <> Gt -> cmp b c <> Gt -> cmp a c <> Gt) ->
  exists m' l', sort cmp q m = (Ok tt, m') /\ mem_ok hc m' /\ queue_inv q l' m' /\ l' ≡ₚ l /\
    StronglySorted (fun x y => cmp (D x) (D y) <> Gt) l' /\
    forall a, filter (alike (gt cmp D) a) l' = filter (alike (gt cmp D) a) l.
Proof.
  intros M Q H HD Htot Htr. destruct (sort_ok cmp D q l hc m M Q H HD) as (m' & E & L).
  assert (forall x y, gt cmp D x y = false <-> cmp (D x) (D y) <> Gt) as Hgt.
  { intros x y. unfold gt. by destruct (cmp (D x) (D y)). }
  assert (forall x y, gt cmp D x y = true -> gt cmp D y x = false) as T1.
  { intros x y Hxy. apply Hgt, Htot. unfold gt in Hxy. by destruct (cmp (D x) (D y)). }
  assert (forall x y z, gt cmp D x y = false -> gt cmp D y z = false -> gt cmp D x z = false) as T2.
  { intros x y z. rewrite !Hgt. apply Htr. }
  exists m', (sort_list (gt cmp D) l). split; [done|]. split; [apply L|]. split; [apply L|].
  split; [apply sort_list_perm|]. split; [|intros a; by apply sort_list_stable].
  assert (StronglySorted (fun x y => gt cmp D x y = false) (sort_list (gt cmp D) l)) as S
    by by apply sort_list_sorted.
  revert S. generalize (sort_list (gt cmp D) l). clear -Hgt. intros k.
  induction 1 as [|x k S IH Hx]; [constructor|]. constructor; [done|].
  eapply Forall_impl; [exact Hx|]. intros y. apply Hgt.
Qed.

(** Nothing leaks and nothing dangles: when a queue is dropped, exactly the
    nodes that someone still holds a handle to stay allocated, each detached
    and counting its handles. *)
Theorem queue_drop_frees q D l hc m :
  world q D (l, hc) m -> hc (q_sentinel q) = 1 ->
  exists m', drop_queue q m = (Ok tt, m') /\
    forall x, match heap m' !! x with
              | Some n => 0 < hc x /\ x <> q_sentinel q /\ in_queue n = false /\ ref_cnt n = hc x
              | None => hc x = 0 \/ x = q_sentinel q
              end.
Proof.
  intros [M Q O H WD] Hs. cbn in *. destruct (clear_ok q l hc m M Q) as (m1 & E1 & L1); [lia|].
  destruct (qi_sent _ _ _ (ld_queue _ _ _ _ _ L1)) as (n & Hn & Hd).
  destruct (mo_node _ _ (ld_mem _ _ _ _ _ L1) _ n Hn) as [F L C V].
  assert (ref_cnt n = 1) as Hr by (rewrite C; unfold owned; rewrite Hd; lia).
  exists (mkMem (delete (q_sentinel q) (heap m1)) (lens m1)). split.
  { unfold drop_queue. step by exact E1. unfold drop_handle, release. step by (by eapply load_step).
    by rewrite Hr. }
  intros x. cbn. destruct (decide (x = q_sentinel q)) as [->|Hne]; [rewrite lookup_delete_eq; by right|].
  rewrite lookup_delete_ne by done. destruct (heap m1 !! x) as [n1|] eqn:Hx.
  - destruct (mo_node _ _ (ld_mem _ _ _ _ _ L1) x n1 Hx) as [F1 L1' C1 V1].
    assert (in_queue n1 = false) as Hq.
    { rewrite F1. apply bool_decide_eq_false. intros [c Hc].
      assert (c = q_len q) as -> by by eapply (only_leads q hc [] m m1).
      apply (qi_mem _ _ _ (ld_queue _ _ _ _ _ L1) x n1 Hx), list_elem_of_singleton in Hc. done. }
    assert (owned n1 = 0) as Ho by (unfold owned; rewrite Hq; by case_match). split_and!; [lia|done|done|lia].
  - left. pose proof (mo_held _ _ M x). destruct (decide (hc x = 0)) as [|Hh]; [done|].
    destruct (mo_alive _ _ (ld_mem _ _ _ _ _ L1) x) as [? ?]; [lia|congruence].
Qed.

End queue.

(** *** Three nodes in a queue *)

Definition demo_data (x : Z) : Z := if x =? 1 then 10 else if x =? 2 then 30 else 20.
Definition demo_fill : list (QueueCall (T := Z)) :=
  [NodeNew 1 10; NodeNew 2 30; NodeNew 3 20; PushBack 1; PushBack 2; PushFront 3].
Definition demo_calls : list (QueueCall (T := Z)) :=
  demo_fill ++ [SortBy Z.compare; PopFront; InsertAfter 3 1; Remove 2; PopBack; DropNode 1; Clear].

Ltac permitted :=
  repeat match goal with
  | |- may _ _ _ _ => unfold may; cbn [list_call fst snd]
  | |- _ /\ _ => split
  | |- held _ _ => split
  | |- True => exact I
  | |- context [take_out ?o _] => let v := eval vm_compute in o in change o with v; cbn [take_out]
  | |- forall x, _ < _ => intros x; cbn; unfold upd; repeat case_decide; lia
  | |- _ < _ => vm_compute; reflexivity
  | |- _ = _ => vm_compute; reflexivity
  | |- _ <> _ => vm_compute; intros [=]
  | |- _ ∉ _ => apply (bool_decide_unpack _); vm_compute; exact I
  | |- _ ∈ _ => apply (bool_decide_unpack _); vm_compute; exact I
  end.

Lemma demo_world : exists m,
  world (mkQueue 0 100) demo_data ([3; 1; 2], (list_calls demo_data demo_fill ([], upd (fun _ => 0) 0 1)).2.2) m.
Proof.
  destruct (world_new 0 100 demo_data) as (m & _ & W).
  destruct (calls_ok _ _ demo_fill _ _ W) as (m' & _ & W'); [|by exists m'].
  cbn [may_all demo_fill]; permitted.
Qed.

Lemma queue_refines_list_witness : exists m m',
  queue_new 0 100 (mkMem ∅ ∅) = (Ok (mkQueue 0 100), m) /\
  run_calls (mkQueue 0 100) demo_calls m =
    (Ok [Some 1; Some 2; Some 3; None; None; None; None; Some 1; None; None; Some 1; None; None], m').
Proof.
  destruct (world_new 0 100 demo_data) as (m & E & W).
  destruct (queue_refines_list _ _ demo_calls _ _ W) as (m' & E' & _); [|by exists m, m'].
  cbn [may_all demo_calls demo_fill app]; permitted.
Defined.

Lemma queue_sort_stable_witness : exists m m' l',
  sort Z.compare (mkQueue 0 100) m = (Ok tt, m') /\ queue_inv (mkQueue 0 100) l' m' /\ l' ≡ₚ [3; 1; 2] /\
  StronglySorted (fun x y => Z.compare (demo_data x) (demo_data y) <> Gt) l'.
Proof.
  destruct demo_world as (m & [M Q _ H HD]).
  destruct (queue_sort_stable Z.compare demo_data _ _ _ _ M Q H) as (m' & l' & E & _ & Q' & P & S & _).
  - intros x Hx. destruct (qi_data _ _ _ Q x Hx) as (n & d & Hn & Hd).
    assert (dat m x = Some d) as Hdat by (unfold dat; rewrite Hn; exact Hd). by rewrite Hdat, (HD x d Hdat).
  - intros a b. destruct (Z.compare_spec a b), (Z.compare_spec b a); done || lia.
  - intros a b c. rewrite !Z.compare_ngt_iff. lia.
  - by exists m, m', l'.
Defined.

Lemma queue_drop_frees_witness : exists m m',
  drop_queue (mkQueue 0 100) m = (Ok tt, m') /\ heap m' !! 0 = None /\
  exists n : QueueNodeInner Z, heap m' !! 2 = Some n /\ in_queue n = false /\ ref_cnt n = 1.
Proof.
  destruct demo_world as (m & W). destruct (queue_drop_frees _ _ _ _ _ W) as (m' & E & H); [reflexivity|].
  exists m, m'. split; [exact E|]. pose proof (H 0) as H0. pose proof (H 2) as H2. split.
  - destruct (heap m' !! 0); [|done]. by destruct H0 as (_ & H0 & _).
  - destruct (heap m' !! 2) as [n|]; [|by destruct H2]. exists n. by destruct H2 as (_ & _ & ? & ?).
Defined.
