(* ===== verification/Var.v ===== *)
(** The variable templates of the access log and of configured texts,
    [any-proxy/src/util/var.rs]: parsing a text with [${name}] in it, asking a
    service for the values, and joining the pieces. *)
From S2P Require Import Prelude RustStd.
#[local] Open Scope string_scope.
#[local] Open Scope Z_scope.

(** The printing of floating point numbers and of socket addresses is the
    standard library's.  Floats and addresses are names here, and
    [x * 1000.0] as an integer comes with the floats. *)
Class Display := {
  show_f32 : Z -> string;
  show_f64 : Z -> string;
  milli_f32 : Z -> Z;
  milli_f64 : Z -> Z;
  show_addr : Z -> string
}.

(** [HeaderValue] carries what its [to_str] gives. *)
Inductive VarAnyData :=
  | ArcStr (s : string)
  | ArcString (s : string)
  | String_ (s : string)
  | Str (s : string)
  | Bool (b : bool)
  | I8 (x : Z)
  | I16 (x : Z)
  | I32 (x : Z)
  | I64 (x : Z)
  | Isize (x : Z)
  | U8 (x : Z)
  | U16 (x : Z)
  | U32 (x : Z)
  | U64 (x : Z)
  | Usize (x : Z)
  | F32 (x : Z)
  | F64 (x : Z)
  | SocketAddr (a : Z)
  | U128 (x : Z)
  | HeaderValue (s : option string).

(** [write!(buf, "{}", x)] of a signed number. *)
Definition show_i (x : Z) : string := if x <? 0 then String "-" (show_u (- x)) else show_u x.

Section var.
Context `{Display}.

(** [VarAnyData::write]: the text it appends. *)
Definition write (v : VarAnyData) : string :=
  match v with
  | ArcStr s | ArcString s | String_ s | Str s => s
  | Bool b => if b then "true" else "false"
  | I8 x | I16 x | I32 x | I64 x | Isize x => show_i x
  | U8 x | U16 x | U32 x | U64 x | Usize x | U128 x => show_u x
  | F32 x => show_f32 x
  | F64 x => show_f64 x
  | SocketAddr a => show_addr a
  | HeaderValue s => default "" s
  end.

(** [VarAnyData::len]: room for the text.  A number takes ten more for each ten
    bits; thirteen rounds use up 128 bits. *)
Fixpoint len_loop (fuel : nat) (d n : Z) : Z :=
  match fuel with
  | O => n
  | S fuel =>
      let d := Z.shiftr d 10 in
      if d <=? 0 then n + 10 else len_loop fuel d (n + 10)
  end.

Definition len (v : VarAnyData) : Z :=
  match v with
  | ArcStr s | ArcString s | String_ s | Str s => slen s
  | Bool b => if b then slen "true" else slen "false"
  | I8 x | I16 x | I32 x | I64 x | Isize x => len_loop 13 x 0
  | U8 x | U16 x | U32 x | U64 x | Usize x | U128 x => len_loop 13 x 0
  | F32 x => len_loop 13 (milli_f32 x) 0
  | F64 x => len_loop 13 (milli_f64 x) 0
  | SocketAddr _ => 30
  | HeaderValue s => match s with Some s => slen s | None => 10 end
  end.

(** [VarAnyData::to_str] *)
Definition to_str (v : VarAnyData) : outcome string :=
  match v with
  | ArcStr s | ArcString s | String_ s | Str s => Ok s
  | HeaderValue s => ok_or "ToStrError" s
  | _ => Ok ""
  end.

Record VarItem := mkItem { is_var : bool; data : string }.

Record VarParse := mkParse { default_str : string; datas : list VarItem; has_var : bool }.

(** The loop of [VarParse::new] on the rest [vars] of the text. *)
Fixpoint parse_loop (fuel : nat) (vars : string) (items : list VarItem) (seen : bool)
    : outcome (list VarItem * bool) :=
  match fuel with
  | O => Fuel
  | S fuel =>
      match find_str "${" vars with
      | None => Ok (items ++ [mkItem false vars], seen)%list
      | Some i =>
          let items := if (0 <? Z.of_nat i) then (items ++ [mkItem false (stake i vars)])%list else items in
          let vars := if (0 <? Z.of_nat i) then sdrop i vars else vars in
          e ← ok_or "err:var invalid" (find_char "}" vars);
          let items := (items ++ [mkItem true (stake (S e) vars)])%list in
          if Z.of_nat e =? slen vars - 1 then Ok (items, true)
          else parse_loop fuel (sdrop (S e) vars) items true
      end
  end.

(** Every round but the last takes a variable off the text. *)
Definition var_parse (vars_str default_str : string) : outcome VarParse :=
  '(items, seen) ← parse_loop (S (String.length vars_str)) vars_str [] false;
  Ok (mkParse default_str items seen).

Record Var := mkVar { parsed : VarParse; data_anys : list (option VarAnyData); max_len : Z }.

Definition copy (p : VarParse) : Var := mkVar p ((fun _ => None) <$> datas p) 128.

(** [for_each]: a variable without a value is asked of the service.  An error
    ends the call; the values found before it are kept. *)
Fixpoint ask (service : string -> outcome (option VarAnyData)) (items : list VarItem)
    (vals : list (option VarAnyData)) : outcome unit * list (option VarAnyData) :=
  match items, vals with
  | item :: items, val :: vals =>
      match (if is_var item
             then match val with Some _ => Ok val | None => service (data item) end
             else Ok val) with
      | Ok val => let (o, vals) := ask service items vals in (o, val :: vals)
      | Err e => (Err e, val :: vals)
      | Panic => (Panic, val :: vals)
      | Fuel => (Fuel, val :: vals)
      end
  | [], vals => (Ok tt, vals)
  | item :: items, [] => if is_var item then (Panic, []) else ask service items []
  end.

(** The room [for_each] adds up for the joined text. *)
Fixpoint capacity (dflt : string) (items : list VarItem) (vals : list (option VarAnyData)) : Z :=
  match items, vals with
  | item :: items, val :: vals =>
      let n := if is_var item then match val with None => slen dflt | Some v => len v end
               else slen (data item) in
      wrap64 (n + 1 + capacity dflt items vals)
  | _, _ => 0
  end.

Definition for_each (service : string -> outcome (option VarAnyData)) : stm Var unit := fun v =>
  let (o, vals) := ask service (datas (parsed v)) (data_anys v) in
  let n := if is_ok o then capacity (default_str (parsed v)) (datas (parsed v)) vals else max_len v in
  (o, mkVar (parsed v) vals n).

Fixpoint join_items (dflt : string) (items : list VarItem) (vals : list (option VarAnyData)) : outcome string :=
  match items, vals with
  | item :: items, val :: vals =>
      let t := if is_var item then match val with Some v => write v | None => dflt end else data item in
      rest ← join_items dflt items vals;
      Ok (t +:+ rest)
  | [], _ => Ok ""
  | item :: items, [] =>
      if is_var item then Panic else rest ← join_items dflt items []; Ok (data item +:+ rest)
  end.

Definition join (v : Var) : outcome string :=
  join_items (default_str (parsed v)) (datas (parsed v)) (data_anys v).

(** [Var::is_valid], [var_name] and [var_to_number]. *)
Definition is_valid (var : string) : outcome bool :=
  if slen var <=? 3 then Ok false
  else
    start ← text_slice var 0 2;
    if negb (String.eqb start "${") then Ok false
    else
      last ← text_slice var (slen var - 1) (slen var);
      Ok (String.eqb last "}").

Definition var_name (var : string) : outcome string :=
  s ← text_slice var 2 (slen var - 1); Ok (trim s).

Definition var_to_number (var : string) : outcome Z :=
  name ← var_name var; ok_or "ParseIntError" (parse_u 64 name).

(** ** Templates *)

Inductive piece := Lit (t : string) | Name (n : string).

Definition print_piece (p : piece) : string :=
  match p with Lit t => t | Name n => "${" +:+ (n +:+ "}") end.
Definition print (ps : list piece) : string := foldr (fun p s => print_piece p +:+ s) "" ps.

(** Texts between variables are not empty and hold no [${]; names hold no
    closing brace. *)
Definition piece_ok (p : piece) : bool :=
  match p with
  | Lit t => negb (String.eqb t "") && bool_decide (find_str "${" t = None)
  | Name n => negb (has_char "}" n)
  end.
Fixpoint template (ps : list piece) : bool :=
  match ps with
  | [] => true
  | p :: ps =>
      piece_ok p && template ps &&
      match p, ps with Lit _, Lit _ :: _ => false | _, _ => true end
  end.

Definition item_of (p : piece) : VarItem :=
  match p with Lit t => mkItem false t | Name n => mkItem true (print_piece p) end.
Definition is_name (p : piece) : bool := match p with Name _ => true | _ => false end.

Definition piece_value (service : string -> outcome (option VarAnyData)) (dflt : string) (p : piece) : string :=
  match p with
  | Lit t => t
  | Name n => match service (print_piece p) with Ok (Some v) => write v | _ => dflt end
  end.

Lemma find_dollar t r :
  find_str "${" t = None -> find_str "${" (t +:+ ("${" +:+ r)) = Some (String.length t).
Proof.
  induction t as [|c t IH]; intros Ht; [done|]. rewrite app_cons.
  assert (starts_with "${" (String c t) = false /\ find_str "${" t = None) as [H1 H2].
  { revert Ht. cbn [find_str]. destruct (starts_with "${" (String c t)); [done|].
    by destruct (find_str "${" t). }
  assert (starts_with "${" (String c (t +:+ ("${" +:+ r))) = false) as H3.
  { destruct t as [|d t]; [|done]. cbn. by destruct (Ascii.eqb "$" c). }
  cbn [find_str]. rewrite H3, IH by done. done.
Qed.

Lemma slen_cons c s : slen (String c s) = slen s + 1.
Proof. unfold slen. cbn [String.length]. lia. Qed.

Lemma print_nonempty ps : template ps = true -> ps <> [] -> 0 < slen (print ps).
Proof.
  destruct ps as [|p ps]; [done|]. cbn [template print foldr]. intros Hp _.
  apply andb_true_iff in Hp as [[Hp _]%andb_true_iff _]. rewrite slen_app.
  pose proof (slen_nonneg (foldr (fun p s => print_piece p +:+ s) "" ps)).
  destruct p as [t|n]; cbn [piece_ok print_piece] in *.
  - destruct t as [|c t]; [done|]. rewrite slen_cons. pose proof (slen_nonneg t). lia.
  - rewrite slen_app. change (slen "${") with 2. pose proof (slen_nonneg (n +:+ "}")). lia.
Qed.

(** A variable at the front of the text. *)
Lemma name_first n s :
  has_char "}" n = false ->
  let text := "${" +:+ ((n +:+ "}") +:+ s) in
  find_str "${" text = Some O /\ find_char "}" text = Some (String.length n + 2)%nat /\
  stake (S (String.length n + 2)) text = print_piece (Name n) /\ sdrop (S (String.length n + 2)) text = s.
Proof.
  intros Hn text. split; [done|].
  assert (text = String "$" (String "{" n) +:+ String "}" s) as Et.
  { unfold text. rewrite app_assoc_s. done. }
  split.
  { rewrite Et, find_char_app; [cbn; f_equal; lia|]. cbn. by rewrite Hn. }
  assert (text = (String "$" (String "{" n) +:+ "}") +:+ s) as Ea by (rewrite Et, app_assoc_s; done).
  assert (S (String.length n + 2) = String.length (String "$" (String "{" n) +:+ "}")) as El.
  { apply Nat2Z.inj. fold (slen (String "$" (String "{" n) +:+ "}")). rewrite slen_app, !slen_cons.
    unfold slen. cbn [String.length]. lia. }
  rewrite El, Ea, stake_app, sdrop_app. done.
Qed.

Lemma name_round fuel n rest items :
  template (Name n :: rest) = true ->
  (rest <> [] -> parse_loop fuel (print rest) (items ++ [item_of (Name n)])%list true =
                 Ok ((items ++ [item_of (Name n)]) ++ (item_of <$> rest), true)%list) ->
  (e ← ok_or "err:var invalid" (find_char "}" (print (Name n :: rest)));
   let items := (items ++ [mkItem true (stake (S e) (print (Name n :: rest)))])%list in
   if Z.of_nat e =? slen (print (Name n :: rest)) - 1 then Ok (items, true)
   else parse_loop fuel (sdrop (S e) (print (Name n :: rest))) items true) =
  Ok ((items ++ (item_of <$> Name n :: rest))%list, true).
Proof.
  intros Ht HR. cbn [template piece_ok] in Ht. rewrite !andb_true_iff in Ht. destruct Ht as [[Hn Ht] _].
  apply negb_true_iff in Hn. destruct (name_first n (print rest) Hn) as (_ & Ec & Es & Ed).
  assert (print (Name n :: rest) = "${" +:+ ((n +:+ "}") +:+ print rest)) as Ep by apply app_assoc_s.
  rewrite Ep, Ec. cbn [ok_or mbind outcome_bind]. rewrite Es, Ed.
  assert (slen ("${" +:+ ((n +:+ "}") +:+ print rest)) = slen n + 3 + slen (print rest)) as El.
  { rewrite !slen_app. change (slen "${") with 2. change (slen "}") with 1. lia. }
  rewrite El. assert (Z.of_nat (String.length n + 2) = slen n + 2) as -> by (unfold slen; lia).
  destruct rest as [|p rest].
  - cbn [print foldr]. change (slen "") with 0. rewrite (proj2 (Z.eqb_eq _ _)) by lia. done.
  - pose proof (print_nonempty (p :: rest) Ht ltac:(done)). rewrite (proj2 (Z.eqb_neq _ _)) by lia.
    change (mkItem true (print_piece (Name n))) with (item_of (Name n)).
    rewrite HR by done. cbn [fmap list_fmap]. by rewrite <- app_assoc.
Qed.

Lemma lit_first t n rest :
  find_str "${" t = None ->
  find_str "${" (print (Lit t :: Name n :: rest)) = Some (String.length t) /\
  stake (String.length t) (print (Lit t :: Name n :: rest)) = t /\
  sdrop (String.length t) (print (Lit t :: Name n :: rest)) = print (Name n :: rest).
Proof.
  intros Hf.
  assert (print (Lit t :: Name n :: rest) = t +:+ print (Name n :: rest)) as -> by done.
  assert (print (Name n :: rest) = "${" +:+ ((n +:+ "}") +:+ print rest)) as E by apply app_assoc_s.
  split; [rewrite E; by apply find_dollar|]. split; [apply stake_app|apply sdrop_app].
Qed.

Lemma parse_loop_ok fuel : forall ps items seen,
  template ps = true -> ps <> [] -> (length ps <= fuel)%nat ->
  parse_loop fuel (print ps) items seen = Ok ((items ++ (item_of <$> ps))%list, seen || existsb is_name ps).
Proof.
  induction fuel as [|fuel IH]; intros ps items seen Ht Hne Hf; [destruct ps; [done|cbn in Hf; lia]|].
  destruct ps as [|[t|n] ps]; [done| |].
  - pose proof Ht as Ht'. cbn [template piece_ok] in Ht. rewrite !andb_true_iff in Ht.
    destruct Ht as [[[Ht1 Ht2] Ht3] Ht4]. apply bool_decide_eq_true in Ht2. apply negb_true_iff, String.eqb_neq in Ht1.
    destruct ps as [|[t'|n] ps]; [|done|].
    + cbn [parse_loop print foldr print_piece]. rewrite app_empty_r, Ht2. cbn. by rewrite orb_false_r.
    + destruct (lit_first t n ps Ht2) as (E1 & E2 & E3). cbn [parse_loop]. rewrite E1, E2, E3.
      assert ((0 <? Z.of_nat (String.length t)) = true) as -> by (destruct t; done).
      rewrite name_round; [|done|].
      * rewrite <- app_assoc. cbn [existsb is_name]. by rewrite orb_true_r.
      * intros Hp. apply andb_true_iff in Ht3 as [[_ Ht3]%andb_true_iff _].
        rewrite IH; [done|done|done|]. cbn in Hf. lia.
  - assert (find_str "${" (print (Name n :: ps)) = Some O) as E by done.
    cbn [parse_loop]. rewrite E. refine (eq_trans (name_round fuel n ps items Ht _) _).
    2:{ cbn [existsb is_name]. by rewrite orb_true_r. }
    + intros Hp. cbn [template] in Ht. apply andb_true_iff in Ht as [[_ Ht]%andb_true_iff _].
      rewrite IH; [done|done|done|]. cbn in Hf. lia.
Qed.

Lemma template_length ps : template ps = true -> (length ps <= String.length (print ps))%nat.
Proof.
  induction ps as [|p ps IH]; [done|]. cbn [template]. intros Hp.
  apply andb_true_iff in Hp as [[Hp Ht]%andb_true_iff _]. specialize (IH Ht).
  assert (slen (print (p :: ps)) = slen (print_piece p) + slen (print ps)) as E by apply slen_app.
  assert (0 < slen (print_piece p)) as Hl.
  { destruct p as [t|n]; cbn [piece_ok print_piece] in *.
    - destruct t as [|c t]; [done|]. rewrite slen_cons. pose proof (slen_nonneg t). lia.
    - rewrite slen_app. change (slen "${") with 2. pose proof (slen_nonneg (n +:+ "}")). lia. }
  unfold slen in *. cbn [length]. lia.
Qed.

(** Asking the service for the variables and joining. *)
Lemma ask_join service dflt ps :
  (forall n, Name n ∈ ps -> is_ok (service (print_piece (Name n))) = true) ->
  exists vals, ask service (item_of <$> ps) ((fun _ => None) <$> (item_of <$> ps)) = (Ok tt, vals) /\
    join_items dflt (item_of <$> ps) vals = Ok (foldr (fun p s => piece_value service dflt p +:+ s) "" ps).
Proof.
  induction ps as [|p ps IH]; intros Hs; [by exists []|].
  destruct IH as (vals & E1 & E2); [intros n Hn; apply Hs; by right|].
  destruct p as [t|n].
  - exists (None :: vals). cbn in E1 |- *. rewrite E1. split; [done|]. cbn. by rewrite E2.
  - assert (is_ok (service (print_piece (Name n))) = true) as Hok by (apply Hs; left).
    destruct (service (print_piece (Name n))) as [v| | |] eqn:Es; [|done..].
    exists (v :: vals). cbn [fmap list_fmap item_of ask is_var data]. rewrite Es. cbn in E1. rewrite E1.
    split; [done|]. cbn [join_items is_var data]. rewrite E2. cbn [mbind outcome_bind foldr piece_value].
    rewrite Es. by destruct v.
Qed.

(** C37. Templates mean what they say: a text made of plain pieces and variables
    [${name}] parses into exactly these pieces, and when the service answers
    every variable, joining gives the text with each variable replaced by its
    value, or by the default where it has none. *)
Theorem var_template service dflt ps :
  template ps = true -> ps <> [] ->
  (forall n, Name n ∈ ps -> is_ok (service (print_piece (Name n))) = true) ->
  exists p v, var_parse (print ps) dflt = Ok p /\ datas p = (item_of <$> ps) /\
    has_var p = existsb is_name ps /\ for_each service (copy p) = (Ok tt, v) /\
    join v = Ok (foldr (fun p s => piece_value service dflt p +:+ s) "" ps).
Proof.
  intros Ht Hne Hs. destruct (ask_join service dflt ps Hs) as (vals & E1 & E2).
  exists (mkParse dflt (item_of <$> ps) (existsb is_name ps)), 
    (mkVar (mkParse dflt (item_of <$> ps) (existsb is_name ps)) vals (capacity dflt (item_of <$> ps) vals)).
  split.
  { unfold var_parse. rewrite parse_loop_ok; [done|done|done|]. pose proof (template_length ps Ht). lia. }
  split; [done|]. split; [done|]. split; [|exact E2].
  unfold for_each, copy. cbn [datas parsed data_anys default_str]. by rewrite E1.
Qed.

End var.

#[global] Instance demo_display : Display := {| show_f32 := show_u; show_f64 := show_u; milli_f32 := Z.mul 1000; milli_f64 := Z.mul 1000; show_addr := show_u |}.

Definition demo_service (name : string) : outcome (option VarAnyData) :=
  if String.eqb name "${status}" then Ok (Some (U16 206)) else Ok None.

Lemma var_template_witness : exists p v,
  var_parse "a$${status} ${user}." "-" = Ok p /\ for_each demo_service (copy p) = (Ok tt, v) /\
  join v = Ok "a$206 -.".
Proof.
  destruct (var_template demo_service "-" [Lit "a$"; Name "status"; Lit " "; Name "user"; Lit "."])
    as (p & v & E1 & _ & _ & E2 & E3).
  - reflexivity.
  - discriminate.
  - intros n _. unfold demo_service. by case_match.
  - exists p, v. split; [exact E1|]. split; [exact E2|]. exact E3.
Defined.
