(* ===== verification/DomainIndex.v ===== *)
(** The index of the domains a server answers,
    [any-proxy/src/util/domain_index.rs]: plain names, patterns
    of two dollar signs, a parenthesised regular expression and a suffix, kept
    under their suffix, and the pattern that every name matches. *)
From S2P Require Import Prelude RustStd.
#[local] Open Scope string_scope.
#[local] Open Scope Z_scope.

(** The [regex] crate: whether a pattern is one, and whether a text has a match
    of it. *)
Class Regex := {
  regex_ok : string -> bool;
  captures : string -> string -> bool
}.

Record DomainIndex := mkIndex {
  domain_map : gmap string Z;
  domain_regex_map : gmap string (string * Z);
  full_match_index : option Z
}.

Section index.
Context `{Regex}.

(** The closure of [new] that splits a pattern into its regular expression and
    its suffix: one leading parenthesis, and at least two labels after the
    last closing one. *)
Definition split_pattern (vars_str : string) : outcome (string * string) :=
  let err := Err "err:domain" in
  match find_char "(" vars_str with
  | None => err
  | Some a =>
      if negb (Z.of_nat a =? 0) then err
      else match rfind_char ")" vars_str with
      | None => err
      | Some e =>
          let e := Z.of_nat e in
          if e =? slen vars_str - 1 then err
          else
            dot ← text_slice vars_str (e + 1) (e + 2);
            if negb (String.eqb dot ".") then err
            else
              regex ← text_slice vars_str (Z.of_nat a) (e + 1);
              data ← text_slice vars_str (e + 1) (slen vars_str);
              match find_char "." data with
              | None => err
              | Some flag =>
                  if Z.of_nat flag =? slen data - 1 then err
                  else match rfind_char "." data with
                  | None => err
                  | Some flag2 => if Nat.eqb flag flag2 then err else Ok (regex, data)
                  end
              end
      end
  end.

(** One word of the domains of the server [index]. *)
Definition add_word (index : Z) (di : DomainIndex) (v : string) : outcome DomainIndex :=
  let v := trim v in
  if slen v <=? 0 then Ok di
  else
    mark ← (if 3 <=? slen v then m ← text_slice v 0 2; Ok (String.eqb m "$$") else Ok false);
    if mark : bool then
      v ← text_slice v 2 (slen v);
      if String.eqb v "(.*)" then
        match full_match_index di with
        | Some _ => Err "err:domain exist"
        | None => Ok (mkIndex (domain_map di) (domain_regex_map di) (Some index))
        end
      else if negb (regex_ok v) then Err "err:Regex::new"
      else
        '(_, data) ← split_pattern v;
        match domain_regex_map di !! data with
        | Some _ => Err "err:domain"
        | None => Ok (mkIndex (domain_map di) (<[data := (v, index)]> (domain_regex_map di)) (full_match_index di))
        end
    else
      match domain_map di !! v with
      | Some _ => Err "err:domain exist"
      | None => Ok (mkIndex (<[v := index]> (domain_map di)) (domain_regex_map di) (full_match_index di))
      end.

Fixpoint add_words (index : Z) (di : DomainIndex) (vs : list string) : outcome DomainIndex :=
  match vs with
  | [] => Ok di
  | v :: vs => di ← add_word index di v; add_words index di vs
  end.

(** [DomainIndex::new] on the entries in the order the map gives them. *)
Fixpoint add_entries (di : DomainIndex) (entries : list (string * Z)) : outcome DomainIndex :=
  match entries with
  | [] => Ok di
  | (domain, index) :: entries =>
      di ← add_words index di (split_char " " (trim domain)); add_entries di entries
  end.

Definition domain_index_new (entries : list (string * Z)) : outcome DomainIndex :=
  add_entries (mkIndex ∅ ∅ None) entries.

(** The loop of [index] on what is left of the name before the dots seen. *)
Fixpoint index_loop (fuel : nat) (di : DomainIndex) (domain vars : string) : outcome Z :=
  match fuel with
  | O => Fuel
  | S fuel =>
      match rfind_char "." vars with
      | None => ok_or "err:domain not found" (full_match_index di)
      | Some find =>
          let vars := stake find vars in
          let suffix := sdrop find domain in
          match domain_regex_map di !! suffix with
          | None => index_loop fuel di domain vars
          | Some (regex, i) => if captures regex domain then Ok i else index_loop fuel di domain vars
          end
      end
  end.

(** Every round takes a dot off the name. *)
Definition index (di : DomainIndex) (domain : string) : outcome Z :=
  match domain_map di !! domain with
  | Some i => Ok i
  | None =>
      match rfind_char "." domain with
      | None => Err "err:domain not found"
      | Some find => index_loop (S (String.length domain)) di domain (stake find domain)
      end
  end.

(** ** What a name resolves to *)

(** The suffixes of two labels and more of the name [ws], the shortest first,
    the whole name excepted. *)
Definition suffix_from (ws : list string) (k : nat) : string := String "." (join "." (drop k ws)).
Definition suffixes (ws : list string) : list string :=
  suffix_from ws <$> reverse (seq 1 (length ws - 2)).

Definition pattern_for (di : DomainIndex) (domain suffix : string) : option Z :=
  '(regex, i) ← domain_regex_map di !! suffix; if captures regex domain then Some i else None.

Fixpoint first_some {A B} (f : A -> option B) (l : list A) : option B :=
  match l with
  | [] => None
  | a :: l => match f a with Some b => Some b | None => first_some f l end
  end.

Definition resolve (di : DomainIndex) (domain : string) : outcome Z :=
  let ws := split_char "." domain in
  match domain_map di !! domain with
  | Some i => Ok i
  | None =>
      if (length ws <=? 1)%nat then Err "err:domain not found"
      else match first_some (pattern_for di domain) (suffixes ws) with
      | Some i => Ok i
      | None => ok_or "err:domain not found" (full_match_index di)
      end
  end.

(** What a word of the configuration adds. *)
Inductive Word := Blank | Plain (w : string) | Pattern (suffix regex : string) | All.

Definition classify (v : string) : outcome Word :=
  let v := trim v in
  if slen v <=? 0 then Ok Blank
  else
    mark ← (if 3 <=? slen v then m ← text_slice v 0 2; Ok (String.eqb m "$$") else Ok false);
    if mark : bool then
      v ← text_slice v 2 (slen v);
      if String.eqb v "(.*)" then Ok All
      else if negb (regex_ok v) then Err "err:Regex::new"
      else '(_, data) ← split_pattern v; Ok (Pattern data v)
    else Ok (Plain v).

Definition enter (i : Z) (di : DomainIndex) (w : Word) : outcome DomainIndex :=
  match w with
  | Blank => Ok di
  | Plain v =>
      match domain_map di !! v with
      | Some _ => Err "err:domain exist"
      | None => Ok (mkIndex (<[v := i]> (domain_map di)) (domain_regex_map di) (full_match_index di))
      end
  | Pattern data v =>
      match domain_regex_map di !! data with
      | Some _ => Err "err:domain"
      | None => Ok (mkIndex (domain_map di) (<[data := (v, i)]> (domain_regex_map di)) (full_match_index di))
      end
  | All =>
      match full_match_index di with
      | Some _ => Err "err:domain exist"
      | None => Ok (mkIndex (domain_map di) (domain_regex_map di) (Some i))
      end
  end.

Lemma add_word_enter i di v : add_word i di v = (w ← classify v; enter i di w).
Proof.
  unfold add_word, classify, enter. destruct (slen (trim v) <=? 0); [done|].
  destruct (if 3 <=? slen (trim v) then _ else _) as [[]| | |]; cbn [mbind outcome_bind]; try done.
  destruct (text_slice (trim v) 2 _) as [u| | |]; cbn [mbind outcome_bind]; try done.
  destruct (String.eqb u "(.*)"); [done|]. destruct (negb (regex_ok u)); [done|].
  by destruct (split_pattern u) as [[]| | |].
Qed.

Definition is_new (di : DomainIndex) (w : Word) : Prop :=
  match w with
  | Blank => True
  | Plain v => domain_map di !! v = None
  | Pattern data _ => domain_regex_map di !! data = None
  | All => full_match_index di = None
  end.

Definition entered (i : Z) (di : DomainIndex) (w : Word) : DomainIndex :=
  match w with
  | Blank => di
  | Plain v => mkIndex (<[v := i]> (domain_map di)) (domain_regex_map di) (full_match_index di)
  | Pattern data v => mkIndex (domain_map di) (<[data := (v, i)]> (domain_regex_map di)) (full_match_index di)
  | All => mkIndex (domain_map di) (domain_regex_map di) (Some i)
  end.

Lemma enter_ok i di w d : enter i di w = Ok d <-> is_new di w /\ d = entered i di w.
Proof. destruct w; cbn; try case_match; (split; [by intros [= <-]|by intros [? ->]]). Qed.

(** Two words enter in either order. *)
Lemma enter_swap i j di v w d1 d2 :
  enter i di v = Ok d1 -> enter j d1 w = Ok d2 ->
  exists d1', enter j di w = Ok d1' /\ enter i d1' v = Ok d2.
Proof.
  setoid_rewrite enter_ok. intros [N1 ->] [N2 ->]. exists (entered j di w).
  destruct v as [|v|s1 v|], w as [|w|s2 w|]; cbn in *;
    try (apply lookup_insert_None in N2 as [N2 Hne]); split_and!; try done.
  all: by (rewrite lookup_insert_ne) || by (f_equal; apply insert_insert_ne).
Qed.

Lemma join_snoc ws w : ws <> [] -> join "." (ws ++ [w])%list = join "." ws +:+ String "." w.
Proof.
  induction ws as [|v ws IH]; [done|]. intros _. destruct ws as [|v' ws].
  - done.
  - cbn [app join] in *. rewrite IH by done. by rewrite app_assoc_s.
Qed.

Lemma join_app ws vs : ws <> [] -> vs <> [] ->
  join "." (ws ++ vs)%list = join "." ws +:+ String "." (join "." vs).
Proof.
  intros Hw Hv. induction ws as [|w ws IH]; [done|]. destruct ws as [|w' ws].
  - by destruct vs.
  - cbn [app join] in *. rewrite IH by done. by rewrite app_assoc_s.
Qed.

Lemma split_char_free c s : Forall (fun w => has_char c w = false) (split_char c s).
Proof.
  induction s as [|d s IH]; cbn; [by repeat constructor|].
  destruct (Ascii.eqb c d) eqn:E; [by constructor|].
  destruct IH as [|w ws Hw IH]; constructor; cbn; rewrite ?E; done.
Qed.

Lemma split_char_cons c s : exists w ws, split_char c s = w :: ws.
Proof.
  destruct s as [|d s]; cbn; [eauto|]. destruct (Ascii.eqb c d); [eauto|].
  destruct (split_char c s); eauto.
Qed.

Lemma join_split c s : join c (split_char c s) = s.
Proof.
  induction s as [|d s IH]; [done|]. cbn [split_char]. destruct (Ascii.eqb_spec c d) as [->|Hd].
  - rewrite <- IH at 2. by destruct (split_char_cons d s) as (w & ws & ->).
  - destruct (split_char_cons c s) as (w & ws & E). rewrite E in IH |- *. rewrite <- IH. by destruct ws.
Qed.

Lemma split_char_length c s : (length (split_char c s) <= S (String.length s))%nat.
Proof.
  induction s as [|d s IH]; cbn; [lia|]. destruct (Ascii.eqb c d); cbn; [lia|].
  destruct (split_char c s); cbn in *; lia.
Qed.

(** The text up to the last dot of a name cut after [S k] labels. *)
Lemma rfind_take ws k w :
  Forall (fun w => has_char "." w = false) ws -> (0 < k)%nat -> ws !! k = Some w ->
  rfind_char "." (join "." (take (S k) ws)) = Some (String.length (join "." (take k ws))) /\
  stake (String.length (join "." (take k ws))) (join "." (take (S k) ws)) = join "." (take k ws) /\
  sdrop (String.length (join "." (take k ws))) (join "." ws) = suffix_from ws k.
Proof.
  intros Hf Hk Hw. pose proof (lookup_lt_Some _ _ _ Hw) as Hlt.
  assert (Hne : take k ws <> []) by (destruct k, ws; cbn in *; naive_solver lia).
  assert (Hd : drop k ws <> []).
  { intros Hd. apply (f_equal length) in Hd. rewrite length_drop in Hd. cbn in Hd. lia. }
  rewrite (take_S_r _ _ _ Hw), join_snoc by done. split_and!.
  - apply rfind_app. by apply (Forall_lookup_1 _ _ _ _ Hf Hw).
  - by rewrite stake_app.
  - rewrite <- (take_drop k ws) at 2. rewrite join_app by done. by rewrite sdrop_app.
Qed.

Lemma index_loop_spec di ws k fuel :
  Forall (fun w => has_char "." w = false) ws -> (0 < k <= length ws)%nat -> (k <= fuel)%nat ->
  index_loop fuel di (join "." ws) (join "." (take k ws)) =
  match first_some (pattern_for di (join "." ws)) (suffix_from ws <$> reverse (seq 1 (k - 1))) with
  | Some i => Ok i
  | None => ok_or "err:domain not found" (full_match_index di)
  end.
Proof.
  intros Hf. revert fuel. induction k as [|k IH]; intros fuel Hk Hfuel; [lia|].
  destruct fuel as [|fuel]; [lia|]. cbn [index_loop]. destruct (decide (k = 0)%nat) as [->|Hk0].
  - destruct ws as [|w ws]; [cbn in Hk; lia|]. cbn [take join]. inversion Hf; subst.
    by rewrite has_char_rfind.
  - destruct (lookup_lt_is_Some_2 ws k) as [w Hw]; [lia|].
    destruct (rfind_take ws k w Hf ltac:(lia) Hw) as (-> & -> & ->).
    replace (S k - 1)%nat with (S (k - 1)) by lia.
    rewrite seq_S, reverse_app, fmap_app. replace (1 + (k - 1))%nat with k by lia.
    cbn [reverse rev_append fmap list_fmap app first_some].
    unfold pattern_for at 1. destruct (domain_regex_map di !! suffix_from ws k) as [[re i]|]; cbn [mbind option_bind].
    + destruct (captures re (join "." ws)); [done|]. apply IH; lia.
    + apply IH; lia.
Qed.

(** C33. C0: resolving a name: the entry of the name itself when there is one; else
    the entry of the pattern with the shortest matching suffix of at least two
    labels; else the pattern that matches every name; a name of one label
    that is no entry is an error. The loop always comes to an end. *)
Theorem index_resolves di domain : index di domain = resolve di domain.
Proof.
  unfold index, resolve. destruct (domain_map di !! domain); [done|].
  pose proof (split_char_free "." domain) as Hf. pose proof (join_split "." domain) as Hj.
  pose proof (split_char_length "." domain) as Hl.
  set (ws := split_char "." domain) in *. rewrite <- Hj. destruct (Nat.leb_spec (length ws) 1) as [H1|H1].
  - destruct ws as [|w [|w' ws']]; [done|..|cbn in H1; lia]. cbn [join]. inversion Hf; subst.
    by rewrite has_char_rfind.
  - destruct (lookup_lt_is_Some_2 ws (length ws - 1)) as [w Hw]; [lia|].
    destruct (rfind_take ws (length ws - 1) w Hf ltac:(lia) Hw) as (E1 & E2 & _).
    replace (S (length ws - 1)) with (length ws) in E1, E2 by lia.
    rewrite (take_ge ws (length ws)) in E1, E2 by lia. rewrite E1, E2.
    rewrite index_loop_spec by (done || lia || (rewrite Hj; lia)).
    unfold suffixes. by replace (length ws - 1 - 1)%nat with (length ws - 2)%nat by lia.
Qed.

(** ** The order of the entries *)

Definition words_of (e : string * Z) : list (string * Z) := (fun v => (v, e.2)) <$> split_char " " (trim e.1).

Fixpoint enter_all (di : DomainIndex) (l : list (string * Z)) : outcome DomainIndex :=
  match l with
  | [] => Ok di
  | (v, i) :: l => di ← add_word i di v; enter_all di l
  end.

Lemma enter_all_app di l k : enter_all di (l ++ k) = (d ← enter_all di l; enter_all d k).
Proof.
  revert di. induction l as [|[v i] l IH]; intros di; [done|]. cbn [app enter_all].
  destruct (add_word i di v); cbn [mbind outcome_bind]; [apply IH|done..].
Qed.

Lemma add_words_all i di vs : add_words i di vs = enter_all di ((fun v => (v, i)) <$> vs).
Proof.
  revert di. induction vs as [|v vs IH]; intros di; [done|]. cbn [add_words fmap list_fmap enter_all].
  destruct (add_word i di v); cbn [mbind outcome_bind]; [apply IH|done..].
Qed.

Lemma add_entries_all di es : add_entries di es = enter_all di (es ≫= words_of).
Proof.
  revert di. induction es as [|[d i] es IH]; intros di; [done|]. cbn [add_entries mbind list_bind].
  rewrite enter_all_app, add_words_all. change (fmap _ _) with (words_of (d, i)) at 1.
  destruct (enter_all di (words_of (d, i))); cbn [mbind outcome_bind]; [apply IH|done..].
Qed.

Lemma enter_all_perm l k di d : l ≡ₚ k -> enter_all di l = Ok d -> enter_all di k = Ok d.
Proof.
  intros P. revert di. induction P as [|[v i] l k P IH|[v i] [w j] l|l k h P IH P' IH']; intros di; [done|..].
  - cbn [enter_all]. destruct (add_word i di v) as [d'| | |]; cbn [mbind outcome_bind]; [apply IH|done..].
  - cbn [enter_all]. rewrite !add_word_enter. intros E.
    destruct (classify w) as [cw| | |] eqn:Ew; try done. cbn [mbind outcome_bind] in E.
    destruct (enter j di cw) as [d1| | |] eqn:E1; try done. cbn [mbind outcome_bind] in E.
    rewrite add_word_enter in E. destruct (classify v) as [cv| | |]; try done. cbn [mbind outcome_bind] in *.
    destruct (enter i d1 cv) as [d2| | |] eqn:E2; try done. cbn [mbind outcome_bind] in E.
    destruct (enter_swap _ _ _ _ _ _ _ E1 E2) as (d1' & E3 & E4). rewrite E3. cbn [mbind outcome_bind].
    rewrite add_word_enter, Ew. cbn [mbind outcome_bind]. by rewrite E4.
  - intros E. by apply IH', IH.
Qed.

(** C38. C0: a map of the standard library gives its entries in no particular order;
    which order it is does not show: when one order is accepted every other
    is, and gives the same index. *)
Theorem domain_index_order es es' di :
  es ≡ₚ es' -> domain_index_new es = Ok di -> domain_index_new es' = Ok di.
Proof.
  unfold domain_index_new. rewrite !add_entries_all. intros P. apply enter_all_perm. by rewrite P.
Qed.

End index.

(** A crate whose only pattern is one and that matches names ending in [.b.c]. *)
#[local] Instance demo_regex : Regex := {
  regex_ok p := String.eqb p "(..).b.c";
  captures p s := String.eqb (sdrop 2 s) ".b.c"
}.

Definition demo_entries : list (string * Z) := [("a.b.c  $$(..).b.c", 1); ("d $$(.*)", 2)].

Lemma domain_index_order_witness : exists di,
  domain_index_new demo_entries = Ok di /\ domain_index_new (reverse demo_entries) = Ok di /\
  index di "a.b.c" = Ok 1 /\ index di "xy.b.c" = Ok 1 /\ index di "xyz.b.c" = Ok 2 /\
  index di "e" = Err "err:domain not found".
Proof.
  assert (E : exists di, domain_index_new demo_entries = Ok di) by (eexists; vm_compute; reflexivity).
  destruct E as [di E]. exists di. split; [exact E|]. split.
  - apply (domain_index_order demo_entries); [by rewrite reverse_Permutation|exact E].
  - vm_compute in E. injection E as <-. split_and!; vm_compute; reflexivity.
Defined.
