(* ===== verification/BufReader.v ===== *)
(** The buffered reader that can go back, [any-base/src/io_rb/buf_reader.rs]:
    what is read after [start] is read again after [rollback]. *)
From S2P Require Import Prelude RustStd Wire.
#[local] Open Scope string_scope.
#[local] Open Scope list_scope.
#[local] Open Scope Z_scope.

Definition DEFAULT_BUF_SIZE : Z := 8 * 1024.

Record BufReader (I : Type) := mkReader {
  inner : I;
  buf : list Z;
  pos : Z;
  cap : Z;
  max_cap : Z;
  reinit_cap : Z;
  rollback : Z
}.
Arguments mkReader {I}.
Arguments inner {I}.
Arguments buf {I}.
Arguments pos {I}.
Arguments cap {I}.
Arguments max_cap {I}.
Arguments reinit_cap {I}.
Arguments rollback {I}.

Section setters.
Context {I : Type}.
Definition eta_reader (s : BufReader I) : BufReader I :=
  mkReader (inner s) (buf s) (pos s) (cap s) (max_cap s) (reinit_cap s) (rollback s).
Definition set_inner : I -> BufReader I -> BufReader I := ltac:(setter eta_reader (@inner I)).
Definition set_buf : list Z -> BufReader I -> BufReader I := ltac:(setter eta_reader (@buf I)).
Definition set_pos : Z -> BufReader I -> BufReader I := ltac:(setter eta_reader (@pos I)).
Definition set_cap : Z -> BufReader I -> BufReader I := ltac:(setter eta_reader (@cap I)).
Definition set_max_cap : Z -> BufReader I -> BufReader I := ltac:(setter eta_reader (@max_cap I)).
Definition set_reinit_cap_ : Z -> BufReader I -> BufReader I := ltac:(setter eta_reader (@reinit_cap I)).
Definition set_rollback : Z -> BufReader I -> BufReader I := ltac:(setter eta_reader (@rollback I)).
End setters.

Section reader.
Context {I : Type} `{AsyncRead I}.

(** ** Construction and taking apart *)

Definition with_capacity (capacity : Z) (i : I) : BufReader I :=
  mkReader i (replicate (Z.to_nat capacity) 0) 0 0 capacity 0 (-1).
Definition new (i : I) : BufReader I := with_capacity DEFAULT_BUF_SIZE i.

Definition new_from_buffer (i : I) (b : list Z * Z * Z) : BufReader I :=
  let '(buf, pos, cap) := b in mkReader i buf pos cap (zlen buf) 0 (-1).
Definition new_from_buffer_ext (b : I * list Z * Z * Z) : BufReader I :=
  let '(i, buf, pos, cap) := b in mkReader i buf pos cap (zlen buf) 0 (-1).
Definition table_buffer (s : BufReader I) : list Z * Z * Z := (buf s, pos s, cap s).
Definition table_buffer_ext (s : BufReader I) : I * list Z * Z * Z := (inner s, buf s, pos s, cap s).
Definition into_inner (s : BufReader I) : I := inner s.

Definition buffer (s : BufReader I) : outcome (list Z) := vslice (buf s) (pos s) (cap s).

Definition set_reinit_cap (n : Z) (s : BufReader I) : BufReader I := set_reinit_cap_ n s.
Definition set_reinit_cap_max (s : BufReader I) : BufReader I := set_reinit_cap_ (zlen (buf s)) s.

(** The buffer takes its new size when it is empty. *)
Definition reinit (s : BufReader I) : BufReader I :=
  if (0 <? reinit_cap s) && (reinit_cap s <=? zlen (buf s))
  then set_reinit_cap_ 0 (set_max_cap (reinit_cap s) s) else s.

Definition discard_buffer (s : BufReader I) : BufReader I :=
  reinit (set_rollback (-1) (set_cap 0 (set_pos 0 s))).

(** ** Going back *)

Definition start (s : BufReader I) : BufReader I := set_rollback (swrap64 (pos s)) s.

Definition commit : stm (BufReader I) bool :=
  s ← gets id;
  if 0 <=? rollback s then _ ← modify (set_rollback (-1)); mret true else mret false.

(** [rollback()] *)
Definition roll_back : stm (BufReader I) bool :=
  s ← gets id;
  if 0 <=? rollback s then
    _ ← modify (set_pos (wrap64 (rollback s)));
    _ ← commit;
    mret true
  else mret false.

(** ** Reading *)

Definition on_inner {A} (m : stm I A) : stm (BufReader I) A := fun s =>
  let (o, i) := m (inner s) in (o, set_inner i s).

(** [me.buf[a..b]] filled from [a] with [d]. *)
Definition fill (a : Z) (d : list Z) (s : BufReader I) : BufReader I :=
  set_buf (take (Z.to_nat a) (buf s) ++ d ++ drop (Z.to_nat a + length d) (buf s)) s.

(** Reads into [me.buf[a..max_cap]]. *)
Definition poll_into (a : Z) : stm (BufReader I) (Poll Z) :=
  s ← gets id;
  slice ← lift (vslice (buf s) a (max_cap s));
  p ← on_inner (poll_read (zlen slice));
  match p with
  | Ready d => _ ← modify (fill a d); mret (Ready (zlen d))
  | Pending => mret Pending
  end.

Definition consume (amt : Z) : stm (BufReader I) unit :=
  modify (fun s => set_pos (Z.min (wrap64 (pos s + amt)) (cap s)) s).

(** The part of [poll_fill_buf] that reads. *)
Definition poll_more : stm (BufReader I) (Poll unit) :=
  s ← gets id;
  if 0 <=? rollback s then
    if max_cap s <=? cap s then fail "*me.cap >= me.max_cap"
    else
      p ← poll_into (cap s);
      match p with
      | Ready n => _ ← modify (fun s => set_cap (wrap64 (cap s + n)) s); mret (Ready tt)
      | Pending => mret Pending
      end
  else
    _ ← modify reinit;
    p ← poll_into 0;
    match p with
    | Ready n => _ ← modify (fun s => set_rollback (-1) (set_pos 0 (set_cap n s))); mret (Ready tt)
    | Pending => mret Pending
    end.

Definition poll_fill_buf : stm (BufReader I) (Poll (list Z)) :=
  s ← gets id;
  p ← if cap s <=? pos s then poll_more else mret (Ready tt);
  match p with
  | Ready _ => s ← gets id; b ← lift (buffer s); mret (Ready b)
  | Pending => mret Pending
  end.

(** A read past the buffer, for as much as the buffer holds or more. *)
Definition poll_bypass (room : Z) : stm (BufReader I) (Poll (list Z)) := fun s =>
  match on_inner (poll_read room) s with
  | (Ok Pending, s) => (Ok Pending, s)
  | (Ok (Ready d), s) => (Ok (Ready d), discard_buffer s)
  | (Err e, s) => (Err e, discard_buffer s)
  | (o, s) => (o, s)
  end.

(** [poll_read] *)
Definition reader_poll_read (room : Z) : stm (BufReader I) (Poll (list Z)) :=
  s ← gets id;
  if (pos s =? cap s) && (max_cap s <=? room) then
    if 0 <=? rollback s then fail "*me.cap >= me.max_cap" else poll_bypass room
  else
    p ← poll_fill_buf;
    match p with
    | Ready rem =>
        let amt := Z.min (zlen rem) room in
        _ ← consume amt;
        mret (Ready (take (Z.to_nat amt) rem))
    | Pending => mret Pending
    end.

#[export] Instance reader_read : AsyncRead (BufReader I) := {
  poll_read := reader_poll_read;
  waits s := waits (inner s)
}.

End reader.

(** ** What it holds *)

Section shape.
Context {I : Type} `{ReadLaws I}.

(** The positions are in order, and inside the buffer. *)
Record shaped (s : BufReader I) : Prop := {
  sh_pos : 0 <= pos s <= cap s;
  sh_cap : cap s <= zlen (buf s);
  sh_len : zlen (buf s) < 2 ^ 63;
  sh_max : 0 <= max_cap s <= zlen (buf s);
  sh_back : -1 <= rollback s <= pos s
}.

Definition ok (s : BufReader I) : Prop := shaped s /\ good (inner s).

(** The bytes from [a] on that are in the buffer, and those still to come. *)
Definition held (a : Z) (s : BufReader I) : list Z := take (Z.to_nat (cap s - a)) (drop (Z.to_nat a) (buf s)).
Definition from (a : Z) (s : BufReader I) : list Z := held a s ++ content (inner s).

(** Between two states of a reader that may go back. *)
Definition same_window (s s' : BufReader I) : Prop :=
  ok s -> ok s' /\ (0 <= rollback s ->
    rollback s' = rollback s /\ max_cap s' = max_cap s /\ from (rollback s) s' = from (rollback s) s).

#[export] Instance same_window_preorder : PreOrder same_window.
Proof.
  split; [by intros s Hs|]. intros s1 s2 s3 H1 H2 Hs. destruct (H1 Hs) as [Hs2 Hw1]. destruct (H2 Hs2) as [Hs3 Hw2].
  split; [done|]. intros Hr. destruct (Hw1 Hr) as (E & M & F). rewrite E in Hw2. destruct (Hw2 Hr) as (E2 & M2 & F2).
  split_and!; [congruence..|]. by rewrite F2.
Qed.

Lemma held_app a b s :
  0 <= a <= b -> b <= cap s -> held a s = take (Z.to_nat (b - a)) (held a s) ++ held b s.
Proof.
  intros Ha Hb. unfold held. rewrite take_take. rewrite Nat.min_l by lia.
  rewrite <- (take_drop (Z.to_nat (b - a)) (take (Z.to_nat (cap s - a)) (drop (Z.to_nat a) (buf s)))) at 1.
  rewrite take_take, Nat.min_l by lia. f_equal.
  rewrite skipn_firstn_comm, drop_drop. f_equal; [lia|]. f_equal. lia.
Qed.

Lemma held_all s : cap s <= pos s -> held (pos s) s = [].
Proof. intros Hc. unfold held. by replace (Z.to_nat (cap s - pos s)) with O by lia. Qed.

Lemma held_length a s : shaped s -> 0 <= a <= cap s -> zlen (held a s) = cap s - a.
Proof. intros [] Ha. unfold held, zlen in *. rewrite length_take, length_drop. lia. Qed.

Lemma held_ext a s s' : cap s' = cap s -> buf s' = buf s -> held a s' = held a s.
Proof. unfold held. by intros -> ->. Qed.

Lemma held_fill b d s :
  shaped s -> 0 <= b <= cap s -> cap s + zlen d <= zlen (buf s) ->
  held b (set_cap (cap s + zlen d) (fill (cap s) d s)) = held b s ++ d.
Proof.
  intros [] Hb Hd. pose proof (zlen_nonneg d). unfold held. cbn [cap buf set_cap fill set_buf].
  assert (length (take (Z.to_nat (cap s)) (buf s)) = Z.to_nat (cap s)) as Hl by (rewrite length_take; unfold zlen in *; lia).
  rewrite drop_app_le by lia. rewrite skipn_firstn_comm.
  assert (length (take (Z.to_nat (cap s) - Z.to_nat b) (drop (Z.to_nat b) (buf s))) = Z.to_nat (cap s - b)) as Hk
    by (rewrite length_take, length_drop; unfold zlen in *; lia).
  rewrite take_app, Hk. f_equal.
  - rewrite take_ge by lia. f_equal. lia.
  - rewrite take_app_le by (unfold zlen; lia). apply take_ge. unfold zlen. lia.
Qed.

Lemma held_fresh d (s : BufReader I) : held 0 (set_rollback (-1) (set_pos 0 (set_cap (zlen d) (fill 0 d s)))) = d.
Proof.
  unfold held. cbn [cap buf set_cap set_pos set_rollback fill set_buf]. change (take (Z.to_nat 0) (buf s)) with (@nil Z).
  cbn [app]. change (drop (Z.to_nat 0) ?l) with l. rewrite take_app_le by (unfold zlen; lia). apply take_ge. unfold zlen. lia.
Qed.

Lemma fill_length a d (s : BufReader I) : 0 <= a -> a + zlen d <= zlen (buf s) -> zlen (buf (fill a d s)) = zlen (buf s).
Proof. intros Ha Hd. unfold fill, zlen in *. cbn [buf set_buf]. rewrite !length_app, length_take, length_drop. lia. Qed.

(** ** What a poll does *)

(** The stream is where it was, also for the one who goes back. *)
Definition settled (s s' : BufReader I) : Prop :=
  ok s' /\ from (pos s') s' = from (pos s) s /\
  (0 <= rollback s -> rollback s' = rollback s /\ max_cap s' = max_cap s /\ from (rollback s) s' = from (rollback s) s).

Lemma settled_refl s : ok s -> settled s s.
Proof. intros Hs. split; [done|]. by split. Qed.

Lemma settled_trans s1 s2 s3 : settled s1 s2 -> settled s2 s3 -> settled s1 s3.
Proof.
  intros (H1 & E1 & W1) (H2 & E2 & W2). split_and!; [done|congruence|]. intros Hr. destruct (W1 Hr) as (R & M & F).
  rewrite R in W2. destruct (W2 Hr) as (R2 & M2 & F2). split_and!; congruence.
Qed.

Lemma shaped_inner i s : shaped s -> shaped (set_inner i s).
Proof. by intros []. Qed.

Lemma settled_inner i s : ok s -> good i -> content i = content (inner s) -> settled s (set_inner i s).
Proof.
  intros [Hs Hg] Hi Hc. split; [split; [by apply shaped_inner|done]|]. unfold from. cbn [inner set_inner].
  rewrite Hc. by split.
Qed.

Lemma settled_reinit s : ok s -> rollback s < 0 -> settled s (reinit s).
Proof.
  intros [Hs Hg] Hr. unfold reinit. destruct (Z.ltb_spec 0 (reinit_cap s)), (Z.leb_spec (reinit_cap s) (zlen (buf s)));
    cbn [andb]; try by apply settled_refl. destruct Hs. repeat split; cbn; try lia; done.
Qed.

Lemma poll_into_spec a s :
  shaped s -> good (inner s) -> 0 <= a <= max_cap s ->
  match poll_into a s with
  | (Ok (Ready n), s') => exists d i, n = zlen d /\ zlen d <= max_cap s - a /\ s' = fill a d (set_inner i s) /\
                            good i /\ content (inner s) = d ++ content i
  | (Ok Pending, s') => exists i, s' = set_inner i s /\ good i /\ content i = content (inner s) /\ (waits i < waits (inner s))%nat
  | (Err _, s') => exists i, s' = set_inner i s /\ good i /\ content i = content (inner s)
  | _ => False
  end.
Proof.
  intros [] Hg Ha. unfold poll_into. step. change (id s) with s. step by (unfold lift; by rewrite vslice_ok by lia).
  set (n := zlen _). assert (n = max_cap s - a) as Hn by (unfold n, zlen in *; rewrite length_take, length_drop; lia).
  unfold mbind at 1, stm_bind at 1. unfold on_inner. pose proof (poll_good n (inner s) Hg) as Hp.
  destruct (poll_read n (inner s)) as [[[d|]|e| |] i]; cbn; (destruct Hp as (? & Hp); [lia|]) || (specialize (Hp ltac:(lia)); done) || idtac.
  - destruct Hp as (Hc & Hl). exists d, i. split_and!; [done|lia|done..].
  - destruct Hp as (Hc & Hl). by exists i.
  - by exists i.
Qed.

Lemma poll_more_spec s :
  ok s -> cap s <= pos s ->
  match poll_more s with
  | (Ok (Ready _), s') | (Err _, s') => settled s s'
  | (Ok Pending, s') => settled s s' /\ (waits (inner s') < waits (inner s))%nat
  | _ => False
  end.
Proof.
  intros [Hs Hg] Hc. pose proof Hs as Hs'. destruct Hs'. unfold poll_more. step. change (id s) with s.
  destruct (Z.leb_spec 0 (rollback s)) as [Hr|Hr].
  - destruct (Z.leb_spec (max_cap s) (cap s)); [by apply settled_refl|].
    pose proof (poll_into_spec (cap s) s Hs Hg ltac:(lia)) as Hp. unfold mbind, stm_bind.
    destruct (poll_into (cap s) s) as [[[n|]|e| |] s1]; [| | |done..].
    + destruct Hp as (d & i & -> & Hd & -> & Hi & Hci). cbn. pose proof (zlen_nonneg d).
      replace (wrap64 (cap s + zlen d)) with (cap s + zlen d) by by unwrap.
      assert (forall b, 0 <= b <= cap s -> held b (set_cap (cap s + zlen d) (fill (cap s) d (set_inner i s))) = held b s ++ d) as Hh.
      { intros b Hb. rewrite <- (held_fill b d s) by (done || lia). done. }
      split_and!.
      * assert (zlen (buf (fill (cap s) d (set_inner i s))) = zlen (buf s)) as Hl by (by rewrite (fill_length (cap s) d (set_inner i s)) by (cbn; lia)).
        split; [|done]. split; cbn [pos cap buf max_cap rollback set_cap fill set_buf set_inner] in *; rewrite ?Hl; lia.
      * unfold from. cbn [pos set_cap fill set_buf set_inner inner]. rewrite Hh, Hci by lia. by rewrite app_assoc.
      * intros _. split_and!; [done..|]. unfold from. rewrite Hh, <- app_assoc by lia. by rewrite Hci.
    + destruct Hp as (i & -> & Hi & Hci & Hw). split; [by apply settled_inner|done].
    + destruct Hp as (i & -> & Hi & Hci). by apply settled_inner.
  - step. pose proof (settled_reinit s (conj Hs Hg) Hr) as Hx. pose proof Hx as ([Hs0 Hg0] & Hf0 & _).
    assert (inner (reinit s) = inner s /\ pos (reinit s) = pos s /\ cap (reinit s) = cap s /\ rollback (reinit s) = rollback s) as (Ei & Ep & Ec & Er)
      by (unfold reinit; by case_match).
    destruct Hs0. pose proof (poll_into_spec 0 (reinit s) ltac:(done) Hg0 ltac:(lia)) as Hp. unfold mbind, stm_bind.
    destruct (poll_into 0 (reinit s)) as [[[n|]|e| |] s1]; [| | |done..].
    + destruct Hp as (d & i & -> & Hd & -> & Hi & Hci). cbn. pose proof (zlen_nonneg d).
      assert (zlen (buf (fill 0 d (set_inner i (reinit s)))) = zlen (buf (reinit s))) as Hl by (by rewrite (fill_length 0 d (set_inner i (reinit s))) by (cbn; lia)).
      split_and!.
      * split; [|done]. split; cbn in *; rewrite ?Hl; try lia.
      * rewrite <- Hf0. unfold from at 2. rewrite Ep. unfold held. rewrite Ec.
        replace (Z.to_nat (cap s - pos s)) with O by lia. rewrite take_0. cbn [app]. rewrite Hci. unfold from.
        change (content (inner _)) with (content i). f_equal. apply held_fresh.
      * lia.
    + destruct Hp as (i & -> & Hi & Hci & Hw). rewrite <- Ei. split; [|done].
      eapply settled_trans; [exact Hx|]. by apply settled_inner.
    + destruct Hp as (i & -> & Hi & Hci). eapply settled_trans; [exact Hx|]. by apply settled_inner.
Qed.

Lemma poll_fill_spec s :
  ok s ->
  match poll_fill_buf s with
  | (Ok (Ready b), s') => settled s s' /\ b = held (pos s') s'
  | (Err _, s') => settled s s'
  | (Ok Pending, s') => settled s s' /\ (waits (inner s') < waits (inner s))%nat
  | _ => False
  end.
Proof.
  intros Hok. unfold poll_fill_buf. step. change (id s) with s.
  assert (forall s1, settled s s1 ->
    match (s ← gets id; b ← lift (buffer s); mret (Ready b)) s1 with
    | (Ok (Ready b), s') => settled s s' /\ b = held (pos s') s'
    | (Err _, s') => settled s s'
    | (Ok Pending, s') => settled s s' /\ (waits (inner s') < waits (inner s))%nat
    | _ => False end) as Hbuf.
  { intros s1 Hs1. step. change (id s1) with s1. pose proof Hs1 as ([[] _] & _).
    step by (unfold lift, buffer; rewrite vslice_ok by lia; reflexivity). cbn. by split. }
  destruct (Z.leb_spec (cap s) (pos s)) as [Hc|Hc].
  - pose proof (poll_more_spec s Hok Hc) as Hm. unfold mbind at 1, stm_bind at 1.
    destruct (poll_more s) as [[[[]|]|e| |] s1]; [by apply Hbuf|done..].
  - step. apply Hbuf. by apply settled_refl.
Qed.

Lemma consume_spec amt s :
  ok s -> 0 <= amt <= cap s - pos s ->
  exists s', consume amt s = (Ok tt, s') /\ ok s' /\ pos s' = pos s + amt /\ rollback s' = rollback s /\ max_cap s' = max_cap s /\ inner s' = inner s /\
    (forall a, from a s' = from a s) /\ cap s' = cap s /\ reinit_cap s' = reinit_cap s.
Proof.
  intros [Hs Hg] Ha. destruct Hs. unfold consume, modify. eexists. split; [done|].
  replace (wrap64 (pos s + amt)) with (pos s + amt) by by unwrap. rewrite Z.min_l by lia.
  repeat split; cbn; try lia; done.
Qed.

Lemma discard_spec s : shaped s -> shaped (discard_buffer s).
Proof. intros []. unfold discard_buffer, reinit. case_match; split; cbn in *; lia. Qed.

Lemma settled_window s s' : settled s s' -> same_window s s'.
Proof. intros (H1 & _ & H2) _. by split. Qed.

Lemma inner_discard (s : BufReader I) : inner (discard_buffer s) = inner s.
Proof. unfold discard_buffer, reinit. by destruct (_ && _). Qed.

Lemma discard_from s : from (pos (discard_buffer s)) (discard_buffer s) = content (inner s).
Proof. unfold from. rewrite inner_discard. unfold discard_buffer, reinit, held. by destruct (_ && _). Qed.

Lemma from_split s amt :
  shaped s -> 0 <= amt <= cap s - pos s ->
  from (pos s) s = take (Z.to_nat amt) (held (pos s) s) ++ from (pos s + amt) s.
Proof.
  intros [] Ha. unfold from. rewrite (held_app (pos s) (pos s + amt)) at 1 by lia.
  replace (pos s + amt - pos s) with amt by lia. by rewrite <- app_assoc.
Qed.

Lemma bypass_spec room s :
  ok s -> 0 <= room -> pos s = cap s -> rollback s < 0 ->
  match poll_bypass room s with
  | (Ok (Ready d), s') => ok s' /\ from (pos s) s = d ++ from (pos s') s' /\ zlen d <= room
  | (Ok Pending, s') => settled s s' /\ (waits (inner s') < waits (inner s))%nat
  | (Err _, s') => ok s' /\ from (pos s') s' = from (pos s) s
  | _ => False
  end.
Proof.
  intros [Hs Hg] Hr Hpc Hb. assert (from (pos s) s = content (inner s)) as -> by (unfold from; by rewrite held_all by lia).
  unfold poll_bypass, on_inner. pose proof (poll_good room (inner s) Hg Hr) as Hp.
  assert (forall i, good i -> ok (discard_buffer (set_inner i s))) as Hd.
  { intros i Hi. split; [by apply discard_spec, shaped_inner|]. by rewrite inner_discard. }
  destruct (poll_read room (inner s)) as [[[d|]|e| |] i]; [| | |done..].
  - destruct Hp as (Hi & Hc & Hl). split_and!; [by apply Hd| |done]. by rewrite discard_from, Hc.
  - destruct Hp as (Hi & Hc & Hw). by split; [apply settled_inner|].
  - destruct Hp as (Hi & Hc). split; [by apply Hd|]. by rewrite discard_from.
Qed.

Lemma poll_read_spec room s :
  ok s -> 0 <= room ->
  match reader_poll_read room s with
  | (Ok (Ready d), s') => same_window s s' /\ from (pos s) s = d ++ from (pos s') s' /\ zlen d <= room
  | (Ok Pending, s') => settled s s' /\ (waits (inner s') < waits (inner s))%nat
  | (Err _, s') => same_window s s' /\ from (pos s') s' = from (pos s) s
  | _ => False
  end.
Proof.
  intros Hok Hroom. unfold reader_poll_read. step. change (id s) with s.
  destruct (Z.eqb_spec (pos s) (cap s)) as [Hpc|Hpc]; [destruct (Z.leb_spec (max_cap s) room) as [Hm|Hm]|]; cbn [andb].
  { destruct (Z.leb_spec 0 (rollback s)) as [Hb|Hb]; [by split|].
    pose proof (bypass_spec room s Hok Hroom Hpc Hb) as Hx.
    assert (forall s', ok s' -> same_window s s') as Hw by (intros s' ? ?; split; [done|lia]).
    destruct (poll_bypass room s) as [[[d|]|e| |] s']; [|done| |done..]; destruct Hx as (? & ?); split; auto. }
  all: pose proof (poll_fill_spec s Hok) as Hf; unfold mbind, stm_bind;
    destruct (poll_fill_buf s) as [[[rem|]|e| |] s1]; [|done| |done..];
    [|split; [by apply settled_window|apply Hf]].
  all: destruct Hf as (Hst & ->); pose proof Hst as (Hok1 & Hfr & _); pose proof Hok1 as [Hs1 Hg1]; pose proof Hs1 as [].
  all: assert (zlen (held (pos s1) s1) = cap s1 - pos s1) as Hlen by (apply held_length; [done|lia]).
  all: set (amt := Z.min _ room); destruct (consume_spec amt s1 Hok1) as (s2 & E & Hok2 & Hp2 & Hb2 & Hm2 & Hi2 & Hfr2 & Hc2); [lia|].
  all: rewrite E; cbn; split_and!; [| |unfold zlen; rewrite length_take; unfold zlen in *; lia].
  all: try (intros _; split; [done|]; intros Hr; destruct Hst as (_ & _ & Hw); destruct (Hw Hr) as (R & M & F);
            rewrite Hb2, Hm2, Hfr2; split_and!; congruence).
  all: rewrite <- Hfr, (from_split s1 amt) by (done || lia); f_equal; by rewrite Hp2, Hfr2.
Qed.

(** ** Reads that cannot fail *)

Definition all_ready (i : I) : Prop := forall j, ready j i.

(** Who may go back must not read past the end of the buffer. *)
Record reader_ready (k : Z) (s : BufReader I) : Prop := {
  rr_shaped : shaped s;
  rr_inner : all_ready (inner s);
  rr_reinit : reinit_cap s = 0;
  rr_max : 0 < max_cap s;
  rr_room : 0 <= rollback s -> k <= max_cap s - pos s /\ k < max_cap s
}.

Lemma all_ready_good i : all_ready i -> good i.
Proof. intros Hi. exact (ready_good 0 i (Hi 0)). Qed.

Lemma inner_ready n i :
  all_ready i -> 0 < n ->
  match poll_read n i with
  | (Ok (Ready d), i') => all_ready i' /\ (d = [] -> content i = [])
  | (Ok Pending, i') => all_ready i'
  | _ => False
  end.
Proof.
  intros Hi Hn. pose proof (fun k (Hk : n <= k) => poll_ready k n i (Hi k) (conj Hn Hk)) as Hp.
  destruct (poll_read n i) as [[[d|]|e| |] i']; try exact (Hp n (Z.le_refl n)).
  - split; [|by apply (Hp n)]. intros j. apply (ready_mono (Z.max n (j + zlen d) - zlen d)); [|lia].
    by apply (Hp (Z.max n (j + zlen d)) ltac:(lia)).
  - intros j. apply (ready_mono (Z.max n j)); [|lia]. apply Hp. lia.
Qed.

Lemma poll_into_ready a s :
  shaped s -> all_ready (inner s) -> 0 <= a < max_cap s ->
  match poll_into a s with
  | (Ok (Ready n), s') => exists d i, n = zlen d /\ s' = fill a d (set_inner i s) /\ all_ready i /\ (d = [] -> content (inner s) = [])
  | (Ok Pending, s') => exists i, s' = set_inner i s /\ all_ready i
  | _ => False
  end.
Proof.
  intros [] Hr Ha. unfold poll_into. step. change (id s) with s. step by (unfold lift; by rewrite vslice_ok by lia).
  set (n := zlen _). assert (n = max_cap s - a) as Hn by (unfold n, zlen in *; rewrite length_take, length_drop; lia).
  unfold mbind at 1, stm_bind at 1. unfold on_inner. pose proof (inner_ready n (inner s) Hr ltac:(lia)) as Hp.
  destruct (poll_read n (inner s)) as [[[d|]|e| |] i]; cbn; [|by exists i|done..].
  exists d, i. by destruct Hp.
Qed.

Lemma reinit_none (s : BufReader I) : reinit_cap s = 0 -> reinit s = s.
Proof. intros E. unfold reinit. by rewrite E. Qed.

(** What a fill leaves as it is. *)
Definition still (s s' : BufReader I) : Prop :=
  all_ready (inner s') /\ reinit_cap s' = reinit_cap s /\ max_cap s' = max_cap s /\
  (0 <= rollback s' <-> 0 <= rollback s) /\ (0 <= rollback s -> pos s' = pos s).

Lemma poll_more_ready k s :
  reader_ready k s -> 0 < k -> cap s <= pos s ->
  match poll_more s with
  | (Ok (Ready _), s') => still s s' /\ (content (inner s) = [] \/ pos s' < cap s')
  | (Ok Pending, s') => still s s'
  | _ => False
  end.
Proof.
  intros [Hs Hi Hz Hm Hr] Hk Hc. pose proof Hs as []. unfold poll_more. step. change (id s) with s.
  destruct (Z.leb_spec 0 (rollback s)) as [Hb|Hb].
  - specialize (Hr Hb). destruct (Z.leb_spec (max_cap s) (cap s)); [lia|].
    pose proof (poll_into_ready (cap s) s Hs Hi ltac:(lia)) as Hp.
    pose proof (poll_into_spec (cap s) s Hs (all_ready_good _ Hi) ltac:(lia)) as Hq. unfold mbind, stm_bind.
    destruct (poll_into (cap s) s) as [[[n|]|e| |] s1]; [| |done..].
    + destruct Hp as (d & i & -> & -> & Hi' & Hd). destruct Hq as (d' & _ & Ed & Hl & _ & _).
      pose proof (zlen_nonneg d). cbn. unfold still. cbn.
      replace (wrap64 (cap s + zlen d)) with (cap s + zlen d) by (unwrap; done).
      split; [by split_and!|]. destruct d as [|x d]; [left; by apply Hd|right; unfold zlen; cbn; lia].
    + destruct Hp as (i & -> & Hi'). by repeat split.
  - step. rewrite reinit_none by done.
    pose proof (poll_into_ready 0 s Hs Hi ltac:(lia)) as Hp.
    unfold mbind, stm_bind. destruct (poll_into 0 s) as [[[n|]|e| |] s1]; [| |done..].
    + destruct Hp as (d & i & -> & -> & Hi' & Hd). cbn. unfold still. cbn. split; [split_and!; done || lia|].
      destruct d as [|x d]; [left; by apply Hd|right; unfold zlen; cbn; lia].
    + destruct Hp as (i & -> & Hi'). by repeat split.
Qed.

Lemma poll_fill_ready k s :
  reader_ready k s -> 0 < k ->
  match poll_fill_buf s with
  | (Ok (Ready b), s') => still s s' /\ (b = [] -> from (pos s) s = [])
  | (Ok Pending, s') => still s s'
  | _ => False
  end.
Proof.
  intros Hr Hk. pose proof Hr as [Hs Hi Hz Hm Hb]. pose proof Hs as [].
  pose proof (poll_fill_spec s (conj Hs (all_ready_good _ Hi))) as Hsp. unfold poll_fill_buf in *.
  revert Hsp. rewrite (stm_step (gets id) _ s s s) by done.
  assert (forall s1, still s s1 -> (content (inner s) = [] /\ cap s <= pos s \/ pos s1 < cap s1) ->
    match (s ← gets id; b ← lift (buffer s); mret (Ready b)) s1 with
    | (Ok (Ready b), s') => settled s s' /\ b = held (pos s') s'
    | (Err _, s') => settled s s'
    | (Ok Pending, s') => settled s s' /\ (waits (inner s') < waits (inner s))%nat
    | _ => False
    end ->
    match (s ← gets id; b ← lift (buffer s); mret (Ready b)) s1 with
    | (Ok (Ready b), s') => still s s' /\ (b = [] -> from (pos s) s = [])
    | (Ok Pending, s') => still s s'
    | _ => False
    end) as Hbuf.
  { intros s1 Hs1 Hc1. rewrite (stm_step (gets id) _ s1 s1 s1) by done. unfold mbind, stm_bind, lift.
    destruct (buffer s1) as [b|e| |] eqn:Eb; [| |done..].
    2:{ unfold buffer, vslice in Eb. by case_match. }
    cbn. intros (Hst & Hbh). split; [done|]. intros ->. pose proof Hst as (([] & _) & _).
    assert (cap s1 <= pos s1) as Hcp.
    { apply (f_equal zlen) in Hbh. rewrite held_length in Hbh by (apply Hst || lia). unfold zlen in Hbh. cbn in Hbh. lia. }
    destruct Hc1 as [[Hc1 Hc2]|?]; [|lia]. unfold from. by rewrite Hc1, held_all. }
  destruct (Z.leb_spec (cap s) (pos s)) as [Hc|Hc].
  - pose proof (poll_more_ready k s Hr Hk Hc) as Hm'. unfold mbind at 1 4, stm_bind at 1 4.
    destruct (poll_more s) as [[[[]|]|e| |] s1]; [|done..]. destruct Hm' as [Hst Hd]. apply Hbuf; [done|].
    destruct Hd; [by left|by right].
  - rewrite !(stm_step (mret (Ready tt)) _ s (Ready tt) s) by done. apply Hbuf; [by repeat split|by right].
Qed.

Lemma ready_still k s s' : reader_ready k s -> still s s' -> shaped s' -> reader_ready k s'.
Proof.
  intros [] (Hi & Hz & Hm & Hb & Hp) Hs. split; [done|done|congruence|lia|].
  intros Hr. apply Hb in Hr. rewrite Hm, Hp by done. auto.
Qed.

Lemma poll_read_ready k n s :
  reader_ready k s -> 0 < n <= k ->
  match reader_poll_read n s with
  | (Ok (Ready d), s') => reader_ready (k - zlen d) s' /\ (d = [] -> from (pos s) s = [])
  | (Ok Pending, s') => reader_ready k s'
  | _ => False
  end.
Proof.
  intros Hr Hn. pose proof Hr as [Hs Hi Hz Hm Hb]. pose proof Hs as []. pose proof (conj Hs (all_ready_good _ Hi) : ok s) as Hok.
  unfold reader_poll_read. rewrite (stm_step (gets id) _ s s s) by done.
  destruct (Z.eqb_spec (pos s) (cap s)) as [Hpc|Hpc]; [destruct (Z.leb_spec (max_cap s) n) as [Hmn|Hmn]|]; cbn [andb].
  { destruct (Z.leb_spec 0 (rollback s)) as [Hb0|Hb0]; [lia|]. unfold poll_bypass, on_inner.
    pose proof (inner_ready n (inner s) Hi ltac:(lia)) as Hp.
    destruct (poll_read n (inner s)) as [[[d|]|e| |] i]; [| |done..].
    - destruct Hp as [Hi' Hd]. split.
      + split; rewrite ?inner_discard; [by apply discard_spec, shaped_inner|done|..]; unfold discard_buffer, reinit; cbn; rewrite Hz; cbn; lia.
      + intros ->. unfold from. by rewrite held_all, Hd by (done || lia).
    - split; [by apply shaped_inner|done..]. }
  all: pose proof (poll_fill_ready k s Hr ltac:(lia)) as Hf; pose proof (poll_fill_spec s Hok) as Hq; unfold mbind, stm_bind;
    destruct (poll_fill_buf s) as [[[rem|]|e| |] s1]; [| |done..];
    [|destruct Hq as ((Hok1 & _) & _); by eapply ready_still; [..|apply Hok1]].
  all: destruct Hf as (Hst & He), Hq as ((Hok1 & _) & Hrem); pose proof Hok1 as [Hs1 Hg1]; pose proof Hs1 as [].
  all: assert (zlen rem = cap s1 - pos s1) as Hlen by (rewrite Hrem; apply held_length; [done|lia]).
  all: set (amt := Z.min _ n); destruct (consume_spec amt s1 Hok1) as (s2 & E & [Hs2 _] & Hp2 & Hb2 & Hm2 & Hi2 & _ & _ & Hz2); [lia|].
  all: rewrite E; cbn.
  all: assert (zlen (take (Z.to_nat amt) rem) = amt) as Ht by (unfold zlen in *; rewrite length_take; lia).
  all: pose proof (ready_still k s s1 Hr Hst Hs1) as [? ? ? ? Hb1].
  all: split; [split; [done|by rewrite Hi2|congruence|lia|rewrite Hb2, Hm2, Hp2, Ht; intros H9; specialize (Hb1 H9); lia]|].
  all: intros E0; apply He; apply (f_equal zlen) in E0; rewrite Ht in E0; destruct rem; [done|]; unfold zlen in *; cbn in *; lia.
Qed.

#[export] Program Instance reader_laws : ReadLaws (BufReader I) := {
  content s := from (pos s) s;
  good := ok;
  ready := reader_ready
}.
Next Obligation.
  intros n s Hok Hn. cbn. pose proof (poll_read_spec n s Hok Hn) as Hp.
  destruct (reader_poll_read n s) as [[[d|]|e| |] s']; [| | |done..].
  - destruct Hp as (Hw & ? & ?). split_and!; [by apply Hw|done..].
  - destruct Hp as ((? & ? & _) & ?). by split_and!.
  - destruct Hp as (Hw & ?). split; [by apply Hw|done].
Qed.
Next Obligation. intros k s []. split; [done|]. by apply all_ready_good. Qed.
Next Obligation. intros k j s [] Hj. split; try done. intros Hr. specialize (rr_room0 Hr). lia. Qed.
Next Obligation. intros k n s Hr Hn. by apply poll_read_ready. Qed.

(** A read leaves the window of who may go back. *)
Lemma reader_keeps n : 0 <= n -> keeps same_window (poll_read (R := BufReader I) n).
Proof.
  intros Hn s Hok. cbn. pose proof (poll_read_spec n s Hok Hn) as Hp.
  destruct (reader_poll_read n s) as [[[d|]|e| |] s']; [| | |done..]; cbn.
  - by apply Hp.
  - by apply settled_window; [apply Hp|].
  - by apply Hp.
Qed.

Lemma start_ok s : ok s -> ok (start s) /\ rollback (start s) = pos s /\ content (start s) = content s.
Proof.
  intros [[] Hg]. unfold start. split_and!; [|by apply swrap64_id; lia|done].
  split; [|done]. split; cbn [pos cap buf max_cap rollback set_rollback]; rewrite ?swrap64_id by lia; lia.
Qed.

Lemma roll_back_ok s :
  ok s -> 0 <= rollback s ->
  exists s', roll_back s = (Ok true, s') /\ ok s' /\ content s' = from (rollback s) s /\ rollback s' = -1 /\ pos s' = rollback s /\
             max_cap s' = max_cap s /\ reinit_cap s' = reinit_cap s /\ inner s' = inner s.
Proof.
  intros [[] Hg] Hr. unfold roll_back. step. change (id s) with s. destruct (Z.leb_spec 0 (rollback s)); [|lia].
  step. unfold commit. step by (step; cbn [id rollback set_pos]; destruct (Z.leb_spec 0 (rollback s)); [reflexivity|lia]).
  eexists. split; [done|]. replace (wrap64 (rollback s)) with (rollback s) by by unwrap.
  repeat split; cbn; lia || done.
Qed.

Lemma commit_ok s :
  ok s -> 0 <= rollback s -> exists s', commit s = (Ok true, s') /\ ok s' /\ content s' = content s /\ rollback s' = -1.
Proof.
  intros [[] Hg] Hr. unfold commit. step. change (id s) with s. destruct (Z.leb_spec 0 (rollback s)); [|lia].
  eexists. split; [done|]. repeat split; cbn; lia || done.
Qed.

(** Who starts, reads whatever he likes, and goes back, is where he was. *)
Lemma window_restored {A} (m : stm (BufReader I) A) s :
  ok s -> keeps same_window m ->
  exists s', roll_back (m (start s)).2 = (Ok true, s') /\ ok s' /\ content s' = content s /\ rollback s' = -1 /\ pos s' = pos s /\ max_cap s' = max_cap s.
Proof.
  intros Hok Hm. destruct (start_ok s Hok) as (Hok1 & Hr1 & Hc1). destruct (Hm _ Hok1) as (Hok2 & Hw).
  destruct Hok as [[] _]. destruct Hw as (Hr2 & Hm2 & Hf2); [lia|].
  destruct (roll_back_ok _ Hok2) as (s' & E & Hok' & Hc' & Hr' & Hp' & Hm' & _); [lia|].
  exists s'. split_and!; [done|done| |done|congruence|by rewrite Hm', Hm2]. rewrite Hc', Hr2, Hf2, Hr1. exact Hc1.
Qed.

(** ** Any use of a reader *)

Inductive Op :=
  | OStart | ORollback | OCommit | OFill | ORead (room : Z) | OConsume (amt : Z) | OReinit (n : Z) | OReinitMax.

Definition op (o : Op) : stm (BufReader I) unit :=
  match o with
  | OStart => modify start
  | ORollback => _ ← roll_back; mret tt
  | OCommit => _ ← commit; mret tt
  | OFill => _ ← poll_fill_buf; mret tt
  | ORead room => _ ← reader_poll_read room; mret tt
  | OConsume amt => consume amt
  | OReinit n => modify (set_reinit_cap n)
  | OReinitMax => modify set_reinit_cap_max
  end.

Definition op_arg (o : Op) : Prop :=
  match o with ORead n | OConsume n | OReinit n => 0 <= n < 2 ^ 63 | _ => True end.

(** The state after each of them, whatever they answer. *)
Definition after (ops : list Op) (s : BufReader I) : BufReader I := foldl (fun s o => (op o s).2) s ops.
Definition never_panics (o : Op) (s : BufReader I) : Prop :=
  match (op o s).1 with Panic | Fuel => False | _ => True end.

Lemma nothing_to_undo (s : BufReader I) : rollback s < 0 -> roll_back s = (Ok false, s) /\ commit s = (Ok false, s).
Proof.
  intros Hr. unfold roll_back, commit. rewrite !(stm_step (gets id) _ s s s) by done.
  by destruct (Z.leb_spec 0 (rollback s)); [lia|].
Qed.

Lemma op_ok o s : ok s -> op_arg o -> ok (op o s).2 /\ never_panics o s.
Proof.
  intros Hok Ha. pose proof Hok as [[] Hg]. unfold never_panics.
  destruct o as [| | | |room|amt|n|]; cbn [op op_arg] in *; unfold mbind, stm_bind.
  - split; [by apply start_ok|done].
  - destruct (Z.le_gt_cases 0 (rollback s)) as [Hr|Hr].
    + destruct (roll_back_ok s Hok Hr) as (s' & -> & ? & _). by split.
    + by destruct (nothing_to_undo s Hr) as [-> _].
  - destruct (Z.le_gt_cases 0 (rollback s)) as [Hr|Hr].
    + destruct (commit_ok s Hok Hr) as (s' & -> & ? & _). by split.
    + by destruct (nothing_to_undo s Hr) as [_ ->].
  - pose proof (poll_fill_spec s Hok) as Hf. destruct (poll_fill_buf s) as [[[b|]|e| |] s']; [| | |done..]; cbn; (split; [|done]); apply (settled_window s s'); by try apply Hf.
  - pose proof (poll_read_spec room s Hok ltac:(lia)) as Hf. destruct (reader_poll_read room s) as [[[b|]|e| |] s']; [| | |done..]; cbn; (split; [|done]).
    1,3: by apply Hf. apply (settled_window s s'); [apply Hf|done].
  - unfold consume, modify. cbn. split; [|done]. split; [|done].
    replace (wrap64 (pos s + amt)) with (pos s + amt) by by unwrap. split; cbn; lia.
  - split; [|done]. split; [|done]. split; cbn; lia.
  - split; [|done]. split; [|done]. split; cbn; lia.
Qed.

Definition reads (o : Op) : Prop := match o with OFill | ORead _ | OConsume _ => True | _ => False end.

Lemma consume_window amt s : 0 <= amt < 2 ^ 63 -> same_window s (op (OConsume amt) s).2.
Proof.
  intros Ha [[] Hg]. cbn. replace (wrap64 (pos s + amt)) with (pos s + amt) by by unwrap.
  split; [|done]. split; [|done]. split; cbn; lia.
Qed.

Lemma read_window o s : op_arg o -> reads o -> same_window s (op o s).2.
Proof.
  intros Ha Hr Hok. destruct o as [| | | |room|amt|n|]; try done; [| |by apply consume_window]; cbn [op op_arg] in *; unfold mbind, stm_bind.
  - pose proof (poll_fill_spec s Hok) as Hf. destruct (poll_fill_buf s) as [[[b|]|e| |] s']; [| | |done..]; cbn;
      by apply settled_window; [apply Hf|].
  - pose proof (poll_read_spec room s Hok ltac:(lia)) as Hf. destruct (reader_poll_read room s) as [[[b|]|e| |] s']; [| | |done..]; cbn.
    + by apply Hf.
    + by apply settled_window; [apply Hf|].
    + by apply Hf.
Qed.

Lemma reads_window ops s : Forall op_arg ops -> Forall reads ops -> same_window s (after ops s).
Proof.
  intros Ha Hr. revert s. induction ops as [|o ops IH]; intros s; cbn [after foldl]; [reflexivity|].
  inversion Ha; inversion Hr; subst. etrans; [by apply read_window|by apply IH].
Qed.

(** C31. The positions of a reader stay in order and inside its buffer through
    any use of it, with any answers of the connection, waits and failures
    included, and none of its operations panics: the slice between them is
    always there. *)
Theorem reader_keeps_its_shape ops o s :
  ok s -> Forall op_arg (ops ++ [o]) -> ok (after (ops ++ [o]) s) /\ never_panics o (after ops s).
Proof.
  intros Hok [Ha Ho]%Forall_app. assert (ok (after ops s)) as Hm.
  { clear Ho. revert s Hok. induction ops as [|x ops IH]; intros s Hok; [done|]. inversion Ha; subst. by apply IH; [|apply op_ok]. }
  unfold after. rewrite foldl_app. cbn [foldl]. inversion Ho; subst. by apply op_ok.
Qed.

(** C32. Going back restores the stream: whatever is read, skipped or buffered
    after [start], and however the connection answers, [rollback] succeeds and
    the next bytes are those that were next before. *)
Theorem rollback_restores ops s :
  ok s -> Forall op_arg ops -> Forall reads ops ->
  exists s', roll_back (after ops (start s)) = (Ok true, s') /\ ok s' /\ content s' = content s.
Proof.
  intros Hok Ha Hr.
  destruct (window_restored (fun s0 => (Ok tt, after ops s0)) s Hok) as (s' & E & Hok' & Hc & _).
  { intros s0. by apply reads_window. }
  by exists s'.
Qed.
End shape.

Lemma new_ok {I} `{ReadLaws I} (n : Z) (i : I) : good i -> 0 <= n < 2 ^ 63 -> ok (with_capacity n i) /\ content (with_capacity n i) = content i.
Proof.
  intros Hg Hn. unfold with_capacity. split; [split; [|done]; split; cbn; unfold zlen; rewrite ?length_replicate; lia|].
  cbn. unfold from, held. cbn. done.
Qed.

Definition demo_conn : Conn := [Bytes [1; 2; 3]; Wait; Bytes [4; 5]; Broken "reset"; Bytes [6]].

Lemma reader_keeps_its_shape_witness :
  ok (after [OReinit 2; OStart; ORead 2; ORead 5; OCommit; OFill; OConsume 9; ORead 1] (with_capacity 4 demo_conn)).
Proof.
  destruct (reader_keeps_its_shape [OReinit 2; OStart; ORead 2; ORead 5; OCommit; OFill; OConsume 9] (ORead 1)
              (with_capacity 4 demo_conn)) as [Hok _].
  - by apply new_ok.
  - repeat constructor; cbn; lia.
  - exact Hok.
Defined.

Lemma rollback_restores_witness :
  content (roll_back (after [ORead 2; ORead 9; ORead 9; OFill] (start (with_capacity 8 demo_conn)))).2 = [1; 2; 3; 4; 5; 6].
Proof.
  destruct (rollback_restores [ORead 2; ORead 9; ORead 9; OFill] (with_capacity 8 demo_conn)) as (s' & E & _ & Hc).
  - by apply new_ok.
  - repeat constructor; cbn; lia.
  - repeat constructor.
  - rewrite E. cbn [snd]. rewrite Hc. reflexivity.
Defined.
