(* ===== verification/Tunnel1Pack.v ===== *)
(** The packs of the first tunnel, [any-tunnel/src/protopack.rs]. *)
From S2P Require Import Prelude RustStd Wire.
#[local] Open Scope string_scope.
#[local] Open Scope list_scope.
#[local] Open Scope Z_scope.

Definition MIN_CACHE_BUFFER : Z := 8192 * 2.
Definition TUNNEL_MAX_HEADER_SIZE : Z := 4096.
Definition TUNNEL_FLAG : string := "${7tunnel_anyproxy}".
Definition TUNNEL_VERSION : string := "tunnel.0.1.0".
Definition MAX_PACK_SIZE : Z := MIN_CACHE_BUFFER * 1024.

Record TunnelHeader := mkTunnelHeader { header_type : Z; body_size : Z }.

Inductive TunnelHeaderType :=
  | HdrHello | HdrHelloAck | HdrData | HdrAddConnect | HdrMaxConnect | HdrClose.

Record TunnelHello := mkHello {
  version : string;
  session_id : string;
  min_stream_cache_size : Z;
  channel_size : Z;
  client_peer_stream_index : Z;
  is_ack : bool
}.
Record TunnelHelloAck := mkHelloAck {}.
Record TunnelDataHeader := mkDataHeader { pack_id : Z; pack_size : Z }.
Record TunnelData := mkData { header : TunnelDataHeader; datas : list Z }.
Record TunnelAddConnect := mkAddConnect { add_peer_stream_size : Z }.
Record TunnelMaxConnect := mkMaxConnect { max_peer_stream_size : Z }.
Record TunnelClose := mkClose { is_client : bool }.

Inductive TunnelPack :=
  | PHello (v : TunnelHello)
  | PHelloAck (v : TunnelHelloAck)
  | PData (v : TunnelData)
  | PAddConnect (v : TunnelAddConnect)
  | PMaxConnect (v : TunnelMaxConnect)
  | PClose (v : TunnelClose).

(** [typ as u8] and [FromPrimitive::from_u8] *)
Definition type_code (t : TunnelHeaderType) : Z :=
  match t with
  | HdrHello => 0 | HdrHelloAck => 1 | HdrData => 2 | HdrAddConnect => 3 | HdrMaxConnect => 4 | HdrClose => 5
  end.

Definition from_u8 (x : Z) : option TunnelHeaderType :=
  if x =? 0 then Some HdrHello else if x =? 1 then Some HdrHelloAck
  else if x =? 2 then Some HdrData else if x =? 3 then Some HdrAddConnect
  else if x =? 4 then Some HdrMaxConnect else if x =? 5 then Some HdrClose
  else None.

Class TunnelToml := {
  toml_header :: Toml TunnelHeader;
  toml_hello :: Toml TunnelHello;
  toml_hello_ack :: Toml TunnelHelloAck;
  toml_data_header :: Toml TunnelDataHeader;
  toml_add :: Toml TunnelAddConnect;
  toml_max :: Toml TunnelMaxConnect;
  toml_close :: Toml TunnelClose
}.

Class TunnelTomlLaws `{TunnelToml} : Prop := {
  laws_header :: TomlLaws TunnelHeader;
  laws_hello :: TomlLaws TunnelHello;
  laws_hello_ack :: TomlLaws TunnelHelloAck;
  laws_data_header :: TomlLaws TunnelDataHeader;
  laws_add :: TomlLaws TunnelAddConnect;
  laws_max :: TomlLaws TunnelMaxConnect;
  laws_close :: TomlLaws TunnelClose
}.

Definition flag_bytes : list Z := as_bytes TUNNEL_FLAG.

Section pack.
Context `{TunnelToml}.

(** ** Writing

    The result is the bytes put on the connection. *)
Definition write_pack {T} `{Toml T} (typ : TunnelHeaderType) (value : T) : outcome (list Z) :=
  slice ← to_vec value;
  let header := mkTunnelHeader (type_code typ) (wrap16 (zlen slice)) in
  header_slice ← to_vec header;
  Ok (flag_bytes ++ u16_bytes (wrap16 (zlen header_slice)) ++ header_slice ++ slice).

Definition write_tunnel_data (value : TunnelData) : outcome (list Z) :=
  b ← write_pack HdrData (header value);
  Ok (b ++ datas value).

(** ** Reading *)

Context `{AsyncRead R}.

(** The value of a pack after its header. *)
Definition read_body (header_type : TunnelHeaderType) (body_slice : list Z) : stm R TunnelPack :=
  match header_type with
  | HdrHello => v ← lift (from_slice body_slice); mret (PHello v)
  | HdrHelloAck => v ← lift (from_slice body_slice); mret (PHelloAck v)
  | HdrData =>
      header ← lift (from_slice body_slice);
      if MAX_PACK_SIZE <? pack_size header then fail "err:TunnelData pack_size > MAX_PACK_SIZE"
      else
        datas ← read_exact (pack_size header);
        mret (PData (mkData header datas))
  | HdrAddConnect => v ← lift (from_slice body_slice); mret (PAddConnect v)
  | HdrMaxConnect => v ← lift (from_slice body_slice); mret (PMaxConnect v)
  | HdrClose => v ← lift (from_slice body_slice); mret (PClose v)
  end.

(** [slice_len] is the length of the caller's buffer. *)
Definition read_pack (slice_len : Z) (typ : option TunnelHeaderType) : stm R (option TunnelPack) :=
  header ← read_header flag_bytes slice_len;
  match header with
  | None => mret None
  | Some (header, _) =>
      header_typ ← lift (ok_or "err:TunnelHeaderType" (from_u8 (header_type header)));
      if match typ with Some t => negb (header_type header =? type_code t) | None => false end
      then mret None
      else if slice_len <? body_size header then fail "err:TunnelData body_size"
      else
        body_slice ← if 0 <? body_size header then read_exact (body_size header) else mret [];
        p ← read_body header_typ body_slice;
        mret (Some p)
  end.

Definition read_pack_all (slice_len : Z) : stm R TunnelPack :=
  p ← read_pack slice_len None;
  match p with
  | None => fail "err:pack.is_none"
  | Some p => mret p
  end.

Definition read_tunnel_hello : stm R TunnelHello :=
  p ← read_pack TUNNEL_MAX_HEADER_SIZE (Some HdrHello);
  match p with
  | Some (PHello v) => mret v
  | _ => fail "err:not tunnel_hello"
  end.

Definition read_tunnel_hello_ack : stm R TunnelHelloAck :=
  p ← read_pack TUNNEL_MAX_HEADER_SIZE (Some HdrHelloAck);
  match p with
  | Some (PHelloAck v) => mret v
  | _ => fail "err:not tunnel_hello_ack"
  end.

(** Any reader is left as reads leave it. *)
Lemma keeps_pack1 (P : R -> R -> Prop) `{!PreOrder P} slice_len typ :
  (forall n, 0 <= n -> keeps P (poll_read n)) -> keeps P (read_pack slice_len typ).
Proof. intros HP. unfold read_pack, read_body. keep. Qed.
End pack.
