(* ===== verification/AnyproxyPack.v ===== *)
(** The proxy's own packs at the head of a connection and the tries to read
    one, [any-proxy/src/protopack/anyproxy.rs]. *)
From S2P Require Import Prelude RustStd Wire BufReader.
From S2P Require TunnelPack Tunnel1Pack.
#[local] Open Scope string_scope.
#[local] Open Scope list_scope.
#[local] Open Scope Z_scope.

Definition ANYPROXY_MAX_HEADER_SIZE : Z := 4096.
Definition ANYPROXY_FLAG : string := "${4anyproxy}".
Definition ANYPROXY_VERSION : string := "anyproxy.0.1.0".

Record AnyproxyHeader := mkHeader { header_type : Z; body_size : Z }.

(** A socket address is a name here. *)
Record AnyproxyHello := mkHello { version : string; request_id : string; client_addr : Z; domain : string }.
Record AnyproxyHeartbeat := mkHeartbeat { hb_version : string }.
Record AnyproxyHeartbeatR := mkHeartbeatR { hbr_version : string }.

Inductive AnyproxyHeaderType := THello | THeartbeat | THeartbeatR.

Inductive AnyproxyPack :=
  | Hello (v : AnyproxyHello)
  | Heartbeat (v : AnyproxyHeartbeat)
  | HeartbeatR (v : AnyproxyHeartbeatR).

(** [typ as u8] and [FromPrimitive::from_u8] *)
Definition type_code (t : AnyproxyHeaderType) : Z :=
  match t with THello => 0 | THeartbeat => 1 | THeartbeatR => 2 end.

Definition from_u8 (x : Z) : option AnyproxyHeaderType :=
  if x =? 0 then Some THello else if x =? 1 then Some THeartbeat else if x =? 2 then Some THeartbeatR else None.

Class AnyproxyToml := {
  toml_header :: Toml AnyproxyHeader;
  toml_hello :: Toml AnyproxyHello;
  toml_heartbeat :: Toml AnyproxyHeartbeat;
  toml_heartbeat_r :: Toml AnyproxyHeartbeatR
}.

Class AnyproxyTomlLaws `{AnyproxyToml} : Prop := {
  laws_header :: TomlLaws AnyproxyHeader;
  laws_hello :: TomlLaws AnyproxyHello;
  laws_heartbeat :: TomlLaws AnyproxyHeartbeat;
  laws_heartbeat_r :: TomlLaws AnyproxyHeartbeatR
}.

Definition flag_bytes : list Z := as_bytes ANYPROXY_FLAG.

Section pack.
Context `{AnyproxyToml}.

Definition pack_to_vec {T} `{Toml T} (typ : AnyproxyHeaderType) (value : T) : outcome (list Z) :=
  slice ← to_vec value;
  header_slice ← to_vec (mkHeader (type_code typ) (wrap16 (zlen slice)));
  Ok (flag_bytes ++ u16_bytes (wrap16 (zlen header_slice)) ++ header_slice ++ slice).

Section read.
Context `{AsyncRead R}.

(** The value of a pack after its header. *)
Definition read_body (header_type : AnyproxyHeaderType) (body_slice : list Z) : outcome AnyproxyPack :=
  match header_type with
  | THello => v ← from_slice body_slice; Ok (Hello v)
  | THeartbeat => v ← from_slice body_slice; Ok (Heartbeat v)
  | THeartbeatR => v ← from_slice body_slice; Ok (HeartbeatR v)
  end.

(** With the size of the pack. *)
Definition read_pack (typ : option AnyproxyHeaderType) : stm R (option (AnyproxyPack * Z)) :=
  header ← read_header flag_bytes ANYPROXY_MAX_HEADER_SIZE;
  match header with
  | None => mret None
  | Some (header, pack_size) =>
      if (ANYPROXY_MAX_HEADER_SIZE <? body_size header) || (body_size header <=? 0)
      then fail "err:AnyproxyPack body_size"
      else
        header_typ ← lift (ok_or "err:AnyproxyHeaderType" (from_u8 (header_type header)));
        if match typ with Some t => negb (header_type header =? type_code t) | None => false end
        then mret None
        else
          body_slice ← read_exact (body_size header);
          p ← lift (read_body header_typ body_slice);
          mret (Some (p, wrap64 (pack_size + zlen body_slice)))
  end.

Definition read_heartbeat : stm R (option AnyproxyHeartbeat) :=
  anyproxy ← read_pack (Some THeartbeat);
  match anyproxy with
  | None => mret None
  | Some (Heartbeat heartbeat, _) => mret (Some heartbeat)
  | Some _ => fail "read_heartbeat"
  end.

Definition read_heartbeat_r : stm R (option AnyproxyHeartbeatR) :=
  anyproxy ← read_pack (Some THeartbeatR);
  match anyproxy with
  | None => mret None
  | Some (HeartbeatR heartbeat_r, _) => mret (Some heartbeat_r)
  | Some _ => fail "read_heartbeatR"
  end.

Lemma keeps_anyproxy (P : R -> R -> Prop) `{!PreOrder P} typ :
  (forall n, 0 <= n -> keeps P (poll_read n)) -> keeps P (read_pack typ).
Proof. intros HP. unfold read_pack. keep. Qed.
End read.

(** ** Tries, that go back *)

Section back.
Context {I : Type} `{AsyncRead I}.

Definition read_pack_rollback (typ : option AnyproxyHeaderType) : stm (BufReader I) (option (AnyproxyPack * Z)) :=
  _ ← modify start;
  anyproxy ← read_pack typ;
  match anyproxy with
  | None =>
      b ← roll_back;
      if negb b then fail "err:rollback" else mret None
  | Some _ =>
      b ← commit;
      if negb b then fail "err:commit" else mret anyproxy
  end.

Definition read_heartbeat_rollback : stm (BufReader I) (option AnyproxyHeartbeat) :=
  anyproxy ← read_pack_rollback (Some THeartbeat);
  match anyproxy with
  | None => mret None
  | Some (Heartbeat heartbeat, _) => mret (Some heartbeat)
  | Some _ => fail "read_heartbeat"
  end.

Definition read_hello : stm (BufReader I) (option (AnyproxyHello * Z)) :=
  anyproxy ← read_pack_rollback (Some THello);
  match anyproxy with
  | None => mret None
  | Some (Hello hello, pack_size) => mret (Some (hello, pack_size))
  | Some _ => fail "read_hello"
  end.

(** The way all tries but these two go: whatever comes of reading, the reader
    goes back. *)
Definition rolling_back {A} (m : stm (BufReader I) A) : stm (BufReader I) (option A) :=
  _ ← modify start;
  r ← attempt m;
  b ← roll_back;
  if negb b then fail "err:rollback" else mret r.

Definition read_tunnel_hello `{Tunnel1Pack.TunnelToml} : stm (BufReader I) (option Tunnel1Pack.TunnelHello) :=
  tunnel_hello ← rolling_back Tunnel1Pack.read_tunnel_hello;
  match tunnel_hello with
  | None => mret None
  | Some hello => if String.eqb (Tunnel1Pack.version hello) Tunnel1Pack.TUNNEL_VERSION then mret (Some hello) else mret None
  end.

Definition read_tunnel2_hello `{TunnelPack.TunnelToml} : stm (BufReader I) (option TunnelPack.TunnelHello) :=
  tunnel_hello ← rolling_back TunnelPack.read_tunnel_hello;
  match tunnel_hello with
  | None => mret None
  | Some hello => if String.eqb (TunnelPack.version hello) TunnelPack.TUNNEL_VERSION then mret (Some hello) else mret None
  end.
End back.
End pack.

(** ** What the tries leave *)

Section spec.
Context {I : Type} `{ReadLaws I}.

Lemma keeps_attempt {S A} (P : S -> S -> Prop) (m : stm S A) : keeps P m -> keeps P (attempt m).
Proof. intros Hm s. specialize (Hm s). unfold attempt. by destruct (m s) as [[]]. Qed.

(** A reader that does not try anything. *)
Definition idle (s : BufReader I) : Prop := ok s /\ rollback s = -1.

(** A try leaves every byte where it was, whatever it finds. *)
Lemma rolling_back_keeps {A} (m : stm (BufReader I) A) s :
  ok s -> keeps same_window m ->
  match rolling_back m s with
  | (Ok _, s') => idle s' /\ content s' = content s /\ pos s' = pos s /\ max_cap s' = max_cap s
  | (Err _, _) => False
  | _ => True
  end.
Proof.
  intros Hok Hm. unfold rolling_back. step.
  destruct (window_restored (attempt m) s Hok) as (s' & E & Hok' & Hc & Hr & Hp & Hx); [by apply keeps_attempt|].
  unfold mbind at 1, stm_bind at 1. unfold attempt in *. destruct (m (start s)) as [[a|e| |] s1]; cbn [snd] in E; try done.
  all: unfold mbind, stm_bind; rewrite E; cbn [negb]; by split_and!.
Qed.

(** A reader before a try, with room for [k] bytes to go back over. *)
Definition roomy (k : Z) (s : BufReader I) : Prop :=
  idle s /\ all_ready (inner s) /\ reinit_cap s = 0 /\ k <= max_cap s - pos s /\ 0 <= k < max_cap s.

Lemma roomy_start k s : roomy k s -> ready k (start s).
Proof.
  intros ((Hok & Hr) & Hi & Hz & Hk & Hm). destruct (start_ok s Hok) as ((Hs & _) & _).
  split; [exact Hs|exact Hi|exact Hz|cbn; lia|]. intros _. cbn. lia.
Qed.

Lemma roomy_after k s s1 :
  roomy k s -> (ok (start s) -> ok s1 /\ rollback s1 = rollback (start s) /\ max_cap s1 = max_cap (start s) /\ from (rollback (start s)) s1 = from (rollback (start s)) (start s)) ->
  all_ready (inner s1) -> reinit_cap s1 = 0 ->
  exists s', roll_back s1 = (Ok true, s') /\ roomy k s' /\ content s' = content s.
Proof.
  intros ((Hok & Hr) & Hi & Hz & Hk & Hm) Hw Hi1 Hz1. destruct (start_ok s Hok) as (Hok1 & Hr1 & Hc1).
  destruct (Hw Hok1) as (Hok2 & Hr2 & Hm2 & Hf2). pose proof Hok as [[] _].
  destruct (roll_back_ok s1 Hok2) as (s' & E & Hok' & Hc' & Hr' & Hp' & Hm' & Hz' & Hi'); [lia|].
  exists s'. split; [done|]. split; [|by rewrite Hc', Hr2, Hf2, Hr1].
  split; [by split|]. split; [by rewrite Hi'|]. split; [congruence|]. split; [|rewrite Hm', Hm2; cbn; lia].
  rewrite Hm', Hp', Hr2, Hm2, Hr1. exact Hk.
Qed.

(** What a try finds that cannot fail. *)
Lemma rolling_back_reads {A} (m : stm (BufReader I) A) k j s a s1 :
  keeps same_window m -> roomy k s -> m (start s) = (Ok a, s1) -> ready j s1 ->
  exists s', rolling_back m s = (Ok (Some a), s') /\ roomy k s' /\ content s' = content s.
Proof.
  intros Hk Hs E [_ Hi Hz _ _]. pose proof Hs as ((Hok & Hr) & _). destruct (start_ok s Hok) as (Hok1 & Hr1 & Hc1).
  destruct (Hk (start s) Hok1) as [Hok2 Hw]. rewrite E in Hok2, Hw. cbn [snd] in *.
  destruct (roomy_after k s s1 Hs) as (s' & E' & Hs' & Hc'); [|done|done|].
  { intros _. split; [done|]. apply Hw. rewrite Hr1. apply Hok. }
  exists s'. split_and!; [|done..]. unfold rolling_back. step. step by (unfold attempt; rewrite E; reflexivity).
  step by exact E'. done.
Qed.

(** A try that stops at an error has found nothing. *)
Lemma rolling_back_fails {A} (m : stm (BufReader I) A) k j e s s1 :
  keeps same_window m -> roomy k s -> m (start s) = (Err e, s1) -> ready j s1 ->
  exists s', rolling_back m s = (Ok None, s') /\ roomy k s' /\ content s' = content s.
Proof.
  intros Hk Hs E [_ Hi Hz _ _]. pose proof Hs as ((Hok & Hr) & _). destruct (start_ok s Hok) as (Hok1 & Hr1 & Hc1).
  destruct (Hk (start s) Hok1) as [Hok2 Hw]. rewrite E in Hok2, Hw. cbn [snd] in *.
  destruct (roomy_after k s s1 Hs) as (s' & E' & Hs' & Hc'); [|done|done|].
  { intros _. split; [done|]. apply Hw. rewrite Hr1. apply Hok. }
  exists s'. split_and!; [|done..]. unfold rolling_back. step. step by (unfold attempt; rewrite E; reflexivity).
  step by exact E'. done.
Qed.

Lemma rolling_back_parses {A} (m : stm (BufReader I) A) k s b a rest :
  parses m b a -> keeps same_window m -> roomy k s -> zlen b <= k -> content s = b ++ rest ->
  exists s', rolling_back m s = (Ok (Some a), s') /\ roomy k s' /\ content s' = content s.
Proof.
  intros Hm Hk Hs Hb Hc. pose proof Hs as ((Hok & _) & _). destruct (start_ok s Hok) as (_ & _ & Hc1).
  destruct (Hm k (start s) rest) as (s1 & E & _ & Hrd); [by apply roomy_start|done|by rewrite Hc1|].
  by eapply rolling_back_reads.
Qed.

Context `{AnyproxyTomlLaws}.

Lemma keeps_this typ : keeps same_window (read_pack (R := BufReader I) typ).
Proof. apply keeps_anyproxy; [exact _|]. apply reader_keeps. Qed.

(** A pack that is found is taken, and its size is the number of bytes it
    took; if none is found, nothing is taken.  Only a connection that closes
    keeps the try from ending. *)
Lemma read_pack_takes typ (r : BufReader I) :
  good r -> takes False True (read_pack typ) (fun p d => forall x n, p = Some (x, n) -> n = zlen d) r.
Proof.
  intros Hg. unfold read_pack. eapply takes_bind; [by apply read_header_takes|]. cbv beta. intros h d r1 Hg1 Hc Hh.
  destruct h as [[h n]|]; [|by apply takes_ret]. specialize (Hh h n eq_refl).
  destruct (Z.ltb_spec ANYPROXY_MAX_HEADER_SIZE (body_size h)), (Z.leb_spec (body_size h) 0); cbn [orb]; try by apply takes_fail.
  eapply takes_bind.
  { apply (takes_lift _ _ _ (fun _ d => d = [])); [done|unfold ok_or; by destruct (from_u8 _)..]. }
  cbv beta. intros t d2 r2 Hg2 Hc2 ->.
  match goal with |- takes _ _ (if ?c then _ else _) _ _ => destruct c end; [by apply takes_ret|].
  eapply takes_bind; [eapply takes_weaken, read_exact_takes; done|]. cbv beta. intros a e r3 Hg3 Hc3 [-> He].
  eapply takes_bind.
  { apply (takes_lift _ _ _ (fun _ d => d = [])); [done|..]; unfold read_body; destruct t.
    all: match goal with |- context [from_slice ?s ≫= (fun v : ?T => _)] => pose proof (from_slice_returns (T := T) s); by destruct (from_slice s) end. }
  cbv beta. intros p f r4 Hg4 Hc4 ->. apply takes_ret; [done|]. intros x m [= <- <-].
  rewrite !app_nil_r, !zlen_app. unfold ANYPROXY_MAX_HEADER_SIZE in *. pose proof (zlen_nonneg d).
  destruct Hh as [Hh1 Hh2]. change (zlen flag_bytes) with 12 in *. replace (wrap64 (n + zlen e)) with (n + zlen e) by (unwrap; done).
  rewrite Hh1. unfold zlen at 2. cbn. lia.
Qed.

Lemma read_pack_rollback_spec typ s :
  ok s ->
  match read_pack_rollback typ s with
  | (Ok None, s') => idle s' /\ content s' = content s /\ pos s' = pos s /\ max_cap s' = max_cap s
  | (Ok (Some (p, n)), s') => idle s' /\ exists d, content s = d ++ content s' /\ n = zlen d
  | (Panic, _) => False
  | _ => True
  end.
Proof.
  intros Hok. unfold read_pack_rollback. step.
  destruct (start_ok s Hok) as (Hok1 & Hr1 & Hc1). pose proof (keeps_this typ (start s) Hok1) as [Hok2 Hw].
  pose proof (read_pack_takes typ (start s) Hok1) as Ht. pose proof (window_restored (read_pack typ) s Hok (keeps_this typ)) as Hx.
  assert (0 <= rollback (start s)) as Hr0 by (rewrite Hr1; apply Hok). destruct (Hw Hr0) as (Hr2 & _).
  unfold mbind at 1, stm_bind at 1. unfold takes in Ht. destruct (read_pack typ (start s)) as [[[[p n]|]|e| |] s1]; cbn [snd] in *; try done.
  - destruct Ht as (_ & d & Hd & Hn). destruct (commit_ok s1 Hok2) as (s2 & E & Hok' & Hc' & Hr'); [congruence|].
    unfold mbind, stm_bind. rewrite E. cbn [negb]. split; [done|]. exists d. split; [by rewrite <- Hc1, Hd, Hc'|by eapply Hn].
  - destruct Hx as (s' & E & Hok' & Hc & Hr & Hp & Hm). unfold mbind, stm_bind. rewrite E. cbn [negb]. by split_and!.
Qed.

(** ** Other protocols, and these *)

Definition dollar : Z := 36.
#[local] Existing Instances Tunnel1Pack.toml_header TunnelPack.toml_header.

Lemma tunnel1_other `{Tunnel1Pack.TunnelToml} k s x rest :
  roomy k s -> 20 <= k -> content s = x :: rest -> x <> dollar ->
  exists s', read_tunnel_hello s = (Ok None, s') /\ roomy k s' /\ content s' = content s.
Proof.
  intros Hs Hk Hc Hx. pose proof Hs as ((Hok & _) & _). destruct (start_ok s Hok) as (_ & _ & Hc1).
  destruct (read_header_other (Hd := Tunnel1Pack.TunnelHeader) Tunnel1Pack.flag_bytes Tunnel1Pack.TUNNEL_MAX_HEADER_SIZE dollar
              (drop 1 Tunnel1Pack.flag_bytes) k (start s) x rest) as (s1 & j & E & Hj); [done|by apply roomy_start|vm_compute zlen; lia|by rewrite Hc1|done|].
  destruct (rolling_back_fails Tunnel1Pack.read_tunnel_hello k j "err:not tunnel_hello" s s1) as (s' & E' & Hs' & Hc'); [|done| |done|].
  - unfold Tunnel1Pack.read_tunnel_hello. apply keeps_bind; [exact _|apply Tunnel1Pack.keeps_pack1; [exact _|apply reader_keeps]|]. keep.
  - unfold Tunnel1Pack.read_tunnel_hello, Tunnel1Pack.read_pack. rewrite (stm_step _ _ _ None s1); [done|]. by step by exact E.
  - exists s'. split; [|done]. unfold read_tunnel_hello. by step by exact E'.
Qed.

Lemma tunnel2_other `{TunnelPack.TunnelToml} k s x rest :
  roomy k s -> 20 <= k -> content s = x :: rest -> x <> dollar ->
  exists s', read_tunnel2_hello s = (Ok None, s') /\ roomy k s' /\ content s' = content s.
Proof.
  intros Hs Hk Hc Hx. pose proof Hs as ((Hok & _) & _). destruct (start_ok s Hok) as (_ & _ & Hc1).
  destruct (read_header_other (Hd := TunnelPack.TunnelHeader) TunnelPack.flag_bytes TunnelPack.TUNNEL_MAX_HEADER_SIZE dollar
              (drop 1 TunnelPack.flag_bytes) k (start s) x rest) as (s1 & j & E & Hj); [done|by apply roomy_start|vm_compute zlen; lia|by rewrite Hc1|done|].
  destruct (rolling_back_fails TunnelPack.read_tunnel_hello k j "err:not tunnel_hello" s s1) as (s' & E' & Hs' & Hc'); [|done| |done|].
  - unfold TunnelPack.read_tunnel_hello. apply keeps_bind; [exact _|apply TunnelPack.keeps_pack2; [exact _|apply reader_keeps]|]. keep.
  - unfold TunnelPack.read_tunnel_hello, TunnelPack.read_pack. rewrite (stm_step _ _ _ None s1); [done|]. by step by exact E.
  - exists s'. split; [|done]. unfold read_tunnel2_hello. by step by exact E'.
Qed.

Lemma anyproxy_other typ k s x rest :
  roomy k s -> 20 <= k -> content s = x :: rest -> x <> dollar ->
  exists s', read_pack_rollback typ s = (Ok None, s') /\ roomy k s' /\ content s' = content s.
Proof.
  intros Hs Hk Hc Hx. pose proof Hs as ((Hok & _) & _). destruct (start_ok s Hok) as (Hok1 & Hr1 & Hc1).
  destruct (read_header_other (Hd := AnyproxyHeader) flag_bytes ANYPROXY_MAX_HEADER_SIZE dollar (drop 1 flag_bytes) k (start s) x rest)
    as (s1 & j & E & Hj); [done|by apply roomy_start|vm_compute zlen; lia|by rewrite Hc1|done|].
  assert (read_pack typ (start s) = (Ok None, s1)) as Er by (unfold read_pack; by step by exact E).
  destruct (keeps_this typ (start s) Hok1) as [Hok2 Hw]. rewrite Er in Hok2, Hw. cbn [snd] in *. destruct Hj.
  destruct (roomy_after k s s1 Hs) as (s' & E' & Hs' & Hc'); [|done|done|].
  { intros _. split; [done|]. apply Hw. rewrite Hr1. apply Hok. }
  exists s'. split; [|done]. unfold read_pack_rollback. step. step by exact Er. by step by exact E'.
Qed.

(** A hello that fits the buffers. *)
Definition hello_fits (h : AnyproxyHello) (slice hs : list Z) : Prop :=
  to_vec h = Ok slice /\ to_vec (mkHeader (type_code THello) (zlen slice)) = Ok hs /\
  0 < zlen slice <= ANYPROXY_MAX_HEADER_SIZE /\ 0 < zlen hs <= ANYPROXY_MAX_HEADER_SIZE.

Lemma hello_bytes h slice hs : hello_fits h slice hs -> pack_to_vec THello h = Ok (header_bytes flag_bytes hs ++ slice).
Proof.
  unfold hello_fits, ANYPROXY_MAX_HEADER_SIZE. intros (Hs & Hh & Hls & Hlh). unfold pack_to_vec. rewrite Hs.
  cbn [mbind outcome_bind]. unwrap. rewrite Hh. cbn [mbind outcome_bind]. unfold header_bytes. by rewrite <- !app_assoc.
Qed.

Lemma parses_hello h slice hs :
  hello_fits h slice hs ->
  parses (R := BufReader I) (read_pack (Some THello)) (header_bytes flag_bytes hs ++ slice) (Some (Hello h, zlen (header_bytes flag_bytes hs ++ slice))).
Proof.
  unfold hello_fits, ANYPROXY_MAX_HEADER_SIZE. intros (Hs & Hh & Hls & Hlh). unfold read_pack.
  eapply parses_bind; [apply parses_header; [exact Hh|done|vm_compute; congruence|vm_compute; congruence]|]. cbv beta iota.
  cbn [header_type body_size]. unfold ANYPROXY_MAX_HEADER_SIZE. zcases.
  eapply parses_bind_nil; [by apply parses_lift|]. cbv beta. cbn [type_code Z.eqb negb].
  eapply parses_last; [by apply parses_exact|]. cbv beta.
  eapply parses_bind_nil; [apply parses_lift; unfold read_body; by rewrite (from_slice_to_vec _ _ Hs)|].
  assert (zlen (header_bytes flag_bytes hs) = 14 + zlen hs) as Hl.
  { unfold header_bytes. rewrite !zlen_app. change (zlen flag_bytes) with 12. unfold zlen at 1. cbn. lia. }
  cbv beta. rewrite zlen_app, Hl. unwrap. apply parses_ret.
Qed.

(** The hello one proxy writes in front of a stream, the next reads, and
    the stream goes on right after it: [read_hello] on the bytes of
    [pack_to_vec] answers the hello and its size, and what is left is what
    followed. *)
Theorem hello_roundtrip h slice hs b k s rest :
  hello_fits h slice hs -> pack_to_vec THello h = Ok b ->
  roomy k s -> zlen b <= k -> content s = b ++ rest ->
  exists s', read_hello s = (Ok (Some (h, zlen b)), s') /\ idle s' /\ content s' = rest.
Proof.
  intros Hf Eb Hs Hk Hc. rewrite (hello_bytes h slice hs Hf) in Eb. injection Eb as <-.
  pose proof Hs as ((Hok & _) & _). destruct (start_ok s Hok) as (Hok1 & Hr1 & Hc1).
  destruct (parses_hello h slice hs Hf k (start s) rest) as (s1 & E & Hc' & Hr'); [by apply roomy_start|done|by rewrite Hc1|].
  destruct (keeps_this (Some THello) (start s) Hok1) as [Hok2 Hw]. rewrite E in Hok2, Hw. cbn [snd] in *.
  destruct (commit_ok s1 Hok2) as (s2 & E2 & Hok3 & Hc3 & Hr3).
  { destruct Hok as [[] _]. destruct Hw as [-> _]; rewrite Hr1; lia. }
  exists s2. split; [|split; [by split|by rewrite Hc3]]. unfold read_hello, read_pack_rollback.
  rewrite (stm_step _ _ s (Some (Hello h, zlen (header_bytes flag_bytes hs ++ slice))) s2); [done|]. step. step by exact E. by step by exact E2.
Qed.
End spec.

(** A new reader on a live connection. *)
Lemma roomy_new k n (c : Conn) : live c -> 0 <= k < n -> n < 2 ^ 63 -> roomy k (with_capacity n c).
Proof.
  intros Hl Hk Hn. destruct (new_ok n c) as [Hok _]; [done|lia|].
  split; [by split|]. split; [by intros j|]. split; [done|]. split; [cbn; lia|]. cbn. lia.
Qed.

(** ** A concrete hello *)

#[export] Instance AnyproxyHeader_dec : EqDecision AnyproxyHeader.
Proof. solve_decision. Defined.
#[export] Instance AnyproxyHello_dec : EqDecision AnyproxyHello.
Proof. solve_decision. Defined.
#[export] Instance AnyproxyHeartbeat_dec : EqDecision AnyproxyHeartbeat.
Proof. solve_decision. Defined.
#[export] Instance AnyproxyHeartbeatR_dec : EqDecision AnyproxyHeartbeatR.
Proof. solve_decision. Defined.
#[local] Instance AnyproxyHeader_cnt : Countable AnyproxyHeader.
Proof. by apply (inj_countable' (fun h => (header_type h, body_size h)) (fun p => mkHeader p.1 p.2)); intros []. Defined.
#[local] Instance AnyproxyHello_cnt : Countable AnyproxyHello.
Proof. by apply (inj_countable' (fun h => (version h, request_id h, client_addr h, domain h)) (fun p => mkHello p.1.1.1 p.1.1.2 p.1.2 p.2)); intros []. Defined.
#[local] Instance AnyproxyHeartbeat_cnt : Countable AnyproxyHeartbeat.
Proof. by apply (inj_countable' hb_version mkHeartbeat); intros []. Defined.
#[local] Instance AnyproxyHeartbeatR_cnt : Countable AnyproxyHeartbeatR.
Proof. by apply (inj_countable' hbr_version mkHeartbeatR); intros []. Defined.

Definition code_anyproxy_toml : AnyproxyToml := {|
  toml_header := code_toml _; toml_hello := code_toml _; toml_heartbeat := code_toml _; toml_heartbeat_r := code_toml _
|}.

Lemma code_anyproxy_laws : @AnyproxyTomlLaws code_anyproxy_toml.
Proof. split; apply code_toml_laws. Qed.

Definition demo_anyproxy_hello : AnyproxyHello := mkHello ANYPROXY_VERSION "7@7" 5 "a.cn".

Lemma hello_roundtrip_witness :
  let _ := code_anyproxy_toml in
  exists b s', pack_to_vec THello demo_anyproxy_hello = Ok b /\
    read_hello (with_capacity 8192 (drips (b ++ [1; 2]))) = (Ok (Some (demo_anyproxy_hello, zlen b)), s') /\ content s' = [1; 2].
Proof.
  intros toml.
  pose (slice := pos_bits (encode demo_anyproxy_hello)). pose (hs := pos_bits (encode (mkHeader 0 (zlen slice)))).
  pose (b := header_bytes flag_bytes hs ++ slice). destruct (drips_live (b ++ [1; 2])) as [Hl Hc].
  assert (@hello_fits code_anyproxy_toml demo_anyproxy_hello slice hs) as Hf by (repeat split; vm_compute; congruence).
  destruct (@hello_roundtrip Conn conn_read conn_laws code_anyproxy_toml code_anyproxy_laws demo_anyproxy_hello slice hs b 8000
              (with_capacity 8192 (drips (b ++ [1; 2]))) [1; 2] Hf) as (s' & E & _ & Hc').
  - by apply hello_bytes.
  - apply roomy_new; [exact Hl|lia|lia].
  - vm_compute. congruence.
  - exact Hc.
  - exists b, s'. split; [by apply hello_bytes|]. split; [exact E|exact Hc'].
Defined.
