(* ===== verification/SslHello.v ===== *)
(** The server name in the first message of a TLS client,
    [any-proxy/src/protopack/ssl_hello.rs]. *)
From S2P Require Import Prelude RustStd Wire BufReader AnyproxyPack.
#[local] Open Scope string_scope.
#[local] Open Scope list_scope.
#[local] Open Scope Z_scope.

Section read.
Context `{AsyncRead R}.

(** [read_exact(&mut slice[..n])], [slice] being 4096 bytes long. *)
Definition read_slice (n : Z) : stm R (list Z) :=
  if 4096 <? n then lift Panic else read_exact n.

(** The loop over the entries of a server name list. *)
Fixpoint name_loop (fuel : nat) : stm R string :=
  match fuel with
  | O => lift Fuel
  | S fuel =>
      server_name_type ← read_u8;
      server_name_len ← read_u16;
      if server_name_type =? 0 then
        if server_name_len <=? 0 then fail "err:server_name_len <= 0"
        else
          server_name_data ← read_slice server_name_len;
          mret (from_utf8_lossy server_name_data)
      else
        _ ← if 0 <? server_name_len then read_slice server_name_len else mret [];
        name_loop fuel
  end.

(** The loop over the extensions. *)
Fixpoint extension_loop (fuel : nat) : stm R string :=
  match fuel with
  | O => lift Fuel
  | S fuel =>
      extension_type ← read_u16;
      extension_len ← read_u16;
      if extension_type =? 0 then
        _server_name_list_len ← read_u16;
        name_loop fuel
      else
        _ ← if 0 <? extension_len then read_slice extension_len else mret [];
        extension_loop fuel
  end.

(** What follows the session id. *)
Definition after_session (fuel : nat) : stm R string :=
  cipher_suites_length ← read_u16;
  _ ← if 0 <? cipher_suites_length then read_slice cipher_suites_length else mret [];
  compression_methods_length ← read_u8;
  _ ← if 0 <? compression_methods_length then read_slice compression_methods_length else mret [];
  _extensions_length ← read_u16;
  extension_loop fuel.

Definition do_read_domain (fuel : nat) : stm R string :=
  content_type ← read_u8;
  if negb (content_type =? 22) then fail "err:content_type" else
  _content_version ← read_slice 2;
  _content_length ← read_slice 2;
  handshake_type ← read_u8;
  if negb (handshake_type =? 1) then fail "err:handshake_type" else
  _handshake_version ← read_slice 3;
  _handshake_length ← read_slice 2;
  _random ← read_slice 32;
  session_id_len ← read_u8;
  _ ← if 0 <? session_id_len then read_slice session_id_len else mret [];
  after_session fuel.

Lemma keeps_slice (P : R -> R -> Prop) `{!PreOrder P} n :
  (forall n, 0 <= n -> keeps P (poll_read n)) -> keeps P (read_slice n).
Proof. intros HP. unfold read_slice. keep. Qed.
#[local] Hint Resolve keeps_slice : keeps.

Lemma keeps_domain (P : R -> R -> Prop) `{!PreOrder P} fuel :
  (forall n, 0 <= n -> keeps P (poll_read n)) -> keeps P (do_read_domain fuel).
Proof.
  intros HP.
  assert (forall fuel, keeps P (name_loop fuel)) as Hn by (intros f; induction f as [|f IH]; cbn [name_loop]; keep).
  assert (forall fuel, keeps P (extension_loop fuel)) as He by (intros f; induction f as [|f IH]; cbn [extension_loop]; keep).
  unfold do_read_domain, after_session. keep.
Qed.
End read.

(** [read_domain] *)
Definition read_domain {I} `{AsyncRead I} (fuel : nat) : stm (BufReader I) (option string) :=
  rolling_back (do_read_domain fuel).

(** ** The message

    A length before what it counts, in one byte or two. *)
Definition vec8 (d : list Z) : list Z := zlen d :: d.
Definition vec16 (d : list Z) : list Z := u16_bytes (zlen d) ++ d.

(** An extension, and the list of server names, with their types. *)
Definition extension (e : Z * list Z) : list Z := u16_bytes e.1 ++ vec16 e.2.
Definition name_entry (e : Z * list Z) : list Z := e.1 :: vec16 e.2.
Definition server_names (l : list (Z * list Z)) : list Z := vec16 (l ≫= name_entry).

Record ClientHello := mkClientHello {
  record_head : list Z;
  handshake_head : list Z;
  random : list Z;
  session_id : list Z;
  cipher_suites : list Z;
  compression_methods : list Z;
  extensions : list (Z * list Z)
}.

(** Up to the session id; up to the extensions; and the whole. *)
Definition hello_head (h : ClientHello) : list Z :=
  [22] ++ record_head h ++ [1] ++ handshake_head h ++ random h ++ vec8 (session_id h).
Definition hello_start (h : ClientHello) : list Z :=
  hello_head h ++ vec16 (cipher_suites h) ++ vec8 (compression_methods h).
Definition hello_bytes (h : ClientHello) : list Z := hello_start h ++ vec16 (extensions h ≫= extension).

(** Lengths as the protocol has them, and no vector longer than the buffer of
    the reader. *)
Definition head_fits (h : ClientHello) : Prop :=
  zlen (record_head h) = 4 /\ zlen (handshake_head h) = 5 /\ zlen (random h) = 32 /\ zlen (session_id h) < 256.
Definition hello_fits (h : ClientHello) : Prop :=
  head_fits h /\ zlen (cipher_suites h) <= 4096 /\ zlen (compression_methods h) < 256 /\ zlen (extensions h ≫= extension) < 2 ^ 16.
Definition entry_fits (e : Z * list Z) : Prop := 0 < e.1 < 2 ^ 16 /\ zlen e.2 <= 4096.

(** ** Finding the name *)

Section found.
Context `{ReadLaws R}.

Lemma parses_slice n b : zlen b = n -> n <= 4096 -> parses (read_slice n) b b.
Proof. intros Hn Hl. unfold read_slice. destruct (Z.ltb_spec 4096 n); [lia|]. by apply parses_exact. Qed.

Lemma parses_slice_if n b : zlen b = n -> n <= 4096 -> parses (if 0 <? n then read_slice n else mret []) b b.
Proof.
  intros Hn Hl. destruct (Z.ltb_spec 0 n); [by apply parses_slice|].
  destruct b; [apply parses_ret|unfold zlen in Hn; cbn in Hn; lia].
Qed.

Lemma vec8_then {B} d (K : stm R B) b c :
  zlen d <= 4096 -> parses K b c ->
  parses (n ← read_u8; _ ← (if 0 <? n then read_slice n else mret []); K) (vec8 d ++ b) c.
Proof.
  intros Hd HK. change (vec8 d ++ b) with ([zlen d] ++ d ++ b). eapply parses_bind; [apply parses_u8|]. cbv beta.
  eapply parses_bind; [by apply parses_slice_if|exact HK].
Qed.

Lemma vec16_then {B} d (K : stm R B) b c :
  zlen d <= 4096 -> parses K b c ->
  parses (n ← read_u16; _ ← (if 0 <? n then read_slice n else mret []); K) (vec16 d ++ b) c.
Proof.
  intros Hd HK. unfold vec16. rewrite <- app_assoc. eapply parses_bind; [apply parses_u16|]. cbv beta.
  eapply parses_bind; [by apply parses_slice_if|exact HK].
Qed.

Lemma parses_names before name fuel :
  Forall entry_fits before -> 0 < zlen name <= 4096 -> (length before < fuel)%nat ->
  parses (name_loop fuel) ((before ≫= name_entry) ++ name_entry (0, name)) (from_utf8_lossy name).
Proof.
  intros Hb Hn. revert fuel. induction Hb as [|[t d] before [Ht Hd] Hb IH]; intros [|fuel] Hf; cbn [length] in Hf; try lia; cbn [name_loop].
  - change ((([] : list (Z * list Z)) ≫= name_entry) ++ name_entry (0, name)) with ([0] ++ u16_bytes (zlen name) ++ name).
    eapply parses_bind; [apply parses_u8|]. cbv beta. eapply parses_bind; [apply parses_u16|]. cbv beta.
    destruct (Z.eqb_spec 0 0); [|lia]. destruct (Z.leb_spec (zlen name) 0); [lia|].
    eapply parses_last; [by apply parses_slice; [|lia]|]. apply parses_ret.
  - cbn [fst snd] in *. change ((((t, d) :: before) ≫= name_entry) ++ name_entry (0, name))
      with (([t] ++ vec16 d ++ (before ≫= name_entry)) ++ name_entry (0, name)). rewrite <- !app_assoc.
    eapply parses_bind; [apply parses_u8|]. cbv beta. destruct (Z.eqb_spec t 0); [lia|].
    apply vec16_then; [done|]. apply IH. lia.
Qed.

(** What comes before the data of the server name extension. *)
Lemma parses_extensions before (len llen : Z) b name fuel :
  Forall entry_fits before -> (length before < fuel)%nat ->
  (forall f, (fuel <= f + length before + 1)%nat -> parses (name_loop f) b name) ->
  parses (extension_loop fuel) ((before ≫= extension) ++ u16_bytes 0 ++ u16_bytes len ++ u16_bytes llen ++ b) name.
Proof.
  intros Hb. revert fuel. induction Hb as [|[t d] before [Ht Hd] Hb IH]; intros [|fuel] Hf Hn; cbn [length] in *; try lia; cbn [extension_loop].
  - eapply (parses_bind _ _ (u16_bytes 0)); [apply parses_u16|]. cbv beta. eapply parses_bind; [apply parses_u16|]. cbv beta.
    destruct (Z.eqb_spec 0 0); [|lia]. eapply parses_bind; [apply parses_u16|]. cbv beta. apply Hn. lia.
  - cbn [fst snd] in *. change ((((t, d) :: before) ≫= extension)) with ((u16_bytes t ++ vec16 d) ++ (before ≫= extension)).
    rewrite <- !app_assoc. eapply parses_bind; [apply parses_u16|]. cbv beta. destruct (Z.eqb_spec t 0); [lia|].
    apply vec16_then; [done|]. apply IH; [lia|]. intros f Hf'. apply Hn. lia.
Qed.

(** The fixed part, up to the cipher suites.  [J] is what holds of a
    computation on the bytes it is given. *)
Lemma parses_head (J : stm R string -> list Z -> Prop) h b fuel :
  (forall A (m : stm R A) f b1 b2 a, parses m b1 a -> J (f a) b2 -> J (m ≫= f) (b1 ++ b2)) ->
  head_fits h -> J (after_session fuel) b -> J (do_read_domain fuel) (hello_head h ++ b).
Proof.
  intros HJ (Hr & Hh & Hrn & Hs) He. unfold hello_head, vec8. rewrite <- !app_assoc.
  assert (length (record_head h) = 4%nat) by (unfold zlen in Hr; lia).
  assert (length (handshake_head h) = 5%nat) by (unfold zlen in Hh; lia).
  eapply HJ; [apply parses_u8|]. change (22 =? 22) with true. cbn [negb].
  rewrite <- (take_drop 2 (record_head h)), <- !app_assoc.
  eapply HJ; [apply parses_slice; [unfold zlen; rewrite length_take; lia|lia]|]. cbv beta.
  eapply HJ; [apply parses_slice; [unfold zlen; rewrite length_drop; lia|lia]|]. cbv beta.
  eapply HJ; [apply parses_u8|]. cbv beta. change (1 =? 1) with true. cbn [negb].
  rewrite <- (take_drop 3 (handshake_head h)), <- !app_assoc.
  eapply HJ; [apply parses_slice; [unfold zlen; rewrite length_take; lia|lia]|]. cbv beta.
  eapply HJ; [apply parses_slice; [unfold zlen; rewrite length_drop; lia|lia]|]. cbv beta.
  eapply HJ; [by apply parses_slice; [|lia]|]. cbv beta.
  change ((zlen (session_id h) :: session_id h) ++ b) with ([zlen (session_id h)] ++ session_id h ++ b).
  eapply HJ; [apply parses_u8|]. cbv beta. eapply HJ; [apply parses_slice_if; [done|lia]|]. exact He.
Qed.

Lemma parses_start h (n : Z) b fuel name :
  hello_fits h -> parses (extension_loop fuel) b name ->
  parses (do_read_domain fuel) (hello_start h ++ u16_bytes n ++ b) name.
Proof.
  intros (Hh & Hc & Hm & _) He. unfold hello_start. rewrite <- !app_assoc.
  apply (parses_head (fun m b => parses m b name)); [intros; by eapply parses_bind|done|]. unfold after_session.
  apply vec16_then; [done|]. apply vec8_then; [lia|]. eapply parses_bind; [apply parses_u16|exact He].
Qed.
End found.

(** ** It ends *)

Section ends.
Context `{ReadLaws R}.

(** [m] ends from every state in which no more than [n] bytes are left. *)
Definition ends {A} (n : nat) (m : stm R A) : Prop :=
  forall r, good r -> (length (content r) <= n)%nat -> takes True False m (fun _ _ => True) r.

Lemma ends_bind {A B} n (m : stm R A) (f : A -> stm R B) : ends n m -> (forall a, ends n (f a)) -> ends n (m ≫= f).
Proof.
  intros Hm Hf r Hg Hn. eapply takes_bind; [by apply Hm|]. cbv beta. intros a d r' Hg' Hc _.
  apply Hf; [done|]. rewrite Hc, length_app in Hn. lia.
Qed.

Lemma ends_ret {A} n (a : A) : ends n (mret a).
Proof. intros r Hg _. by apply takes_ret. Qed.

Lemma ends_fail {A} n e : ends n (fail e : stm R A).
Proof. intros r Hg _. by apply takes_fail. Qed.

Lemma ends_slice n k : ends n (read_slice k).
Proof.
  intros r Hg _. unfold read_slice. destruct (4096 <? k); [done|]. eapply takes_mono; [by eapply takes_weaken, read_exact_takes|done].
Qed.

Lemma ends_u8 n : ends n read_u8.
Proof. intros r Hg _. eapply takes_mono; [by eapply takes_weaken, read_u8_takes|done]. Qed.

Lemma ends_u16 n : ends n read_u16.
Proof. intros r Hg _. eapply takes_mono; [by eapply takes_weaken, read_u16_takes|done]. Qed.

(** A turn that reads a byte leaves fewer. *)
Lemma ends_turn {A B} n (m : stm R A) (f : A -> stm R B) (Q : A -> list Z -> Prop) :
  (forall r, good r -> takes False False m Q r) -> (forall a d, Q a d -> d <> []) ->
  (forall a k, (k < n)%nat -> ends k (f a)) -> ends n (m ≫= f).
Proof.
  intros Hm HQ Hf r Hg Hn. eapply takes_bind; [eapply takes_weaken, Hm; done|]. cbv beta. intros a d r' Hg' Hc Hd.
  apply HQ in Hd. rewrite Hc, length_app in Hn. apply (Hf a (length (content r'))); [|done..]. destruct d; [done|]. cbn in Hn. lia.
Qed.

#[local] Hint Resolve ends_ret ends_fail ends_slice ends_u8 ends_u16 : core.
Ltac ends := repeat lazymatch goal with
  | |- forall _, _ => intro
  | |- ends _ (mbind _ _) => apply ends_bind
  | |- ends _ (match _ with _ => _ end) => case_match
  | |- _ => solve [auto]
  end.

Lemma name_loop_ends fuel : forall n, (n < fuel)%nat -> ends n (name_loop fuel).
Proof.
  induction fuel as [|fuel IH]; intros n Hn; [lia|]. cbn [name_loop].
  apply (ends_turn _ _ _ _ read_u8_takes); [by intros a d ->|]. intros t k Hk.
  assert (ends k (name_loop fuel)) by (apply IH; lia). ends.
Qed.

Lemma extension_loop_ends fuel : forall n, (n < fuel)%nat -> ends n (extension_loop fuel).
Proof.
  induction fuel as [|fuel IH]; intros n Hn; [lia|]. cbn [extension_loop].
  apply (ends_turn _ _ _ _ read_u16_takes); [by intros a d ? ->|]. intros t k Hk.
  assert (ends k (name_loop fuel)) by (apply name_loop_ends; lia).
  assert (ends k (extension_loop fuel)) by (apply IH; lia). ends.
Qed.

Lemma do_read_domain_ends fuel n : (n < fuel)%nat -> ends n (do_read_domain fuel).
Proof. intros Hn. pose proof (extension_loop_ends fuel n Hn). unfold do_read_domain, after_session. ends. Qed.
End ends.

(** ** What the proxy learns *)

Section domain.
Context {I : Type} `{ReadLaws I}.

Lemma keeps_this_domain fuel : keeps same_window (do_read_domain (R := BufReader I) fuel).
Proof. apply keeps_domain; [exact _|]. apply reader_keeps. Qed.

Lemma roomy_le j k (s : BufReader I) : roomy k s -> 0 <= j <= k -> roomy j s.
Proof. intros (? & ? & ? & ? & ?) Hj. unfold roomy. split; [done|]. split; [done|]. split; [done|]. lia. Qed.

(** A name that stands in the first server name extension the loop meets, in
    the hello or past it. *)
Lemma name_read fuel h before len llen names name s rest k n :
  hello_fits h -> Forall entry_fits before -> Forall entry_fits names -> 0 < zlen name <= 4096 ->
  (length before + length names + 1 < fuel)%nat ->
  let b := hello_start h ++ u16_bytes n ++ (before ≫= extension) ++ u16_bytes 0 ++ u16_bytes len ++ u16_bytes llen ++
           (names ≫= name_entry) ++ name_entry (0, name) in
  roomy k s -> zlen b <= k -> content s = b ++ rest ->
  exists s', read_domain fuel s = (Ok (Some (from_utf8_lossy name)), s') /\ roomy k s' /\ content s' = content s.
Proof.
  intros Hh Hb Hn Hl Hf b Hs Hk Hc.
  apply (rolling_back_parses (do_read_domain fuel) k s b _ rest); [|apply keeps_this_domain|done..].
  apply parses_start; [done|]. apply parses_extensions; [done|lia|]. intros f Hf'. apply parses_names; [done..|lia].
Qed.

Lemma named_extensions es before names name nafter after :
  es = before ++ (0, server_names (names ++ (0, name) :: nafter)) :: after ->
  let l := names ++ (0, name) :: nafter in
  vec16 (es ≫= extension) = u16_bytes (zlen (es ≫= extension)) ++ (before ≫= extension) ++ u16_bytes 0 ++
    u16_bytes (zlen (server_names l)) ++ u16_bytes (zlen (l ≫= name_entry)) ++ (names ≫= name_entry) ++ name_entry (0, name) ++
    (nafter ≫= name_entry) ++ (after ≫= extension).
Proof.
  intros He l. unfold vec16. f_equal. rewrite He at 1. rewrite bind_app, bind_cons. fold l. f_equal.
  unfold extension at 1. cbn [fst snd]. unfold vec16. rewrite <- !app_assoc. do 2 f_equal.
  unfold server_names, vec16 at 1. rewrite <- !app_assoc. f_equal. unfold l. rewrite bind_app, bind_cons. by rewrite <- !app_assoc.
Qed.

(** The server name of a TLS client. *)
Lemma name_found fuel h before names name nafter after k s rest :
  hello_fits h -> extensions h = before ++ (0, server_names (names ++ (0, name) :: nafter)) :: after ->
  Forall entry_fits before -> Forall entry_fits names -> 0 < zlen name <= 4096 ->
  (length before + length names + 1 < fuel)%nat ->
  roomy k s -> zlen (hello_bytes h) <= k -> content s = hello_bytes h ++ rest ->
  exists s', read_domain fuel s = (Ok (Some (from_utf8_lossy name)), s') /\ roomy k s' /\ content s' = content s.
Proof.
  intros Hh He Hb Hn Hl Hf Hs Hk Hc. set (l := names ++ (0, name) :: nafter) in *.
  set (b := hello_start h ++ u16_bytes (zlen (extensions h ≫= extension)) ++ (before ≫= extension) ++ u16_bytes 0 ++
      u16_bytes (zlen (server_names l)) ++ u16_bytes (zlen (l ≫= name_entry)) ++ (names ≫= name_entry) ++ name_entry (0, name)).
  assert (hello_bytes h = b ++ (nafter ≫= name_entry) ++ (after ≫= extension)) as Eb
    by (unfold hello_bytes at 1; rewrite (named_extensions _ before names name nafter after He); fold l; unfold b, vec16; by rewrite <- !app_assoc).
  apply (name_read fuel h before (zlen (server_names l)) (zlen (l ≫= name_entry)) names name s ((nafter ≫= name_entry) ++ (after ≫= extension) ++ rest) k
           (zlen (extensions h ≫= extension))); [done..| |].
  - rewrite Eb, zlen_app in Hk. pose proof (zlen_nonneg ((nafter ≫= name_entry) ++ (after ≫= extension))). fold l. fold b. lia.
  - rewrite Hc, Eb. unfold b. by rewrite <- !app_assoc.
Qed.

(** Another first byte is no hello. *)
Lemma no_hello fuel k s x rest :
  roomy k s -> 1 <= k -> content s = x :: rest -> x <> 22 -> (0 < fuel)%nat ->
  exists s', read_domain fuel s = (Ok None, s') /\ roomy k s' /\ content s' = content s.
Proof.
  intros Hs Hk Hc Hx Hf. pose proof Hs as ((Hok & _) & _). destruct (start_ok s Hok) as (_ & _ & Hc1).
  destruct (read_u8_ready k (start s) x rest) as (s1 & E & _ & Hs1); [by apply roomy_start|done|by rewrite Hc1|].
  apply (rolling_back_fails (do_read_domain fuel) k (k - 1) "err:content_type" s s1); [apply keeps_this_domain|done| |done].
  unfold do_read_domain. step by exact E. by destruct (Z.eqb_spec x 22).
Qed.

(** The end of the extensions is not looked at: after a hello without a
    server name the loop goes on into whatever follows the hello, and takes a
    server name it finds there for the client's. *)
Theorem name_beyond_the_hello fuel h names name (len llen : Z) s rest :
  hello_fits h -> Forall entry_fits (extensions h) -> Forall entry_fits names -> 0 < zlen name <= 4096 ->
  (length (extensions h) + length names + 1 < fuel)%nat ->
  let past := u16_bytes 0 ++ u16_bytes len ++ u16_bytes llen ++ (names ≫= name_entry) ++ name_entry (0, name) in
  roomy (zlen (hello_bytes h ++ past)) s -> content s = hello_bytes h ++ past ++ rest ->
  exists s', read_domain fuel s = (Ok (Some (from_utf8_lossy name)), s').
Proof.
  intros Hh He Hn Hl Hf past Hs Hc. unfold hello_bytes, vec16 in *. subst past. rewrite <- !app_assoc in *.
  edestruct (name_read fuel h (extensions h) len llen names name s rest) as (s' & E & _);
    [done..|exact Hs|reflexivity|by rewrite Hc, <- !app_assoc|by exists s'].
Qed.

(** A hello whose cipher suites take more than 4096 bytes, which is within
    the protocol, makes the proxy panic: the length is used to slice a buffer of
    4096 bytes. *)
Theorem long_cipher_list_panics fuel h s rest :
  head_fits h -> 4096 < zlen (cipher_suites h) ->
  roomy (zlen (hello_head h) + 2) s -> content s = hello_head h ++ vec16 (cipher_suites h) ++ rest ->
  (read_domain fuel s).1 = Panic.
Proof.
  intros Hh Hl Hs Hc.
  assert (forall k r rest, ready k r -> zlen (hello_head h ++ u16_bytes (zlen (cipher_suites h))) <= k ->
    content r = (hello_head h ++ u16_bytes (zlen (cipher_suites h))) ++ rest -> (do_read_domain fuel (r : BufReader I)).1 = Panic) as Hp.
  { apply (parses_head (fun m b => forall k r rest, ready k r -> zlen b <= k -> content r = b ++ rest -> (m r).1 = Panic)); [|done|].
    - intros A m f b1 b2 a Hm Hf k r rest' Hr Hk Hc'. rewrite zlen_app in Hk. rewrite <- app_assoc in Hc'. pose proof (zlen_nonneg b2).
      destruct (parses_step m f b1 a k r _ Hm Hr ltac:(lia) Hc') as (r' & -> & Hc1 & Hr1). eapply Hf; [done|lia|done].
    - intros k r rest' Hr Hk Hc'. unfold after_session.
      destruct (parses_u16 (zlen (cipher_suites h)) k r rest' Hr Hk Hc') as (r' & E & _). rewrite (stm_step _ _ _ _ _ E).
      destruct (Z.ltb_spec 0 (zlen (cipher_suites h))); [|lia].
      unfold read_slice. by destruct (Z.ltb_spec 4096 (zlen (cipher_suites h))); [|lia]. }
  pose proof Hs as ((Hok & _) & _). unfold read_domain, rolling_back. step.
  specialize (Hp (zlen (hello_head h) + 2) (start s) (cipher_suites h ++ rest) (roomy_start _ s Hs)).
  unfold mbind, stm_bind, attempt. destruct (do_read_domain fuel (start s)) as [[a|e| |] s1]; try done.
  all: exfalso; assert (Hd : forall o : outcome string, o <> Panic -> o = Panic -> False) by congruence.
  all: eapply Hd; [|apply Hp]; [done|by rewrite zlen_app|].
  all: destruct (start_ok s Hok) as (_ & _ & Hc1); rewrite Hc1, Hc; unfold vec16; by rewrite <- !app_assoc.
Qed.

(** [read_domain] always ends, and apart from that panic it leaves the reader
    where it was. *)
Lemma read_domain_ends fuel s :
  ok s -> (length (content s) < fuel)%nat ->
  match read_domain fuel s with
  | (Ok _, s') => idle s' /\ content s' = content s /\ pos s' = pos s /\ max_cap s' = max_cap s
  | (Panic, _) => True
  | _ => False
  end.
Proof.
  intros Hok Hf. destruct (start_ok s Hok) as (Hok1 & _ & Hc1).
  pose proof (rolling_back_keeps (do_read_domain fuel) s Hok (keeps_this_domain fuel)) as Hk.
  assert ((read_domain fuel s).1 <> Fuel) as Hn.
  { unfold read_domain, rolling_back. step. unfold mbind, stm_bind, attempt.
    pose proof (do_read_domain_ends (R := BufReader I) fuel (length (content s)) Hf (start s) Hok1) as He.
    specialize (He ltac:(by rewrite Hc1)). unfold takes in He.
    destruct (window_restored (do_read_domain fuel) s Hok (keeps_this_domain fuel)) as (s' & E & _).
    destruct (do_read_domain fuel (start s)) as [[a|e| |] s1]; cbn [snd] in E; rewrite ?E; done. }
  unfold read_domain in *. by destruct (rolling_back (do_read_domain fuel) s) as [[o|e| |] s'].
Qed.
End domain.

(** ** A concrete hello *)

Definition demo_hello (cs : list Z) (es : list (Z * list Z)) : ClientHello :=
  mkClientHello [3; 1; 0; 200] [0; 0; 196; 3; 3] (replicate 32 7) [] cs [0] es.
Definition demo_names : list (Z * list Z) := [(1, [9; 9]); (0, as_bytes "www.example.cn")].
Definition demo_named : ClientHello := demo_hello [19; 1] [(10, [0; 2; 0; 29]); (0, server_names demo_names); (16, [])].

(** No server name, then bytes that spell one. *)
Definition demo_unnamed : ClientHello := demo_hello [19; 1] [(10, [0; 2; 0; 29])].
Definition demo_past : list Z := u16_bytes 0 ++ u16_bytes 0 ++ u16_bytes 0 ++ name_entry (0, as_bytes "other").

Lemma name_beyond_the_hello_witness :
  exists s', read_domain 8 (with_capacity 512 (drips (hello_bytes demo_unnamed ++ demo_past ++ []))) = (Ok (Some "other"), s').
Proof.
  destruct (drips_live (hello_bytes demo_unnamed ++ demo_past ++ [])) as [Hl Hc].
  destruct (name_beyond_the_hello 8 demo_unnamed [] (as_bytes "other") 0 0
              (with_capacity 512 (drips (hello_bytes demo_unnamed ++ demo_past ++ []))) []) as (s' & E).
  - repeat split; vm_compute; congruence.
  - repeat constructor; vm_compute; congruence.
  - constructor.
  - vm_compute. split; congruence.
  - vm_compute. lia.
  - apply roomy_new; [exact Hl|vm_compute; split; congruence|lia].
  - exact Hc.
  - exists s'. rewrite E. reflexivity.
Defined.

Definition demo_long : ClientHello := demo_hello (replicate 4097 1) [].

Lemma long_cipher_list_panics_witness :
  (read_domain 8 (with_capacity 8192 [Wait; Bytes (hello_bytes demo_long)])).1 = Panic.
Proof.
  apply (long_cipher_list_panics 8 demo_long _ (vec8 [0] ++ vec16 [])).
  - repeat split; vm_compute; congruence.
  - vm_compute. congruence.
  - apply roomy_new; [repeat constructor; vm_compute; congruence|vm_compute; split; congruence|lia].
  - vm_compute. reflexivity.
Defined.
