(* ===== verification/HttpHost.v ===== *)
(** The host a plain HTTP request names, [any-proxy/src/protopack/http_parse_v1.rs]. *)
From S2P Require Import Prelude RustStd Wire BufReader AnyproxyPack.
#[local] Open Scope string_scope.
#[local] Open Scope list_scope.
#[local] Open Scope Z_scope.

(** ** Looking ahead

    [got] is [slice[..cap]], what was read so far; [slice] has [SLICE] bytes. *)
Definition SLICE : Z := 1024 * 16.

Record Bytes (R : Type) := mkBytes { buf_reader : R; got : list Z; pos : Z }.
Arguments mkBytes {R}.
Arguments buf_reader {R}.
Arguments got {R}.
Arguments pos {R}.

(** [buf_index] and [buf_split_once] of [any-base/src/util.rs], for a pattern
    of one byte. *)
Fixpoint buf_index (data : list Z) (c : Z) : option nat :=
  match data with
  | [] => None
  | x :: data => if x =? c then Some O else S <$> buf_index data c
  end.

Definition buf_split_once (data : list Z) (c : Z) : option (list Z * list Z) :=
  index ← buf_index data c; Some (take index data, drop (index + 1) data).

Section ahead.
Context `{AsyncRead R}.

Definition new (r : R) : Bytes R := mkBytes r [] 0.
Definition cap (s : Bytes R) : Z := zlen (got s).
Definition set_pos (p : Z) (s : Bytes R) : Bytes R := mkBytes (buf_reader s) (got s) p.
Definition len (s : Bytes R) : Z := wrap64 (cap s - pos s).
Definition advance (n : Z) : stm (Bytes R) unit := modify (fun s => set_pos (wrap64 (pos s + n)) s).

Definition on_reader {A} (m : stm R A) : stm (Bytes R) A := fun s =>
  let (o, r) := m (buf_reader s) in (o, mkBytes r (got s) (pos s)).

Definition fill_buf (n : Z) : stm (Bytes R) unit :=
  s ← gets id;
  if SLICE <=? cap s then fail "fill_buf"
  else if n <=? len s then mret tt
  else if wrap64 (SLICE - pos s) <? n then fail "fill_buf"
  else
    let n := wrap64 (n - len s) in
    if SLICE <? cap s + n then lift Panic
    else
      d ← on_reader (read_exact n);
      modify (fun s => mkBytes (buf_reader s) (got s ++ d) (pos s)).

Definition peek_n (n : Z) : stm (Bytes R) (list Z) :=
  _ ← fill_buf n; s ← gets id; lift (vslice (got s) (pos s) (pos s + n)).

Definition peek : stm (Bytes R) Z :=
  _ ← fill_buf 1; s ← gets id; lift (vget (got s) (pos s)).

(** The loops give up after [max_size] bytes. *)
Fixpoint skip_space (fuel : nat) : stm (Bytes R) unit :=
  match fuel with
  | O => lift Fuel
  | S fuel => d ← peek; if d =? 32 then _ ← advance 1; skip_space fuel else mret tt
  end.

Fixpoint space_loop (fuel : nat) (start max_size : Z) : stm (Bytes R) unit :=
  match fuel with
  | O => lift Fuel
  | S fuel =>
      d ← peek;
      if d =? 32 then mret tt
      else
        _ ← advance 1;
        p ← gets pos;
        if max_size <? wrap64 (p - start) then fail "bytes max len" else space_loop fuel start max_size
  end.

Definition find_space (max_size : Z) : stm (Bytes R) Z :=
  start ← gets pos;
  _ ← space_loop (Z.to_nat max_size + 2) start max_size;
  p ← gets pos;
  _ ← modify (set_pos start);
  mret (wrap64 (p - start)).

Fixpoint lines_loop (fuel : nat) (start max_size : Z) : stm (Bytes R) unit :=
  match fuel with
  | O => lift Fuel
  | S fuel =>
      d ← peek_n 2;
      if bool_decide (d = [13; 10]) then mret tt
      else
        _ ← advance 1;
        p ← gets pos;
        if max_size <? wrap64 (p - start) then fail "bytes max len" else lines_loop fuel start max_size
  end.

Definition find_lines (max_size : Z) : stm (Bytes R) Z :=
  start ← gets pos;
  _ ← lines_loop (Z.to_nat max_size + 2) start max_size;
  p ← gets pos;
  _ ← modify (set_pos start);
  mret (wrap64 (p - start)).

(** ** The request

    Before the request line, the method where [check_methods] asks for it. *)
Definition check_method (check_methods : gmap string bool) : stm (Bytes R) unit :=
  if bool_decide (check_methods = ∅) then mret tt
  else
    _ ← skip_space (Z.to_nat SLICE + 1);
    size ← find_space 20;
    method ← peek_n size;
    method ← lift (from_utf8 method);
    match check_methods !! to_lowercase (trim method) with
    | Some true => advance size
    | _ => fail "None"
    end.

(** The header lines; each takes two bytes at least of the slice. *)
Fixpoint header_loop (fuel : nat) : stm (Bytes R) string :=
  match fuel with
  | O => lift Fuel
  | S fuel =>
      size ← find_lines SLICE;
      lines ← peek_n size;
      match buf_split_once lines 58 with
      | None => fail "None"
      | Some (key, value) =>
          key ← lift (from_utf8 key);
          if String.eqb (to_lowercase (trim key)) "host" then
            value ← lift (from_utf8 value);
            mret (trim value)
          else _ ← advance (size + 2); header_loop fuel
      end
  end.

Definition read_head (check_methods : gmap string bool) : stm (Bytes R) string :=
  _ ← check_method check_methods;
  size ← find_lines SLICE;
  _ ← advance (size + 2);
  header_loop (Z.to_nat SLICE).

Definition do_read_host (check_methods : gmap string bool) : stm R string := fun r =>
  let (o, s) := read_head check_methods (new r) in (o, buf_reader s).
End ahead.

Definition read_host {I} `{AsyncRead I} (check_methods : gmap string bool) : stm (BufReader I) (option string) :=
  rolling_back (do_read_host check_methods).

(** ** It leaves the reader as reads leave it *)

Section keeps.
Context `{AsyncRead R} (P : R -> R -> Prop) `{!PreOrder P}.
Hypothesis HP : forall n, 0 <= n -> keeps P (poll_read n).

Definition below (s s' : Bytes R) : Prop := P (buf_reader s) (buf_reader s').

#[local] Instance below_preorder : PreOrder below.
Proof. unfold below. split; [by intros s|]. intros s1 s2 s3. apply transitivity. Qed.

Lemma keeps_move f : (forall s, buf_reader (f s) = buf_reader s) -> keeps below (modify f).
Proof. intros Hf s. unfold below, modify. cbn. by rewrite Hf. Qed.

Lemma keeps_on_reader {A} (m : stm R A) : keeps P m -> keeps below (on_reader m).
Proof. intros Hm s. specialize (Hm (buf_reader s)). unfold on_reader, below. by destruct (m (buf_reader s)). Qed.

Lemma keeps_fill n : keeps below (fill_buf n).
Proof.
  unfold fill_buf. keep.
  - apply keeps_on_reader. by apply keeps_read_exact.
  - by apply keeps_move.
Qed.

Lemma keeps_advance n : keeps below (advance n).
Proof. by apply keeps_move. Qed.
Lemma keeps_set_pos n : keeps below (modify (set_pos n)).
Proof. by apply keeps_move. Qed.
#[local] Hint Resolve keeps_fill keeps_advance keeps_set_pos : keeps.
Lemma keeps_peek : keeps below peek.
Proof. unfold peek. keep. Qed.
Lemma keeps_peek_n n : keeps below (peek_n n).
Proof. unfold peek_n. keep. Qed.
#[local] Hint Resolve keeps_peek keeps_peek_n : keeps.

Lemma keeps_skip fuel : keeps below (skip_space fuel).
Proof. induction fuel; cbn [skip_space]; keep. Qed.
Lemma keeps_space max_size : keeps below (find_space max_size).
Proof.
  assert (forall fuel a, keeps below (space_loop fuel a max_size)) by (intros fuel a; induction fuel; cbn [space_loop]; keep).
  unfold find_space. keep.
Qed.
Lemma keeps_lines max_size : keeps below (find_lines max_size).
Proof.
  assert (forall fuel a, keeps below (lines_loop fuel a max_size)) by (intros fuel a; induction fuel; cbn [lines_loop]; keep).
  unfold find_lines. keep.
Qed.
#[local] Hint Resolve keeps_skip keeps_space keeps_lines : keeps.

Lemma keeps_host check_methods : keeps P (do_read_host check_methods).
Proof.
  assert (forall fuel, keeps below (header_loop fuel)) by (intros fuel; induction fuel; cbn [header_loop]; keep).
  assert (keeps below (read_head check_methods)) as Hk by (unfold read_head, check_method; keep).
  intros r. specialize (Hk (new r)). unfold do_read_host. by destruct (read_head check_methods (new r)).
Qed.
End keeps.

(** ** It ends, and never panics *)

Section ends.
Context `{ReadLaws R}.

Record wf (s : Bytes R) : Prop := {
  wf_reader : good (buf_reader s);
  wf_pos : 0 <= pos s <= cap s;
  wf_cap : cap s <= SLICE
}.

(** [m] ends with [Q], or with an error. *)
Definition safe {A} (m : stm (Bytes R) A) (Q : A -> Bytes R -> Prop) (s : Bytes R) : Prop :=
  match m s with (Ok a, s') => Q a s' | (Err _, _) => True | _ => False end.

Lemma safe_bind {A B} (m : stm (Bytes R) A) (f : A -> stm (Bytes R) B) Q Q' s :
  safe m Q s -> (forall a s', Q a s' -> safe (f a) Q' s') -> safe (m ≫= f) Q' s.
Proof. unfold safe, mbind, stm_bind. intros Hm Hf. destruct (m s) as [[a|e| |] s1]; [|done..]. by apply Hf. Qed.

Lemma safe_mono {A} (m : stm (Bytes R) A) (Q Q' : A -> Bytes R -> Prop) s :
  safe m Q s -> (forall a s', Q a s' -> Q' a s') -> safe m Q' s.
Proof. unfold safe. destruct (m s) as [[]]; auto. Qed.

Lemma safe_lift {A} (o : outcome A) (Q : A -> Bytes R -> Prop) s :
  o <> Panic -> o <> Fuel -> (forall a, o = Ok a -> Q a s) -> safe (lift o) Q s.
Proof. unfold safe, lift. intros. destruct o; by auto. Qed.

Lemma fill_safe n s :
  wf s -> 0 <= n < 2 ^ 32 -> safe (fill_buf n) (fun _ s' => wf s' /\ pos s' = pos s /\ pos s + n <= cap s' /\ cap s <= cap s') s.
Proof.
  intros [Hg Hp Hc] Hn. unfold SLICE in *. unfold fill_buf, safe. step. change (id s) with s. unfold len, SLICE.
  assert (0 <= cap s) by (unfold cap; apply zlen_nonneg).
  replace (wrap64 (cap s - pos s)) with (cap s - pos s) by by unwrap.
  replace (wrap64 (1024 * 16 - pos s)) with (1024 * 16 - pos s) by by unwrap.
  destruct (Z.leb_spec (1024 * 16) (cap s)); [done|]. destruct (Z.leb_spec n (cap s - pos s)).
  { split; [by split|]. split; [done|]. lia. }
  destruct (Z.ltb_spec (1024 * 16 - pos s) n); [done|].
  replace (wrap64 (n - (cap s - pos s))) with (n - (cap s - pos s)) by by unwrap.
  set (m := n - (cap s - pos s)). destruct (Z.ltb_spec (1024 * 16) (cap s + m)); [lia|].
  pose proof (read_exact_takes m (buf_reader s) Hg) as Ht. unfold takes in Ht. unfold mbind, stm_bind, on_reader.
  destruct (read_exact m (buf_reader s)) as [[d|e| |] r]; [|done..]. destruct Ht as (Hg' & d' & _ & -> & Hd).
  cbn. assert (cap (mkBytes r (got s ++ d') (pos s)) = cap s + m) as Ec by (unfold cap; cbn; rewrite zlen_app; lia).
  split; [split; [done|cbn; lia|rewrite Ec; unfold SLICE; lia]|]. split; [done|]. lia.
Qed.

Lemma peek_n_safe n s :
  wf s -> 0 <= n < 2 ^ 32 -> safe (peek_n n) (fun d s' => wf s' /\ pos s' = pos s /\ pos s + n <= cap s' /\ cap s <= cap s') s.
Proof.
  intros Hs Hn. unfold peek_n. eapply safe_bind; [by apply fill_safe|]. cbv beta. intros _ s1 (Hs1 & Hp & Hc & Hm).
  unfold safe. step. change (id s1) with s1. unfold lift. destruct Hs1 as [? ? ?]. rewrite vslice_ok by (unfold cap in *; lia).
  split; [by split|]. by split_and!.
Qed.

Lemma peek_safe s : wf s -> safe peek (fun d s' => wf s' /\ pos s' = pos s /\ pos s + 1 <= cap s') s.
Proof.
  intros Hs. unfold peek. eapply safe_bind; [by apply fill_safe; [|lia]|]. cbv beta. intros _ s1 (Hs1 & Hp & Hc & _).
  unfold safe. step. change (id s1) with s1. unfold lift. pose proof Hs1 as [? ? ?].
  destruct (vget_in_range (got s1) (pos s1)) as (x & -> & _); [unfold cap in *; lia|]. by split_and!.
Qed.

Lemma advance_safe n s :
  wf s -> 0 <= n -> pos s + n <= cap s -> safe (advance n) (fun _ s' => wf s' /\ pos s' = pos s + n) s.
Proof.
  intros [Hg Hp Hc] Hn Hl. unfold advance, safe, modify. replace (wrap64 (pos s + n)) with (pos s + n) by (unfold SLICE in *; by unwrap).
  split; [split; cbn; [done|unfold cap in *; cbn; lia|done]|done].
Qed.

Lemma skip_safe fuel s :
  wf s -> (Z.to_nat (SLICE - pos s) < fuel)%nat -> safe (skip_space fuel) (fun _ s' => wf s') s.
Proof.
  revert s. induction fuel as [|fuel IH]; intros s Hs Hf; [lia|]. cbn [skip_space].
  eapply safe_bind; [by apply peek_safe|]. cbv beta. intros d s1 (Hs1 & Hp & Hc). destruct (d =? 32); [|done].
  eapply safe_bind; [apply (advance_safe 1); [done|lia|lia]|]. cbv beta. intros _ s2 (Hs2 & Hp2).
  apply IH; [done|]. destruct Hs1 as [? ? ?], Hs2 as [? ? ?]. lia.
Qed.

(** Both searches: [m] is the look ahead of a turn. *)
Lemma find_safe {A} (m : stm (Bytes R) A) (stop : A -> bool) w loop max_size s :
  (forall s, wf s -> safe m (fun _ s' => wf s' /\ pos s' = pos s /\ pos s + w <= cap s') s) -> 1 <= w -> 0 <= max_size <= SLICE ->
  (forall fuel a, loop (S fuel) a = (d ← m; if stop d then mret tt else _ ← advance 1; p ← gets pos;
     if max_size <? wrap64 (p - a) then fail "bytes max len" else loop fuel a)) ->
  wf s ->
  safe (a ← gets pos; _ ← loop (Z.to_nat max_size + 2)%nat a; p ← gets pos; _ ← modify (set_pos a); mret (wrap64 (p - a)))
    (fun size s' => wf s' /\ pos s' = pos s /\ 0 <= size <= max_size /\ pos s + size + w <= cap s') s.
Proof.
  intros Hm Hw Hmax Hloop Hs.
  assert (forall fuel s1, wf s1 -> pos s <= pos s1 -> pos s1 - pos s <= max_size -> (Z.to_nat (max_size - (pos s1 - pos s)) < fuel)%nat ->
    safe (loop fuel (pos s)) (fun _ s' => wf s' /\ pos s <= pos s' <= pos s + max_size /\ pos s' + w <= cap s') s1) as Hl.
  { intros fuel. induction fuel as [|fuel IH]; intros s1 Hs1 Hlo Hhi Hf; [lia|]. rewrite Hloop.
    eapply safe_bind; [by apply Hm|]. cbv beta. intros d s2 (Hs2 & Hp2 & Hc2). destruct (stop d).
    { unfold safe. cbn. split; [done|]. lia. }
    eapply safe_bind; [apply (advance_safe 1); [done|lia|lia]|]. cbv beta. intros _ s3 (Hs3 & Hp3). unfold safe. step.
    destruct Hs as [_ Hs0 _], Hs3 as [Hg3 Hs3 Hc3]. unfold SLICE in *. replace (wrap64 (pos s3 - pos s)) with (pos s3 - pos s) by by unwrap.
    destruct (Z.ltb_spec max_size (pos s3 - pos s)); [done|]. apply IH; [by split|lia..]. }
  unfold safe. step. specialize (Hl (Z.to_nat max_size + 2)%nat s Hs ltac:(lia) ltac:(lia) ltac:(lia)). unfold safe in Hl.
  unfold mbind at 1, stm_bind at 1. destruct (loop (Z.to_nat max_size + 2)%nat (pos s) s) as [[[]|e| |] s1]; [|done..].
  destruct Hl as (Hs1 & Hp1 & Hc1). step. step. cbn. destruct Hs as [Hg Hp Hc], Hs1 as [Hg1 Hp1' Hc1'].
  unfold SLICE in *. replace (wrap64 (pos s1 - pos s)) with (pos s1 - pos s) by by unwrap.
  split_and!; [|done|lia..|unfold cap in *; cbn; lia]. split; [done|unfold cap in *; cbn; lia|done].
Qed.

Lemma find_lines_safe s :
  wf s -> safe (find_lines SLICE) (fun size s' => wf s' /\ pos s' = pos s /\ 0 <= size <= SLICE /\ pos s + size + 2 <= cap s') s.
Proof.
  apply (find_safe (peek_n 2) (fun d => bool_decide (d = [13; 10])) 2 (fun fuel a => lines_loop fuel a SLICE)); [|done|done|done].
  intros s1 Hs1. eapply safe_mono; [by apply peek_n_safe|]. cbv beta. intros _ s2 (? & ? & ? & _). done.
Qed.

Lemma find_space_safe s :
  wf s -> safe (find_space 20) (fun size s' => wf s' /\ pos s' = pos s /\ 0 <= size <= 20 /\ pos s + size + 1 <= cap s') s.
Proof.
  apply (find_safe peek (fun d => d =? 32) 1 (fun fuel a => space_loop fuel a 20)); [apply peek_safe|done|done|done].
Qed.

Lemma from_utf8_returns l : from_utf8 l <> Panic /\ from_utf8 l <> Fuel.
Proof. unfold from_utf8. by case_match. Qed.

Lemma header_safe fuel s : wf s -> (Z.to_nat (SLICE - pos s) < fuel)%nat -> safe (header_loop fuel) (fun _ _ => True) s.
Proof.
  revert s. induction fuel as [|fuel IH]; intros s Hs Hf; cbn [header_loop]; [lia|].
  eapply safe_bind; [by apply find_lines_safe|]. cbv beta. intros size s1 (Hs1 & Hp1 & Hsz & Hc1).
  eapply safe_bind; [apply peek_n_safe; [done|unfold SLICE in *; lia]|]. cbv beta. intros l s2 (Hs2 & Hp2 & Hc2 & Hm2).
  destruct (buf_split_once l 58) as [[key value]|]; [|done]. destruct (from_utf8_returns key).
  eapply safe_bind; [apply (safe_lift _ (fun _ s' => s' = s2)); done|]. cbv beta. intros k s3 ->.
  destruct (String.eqb _ _).
  - destruct (from_utf8_returns value). eapply safe_bind; [apply (safe_lift _ (fun _ s' => s' = s2)); done|]. done.
  - eapply safe_bind; [apply advance_safe; [done|lia|lia]|]. cbv beta. intros _ s4 (Hs4 & Hp4). apply IH; [done|].
    destruct Hs4 as [? ? ?]. lia.
Qed.

Lemma method_safe check_methods s : wf s -> pos s = 0 -> safe (check_method check_methods) (fun _ s' => wf s') s.
Proof.
  intros Hs Hp. unfold check_method. case_bool_decide; [done|].
  eapply safe_bind; [apply skip_safe; [done|lia]|]. cbv beta. intros _ s1 Hs1.
  eapply safe_bind; [by apply find_space_safe|]. cbv beta. intros size s2 (Hs2 & Hp2 & Hsz & Hc2).
  eapply safe_bind; [apply peek_n_safe; [done|lia]|]. cbv beta. intros l s3 (Hs3 & Hp3 & Hc3 & _). destruct (from_utf8_returns l).
  eapply safe_bind; [apply (safe_lift _ (fun _ s' => s' = s3)); done|]. cbv beta. intros k s4 ->.
  destruct (check_methods !! _) as [[]|]; [|done..]. eapply safe_mono; [apply advance_safe; [done|lia|lia]|]. by intros _ s5 [].
Qed.

Lemma do_read_host_returns check_methods r : good r ->
  (do_read_host check_methods r).1 <> Panic /\ (do_read_host check_methods r).1 <> Fuel.
Proof.
  intros Hg. assert (safe (read_head check_methods) (fun _ _ => True) (new r)) as Hs.
  { assert (wf (new r)) as Hw by (by split; [| |vm_compute]). unfold read_head.
    eapply safe_bind; [by apply method_safe|]. cbv beta. intros _ s1 Hs1.
    eapply safe_bind; [by apply find_lines_safe|]. cbv beta. intros size s2 (Hs2 & Hp2 & Hsz & Hc2).
    eapply safe_bind; [apply advance_safe; [done|lia|lia]|]. cbv beta. intros _ s3 (Hs3 & Hp3). apply header_safe; [done|].
    destruct Hs1 as [? ? ?], Hs3 as [? ? ?]. unfold SLICE in *. lia. }
  unfold safe in Hs. unfold do_read_host. by destruct (read_head check_methods (new r)) as [[]].
Qed.
End ends.

(** ** What it finds *)

Section found.
Context `{ReadLaws R}.

(** [T] is all there is to read, [K] bytes of which are sure. *)
Record at_stream (K : Z) (T : list Z) (s : Bytes R) : Prop := {
  as_wf : wf s;
  as_all : got s ++ content (buf_reader s) = T;
  as_ready : ready (K - cap s) (buf_reader s);
  as_room : cap s <= K < SLICE
}.

Lemma fill_at K T n s :
  at_stream K T s -> 0 <= n -> pos s + n <= K -> pos s + n <= zlen T ->
  exists s', fill_buf n s = (Ok tt, s') /\ at_stream K T s' /\ pos s' = pos s /\ pos s + n <= cap s' /\ cap s <= cap s'.
Proof.
  intros Hs Hn HK HT. pose proof Hs as [Hwf Ha Hr Hm]. pose proof Hwf as [Hg Hp Hc]. unfold SLICE in *.
  unfold fill_buf. step. change (id s) with s. unfold len, SLICE. assert (0 <= cap s) by (unfold cap; apply zlen_nonneg).
  replace (wrap64 (cap s - pos s)) with (cap s - pos s) by by unwrap.
  replace (wrap64 (1024 * 16 - pos s)) with (1024 * 16 - pos s) by by unwrap.
  destruct (Z.leb_spec (1024 * 16) (cap s)); [lia|]. destruct (Z.leb_spec n (cap s - pos s)).
  { exists s. split; [done|]. split; [done|]. lia. }
  destruct (Z.ltb_spec (1024 * 16 - pos s) n); [lia|].
  replace (wrap64 (n - (cap s - pos s))) with (n - (cap s - pos s)) by by unwrap.
  set (m := n - (cap s - pos s)) in *. destruct (Z.ltb_spec (1024 * 16) (cap s + m)); [lia|].
  assert (m <= zlen (content (buf_reader s))) as Hmc by (rewrite <- Ha, zlen_app in HT; unfold cap in *; lia).
  destruct (read_exact_ready _ m (buf_reader s) (take (Z.to_nat m) (content (buf_reader s))) (drop (Z.to_nat m) (content (buf_reader s))) Hr)
    as (r & E & Hc' & Hr'); [unfold zlen in *; rewrite length_take; lia|lia|by rewrite take_drop|].
  step by (unfold on_reader; rewrite E; reflexivity). eexists. split; [done|]. cbn.
  set (d := take (Z.to_nat m) (content (buf_reader s))) in *.
  assert (zlen d = m) as Hd by (unfold d, zlen in *; rewrite length_take; lia).
  assert (cap (mkBytes r (got s ++ d) (pos s)) = cap s + m) as Ec by (unfold cap; cbn; rewrite zlen_app; lia).
  split; [|split; [done|lia]]. split.
  - split; [by apply ready_good in Hr'|cbn; lia|rewrite Ec; unfold SLICE; lia].
  - cbn. rewrite Hc', <- app_assoc. unfold d. by rewrite take_drop.
  - rewrite Ec. cbn. by replace (K - (cap s + m)) with (K - cap s - m) by lia.
  - rewrite Ec. unfold SLICE. lia.
Qed.

Lemma got_slice s T n :
  got s ++ content (buf_reader s) = T -> 0 <= pos s -> 0 <= n -> pos s + n <= cap s ->
  take (Z.to_nat n) (drop (Z.to_nat (pos s)) (got s)) = take (Z.to_nat n) (drop (Z.to_nat (pos s)) T).
Proof.
  intros <- Hp Hn Hc. unfold cap, zlen in Hc. rewrite drop_app_le by lia. rewrite take_app_le; [done|].
  rewrite length_drop. lia.
Qed.

Lemma peek_n_at K T n s :
  at_stream K T s -> 0 <= n -> pos s + n <= K -> pos s + n <= zlen T ->
  exists s', peek_n n s = (Ok (take (Z.to_nat n) (drop (Z.to_nat (pos s)) T)), s') /\ at_stream K T s' /\ pos s' = pos s /\ pos s + n <= cap s' /\ cap s <= cap s'.
Proof.
  intros Hs Hn HK HT. destruct (fill_at K T n s Hs Hn HK HT) as (s' & E & Hs' & Hp & Hc & Hm). exists s'.
  split; [|done]. unfold peek_n. step by exact E. step. change (id s') with s'. unfold lift. pose proof Hs' as [[_ ? ?] Ha _ _].
  rewrite vslice_ok by (unfold cap in *; lia). replace (pos s' + n - pos s') with n by lia.
  rewrite (got_slice s' T n Ha) by lia. by rewrite Hp.
Qed.

Lemma peek_at K T x a s :
  at_stream K T s -> drop (Z.to_nat (pos s)) T = x :: a -> pos s + 1 <= K ->
  exists s', peek s = (Ok x, s') /\ at_stream K T s' /\ pos s' = pos s /\ pos s + 1 <= cap s'.
Proof.
  intros Hs Hd HK. assert (pos s + 1 <= zlen T) as HT.
  { apply (f_equal length) in Hd. rewrite length_drop in Hd. unfold zlen. cbn in Hd. lia. }
  destruct (fill_at K T 1 s Hs ltac:(lia) HK HT) as (s' & E & Hs' & Hp & Hc & _). exists s'.
  split; [|done]. unfold peek. step by exact E. step. change (id s') with s'. unfold lift. f_equal. pose proof Hs' as [[_ Hq ?] Ha _ _].
  apply vget_ok. split; [lia|]. rewrite Hp.
  assert (T !! Z.to_nat (pos s) = Some x) as Hx by (rewrite <- (Nat.add_0_r (Z.to_nat (pos s))), <- lookup_drop, Hd; done).
  rewrite <- Ha in Hx. rewrite lookup_app_l in Hx; [done|]. unfold cap, zlen in *. lia.
Qed.

Lemma advance_at K T n s :
  at_stream K T s -> 0 <= n -> pos s + n <= cap s ->
  advance n s = (Ok tt, set_pos (pos s + n) s) /\ at_stream K T (set_pos (pos s + n) s).
Proof.
  intros Hs Hn Hc. pose proof Hs as [[Hg Hp Hl] Ha Hr Hm]. unfold advance, modify.
  replace (wrap64 (pos s + n)) with (pos s + n) by (unfold SLICE in *; by unwrap). split; [done|].
  split; [split; [done|unfold cap in *; cbn; lia|done]|done..].
Qed.

(** Both searches stop [n] bytes ahead, where the look ahead first says so. *)
Lemma find_at {A} (m : stm (Bytes R) A) (stop : A -> bool) w loop max_size n K T s :
  (forall s1, at_stream K T s1 -> pos s <= pos s1 <= pos s + n ->
    exists d s2, m s1 = (Ok d, s2) /\ at_stream K T s2 /\ pos s2 = pos s1 /\ pos s1 + w <= cap s2 /\ stop d = (pos s1 =? pos s + n)) ->
  1 <= w -> 0 <= n <= max_size -> max_size <= SLICE ->
  (forall fuel a, loop (S fuel) a = (d ← m; if stop d then mret tt else _ ← advance 1; p ← gets pos;
     if max_size <? wrap64 (p - a) then fail "bytes max len" else loop fuel a)) ->
  at_stream K T s ->
  exists s', (a ← gets pos; _ ← loop (Z.to_nat max_size + 2)%nat a; p ← gets pos; _ ← modify (set_pos a); mret (wrap64 (p - a))) s = (Ok n, s') /\
    at_stream K T s' /\ pos s' = pos s /\ pos s + n + w <= cap s'.
Proof.
  intros Hm Hw Hn Hmax Hloop Hs. pose proof (as_wf _ _ _ Hs) as [_ Hps Hcs].
  assert (forall fuel s1, at_stream K T s1 -> pos s <= pos s1 <= pos s + n -> (Z.to_nat (pos s + n - pos s1) < fuel)%nat ->
    exists s', loop fuel (pos s) s1 = (Ok tt, s') /\ at_stream K T s' /\ pos s' = pos s + n /\ pos s + n + w <= cap s') as Hl.
  { intros fuel. induction fuel as [|fuel IH]; intros s1 Hs1 Hp1 Hf; [lia|]. rewrite Hloop.
    destruct (Hm s1 Hs1 Hp1) as (d & s2 & E & Hs2 & Hp2 & Hc2 & Ed). step by exact E. rewrite Ed.
    destruct (Z.eqb_spec (pos s1) (pos s + n)) as [Eq|Hne]; [exists s2; split_and!; [done|done|lia|lia]|].
    destruct (advance_at K T 1 s2 Hs2) as [E3 Hs3]; [lia|lia|]. step by exact E3. step.
    pose proof (as_wf _ _ _ Hs3) as [_ Hp3 Hc3]. cbn [pos set_pos] in *. unfold SLICE in *.
    replace (wrap64 (pos s2 + 1 - pos s)) with (pos s2 + 1 - pos s) by by unwrap.
    destruct (Z.ltb_spec max_size (pos s2 + 1 - pos s)); [lia|]. apply IH; [done|cbn; lia|cbn; lia]. }
  destruct (Hl (Z.to_nat max_size + 2)%nat s Hs ltac:(lia) ltac:(lia)) as (s1 & E & Hs1 & Hp1 & Hc1).
  step. step by exact E. step. step. unfold SLICE in *.
  replace (wrap64 (pos s1 - pos s)) with n by (rewrite Hp1; replace (pos s + n - pos s) with n by lia; by unwrap).
  eexists. split; [done|]. split; [|split; [done|unfold cap in *; cbn; lia]].
  destruct Hs1 as [[Hg Hp Hc] Ha Hr Hk]. split; [split; [done|unfold cap in *; cbn; lia|done]|done..].
Qed.

Lemma drop_at (T : list Z) (p i : Z) a : 0 <= p -> 0 <= i -> drop (Z.to_nat p) T = a -> drop (Z.to_nat (p + i)) T = drop (Z.to_nat i) a.
Proof. intros Hp Hi <-. rewrite drop_drop. f_equal. lia. Qed.

Lemma drop_length_le (T : list Z) p a : 0 <= p -> drop (Z.to_nat p) T = a -> a <> [] -> p + zlen a = zlen T.
Proof. intros Hp <- Hne. destruct (Nat.le_gt_cases (length T) (Z.to_nat p)) as [?|?]; [by rewrite drop_ge in Hne by lia|]. unfold zlen. rewrite length_drop. lia. Qed.

(** A line, up to its end. *)
Lemma find_lines_at K T l b s :
  at_stream K T s -> drop (Z.to_nat (pos s)) T = l ++ 13 :: 10 :: b -> 13 ∉ l -> pos s + zlen l + 2 <= K ->
  exists s', find_lines SLICE s = (Ok (zlen l), s') /\ at_stream K T s' /\ pos s' = pos s /\ pos s + zlen l + 2 <= cap s'.
Proof.
  intros Hs Hd Hl HK. pose proof (as_wf _ _ _ Hs) as [_ Hps Hcs]. pose proof (zlen_nonneg l).
  assert (pos s + zlen (l ++ 13 :: 10 :: b) = zlen T) as HT by (apply drop_length_le; [lia|done|by destruct l]).
  rewrite zlen_app in HT. unfold zlen at 2 in HT. cbn [length] in HT.
  apply (find_at (peek_n 2) (fun d => bool_decide (d = [13; 10])) 2 (fun fuel a => lines_loop fuel a SLICE)); [|lia| |lia|done|done].
  2:{ pose proof (as_room _ _ _ Hs). lia. }
  intros s1 Hs1 Hp1. destruct (peek_n_at K T 2 s1 Hs1) as (s2 & E & Hs2 & Hp2 & Hc2 & _); [lia|lia|lia|].
  eexists _, s2. split_and!; [exact E|done..|].
  assert (exists j : nat, pos s1 = pos s + Z.of_nat j /\ (j <= length l)%nat) as (j & Hj & Hjl) by (exists (Z.to_nat (pos s1 - pos s)); unfold zlen in *; lia).
  rewrite Hj, (drop_at T (pos s) (Z.of_nat j) _ ltac:(lia) ltac:(lia) Hd), Nat2Z.id. change (Z.to_nat 2) with 2%nat.
  destruct (Nat.eq_dec j (length l)) as [->|Hne].
  - rewrite drop_app_length, Z.eqb_refl. by apply bool_decide_true.
  - destruct (Z.eqb_spec (pos s + Z.of_nat j) (pos s + zlen l)); [unfold zlen in *; lia|]. apply bool_decide_false.
    destruct (lookup_lt_is_Some_2 l j) as [x Hx]; [lia|]. rewrite (drop_S (l ++ 13 :: 10 :: b) x j) by (rewrite lookup_app_l by lia; exact Hx).
    cbn. intros [= -> _]. apply Hl. by eapply list_elem_of_lookup_2.
Qed.

Lemma find_space_at K T l b s :
  at_stream K T s -> drop (Z.to_nat (pos s)) T = l ++ 32 :: b -> 32 ∉ l -> zlen l <= 20 -> pos s + zlen l + 1 <= K ->
  exists s', find_space 20 s = (Ok (zlen l), s') /\ at_stream K T s' /\ pos s' = pos s /\ pos s + zlen l + 1 <= cap s'.
Proof.
  intros Hs Hd Hl H20 HK. pose proof (as_wf _ _ _ Hs) as [_ Hps Hcs]. pose proof (zlen_nonneg l).
  apply (find_at peek (fun d => d =? 32) 1 (fun fuel a => space_loop fuel a 20)); [|lia|done|done|done|done].
  intros s1 Hs1 Hp1.
  assert (exists j : nat, pos s1 = pos s + Z.of_nat j /\ (j <= length l)%nat) as (j & Hj & Hjl) by (exists (Z.to_nat (pos s1 - pos s)); unfold zlen in *; lia).
  assert (drop (Z.to_nat (pos s1)) T = drop j (l ++ 32 :: b)) as Hd1 by (rewrite Hj, (drop_at T (pos s) (Z.of_nat j) _ ltac:(lia) ltac:(lia) Hd), Nat2Z.id; done).
  destruct (Nat.eq_dec j (length l)) as [->|Hne].
  - rewrite drop_app_length in Hd1. destruct (peek_at K T 32 b s1 Hs1 Hd1) as (s2 & E & Hs2 & Hp2 & Hc2); [lia|].
    exists 32, s2. split_and!; [done..|]. unfold zlen in *. symmetry. apply Z.eqb_eq. lia.
  - destruct (lookup_lt_is_Some_2 l j) as [x Hx]; [lia|]. rewrite (drop_S (l ++ 32 :: b) x j) in Hd1 by (rewrite lookup_app_l by lia; exact Hx).
    destruct (peek_at K T x _ s1 Hs1 Hd1) as (s2 & E & Hs2 & Hp2 & Hc2); [lia|]. exists x, s2. split_and!; [done..|].
    destruct (Z.eqb_spec x 32) as [->|?]; [destruct Hl; by eapply list_elem_of_lookup_2|]. symmetry. apply Z.eqb_neq. unfold zlen in *. lia.
Qed.

Lemma split_at_colon key value : 58 ∉ key -> buf_split_once (key ++ 58 :: value) 58 = Some (key, value).
Proof.
  intros Hk. unfold buf_split_once.
  assert (buf_index (key ++ 58 :: value) 58 = Some (length key)) as ->.
  { induction key as [|x key IH]; [done|]. apply not_elem_of_cons in Hk as [Hx Hk]. cbn [app buf_index].
    destruct (Z.eqb_spec x 58); [congruence|]. by rewrite IH. }
  cbn. by rewrite take_app_length, <- drop_drop, drop_app_length.
Qed.

(** The bytes of a header line, and of a line that is not the host's. *)
Definition header_line (h : list Z * list Z) : list Z := h.1 ++ 58 :: h.2 ++ [13; 10].
Definition line_ok (h : list Z * list Z) : Prop := (58 ∉ h.1) /\ (13 ∉ h.1) /\ (13 ∉ h.2).
Definition names_host (h : list Z * list Z) (b : bool) : Prop :=
  exists key, from_utf8 h.1 = Ok key /\ String.eqb (to_lowercase (trim key)) "host" = b.

Lemma header_line_at K T h rest b s :
  at_stream K T s -> drop (Z.to_nat (pos s)) T = header_line h ++ rest -> line_ok h -> pos s + zlen (header_line h) <= K ->
  names_host h b ->
  exists s', at_stream K T s' /\ pos s' = pos s /\ pos s + zlen (header_line h) <= cap s' /\
    forall fuel, header_loop (S fuel) s =
      (if b then (value ← lift (from_utf8 h.2); mret (trim value))
       else (_ ← advance (zlen (header_line h)); header_loop fuel)) s'.
Proof.
  intros Hs Hd (Hk1 & Hk2 & Hv) HK (key & Ekey & Eb). pose proof (as_wf _ _ _ Hs) as [_ Hps Hcs].
  set (l := h.1 ++ 58 :: h.2). assert (zlen (header_line h) = zlen l + 2) as Hl.
  { unfold header_line, l, zlen. rewrite !length_app. cbn [length]. rewrite length_app. cbn. lia. }
  assert (drop (Z.to_nat (pos s)) T = l ++ 13 :: 10 :: rest) as Hd'.
  { rewrite Hd. unfold header_line, l. rewrite <- !app_assoc. cbn [app]. by rewrite <- !app_assoc. }
  pose proof (zlen_nonneg l).
  destruct (find_lines_at K T l rest s Hs Hd') as (s1 & E1 & Hs1 & Hp1 & Hc1); [|lia|].
  { unfold l. rewrite elem_of_app, elem_of_cons. intros [?|[?|?]]; done. }
  assert (pos s + zlen (l ++ 13 :: 10 :: rest) = zlen T) as HT by (apply drop_length_le; [lia|done|by destruct l]).
  rewrite zlen_app in HT. unfold zlen at 2 in HT. cbn [length] in HT.
  destruct (peek_n_at K T (zlen l) s1 Hs1) as (s2 & E2 & Hs2 & Hp2 & Hc2 & Hm2); [lia|lia|lia|].
  exists s2. split; [done|]. split; [lia|]. split; [lia|].
  intros fuel. cbn [header_loop]. step by exact E1. step by exact E2.
  rewrite Hp1, Hd'. replace (take (Z.to_nat (zlen l)) (l ++ 13 :: 10 :: rest)) with l by (unfold zlen; by rewrite Nat2Z.id, take_app_length).
  unfold l at 1. rewrite split_at_colon by done. step by (unfold lift; rewrite Ekey; reflexivity). rewrite Eb. by rewrite Hl.
Qed.

Lemma zlen_header_line h : 2 <= zlen (header_line h).
Proof. unfold header_line, zlen. rewrite length_app. cbn. rewrite length_app. cbn. lia. Qed.

(** The first host line among the headers. *)
Lemma headers_at K T before h text rest fuel s :
  at_stream K T s -> drop (Z.to_nat (pos s)) T = (before ≫= header_line) ++ header_line h ++ rest ->
  Forall (fun x => line_ok x /\ names_host x false) before -> line_ok h -> names_host h true -> from_utf8 h.2 = Ok text ->
  pos s + zlen ((before ≫= header_line) ++ header_line h) <= K -> (length before < fuel)%nat ->
  exists s', header_loop fuel s = (Ok (trim text), s') /\ at_stream K T s'.
Proof.
  intros Hs Hd Hb Hl Hh Ht HK. revert fuel s Hs Hd HK. induction Hb as [|x before [Hx Hn] Hb IH]; intros fuel s Hs Hd HK Hf.
  - cbn [mbind list_bind app] in Hd, HK. destruct fuel as [|fuel]; [lia|].
    destruct (header_line_at K T h rest true s Hs Hd Hl HK Hh) as (s' & Hs' & _ & _ & E). exists s'. split; [|done].
    rewrite E. by step by (unfold lift; rewrite Ht; reflexivity).
  - rewrite bind_cons, <- !app_assoc in *. destruct fuel as [|fuel]; [cbn in Hf; lia|]. rewrite zlen_app in HK.
    pose proof (zlen_nonneg ((before ≫= header_line) ++ header_line h)). pose proof (zlen_header_line x).
    pose proof (as_wf _ _ _ Hs) as [_ Hps Hcs].
    destruct (header_line_at K T x _ false s Hs Hd Hx ltac:(lia) Hn) as (s1 & Hs1 & Hp1 & Hc1 & E).
    destruct (advance_at K T (zlen (header_line x)) s1 Hs1) as [E2 Hs2]; [lia|lia|].
    destruct (IH fuel (set_pos (pos s1 + zlen (header_line x)) s1) Hs2) as (s' & E3 & Hs'); [|cbn; lia|cbn in Hf; lia|].
    + cbn [pos set_pos]. rewrite Hp1, (drop_at T (pos s) (zlen (header_line x)) _ ltac:(lia) ltac:(lia) Hd).
      unfold zlen. by rewrite Nat2Z.id, drop_app_length.
    + exists s'. split; [|done]. rewrite E. by step by exact E2.
Qed.

Lemma skip_at K T j x a fuel s :
  at_stream K T s -> drop (Z.to_nat (pos s)) T = replicate j 32 ++ x :: a -> x <> 32 -> pos s + Z.of_nat j + 1 <= K -> (j < fuel)%nat ->
  exists s', skip_space fuel s = (Ok tt, s') /\ at_stream K T s' /\ pos s' = pos s + Z.of_nat j.
Proof.
  revert fuel s. induction j as [|j IH]; intros fuel s Hs Hd Hx HK Hf; (destruct fuel as [|fuel]; [lia|]); cbn [skip_space replicate app] in *;
    pose proof (as_wf _ _ _ Hs) as [_ Hps Hcs].
  - destruct (peek_at K T x a s Hs Hd ltac:(lia)) as (s1 & E & Hs1 & Hp1 & _). step by exact E.
    destruct (Z.eqb_spec x 32); [done|]. exists s1. split_and!; [done..|lia].
  - destruct (peek_at K T 32 _ s Hs Hd ltac:(lia)) as (s1 & E & Hs1 & Hp1 & Hc1). step by exact E. change (32 =? 32) with true. cbv iota.
    destruct (advance_at K T 1 s1 Hs1) as [E2 Hs2]; [lia|lia|]. step by exact E2.
    destruct (IH fuel (set_pos (pos s1 + 1) s1) Hs2) as (s' & E3 & Hs' & Hp'); [|done|cbn; lia|lia|].
    + cbn [pos set_pos]. rewrite Hp1. by rewrite (drop_at T (pos s) 1 _ ltac:(lia) ltac:(lia) Hd).
    + exists s'. split_and!; [done..|]. cbn in Hp'. lia.
Qed.

(** A request line, and what a configured method list asks of it. *)
Record RequestLine := mkLine { spaces : nat; method : list Z; target : list Z }.
Definition request_line (q : RequestLine) : list Z := replicate (spaces q) 32 ++ method q ++ 32 :: target q.
Definition line_fits (q : RequestLine) : Prop := method q <> [] /\ (32 ∉ method q) /\ zlen (method q) <= 20 /\ (13 ∉ request_line q).
Definition allowed (check_methods : gmap string bool) (q : RequestLine) : Prop :=
  check_methods = ∅ \/ exists m, from_utf8 (method q) = Ok m /\ check_methods !! to_lowercase (trim m) = Some true.

Lemma method_at check_methods K T q rest s :
  at_stream K T s -> drop (Z.to_nat (pos s)) T = request_line q ++ rest -> line_fits q -> allowed check_methods q ->
  pos s = 0 -> zlen (request_line q) <= K ->
  exists s' l, check_method check_methods s = (Ok tt, s') /\ at_stream K T s' /\ 0 <= pos s' /\ (13 ∉ l) /\
    drop (Z.to_nat (pos s')) T = l ++ rest /\ pos s' + zlen l = zlen (request_line q).
Proof.
  intros Hs Hd (Hm & H32 & H20 & H13) Ha Hp HK. unfold check_method. case_bool_decide as Hc.
  { exists s, (request_line q). rewrite Hp. split_and!; [done|done|lia|done|by rewrite Hp in Hd|lia]. }
  destruct Ha as [?|(t & Et & El)]; [done|].
  assert (zlen (request_line q) = Z.of_nat (spaces q) + zlen (method q) + 1 + zlen (target q)) as Hl.
  { unfold request_line, zlen. rewrite !length_app, length_replicate. cbn. lia. }
  destruct (method q) as [|x m] eqn:Em; [done|]. pose proof (zlen_nonneg (target q)).
  assert (0 < zlen (x :: m)) as Hxm by (unfold zlen; cbn; lia).
  pose proof (as_wf _ _ _ Hs) as [_ Hps Hcs]. pose proof (as_room _ _ _ Hs) as Hr.
  assert (drop (Z.to_nat (pos s)) T = replicate (spaces q) 32 ++ x :: m ++ 32 :: target q ++ rest) as Hd'.
  { rewrite Hd. unfold request_line. by rewrite Em, <- !app_assoc. }
  destruct (skip_at K T (spaces q) x _ (Z.to_nat SLICE + 1) s Hs Hd') as (s1 & E1 & Hs1 & Hp1); [|lia|lia|].
  { intros ->. apply H32. by constructor. }
  step by exact E1.
  assert (drop (Z.to_nat (pos s1)) T = (x :: m) ++ 32 :: target q ++ rest) as Hd1.
  { rewrite Hp1, (drop_at T (pos s) (Z.of_nat (spaces q)) _ ltac:(lia) ltac:(lia) Hd'), Nat2Z.id.
    rewrite drop_app_length' by (by rewrite length_replicate). done. }
  destruct (find_space_at K T (x :: m) _ s1 Hs1 Hd1 H32 H20) as (s2 & E2 & Hs2 & Hp2 & Hc2); [lia|]. step by exact E2.
  destruct (peek_n_at K T (zlen (x :: m)) s2 Hs2) as (s3 & E3 & Hs3 & Hp3 & Hc3 & _); [lia|lia| |].
  { apply (f_equal length) in Hd1. rewrite length_drop, length_app in Hd1. unfold zlen in *. cbn [length] in *. lia. }
  step by exact E3. rewrite Hp2, Hd1. replace (take _ ((x :: m) ++ 32 :: target q ++ rest)) with (x :: m)
    by (unfold zlen; by rewrite Nat2Z.id, take_app_length).
  step by (unfold lift; rewrite Et; reflexivity). rewrite El.
  destruct (advance_at K T (zlen (x :: m)) s3 Hs3) as [E4 Hs4]; [lia|lia|].
  exists (set_pos (pos s3 + zlen (x :: m)) s3), (32 :: target q). split_and!; [done|done|cbn; lia|..].
  - intros Hin. apply H13. unfold request_line. rewrite Em, !elem_of_app. by right; right.
  - cbn [pos set_pos]. rewrite Hp3, Hp2, (drop_at T (pos s1) (zlen (x :: m)) _ ltac:(lia) ltac:(lia) Hd1).
    unfold zlen. by rewrite Nat2Z.id, drop_app_length.
  - cbn [pos set_pos]. assert (zlen (32 :: target q) = 1 + zlen (target q)) by (unfold zlen; cbn; lia). lia.
Qed.

(** A request up to its host line. *)
Definition request_bytes (q : RequestLine) (headers : list (list Z * list Z)) : list Z :=
  request_line q ++ [13; 10] ++ (headers ≫= header_line).

Lemma host_at check_methods q before h text K r rest :
  line_fits q -> allowed check_methods q ->
  Forall (fun x => line_ok x /\ names_host x false) before -> line_ok h -> names_host h true -> from_utf8 h.2 = Ok text ->
  ready K r -> zlen (request_bytes q (before ++ [h])) <= K < SLICE -> content r = request_bytes q (before ++ [h]) ++ rest ->
  exists r' j, do_read_host check_methods r = (Ok (trim text), r') /\ ready j r'.
Proof.
  intros Hq Hm Hb Hl Hh Ht Hr HK Hc. unfold request_bytes in *. rewrite bind_app, bind_cons in *.
  change ([] ≫= header_line) with (@nil Z) in *. rewrite app_nil_r in *.
  rewrite <- !app_assoc in *.
  rewrite zlen_app in HK. pose proof (zlen_nonneg (request_line q)).
  assert (forall l : list Z, zlen ([13; 10] ++ l) = 2 + zlen l) as Hcr by (intros l; unfold zlen; cbn; lia).
  rewrite Hcr in HK.
  pose proof (zlen_nonneg ((before ≫= header_line) ++ header_line h)) as Hnn.
  set (T := content r) in *.
  assert (at_stream K T (new r)) as Hat0.
  { split; [split; [by apply ready_good in Hr|done|done]|done|by rewrite Z.sub_0_r|change (cap (new r)) with 0; lia]. }
  destruct (method_at check_methods K T q _ (new r) Hat0 Hc Hq Hm eq_refl) as (s1 & l & E1 & Hs1 & Hp1 & H13 & Hd1 & Hz1); [lia|].
  destruct (find_lines_at K T l _ s1 Hs1 Hd1 H13) as (s2 & E2 & Hs2 & Hp2 & Hc2); [lia|].
  destruct (advance_at K T (zlen l + 2) s2 Hs2) as [E3 Hs3]; [pose proof (zlen_nonneg l); lia|lia|].
  destruct (headers_at K T before h text rest (Z.to_nat SLICE) (set_pos (pos s2 + (zlen l + 2)) s2) Hs3) as (s4 & E4 & Hs4);
    [|exact Hb|exact Hl|exact Hh|exact Ht| | |].
  - cbn [pos set_pos]. pose proof (zlen_nonneg l). rewrite Hp2, (drop_at T (pos s1) (zlen l + 2) _ ltac:(lia) ltac:(lia) Hd1).
    rewrite Z2Nat.inj_add by lia. rewrite <- drop_drop. unfold zlen. rewrite Nat2Z.id, drop_app_length. reflexivity.
  - cbn [pos set_pos]. lia.
  - assert (Z.of_nat (length before) <= zlen ((before ≫= header_line) ++ header_line h)) as Hlb.
    { rewrite zlen_app. pose proof (zlen_header_line h). clear. induction before as [|x before IH]; [unfold zlen in *; cbn in *; lia|].
      rewrite bind_cons, zlen_app. pose proof (zlen_header_line x). cbn [length]. lia. }
    unfold SLICE in *. lia.
  - exists (buf_reader s4), (K - cap s4). split; [|apply Hs4]. unfold do_read_host, read_head.
    erewrite stm_step by exact E1. erewrite stm_step by exact E2. cbv beta. erewrite stm_step by exact E3. by rewrite E4.
Qed.
End found.

(** ** The host of a request *)

Section host.
Context {I : Type} `{ReadLaws I}.

Lemma keeps_this_host check_methods : keeps same_window (do_read_host (R := BufReader I) check_methods).
Proof. apply keeps_host; [exact _|]. apply reader_keeps. Qed.

(** The host of a plain HTTP request is found, and no byte of the request
    is taken: for any request line whose method, where methods are configured,
    is one of those let through, any other header lines before the host line,
    and however the bytes arrive, [read_host] answers the trimmed value of the
    host line. *)
Theorem http_host_found check_methods q before h text k s rest :
  line_fits q -> allowed check_methods q ->
  Forall (fun x => line_ok x /\ names_host x false) before -> line_ok h -> names_host h true -> from_utf8 h.2 = Ok text ->
  roomy k s -> zlen (request_bytes q (before ++ [h])) <= k < SLICE -> content s = request_bytes q (before ++ [h]) ++ rest ->
  exists s', read_host check_methods s = (Ok (Some (trim text)), s') /\ roomy k s' /\ content s' = content s.
Proof.
  intros Hq Hm Hb Hl Hh Ht Hs Hk Hc. pose proof Hs as ((Hok & _) & _). destruct (start_ok s Hok) as (_ & _ & Hc1).
  destruct (host_at check_methods q before h text k (start s) rest) as (s1 & j & E & Hj); [done..|by apply roomy_start|done|by rewrite Hc1|].
  by eapply rolling_back_reads; [apply keeps_this_host|..].
Qed.

(** Looking for a host always ends, and leaves the reader where it was. *)
Lemma read_host_ends check_methods s :
  ok s -> match read_host check_methods s with
  | (Ok _, s') => idle s' /\ content s' = content s /\ BufReader.pos s' = BufReader.pos s /\ max_cap s' = max_cap s
  | _ => False
  end.
Proof.
  intros Hok. destruct (start_ok s Hok) as (Hok1 & _ & _).
  pose proof (rolling_back_keeps (do_read_host check_methods) s Hok (keeps_this_host check_methods)) as Hk.
  assert (good (start s)) as Hg by exact Hok1.
  destruct (do_read_host_returns check_methods (start s) Hg) as [Hp Hf].
  destruct (window_restored (do_read_host check_methods) s Hok (keeps_this_host check_methods)) as (s' & E & _).
  assert ((read_host check_methods s).1 <> Fuel /\ (read_host check_methods s).1 <> Panic) as [? ?].
  { unfold read_host, rolling_back. rewrite (stm_step (modify start) _ s tt (start s)) by done. unfold mbind, stm_bind, attempt.
    destruct (do_read_host check_methods (start s)) as [[a|e| |] s1]; cbn [fst snd] in *; rewrite ?E; done. }
  unfold read_host in *. by destruct (rolling_back (do_read_host check_methods) s) as [[o|e| |] s1].
Qed.
End host.

Definition demo_line : RequestLine := mkLine 1 (as_bytes "GET") (as_bytes "/index.html HTTP/1.1").
Definition demo_header (k v : string) : list Z * list Z := (as_bytes k, as_bytes v).
Definition demo_before : list (list Z * list Z) := [demo_header "Accept" " */*"; demo_header "X-Host" " other:1"].
Definition demo_request : list Z := request_bytes demo_line (demo_before ++ [demo_header "HOST" " www.example.cn:80 "]).

Lemma http_host_found_witness :
  exists s', read_host {["get" := true; "post" := true]} (with_capacity 512 (drips (demo_request ++ [13; 10]))) = (Ok (Some "www.example.cn:80"), s') /\
             content s' = demo_request ++ [13; 10].
Proof.
  destruct (drips_live (demo_request ++ [13; 10])) as [Hl Hc].
  destruct (http_host_found {["get" := true; "post" := true]} demo_line demo_before (demo_header "HOST" " www.example.cn:80 ")
              " www.example.cn:80 " 300 (with_capacity 512 (drips (demo_request ++ [13; 10]))) [13; 10]) as (s' & E & _ & Hc').
  - split_and!; [done| | |]; [by apply (bool_decide_unpack _); vm_compute|done|by apply (bool_decide_unpack _); vm_compute].
  - right. exists "GET". split; vm_compute; reflexivity.
  - repeat constructor; try (by apply (bool_decide_unpack _); vm_compute).
    + exists "Accept". split; vm_compute; reflexivity.
    + exists "X-Host". split; vm_compute; reflexivity.
  - repeat constructor; by apply (bool_decide_unpack _); vm_compute.
  - exists "HOST". split; vm_compute; reflexivity.
  - reflexivity.
  - apply roomy_new; [exact Hl|lia|lia].
  - vm_compute. split; congruence.
  - exact Hc.
  - exists s'. split; [rewrite E; reflexivity|]. rewrite Hc'. exact Hc.
Defined.
