(* ===== verification/DomainStream.v ===== *)
(** What a connection to a listener with domains is, found by trying one
    protocol after the other: [any-proxy/src/proxy/tunnel_stream.rs],
    [heartbeat_stream.rs], [domain_stream.rs] and [parse_proxy_domain] of
    [proxy/util.rs]. *)
From S2P Require Import Prelude RustStd Wire BufReader AnyproxyPack SslHello HttpHost DomainIndex.
From S2P Require Tunnel1Pack TunnelPack AddrUtil.
#[local] Open Scope string_scope.
#[local] Open Scope list_scope.
#[local] Open Scope Z_scope.

(** ** What the listener knows

    [C] is the configuration of a domain.  Socket addresses are names. *)
Record ServerArg (C : Type) := mkArg {
  is_tunnel : bool;
  tunnel_publish : bool;
  tunnel2_publish : bool;
  has_plugin : bool;
  server_domain : option string;
  local_addr : option Z;
  remote_addr : Z;
  session_id : Z;
  pid : Z;
  is_open : bool;
  check_methods : gmap string bool;
  domain_index : DomainIndex;
  domain_config_context_map : gmap Z C
}.
Arguments mkArg {C}.
Arguments is_tunnel {C}.
Arguments tunnel_publish {C}.
Arguments tunnel2_publish {C}.
Arguments has_plugin {C}.
Arguments server_domain {C}.
Arguments local_addr {C}.
Arguments remote_addr {C}.
Arguments session_id {C}.
Arguments pid {C}.
Arguments is_open {C}.
Arguments check_methods {C}.
Arguments domain_index {C}.
Arguments domain_config_context_map {C}.

(** ** What is found out: the fields of [StreamInfo] set here *)
Record StreamInfo (C : Type) := mkInfo {
  client_protocol_hello_size : Z;
  ssl_domain : option string;
  remote_domain : option string;
  local_domain : option string;
  client_ssl : bool;
  info_request_id : string;
  protocol_hello : option AnyproxyHello;
  scc : option C
}.
Arguments mkInfo {C}.
Arguments client_protocol_hello_size {C}.
Arguments ssl_domain {C}.
Arguments remote_domain {C}.
Arguments local_domain {C}.
Arguments client_ssl {C}.
Arguments info_request_id {C}.
Arguments protocol_hello {C}.
Arguments scc {C}.

Section setters.
Context {C : Type}.
Definition eta_info (i : StreamInfo C) : StreamInfo C :=
  mkInfo (client_protocol_hello_size i) (ssl_domain i) (remote_domain i) (local_domain i) (client_ssl i) (info_request_id i)
    (protocol_hello i) (scc i).
Definition set_hello_size : Z -> StreamInfo C -> StreamInfo C := ltac:(setter eta_info (@client_protocol_hello_size C)).
Definition set_ssl_domain : option string -> StreamInfo C -> StreamInfo C := ltac:(setter eta_info (@ssl_domain C)).
Definition set_remote_domain : option string -> StreamInfo C -> StreamInfo C := ltac:(setter eta_info (@remote_domain C)).
Definition set_local_domain : option string -> StreamInfo C -> StreamInfo C := ltac:(setter eta_info (@local_domain C)).
Definition set_client_ssl : bool -> StreamInfo C -> StreamInfo C := ltac:(setter eta_info (@client_ssl C)).
Definition set_request_id : string -> StreamInfo C -> StreamInfo C := ltac:(setter eta_info (@info_request_id C)).
Definition set_protocol_hello : option AnyproxyHello -> StreamInfo C -> StreamInfo C := ltac:(setter eta_info (@protocol_hello C)).
Definition set_scc : option C -> StreamInfo C -> StreamInfo C := ltac:(setter eta_info (@scc C)).
End setters.

(** What the connection turned out to be. *)
Inductive Recognized (C : Type) :=
  | Tunnel1 (h : Tunnel1Pack.TunnelHello)
  | Tunnel2 (h : TunnelPack.TunnelHello)
  | Heartbeats (h : AnyproxyHeartbeat)
  | Plugin
  | Proxied (c : C).
Arguments Tunnel1 {C}.
Arguments Tunnel2 {C}.
Arguments Heartbeats {C}.
Arguments Plugin {C}.
Arguments Proxied {C}.

Section stream.
Context {I : Type} `{AsyncRead I} `{AnyproxyToml} `{Tunnel1Pack.TunnelToml} `{TunnelPack.TunnelToml} `{Regex} {C : Type}.
Context (show_addr : Z -> string).
Abbreviation state := (BufReader I * StreamInfo C)%type.

Definition on_info (f : StreamInfo C -> StreamInfo C) : stm state unit := modify (fun '(s, i) => (s, f i)).

(** [TunnelStream::tunnel_stream]: a tunnel goes to its publisher, with every
    byte it sent. *)
Definition tunnel_stream (arg : ServerArg C) : stm (BufReader I) (option (Recognized C)) :=
  if is_tunnel arg then mret None
  else
    tunnel_hello ← read_tunnel_hello;
    match tunnel_hello with
    | Some h => if tunnel_publish arg then mret (Some (Tunnel1 h)) else fail "tunnel_publish nil"
    | None =>
        tunnel_hello ← read_tunnel2_hello;
        match tunnel_hello with
        | Some h => if tunnel2_publish arg then mret (Some (Tunnel2 h)) else fail "tunnel2_publish nil"
        | None => mret None
        end
    end.

(** [HeartbeatStream::heartbeat_stream] *)
Definition heartbeat_stream : stm (BufReader I) (option (Recognized C)) :=
  heartbeat ← read_heartbeat_rollback;
  match heartbeat with
  | None => mret None
  | Some h => mret (Some (Heartbeats h))
  end.

(** The domain of a connection without a hello: the server name of a TLS
    client, the host of a plain request, or the listener's own. *)
Definition domain_service (arg : ServerArg C) (fuel : nat) : stm state string :=
  domain ← on_fst (read_domain fuel);
  match domain with
  | Some domain => _ ← on_info (set_client_ssl true); mret domain
  | None =>
      domain ← if is_open arg then
                 host ← on_fst (read_host (check_methods arg));
                 match host with
                 | Some host => '(domain, _) ← lift (AddrUtil.host_and_port host); mret (Some domain)
                 | None => mret None
                 end
               else mret None;
      match domain with
      | Some domain => mret domain
      | None => lift (ok_or "err:domain null" (server_domain arg))
      end
  end.

(** [parse_proxy_domain] *)
Definition parse_proxy_domain (arg : ServerArg C) (fuel : nat) : stm state C :=
  hello ← on_fst read_hello;
  hello ← match hello with
          | Some (hello, hello_pack_size) =>
              _ ← on_info (set_hello_size hello_pack_size);
              _ ← on_info (set_ssl_domain (match server_domain arg with Some d => Some d | None => Some (domain hello) end));
              _ ← on_info (set_remote_domain (Some (domain hello)));
              _ ← on_info (set_local_domain (Some (domain hello)));
              '(id, _) ← lift (ok_or "request_id" (split_once "@" (request_id hello)));
              mret (mkHello (version hello) (id +:+ String "@" (show_u (session_id arg))) (client_addr hello) (domain hello))
          | None =>
              domain ← domain_service arg fuel;
              _ ← on_info (set_ssl_domain (match server_domain arg with Some d => Some d | None => Some domain end));
              _ ← on_info (set_ssl_domain (Some domain));
              _ ← on_info (set_remote_domain (Some domain));
              _ ← on_info (set_local_domain (Some domain));
              local ← lift (expect (local_addr arg));
              let id := show_u (session_id arg) +:+ String "_" (show_addr local +:+ String "_" (show_addr (remote_addr arg) +:+
                        String "_" (show_u (pid arg) +:+ String "@" (show_u (session_id arg))))) in
              mret (mkHello ANYPROXY_VERSION id (remote_addr arg) domain)
          end;
  _ ← on_info (set_request_id (request_id hello));
  _ ← on_info (set_protocol_hello (Some hello));
  i ← lift (index (domain_index arg) (domain hello));
  c ← lift (ok_or "err:domain_index nil" (domain_config_context_map arg !! i));
  _ ← on_info (set_scc (Some c));
  mret c.

(** [DomainStream::do_start], up to the configuration of the domain. *)
Definition do_start (arg : ServerArg C) (fuel : nat) : stm state (Recognized C) :=
  tunnel ← on_fst (tunnel_stream arg);
  match tunnel with
  | Some r => mret r
  | None =>
      heartbeat ← on_fst heartbeat_stream;
      match heartbeat with
      | Some r => mret r
      | None =>
          if has_plugin arg then mret Plugin
          else c ← parse_proxy_domain arg fuel; mret (Proxied c)
      end
  end.

(** What goes on to the upstream server: [client_buffer], and then what the
    client still sends. *)
Definition client_buffer (s : BufReader I) : outcome (list Z) :=
  let '(_, buf, pos, cap) := table_buffer_ext s in vslice buf pos cap.
End stream.

(** ** No byte is lost *)

Section keeps.
Context {I : Type} `{ReadLaws I} `{AnyproxyTomlLaws} `{Tunnel1Pack.TunnelToml} `{TunnelPack.TunnelToml} `{Regex} {C : Type}.
Context (show_addr : Z -> string).

Lemma on_fst_inv {S T A} (m : stm S A) (s : S) (t : T) a st :
  on_fst m (s, t) = (Ok a, st) -> exists s', m s = (Ok a, s') /\ st = (s', t).
Proof. unfold on_fst. destruct (m s) as [o s']. intros [= -> <-]. by exists s'. Qed.

(** A reader that was left where it was. *)
Definition untouched (s s' : BufReader I) : Prop := idle s' /\ content s' = content s.

Lemma untouched_trans s1 s2 s3 : untouched s1 s2 -> untouched s2 s3 -> untouched s1 s3.
Proof. intros [_ E12] [Hi E23]. split; [done|]. by rewrite E23. Qed.

Lemma rolled {A} (m : stm (BufReader I) A) s o s' :
  ok s -> keeps same_window m -> rolling_back m s = (Ok o, s') -> untouched s s'.
Proof. intros Hok Hm E. pose proof (rolling_back_keeps m s Hok Hm) as Hr. rewrite E in Hr. by destruct Hr as (? & ? & _). Qed.

Lemma keeps_tunnel1 : keeps same_window (Tunnel1Pack.read_tunnel_hello (R := BufReader I)).
Proof. apply keeps_bind; [exact _|apply Tunnel1Pack.keeps_pack1; [exact _|apply reader_keeps]|]. keep. Qed.
Lemma keeps_tunnel2 : keeps same_window (TunnelPack.read_tunnel_hello (R := BufReader I)).
Proof. apply keeps_bind; [exact _|apply TunnelPack.keeps_pack2; [exact _|apply reader_keeps]|]. keep. Qed.

Lemma tunnel_untouched (arg : ServerArg C) s o s' :
  ok s -> tunnel_stream arg s = (Ok o, s') -> ok s' /\ content s' = content s /\
    match o with Some (Tunnel1 _) | Some (Tunnel2 _) | None => True | _ => False end.
Proof.
  intros Hok E. unfold tunnel_stream in E. destruct (is_tunnel arg); [by injection E as <- <-|].
  apply stm_bind_ok in E as (h & s1 & E1 & E). unfold read_tunnel_hello in E1. steps_in E1.
  pose proof (rolled _ _ _ _ Hok keeps_tunnel1 Es) as [[Hok0 _] Hc0].
  assert (s1 = s0) as -> by (destruct a as [x|]; [destruct (String.eqb (Tunnel1Pack.version x) _)|]; by injection E1 as _ <-).
  destruct h as [h|]; [by destruct (tunnel_publish arg); [injection E as <- <-|discriminate E]|].
  apply stm_bind_ok in E as (h & s1 & E2 & E). unfold read_tunnel2_hello in E2. steps_in E2.
  pose proof (rolled _ _ _ _ Hok0 keeps_tunnel2 Es0) as [[Hok2 _] Hc2].
  assert (s1 = s2) as -> by (destruct a0 as [x|]; [destruct (String.eqb (TunnelPack.version x) _)|]; by injection E2 as _ <-).
  destruct h as [h|]; [destruct (tunnel2_publish arg); [|discriminate E]|]; injection E as <- <-; split_and!; try done; congruence.
Qed.

Lemma heartbeat_taken s o s' :
  ok s -> heartbeat_stream (C := C) s = (Ok o, s') -> idle s' /\ exists d, content s = d ++ content s' /\
    match o with Some (Heartbeats _) => True | None => d = [] | _ => False end.
Proof.
  intros Hok E. unfold heartbeat_stream in E. apply stm_bind_ok in E as (h & s1 & E1 & E).
  unfold read_heartbeat_rollback in E1. apply stm_bind_ok in E1 as (p & s2 & E2 & E1).
  pose proof (read_pack_rollback_spec (Some THeartbeat) s Hok) as Hp. rewrite E2 in Hp. destruct p as [[p n]|].
  - destruct Hp as (Hi & d & Hd & _). destruct p as [v|v|v]; [discriminate E1| |discriminate E1].
    injection E1 as <- <-. injection E as <- <-. split; [done|]. by exists d.
  - destruct Hp as (Hi & Hc & _). injection E1 as <- <-. injection E as <- <-. split; [done|]. exists []. by rewrite Hc.
Qed.

Lemma hello_taken s o s' :
  ok s -> read_hello s = (Ok o, s') -> idle s' /\ exists d, content s = d ++ content s' /\
    match o with Some (_, n) => n = zlen d | None => d = [] end.
Proof.
  intros Hok E. unfold read_hello in E. apply stm_bind_ok in E as (p & s1 & E1 & E).
  pose proof (read_pack_rollback_spec (Some THello) s Hok) as Hp. rewrite E1 in Hp. destruct p as [[p n]|].
  - destruct Hp as (Hi & d & Hd & Hn). destruct p as [v|v|v]; [|discriminate E..].
    injection E as <- <-. split; [done|]. by exists d.
  - destruct Hp as (Hi & Hc & _). injection E as <- <-. split; [done|]. exists []. by rewrite Hc.
Qed.

Lemma domain_untouched (arg : ServerArg C) fuel s i d s' i' :
  idle s -> domain_service arg fuel (s, i) = (Ok d, (s', i')) -> untouched s s' /\ client_protocol_hello_size i' = client_protocol_hello_size i.
Proof.
  intros [Hok Hr] E. unfold domain_service in E. apply stm_bind_ok in E as (o & st & E1 & E).
  apply on_fst_inv in E1 as (s1 & E1 & ->). pose proof (rolled _ _ _ _ Hok (keeps_this_domain fuel) E1) as Hu.
  destruct o as [o|]; [by injection E as _ <- <-|].
  apply stm_bind_ok in E as (o & [s2 i2] & E2 & E).
  assert (s' = s2 /\ i' = i2) as [-> ->] by (destruct o; [by injection E as _ <- <-|unfold lift, ok_or in E; destruct (server_domain arg); by injection E as _ <- <-]).
  destruct (is_open arg); [|by injection E2 as _ <- <-].
  apply stm_bind_ok in E2 as (h & st & E3 & E2). apply on_fst_inv in E3 as (s3 & E3 & ->). destruct Hu as [[Hok1 Hr1] Hc1].
  pose proof (rolled _ _ _ _ Hok1 (keeps_this_host _) E3) as Hu3.
  assert (s2 = s3 /\ i2 = i) as [-> ->].
  { destruct h as [h|]; [|by injection E2 as _ <- <-]. apply stm_bind_ok in E2 as ([x y] & st & E4 & E2).
    unfold lift in E4. injection E4 as _ <-. by injection E2 as _ <- <-. }
  split; [|done]. by eapply untouched_trans.
Qed.

Lemma parse_takes (arg : ServerArg C) fuel s i c s' i' :
  idle s -> client_protocol_hello_size i = 0 -> parse_proxy_domain show_addr arg fuel (s, i) = (Ok c, (s', i')) ->
  idle s' /\ exists d, content s = d ++ content s' /\ zlen d = client_protocol_hello_size i'.
Proof.
  intros Hi Hz E. unfold parse_proxy_domain in E. apply stm_bind_ok in E as (o & st & E1 & E).
  apply on_fst_inv in E1 as (s1 & E1 & ->). destruct (hello_taken s o s1 (proj1 Hi) E1) as (Hi1 & d & Hd & Ho).
  apply stm_bind_ok in E as (h & [s2 i2] & E2 & E).
  assert (s' = s2 /\ client_protocol_hello_size i' = client_protocol_hello_size i2) as [-> ->].
  { unfold on_info in E. steps_in E. by injection E as _ <- <-. }
  destruct o as [[hello n]|]; unfold on_info in E2.
  - subst n. steps_in E2. destruct a as [x y]. injection E2 as _ <- <-. split; [done|]. by exists d.
  - subst d. apply stm_bind_ok in E2 as (dm & [s3 i3] & E3 & E2).
    destruct (domain_untouched arg fuel s1 i dm s3 i3 Hi1 E3) as ([Hi3 Hc3] & Hz3).
    steps_in E2. injection E2 as _ <- <-. split; [done|]. exists []. split; [by rewrite Hd, Hc3|]. change (0 = client_protocol_hello_size i3). by rewrite Hz3.
Qed.

(** C28. Finding out what a connection is loses no byte of it.  Whatever the
    client sends, and however its bytes arrive: a tunnel or a plugin gets the
    connection from its first byte; for a stream that is proxied, the bytes
    that go on to the upstream server, those in the buffer and then those still
    to come, are what the client sent without the proxy's own hello, whose size
    was noted; without a hello they are all of it. *)
Theorem recognition_loses_nothing (arg : ServerArg C) fuel s i r s' i' :
  ok s -> client_protocol_hello_size i = 0 ->
  do_start show_addr arg fuel (s, i) = (Ok r, (s', i')) ->
  exists d b, client_buffer s' = Ok b /\ content s = d ++ b ++ content (inner s') /\
    match r with
    | Tunnel1 _ | Tunnel2 _ | Plugin => d = []
    | Heartbeats _ => True
    | Proxied _ => zlen d = client_protocol_hello_size i'
    end.
Proof.
  intros Hok Hz E.
  assert (forall s0 : BufReader I, ok s0 -> exists b, client_buffer s0 = Ok b /\ content s0 = b ++ content (inner s0)) as Hbuf.
  { intros s0 [[] Hg]. unfold client_buffer, table_buffer_ext. rewrite vslice_ok by lia. by eexists. }
  unfold do_start in E. apply stm_bind_ok in E as (t & st & E1 & E). apply on_fst_inv in E1 as (s1 & E1 & ->).
  destruct (tunnel_untouched arg s t s1 Hok E1) as (Hok1 & Hc1 & Ht). destruct t as [t|].
  { injection E as <- <- <-. destruct (Hbuf s1 Hok1) as (b & Eb & Hb). exists [], b. split; [done|]. split; [by rewrite <- Hc1|by destruct t]. }
  apply stm_bind_ok in E as (t & st & E2 & E). apply on_fst_inv in E2 as (s2 & E2 & ->).
  destruct (heartbeat_taken s1 t s2 Hok1 E2) as (Hi2 & d & Hd & Hh). destruct (Hbuf s2 (proj1 Hi2)) as (b & Eb & Hb). destruct t as [t|].
  { injection E as <- <- <-. exists d, b. split; [done|]. split; [by rewrite <- Hc1, Hd, Hb|by destruct t]. }
  subst d. destruct (has_plugin arg).
  { injection E as <- <- <-. exists [], b. split; [done|]. split; [by rewrite <- Hc1, Hd, Hb|done]. }
  apply stm_bind_ok in E as (c & [s3 i3] & E3 & E). injection E as <- <- <-.
  destruct (parse_takes arg fuel s2 i c s3 i3 Hi2 Hz E3) as (Hi3 & d & Hd3 & Hs3).
  destruct (Hbuf s3 (proj1 Hi3)) as (b3 & Eb3 & Hb3). exists d, b3. split; [done|]. split; [|done].
  by rewrite <- Hc1, Hd, Hd3, Hb3.
Qed.

(** ** Connections that name their domain *)

(** No try before the server name takes a connection that does not begin with
    the dollar sign of the flags. *)
Lemma tries_pass (arg : ServerArg C) k s x rest :
  roomy k s -> 20 <= k -> content s = x :: rest -> x <> dollar ->
  exists s1 s2, tunnel_stream arg s = (Ok None, s1) /\ heartbeat_stream (C := C) s1 = (Ok None, s2) /\
    exists s3, read_hello s2 = (Ok None, s3) /\ roomy k s3 /\ content s3 = content s.
Proof.
  intros Hs Hk Hc Hx.
  assert (exists s1, tunnel_stream arg s = (Ok None, s1) /\ roomy k s1 /\ content s1 = content s) as (s1 & E1 & Hs1 & Hc1).
  { unfold tunnel_stream. destruct (is_tunnel arg); [by exists s|].
    destruct (tunnel1_other k s x rest Hs Hk Hc Hx) as (sa & Ea & Hsa & Hca).
    destruct (tunnel2_other k sa x rest Hsa Hk ltac:(by rewrite Hca) Hx) as (sb & Eb & Hsb & Hcb).
    exists sb. split; [|split; [done|congruence]]. step by exact Ea. by step by exact Eb. }
  destruct (anyproxy_other (Some THeartbeat) k s1 x rest Hs1 Hk ltac:(by rewrite Hc1) Hx) as (s2 & E2 & Hs2 & Hc2).
  destruct (anyproxy_other (Some THello) k s2 x rest Hs2 Hk ltac:(by rewrite Hc2, Hc1) Hx) as (s3 & E3 & Hs3 & Hc3).
  exists s1, s2. split; [done|]. split.
  { unfold heartbeat_stream. rewrite (stm_step _ _ s1 None s2); [done|]. unfold read_heartbeat_rollback. by step by exact E2. }
  exists s3. split; [unfold read_hello; by step by exact E3|]. split; [done|congruence].
Qed.

(** The domain that was found is the one that is configured. *)
Lemma routed (arg : ServerArg C) fuel k s i x rest d i1 n c la :
  roomy k s -> 20 <= k -> content s = x :: rest -> x <> dollar -> has_plugin arg = false -> local_addr arg = Some la ->
  index (domain_index arg) d = Ok n -> domain_config_context_map arg !! n = Some c ->
  (forall s0, roomy k s0 -> content s0 = content s ->
     exists s1, domain_service arg fuel (s0, i) = (Ok d, (s1, i1)) /\ idle s1 /\ content s1 = content s) ->
  exists s' i', do_start show_addr arg fuel (s, i) = (Ok (Proxied c), (s', i')) /\ idle s' /\ content s' = content s /\
    scc i' = Some c /\ ssl_domain i' = Some d /\ remote_domain i' = Some d /\ client_ssl i' = client_ssl i1.
Proof.
  intros Hs Hk Hc Hx Hp Hla Hn Hm Hd. destruct (tries_pass arg k s x rest Hs Hk Hc Hx) as (sa & sb & Ea & Eb & sc & Ec & Hsc & Hcc).
  destruct (Hd sc Hsc Hcc) as (s' & E & Hi & Hc').
  assert (exists i', parse_proxy_domain show_addr arg fuel (sb, i) = (Ok c, (s', i')) /\ scc i' = Some c /\ ssl_domain i' = Some d /\
    remote_domain i' = Some d /\ client_ssl i' = client_ssl i1) as (i' & Ep & Hi').
  { unfold parse_proxy_domain, mbind, stm_bind. rewrite (on_fst_ok _ _ i _ _ Ec), E. unfold on_info, modify, lift. rewrite Hla.
    cbn [expect mret stm_ret domain]. rewrite Hn, Hm. cbn [ok_or]. eexists. split; [reflexivity|done]. }
  exists s', i'. split; [|done]. unfold do_start, mbind, stm_bind.
  by rewrite (on_fst_ok _ _ i _ _ Ea), (on_fst_ok _ _ i _ _ Eb), Hp, Ep.
Qed.

(** C29. A TLS connection goes to the domain its client names: for any hello
    within the bounds of the buffers, the server behind the index entry of the
    server name is chosen, and the whole hello is still there for it. *)
Theorem tls_connection_routed (arg : ServerArg C) fuel h before names name nafter after k s i rest n c la :
  SslHello.hello_fits h -> extensions h = before ++ (0, server_names (names ++ (0, name) :: nafter)) :: after ->
  Forall entry_fits before -> Forall entry_fits names -> 0 < zlen name <= 4096 ->
  (length before + length names + 1 < fuel)%nat ->
  roomy k s -> zlen (SslHello.hello_bytes h) <= k -> 20 <= k -> content s = SslHello.hello_bytes h ++ rest ->
  has_plugin arg = false -> local_addr arg = Some la ->
  index (domain_index arg) (from_utf8_lossy name) = Ok n -> domain_config_context_map arg !! n = Some c ->
  exists s' i', do_start show_addr arg fuel (s, i) = (Ok (Proxied c), (s', i')) /\ idle s' /\ content s' = content s /\
    scc i' = Some c /\ ssl_domain i' = Some (from_utf8_lossy name) /\ client_ssl i' = true.
Proof.
  intros Hh He Hb Hn Hl Hf Hs Hk H20 Hc Hp Hla Hi Hm.
  assert (exists x, content s = 22 :: x) as [x Hx] by (rewrite Hc; by eexists).
  destruct (routed arg fuel k s i 22 x (from_utf8_lossy name) (set_client_ssl true i) n c la) as (s' & i' & E & H1' & H2' & H3' & H4' & _ & H5');
    try done.
  - intros s0 Hs0 Hc0. destruct (name_found fuel h before names name nafter after k s0 rest) as (s1 & E & Hs1 & Hc1); [done..|congruence|].
    exists s1. split; [|split; [apply Hs1|congruence]]. unfold domain_service.
    rewrite (stm_step _ _ (s0, i) (Some (from_utf8_lossy name)) (s1, i)) by (by apply on_fst_ok). cbv iota. by step.
  - exists s', i'. by rewrite H5'.
Qed.

(** A plain HTTP connection goes to the host it names, where the listener
    looks for it: the first host line decides, without its port, and the whole
    request is still there for the server. *)
Theorem http_connection_routed (arg : ServerArg C) fuel q before h text host port k s i rest n c la :
  line_fits q -> allowed (check_methods arg) q ->
  Forall (fun x => line_ok x /\ names_host x false) before -> line_ok h -> names_host h true -> from_utf8 h.2 = Ok text ->
  AddrUtil.host_and_port (trim text) = Ok (host, port) ->
  (forall x l, request_bytes q (before ++ [h]) = x :: l -> x <> dollar /\ x <> 22) ->
  roomy k s -> zlen (request_bytes q (before ++ [h])) <= k < SLICE -> 20 <= k -> content s = request_bytes q (before ++ [h]) ++ rest ->
  (0 < fuel)%nat -> is_open arg = true -> has_plugin arg = false -> local_addr arg = Some la ->
  index (domain_index arg) host = Ok n -> domain_config_context_map arg !! n = Some c ->
  exists s' i', do_start show_addr arg fuel (s, i) = (Ok (Proxied c), (s', i')) /\ idle s' /\ content s' = content s /\
    scc i' = Some c /\ remote_domain i' = Some host /\ client_ssl i' = client_ssl i.
Proof.
  intros Hq Ha Hb Hl Hh Ht Hhp Hfirst Hs Hk H20 Hc Hf Ho Hp Hla Hi Hm.
  destruct (request_bytes q (before ++ [h])) as [|x l] eqn:Eq.
  { unfold request_bytes, request_line in Eq. by destruct (replicate (spaces q) 32), (method q). }
  destruct (Hfirst x l eq_refl) as [Hx1 Hx2]. rewrite <- Eq in *.
  assert (content s = x :: l ++ rest) as Hx by (by rewrite Hc, Eq).
  destruct (routed arg fuel k s i x (l ++ rest) host i n c la) as (s' & i' & E & H1' & H2' & H3' & _ & H4' & H5'); [done..| |by exists s', i'].
  intros s0 Hs0 Hc0.
  destruct (no_hello fuel k s0 x (l ++ rest)) as (s1 & E1 & Hs1 & Hc1); [done|lia|congruence|done|done|].
  destruct (http_host_found (check_methods arg) q before h text k s1 rest) as (s2 & E2 & Hs2 & Hc2); [done..|congruence|].
  exists s2. split; [|split; [apply Hs2|congruence]]. unfold domain_service.
  rewrite (stm_step _ _ (s0, i) None (s1, i)) by (by apply on_fst_ok). cbv iota. rewrite Ho.
  unfold mbind, stm_bind. rewrite (on_fst_ok _ _ i _ _ E2). unfold lift. by rewrite Hhp.
Qed.
End keeps.

(** ** A concrete listener *)

Definition plain_regex : Regex := {| regex_ok _ := true; captures _ _ := false |}.
Definition no_toml (T : Type) : Toml T := {| to_vec _ := Err "toml"; from_slice _ := Err "toml" |}.
Definition no_tunnel1_toml : Tunnel1Pack.TunnelToml := {|
  Tunnel1Pack.toml_header := no_toml _; Tunnel1Pack.toml_hello := no_toml _; Tunnel1Pack.toml_hello_ack := no_toml _;
  Tunnel1Pack.toml_data_header := no_toml _; Tunnel1Pack.toml_add := no_toml _; Tunnel1Pack.toml_max := no_toml _;
  Tunnel1Pack.toml_close := no_toml _
|}.

Definition demo_index : DomainIndex := mkIndex {["www.example.cn" := 3; "a.cn" := 4]} ∅ None.
Definition demo_arg : ServerArg Z :=
  mkArg false true true false None (Some 1) 2 77 1000 true ∅ demo_index {[3 := 30; 4 := 40]}.
Definition demo_info : StreamInfo Z := mkInfo 0 None None None false "" None None.

Lemma tls_connection_routed_witness :
  let _ := code_anyproxy_toml in let _ := no_tunnel1_toml in let _ := TunnelPack.code_tunnel_toml in let _ := plain_regex in
  exists s' i', do_start (C := Z) show_u demo_arg 8 (with_capacity 512 (drips (hello_bytes demo_named ++ [99])), demo_info) = (Ok (Proxied 30), (s', i')) /\
    content s' = hello_bytes demo_named ++ [99] /\ ssl_domain i' = Some "www.example.cn".
Proof.
  intros t1 t2 t3 rx. destruct (drips_live (hello_bytes demo_named ++ [99])) as [Hl Hc].
  destruct (@tls_connection_routed Conn conn_read conn_laws t1 t2 t3 rx Z show_u demo_arg 8 demo_named
              [(10, [0; 2; 0; 29])] [(1, [9; 9])] (as_bytes "www.example.cn") [] [(16, [])] 200
              (with_capacity 512 (drips (hello_bytes demo_named ++ [99]))) demo_info [99] 3 30 1) as (s' & i' & E & _ & Hc' & _ & Hd & _).
  - repeat split; vm_compute; congruence.
  - reflexivity.
  - repeat constructor; vm_compute; congruence.
  - repeat constructor; vm_compute; congruence.
  - vm_compute. split; congruence.
  - vm_compute. lia.
  - apply roomy_new; [exact Hl|lia|lia].
  - vm_compute. congruence.
  - lia.
  - exact Hc.
  - reflexivity.
  - reflexivity.
  - reflexivity.
  - reflexivity.
  - exists s', i'. split; [exact E|]. split; [rewrite Hc'; exact Hc|rewrite Hd; reflexivity].
Defined.

Lemma http_connection_routed_witness :
  let _ := code_anyproxy_toml in let _ := no_tunnel1_toml in let _ := TunnelPack.code_tunnel_toml in let _ := plain_regex in
  exists s' i', do_start (C := Z) show_u demo_arg 8 (with_capacity 512 (drips (demo_request ++ [13; 10])), demo_info) = (Ok (Proxied 30), (s', i')) /\
    content s' = demo_request ++ [13; 10] /\ remote_domain i' = Some "www.example.cn".
Proof.
  intros t1 t2 t3 rx. destruct (drips_live (demo_request ++ [13; 10])) as [Hl Hc].
  destruct (@http_connection_routed Conn conn_read conn_laws t1 t2 t3 rx Z show_u demo_arg 8 demo_line
              demo_before (demo_header "HOST" " www.example.cn:80 ") " www.example.cn:80 " "www.example.cn" "80" 300
              (with_capacity 512 (drips (demo_request ++ [13; 10]))) demo_info [13; 10] 3 30 1) as (s' & i' & E & _ & Hc' & _ & Hd & _).
  - split_and!; [done| | |]; [by apply (bool_decide_unpack _); vm_compute|done|by apply (bool_decide_unpack _); vm_compute].
  - by left.
  - repeat constructor; try (by apply (bool_decide_unpack _); vm_compute).
    + exists "Accept". split; vm_compute; reflexivity.
    + exists "X-Host". split; vm_compute; reflexivity.
  - repeat constructor; by apply (bool_decide_unpack _); vm_compute.
  - exists "HOST". split; vm_compute; reflexivity.
  - reflexivity.
  - reflexivity.
  - intros x l E. vm_compute in E. injection E as <- _. split; vm_compute; congruence.
  - apply roomy_new; [exact Hl|lia|lia].
  - vm_compute. split; congruence.
  - lia.
  - exact Hc.
  - lia.
  - reflexivity.
  - reflexivity.
  - reflexivity.
  - reflexivity.
  - reflexivity.
  - exists s', i'. split; [exact E|]. split; [rewrite Hc'; exact Hc|exact Hd].
Defined.

(** A hello, and then what it was sent for. *)
Definition demo_hello_bytes : list Z :=
  match @pack_to_vec code_anyproxy_toml _ (@toml_hello code_anyproxy_toml) THello demo_anyproxy_hello with Ok b => b | _ => [] end.

Lemma recognition_loses_nothing_witness :
  let _ := code_anyproxy_toml in let _ := no_tunnel1_toml in let _ := TunnelPack.code_tunnel_toml in let _ := plain_regex in
  exists s' i' b, do_start (C := Z) show_u demo_arg 8 (with_capacity 1024 (drips demo_hello_bytes ++ [Wire.Bytes [1; 2]; Wait; Wire.Bytes [3]]), demo_info) =
      (Ok (Proxied 40), (s', i')) /\ client_buffer s' = Ok b /\ b ++ content (inner s') = [1; 2; 3].
Proof.
  intros t1 t2 t3 rx.
  set (s := with_capacity 1024 (drips demo_hello_bytes ++ [Wire.Bytes [1; 2]; Wait; Wire.Bytes [3]])).
  assert (let r := do_start (C := Z) show_u demo_arg 8 (s, demo_info) in
    (r.1, client_protocol_hello_size r.2.2) = (Ok (Proxied 40), zlen demo_hello_bytes)) as Hr by (vm_compute; reflexivity).
  destruct (do_start (C := Z) show_u demo_arg 8 (s, demo_info)) as [o [s' i']] eqn:E. injection Hr as -> Hz.
  assert (good (drips demo_hello_bytes ++ [Wire.Bytes [1; 2]; Wait; Wire.Bytes [3]])) as Hg by done.
  destruct (new_ok 1024 (drips demo_hello_bytes ++ [Wire.Bytes [1; 2]; Wait; Wire.Bytes [3]]) Hg) as [Hok Hc]; [lia|].
  destruct (@recognition_loses_nothing Conn conn_read conn_laws t1 code_anyproxy_laws t2 t3 rx Z show_u demo_arg 8 s demo_info
              (Proxied 40) s' i' Hok eq_refl E) as (d & b & Eb & Hd & Hzd).
  exists s', i', b. split; [exact eq_refl|]. split; [exact Eb|].
  assert (content s = demo_hello_bytes ++ [1; 2; 3]) as Hs by (unfold s; rewrite Hc; vm_compute; reflexivity).
  apply (eq_trans (eq_sym Hs)), app_inj_1 in Hd as [_ Hd]; [exact (eq_sym Hd)|]. rewrite Hz in Hzd. unfold zlen in Hzd. lia.
Defined.
