(* ===== verification/CacheFile.v ===== *)
(** The file of a cached answer: what [ProxyCacheFileNode::create_file] writes
    and [ProxyCache::load_cache_file_head] and
    [ProxyCacheFileNode::from_file] read
    ([any-proxy/src/proxy/http_proxy/http_cache_file_node.rs],
    [http_cache_file.rs]), with [bytes_index] and [bytes_split] of
    [any-base/src/util.rs] and [http_parse] of [http_header_parse.rs]. *)
From S2P Require Import Prelude RustStd Bitmap FileCache HttpLib HttpHeader.
From S2P Require HttpCtx.
#[local] Open Scope string_scope.
#[local] Open Scope list_scope.
#[local] Open Scope Z_scope.

(** ** Runs of bytes *)

(** [a == b] on bytes. *)
Fixpoint bytes_eq (a b : list Z) : bool :=
  match a, b with
  | [], [] => true
  | x :: a, y :: b => (x =? y) && bytes_eq a b
  | _, _ => false
  end.

Fixpoint has_prefix (p l : list Z) : bool :=
  match p, l with
  | [], _ => true
  | x :: p, y :: l => (x =? y) && has_prefix p l
  | _, [] => false
  end.

(** The first window of [data] that is [pattern]. *)
Fixpoint bytes_index (data pattern : list Z) : option nat :=
  if has_prefix pattern data then Some 0%nat
  else match data with [] => None | _ :: data => S <$> bytes_index data pattern end.

Fixpoint split_loop (fuel : nat) (data pattern : list Z) : outcome (list (list Z)) :=
  match fuel with
  | O => Fuel
  | S fuel =>
      match bytes_index data pattern with
      | Some pos => rest ← split_loop fuel (drop (pos + length pattern) data) pattern; Ok (take pos data :: rest)
      | None => Ok (if 0 <? zlen data then [data] else [])
      end
  end.

Definition bytes_split (data pattern : list Z) : outcome (list (list Z)) := split_loop (S (length data)) data pattern.

Definition bytes_split_once (data pattern : list Z) : option (list Z * list Z) :=
  index ← bytes_index data pattern; Some (take index data, drop (index + length pattern) data).

(** [x.to_be_bytes()] of a [u64], and of an [i64] by its two's complement. *)
Definition to_be_bytes (x : Z) : list Z := (fun k => Z.shiftr (wrap64 x) (8 * k) mod 256) <$> [7; 6; 5; 4; 3; 2; 1; 0].

Definition from_be_bytes (l : list Z) : Z := foldl (fun a b => 256 * a + b) 0 l.

(** ** Files *)

Record File := mkFile { bytes : file; file_len : Z }.

Definition write_at (data : list Z) (off : Z) (f : File) : File :=
  mkFile (write_all_at data off (bytes f)) (Z.max (file_len f) (off + zlen data)).

Definition read_at (n : Z) (off : Z) (f : File) : list Z := (fun i => bytes f (off + i)) <$> seqZ 0 n.

(** ** The http crates, as far as heads of answers are read

    [httparse] is [parse_response_with_uninit_headers], for at most
    [MAX_HEADERS] headers: the length of the head, the code, the minor version
    and the headers.  [header_name] is [HeaderName::from_bytes], [hv_raw] is
    [HeaderValue::from_maybe_shared_unchecked], [happend] is
    [HeaderMap::append]. *)
Inductive ParseStatus :=
  | Complete (len code version : Z) (headers : list (list Z * list Z))
  | Partial
  | ParseError.

Class HttpParse `{HttpCrate} := {
  Uri : Type;
  uri_string : Uri -> string;
  uri_try_from : list Z -> outcome Uri;
  method_str : Method -> string;
  method_from_bytes : list Z -> outcome Method;
  httparse : list Z -> ParseStatus;
  header_name : list Z -> option string;
  hv_raw : list Z -> HeaderValue;
  happend : string -> HeaderValue -> HeaderMap -> HeaderMap;
  hempty : HeaderMap
}.

Definition CACHE_FILE_KEY : string := "@#anypryx#@:%&#@" +:+ crlf.
Definition CACHE_FILE_SLISE : Z := 1024 * 1024.
Definition CRLF : list Z := [13; 10].

Inductive CacheFileStatus := Expire | Exist.

Record ProxyCacheFileInfo := mkCacheInfo {
  directio : Z;
  cache_file_slice : Z;
  md5 : list Z;
  md5_str : list Z;
  crc32 : Z;
  proxy_cache_path : string;
  proxy_cache_path_tmp : string;
  trie_url : string
}.

Section node.
Context `{HttpParse}.

Record ProxyCacheFileNodeHead := mkNodeHead {
  head_md5 : list Z;
  head_md5_str : list Z;
  head_path : string;
  head_path_tmp : string;
  head_uri : Uri;
  head_method : Method;
  head_raw_length : Z;
  head_trie_url : string;
  head_directio : Z;
  head_slice : Z;
  head_expires_time : Z;
  head_control_time : Z;
  is_delay_del : bool
}.

Record Response := mkResponse { response_version : Version; response_status : Z; response_headers : HeaderMap }.

(** The node with its [fix] and [ctx_thread]; [buf_seek] and [buf_size] are its
    [buf_file]. *)
Record ProxyCacheFileNode := mkFileNode {
  cache_file_status : CacheFileStatus;
  cache_file_node_version : Z;
  node_bitmap : BitMap;
  response : Response;
  file_head_size : Z;
  http_head_size : Z;
  bitmap_start : Z;
  body_start : Z;
  buf_seek : Z;
  buf_size : Z;
  response_info : HttpCtx.HttpResponseInfo;
  http_head : list Z;
  node_head : ProxyCacheFileNodeHead
}.

(** ** Writing *)

Definition head_line (key : string) (value : list Z) : list Z := as_bytes key ++ 58 :: value ++ CRLF.

Definition time_lines (cache_control_time expires_time : Z) : list Z :=
  head_line "cache_control_time" (to_be_bytes cache_control_time) ++ head_line "expires_time" (to_be_bytes expires_time).

Definition get_file_head_time_str (cache_control_time expires_time : Z) : list Z :=
  as_bytes CACHE_FILE_KEY ++ time_lines cache_control_time expires_time.

(** The lines after the times, to the empty one. *)
Definition other_lines (client_method : Method) (client_uri : Uri) (ci : ProxyCacheFileInfo) (info : HttpCtx.HttpResponseInfo) : list Z :=
  head_line "expires_time_first" (as_bytes (show_u (HttpCtx.expires_time info))) ++
  head_line "client_uri" (as_bytes (uri_string client_uri)) ++
  head_line "proxy_cache_path" (as_bytes (proxy_cache_path ci)) ++
  head_line "proxy_cache_path_tmp" (as_bytes (proxy_cache_path_tmp ci)) ++
  head_line "md5" (md5 ci) ++
  head_line "md5_str" (md5_str ci) ++
  head_line "client_method" (as_bytes (method_str client_method)) ++
  head_line "crc32" (as_bytes (show_u (crc32 ci))) ++
  head_line "last_modified_time" (as_bytes (show_u (HttpCtx.last_modified_time info))) ++
  head_line "last_modified" (as_bytes (hv_bytes (HttpCtx.info_last_modified info))) ++
  head_line "e_tag" (as_bytes (hv_bytes (HttpCtx.info_e_tag info))) ++
  head_line "raw_content_length" (as_bytes (show_u (raw_content_length (HttpCtx.info_range info)))) ++
  head_line "directio" (as_bytes (show_u (directio ci))) ++
  head_line "trie_url" (as_bytes (trie_url ci)) ++ CRLF.

(** The body is put on a new page, unless it fits on the page of the head. *)
Definition place_body (head_size http_size bitmap_bytes raw : Z) : Z :=
  let body_start := wrap64 (wrap64 (wrap64 (head_size + http_size) + bitmap_bytes) + 8) in
  let page := 4096 in
  let align_body_start := body_start mod page in
  if (0 <? align_body_start) && (page <? wrap64 (align_body_start + raw))
  then wrap64 ((body_start / page + 1) * page) else body_start.

(** [Vec::resize] with zeros. *)
Definition resize_zeros (n : Z) (l : list Z) : list Z :=
  take (Z.to_nat n) l ++ replicate (Z.to_nat (n - zlen l)) 0.

(** [create_file], where the file can be opened: the node and what is in the
    file. *)
Definition create_file (client_method : Method) (client_uri : Uri) (ci : ProxyCacheFileInfo) (info : HttpCtx.HttpResponseInfo)
    (info_head : option (list Z)) (r : Response) (version : Z) : outcome (ProxyCacheFileNode * File) :=
  let raw := raw_content_length (HttpCtx.info_range info) in
  bm ← from_slice raw (cache_file_slice ci);
  let bitmap_bytes := zlen (bitset bm) in
  let head := get_file_head_time_str (HttpCtx.info_cache_control_time info) (HttpCtx.expires_time info) ++
              other_lines client_method client_uri ci info in
  h ← expect info_head;
  let head_size := zlen head in
  let body := place_body head_size (zlen h) bitmap_bytes raw in
  let head := resize_zeros (wrap64 (body - 4)) (head ++ h ++ bitset bm ++ CRLF ++ CRLF) ++ CRLF ++ CRLF in
  let f := write_at head 0 (mkFile (fun _ => 0) (wrap64 (body + raw))) in
  let node_head := mkNodeHead (md5 ci) (md5_str ci) (proxy_cache_path ci) (proxy_cache_path_tmp ci) client_uri client_method raw
                     (trie_url ci) (directio ci) (cache_file_slice ci) (HttpCtx.expires_time info)
                     (HttpCtx.info_cache_control_time info) false in
  Ok (mkFileNode Exist version bm r head_size (zlen h) (wrap64 (head_size + zlen h)) body body raw info h node_head, f).

(** The rest of the head stays where it is when the times change. *)
Definition update_file_times (cache_control_time expires_time : Z) (f : File) : File :=
  write_at (get_file_head_time_str cache_control_time expires_time) 0 f.

(** ** Reading *)

Record HeadFields := mkFields {
  f_client_uri : list Z;
  f_raw_content_length : list Z;
  f_md5 : list Z;
  f_md5_str : list Z;
  f_client_method : list Z;
  f_expires_time : list Z;
  f_directio : list Z;
  f_trie_url : list Z;
  f_path : list Z;
  f_path_tmp : list Z;
  f_control_time : list Z;
  is_file_ok : bool
}.

Definition eta_fields (s : HeadFields) : HeadFields :=
  mkFields (f_client_uri s) (f_raw_content_length s) (f_md5 s) (f_md5_str s) (f_client_method s) (f_expires_time s) (f_directio s)
    (f_trie_url s) (f_path s) (f_path_tmp s) (f_control_time s) (is_file_ok s).
Definition set_client_uri : list Z -> HeadFields -> HeadFields := ltac:(setter eta_fields f_client_uri).
Definition set_raw : list Z -> HeadFields -> HeadFields := ltac:(setter eta_fields f_raw_content_length).
Definition set_md5 : list Z -> HeadFields -> HeadFields := ltac:(setter eta_fields f_md5).
Definition set_md5_str : list Z -> HeadFields -> HeadFields := ltac:(setter eta_fields f_md5_str).
Definition set_client_method : list Z -> HeadFields -> HeadFields := ltac:(setter eta_fields f_client_method).
Definition set_expires_time : list Z -> HeadFields -> HeadFields := ltac:(setter eta_fields f_expires_time).
Definition set_directio : list Z -> HeadFields -> HeadFields := ltac:(setter eta_fields f_directio).
Definition set_trie_url : list Z -> HeadFields -> HeadFields := ltac:(setter eta_fields f_trie_url).
Definition set_path : list Z -> HeadFields -> HeadFields := ltac:(setter eta_fields f_path).
Definition set_path_tmp : list Z -> HeadFields -> HeadFields := ltac:(setter eta_fields f_path_tmp).
Definition set_control_time : list Z -> HeadFields -> HeadFields := ltac:(setter eta_fields f_control_time).
Definition set_file_ok : bool -> HeadFields -> HeadFields := ltac:(setter eta_fields is_file_ok).

Definition no_fields : HeadFields := mkFields [] [] [] [] [] [] [] [] [] [] [] false.

(** One line [v] of the head. *)
Definition read_head_line (v : list Z) (s : HeadFields) : outcome HeadFields :=
  '(key, value) ← ok_or "v.is_none()" (bytes_split_once v [58]);
  let is_key k := bytes_eq key (as_bytes k) in
  Ok (if is_key "client_uri" then set_client_uri value s
      else if is_key "raw_content_length" then set_raw value s
      else if is_key "md5" then set_md5 value s
      else if is_key "md5_str" then set_md5_str value s
      else if is_key "client_method" then set_client_method value s
      else if is_key "expires_time" then set_expires_time value s
      else if bytes_eq v (take (length (as_bytes CACHE_FILE_KEY) - 2) (as_bytes CACHE_FILE_KEY)) then set_file_ok true s
      else if is_key "directio" then set_directio value s
      else if is_key "trie_url" then set_trie_url value s
      else if is_key "proxy_cache_path" then set_path value s
      else if is_key "proxy_cache_path_tmp" then set_path_tmp value s
      else if is_key "cache_control_time" then set_control_time value s
      else s).

Fixpoint read_head_lines (lines : list (list Z)) (s : HeadFields) : outcome HeadFields :=
  match lines with
  | [] => Ok s
  | v :: lines => s ← read_head_line v s; read_head_lines lines s
  end.

(** [value.is_empty()] is an error; a shorter value than eight bytes panics. *)
Definition not_empty (e : string) (value : list Z) : outcome (list Z) := if zlen value =? 0 then Err e else Ok value.
Definition time_bytes (e : string) (value : list Z) : outcome Z :=
  value ← not_empty e value; b ← vslice value 0 8; Ok (from_be_bytes b).
Definition number (e : string) (value : list Z) : outcome Z :=
  value ← not_empty e value; s ← from_utf8 value; ok_or "ParseIntError" (parse_u 64 s).

(** The checks of the fields, in their order. *)
Definition check_fields (s : HeadFields) : outcome ProxyCacheFileNodeHead :=
  if negb (is_file_ok s) then Err "err:open file fail"
  else
    raw ← number "raw_content_length.is_empty" (f_raw_content_length s);
    control ← time_bytes "cache_control_time.is_empty" (f_control_time s);
    expires ← time_bytes "expires_time.is_empty" (f_expires_time s);
    m ← not_empty "md5.is_empty" (f_md5 s);
    ms ← not_empty "md5.is_empty" (f_md5_str s);
    path ← not_empty "proxy_cache_path.is_empty" (f_path s);
    path ← from_utf8 path;
    tmp ← not_empty "proxy_cache_path_tmp.is_empty" (f_path_tmp s);
    tmp ← from_utf8 tmp;
    uri ← not_empty "client_uri.is_empty" (f_client_uri s);
    uri ← uri_try_from uri;
    url ← not_empty "trie_url.is_empty" (f_trie_url s);
    url ← from_utf8 url;
    method ← not_empty "client_method.is_empty" (f_client_method s);
    method ← method_from_bytes method;
    d ← number "raw_content_length.is_empty" (f_directio s);
    Ok (mkNodeHead m ms path tmp uri method raw url d CACHE_FILE_SLISE expires (swrap64 control) false).

(** [load_cache_file_head] of an open file: the head, what follows it, all that
    was read and the size of the head. *)
Definition read_cache_file_head (buf : list Z) : outcome (ProxyCacheFileNodeHead * list Z * list Z * Z) :=
  position ← ok_or "read_head file_full_name" (bytes_index buf (CRLF ++ CRLF));
  let head_size := (position + 4)%nat in
  file_heads ← bytes_split (take position buf) CRLF;
  s ← read_head_lines file_heads no_fields;
  h ← check_fields s;
  Ok (h, drop head_size buf, buf, Z.of_nat head_size).

Definition load_cache_file_head (f : File) : outcome (ProxyCacheFileNodeHead * list Z * list Z * Z) :=
  let read_len := 1024 * 16 in
  read_cache_file_head (read_at (if file_len f <? read_len then file_len f else read_len) 0 f).

(** [http_parse]: [StatusCode::from_u16] takes three digits. *)
Fixpoint read_headers (headers : list (list Z * list Z)) (m : HeaderMap) : outcome HeaderMap :=
  match headers with
  | [] => Ok m
  | (name, value) :: headers => name ← ok_or "Internal" (header_name name); read_headers headers (happend name (hv_raw value) m)
  end.

Definition http_parse (buf : list Z) : outcome (Response * Z) :=
  match httparse buf with
  | Complete len code version headers =>
      if negb ((100 <=? code) && (code <=? 999)) then Err "Status"
      else if existsb (fun h => 2 ^ 16 <=? zlen h.1) headers then Err "TooLarge"
      else
        _ ← vslice buf 0 len;
        m ← read_headers headers hempty;
        Ok (mkResponse (if version =? 1 then HTTP_11 else HTTP_10) code m, len)
  | Partial | ParseError => Err "Internal"
  end.

(** The range of the body as the stored headers give it. *)
Definition stored_range (m : HeaderMap) : outcome HttpRange :=
  range ← content_range m;
  len ← read_content_length m;
  if is_range range then
    if content_length range =? len then Ok range else Err "content_range"
  else if 0 <? len then Ok (mkRange (is_range range) len len 0 (len - 1))
  else Ok (mkRange (is_range range) len len (range_start range) (range_end range)).

(** [copy_from_slice] into the bitmap. *)
Definition load_bits (bm : BitMap) (d : list Z) : BitMap := mkBitMap d (slice_size bm) (curr_slice_size bm).

(** [from_file]: the file, if it could be opened, and the time. *)
Definition from_file (now : Z) (ci : ProxyCacheFileInfo) (f : option File) (version : Z) : outcome (option ProxyCacheFileNode) :=
  match (f ← ok_or "err:file.open" f; load_cache_file_head f) with
  | Err _ => Ok None
  | Panic => Panic
  | Fuel => Fuel
  | Ok (nh, http_head_start, buf, head_size) =>
      '(file_res, http_size) ← http_parse http_head_start;
      let h := take (Z.to_nat http_size) http_head_start in
      range ← stored_range (response_headers file_res);
      let tag := e_tag (response_headers file_res) in
      '(modified, modified_time) ← last_modified (response_headers file_res);
      bm ← from_slice (raw_content_length range) (cache_file_slice ci);
      let bitmap_bytes := zlen (bitset bm) in
      if zlen buf <? wrap64 (wrap64 (head_size + http_size) + bitmap_bytes)
      then Err "buf.len() < file_head_size + http_head_size + bitmap_size"
      else
        let start := wrap64 (head_size + http_size) in
        d ← vslice buf start (wrap64 (start + bitmap_bytes));
        bm ← repair (load_bits bm d);
        let body := place_body head_size http_size bitmap_bytes (raw_content_length range) in
        let status := if head_expires_time nh <=? now then Expire else Exist in
        let info := HttpCtx.mkInfo modified_time modified tag (head_control_time nh) (head_expires_time nh) range in
        Ok (Some (mkFileNode status version bm file_res head_size http_size start body body (raw_content_length range) info h nh))
  end.

(** ** Expiry *)

Definition is_expires (now : Z) (h : ProxyCacheFileNodeHead) : bool := is_delay_del h || (head_expires_time h <=? now).

Definition update_file_node_status (now : Z) (n : ProxyCacheFileNode) : ProxyCacheFileNode :=
  if is_expires now (node_head n) then
    mkFileNode Expire (cache_file_node_version n) (node_bitmap n) (response n) (file_head_size n) (http_head_size n) (bitmap_start n)
      (body_start n) (buf_seek n) (buf_size n) (response_info n) (http_head n) (node_head n)
  else n.
End node.
