(* ===== verification/CacheRestart.v ===== *)
(** A cache file survives a restart: whatever was written to it since it was
    created, [from_file] finds the times, the bitmap and the places that the
    proxy had for it before ([CacheFile]). *)
From S2P Require Import Prelude RustStd Bitmap FileCache HttpLib HttpHeader CacheFile.
From S2P Require HttpCtx.
#[local] Open Scope string_scope.
#[local] Open Scope list_scope.
#[local] Open Scope Z_scope.

(** ** Lines *)

(** No line break inside. *)
Definition clean (v : list Z) : Prop := bytes_index v CRLF = None.
#[export] Instance clean_dec v : Decision (clean v) := _.

Lemma clean_cons a v : clean (a :: v) -> clean v /\ has_prefix CRLF (a :: v) = false.
Proof. unfold clean. cbn [bytes_index]. destruct (has_prefix CRLF (a :: v)) eqn:E; [done|]. by destruct (bytes_index v CRLF). Qed.

(** A byte before a line break does not begin one. *)
Lemma break_first a v t : clean (a :: v) -> has_prefix CRLF (a :: v ++ CRLF ++ t) = false.
Proof. intros [_ H]%clean_cons. destruct v as [|b v]; [|exact H]. cbn. by destruct (13 =? a). Qed.

Lemma index_clean v t : clean v -> bytes_index (v ++ CRLF ++ t) CRLF = Some (length v).
Proof.
  induction v as [|a v IH]; [done|]. intros H. cbn [app bytes_index]. rewrite (break_first a v t H).
  rewrite IH; [done|by apply clean_cons in H as []].
Qed.

Lemma prefix_longer p q l : has_prefix p l = false -> has_prefix (p ++ q) l = false.
Proof.
  revert l. induction p as [|x p IH]; intros [|y l]; try done. cbn.
  destruct (x =? y); [|done]. by apply IH.
Qed.

(** The search for an empty line: past a line, and at its end. *)
Lemma index_past v t :
  clean v -> has_prefix CRLF t = false ->
  bytes_index (v ++ CRLF ++ t) (CRLF ++ CRLF) = (fun k => (length v + 2 + k)%nat) <$> bytes_index t (CRLF ++ CRLF).
Proof.
  intros Hv Ht. induction v as [|a v IH].
  - change (bytes_index ([] ++ CRLF ++ t) (CRLF ++ CRLF))
      with (if has_prefix CRLF t then Some 0%nat else S <$> (S <$> bytes_index t (CRLF ++ CRLF))).
    rewrite Ht. by destruct (bytes_index t _).
  - cbn [app bytes_index]. rewrite (prefix_longer CRLF CRLF) by exact (break_first a v t Hv).
    rewrite IH by (by apply clean_cons in Hv as []). by destruct (bytes_index t _).
Qed.

Lemma index_blank v t : clean v -> bytes_index (v ++ CRLF ++ CRLF ++ t) (CRLF ++ CRLF) = Some (length v).
Proof.
  intros Hv. induction v as [|a v IH]; [done|]. cbn [app bytes_index].
  rewrite (prefix_longer CRLF CRLF) by exact (break_first a v _ Hv). rewrite IH; [done|by apply clean_cons in Hv as []].
Qed.

Definition join_lines (ls : list (list Z)) : list Z := ls ≫= (fun l => l ++ CRLF).

Lemma join_lines_cons l ls t : join_lines (l :: ls) ++ t = l ++ CRLF ++ join_lines ls ++ t.
Proof. unfold join_lines. cbn. by rewrite <- !app_assoc. Qed.

(** The head ends at the first empty line, and splits into its lines. *)
Lemma index_lines ls last t :
  Forall (fun l => clean l /\ l <> []) ls -> clean last -> last <> [] ->
  bytes_index (join_lines ls ++ last ++ CRLF ++ CRLF ++ t) (CRLF ++ CRLF) = Some (length (join_lines ls ++ last)).
Proof.
  intros Hls Hl Hn. induction Hls as [|l ls [Hc Hl'] Hls IH]; [by apply index_blank|].
  rewrite !join_lines_cons, index_past, IH; [|done|].
  - cbn [fmap option_fmap option_map]. f_equal. rewrite !length_app. change (length CRLF) with 2%nat. lia.
  - assert (forall l0 t0, clean l0 -> l0 <> [] -> has_prefix CRLF (l0 ++ CRLF ++ t0) = false) as Hp.
    { intros [|a l0] t0 Hc0 Hn0; [done|]. by apply break_first. }
    inversion Hls as [|l1 ls1 [Hc1 Hn1] Hls1]; subst; [by apply Hp|]. rewrite join_lines_cons. by apply Hp.
Qed.

Lemma split_lines ls last :
  Forall (fun l => clean l /\ l <> []) ls -> clean last -> last <> [] -> bytes_split (join_lines ls ++ last) CRLF = Ok (ls ++ [last]).
Proof.
  intros Hls Hl Hn. unfold bytes_split.
  assert (forall fuel, (length ls < fuel)%nat -> split_loop fuel (join_lines ls ++ last) CRLF = Ok (ls ++ [last])) as Hs.
  { induction Hls as [|l ls [Hc Hl'] Hls IH]; intros fuel Hf; (destruct fuel as [|fuel]; [cbn in Hf; lia|]); cbn [split_loop].
    - rewrite (Hl : bytes_index (join_lines [] ++ last) CRLF = None). change (join_lines [] ++ last) with last.
      destruct (Z.ltb_spec 0 (zlen last)) as [|Hz]; [done|]. destruct last; [done|]. unfold zlen in Hz. cbn in Hz. lia.
    - rewrite join_lines_cons, index_clean by done. rewrite (app_assoc l CRLF).
      replace (length l + length CRLF)%nat with (length (l ++ CRLF)) by (by rewrite length_app).
      rewrite drop_app_length, IH by (cbn in Hf; lia). cbn [mbind outcome_bind]. by rewrite <- app_assoc, take_app_length. }
  apply Hs. clear. induction ls as [|l ls IH]; [cbn; lia|]. rewrite join_lines_cons. rewrite !length_app in *. change (length CRLF) with 2%nat. cbn [length]. lia.
Qed.

(** A key before the value brings no line break. *)
Lemma clean_app p v : (13 ∉ p) -> clean v -> clean (p ++ v).
Proof.
  intros Hp Hv. induction p as [|a p IH]; [done|]. apply not_elem_of_cons in Hp as [Ha Hp]. unfold clean. cbn [app bytes_index].
  destruct (has_prefix CRLF (a :: p ++ v)) eqn:E; [|by rewrite (IH Hp : bytes_index (p ++ v) CRLF = None)].
  cbn [has_prefix CRLF] in E. apply andb_true_iff in E as [E%Z.eqb_eq _]. congruence.
Qed.

Lemma clean_show n : clean (as_bytes (show_u n)).
Proof.
  rewrite <- (app_nil_r (as_bytes (show_u n))). apply clean_app; [|done].
  pose proof (show_all_digits n) as Hd. revert Hd. generalize (show_u n). unfold as_bytes.
  induction s as [|c s IH]; cbn; [intros _ H; by inversion H|]. intros [Hc Hs]%andb_true_iff [E|H]%elem_of_cons; [|by apply IH].
  unfold is_digit in Hc. apply andb_true_iff in Hc as [Hc%N.leb_le _]. lia.
Qed.

(** ** Values *)

Lemma be_length x : zlen (to_be_bytes x) = 8.
Proof. done. Qed.

Lemma be_round x : from_be_bytes (to_be_bytes x) = wrap64 x.
Proof.
  unfold from_be_bytes, to_be_bytes. pose proof (wrap_range 64 x ltac:(lia)) as Hy. unfold in_width in Hy. revert Hy. generalize (wrap64 x). intros y Hy.
  assert (forall k, 0 <= k -> Z.shiftr y (8 * (k + 1)) = Z.shiftr y (8 * k) / 256) as Hs.
  { intros k Hk. rewrite !Z.shiftr_div_pow2 by lia. rewrite Z.div_div by lia. f_equal. rewrite <- (Z.pow_add_r 2 _ 8) by lia. f_equal. lia. }
  pose proof (Hs 0 ltac:(lia)) as E0. pose proof (Hs 1 ltac:(lia)) as E1. pose proof (Hs 2 ltac:(lia)) as E2. pose proof (Hs 3 ltac:(lia)) as E3.
  pose proof (Hs 4 ltac:(lia)) as E4. pose proof (Hs 5 ltac:(lia)) as E5. pose proof (Hs 6 ltac:(lia)) as E6. pose proof (Hs 7 ltac:(lia)) as E7.
  assert (Z.shiftr y (8 * 8) = 0) as Hz by (rewrite Z.shiftr_div_pow2 by lia; apply Z.div_small; lia).
  cbn [fmap list_fmap foldl]. change (Z.shiftr y (8 * 0)) with y in *.
  repeat match goal with H : Z.shiftr y (8 * (?a + 1)) = _ |- _ => let b := eval cbv in (a + 1) in change (a + 1) with b in H end.
  clear Hs. generalize dependent (Z.shiftr y (8 * 1)). generalize dependent (Z.shiftr y (8 * 2)). generalize dependent (Z.shiftr y (8 * 3)).
  generalize dependent (Z.shiftr y (8 * 4)). generalize dependent (Z.shiftr y (8 * 5)). generalize dependent (Z.shiftr y (8 * 6)).
  generalize dependent (Z.shiftr y (8 * 7)). generalize dependent (Z.shiftr y (8 * 8)). intros. subst z. Z.to_euclidean_division_equations. lia.
Qed.

Lemma time_read e x : time_bytes e (to_be_bytes x) = Ok (wrap64 x).
Proof. rewrite <- be_round. reflexivity. Qed.

Lemma digits_ascii s : all_digits s = true -> is_ascii s = true.
Proof.
  unfold is_ascii, as_bytes. induction s as [|c s IH]; [done|]. cbn. intros [Hc Hs]%andb_true_iff. rewrite (IH Hs).
  unfold is_digit in Hc. apply andb_true_iff in Hc as [_ Hc%N.leb_le]. destruct (Z.ltb_spec (Z.of_N (N_of_ascii c)) 128); [done|lia].
Qed.

Lemma not_empty_ok e v : v <> [] -> not_empty e v = Ok v.
Proof. intros H. unfold not_empty. by destruct v. Qed.

Lemma bytes_nonempty s : s <> "" -> as_bytes s <> [].
Proof. by destruct s. Qed.

Lemma number_read e n : 0 <= n < 2 ^ 64 -> number e (as_bytes (show_u n)) = Ok n.
Proof.
  intros Hn. unfold number. rewrite not_empty_ok by apply bytes_nonempty, show_nonempty. cbn [mbind outcome_bind].
  rewrite utf8_ascii by apply digits_ascii, show_all_digits. cbn [mbind outcome_bind]. by rewrite parse_show.
Qed.

Definition entry (key : string) (value : list Z) : list Z := as_bytes key ++ 58 :: value.

Lemma clean_entry key value : bool_decide (13 ∉ as_bytes key) = true -> clean value -> clean (entry key value) /\ entry key value <> [].
Proof.
  intros Hk%bool_decide_eq_true Hv. split; [|by destruct key].
  apply clean_app; [done|]. unfold clean. cbn [bytes_index]. by rewrite (Hv : bytes_index value CRLF = None).
Qed.

(** The lines of a head, in the order they are written. *)
Definition key_line : list Z := as_bytes "@#anypryx#@:%&#@".
Definition lines_of (c e ef uri p t m ms me crc lmt lm et raw d : list Z) : list (list Z) :=
  [key_line; entry "cache_control_time" c; entry "expires_time" e; entry "expires_time_first" ef; entry "client_uri" uri;
   entry "proxy_cache_path" p; entry "proxy_cache_path_tmp" t; entry "md5" m; entry "md5_str" ms; entry "client_method" me;
   entry "crc32" crc; entry "last_modified_time" lmt; entry "last_modified" lm; entry "e_tag" et; entry "raw_content_length" raw;
   entry "directio" d].

Lemma lines_read c e ef uri p t m ms me crc lmt lm et raw d url :
  read_head_lines (lines_of c e ef uri p t m ms me crc lmt lm et raw d ++ [entry "trie_url" url]) no_fields =
  Ok (mkFields uri raw m ms me e d url p t c true).
Proof. reflexivity. Qed.

(** The lines of a head are read, and what follows it is left. *)
Lemma read_lines `{HttpParse} ls last t :
  Forall (fun l => clean l /\ l <> []) ls -> clean last -> last <> [] ->
  read_cache_file_head (join_lines ls ++ last ++ CRLF ++ CRLF ++ t) =
    (s ← read_head_lines (ls ++ [last]) no_fields; h ← check_fields s;
     Ok (h, t, join_lines ls ++ last ++ CRLF ++ CRLF ++ t, zlen (join_lines ls ++ last ++ CRLF ++ CRLF))).
Proof.
  intros Hls Hl Hn. unfold read_cache_file_head. rewrite index_lines by done. cbn [ok_or mbind outcome_bind].
  rewrite (app_assoc (join_lines ls) last (CRLF ++ _)), take_app_length, split_lines by done. cbn [mbind outcome_bind].
  destruct (read_head_lines _ _) as [s| | |]; [|done..]. cbn [mbind outcome_bind]. destruct (check_fields s) as [h| | |]; [|done..]. cbn [mbind outcome_bind].
  assert (drop (length (join_lines ls ++ last) + 4) ((join_lines ls ++ last) ++ CRLF ++ CRLF ++ t) = t) as ->.
  { rewrite drop_app_ge by lia. by rewrite Nat.add_comm, Nat.add_sub. }
  unfold zlen. by rewrite (app_assoc _ last (CRLF ++ CRLF)), (length_app _ (CRLF ++ CRLF)).
Qed.

(** ** What a file holds *)

Definition holds (f : File) (off : Z) (d : list Z) : Prop := forall i x, d !! i = Some x -> bytes f (off + Z.of_nat i) = x.

Lemma holds_app f off a b : holds f off (a ++ b) <-> holds f off a /\ holds f (off + zlen a) b.
Proof.
  split.
  - intros Hh. split; intros i x Hi.
    + apply Hh. by apply lookup_app_l_Some.
    + rewrite <- Z.add_assoc. unfold zlen. rewrite <- Nat2Z.inj_add. apply Hh. rewrite lookup_app_r by lia. by rewrite Nat.add_comm, Nat.add_sub.
  - intros [Ha Hb] i x [Hi|[Hl Hi]]%lookup_app_Some; [by apply Ha|].
    rewrite <- (Hb (i - length a)%nat x Hi). f_equal. unfold zlen. lia.
Qed.

Lemma holds_write d off f : holds (write_at d off f) off d.
Proof.
  intros i x Hi. pose proof (lookup_lt_Some _ _ _ Hi) as Hl. cbn. unfold write_all_at, zlen.
  destruct (Z.leb_spec off (off + Z.of_nat i)); [|lia]. destruct (Z.ltb_spec (off + Z.of_nat i) (off + Z.of_nat (length d))); [|lia]. cbn.
  replace (Z.to_nat (off + Z.of_nat i - off)) with i by lia. by rewrite Hi.
Qed.

Lemma holds_other d o f off v : holds f off v -> off + zlen v <= o \/ o + zlen d <= off -> holds (write_at d o f) off v.
Proof.
  intros Hh Ho i x Hi. pose proof (lookup_lt_Some _ _ _ Hi) as Hl. rewrite <- (Hh i x Hi). cbn. unfold write_all_at, zlen in *.
  by destruct (Z.leb_spec o (off + Z.of_nat i)), (Z.ltb_spec (off + Z.of_nat i) (o + Z.of_nat (length d))); try lia.
Qed.

Lemma read_holds f d n : holds f 0 d -> zlen d <= n -> exists rest, read_at n 0 f = d ++ rest.
Proof.
  intros Hh Hn. unfold read_at. replace n with (zlen d + (n - zlen d)) by lia. rewrite seqZ_app by (pose proof (zlen_nonneg d); lia).
  rewrite fmap_app. eexists. f_equal. apply list_eq. intros i. rewrite list_lookup_fmap.
  destruct (d !! i) as [x|] eqn:Ei.
  - pose proof (lookup_lt_Some _ _ _ Ei). rewrite lookup_seqZ_lt by (unfold zlen; lia). cbn. f_equal. by apply Hh.
  - apply lookup_ge_None in Ei. rewrite lookup_seqZ_ge; [done|unfold zlen; lia].
Qed.

(** ** Where things are *)

Lemma place_body_spec hs hh bs raw :
  0 <= hs -> 0 <= hh -> 0 <= bs -> hs + hh + bs <= 2 ^ 62 -> 0 <= raw < 2 ^ 62 ->
  let body := place_body hs hh bs raw in
  hs + hh + bs + 8 <= body <= hs + hh + bs + 8 + 4096 /\ (body mod 4096 = 0 \/ body mod 4096 + raw <= 4096).
Proof.
  intros ? ? ? ? ?. unfold place_body. unwrap. replace (hs + hh + bs + 8) with (hs + hh + bs + 8) by done.
  set (s := hs + hh + bs + 8). pose proof (Z.mod_pos_bound s 4096). pose proof (Z.div_mod s 4096). unwrap.
  destruct (Z.ltb_spec 0 (s mod 4096)), (Z.ltb_spec 4096 (s mod 4096 + raw)); cbn [andb]; try lia.
  unwrap. split; [lia|left]. apply Z_mod_mult.
Qed.

(** ** A file in use *)

Section restart.
Context `{HttpParse}.
Context (client_method : Method) (client_uri : Uri) (ci : ProxyCacheFileInfo) (info : HttpCtx.HttpResponseInfo) (h : list Z) (r : Response).

Definition raw : Z := raw_content_length (HttpCtx.info_range info).
Definition others : list Z := other_lines client_method client_uri ci info.
Definition head_size : Z := zlen (get_file_head_time_str 0 0) + zlen others.

(** A text that can stand in a line and is read as it was. *)
Definition text (s : string) : Prop := clean (as_bytes s) /\ s <> "" /\ from_utf8 (as_bytes s) = Ok s.
Definition times_fit (control expires : Z) : Prop :=
  - 2 ^ 63 <= control < 2 ^ 63 /\ clean (to_be_bytes control) /\ 0 <= expires < 2 ^ 64 /\ clean (to_be_bytes expires).

(** What was stored is an answer with these headers, and fits into what is read
    of a file at once. *)
Record fits (bm : BitMap) : Prop := {
  fit_raw : 0 < raw < 2 ^ 62;
  fit_slice : 0 < cache_file_slice ci;
  fit_bitmap : from_slice raw (cache_file_slice ci) = Ok bm;
  fit_size : head_size + zlen h + zlen (bitset bm) <= 16384;
  fit_uri : uri_try_from (as_bytes (uri_string client_uri)) = Ok client_uri;
  fit_uri_text : clean (as_bytes (uri_string client_uri)) /\ uri_string client_uri <> "";
  fit_method : method_from_bytes (as_bytes (method_str client_method)) = Ok client_method;
  fit_method_text : clean (as_bytes (method_str client_method)) /\ method_str client_method <> "";
  fit_path : text (proxy_cache_path ci);
  fit_tmp : text (proxy_cache_path_tmp ci);
  fit_url : text (trie_url ci);
  fit_md5 : clean (md5 ci) /\ md5 ci <> [];
  fit_md5_str : clean (md5_str ci) /\ md5_str ci <> [];
  fit_modified : clean (as_bytes (hv_bytes (HttpCtx.info_last_modified info)));
  fit_tag : clean (as_bytes (hv_bytes (HttpCtx.info_e_tag info)));
  fit_directio : 0 <= directio ci < 2 ^ 64;
  fit_http : forall rest, http_parse (h ++ rest) = Ok (r, zlen h);
  fit_range : stored_range (response_headers r) = Ok (HttpCtx.info_range info);
  fit_dates : last_modified (response_headers r) = Ok (HttpCtx.info_last_modified info, HttpCtx.last_modified_time info);
  fit_tags : e_tag (response_headers r) = HttpCtx.info_e_tag info
}.

(** What is written to the file of a node: the times when it is validated again,
    its bitmap, and pieces of the body. *)
Inductive FileOp := Times (control expires : Z) | Bits (bs : list Z) | Body (off : Z) (d : list Z).

Definition do_op (n : ProxyCacheFileNode) (f : File) (o : FileOp) : File :=
  match o with
  | Times control expires => update_file_times control expires f
  | Bits bs => write_at bs (bitmap_start n) f
  | Body off d => write_at d (body_start n + off) f
  end.

Definition op_fits (bm : BitMap) (o : FileOp) : Prop :=
  match o with
  | Times control expires => times_fit control expires
  | Bits bs => length bs = length (bitset bm) /\ Forall is_u8 bs
  | Body off d => 0 <= off /\ off + zlen d <= raw
  end.

(** The times and the bits that were written last. *)
Definition last_written (ops : list FileOp) (control expires : Z) (bs : list Z) : Z * Z * list Z :=
  foldl (fun '(c, e, b) o => match o with Times c' e' => (c', e', b) | Bits b' => (c, e, b') | Body _ _ => (c, e, b) end)
    (control, expires, bs) ops.

Definition body_place (bm : BitMap) : Z := place_body head_size (zlen h) (zlen (bitset bm)) raw.

(** What a file of this answer holds. *)
Record stored (bm : BitMap) (control expires : Z) (bs : list Z) (f : File) : Prop := {
  st_times : times_fit control expires;
  st_bits : length bs = length (bitset bm) /\ Forall is_u8 bs;
  st_holds : holds f 0 ((get_file_head_time_str control expires ++ others) ++ h ++ bs);
  st_len : file_len f = body_place bm + raw
}.

Lemma time_str_length c e : zlen (get_file_head_time_str c e) = zlen (get_file_head_time_str 0 0).
Proof. done. Qed.

Lemma head_length c e : zlen (get_file_head_time_str c e ++ others) = head_size.
Proof. by rewrite zlen_app, time_str_length. Qed.

Lemma body_placed bm : fits bm ->
  head_size + zlen h + zlen (bitset bm) + 8 <= body_place bm <= 2 ^ 61 /\ (body_place bm mod 4096 = 0 \/ body_place bm mod 4096 + raw <= 4096).
Proof.
  intros []. pose proof (zlen_nonneg h). pose proof (zlen_nonneg (bitset bm)). pose proof (zlen_nonneg others).
  assert (0 <= head_size) by (unfold head_size; pose proof (zlen_nonneg (get_file_head_time_str 0 0)); lia).
  destruct (place_body_spec head_size (zlen h) (zlen (bitset bm)) raw) as [Hp Ha]; [lia..|]. unfold body_place. split; [lia|done].
Qed.

Lemma fits_wf bm : fits bm -> bitmap_wf bm.
Proof. intros []. destruct (from_slice_wf raw (cache_file_slice ci)) as (bm' & E & Hw & _); [done..|]. congruence. Qed.

Lemma write_len f d off n : file_len f = n -> off + zlen d <= n -> file_len (write_at d off f) = n.
Proof. intros <- Hd. cbn. lia. Qed.

Lemma holds_parts c e bs f :
  holds f 0 ((get_file_head_time_str c e ++ others) ++ h ++ bs) <->
  holds f 0 (get_file_head_time_str c e) /\ holds f (zlen (get_file_head_time_str 0 0)) others /\ holds f head_size h /\
  holds f (head_size + zlen h) bs.
Proof. rewrite !holds_app, head_length, time_str_length, !Z.add_0_l. tauto. Qed.

Lemma op_stored bm n c e bs f o :
  fits bm -> bitmap_start n = head_size + zlen h -> body_start n = body_place bm -> stored bm c e bs f -> op_fits bm o ->
  let '(c', e', bs') := last_written [o] c e bs in stored bm c' e' bs' (do_op n f o).
Proof.
  intros Hf Hn Hb [Ht [Hl Hu] Hh Hlen] Ho. destruct (body_placed bm Hf) as [Hp _]. pose proof (fit_raw _ Hf).
  pose proof (zlen_nonneg h). pose proof (zlen_nonneg (bitset bm)). pose proof (zlen_nonneg others).
  apply holds_parts in Hh as (Hh0 & Hh1 & Hh2 & Hh3). pose proof (time_str_length c e) as Ht0. pose proof (zlen_nonneg (get_file_head_time_str 0 0)).
  assert (zlen bs = zlen (bitset bm)) as Hz by (unfold zlen; by rewrite Hl). unfold head_size in *.
  destruct o as [c' e'|bs'|off d]; cbn [op_fits last_written foldl do_op] in Ho |- *; unfold update_file_times.
  - pose proof (time_str_length c' e'). split; [done|done| |by apply write_len; [|lia]].
    apply holds_parts. split_and!; [apply holds_write|apply holds_other; [done|unfold head_size; lia]..].
  - destruct Ho as [Hl' Hu']. assert (zlen bs' = zlen (bitset bm)) as Hz' by (unfold zlen; by rewrite Hl').
    rewrite Hn. split; [done|done| |by apply write_len; [|lia]].
    apply holds_parts. split_and!; [apply holds_other; [done|unfold head_size; lia]..|apply holds_write].
  - rewrite Hb. split; [done|done| |by apply write_len; [|lia]].
    apply holds_parts. split_and!; apply holds_other; try done; unfold head_size; lia.
Qed.

Lemma ops_stored bm n ops : forall c e bs f,
  fits bm -> bitmap_start n = head_size + zlen h -> body_start n = body_place bm -> stored bm c e bs f -> Forall (op_fits bm) ops ->
  let '(c', e', bs') := last_written ops c e bs in stored bm c' e' bs' (foldl (do_op n) f ops).
Proof.
  induction ops as [|o ops IH]; intros c e bs f Hf Hn Hb Hs Ho; [done|]. inversion Ho as [|? ? Ho1 Ho2]; subst.
  pose proof (op_stored bm n c e bs f o Hf Hn Hb Hs Ho1) as Hs1.
  destruct o as [c' e'|bs'|off d]; cbn in Hs1 |- *; by apply IH.
Qed.

(** The node that [create_file] gives, and a file that holds what it should. *)
Definition created (bm : BitMap) (version : Z) : ProxyCacheFileNode :=
  mkFileNode Exist version bm r head_size (zlen h) (head_size + zlen h) (body_place bm) (body_place bm) raw info h
    (mkNodeHead (md5 ci) (md5_str ci) (proxy_cache_path ci) (proxy_cache_path_tmp ci) client_uri client_method raw (trie_url ci) (directio ci)
       (cache_file_slice ci) (HttpCtx.expires_time info) (HttpCtx.info_cache_control_time info) false).

Lemma create_holds bm version :
  fits bm -> exists f, create_file client_method client_uri ci info (Some h) r version = Ok (created bm version, f) /\
    holds f 0 ((get_file_head_time_str (HttpCtx.info_cache_control_time info) (HttpCtx.expires_time info) ++ others) ++ h ++ bitset bm) /\
    file_len f = body_place bm + raw.
Proof.
  intros Hf. destruct (body_placed bm Hf) as [Hp _]. pose proof (fit_raw _ Hf). pose proof (fit_size _ Hf).
  pose proof (zlen_nonneg h). pose proof (zlen_nonneg (bitset bm)).
  assert (0 <= head_size) by (unfold head_size; pose proof (zlen_nonneg others); pose proof (zlen_nonneg (get_file_head_time_str 0 0)); lia).
  unfold create_file. fold raw. fold others. rewrite (fit_bitmap _ Hf). cbn [mbind outcome_bind expect]. rewrite head_length.
  fold (body_place bm). unwrap. eexists. split; [reflexivity|].
  set (head := resize_zeros _ _ ++ _).
  assert (exists rest, head = ((get_file_head_time_str (HttpCtx.info_cache_control_time info) (HttpCtx.expires_time info) ++ others) ++ h ++ bitset bm) ++ rest /\ zlen head = body_place bm) as (rest & Eh & Hl).
  { subst head. unfold resize_zeros. set (T := get_file_head_time_str _ _ ++ others).
    assert (zlen T = head_size) as HT by apply head_length.
    rewrite take_ge by (unfold zlen in *; rewrite !length_app; cbn; lia).
    eexists. split; [rewrite <- !app_assoc; reflexivity|]. rewrite !zlen_app. unfold zlen at 6. rewrite length_replicate.
    change (zlen CRLF) with 2. rewrite HT. lia. }
  split.
  - pose proof (holds_write head 0 (mkFile (fun _ => 0) (body_place bm + raw))) as Hh. rewrite Eh in Hh at 2. by apply holds_app in Hh as [Hh _].
  - apply write_len; [done|]. lia.
Qed.

Lemma create_stored bm version :
  fits bm -> times_fit (HttpCtx.info_cache_control_time info) (HttpCtx.expires_time info) ->
  exists f, create_file client_method client_uri ci info (Some h) r version = Ok (created bm version, f) /\
    stored bm (HttpCtx.info_cache_control_time info) (HttpCtx.expires_time info) (bitset bm) f.
Proof.
  intros Hf Ht. destruct (create_holds bm version Hf) as (f & E & Hh & Hl). exists f. split; [done|].
  split; [done|split; [done|apply (wf_bytes _ (fits_wf bm Hf))]|done|done].
Qed.

(** ** Reading it back *)

Definition stored_lines (c e : Z) : list (list Z) :=
  lines_of (to_be_bytes c) (to_be_bytes e) (as_bytes (show_u (HttpCtx.expires_time info))) (as_bytes (uri_string client_uri))
    (as_bytes (proxy_cache_path ci)) (as_bytes (proxy_cache_path_tmp ci)) (md5 ci) (md5_str ci) (as_bytes (method_str client_method))
    (as_bytes (show_u (crc32 ci))) (as_bytes (show_u (HttpCtx.last_modified_time info)))
    (as_bytes (hv_bytes (HttpCtx.info_last_modified info))) (as_bytes (hv_bytes (HttpCtx.info_e_tag info))) (as_bytes (show_u raw))
    (as_bytes (show_u (directio ci))).

Definition url_line : list Z := entry "trie_url" (as_bytes (trie_url ci)).

Lemma head_shape c e :
  get_file_head_time_str c e ++ others = join_lines (stored_lines c e) ++ url_line ++ CRLF ++ CRLF.
Proof.
  unfold get_file_head_time_str, time_lines, others, other_lines, stored_lines, lines_of, url_line, entry, head_line.
  change (as_bytes CACHE_FILE_KEY) with (key_line ++ CRLF). fold raw.
  unfold join_lines. cbn [mbind list_bind app]. rewrite <- !app_assoc. cbn [app]. rewrite <- !app_assoc. cbn [app]. by rewrite <- ?app_assoc.
Qed.

Lemma stored_clean bm c e : fits bm -> times_fit c e -> Forall (fun l => clean l /\ l <> []) (stored_lines c e) /\ clean url_line /\ url_line <> [].
Proof.
  intros [] (? & Hc & ? & He).
  assert (forall s0, text s0 -> clean (as_bytes s0)) as Ht by by intros s0 [].
  split; [|by apply clean_entry; [|apply Ht]]. unfold stored_lines, lines_of.
  apply List.Forall_cons; [by split|].
  repeat (apply List.Forall_cons; [apply clean_entry; [reflexivity|]|]);
    try apply List.Forall_nil; try apply clean_show; try assumption; try (apply Ht; assumption); by intuition.
Qed.

Definition head_read (c e : Z) : ProxyCacheFileNodeHead :=
  mkNodeHead (md5 ci) (md5_str ci) (proxy_cache_path ci) (proxy_cache_path_tmp ci) client_uri client_method raw (trie_url ci) (directio ci)
    CACHE_FILE_SLISE e c false.

Definition fields_read (c e : Z) : HeadFields :=
  mkFields (as_bytes (uri_string client_uri)) (as_bytes (show_u raw)) (md5 ci) (md5_str ci) (as_bytes (method_str client_method))
    (to_be_bytes e) (as_bytes (show_u (directio ci))) (as_bytes (trie_url ci)) (as_bytes (proxy_cache_path ci))
    (as_bytes (proxy_cache_path_tmp ci)) (to_be_bytes c) true.

Lemma lines_stored c e : read_head_lines (stored_lines c e ++ [url_line]) no_fields = Ok (fields_read c e).
Proof. apply lines_read. Qed.

Lemma check_stored bm c e :
  fits bm -> times_fit c e ->
  check_fields (fields_read c e) = Ok (head_read c e).
Proof.
  intros [] (Hc & _ & He & _). destruct fit_uri_text0, fit_method_text0, fit_md6, fit_md5_str0, fit_path0 as (? & ? & Hp), fit_tmp0 as (? & ? & Ht), fit_url0 as (? & ? & Hu).
  unfold check_fields, fields_read. cbn [is_file_ok negb f_client_uri f_raw_content_length f_md5 f_md5_str f_client_method f_expires_time f_directio f_trie_url f_path f_path_tmp f_control_time].
  rewrite !number_read, !time_read by lia. rewrite !not_empty_ok by (try done; by apply bytes_nonempty).
  cbn [mbind outcome_bind]. rewrite Hp, Ht, Hu, fit_uri0, fit_method0. cbn [mbind outcome_bind].
  replace (swrap64 (wrap64 c)) with c; [by rewrite (wrap_id 64 e) by (unfold in_width; lia)|].
  rewrite <- (swrap64_id c) at 1 by done. unfold swrap, wrap. by rewrite Z.mod_mod by lia.
Qed.

Lemma head_stored bm c e t :
  fits bm -> times_fit c e ->
  read_cache_file_head ((get_file_head_time_str c e ++ others) ++ t) =
    Ok (head_read c e, t, (get_file_head_time_str c e ++ others) ++ t, head_size).
Proof.
  intros Hf Ht. destruct (stored_clean bm c e Hf Ht) as (Hc & Hu & Hn).
  pose proof (head_length c e) as Hs. pose proof (head_shape c e) as Eh. revert Hs Eh. generalize (get_file_head_time_str c e ++ others). intros T <- ->.
  rewrite <- !app_assoc, read_lines by done. rewrite lines_stored. cbn [mbind outcome_bind].
  rewrite (check_stored bm c e Hf Ht). reflexivity.
Qed.

(** All that is read of a file begins with its head and its bitmap. *)
Lemma read_stored bm c e bs f :
  fits bm -> length bs = length (bitset bm) -> holds f 0 ((get_file_head_time_str c e ++ others) ++ h ++ bs) -> file_len f = body_place bm + raw ->
  exists rest, load_cache_file_head f = read_cache_file_head ((get_file_head_time_str c e ++ others) ++ h ++ bs ++ rest).
Proof.
  intros Hf Hl Hh Hlen. destruct (body_placed bm Hf) as [Hp _]. pose proof (fit_size _ Hf). pose proof (fit_raw _ Hf).
  assert (zlen bs = zlen (bitset bm)) as Hz by (unfold zlen; by rewrite Hl).
  unfold load_cache_file_head. match goal with |- context [read_at ?n 0 f] => destruct (read_holds f _ n Hh) as [rest ->] end.
  { rewrite zlen_app, head_length, zlen_app. destruct (Z.ltb_spec (file_len f) (1024 * 16)); lia. }
  exists rest. generalize (get_file_head_time_str c e ++ others). intros X. by rewrite <- !app_assoc.
Qed.

Lemma load_stored bm c e bs f :
  fits bm -> stored bm c e bs f ->
  exists rest, load_cache_file_head f =
    Ok (head_read c e, h ++ bs ++ rest, (get_file_head_time_str c e ++ others) ++ h ++ bs ++ rest, head_size).
Proof.
  intros Hf [Ht [Hl _] Hh Hlen]. destruct (read_stored bm c e bs f Hf Hl Hh Hlen) as [rest ->]. exists rest.
  exact (head_stored bm c e (h ++ bs ++ rest) Hf Ht).
Qed.

(** The node after a restart. *)
Definition node_read (now c e : Z) (bs : list Z) (bm : BitMap) (version : Z) : ProxyCacheFileNode :=
  mkFileNode (if e <=? now then Expire else Exist) version
    (mkBitMap bs (slice_size bm) (count_bits bs (Z.to_nat (slice_size bm)))) r head_size (zlen h) (head_size + zlen h) (body_place bm)
    (body_place bm) raw
    (HttpCtx.mkInfo (HttpCtx.last_modified_time info) (HttpCtx.info_last_modified info) (HttpCtx.info_e_tag info) c e (HttpCtx.info_range info)) h
    (head_read c e).

Lemma from_stored now bm c e bs f version :
  fits bm -> stored bm c e bs f -> from_file now ci (Some f) version = Ok (Some (node_read now c e bs bm version)).
Proof.
  intros Hf Hs. destruct (load_stored bm c e bs f Hf Hs) as [rest El]. destruct (body_placed bm Hf) as [Hp _]. pose proof (fit_size _ Hf).
  destruct Hs as [Ht [Hl Hu] _ _]. assert (zlen bs = zlen (bitset bm)) as Hz by (unfold zlen; by rewrite Hl).
  pose proof (zlen_nonneg h). pose proof (zlen_nonneg bs). pose proof (zlen_nonneg rest).
  assert (0 <= head_size) by (unfold head_size; pose proof (zlen_nonneg others); pose proof (zlen_nonneg (get_file_head_time_str 0 0)); lia).
  unfold from_file. cbn [ok_or mbind outcome_bind]. rewrite El, (fit_http _ Hf). cbn [mbind outcome_bind].
  rewrite (fit_range _ Hf), (fit_dates _ Hf). cbn [mbind outcome_bind]. fold raw. rewrite (fit_bitmap _ Hf), (fit_tags _ Hf). cbn [mbind outcome_bind].
  rewrite <- Hz in *. unwrap. set (buf := _ ++ h ++ bs ++ rest).
  assert (zlen buf = head_size + zlen h + zlen bs + zlen rest) as Hb by (subst buf; rewrite zlen_app, head_length, !zlen_app; lia).
  destruct (Z.ltb_spec (zlen buf) (head_size + zlen h + zlen bs)); [lia|]. rewrite vslice_ok by lia. cbn [mbind outcome_bind].
  assert (take (Z.to_nat (head_size + zlen h + zlen bs - (head_size + zlen h))) (drop (Z.to_nat (head_size + zlen h)) buf) = bs) as ->.
  { subst buf. rewrite app_assoc. replace (Z.to_nat (head_size + zlen h)) with (length ((get_file_head_time_str c e ++ others) ++ h)).
    - rewrite drop_app_length. replace (Z.to_nat _) with (length bs) by (unfold zlen in *; lia). by rewrite take_app_length.
    - rewrite length_app. pose proof (head_length c e). unfold zlen in *. lia. }
  assert (bitmap_wf (load_bits bm bs)) as Hw by (destruct (fits_wf bm Hf); split; cbn; rewrite ?Hz; done).
  rewrite repair_counts by done. cbn [mbind outcome_bind load_bits bitset slice_size head_expires_time head_control_time head_read].
  unfold node_read, body_place. rewrite <- Hz. do 3 f_equal. rewrite take_app_length'; [done|unfold zlen; lia].
Qed.

(** C20. A cached answer survives a restart.  Whatever was written to its file
    since it was created (new times when it was validated again, its bitmap,
    pieces of its body, in any order and number), [from_file] gives a node with
    the head, the places and the answer of the node that was created, with the
    times and the bits that were written last, the slices counted again, and
    the status that the time of day gives it. *)
Theorem cache_survives_restart bm version version' ops now :
  fits bm -> times_fit (HttpCtx.info_cache_control_time info) (HttpCtx.expires_time info) -> Forall (op_fits bm) ops ->
  exists f, create_file client_method client_uri ci info (Some h) r version = Ok (created bm version, f) /\
    let '(c, e, bs) := last_written ops (HttpCtx.info_cache_control_time info) (HttpCtx.expires_time info) (bitset bm) in
    from_file now ci (Some (foldl (do_op (created bm version)) f ops)) version' = Ok (Some (node_read now c e bs bm version')).
Proof.
  intros Hf Ht Ho. destruct (create_stored bm version Hf Ht) as (f & E & Hs). exists f. split; [done|].
  pose proof (ops_stored bm (created bm version) ops _ _ _ f Hf eq_refl eq_refl Hs Ho) as Hs'.
  destruct (last_written ops _ _ _) as [[c e] bs]. by apply from_stored.
Qed.

Lemma break_at_end e : e mod 2 ^ 16 = 3338 -> to_be_bytes e = take 6 (to_be_bytes e) ++ CRLF.
Proof.
  intros He. unfold to_be_bytes, CRLF. cbn [fmap list_fmap take app]. do 6 f_equal. unfold wrap.
  rewrite Z.shiftr_div_pow2, Z.shiftr_0_r by lia. repeat f_equal; Z.to_euclidean_division_equations; lia.
Qed.

(** C39. An answer whose time of expiry ends in the bytes of a line break, which
    one second in 65536 does, can not be read from its file: the time is
    written in binary into a head of lines, and the head seems to end there. *)
Theorem time_break_loses_file bm version version' now :
  fits bm -> clean (to_be_bytes (HttpCtx.info_cache_control_time info)) -> clean (take 6 (to_be_bytes (HttpCtx.expires_time info))) ->
  HttpCtx.expires_time info mod 2 ^ 16 = 3338 ->
  exists f, create_file client_method client_uri ci info (Some h) r version = Ok (created bm version, f) /\
    load_cache_file_head f = Err "raw_content_length.is_empty" /\ from_file now ci (Some f) version' = Ok None.
Proof.
  intros Hf Hc He Hm. destruct (create_holds bm version Hf) as (f & E & Hh & Hl). exists f. split; [done|].
  assert (load_cache_file_head f = Err "raw_content_length.is_empty") as El.
  { destruct (read_stored bm _ _ _ f Hf eq_refl Hh Hl) as [rest ->].
    set (c := HttpCtx.info_cache_control_time info) in *. set (b := take 6 _) in *.
    assert (forall X, get_file_head_time_str c (HttpCtx.expires_time info) ++ X =
      join_lines [key_line; entry "cache_control_time" (to_be_bytes c)] ++ entry "expires_time" b ++ CRLF ++ CRLF ++ X) as Es.
    { intros X. unfold get_file_head_time_str, time_lines, head_line. rewrite (break_at_end _ Hm). fold b.
      change (as_bytes CACHE_FILE_KEY) with (key_line ++ CRLF). unfold join_lines, entry. cbn [mbind list_bind app].
      rewrite <- !app_assoc. cbn [app]. rewrite <- !app_assoc. cbn [app]. by rewrite <- ?app_assoc. }
    rewrite <- app_assoc, Es, read_lines.
    - reflexivity.
    - apply List.Forall_cons; [by split|]. apply List.Forall_cons; [by apply clean_entry|by apply List.Forall_nil].
    - by apply clean_entry.
    - done. }
  split; [done|]. unfold from_file. cbn [ok_or mbind outcome_bind]. by rewrite El.
Qed.
End restart.

(** ** A concrete answer *)

(** A plain parser of heads of answers. *)
Definition plain_headers (ls : list (list Z)) : option (list (list Z * list Z)) := mapM (fun l => bytes_split_once l [58; 32]) ls.
Definition plain_httparse (buf : list Z) : ParseStatus :=
  match bytes_index buf (CRLF ++ CRLF) with
  | None => Partial
  | Some p =>
      match bytes_split (take p buf) CRLF with
      | Ok (first :: headers) =>
          match parse_u 16 (text_of (take 3 (drop 9 first))), plain_headers headers with
          | Some code, Some headers => Complete (Z.of_nat p + 4) code 1 headers
          | _, _ => ParseError
          end
      | _ => ParseError
      end
  end.

Definition plain_parse : @HttpParse assoc_http := @Build_HttpParse assoc_http
  string (fun u => u) (fun b => Ok (text_of b))
  (fun m => match m with GET => "GET" | HEAD => "HEAD" | Extension s => s | _ => "OTHER" end)
  (fun b => let s := text_of b in if String.eqb s "GET" then Ok GET else if String.eqb s "HEAD" then Ok HEAD else Ok (Extension s))
  plain_httparse (fun b => Some (to_lowercase (text_of b))) text_of (fun k v m => (m ++ [(k, v)])%list) [].

Definition demo_headers : list (string * string) := [("content-length", "5000"); ("etag", "abc"); ("last-modified", "77")].
Definition demo_answer : list Z :=
  match @http_respons_to_vec assoc_http HTTP_11 200 demo_headers with Ok s => as_bytes s | _ => [] end.
Definition demo_response : @Response assoc_http := @mkResponse assoc_http HTTP_11 200 demo_headers.
Definition demo_cache_info : ProxyCacheFileInfo := mkCacheInfo 0 1024 (as_bytes "9f86") (as_bytes "GETa.cn/x") 7 "/c/6/9f86" "/c/6/tmp/9f86_1_1" "GEThttp://a.cn/x".
Definition demo_info (expires : Z) : @HttpCtx.HttpResponseInfo assoc_http :=
  @HttpCtx.mkInfo assoc_http 77 "77" "abc" 3600 expires (mkRange false 5000 5000 0 4999).
Definition demo_bits : BitMap := mkBitMap [0] 5 0.

Lemma demo_fits expires :
  @head_size assoc_http plain_parse GET "http://a.cn/x" demo_cache_info (demo_info expires) <= 16000 ->
  @fits assoc_http plain_parse GET "http://a.cn/x" demo_cache_info (demo_info expires) demo_answer demo_response demo_bits.
Proof.
  intros Hsize.
  assert (forall s, bool_decide (clean (as_bytes s)) = true -> s <> "" -> is_ascii s = true -> text s) as Ht.
  { intros s Hc%bool_decide_eq_true Hn Ha. split; [done|]. split; [done|]. by apply utf8_ascii. }
  split; try (by apply Ht); try reflexivity; try (by split); try (vm_compute; split; congruence).
  - change (zlen demo_answer) with 71. change (zlen (bitset demo_bits)) with 1. lia.
  - intros rest. unfold http_parse. replace (httparse (demo_answer ++ rest)) with (Complete (zlen demo_answer) 200 1
      ((fun p => (as_bytes p.1, as_bytes p.2)) <$> demo_headers)) by reflexivity. cbn [negb existsb].
    pose proof (zlen_nonneg rest). rewrite vslice_ok by (rewrite ?zlen_app; change (zlen demo_answer) with 71; lia). reflexivity.
Qed.

Lemma cache_survives_restart_witness :
  exists n f, @create_file assoc_http plain_parse GET "http://a.cn/x" demo_cache_info (demo_info 1800000000) (Some demo_answer) demo_response 1 = Ok (n, f) /\
    match @from_file assoc_http plain_parse 1800000500 demo_cache_info
      (Some (foldl (do_op n) f [Bits [3]; Body 0 [1; 2; 3]; Times 60 1800001000; Body 4990 (replicate 10 9); Bits [11]])) 7 with
    | Ok (Some n') => bitset (node_bitmap n') = [11] /\ curr_slice_size (node_bitmap n') = 3 /\ body_start n' = body_start n /\
        cache_file_status n' = Exist /\ head_expires_time (node_head n') = 1800001000
    | _ => False
    end.
Proof.
  set (ops := [Bits [3]; Body 0 [1; 2; 3]; Times 60 1800001000; Body 4990 (replicate 10 9); Bits [11]]).
  destruct (@cache_survives_restart assoc_http plain_parse GET "http://a.cn/x" demo_cache_info (demo_info 1800000000) demo_answer demo_response
    demo_bits 1 7 ops 1800000500) as (f & E & Hr).
  - apply demo_fits. vm_compute. congruence.
  - split_and!; vm_compute; congruence.
  - repeat apply List.Forall_cons; try apply List.Forall_nil; unfold op_fits, times_fit; split_and?;
      first [vm_compute; congruence|by repeat constructor].
  - eexists _, f. split; [exact E|]. vm_compute last_written in Hr. cbv iota in Hr. rewrite Hr. vm_compute. split_and!; reflexivity.
Defined.

Lemma time_break_loses_file_witness :
  1800015114 mod 2 ^ 16 = 3338 /\
  exists n f, @create_file assoc_http plain_parse GET "http://a.cn/x" demo_cache_info (demo_info 1800015114) (Some demo_answer) demo_response 1 = Ok (n, f) /\
    @from_file assoc_http plain_parse 1800000500 demo_cache_info (Some f) 7 = Ok None.
Proof.
  split; [reflexivity|].
  destruct (@time_break_loses_file assoc_http plain_parse GET "http://a.cn/x" demo_cache_info (demo_info 1800015114) demo_answer demo_response
    demo_bits 1 7 1800000500) as (f & E & _ & Hr).
  - apply demo_fits. vm_compute. congruence.
  - reflexivity.
  - reflexivity.
  - reflexivity.
  - eexists _, f. split; [exact E|exact Hr].
Defined.
