(* ===== verification/CacheHot.v ===== *)
(** Hot files: the counting of requests in [HttpCacheFile::load_cache_file] and
    [ProxyCache::sort_hot]
    ([any-proxy/src/proxy/http_proxy/http_cache_file.rs]), which decides every
    interval which files may be read from another cache. *)
From Stdlib Require Import Sorting.Sorted.
From S2P Require Import Prelude RustStd.
#[local] Open Scope Z_scope.

(** ** Data

    The counters and flags are shared between a file and the lists; they are
    names into a store. *)
Record ProxyCacheFileHotValue := mkHotValue { md5 : Z; hot_count : Z; is_hot : Z }.
Record ProxyCacheFileHot := mkHot { values : list ProxyCacheFileHotValue; is_ok : Z }.

(** The part of [ProxyCacheFileNodeManage] that is counted. *)
Record Manage := mkManage { m_md5 : Z; m_count : Z; m_is_ok : Z; m_is_hot : Z }.

Record Hots := mkHots {
  counts : gmap Z Z;
  flags : gmap Z bool;
  next : Z;
  hots : list ProxyCacheFileHot;
  hot_instant : Z
}.

Definition eta_hots (s : Hots) : Hots := mkHots (counts s) (flags s) (next s) (hots s) (hot_instant s).
Definition set_counts : gmap Z Z -> Hots -> Hots := ltac:(setter eta_hots counts).
Definition set_flags : gmap Z bool -> Hots -> Hots := ltac:(setter eta_hots flags).
Definition set_next : Z -> Hots -> Hots := ltac:(setter eta_hots next).
Definition set_hots : list ProxyCacheFileHot -> Hots -> Hots := ltac:(setter eta_hots hots).
Definition set_instant : Z -> Hots -> Hots := ltac:(setter eta_hots hot_instant).

Definition count (s : Hots) (c : Z) : Z := default 0 (counts s !! c).
Definition flag (s : Hots) (c : Z) : bool := default false (flags s !! c).
Definition store_flag (c : Z) (b : bool) (s : Hots) : Hots := set_flags (<[c := b]> (flags s)) s.

(** ** Operations *)

(** [ProxyCacheFileHot::new] *)
Definition hot_new (s : Hots) : ProxyCacheFileHot * Hots :=
  (mkHot [] (next s), store_flag (next s) true (set_next (next s + 1) s)).

(** A request for a file: its first one since the lists were moved on enters it
    into the last list, with a counter of its own. *)
Definition hot_request (is_open : bool) (m : Manage) (s : Hots) : Manage * Hots :=
  let '(m, s) :=
    if is_open && negb (flag s (m_is_ok m)) then
      match last (hots s) with
      | None => (m, s)
      | Some back =>
          let c := next s in
          let back' := mkHot (values back ++ [mkHotValue (m_md5 m) c (m_is_hot m)]) (is_ok back) in
          (mkManage (m_md5 m) c (is_ok back) (m_is_hot m),
           set_hots (take (length (hots s) - 1) (hots s) ++ [back']) (set_counts (<[c := 0]> (counts s)) (set_next (c + 1) s)))
      end
    else (m, s) in
  (m, set_counts (<[m_count m := wrap64 (count s (m_count m) + 1)]> (counts s)) s).

(** [sort_by] of the standard library, which is stable, by the counters. *)
Fixpoint insert_by (s : Hots) (v : ProxyCacheFileHotValue) (l : list ProxyCacheFileHotValue) : list ProxyCacheFileHotValue :=
  match l with
  | [] => [v]
  | w :: l => if count s (hot_count v) <=? count s (hot_count w) then v :: w :: l else w :: insert_by s v l
  end.
Definition sort_by_count (s : Hots) (l : list ProxyCacheFileHotValue) : list ProxyCacheFileHotValue := foldr (insert_by s) [] l.

Definition store_flags (b : bool) (cs : list Z) (s : Hots) : Hots := foldl (fun s c => store_flag c b s) s cs.

(** [min(values.len(), hot_top_count)] *)
Definition top (n : Z) (vs : list ProxyCacheFileHotValue) : nat := Z.to_nat (if zlen vs <? n then zlen vs else n).

Definition sort_hot (now hot_interval_time hot_top_count : Z) : stm Hots unit := fun s =>
  if now - hot_instant s <? hot_interval_time then (Ok tt, s)
  else
    let s := set_instant now s in
    let s := store_flags false (is_ok <$> hots s) s in
    let '(h, s) := hot_new s in
    let s := set_hots (hots s ++ [h]) s in
    match hots s with
    | [] => (Panic, s)
    | hot :: rest =>
        let s := set_hots rest s in
        let s := store_flags false (is_hot <$> take (top hot_top_count (values hot)) (values hot)) s in
        match hots s with
        | [] => (Panic, s)
        | hot :: rest =>
            let vs := sort_by_count s (values hot) in
            let s := set_hots (mkHot vs (is_ok hot) :: rest) s in
            (Ok tt, store_flags true (is_hot <$> take (top hot_top_count vs) vs) s)
        end
    end.

(** ** What is marked *)

Lemma insert_sorted s v l :
  Sorted (fun a b => count s (hot_count a) <= count s (hot_count b)) l ->
  Sorted (fun a b => count s (hot_count a) <= count s (hot_count b)) (insert_by s v l).
Proof.
  induction 1 as [|w l Hl IH Hw]; cbn; [by repeat constructor|].
  destruct (Z.leb_spec (count s (hot_count v)) (count s (hot_count w))); [by repeat constructor|].
  constructor; [done|]. destruct l as [|x l]; cbn; [constructor; lia|]. inversion Hw; subst.
  destruct (_ <=? _); constructor; lia.
Qed.

Lemma insert_perm s v l : insert_by s v l ≡ₚ v :: l.
Proof. induction l as [|w l IH]; cbn; [done|]. destruct (_ <=? _); [done|]. rewrite IH. apply Permutation_swap. Qed.

Lemma sort_spec s l :
  Sorted (fun a b => count s (hot_count a) <= count s (hot_count b)) (sort_by_count s l) /\ sort_by_count s l ≡ₚ l.
Proof.
  induction l as [|v l [IH1 IH2]]; cbn; [by repeat constructor|]. split; [by apply insert_sorted|]. by rewrite insert_perm, IH2.
Qed.

#[local] Arguments store_flags : simpl never.

Lemma store_flags_get b cs s c : flag (store_flags b cs s) c = if decide (c ∈ cs) then b else flag s c.
Proof.
  revert s. induction cs as [|x cs IH]; intros s; [done|]. unfold store_flags in *. cbn [foldl]. rewrite IH.
  destruct (decide (c ∈ cs)); [by rewrite decide_True by (by right)|]. unfold flag. cbn. destruct (decide (c = x)) as [->|Hc].
  - by rewrite lookup_insert_eq, decide_True by (by left).
  - rewrite lookup_insert_ne by done. rewrite decide_False; [done|]. by intros [|]%elem_of_cons.
Qed.

Lemma store_flags_keeps b cs s :
  counts (store_flags b cs s) = counts s /\ hots (store_flags b cs s) = hots s /\ next (store_flags b cs s) = next s.
Proof. revert s. induction cs as [|c cs IH]; intros s; [done|]. exact (IH (store_flag c b s)). Qed.

Lemma sort_counts s s' l : counts s = counts s' -> sort_by_count s l = sort_by_count s' l.
Proof.
  intros E. assert (forall c, count s c = count s' c) as Hc by (intros c; unfold count; by rewrite E).
  assert (forall v k, insert_by s v k = insert_by s' v k) as Hi.
  { intros v k. induction k as [|w k IHk]; [done|]. cbn. by rewrite IHk, !Hc. }
  unfold sort_by_count. induction l as [|v l IH]; [done|]. cbn. by rewrite IH, Hi.
Qed.

Lemma sorted_split {A} (R : A -> A -> Prop) `{!Transitive R} l n v w :
  Sorted R l -> v ∈ take n l -> w ∈ drop n l -> R v w.
Proof.
  intros Hs%Sorted_StronglySorted; [|done]. revert n. induction Hs as [|x l Hl IH Hx]; intros [|n] Hv Hw; cbn in *;
    try by apply elem_of_nil in Hv. apply elem_of_cons in Hv as [->|Hv]; [|by apply (IH n)].
  rewrite Forall_forall in Hx. apply Hx. by apply (subseteq_drop n).
Qed.

(** When the lists are moved on, the files marked as hot are those with the
    fewest requests: the list that is now in front is sorted by its counters,
    the smallest first, and it is its beginning that is marked. *)
Theorem hot_marks_coldest now interval k s a b rest :
  hots s = a :: b :: rest -> interval <= now - hot_instant s ->
  exists vs s', sort_hot now interval k s = (Ok tt, s') /\ hots s' = mkHot vs (is_ok b) :: rest ++ [mkHot [] (next s)] /\ vs ≡ₚ values b /\
    Forall (fun v => flag s' (is_hot v) = true) (take (top k vs) vs) /\
    forall v w, v ∈ take (top k vs) vs -> w ∈ drop (top k vs) vs -> count s (hot_count v) <= count s (hot_count w).
Proof.
  intros Hh Hi. unfold sort_hot. destruct (Z.ltb_spec (now - hot_instant s) interval); [lia|]. cbn [hot_new].
  set (s0 := store_flags false _ (set_instant now s)).
  destruct (store_flags_keeps false (is_ok <$> hots (set_instant now s)) (set_instant now s)) as (Hc0 & Hh0 & Hn0). fold s0 in Hc0, Hh0, Hn0.
  cbn in Hc0, Hh0, Hn0. cbn. rewrite Hh0, Hh. cbn [app].
  set (s1 := store_flags false _ _).
  assert (counts s1 = counts s /\ hots s1 = b :: rest ++ [mkHot [] (next s)]) as [Hc1 Hh1].
  { subst s1. match goal with |- context [store_flags false ?cs ?x] => destruct (store_flags_keeps false cs x) as (Hc & Hs & _) end.
    rewrite Hc, Hs. cbn. by rewrite Hc0, Hn0. }
  rewrite Hh1. cbn. rewrite (sort_counts s1 s) by done. destruct (sort_spec s (values b)) as [Hs Hp]. set (vs := sort_by_count s (values b)) in *.
  eexists vs, _. split; [reflexivity|]. split; [by apply store_flags_keeps|]. split; [done|]. split.
  - apply Forall_forall. intros v Hv. rewrite store_flags_get. by rewrite decide_True by (by apply list_elem_of_fmap_2).
  - intros v w Hv Hw. assert (Transitive (fun x y => count s (hot_count x) <= count s (hot_count y))) by (intros x y z; lia).
    by apply (sorted_split (fun x y => count s (hot_count x) <= count s (hot_count y)) vs (top k vs)).
Qed.

Definition demo_hots : Hots :=
  mkHots {[10 := 5; 11 := 900; 12 := 1]} ∅ 20 [mkHot [] 1; mkHot [mkHotValue 1 10 100; mkHotValue 2 11 101; mkHotValue 3 12 102] 2] 0.

Lemma hot_marks_coldest_witness :
  exists s', sort_hot 60 60 1 demo_hots = (Ok tt, s') /\ flag s' 102 = true /\ flag s' 101 = false.
Proof.
  destruct (hot_marks_coldest 60 60 1 demo_hots (mkHot [] 1) (mkHot [mkHotValue 1 10 100; mkHotValue 2 11 101; mkHotValue 3 12 102] 2) [])
    as (vs & s' & E & _); [reflexivity|vm_compute; congruence|].
  exists s'. split; [exact E|]. replace s' with (sort_hot 60 60 1 demo_hots).2 by exact (f_equal snd E). split; reflexivity.
Defined.
