(* ===== verification/StreamBuf.v ===== *)
(** The buffers between two streams,
    [any-proxy/src/proxy/stream_stream_buf.rs]: chunks of bytes as they were
    read ([StreamStreamBytes]), a buffer that is read into
    ([StreamStreamBuffer]), pieces of files ([StreamStreamFile]), and the queue
    of what is about to be written ([StreamStreamCacheWriteDeque]).
    A length of what is held in memory does not wrap; sizes and places in
    files do.  [StreamBufSpec] has the theorems. *)
From S2P Require Import Prelude.
#[local] Open Scope string_scope.
#[local] Open Scope list_scope.
#[local] Open Scope Z_scope.

(** ** The interface of the buffers, [StreamStreamBuf] *)

Class StreamStreamBuf (B Obj : Type) := {
  remaining : B -> Z;
  chunk : Z -> stm B (list Z);
  chunk_all : stm B (list Z);
  advance : Z -> stm B unit;
  chunk_bytes : Z -> stm B (list Z);
  chunk_bytes_all : stm B (list Z);
  split_to : Z -> stm B Obj
}.

Definition has_remaining `{StreamStreamBuf B Obj} (b : B) : bool := 0 <? remaining b.

(** ** A cursor over what was put together *)

Record Cursor := mkCursor { cur_bytes : list Z; cur_pos : Z; cur_max : Z }.

Definition cursor_new (max : Z) : Cursor := mkCursor [] 0 max.
Definition cursor_remaining (c : Cursor) : Z := zlen (cur_bytes c) - cur_pos c.
Definition cursor_is_some (c : Cursor) : bool := 0 <? cursor_remaining c.
Definition cursor_resize (size : Z) (c : Cursor) : Cursor :=
  if size <=? cur_max c then c else mkCursor (cur_bytes c) (cur_pos c) size.
Definition cursor_extend (data : list Z) (c : Cursor) : Cursor :=
  mkCursor (cur_bytes c ++ data) (cur_pos c) (cur_max c).
Definition cursor_is_full (c : Cursor) : bool := cursor_is_some c && (cur_max c <=? zlen (cur_bytes c)).
Definition cursor_chunk (c : Cursor) : outcome (list Z) := vslice (cur_bytes c) (cur_pos c) (zlen (cur_bytes c)).
Definition cursor_reset (c : Cursor) : Cursor := mkCursor [] 0 (cur_max c).

(** The bytes leave the cursor. *)
Definition cursor_chunk_bytes : stm Cursor (list Z) := fun c => (cursor_chunk c, cursor_reset c).

Definition cursor_advance (cnt : Z) (c : Cursor) : Cursor :=
  let pos := cur_pos c + cnt in
  if pos =? zlen (cur_bytes c) then mkCursor [] 0 (cur_max c) else mkCursor (cur_bytes c) pos (cur_max c).

(** ** Chunks *)

Record StreamStreamBytes := mkBytes {
  b_datas : list (list Z);
  b_size : Z;
  b_cache : list Z;
  b_cache_all : Cursor
}.

Definition eta_bytes (b : StreamStreamBytes) : StreamStreamBytes := mkBytes (b_datas b) (b_size b) (b_cache b) (b_cache_all b).
Definition set_b_datas : list (list Z) -> StreamStreamBytes -> StreamStreamBytes := ltac:(setter eta_bytes b_datas).
Definition set_b_size : Z -> StreamStreamBytes -> StreamStreamBytes := ltac:(setter eta_bytes b_size).
Definition set_b_cache : list Z -> StreamStreamBytes -> StreamStreamBytes := ltac:(setter eta_bytes b_cache).
Definition set_b_cache_all : Cursor -> StreamStreamBytes -> StreamStreamBytes := ltac:(setter eta_bytes b_cache_all).

Definition bytes_new : StreamStreamBytes := mkBytes [] 0 [] (cursor_new 0).

Definition bytes_push_back (data : list Z) (b : StreamStreamBytes) : StreamStreamBytes :=
  let b := if cursor_is_some (b_cache_all b) then set_b_cache_all (cursor_extend data (b_cache_all b)) b else b in
  set_b_datas (b_datas b ++ [data]) (set_b_size (b_size b + zlen data) b).

(** [push_back_vec] and [push_back_deque] *)
Definition bytes_push_back_deque (ds : list (list Z)) (b : StreamStreamBytes) : StreamStreamBytes :=
  fold_left (fun b data => bytes_push_back data b) ds b.

(** The loop that copies from the chunks until [size] bytes are there; it
    stops early at a chunk with nothing in it. The second part is what is left
    to copy. *)
Fixpoint gather (size : Z) (ds : list (list Z)) : list Z * Z :=
  match ds with
  | [] => ([], size)
  | data :: ds =>
      let n := Z.min size (zlen data) in
      if n =? 0 then ([], size - n)
      else let (l, left) := gather (size - n) ds in (take (Z.to_nat n) data ++ l, left)
  end.

Definition first_data (b : StreamStreamBytes) : outcome (list Z) := expect (head (b_datas b)).

Definition bytes_chunk_all : stm StreamStreamBytes (list Z) :=
  b ← gets id;
  if zlen (b_datas b) =? 1 then lift (first_data b)
  else if cursor_is_some (b_cache_all b) then lift (cursor_chunk (b_cache_all b))
  else
    let c := foldl (fun c data => cursor_extend data c) (cursor_resize (b_size b) (b_cache_all b)) (b_datas b) in
    _ ← modify (set_b_cache_all c);
    lift (cursor_chunk c).

Definition bytes_chunk (size : Z) : stm StreamStreamBytes (list Z) :=
  b ← gets id;
  if (b_size b <=? 0) || (b_size b <? size) then lift Panic
  else
    first ← lift (first_data b);
    if size =? 0 then mret first
    else if size <=? zlen first then lift (vslice first 0 size)
    else if (size =? b_size b) || cursor_is_some (b_cache_all b) then
      all ← bytes_chunk_all; lift (vslice all 0 size)
    else
      let l := (gather size (b_datas b)).1 in
      _ ← modify (set_b_cache l);
      mret l.

(** Whole chunks are popped and the last one is cut. *)
Fixpoint advance_datas (ds : list (list Z)) (cnt : Z) : outcome (list (list Z)) :=
  match ds with
  | [] => Panic
  | first :: rest =>
      if zlen first <=? cnt then
        let cnt := cnt - zlen first in if cnt <=? 0 then Ok rest else advance_datas rest cnt
      else Ok (drop (Z.to_nat cnt) first :: rest)
  end.

Definition bytes_advance (cnt : Z) : stm StreamStreamBytes unit :=
  b ← gets id;
  if (b_size b <? cnt) || (b_size b <=? 0) then lift Panic
  else
    let size := b_size b - cnt in
    if size <=? 0 then
      modify (fun b => mkBytes [] size [] (cursor_reset (b_cache_all b)))
    else
      _ ← modify (fun b =>
        let b := set_b_size size b in
        if cursor_is_some (b_cache_all b) then set_b_cache_all (cursor_advance cnt (b_cache_all b)) b else b);
      ds ← lift (advance_datas (b_datas b) cnt);
      modify (set_b_datas ds).

Definition bytes_chunk_bytes_all : stm StreamStreamBytes (list Z) :=
  b ← gets id;
  if zlen (b_datas b) =? 1 then lift (first_data b)
  else
    _ ← bytes_chunk_all;
    b ← gets id;
    let (l, c) := cursor_chunk_bytes (b_cache_all b) in
    _ ← modify (set_b_cache_all c);
    lift l.

Definition bytes_chunk_bytes (size : Z) : stm StreamStreamBytes (list Z) :=
  b ← gets id;
  if (b_size b <=? 0) || (b_size b <? size) then lift Panic
  else
    first ← lift (first_data b);
    if size =? 0 then mret first
    else if size <=? zlen first then lift (vslice first 0 size)
    else if size =? b_size b then bytes_chunk_bytes_all
    else if cursor_is_some (b_cache_all b) then all ← bytes_chunk_bytes_all; lift (vslice all 0 size)
    else mret (gather size (b_datas b)).1.

(** The slices for a vectored write, at most [room] of them. *)
Fixpoint chunks_vectored (room : nat) (ds : list (list Z)) : list (list Z) :=
  match room, ds with
  | S r, buf :: ds => if 0 <? zlen buf then buf :: chunks_vectored r ds else chunks_vectored room ds
  | _, _ => []
  end.

Fixpoint split_datas (size : Z) (ds : list (list Z)) : outcome (list (list Z) * list (list Z)) :=
  match ds with
  | [] => Panic
  | first :: rest =>
      if zlen first <=? size then
        let size := size - zlen first in
        if size <=? 0 then Ok ([first], rest)
        else '(l, r) ← split_datas size rest; Ok (first :: l, r)
      else Ok ([take (Z.to_nat size) first], drop (Z.to_nat size) first :: rest)
  end.

Definition bytes_split_to (size : Z) : stm StreamStreamBytes StreamStreamBytes :=
  b ← gets id;
  if (size <=? 0) || (b_size b <=? size) then lift Panic
  else
    let left := b_size b - size in
    _ ← modify (fun b =>
      let b := set_b_size left b in
      if cursor_is_some (b_cache_all b)
      then set_b_cache_all (if left <=? 0 then cursor_reset (b_cache_all b) else cursor_advance size (b_cache_all b)) b
      else b);
    '(l, r) ← lift (split_datas size (b_datas b));
    _ ← modify (set_b_datas r);
    mret (bytes_push_back_deque l bytes_new).

#[export] Instance bytes_buf : StreamStreamBuf StreamStreamBytes StreamStreamBytes := {
  remaining := b_size;
  chunk := bytes_chunk;
  chunk_all := bytes_chunk_all;
  advance := bytes_advance;
  chunk_bytes := bytes_chunk_bytes;
  chunk_bytes_all := bytes_chunk_bytes_all;
  split_to := bytes_split_to
}.

(** ** A buffer that is read into *)

Record StreamStreamBuffer := mkBuffer { u_data : list Z; u_size : Z; u_max_size : Z }.

Definition buffer_new (read_buffer_size : Z) : StreamStreamBuffer :=
  mkBuffer (replicate (Z.to_nat read_buffer_size) 0) 0 read_buffer_size.

Definition buffer_chunk_all : stm StreamStreamBuffer (list Z) := fun u => (vslice (u_data u) 0 (u_size u), u).

Definition buffer_chunk (size : Z) : stm StreamStreamBuffer (list Z) :=
  u ← gets id;
  if (size <=? 0) || (u_size u <? size) then lift Panic
  else all ← buffer_chunk_all; lift (vslice all 0 size).

(** [data.advance(cnt)] of the [bytes] crate panics past the end. *)
Definition buffer_advance (cnt : Z) : stm StreamStreamBuffer unit :=
  u ← gets id;
  if (u_size u <? cnt) || (u_size u <=? 0) then lift Panic
  else
    data ← lift (vslice (u_data u) cnt (zlen (u_data u)));
    modify (fun u => mkBuffer data (u_size u - cnt) (wrap64 (u_max_size u - cnt))).

Definition buffer_split_to (size : Z) : stm StreamStreamBuffer StreamStreamBuffer :=
  u ← gets id;
  if (size <=? 0) || (u_size u <=? size) then lift Panic
  else
    l ← lift (vslice (u_data u) 0 size);
    r ← lift (vslice (u_data u) size (zlen (u_data u)));
    _ ← modify (fun u => mkBuffer r (u_size u - size) (wrap64 (u_max_size u - size)));
    mret (mkBuffer l size size).

#[export] Instance buffer_buf : StreamStreamBuf StreamStreamBuffer StreamStreamBuffer := {
  remaining := u_size;
  chunk := buffer_chunk;
  chunk_all := buffer_chunk_all;
  advance := buffer_advance;
  chunk_bytes := buffer_chunk;
  chunk_bytes_all := buffer_chunk_all;
  split_to := buffer_split_to
}.

Definition buffer_to_bytes (u : StreamStreamBuffer) : outcome (list Z) := vslice (u_data u) 0 (u_size u).

(** [&mut data[size..max_size]], as the number of bytes it has room for. *)
Definition free_data_mut (u : StreamStreamBuffer) : outcome Z :=
  l ← vslice (u_data u) (u_size u) (u_max_size u); Ok (zlen l).

(** The reader has written [l] there. *)
Definition buffer_fill (l : list Z) (u : StreamStreamBuffer) : StreamStreamBuffer :=
  mkBuffer (take (Z.to_nat (u_size u)) (u_data u) ++ l ++ drop (Z.to_nat (u_size u) + length l) (u_data u)) (u_size u) (u_max_size u).

Definition buffer_add_size (n : Z) (u : StreamStreamBuffer) : StreamStreamBuffer :=
  mkBuffer (u_data u) (u_size u + n) (u_max_size u).

Definition buffer_is_full (u : StreamStreamBuffer) : bool := u_size u =? u_max_size u.

(** The bytes that come in are zeros; nothing reads them before they are
    written. *)
Definition buffer_resize_max_size (size : Z) (u : StreamStreamBuffer) : StreamStreamBuffer :=
  if size <? u_size u then u
  else mkBuffer (take (Z.to_nat size) (u_data u ++ replicate (Z.to_nat size) 0)) (u_size u) size.

(** ** Pieces of files

    A [FileExt] is its descriptor, its number in the file system and whether
    it is read around the page cache. *)
Record FileExt := mkFileExt { file_fd : Z; file_uniq : Z; is_directio : bool }.

#[export] Instance FileExt_eq_dec : EqDecision FileExt.
Proof. solve_decision. Defined.

Definition is_sendfile (f : FileExt) : bool := (0 <? file_fd f) && negb (is_directio f).
Definition is_uniq_and_fd_eq (f g : FileExt) : bool := (file_uniq f =? file_uniq g) && (file_fd f =? file_fd g).

(** The senders of [notify_tx] are numbers; [None] once they were taken. *)
Record StreamStreamFile := mkFilePiece {
  f_file : FileExt;
  f_seek : Z;
  f_size : Z;
  f_notify : option (list nat)
}.

Definition file_piece (file : FileExt) (seek size : Z) : StreamStreamFile := mkFilePiece file seek size (Some []).

(** What is given to a stream that takes messages. *)
Inductive MsgWriteBuf :=
  | MsgBytes (data : list Z)
  | MsgFile (file : FileExt) (seek size : Z) (notify : option (list nat)).

Definition file_to_msg_write_buf : stm StreamStreamFile MsgWriteBuf := fun f =>
  (Ok (MsgFile (f_file f) (f_seek f) (f_size f) (f_notify f)), mkFilePiece (f_file f) (f_seek f) (f_size f) None).

(** The result is the senders that are told. *)
Definition file_advance (cnt : Z) : stm StreamStreamFile (list nat) :=
  f ← gets id;
  if f_size f <? cnt then lift Panic
  else
    let size := f_size f - cnt in
    if size =? 0
    then _ ← modify (fun f => mkFilePiece (f_file f) (wrap64 (f_seek f + cnt)) size None); mret (default [] (f_notify f))
    else _ ← modify (fun f => mkFilePiece (f_file f) (wrap64 (f_seek f + cnt)) size (f_notify f)); mret [].

(** ** What was read *)

Inductive StreamStreamRead :=
  | RBytes (b : StreamStreamBytes)
  | RBuffer (u : StreamStreamBuffer)
  | RFile (f : StreamStreamFile).

Record StreamStreamCacheRead := mkCacheRead { r_data : StreamStreamRead; r_is_cache : bool; r_is_flush : bool }.

Definition read_from_bytes (b : StreamStreamBytes) : StreamStreamCacheRead := mkCacheRead (RBytes b) false false.
Definition read_from_buffer (u : StreamStreamBuffer) : StreamStreamCacheRead := mkCacheRead (RBuffer u) false false.
Definition read_from_file (f : StreamStreamFile) : StreamStreamCacheRead := mkCacheRead (RFile f) false false.

Definition set_r_data (d : StreamStreamRead) (r : StreamStreamCacheRead) : StreamStreamCacheRead := mkCacheRead d (r_is_cache r) (r_is_flush r).
Definition set_r_is_cache (x : bool) (r : StreamStreamCacheRead) : StreamStreamCacheRead := mkCacheRead (r_data r) x (r_is_flush r).
Definition set_r_is_flush (x : bool) (r : StreamStreamCacheRead) : StreamStreamCacheRead := mkCacheRead (r_data r) (r_is_cache r) x.

Definition read_is_file (r : StreamStreamCacheRead) : bool := match r_data r with RFile _ => true | _ => false end.
Definition read_remaining (r : StreamStreamCacheRead) : Z :=
  match r_data r with RBytes b => b_size b | RBuffer u => u_size u | RFile f => f_size f end.
Definition read_max_size (r : StreamStreamCacheRead) : Z := match r_data r with RBuffer u => u_max_size u | _ => 0 end.
Definition read_is_full (r : StreamStreamCacheRead) : bool :=
  match r_data r with RBytes _ => false | RBuffer u => buffer_is_full u | RFile _ => true end.
Definition read_resize_max_size (size : Z) (r : StreamStreamCacheRead) : StreamStreamCacheRead :=
  match r_data r with RBuffer u => set_r_data (RBuffer (buffer_resize_max_size size u)) r | _ => r end.

(** A call on the bytes of [r.buffer().unwrap()], whichever they are. *)
Definition on_bytes {A} (m : stm StreamStreamBytes A) (r : StreamStreamCacheRead) (b : StreamStreamBytes) : outcome A * StreamStreamCacheRead :=
  let (o, b) := m b in (o, set_r_data (RBytes b) r).
Definition on_buffer {A} (m : stm StreamStreamBuffer A) (r : StreamStreamCacheRead) (u : StreamStreamBuffer) : outcome A * StreamStreamCacheRead :=
  let (o, u) := m u in (o, set_r_data (RBuffer u) r).
Definition with_buffer {A} (mb : stm StreamStreamBytes A) (mu : stm StreamStreamBuffer A) : stm StreamStreamCacheRead A := fun r =>
  match r_data r with
  | RBytes b => on_bytes mb r b
  | RBuffer u => on_buffer mu r u
  | RFile _ => (Panic, r)
  end.

(** [StreamStreamCacheReadBuf], the borrow that [buffer()] gives; its
    [split_to] keeps the flags. *)
Definition read_split_to (size : Z) : stm StreamStreamCacheRead StreamStreamCacheRead :=
  r ← gets id;
  d ← with_buffer (b ← bytes_split_to size; mret (RBytes b)) (u ← buffer_split_to size; mret (RBuffer u));
  mret (mkCacheRead d (r_is_cache r) (r_is_flush r)).

#[export] Instance read_buf : StreamStreamBuf StreamStreamCacheRead StreamStreamCacheRead := {
  remaining := read_remaining;
  chunk n := with_buffer (bytes_chunk n) (buffer_chunk n);
  chunk_all := with_buffer bytes_chunk_all buffer_chunk_all;
  advance n := with_buffer (bytes_advance n) (buffer_advance n);
  chunk_bytes n := with_buffer (bytes_chunk_bytes n) (buffer_chunk n);
  chunk_bytes_all := with_buffer bytes_chunk_bytes_all buffer_chunk_all;
  split_to := read_split_to
}.

(** What a stream of messages gives: chunks, and a file after them. *)
Record StreamReadMsg := mkReadMsg { m_datas : list (list Z); m_file : option StreamStreamFile }.

Definition push_back_ream_msg (msg : StreamReadMsg) : stm StreamStreamCacheRead (option StreamStreamCacheRead) := fun r =>
  match r_data r with
  | RBytes b =>
      let r := set_r_data (RBytes (bytes_push_back_deque (m_datas msg) b)) r in
      match m_file msg with
      | Some f => (Ok (Some (mkCacheRead (RFile f) (r_is_cache r) true)), set_r_is_flush true r)
      | None => (Ok None, r)
      end
  | _ => (Panic, r)
  end.

(** [buffer.buf().unwrap()] *)
Definition buf (r : StreamStreamCacheRead) : outcome StreamStreamBuffer := match r_data r with RBuffer u => Ok u | _ => Panic end.

(** [add_size] after a read of [l] into the room of the buffer. *)
Definition read_add (l : list Z) : stm StreamStreamCacheRead unit := fun r =>
  match r_data r with
  | RBuffer u => (Ok tt, set_r_data (RBuffer (buffer_add_size (zlen l) (buffer_fill l u))) r)
  | _ => (Panic, r)
  end.

(** ** What is to be written *)

Inductive StreamStreamWrite :=
  | WBytes (b : StreamStreamBytes)
  | WFile (f : StreamStreamFile).

Record StreamStreamCacheWrite := mkCacheWrite { w_data : StreamStreamWrite; w_is_cache : bool }.

Definition write_is_file (w : StreamStreamCacheWrite) : bool := match w_data w with WBytes _ => false | WFile _ => true end.
Definition write_remaining (w : StreamStreamCacheWrite) : Z := match w_data w with WBytes b => b_size b | WFile f => f_size f end.
Definition write_bytes (w : StreamStreamCacheWrite) : outcome StreamStreamBytes := match w_data w with WBytes b => Ok b | WFile _ => Panic end.
Definition write_file (w : StreamStreamCacheWrite) : outcome StreamStreamFile := match w_data w with WBytes _ => Panic | WFile f => Ok f end.

Definition write_advance (cnt : Z) : stm StreamStreamCacheWrite unit := fun w =>
  match w_data w with
  | WBytes b => let (o, b) := bytes_advance cnt b in (o, mkCacheWrite (WBytes b) (w_is_cache w))
  | WFile f => let (o, f) := file_advance cnt f in ((fun _ => tt) <$> o, mkCacheWrite (WFile f) (w_is_cache w))
  end.

Definition to_cache_write (r : StreamStreamCacheRead) : outcome StreamStreamCacheWrite :=
  match r_data r with
  | RBytes b => Ok (mkCacheWrite (WBytes b) (r_is_cache r))
  | RBuffer u => l ← buffer_to_bytes u; Ok (mkCacheWrite (WBytes (bytes_push_back l bytes_new)) (r_is_cache r))
  | RFile f => Ok (mkCacheWrite (WFile f) (r_is_cache r))
  end.

Record StreamStreamCacheWriteDeque := mkDeque {
  q_datas : list StreamStreamCacheWrite;
  q_size : Z;
  q_cache : list Z;
  q_cache_all : Cursor
}.

Definition eta_deque (q : StreamStreamCacheWriteDeque) : StreamStreamCacheWriteDeque := mkDeque (q_datas q) (q_size q) (q_cache q) (q_cache_all q).
Definition set_q_datas : list StreamStreamCacheWrite -> StreamStreamCacheWriteDeque -> StreamStreamCacheWriteDeque := ltac:(setter eta_deque q_datas).
Definition set_q_size : Z -> StreamStreamCacheWriteDeque -> StreamStreamCacheWriteDeque := ltac:(setter eta_deque q_size).
Definition set_q_cache : list Z -> StreamStreamCacheWriteDeque -> StreamStreamCacheWriteDeque := ltac:(setter eta_deque q_cache).
Definition set_q_cache_all : Cursor -> StreamStreamCacheWriteDeque -> StreamStreamCacheWriteDeque := ltac:(setter eta_deque q_cache_all).

Definition deque_new (max_cache_size : Z) : StreamStreamCacheWriteDeque := mkDeque [] 0 [] (cursor_new max_cache_size).

Definition deque_is_full (q : StreamStreamCacheWriteDeque) : bool := cursor_is_full (q_cache_all q).
Definition deque_is_none (q : StreamStreamCacheWriteDeque) : bool := q_size q <=? 0.
Definition deque_front (q : StreamStreamCacheWriteDeque) : outcome StreamStreamCacheWrite := expect (head (q_datas q)).
Definition deque_is_file (q : StreamStreamCacheWriteDeque) : outcome bool :=
  if deque_is_none q then Ok true else write_is_file <$> deque_front q.

(** The first chunk of the first element. *)
Definition deque_first (q : StreamStreamCacheWriteDeque) : outcome (list Z) :=
  w ← deque_front q; b ← write_bytes w; first_data b.

(** The chunks of all elements, which must not be files. *)
Fixpoint all_datas (ws : list StreamStreamCacheWrite) : outcome (list (list (list Z))) :=
  match ws with
  | [] => Ok []
  | w :: ws => b ← write_bytes w; l ← all_datas ws; Ok (b_datas b :: l)
  end.

(** The two nested loops that copy [size] bytes. *)
Fixpoint gather_all (size : Z) (dss : list (list (list Z))) : list Z :=
  match dss with
  | [] => []
  | ds :: dss => let (l, left) := gather size ds in l ++ gather_all left dss
  end.

Definition is_one_chunk (q : StreamStreamCacheWriteDeque) : outcome bool :=
  if zlen (q_datas q) =? 1 then w ← deque_front q; b ← write_bytes w; Ok (zlen (b_datas b) =? 1) else Ok false.

Definition deque_chunk_all : stm StreamStreamCacheWriteDeque (list Z) :=
  q ← gets id;
  one ← lift (is_one_chunk q);
  if one : bool then lift (deque_first q)
  else if cursor_is_some (q_cache_all q) then lift (cursor_chunk (q_cache_all q))
  else
    dss ← lift (all_datas (q_datas q));
    let c := foldl (fun c data => cursor_extend data c) (cursor_resize (q_size q) (q_cache_all q)) (concat dss) in
    _ ← modify (set_q_cache_all c);
    lift (cursor_chunk c).

Definition deque_chunk (size : Z) : stm StreamStreamCacheWriteDeque (list Z) :=
  q ← gets id;
  if (q_size q <=? 0) || (q_size q <? size) then lift Panic
  else
    first ← lift (deque_first q);
    if size =? 0 then mret first
    else if size <=? zlen first then lift (vslice first 0 size)
    else if size =? q_size q then deque_chunk_all
    else if cursor_is_some (q_cache_all q) then all ← deque_chunk_all; lift (vslice all 0 size)
    else
      dss ← lift (all_datas (q_datas q));
      let l := gather_all size dss in
      _ ← modify (set_q_cache l);
      mret l.

(** The loop of [advance], with how much of each budget is given back. *)
Fixpoint advance_writes (ws : list StreamStreamCacheWrite) (cnt : Z) : outcome (list StreamStreamCacheWrite * list (bool * Z)) :=
  match ws with
  | [] => Panic
  | first :: rest =>
      if write_remaining first <=? cnt then
        let cnt := cnt - write_remaining first in
        let r := (w_is_cache first, write_remaining first) in
        if cnt <=? 0 then Ok (rest, [r])
        else p ← advance_writes rest cnt; Ok (p.1, r :: p.2)
      else
        match write_advance cnt first : outcome unit * StreamStreamCacheWrite with
        | (Ok _, w) => Ok (w :: rest, [(w_is_cache first, cnt)])
        | (Err e, _) => Err e
        | (Panic, _) => Panic
        | (Fuel, _) => Fuel
        end
  end.

Definition deque_advance (cnt : Z) : stm StreamStreamCacheWriteDeque (list (bool * Z)) :=
  q ← gets id;
  if (q_size q <? cnt) || (q_size q <=? 0) then lift Panic
  else
    _ ← modify (fun q =>
      let q := set_q_size (q_size q - cnt) q in
      if cursor_is_some (q_cache_all q) then set_q_cache_all (cursor_advance cnt (q_cache_all q)) q else q);
    '(ws, l) ← lift (advance_writes (q_datas q) cnt);
    _ ← modify (set_q_datas ws);
    mret l.

Definition deque_chunk_bytes_all : stm StreamStreamCacheWriteDeque (list Z) :=
  q ← gets id;
  one ← lift (is_one_chunk q);
  if one : bool then lift (deque_first q)
  else
    _ ← deque_chunk_all;
    q ← gets id;
    let (l, c) := cursor_chunk_bytes (q_cache_all q) in
    _ ← modify (set_q_cache_all c);
    lift l.

Definition deque_chunk_bytes (size : Z) : stm StreamStreamCacheWriteDeque (list Z) :=
  q ← gets id;
  if (q_size q <=? 0) || (q_size q <? size) then lift Panic
  else
    first ← lift (deque_first q);
    if size =? 0 then mret first
    else if size <=? zlen first then lift (vslice first 0 size)
    else if size =? q_size q then deque_chunk_bytes_all
    else if cursor_is_some (q_cache_all q) then all ← deque_chunk_bytes_all; lift (vslice all 0 size)
    else dss ← lift (all_datas (q_datas q)); mret (gather_all size dss).

Fixpoint deque_vectored (room : nat) (ws : list StreamStreamCacheWrite) : outcome (list (list Z)) :=
  match room, ws with
  | S _, w :: ws =>
      b ← write_bytes w;
      let l := chunks_vectored room (b_datas b) in
      r ← deque_vectored (room - length l) ws;
      Ok (l ++ r)
  | _, _ => Ok []
  end.

(** The conditions under which [push_back] gives the element back. *)
Definition refuses (write_size : Z) (data : StreamStreamCacheWrite) (q : StreamStreamCacheWriteDeque) : outcome bool :=
  if deque_is_none q then Ok false
  else if write_size <=? write_remaining data then Ok true
  else
    is_file ← deque_is_file q;
    if negb (eqb is_file (write_is_file data)) then Ok true
    else if deque_is_full q then Ok true
    else if write_size <=? q_size q then Ok true
    else Ok (2 ^ 64 - 1 <? wrap64 (q_size q + write_remaining data)).

(** A piece that follows another one of the same file. *)
Definition file_merge (a b : StreamStreamFile) : StreamStreamFile :=
  mkFilePiece (f_file a) (f_seek a) (wrap64 (f_size a + f_size b))
    (match f_notify a, f_notify b with
     | None, n => n
     | Some l, Some k => Some (l ++ k)
     | Some l, None => Some l
     end).

Definition follows (a b : StreamStreamFile) : bool :=
  is_uniq_and_fd_eq (f_file a) (f_file b) && (wrap64 (f_seek a + f_size a) =? f_seek b).

Definition push_file (f : StreamStreamFile) (data : StreamStreamCacheWrite) (ws : list StreamStreamCacheWrite) : outcome (list StreamStreamCacheWrite) :=
  match last ws with
  | None => Ok (ws ++ [data])
  | Some w =>
      a ← write_file w;
      if follows a f
      then Ok (removelast ws ++ [mkCacheWrite (WFile (file_merge a f)) (w_is_cache w)])
      else Ok (ws ++ [data])
  end.

Definition deque_push_back (write_size : Z) (data : StreamStreamCacheWrite) : stm StreamStreamCacheWriteDeque (option StreamStreamCacheWrite) :=
  q ← gets id;
  no ← lift (refuses write_size data q);
  if no : bool then mret (Some data)
  else
    _ ← modify (set_q_size (wrap64 (q_size q + write_remaining data)));
    match w_data data with
    | WFile f => ws ← lift (push_file f data (q_datas q)); _ ← modify (set_q_datas ws); mret None
    | WBytes b =>
        _ ← modify (fun q => if cursor_is_some (q_cache_all q)
                             then set_q_cache_all (foldl (fun c data => cursor_extend data c) (q_cache_all q) (b_datas b)) q else q);
        _ ← modify (set_q_datas (q_datas q ++ [data]));
        mret None
    end.

(** [file()], and what is done with it, on the first element. *)
Definition on_front_file {A} (m : stm StreamStreamFile A) : stm StreamStreamCacheWriteDeque A := fun q =>
  match q_datas q with
  | mkCacheWrite (WFile f) c :: ws => let (o, f) := m f in (o, set_q_datas (mkCacheWrite (WFile f) c :: ws) q)
  | _ => (Panic, q)
  end.

Definition msg_write_buf : stm StreamStreamCacheWriteDeque MsgWriteBuf :=
  q ← gets id;
  is_file ← lift (deque_is_file q);
  if is_file : bool then on_front_file file_to_msg_write_buf
  else l ← deque_chunk_bytes_all; mret (MsgBytes l).
