(* ===== verification/StreamBufSpec.v ===== *)
(** The buffers of [StreamBuf] are lists of bytes: what each call gives and
    leaves, for chunks, for the buffer that is read into, for either of them
    behind [StreamStreamCacheRead], and for the queue of what is to be
    written. *)
From S2P Require Import Prelude StreamBuf.
#[local] Open Scope list_scope.
#[local] Open Scope Z_scope.

(** What the buffers promise to their clients. *)
Class StreamStreamBufLaws (B Obj : Type) `{StreamStreamBuf B Obj} := {
  view : B -> list Z;
  obj_view : Obj -> list Z;
  good : B -> Prop;
  obj_good : Obj -> Prop;
  remaining_view b : good b -> remaining b = zlen (view b);
  chunk_view b n : good b -> 0 < n <= remaining b ->
    exists b', chunk n b = (Ok (take (Z.to_nat n) (view b)), b') /\ view b' = view b /\ good b';
  chunk_all_view b : good b ->
    exists b', chunk_all b = (Ok (view b), b') /\ view b' = view b /\ good b';
  chunk_bytes_view b n : good b -> 0 < n <= remaining b ->
    exists b', chunk_bytes n b = (Ok (take (Z.to_nat n) (view b)), b') /\ view b' = view b /\ good b';
  chunk_bytes_all_view b : good b ->
    exists b', chunk_bytes_all b = (Ok (view b), b') /\ view b' = view b /\ good b';
  advance_view b n : good b -> 0 <= n <= remaining b -> 0 < remaining b ->
    exists b', advance n b = (Ok tt, b') /\ view b' = drop (Z.to_nat n) (view b) /\ good b';
  split_view b n : good b -> 0 < n < remaining b ->
    exists o b', split_to n b = (Ok o, b') /\ obj_view o = take (Z.to_nat n) (view b) /\ obj_good o /\
      view b' = drop (Z.to_nat n) (view b) /\ good b';
  chunk_past b n : good b -> remaining b < n \/ remaining b <= 0 -> 0 < n -> (chunk n b).1 = Panic;
  chunk_bytes_past b n : good b -> remaining b < n \/ remaining b <= 0 -> 0 < n -> (chunk_bytes n b).1 = Panic;
  advance_past b n : good b -> remaining b < n \/ remaining b <= 0 -> 0 <= n -> (advance n b).1 = Panic;
  split_past b n : good b -> n <= 0 \/ remaining b <= n -> (split_to n b).1 = Panic
}.

(** ** Lists *)

Lemma zlen_cons {A} (x : A) l : zlen (x :: l) = 1 + zlen l.
Proof. unfold zlen. cbn [length]. lia. Qed.

Lemma zlen_0 {A} (l : list A) : zlen l = 0 <-> l = [].
Proof. unfold zlen. destruct l; cbn; split; intros; [done|done|lia|done]. Qed.

Lemma zlen_pos {A} (l : list A) : l <> [] -> 0 < zlen l.
Proof. intros H. pose proof (zlen_nonneg l). rewrite <- zlen_0 in H. lia. Qed.

Lemma ztake_app_l {A} (l k : list A) n : 0 <= n <= zlen l -> take (Z.to_nat n) (l ++ k) = take (Z.to_nat n) l.
Proof. unfold zlen. intros H. by rewrite take_app_le by lia. Qed.

Lemma zdrop_app_l {A} (l k : list A) n : 0 <= n <= zlen l -> drop (Z.to_nat n) (l ++ k) = drop (Z.to_nat n) l ++ k.
Proof. unfold zlen. intros H. by rewrite drop_app_le by lia. Qed.

Lemma ztake_app_r {A} (l k : list A) n : zlen l <= n -> take (Z.to_nat n) (l ++ k) = l ++ take (Z.to_nat (n - zlen l)) k.
Proof. unfold zlen. intros H. rewrite take_app_ge by lia. do 2 f_equal. lia. Qed.

Lemma zdrop_app_r {A} (l k : list A) n : zlen l <= n -> drop (Z.to_nat n) (l ++ k) = drop (Z.to_nat (n - zlen l)) k.
Proof. unfold zlen. intros H. rewrite drop_app_ge by lia. f_equal. lia. Qed.

Lemma ztake_all {A} (l : list A) : take (Z.to_nat (zlen l)) l = l.
Proof. unfold zlen. rewrite Nat2Z.id. apply firstn_all. Qed.

Lemma ztake_whole {A} (l : list A) n : n = zlen l -> take (Z.to_nat n) l = l.
Proof. intros ->. apply ztake_all. Qed.

Lemma zdrop_all {A} (l : list A) n : zlen l <= n -> drop (Z.to_nat n) l = [].
Proof. unfold zlen. intros H. apply drop_ge. lia. Qed.

Lemma vslice_from_0 {A} (l : list A) n : 0 <= n <= zlen l -> vslice l 0 n = Ok (take (Z.to_nat n) l).
Proof. intros H. rewrite vslice_ok by lia. by rewrite Z.sub_0_r. Qed.

Lemma vslice_to_end {A} (l : list A) n : 0 <= n <= zlen l -> vslice l n (zlen l) = Ok (drop (Z.to_nat n) l).
Proof. intros H. rewrite vslice_ok by lia. f_equal. apply take_ge. unfold zlen in *. rewrite length_drop. lia. Qed.

#[export] Hint Resolve zlen_0 : anyproxy.

(** ** The cursor *)

(** The cursor is empty, or what it has from its place on is [l]. *)
Definition tracks (c : Cursor) (l : list Z) : Prop :=
  (cur_bytes c = [] /\ cur_pos c = 0) \/
  (0 <= cur_pos c < zlen (cur_bytes c) /\ drop (Z.to_nat (cur_pos c)) (cur_bytes c) = l).

Lemma tracks_none c l : tracks c l -> cursor_is_some c = false -> cur_bytes c = [] /\ cur_pos c = 0.
Proof. unfold cursor_is_some, cursor_remaining. intros [H|[H _]] E; [done|]. apply Z.ltb_ge in E. lia. Qed.

Lemma tracks_some c l : tracks c l -> cursor_is_some c = true ->
  0 <= cur_pos c < zlen (cur_bytes c) /\ drop (Z.to_nat (cur_pos c)) (cur_bytes c) = l.
Proof. unfold cursor_is_some, cursor_remaining. intros [[H1 H2]|H] E; [|done]. rewrite H1, H2 in E. done. Qed.

Lemma tracks_empty c : cur_bytes c = [] -> cur_pos c = 0 -> forall l, tracks c l.
Proof. by left. Qed.

Lemma tracks_chunk c l : tracks c l -> cursor_is_some c = true -> cursor_chunk c = Ok l.
Proof. intros H E. destruct (tracks_some _ _ H E) as [Hp <-]. apply vslice_to_end. lia. Qed.

Lemma tracks_reset c l : tracks (cursor_reset c) l.
Proof. by left. Qed.

Lemma tracks_extend c l d : tracks c l -> cursor_is_some c = true -> tracks (cursor_extend d c) (l ++ d).
Proof.
  intros H E. destruct (tracks_some _ _ H E) as [Hp <-]. right. cbn. rewrite zlen_app. pose proof (zlen_nonneg d).
  split; [lia|]. apply zdrop_app_l. lia.
Qed.

Lemma is_some_extend c d : cursor_is_some c = true -> cursor_is_some (cursor_extend d c) = true.
Proof. unfold cursor_is_some, cursor_remaining. cbn. rewrite zlen_app. pose proof (zlen_nonneg d). intros E%Z.ltb_lt. apply Z.ltb_lt. lia. Qed.

Lemma tracks_extends ds : forall c l, tracks c l -> cursor_is_some c = true ->
  tracks (foldl (fun c data => cursor_extend data c) c ds) (l ++ concat ds).
Proof.
  induction ds as [|d ds IH]; intros c l H E; cbn; [by rewrite app_nil_r|].
  rewrite app_assoc. apply IH; [by apply tracks_extend|by apply is_some_extend].
Qed.

Lemma extend_bytes ds : forall c, cur_bytes (foldl (fun c data => cursor_extend data c) c ds) = cur_bytes c ++ concat ds.
Proof. induction ds as [|d ds IH]; intros c; cbn; [by rewrite app_nil_r|]. rewrite IH. cbn. by rewrite <- app_assoc. Qed.

Lemma extend_pos ds : forall c, cur_pos (foldl (fun c data => cursor_extend data c) c ds) = cur_pos c.
Proof. induction ds as [|d ds IH]; intros c; cbn; [done|]. by rewrite IH. Qed.

(** Filled from empty, it has all. *)
Lemma tracks_fill c l n ds : tracks c l -> cursor_is_some c = false -> concat ds <> [] ->
  let c' := foldl (fun c data => cursor_extend data c) (cursor_resize n c) ds in
  tracks c' (concat ds) /\ cursor_is_some c' = true.
Proof.
  intros H E Hn c'. destruct (tracks_none _ _ H E) as [Hb Hp].
  assert (cur_bytes c' = concat ds /\ cur_pos c' = 0) as [Hb' Hp'].
  { subst c'. rewrite extend_bytes, extend_pos. unfold cursor_resize. destruct (n <=? cur_max c); cbn; by rewrite Hb, Hp. }
  pose proof (zlen_pos _ Hn). split.
  - right. rewrite Hb', Hp'. split; [lia|done].
  - unfold cursor_is_some, cursor_remaining. rewrite Hb', Hp'. apply Z.ltb_lt. lia.
Qed.

Lemma tracks_advance c l n : tracks c l -> cursor_is_some c = true -> 0 <= n <= zlen l ->
  tracks (cursor_advance n c) (drop (Z.to_nat n) l).
Proof.
  intros H E Hn. destruct (tracks_some _ _ H E) as [Hp <-]. rewrite zlen_drop in Hn by lia.
  unfold cursor_advance. destruct (Z.eqb_spec (cur_pos c + n) (zlen (cur_bytes c))); [by left|].
  right. cbn. split; [lia|]. rewrite drop_drop. f_equal. lia.
Qed.

Lemma tracks_new max l : tracks (cursor_new max) l.
Proof. by left. Qed.

#[export] Hint Resolve tracks_new tracks_reset tracks_extend : anyproxy.
Arguments cursor_is_some : simpl never.
Arguments cursor_chunk : simpl never.
Arguments cursor_extend : simpl never.
Arguments cursor_advance : simpl never.

(** ** Chunks *)

Definition no_empty (ds : list (list Z)) : Prop := Forall (fun d => d <> []) ds.

Record bytes_good (b : StreamStreamBytes) : Prop := {
  bg_size : b_size b = zlen (concat (b_datas b));
  bg_chunks : no_empty (b_datas b);
  bg_cache : tracks (b_cache_all b) (concat (b_datas b))
}.

Lemma first_chunk ds : no_empty ds -> 0 < zlen (concat ds) ->
  exists d rest, ds = d :: rest /\ head ds = Some d /\ d <> [] /\ no_empty rest.
Proof. intros H Hz. destruct ds as [|d rest]; [by cbv in Hz|]. inversion H; subst. by exists d, rest. Qed.

Lemma gather_spec ds : forall n, no_empty ds -> 0 <= n ->
  gather n ds = (take (Z.to_nat n) (concat ds), Z.max 0 (n - zlen (concat ds))).
Proof.
  induction ds as [|d ds IH]; intros n H Hn; cbn [gather concat].
  - rewrite take_nil. change (zlen (@nil Z)) with 0. f_equal. lia.
  - apply Forall_cons in H as [Hd H]. pose proof (zlen_pos _ Hd). pose proof (zlen_nonneg (concat ds)).
    rewrite zlen_app. destruct (Z.eqb_spec (Z.min n (zlen d)) 0).
    + assert (n = 0) as -> by lia. cbn. f_equal. lia.
    + rewrite IH by (done || lia). f_equal; [|lia].
      destruct (Z_le_gt_dec n (zlen d)).
      * rewrite Z.min_l by lia. rewrite Z.sub_diag. cbn. rewrite app_nil_r. symmetry. apply ztake_app_l. lia.
      * rewrite Z.min_r by lia. rewrite ztake_all. symmetry. apply ztake_app_r. lia.
Qed.

Lemma gather_take ds n : no_empty ds -> 0 <= n -> (gather n ds).1 = take (Z.to_nat n) (concat ds).
Proof. intros. by rewrite gather_spec. Qed.

(** The caches may change, the bytes do not. *)
Definition same_bytes (b b' : StreamStreamBytes) : Prop := b_datas b' = b_datas b /\ b_size b' = b_size b.

Lemma no_bytes b : bytes_good b -> b_size b <= 0 ->
  b_datas b = [] /\ cursor_is_some (b_cache_all b) = false /\ cur_bytes (b_cache_all b) = [] /\ cur_pos (b_cache_all b) = 0.
Proof.
  intros [Hs Hc Ht] Hz. assert (concat (b_datas b) = []) as E by (apply zlen_0; pose proof (zlen_nonneg (concat (b_datas b))); lia).
  split; [destruct Hc as [|d ds Hd _]; [done|]; cbn in E; by destruct d|].
  destruct (cursor_is_some (b_cache_all b)) eqn:Es; [|by pose proof (tracks_none _ _ Ht Es)].
  destruct (tracks_some _ _ Ht Es) as [Hp Hd]. rewrite E in Hd. apply (f_equal zlen) in Hd. rewrite zlen_drop in Hd by lia.
  change (zlen (@nil Z)) with 0 in Hd. lia.
Qed.

Lemma bytes_chunk_all_ok b : bytes_good b ->
  exists b', bytes_chunk_all b = (Ok (concat (b_datas b)), b') /\ same_bytes b b' /\ bytes_good b' /\
    (zlen (b_datas b) = 1 \/ b_size b <= 0 \/ cursor_is_some (b_cache_all b') = true).
Proof.
  intros Hg. pose proof Hg as [Hs Hc Ht]. destruct (Z.leb_spec (b_size b) 0) as [Hz|Hz].
  { destruct (no_bytes b Hg Hz) as (Ed & Es & Eb & Ep). unfold bytes_chunk_all. step. change (id b) with b.
    destruct (Z.eqb_spec (zlen (b_datas b)) 1) as [E1|_]; [by rewrite Ed in E1|]. rewrite Es. step. unfold lift.
    rewrite Ed. cbn [foldl concat].
    assert (cursor_chunk (cursor_resize (b_size b) (b_cache_all b)) = Ok []) as ->.
    { unfold cursor_resize, cursor_chunk. case_match; cbn; by rewrite Eb, Ep. }
    eexists. split; [reflexivity|]. split; [done|]. split; [|by right; left]. split; cbn; [done|done|].
    apply tracks_empty; unfold cursor_resize; case_match; by rewrite ?Eb, ?Ep. }
  rewrite Hs in Hz. unfold bytes_chunk_all. step. change (id b) with b.
  destruct (Z.eqb_spec (zlen (b_datas b)) 1) as [E1|_].
  { exists b. split; [|by split_and!; [..|left]]. destruct (b_datas b) as [|d [|d' l]] eqn:E.
    - done.
    - unfold lift, first_data. rewrite E. cbn. by rewrite app_nil_r.
    - rewrite !zlen_cons in E1. pose proof (zlen_nonneg l). lia. }
  destruct (cursor_is_some (b_cache_all b)) eqn:E.
  { exists b. split; [|by split_and!; [..|right; right]]. unfold lift. by rewrite (tracks_chunk _ _ Ht E). }
  assert (concat (b_datas b) <> []) as Hn by (intros E'; rewrite E' in Hz; by cbv in Hz).
  destruct (tracks_fill _ _ (b_size b) _ Ht E Hn) as [Ht' E'].
  step. eexists. split; [unfold lift; by rewrite (tracks_chunk _ _ Ht' E')|].
  split; [done|]. split; [by split|by right; right].
Qed.

Lemma bytes_chunk_ok b n : bytes_good b -> 0 < n <= b_size b ->
  exists b', bytes_chunk n b = (Ok (take (Z.to_nat n) (concat (b_datas b))), b') /\ same_bytes b b' /\ bytes_good b'.
Proof.
  intros Hg Hn. pose proof Hg as [Hs Hc Ht]. unfold bytes_chunk. step. change (id b) with b.
  destruct (Z.leb_spec (b_size b) 0); [lia|]. destruct (Z.ltb_spec (b_size b) n); [lia|]. cbn [orb].
  destruct (first_chunk _ Hc ltac:(lia)) as (d & rest & Ed & Eh & Hd & Hr).
  step by (unfold lift, first_data; rewrite Eh; reflexivity).
  destruct (Z.eqb_spec n 0); [lia|]. destruct (Z.leb_spec n (zlen d)).
  { exists b. split; [|done]. unfold lift. rewrite vslice_from_0 by lia. rewrite Ed. cbn [concat]. by rewrite ztake_app_l by lia. }
  destruct ((n =? b_size b) || cursor_is_some (b_cache_all b)).
  { destruct (bytes_chunk_all_ok b Hg) as (b' & E & Hb & Hg' & _). exists b'. split; [|done].
    step by exact E. unfold lift. by rewrite vslice_from_0 by lia. }
  step. rewrite gather_take by (done || lia). eexists. split; [reflexivity|]. by split.
Qed.

Lemma bytes_chunk_bytes_all_ok b : bytes_good b ->
  exists b', bytes_chunk_bytes_all b = (Ok (concat (b_datas b)), b') /\ same_bytes b b' /\ bytes_good b'.
Proof.
  intros Hg. pose proof Hg as [Hs Hc Ht]. unfold bytes_chunk_bytes_all. step. change (id b) with b.
  destruct (bytes_chunk_all_ok b Hg) as (b' & E & [Hb Hb'] & Hg' & H1).
  destruct (Z.eqb_spec (zlen (b_datas b)) 1) as [E1|E1].
  { exists b. split; [|done]. unfold bytes_chunk_all in E. revert E. step. change (id b) with b.
    apply Z.eqb_eq in E1. rewrite E1. intros [= E _]. unfold lift. by rewrite E. }
  step by exact E. step. change (id b') with b'. pose proof Hg' as [Hs' Hc' Ht'].
  assert (cursor_chunk (b_cache_all b') = Ok (concat (b_datas b'))) as Ec.
  { destruct H1 as [|[H1|H1]]; [done| |by apply tracks_chunk].
    destruct (no_bytes b' Hg' ltac:(lia)) as (-> & _ & Eb & Ep). unfold cursor_chunk. by rewrite Eb, Ep. }
  unfold cursor_chunk_bytes. rewrite Ec. step. unfold lift. rewrite Hb. eexists. split; [reflexivity|].
  split; [done|]. split; cbn; [by rewrite Hb' in *|by rewrite Hb|by left].
Qed.

Lemma bytes_chunk_bytes_ok b n : bytes_good b -> 0 < n <= b_size b ->
  exists b', bytes_chunk_bytes n b = (Ok (take (Z.to_nat n) (concat (b_datas b))), b') /\ same_bytes b b' /\ bytes_good b'.
Proof.
  intros Hg Hn. pose proof Hg as [Hs Hc Ht]. unfold bytes_chunk_bytes. step. change (id b) with b.
  destruct (Z.leb_spec (b_size b) 0); [lia|]. destruct (Z.ltb_spec (b_size b) n); [lia|]. cbn [orb].
  destruct (first_chunk _ Hc ltac:(lia)) as (d & rest & Ed & Eh & Hd & Hr).
  step by (unfold lift, first_data; rewrite Eh; reflexivity).
  destruct (Z.eqb_spec n 0); [lia|]. destruct (Z.leb_spec n (zlen d)).
  { exists b. split; [|done]. unfold lift. rewrite vslice_from_0 by lia. rewrite Ed. cbn [concat]. by rewrite ztake_app_l by lia. }
  destruct (bytes_chunk_bytes_all_ok b Hg) as (b' & E & Hb & Hg').
  destruct (Z.eqb_spec n (b_size b)).
  { exists b'. split; [|done]. rewrite ztake_whole by lia. exact E. }
  destruct (cursor_is_some (b_cache_all b)).
  { exists b'. split; [|done]. step by exact E. unfold lift. by rewrite vslice_from_0 by lia. }
  exists b. split; [|done]. by rewrite gather_take by (done || lia).
Qed.

Lemma advance_datas_ok ds : forall n, no_empty ds -> 0 <= n < zlen (concat ds) ->
  exists ds', advance_datas ds n = Ok ds' /\ concat ds' = drop (Z.to_nat n) (concat ds) /\ no_empty ds'.
Proof.
  induction ds as [|d ds IH]; intros n H Hn; [cbv in Hn; by destruct Hn; destruct n|].
  apply Forall_cons in H as [Hd H]. cbn [advance_datas concat] in *. rewrite zlen_app in Hn.
  destruct (Z.leb_spec (zlen d) n).
  - rewrite zdrop_app_r by done. destruct (Z.leb_spec (n - zlen d) 0).
    + exists ds. replace (n - zlen d) with 0 by lia. by split_and!.
    + apply IH; [done|lia].
  - exists (drop (Z.to_nat n) d :: ds). split; [done|]. cbn [concat]. rewrite zdrop_app_l by lia. split; [done|].
    constructor; [|done]. intros E. apply zlen_0 in E. rewrite zlen_drop in E by lia. lia.
Qed.

Lemma bytes_advance_ok b n : bytes_good b -> 0 <= n <= b_size b -> 0 < b_size b ->
  exists b', bytes_advance n b = (Ok tt, b') /\ concat (b_datas b') = drop (Z.to_nat n) (concat (b_datas b)) /\
    b_size b' = b_size b - n /\ bytes_good b'.
Proof.
  intros [Hs Hc Ht] Hn Hz. unfold bytes_advance. step. change (id b) with b.
  destruct (Z.ltb_spec (b_size b) n); [lia|]. destruct (Z.leb_spec (b_size b) 0); [lia|]. cbn [orb].
  destruct (Z.leb_spec (b_size b - n) 0).
  { eexists. split; [reflexivity|]. cbn [b_datas b_size b_cache_all concat]. rewrite zdrop_all by lia. split_and!; [done..|].
    split; cbn; [change (zlen (@nil Z)) with 0; lia|constructor|auto with anyproxy]. }
  step. destruct (advance_datas_ok (b_datas b) n Hc ltac:(lia)) as (ds & E & Hd & Hne).
  match goal with |- context [if ?c then ?x else ?y] => set (b1 := if c then x else y) end. assert (b_datas b1 = b_datas b /\ b_size b1 = b_size b - n /\ tracks (b_cache_all b1) (concat ds)) as (E1 & E2 & E3).
  { subst b1. unfold set_b_size, set_b_cache_all. cbn. destruct (cursor_is_some (b_cache_all b)) eqn:Es; cbn; split_and!; try done.
    - rewrite Hd. apply tracks_advance; [done..|lia].
    - by destruct (tracks_none _ _ Ht Es); left. }
  step by (unfold lift; rewrite E; reflexivity). eexists. split; [reflexivity|]. cbn. split; [done|]. split; [done|].
  split; cbn; [|done|done]. rewrite E2, Hd, zlen_drop; lia.
Qed.

Lemma split_datas_ok ds : forall n, no_empty ds -> 0 < n < zlen (concat ds) ->
  exists l r, split_datas n ds = Ok (l, r) /\ concat l = take (Z.to_nat n) (concat ds) /\
    concat r = drop (Z.to_nat n) (concat ds) /\ no_empty l /\ no_empty r.
Proof.
  induction ds as [|d ds IH]; intros n H Hn; [cbv in Hn; by destruct Hn; destruct n|].
  apply Forall_cons in H as [Hd H]. cbn [split_datas concat] in *. rewrite zlen_app in Hn.
  destruct (Z.leb_spec (zlen d) n).
  - rewrite zdrop_app_r, ztake_app_r by done. destruct (Z.leb_spec (n - zlen d) 0).
    + exists [d], ds. replace (n - zlen d) with 0 by lia. cbn. split_and!; [done..| |done]. by repeat constructor.
    + destruct (IH (n - zlen d) H ltac:(lia)) as (l & r & -> & El & Er & Hl & Hr). exists (d :: l), r. cbn. rewrite El, Er.
      split_and!; [done..| |done]. by constructor.
  - exists [take (Z.to_nat n) d], (drop (Z.to_nat n) d :: ds). cbn [concat]. rewrite zdrop_app_l, ztake_app_l, app_nil_r by lia.
    split_and!; [done..| |].
    + repeat constructor. intros E. apply zlen_0 in E. rewrite zlen_take in E; lia.
    + constructor; [|done]. intros E. apply zlen_0 in E. rewrite zlen_drop in E; lia.
Qed.

Lemma bytes_new_good : bytes_good bytes_new.
Proof. split; [done|constructor|by left]. Qed.

Lemma bytes_push_back_ok b d : bytes_good b -> d <> [] ->
  bytes_good (bytes_push_back d b) /\ concat (b_datas (bytes_push_back d b)) = concat (b_datas b) ++ d.
Proof.
  intros [Hs Hc Ht] Hd. unfold bytes_push_back.
  assert (concat (b_datas b ++ [d]) = concat (b_datas b) ++ d) as E by (rewrite concat_app; cbn; by rewrite app_nil_r).
  assert (no_empty (b_datas b ++ [d])) by (apply Forall_app; split; [done|by repeat constructor]).
  destruct (cursor_is_some (b_cache_all b)) eqn:Es; unfold set_b_cache_all, set_b_datas, set_b_size; cbn; rewrite E; (split; [|done]).
  all: split; cbn; rewrite ?E, ?zlen_app; [lia|done|auto with anyproxy].
  by destruct (tracks_none _ _ Ht Es); left.
Qed.

Lemma bytes_push_back_deque_ok ds : forall b, bytes_good b -> no_empty ds ->
  bytes_good (bytes_push_back_deque ds b) /\ concat (b_datas (bytes_push_back_deque ds b)) = concat (b_datas b) ++ concat ds.
Proof.
  unfold bytes_push_back_deque. induction ds as [|d ds IH]; intros b Hg H; cbn; [by rewrite app_nil_r|].
  apply Forall_cons in H as [Hd H]. destruct (bytes_push_back_ok b d Hg Hd) as [Hg' E].
  destruct (IH _ Hg' H) as [Hg2 ->]. by rewrite E, app_assoc.
Qed.

Lemma bytes_split_to_ok b n : bytes_good b -> 0 < n < b_size b ->
  exists o b', bytes_split_to n b = (Ok o, b') /\ concat (b_datas o) = take (Z.to_nat n) (concat (b_datas b)) /\ bytes_good o /\
    concat (b_datas b') = drop (Z.to_nat n) (concat (b_datas b)) /\ bytes_good b'.
Proof.
  intros [Hs Hc Ht] Hn. unfold bytes_split_to. step. change (id b) with b.
  destruct (Z.leb_spec n 0); [lia|]. destruct (Z.leb_spec (b_size b) n); [lia|]. cbn [orb]. step.
  destruct (split_datas_ok (b_datas b) n Hc ltac:(lia)) as (l & r & E & El & Er & Hl & Hr).
  match goal with |- context [if ?c then ?x else ?y] => set (b1 := if c then x else y) end. assert (b_datas b1 = b_datas b /\ b_size b1 = b_size b - n /\ tracks (b_cache_all b1) (concat r)) as (E1 & E2 & E3).
  { subst b1. unfold set_b_size, set_b_cache_all. cbn. destruct (cursor_is_some (b_cache_all b)) eqn:Es; cbn; split_and!; try done.
    - destruct (Z.leb_spec (b_size b - n) 0); [lia|]. rewrite Er. apply tracks_advance; [done..|lia].
    - by destruct (tracks_none _ _ Ht Es); left. }
  step by (unfold lift; rewrite E; reflexivity). step.
  destruct (bytes_push_back_deque_ok l bytes_new bytes_new_good Hl) as [Hg Eg].
  eexists _, _. split; [reflexivity|]. rewrite Eg. cbn. split_and!; [done..|]. split; cbn; [|done|done]. rewrite E2, Er, zlen_drop; lia.
Qed.

#[export] Instance bytes_laws : StreamStreamBufLaws StreamStreamBytes StreamStreamBytes.
Proof.
  refine {| view b := concat (b_datas b); obj_view b := concat (b_datas b); good := bytes_good; obj_good := bytes_good |}; cbn.
  - by intros b [].
  - intros b n Hg Hn. destruct (bytes_chunk_ok b n Hg Hn) as (b' & E & [Hb _] & Hg'). exists b'. by rewrite Hb.
  - intros b Hg. destruct (bytes_chunk_all_ok b Hg) as (b' & E & [Hb _] & Hg' & _). exists b'. by rewrite Hb.
  - intros b n Hg Hn. destruct (bytes_chunk_bytes_ok b n Hg Hn) as (b' & E & [Hb _] & Hg'). exists b'. by rewrite Hb.
  - intros b Hg. destruct (bytes_chunk_bytes_all_ok b Hg) as (b' & E & [Hb _] & Hg'). exists b'. by rewrite Hb.
  - intros b n Hg Hn Hz. destruct (bytes_advance_ok b n Hg Hn Hz) as (b' & E & Hb & _ & Hg'). by exists b'.
  - intros b n Hg Hn. exact (bytes_split_to_ok b n Hg Hn).
  - intros b n _ Hn _. unfold bytes_chunk. step. change (id b) with b. by destruct (Z.leb_spec (b_size b) 0), (Z.ltb_spec (b_size b) n); try lia.
  - intros b n _ Hn _. unfold bytes_chunk_bytes. step. change (id b) with b. by destruct (Z.leb_spec (b_size b) 0), (Z.ltb_spec (b_size b) n); try lia.
  - intros b n _ Hn _. unfold bytes_advance. step. change (id b) with b. by destruct (Z.leb_spec (b_size b) 0), (Z.ltb_spec (b_size b) n); try lia.
  - intros b n _ Hn. unfold bytes_split_to. step. change (id b) with b. by destruct (Z.leb_spec n 0), (Z.leb_spec (b_size b) n); try lia.
Defined.

(** ** The buffer that is read into *)

Record buffer_good (u : StreamStreamBuffer) : Prop := {
  ug_size : 0 <= u_size u <= u_max_size u;
  ug_data : u_max_size u = zlen (u_data u);
  ug_max : u_max_size u < 2 ^ 64
}.

Definition buffer_view (u : StreamStreamBuffer) : list Z := take (Z.to_nat (u_size u)) (u_data u).

Lemma buffer_view_len u : buffer_good u -> zlen (buffer_view u) = u_size u.
Proof. intros [? ? ?]. apply zlen_take. lia. Qed.

Lemma buffer_chunk_all_ok u : buffer_good u -> buffer_chunk_all u = (Ok (buffer_view u), u).
Proof. intros [? ? ?]. unfold buffer_chunk_all. by rewrite vslice_from_0 by lia. Qed.

Lemma buffer_chunk_ok u n : buffer_good u -> 0 < n <= u_size u -> buffer_chunk n u = (Ok (take (Z.to_nat n) (buffer_view u)), u).
Proof.
  intros Hg Hn. unfold buffer_chunk. step. change (id u) with u.
  destruct (Z.leb_spec n 0); [lia|]. destruct (Z.ltb_spec (u_size u) n); [lia|]. cbn [orb].
  step by exact (buffer_chunk_all_ok u Hg). unfold lift. rewrite vslice_from_0; [done|]. rewrite buffer_view_len by done. lia.
Qed.

Lemma view_drop (l : list Z) a n : 0 <= a <= n -> take (Z.to_nat (n - a)) (drop (Z.to_nat a) l) = drop (Z.to_nat a) (take (Z.to_nat n) l).
Proof. intros H. rewrite take_drop_commute. do 2 f_equal. lia. Qed.

Lemma buffer_advance_ok u n : buffer_good u -> 0 <= n <= u_size u -> 0 < u_size u ->
  exists u', buffer_advance n u = (Ok tt, u') /\ buffer_view u' = drop (Z.to_nat n) (buffer_view u) /\ buffer_good u'.
Proof.
  intros [Hs Hd Hm] Hn Hz. unfold buffer_advance. step. change (id u) with u.
  destruct (Z.ltb_spec (u_size u) n); [lia|]. destruct (Z.leb_spec (u_size u) 0); [lia|]. cbn [orb].
  step by (unfold lift; rewrite vslice_to_end by lia; reflexivity).
  eexists. split; [reflexivity|]. split; [unfold buffer_view; cbn; by apply view_drop|].
  rewrite wrap_id by (unfold in_width; lia). split; cbn; rewrite ?zlen_drop by lia; lia.
Qed.

Lemma buffer_split_to_eq u n : buffer_good u -> 0 < n < u_size u ->
  buffer_split_to n u = (Ok (mkBuffer (take (Z.to_nat n) (u_data u)) n n), mkBuffer (drop (Z.to_nat n) (u_data u)) (u_size u - n) (u_max_size u - n)).
Proof.
  intros [Hs Hd Hm] Hn. unfold buffer_split_to. step. change (id u) with u.
  destruct (Z.leb_spec n 0); [lia|]. destruct (Z.leb_spec (u_size u) n); [lia|]. cbn [orb].
  step by (unfold lift; rewrite vslice_from_0 by lia; reflexivity).
  step by (unfold lift; rewrite vslice_to_end by lia; reflexivity). step. unfold mret, stm_ret.
  by rewrite wrap_id by (unfold in_width; lia).
Qed.

Lemma buffer_split_to_ok u n : buffer_good u -> 0 < n < u_size u ->
  exists o u', buffer_split_to n u = (Ok o, u') /\ buffer_view o = take (Z.to_nat n) (buffer_view u) /\ buffer_good o /\
    buffer_view u' = drop (Z.to_nat n) (buffer_view u) /\ buffer_good u' /\ u_size u' = u_size u - n.
Proof.
  intros Hg Hn. pose proof Hg as [Hs Hd Hm]. eexists _, _. split; [exact (buffer_split_to_eq u n Hg Hn)|]. unfold buffer_view. cbn. split_and!.
  - rewrite !take_take. f_equal. lia.
  - split; cbn; rewrite ?zlen_take by lia; lia.
  - apply view_drop. lia.
  - split; cbn; rewrite ?zlen_drop by lia; lia.
  - done.
Qed.

#[export] Instance buffer_laws : StreamStreamBufLaws StreamStreamBuffer StreamStreamBuffer.
Proof.
  refine {| view := buffer_view; obj_view := buffer_view; good := buffer_good; obj_good := buffer_good |}; cbn.
  - intros u Hg. by rewrite buffer_view_len.
  - intros u n Hg Hn. exists u. by rewrite buffer_chunk_ok.
  - intros u Hg. exists u. by rewrite buffer_chunk_all_ok.
  - intros u n Hg Hn. exists u. by rewrite buffer_chunk_ok.
  - intros u Hg. exists u. by rewrite buffer_chunk_all_ok.
  - intros u n. apply buffer_advance_ok.
  - intros u n Hg Hn. destruct (buffer_split_to_ok u n Hg Hn) as (o & u' & E & ? & ? & ? & ? & _). by exists o, u'.
  - intros u n _ Hn Hn'. unfold buffer_chunk. step. change (id u) with u. by destruct (Z.leb_spec n 0), (Z.ltb_spec (u_size u) n); try lia.
  - intros u n _ Hn Hn'. unfold buffer_chunk. step. change (id u) with u. by destruct (Z.leb_spec n 0), (Z.ltb_spec (u_size u) n); try lia.
  - intros u n _ Hn _. unfold buffer_advance. step. change (id u) with u. by destruct (Z.leb_spec (u_size u) 0), (Z.ltb_spec (u_size u) n); try lia.
  - intros u n _ Hn. unfold buffer_split_to. step. change (id u) with u. by destruct (Z.leb_spec n 0), (Z.leb_spec (u_size u) n); try lia.
Defined.

Lemma buffer_new_good n : 0 <= n < 2 ^ 64 -> buffer_good (buffer_new n) /\ buffer_view (buffer_new n) = [].
Proof.
  intros Hn. assert (zlen (replicate (Z.to_nat n) 0) = n) as E by (unfold zlen; rewrite length_replicate; lia).
  split; [|done]. split; cbn; lia.
Qed.

Lemma free_data_mut_ok u : buffer_good u -> free_data_mut u = Ok (u_max_size u - u_size u).
Proof.
  intros [? Hd ?]. unfold free_data_mut. rewrite Hd, vslice_to_end by lia. cbn. by rewrite zlen_drop by lia.
Qed.

(** A read of at most the room there is adds its bytes at the end. *)
Lemma buffer_read_ok u l : buffer_good u -> zlen l <= u_max_size u - u_size u ->
  let u' := buffer_add_size (zlen l) (buffer_fill l u) in
  buffer_good u' /\ buffer_view u' = buffer_view u ++ l /\ u_max_size u' = u_max_size u.
Proof.
  intros [Hs Hd Hm] Hl u'. pose proof (zlen_nonneg l). subst u'. unfold buffer_view, buffer_add_size, buffer_fill. cbn.
  assert (zlen (take (Z.to_nat (u_size u)) (u_data u)) = u_size u) as Et by (apply zlen_take; lia).
  split_and!; [split; cbn; rewrite ?zlen_app, ?Et; try lia| |done].
  - unfold zlen in *. rewrite length_drop. lia.
  - rewrite app_assoc. rewrite ztake_app_l by (rewrite zlen_app, Et; lia).
    apply ztake_whole. rewrite zlen_app. lia.
Qed.

Lemma buffer_resize_ok n u : buffer_good u -> 0 <= n < 2 ^ 64 ->
  buffer_good (buffer_resize_max_size n u) /\ buffer_view (buffer_resize_max_size n u) = buffer_view u /\
  u_size (buffer_resize_max_size n u) = u_size u /\
  u_max_size (buffer_resize_max_size n u) = (if n <? u_size u then u_max_size u else n).
Proof.
  intros [Hs Hd Hm] Hn. unfold buffer_resize_max_size. destruct (Z.ltb_spec n (u_size u)); [done|].
  split_and!; [|unfold buffer_view; cbn|done|done].
  - split; cbn; [lia| |lia]. rewrite zlen_take; [done|]. rewrite zlen_app. unfold zlen. rewrite length_replicate. lia.
  - rewrite take_take. rewrite Nat.min_l by lia. by rewrite ztake_app_l by lia.
Qed.

(** ** Either of them *)

Definition read_good (r : StreamStreamCacheRead) : Prop :=
  match r_data r with RBytes b => bytes_good b | RBuffer u => buffer_good u | RFile _ => False end.

Definition read_view (r : StreamStreamCacheRead) : list Z :=
  match r_data r with RBytes b => concat (b_datas b) | RBuffer u => buffer_view u | RFile _ => [] end.

(** What a call leaves alone. *)
Definition same_flags (r r' : StreamStreamCacheRead) : Prop := r_is_cache r' = r_is_cache r /\ r_is_flush r' = r_is_flush r.

Lemma with_buffer_ok {A} (mb : stm StreamStreamBytes A) (mu : stm StreamStreamBuffer A) r a (P : list Z -> Prop) :
  read_good r ->
  (forall b, bytes_good b -> b_size b = read_remaining r -> concat (b_datas b) = read_view r ->
     exists b', mb b = (Ok a, b') /\ P (concat (b_datas b')) /\ bytes_good b') ->
  (forall u, buffer_good u -> u_size u = read_remaining r -> buffer_view u = read_view r ->
     exists u', mu u = (Ok a, u') /\ P (buffer_view u') /\ buffer_good u') ->
  exists r', with_buffer mb mu r = (Ok a, r') /\ P (read_view r') /\ read_good r' /\ same_flags r r'.
Proof.
  unfold read_good, read_view, read_remaining, with_buffer, on_bytes, on_buffer.
  destruct r as [[b|u|f] ca fl]; cbn; intros Hg Hb Hu; [| |done].
  - destruct (Hb b Hg eq_refl eq_refl) as (b' & -> & Hp & Hg'). by eexists.
  - destruct (Hu u Hg eq_refl eq_refl) as (u' & -> & Hp & Hg'). by eexists.
Qed.

Lemma stm_bind_panic {S A B} (m : stm S A) (f : A -> stm S B) s : (m s).1 = Panic -> ((m ≫= f) s).1 = Panic.
Proof. unfold mbind, stm_bind. destruct (m s) as [[] ?]; by intros [=]. Qed.

Lemma with_buffer_panic {A} (mb : stm StreamStreamBytes A) (mu : stm StreamStreamBuffer A) r :
  (forall b, r_data r = RBytes b -> (mb b).1 = Panic) -> (forall u, r_data r = RBuffer u -> (mu u).1 = Panic) ->
  (with_buffer mb mu r).1 = Panic.
Proof.
  unfold with_buffer, on_bytes, on_buffer. destruct r as [[b|u|f] ca fl]; cbn; intros Hb Hu; [| |done].
  - specialize (Hb b eq_refl). by destruct (mb b).
  - specialize (Hu u eq_refl). by destruct (mu u).
Qed.

Lemma read_remaining_view r : read_good r -> read_remaining r = zlen (read_view r).
Proof.
  unfold read_good, read_remaining, read_view. destruct (r_data r); [by intros []|intros; by rewrite buffer_view_len|done].
Qed.

Lemma read_split_to_ok r n : read_good r -> 0 < n < read_remaining r ->
  exists o r', read_split_to n r = (Ok o, r') /\ read_view o = take (Z.to_nat n) (read_view r) /\ read_good o /\
    read_view r' = drop (Z.to_nat n) (read_view r) /\ read_good r' /\ same_flags r o /\ same_flags r r'.
Proof.
  destruct r as [[b|u|f] ca fl]; intros Hg Hn; [| |done]; cbn in Hg, Hn.
  - destruct (bytes_split_to_ok b n Hg Hn) as (o & b' & E & ? & ? & ? & ?). unfold read_split_to. step.
    step by (unfold with_buffer, on_bytes; cbn [id r_data]; rewrite (stm_step _ _ _ _ _ E); reflexivity).
    eexists _, _. split; [reflexivity|]. by split_and!.
  - destruct (buffer_split_to_ok u n Hg Hn) as (o & u' & E & ? & ? & ? & ? & _). unfold read_split_to. step.
    step by (unfold with_buffer, on_buffer; cbn [id r_data]; rewrite (stm_step _ _ _ _ _ E); reflexivity).
    eexists _, _. split; [reflexivity|]. by split_and!.
Qed.

#[export] Instance read_laws : StreamStreamBufLaws StreamStreamCacheRead StreamStreamCacheRead.
Proof.
  refine {| view := read_view; obj_view := read_view; good := read_good; obj_good := read_good |}; cbn.
  - exact read_remaining_view.
  - intros r n Hg Hn. destruct (with_buffer_ok (bytes_chunk n) (buffer_chunk n) r (take (Z.to_nat n) (read_view r)) (fun l => l = read_view r) Hg) as (r' & E & ? & ? & _); [| |by exists r'].
    + intros b Hb Es <-. rewrite <- Es in Hn. exact (chunk_view (Obj:=StreamStreamBytes) b n Hb Hn).
    + intros u Hu Es <-. rewrite <- Es in Hn. exact (chunk_view (Obj:=StreamStreamBuffer) u n Hu Hn).
  - intros r Hg. destruct (with_buffer_ok bytes_chunk_all buffer_chunk_all r (read_view r) (fun l => l = read_view r) Hg) as (r' & E & ? & ? & _); [| |by exists r'].
    + intros b Hb Es <-. exact (chunk_all_view (Obj:=StreamStreamBytes) b Hb).
    + intros u Hu Es <-. exact (chunk_all_view (Obj:=StreamStreamBuffer) u Hu).
  - intros r n Hg Hn. destruct (with_buffer_ok (bytes_chunk_bytes n) (buffer_chunk n) r (take (Z.to_nat n) (read_view r)) (fun l => l = read_view r) Hg) as (r' & E & ? & ? & _); [| |by exists r'].
    + intros b Hb Es <-. rewrite <- Es in Hn. exact (chunk_bytes_view (Obj:=StreamStreamBytes) b n Hb Hn).
    + intros u Hu Es <-. rewrite <- Es in Hn. exact (chunk_bytes_view (Obj:=StreamStreamBuffer) u n Hu Hn).
  - intros r Hg. destruct (with_buffer_ok bytes_chunk_bytes_all buffer_chunk_all r (read_view r) (fun l => l = read_view r) Hg) as (r' & E & ? & ? & _); [| |by exists r'].
    + intros b Hb Es <-. exact (chunk_bytes_all_view (Obj:=StreamStreamBytes) b Hb).
    + intros u Hu Es <-. exact (chunk_bytes_all_view (Obj:=StreamStreamBuffer) u Hu).
  - intros r n Hg Hn Hz. destruct (with_buffer_ok (bytes_advance n) (buffer_advance n) r tt (fun l => l = drop (Z.to_nat n) (read_view r)) Hg) as (r' & E & ? & ? & _); [| |by exists r'].
    + intros b Hb Es <-. rewrite <- Es in Hn, Hz. exact (advance_view (Obj:=StreamStreamBytes) b n Hb Hn Hz).
    + intros u Hu Es <-. rewrite <- Es in Hn, Hz. exact (advance_view (Obj:=StreamStreamBuffer) u n Hu Hn Hz).
  - intros r n Hg Hn. destruct (read_split_to_ok r n Hg Hn) as (o & r' & ? & ? & ? & ? & ? & _). by exists o, r'.
  - intros [[b|u|f] ca fl] n Hg Hn Hn'; [| |done]; apply with_buffer_panic; cbn in *; intros ? [= <-].
    + exact (chunk_past (Obj:=StreamStreamBytes) b n Hg Hn Hn').
    + exact (chunk_past (Obj:=StreamStreamBuffer) u n Hg Hn Hn').
  - intros [[b|u|f] ca fl] n Hg Hn Hn'; [| |done]; apply with_buffer_panic; cbn in *; intros ? [= <-].
    + exact (chunk_bytes_past (Obj:=StreamStreamBytes) b n Hg Hn Hn').
    + exact (chunk_bytes_past (Obj:=StreamStreamBuffer) u n Hg Hn Hn').
  - intros [[b|u|f] ca fl] n Hg Hn Hn'; [| |done]; apply with_buffer_panic; cbn in *; intros ? [= <-].
    + exact (advance_past (Obj:=StreamStreamBytes) b n Hg Hn Hn').
    + exact (advance_past (Obj:=StreamStreamBuffer) u n Hg Hn Hn').
  - intros [[b|u|f] ca fl] n Hg Hn; [| |done]; unfold read_split_to; step; apply stm_bind_panic, with_buffer_panic; cbn in *; intros ? [= <-];
      apply stm_bind_panic.
    + exact (split_past (Obj:=StreamStreamBytes) b n Hg Hn).
    + exact (split_past (Obj:=StreamStreamBuffer) u n Hg Hn).
Defined.

(** ** A run of calls

    Any run of calls on a buffer gives what it gives on the list of its bytes,
    panics included. *)
Inductive BufOp :=
  | OpChunk (n : Z)
  | OpChunkAll
  | OpChunkBytes (n : Z)
  | OpChunkBytesAll
  | OpAdvance (n : Z)
  | OpSplit (n : Z).

(** [chunk(0)] is the first chunk, however long it is. *)
Definition op_proper (op : BufOp) : Prop :=
  match op with OpChunk n | OpChunkBytes n => 0 < n | OpAdvance n => 0 <= n | _ => True end.

Definition list_op (op : BufOp) : stm (list Z) (list Z) := fun l =>
  match op with
  | OpChunk n | OpChunkBytes n => if zlen l <? n then (Panic, l) else (Ok (take (Z.to_nat n) l), l)
  | OpChunkAll | OpChunkBytesAll => (Ok l, l)
  | OpAdvance n => if (zlen l <? n) || (zlen l <=? 0) then (Panic, l) else (Ok [], drop (Z.to_nat n) l)
  | OpSplit n => if (n <=? 0) || (zlen l <=? n) then (Panic, l) else (Ok (take (Z.to_nat n) l), drop (Z.to_nat n) l)
  end.

Section runs.
Context {B Obj : Type} `{StreamStreamBufLaws B Obj}.

Definition buf_op (op : BufOp) : stm B (list Z) :=
  match op with
  | OpChunk n => chunk n
  | OpChunkAll => chunk_all
  | OpChunkBytes n => chunk_bytes n
  | OpChunkBytesAll => chunk_bytes_all
  | OpAdvance n => _ ← advance n; mret []
  | OpSplit n => o ← split_to n; mret (obj_view o)
  end.

Lemma buf_op_refines op b : good b -> op_proper op ->
  (buf_op op b).1 = (list_op op (view b)).1 /\
  (forall l, (buf_op op b).1 = Ok l -> view (buf_op op b).2 = (list_op op (view b)).2 /\ good (buf_op op b).2).
Proof.
  intros Hg Hp. pose proof (remaining_view b Hg) as Er. pose proof (zlen_nonneg (view b)).
  assert (forall (o : outcome (list Z) * B) l, o.1 = Panic -> forall k, o.1 = Ok k -> view o.2 = l /\ good o.2) as Hpanic by congruence.
  destruct op as [n| |n| |n|n]; cbn [buf_op list_op op_proper] in *; rewrite <- Er in *.
  - destruct (Z.ltb_spec (remaining b) n).
    + pose proof (chunk_past b n Hg ltac:(by left) Hp) as E. split; [exact E|by apply Hpanic].
    + destruct (chunk_view b n Hg ltac:(lia)) as (b' & -> & Ev & Hg'). done.
  - destruct (chunk_all_view b Hg) as (b' & -> & Ev & Hg'). done.
  - destruct (Z.ltb_spec (remaining b) n).
    + pose proof (chunk_bytes_past b n Hg ltac:(by left) Hp) as E. split; [exact E|by apply Hpanic].
    + destruct (chunk_bytes_view b n Hg ltac:(lia)) as (b' & -> & Ev & Hg'). done.
  - destruct (chunk_bytes_all_view b Hg) as (b' & -> & Ev & Hg'). done.
  - destruct ((remaining b <? n) || (remaining b <=? 0)) eqn:E.
    + apply orb_true_iff in E. rewrite Z.ltb_lt, Z.leb_le in E.
      pose proof (stm_bind_panic (advance n) (fun _ => mret (@nil Z)) b (advance_past b n Hg E Hp)) as E'. split; [exact E'|by apply Hpanic].
    + apply orb_false_iff in E as [E1%Z.ltb_ge E2%Z.leb_gt]. destruct (advance_view b n Hg ltac:(lia) E2) as (b' & E & Ev & Hg').
      erewrite stm_step by exact E. done.
  - destruct ((n <=? 0) || (remaining b <=? n)) eqn:E.
    + apply orb_true_iff in E. rewrite !Z.leb_le in E.
      pose proof (stm_bind_panic (split_to n) (fun o => mret (obj_view o)) b (split_past b n Hg E)) as E'. split; [exact E'|by apply Hpanic].
    + apply orb_false_iff in E as [E1%Z.leb_gt E2%Z.leb_gt]. destruct (split_view b n Hg ltac:(lia)) as (o & b' & E & Eo & _ & Ev & Hg').
      erewrite stm_step by exact E. cbn. by rewrite Eo.
Qed.
End runs.

Fixpoint run_ops {S} (run : BufOp -> stm S (list Z)) (ops : list BufOp) : stm S (list (list Z)) :=
  match ops with
  | [] => mret []
  | op :: ops => l ← run op; ls ← run_ops run ops; mret (l :: ls)
  end.

Lemma run_ops_refines {B Obj} `{StreamStreamBufLaws B Obj} ops : forall b, good b -> Forall op_proper ops ->
  (run_ops buf_op ops b).1 = (run_ops list_op ops (view b)).1.
Proof.
  induction ops as [|op ops IH]; intros b Hg Hp; [done|]. apply Forall_cons in Hp as [Hop Hp]. cbn [run_ops].
  destruct (buf_op_refines op b Hg Hop) as [E1 E2]. unfold mbind, stm_bind.
  destruct (buf_op op b) as [o b'], (list_op op (view b)) as [o2 l']. cbn in E1, E2. subst o2.
  destruct o as [l|e| |]; [|done..]. destruct (E2 l eq_refl) as [Ev Hg'].
  pose proof (IH b' Hg' Hp) as E. rewrite Ev in E. destruct (run_ops buf_op ops b') as [o1 b1], (run_ops list_op ops l') as [o3 l3]. cbn in E. subst o3. by destruct o1.
Qed.

(** C18. A buffer of what was read, be it chunks or one piece of memory, is the
    list of its bytes: every run of its calls gives what the same calls give on
    the list, and panics where they ask for more than there is. *)
Theorem read_buffer_is_list (ops : list BufOp) (r : StreamStreamCacheRead) :
  read_good r -> Forall op_proper ops ->
  (run_ops (buf_op (B:=StreamStreamCacheRead)) ops r).1 = (run_ops list_op ops (read_view r)).1.
Proof. exact (run_ops_refines ops r). Qed.

Lemma read_buffer_is_list_witness :
  let r := read_from_bytes (bytes_push_back_deque [[1; 2]; [3]; [4; 5; 6]] bytes_new) in
  let ops := [OpChunk 4; OpChunkAll; OpAdvance 1; OpChunk 3; OpSplit 3; OpChunkBytesAll; OpAdvance 3] in
  (run_ops (buf_op (B:=StreamStreamCacheRead)) ops r).1 = Panic /\
  (run_ops (buf_op (B:=StreamStreamCacheRead)) (take 6 ops) r).1 = Ok [[1; 2; 3; 4]; [1; 2; 3; 4; 5; 6]; []; [2; 3; 4]; [2; 3; 4]; [5; 6]].
Proof.
  assert (forall k, (run_ops (buf_op (B:=StreamStreamCacheRead)) (take k [OpChunk 4; OpChunkAll; OpAdvance 1; OpChunk 3; OpSplit 3; OpChunkBytesAll; OpAdvance 3]) (read_from_bytes (bytes_push_back_deque [[1; 2]; [3]; [4; 5; 6]] bytes_new))).1 =
    (run_ops list_op (take k [OpChunk 4; OpChunkAll; OpAdvance 1; OpChunk 3; OpSplit 3; OpChunkBytesAll; OpAdvance 3]) [1; 2; 3; 4; 5; 6]).1) as E.
  { intros k. apply (read_buffer_is_list _ (read_from_bytes (bytes_push_back_deque [[1; 2]; [3]; [4; 5; 6]] bytes_new))).
    - apply bytes_push_back_deque_ok; [exact bytes_new_good|by repeat constructor].
    - apply Forall_take. by repeat constructor. }
  split; [exact (E 7%nat)|exact (E 6%nat)].
Defined.
