(* ===== verification/StreamDeque.v ===== *)
(** The queue of what is about to be written ([StreamStreamCacheWriteDeque] of
    [StreamBuf]): however elements are pushed, merged, read out and advanced,
    it holds the bytes in the order they came. *)
From S2P Require Import Prelude StreamBuf StreamBufSpec.
#[local] Open Scope list_scope.
#[local] Open Scope Z_scope.

(** What a piece of a file reads as, [rd file seek size], and which pieces of
    files there may be: parts of them, and two that follow each other. *)
Class FileRead := {
  rd : FileExt -> Z -> Z -> list Z;
  rd_ok : FileExt -> Z -> Z -> Prop;
  rd_ok_part f s n a k : rd_ok f s n -> 0 <= a -> 0 <= k -> a + k <= n -> rd_ok f (s + a) k;
  rd_ok_join f g s a b : rd_ok f s a -> rd_ok g (s + a) b -> is_uniq_and_fd_eq f g = true -> 0 <= a -> 0 <= b -> rd_ok f s (a + b);
  rd_len f s n : 0 <= n -> zlen (rd f s n) = n;
  rd_split f s a b : 0 <= a -> 0 <= b -> rd f s (a + b) = rd f s a ++ rd f (s + a) b;
  rd_same f g s n : is_uniq_and_fd_eq f g = true -> rd f s n = rd g s n
}.

Section deque.
Context `{FileRead}.

Lemma rd_take f s n k : 0 <= k <= n -> rd f s k = take (Z.to_nat k) (rd f s n).
Proof.
  intros Hk. replace n with (k + (n - k)) by lia. rewrite rd_split by lia. rewrite ztake_app_l by (rewrite rd_len; lia).
  symmetry. apply ztake_whole. by rewrite rd_len by lia.
Qed.

Lemma rd_drop f s n k : 0 <= k <= n -> rd f (s + k) (n - k) = drop (Z.to_nat k) (rd f s n).
Proof.
  intros Hk. replace (rd f s n) with (rd f s (k + (n - k))) by (f_equal; lia). rewrite rd_split by lia.
  rewrite zdrop_app_r by (rewrite rd_len; lia). rewrite rd_len by lia. by rewrite Z.sub_diag.
Qed.

(** ** Elements *)

Definition file_good (f : StreamStreamFile) : Prop := 0 <= f_seek f /\ 0 <= f_size f /\ f_seek f + f_size f < 2 ^ 64 /\ f_notify f <> None /\
  rd_ok (f_file f) (f_seek f) (f_size f).

Definition data_good (d : StreamStreamWrite) : Prop := match d with WBytes b => bytes_good b | WFile f => file_good f end.
Definition data_view (d : StreamStreamWrite) : list Z :=
  match d with WBytes b => concat (b_datas b) | WFile f => rd (f_file f) (f_seek f) (f_size f) end.

(** An element that has something. *)
Definition write_good (w : StreamStreamCacheWrite) : Prop := data_good (w_data w) /\ 0 < write_remaining w.
Definition write_view (w : StreamStreamCacheWrite) : list Z := data_view (w_data w).
Definition writes_view (ws : list StreamStreamCacheWrite) : list Z := ws ≫= write_view.

#[local] Arguments writes_view : simpl never.

Lemma write_view_len w : data_good (w_data w) -> zlen (write_view w) = write_remaining w.
Proof.
  unfold write_view, write_remaining. destruct (w_data w) as [b|f]; cbn; [by intros []|]. intros (_ & ? & _). by apply rd_len.
Qed.

Lemma writes_view_app ws vs : writes_view (ws ++ vs) = writes_view ws ++ writes_view vs.
Proof. apply bind_app. Qed.

Lemma writes_view_one w : writes_view [w] = write_view w.
Proof. unfold writes_view. cbn. by rewrite app_nil_r. Qed.

Lemma writes_len ws : Forall write_good ws -> zlen (writes_view ws) = zsum (write_remaining <$> ws).
Proof.
  unfold writes_view. induction 1 as [|w ws [Hg _] Hws IH]; [done|]. cbn. rewrite zlen_app, write_view_len by done.
  rewrite IH. done.
Qed.

(** How much of one budget the elements hold. *)
Definition held (c : bool) (ws : list StreamStreamCacheWrite) : Z :=
  zsum ((fun w => if eqb (w_is_cache w) c then write_remaining w else 0) <$> ws).

Lemma held_both c ws vs : held c (ws ++ vs) = held c ws + held c vs.
Proof. unfold held. by rewrite fmap_app, zsum_app. Qed.

Definition given_back (c : bool) (l : list (bool * Z)) : Z :=
  zsum ((fun r : bool * Z => if eqb r.1 c then r.2 else 0) <$> l).

Lemma held_cons c w ws : held c (w :: ws) = (if eqb (w_is_cache w) c then write_remaining w else 0) + held c ws.
Proof. done. Qed.

Lemma given_back_cons c r l : given_back c (r :: l) = (if eqb r.1 c then r.2 else 0) + given_back c l.
Proof. done. Qed.

Lemma given_back_nil c : given_back c [] = 0.
Proof. done. Qed.

Lemma held_total ws : held true ws + held false ws = zsum (write_remaining <$> ws).
Proof.
  unfold held, zsum. induction ws as [|w ws IH]; [done|]. cbn in *. destruct (w_is_cache w); cbn; lia.
Qed.

(** A property of the flag and the kind of an element only. *)
Definition keeps_kind (P : StreamStreamCacheWrite -> Prop) : Prop :=
  forall w w', w_is_cache w' = w_is_cache w -> write_is_file w' = write_is_file w -> P w -> P w'.

(** ** Advancing *)

Lemma file_advance_ok f n : file_good f -> 0 <= n <= f_size f ->
  exists l f', file_advance n f = (Ok l, f') /\ f_file f' = f_file f /\ f_seek f' = f_seek f + n /\ f_size f' = f_size f - n /\
    (n < f_size f -> file_good f').
Proof.
  intros (Hs & Hz & Hm & Hnt & Hok) Hn. unfold file_advance. step. change (id f) with f. destruct (Z.ltb_spec (f_size f) n); [lia|].
  destruct (Z.eqb_spec (f_size f - n) 0); step; eexists _, _; (split; [reflexivity|]); cbn; unfold file_good; cbn;
    (rewrite wrap_id by (unfold in_width; lia)); split_and!; try done; intros; split_and!; (done || lia || (apply (rd_ok_part _ _ _ _ _ Hok); lia)).
Qed.

Lemma write_advance_ok w n : data_good (w_data w) -> 0 <= n < write_remaining w ->
  exists w', write_advance n w = (Ok tt, w') /\ write_view w' = drop (Z.to_nat n) (write_view w) /\ write_good w' /\
    w_is_cache w' = w_is_cache w /\ write_is_file w' = write_is_file w /\ write_remaining w' = write_remaining w - n.
Proof.
  unfold write_remaining, write_view, write_is_file, write_good. destruct w as [[b|f] c]; cbn; intros Hg Hn; unfold write_advance; cbn [w_data w_is_cache].
  - destruct (bytes_advance_ok b n Hg ltac:(lia) ltac:(lia)) as (b' & -> & Hv & Hs & Hg'). eexists. split; [reflexivity|]. cbn.
    split_and!; [done..|lia|done|done|lia].
  - destruct (file_advance_ok f n Hg ltac:(lia)) as (l & f' & -> & Ef & Es & Ez & Hg'). eexists. split; [reflexivity|]. cbn.
    rewrite Ef, Es, Ez, rd_drop by lia. split_and!; [done|apply Hg'; lia|lia|done|done|done].
Qed.

Lemma advance_writes_ok ws : forall n, Forall write_good ws -> 0 <= n <= zlen (writes_view ws) -> ws <> [] ->
  exists ws' l, advance_writes ws n = Ok (ws', l) /\ writes_view ws' = drop (Z.to_nat n) (writes_view ws) /\ Forall write_good ws' /\
    (forall c, held c ws = held c ws' + given_back c l) /\ (forall b, Forall (fun w => write_is_file w = b) ws -> Forall (fun w => write_is_file w = b) ws') /\
    Forall (fun r : bool * Z => 0 <= r.2) l /\ (forall P : StreamStreamCacheWrite -> Prop, keeps_kind P -> Forall P ws -> Forall P ws').
Proof.
  induction ws as [|w ws IH]; intros n Hg Hn Hne; [done|]. apply Forall_cons in Hg as [[Hd Hz] Hg]. cbn [advance_writes].
  change (writes_view (w :: ws)) with (write_view w ++ writes_view ws) in *. rewrite zlen_app, (write_view_len w) in Hn by done.
  destruct (Z.leb_spec (write_remaining w) n).
  - rewrite zdrop_app_r by (rewrite write_view_len by done; lia). rewrite write_view_len by done.
    assert (forall c, held c (w :: ws) = held c ws + given_back c [(w_is_cache w, write_remaining w)]) as Eh.
    { intros c. rewrite held_cons, given_back_cons, given_back_nil. cbn [fst snd]. lia. }
    destruct (Z.leb_spec (n - write_remaining w) 0).
    + exists ws, [(w_is_cache w, write_remaining w)]. replace (n - write_remaining w) with 0 by lia. split_and!; [done..| | |].
      * by intros b [_ ?]%Forall_cons.
      * apply Forall_singleton. cbn. lia.
      * by intros P _ [_ ?]%Forall_cons.
    + assert (ws <> []) as Hw. { intros ->. change (writes_view []) with (@nil Z) in Hn. change (zlen (@nil Z)) with 0 in Hn. lia. }
      destruct (IH (n - write_remaining w) Hg ltac:(lia) Hw) as (ws' & l & -> & Ev & Hg' & Hh & Hf & Hl & HP).
      eexists ws', _. split; [reflexivity|]. split_and!; [done..| | | |].
      * intros c. rewrite Eh, Hh, !given_back_cons, given_back_nil. cbn [fst snd]. lia.
      * intros b [_ ?]%Forall_cons. by apply Hf.
      * constructor; [cbn; lia|done].
      * intros P HPk [_ ?]%Forall_cons. by apply HP.
  - destruct (write_advance_ok w n Hd ltac:(lia)) as (w' & -> & Ev & Hw & Ec & Ef & Er). eexists _, _. split; [reflexivity|].
    change (writes_view (w' :: ws)) with (write_view w' ++ writes_view ws). rewrite Ev, zdrop_app_l by (rewrite write_view_len by done; lia).
    split_and!; [done|by constructor| | | |].
    + intros c. rewrite !held_cons, given_back_cons, given_back_nil, Ec, Er. cbn [fst snd]. destruct (eqb (w_is_cache w) c); lia.
    + intros b [E ?]%Forall_cons. constructor; [by rewrite Ef|done].
    + apply Forall_singleton. cbn. lia.
    + intros P HPk [HPw ?]%Forall_cons. constructor; [by apply (HPk w)|done].
Qed.

(** ** The queue *)

(** It holds files or chunks, never both; its cache follows its chunks. *)
Record deque_good (q : StreamStreamCacheWriteDeque) : Prop := {
  dg_size : q_size q = zlen (writes_view (q_datas q));
  dg_data : Forall write_good (q_datas q);
  dg_kind : exists b, Forall (fun w => write_is_file w = b) (q_datas q);
  dg_cache : tracks (q_cache_all q) (writes_view (q_datas q));
  dg_plain : Forall (fun w => write_is_file w = true) (q_datas q) -> cursor_is_some (q_cache_all q) = false
}.

Definition deque_view (q : StreamStreamCacheWriteDeque) : list Z := writes_view (q_datas q).

Lemma deque_new_good max : deque_good (deque_new max).
Proof. split; [done|constructor|by exists true|by left|done]. Qed.

Lemma deque_none q : deque_good q -> deque_is_none q = true -> q_datas q = [] /\ deque_view q = [].
Proof.
  intros [Hs Hd _ _ _] Hn%Z.leb_le. unfold deque_view. destruct Hd as [|w ws [Hg Hz] _]; [done|].
  change (writes_view (w :: ws)) with (write_view w ++ writes_view ws) in Hs. rewrite zlen_app, (write_view_len w) in Hs by done.
  pose proof (zlen_nonneg (writes_view ws)). lia.
Qed.

Lemma deque_some q : deque_good q -> deque_is_none q = false -> exists w ws, q_datas q = w :: ws /\ 0 < q_size q.
Proof.
  intros [Hs Hd _ _ _] Hn%Z.leb_gt. destruct (q_datas q) as [|w ws]; [|by exists w, ws].
  change (zlen (writes_view [])) with 0 in Hs. lia.
Qed.

Lemma deque_kind q w ws : deque_good q -> q_datas q = w :: ws -> Forall (fun v => write_is_file v = write_is_file w) (q_datas q).
Proof. intros [_ _ [b Hb] _ _] E. rewrite E in *. pose proof Hb as [Hw _]%Forall_cons. by rewrite Hw. Qed.

Lemma cache_off w ws c : write_is_file w = true -> (Forall (fun v => write_is_file v = true) (w :: ws) -> cursor_is_some c = false) ->
  Forall (fun v => write_is_file v = write_is_file w) (w :: ws) -> cursor_is_some c = false.
Proof. intros E H1 H2. apply H1. by rewrite E in H2. Qed.

Lemma deque_advance_ok q n : deque_good q -> deque_is_none q = false -> 0 <= n <= q_size q ->
  exists l q', deque_advance n q = (Ok l, q') /\ deque_view q' = drop (Z.to_nat n) (deque_view q) /\ deque_good q' /\
    q_size q' = q_size q - n /\ (forall c, held c (q_datas q) = held c (q_datas q') + given_back c l) /\
    Forall (fun r : bool * Z => 0 <= r.2) l /\ (forall P : StreamStreamCacheWrite -> Prop, keeps_kind P -> Forall P (q_datas q) -> Forall P (q_datas q')).
Proof.
  intros Hg Hn Hq. destruct (deque_some q Hg Hn) as (w & ws & E & Hz). pose proof Hg as [Hs Hd [b Hb] Ht Hp].
  unfold deque_advance. step. change (id q) with q.
  destruct (Z.ltb_spec (q_size q) n); [lia|]. destruct (Z.leb_spec (q_size q) 0); [lia|]. cbn [orb]. step.
  destruct (advance_writes_ok (q_datas q) n Hd ltac:(lia) ltac:(by rewrite E)) as (ws' & l & Ea & Ev & Hg' & Hh & Hf & Hl & HP).
  match goal with |- context [if ?c then ?x else ?y] => set (q1 := if c then x else y) end.
  assert (tracks (q_cache_all q1) (writes_view ws') /\ (cursor_is_some (q_cache_all q) = false -> q_cache_all q1 = q_cache_all q) /\ q_size q1 = q_size q - n) as (Ht1 & Ht2 & Ht3).
  { subst q1. unfold set_q_cache_all, set_q_size. cbn. destruct (cursor_is_some (q_cache_all q)) eqn:Es; cbn; split_and!; try done.
    - rewrite Ev. apply tracks_advance; [done..|lia].
    - by destruct (tracks_none _ _ Ht Es); left. }
  clearbody q1. step by (unfold lift; rewrite Ea; reflexivity). step. eexists _, _. split; [reflexivity|].
  unfold deque_view. cbn. split_and!; [done| |done..].
  split; cbn; [rewrite Ht3, Ev, zlen_drop; lia|done|exists b; by apply Hf|done|].
  intros Hall. destruct (cursor_is_some (q_cache_all q)) eqn:Es; [|rewrite (Ht2 eq_refl); exact Es].
  assert (b = false) as ->. { destruct b; [by specialize (Hp Hb)|done]. }
  destruct ws' as [|w' ws']; [|apply Forall_cons in Hall as [Hw _]; apply Hf in Hb; apply Forall_cons in Hb as [Hw' _]; congruence].
  destruct (cursor_is_some (q_cache_all q1)) eqn:E1; [|done]. exfalso.
  destruct (tracks_some _ _ Ht1 E1) as [Hpos Hdr]. apply (f_equal zlen) in Hdr. rewrite zlen_drop in Hdr by lia.
  change (zlen (writes_view [])) with 0 in Hdr. lia.
Qed.

(** What a call that advances the queue leaves: the piece [d] that went out,
    the budgets it gives back and the queue without it. *)
Record advanced (q : StreamStreamCacheWriteDeque) (n : Z) (out : list Z) (l : list (bool * Z)) (q' : StreamStreamCacheWriteDeque) : Prop := {
  ad_good : deque_good q';
  ad_view : out ++ deque_view q' = deque_view q;
  ad_size : q_size q' = q_size q - n;
  ad_held : forall c, held c (q_datas q) = held c (q_datas q') + given_back c l;
  ad_nonneg : Forall (fun r : bool * Z => 0 <= r.2) l;
  ad_keeps : forall P : StreamStreamCacheWrite -> Prop, keeps_kind P -> Forall P (q_datas q) -> Forall P (q_datas q')
}.

Lemma advance_advanced q n : deque_good q -> deque_is_none q = false -> 0 <= n <= q_size q ->
  exists l q', deque_advance n q = (Ok l, q') /\ advanced q n (take (Z.to_nat n) (deque_view q)) l q'.
Proof.
  intros Hg Hn Hq. destruct (deque_advance_ok q n Hg Hn Hq) as (l & q' & E & Ev & Hg' & Es & Hh & Hl & HP).
  exists l, q'. split; [done|]. split; try done. by rewrite Ev, firstn_skipn.
Qed.

(** A file that goes out whole, whatever became of its senders. *)
Lemma advance_front_file q f c ws notify : deque_good q -> q_datas q = mkCacheWrite (WFile f) c :: ws ->
  exists l q', deque_advance (f_size f) (set_q_datas (mkCacheWrite (WFile (mkFilePiece (f_file f) (f_seek f) (f_size f) notify)) c :: ws) q) = (Ok l, q') /\
    advanced q (f_size f) (rd (f_file f) (f_seek f) (f_size f)) l q' /\ file_good f /\ 0 < f_size f <= q_size q.
Proof.
  intros Hg E. pose proof Hg as [Hs Hd [b Hb] Ht Hp]. rewrite E in *. pose proof Hd as [[Hf Hz] Hws]%Forall_cons. unfold write_remaining in Hz. cbn in Hf, Hz.
  assert (writes_view (mkCacheWrite (WFile f) c :: ws) = rd (f_file f) (f_seek f) (f_size f) ++ writes_view ws) as Ev by done.
  rewrite Ev, zlen_app, rd_len in Hs by lia. pose proof (zlen_nonneg (writes_view ws)).
  assert (b = true) as -> by (apply Forall_inv in Hb; by rewrite <- Hb). assert (cursor_is_some (q_cache_all q) = false) as Es by (by apply Hp).
  unfold deque_advance. step. unfold id, set_q_datas. cbn [q_size q_datas q_cache q_cache_all].
  destruct (Z.ltb_spec (q_size q) (f_size f)); [lia|]. destruct (Z.leb_spec (q_size q) 0); [lia|]. cbn [orb]. step.
  unfold set_q_size. cbn [q_size q_datas q_cache q_cache_all]. rewrite Es. cbn [advance_writes write_remaining w_data f_size w_is_cache].
  destruct (Z.leb_spec (f_size f) (f_size f)); [|lia]. rewrite Z.sub_diag. cbn [Z.leb Z.compare]. step. step.
  eexists _, _. split; [reflexivity|]. split; [|split; [done|lia]]. apply Forall_cons in Hb as [_ Hb].
  destruct (tracks_none _ _ Ht Es) as [Hc1 Hc2].
  split; unfold deque_view; cbn [q_size q_datas q_cache q_cache_all].
  - split; cbn; [lia|done|by exists true|by left|done].
  - by rewrite E.
  - done.
  - intros c'. rewrite E, held_cons, given_back_cons, given_back_nil. unfold write_remaining. cbn. lia.
  - apply Forall_singleton. cbn. lia.
  - intros P _. rewrite E. by intros [_ ?]%Forall_cons.
Qed.

(** ** Pushing *)

Lemma deque_is_file_ok q w ws : deque_good q -> deque_is_none q = false -> q_datas q = w :: ws -> deque_is_file q = Ok (write_is_file w).
Proof. intros Hg Hn E. unfold deque_is_file, deque_front. by rewrite Hn, E. Qed.

Lemma refuses_ok n w q : deque_good q -> exists x, refuses n w q = Ok x.
Proof.
  intros Hg. unfold refuses. destruct (deque_is_none q) eqn:Hn; [by eexists|]. destruct (n <=? write_remaining w); [by eexists|].
  destruct (deque_some q Hg Hn) as (v & ws & E & _). rewrite (deque_is_file_ok q v ws Hg Hn E). cbn [mbind outcome_bind].
  destruct (negb _); [by eexists|]. destruct (deque_is_full q); [by eexists|]. destruct (n <=? q_size q); by eexists.
Qed.

(** What is pushed is of the kind of what is there. *)
Lemma refuses_kind n w q : deque_good q -> refuses n w q = Ok false -> Forall (fun v => write_is_file v = write_is_file w) (q_datas q).
Proof.
  intros Hg. unfold refuses. destruct (deque_is_none q) eqn:Hn.
  { intros _. destruct (deque_none q Hg Hn) as [-> _]. constructor. }
  destruct (n <=? write_remaining w); [done|]. destruct (deque_some q Hg Hn) as (v & ws & E & _).
  rewrite (deque_is_file_ok q v ws Hg Hn E). cbn [mbind outcome_bind]. destruct (eqb (write_is_file v) (write_is_file w)) eqn:Ek; [|done].
  apply eqb_prop in Ek. intros _. rewrite <- Ek. exact (deque_kind q v ws Hg E).
Qed.

Lemma file_merge_ok a f : file_good a -> file_good f -> follows a f = true ->
  file_good (file_merge a f) /\ f_size (file_merge a f) = f_size a + f_size f /\
  rd (f_file a) (f_seek a) (f_size a + f_size f) = rd (f_file a) (f_seek a) (f_size a) ++ rd (f_file f) (f_seek f) (f_size f).
Proof.
  intros (Ha1 & Ha2 & Ha3 & Ha4 & Ha5) (Hf1 & Hf2 & Hf3 & Hf4 & Hf5) [Hu Hs%Z.eqb_eq]%andb_true_iff.
  rewrite wrap_id in Hs by (unfold in_width; lia). unfold file_good, file_merge. cbn. rewrite wrap_id by (unfold in_width; lia).
  split_and!; [lia..| | |done|].
  { destruct (f_notify a), (f_notify f); done. }
  { rewrite <- Hs in Hf5. by apply (rd_ok_join _ _ _ _ _ Ha5 Hf5). }
  rewrite rd_split by done. by rewrite Hs, (rd_same _ _ (f_seek f) (f_size f) Hu).
Qed.

Lemma last_inv {A} (l : list A) a : last l = Some a -> exists k, l = k ++ [a].
Proof. intros E. apply last_Some in E as [k ->]. by exists k. Qed.

(** A file is put after the others, or joined to the one before. *)
Lemma push_file_ok f w ws : w_data w = WFile f -> write_good w -> Forall write_good ws -> Forall (fun v => write_is_file v = true) ws ->
  exists ws', push_file f w ws = Ok ws' /\ writes_view ws' = writes_view ws ++ write_view w /\ Forall write_good ws' /\
    Forall (fun v => write_is_file v = true) ws' /\
    zsum (write_remaining <$> ws') = zsum (write_remaining <$> ws) + write_remaining w /\
    ((forall a, last ws = Some a -> w_is_cache a = w_is_cache w) -> forall c, held c ws' = held c ws + held c [w]) /\
    (forall P : StreamStreamCacheWrite -> Prop, keeps_kind P -> Forall P (ws ++ [w]) -> Forall P ws').
Proof.
  intros Ew Hw Hws Hk. unfold push_file.
  assert (exists ws', Ok (ws ++ [w]) = Ok ws' /\ writes_view ws' = writes_view ws ++ write_view w /\ Forall write_good ws' /\
    Forall (fun v => write_is_file v = true) ws' /\
    zsum (write_remaining <$> ws') = zsum (write_remaining <$> ws) + write_remaining w /\
    ((forall a, last ws = Some a -> w_is_cache a = w_is_cache w) -> forall c, held c ws' = held c ws + held c [w]) /\
    (forall P : StreamStreamCacheWrite -> Prop, keeps_kind P -> Forall P (ws ++ [w]) -> Forall P ws')) as Happ.
  { exists (ws ++ [w]). rewrite writes_view_app, writes_view_one, fmap_app, zsum_app. split_and!; [done..| | | | |done].
    - apply Forall_app. split; [done|by apply Forall_singleton].
    - apply Forall_app. split; [done|]. apply Forall_singleton. unfold write_is_file. by rewrite Ew.
    - unfold zsum. cbn. lia.
    - intros _ c. apply held_both. }
  destruct (last ws) as [[d ca]|] eqn:El; [|exact Happ]. destruct (last_inv _ _ El) as [k ->].
  apply Forall_app in Hws as [Hk1 [[Ha Haz] _]%Forall_cons]. apply Forall_app in Hk as [Hkk [Haf _]%Forall_cons].
  destruct d as [b|a]; [done|]. cbn [write_file w_data mbind outcome_bind]. destruct (follows a f) eqn:Ef; [|exact Happ]. clear Happ.
  destruct Hw as [Hf Hfz]. rewrite Ew in Hf. destruct (file_merge_ok a f Ha Hf Ef) as (Hm & Hms & Hmv).
  rewrite removelast_last. unfold write_remaining in Haz, Hfz. cbn in Haz. rewrite Ew in Hfz. eexists. split; [reflexivity|].
  rewrite !writes_view_app, !writes_view_one, !fmap_app, !zsum_app. split_and!.
  - rewrite <- app_assoc. f_equal. unfold write_view. rewrite Ew. cbn [data_view w_data]. rewrite Hms. exact Hmv.
  - apply Forall_app. split; [done|]. apply Forall_singleton. split; [done|]. unfold write_remaining. cbn [w_data]. rewrite Hms. lia.
  - apply Forall_app. split; [done|]. by apply Forall_singleton.
  - unfold zsum, write_remaining. rewrite Ew. cbn [fmap list_fmap foldr w_data]. rewrite Hms. lia.
  - intros Hc c. specialize (Hc _ eq_refl). cbn in Hc. rewrite !held_both, !held_cons. cbn [w_is_cache]. rewrite <- Hc.
    unfold write_remaining. rewrite Ew. cbn [w_data]. rewrite Hms. unfold held. cbn. destruct (eqb ca c); lia.
  - intros P HPk [[HP1 HP2]%Forall_app _]%Forall_app. apply Forall_app. split; [done|]. apply Forall_singleton. apply Forall_inv in HP2. exact (HPk (mkCacheWrite (WFile a) ca) (mkCacheWrite (WFile (file_merge a f)) ca) eq_refl eq_refl HP2).
Qed.

(** The cache of the queue grows with what is pushed; it is off for files. *)
Definition same_budget (w : StreamStreamCacheWrite) (q : StreamStreamCacheWriteDeque) : Prop :=
  write_is_file w = true -> forall a, last (q_datas q) = Some a -> write_is_file a = true -> w_is_cache a = w_is_cache w.

Lemma kind_budget w q : Forall (fun v => write_is_file v = write_is_file w) (q_datas q) -> same_budget w q ->
  write_is_file w = true -> forall a, last (q_datas q) = Some a -> w_is_cache a = w_is_cache w.
Proof.
  intros Hk Hs Hw a Ea. apply (Hs Hw a Ea). rewrite <- Hw. destruct (last_inv _ _ Ea) as [l El]. rewrite El in Hk.
  apply Forall_app in Hk as [_ Hk]. by apply Forall_inv in Hk.
Qed.

Lemma deque_push_back_ok n w q : deque_good q -> write_good w -> q_size q + write_remaining w < 2 ^ 64 ->
  deque_push_back n w q = (Ok (Some w), q) \/
  exists q', deque_push_back n w q = (Ok None, q') /\ deque_good q' /\ deque_view q' = deque_view q ++ write_view w /\
    q_size q' = q_size q + write_remaining w /\ zsum (write_remaining <$> q_datas q') = zsum (write_remaining <$> q_datas q) + write_remaining w /\
    (same_budget w q -> forall c, held c (q_datas q') = held c (q_datas q) + held c [w]) /\
    (forall P : StreamStreamCacheWrite -> Prop, keeps_kind P -> Forall P (q_datas q ++ [w]) -> Forall P (q_datas q')).
Proof.
  intros Hg Hw Hz. pose proof Hg as [Hs Hd Hk Ht Hp]. pose proof Hw as [Hwd Hwz]. pose proof (zlen_nonneg (writes_view (q_datas q))).
  unfold deque_push_back. step. change (id q) with q. destruct (refuses_ok n w q Hg) as [[|] Er].
  { left. by step by (unfold lift; rewrite Er; reflexivity). }
  right. step by (unfold lift; rewrite Er; reflexivity). step. pose proof (refuses_kind n w q Hg Er) as Hkind.
  rewrite wrap_id by (unfold in_width; lia). pose proof (kind_budget w q Hkind) as Hsb. unfold write_is_file in *. destruct w as [[b|f] c]; cbn [w_data w_is_cache] in *.
  - step. step. eexists. split; [reflexivity|].
    assert (writes_view (q_datas q ++ [mkCacheWrite (WBytes b) c]) = writes_view (q_datas q) ++ concat (b_datas b)) as Ev
      by (by rewrite writes_view_app, writes_view_one).
    pose proof (bg_size b Hwd) as Hb. unfold write_remaining in *. cbn [w_data] in *. unfold set_q_cache_all, set_q_datas, set_q_size. cbn.
    assert (forall q1, q_datas q1 = q_datas q ++ [mkCacheWrite (WBytes b) c] -> q_size q1 = q_size q + b_size b ->
      tracks (q_cache_all q1) (writes_view (q_datas q) ++ concat (b_datas b)) -> 
      deque_good q1 /\ deque_view q1 = deque_view q ++ write_view (mkCacheWrite (WBytes b) c)) as Hq1.
    { intros q1 E1 E2 E3. split; [|unfold deque_view; by rewrite E1, Ev].
      split; rewrite ?E1, ?Ev; [rewrite zlen_app; lia|apply Forall_app; split; [done|by apply Forall_singleton]| |done|].
      - exists false. apply Forall_app. split; [done|by apply Forall_singleton].
      - intros Hf. apply Forall_app in Hf as [_ Hf]. by apply Forall_inv in Hf. }
    destruct (cursor_is_some (q_cache_all q)) eqn:Es; cbn.
    + destruct (Hq1 (mkDeque (q_datas q ++ [mkCacheWrite (WBytes b) c]) (q_size q + b_size b) (q_cache q) (foldl (fun c data => cursor_extend data c) (q_cache_all q) (b_datas b)))) as [H1 H2]; [done..|by apply tracks_extends|].
      split_and!; [done..|rewrite fmap_app, zsum_app; unfold zsum; cbn; lia|intros _ c'; apply held_both|done].
    + destruct (Hq1 (mkDeque (q_datas q ++ [mkCacheWrite (WBytes b) c]) (q_size q + b_size b) (q_cache q) (q_cache_all q))) as [H1 H2]; [done..|destruct (tracks_none _ _ Ht Es); by left|].
      split_and!; [done..|rewrite fmap_app, zsum_app; unfold zsum; cbn; lia|intros _ c'; apply held_both|done].
  - destruct (push_file_ok f (mkCacheWrite (WFile f) c) (q_datas q) eq_refl Hw Hd Hkind) as (ws' & E & Ev & Hg' & Hk' & Ez & Hh & HP).
    step by (unfold lift; rewrite E; reflexivity). step. eexists. split; [reflexivity|]. unfold deque_view. cbn.
    pose proof (write_view_len (mkCacheWrite (WFile f) c) Hwd) as Hl. unfold write_remaining in *. cbn [w_data] in *.
    split_and!; [|exact Ev|done|exact Ez|intros Hc; apply Hh; exact (Hsb Hc eq_refl)|exact HP].
    assert (cursor_is_some (q_cache_all q) = false) as Es by (by apply Hp).
    split; cbn; [rewrite Ev, zlen_app; lia|done|by exists true| |done].
    destruct (tracks_none _ _ Ht Es); by left.
Qed.

(** ** Reading out *)

Lemma all_bytes ws : Forall (fun w => write_is_file w = false) ws -> Forall write_good ws ->
  exists dss, all_datas ws = Ok dss /\ concat (concat dss) = writes_view ws /\ Forall no_empty dss.
Proof.
  induction 1 as [|w ws Hf Hws IH]; intros Hg; [by exists []|]. apply Forall_cons in Hg as [[Hd _] Hg].
  destruct (IH Hg) as (dss & E & Ev & Hn). unfold write_is_file in Hf. destruct w as [[b|f] c]; [|done]. cbn [all_datas write_bytes w_data mbind outcome_bind].
  rewrite E. cbn [mbind outcome_bind]. eexists. split; [reflexivity|]. cbn [concat]. rewrite concat_app, Ev. split; [done|]. constructor; [|done]. apply Hd.
Qed.

Definition same_deque (q q' : StreamStreamCacheWriteDeque) : Prop := q_datas q' = q_datas q /\ q_size q' = q_size q.

Lemma deque_cache_good q c : deque_good q -> tracks c (deque_view q) -> Forall (fun w => write_is_file w = false) (q_datas q) -> q_datas q <> [] ->
  deque_good (set_q_cache_all c q) /\ same_deque q (set_q_cache_all c q).
Proof.
  intros [Hs Hd Hk Ht Hp] Hc Hf Hn. split; [|done]. split; cbn; try done. intros Hf'.
  destruct (q_datas q) as [|w ws]; [done|]. apply Forall_cons in Hf as [? _], Hf' as [? _]. congruence.
Qed.

(** A queue of chunks. *)
Lemma deque_chunks q : deque_good q -> deque_is_none q = false -> deque_is_file q = Ok false ->
  Forall (fun w => write_is_file w = false) (q_datas q) /\ q_datas q <> [].
Proof.
  intros Hg Hn Hf. destruct (deque_some q Hg Hn) as (w & ws & E & _). rewrite (deque_is_file_ok q w ws Hg Hn E) in Hf.
  injection Hf as Hf. pose proof (deque_kind q w ws Hg E) as Hk. rewrite Hf in Hk. split; [done|by rewrite E].
Qed.

Lemma is_one_ok q : deque_good q -> Forall (fun w => write_is_file w = false) (q_datas q) -> q_datas q <> [] ->
  exists x, is_one_chunk q = Ok x /\ (x = true -> deque_first q = Ok (deque_view q)).
Proof.
  intros [Hs Hd _ _ _] Hf Hn. unfold is_one_chunk, deque_first, deque_front, deque_view. destruct (q_datas q) as [|w ws]; [done|].
  apply Forall_cons in Hf as [Hf _]. destruct (Z.eqb_spec (zlen (w :: ws)) 1) as [E1|]; [|by exists false].
  rewrite zlen_cons in E1. assert (ws = []) as -> by (apply zlen_0; lia). unfold write_is_file in Hf. destruct w as [[b|f] c]; [|done]. cbn.
  eexists. split; [reflexivity|]. intros E2%Z.eqb_eq. unfold first_data. rewrite writes_view_one. unfold write_view. cbn [data_view w_data].
  destruct (b_datas b) as [|d [|d' l]]; [done|cbn; by rewrite app_nil_r|]. rewrite !zlen_cons in E2. pose proof (zlen_nonneg l). lia.
Qed.

Lemma deque_chunk_all_ok q : deque_good q -> Forall (fun w => write_is_file w = false) (q_datas q) -> q_datas q <> [] ->
  exists q', deque_chunk_all q = (Ok (deque_view q), q') /\ deque_good q' /\ same_deque q q' /\
    (is_one_chunk q = Ok true \/ cursor_chunk (q_cache_all q') = Ok (deque_view q)).
Proof.
  intros Hg Hf Hn. pose proof Hg as [Hs Hd Hk Ht Hp]. destruct (is_one_ok q Hg Hf Hn) as ([|] & E1 & Hx); unfold deque_chunk_all; step; change (id q) with q;
    (step by (unfold lift; rewrite E1; reflexivity)).
  { exists q. unfold lift. rewrite Hx by done. split_and!; [done..|by left]. }
  destruct (cursor_is_some (q_cache_all q)) eqn:Es.
  { exists q. unfold lift. rewrite (tracks_chunk _ _ Ht Es). split_and!; [done..|by right]. }
  destruct (all_bytes _ Hf Hd) as (dss & Ea & Ev & _). step by (unfold lift; rewrite Ea; reflexivity).
  assert (concat (concat dss) <> []) as Hne.
  { rewrite Ev. intros E. destruct (q_datas q) as [|w ws]; [done|]. apply Forall_cons in Hd as [[Hwd Hwz] _].
    apply (f_equal zlen) in E. change (writes_view (w :: ws)) with (write_view w ++ writes_view ws) in E.
    rewrite zlen_app, (write_view_len w Hwd) in E. pose proof (zlen_nonneg (writes_view ws)). change (zlen (@nil Z)) with 0 in E. lia. }
  destruct (tracks_fill _ _ (q_size q) (concat dss) Ht Es Hne) as [Ht' Es']. rewrite Ev in Ht'.
  step. rewrite (tracks_chunk _ _ Ht' Es'). destruct (deque_cache_good q _ Hg Ht' Hf Hn) as [H1 H2].
  eexists. split; [reflexivity|]. split_and!; [done..|]. right. by apply tracks_chunk.
Qed.

Lemma deque_chunk_bytes_all_ok q : deque_good q -> Forall (fun w => write_is_file w = false) (q_datas q) -> q_datas q <> [] ->
  exists q', deque_chunk_bytes_all q = (Ok (deque_view q), q') /\ deque_good q' /\ same_deque q q'.
Proof.
  intros Hg Hf Hn. destruct (is_one_ok q Hg Hf Hn) as (x & E1 & Hx). unfold deque_chunk_bytes_all. step. change (id q) with q.
  step by (unfold lift; rewrite E1; reflexivity). destruct (deque_chunk_all_ok q Hg Hf Hn) as (q' & E & Hg' & [Hd Hz] & Hc).
  destruct x; [exists q; unfold lift; by rewrite Hx|]. destruct Hc as [Hc|Hc]; [congruence|].
  step by exact E. step. change (id q') with q'. unfold cursor_chunk_bytes. rewrite Hc. step. unfold lift.
  destruct (deque_cache_good q' (cursor_reset (q_cache_all q')) Hg') as [H1 [H2 H3]]; [by left|by rewrite Hd..|].
  eexists. split; [reflexivity|]. split; [done|]. split; congruence.
Qed.

Lemma chunks_vectored_ok ds : forall room, exists k, concat (chunks_vectored room ds) = take k (concat ds) /\
  ((length (chunks_vectored room ds) < room)%nat -> concat (chunks_vectored room ds) = concat ds).
Proof.
  induction ds as [|d ds IH]; intros [|room]; [by exists 0%nat|by exists 0%nat|exists 0%nat; split; [done|cbn; lia]|].
  cbn [chunks_vectored]. destruct (Z.ltb_spec 0 (zlen d)) as [Hd|Hd].
  - destruct (IH room) as (k & E & Hr). exists (length d + k)%nat. cbn. rewrite E. rewrite take_app_ge by lia.
    split; [do 2 f_equal; lia|]. intros Hl. rewrite <- E. f_equal. apply Hr. lia.
  - assert (d = []) as -> by (apply zlen_0; pose proof (zlen_nonneg d); lia). apply IH.
Qed.

Lemma chunks_vectored_room ds : forall room, (length (chunks_vectored room ds) <= room)%nat.
Proof.
  induction ds as [|d ds IH]; intros [|room]; cbn [chunks_vectored]; [cbn; lia..|]. destruct (0 <? zlen d); [|apply IH].
  cbn. specialize (IH room). lia.
Qed.

(** A vectored write offers a first part. *)
Lemma deque_vectored_ok ws : forall room, Forall (fun w => write_is_file w = false) ws -> Forall write_good ws ->
  exists ls k, deque_vectored room ws = Ok ls /\ concat ls = take k (writes_view ws).
Proof.
  induction ws as [|w ws IH]; intros room Hf Hg; [exists [], 0%nat; by destruct room|].
  apply Forall_cons in Hf as [Hf Hfs], Hg as [Hg Hgs]. destruct room as [|room]; [by exists [], 0%nat|].
  unfold write_is_file in Hf. destruct w as [[b|f] c]; [|done]. cbn [deque_vectored write_bytes w_data mbind outcome_bind].
  destruct (chunks_vectored_ok (b_datas b) (S room)) as (k & E & Hr). pose proof (chunks_vectored_room (b_datas b) (S room)).
  destruct (IH (S room - length (chunks_vectored (S room) (b_datas b)))%nat Hfs Hgs) as (ls & k' & El & Ev). rewrite El. cbn [mbind outcome_bind].
  change (writes_view (mkCacheWrite (WBytes b) c :: ws)) with (concat (b_datas b) ++ writes_view ws).
  destruct (Nat.lt_ge_cases (length (chunks_vectored (S room) (b_datas b))) (S room)).
  - eexists _, (length (concat (b_datas b)) + k')%nat. split; [reflexivity|]. rewrite concat_app, Hr, Ev by done.
    rewrite take_app_ge by lia. do 2 f_equal. lia.
  - replace (S room - length (chunks_vectored (S room) (b_datas b)))%nat with 0%nat in El by lia.
    assert (ls = []) as -> by (destruct ws; by injection El as <-).
    eexists _, (k `min` length (concat (b_datas b)))%nat. split; [reflexivity|]. rewrite app_nil_r, E.
    rewrite take_app_le by lia. destruct (Nat.le_ge_cases k (length (concat (b_datas b)))); [by rewrite Nat.min_l|].
    rewrite Nat.min_r by done. by rewrite firstn_all, firstn_all2.
Qed.
End deque.

(** ** Files that change elsewhere

    When pieces stay pieces and read as before, nothing else changes. *)
Definition files_kept (F G : FileRead) : Prop := forall f s n, 0 <= s -> 0 <= n ->
  @rd_ok F f s n -> @rd_ok G f s n /\ @rd G f s n = @rd F f s n.

Section kept.
Context (F G : FileRead) (Hk : files_kept F G).

Lemma file_kept f : @file_good F f -> @file_good G f /\ @rd G (f_file f) (f_seek f) (f_size f) = @rd F (f_file f) (f_seek f) (f_size f).
Proof. intros (Hs & Hn & ? & ? & Hok). destruct (Hk _ _ _ Hs Hn Hok) as [H1 H2]. by split. Qed.

Lemma data_kept d : @data_good F d -> @data_good G d /\ @data_view G d = @data_view F d.
Proof. destruct d as [b|f]; [done|]. apply file_kept. Qed.

Lemma write_kept w : @write_good F w -> @write_good G w /\ @write_view G w = @write_view F w.
Proof. intros [Hd Hz]. destruct (data_kept _ Hd) as [H1 H2]. by repeat split. Qed.

Lemma writes_kept ws : Forall (@write_good F) ws -> Forall (@write_good G) ws /\ @writes_view G ws = @writes_view F ws.
Proof.
  induction 1 as [|w ws Hw _ [IH1 IH2]]; [done|]. destruct (write_kept w Hw) as [H1 H2]. split; [by constructor|].
  unfold writes_view in *. cbn. by rewrite H2, IH2.
Qed.

Lemma deque_kept q : @deque_good F q -> @deque_good G q /\ @deque_view G q = @deque_view F q.
Proof.
  intros [Hs Hd Hb Ht Hp]. destruct (writes_kept _ Hd) as [H1 H2]. unfold deque_view. split; [|done]. by split; rewrite ?H2.
Qed.
End kept.
