(* ===== verification/StreamCopy.v ===== *)
(** Copying one stream to another, [any-proxy/src/proxy]: the context two
    ends share ([mod.rs]), reading with the limits of the memory and of the
    temporary file ([stream_stream_cache.rs], [stream_stream_memory.rs]),
    putting what was read into the queue or into the file and taking it back
    ([stream_stream_tmp_file.rs]), writing it ([stream_stream_write.rs]), with
    the settings of [ConfStream::new] ([config/net_core.rs]) and the two timers
    of [stream_stream.rs].  [StreamRelay], [StreamTake] and [StreamRelayEnd]
    have the theorems. *)
From S2P Require Import Prelude StreamBuf.
From S2P Require FileCache CacheFile.
#[local] Open Scope string_scope.
#[local] Open Scope list_scope.
#[local] Open Scope Z_scope.

(** ** Settings *)

Record ConfStream := mkConfStream {
  c_stream_cache_size : Z;
  c_tmp_file_size : Z;
  tmp_file_reopen_size : Z;
  c_limit_rate_after : Z;
  max_limit_rate : Z;
  max_stream_cache_size : Z;
  max_tmp_file_size : Z;
  is_tmp_file_io_page : bool;
  page_size : Z;
  min_cache_buffer_size : Z;
  min_read_buffer_size : Z;
  min_cache_file_size : Z;
  read_buffer_size : Z;
  write_buffer_size : Z;
  stream_delay_mil_time : Z;
  c_stream_nodelay_size : Z
}.

(** A size in whole pages, one more than it needs. *)
Definition in_pages (size page : Z) : outcome Z := q ← zdiv size page; Ok (swrap64 ((q + 1) * page)).

Definition conf_stream_new (page tmp_size reopen limit_after limit cache_size : Z) (io_page : bool)
    (read_pages write_pages delay nodelay : Z) : outcome ConfStream :=
  let write_pages := if write_pages <? read_pages then read_pages else write_pages in
  let min_cache_buffer := wrap64 (page * 4 * 8) in
  let min_read_buffer := wrap64 (page * 2) in
  let min_cache_file := wrap64 (page * 1024) in
  let read_size := wrap64 (read_pages * page) in
  let write_size := wrap64 (write_pages * page) in
  let read_size := if read_size <? min_read_buffer then min_read_buffer else read_size in
  let write_size := if write_size <? read_size then read_size else write_size in
  let cache := if swrap64 cache_size <? swrap64 min_cache_buffer then swrap64 min_cache_buffer else swrap64 cache_size in
  let tmp := swrap64 tmp_size in
  let tmp := if (0 <? tmp) && (tmp <? swrap64 min_cache_file) then swrap64 min_cache_file else tmp in
  cache ← if 0 <? cache then in_pages cache (swrap64 page) else Ok cache;
  tmp ← if 0 <? tmp then in_pages tmp (swrap64 page) else Ok tmp;
  Ok (mkConfStream cache tmp (swrap64 reopen) (swrap64 limit_after) limit cache tmp io_page page
        min_cache_buffer min_read_buffer min_cache_file read_size write_size delay nodelay).

(** ** The two ends

    The result of a read or write is that of [StreamFlow]: a connection that
    is closed is [IoReset].  [select_read] and [select_read_msg] are the
    [select!] of a read with a sleep and a wake-up, which give [None]. *)
Inductive io (A : Type) :=
  | IoOk (a : A)
  | IoReset
  | IoErr (e : string).
Arguments IoOk {A} a.
Arguments IoReset {A}.
Arguments IoErr {A} e.

Class AsyncReader (R : Type) := {
  is_read_msg : R -> bool;
  is_single : R -> bool;
  read : Z -> R -> io (list Z) * R;
  try_read : Z -> R -> io (list Z) * R;
  select_read : Z -> R -> option (io (list Z)) * R;
  read_msg : Z -> R -> io StreamReadMsg * R;
  try_read_msg : Z -> R -> io StreamReadMsg * R;
  select_read_msg : Z -> R -> option (io StreamReadMsg) * R
}.

Class AsyncWriter (W : Type) := {
  write : list Z -> W -> io Z * W;
  write_vectored : list (list Z) -> W -> io Z * W;
  sendfile : FileExt -> Z -> Z -> W -> io Z * W;
  write_msg : MsgWriteBuf -> W -> io Z * W;
  flush : W -> io unit * W;
  shutdown : W -> W;
  write_cache_size : W -> Z
}.

Definition MAX_WRITEV_BUFS : nat := 64.
Definition usize_max : Z := 2 ^ 64 - 1.

(** ** Files on disk

    [d_files] has the content of each file by its number, [d_tmp] the files
    that are opened for temporary use one after the other, and [d_room] the
    bytes the disk still takes. *)
Record Disk := mkDisk {
  d_files : Z -> CacheFile.File;
  d_tmp : list FileExt;
  d_room : Z
}.

Definition get_tmp_file_fd : stm Disk FileExt := fun d =>
  match d_tmp d with
  | [] => (Err "err:get_tmp_file_fd", d)
  | f :: l => (Ok f, mkDisk (d_files d) l (d_room d))
  end.

Definition write_all_at (f : FileExt) (data : list Z) (off : Z) : stm Disk unit := fun d =>
  if d_room d <? zlen data then (Err "err:fw.write_all", d)
  else (Ok tt, mkDisk (fun u => if u =? file_uniq f then CacheFile.write_at data off (d_files d u) else d_files d u)
                      (d_tmp d) (d_room d - zlen data)).

Definition read_exact_at (f : FileExt) (off n : Z) : stm Disk (list Z) := fun d =>
  let file := d_files d (file_uniq f) in
  if CacheFile.file_len file <? off + n then (Err "err:fr.read_exact", d) else (Ok (CacheFile.read_at n off file), d).

(** ** What the two directions share *)

Inductive StreamCloseType := Fast | Shutdown | WaitEmpty.
Inductive DelayState := DelayInit | DelayWait | DelayStart.
Inductive StreamStatus := Limit | Full (is_sendfile : bool) | StatusOk | WriteEmpty.

Record StreamStreamTmpFile := mkTmpFile { fw_seek : Z; tmp_file : option FileExt; is_first_buffer : bool }.
Definition tmp_file_new : StreamStreamTmpFile := mkTmpFile 0 None true.

(** What does not change: the settings, and what the two ends are. *)
Record StreamEnv := mkEnv {
  cs : ConfStream;
  env_is_sendfile : bool;
  env_is_write_msg : bool;
  env_is_write_vectored : bool;
  env_page_size : Z;
  close_type : StreamCloseType
}.

(** [StreamStreamShare] with its [StreamStreamShareContext],
    [StreamStreamData] and [StreamStreamContext], the temporary file of its
    plugin, the two ends and the disk. *)
Record Share (R W : Type) := mkShare {
  stream_cache_size : Z;
  tmp_file_size : Z;
  tmp_file_curr_reopen_size : Z;
  limit_rate_after : Z;
  total_read_size : Z;
  total_write_size : Z;
  stream_nodelay_size : Z;
  curr_limit_rate : Z;
  delay_state : DelayState;
  delay_ok : bool;
  delay_version : Z;
  write_buffer_deque : StreamStreamCacheWriteDeque;
  write_buffer : option StreamStreamCacheWrite;
  write_err : option string;
  read_buffer : option StreamStreamCacheRead;
  read_err : option string;
  caches : list StreamStreamCacheWrite;
  plugin : option StreamStreamTmpFile;
  is_stream_cache : bool;
  close_num : Z;
  closing : bool;
  disk : Disk;
  reader : R;
  writer : W
}.
Arguments mkShare {R W}.
Arguments stream_cache_size {R W}.
Arguments tmp_file_size {R W}.
Arguments tmp_file_curr_reopen_size {R W}.
Arguments limit_rate_after {R W}.
Arguments total_read_size {R W}.
Arguments total_write_size {R W}.
Arguments stream_nodelay_size {R W}.
Arguments curr_limit_rate {R W}.
Arguments delay_state {R W}.
Arguments delay_ok {R W}.
Arguments delay_version {R W}.
Arguments write_buffer_deque {R W}.
Arguments write_buffer {R W}.
Arguments write_err {R W}.
Arguments read_buffer {R W}.
Arguments read_err {R W}.
Arguments caches {R W}.
Arguments plugin {R W}.
Arguments is_stream_cache {R W}.
Arguments close_num {R W}.
Arguments closing {R W}.
Arguments disk {R W}.
Arguments reader {R W}.
Arguments writer {R W}.

Section setters.
Context {R W : Type}.
Abbreviation S := (Share R W).
Definition eta_share (s : S) : S :=
  mkShare (stream_cache_size s) (tmp_file_size s) (tmp_file_curr_reopen_size s) (limit_rate_after s) (total_read_size s)
    (total_write_size s) (stream_nodelay_size s) (curr_limit_rate s) (delay_state s) (delay_ok s) (delay_version s)
    (write_buffer_deque s) (write_buffer s) (write_err s) (read_buffer s) (read_err s) (caches s) (plugin s)
    (is_stream_cache s) (close_num s) (closing s) (disk s) (reader s) (writer s).
Definition set_stream_cache_size : Z -> S -> S := ltac:(setter eta_share (@stream_cache_size R W)).
Definition set_tmp_file_size : Z -> S -> S := ltac:(setter eta_share (@tmp_file_size R W)).
Definition set_curr_reopen : Z -> S -> S := ltac:(setter eta_share (@tmp_file_curr_reopen_size R W)).
Definition set_limit_rate_after : Z -> S -> S := ltac:(setter eta_share (@limit_rate_after R W)).
Definition set_total_read : Z -> S -> S := ltac:(setter eta_share (@total_read_size R W)).
Definition set_total_write : Z -> S -> S := ltac:(setter eta_share (@total_write_size R W)).
Definition set_nodelay : Z -> S -> S := ltac:(setter eta_share (@stream_nodelay_size R W)).
Definition set_curr_limit_rate : Z -> S -> S := ltac:(setter eta_share (@curr_limit_rate R W)).
Definition set_delay_state : DelayState -> S -> S := ltac:(setter eta_share (@delay_state R W)).
Definition set_delay_ok : bool -> S -> S := ltac:(setter eta_share (@delay_ok R W)).
Definition set_delay_version : Z -> S -> S := ltac:(setter eta_share (@delay_version R W)).
Definition set_deque : StreamStreamCacheWriteDeque -> S -> S := ltac:(setter eta_share (@write_buffer_deque R W)).
Definition set_write_buffer : option StreamStreamCacheWrite -> S -> S := ltac:(setter eta_share (@write_buffer R W)).
Definition set_write_err : option string -> S -> S := ltac:(setter eta_share (@write_err R W)).
Definition set_read_buffer : option StreamStreamCacheRead -> S -> S := ltac:(setter eta_share (@read_buffer R W)).
Definition set_read_err : option string -> S -> S := ltac:(setter eta_share (@read_err R W)).
Definition set_caches : list StreamStreamCacheWrite -> S -> S := ltac:(setter eta_share (@caches R W)).
Definition set_plugin : option StreamStreamTmpFile -> S -> S := ltac:(setter eta_share (@plugin R W)).
Definition set_is_stream_cache : bool -> S -> S := ltac:(setter eta_share (@is_stream_cache R W)).
Definition set_close_num : Z -> S -> S := ltac:(setter eta_share (@close_num R W)).
Definition set_closing : bool -> S -> S := ltac:(setter eta_share (@closing R W)).
Definition set_disk : Disk -> S -> S := ltac:(setter eta_share (@disk R W)).
Definition set_reader : R -> S -> S := ltac:(setter eta_share (@reader R W)).
Definition set_writer : W -> S -> S := ltac:(setter eta_share (@writer R W)).
End setters.

Section copy.
Context {R W : Type} `{AsyncReader R} `{AsyncWriter W} (e : StreamEnv).
Abbreviation S := (Share R W).

(** Calls on a part of the state. *)
Definition on_deque {A} (m : stm StreamStreamCacheWriteDeque A) : stm S A := fun s =>
  let (o, q) := m (write_buffer_deque s) in (o, set_deque q s).
Definition on_disk {A} (m : stm Disk A) : stm S A := fun s => let (o, d) := m (disk s) in (o, set_disk d s).
Definition on_reader {A} (m : R -> A * R) : stm S A := fun s => let (a, r) := m (reader s) in (Ok a, set_reader r s).
Definition on_writer {A} (m : W -> A * W) : stm S A := fun s => let (a, w) := m (writer s) in (Ok a, set_writer w s).

(** A call on a local variable. *)
Definition on_local {B A} (m : stm B A) (b : B) : stm S (A * B) := fun s =>
  let (o, b) := m b in ((fun a => (a, b)) <$> o, s).

(** ** Waiting for more before writing *)

Definition delay_start : stm S unit :=
  modify (fun s => if 0 <? stream_delay_mil_time (cs e)
                   then match delay_state s with DelayStart => s | _ => set_delay_state DelayStart s end else s).

Definition delay_stop : stm S unit :=
  modify (fun s => if 0 <? stream_delay_mil_time (cs e)
                   then match delay_state s with
                        | DelayWait => s
                        | _ => set_delay_state DelayWait (set_delay_version (wrap64 (delay_version s + 1)) s)
                        end
                   else s).

Definition is_read_empty (s : S) : bool :=
  match read_buffer s with None => true | Some r => read_remaining r =? 0 end.
Definition is_write_empty (s : S) : bool :=
  (zlen (caches s) <=? 0) && match write_buffer s with None => true | Some _ => false end && (q_size (write_buffer_deque s) <=? 0).
Definition is_empty (s : S) : bool := is_read_empty s && is_write_empty s.

Definition is_none {A} (o : option A) : bool := match o with None => true | Some _ => false end.

(** ** What was read, into the queue or into the temporary file *)

Definition change_stream_size (is_cache : bool) (size : Z) (s : S) : S :=
  let s := set_total_read (wrap64 (total_read_size s + size)) s in
  let s := if 0 <? stream_nodelay_size s then set_nodelay (swrap64 (stream_nodelay_size s - size)) s else s in
  if is_cache then set_stream_cache_size (swrap64 (stream_cache_size s - size)) s
  else set_curr_reopen (swrap64 (tmp_file_curr_reopen_size s + size)) (set_tmp_file_size (swrap64 (tmp_file_size s - size)) s).

Definition is_left (is_cache : bool) (size : Z) (s : S) : bool :=
  size <? (if is_cache then stream_cache_size s else tmp_file_size s).

(** The plugin, and a new file when enough was written to the old one. *)
Definition plugin_turn : stm S unit :=
  s ← gets id;
  match plugin s with
  | None => modify (set_plugin (Some tmp_file_new))
  | Some p =>
      if (0 <? max_tmp_file_size (cs e)) && (0 <? tmp_file_reopen_size (cs e)) && (tmp_file_reopen_size (cs e) <=? tmp_file_curr_reopen_size s) then
        _ ← modify (set_curr_reopen 0);
        f ← attempt (on_disk get_tmp_file_fd);
        match f with
        | Some f => modify (set_plugin (Some (mkTmpFile 0 (Some f) (is_first_buffer p))))
        | None => mret tt
        end
      else mret tt
  end.

(** [StreamStreamTmpFile::file_ext] *)
Definition file_ext : stm S FileExt :=
  p ← gets plugin;
  p ← lift (expect p);
  match tmp_file p with
  | Some f => mret f
  | None =>
      f ← on_disk get_tmp_file_fd;
      _ ← modify (set_plugin (Some (mkTmpFile (fw_seek p) (Some f) (is_first_buffer p))));
      mret f
  end.

(** The conditions under which what was read may wait for more. *)
Definition may_wait (buffer : StreamStreamCacheRead) (p : StreamStreamTmpFile) (s : S) : bool :=
  is_left (r_is_cache buffer) (read_remaining buffer) s && is_none (read_err s) && is_stream_cache s && negb (read_is_full buffer) &&
  negb (is_first_buffer p) && negb (r_is_flush buffer) && (0 <? stream_delay_mil_time (cs e)) && (stream_nodelay_size s <=? 0).

Definition hold (buffer : StreamStreamCacheRead) : stm S unit :=
  _ ← delay_start; modify (set_read_buffer (Some buffer)).

Definition first_buffer_done : stm S unit :=
  modify (fun s => set_plugin ((fun p => mkTmpFile (fw_seek p) (tmp_file p) false) <$> plugin s) s).

(** How much of what was read goes to the file now: up to the end of a page
    when the rest may wait. [None] when all of it waits. *)
Definition page_cut (buffer : StreamStreamCacheRead) : stm S (option StreamStreamCacheRead) :=
  s ← gets id;
  p ← lift (expect (plugin s));
  let size := read_remaining buffer in
  let all := _ ← delay_stop; _ ← first_buffer_done; mret (Some buffer) in
  if is_tmp_file_io_page (cs e) && may_wait buffer p s then
    let fw_seek_end := wrap64 (fw_seek p + size) in
    fw_seek_left ← lift (zrem fw_seek_end (page_size (cs e)));
    if 0 <? fw_seek_left then
      page ← lift (zdiv (fw_seek p) (page_size (cs e)));
      if fw_seek_end <? wrap64 ((page + 1) * page_size (cs e)) then
        if negb (delay_ok s) then _ ← hold buffer; mret None else all
      else
        '(front, rest) ← on_local (read_split_to (size - fw_seek_left)) buffer;
        _ ← modify (set_read_buffer (Some (read_resize_max_size (read_buffer_size (cs e)) rest)));
        _ ← delay_start;
        _ ← first_buffer_done;
        mret (Some front)
    else all
  else all.

(** The writes of a buffer into the file, each to the end of a run of
    [write_buffer_size] bytes at most. *)
Fixpoint write_pages (fuel : nat) (f : FileExt) (seek : Z) (is_first : bool) (size : Z) (buffer : StreamStreamCacheRead) : stm S unit :=
  if size <=? 0 then mret tt
  else
    match fuel with
    | O => lift Fuel
    | Datatypes.S fuel =>
        w_size ← if is_first then m ← lift (zrem seek (write_buffer_size (cs e))); mret (write_buffer_size (cs e) - m)
                 else mret (write_buffer_size (cs e));
        let w_size := Z.min w_size size in
        '(data, buffer) ← on_local (chunk (B:=StreamStreamCacheRead) w_size) buffer;
        _ ← on_disk (write_all_at f data seek);
        '(_, buffer) ← on_local (advance (B:=StreamStreamCacheRead) w_size) buffer;
        write_pages fuel f (wrap64 (seek + w_size)) false (size - w_size) buffer
    end.

(** The piece that was written, joined to the one before it when it follows
    it in the same file. *)
Definition push_piece (f : FileExt) (seek size : Z) (l : list StreamStreamCacheWrite) : list StreamStreamCacheWrite :=
  match last l with
  | Some (mkCacheWrite (WFile a) c) =>
      if is_uniq_and_fd_eq (f_file a) f && (wrap64 (f_seek a + f_size a) =? seek)
      then removelast l ++ [mkCacheWrite (WFile (mkFilePiece (f_file a) (f_seek a) (wrap64 (f_size a + size)) (f_notify a))) c]
      else l ++ [mkCacheWrite (WFile (file_piece f seek size)) false]
  | _ => l ++ [mkCacheWrite (WFile (file_piece f seek size)) false]
  end.

Definition to_tmp_file (buffer : StreamStreamCacheRead) : stm S unit :=
  let size := read_remaining buffer in
  _ ← modify (change_stream_size (r_is_cache buffer) size);
  f ← file_ext;
  p ← gets plugin;
  p ← lift (expect p);
  _ ← if is_tmp_file_io_page (cs e) then write_pages (Z.to_nat size) f (fw_seek p) true size buffer
      else '(data, _) ← on_local (chunk (B:=StreamStreamCacheRead) size) buffer; on_disk (write_all_at f data (fw_seek p));
  _ ← modify (set_plugin (Some (mkTmpFile (wrap64 (fw_seek p + size)) (tmp_file p) (is_first_buffer p))));
  modify (fun s => set_caches (push_piece f (fw_seek p) size (caches s)) s).

(** [write_buffer] of [stream_stream_tmp_file.rs] *)
Definition take_read_buffer : stm S unit :=
  s ← gets id;
  match read_buffer s with
  | None => mret tt
  | Some buffer =>
      _ ← modify (set_read_buffer None);
      p ← lift (expect (plugin s));
      let size := read_remaining buffer in
      if size <=? 0 then if r_is_flush buffer then mret tt else modify (set_read_buffer (Some buffer))
      else if may_wait buffer p s && (size <? min_read_buffer_size (cs e)) && negb (delay_ok s) then hold buffer
      else if r_is_cache buffer || read_is_file buffer then
        _ ← delay_stop;
        _ ← first_buffer_done;
        w ← lift (to_cache_write buffer);
        _ ← modify (fun s => set_caches (caches s ++ [w]) s);
        modify (change_stream_size (r_is_cache buffer) size)
      else
        cut ← page_cut buffer;
        match cut with None => mret tt | Some buffer => to_tmp_file buffer end
  end.

(** ** What is to be written, out of the queue and the file *)

(** How much of a piece of a file is read at once: to the end of a page. *)
Definition piece_size (f : StreamStreamFile) : outcome Z :=
  let n := Z.min (f_size f) (write_buffer_size (cs e)) in
  n ← if n <=? env_page_size e then Ok n else q ← zdiv n (env_page_size e); Ok (q * env_page_size e);
  m ← zrem (f_seek f) (env_page_size e);
  let left := env_page_size e - m in
  if n <=? left then Ok n else q ← zdiv (n - left) (env_page_size e); Ok (left + q * env_page_size e).

(** [read_buffer] of [stream_stream_tmp_file.rs] *)
Definition fill_write_buffer : stm S StreamStatus :=
  s ← gets id;
  match write_buffer s, caches s with
  | Some _, _ => mret (Full false)
  | None, [] => mret WriteEmpty
  | None, w :: rest =>
      _ ← modify (set_caches rest);
      match w_data w with
      | WBytes b => _ ← modify (set_write_buffer (Some w)); mret (Full false)
      | WFile f =>
          if env_is_sendfile e && is_sendfile (f_file f) then _ ← modify (set_write_buffer (Some w)); mret (Full false)
          else
            size ← lift (piece_size f);
            '(_, w') ← on_local (write_advance size) w;
            _ ← modify (fun s => if 0 <? write_remaining w' then set_caches (w' :: caches s) s else s);
            data ← on_disk (read_exact_at (f_file f) (f_seek f) size);
            _ ← modify (set_write_buffer (Some (mkCacheWrite (WBytes (bytes_push_back data bytes_new)) (w_is_cache w))));
            mret (Full false)
      end
  end.

(** ** Writing *)

Definition ok_io {A} (m : stm S (io A)) : stm S A :=
  r ← m;
  match r with IoOk a => mret a | IoReset => fail "err:reset" | IoErr s => fail ("err:" ++ s)%string end.

(** One write of what is at the front of the queue: the number of bytes and
    whether they were sent from a file. *)
Definition write_front : stm S (io Z * bool) :=
  s ← gets id;
  if env_is_write_msg e then
    msg ← on_deque msg_write_buf;
    msg ← match msg with
          | MsgFile f seek size notify => l ← lift (expect notify); mret (MsgFile f seek size (Some (l ++ [length l])))
          | MsgBytes data => mret (MsgBytes data)
          end;
    n ← on_writer (write_msg msg); mret (n, false)
  else
    is_file ← lift (deque_is_file (write_buffer_deque s));
    if is_file : bool then
      r ← if 0 <? write_cache_size (writer s) then on_writer flush else mret (IoOk tt);
      match r with
      | IoOk _ =>
          w ← lift (deque_front (write_buffer_deque s));
          f ← lift (write_file w);
          n ← on_writer (sendfile (f_file f) (f_seek f) (f_size f)); mret (n, true)
      | IoReset => mret (IoReset, true)
      | IoErr s => mret (IoErr s, true)
      end
    else if env_is_write_vectored e then
      ls ← lift (deque_vectored MAX_WRITEV_BUFS (q_datas (write_buffer_deque s)));
      n ← on_writer (write_vectored ls); mret (n, false)
    else
      data ← on_deque deque_chunk_all;
      n ← on_writer (write data); mret (n, false).

(** How many bytes the limit of the rate allows; [None] when there is no
    limit to ask. *)
Definition allowed (s : S) : option Z :=
  if max_limit_rate (cs e) <=? 0 then Some (swrap64 (q_size (write_buffer_deque s)))
  else if 0 <? limit_rate_after s then Some (limit_rate_after s)
  else if 0 <? curr_limit_rate s then Some (curr_limit_rate s)
  else None.

(** What a write of [wn] bytes takes from the limit and gives to the budgets. *)
Definition spend_rate (wn : Z) (s : S) : S :=
  if max_limit_rate (cs e) <=? 0 then s
  else if 0 <? limit_rate_after s then set_limit_rate_after (swrap64 (limit_rate_after s - wn)) s
  else set_curr_limit_rate (swrap64 (curr_limit_rate s - wn)) s.

Definition give_back (l : list (bool * Z)) (s : S) : S :=
  fold_left (fun s (r : bool * Z) =>
    if r.1 then set_stream_cache_size (swrap64 (stream_cache_size s + r.2)) s
    else set_tmp_file_size (swrap64 (tmp_file_size s + r.2)) s) l s.

Definition do_handle_run : stm S (io StreamStatus) :=
  s ← gets id;
  let remaining := q_size (write_buffer_deque s) in
  match allowed s with
  | None => mret (IoOk Limit)
  | Some limit =>
      let limit := Z.max 0 limit in
      if (if limit <? remaining then limit else remaining) <=? 0 then mret (IoOk Limit)
      else
        '(wn, is_sendfile) ← write_front;
        match wn with
        | IoOk wn =>
            l ← on_deque (deque_advance wn);
            _ ← modify (fun s => give_back l (set_total_write (wrap64 (total_write_size s + wn)) (spend_rate wn s)));
            mret (IoOk (if wn <? remaining then Full is_sendfile else StatusOk))
        | IoReset => mret IoReset
        | IoErr s => mret (IoErr s)
        end
  end.

(** Writes until the queue is empty or something is in the way. *)
Fixpoint write_loop (fuel : nat) : stm S StreamStatus :=
  s ← gets id;
  if deque_is_none (write_buffer_deque s) then mret StatusOk
  else
    match fuel with
    | O => lift Fuel
    | Datatypes.S fuel =>
        r ← do_handle_run;
        match r with
        | IoErr s => fail ("err:do_handle_run => e:" ++ s)%string
        | IoReset => _ ← modify (set_write_err (Some "err:stream_write")); mret (Full false)
        | IoOk StatusOk => write_loop fuel
        | IoOk status => mret status
        end
    end.

(** How far the queue is filled before it is written. *)
Definition write_size (s : S) : outcome Z :=
  if env_is_write_msg e then Ok (read_buffer_size (cs e))
  else is_file ← deque_is_file (write_buffer_deque s); Ok (if is_file : bool then usize_max else write_buffer_size (cs e)).

(** [handle_run] of [stream_stream_write.rs] *)
Definition write_handle_run : stm S StreamStatus :=
  s ← gets id;
  _ ← modify (set_write_buffer None);
  if is_none (write_buffer s) && deque_is_none (write_buffer_deque s) then
    _ ← ok_io (on_writer flush); mret WriteEmpty
  else
    n ← lift (write_size s);
    more ← match write_buffer s with
           | None => mret false
           | Some w =>
               back ← on_deque (deque_push_back n w);
               match back with
               | Some w => _ ← modify (set_write_buffer (Some w)); mret false
               | None => q ← gets write_buffer_deque; mret (negb (deque_is_full q) && (q_size q <? n))
               end
           end;
    if more : bool then mret StatusOk
    else
      total ← gets total_write_size;
      status ← write_loop 2;
      w ← gets writer;
      _ ← if 0 <? write_cache_size w then ok_io (on_writer flush)
          else if swrap64 total <? c_stream_nodelay_size (cs e) then ok_io (on_writer flush)
          else mret tt;
      mret status.

(** [write] of [stream_stream_tmp_file.rs] *)
Fixpoint write_out (fuel : nat) : stm S StreamStatus :=
  match fuel with
  | O => lift Fuel
  | Datatypes.S fuel =>
      _ ← fill_write_buffer;
      status ← write_handle_run;
      match status with StatusOk => write_out fuel | _ => mret status end
  end.

(** The rounds [write_out] can take: what is not yet in the queue counts
    twice, for it is put there and written. *)
Definition out_rounds (s : S) : nat :=
  Z.to_nat (2 * zsum (write_remaining <$> (option_list (write_buffer s) ++ caches s)) + q_size (write_buffer_deque s) + 2).

(** [handle_run] of [stream_stream_tmp_file.rs] *)
Definition tmp_handle_run : stm S StreamStatus :=
  _ ← plugin_turn;
  _ ← take_read_buffer;
  s ← gets id;
  write_out (out_rounds s).

(** ** Reading within the limits *)

(** The buffer that is read into and the number of bytes that may be read. *)
Definition read_room : stm S (StreamStreamCacheRead * Z) :=
  s ← gets id;
  let buffer := match read_buffer s with
                | Some r => r
                | None => if is_read_msg (reader s) then read_from_bytes bytes_new else read_from_buffer (buffer_new (read_buffer_size (cs e)))
                end in
  _ ← modify (set_read_buffer None);
  let size := swrap64 (read_remaining buffer) in
  let max := if swrap64 (read_max_size buffer) <=? 0 then swrap64 (read_buffer_size (cs e)) else swrap64 (read_max_size buffer) in
  if (stream_cache_size s <=? size) && (tmp_file_size s <=? size) then fail "err:buffer.read_size"
  else
    let shrink limit c b := let b := set_r_is_cache c b in
      if limit <? max then (read_resize_max_size (wrap64 limit) b, swrap64 (limit - size)) else (b, swrap64 (max - size)) in
    if (0 <? stream_cache_size s) && (size <? stream_cache_size s) && ((size =? 0) || ((0 <? size) && r_is_cache buffer))
    then mret (shrink (stream_cache_size s) true buffer)
    else if (0 <? tmp_file_size s) && (size <? tmp_file_size s) && ((size =? 0) || ((0 <? size) && negb (r_is_cache buffer)))
    then mret (shrink (tmp_file_size s) false buffer)
    else fail "err:!is_find".

(** Whether a read waits: with nothing to write, or at the limit of the rate. *)
Definition read_waits (status : StreamStatus) : bool :=
  match status with Limit | WriteEmpty => true | Full _ | StatusOk => false end.

(** What came of a read: the buffers to hand on. *)
Definition read_done (buffer : StreamStreamCacheRead) (file : option StreamStreamCacheRead) : list StreamStreamCacheRead :=
  buffer :: option_list file.

Definition read_failed (buffer : StreamStreamCacheRead) {A} (r : io A) : stm S (list StreamStreamCacheRead) :=
  match r with
  | IoReset => _ ← modify (set_read_err (Some "err:stream read")); mret [buffer]
  | IoErr s => fail ("err:" ++ s)%string
  | IoOk _ => mret [buffer]
  end.

Definition got_msg (buffer : StreamStreamCacheRead) (r : io StreamReadMsg) : stm S (list StreamStreamCacheRead) :=
  match r with
  | IoOk msg => '(file, buffer) ← on_local (push_back_ream_msg msg) buffer; mret (read_done buffer file)
  | r => read_failed buffer r
  end.

Definition got_bytes (buffer : StreamStreamCacheRead) (r : io (list Z)) : stm S (list StreamStreamCacheRead) :=
  match r with
  | IoOk l => '(_, buffer) ← on_local (read_add l) buffer; mret (read_done buffer None)
  | r => read_failed buffer r
  end.

(** [read] of [stream_stream_cache.rs] *)
Definition cache_read (status : StreamStatus) : stm S (list StreamStreamCacheRead) :=
  '(buffer, room) ← read_room;
  r ← gets reader;
  if is_read_msg r then
    if read_waits status then
      m ← on_reader (select_read_msg (wrap64 room));
      match m with None => mret [buffer] | Some m => got_msg buffer m end
    else m ← on_reader (try_read_msg (wrap64 room)); got_msg buffer m
  else
    u ← lift (buf buffer);
    n ← lift (free_data_mut u);
    if read_waits status then
      m ← on_reader (select_read n);
      match m with None => mret [buffer] | Some m => got_bytes buffer m end
    else m ← on_reader (try_read n); got_bytes buffer m.

(** ** Closing *)

Definition is_sendfile_close (status : StreamStatus) (s : S) : bool :=
  match status with Full f => f | _ => false end && (1 <=? close_num s) && env_is_sendfile e.

(** The error that ends a direction that does not wait for the other one. *)
Definition close_now : stm S (option string) :=
  s ← gets id;
  match write_err s with
  | Some x => _ ← modify (set_write_err None); mret (Some x)
  | None =>
      match read_err s with
      | Some x => if is_read_empty s && is_write_empty s then _ ← modify (set_read_err None); mret (Some x) else mret None
      | None => mret None
      end
  end.

Definition close_with (x : string) : stm S unit :=
  _ ← on_writer flush;
  _ ← match close_type e with Shutdown => modify (fun s => set_writer (shutdown (writer s)) s) | _ => mret tt end;
  fail x.

(** A round of the loop of a direction that waits until both are done. *)
Definition close_round : stm S unit :=
  s ← gets id;
  if 2 <=? close_num s then
    match write_err s, read_err s with
    | Some x, _ => _ ← modify (set_write_err None); fail x
    | None, Some x => _ ← modify (set_read_err None); fail x
    | None, None => mret tt
    end
  else mret tt.

(** [check_stream_close] of [stream_stream_cache.rs] *)
Definition check_stream_close (status : StreamStatus) : stm S unit :=
  match close_type e with
  | WaitEmpty =>
      s ← gets id;
      let empty := is_read_empty s && is_write_empty s in
      if negb (is_none (write_err s)) || (negb (is_none (read_err s)) && empty) ||
         (negb (is_single (reader s)) && (1 <=? close_num s) && empty) || is_sendfile_close status s
      then _ ← modify (fun s => set_closing true (set_close_num (close_num s + 1) s)); close_round
      else mret tt
  | _ =>
      x ← close_now;
      match x with Some x => close_with x | None => mret tt end
  end.

(** ** The turns of the loops *)

Fixpoint handle_buffers (buffers : list StreamStreamCacheRead) (status : StreamStatus) : stm S StreamStatus :=
  match buffers with
  | [] => mret status
  | b :: buffers =>
      _ ← modify (set_read_buffer (Some b));
      status ← tmp_handle_run;
      _ ← check_stream_close status;
      s ← gets id;
      if closing s then mret status else handle_buffers buffers status
  end.

(** One round of the loop of [stream_stream_cache.rs]; a direction that closes
    and waits does nothing else. *)
Definition cache_turn (status : StreamStatus) : stm S StreamStatus :=
  s ← gets id;
  if closing s then _ ← close_round; mret status
  else if ((0 <? stream_cache_size s) || (0 <? tmp_file_size s)) && is_none (read_err s) then
    buffers ← cache_read status;
    handle_buffers buffers status
  else
    status ← tmp_handle_run;
    _ ← check_stream_close status;
    mret status.

(** [read] of [stream_stream_memory.rs] *)
Definition memory_read : stm S (list StreamStreamCacheRead) :=
  r ← gets reader;
  let flags b := mkCacheRead (r_data b) true true in
  if is_read_msg r then
    m ← on_reader (read_msg (read_buffer_size (cs e)));
    got_msg (flags (read_from_bytes bytes_new)) m
  else
    let u := buffer_new (read_buffer_size (cs e)) in
    n ← lift (free_data_mut u);
    m ← on_reader (read n);
    got_bytes (flags (read_from_buffer u)) m.

Definition memory_check_close : stm S unit :=
  x ← close_now;
  match x with Some x => close_with x | None => mret tt end.

(** The loop of [stream_stream_memory.rs] reads, and then writes each buffer
    until nothing of it is left. *)
Inductive MemoryPhase :=
  | Reading
  | Buffers (l : list StreamStreamCacheRead)
  | Writing (l : list StreamStreamCacheRead).

Definition memory_turn (phase : MemoryPhase) : stm S MemoryPhase :=
  match phase with
  | Reading => _ ← memory_check_close; l ← memory_read; mret (Buffers l)
  | Buffers [] => mret Reading
  | Buffers (b :: l) => _ ← modify (set_read_buffer (Some b)); mret (Writing l)
  | Writing l =>
      _ ← memory_check_close;
      s ← gets id;
      if is_empty s then mret (Buffers l) else _ ← tmp_handle_run; mret (Writing l)
  end.

(** ** The start, and what other tasks do *)

Definition share_start (files : Disk) (r : R) (w : W) : S :=
  mkShare (c_stream_cache_size (cs e)) (c_tmp_file_size (cs e)) 0 (c_limit_rate_after (cs e)) 0 0 (c_stream_nodelay_size (cs e))
    (swrap64 (max_limit_rate (cs e))) DelayInit false 0 (deque_new (write_buffer_size (cs e))) None None None None [] None false 0 false files r w.

(** [cache_handle_run] and [memory_handle_run] note which of them runs. *)
Definition cache_start (s : S) : S := set_is_stream_cache true s.
Definition memory_start (s : S) : S := set_is_stream_cache false s.

(** Each second of [limit_timeout_reset]. *)
Definition limit_timeout_reset (s : S) : S := set_curr_limit_rate (swrap64 (max_limit_rate (cs e))) s.

(** The start of [delay_timeout_reset], and the two halves of a round of it,
    before and after its sleep. *)
Definition delay_init (s : S) : S := set_delay_state DelayWait s.
Definition delay_arm (s : S) : Z * S := (delay_version s, set_delay_state DelayStart (set_delay_ok false s)).
Definition delay_fire (version : Z) (s : S) : S :=
  match delay_state s with
  | DelayStart => if version =? delay_version s then set_delay_ok true (set_delay_state DelayWait s) else s
  | _ => s
  end.

(** The other direction closes. *)
Definition other_closes (s : S) : S := set_close_num (close_num s + 1) s.
End copy.
