(* ===== verification/StreamRelay.v ===== *)
(** What a direction of a connection copies arrives as it was sent: whatever
    the limits, the temporary file and partial writes do, what the writer got
    and what is still held are together what the reader gave, in that order
    ([StreamCopy]). *)
From S2P Require Import Prelude StreamBuf StreamBufSpec StreamDeque StreamCopy.
From S2P Require FileCache CacheFile.
#[local] Open Scope string_scope.
#[local] Open Scope list_scope.
#[local] Open Scope Z_scope.

(** ** The two ends

    What went over an end so far is a list of runs of bytes and of pieces of
    files. *)
Inductive piece :=
  | GBytes (l : list Z)
  | GFile (f : FileExt) (seek size : Z).

(** A stream of messages gives chunks that are not empty and files that are
    not the temporary files of the proxy, [tmp]. *)
Definition msg_file_ok (tmp : list FileExt) (f : StreamStreamFile) : Prop :=
  0 <= f_seek f /\ 0 <= f_size f /\ f_seek f + f_size f < 2 ^ 64 /\ f_notify f <> None /\ file_uniq (f_file f) ∉ (file_uniq <$> tmp).

Definition msg_ok (tmp : list FileExt) (m : StreamReadMsg) : Prop :=
  no_empty (m_datas m) /\ match m_file m with Some f => msg_file_ok tmp f | None => True end.

Definition msg_pieces (m : StreamReadMsg) : list piece :=
  (GBytes <$> m_datas m) ++ match m_file m with Some f => [GFile (f_file f) (f_seek f) (f_size f)] | None => [] end.

Definition pieces_len (l : list piece) : Z := zsum ((fun p => match p with GBytes l => zlen l | GFile _ _ n => n end) <$> l).

(** The laws of a reader: what it gives is what it notes as sent, it gives no
    more than it was asked for, and it carries less than 2^62 bytes. *)
Class ReaderLaws (R : Type) (tmp : list FileExt) `{AsyncReader R} := {
  sent : R -> list piece;
  reader_good : R -> Prop;
  sent_small r : reader_good r -> pieces_len (sent r) < 2 ^ 62;
  read_law n r : reader_good r -> 0 <= n ->
    let (o, r') := read n r in reader_good r' /\ is_read_msg r' = is_read_msg r /\
    match o with IoOk l => zlen l <= n /\ sent r' = sent r ++ [GBytes l] | _ => sent r' = sent r end;
  try_read_law n r : reader_good r -> 0 <= n ->
    let (o, r') := try_read n r in reader_good r' /\ is_read_msg r' = is_read_msg r /\
    match o with IoOk l => zlen l <= n /\ sent r' = sent r ++ [GBytes l] | _ => sent r' = sent r end;
  select_read_law n r : reader_good r -> 0 <= n ->
    let (o, r') := select_read n r in reader_good r' /\ is_read_msg r' = is_read_msg r /\
    match o with Some (IoOk l) => zlen l <= n /\ sent r' = sent r ++ [GBytes l] | _ => sent r' = sent r end;
  read_msg_law n r : reader_good r ->
    let (o, r') := read_msg n r in reader_good r' /\ is_read_msg r' = is_read_msg r /\
    match o with IoOk m => msg_ok tmp m /\ sent r' = sent r ++ msg_pieces m | _ => sent r' = sent r end;
  try_read_msg_law n r : reader_good r ->
    let (o, r') := try_read_msg n r in reader_good r' /\ is_read_msg r' = is_read_msg r /\
    match o with IoOk m => msg_ok tmp m /\ sent r' = sent r ++ msg_pieces m | _ => sent r' = sent r end;
  select_read_msg_law n r : reader_good r ->
    let (o, r') := select_read_msg n r in reader_good r' /\ is_read_msg r' = is_read_msg r /\
    match o with Some (IoOk m) => msg_ok tmp m /\ sent r' = sent r ++ msg_pieces m | _ => sent r' = sent r end
}.

(** The laws of a writer: it takes a first part of what it is offered, nothing
    when it fails; a stream of messages takes a piece of a file whole. *)
Class WriterLaws (W : Type) `{AsyncWriter W} := {
  received : W -> list piece;
  write_law l w :
    let (o, w') := write l w in
    match o with IoOk n => 0 <= n <= zlen l /\ received w' = received w ++ [GBytes (take (Z.to_nat n) l)] | _ => received w' = received w end;
  write_vectored_law ls w :
    let (o, w') := write_vectored ls w in
    match o with IoOk n => 0 <= n <= zlen (concat ls) /\ received w' = received w ++ [GBytes (take (Z.to_nat n) (concat ls))] | _ => received w' = received w end;
  sendfile_law f s n w : 0 <= n ->
    let (o, w') := sendfile f s n w in
    match o with IoOk k => 0 <= k <= n /\ received w' = received w ++ [GFile f s k] | _ => received w' = received w end;
  write_msg_bytes_law l w :
    let (o, w') := write_msg (MsgBytes l) w in
    match o with IoOk n => 0 <= n <= zlen l /\ received w' = received w ++ [GBytes (take (Z.to_nat n) l)] | _ => received w' = received w end;
  write_msg_file_law f s n t w :
    let (o, w') := write_msg (MsgFile f s n t) w in
    match o with IoOk k => k = n /\ received w' = received w ++ [GFile f s n] | _ => received w' = received w end;
  flush_law w : received (flush w).2 = received w;
  shutdown_law w : received (shutdown w) = received w
}.

(** ** Files *)

(** The temporary file in use, and up to where it is written. *)
Definition tmp_cur (p : option StreamStreamTmpFile) : option (Z * Z) := p ≫= fun p => (fun g => (file_uniq g, fw_seek p)) <$> tmp_file p.

(** A piece of a file that no write touches any more. *)
Definition piece_safe (d : Disk) (p : option StreamStreamTmpFile) (f : FileExt) (s n : Z) : Prop :=
  0 <= s /\ 0 <= n /\ (forall u k, tmp_cur p = Some (u, k) -> file_uniq f = u -> s + n <= k) /\ file_uniq f ∉ (file_uniq <$> d_tmp d).

Definition disk_rd (d : Disk) (f : FileExt) (s n : Z) : list Z := CacheFile.read_at n s (d_files d (file_uniq f)).

Lemma read_at_len n s f : 0 <= n -> zlen (CacheFile.read_at n s f) = n.
Proof. intros Hn. unfold CacheFile.read_at, zlen. rewrite length_fmap, length_seqZ. lia. Qed.

Lemma read_at_split f s a b : 0 <= a -> 0 <= b -> CacheFile.read_at (a + b) s f = CacheFile.read_at a s f ++ CacheFile.read_at b (s + a) f.
Proof.
  intros Ha Hb. unfold CacheFile.read_at. rewrite seqZ_app, fmap_app by lia. f_equal.
  change (0 + a) with a. rewrite <- (Z.add_0_r a) at 1. rewrite <- fmap_add_seqZ, <- list_fmap_compose. apply list_fmap_ext. intros i x _. cbn. f_equal. lia.
Qed.

#[export] Instance disk_files (d : Disk) (p : option StreamStreamTmpFile) : FileRead.
Proof.
  refine {| rd := disk_rd d; rd_ok := piece_safe d p |}.
  - intros f s n a k (Hs & Hn & Hc & Ht) Ha Hk Hle. repeat split; [lia..| |done]. intros u j E1 E2. specialize (Hc u j E1 E2). lia.
  - intros f g s a b (Hs & Hn & Hc & Ht) (Hs' & Hn' & Hc' & Ht') [Hu%Z.eqb_eq _]%andb_true_iff Ha Hb.
    repeat split; [lia..| |done]. intros u j E1 E2. specialize (Hc' u j E1 ltac:(congruence)). lia.
  - intros. by apply read_at_len.
  - intros. by apply read_at_split.
  - intros f g s n [Hu%Z.eqb_eq _]%andb_true_iff. unfold disk_rd. by rewrite Hu.
Defined.

(** ** What is where *)

Section content.
Context `{FileRead}.

Definition piece_ok (p : piece) : Prop := match p with GBytes _ => True | GFile f s n => 0 <= s /\ 0 <= n /\ rd_ok f s n end.
Definition piece_view (p : piece) : list Z := match p with GBytes l => l | GFile f s n => rd f s n end.
Definition content (l : list piece) : list Z := l ≫= piece_view.

Lemma content_app l k : content (l ++ k) = content l ++ content k.
Proof. apply bind_app. Qed.

Lemma content_one p : content [p] = piece_view p.
Proof. unfold content. cbn. by rewrite app_nil_r. Qed.

Lemma content_bytes ds : content (GBytes <$> ds) = concat ds.
Proof. unfold content. induction ds as [|d ds IH]; [done|]. cbn. by rewrite IH. Qed.

Lemma content_len l : Forall piece_ok l -> zlen (content l) = pieces_len l.
Proof.
  unfold content, pieces_len. induction 1 as [|p l Hp Hl IH]; [done|]. cbn. rewrite zlen_app, IH. unfold zsum. cbn. f_equal.
  destruct p as [|f s n]; [done|]. destruct Hp as (_ & Hn & _). by apply rd_len.
Qed.

(** What was read and not yet handed on. *)
Definition rb_good (r : StreamStreamCacheRead) : Prop :=
  match r_data r with RFile f => file_good f | _ => read_good r end.
Definition rb_view (r : StreamStreamCacheRead) : list Z :=
  match r_data r with RFile f => rd (f_file f) (f_seek f) (f_size f) | _ => read_view r end.

Lemma rb_len r : rb_good r -> zlen (rb_view r) = read_remaining r /\ 0 <= read_remaining r.
Proof.
  unfold rb_good, rb_view. destruct r as [[b|u|f] ca fl]; cbn; intros Hg.
  - destruct Hg as [-> _ _]. pose proof (zlen_nonneg (concat (b_datas b))). done.
  - split; [by apply buffer_view_len|apply Hg].
  - destruct Hg as (? & ? & _). split; [by apply rd_len|done].
Qed.

End content.

Lemma pieces_kept (F G : FileRead) : files_kept F G -> forall l, Forall (@piece_ok F) l ->
  Forall (@piece_ok G) l /\ @content G l = @content F l.
Proof.
  intros Hk l. unfold content. induction 1 as [|p l Hp _ [IH1 IH2]]; [done|]. cbn. rewrite IH2.
  destruct p as [b|f s n]; [split; [by constructor|done]|]. destruct Hp as (H1 & H2 & H3). destruct (Hk f s n H1 H2 H3) as [H4 H5].
  split; [by constructor|]. cbn. by rewrite H5.
Qed.

Lemma rb_kept (F G : FileRead) : files_kept F G -> forall r, @rb_good F r -> @rb_good G r /\ @rb_view G r = @rb_view F r.
Proof. intros Hk r. unfold rb_good, rb_view. destruct (r_data r); [done..|]. by apply file_kept. Qed.

(** ** Calls that return

    [run m s Q E]: the call does not panic and does not run out of fuel; what
    it gives and leaves is in [Q], and what an error leaves is in [E]. *)
Definition run {S A} (m : stm S A) (s : S) (Q : A -> S -> Prop) (E : S -> Prop) : Prop :=
  match m s with (Ok a, s') => Q a s' | (Err _, s') => E s' | _ => False end.

Lemma run_bind {S A B} (m : stm S A) (f : A -> stm S B) s Q E : run m s (fun a s' => run (f a) s' Q E) E -> run (m ≫= f) s Q E.
Proof. unfold run, mbind, stm_bind. by destruct (m s) as [[] ?]. Qed.

Lemma run_mono {S A} (m : stm S A) s (Q Q' : A -> S -> Prop) (E E' : S -> Prop) :
  run m s Q E -> (forall a s', Q a s' -> Q' a s') -> (forall s', E s' -> E' s') -> run m s Q' E'.
Proof. unfold run. destruct (m s) as [[] ?]; eauto. Qed.

(** A call whose result is known, and what comes after it. *)
Lemma run_step {S A B} (m : stm S A) (f : A -> stm S B) s a s1 Q E : m s = (Ok a, s1) -> run (f a) s1 Q E -> run (m ≫= f) s Q E.
Proof. intros Em H. apply run_bind. unfold run at 1. by rewrite Em. Qed.

Lemma run_then {S A B} (m : stm S A) (f : A -> stm S B) s (Q : A -> S -> Prop) Q' (E E' : S -> Prop) :
  run m s Q E -> (forall a s', Q a s' -> run (f a) s' Q' E') -> (forall s', E s' -> E' s') -> run (m ≫= f) s Q' E'.
Proof. intros Hm Hf He. apply run_bind. by eapply run_mono. Qed.

Lemma run_ret {S A} (a : A) (s : S) (Q : A -> S -> Prop) E : Q a s -> run (mret a) s Q E.
Proof. done. Qed.

Lemma run_modify {S} (f : S -> S) s (Q : unit -> S -> Prop) E : Q tt (f s) -> run (modify f) s Q E.
Proof. done. Qed.

(** Goes over a call that is known to return. *)
Ltac go := eapply run_step; [reflexivity|]; cbv beta iota.
Tactic Notation "go" "by" tactic3(t) := eapply run_step; [t|]; cbv beta iota.

(** ** The invariant *)

Section relay.
Context {R W : Type} `{AsyncReader R} `{AsyncWriter W} {tmp : list FileExt} `{!ReaderLaws R tmp} `{!WriterLaws W}.
Context (e : StreamEnv) (S0 T0 : Z).
Abbreviation S := (Share R W).

Record env_good : Prop := {
  eg_page : 0 < page_size (cs e) < 2 ^ 62;
  eg_env_page : 0 < env_page_size e < 2 ^ 62;
  eg_read : 0 < read_buffer_size (cs e) < 2 ^ 62;
  eg_write : 0 < write_buffer_size (cs e) < 2 ^ 62;
  eg_min : min_read_buffer_size (cs e) <= read_buffer_size (cs e);
  eg_one_page : page_size (cs e) <= read_buffer_size (cs e);
  eg_cache : 0 <= S0 < 2 ^ 62;
  eg_tmp : 0 <= T0 < 2 ^ 62
}.

Definition files_of (s : S) : FileRead := disk_files (disk s) (plugin s).
Arguments files_of : simpl never.

(** What is held for the writer, in the order it is written. *)
Definition stock (s : S) : list StreamStreamCacheWrite :=
  q_datas (write_buffer_deque s) ++ option_list (write_buffer s) ++ caches s.

Definition sizes (l : list StreamStreamCacheRead) : Z := zsum (read_remaining <$> l).

(** The buffers of what was read, the one that is worked on and the ones that
    come after it. *)
Definition views (F : FileRead) (l : list StreamStreamCacheRead) : list Z := l ≫= @rb_view F.
Definition reads (s : S) (extra : list StreamStreamCacheRead) : list StreamStreamCacheRead := option_list (read_buffer s) ++ extra.

(** Files hold none of the memory. *)
Definition file_uncached (w : StreamStreamCacheWrite) : Prop := write_is_file w = true -> w_is_cache w = false.

Definition budget (s : S) (c : bool) : Z := if c then stream_cache_size s else tmp_file_size s.

(** How much of one budget what was read will take. *)
Definition reads_held (c : bool) (l : list StreamStreamCacheRead) : Z :=
  zsum ((fun r => if eqb (r_is_cache r) c then read_remaining r else 0) <$> l).

(** A reader of bytes fills buffers; one of messages gives chunks, and files
    that are handed on at once. *)
Definition kind_ok (m : bool) (r : StreamStreamCacheRead) : Prop :=
  match r_data r with
  | RBytes _ => m = true
  | RBuffer u => m = false /\ 0 < u_max_size u < 2 ^ 62
  | RFile _ => m = true /\ r_is_flush r = true
  end.

Record Budget (extra : list StreamStreamCacheRead) (s : S) : Prop := {
  bu_total : stream_cache_size s + tmp_file_size s + zsum (write_remaining <$> stock s) = S0 + T0;
  bu_cache : S0 - (pieces_len (sent (reader s)) - sizes (reads s extra)) <= stream_cache_size s <= S0 + pieces_len (received (writer s));
  bu_tmp : T0 - (pieces_len (sent (reader s)) - sizes (reads s extra)) <= tmp_file_size s <= T0 + pieces_len (received (writer s));
  bu_bytes : is_read_msg (reader s) = false -> is_stream_cache s = true ->
    (forall c, budget s c + held c (stock s) = if c then S0 else T0) /\ Forall file_uncached (stock s) /\
    (forall c, reads_held c (reads s extra) <= budget s c)
}.

Record tmp_good (s : S) : Prop := {
  tg_nodup : NoDup (file_uniq <$> d_tmp (disk s));
  tg_tmp : forall u, u ∈ (file_uniq <$> d_tmp (disk s)) -> u ∈ (file_uniq <$> tmp);
  tg_cur : forall u k, tmp_cur (plugin s) = Some (u, k) -> u ∈ (file_uniq <$> tmp) /\ (u ∉ (file_uniq <$> d_tmp (disk s)))
}.

Record Inv (extra : list StreamStreamCacheRead) (s : S) : Prop := {
  inv_deque : @deque_good (files_of s) (write_buffer_deque s);
  inv_stock : Forall (@write_good (files_of s)) (stock s);
  inv_reads : Forall (@rb_good (files_of s)) (reads s extra);
  inv_received : Forall (@piece_ok (files_of s)) (received (writer s));
  inv_sent : Forall (@piece_ok (files_of s)) (sent (reader s));
  inv_flow : @content (files_of s) (sent (reader s)) = @content (files_of s) (received (writer s)) ++ @writes_view (files_of s) (stock s) ++ views (files_of s) (reads s extra);
  inv_reader : reader_good (reader s);
  inv_tmp : tmp_good s;
  inv_seek : forall p, plugin s = Some p -> 0 <= fw_seek p /\ fw_seek p + sizes (reads s extra) <= pieces_len (sent (reader s));
  inv_kind : Forall (kind_ok (is_read_msg (reader s))) (reads s extra);
  inv_write_err : write_err s = None;
  inv_budget : Budget extra s
}.

(** What the writer got is a first part of what the reader gave. *)
Definition Prefix (s : S) : Prop :=
  exists rest, @content (files_of s) (sent (reader s)) = @content (files_of s) (received (writer s)) ++ rest.

Lemma inv_prefix extra s : Inv extra s -> Prefix s.
Proof. intros Hi. eexists. exact (inv_flow _ _ Hi). Qed.

Lemma reads_len F l : Forall (@rb_good F) l -> zlen (l ≫= @rb_view F) = sizes l /\ 0 <= sizes l.
Proof.
  unfold sizes. induction 1 as [|r l Hr _ [IH1 IH2]]; [done|]. destruct (rb_len r Hr) as [E H2]. cbn. rewrite zlen_app, E, IH1. unfold zsum in *. cbn. lia.
Qed.

Lemma stock_len F ws : Forall (@write_good F) ws -> 0 <= zsum (write_remaining <$> ws).
Proof. intros Hs. apply zsum_nonneg, Forall_fmap. eapply Forall_impl; [exact Hs|]. intros w [_ Hz]. cbn. lia. Qed.

(** The lengths add up, and are small. *)
Lemma inv_lengths extra s : Inv extra s ->
  pieces_len (sent (reader s)) = pieces_len (received (writer s)) + zsum (write_remaining <$> stock s) + sizes (reads s extra) /\
  pieces_len (sent (reader s)) < 2 ^ 62 /\ 0 <= pieces_len (received (writer s)) /\ 0 <= zsum (write_remaining <$> stock s) /\ 0 <= sizes (reads s extra).
Proof.
  intros Hi. pose proof (sent_small _ (inv_reader _ _ Hi)).
  destruct (reads_len _ _ (inv_reads _ _ Hi)) as [Er Hr]. pose proof (stock_len _ _ (inv_stock _ _ Hi)).
  pose proof (content_len _ (inv_received _ _ Hi)) as Ec. pose proof (content_len _ (inv_sent _ _ Hi)) as Es. pose proof (writes_len _ (inv_stock _ _ Hi)) as Ew.
  pose proof (zlen_nonneg (@content (files_of s) (received (writer s)))). split_and!; [|lia..].
  rewrite <- Es, <- Ec, <- Ew, <- Er. rewrite (inv_flow _ _ Hi). unfold views. rewrite !zlen_app. lia.
Qed.

(** ** What the invariant is about *)

Definition core (s : S) :=
  (write_buffer_deque s, write_buffer s, write_err s, read_buffer s, caches s, plugin s, disk s, reader s, writer s, stream_cache_size s, tmp_file_size s, is_stream_cache s).

Lemma inv_core extra s s' : core s' = core s -> Inv extra s -> Inv extra s'.
Proof.
  unfold core. intros E Hi. destruct s, s'. cbn in E. injection E as -> -> -> -> -> -> -> -> -> -> -> ->.
  destruct Hi as [i1 i2 i3 i4 i5 i6 i7 i8 i9 ik i10 i11]. destruct i8, i11. split; try assumption; split; assumption.
Qed.

Lemma given_nonneg c l : Forall (fun r : bool * Z => 0 <= r.2) l -> 0 <= given_back c l.
Proof.
  intros Hl. unfold given_back. apply zsum_nonneg, Forall_fmap. eapply Forall_impl; [exact Hl|]. intros r Hr. cbn. case_match; [done|lia].
Qed.

Lemma give_back_ok l : forall (s : S), Forall (fun r : bool * Z => 0 <= r.2) l ->
  - 2 ^ 63 <= stream_cache_size s -> - 2 ^ 63 <= tmp_file_size s ->
  stream_cache_size s + given_back true l < 2 ^ 63 -> tmp_file_size s + given_back false l < 2 ^ 63 ->
  give_back l s = set_tmp_file_size (tmp_file_size s + given_back false l) (set_stream_cache_size (stream_cache_size s + given_back true l) s).
Proof.
  unfold give_back. induction l as [|[c n] l IH]; intros s Hl H1 H2 H3 H4.
  - rewrite !given_back_nil, !Z.add_0_r. by destruct s.
  - apply Forall_cons in Hl as [Hn Hl]. cbn [snd] in Hn. rewrite !given_back_cons in *. cbn [fst snd] in *.
    pose proof (given_nonneg true l Hl). pose proof (given_nonneg false l Hl). cbn [fold_left fst snd].
    destruct c; cbn [eqb] in *; rewrite swrap64_id by lia; destruct s; unfold set_tmp_file_size, set_stream_cache_size in *; cbn in *;
      rewrite IH by (cbn; done || lia); cbn; f_equal; lia.
Qed.

(** ** One write *)

(** [q1] is the queue as the write found it, [w1] the writer after it. *)
Definition wrote (s : S) (r : io Z) (q1 : StreamStreamCacheWriteDeque) (w1 : W) : Prop :=
  match r with
  | IoOk n => 0 <= n <= q_size (write_buffer_deque s) /\ exists d l q', received w1 = received (writer s) ++ [d] /\ @piece_ok (files_of s) d /\
      pieces_len [d] = n /\ deque_advance n q1 = (Ok l, q') /\
      @advanced (files_of s) (write_buffer_deque s) n (@piece_view (files_of s) d) l q'
  | _ => received w1 = received (writer s)
  end.

Lemma wrote_bytes s q1 w1 n : @deque_good (files_of s) (write_buffer_deque s) -> deque_is_none (write_buffer_deque s) = false ->
  @deque_good (files_of s) q1 -> same_deque (write_buffer_deque s) q1 -> 0 <= n <= q_size (write_buffer_deque s) ->
  received w1 = received (writer s) ++ [GBytes (take (Z.to_nat n) (@deque_view (files_of s) (write_buffer_deque s)))] -> wrote s (IoOk n) q1 w1.
Proof.
  intros Hg Hn Hg1 [Ed Ez] Hq Hw. split; [done|].
  assert (deque_is_none q1 = false) as Hn1 by (unfold deque_is_none in *; by rewrite Ez).
  destruct (@advance_advanced (files_of s) q1 n Hg1 Hn1 ltac:(lia)) as (l & q' & E & Ha).
  eexists _, l, q'. split; [exact Hw|]. split; [done|]. split.
  { unfold pieces_len, zsum. cbn. rewrite zlen_take; [lia|]. unfold deque_view. rewrite <- (dg_size _ Hg). done. }
  split; [done|]. destruct Ha as [H1 H2 H3 H4 H5 H6]. unfold deque_view in *. rewrite Ed in *. rewrite Ez in H3. by split.
Qed.

Lemma chunks_front s : @deque_good (files_of s) (write_buffer_deque s) -> deque_is_none (write_buffer_deque s) = false ->
  exists w ws, q_datas (write_buffer_deque s) = w :: ws /\ deque_is_file (write_buffer_deque s) = Ok (write_is_file w).
Proof. intros Hg Hn. destruct (deque_some _ Hg Hn) as (w & ws & E & _). exists w, ws. split; [done|]. by apply (@deque_is_file_ok (files_of s) _ w ws). Qed.

Lemma write_front_ok extra s : Inv extra s -> deque_is_none (write_buffer_deque s) = false ->
  run (write_front e) s (fun p s' => exists q1 w1, s' = set_deque q1 (set_writer w1 s) /\ wrote s p.1 q1 w1) (fun _ => False).
Proof.
  intros Hi Hn. pose proof (inv_deque _ _ Hi) as Hg. destruct (chunks_front s Hg Hn) as (w & ws & E & Ef).
  unfold write_front. go. change (id s) with s. destruct (env_is_write_msg e).
  - (* a stream of messages *)
    unfold write_is_file in Ef. destruct w as [[b|f] c]; cbn [w_data] in Ef.
    + destruct (deque_chunks _ Hg Hn Ef) as [Hf Hne]. destruct (deque_chunk_bytes_all_ok _ Hg Hf Hne) as (q1 & Eq & Hg1 & Hs1).
      go by (unfold on_deque, msg_write_buf; step; unfold id; rewrite Ef; step; rewrite (stm_step _ _ _ _ _ Eq); reflexivity).
      go. destruct (write_msg (MsgBytes (@deque_view (files_of s) (write_buffer_deque s))) (writer s)) as [r w1] eqn:Ew.
      go by (unfold on_writer; cbn [writer set_deque set_writer]; rewrite Ew; reflexivity).
      exists q1, w1. split; [by destruct s|]. pose proof (write_msg_bytes_law (@deque_view (files_of s) (write_buffer_deque s)) (writer s)) as Hl.
      try rewrite Ew in Hl. destruct r as [n| |]; [|done..]. destruct Hl as [Hb Hr].
      apply wrote_bytes; try done. rewrite (dg_size _ Hg). exact Hb.
    + pose proof (@advance_front_file (files_of s) _ f c ws None Hg E) as (l & q' & Ea & Ha & Hfg & Hz).
      pose proof Hfg as (_ & _ & _ & Hnt & Hok). destruct (f_notify f) as [tx|] eqn:Et; [|done].
      go by (unfold on_deque, msg_write_buf; step; unfold id; rewrite Ef; step; unfold on_front_file; rewrite E; unfold file_to_msg_write_buf; reflexivity).
      cbv beta iota. rewrite Et. go by (step by reflexivity; reflexivity).
      destruct (write_msg (MsgFile (f_file f) (f_seek f) (f_size f) (Some (tx ++ [length tx]))) (writer s)) as [r w1] eqn:Ew.
      go by (unfold on_writer; cbn [writer set_deque set_writer]; rewrite Ew; reflexivity).
      eexists _, w1. split; [destruct s; reflexivity|]. cbn [fst].
      pose proof (write_msg_file_law (f_file f) (f_seek f) (f_size f) (Some (tx ++ [length tx])) (writer s)) as Hl.
      try rewrite Ew in Hl. destruct r as [n| |]; [|done..]. destruct Hl as [-> Hr].
      split; [lia|]. eexists _, l, q'. split; [exact Hr|]. split; [|split; [|split; [exact Ea|exact Ha]]].
      * split; [apply Hfg|]. split; [lia|exact Hok].
      * unfold pieces_len, zsum. cbn. lia.
  - go by (unfold lift; rewrite Ef; reflexivity). destruct (write_is_file w) eqn:Ek.
    + (* from a file *)
      unfold write_is_file in Ek. destruct w as [[b|f] c]; [done|].
      pose proof (@advance_front_file (files_of s) _ f c ws (f_notify f) Hg E) as (l0 & q0 & _ & _ & Hfg & Hz).
      assert (exists r w1, (if 0 <? write_cache_size (writer s) then on_writer flush else mret (IoOk tt)) s = (Ok r, set_writer w1 s) /\ received w1 = received (writer s)) as (r & w1 & Er & Hr1).
      { destruct (0 <? write_cache_size (writer s)).
        - pose proof (flush_law (writer s)) as Hl. unfold on_writer. destruct (flush (writer s)) as [r w1]. cbn in Hl. by exists r, w1.
        - exists (IoOk tt), (writer s). split; [destruct s; reflexivity|done]. }
      go by exact Er. destruct r as [[]| |].
      * go by (unfold lift, deque_front; cbn [write_buffer_deque set_writer]; rewrite E; reflexivity). go.
        pose proof (sendfile_law (f_file f) (f_seek f) (f_size f) w1 ltac:(lia)) as Hl.
        destruct (sendfile (f_file f) (f_seek f) (f_size f) w1) as [r w2] eqn:Ew.
        go by (unfold on_writer; cbn [writer set_writer]; rewrite Ew; reflexivity). try rewrite Ew in Hl.
        exists (write_buffer_deque s), w2. split; [destruct s; reflexivity|]. cbn [fst]. destruct r as [n| |]; [|unfold wrote; congruence..].
        destruct Hl as [Hb Hr]. rewrite Hr1 in Hr. split; [lia|].
        destruct (@advance_advanced (files_of s) _ n Hg Hn ltac:(lia)) as (l & q' & Ea & Ha).
        eexists _, l, q'. split; [exact Hr|]. split; [|split; [unfold pieces_len, zsum; cbn; lia|split; [exact Ea|]]].
        { destruct Hfg as (H1 & H2 & _ & _ & H3). split; [lia|]. split; [lia|]. rewrite <- (Z.add_0_r (f_seek f)). apply (rd_ok_part _ _ _ _ _ H3); lia. }
        destruct Ha as [H1 H2 H3 H4 H5 H6]. split; try done. rewrite <- H2. f_equal. unfold deque_view. rewrite E.
        change (@writes_view (files_of s) (mkCacheWrite (WFile f) c :: ws)) with (@rd (files_of s) (f_file f) (f_seek f) (f_size f) ++ @writes_view (files_of s) ws).
        rewrite ztake_app_l by (rewrite rd_len; lia). cbn [piece_view]. apply rd_take. lia.
      * exists (write_buffer_deque s), w1. split; [destruct s; reflexivity|done].
      * exists (write_buffer_deque s), w1. split; [destruct s; reflexivity|done].
    + destruct (deque_chunks _ Hg Hn Ef) as [Hf Hne]. destruct (env_is_write_vectored e).
      * destruct (@deque_vectored_ok (files_of s) _ MAX_WRITEV_BUFS Hf (dg_data _ Hg)) as (ls & k & Ev & Ec).
        go by (unfold lift; rewrite Ev; reflexivity). pose proof (write_vectored_law ls (writer s)) as Hl.
        destruct (write_vectored ls (writer s)) as [r w1] eqn:Ew. go by (unfold on_writer; rewrite Ew; reflexivity).
        exists (write_buffer_deque s), w1. split; [destruct s; reflexivity|]. cbn [fst]. destruct r as [n| |]; [|done..]. destruct Hl as [Hb Hr].
        assert (zlen (concat ls) <= q_size (write_buffer_deque s)). { rewrite (dg_size _ Hg), Ec. unfold zlen. rewrite length_take. lia. }
        apply wrote_bytes; try done; [lia|]. rewrite Hr. unfold deque_view. rewrite Ec in *. rewrite take_take. do 4 f_equal.
        unfold zlen in Hb. rewrite length_take in Hb. lia.
      * destruct (deque_chunk_all_ok _ Hg Hf Hne) as (q1 & Eq & Hg1 & Hs1 & _).
        go by (unfold on_deque; rewrite Eq; reflexivity). pose proof (write_law (@deque_view (files_of s) (write_buffer_deque s)) (writer s)) as Hl.
        destruct (write (@deque_view (files_of s) (write_buffer_deque s)) (writer s)) as [r w1] eqn:Ew. go by (unfold on_writer; cbn [writer set_deque]; rewrite Ew; reflexivity).
        try rewrite Ew in Hl. exists q1, w1. split; [destruct s; reflexivity|]. cbn [fst]. destruct r as [n| |]; [|done..]. destruct Hl as [Hb Hr].
        apply wrote_bytes; try done. rewrite (dg_size _ Hg). exact Hb.
Qed.

(** What the writing side leaves alone. *)
Record Grown (s s' : S) : Prop := {
  gr_read_buffer : read_buffer s' = read_buffer s;
  gr_read_err : read_err s' = read_err s;
  gr_closing : closing s' = closing s;
  gr_stream : is_stream_cache s' = is_stream_cache s;
  gr_reader : reader s' = reader s;
  gr_plugin : plugin s' = plugin s;
  gr_disk : disk s' = disk s;
  gr_budget c : budget s c <= budget s' c
}.

Lemma grown_refl s : Grown s s.
Proof. by split. Qed.

Lemma grown_trans s1 s2 s3 : Grown s1 s2 -> Grown s2 s3 -> Grown s1 s3.
Proof. intros [? ? ? ? ? ? ? Hb] [? ? ? ? ? ? ? Hb']. split; try congruence. intros c. specialize (Hb c). specialize (Hb' c). lia. Qed.

Lemma file_uncached_kind : keeps_kind file_uncached.
Proof. unfold keeps_kind, file_uncached. intros w w' -> ->. done. Qed.

Lemma stock_app s q : stock (set_deque q s) = q_datas q ++ option_list (write_buffer s) ++ caches s.
Proof. by destruct s. Qed.

(** The pieces of the queue account for its size. *)
Lemma deque_total F q : @deque_good F q -> held true (q_datas q) + held false (q_datas q) = q_size q.
Proof. intros Hg. by rewrite held_total, <- (writes_len (H:=F)), (dg_size _ Hg) by apply Hg. Qed.

Lemma inv_advance extra s w1 d l q' n : env_good -> Inv extra s -> received w1 = received (writer s) ++ [d] -> @piece_ok (files_of s) d -> pieces_len [d] = n -> 0 <= n ->
  @advanced (files_of s) (write_buffer_deque s) n (@piece_view (files_of s) d) l q' ->
  let s1 := set_deque q' (set_writer w1 s) in
  give_back l s1 = set_tmp_file_size (tmp_file_size s + given_back false l) (set_stream_cache_size (stream_cache_size s + given_back true l) s1) /\
  Inv extra (give_back l s1) /\ Grown s (give_back l s1).
Proof.
  intros He Hi Hr Hd Hn Hn0 [Ag Av As Ah Al Ak] s1. destruct (inv_lengths _ _ Hi) as (L1 & L2 & L3 & L4 & L5).
  pose proof (inv_budget _ _ Hi) as [B1 B2 B3 B4]. destruct He as [_ _ _ _ _ _ HS HT].
  pose proof (given_nonneg true l Al) as G1. pose proof (given_nonneg false l Al) as G2.
  pose proof (deque_total _ _ (inv_deque _ _ Hi)) as D1. pose proof (deque_total _ _ Ag) as D2. pose proof (Ah true). pose proof (Ah false).
  assert (0 <= q_size q') as Hq'. { rewrite (dg_size _ Ag). apply zlen_nonneg. }
  assert (zsum (write_remaining <$> stock s) = q_size (write_buffer_deque s) + zsum (write_remaining <$> (option_list (write_buffer s) ++ caches s))) as Hst.
  { unfold stock. rewrite fmap_app, zsum_app, <- held_total. lia. }
  assert (0 <= zsum (write_remaining <$> (option_list (write_buffer s) ++ caches s))) as Hrest.
  { pose proof (inv_stock _ _ Hi) as Hs. unfold stock in Hs. apply Forall_app in Hs as [_ Hs]. by apply (stock_len (files_of s)). }
  assert (give_back l s1 = set_tmp_file_size (tmp_file_size s + given_back false l) (set_stream_cache_size (stream_cache_size s + given_back true l) s1)) as E.
  { subst s1. destruct s. cbn in *. apply (give_back_ok l); cbn; try done; lia. }
  split; [exact E|]. rewrite E. clear E. subst s1. split.
  - destruct Hi as [i1 i2 i3 i4 i5 i6 i7 i8 i9 ik i10 i11]. unfold stock in i2. apply Forall_app in i2 as [i2 i2']. split; try assumption.
    + change (Forall (@write_good (files_of s)) (q_datas q' ++ option_list (write_buffer s) ++ caches s)). apply Forall_app. split; [apply Ag|done].
    + change (Forall (@piece_ok (files_of s)) (received w1)). rewrite Hr. apply Forall_app. split; [done|]. by apply Forall_singleton.
    + change (@content (files_of s) (sent (reader s)) = @content (files_of s) (received w1) ++
        @writes_view (files_of s) (q_datas q' ++ option_list (write_buffer s) ++ caches s) ++ views (files_of s) (reads s extra)).
      rewrite i6, Hr. unfold stock, deque_view in *. rewrite content_app, content_one, !writes_view_app, <- Av, <- !app_assoc. done.
    + destruct i8. by split.
    + assert (pieces_len (received w1) = pieces_len (received (writer s)) + n) as Hw.
      { rewrite Hr. unfold pieces_len in *. rewrite fmap_app, zsum_app, Hn. done. }
      split.
      * change (stream_cache_size s + given_back true l + (tmp_file_size s + given_back false l) +
          zsum (write_remaining <$> (q_datas q' ++ option_list (write_buffer s) ++ caches s)) = S0 + T0).
        rewrite fmap_app, zsum_app, <- held_total. lia.
      * change (S0 - (pieces_len (sent (reader s)) - sizes (reads s extra)) <= stream_cache_size s + given_back true l <= S0 + pieces_len (received w1)). lia.
      * change (T0 - (pieces_len (sent (reader s)) - sizes (reads s extra)) <= tmp_file_size s + given_back false l <= T0 + pieces_len (received w1)). lia.
      * intros Hm Hc. destruct (B4 Hm Hc) as (C1 & C2 & C3). unfold stock in C2. apply Forall_app in C2 as [C2 C2'].
        split; [|split; [apply Forall_app; split; [apply (Ak _ file_uncached_kind C2)|exact C2']|]].
        -- intros c. specialize (C1 c). specialize (Ah c). unfold stock in C1. rewrite held_both in C1. unfold stock, budget. cbn [write_buffer_deque set_tmp_file_size set_stream_cache_size set_deque set_writer q_datas]. rewrite held_both. unfold budget in C1. destruct c; cbn [stream_cache_size tmp_file_size set_tmp_file_size set_stream_cache_size set_deque set_writer write_buffer caches]; lia.
        -- intros c. specialize (C3 c). unfold budget in *. change (reads_held c (reads s extra) <= (if c then stream_cache_size s + given_back true l else tmp_file_size s + given_back false l)). destruct c; lia.
  - split; try reflexivity. intros c. destruct c; cbn; lia.
Qed.

(** The count of what was written and the limit of the rate are not what is
    copied. *)
Lemma spend_core wn (s : S) : core (spend_rate e wn s) = core s /\ Grown s (spend_rate e wn s).
Proof. unfold spend_rate. repeat case_match; (split; [by destruct s|]); split; try by destruct s. all: intros c; by destruct s, c. Qed.

Lemma spend_swap wn k q w (s : S) :
  set_total_write k (spend_rate e wn (set_deque q (set_writer w s))) = set_deque q (set_writer w (set_total_write k (spend_rate e wn s))).
Proof. unfold spend_rate. destruct s. cbn. by repeat case_match. Qed.

(** The writing side does not touch what waits for the queue. *)
Definition same_rest (s s' : S) : Prop := write_buffer s' = write_buffer s /\ caches s' = caches s.

Definition broken (s : S) : Prop := write_err s <> None /\ Prefix s.
Definition good_or_broken extra (s : S) (status : StreamStatus) : Prop := Inv extra s \/ (broken s /\ status = Full false).

(** What the writer got is still a first part when a write failed. *)
Lemma prefix_failed extra s q1 w1 : Inv extra s -> received w1 = received (writer s) -> Prefix (set_deque q1 (set_writer w1 s)).
Proof.
  intros Hi Hr. destruct (inv_prefix _ _ Hi) as [rest E]. exists rest.
  change (@content (files_of s) (sent (reader s)) = @content (files_of s) (received w1) ++ rest). by rewrite Hr.
Qed.

Lemma do_handle_run_ok extra s : env_good -> Inv extra s -> deque_is_none (write_buffer_deque s) = false ->
  run (do_handle_run e) s (fun r s' => Grown s s' /\ same_rest s s' /\ write_err s' = None /\
    match r with
    | IoOk status => Inv extra s' /\ (status = StatusOk -> q_size (write_buffer_deque s') = 0)
    | _ => Prefix s'
    end) (fun _ => False).
Proof.
  intros He Hi Hn. pose proof (inv_write_err _ _ Hi) as Hw. unfold do_handle_run. go. change (id s) with s.
  assert (forall st, st <> StatusOk -> run (mret (IoOk st)) s (fun (r : io StreamStatus) s' => Grown s s' /\ same_rest s s' /\ write_err s' = None /\
    match r with IoOk status => Inv extra s' /\ (status = StatusOk -> q_size (write_buffer_deque s') = 0) | _ => Prefix s' end) (fun _ => False)) as Hret.
  { intros st Hst. apply run_ret. split; [apply grown_refl|]. split; [done|]. split; [done|]. by split. }
  destruct (allowed e s) as [limit|]; [|by apply Hret]. case_match; [by apply Hret|].
  eapply run_then; [by apply (write_front_ok extra s Hi Hn)| |done]. intros [r sf] s1 (q1 & w1 & -> & Hr). cbn [fst] in Hr. cbv beta iota.
  assert (forall r, received w1 = received (writer s) -> (forall n, r <> IoOk n) -> run (mret r) (set_deque q1 (set_writer w1 s))
    (fun (r : io StreamStatus) s' => Grown s s' /\ same_rest s s' /\ write_err s' = None /\
    match r with IoOk status => Inv extra s' /\ (status = StatusOk -> q_size (write_buffer_deque s') = 0) | _ => Prefix s' end) (fun _ => False)) as Hfail.
  { intros r' Hr' Hk. apply run_ret. split; [by split|]. split; [done|]. split; [exact Hw|]. destruct r'; [by destruct (Hk a)|..]; by apply (prefix_failed extra). }
  destruct r as [n| |]; [|by apply Hfail..]. clear Hfail Hret.
  destruct Hr as (Hb & d & l & q' & Er & Hd & Hl & Ea & Ha).
  go by (unfold on_deque; cbn [write_buffer_deque set_deque]; rewrite Ea; reflexivity). go. apply run_ret.
  change (total_write_size (set_deque q' (set_deque q1 (set_writer w1 s)))) with (total_write_size s).
  change (set_deque q' (set_deque q1 (set_writer w1 s))) with (set_deque q' (set_writer w1 s)). rewrite spend_swap.
  set (k := wrap64 _). destruct (spend_core n s) as [Ec Hg0]. set (s0 := set_total_write k (spend_rate e n s)).
  assert (core s0 = core s) as Ec0. { rewrite <- Ec. by destruct (spend_rate e n s). }
  assert (Grown s s0) as Hg. { apply (grown_trans _ _ _ Hg0). by split. }
  assert (Inv extra s0) as Hi0 by (by apply (inv_core extra s)). clearbody s0 k.
  assert (writer s0 = writer s /\ write_buffer_deque s0 = write_buffer_deque s /\ files_of s0 = files_of s /\ same_rest s s0) as (E1 & E2 & E3 & E4).
  { unfold core in Ec0. injection Ec0 as E1 E2 _ _ E5 E6 E7 _ E8 _ _ _. split; [done|]. split; [done|]. split; [|by split]. unfold files_of. by rewrite E6, E7. }
  rewrite <- E1 in Er. rewrite <- E2, <- E3 in Ha. rewrite <- E3 in Hd.
  destruct (inv_advance extra s0 w1 d l q' n He Hi0 Er Hd Hl ltac:(lia) Ha) as (Eg & Hi1 & Hg1). split; [by apply (grown_trans _ _ _ Hg)|].
  split; [|split; [exact (inv_write_err _ _ Hi1)|split; [exact Hi1|]]]; rewrite Eg.
  - exact E4.
  - pose proof (ad_size _ _ _ _ _ Ha) as Es. change (n <? q_size (write_buffer_deque s)) with (n <? q_size (write_buffer_deque s)).
    destruct (Z.ltb_spec n (q_size (write_buffer_deque s))); [done|]. intros _. change (q_size q' = 0). rewrite Es, E2. lia.
Qed.

(** Two rounds are enough: the first empties the queue, or stops. *)
Lemma write_loop_ok extra s : env_good -> Inv extra s ->
  run (write_loop e 2) s (fun status s' => Grown s s' /\ same_rest s s' /\ good_or_broken extra s' status /\
    (status = StatusOk -> q_size (write_buffer_deque s') = 0)) Prefix.
Proof.
  intros He Hi. unfold write_loop. go. change (id s) with s. destruct (deque_is_none (write_buffer_deque s)) eqn:Hn.
  { apply run_ret. split; [apply grown_refl|]. split; [done|]. split; [by left|]. intros _.
    pose proof (inv_deque _ _ Hi) as Hg. destruct (deque_none _ Hg Hn) as [Hv _]. rewrite (dg_size _ Hg). by rewrite Hv. }
  eapply run_then; [by apply (do_handle_run_ok extra s He Hi Hn)| |done]. intros r s1 (Hg & Hr & Hw & Hs).
  destruct r as [status| |].
  - destruct Hs as [Hi1 Hz]. destruct status; try (apply run_ret; split; [done|split; [done|split; [by left|done]]]).
    go. change (id s1) with s1. specialize (Hz eq_refl). unfold deque_is_none. rewrite Hz. change (0 <=? 0) with true. cbv iota. apply run_ret.
    split; [done|]. split; [done|]. split; [by left|done].
  - go. apply run_ret. split; [|split; [exact Hr|split; [|done]]].
    + apply (grown_trans _ _ _ Hg). by split.
    + right. split; [|done]. split; [done|]. exact Hs.
  - unfold run, fail. exact Hs.
Qed.

(** Only the writer changed, and it got nothing. *)
Lemma inv_writer extra s w1 : received w1 = received (writer s) -> Inv extra s -> Inv extra (set_writer w1 s).
Proof.
  intros Hr [i1 i2 i3 i4 i5 i6 i7 i8 i9 ik i10 i11]. split; try assumption; try (destruct i8; by split).
  - change (Forall (@piece_ok (files_of s)) (received w1)). by rewrite Hr.
  - change (@content (files_of s) (sent (reader s)) = @content (files_of s) (received w1) ++ @writes_view (files_of s) (stock s) ++ views (files_of s) (reads s extra)). by rewrite Hr.
  - destruct i11 as [B1 B2 B3 B4]. split; try assumption;
      [change (S0 - (pieces_len (sent (reader s)) - sizes (reads s extra)) <= stream_cache_size s <= S0 + pieces_len (received w1))
      |change (T0 - (pieces_len (sent (reader s)) - sizes (reads s extra)) <= tmp_file_size s <= T0 + pieces_len (received w1))]; by rewrite Hr.
Qed.

Lemma prefix_writer s w1 : received w1 = received (writer s) -> Prefix s -> Prefix (set_writer w1 s).
Proof.
  intros Hr [rest E]. exists rest. change (@content (files_of s) (sent (reader s)) = @content (files_of s) (received w1) ++ rest). by rewrite Hr.
Qed.

Lemma grown_writer s w1 : Grown s (set_writer w1 s).
Proof. by split. Qed.

(** [P] says what a flush leaves as it is. *)
Lemma flush_ok (P : S -> Prop) s : (forall w1, received w1 = received (writer s) -> P (set_writer w1 s)) -> Prefix s ->
  run (ok_io (on_writer flush)) s (fun _ => P) Prefix.
Proof.
  intros HP Hp. unfold ok_io, on_writer, run. pose proof (flush_law (writer s)) as Hl. unfold mbind, stm_bind.
  destruct (flush (writer s)) as [r w1]. cbn in Hl. destruct r as [[]| |]; cbn; [by apply HP|by apply prefix_writer..].
Qed.

(** What counts until the queue, and what waits for it, are written. *)
Definition outside (s : S) : Z := zsum (write_remaining <$> (option_list (write_buffer s) ++ caches s)).
Definition to_write (s : S) : Z := 2 * outside s + q_size (write_buffer_deque s).

Lemma refuses_some n w q : refuses n w q = Ok true -> deque_is_none q = false.
Proof. unfold refuses. by destruct (deque_is_none q). Qed.

Lemma write_size_ok s : @deque_good (files_of s) (write_buffer_deque s) -> exists n, write_size e s = Ok n.
Proof.
  intros Hg. unfold write_size. destruct (env_is_write_msg e); [by eexists|]. destruct (deque_is_none (write_buffer_deque s)) eqn:Hn.
  - unfold deque_is_file. rewrite Hn. by eexists.
  - destruct (deque_some _ Hg Hn) as (w & ws & E & _). rewrite (@deque_is_file_ok (files_of s) _ w ws Hg Hn E). by eexists.
Qed.

(** What is held may be kept in other pieces. *)
Lemma inv_restock extra (s : S) q b ws : Inv extra s -> let s' := set_deque q (set_write_buffer b (set_caches ws s)) in
  @deque_good (files_of s) q -> Forall (@write_good (files_of s)) (stock s') ->
  @writes_view (files_of s) (stock s') = @writes_view (files_of s) (stock s) ->
  (Forall file_uncached (stock s) -> forall c, held c (stock s') = held c (stock s)) ->
  (Forall file_uncached (stock s) -> Forall file_uncached (stock s')) -> Inv extra s'.
Proof.
  intros [i1 i2 i3 i4 i5 i6 i7 i8 i9 ik i10 i11] s' Hg Hs Hv Hh Hu. split; try assumption; try (destruct i8; by split).
  - change (@content (files_of s) (sent (reader s)) = @content (files_of s) (received (writer s)) ++
      @writes_view (files_of s) (stock s') ++ views (files_of s) (reads s extra)). by rewrite Hv.
  - destruct i11 as [B1 B2 B3 B4]. split; try assumption.
    + rewrite <- (writes_len (H:=files_of s) _ Hs), Hv. rewrite (writes_len (H:=files_of s) _ i2). exact B1.
    + intros Hm Hc. destruct (B4 Hm Hc) as (C1 & C2 & C3). split; [|split; [by apply Hu|done]]. intros c. rewrite Hh by done. exact (C1 c).
Qed.

(** What waits next to the queue goes into it. *)
Lemma inv_push extra s w q' : env_good -> Inv extra s -> write_buffer s = Some w -> @deque_good (files_of s) q' ->
  @deque_view (files_of s) q' = @deque_view (files_of s) (write_buffer_deque s) ++ @write_view (files_of s) w ->
  (same_budget w (write_buffer_deque s) -> forall c, held c (q_datas q') = held c (q_datas (write_buffer_deque s)) + held c [w]) ->
  (forall P : StreamStreamCacheWrite -> Prop, keeps_kind P -> Forall P (q_datas (write_buffer_deque s) ++ [w]) -> Forall P (q_datas q')) ->
  Inv extra (set_deque q' (set_write_buffer None s)).
Proof.
  intros He Hi Ew Hg' Hv Hh HP. pose proof (inv_stock _ _ Hi) as i2.
  assert (stock s = (q_datas (write_buffer_deque s) ++ [w]) ++ caches s) as Es by (unfold stock; rewrite Ew, <- app_assoc; done).
  rewrite Es in i2. apply Forall_app in i2 as [i2 i2'].
  assert (set_deque q' (set_write_buffer None s) = set_deque q' (set_write_buffer None (set_caches (caches s) s))) as -> by (by destruct s).
  apply inv_restock; rewrite ?Es; change (stock (set_deque q' (set_write_buffer None (set_caches (caches s) s)))) with (q_datas q' ++ caches s); [done..| | | |].
  - apply Forall_app. split; [apply Hg'|done].
  - rewrite !writes_view_app, writes_view_one. unfold deque_view in Hv. by rewrite Hv.
  - intros [Hu _]%Forall_app c. rewrite !held_both, Hh; [done|]. apply Forall_app in Hu as [Hu Hw]. apply Forall_inv in Hw.
    intros Ef a Ea Ka. destruct (last_inv _ _ Ea) as [k Ek]. rewrite Ek in Hu. apply Forall_app in Hu as [_ Ha]. apply Forall_inv in Ha. by rewrite Hw, Ha.
  - intros [Hu Hc]%Forall_app. apply Forall_app. split; [|done]. by apply HP; [apply file_uncached_kind|].
Qed.

Lemma outside_nonneg extra s : Inv extra s -> 0 <= outside s.
Proof. intros Hi. pose proof (inv_stock _ _ Hi) as Hs. unfold stock in Hs. apply Forall_app in Hs as [_ Hs]. by apply (stock_len (files_of s)). Qed.

Lemma same_deque_self (s : S) : set_deque (write_buffer_deque s) s = s.
Proof. by destruct s. Qed.

Lemma stock_none_buffer (s : S) : write_buffer s = None -> set_write_buffer None s = s.
Proof. intros E. destruct s. cbn in E. by subst. Qed.

(** What waits next to the queue is put into it, or still waits. *)
Lemma push_ok extra s n : env_good -> Inv extra s ->
  run (match write_buffer s with
       | None => mret false
       | Some w => back ← on_deque (deque_push_back n w);
           match back with
           | Some w => _ ← modify (set_write_buffer (Some w)); mret false
           | None => q ← gets write_buffer_deque; mret (negb (deque_is_full q) && (q_size q <? n))
           end
       end) (set_write_buffer None s)
    (fun more s' => Grown s s' /\ Inv extra s' /\ caches s' = caches s /\ to_write s' <= to_write s /\
       (more = true -> to_write s' < to_write s) /\
       (is_none (write_buffer s) && deque_is_none (write_buffer_deque s) = false -> deque_is_none (write_buffer_deque s') = false)) (fun _ => False).
Proof.
  intros He Hi. destruct (write_buffer s) as [w|] eqn:Ew.
  - pose proof (inv_stock _ _ Hi) as Hs. unfold stock in Hs. rewrite Ew in Hs. apply Forall_app in Hs as [Hs1 Hs2]. apply Forall_cons in Hs2 as [Hw Hs2].
    pose proof (inv_deque _ _ Hi) as Hg. destruct (inv_lengths _ _ Hi) as (L1 & L2 & L3 & L4 & L5). pose proof (stock_len _ _ Hs2) as Hc.
    assert (zsum (write_remaining <$> stock s) = q_size (write_buffer_deque s) + (write_remaining w + zsum (write_remaining <$> caches s))) as Est.
    { unfold stock. rewrite Ew, fmap_app, zsum_app, (dg_size _ Hg), (writes_len (H:=files_of s)) by done. done. }
    pose proof (proj2 Hw) as Hw0.
    destruct (@deque_push_back_ok (files_of s) n w (write_buffer_deque s) Hg Hw ltac:(lia)) as [Ep|(q' & Ep & Hg' & Hv & Hz & Hsum & Hh & HP)].
    + go by (unfold on_deque; cbn [write_buffer_deque set_write_buffer]; rewrite Ep; reflexivity). go. apply run_ret.
      assert (set_write_buffer (Some w) (set_deque (write_buffer_deque s) (set_write_buffer None s)) = s) as -> by (destruct s; cbn in *; by subst).
      split; [apply grown_refl|]. split; [done|]. split; [done|]. split; [lia|]. split; [done|]. intros _.
      unfold deque_push_back in Ep. unfold mbind, stm_bind, gets, lift, id in Ep. destruct (refuses n w (write_buffer_deque s)) as [[|]| | |] eqn:Er; try done.
      { by apply (refuses_some n w). }
      exfalso. cbn in Ep. destruct (w_data w); [by injection Ep|]. unfold modify, mret, stm_ret in Ep. cbn in Ep. destruct (push_file _ _ _); try done; by injection Ep.
    + go by (unfold on_deque; cbn [write_buffer_deque set_write_buffer]; rewrite Ep; reflexivity). go. apply run_ret.
      change (set_deque q' (set_write_buffer None s)) with (set_deque q' (set_write_buffer None s)).
      assert (to_write (set_deque q' (set_write_buffer None s)) < to_write s) as Ht.
      { assert (outside s = write_remaining w + zsum (write_remaining <$> caches s)) as Eo by (unfold outside; by rewrite Ew).
        change (2 * zsum (write_remaining <$> caches s) + q_size q' < 2 * outside s + q_size (write_buffer_deque s)). lia. }
      split; [by split|]. split; [exact (inv_push extra s w q' He Hi Ew Hg' Hv Hh HP)|]. split; [done|]. split; [lia|]. split; [done|]. intros _.
      change (deque_is_none q' = false). unfold deque_is_none. apply Z.leb_gt. rewrite (dg_size _ Hg) in Hz. pose proof (zlen_nonneg (@writes_view (files_of s) (q_datas (write_buffer_deque s)))). lia.
  - rewrite stock_none_buffer by done. apply run_ret. split; [apply grown_refl|]. split; [done|]. split; [done|]. split; [lia|]. split; [done|]. cbn. done.
Qed.

Lemma rest_outside s s' : same_rest s s' -> outside s' = outside s.
Proof. intros [E1 E2]. unfold outside. by rewrite E1, E2. Qed.

Lemma good_prefix extra s status : good_or_broken extra s status -> Prefix s.
Proof. intros [Hi|[[_ Hp] _]]; [by apply (inv_prefix extra)|done]. Qed.

Lemma good_writer extra s status w1 : received w1 = received (writer s) -> good_or_broken extra s status -> good_or_broken extra (set_writer w1 s) status.
Proof.
  intros Hr [Hi|[[Hb Hp] Hs]]; [left; by apply inv_writer|right]. split; [|done]. split; [exact Hb|]. by apply prefix_writer.
Qed.

(** What a flush after a write leaves. *)
Lemma last_flush extra s s1 status total : Grown s s1 -> good_or_broken extra s1 status -> caches s1 = caches s ->
  (status = StatusOk -> to_write s1 < to_write s) ->
  run (w ← gets writer;
       _ ← if 0 <? write_cache_size w then ok_io (on_writer flush)
           else if swrap64 total <? c_stream_nodelay_size (cs e) then ok_io (on_writer flush) else mret tt;
       mret status) s1
    (fun status s' => Grown s s' /\ good_or_broken extra s' status /\ caches s' = caches s /\ (status = StatusOk -> to_write s' < to_write s)) Prefix.
Proof.
  intros Hg Hb Hc Hs. go.
  assert (run (ok_io (on_writer flush)) s1 (fun _ s' => Grown s s' /\ good_or_broken extra s' status /\ caches s' = caches s /\
    (status = StatusOk -> to_write s' < to_write s)) Prefix) as Hf.
  { apply (flush_ok (fun s' => Grown s s' /\ good_or_broken extra s' status /\ caches s' = caches s /\ (status = StatusOk -> to_write s' < to_write s)));
      [|by eapply good_prefix]. intros w1 Hr. split; [apply (grown_trans _ _ _ Hg), grown_writer|]. split; [by apply good_writer|]. by split. }
  case_match; [|case_match]; [eapply run_then; [exact Hf|intros ? s2 Hs2; by apply run_ret|done]..|]. go. by apply run_ret.
Qed.

Lemma write_handle_run_ok extra s : env_good -> Inv extra s ->
  run (write_handle_run e) s (fun status s' => Grown s s' /\ good_or_broken extra s' status /\ caches s' = caches s /\
    (status = StatusOk -> to_write s' < to_write s)) Prefix.
Proof.
  intros He Hi. unfold write_handle_run. go. go. change (id s) with s.
  destruct (is_none (write_buffer s) && deque_is_none (write_buffer_deque s)) eqn:En.
  { apply andb_true_iff in En as [En _]. assert (write_buffer s = None) as E0 by (by destruct (write_buffer s)). rewrite stock_none_buffer by done.
    eapply run_then; [apply (flush_ok (fun s' => Grown s s' /\ Inv extra s' /\ caches s' = caches s)); [|by apply (inv_prefix extra)]| |done].
    - intros w1 Hr. split; [apply grown_writer|]. split; [by apply inv_writer|done].
    - intros ? s1 (Hg & Hi1 & Hc). apply run_ret. split; [done|]. split; [by left|done]. }
  destruct (write_size_ok s (inv_deque _ _ Hi)) as [n Ez]. go by (unfold lift; change (write_size e (set_write_buffer None s)) with (write_size e s); rewrite Ez; reflexivity).
  eapply run_then; [by apply (push_ok extra s n He Hi)| |done]. intros more s1 (Hg1 & Hi1 & Hc1 & Hm1 & Hm2 & Hn1).
  destruct more. { apply run_ret. split; [done|]. split; [by left|]. split; [done|]. intros _. by apply Hm2. }
  specialize (Hn1 En). go. eapply run_then; [by apply (write_loop_ok extra s1 He Hi1)| |done].
  intros status s2 (Hg2 & Hr2 & Hb2 & Hz2). apply last_flush; [by apply (grown_trans _ _ _ Hg1)|done|by rewrite (proj2 Hr2)|].
  intros ->. specialize (Hz2 eq_refl). unfold to_write in *. rewrite (rest_outside _ _ Hr2), Hz2. unfold deque_is_none in Hn1. lia.
Qed.

(** ** Out of the temporary file *)

Lemma piece_size_ok f : env_good -> 0 <= f_seek f -> 0 < f_size f -> exists n, piece_size e f = Ok n /\ 0 < n <= f_size f.
Proof.
  intros He Hs Hz. pose proof (eg_env_page He) as Hp. pose proof (eg_write He) as Hw. unfold piece_size, zdiv, zrem.
  destruct (Z.eqb_spec (env_page_size e) 0); [lia|]. set (n0 := Z.min (f_size f) (write_buffer_size (cs e))).
  assert (exists n1, (if n0 <=? env_page_size e then Ok n0 else q ← Ok (n0 / env_page_size e); Ok (q * env_page_size e)) = Ok n1 /\ 0 < n1 <= n0) as (n1 & -> & Hn1).
  { destruct (Z.leb_spec n0 (env_page_size e)); [exists n0; split; [done|lia]|]. eexists. split; [reflexivity|].
    pose proof (Z.div_mod n0 (env_page_size e) ltac:(lia)). pose proof (Z.mod_pos_bound n0 (env_page_size e) ltac:(lia)).
    assert (1 <= n0 / env_page_size e) by (apply Z.div_le_lower_bound; lia). nia. }
  cbn [mbind outcome_bind]. pose proof (Z.mod_pos_bound (f_seek f) (env_page_size e) ltac:(lia)).
  set (left := env_page_size e - f_seek f mod env_page_size e) in *. case_match; (eexists; split; [reflexivity|]); [lia|].
  assert (n1 - left = env_page_size e * ((n1 - left) / env_page_size e) + (n1 - left) mod env_page_size e) by (apply Z.div_mod; lia).
  pose proof (Z.mod_pos_bound (n1 - left) (env_page_size e) ltac:(lia)). assert (0 <= (n1 - left) / env_page_size e) by (apply Z.div_pos; lia). nia.
Qed.

Lemma piece_advance_ok (s : S) f c n : @file_good (files_of s) f -> 0 <= n <= f_size f ->
  exists f', write_advance n (mkCacheWrite (WFile f) c) = (Ok tt, mkCacheWrite (WFile f') c) /\ f_file f' = f_file f /\ f_seek f' = f_seek f + n /\
    f_size f' = f_size f - n /\ (n < f_size f -> @file_good (files_of s) f').
Proof.
  intros Hf Hn. destruct (file_advance_ok f n Hf Hn) as (l & f' & E & H1 & H2 & H3 & H4). exists f'. split; [|done].
  unfold write_advance. cbn [w_data w_is_cache]. by rewrite E.
Qed.

(** A piece of a file is read back; what is left of it waits. *)
Lemma inv_read_back extra s f c rest f' n : Inv extra s -> write_buffer s = None -> caches s = mkCacheWrite (WFile f) c :: rest ->
  0 < n <= f_size f -> f_file f' = f_file f -> f_seek f' = f_seek f + n -> f_size f' = f_size f - n -> (n < f_size f -> @file_good (files_of s) f') ->
  let left := if 0 <? f_size f' then [mkCacheWrite (WFile f') c] else [] in
  let w := mkCacheWrite (WBytes (bytes_push_back (CacheFile.read_at n (f_seek f) (d_files (disk s) (file_uniq (f_file f)))) bytes_new)) c in
  let s' := set_write_buffer (Some w) (set_caches (left ++ rest) s) in
  Inv extra s' /\ Grown s s' /\ to_write s' = to_write s.
Proof.
  intros Hi Ew Ec Hn E1 E2 E3 Hf' left w s'. pose proof (inv_stock _ _ Hi) as Hs. unfold stock in Hs. rewrite Ew, Ec in Hs. apply Forall_app in Hs as [Hq Hs].
  apply Forall_cons in Hs as [[Hf Hz] Hrest]. unfold write_remaining in Hz. cbn in Hf, Hz.
  set (data := CacheFile.read_at n (f_seek f) (d_files (disk s) (file_uniq (f_file f)))) in *.
  assert (zlen data = n) as Hd by (apply read_at_len; lia).
  assert (data <> []) as Hne by (intros E0; rewrite E0 in Hd; change (0 = n) in Hd; lia).
  destruct (bytes_push_back_ok bytes_new data bytes_new_good Hne) as [Hbg Hbv]. cbn [b_datas bytes_new concat app] in Hbv.
  pose proof (bg_size _ Hbg) as Hbs. rewrite Hbv, Hd in Hbs.
  assert (Forall (@write_good (files_of s)) left) as Hl.
  { subst left. destruct (Z.ltb_spec 0 (f_size f')) as [H1|H1]; [|constructor]. apply Forall_singleton. split; [apply Hf'; lia|done]. }
  assert (zsum (write_remaining <$> left) = f_size f - n) as Hls.
  { subst left. destruct (Z.ltb_spec 0 (f_size f')); unfold zsum, write_remaining; cbn; lia. }
  assert (@writes_view (files_of s) left = drop (Z.to_nat n) (@rd (files_of s) (f_file f) (f_seek f) (f_size f))) as Hlv.
  { subst left. destruct (Z.ltb_spec 0 (f_size f')) as [H1|H1].
    - rewrite writes_view_one. unfold write_view. cbn [w_data data_view]. rewrite E1, E2, E3. apply rd_drop. lia.
    - rewrite drop_ge; [done|]. pose proof (@rd_len (files_of s) (f_file f) (f_seek f) (f_size f) ltac:(lia)) as Hrl. unfold zlen in Hrl. lia. }
  assert (stock s' = q_datas (write_buffer_deque s) ++ [w] ++ left ++ rest) as Es' by done.
  assert (stock s = q_datas (write_buffer_deque s) ++ mkCacheWrite (WFile f) c :: rest) as Es by (unfold stock; by rewrite Ew, Ec).
  assert (forall c', held c' left = if eqb c c' then f_size f - n else 0) as Hlh.
  { intros c'. subst left. unfold held, zsum, write_remaining. destruct (Z.ltb_spec 0 (f_size f')); cbn; destruct (eqb c c'); lia. }
  split; [|split].
  - assert (s' = set_deque (write_buffer_deque s) (set_write_buffer (Some w) (set_caches (left ++ rest) s))) as E' by (by destruct s).
    rewrite E'. apply inv_restock; [done|exact (inv_deque _ _ Hi)|..]; rewrite <- E', Es', ?Es.
    + repeat (apply Forall_app; split); try done. apply Forall_singleton. split; [exact Hbg|]. unfold write_remaining. cbn [w w_data]. lia.
    + rewrite !writes_view_app, writes_view_one. f_equal. unfold write_view. cbn [w w_data data_view]. rewrite Hbv, Hlv.
      change (data ++ drop (Z.to_nat n) (@rd (files_of s) (f_file f) (f_seek f) (f_size f)) ++ @writes_view (files_of s) rest =
              @rd (files_of s) (f_file f) (f_seek f) (f_size f) ++ @writes_view (files_of s) rest).
      rewrite app_assoc. f_equal. rewrite <- (firstn_skipn (Z.to_nat n) (@rd (files_of s) (f_file f) (f_seek f) (f_size f))) at 2. f_equal.
      rewrite <- rd_take by lia. done.
    + intros _ c'. rewrite !held_both, Hlh, !held_cons. change (write_remaining w) with (b_size (bytes_push_back data bytes_new)). rewrite Hbs. change (held c' []) with 0.
      unfold write_remaining. cbn [w w_is_cache w_data]. destruct (eqb c c'); lia.
    + intros Hu. apply Forall_app in Hu as [Hu1 Hu2]. apply Forall_cons in Hu2 as [Hu2 Hu3]. repeat (apply Forall_app; split); try done.
      * by apply Forall_singleton.
      * subst left. case_match; [|done]. by apply Forall_singleton.
  - by split.
  - unfold to_write, outside. rewrite Ew, Ec. change (2 * (write_remaining w + zsum (write_remaining <$> (left ++ rest))) + q_size (write_buffer_deque s) =
      2 * (f_size f + zsum (write_remaining <$> rest)) + q_size (write_buffer_deque s)). rewrite fmap_app, zsum_app, Hls. unfold write_remaining at 1. cbn [w w_data]. lia.
Qed.

(** The next piece is made ready for the queue. *)
Lemma fill_write_buffer_ok extra s : env_good -> Inv extra s ->
  run (fill_write_buffer e) s (fun _ s' => Grown s s' /\ Inv extra s' /\ to_write s' <= to_write s) Prefix.
Proof.
  intros He Hi. unfold fill_write_buffer. go. change (id s) with s.
  destruct (write_buffer s) as [w|] eqn:Ew; [apply run_ret; split; [apply grown_refl|split; [done|lia]]|].
  destruct (caches s) as [|w rest] eqn:Ec; [apply run_ret; split; [apply grown_refl|split; [done|lia]]|]. go.
  assert (let s' := set_write_buffer (Some w) (set_caches rest s) in Grown s s' /\ Inv extra s' /\ to_write s' <= to_write s) as Hmove.
  { intros s'. assert (stock s' = stock s) as Es by (unfold stock; by rewrite Ew, Ec). split; [by split|]. split.
    - assert (s' = set_deque (write_buffer_deque s) (set_write_buffer (Some w) (set_caches rest s))) as E' by (by destruct s).
      rewrite E'. apply inv_restock; rewrite <- ?E', ?Es; [done|exact (inv_deque _ _ Hi)|exact (inv_stock _ _ Hi)|done..].
    - unfold to_write, outside. rewrite Ew, Ec. cbn. lia. }
  destruct w as [[b|f] c]; cbn [w_data w_is_cache].
  { go. apply run_ret. exact Hmove. }
  destruct (env_is_sendfile e && is_sendfile (f_file f)). { go. apply run_ret. exact Hmove. }
  clear Hmove. pose proof (inv_stock _ _ Hi) as Hs. unfold stock in Hs. rewrite Ew, Ec in Hs. apply Forall_app in Hs as [_ Hs]. apply Forall_cons in Hs as [[Hf Hz] _].
  unfold write_remaining in Hz. cbn [w_data data_good] in Hf, Hz. destruct (piece_size_ok f He (proj1 Hf) Hz) as (n & En & Hn).
  go by (unfold lift; rewrite En; reflexivity). destruct (piece_advance_ok s f c n Hf ltac:(lia)) as (f' & Ea & E1 & E2 & E3 & Hf').
  go by (unfold on_local; rewrite Ea; reflexivity). go.
  set (left := if 0 <? f_size f' then [mkCacheWrite (WFile f') c] else []).
  assert ((if 0 <? write_remaining (mkCacheWrite (WFile f') c) then set_caches (mkCacheWrite (WFile f') c :: caches (set_caches rest s)) (set_caches rest s) else set_caches rest s)
    = set_caches (left ++ rest) s) as -> by (subst left; unfold write_remaining; cbn; case_match; by destruct s).
  destruct (inv_read_back extra s f c rest f' n Hi Ew Ec Hn E1 E2 E3 Hf') as (Hi' & Hg' & Ht'). fold left in Hi', Hg', Ht'.
  assert (on_disk (read_exact_at (f_file f) (f_seek f) n) (set_caches (left ++ rest) s) = (Err "err:fr.read_exact", set_caches (left ++ rest) s) \/
    on_disk (read_exact_at (f_file f) (f_seek f) n) (set_caches (left ++ rest) s) =
      (Ok (CacheFile.read_at n (f_seek f) (d_files (disk s) (file_uniq (f_file f)))), set_caches (left ++ rest) s)) as [Er|Er].
  { unfold on_disk, read_exact_at. cbn [disk set_caches]. destruct (CacheFile.file_len _ <? _); [left|right]; by destruct s. }
  - apply run_bind. unfold run at 1. rewrite Er. destruct (inv_prefix _ _ Hi) as [r Hr]. by exists r.
  - go by exact Er. go. apply run_ret. split; [exact Hg'|]. split; [exact Hi'|]. lia.
Qed.

(** The rounds there are are enough. *)
Lemma write_out_ok extra : env_good -> forall fuel s, Inv extra s -> to_write s < Z.of_nat fuel ->
  run (write_out e fuel) s (fun status s' => Grown s s' /\ good_or_broken extra s' status) Prefix.
Proof.
  intros He. induction fuel as [|fuel IH]; intros s Hi Hf.
  { pose proof (outside_nonneg _ _ Hi). pose proof (dg_size _ (inv_deque _ _ Hi)) as Hz.
    pose proof (zlen_nonneg (@writes_view (files_of s) (q_datas (write_buffer_deque s)))). unfold to_write in Hf. lia. }
  cbn [write_out]. eapply run_then; [by apply (fill_write_buffer_ok extra s He Hi)| |done]. intros st s1 (Hg1 & Hi1 & Ht1).
  eapply run_then; [by apply (write_handle_run_ok extra s1 He Hi1)| |done]. intros status s2 (Hg2 & Hb2 & _ & Ht2).
  assert (Grown s s2) as Hg by (by apply (grown_trans _ _ _ Hg1)).
  destruct status; try (apply run_ret; by split). destruct Hb2 as [Hi2|[_ ?]]; [|done].
  eapply run_mono; [apply (IH s2 Hi2)| |done]; [specialize (Ht2 eq_refl); lia|]. intros status s3 (Hg3 & Hb3). split; [by apply (grown_trans _ _ _ Hg)|done].
Qed.

Lemma out_rounds_ok extra s : Inv extra s -> to_write s < Z.of_nat (out_rounds s).
Proof.
  intros Hi. pose proof (outside_nonneg _ _ Hi). pose proof (dg_size _ (inv_deque _ _ Hi)) as Hz.
  pose proof (zlen_nonneg (@writes_view (files_of s) (q_datas (write_buffer_deque s)))). unfold out_rounds, to_write, outside in *. lia.
Qed.
End relay.
