(* ===== verification/StreamTake.v ===== *)
(** What was read goes into the queue or into the temporary file without loss:
    [take_read_buffer] of [StreamCopy], with the writes into the file, a new
    file after enough was written, and the part of a page that waits. *)
From S2P Require Import Prelude StreamBuf StreamBufSpec StreamDeque StreamCopy StreamRelay.
From S2P Require FileCache CacheFile CacheRestart.
#[local] Open Scope string_scope.
#[local] Open Scope list_scope.
#[local] Open Scope Z_scope.

(** ** Writes past what is in use *)

(** [d'] is [d] after writes to the file [u] at [k] and later. *)
Definition ahead (u k : Z) (d d' : Disk) : Prop :=
  d_tmp d' = d_tmp d /\ (forall v, v <> u -> d_files d' v = d_files d v) /\
  (forall i, i < k -> CacheFile.bytes (d_files d' u) i = CacheFile.bytes (d_files d u) i).

Lemma ahead_refl u k d : ahead u k d d.
Proof. done. Qed.

Lemma ahead_trans u k k' d1 d2 d3 : ahead u k d1 d2 -> ahead u k' d2 d3 -> k <= k' -> ahead u k d1 d3.
Proof.
  intros (E1 & F1 & B1) (E2 & F2 & B2) Hk. split; [congruence|]. split; [intros v Hv; by rewrite F2, F1|].
  intros i Hi. rewrite B2, B1 by lia. done.
Qed.

Lemma read_at_ext f g s n : (forall i, s <= i < s + n -> CacheFile.bytes g i = CacheFile.bytes f i) -> CacheFile.read_at n s g = CacheFile.read_at n s f.
Proof. intros Hb. unfold CacheFile.read_at. apply list_fmap_ext. intros i x Hx. apply lookup_seqZ in Hx as [-> Hi]. apply Hb. lia. Qed.

Lemma read_written d off f : CacheFile.read_at (zlen d) off (CacheFile.write_at d off f) = d.
Proof.
  unfold CacheFile.read_at. apply list_eq. intros i. rewrite list_lookup_fmap. destruct (d !! i) as [x|] eqn:Ei.
  - pose proof (lookup_lt_Some _ _ _ Ei). rewrite lookup_seqZ_lt by (unfold zlen; lia). cbn. f_equal. by apply (CacheRestart.holds_write d off f i x).
  - apply lookup_ge_None in Ei. rewrite lookup_seqZ_ge; [done|unfold zlen; lia].
Qed.

Lemma write_ahead f data off : forall (d : Disk) k, k <= off ->
  match write_all_at f data off d with
  | (Ok _, d') => ahead (file_uniq f) k d d' /\ CacheFile.read_at (zlen data) off (d_files d' (file_uniq f)) = data
  | (Err _, d') => d' = d
  | _ => False
  end.
Proof.
  intros d k Hk. unfold write_all_at. destruct (d_room d <? zlen data); [done|]. cbn. rewrite Z.eqb_refl. split; [|apply read_written].
  split; [done|]. split; [intros v Hv; cbn; by destruct (Z.eqb_spec v (file_uniq f))|]. intros i Hi. cbn. rewrite Z.eqb_refl. cbn.
  unfold FileCache.write_all_at. destruct (Z.leb_spec off i); [lia|done].
Qed.

(** The pieces in use do not change with the file being written to, nor with a
    new temporary file. *)
Lemma ahead_kept d d' (p p' : option StreamStreamTmpFile) u k : tmp_cur p = Some (u, k) -> ahead u k d d' ->
  (forall k', tmp_cur p' = Some (u, k') -> k <= k') -> (forall u' k', tmp_cur p' = Some (u', k') -> u' = u) ->
  files_kept (disk_files d p) (disk_files d' p').
Proof.
  intros Ep (Et & Ef & Eb) Hk Hu f s n Hs Hn (H1 & H2 & H3 & H4). split.
  - split; [done|]. split; [done|]. rewrite Et. split; [|done]. intros v j Ev <-. pose proof (Hu _ _ Ev) as E. rewrite E in Ev. specialize (Hk _ Ev).
    specialize (H3 u k Ep E). lia.
  - cbn. unfold disk_rd. destruct (Z.eq_dec (file_uniq f) u) as [E|Hne]; [|by rewrite Ef].
    rewrite E. apply read_at_ext. intros i Hi. apply Eb. specialize (H3 u k Ep E). lia.
Qed.

Lemma same_kept d (p p' : option StreamStreamTmpFile) : tmp_cur p' = tmp_cur p -> files_kept (disk_files d p) (disk_files d p').
Proof. intros E f s n Hs Hn (H1 & H2 & H3 & H4). split; [|done]. split; [done|]. split; [done|]. by rewrite E. Qed.

Lemma new_file_kept d (p p' : option StreamStreamTmpFile) f l k room : d_tmp d = f :: l -> tmp_cur p' = Some (file_uniq f, k) ->
  files_kept (disk_files d p) (disk_files (mkDisk (d_files d) l room) p').
Proof.
  intros Et Ep g s n Hs Hn (H1 & H2 & H3 & H4). rewrite Et in H4. cbn in H4. apply not_elem_of_cons in H4 as [H4 H5]. split; [|done].
  split; [done|]. split; [done|]. split; [|done]. intros u j Eu E. rewrite Ep in Eu. injection Eu as <- _. congruence.
Qed.

(** The piece that was written, after the others or joined to the last. *)
Lemma push_piece_ok (G : FileRead) g seek size ws : Forall write_good ws -> 0 <= seek -> 0 < size -> seek + size < 2 ^ 64 -> rd_ok g seek size ->
  Forall write_good (push_piece g seek size ws) /\ writes_view (push_piece g seek size ws) = writes_view ws ++ rd g seek size /\
  (Forall file_uncached ws -> Forall file_uncached (push_piece g seek size ws) /\
    forall c, held c (push_piece g seek size ws) = held c ws + if eqb false c then size else 0).
Proof.
  intros Hw Hs Hn Hlt Hok. assert (file_good (file_piece g seek size)) as Hp by (split_and!; cbn; (done || lia)).
  assert (Forall write_good (ws ++ [mkCacheWrite (WFile (file_piece g seek size)) false]) /\
    writes_view (ws ++ [mkCacheWrite (WFile (file_piece g seek size)) false]) = writes_view ws ++ rd g seek size /\
    (Forall file_uncached ws -> Forall file_uncached (ws ++ [mkCacheWrite (WFile (file_piece g seek size)) false]) /\
      forall c, held c (ws ++ [mkCacheWrite (WFile (file_piece g seek size)) false]) = held c ws + if eqb false c then size else 0)) as Happ.
  { split; [apply Forall_app; split; [done|]; apply Forall_singleton; by split|]. split; [by rewrite writes_view_app, writes_view_one|].
    intros Hu. split; [apply Forall_app; split; [done|by apply Forall_singleton]|]. intros c. rewrite held_both, held_cons. change (held c []) with 0. cbn. lia. }
  unfold push_piece. destruct (last ws) as [[[b|a] ca]|] eqn:El; [done| |done]. case_match eqn:Ef; [|done].
  clear Happ. destruct (last_inv _ _ El) as [k ->]. rewrite removelast_last. apply Forall_app in Hw as [Hk Ha]. apply Forall_inv in Ha as [Ha Hz].
  cbn in Ha. unfold write_remaining in Hz. cbn in Hz. destruct (file_merge_ok a (file_piece g seek size) Ha Hp Ef) as (Hm & Hms & Hmv).
  cbn [f_size f_seek f_file file_piece file_merge] in *. rewrite Hms in *.
  assert (f_seek a + (f_size a + size) < 2 ^ 64) as Hlt' by (destruct Hm as (_ & _ & Hm & _); cbn in Hm; lia).
  set (w := mkCacheWrite _ ca). assert (write_good w) as Hw'.
  { split; [|unfold w, write_remaining; cbn; lia]. unfold file_good, file_merge in Hm; cbn [f_size f_seek f_file f_notify file_piece] in Hm; rewrite Hms in Hm. destruct Hm as (M1 & M2 & M3 & M4 & M5). destruct Ha as (A1 & A2 & A3 & A4 & A5). split; [exact M1|split; [exact M2|split; [exact M3|split; [exact A4|exact M5]]]]. }
  split; [apply Forall_app; split; [done|by apply Forall_singleton]|]. split.
  - rewrite !writes_view_app, !writes_view_one, <- app_assoc. f_equal. exact Hmv.
  - intros Hu. apply Forall_app in Hu as [Hu1 Hu2]. apply Forall_inv in Hu2. unfold file_uncached in Hu2. cbn in Hu2. specialize (Hu2 eq_refl). subst ca.
    split; [apply Forall_app; split; [done|by apply Forall_singleton]|]. intros c. rewrite !held_both, !held_cons. change (held c []) with 0. unfold write_remaining. cbn. destruct c; cbn; lia.
Qed.

(** ** The invariant as what is read moves on *)

Section take.
Context {R W : Type} `{AsyncReader R} `{AsyncWriter W} {tmp : list FileExt} `{!ReaderLaws R tmp} `{!WriterLaws W}.
Context (e : StreamEnv) (S0 T0 : Z).
Abbreviation S := (Share R W).
Abbreviation Inv := (Inv S0 T0).

(** Only how the buffers are spread over [read_buffer] and the others
    changed. *)
Lemma inv_spread extra extra' (s : S) b : reads (set_read_buffer b s) extra' = reads s extra -> Inv extra s -> Inv extra' (set_read_buffer b s).
Proof.
  intros E [i1 i2 i3 i4 i5 i6 i7 i8 i9 ik i10 i11]. split; try assumption; rewrite ?E; try assumption.
  - by destruct i8.
  - destruct i11 as [B1 B2 B3 B4]. split; rewrite ?E; assumption.
Qed.

(** [Prefix] does not depend on how the files change ahead of what is used. *)
Lemma prefix_kept extra (s s' : S) : Inv extra s -> files_kept (files_of s) (files_of s') -> reader s' = reader s -> writer s' = writer s -> Prefix s'.
Proof.
  intros Hi Hk Er Ew. exists (@writes_view (files_of s) (stock s) ++ views (files_of s) (reads s extra)).
  rewrite Er, Ew. rewrite (proj2 (pieces_kept _ _ Hk _ (inv_sent _ _ _ _ Hi))), (proj2 (pieces_kept _ _ Hk _ (inv_received _ _ _ _ Hi))).
  exact (inv_flow _ _ _ _ Hi).
Qed.

Lemma reads_kept (F G : FileRead) : files_kept F G -> forall l, Forall (@rb_good F) l -> Forall (@rb_good G) l /\ views G l = views F l.
Proof.
  intros Hk l. unfold views. induction 1 as [|r l Hr _ [IH1 IH2]]; [done|]. destruct (rb_kept F G Hk r Hr) as [H1 H2]. cbn. rewrite H2, IH2.
  split; [by constructor|done].
Qed.

(** The files change, or the temporary file does. *)
Lemma inv_files extra (s : S) p d : Inv extra s -> let s' := set_plugin p (set_disk d s) in
  files_kept (files_of s) (files_of s') -> tmp_good (tmp:=tmp) s' ->
  (forall p', p = Some p' -> 0 <= fw_seek p' /\ fw_seek p' + sizes (reads s extra) <= pieces_len (sent (reader s))) -> Inv extra s'.
Proof.
  intros [i1 i2 i3 i4 i5 i6 i7 i8 i9 ik i10 i11] s' Hk Ht Hs. destruct (writes_kept _ _ Hk _ i2) as [k2 v2]. destruct (reads_kept _ _ Hk _ i3) as [k3 v3].
  destruct (pieces_kept _ _ Hk _ i4) as [k4 v4]. destruct (pieces_kept _ _ Hk _ i5) as [k5 v5].
  split; try assumption.
  - by apply (deque_kept _ _ Hk).
  - change (@content (files_of s') (sent (reader s)) = @content (files_of s') (received (writer s)) ++ @writes_view (files_of s') (stock s) ++ views (files_of s') (reads s extra)).
    by rewrite v2, v3, v4, v5.
  - destruct i11 as [B1 B2 B3 B4]. by split.
Qed.

Lemma sizes_cons r l : sizes (r :: l) = read_remaining r + sizes l.
Proof. done. Qed.

Lemma reads_held_cons c r l : reads_held c (r :: l) = (if eqb (r_is_cache r) c then read_remaining r else 0) + reads_held c l.
Proof. done. Qed.

Lemma reads_held_nonneg F c l : Forall (@rb_good F) l -> 0 <= reads_held c l <= sizes l.
Proof.
  induction 1 as [|r l Hr _ IH]; [done|]. rewrite reads_held_cons, sizes_cons. destruct (rb_len r Hr). case_match; lia.
Qed.

(** Everything but the budgets and the counts. *)
Definition held_state (s : S) :=
  (write_buffer_deque s, write_buffer s, write_err s, read_buffer s, caches s, plugin s, disk s, reader s, writer s, is_stream_cache s, closing s, read_err s).

Lemma held_fields (s s' : S) : held_state s' = held_state s ->
  read_buffer s' = read_buffer s /\ caches s' = caches s /\ plugin s' = plugin s /\ disk s' = disk s /\ reader s' = reader s /\ writer s' = writer s /\
  is_stream_cache s' = is_stream_cache s /\ closing s' = closing s /\ read_err s' = read_err s.
Proof. intros [=]. by split_and!. Qed.

(** The budgets after what was read is taken from one of them. *)
Lemma change_size_ok c n (s : S) : - 2 ^ 62 <= budget s c - n < 2 ^ 63 ->
  held_state (change_stream_size c n s) = held_state s /\
  (forall c', budget (change_stream_size c n s) c' = budget s c' - if eqb c c' then n else 0).
Proof.
  intros Hn. unfold change_stream_size, budget in *. destruct c.
  - rewrite swrap64_id by (destruct (0 <? stream_nodelay_size _); cbn in *; lia).
    destruct s; cbn. split; [by case_match|]. intros []; case_match; cbn; lia.
  - rewrite (swrap64_id (tmp_file_size _ - n)) by (destruct (0 <? stream_nodelay_size _); cbn in *; lia).
    destruct s; cbn. split; [by case_match|]. intros []; case_match; cbn; lia.
Qed.

(** What was read is handed on: it is now part of what waits. *)
Lemma inv_take r l (s s' : S) p d ws : Inv (r :: l) s -> read_buffer s = None ->
  held_state s' = held_state (set_caches ws (set_plugin p (set_disk d s))) ->
  (forall c, budget s' c = budget s c - if eqb (r_is_cache r) c then read_remaining r else 0) ->
  let G := disk_files d p in files_kept (files_of s) G -> tmp_good (tmp:=tmp) (set_plugin p (set_disk d s)) ->
  (forall p', p = Some p' -> 0 <= fw_seek p' /\ fw_seek p' + sizes l <= pieces_len (sent (reader s))) ->
  Forall (@write_good G) ws -> @writes_view G ws = @writes_view G (caches s) ++ @rb_view G r ->
  (Forall file_uncached (stock s) -> is_read_msg (reader s) = false -> Forall file_uncached ws /\
    forall c, held c ws = held c (caches s) + if eqb (r_is_cache r) c then read_remaining r else 0) -> Inv l s'.
Proof.
  intros Hi Er Es Eb G Hk Ht Hseek Hw Hv Hh. pose proof (inv_lengths _ _ _ _ Hi) as (L1 & L2 & L3 & L4 & L5).
  pose proof (inv_reads _ _ _ _ Hi) as Hr. pose proof (inv_budget _ _ _ _ Hi) as [B1 B2 B3 B4]. pose proof (inv_kind _ _ _ _ Hi) as Hkd. unfold reads in Hr, B2, B3, B4, Hkd, L1. rewrite Er in Hr, B2, B3, B4, Hkd, L1.
  apply Forall_cons in Hr as [Hr Hrl]. apply Forall_cons in Hkd as [_ Hkd]. destruct (rb_len r Hr) as [Hrv Hrz]. change (option_list None ++ r :: l) with (r :: l) in *.
  assert (files_of s' = G /\ reads s' l = l /\ write_buffer_deque s' = write_buffer_deque s /\ reader s' = reader s /\ writer s' = writer s /\
    stock s' = q_datas (write_buffer_deque s) ++ option_list (write_buffer s) ++ ws /\ plugin s' = p /\ disk s' = d /\ is_stream_cache s' = is_stream_cache s /\ write_err s' = write_err s) as (E1 & E2 & E3 & E4 & E5 & E6 & E7 & E8 & E9 & E10).
  { destruct s, s'. cbn in Er. subst. unfold held_state in Es. cbn in Es. injection Es. intros. subst. done. }
  destruct Hi as [i1 i2 i3 i4 i5 i6 i7 i8 i9 ik i10 i11]. unfold stock in i2. rewrite app_assoc in i2. apply Forall_app in i2 as [i2 i2'].
  destruct (writes_kept _ _ Hk _ i2) as [k2 v2]. destruct (writes_kept _ _ Hk _ i2') as [k2' v2']. destruct (reads_kept _ _ Hk _ Hrl) as [k3 v3]. destruct (rb_kept _ _ Hk r Hr) as [k3' v3'].
  destruct (pieces_kept _ _ Hk _ i4) as [k4 v4]. destruct (pieces_kept _ _ Hk _ i5) as [k5 v5].
  split; rewrite ?E1, ?E2, ?E3, ?E4, ?E5, ?E6, ?E7, ?E8, ?E10; try done.
  - by apply (deque_kept _ _ Hk).
  - rewrite app_assoc. by apply Forall_app.
  - rewrite v5, v4, v3, i6. f_equal. unfold stock, reads. rewrite Er. change (views (files_of s) (option_list None ++ r :: l)) with (@rb_view (files_of s) r ++ views (files_of s) l).
    rewrite (app_assoc (q_datas _)), (app_assoc (q_datas _) _ ws). rewrite (writes_view_app (_ ++ _) ws), (writes_view_app (_ ++ _) (caches s)).
    rewrite v2, Hv, v2', v3'. by rewrite <- !app_assoc.
  - destruct Ht as [t1 t2 t3]. split; rewrite ?E7, ?E8; done.
  - assert (zsum (write_remaining <$> ws) = zsum (write_remaining <$> caches s) + read_remaining r) as Ez.
    { rewrite <- (writes_len (H:=G) ws Hw), Hv, zlen_app, (writes_len (H:=G)) by done. rewrite v3', Hrv. done. }
    unfold stock in B1. rewrite !fmap_app, !zsum_app in B1. pose proof (Eb true) as Et. pose proof (Eb false) as Ef. unfold budget in Et, Ef. rewrite sizes_cons in *.
    split; rewrite ?E2, ?E4, ?E5, ?E6.
    + rewrite !fmap_app, !zsum_app, Ez. destruct (r_is_cache r); cbn [eqb] in *; lia.
    + pose proof (reads_len _ _ Hrl). destruct (r_is_cache r); cbn [eqb] in *; lia.
    + pose proof (reads_len _ _ Hrl). destruct (r_is_cache r); cbn [eqb] in *; lia.
    + intros Hm Hc. rewrite E9 in Hc. destruct (B4 Hm Hc) as (C1 & C2 & C3). destruct (Hh C2 Hm) as [Hu Hhe]. unfold stock in C2. rewrite app_assoc in C2. apply Forall_app in C2 as [C2 _].
      split; [|split; [rewrite app_assoc; by apply Forall_app|]].
      * intros c. specialize (C1 c). unfold stock in C1. rewrite !held_both in *. rewrite Eb, Hhe. lia.
      * intros c. specialize (C3 c). rewrite reads_held_cons in C3. rewrite Eb. lia.
Qed.

(** ** The temporary file *)

(** What handing on leaves alone. *)
Record Same (s s' : S) : Prop := {
  sm_read_err : read_err s' = read_err s;
  sm_closing : closing s' = closing s;
  sm_stream : is_stream_cache s' = is_stream_cache s;
  sm_reader : reader s' = reader s
}.

Lemma same_refl s : Same s s.
Proof. by split. Qed.

Lemma same_trans s1 s2 s3 : Same s1 s2 -> Same s2 s3 -> Same s1 s3.
Proof. intros [] []. split; congruence. Qed.

Lemma grown_same s s' : Grown s s' -> Same s s'.
Proof. by intros []. Qed.

Lemma inv_seeks extra s p : Inv extra s -> plugin s = Some p -> 0 <= fw_seek p < 2 ^ 62 /\ fw_seek p + sizes (reads s extra) < 2 ^ 62.
Proof.
  intros Hi Ep. destruct (inv_seek _ _ _ _ Hi p Ep). pose proof (inv_lengths _ _ _ _ Hi). pose proof (reads_len _ _ (inv_reads _ _ _ _ Hi)). lia.
Qed.

(** The next temporary file is not in use. *)
Lemma next_tmp_good (s : S) p f l room k : tmp_good (tmp:=tmp) s -> d_tmp (disk s) = f :: l -> tmp_cur p = Some (file_uniq f, k) ->
  tmp_good (tmp:=tmp) (set_plugin p (set_disk (mkDisk (d_files (disk s)) l room) s)).
Proof.
  intros [t1 t2 t3] Et Ep. rewrite Et in t1, t2. cbn [fmap list_fmap] in t1, t2. apply NoDup_cons in t1 as [t1 t1'].
  split; [exact t1'| |].
  - intros u Hu. apply t2. by apply elem_of_cons; right.
  - intros u j Eu. change (tmp_cur p = Some (u, j)) in Eu. rewrite Ep in Eu. injection Eu as <- _. split; [apply t2; by left|exact t1].
Qed.

Lemma plugin_turn_ok extra s : Inv extra s ->
  run (plugin_turn e) s (fun _ s' => Inv extra s' /\ Same s s' /\ read_buffer s' = read_buffer s /\ (forall c, budget s' c = budget s c) /\ plugin s' <> None) (fun _ => False).
Proof.
  intros Hi. pose proof (inv_lengths _ _ _ _ Hi) as (L1 & L2 & L3 & L4 & L5). unfold plugin_turn. go. change (id s) with s. destruct (plugin s) as [p|] eqn:Ep.
  - case_match; [|apply run_ret; split; [done|split; [apply same_refl|split; [done|split; [done|by rewrite Ep]]]]]. go.
    set (s1 := set_curr_reopen 0 s). assert (Inv extra s1) as Hi1 by (apply (inv_core S0 T0 extra s); [by destruct s|done]).
    assert (Same s s1) as Hs1 by (by destruct s). destruct (d_tmp (disk s1)) as [|f l] eqn:Et.
    + go by (unfold attempt, on_disk, get_tmp_file_fd; rewrite Et; reflexivity). assert (set_disk (disk s1) s1 = s1) as -> by (by destruct s).
      apply run_ret. split; [done|]. split; [done|]. split; [by destruct s|]. split; [by destruct s|]. change (plugin s <> None). by rewrite Ep.
    + go by (unfold attempt, on_disk, get_tmp_file_fd; rewrite Et; reflexivity). apply run_modify. set (p' := Some (mkTmpFile 0 (Some f) (is_first_buffer p))).
      split; [|split; [by destruct s|split; [by destruct s|split; [by destruct s|by destruct s]]]].
      apply (inv_files extra s1 p' _ Hi1).
      * by apply (new_file_kept (disk s1) (plugin s1) p' f l 0).
      * by apply (next_tmp_good s1 p' f l _ 0 (inv_tmp _ _ _ _ Hi1)).
      * intros q [= <-]. cbn. change (0 <= 0 /\ sizes (reads s extra) <= pieces_len (sent (reader s))). lia.
  - apply run_modify. split; [|split; [by destruct s|split; [by destruct s|split; [by destruct s|by destruct s]]]].
    assert (set_plugin (Some tmp_file_new) s = set_plugin (Some tmp_file_new) (set_disk (disk s) s)) as -> by (by destruct s).
    apply (inv_files extra s _ _ Hi).
    + apply same_kept. by rewrite Ep.
    + destruct (inv_tmp _ _ _ _ Hi). by split.
    + intros q [= <-]. cbn. lia.
Qed.

Lemma kept_trans F G I : files_kept F G -> files_kept G I -> files_kept F I.
Proof. intros H1 H2 f s n Hs Hn Hok. destruct (H1 f s n Hs Hn Hok) as [H3 E3]. destruct (H2 f s n Hs Hn H3) as [H4 E4]. split; [done|congruence]. Qed.

(** The file that is written to, the next one if there is none. *)
Lemma file_ext_ok (s : S) p : tmp_good (tmp:=tmp) s -> plugin s = Some p ->
  file_ext s = (Err "err:get_tmp_file_fd", s) \/
  exists g d, let p' := Some (mkTmpFile (fw_seek p) (Some g) (is_first_buffer p)) in
    file_ext s = (Ok g, set_plugin p' (set_disk d s)) /\ files_kept (files_of s) (disk_files d p') /\ tmp_good (tmp:=tmp) (set_plugin p' (set_disk d s)).
Proof.
  intros Ht Ep. unfold file_ext. rewrite (stm_step _ _ _ (plugin s) s) by done. rewrite Ep. rewrite (stm_step _ _ _ p s) by done.
  destruct (tmp_file p) as [g|] eqn:Eg.
  - right. exists g, (disk s). set (p' := Some (mkTmpFile (fw_seek p) (Some g) (is_first_buffer p))). assert (set_plugin p' (set_disk (disk s) s) = s) as ->.
    { subst p'. destruct s, p. cbn in *. by subst. }
    split; [done|]. split; [|done]. apply same_kept. rewrite Ep. destruct p. cbn in *. by subst.
  - destruct (d_tmp (disk s)) as [|g l] eqn:Et.
    + left. unfold mbind, stm_bind, on_disk, get_tmp_file_fd. rewrite Et. by destruct s.
    + right. exists g, (mkDisk (d_files (disk s)) l (d_room (disk s))). set (p' := Some (mkTmpFile (fw_seek p) (Some g) (is_first_buffer p))).
      split; [|split; [by apply (new_file_kept (disk s) (plugin s) p' g l (fw_seek p))|by apply (next_tmp_good s p' g l _ (fw_seek p))]].
      rewrite (stm_step _ _ _ g (set_disk (mkDisk (d_files (disk s)) l (d_room (disk s))) s)); [by destruct s|]. unfold on_disk, get_tmp_file_fd. by rewrite Et.
Qed.

Lemma read_chunk_ok b n : read_good b -> 0 < n <= read_remaining b ->
  exists b', chunk (B:=StreamStreamCacheRead) n b = (Ok (take (Z.to_nat n) (read_view b)), b') /\ read_view b' = read_view b /\ read_good b'.
Proof. exact (chunk_view (StreamStreamBufLaws:=read_laws) b n). Qed.

Lemma read_advance_ok b n : read_good b -> 0 <= n <= read_remaining b -> 0 < read_remaining b ->
  exists b', advance (B:=StreamStreamCacheRead) n b = (Ok tt, b') /\ read_view b' = drop (Z.to_nat n) (read_view b) /\ read_good b'.
Proof. exact (advance_view (StreamStreamBufLaws:=read_laws) b n). Qed.

(** The buffer is written, page run by page run. *)
Lemma write_pages_ok g : env_good e S0 T0 -> forall fuel seek first b (s : S), (Z.to_nat (read_remaining b) <= fuel)%nat -> read_good b ->
  0 <= seek -> seek + read_remaining b < 2 ^ 62 ->
  exists o d, write_pages e fuel g seek first (read_remaining b) b s = (o, set_disk d s) /\ ahead (file_uniq g) seek (disk s) d /\
    ((o = Ok tt /\ CacheFile.read_at (read_remaining b) seek (d_files d (file_uniq g)) = read_view b) \/ exists x, o = Err x).
Proof.
  intros He. pose proof (eg_write e S0 T0 He) as Hwb. induction fuel as [|fuel IH]; intros seek first b s Hf Hg Hs Hlt.
  - pose proof (read_remaining_view b Hg) as Er. pose proof (zlen_nonneg (read_view b)). exists (Ok tt), (disk s). cbn [write_pages].
    destruct (Z.leb_spec (read_remaining b) 0); [|lia]. assert (read_remaining b = 0) as E0 by lia. split; [by destruct s|]. split; [apply ahead_refl|]. left. split; [done|].
    rewrite E0. symmetry. apply zlen_0. lia.
  - pose proof (read_remaining_view b Hg) as Er. cbn [write_pages]. destruct (Z.leb_spec (read_remaining b) 0) as [H1|H1].
    { pose proof (zlen_nonneg (read_view b)). exists (Ok tt), (disk s). assert (read_remaining b = 0) as E0 by lia. split; [by destruct s|]. split; [apply ahead_refl|]. left. split; [done|].
      rewrite E0. symmetry. apply zlen_0. lia. }
    assert (exists n, (if first then m ← lift (zrem seek (write_buffer_size (cs e))); mret (write_buffer_size (cs e) - m) else mret (write_buffer_size (cs e))) s = (Ok n, s) /\ 0 < n) as (n0 & En & Hn0).
    { pose proof (Z.mod_pos_bound seek (write_buffer_size (cs e)) ltac:(lia)). destruct first.
      - unfold zrem, lift. destruct (Z.eqb_spec (write_buffer_size (cs e)) 0); [lia|]. eexists. split; [reflexivity|lia].
      - eexists. split; [reflexivity|lia]. }
    rewrite (stm_step _ _ _ _ _ En). cbv zeta. set (n := Z.min n0 (read_remaining b)).
    destruct (read_chunk_ok b n Hg ltac:(lia)) as (b1 & Ec & Ev1 & Hg1).
    pose proof (read_remaining_view b1 Hg1) as Er1. rewrite Ev1, <- Er in Er1.
    destruct (read_advance_ok b1 n Hg1 ltac:(lia) ltac:(lia)) as (b2 & Ea & Ev2 & Hg2).
    pose proof (read_remaining_view b2 Hg2) as Er2. rewrite Ev2, Ev1, zlen_drop, <- Er in Er2 by lia.
    set (data := take (Z.to_nat n) (read_view b)) in *. assert (zlen data = n) as Hd by (apply zlen_take; lia).
    rewrite (stm_step _ _ _ (data, b1) s) by (unfold on_local; rewrite Ec; reflexivity).
    pose proof (write_ahead g data seek (disk s) seek ltac:(lia)) as Hw. destruct (write_all_at g data seek (disk s)) as [[[]|x| |] d1] eqn:Ew; try done.
    + destruct Hw as [Ha1 Hr1]. rewrite (stm_step _ _ _ tt (set_disk d1 s)) by (unfold on_disk; rewrite Ew; reflexivity).
      rewrite (stm_step _ _ _ (tt, b2) (set_disk d1 s)) by (unfold on_local; rewrite Ea; reflexivity).
      rewrite <- Er2. rewrite wrap_id by (unfold in_width; lia).
      destruct (IH (seek + n) false b2 (set_disk d1 s) ltac:(lia) Hg2 ltac:(lia) ltac:(lia)) as (o & d2 & E2 & Ha2 & Ho).
      exists o, d2. split; [rewrite E2; by destruct s|]. split; [apply (ahead_trans _ _ _ _ _ _ Ha1 Ha2); lia|].
      destruct Ho as [[-> Hr2]|Ho]; [left|by right]. split; [done|].
      replace (read_remaining b) with (n + read_remaining b2) by lia. rewrite read_at_split by lia. rewrite Hr2, Ev2, Ev1.
      etrans; [|exact (firstn_skipn (Z.to_nat n) (read_view b))]. fold data. f_equal. etrans; [|exact Hr1]. rewrite Hd.
      apply read_at_ext. intros i Hi. destruct Ha2 as (_ & _ & Hb). apply Hb. lia.
    + exists (Err x), (disk s). split; [unfold mbind, stm_bind, on_disk; rewrite Ew, Hw; by destruct s|]. split; [apply ahead_refl|]. right. by exists x.
Qed.

Definition taken (r : StreamStreamCacheRead) (s s' : S) : Prop :=
  Same s s' /\ read_buffer s' = read_buffer s /\ (forall c, budget s' c = budget s c - if eqb (r_is_cache r) c then read_remaining r else 0).

Lemma taken_by extra r (s s' : S) p d ws : Inv (r :: reads s extra) (set_read_buffer None s) ->
  held_state s' = held_state (set_caches ws (set_plugin p (set_disk d s))) ->
  (forall c, budget s' c = budget s c - if eqb (r_is_cache r) c then read_remaining r else 0) ->
  let G := disk_files d p in files_kept (files_of s) G -> tmp_good (tmp:=tmp) (set_plugin p (set_disk d s)) ->
  (forall p', p = Some p' -> 0 <= fw_seek p' /\ fw_seek p' + sizes (reads s extra) <= pieces_len (sent (reader s))) ->
  Forall (@write_good G) ws -> @writes_view G ws = @writes_view G (caches s) ++ @rb_view G r ->
  (Forall file_uncached (stock s) -> is_read_msg (reader s) = false -> Forall file_uncached ws /\
    forall c, held c ws = held c (caches s) + if eqb (r_is_cache r) c then read_remaining r else 0) -> Inv extra s' /\ taken r s s'.
Proof.
  intros Hi Es Eb G Hk Ht Hseek Hw Hv Hh. assert (read_buffer s' = read_buffer s /\ Same s s') as [Er Hsame].
  { destruct s, s'. cbn in Es. injection Es. intros. subst. by split. }
  split; [|done]. assert (s' = set_read_buffer (read_buffer s') (set_read_buffer None s')) as -> by (by destruct s').
  apply (inv_spread (reads s extra) extra). { unfold reads. cbn. by rewrite Er. }
  apply (inv_take r (reads s extra) (set_read_buffer None s) (set_read_buffer None s') p d ws); try done.
  - destruct s, s'. cbn in Es. injection Es. intros. by subst.
  - by destruct Ht; split.
Qed.

Lemma to_tmp_file_ok extra r p (s : S) : env_good e S0 T0 -> Inv (r :: reads s extra) (set_read_buffer None s) -> plugin s = Some p ->
  read_good r -> r_is_cache r = false -> 0 < read_remaining r ->
  run (to_tmp_file e r) s (fun _ s' => Inv extra s' /\ taken r s s') Prefix.
Proof.
  intros He Hi Ep Hg Hc Hz. pose proof (inv_lengths _ _ _ _ Hi) as (L1 & L2 & L3 & L4 & L5). pose proof (inv_seek _ _ _ _ Hi p Ep) as [K1 K2].
  pose proof (inv_budget _ _ _ _ Hi) as [B1 B2 B3 B4]. pose proof (inv_reads _ _ _ _ Hi) as Hr.
  change (reads (set_read_buffer None s) (r :: reads s extra)) with (r :: reads s extra) in *. rewrite !sizes_cons in *.
  apply Forall_cons in Hr as [Hr Hrl]. pose proof (reads_len _ _ Hrl) as [_ Hrl'].
  change (sent (reader (set_read_buffer None s))) with (sent (reader s)) in *. change (received (writer (set_read_buffer None s))) with (received (writer s)) in *.
  change (tmp_file_size (set_read_buffer None s)) with (tmp_file_size s) in *. pose proof (eg_tmp e S0 T0 He).
  destruct (change_size_ok false (read_remaining r) s ltac:(unfold budget; lia)) as [Es Eb].
  unfold to_tmp_file. rewrite Hc. go. set (s1 := change_stream_size false (read_remaining r) s) in *.
  assert (plugin s1 = Some p /\ disk s1 = disk s /\ caches s1 = caches s /\ tmp_good (tmp:=tmp) s1 /\ files_of s1 = files_of s) as (Ep1 & Ed1 & Ec1 & Ht1 & Ef1).
  { pose proof (inv_tmp _ _ _ _ Hi) as [t1 t2 t3]. destruct (held_fields _ _ Es) as (_ & Q1 & Q2 & Q3 & _). unfold files_of. rewrite Q2, Q3.
    split; [done|]. split; [done|]. split; [done|]. split; [|done]. split; rewrite ?Q2, ?Q3; done. }
  assert (forall o s2, files_kept (files_of s) (files_of s2) -> reader s2 = reader s -> writer s2 = writer s -> run (fun _ => (Err o, s2)) s1 (fun (_ : unit) s' => Inv extra s' /\ taken r s s') Prefix) as Herr.
  { intros o s2 Hk E1 E2. by apply (prefix_kept _ (set_read_buffer None s) s2 Hi Hk). }
  assert (reader s1 = reader s /\ writer s1 = writer s) as [Er1 Ew1] by (destruct (held_fields _ _ Es) as (_ & _ & _ & _ & Q1 & Q2 & _); done).
  destruct (file_ext_ok s1 p Ht1 Ep1) as [Ef|(g & d & Ef & Hk1 & Htg)].
  { unfold run, mbind, stm_bind at 1. rewrite Ef. apply (prefix_kept _ (set_read_buffer None s) s1 Hi); [rewrite Ef1; apply same_kept; done|done|done]. }
  go by exact Ef. set (p1 := mkTmpFile (fw_seek p) (Some g) (is_first_buffer p)) in *. go. go.
  cbn [fw_seek p1 tmp_file is_first_buffer]. set (s2 := set_plugin (Some p1) (set_disk d s1)).
  assert (exists o d2, (if is_tmp_file_io_page (cs e) then write_pages e (Z.to_nat (read_remaining r)) g (fw_seek p) true (read_remaining r) r
      else on_local (chunk (B:=StreamStreamCacheRead) (read_remaining r)) r ≫= λ '(data, _), on_disk (write_all_at g data (fw_seek p))) s2 = (o, set_disk d2 s2) /\
    ahead (file_uniq g) (fw_seek p) d d2 /\
    ((o = Ok tt /\ CacheFile.read_at (read_remaining r) (fw_seek p) (d_files d2 (file_uniq g)) = read_view r) \/ exists x, o = Err x)) as (o & d2 & Eo & Ha & Ho).
  { destruct (is_tmp_file_io_page (cs e)).
    - exact (write_pages_ok g He (Z.to_nat (read_remaining r)) (fw_seek p) true r s2 ltac:(lia) Hg ltac:(lia) ltac:(lia)).
    - destruct (read_chunk_ok r (read_remaining r) Hg ltac:(lia)) as (b1 & Ec & _ & _). rewrite (read_remaining_view r Hg) in Ec at 2. rewrite ztake_whole in Ec by lia.
      rewrite (stm_step _ _ _ (read_view r, b1) s2) by (unfold on_local; rewrite Ec; reflexivity).
      pose proof (write_ahead g (read_view r) (fw_seek p) d (fw_seek p) ltac:(lia)) as Hw. unfold on_disk. change (disk s2) with d.
      rewrite (read_remaining_view r Hg). destruct (write_all_at g (read_view r) (fw_seek p) d) as [[[]|x| |] d2]; try done.
      + exists (Ok tt), d2. split; [done|]. split; [by apply Hw|]. left. split; [done|apply Hw].
      + exists (Err x), d2. split; [done|]. subst d2. split; [apply ahead_refl|]. right. by exists x. }
  assert (tmp_cur (Some p1) = Some (file_uniq g, fw_seek p)) as Etc by done.
  assert (files_kept (files_of s) (disk_files d2 (Some p1))) as Hk2.
  { rewrite <- Ef1. apply (kept_trans _ _ _ Hk1). apply (ahead_kept d d2 (Some p1) (Some p1) (file_uniq g) (fw_seek p) Etc Ha); intros; rewrite Etc in *; [|congruence].
    match goal with Hx : Some _ = Some _ |- _ => injection Hx as <- end. lia. }
  destruct Ho as [[-> Hrd]|[x ->]].
  2:{ apply run_bind. unfold run at 1. rewrite Eo. by apply (prefix_kept _ (set_read_buffer None s) (set_disk d2 s2) Hi Hk2). }
  go by exact Eo. go. apply run_modify. rewrite wrap_id by (unfold in_width; lia).
  set (p2 := mkTmpFile (fw_seek p + read_remaining r) (Some g) (is_first_buffer p)).
  match goal with |- Inv extra ?x /\ _ => assert (x = set_caches (push_piece g (fw_seek p) (read_remaining r) (caches s)) (set_plugin (Some p2) (set_disk d2 s1))) as ->
    by (rewrite <- Ec1; subst s2; by destruct s1) end.
  assert (rb_good r) as Hrb by done. destruct Htg as [g1 g2 g3]. destruct Ha as (Ha1 & Ha2 & Ha3).
  assert (tmp_good (tmp:=tmp) (set_plugin (Some p2) (set_disk d2 s))) as Htg.
  { split; [change (NoDup (file_uniq <$> d_tmp d2)); by rewrite Ha1|change (forall u, u ∈ (file_uniq <$> d_tmp d2) -> u ∈ (file_uniq <$> tmp)); by rewrite Ha1|].
    intros u k Eu. injection Eu as <- <-. destruct (g3 (file_uniq g) (fw_seek p) eq_refl) as [g4 g5]. split; [done|]. change (file_uniq g ∉ (file_uniq <$> d_tmp d2)). by rewrite Ha1. }
  assert (files_kept (files_of s) (disk_files d2 (Some p2))) as Hk3.
  { assert (tmp_cur (Some p2) = Some (file_uniq g, fw_seek p + read_remaining r)) as Etc2 by done.
    apply (kept_trans _ _ _ Hk2). apply (ahead_kept d2 d2 (Some p1) (Some p2) (file_uniq g) (fw_seek p) Etc (ahead_refl _ _ _)); rewrite Etc2.
    - intros k [= <-]. lia.
    - by intros u k [= <- _]. }
  assert (stock (set_read_buffer None s) = stock s) as Est by done.
  pose proof (inv_stock _ _ _ _ Hi) as Hs. rewrite Est in Hs. unfold stock in Hs. apply Forall_app in Hs as [_ Hs]. apply Forall_app in Hs as [_ Hs].
  destruct (writes_kept _ _ Hk3 _ Hs) as [k2 v2].
  destruct (push_piece_ok (disk_files d2 (Some p2)) g (fw_seek p) (read_remaining r) (caches s) k2 ltac:(lia) Hz ltac:(lia)) as (Q1 & Q2 & Q3).
  { split; [lia|]. split; [lia|]. split; [|by apply (tg_cur _ Htg (file_uniq g) (fw_seek p2))]. intros u k Eu _. injection Eu as _ <-. lia. }
  apply (taken_by extra r s _ (Some p2) d2 (push_piece g (fw_seek p) (read_remaining r) (caches s)) Hi); try done.
  - destruct s, s1. unfold held_state in *. cbn in *. injection Es. intros. by subst.
  - intros c. rewrite Hc, <- Eb. by destruct c.
  - intros q [= <-]. cbn. lia.
  - rewrite Q2. f_equal. unfold rb_view. unfold read_good in Hg. destruct (r_data r); [exact Hrd..|done].
  - intros Hu _. unfold stock in Hu. apply Forall_app in Hu as [_ Hu]. apply Forall_app in Hu as [_ Hu]. destruct (Q3 Hu) as [Q4 Q5]. by rewrite Hc.
Qed.

(** ** What waits for more *)

Definition room_of (r : StreamStreamCacheRead) : Z := if read_max_size r <=? 0 then read_buffer_size (cs e) else read_max_size r.

(** What waits can be read into: it is no file, it is below the budget it is
    for and below the size it may have. *)
Definition fits (s : S) (r : StreamStreamCacheRead) : Prop :=
  read_is_file r = false /\ (read_remaining r = 0 \/ read_remaining r < budget s (r_is_cache r)) /\ read_remaining r < room_of r.
Definition Fits (s : S) : Prop := match read_buffer s with Some r => fits s r | None => True end.

Lemma fits_grown s s' : (forall c, budget s c <= budget s' c) -> read_buffer s' = read_buffer s -> Fits s -> Fits s'.
Proof.
  intros Hb Er. unfold Fits. rewrite Er. destruct (read_buffer s) as [r|]; [|done]. intros (H1 & H2 & H3). split; [done|]. split; [|done].
  specialize (Hb (r_is_cache r)). lia.
Qed.

Lemma full_room m r : env_good e S0 T0 -> kind_ok m r -> read_good r -> (m = true -> read_remaining r < read_buffer_size (cs e)) ->
  read_is_full r = false -> read_remaining r < room_of r.
Proof.
  intros He. pose proof (eg_read e S0 T0 He). unfold kind_ok, read_good, read_remaining, read_is_full, room_of, read_max_size. destruct (r_data r) as [b|u|f]; [|..|done].
  - intros Hm _ Hlt _. cbn. auto.
  - intros [_ Hm] Hg _ Hf. unfold buffer_is_full in Hf. destruct Hg. destruct (Z.leb_spec (u_max_size u) 0); lia.
Qed.

(** What was read is in other buffers. *)
Lemma inv_swap l k (s : S) : Inv l s -> read_buffer s = None -> Forall (@rb_good (files_of s)) k -> views (files_of s) k = views (files_of s) l ->
  Forall (kind_ok (is_read_msg (reader s))) k -> sizes k = sizes l -> (forall c, reads_held c k = reads_held c l) -> Inv k s.
Proof.
  intros [i1 i2 i3 i4 i5 i6 i7 i8 i9 ik i10 i11] Er Hg Hv Hk Hs Hh. unfold reads in *. rewrite Er in *. change (option_list None ++ l) with l in *.
  split; unfold reads; rewrite ?Er; change (option_list None ++ k) with k; try done.
  - by rewrite Hv.
  - by rewrite Hs.
  - destruct i11 as [B1 B2 B3 B4]. unfold reads in *. rewrite Er in *. change (option_list None ++ l) with l in *.
    split; unfold reads; rewrite ?Er; change (option_list None ++ k) with k; rewrite ?Hs; try done.
    intros Hm Hc. destruct (B4 Hm Hc) as (C1 & C2 & C3). split; [done|]. split; [done|]. intros c. by rewrite Hh.
Qed.

Lemma views_cons F r l : views F (r :: l) = @rb_view F r ++ views F l.
Proof. done. Qed.

Lemma reads_none l (s : S) : read_buffer s = None -> reads s l = l.
Proof. unfold reads. by intros ->. Qed.

(** A part is cut off: it comes first. *)
Lemma inv_cut r a b l (s : S) : Inv (r :: l) s -> read_buffer s = None -> (forall F, @rb_good F a) -> (forall F, @rb_good F b) ->
  (forall F, @rb_view F r = @rb_view F a ++ @rb_view F b) -> r_is_cache a = r_is_cache r -> r_is_cache b = r_is_cache r ->
  read_remaining r = read_remaining a + read_remaining b -> kind_ok (is_read_msg (reader s)) a -> kind_ok (is_read_msg (reader s)) b -> Inv (a :: b :: l) s.
Proof.
  intros Hi Er Ha Hb Hv Ca Cb Hs Ka Kb. pose proof (inv_reads _ _ _ _ Hi) as Hg. pose proof (inv_kind _ _ _ _ Hi) as Hk. rewrite reads_none in Hg, Hk by done.
  apply Forall_cons in Hg as [_ Hg]. apply Forall_cons in Hk as [_ Hk]. apply (inv_swap (r :: l)); try done; [by repeat constructor|..].
  - by rewrite !views_cons, Hv, <- app_assoc.
  - by repeat constructor.
  - rewrite !sizes_cons. lia.
  - intros c. rewrite !reads_held_cons, Ca, Cb. destruct (eqb (r_is_cache r) c); lia.
Qed.

(** What the timer and the first-buffer flag are is not what is copied. *)
Lemma first_done_ok extra (s : S) k : Inv extra s -> plugin s <> None ->
  let s' := set_plugin ((fun p => mkTmpFile (fw_seek p) (tmp_file p) k) <$> plugin s) s in
  Inv extra s' /\ Same s s' /\ read_buffer s' = read_buffer s /\ (forall c, budget s' c = budget s c) /\ plugin s' <> None.
Proof.
  intros Hi Hp s'. destruct (plugin s) as [p|] eqn:Ep; [|done]. split; [|by destruct s].
  assert (s' = set_plugin (Some (mkTmpFile (fw_seek p) (tmp_file p) k)) (set_disk (disk s) s)) as -> by (by destruct s).
  assert (tmp_cur (Some (mkTmpFile (fw_seek p) (tmp_file p) k)) = tmp_cur (plugin s)) as Et by (by rewrite Ep).
  apply inv_files; [done|by apply same_kept| |].
  - destruct (inv_tmp _ _ _ _ Hi) as [t1 t2 t3]. split; [done..|]. change (forall u j, tmp_cur (Some (mkTmpFile (fw_seek p) (tmp_file p) k)) = Some (u, j) -> u ∈ (file_uniq <$> tmp) /\ (u ∉ (file_uniq <$> d_tmp (disk s)))). rewrite Et. exact t3.
  - intros q [= <-]. exact (inv_seek _ _ _ _ Hi p Ep).
Qed.

Lemma delay_stop_ok extra (s : S) : Inv extra s ->
  run (delay_stop e) s (fun _ s' => Inv extra s' /\ held_state s' = held_state s /\ (forall c, budget s' c = budget s c) /\ delay_ok s' = delay_ok s) (fun _ => False).
Proof.
  intros Hi. apply run_modify. split; [apply (inv_core S0 T0 extra s); [|done]|]; (case_match; [destruct (delay_state s)|]); destruct s; try split; try done; intros; by split.
Qed.

(** All of what was read goes on now. *)
Lemma all_done_ok {A} extra (s : S) (a : A) : Inv extra s -> plugin s <> None ->
  run (_ ← delay_stop e; _ ← first_buffer_done; mret a) s
    (fun x s' => x = a /\ Inv extra s' /\ Same s s' /\ read_buffer s' = read_buffer s /\ (forall c, budget s' c = budget s c) /\ plugin s' <> None) (fun _ => False).
Proof.
  intros Hi Hp. eapply run_then; [by apply (delay_stop_ok extra)| |done]. intros [] s1 (Hi1 & E1 & Eb1 & _). destruct (held_fields _ _ E1) as (F1 & F2 & F3 & F4 & F5 & F6 & F7 & F8 & F9).
  go. destruct (first_done_ok extra s1 false Hi1 ltac:(by rewrite F3)) as (H1 & [G1 G2 G3 G4] & H3 & H4 & H5). apply run_ret.
  split; [done|]. split; [exact H1|]. split; [split; congruence|]. split; [congruence|]. split; [|done]. intros c. by rewrite H4, Eb1.
Qed.

Lemma hold_ok extra r (s : S) : Inv (r :: extra) s -> read_buffer s = None -> fits s r ->
  run (hold e r) s (fun _ s' => Inv extra s' /\ Same s s' /\ Fits s') (fun _ => False).
Proof.
  intros Hi Er Hf. unfold hold, delay_start. go. apply run_modify.
  match goal with |- context [set_read_buffer _ ?x] => set (s1 := x) end.
  assert (core s1 = core s /\ Same s s1 /\ (forall c, budget s1 c = budget s c)) as (E1 & E2 & E3).
  { subst s1. case_match; [destruct (delay_state s)|]; destruct s; split_and!; try done; by intros []. }
  clearbody s1. assert (Inv (r :: extra) s1) as Hi1 by (by apply (inv_core S0 T0 _ s)). assert (read_buffer s1 = None) as Er1 by (by injection E1 as _ _ _ -> _).
  split; [|split].
  - apply (inv_spread (r :: extra)); [|done]. unfold reads. cbn. by rewrite Er1.
  - destruct E2. by split.
  - unfold Fits. cbn. destruct Hf as (H1 & H2 & H3). split; [done|]. split; [|done].
    change (read_remaining r = 0 \/ read_remaining r < budget s1 (r_is_cache r)). by rewrite E3.
Qed.

Lemma read_resize_ok r n : read_good r -> 0 <= n < 2 ^ 62 -> read_remaining r <= n ->
  read_good (read_resize_max_size n r) /\ read_view (read_resize_max_size n r) = read_view r /\
  read_remaining (read_resize_max_size n r) = read_remaining r /\ r_is_cache (read_resize_max_size n r) = r_is_cache r /\
  r_is_flush (read_resize_max_size n r) = r_is_flush r /\ read_is_file (read_resize_max_size n r) = false /\
  (forall m, 0 < n -> kind_ok m r -> kind_ok m (read_resize_max_size n r)) /\
  read_max_size (read_resize_max_size n r) = match r_data r with RBuffer _ => n | _ => 0 end.
Proof.
  unfold read_resize_max_size, read_good, read_view, read_remaining, kind_ok, read_max_size, read_is_file. destruct r as [[b|u|f] c fl]; cbn; intros Hg Hn Hz; [|..|done].
  - by split_and!.
  - destruct (buffer_resize_ok n u Hg ltac:(lia)) as (H1 & H2 & H3 & H4). destruct (Z.ltb_spec n (u_size u)); [lia|].
    split_and!; try done. intros m Hn0 [-> _]. rewrite H4. split; [done|lia].
Qed.

Lemma good_view r : read_good r -> forall F, @rb_good F r /\ @rb_view F r = read_view r.
Proof. unfold read_good, rb_good, rb_view. destruct r as [[b|u|f] c fl]; cbn; [done..|]. done. Qed.

(** The end of the last page that is full. *)
Lemma page_end seek n page : 0 < page -> 0 <= seek -> 0 < n -> 0 < (seek + n) mod page -> (seek / page + 1) * page <= seek + n ->
  0 < n - (seek + n) mod page < n.
Proof.
  intros Hp Hs Hn Hm Hle. pose proof (Z.div_mod (seek + n) page ltac:(lia)) as E1. pose proof (Z.div_mod seek page ltac:(lia)) as E2.
  pose proof (Z.mod_pos_bound seek page Hp). pose proof (Z.mod_pos_bound (seek + n) page Hp). assert (seek / page + 1 <= (seek + n) / page); [|nia].
  apply Z.div_le_lower_bound; lia.
Qed.

(** What goes to the file now, and what waits for the rest of its page. *)
Definition cut_ok extra r (s : S) (cut : option StreamStreamCacheRead) (s' : S) : Prop :=
  Same s s' /\ match cut with
  | None => r_is_flush r = false /\ Inv extra s' /\ Fits s'
  | Some a => Inv (a :: reads s' extra) (set_read_buffer None s') /\ plugin s' <> None /\ read_good a /\ r_is_cache a = false /\ 0 < read_remaining a /\
      (r_is_flush r = true -> read_buffer s' = None) /\
      match read_buffer s' with
      | Some b => read_is_file b = false /\ r_is_cache b = false /\ read_remaining b + read_remaining a < budget s' false /\ read_remaining b < room_of b
      | None => True
      end
  end.

Lemma cut_all_ok extra r (s : S) : Inv (r :: extra) s -> read_buffer s = None -> plugin s <> None -> read_good r -> r_is_cache r = false -> 0 < read_remaining r ->
  run (_ ← delay_stop e; _ ← first_buffer_done; mret (Some r)) s (cut_ok extra r s) (fun _ => False).
Proof.
  intros Hi Er Hp Hg Hc Hz. eapply run_mono; [by apply (all_done_ok (r :: extra) s (Some r) Hi)| |done]. intros x s' (-> & Hi' & Hs & Er' & _ & Hp').
  split; [done|]. rewrite Er in Er'. unfold reads. rewrite Er'. change (option_list None ++ extra) with extra. split; [|by split_and!].
  apply (inv_spread (r :: extra)); [|done]. unfold reads. cbn. by rewrite Er'.
Qed.

Lemma split_kind m n r a b : read_split_to n r = (Ok a, b) -> read_good r -> 0 < n < read_remaining r -> kind_ok m r -> kind_ok m a /\ kind_ok m b.
Proof.
  unfold read_split_to, read_good, read_remaining, kind_ok. destruct r as [[x|u|f] c fl]; cbn; intros E Hg Hn Hk; [|..|done].
  - destruct (bytes_split_to_ok x n Hg Hn) as (o & x' & Es & _). rewrite (stm_step _ _ _ (mkCacheRead (RBytes x) c fl) (mkCacheRead (RBytes x) c fl)) in E by done.
    rewrite (stm_step _ _ _ (RBytes o) (mkCacheRead (RBytes x') c fl)) in E by (unfold with_buffer, on_bytes; cbn [id r_data]; rewrite (stm_step _ _ _ _ _ Es); reflexivity).
    by injection E as <- <-.
  - destruct Hk as [-> Hk]. pose proof Hg as [G1 G2 G3]. rewrite (stm_step _ _ _ (mkCacheRead (RBuffer u) c fl) (mkCacheRead (RBuffer u) c fl)) in E by done.
    rewrite (stm_step _ _ _ (RBuffer (mkBuffer (take (Z.to_nat n) (u_data u)) n n)) (mkCacheRead (RBuffer (mkBuffer (drop (Z.to_nat n) (u_data u)) (u_size u - n) (u_max_size u - n))) c fl)) in E
      by (unfold with_buffer, on_buffer; cbn [id r_data]; rewrite (stm_step _ _ _ _ _ (buffer_split_to_eq u n Hg Hn)); reflexivity).
    injection E as <- <-. cbn. split; (split; [done|lia]).
Qed.

(** A buffer that is split. *)
Lemma cut_split_ok extra r n (s : S) : env_good e S0 T0 -> Inv (r :: extra) s -> read_buffer s = None -> plugin s <> None -> read_good r -> r_is_cache r = false ->
  r_is_flush r = false -> 0 < n < read_remaining r -> read_remaining r - n < read_buffer_size (cs e) -> read_remaining r < budget s false ->
  run ('(front, rest) ← on_local (read_split_to n) r;
       _ ← modify (set_read_buffer (Some (read_resize_max_size (read_buffer_size (cs e)) rest)));
       _ ← delay_start e; _ ← first_buffer_done; mret (Some front)) s (cut_ok extra r s) (fun _ => False).
Proof.
  intros He Hi Er Hp Hg Hc Hfl Hn Hlt Hb. pose proof (eg_read e S0 T0 He) as Hrb.
  pose proof (inv_kind _ _ _ _ Hi) as Hk. unfold reads in Hk. rewrite Er in Hk. change (option_list None ++ r :: extra) with (r :: extra) in Hk. apply Forall_cons in Hk as [Hk _].
  destruct (read_split_to_ok r n Hg Hn) as (a & b & Es & Ea & Hga & Eb & Hgb & [Ca Fa] & [Cb Fb]).
  pose proof (read_remaining_view a Hga) as La. pose proof (read_remaining_view b Hgb) as Lb. pose proof (read_remaining_view r Hg) as Lr.
  rewrite Ea, zlen_take in La by lia. rewrite Eb, zlen_drop in Lb by lia.
  destruct (read_resize_ok b (read_buffer_size (cs e)) Hgb ltac:(lia) ltac:(lia)) as (R1 & R2 & R3 & R4 & R5 & R6 & R7 & R8).
  set (b' := read_resize_max_size (read_buffer_size (cs e)) b) in *.
  destruct (split_kind _ _ _ _ _ Es Hg Hn Hk) as [Ka Kb]. assert (kind_ok (is_read_msg (reader s)) b') as Kb' by (apply R7; [lia|done]).
  assert (Inv (a :: b' :: extra) s) as Hi1.
  { apply (inv_cut r a b' extra s Hi Er); try congruence; try done; try (intros F; by apply good_view); [|lia].
    intros F. rewrite (proj2 (good_view r Hg F)), (proj2 (good_view a Hga F)), (proj2 (good_view b' R1 F)), R2, Ea, Eb. symmetry. apply firstn_skipn. }
  go by (unfold on_local; rewrite Es; reflexivity). go. unfold delay_start.
  match goal with |- run (modify ?f ≫= _) ?x _ _ => eapply (run_step _ _ _ tt (f x)); [reflexivity|] end. cbv beta.
  match goal with |- run _ ?x _ _ => set (s1 := x) end.
  assert (core (set_read_buffer None s1) = core s /\ Same s s1 /\ (forall c, budget s1 c = budget s c) /\ read_buffer s1 = Some b' /\ plugin s1 = plugin s) as (E1 & E2 & E3 & E4 & E5).
  { subst s1. destruct s as [? ? ? ? ? ? ? ? ds]. cbn in *. subst. destruct (0 <? stream_delay_mil_time (cs e)); [destruct ds|]; split_and!; try done; by intros []. }
  clearbody s1. assert (Inv (a :: b' :: extra) (set_read_buffer None s1)) as Hi2 by (by apply (inv_core S0 T0 _ s)).
  destruct (first_done_ok (a :: b' :: extra) (set_read_buffer None s1) false Hi2 ltac:(change (plugin s1 <> None); by rewrite E5)) as (H1 & H2 & H3 & H4 & H5).
  go. apply run_ret. split; [destruct E2, H2; by split|]. unfold reads. cbn [read_buffer set_plugin]. rewrite E4. change (option_list (Some b') ++ extra) with (b' :: extra).
  split; [exact H1|]. split; [exact H5|]. split; [done|]. split; [congruence|]. split; [lia|]. split; [congruence|]. split; [done|]. split; [congruence|]. split.
  - change (read_remaining b' + read_remaining a < budget s1 false). rewrite E3. lia.
  - unfold room_of. rewrite R8. destruct (r_data b) eqn:Ed; cbn; [lia| |by unfold read_good in Hgb; rewrite Ed in Hgb]. destruct (Z.leb_spec (read_buffer_size (cs e)) 0); lia.
Qed.

Lemma waits_fits m r p (s : S) : env_good e S0 T0 -> may_wait e r p s = true -> kind_ok m r -> rb_good (H:=files_of s) r -> read_remaining r < read_buffer_size (cs e) ->
  fits s r /\ r_is_flush r = false.
Proof.
  intros He Hw Hk Hg Hlt. unfold may_wait, is_left in Hw. rewrite !andb_true_iff, !negb_true_iff in Hw. destruct Hw as (((((((W1%Z.ltb_lt & _) & _) & W4) & _) & W6) & _) & _).
  assert (read_is_file r = false) as Hf by (unfold read_is_full in W4; unfold read_is_file; by destruct (r_data r)).
  split; [|done]. split; [done|]. split; [right; exact W1|]. apply (full_room m); try done. unfold rb_good in Hg. unfold read_is_file in Hf. by destruct (r_data r).
Qed.

Lemma page_cut_ok extra r (s : S) : env_good e S0 T0 -> Inv (r :: extra) s -> read_buffer s = None -> plugin s <> None ->
  read_good r -> r_is_cache r = false -> 0 < read_remaining r -> run (page_cut e r) s (cut_ok extra r s) (fun _ => False).
Proof.
  intros He Hi Er Hp Hg Hc Hz. pose proof (cut_all_ok extra r s Hi Er Hp Hg Hc Hz) as Hall. pose proof (eg_page e S0 T0 He) as Hpg. pose proof (eg_one_page e S0 T0 He) as Hrp.
  pose proof (inv_kind _ _ _ _ Hi) as Hk. unfold reads in Hk. rewrite Er in Hk. change (option_list None ++ r :: extra) with (r :: extra) in Hk. apply Forall_cons in Hk as [Hk _].
  unfold page_cut. go. change (id s) with s. destruct (plugin s) as [p|] eqn:Ep; [|done]. go. cbv zeta.
  destruct (is_tmp_file_io_page (cs e)) eqn:Eio; [|exact Hall]. destruct (may_wait e r p s) eqn:Ew; cbn [andb]; [|exact Hall].
  destruct (inv_seeks _ _ p Hi Ep) as [K1 K2]. unfold reads in K2. rewrite Er in K2. change (option_list None ++ r :: extra) with (r :: extra) in K2. rewrite sizes_cons in K2.
  pose proof (inv_reads _ _ _ _ Hi) as Hrs. unfold reads in Hrs. rewrite Er in Hrs. apply Forall_cons in Hrs as [_ Hrs]. pose proof (reads_len _ _ Hrs) as [_ Hrz].
  pose proof Ew as Ew'. unfold may_wait, is_left in Ew'. rewrite Hc in Ew'. rewrite !andb_true_iff, !negb_true_iff in Ew'. destruct Ew' as (((((((W1%Z.ltb_lt & _) & _) & W4) & _) & W6) & _) & _).
  rewrite wrap_id by (unfold in_width; lia). unfold zrem, zdiv. destruct (Z.eqb_spec (page_size (cs e)) 0); [lia|]. go.
  pose proof (Z.mod_pos_bound (fw_seek p + read_remaining r) (page_size (cs e)) ltac:(lia)) as Hm. destruct (Z.ltb_spec 0 ((fw_seek p + read_remaining r) mod page_size (cs e))) as [Hl|Hl]; [|exact Hall].
  go. pose proof (Z.div_mod (fw_seek p) (page_size (cs e)) ltac:(lia)) as Edm. pose proof (Z.mod_pos_bound (fw_seek p) (page_size (cs e)) ltac:(lia)) as Hsm.
  assert (0 <= fw_seek p / page_size (cs e)) by (apply Z.div_pos; lia). rewrite wrap_id by (unfold in_width; nia).
  destruct (Z.ltb_spec (fw_seek p + read_remaining r) ((fw_seek p / page_size (cs e) + 1) * page_size (cs e))) as [Hc1|Hc1].
  - destruct (negb (delay_ok s)); [|exact Hall]. destruct (waits_fits _ r p s He Ew Hk ltac:(by apply good_view) ltac:(nia)) as [Hf Hfl].
    eapply run_then; [by apply (hold_ok extra r s Hi Er Hf)| |done]. intros [] s1 (Hi1 & Hs1 & Hf1). apply run_ret. by split_and!.
  - pose proof (page_end (fw_seek p) (read_remaining r) (page_size (cs e)) ltac:(lia) ltac:(lia) Hz Hl Hc1).
    apply cut_split_ok; try done; [by rewrite Ep|lia].
Qed.

(** An empty buffer is nothing. *)
Lemma empty_view F r : @rb_good F r -> read_remaining r <= 0 -> @rb_view F r = [] /\ read_remaining r = 0.
Proof. intros Hr Hz. destruct (rb_len r Hr) as [Hv H1]. split; [apply zlen_0|]; lia. Qed.

Lemma inv_drop r l (s : S) : Inv (r :: l) s -> read_buffer s = None -> read_remaining r <= 0 -> Inv l s.
Proof.
  intros Hi Er Hz. pose proof (inv_reads _ _ _ _ Hi) as Hg. pose proof (inv_kind _ _ _ _ Hi) as Hk. rewrite reads_none in Hg, Hk by done.
  apply Forall_cons in Hg as [Hr Hg]. apply Forall_cons in Hk as [_ Hk]. destruct (empty_view _ r Hr Hz) as [Hv E0]. apply (inv_swap (r :: l)); try done.
  - by rewrite views_cons, Hv.
  - rewrite sizes_cons. lia.
  - intros c. rewrite reads_held_cons. destruct (eqb (r_is_cache r) c); lia.
Qed.

Lemma inv_empty r l (s : S) : Inv l s -> read_buffer s = None -> (forall F, @rb_good F r) -> read_remaining r = 0 -> kind_ok (is_read_msg (reader s)) r -> Inv (r :: l) s.
Proof.
  intros Hi Er Hr Hz Kr. pose proof (inv_reads _ _ _ _ Hi) as Hg. pose proof (inv_kind _ _ _ _ Hi) as Hk. rewrite reads_none in Hg, Hk by done.
  destruct (empty_view _ r (Hr (files_of s)) ltac:(lia)) as [Hv _]. apply (inv_swap l); try done.
  - by constructor.
  - by rewrite views_cons, Hv.
  - by constructor.
  - rewrite sizes_cons. lia.
  - intros c. rewrite reads_held_cons. destruct (eqb (r_is_cache r) c); lia.
Qed.

Lemma to_cache_ok F r : @rb_good F r -> 0 < read_remaining r -> exists w, to_cache_write r = Ok w /\ @write_good F w /\ @write_view F w = @rb_view F r /\
  w_is_cache w = r_is_cache r /\ write_remaining w = read_remaining r /\ (kind_ok false r -> file_uncached w).
Proof.
  unfold rb_good, rb_view, read_good, read_view, read_remaining, to_cache_write, write_good, write_view, write_remaining, kind_ok, file_uncached.
  destruct r as [[b|u|f] c fl]; cbn; intros Hg Hz.
  - eexists. split; [reflexivity|]. by split_and!.
  - pose proof (buffer_view_len u Hg) as Hl. destruct Hg as [G1 G2 G3]. unfold buffer_to_bytes. rewrite vslice_from_0 by lia. cbn [mbind outcome_bind]. fold (buffer_view u).
    assert (buffer_view u <> []) as Hne by (intros E0; rewrite E0 in Hl; change (0 = u_size u) in Hl; lia).
    destruct (bytes_push_back_ok bytes_new (buffer_view u) bytes_new_good Hne) as [Hbg Hbv]. cbn [b_datas bytes_new concat app] in Hbv.
    pose proof (bg_size _ Hbg) as Hbs. rewrite Hbv, Hl in Hbs.
    eexists. split; [reflexivity|]. cbn [w_data w_is_cache data_view data_good]. rewrite Hbs, Hbv. by split_and!.
  - eexists. split; [reflexivity|]. cbn. split_and!; try done. by intros [].
Qed.

(** What goes into the queue. *)
Lemma take_cached_ok extra r (s : S) : env_good e S0 T0 -> Inv (r :: extra) s -> read_buffer s = None -> plugin s <> None -> 0 < read_remaining r ->
  run (_ ← delay_stop e; _ ← first_buffer_done;
       w ← lift (to_cache_write r);
       _ ← modify (fun s => set_caches (caches s ++ [w]) s);
       modify (change_stream_size (r_is_cache r) (read_remaining r))) s
    (fun _ s' => Inv extra s' /\ Same s s' /\ read_buffer s' = None) (fun _ => False).
Proof.
  intros He Hi Er Hp Hz. eapply run_then; [by apply (delay_stop_ok (r :: extra) s Hi)| |done]. intros [] s1 (Hi1 & E1 & Eb1 & _).
  destruct (held_fields _ _ E1) as (F1 & F2 & F3 & F4 & F5 & F6 & F7 & F8 & F9).
  destruct (first_done_ok (r :: extra) s1 false Hi1 ltac:(by rewrite F3)) as (Hi2 & Hs2 & Er2 & Eb2 & Hp2). go. set (s2 := set_plugin _ s1) in *. clearbody s2.
  assert (read_buffer s2 = None) as Er3 by congruence.
  pose proof (inv_reads _ _ _ _ Hi2) as Hrs. unfold reads in Hrs. rewrite Er3 in Hrs. apply Forall_cons in Hrs as [Hg Hrl]. pose proof (reads_len _ _ Hrl) as [_ Hrz].
  destruct (to_cache_ok _ r Hg Hz) as (w & Ew & Hw & Hwv & Hwc & Hwr & Hwk). go by (unfold lift; rewrite Ew; reflexivity). go. apply run_modify.
  pose proof (inv_lengths _ _ _ _ Hi2) as (L1 & L2 & L3 & L4 & L5). pose proof (inv_budget _ _ _ _ Hi2) as [B1 B2 B3 B4]. pose proof (eg_tmp e S0 T0 He). pose proof (eg_cache e S0 T0 He).
  unfold reads in L1, L5, B2, B3. rewrite Er3 in L1, L5, B2, B3. change (option_list None ++ r :: extra) with (r :: extra) in *. rewrite sizes_cons in L1, L5, B2, B3.
  destruct (change_size_ok (r_is_cache r) (read_remaining r) (set_caches (caches s2 ++ [w]) s2)) as [Es Eb].
  { destruct (r_is_cache r); cbn; lia. }
  destruct (held_fields _ _ Es) as (G1 & G2 & G3 & G4 & G5 & G6 & G7 & G8 & G9).
  split; [|split; [destruct Hs2; split; rewrite ?G9, ?G8, ?G7, ?G5; cbn; congruence|by rewrite G1]].
  apply (inv_take r extra s2 _ (plugin s2) (disk s2) (caches s2 ++ [w]) Hi2 Er3); try done.
  - destruct (inv_tmp _ _ _ _ Hi2). by split.
  - intros p Ep. pose proof (inv_seek _ _ _ _ Hi2 p Ep) as K. unfold reads in K. rewrite Er3 in K. change (option_list None ++ r :: extra) with (r :: extra) in K. rewrite sizes_cons in K. lia.
  - apply Forall_app. split; [|by apply Forall_singleton]. pose proof (inv_stock _ _ _ _ Hi2) as Hs. unfold stock in Hs. apply Forall_app in Hs as [_ Hs]. by apply Forall_app in Hs as [_ Hs].
  - rewrite writes_view_app, writes_view_one. f_equal. exact Hwv.
  - intros Hu Hm. pose proof (inv_kind _ _ _ _ Hi2) as Hk. unfold reads in Hk. rewrite Er3, Hm in Hk. apply Forall_inv in Hk. split.
    + apply Forall_app. split; [|apply Forall_singleton; by apply Hwk]. unfold stock in Hu. apply Forall_app in Hu as [_ Hu]. by apply Forall_app in Hu as [_ Hu].
    + intros c. rewrite held_both, held_cons, Hwc, Hwr. change (held c []) with 0. lia.
Qed.

(** What was read is taken, or waits. *)
Lemma take_read_buffer_ok extra (s : S) : env_good e S0 T0 -> Inv extra s -> plugin s <> None ->
  run (take_read_buffer e) s (fun _ s' => Inv extra s' /\ Same s s' /\ Fits s' /\ (forall r, read_buffer s = Some r -> r_is_flush r = true -> read_buffer s' = None)) Prefix.
Proof.
  intros He Hi Hp. unfold take_read_buffer. go. change (id s) with s. destruct (read_buffer s) as [r|] eqn:Er.
  2:{ apply run_ret. split; [done|]. split; [apply same_refl|]. split; [by unfold Fits; rewrite Er|done]. }
  go. set (s0 := set_read_buffer None s). assert (Inv (r :: extra) s0) as Hi0 by (apply (inv_spread extra); [by unfold reads; rewrite Er|done]).
  assert (Same s s0) as Hs0 by done. destruct (plugin s) as [p|] eqn:Ep; [|done].
  assert (plugin s0 <> None) as Hp0 by (change (plugin s <> None); by rewrite Ep).
  pose proof (inv_reads _ _ _ _ Hi0) as Hrs. apply Forall_cons in Hrs as [Hg _]. pose proof (rb_len r Hg) as [Hv Hz0].
  pose proof (inv_kind _ _ _ _ Hi0) as Hk. apply Forall_cons in Hk as [Hk _].
  go. destruct (Z.leb_spec (read_remaining r) 0) as [Hz|Hz].
  { destruct (r_is_flush r) eqn:Hfl.
    - apply run_ret. split; [by apply (inv_drop r)|]. by split.
    - apply run_modify. assert (set_read_buffer (Some r) s0 = s) as -> by (subst s0; destruct s; cbn in *; by subst). split; [done|]. split; [apply same_refl|]. split; [|intros r' [= <-]; congruence].
      unfold Fits. rewrite Er. pose proof (eg_read e S0 T0 He). unfold kind_ok in Hk. unfold fits, read_is_file, room_of, read_max_size.
      split; [|split; [left; lia|]]; destruct (r_data r) as [b|u|f]; try done; [destruct Hk; congruence|change (0 <=? 0) with true; cbv iota; lia| |destruct Hk; congruence].
      destruct (Z.leb_spec (u_max_size u) 0); lia. }
  destruct (may_wait e r p s && (read_remaining r <? min_read_buffer_size (cs e)) && negb (delay_ok s)) eqn:Ew.
  { apply andb_true_iff in Ew as [[Ew Hlt%Z.ltb_lt]%andb_true_iff _]. pose proof (eg_min e S0 T0 He).
    destruct (waits_fits _ r p s He Ew Hk Hg ltac:(lia)) as [Hf Hfl]. eapply run_mono; [exact (hold_ok extra r s0 Hi0 eq_refl Hf)| |done].
    intros [] s1 (Hi1 & Hs1 & Hf1). split; [done|]. split; [exact (same_trans s s0 s1 Hs0 Hs1)|]. split; [done|]. intros r' [= <-]. congruence. }
  destruct (r_is_cache r || read_is_file r) eqn:Ec.
  { eapply run_mono; [exact (take_cached_ok extra r s0 He Hi0 eq_refl Hp0 Hz)| |done]. intros [] s1 (Hi1 & Hs1 & Er1). unfold Fits. rewrite Er1. split; [done|]. split; [exact (same_trans s s0 s1 Hs0 Hs1)|done]. }
  apply orb_false_iff in Ec as [Ec Ef]. assert (read_good r) as Hg' by (unfold rb_good in Hg; unfold read_is_file in Ef; by destruct (r_data r)).
  eapply run_then; [exact (page_cut_ok extra r s0 He Hi0 eq_refl Hp0 Hg' Ec Hz)| |done].
  intros cut s1 [Hs1 Hc]. pose proof (same_trans s s0 s1 Hs0 Hs1) as Hs1'. destruct cut as [a|].
  - destruct Hc as (Hi1 & Hp1 & Hga & Hca & Hza & Hfl & Hb). destruct (plugin s1) as [p1|] eqn:Ep1; [|done].
    eapply run_mono; [by apply (to_tmp_file_ok extra a p1 s1)| |done]. intros [] s2 (Hi2 & Hs2 & Er2 & Eb2).
    split; [done|]. split; [by apply (same_trans s s1)|]. split; [|intros r' [= <-] Hfl'; by rewrite Er2, Hfl].
    unfold Fits. rewrite Er2. destruct (read_buffer s1) as [b|]; [|done]. destruct Hb as (B1 & B2 & B3 & B4). split; [done|]. split; [|done]. right.
    rewrite Eb2, B2, Hca. change (eqb false false) with true. cbv iota. lia.
  - destruct Hc as (Hfl & Hi1 & Hf1). apply run_ret. split; [done|]. split; [done|]. split; [done|]. intros r' [= <-]. congruence.
Qed.

(** What a turn of the writing side leaves, and a flag of what it took. *)
Lemma tmp_handle_run_ok extra (s : S) : env_good e S0 T0 -> Inv extra s ->
  run (tmp_handle_run e) s (fun status s' => good_or_broken S0 T0 extra s' status /\ Same s s' /\ Fits s' /\
    (forall r, read_buffer s = Some r -> r_is_flush r = true -> read_buffer s' = None)) Prefix.
Proof.
  intros He Hi. unfold tmp_handle_run. eapply run_then; [by apply (plugin_turn_ok extra s Hi)| |done]. intros [] s1 (Hi1 & Hs1 & Er1 & Eb1 & Hp1).
  eapply run_then; [by apply (take_read_buffer_ok extra s1 He Hi1 Hp1)| |done]. intros [] s2 (Hi2 & Hs2 & Hf2 & Hfl2). go. change (id s2) with s2.
  eapply run_mono; [apply (write_out_ok e S0 T0 extra He _ s2 Hi2), (out_rounds_ok S0 T0 extra), Hi2| |done]. intros status s3 (Hg3 & Hb3).
  split; [done|]. split; [apply (same_trans s s1 s3 Hs1), (same_trans s1 s2 s3 Hs2), grown_same, Hg3|]. split.
  - apply (fits_grown s2); [apply Hg3|apply Hg3|done].
  - intros r Er Hfl. rewrite (gr_read_buffer _ _ Hg3). apply (Hfl2 r); [by rewrite Er1|done].
Qed.
End take.
