(* ===== verification/StreamRelayEnd.v ===== *)
(** A direction of a connection from its first read to its end: the reads
    within the limits, the loops of [stream_stream_cache.rs] and
    [stream_stream_memory.rs], closing, and what holds of all their runs. *)
From S2P Require Import Prelude StreamBuf StreamBufSpec StreamDeque StreamCopy StreamRelay StreamTake.
From S2P Require FileCache CacheFile.
#[local] Open Scope string_scope.
#[local] Open Scope list_scope.
#[local] Open Scope Z_scope.

Section ends.
Context {R W : Type} `{AsyncReader R} `{AsyncWriter W} {tmp : list FileExt} `{!ReaderLaws R tmp} `{!WriterLaws W}.
Context (e : StreamEnv) (S0 T0 : Z).
Abbreviation S := (Share R W).
Abbreviation Inv := (Inv S0 T0).
Abbreviation Fits := (Fits e).

(** ** What a read brings *)

Lemma inv_read l k ps r' (s : S) : Inv l s -> read_buffer s = None -> reader_good r' -> sent r' = sent (reader s) ++ ps ->
  is_read_msg r' = is_read_msg (reader s) -> Forall (@piece_ok (files_of s)) ps -> views (files_of s) k = views (files_of s) l ++ @content (files_of s) ps ->
  Forall (@rb_good (files_of s)) k -> Forall (kind_ok (is_read_msg (reader s))) k -> sizes k = sizes l + pieces_len ps ->
  (is_read_msg (reader s) = false -> is_stream_cache s = true -> forall c, reads_held c k <= budget s c) -> Inv k (set_reader r' s).
Proof.
  intros [i1 i2 i3 i4 i5 i6 i7 i8 i9 ik i10 i11] Er Hr Es Em Hp Hv Hg Hk Hz Hb. pose proof (reads_none l s Er) as El.
  assert (reads (set_reader r' s) k = k) as Ek by (by apply reads_none). rewrite El in *.
  assert (pieces_len (sent r') = pieces_len (sent (reader s)) + pieces_len ps) as Ez by (unfold pieces_len; by rewrite Es, fmap_app, zsum_app).
  split; rewrite ?Ek; try done.
  - change (Forall (@piece_ok (files_of s)) (sent r')). rewrite Es. by apply Forall_app.
  - change (@content (files_of s) (sent r') = @content (files_of s) (received (writer s)) ++ @writes_view (files_of s) (stock s) ++ views (files_of s) k).
    by rewrite Es, content_app, i6, Hv, <- !app_assoc.
  - by destruct i8.
  - intros p Ep. specialize (i9 p Ep). change (0 <= fw_seek p /\ fw_seek p + sizes k <= pieces_len (sent r')). lia.
  - change (Forall (kind_ok (is_read_msg r')) k). by rewrite Em.
  - destruct i11 as [B1 B2 B3 B4]. rewrite El in *. split; rewrite ?Ek; try done;
      [change (S0 - (pieces_len (sent r') - sizes k) <= stream_cache_size s <= S0 + pieces_len (received (writer s))); lia
      |change (T0 - (pieces_len (sent r') - sizes k) <= tmp_file_size s <= T0 + pieces_len (received (writer s))); lia|].
    change (is_read_msg r' = false -> is_stream_cache s = true -> (forall c, budget s c + held c (stock s) = if c then S0 else T0) /\ Forall file_uncached (stock s) /\ (forall c, reads_held c k <= budget s c)).
    rewrite Em. intros Hm Hc. destruct (B4 Hm Hc) as (C1 & C2 & C3). by split_and!; [..|apply Hb].
Qed.

(** A read that brings nothing. *)
Lemma inv_same_sent l r' (s : S) : Inv l s -> read_buffer s = None -> reader_good r' -> sent r' = sent (reader s) -> is_read_msg r' = is_read_msg (reader s) -> Inv l (set_reader r' s).
Proof.
  intros Hi Er Hr Es Em. pose proof (reads_none l s Er) as El.
  pose proof (inv_reads _ _ _ _ Hi) as Hg. pose proof (inv_kind _ _ _ _ Hi) as Hk. rewrite El in Hg, Hk.
  apply (inv_read l l [] r' s); try done; [by rewrite app_nil_r|by rewrite app_nil_r|unfold pieces_len, zsum; cbn; lia|].
  intros Hm Hc. destruct (bu_bytes _ _ _ _ (inv_budget _ _ _ _ Hi) Hm Hc) as (_ & _ & C3). by rewrite El in C3.
Qed.

Lemma msg_file_piece (s : S) f : tmp_good (tmp:=tmp) s -> msg_file_ok tmp f -> @file_good (files_of s) f.
Proof.
  intros [t1 t2 t3] (H1 & H2 & H3 & H4 & H5). split; [done|]. split; [done|]. split; [done|]. split; [done|]. split; [done|]. split; [done|]. split.
  - intros u k Eu E. destruct (t3 u k Eu) as [H6 _]. congruence.
  - intros H6. by apply H5, t2.
Qed.

(** The buffers a read hands on: all but the last are to be written at once. *)
Fixpoint chained (l : list StreamStreamCacheRead) : Prop :=
  match l with
  | [] | [_] => True
  | b :: l => r_is_flush b = true /\ chained l
  end.

(** A message goes behind what there is; its file comes after it. *)
Lemma got_msg_ok b (s : S) m r' : Inv [b] s -> read_buffer s = None -> is_read_msg (reader s) = true -> read_is_file b = false ->
  reader_good r' -> is_read_msg r' = is_read_msg (reader s) -> msg_ok tmp m -> sent r' = sent (reader s) ++ msg_pieces m ->
  exists bs, (forall s' : S, got_msg b (IoOk m) s' = (Ok bs, s')) /\ Inv bs (set_reader r' s) /\ bs <> [] /\ chained bs.
Proof.
  intros Hi Er Hm Hf Hr Em [Hd Hmf] Es. pose proof (inv_kind _ _ _ _ Hi) as Hk. rewrite reads_none in Hk by done. apply Forall_inv in Hk.
  pose proof (inv_reads _ _ _ _ Hi) as Hg. rewrite reads_none in Hg by done. apply Forall_inv in Hg.
  unfold kind_ok in Hk. unfold read_is_file in Hf. unfold rb_good, read_good in Hg. destruct b as [[x|u|f] c fl]; cbn in Hf, Hk, Hg; [|by destruct Hk; congruence|done]. clear Hf Hk.
  destruct (bytes_push_back_deque_ok (m_datas m) x Hg Hd) as [Hg' Hv]. pose proof (bg_size _ Hg) as Z1. pose proof (bg_size _ Hg') as Z2.
  rewrite Hv, zlen_app in Z2. set (x' := bytes_push_back_deque (m_datas m) x) in *.
  assert (forall fl' k ps, msg_pieces m = (GBytes <$> m_datas m) ++ ps -> Forall (@piece_ok (files_of s)) ps -> views (files_of s) k = @content (files_of s) ps ->
    Forall (@rb_good (files_of s)) k -> Forall (kind_ok true) k -> sizes k = pieces_len ps -> Inv (mkCacheRead (RBytes x') c fl' :: k) (set_reader r' s)) as Hnew.
  { intros fl' k ps E1 E2 E3 E4 E5 E6. apply (inv_read [mkCacheRead (RBytes x) c fl] _ (msg_pieces m)); try done.
    - rewrite E1. apply Forall_app. split; [|done]. apply Forall_fmap, Forall_forall. done.
    - rewrite E1, content_app, content_bytes, !views_cons, E3. unfold rb_view, read_view. cbn [r_data]. rewrite Hv. change (views (files_of s) []) with (@nil Z). by rewrite app_nil_r, <- app_assoc.
    - by constructor.
    - rewrite Hm. by constructor.
    - rewrite !sizes_cons, E6, E1. change (sizes []) with 0. unfold read_remaining, pieces_len. cbn [r_data]. rewrite fmap_app, zsum_app, Z2, Z1.
      assert (zsum ((fun p => match p with GBytes l => zlen l | GFile _ _ n => n end) <$> (GBytes <$> m_datas m)) = zlen (concat (m_datas m))) as ->; [|lia].
      change (pieces_len (GBytes <$> m_datas m) = zlen (concat (m_datas m))). rewrite <- (content_bytes (H:=files_of s)). symmetry. apply content_len. apply Forall_fmap, Forall_forall. done.
    - congruence. }
  unfold got_msg. destruct (m_file m) as [f|] eqn:Ef.
  - eexists. split; [intros s'; unfold mbind, stm_bind, on_local, push_back_ream_msg; cbn; rewrite Ef; reflexivity|]. split; [|done].
    apply (Hnew true [mkCacheRead (RFile f) c true] [GFile (f_file f) (f_seek f) (f_size f)]); [unfold msg_pieces; by rewrite Ef|..];
      pose proof (msg_file_piece s f (inv_tmp _ _ _ _ Hi) Hmf) as Hfg.
    + apply Forall_singleton. destruct Hfg as (? & ? & ? & ? & ?). by split_and!.
    + done.
    + by apply Forall_singleton.
    + by apply Forall_singleton.
    + done.
  - eexists. split; [intros s'; unfold mbind, stm_bind, on_local, push_back_ream_msg; cbn; rewrite Ef; reflexivity|]. split; [|done].
    apply (Hnew fl [] []); [unfold msg_pieces; by rewrite Ef|done..].
Qed.

(** ** The room a read may fill *)

Definition is_buffer (b : StreamStreamCacheRead) (room : Z) : Prop := exists u, r_data b = RBuffer u /\ room = u_max_size u - u_size u.

(** What is read into, and how far: more than nothing, and within the budget. *)
Record Room (s : S) (b : StreamStreamCacheRead) (room : Z) : Prop := {
  ro_good : read_good b;
  ro_pos : 0 < room < 2 ^ 62;
  ro_kind : kind_ok (is_read_msg (reader s)) b;
  ro_buffer : is_read_msg (reader s) = false -> is_buffer b room;
  ro_budget : read_remaining b + room <= budget s (r_is_cache b);
  ro_inv : Inv [b] (set_read_buffer None s)
}.

Definition max_of (b : StreamStreamCacheRead) : Z := room_of e b.

Definition shrunk (limit : Z) (c : bool) (b : StreamStreamCacheRead) : StreamStreamCacheRead * Z :=
  let b' := set_r_is_cache c b in
  if limit <? max_of b then (read_resize_max_size (wrap64 limit) b', swrap64 (limit - read_remaining b)) else (b', swrap64 (max_of b - read_remaining b)).

Lemma shrunk_ok c b (s : S) : env_good e S0 T0 -> Inv [b] (set_read_buffer None s) -> read_good b -> read_remaining b < max_of b < 2 ^ 62 ->
  read_remaining b < budget s c < 2 ^ 63 -> read_remaining b = 0 \/ r_is_cache b = c -> Room s (shrunk (budget s c) c b).1 (shrunk (budget s c) c b).2.
Proof.
  intros He Hi Hg Hm Hl Hc. pose proof (eg_read e S0 T0 He) as Hrb. pose proof (inv_kind _ _ _ _ Hi) as Hk. rewrite reads_none in Hk by done. apply Forall_inv in Hk.
  change (kind_ok (is_read_msg (reader s)) b) in Hk. pose proof (read_remaining_view b Hg) as Hv. pose proof (zlen_nonneg (read_view b)).
  assert (forall b' room, read_good b' -> read_view b' = read_view b -> read_remaining b' = read_remaining b -> r_is_cache b' = c -> kind_ok (is_read_msg (reader s)) b' ->
    0 < room < 2 ^ 62 -> read_remaining b + room <= budget s c -> (is_read_msg (reader s) = false -> is_buffer b' room) -> Room s b' room) as Hroom.
  { intros b' room G1 G2 G3 G4 G5 G6 G7 G8. split; try done; [by rewrite G3, G4|]. apply (inv_swap S0 T0 [b]); try done.
    - apply Forall_singleton. by apply good_view.
    - rewrite !views_cons. by rewrite (proj2 (good_view b' G1 _)), (proj2 (good_view b Hg _)), G2.
    - by apply Forall_singleton.
    - by rewrite !sizes_cons, G3.
    - intros c'. rewrite !reads_held_cons, G3, G4. destruct Hc as [E|E]; rewrite E; [by destruct (eqb c c'), (eqb (r_is_cache b) c')|done]. }
  assert (forall c', kind_ok c' (set_r_is_cache c b) = kind_ok c' b /\ read_good (set_r_is_cache c b) = read_good b /\ read_view (set_r_is_cache c b) = read_view b /\ read_remaining (set_r_is_cache c b) = read_remaining b) as Hset by done.
  unfold shrunk. destruct (Z.ltb_spec (budget s c) (max_of b)) as [Hlt|Hlt]; cbn [fst snd]; rewrite ?swrap64_id by lia.
  - rewrite wrap_id by (unfold in_width; lia). destruct (read_resize_ok (set_r_is_cache c b) (budget s c) Hg ltac:(lia) ltac:(change (read_remaining b <= budget s c); lia)) as (R1 & R2 & R3 & R4 & R5 & R6 & R7 & R8).
    apply Hroom; try done; [apply R7; [lia|done]|lia|lia|]. intros Em. unfold kind_ok in Hk. rewrite Em in Hk. unfold read_resize_max_size, is_buffer, set_r_is_cache, read_remaining in *.
    destruct b as [[x|u|f] cb fl]; cbn in *; [done| |by destruct Hk]. eexists. split; [reflexivity|]. destruct (buffer_resize_ok (budget s c) u Hg ltac:(lia)) as (_ & _ & -> & ->). destruct (Z.ltb_spec (budget s c) (u_size u)); lia.
  - apply Hroom; try done; [lia|lia|]. intros Em. unfold kind_ok in Hk. rewrite Em in Hk. unfold is_buffer, max_of, room_of, read_max_size, read_remaining, set_r_is_cache in *.
    destruct b as [[x|u|f] cb fl]; cbn in *; [done| |by destruct Hk]. exists u. split; [done|]. destruct (Z.leb_spec (u_max_size u) 0); [lia|done].
Qed.

Lemma budget_small l (s : S) c : env_good e S0 T0 -> Inv l s -> budget s c < 2 ^ 63.
Proof.
  intros He Hi. pose proof (inv_lengths _ _ _ _ Hi). pose proof (inv_budget _ _ _ _ Hi) as [B1 B2 B3 B4]. pose proof (eg_cache e S0 T0 He). pose proof (eg_tmp e S0 T0 He).
  destruct c; cbn; lia.
Qed.

(** The buffer a read starts with: what waits, or a new one. *)
Definition start_buffer (s : S) : StreamStreamCacheRead :=
  match read_buffer s with
  | Some r => r
  | None => if is_read_msg (reader s) then read_from_bytes bytes_new else read_from_buffer (buffer_new (read_buffer_size (cs e)))
  end.

Lemma start_buffer_ok (s : S) : env_good e S0 T0 -> Inv [] s -> Fits s ->
  let b := start_buffer s in
  Inv [b] (set_read_buffer None s) /\ read_good b /\ (read_remaining b = 0 \/ read_remaining b < budget s (r_is_cache b)) /\ read_remaining b < max_of b < 2 ^ 62.
Proof.
  intros He Hi Hf b. pose proof (eg_read e S0 T0 He) as Hrb.
  assert (Inv [b] (set_read_buffer None s) /\ read_good b /\ (read_remaining b = 0 \/ read_remaining b < budget s (r_is_cache b)) /\ read_remaining b < max_of b /\ kind_ok (is_read_msg (reader s)) b) as (H1 & H2 & H3 & H4 & H5).
  { subst b. unfold start_buffer, StreamTake.Fits in *. destruct (read_buffer s) as [r|] eqn:Er.
    - destruct Hf as (F1 & F2 & F3). pose proof (inv_reads _ _ _ _ Hi) as Hg. pose proof (inv_kind _ _ _ _ Hi) as Hk. unfold reads in Hg, Hk. rewrite Er in Hg, Hk.
      apply Forall_inv in Hg, Hk. split; [apply (inv_spread S0 T0 []); [unfold reads; by rewrite Er|done]|]. split; [|by split_and!]. unfold rb_good in Hg. unfold read_is_file in F1. by destruct (r_data r).
    - assert (Inv [] (set_read_buffer None s)) as Hi0 by (apply (inv_spread S0 T0 []); [unfold reads; by rewrite Er|done]).
      destruct (is_read_msg (reader s)) eqn:Em.
      + assert (kind_ok (is_read_msg (reader s)) (read_from_bytes bytes_new)) as Hk by (by rewrite Em).
        split; [apply inv_empty; try done; exact (fun _ => bytes_new_good)|]. split; [exact bytes_new_good|]. split; [by left|]. rewrite Em in Hk. split; [|done]. unfold max_of, room_of. cbn. lia.
      + destruct (buffer_new_good (read_buffer_size (cs e)) ltac:(lia)) as [Hg _]. assert (kind_ok (is_read_msg (reader s)) (read_from_buffer (buffer_new (read_buffer_size (cs e))))) as Hk by (rewrite Em; cbn; by split).
        split; [apply inv_empty; try done|]. split; [done|]. split; [by left|]. rewrite Em in Hk. split; [|done]. unfold max_of, room_of. cbn. destruct (Z.leb_spec (read_buffer_size (cs e)) 0); lia. }
  split_and!; try done. unfold max_of, room_of, kind_ok, read_max_size in *. destruct (r_data b); [cbn; lia| |cbn; lia]. destruct (Z.leb_spec (u_max_size u) 0); lia.
Qed.

Lemma read_room_ok (s : S) : env_good e S0 T0 -> Inv [] s -> Fits s -> 0 < stream_cache_size s \/ 0 < tmp_file_size s ->
  exists b room, read_room e s = (Ok (b, room), set_read_buffer None s) /\ Room s b room.
Proof.
  intros He Hi Hf Hb. destruct (start_buffer_ok s He Hi Hf) as (Hi0 & Hg & Hr & Hm). set (b := start_buffer s) in *.
  pose proof (read_remaining_view b Hg) as Hv. pose proof (zlen_nonneg (read_view b)). pose proof (budget_small [] s true He Hi) as Hc1. pose proof (budget_small [] s false He Hi) as Hc2. cbn in Hc1, Hc2.
  assert (- 2 ^ 63 <= read_max_size b < 2 ^ 63) as Hmx.
  { pose proof (inv_kind _ _ _ _ Hi0) as Hk. apply Forall_inv in Hk. unfold kind_ok in Hk. unfold read_max_size. destruct (r_data b); lia. }
  pose proof (eg_read e S0 T0 He).
  assert (forall c, read_remaining b < budget s c -> read_remaining b = 0 \/ r_is_cache b = c -> Room s (shrunk (budget s c) c b).1 (shrunk (budget s c) c b).2) as Hs.
  { intros c Hlt Hc. apply shrunk_ok; try done. split; [done|]. by destruct c. }
  unfold read_room. rewrite (stm_step _ _ _ s s) by done. cbv zeta. fold (start_buffer s). fold b. rewrite (stm_step _ _ _ tt (set_read_buffer None s)) by done.
  rewrite (swrap64_id (read_remaining b)), (swrap64_id (read_max_size b)), (swrap64_id (read_buffer_size (cs e))) by lia.
  change (if read_max_size b <=? 0 then read_buffer_size (cs e) else read_max_size b) with (max_of b).
  destruct ((stream_cache_size s <=? read_remaining b) && (tmp_file_size s <=? read_remaining b)) eqn:E1.
  { apply andb_true_iff in E1 as [E1%Z.leb_le E2%Z.leb_le]. destruct (r_is_cache b); cbn in Hr; lia. }
  destruct ((0 <? stream_cache_size s) && (read_remaining b <? stream_cache_size s) && ((read_remaining b =? 0) || (0 <? read_remaining b) && r_is_cache b)) eqn:E2.
  { apply andb_true_iff in E2 as [[E2 E3%Z.ltb_lt]%andb_true_iff E4]. exists (shrunk (budget s true) true b).1, (shrunk (budget s true) true b).2.
    split; [unfold shrunk; cbn [budget]; by destruct (stream_cache_size s <? max_of b)|]. apply (Hs true E3).
    apply orb_true_iff in E4 as [E4%Z.eqb_eq|[_ E4]%andb_true_iff]; [by left|by right]. }
  destruct ((0 <? tmp_file_size s) && (read_remaining b <? tmp_file_size s) && ((read_remaining b =? 0) || (0 <? read_remaining b) && negb (r_is_cache b))) eqn:E3.
  { apply andb_true_iff in E3 as [[_ E3%Z.ltb_lt]%andb_true_iff E4]. exists (shrunk (budget s false) false b).1, (shrunk (budget s false) false b).2.
    split; [unfold shrunk; cbn [budget]; by destruct (tmp_file_size s <? max_of b)|]. apply (Hs false E3).
    apply orb_true_iff in E4 as [E4%Z.eqb_eq|[_ E4%negb_true_iff]%andb_true_iff]; [by left|by right]. }
  exfalso. destruct (r_is_cache b); cbn in Hr, E2, E3; rewrite ?andb_true_r, ?andb_false_r, ?orb_false_r in E2, E3; lia.
Qed.

(** ** Reading *)

Lemma got_bytes_ok b u (s : S) l r' : r_data b = RBuffer u -> buffer_good u -> 0 < u_max_size u < 2 ^ 62 -> Inv [b] s -> read_buffer s = None ->
  is_read_msg (reader s) = false -> zlen l <= u_max_size u - u_size u ->
  reader_good r' -> is_read_msg r' = is_read_msg (reader s) -> sent r' = sent (reader s) ++ [GBytes l] ->
  (is_stream_cache s = true -> read_remaining b + zlen l <= budget s (r_is_cache b)) ->
  exists bs, (forall s' : S, got_bytes b (IoOk l) s' = (Ok bs, s')) /\ Inv bs (set_reader r' s) /\ bs <> [] /\ chained bs.
Proof.
  intros Eu Rg Rk Ri Er0 Hm Hl Hr Em Es Hbu. 
  destruct (buffer_read_ok u l Rg ltac:(lia)) as (G1 & G2 & G3). set (u' := buffer_add_size (zlen l) (buffer_fill l u)) in *. pose proof (buffer_view_len u Rg) as Z1. pose proof (buffer_view_len u' G1) as Z2.
  rewrite G2, zlen_app, Z1 in Z2. exists [set_r_data (RBuffer u') b]. split; [intros s'; unfold got_bytes, mbind, stm_bind, on_local, read_add; rewrite Eu; reflexivity|]. split; [|done].
  assert (read_remaining (set_r_data (RBuffer u') b) = read_remaining b + zlen l) as Ez by (unfold read_remaining; rewrite Eu; cbn [r_data set_r_data]; lia).
  apply (inv_read [b] _ [GBytes l] r' s Ri); try done.
  - by apply Forall_singleton.
  - rewrite !views_cons, content_one. unfold rb_view, read_view. rewrite Eu. cbn [r_data set_r_data]. rewrite G2. change (views (files_of s) []) with (@nil Z). by rewrite !app_nil_r.
  - by apply Forall_singleton.
  - apply Forall_singleton. unfold kind_ok. cbn [r_data set_r_data]. rewrite G3. done.
  - change (read_remaining (set_r_data (RBuffer u') b) + 0 = read_remaining b + 0 + pieces_len [GBytes l]). rewrite Ez. unfold pieces_len, zsum. cbn. lia.
  - intros _ Hc c. destruct (bu_bytes _ _ _ _ (inv_budget _ _ _ _ Ri) Hm Hc) as (_ & _ & C3). specialize (C3 c). specialize (Hbu Hc). rewrite reads_none in C3 by done.
    rewrite reads_held_cons in C3. rewrite reads_held_cons. change (reads_held c []) with 0 in *. rewrite Ez. change (r_is_cache (set_r_data (RBuffer u') b)) with (r_is_cache b).
    destruct (eqb (r_is_cache b) c) eqn:E; rewrite ?E in C3; [|lia]. apply eqb_prop in E. rewrite <- E in *. lia.
Qed.

(** What a read leaves: the buffers to hand on. *)
Definition has_read (s : S) (bs : list StreamStreamCacheRead) (s' : S) : Prop :=
  Inv bs s' /\ bs <> [] /\ chained bs /\ read_buffer s' = None /\ closing s' = closing s /\ is_stream_cache s' = is_stream_cache s.

Lemma has_read_one b r' (s s0 : S) : Inv [b] s0 -> read_buffer s0 = None -> closing s0 = closing s -> is_stream_cache s0 = is_stream_cache s ->
  reader_good r' -> sent r' = sent (reader s0) -> is_read_msg r' = is_read_msg (reader s0) -> has_read s [b] (set_reader r' s0).
Proof. intros Hi Er Ec Et Hr Es Em. split; [by apply inv_same_sent|]. by split_and!. Qed.

Lemma read_failed_ok {A} b (r : io A) (s s1 : S) : has_read s [b] s1 -> (forall a, r <> IoOk a) -> run (read_failed b r) s1 (has_read s) Prefix.
Proof.
  intros (Hi & H1 & H2 & H3 & H4 & H5) Hr. destruct r as [a| |x]; [by destruct (Hr a)|..].
  - go. apply run_ret. split; [|done]. apply (inv_core S0 T0 [b] s1); [by destruct s1|done].
  - exact (inv_prefix S0 T0 [b] s1 Hi).
Qed.

Lemma cache_read_ok status (s : S) : env_good e S0 T0 -> Inv [] s -> Fits s -> 0 < stream_cache_size s \/ 0 < tmp_file_size s ->
  run (cache_read e status) s (has_read s) Prefix.
Proof.
  intros He Hi Hf Hb. destruct (read_room_ok s He Hi Hf Hb) as (b & room & Er & HR). pose proof HR as [Rg Rp Rk Rb Rbu Ri]. unfold cache_read. go by exact Er. go.
  set (s0 := set_read_buffer None s) in *. change (reader s0) with (reader s). pose proof (inv_reader _ _ _ _ Hi) as Hrg.
  rewrite wrap_id by (unfold in_width; lia). destruct (is_read_msg (reader s)) eqn:Em.
  - assert (read_is_file b = false) as Hf' by (unfold kind_ok in Rk; unfold read_good in Rg; unfold read_is_file; by destruct (r_data b)).
    assert (forall (m : io StreamReadMsg) r', reader_good r' -> is_read_msg r' = is_read_msg (reader s) ->
      match m with IoOk m => msg_ok tmp m /\ sent r' = sent (reader s) ++ msg_pieces m | _ => sent r' = sent (reader s) end -> run (got_msg b m) (set_reader r' s0) (has_read s) Prefix) as Hgot.
    { intros m r' G1 G2 G3. destruct m as [m| |x].
      - destruct G3 as [G3 G4]. destruct (got_msg_ok b s0 m r' Ri eq_refl Em Hf' G1 G2 G3 G4) as (bs & Eg & K1 & K2 & K3).
        unfold run. rewrite Eg. by split_and!.
      - apply (read_failed_ok b (@IoReset StreamReadMsg) s); [by apply has_read_one|done].
      - apply (read_failed_ok b (@IoErr StreamReadMsg x) s); [by apply has_read_one|done]. }
    destruct (read_waits status).
    + pose proof (select_read_msg_law room (reader s) Hrg) as Hl. destruct (select_read_msg room (reader s)) as [m r'] eqn:El.
      go by (unfold on_reader; change (reader s0) with (reader s); rewrite El; reflexivity). destruct Hl as (G1 & G2 & G3). destruct m as [m|]; [by apply Hgot|].
      apply run_ret. by apply has_read_one; rewrite ?Em.
    + pose proof (try_read_msg_law room (reader s) Hrg) as Hl. destruct (try_read_msg room (reader s)) as [m r'] eqn:El.
      go by (unfold on_reader; change (reader s0) with (reader s); rewrite El; reflexivity). destruct Hl as (G1 & G2 & G3). by apply Hgot.
  - destruct (Rb eq_refl) as (u & Eu & Eroom). pose proof Rg as Rg'. unfold read_good in Rg'. rewrite Eu in Rg'.
    go by (unfold lift, buf; rewrite Eu; reflexivity). go by (unfold lift; rewrite (free_data_mut_ok u Rg'), <- Eroom; reflexivity).
    assert (forall (m : io (list Z)) r', reader_good r' -> is_read_msg r' = is_read_msg (reader s) ->
      match m with IoOk l => zlen l <= room /\ sent r' = sent (reader s) ++ [GBytes l] | _ => sent r' = sent (reader s) end -> run (got_bytes b m) (set_reader r' s0) (has_read s) Prefix) as Hgot.
    { intros m r' G1 G2 G3. destruct m as [l| |x].
      - destruct G3 as [G3 G4]. unfold kind_ok in Rk. rewrite Eu in Rk. destruct (got_bytes_ok b u s0 l r' Eu Rg' (proj2 Rk) Ri eq_refl Em ltac:(lia) G1 G2 G4) as (bs & Eg & K1 & K2 & K3).
        { intros _. change (budget s0 (r_is_cache b)) with (budget s (r_is_cache b)). lia. }
        unfold run. rewrite Eg. by split_and!.
      - apply (read_failed_ok b (@IoReset (list Z)) s); [by apply has_read_one|done].
      - apply (read_failed_ok b (@IoErr (list Z) x) s); [by apply has_read_one|done]. }
    destruct (read_waits status).
    + pose proof (select_read_law room (reader s) Hrg ltac:(lia)) as Hl. destruct (select_read room (reader s)) as [m r'] eqn:El.
      go by (unfold on_reader; change (reader s0) with (reader s); rewrite El; reflexivity). destruct Hl as (G1 & G2 & G3). destruct m as [m|]; [by apply Hgot|].
      apply run_ret. by apply has_read_one; rewrite ?Em.
    + pose proof (try_read_law room (reader s) Hrg ltac:(lia)) as Hl. destruct (try_read room (reader s)) as [m r'] eqn:El.
      go by (unfold on_reader; change (reader s0) with (reader s); rewrite El; reflexivity). destruct Hl as (G1 & G2 & G3). by apply Hgot.
Qed.

(** ** Closing *)

Lemma prefix_same (s s' : S) : files_of s' = files_of s -> reader s' = reader s -> received (writer s') = received (writer s) -> Prefix s -> Prefix s'.
Proof. intros E1 E2 E3 [rest E]. exists rest. by rewrite E1, E2, E3. Qed.

(** [close_with] flushes, shuts down and ends with the error. *)
Lemma close_with_ok x (s : S) :
  exists w, received w = received (writer s) /\ close_with e x s = (Err x, set_writer w s).
Proof.
  unfold close_with, mbind, stm_bind, on_writer. pose proof (flush_law (writer s)) as Hf. destruct (flush (writer s)) as [r w]. cbn in Hf.
  destruct (close_type e); cbn; [exists w; by destruct s| |exists w; by destruct s]. exists (shutdown w). rewrite shutdown_law. by destruct s.
Qed.

Definition ends_with (s : S) : option string :=
  match write_err s with Some x => Some x | None => if is_read_empty s && is_write_empty s then read_err s else None end.

(** A direction that does not wait ends when it cannot write, or when it
    cannot read and has written everything. *)
Lemma close_direct (s : S) : match ends_with s with
  | Some x => exists w s0, received w = received (writer s) /\ (s0 = set_write_err None s \/ s0 = set_read_err None s) /\
      (x ← close_now; match x with Some x => close_with e x | None => mret tt end) s = (Err x, set_writer w s0)
  | None => (x ← close_now; match x with Some x => close_with e x | None => mret tt end) s = (Ok tt, s)
  end.
Proof.
  unfold ends_with. assert (forall x s0, close_now s = (Ok (Some x), s0) -> received (writer s0) = received (writer s) ->
    exists w, received w = received (writer s) /\ (x ← close_now; match x with Some x => close_with e x | None => mret tt end) s = (Err x, set_writer w s0)) as Hc.
  { intros x s0 E1 E2. destruct (close_with_ok x s0) as (w & Ew & E). exists w. split; [congruence|]. by rewrite (stm_step _ _ _ _ _ E1). }
  unfold close_now in Hc |- *. destruct (write_err s) as [x|] eqn:Ew.
  - destruct (Hc x (set_write_err None s)) as (w & H1 & H2); [by unfold gets, mbind, stm_bind, id; rewrite Ew|done|]. exists w, (set_write_err None s). by split_and!; [|left|].
  - destruct (read_err s) as [x|] eqn:Er; destruct (is_read_empty s && is_write_empty s) eqn:Ee;
      try (unfold mbind, stm_bind, gets, id; rewrite Ew, Er, ?Ee; done).
    destruct (Hc x (set_read_err None s)) as (w & H1 & H2); [by unfold gets, mbind, stm_bind, id; rewrite Ew, Er, Ee|done|]. exists w, (set_read_err None s). by split_and!; [|right|].
Qed.

Lemma prefix_err (s s0 : S) w : Prefix s -> received w = received (writer s) -> s0 = set_write_err None s \/ s0 = set_read_err None s -> Prefix (set_writer w s0).
Proof. intros Hp Hw [-> | ->]; by apply (prefix_same s). Qed.

Lemma close_round_ok (s : S) : Prefix s -> run close_round s (fun _ s' => s' = s) Prefix.
Proof.
  intros Hp. unfold close_round. go. change (id s) with s. destruct (2 <=? close_num s); [|by apply run_ret].
  destruct (write_err s); [by apply (prefix_same s)|]. destruct (read_err s); [by apply (prefix_same s)|by apply run_ret].
Qed.

(** What a check for closing leaves: the same state, or a direction that
    waits for the other one. *)
Definition checked extra (s s' : S) : Prop := (closing s' = true /\ Prefix s' /\ is_stream_cache s' = is_stream_cache s) \/ (Inv extra s' /\ s' = s).

Lemma check_stream_close_ok extra status (s : S) : good_or_broken S0 T0 extra s status ->
  run (check_stream_close e status) s (fun _ => checked extra s) Prefix.
Proof.
  intros Hb. pose proof (good_prefix S0 T0 _ _ _ Hb) as Hp.
  assert (close_type e <> WaitEmpty -> run (x ← close_now; match x with Some x => close_with e x | None => mret tt end) s (fun _ => checked extra s) Prefix) as Hd.
  { intros _. pose proof (close_direct s) as Hc. unfold run. destruct (ends_with s) as [x|] eqn:Ee.
    - destruct Hc as (w & s0 & Hw & Hs0 & ->). by apply (prefix_err s s0 w).
    - rewrite Hc. right. split; [|done]. destruct Hb as [Hi|[[Hb _] _]]; [done|]. unfold ends_with in Ee. by destruct (write_err s). }
  unfold check_stream_close. destruct (close_type e); [by apply Hd..|]. clear Hd. go. change (id s) with s. cbv zeta. case_match eqn:Ec.
  - go. match goal with |- run _ ?x _ _ => set (s1 := x) end. assert (Prefix s1) as Hp1 by (by apply (prefix_same s)).
    eapply run_mono; [by apply close_round_ok| |done]. intros [] s2 ->. left. split; [by destruct s|]. split; [done|by destruct s].
  - apply run_ret. right. split; [|done]. destruct Hb as [Hi|[[Hb _] _]]; [done|]. by destruct (write_err s).
Qed.

(** ** The turns *)

(** Between two turns a direction is in order, or has closed. *)
Definition Good (s : S) : Prop := (closing s = true /\ Prefix s) \/ (closing s = false /\ Inv [] s /\ Fits s).

Lemma good_is_prefix s : Good s -> Prefix s.
Proof. intros [[_ Hp]|(_ & Hi & _)]; [done|]. by apply (inv_prefix S0 T0 []). Qed.

Lemma handle_buffers_ok : env_good e S0 T0 -> forall bs status (s : S), Inv bs s -> closing s = false -> chained bs ->
  (bs = [] -> Fits s) -> (bs <> [] -> read_buffer s = None) ->
  run (handle_buffers e bs status) s (fun _ s' => Good s' /\ is_stream_cache s' = is_stream_cache s) Prefix.
Proof.
  intros He. induction bs as [|b bs IH]; intros status s Hi Hc Hch Hf Hn; cbn [handle_buffers].
  { apply run_ret. split; [|done]. right. split; [done|]. split; [done|by apply Hf]. }
  go. set (s0 := set_read_buffer (Some b) s). assert (Inv bs s0) as Hi0 by (apply (inv_spread S0 T0 (b :: bs)); [unfold reads; cbn; by rewrite Hn|done]).
  eapply run_then; [by apply (tmp_handle_run_ok e S0 T0 bs s0 He Hi0)| |done]. intros st s1 (Hb1 & [_ Hs2 Hs3 _] & Hf1 & Hfl1).
  eapply run_then; [by apply (check_stream_close_ok bs st s1 Hb1)| |done]. intros [] s2 Hk. go. change (id s2) with s2.
  destruct Hk as [(Hk1 & Hk2 & Hk3)|[Hk1 ->]].
  - rewrite Hk1. apply run_ret. split; [by left|]. by rewrite Hk3, Hs3.
  - change (closing s0) with (closing s) in Hs2. rewrite Hs2, Hc. eapply run_mono; [apply (IH st s1 Hk1)| |done].
    + by rewrite Hs2.
    + by destruct bs; [|apply Hch].
    + done.
    + intros Hne. apply (Hfl1 b eq_refl). by destruct bs; [|apply Hch].
    + intros ? s3 [G1 G2]. split; [done|]. rewrite G2, Hs3. done.
Qed.

Lemma cache_turn_ok status (s : S) : env_good e S0 T0 -> Good s -> run (cache_turn e status) s (fun _ s' => Good s' /\ is_stream_cache s' = is_stream_cache s) Prefix.
Proof.
  intros He Hg. unfold cache_turn. go. change (id s) with s. destruct Hg as [[Hc Hp]|(Hc & Hi & Hf)]; rewrite Hc.
  { eapply run_then; [by apply close_round_ok| |done]. intros [] s1 ->. apply run_ret. split; [by left|done]. }
  destruct (((0 <? stream_cache_size s) || (0 <? tmp_file_size s)) && is_none (read_err s)) eqn:Er.
  - apply andb_true_iff in Er as [Er _]. rewrite orb_true_iff, !Z.ltb_lt in Er.
    eapply run_then; [by apply (cache_read_ok status s He Hi Hf Er)| |done]. intros bs s1 (Hi1 & Hn & Hch & Er1 & Hc1 & Ht1).
    eapply run_mono; [by apply (handle_buffers_ok He bs status s1 Hi1); [congruence|..]| |done]. intros ? s2 [G1 G2]. split; [done|congruence].
  - eapply run_then; [by apply (tmp_handle_run_ok e S0 T0 [] s He Hi)| |done]. intros st s1 (Hb1 & [_ Hs2 Hs3 _] & Hf1 & _).
    eapply run_then; [by apply (check_stream_close_ok [] st s1 Hb1)| |done]. intros [] s2 Hk. apply run_ret. destruct Hk as [(Hk1 & Hk2 & Hk3)|[Hk1 ->]].
    + split; [by left|congruence].
    + split; [|done]. right. split; [congruence|done].
Qed.

(** Between the turns of a direction that is kept in memory: before a new
    buffer is worked on there is nothing in the one before. *)
Definition MemGood (phase : MemoryPhase) (s : S) : Prop :=
  is_stream_cache s = false /\
  match phase with
  | Reading => Inv [] (set_read_buffer None s)
  | Buffers l => Inv l (set_read_buffer None s)
  | Writing l => Inv l s \/ broken s
  end.

Lemma mem_prefix phase s : MemGood phase s -> Prefix s.
Proof.
  intros [_ Hg]. destruct phase as [|l|l].
  - exact (inv_prefix S0 T0 _ _ Hg).
  - exact (inv_prefix S0 T0 _ _ Hg).
  - destruct Hg as [Hi|[_ Hp]]; [exact (inv_prefix S0 T0 _ _ Hi)|done].
Qed.

Lemma memory_check_ok (s : S) : Prefix s -> run (memory_check_close e) s (fun _ s' => s' = s /\ write_err s = None) Prefix.
Proof.
  intros Hp. pose proof (close_direct s) as Hc. unfold memory_check_close, run. destruct (ends_with s) as [x|] eqn:Ee.
  - destruct Hc as (w & s0 & Hw & Hs0 & ->). by apply (prefix_err s s0 w).
  - rewrite Hc. split; [done|]. unfold ends_with in Ee. by destruct (write_err s).
Qed.

(** Nothing is left of what was read. *)
Lemma inv_emptied l (s : S) : Inv l s -> is_read_empty s = true -> Inv l (set_read_buffer None s).
Proof.
  intros Hi Hr. unfold is_read_empty in Hr. destruct (read_buffer s) as [r|] eqn:Er.
  - apply (inv_drop S0 T0 r l); [|done|lia]. apply (inv_spread S0 T0 l); [|done]. unfold reads. by rewrite Er.
  - apply (inv_spread S0 T0 l); [|done]. unfold reads. by rewrite Er.
Qed.

Lemma memory_read_ok (s : S) : env_good e S0 T0 -> MemGood Reading s -> run (memory_read e) s (fun bs s' => MemGood (Buffers bs) s') Prefix.
Proof.
  intros He [Hst Hi]. pose proof (eg_read e S0 T0 He) as Hrb. set (s0 := set_read_buffer None s) in *. pose proof (inv_reader _ _ _ _ Hi : reader_good (reader s)) as Hrg.
  assert (forall A b (r : io A) r', Inv [b] s0 -> (forall a, r <> IoOk a) -> reader_good r' -> sent r' = sent (reader s) -> is_read_msg r' = is_read_msg (reader s) ->
    run (read_failed b r) (set_reader r' s) (fun bs s' => MemGood (Buffers bs) s') Prefix) as Hfail.
  { intros A b r r' Hb Hr G1 G2 G3. pose proof (inv_same_sent [b] r' s0 Hb eq_refl G1 G2 G3) as Hb'. destruct r as [a| |x]; [by destruct (Hr a)|..].
    - go. apply run_ret. split; [done|]. by apply (inv_core S0 T0 [b] (set_reader r' s0)).
    - exact (inv_prefix S0 T0 _ _ Hb'). }
  unfold memory_read. go. cbv zeta. destruct (is_read_msg (reader s)) eqn:Em.
  - set (b := mkCacheRead (r_data (read_from_bytes bytes_new)) true true).
    assert (Inv [b] s0) as Hb by (apply inv_empty; [done|done|exact (fun _ => bytes_new_good)|done|by unfold kind_ok]).
    pose proof (read_msg_law (read_buffer_size (cs e)) (reader s) Hrg) as Hl. destruct (read_msg (read_buffer_size (cs e)) (reader s)) as [m r'] eqn:El.
    go by (unfold on_reader; rewrite El; reflexivity). destruct Hl as (G1 & G2 & G3). destruct m as [m| |x]; [|apply (Hfail StreamReadMsg b (@IoReset StreamReadMsg) r' Hb); (done || congruence)|apply (Hfail StreamReadMsg b (@IoErr StreamReadMsg x) r' Hb); (done || congruence)].
    destruct G3 as [G3 G4]. destruct (got_msg_ok b s0 m r' Hb eq_refl Em eq_refl G1 G2 G3 G4) as (bs & Eg & K1 & K2 & K3). unfold run. rewrite Eg. by split.
  - set (u := buffer_new (read_buffer_size (cs e))). set (b := mkCacheRead (r_data (read_from_buffer u)) true true).
    destruct (buffer_new_good (read_buffer_size (cs e)) ltac:(lia)) as [Hg _].
    assert (Inv [b] s0) as Hb by (apply inv_empty; [done|done|by intros F|done|]; unfold kind_ok; cbn; rewrite Em; split; [done|lia]).
    go by (unfold lift; rewrite (free_data_mut_ok u Hg); reflexivity).
    pose proof (read_law (u_max_size u - u_size u) (reader s) Hrg ltac:(cbn; lia)) as Hl. destruct (read (u_max_size u - u_size u) (reader s)) as [m r'] eqn:El.
    go by (unfold on_reader; rewrite El; reflexivity). destruct Hl as (G1 & G2 & G3). destruct m as [l| |x]; [|apply (Hfail (list Z) b (@IoReset (list Z)) r' Hb); (done || congruence)|apply (Hfail (list Z) b (@IoErr (list Z) x) r' Hb); (done || congruence)].
    destruct G3 as [G3 G4]. destruct (got_bytes_ok b u s0 l r' eq_refl Hg ltac:(cbn; lia) Hb eq_refl Em G3 G1 G2 G4) as (bs & Eg & K1 & K2 & K3).
    { change (is_stream_cache s0) with (is_stream_cache s). congruence. }
    unfold run. rewrite Eg. by split.
Qed.

Lemma memory_turn_ok phase (s : S) : env_good e S0 T0 -> MemGood phase s -> run (memory_turn e phase) s (fun p s' => MemGood p s') Prefix.
Proof.
  intros He Hg. pose proof (mem_prefix _ _ Hg) as Hp. destruct phase as [|[|b l]|l]; cbn [memory_turn].
  - eapply run_then; [by apply memory_check_ok| |done]. intros [] s1 [-> _]. eapply run_then; [by apply (memory_read_ok s He Hg)| |done]. intros bs s1 H1. by apply run_ret.
  - by apply run_ret.
  - go. apply run_ret. destruct Hg as [Hst Hi]. split; [done|]. left. by apply (inv_spread S0 T0 (b :: l) l (set_read_buffer None s) (Some b)).
  - eapply run_then; [by apply memory_check_ok| |done]. intros [] s1 [-> Hw]. go. change (id s) with s. destruct Hg as [Hst Hi].
    assert (Inv l s) as Hi' by (destruct Hi as [Hi|[Hb _]]; [done|congruence]). destruct (is_empty s) eqn:Em.
    + apply run_ret. split; [done|]. apply inv_emptied; [done|]. by apply andb_true_iff in Em as [Em _].
    + eapply run_then; [by apply (tmp_handle_run_ok e S0 T0 l s He Hi')| |done]. intros st s1 (Hb1 & [_ _ Hs3 _] & _). apply run_ret.
      split; [by rewrite Hs3|]. destruct Hb1 as [Hb1|[Hb1 _]]; [by left|by right].
Qed.

(** ** Runs of the loops

    Between two turns the timers fire and the other direction closes. *)
Inductive between (s : S) : S -> Prop :=
  | between_second : between s (limit_timeout_reset e s)
  | between_init : between s (delay_init s)
  | between_arm : between s (delay_arm s).2
  | between_fire version : between s (delay_fire version s)
  | between_other : between s (other_closes s).

Inductive cache_step : StreamStatus * S -> StreamStatus * S -> Prop :=
  | cache_step_turn status s status' s' : cache_turn e status s = (Ok status', s') -> cache_step (status, s) (status', s')
  | cache_step_between status s s' : between s s' -> cache_step (status, s) (status, s').

Inductive memory_step : MemoryPhase * S -> MemoryPhase * S -> Prop :=
  | memory_step_turn phase s phase' s' : memory_turn e phase s = (Ok phase', s') -> memory_step (phase, s) (phase', s')
  | memory_step_between phase s s' : between s s' -> memory_step (phase, s) (phase, s').

Definition cache_runs (files : Disk) (r : R) (w : W) : StreamStatus * S -> Prop :=
  rtc cache_step (WriteEmpty, cache_start (share_start e files r w)).
Definition memory_runs (files : Disk) (r : R) (w : W) : MemoryPhase * S -> Prop :=
  rtc memory_step (Reading, memory_start (share_start e files r w)).

(** A new connection: nothing was read or written, and the files that may be
    used are those of [tmp]. *)
Record fresh (files : Disk) (r : R) (w : W) : Prop := {
  fr_reader : reader_good r;
  fr_sent : sent r = [];
  fr_received : received w = [];
  fr_tmp : d_tmp files = tmp;
  fr_nodup : NoDup (file_uniq <$> tmp)
}.

Lemma between_core s s' : between s s' -> core s' = core s /\ closing s' = closing s /\ write_err s' = write_err s.
Proof.
  intros [| | |version|]; [by destruct s..| |by destruct s]. unfold delay_fire. destruct (delay_state s); [done..|]. by destruct (version =? delay_version s).
Qed.

Lemma core_prefix (s s' : S) : core s' = core s -> Prefix s -> Prefix s'.
Proof. unfold core. intros E. injection E as _ _ _ _ _ E1 E2 E3 E4 _ _ _. apply prefix_same; unfold files_of; congruence. Qed.

Lemma between_good s s' : between s s' -> Good s -> Good s'.
Proof.
  intros Hb Hg. destruct (between_core s s' Hb) as (Ec & Ecl & _). destruct Hg as [[Hc Hp]|(Hc & Hi & Hf)]; [left|right].
  - split; [congruence|by apply (core_prefix s)].
  - split; [congruence|]. split; [by apply (inv_core S0 T0 _ s)|]. unfold core in Ec. injection Ec as _ _ _ Er _ _ _ _ _ E1 E2 _.
    apply (fits_grown e s s'); [|done|done]. intros []; cbn; lia.
Qed.

Lemma between_mem phase s s' : between s s' -> MemGood phase s -> MemGood phase s'.
Proof.
  intros Hb [Hst Hg]. destruct (between_core s s' Hb) as (Ec & _ & Ew).
  assert (core (set_read_buffer None s') = core (set_read_buffer None s) /\ is_stream_cache s' = is_stream_cache s) as [Ec0 Et].
  { destruct s, s'. unfold core in *. cbn in *. injection Ec. intros. by subst. }
  split; [congruence|]. destruct phase as [|l|l]; [by apply (inv_core S0 T0 _ (set_read_buffer None s))..|].
  destruct Hg as [Hi|[Hw Hp]]; [left; by apply (inv_core S0 T0 _ s)|right]. split; [congruence|by apply (core_prefix s)].
Qed.

Hypothesis He : env_good e S0 T0.
Hypothesis Hc0 : c_stream_cache_size (cs e) = S0.
Hypothesis Ht0 : c_tmp_file_size (cs e) = T0.

Lemma start_inv files r w k : fresh files r w -> Inv [] (set_is_stream_cache k (share_start e files r w)).
Proof.
  intros [F1 F2 F3 F4 F5]. pose proof (eg_cache e S0 T0 He). pose proof (eg_tmp e S0 T0 He). split; try (cbn; done).
  - apply deque_new_good.
  - cbn. rewrite F3. constructor.
  - cbn. rewrite F2. constructor.
  - cbn. by rewrite F2, F3.
  - split; cbn; rewrite ?F4; done.
  - split; cbn; rewrite ?F2, ?F3, ?Hc0, ?Ht0; unfold pieces_len, zsum; cbn; [lia..|]. intros _ _. split; [intros []; cbn; rewrite ?Hc0, ?Ht0; lia|]. split; [constructor|].
    intros []; cbn; rewrite ?Hc0, ?Ht0; lia.
Qed.

Lemma cache_good files r w x : fresh files r w -> cache_runs files r w x -> Good x.2 /\ is_stream_cache x.2 = true.
Proof.
  intros Hf Hr. unfold cache_runs in Hr. remember (WriteEmpty, cache_start (share_start e files r w)) as x0 eqn:E0.
  assert (Good x0.2 /\ is_stream_cache x0.2 = true) as Hg.
  { subst x0. split; [|done]. right. split; [done|]. split; [by apply start_inv|done]. }
  clear E0. induction Hr as [x|x y z Hs _ IH]; [done|]. apply IH. destruct Hg as [Hg Ht]. destruct Hs as [st s st' s' Et|st s s' Hb]; cbn in *.
  - pose proof (cache_turn_ok st s He Hg) as Hk. unfold run in Hk. rewrite Et in Hk. destruct Hk as [Hk Hk']. split; [done|congruence].
  - split; [by apply (between_good s)|]. destruct (between_core s s' Hb) as (Ec & _). unfold core in Ec. injection Ec as _ _ _ _ _ _ _ _ _ _ _ E. congruence.
Qed.

Lemma memory_good files r w x : fresh files r w -> memory_runs files r w x -> MemGood x.1 x.2.
Proof.
  intros Hf Hr. unfold memory_runs in Hr. remember (Reading, memory_start (share_start e files r w)) as x0 eqn:E0.
  assert (MemGood x0.1 x0.2) as Hg. { subst x0. split; [done|]. exact (start_inv files r w false Hf). }
  clear E0. induction Hr as [x|x y z Hs _ IH]; [done|]. apply IH. destruct Hs as [ph s ph' s' Et|ph s s' Hb]; cbn in *.
  - pose proof (memory_turn_ok ph s He Hg) as Hk. unfold run in Hk. by rewrite Et in Hk.
  - by apply (between_mem ph s).
Qed.
End ends.

(** ** What holds of a direction *)

Section direction.
Context {R W : Type} `{AsyncReader R} `{AsyncWriter W} {tmp : list FileExt} `{!ReaderLaws R tmp} `{!WriterLaws W}.
Context (e : StreamEnv).
Abbreviation S := (Share R W).
Abbreviation env_ok := (env_good e (c_stream_cache_size (cs e)) (c_tmp_file_size (cs e))).

(** C2. What a direction of a connection has written is at every moment a
    first part of what it has read, byte for byte and in order: whatever the
    readers and writers do within their laws, with the limits of memory and of
    the temporary file, pages that wait, partial writes, writes from files,
    timers and the close of the other direction, in the loop of
    [stream_stream_cache.rs] and in the one of [stream_stream_memory.rs], and
    also when a turn ends the direction with an error. *)
Theorem relay_in_order (files : Disk) (r : R) (w : W) : env_ok -> fresh (tmp:=tmp) files r w ->
  (forall status s, cache_runs e files r w (status, s) -> Prefix s /\ forall x s', cache_turn e status s = (Err x, s') -> Prefix s') /\
  (forall phase s, memory_runs e files r w (phase, s) -> Prefix s /\ forall x s', memory_turn e phase s = (Err x, s') -> Prefix s').
Proof.
  intros He Hf. split; intros st s Hr.
  - destruct (cache_good _ _ _ He eq_refl eq_refl _ _ _ _ Hf Hr) as [Hg _]. split; [exact (good_is_prefix _ _ _ _ Hg)|].
    intros x s' Et. pose proof (cache_turn_ok _ _ _ st s He Hg) as Hk. unfold run in Hk. by rewrite Et in Hk.
  - pose proof (memory_good _ _ _ He eq_refl eq_refl _ _ _ _ Hf Hr) as Hg. split; [exact (mem_prefix _ _ _ _ Hg)|].
    intros x s' Et. pose proof (memory_turn_ok _ _ _ st s He Hg) as Hk. unfold run in Hk. by rewrite Et in Hk.
Qed.

Definition returns {A} (o : outcome A) : Prop := (exists a, o = Ok a) \/ exists x, o = Err x.

Lemma run_returns {A} (m : stm S A) s Q E : run m s Q E -> returns (m s).1.
Proof. unfold run. destruct (m s) as [[a|x| |] s']; cbn; intros Hr; [left; by eexists|right; by eexists|done..]. Qed.

(** C17. No turn of either loop panics or goes on for ever: the rounds of
    writing, the runs of pages and the retries inside a turn end, no index,
    unwrap, division or conversion in it fails. *)
Theorem turns_return (files : Disk) (r : R) (w : W) : env_ok -> fresh (tmp:=tmp) files r w ->
  (forall status s, cache_runs e files r w (status, s) -> returns (cache_turn e status s).1) /\
  (forall phase s, memory_runs e files r w (phase, s) -> returns (memory_turn e phase s).1).
Proof.
  intros He Hf. split; intros st s Hr.
  - destruct (cache_good _ _ _ He eq_refl eq_refl _ _ _ _ Hf Hr) as [Hg _]. eapply run_returns. exact (cache_turn_ok _ _ _ st s He Hg).
  - pose proof (memory_good _ _ _ He eq_refl eq_refl _ _ _ _ Hf Hr) as Hg. eapply run_returns. exact (memory_turn_ok _ _ _ st s He Hg).
Qed.


(** A direction that may read always finds room to read into: the two
    errors of [read] for a buffer that does not fit never happen, and what may
    be read is not nothing and within what is left of the budget. *)
Theorem read_finds_room (files : Disk) (r : R) (w : W) status (s : S) : env_ok -> fresh (tmp:=tmp) files r w ->
  cache_runs e files r w (status, s) -> closing s = false -> 0 < stream_cache_size s \/ 0 < tmp_file_size s ->
  exists b room, read_room e s = (Ok (b, room), set_read_buffer None s) /\ 0 < room /\
    read_remaining b + room <= (if r_is_cache b then stream_cache_size s else tmp_file_size s) /\
    (is_read_msg (reader s) = false -> (u ← buf b; free_data_mut u) = Ok room).
Proof.
  intros He Hf Hr Hc Hb. destruct (cache_good _ _ _ He eq_refl eq_refl _ _ _ _ Hf Hr) as [[[Hk _]|(_ & Hi & Hfit)] Ht]; [cbn in Hk; congruence|].
  destruct (read_room_ok _ _ _ s He Hi Hfit Hb) as (b & room & E & [R1 R2 R3 R4 R5 R6]). exists b, room. split; [done|]. split; [lia|]. split; [done|].
  intros Hm. destruct (R4 Hm) as (u & Eu & ->). unfold buf. unfold read_good in R1. rewrite Eu in *. by apply free_data_mut_ok.
Qed.

(** Nothing is left. *)
Lemma all_written S0 T0 (s : S) : Inv S0 T0 [] s -> is_read_empty s && is_write_empty s = true ->
  @content (files_of s) (received (writer s)) = @content (files_of s) (sent (reader s)).
Proof.
  intros Hi [Hr Hw]%andb_true_iff. unfold is_write_empty in Hw. apply andb_true_iff in Hw as [[Hc Hb]%andb_true_iff Hq].
  assert (caches s = []) as E1 by (apply zlen_0; pose proof (zlen_nonneg (caches s)); lia). assert (write_buffer s = None) as E2 by (by destruct (write_buffer s)).
  destruct (deque_none _ (inv_deque _ _ _ _ Hi) Hq) as [E3 _]. rewrite (inv_flow _ _ _ _ Hi). unfold stock, reads. rewrite E1, E2, E3.
  assert (views (files_of s) (option_list (read_buffer s) ++ []) = []) as ->; [|by rewrite app_nil_r].
  unfold is_read_empty in Hr. pose proof (inv_reads _ _ _ _ Hi) as Hg. unfold reads in Hg. destruct (read_buffer s) as [b|]; [|done].
  apply Forall_inv in Hg. destruct (empty_view _ b Hg ltac:(lia)) as [Hv _]. change (views (files_of s) (option_list (Some b) ++ [])) with (@rb_view (files_of s) b ++ []). by rewrite Hv.
Qed.

(** A failed read leaves one buffer to write, and the loop reads no more
    before that is done. *)
Definition mem_ended (phase : MemoryPhase) (s : S) : Prop :=
  read_err s = None \/
  match phase with
  | Reading => is_empty s = true
  | Buffers l => l = [] /\ is_empty s = true \/ exists b, l = [b]
  | Writing l => l = []
  end.

Lemma between_ended phase s s' : between e s s' -> mem_ended phase s -> mem_ended phase s'.
Proof.
  intros Hb. assert (read_err s' = read_err s /\ is_empty s' = is_empty s) as [E1 E2].
  { destruct Hb as [| | |version|]; [by destruct s..| |by destruct s]. unfold delay_fire. destruct (delay_state s); [done..|]. by destruct (version =? delay_version s). }
  unfold mem_ended. by rewrite E1, E2.
Qed.

Lemma memory_check_none (s s1 : S) u : memory_check_close e s = (Ok u, s1) -> s1 = s /\ ends_with s = None.
Proof.
  unfold memory_check_close. pose proof (close_direct e s) as Hd. destruct (ends_with s) as [x|].
  - destruct Hd as (? & ? & _ & _ & Ed). rewrite Ed. by intros [= _ _].
  - rewrite Hd. by intros [= _ <-].
Qed.

Lemma memory_read_ended (s s1 : S) l : read_err s = None -> memory_read e s = (Ok l, s1) -> read_err s1 = None \/ exists b, l = [b].
Proof.
  assert (forall A b (r : io A) (s s1 : S) l, (forall a, r <> IoOk a) -> read_failed b r s = (Ok l, s1) -> exists b, l = [b]) as Hf.
  { intros A b r s0 s2 k Hr. destruct r as [a| |x]; [by destruct (Hr a)| |done]. intros [= <- _]. by exists b. }
  intros Hn. unfold memory_read, on_reader, lift, mbind, stm_bind, gets. destruct (is_read_msg (reader s)).
  - destruct (read_msg _ _) as [m r']. unfold got_msg. destruct m as [m| |x]; [|intros E; right; eapply (Hf StreamReadMsg); [|exact E]; done..].
    unfold mbind, stm_bind, on_local. destruct (push_back_ream_msg _ _) as [[file| | |] b']; intros [= _ <-]; by left.
  - destruct (free_data_mut _) as [n| | |]; try done. destruct (read _ _) as [m r']. unfold got_bytes.
    destruct m as [k| |x]; [|intros E; right; eapply (Hf (list Z)); [|exact E]; done..].
    unfold mbind, stm_bind, on_local. destruct (read_add _ _) as [[u| | |] b']; intros [= _ <-]; by left.
Qed.

Lemma memory_ended (files : Disk) (r : R) (w : W) x : env_ok -> fresh (tmp:=tmp) files r w -> memory_runs e files r w x -> mem_ended x.1 x.2.
Proof.
  intros He Hf Hr. unfold memory_runs in Hr. apply (rtc_ind_r (R := memory_step e) (fun z => mem_ended z.1 z.2) (Reading, memory_start (share_start e files r w))); [by left| |exact Hr].
  intros y z Hy Hs Hm.
  pose proof (memory_good _ _ _ He eq_refl eq_refl _ _ _ _ Hf Hy) as Hg.
  destruct Hs as [ph s ph' s' Et|ph s s' Hb]; cbn [fst snd] in *; [|by eapply between_ended].
  destruct ph as [|[|b l]|l]; cbn [memory_turn] in Et.
  + unfold mbind, stm_bind in Et. destruct (memory_check_close e s) as [[u| | |] s1] eqn:Ec; try done. apply memory_check_none in Ec as [-> En].
    destruct (memory_read e s) as [[l| | |] s2] eqn:El; try done. injection Et as <- <-.
    assert (read_err s = None) as Hn.
    { destruct Hm as [?|Hm]; [done|]. unfold is_empty in Hm. unfold ends_with in En. rewrite Hm in En. by destruct (write_err s). }
    destruct (memory_read_ended _ _ _ Hn El) as [?|?]; [by left|right; by right].
  + injection Et as <- <-. destruct Hm as [?|[[_ ?]|[? ?]]]; [by left|by right|done].
  + unfold mbind, stm_bind in Et. injection Et as <- <-. destruct Hm as [?|[[? _]|[b' [= _ ->]]]]; [by left|done|by right].
  + unfold mbind at 1, stm_bind at 1 in Et. destruct (memory_check_close e s) as [[u| | |] s1] eqn:Ec; try done. apply memory_check_none in Ec as [-> En].
    unfold mbind at 1, stm_bind at 1 in Et. unfold gets in Et. change (id s) with s in Et. destruct (is_empty s) eqn:Em.
    * injection Et as <- <-. destruct Hm as [?| ->]; [by left|right; by left].
    * destruct Hg as [Hst Hi]. assert (Inv (c_stream_cache_size (cs e)) (c_tmp_file_size (cs e)) l s) as Hi'.
      { destruct Hi as [Hi|[Hb _]]; [done|]. unfold ends_with in En. by destruct (write_err s). }
      pose proof (tmp_handle_run_ok e _ _ l s He Hi') as Hk. unfold run in Hk. unfold mbind, stm_bind in Et.
      destruct (tmp_handle_run e s) as [[st| | |] s1]; try done. injection Et as <- <-. destruct Hk as (_ & [Hs1 _ _ _] & _).
      unfold mem_ended in *. by rewrite Hs1.
Qed.

(** C11. A direction whose reader has ended closes when everything that was read
    is written, and not before. In the loop of [stream_stream_cache.rs] the turn
    writes first; if then nothing is left and no write has failed, it ends with
    the error of the reader, or begins to wait for the other direction, with the
    whole content written; and if something is left it goes on, unless the
    direction waits for the other one and sends files while that one has closed
    ([is_sendfile_close], which gives up what is left). In the loop of
    [stream_stream_memory.rs] the check comes first and is the same. *)
Theorem closes_after_all (files : Disk) (r : R) (w : W) x : env_ok -> fresh (tmp:=tmp) files r w ->
  (forall status s st s1, cache_runs e files r w (status, s) -> closing s = false -> read_err s = Some x ->
    tmp_handle_run e s = (Ok st, s1) -> write_err s1 = None -> (close_type e = WaitEmpty -> is_sendfile_close e st s1 = false) ->
    if is_empty s1
    then exists o s2, cache_turn e status s = (o, s2) /\ @content (files_of s2) (received (writer s2)) = @content (files_of s2) (sent (reader s2)) /\
      match close_type e with WaitEmpty => closing s2 = true | _ => o = Err x end
    else cache_turn e status s = (Ok st, s1)) /\
  (forall phase s, memory_runs e files r w (phase, s) -> (forall l, phase <> Buffers l) -> read_err s = Some x -> write_err s = None ->
    if is_empty s
    then exists s2, memory_turn e phase s = (Err x, s2) /\ @content (files_of s2) (received (writer s2)) = @content (files_of s2) (sent (reader s2))
    else memory_turn e phase s = (_ ← tmp_handle_run e; mret phase) s).
Proof.
  intros He Hf. split.
  - intros status s st s1 Hr Hc Hre Et Hw Hsf.
    destruct (cache_good _ _ _ He eq_refl eq_refl _ _ _ _ Hf Hr) as [[[Hk _]|(_ & Hi & Hfit)] _]; [cbn in Hk; congruence|]. cbn [snd] in *.
    pose proof (tmp_handle_run_ok e _ _ [] s He Hi) as Hk. unfold run in Hk. rewrite Et in Hk. destruct Hk as (Hb & [Hs1 Hs2 _ _] & _).
    assert (Inv (c_stream_cache_size (cs e)) (c_tmp_file_size (cs e)) [] s1) as Hi1 by (destruct Hb as [Hi1|[[Hb _] _]]; done).
    assert (cache_turn e status s = (check_stream_close e st ≫= fun _ => mret st) s1) as ->.
    { unfold cache_turn. rewrite (stm_step _ _ _ s s) by done. rewrite Hc, Hre. rewrite andb_false_r. by rewrite (stm_step _ _ _ _ _ Et). }
    pose proof (close_direct e s1) as Hd. unfold ends_with in Hd. rewrite Hw, Hs1, Hre in Hd. fold (is_empty s1) in Hd.
    assert (close_type e <> WaitEmpty -> if is_empty s1
      then exists o s2, (check_stream_close e st ≫= fun _ => mret st) s1 = (o, s2) /\
        @content (files_of s2) (received (writer s2)) = @content (files_of s2) (sent (reader s2)) /\ o = Err x
      else (check_stream_close e st ≫= fun _ => mret st) s1 = (Ok st, s1)) as Hdirect.
    { intros Hct. assert (check_stream_close e st s1 = (x ← close_now; match x with Some x => close_with e x | None => mret tt end) s1) as Ecl by (unfold check_stream_close; by destruct (close_type e)).
      unfold mbind at 1 2, stm_bind at 1 2. rewrite Ecl. destruct (is_empty s1) eqn:Ee.
      - destruct Hd as (w1 & s0 & Hw1 & Hs0 & Ed). rewrite Ed. exists (Err x), (set_writer w1 s0). split; [done|]. split; [|done].
        pose proof (all_written _ _ s1 Hi1 Ee) as Ha. destruct Hs0 as [-> | ->]; cbn; rewrite Hw1; exact Ha.
      - by rewrite Hd. }
    destruct (close_type e) eqn:Ect; [by apply Hdirect..|]. clear Hdirect Hd.
    unfold check_stream_close. rewrite Ect. unfold mbind, stm_bind, gets. change (id s1) with s1.
    cbv zeta. rewrite Hw, Hs1, Hre, (Hsf eq_refl). cbn [is_none negb orb]. fold (is_empty s1). destruct (is_empty s1) eqn:Ee.
    + set (s2 := set_closing true (set_close_num (close_num s1 + 1) s1)).
      pose proof (all_written _ _ s1 Hi1 Ee) as Ha.
      assert (exists o s3, close_round s2 = (o, s3) /\ @content (files_of s3) (received (writer s3)) = @content (files_of s3) (sent (reader s3)) /\ closing s3 = true)
        as (o & s3 & Ecr & Hcr).
      { unfold close_round, mbind, stm_bind, gets. change (id s2) with s2. destruct (2 <=? close_num s2); [|by exists (Ok tt), s2].
        change (write_err s2) with (write_err s1). change (read_err s2) with (read_err s1). rewrite Hw, Hs1, Hre. eexists _, _. split; [reflexivity|]. by split. }
      cbn [andb orb]. unfold modify. cbv beta iota. fold s2. rewrite Ecr. destruct o; eexists _, s3; split; try reflexivity; done.
    + cbn [andb orb]. by rewrite andb_false_r.
  - intros phase s Hr Hph Hre Hw. pose proof (memory_ended _ _ _ _ He Hf Hr) as Hm. pose proof (memory_good _ _ _ He eq_refl eq_refl _ _ _ _ Hf Hr) as [Hst Hi].
    cbn [fst snd] in *. pose proof (close_direct e s) as Hd. unfold ends_with in Hd. rewrite Hw, Hre in Hd. fold (is_empty s) in Hd.
    assert (phase = Reading /\ is_empty s = true \/ phase = Writing []) as Hp.
    { destruct Hm as [?|Hm]; [congruence|]. destruct phase as [|l|l]; [by left|by destruct (Hph l)|right; congruence]. }
    destruct (is_empty s) eqn:Ee.
    + destruct Hd as (w1 & s0 & Hw1 & Hs0 & Ed). exists (set_writer w1 s0). split.
      { destruct Hp as [[-> _]| ->]; cbn [memory_turn]; unfold mbind at 1, stm_bind at 1, memory_check_close; by rewrite Ed. }
      assert (@content (files_of s) (received (writer s)) = @content (files_of s) (sent (reader s))) as Ha.
      { destruct Hp as [[-> _]| ->].
        - refine (all_written _ _ (set_read_buffer None s) Hi _). apply andb_true_iff in Ee as [_ Ee]. exact Ee.
        - destruct Hi as [Hi|[Hb _]]; [exact (all_written _ _ s Hi Ee)|congruence]. }
      destruct Hs0 as [-> | ->]; cbn; rewrite Hw1; exact Ha.
    + destruct Hp as [[_ ?]| ->]; [done|]. cbn [memory_turn]. unfold mbind at 1, stm_bind at 1, memory_check_close. rewrite Hd.
      unfold mbind at 1, stm_bind at 1, gets. change (id s) with s. by rewrite Ee.
Qed.
End direction.
