(* ===== verification/StreamRun.v ===== *)
(** Settings, a reader and a writer to run the directions of [StreamCopy] on:
    what [ConfStream::new] gives is what [StreamRelayEnd] asks for, and the
    theorems there hold of runs that go through the queue and the file. *)
From S2P Require Import Prelude StreamBuf StreamBufSpec StreamDeque StreamCopy StreamRelay StreamTake StreamRelayEnd.
From S2P Require FileCache CacheFile.
#[local] Open Scope string_scope.
#[local] Open Scope list_scope.
#[local] Open Scope Z_scope.

(** ** Settings *)

Lemma in_pages_ok size page : 0 < page < 2 ^ 60 -> 0 <= size < 2 ^ 61 ->
  exists n, in_pages size page = Ok n /\ size < n <= size + page /\ n mod page = 0.
Proof.
  intros Hp Hs. unfold in_pages. rewrite zdiv_ok by lia. cbn [mbind outcome_bind].
  pose proof (Z.div_mod size page ltac:(lia)) as E. pose proof (Z.mod_pos_bound size page ltac:(lia)).
  assert (0 <= size / page) by (apply Z.div_pos; lia). rewrite swrap64_id by nia. eexists. split; [reflexivity|]. split; [nia|]. apply Z.mod_mul. lia.
Qed.

(** A setting that a direction can run with, with at least the sizes that were
    asked for. *)
Record conf_good (page cache_size tmp_size : Z) (c : ConfStream) : Prop := {
  cg_env : forall sendfile msg vectored close, env_good (mkEnv c sendfile msg vectored page close) (c_stream_cache_size c) (c_tmp_file_size c);
  cg_buffers : min_read_buffer_size c <= read_buffer_size c <= write_buffer_size c;
  cg_cache : c_stream_cache_size c mod page = 0 /\ cache_size < c_stream_cache_size c /\ min_cache_buffer_size c < c_stream_cache_size c;
  cg_tmp : if tmp_size =? 0 then c_tmp_file_size c = 0
           else c_tmp_file_size c mod page = 0 /\ tmp_size < c_tmp_file_size c /\ min_cache_file_size c < c_tmp_file_size c
}.

(** What [ConfStream::new] makes of a configuration is a setting a
    direction can run with: sizes in whole pages, the buffers at least two
    pages and in order, the memory at least thirty-two pages, and the
    temporary file none or at least a thousand and twenty-four. *)
Theorem conf_stream_new_good page tmp_size reopen limit_after limit cache_size io_page read_pages write_pages delay nodelay :
  0 < page < 2 ^ 40 -> 0 <= tmp_size < 2 ^ 60 -> 0 <= cache_size < 2 ^ 60 -> 0 <= read_pages < 2 ^ 20 -> 0 <= write_pages < 2 ^ 20 ->
  exists c, conf_stream_new page tmp_size reopen limit_after limit cache_size io_page read_pages write_pages delay nodelay = Ok c /\ conf_good page cache_size tmp_size c.
Proof.
  intros Hp Ht Hc Hr Hw. unfold conf_stream_new. set (wp := if write_pages <? read_pages then read_pages else write_pages).
  assert (0 <= wp < 2 ^ 20) as Hwp by (subst wp; case_match; lia).
  assert (0 <= read_pages * page < 2 ^ 60) as Hrp by nia. assert (0 <= wp * page < 2 ^ 60) as Hwpp by nia.
  rewrite !(wrap_id 64) by (unfold in_width; lia). rewrite (swrap64_id cache_size), (swrap64_id tmp_size), (swrap64_id page), (swrap64_id (page * 4 * 8)), (swrap64_id (page * 1024)) by lia. clearbody wp.
  set (rs := if read_pages * page <? page * 2 then page * 2 else read_pages * page). assert (page * 2 <= rs < 2 ^ 60) as Hrs by (subst rs; case_match; lia).
  set (ws := if wp * page <? rs then rs else wp * page). assert (rs <= ws < 2 ^ 60) as Hws by (subst ws; case_match; lia). clearbody rs ws.
  set (cache := if cache_size <? page * 4 * 8 then page * 4 * 8 else cache_size). assert (page * 32 <= cache < 2 ^ 60 /\ cache_size <= cache) as [Hca Hca'] by (subst cache; case_match; lia). clearbody cache.
  set (t := if (0 <? tmp_size) && (tmp_size <? page * 1024) then page * 1024 else tmp_size).
  assert (0 <= t < 2 ^ 60 /\ (tmp_size = 0 -> t = 0) /\ (tmp_size <> 0 -> page * 1024 <= t /\ tmp_size <= t)) as (Hta & Ht0 & Ht1) by (subst t; case_match; lia). clearbody t.
  destruct (in_pages_ok cache page ltac:(lia) ltac:(lia)) as (c & -> & Hc1 & Hc2). destruct (Z.ltb_spec 0 cache); [|lia]. cbn [mbind outcome_bind].
  assert (exists tm, (if 0 <? t then in_pages t page else Ok t) = Ok tm /\ 0 <= tm < 2 ^ 61 /\ if tmp_size =? 0 then tm = 0 else tm mod page = 0 /\ tmp_size < tm /\ page * 1024 < tm) as (tm & -> & Htm & Htm').
  { destruct (Z.eqb_spec tmp_size 0) as [E|E]; [rewrite Ht0 by done; exists 0; by split_and!|]. destruct (Ht1 E). destruct (Z.ltb_spec 0 t); [|lia].
    destruct (in_pages_ok t page ltac:(lia) ltac:(lia)) as (n & -> & Hn1 & Hn2). exists n. split; [done|]. split; [lia|]. split; [done|]. lia. }
  cbn [mbind outcome_bind]. eexists. split; [reflexivity|]. split; cbn; [intros; split; cbn; lia|lia|lia|exact Htm'].
Qed.

Lemma conf_stream_new_good_witness : exists c, conf_stream_new 4 8 0 0 0 7 true 2 1 5 0 = Ok c /\ conf_good 4 7 8 c /\
  c_stream_cache_size c = 132 /\ c_tmp_file_size c = 4100 /\ read_buffer_size c = 8.
Proof.
  destruct (conf_stream_new_good 4 8 0 0 0 7 true 2 1 5 0) as (c & E & Hg); [lia..|]. exists c. split; [exact E|]. split; [exact Hg|].
  vm_compute in E. injection E as <-. done.
Defined.

(** ** Two ends

    A reader of chunks, which gives of each as much as it is asked for, and
    then is closed; it takes a pause where there is an empty chunk. *)
Record Chunks := mkChunks { todo : list (list Z); given : list piece }.

Definition next_chunk (n : Z) (r : Chunks) : io (list Z) * Chunks :=
  match todo r with
  | [] => (IoReset, r)
  | l :: ls =>
      let a := take (Z.to_nat n) l in
      let b := drop (Z.to_nat n) l in
      (IoOk a, mkChunks (match b with [] => ls | _ => b :: ls end) (given r ++ [GBytes a]))
  end.

#[export] Instance chunks_reader : AsyncReader Chunks := {
  is_read_msg _ := false;
  is_single _ := false;
  read := next_chunk;
  try_read := next_chunk;
  select_read n r := let (o, r) := next_chunk n r in (Some o, r);
  read_msg _ r := (IoReset, r);
  try_read_msg _ r := (IoReset, r);
  select_read_msg _ r := (None, r)
}.

Definition chunks_good (r : Chunks) : Prop := pieces_len (given r) + zlen (concat (todo r)) < 2 ^ 62.

Lemma next_chunk_law n r : chunks_good r -> 0 <= n ->
  let (o, r') := next_chunk n r in chunks_good r' /\ false = false /\
  match o with IoOk l => zlen l <= n /\ given r' = given r ++ [GBytes l] | _ => given r' = given r end.
Proof.
  unfold chunks_good, next_chunk. destruct r as [[|l ls] g]; cbn [todo given concat]; intros Hg Hn; [done|]. split; [|split; [done|]].
  - assert (zlen (take (Z.to_nat n) l) + zlen (drop (Z.to_nat n) l) = zlen l) as E by (by rewrite <- zlen_app, firstn_skipn).
    assert (forall g k, pieces_len (g ++ [GBytes k]) = pieces_len g + zlen k) as Ep.
    { intros. unfold pieces_len. rewrite fmap_app, zsum_app. unfold zsum at 2. cbn. lia. }
    rewrite zlen_app in Hg. rewrite Ep. destruct (drop (Z.to_nat n) l) as [|x b]; [change (zlen []) with 0 in E; lia|]. cbn [concat]. rewrite zlen_app. lia.
  - split; [|done]. unfold zlen. rewrite length_take. lia.
Qed.

#[export] Instance chunks_laws tmp : ReaderLaws Chunks tmp.
Proof.
  refine {| sent := given; reader_good := chunks_good |}.
  - intros r Hr. unfold chunks_good in Hr. pose proof (zlen_nonneg (concat (todo r))). lia.
  - intros n r Hr Hn. exact (next_chunk_law n r Hr Hn).
  - intros n r Hr Hn. exact (next_chunk_law n r Hr Hn).
  - intros n r Hr Hn. pose proof (next_chunk_law n r Hr Hn) as Hl. cbn. by destruct (next_chunk n r).
  - done.
  - done.
  - done.
Defined.

(** A writer that takes so many bytes at a time, one number after the other,
    and then five. *)
Record Sink := mkSink { steps : list Z; got : list piece }.

Definition sink (d : Z -> piece) (len : Z) (w : Sink) : io Z * Sink :=
  let n := Z.max 0 (Z.min (default 5 (head (steps w))) len) in (IoOk n, mkSink (tail (steps w)) (got w ++ [d n])).

#[export] Instance sink_writer : AsyncWriter Sink := {
  write l := sink (fun n => GBytes (take (Z.to_nat n) l)) (zlen l);
  write_vectored ls := sink (fun n => GBytes (take (Z.to_nat n) (concat ls))) (zlen (concat ls));
  sendfile f s := fun n w => sink (fun n => GFile f s n) n w;
  write_msg m w := match m with
    | MsgBytes l => sink (fun n => GBytes (take (Z.to_nat n) l)) (zlen l) w
    | MsgFile f s n _ => (IoOk n, mkSink (steps w) (got w ++ [GFile f s n]))
    end;
  flush w := (IoOk tt, w);
  shutdown w := w;
  write_cache_size _ := 0
}.

#[export] Instance sink_laws : WriterLaws Sink.
Proof.
  refine {| received := got |}; cbn.
  - intros l w. pose proof (zlen_nonneg l). split; [lia|done].
  - intros ls w. pose proof (zlen_nonneg (concat ls)). split; [lia|done].
  - intros f s n w Hn. split; [lia|done].
  - intros l w. pose proof (zlen_nonneg l). split; [lia|done].
  - done.
  - done.
  - done.
Defined.

(** ** Runs *)

Fixpoint turns {R W} `{AsyncReader R} `{AsyncWriter W} (e : StreamEnv) (n : nat) (x : StreamStatus * Share R W) : StreamStatus * Share R W :=
  match n with
  | O => x
  | S n => match cache_turn e x.1 x.2 with (Ok st, s) => turns e n (st, s) | _ => x end
  end.

Lemma turns_run {R W} `{AsyncReader R} `{AsyncWriter W} (e : StreamEnv) n : forall x : StreamStatus * Share R W, rtc (cache_step e) x (turns e n x).
Proof.
  induction n as [|n IH]; intros [st s]; [constructor|]. cbn [turns fst snd]. destruct (cache_turn e st s) as [[st'|y| |] s'] eqn:E; try constructor.
  eapply rtc_l; [|apply IH]. by constructor.
Qed.

Definition files0 : Disk := mkDisk (fun _ => CacheFile.mkFile (fun _ => 0) 0) [mkFileExt 5 70 false; mkFileExt 6 71 false] 100000.
Definition conf0 : ConfStream := match conf_stream_new 4 8 0 0 0 7 true 2 1 5 0 with Ok c => c | _ => mkConfStream 0 0 0 0 0 0 0 false 0 0 0 0 0 0 0 0 end.
Definition env0 (sendfile vectored : bool) : StreamEnv := mkEnv conf0 sendfile false vectored 4 Shutdown.

(** Two hundred bytes, which the memory of [conf0] does not hold. *)
Definition reader0 : Chunks := mkChunks [seqZ 0 90; []; seqZ 90 110] [].
Definition start0 : StreamStatus * Share Chunks Sink := (WriteEmpty, cache_start (share_start (env0 true false) files0 reader0 (mkSink (replicate 40 0) []))).

Lemma fresh0 k : fresh (tmp:=d_tmp files0) files0 reader0 (mkSink k []).
Proof. split; try done. apply (bool_decide_unpack _). vm_compute. done. Qed.

Lemma env0_good sendfile vectored : env_good (env0 sendfile vectored) (c_stream_cache_size conf0) (c_tmp_file_size conf0).
Proof. split; apply (bool_decide_unpack _); destruct sendfile, vectored; vm_compute; done. Qed.

(** The writer takes nothing at first: the memory fills, and the file is used. *)
Definition run0 (n : nat) : StreamStatus * Share Chunks Sink := turns (env0 true false) n start0.

Lemma run0_runs n : cache_runs (env0 true false) files0 reader0 (mkSink (replicate 40 0) []) (run0 n).
Proof. apply turns_run. Qed.

(** After 35 turns what was read is in the queue, next to it and in the file;
    after 100 the rest of it is being sent from the file. *)
Lemma relay_in_order_witness :
  got (writer (run0 100).2) <> [] /\ tmp_file_size (run0 35).2 < tmp_file_size (run0 0).2 /\ Prefix (tmp:=d_tmp files0) (run0 35).2 /\ Prefix (tmp:=d_tmp files0) (run0 100).2.
Proof.
  split; [vm_compute; discriminate|]. split; [vm_compute; reflexivity|].
  destruct (relay_in_order (env0 true false) files0 reader0 (mkSink (replicate 40 0) []) (env0_good _ _) (fresh0 _)) as [Hc _].
  pose proof (run0_runs 35) as H1. pose proof (run0_runs 100) as H2. destruct (run0 35) as [st1 s1], (run0 100) as [st2 s2].
  split; [apply (Hc st1 s1 H1)|apply (Hc st2 s2 H2)].
Defined.

Lemma turns_return_witness : returns (cache_turn (env0 true false) (run0 35).1 (run0 35).2).1 /\ returns (cache_turn (env0 true false) (run0 100).1 (run0 100).2).1.
Proof.
  destruct (turns_return (env0 true false) files0 reader0 (mkSink (replicate 40 0) []) (env0_good _ _) (fresh0 _)) as [Hc _].
  pose proof (run0_runs 35) as H1. pose proof (run0_runs 100) as H2. destruct (run0 35) as [st1 s1], (run0 100) as [st2 s2].
  split; [exact (Hc st1 s1 H1)|exact (Hc st2 s2 H2)].
Defined.


Lemma read_finds_room_witness : exists b room, read_room (env0 true false) (run0 25).2 = (Ok (b, room), set_read_buffer None (run0 25).2) /\ 0 < room /\
  stream_cache_size (run0 25).2 = 0.
Proof.
  destruct (read_finds_room (env0 true false) files0 reader0 (mkSink (replicate 40 0) []) (run0 25).1 (run0 25).2 (env0_good _ _) (fresh0 _)) as (b & room & E & Hr & _).
  - pose proof (run0_runs 25) as H1. by destruct (run0 25).
  - vm_compute. reflexivity.
  - right. vm_compute. reflexivity.
  - exists b, room. split; [exact E|]. split; [exact Hr|]. vm_compute. reflexivity.
Defined.

(** The turn after the last one closes, with all two hundred bytes written. *)
Lemma closes_after_all_witness : exists s2, cache_turn (env0 true false) (run0 100).1 (run0 100).2 = (Err "err:stream read", s2) /\
  @content (files_of s2) (got (writer s2)) = @content (files_of s2) (given (reader s2)).
Proof.
  pose proof (run0_runs 100) as H1. rewrite (surjective_pairing (run0 100)) in H1.
  destruct (closes_after_all (env0 true false) files0 reader0 (mkSink (replicate 40 0) []) "err:stream read" (env0_good _ _) (fresh0 _)) as [Hc _].
  specialize (Hc (run0 100).1 (run0 100).2
    (match (tmp_handle_run (env0 true false) (run0 100).2).1 with Ok st => st | _ => Limit end) (tmp_handle_run (env0 true false) (run0 100).2).2 H1).
  assert (match (tmp_handle_run (env0 true false) (run0 100).2).1 with Ok _ => true | _ => false end = true) as Ho by (vm_compute; reflexivity).
  assert (is_empty (tmp_handle_run (env0 true false) (run0 100).2).2 = true) as He by (vm_compute; reflexivity).
  assert (write_err (tmp_handle_run (env0 true false) (run0 100).2).2 = None) as Hw by (vm_compute; reflexivity).
  rewrite He in Hc. destruct Hc as (o & s2 & E & Hs & Ho2); [vm_compute; reflexivity|vm_compute; reflexivity| |exact Hw|discriminate|].
  - destruct (tmp_handle_run (env0 true false) (run0 100).2) as [[st|x| |] s1]; [reflexivity|discriminate..].
  - cbn in Ho2. subst o. exists s2. split; [exact E|exact Hs].
Defined.

(** The limit of the rate is asked for before a write, and not kept by it: with
    a limit of one byte in a second the first write sends five. *)
Lemma rate_limit_not_kept : exists c, conf_stream_new 4 8 0 0 1 7 true 2 1 5 0 = Ok c /\
  let e := mkEnv c true false false 4 Shutdown in
  let s := cache_start (share_start e files0 reader0 (mkSink [] [])) in
  allowed e (set_deque (mkDeque [] 8 [] (cursor_new 8)) s) = Some 1 /\ total_write_size (turns e 1 (WriteEmpty, s)).2 = 5.
Proof. eexists. split; [vm_compute; reflexivity|]. split; vm_compute; reflexivity. Qed.
