(* ===== verification/CacheGate.v ===== *)
(** The node of a cached answer as the requests share it, and the gate that lets
    one of them at a time go to the upstream server
    ([any-proxy/src/proxy/http_proxy/http_cache_file.rs],
    [http_cache_file_node.rs], [http_server_proxy.rs]).

    A value behind an [Arc] is a reference into the store.  [get_turn] is one
    stretch of [HttpCacheFile::get_cache_file_node] between two places where
    another task can run; the requests take them in any order. *)
From S2P Require Import Prelude RustStd Bitmap FileCache HttpLib HttpHeader CacheFile.
From S2P Require HttpCtx.
#[local] Open Scope string_scope.
#[local] Open Scope list_scope.
#[local] Open Scope Z_scope.

Section gate.
Context `{HttpParse}.

(** ** The store *)

(** [ProxyCacheFileNodeUpstream]: who fetches a slice.  A sender of
    [upstream_waits] is the number of its channel. *)
Record SliceUpstream := mkSlice {
  s_is_upstream : bool;
  s_version : Z;
  s_upstream_count : Z;
  s_upstream_waits : list nat
}.

(** [ProxyCacheFileNodeContext], which all copies of a node share. *)
Record NodeCtx := mkNodeCtx {
  cx_status : CacheFileStatus;
  cx_version : Z;
  cx_bitmap : BitMap;
  cx_slices : gmap Z nat
}.

(** What the gate uses of a [ProxyCacheFileNode]. *)
Record FileNode := mkFN {
  fn_ctx : nat;
  fn_uniq : Z;
  fn_info : HttpCtx.HttpResponseInfo;
  fn_head : nat;
  fn_time : Z;
  fn_requests : Z
}.

(** [ProxyCacheFileNodeManage]; the fields for hot files are in [CacheHot]. *)
Record NodeManage := mkManage {
  is_upstream : bool;
  upstream_version : Z;
  upstream_time : Z;
  upstream_count : Z;
  upstream_waits : list nat;
  node_queue : list nat;
  cache_node : option nat;
  manage_version : Z;
  version_expires : Z;
  is_last_upstream_cache : bool;
  manage_head : option nat;
  request_num : Z
}.

Definition eta_manage (m : NodeManage) : NodeManage :=
  mkManage (is_upstream m) (upstream_version m) (upstream_time m) (upstream_count m) (upstream_waits m) (node_queue m)
    (cache_node m) (manage_version m) (version_expires m) (is_last_upstream_cache m) (manage_head m) (request_num m).
Definition set_is_upstream : bool -> NodeManage -> NodeManage := ltac:(setter eta_manage is_upstream).
Definition set_upstream_version : Z -> NodeManage -> NodeManage := ltac:(setter eta_manage upstream_version).
Definition set_upstream_time : Z -> NodeManage -> NodeManage := ltac:(setter eta_manage upstream_time).
Definition set_upstream_count : Z -> NodeManage -> NodeManage := ltac:(setter eta_manage upstream_count).
Definition set_waits : list nat -> NodeManage -> NodeManage := ltac:(setter eta_manage upstream_waits).
Definition set_queue : list nat -> NodeManage -> NodeManage := ltac:(setter eta_manage node_queue).
Definition set_cache_node : option nat -> NodeManage -> NodeManage := ltac:(setter eta_manage cache_node).
Definition set_manage_version : Z -> NodeManage -> NodeManage := ltac:(setter eta_manage manage_version).
Definition set_version_expires : Z -> NodeManage -> NodeManage := ltac:(setter eta_manage version_expires).
Definition set_last_cache : bool -> NodeManage -> NodeManage := ltac:(setter eta_manage is_last_upstream_cache).
Definition set_manage_head : option nat -> NodeManage -> NodeManage := ltac:(setter eta_manage manage_head).
Definition set_request_num : Z -> NodeManage -> NodeManage := ltac:(setter eta_manage request_num).

(** [ProxyCacheFileNodeExpires] *)
Record NodeExpires := mkExpires { ex_md5 : list Z; ex_version_expires : Z; ex_node_version : Z; ex_head : nat }.

(** One [ProxyCache] with what its nodes consist of: the managers by their key,
    the nodes, contexts, heads and slices; the entries of the pool of open
    files, whose node becomes [None] when it is closed, and the queue they are
    closed from; the sums and queues of the cache; the channels that were fired;
    the files by path, each with its inode; the clock in seconds; and the next
    numbers of a reference, a manager and an inode. *)
Record Store := mkStore {
  managers : gmap nat NodeManage;
  node_map : gmap (list Z) nat;
  nodes : gmap nat FileNode;
  ctxs : gmap nat NodeCtx;
  heads : gmap nat ProxyCacheFileNodeHead;
  slices : gmap nat SliceUpstream;
  datas : gmap nat (option nat);
  node_lru : list nat;
  curr_size : Z;
  expires_total : list NodeExpires;
  expires_tmp : list NodeExpires;
  fired : gset nat;
  disk : gmap string (Z * File);
  now : Z;
  next_ref : nat;
  manage_id : Z;
  next_inode : Z
}.

Definition eta_store (s : Store) : Store :=
  mkStore (managers s) (node_map s) (nodes s) (ctxs s) (heads s) (slices s) (datas s) (node_lru s) (curr_size s) (expires_total s)
    (expires_tmp s) (fired s) (disk s) (now s) (next_ref s) (manage_id s) (next_inode s).
Definition set_managers : gmap nat NodeManage -> Store -> Store := ltac:(setter eta_store managers).
Definition set_node_map : gmap (list Z) nat -> Store -> Store := ltac:(setter eta_store node_map).
Definition set_nodes : gmap nat FileNode -> Store -> Store := ltac:(setter eta_store nodes).
Definition set_ctxs : gmap nat NodeCtx -> Store -> Store := ltac:(setter eta_store ctxs).
Definition set_heads : gmap nat ProxyCacheFileNodeHead -> Store -> Store := ltac:(setter eta_store heads).
Definition set_slices : gmap nat SliceUpstream -> Store -> Store := ltac:(setter eta_store slices).
Definition set_datas : gmap nat (option nat) -> Store -> Store := ltac:(setter eta_store datas).
Definition set_lru : list nat -> Store -> Store := ltac:(setter eta_store node_lru).
Definition set_curr_size : Z -> Store -> Store := ltac:(setter eta_store curr_size).
Definition set_expires_total : list NodeExpires -> Store -> Store := ltac:(setter eta_store expires_total).
Definition set_expires_tmp : list NodeExpires -> Store -> Store := ltac:(setter eta_store expires_tmp).
Definition set_fired : gset nat -> Store -> Store := ltac:(setter eta_store fired).
Definition set_disk : gmap string (Z * File) -> Store -> Store := ltac:(setter eta_store disk).
Definition set_now : Z -> Store -> Store := ltac:(setter eta_store now).
Definition set_next_ref : nat -> Store -> Store := ltac:(setter eta_store next_ref).
Definition set_manage_id : Z -> Store -> Store := ltac:(setter eta_store manage_id).
Definition set_next_inode : Z -> Store -> Store := ltac:(setter eta_store next_inode).

(** *** Reading and writing through references *)

Definition manager (m : nat) : stm Store NodeManage := s ← gets id; lift (expect (managers s !! m)).
Definition node (n : nat) : stm Store FileNode := s ← gets id; lift (expect (nodes s !! n)).
Definition node_ctx (n : nat) : stm Store NodeCtx := x ← node n; s ← gets id; lift (expect (ctxs s !! fn_ctx x)).
Definition head_of (h : nat) : stm Store ProxyCacheFileNodeHead := s ← gets id; lift (expect (heads s !! h)).

Definition upd_manager (m : nat) (f : NodeManage -> NodeManage) : stm Store unit := modify (fun s => set_managers (alter f m (managers s)) s).
Definition upd_node (n : nat) (f : FileNode -> FileNode) : stm Store unit := modify (fun s => set_nodes (alter f n (nodes s)) s).
Definition upd_ctx (c : nat) (f : NodeCtx -> NodeCtx) : stm Store unit := modify (fun s => set_ctxs (alter f c (ctxs s)) s).
Definition upd_head (h : nat) (f : ProxyCacheFileNodeHead -> ProxyCacheFileNodeHead) : stm Store unit :=
  modify (fun s => set_heads (alter f h (heads s)) s).
Definition upd_slice (k : nat) (f : SliceUpstream -> SliceUpstream) : stm Store unit := modify (fun s => set_slices (alter f k (slices s)) s).

Definition fresh_ref : stm Store nat := fun s => (Ok (next_ref s), set_next_ref (S (next_ref s)) s).
Definition new_node (x : FileNode) : stm Store nat := n ← fresh_ref; _ ← modify (fun s => set_nodes (<[n:=x]> (nodes s)) s); mret n.
Definition new_ctx (x : NodeCtx) : stm Store nat := n ← fresh_ref; _ ← modify (fun s => set_ctxs (<[n:=x]> (ctxs s)) s); mret n.
Definition new_head (x : ProxyCacheFileNodeHead) : stm Store nat := n ← fresh_ref; _ ← modify (fun s => set_heads (<[n:=x]> (heads s)) s); mret n.
Definition new_data (n : nat) : stm Store nat := d ← fresh_ref; _ ← modify (fun s => set_datas (<[d:=Some n]> (datas s)) s); mret d.

(** [FILE_CACHE_NODE_MANAGE_ID.fetch_add(1)], in the upper half. *)
Definition fresh_version : stm Store Z := fun s => (Ok (wrap64 (Z.shiftl (manage_id s) 32)), set_manage_id (wrap32 (manage_id s + 1)) s).

(** [for tx in upstream_waits { tx.send(()) }] *)
Definition wake (l : list nat) : stm Store unit := modify (fun s => set_fired (fired s ∪ list_to_set l) s).

(** [swap] of the waits of a manager with an empty queue. *)
Definition take_waits (m : nat) : stm Store (list nat) :=
  x ← manager m; _ ← upd_manager m (set_waits []); mret (upstream_waits x).

(** ** Managers *)

Definition manage_new : stm Store NodeManage :=
  v ← fresh_version;
  e ← fresh_version;
  s ← gets id;
  mret (mkManage false 0 (now s) 0 [] [] None v e true None 0).

Definition read_cache_file_node_manage (key : list Z) : stm Store (bool * nat) :=
  s ← gets id;
  match node_map s !! key with
  | Some m => mret (false, m)
  | None =>
      x ← manage_new;
      m ← fresh_ref;
      _ ← modify (fun s => set_node_map (<[key:=m]> (node_map s)) (set_managers (<[m:=x]> (managers s)) s));
      mret (true, m)
  end.

(** *** The pool of open files *)

Definition set_nil (d : nat) : stm Store unit := modify (fun s => set_datas (<[d:=None]> (datas s)) s).
Definition is_nil (s : Store) (d : nat) : bool := match datas s !! d with Some (Some _) => false | _ => true end.
Definition lru_remove (d : nat) : stm Store unit := modify (fun s => set_lru (filter (fun x => x <> d) (node_lru s)) s).
Definition lru_push (d : nat) : stm Store unit := modify (fun s => set_lru (node_lru s ++ [d]) s).

Fixpoint each (l : list nat) (f : nat -> stm Store unit) : stm Store unit :=
  match l with [] => mret tt | x :: l => _ ← f x; each l f end.

Definition cache_file_node_queue_clear (m : nat) : stm Store unit :=
  x ← manager m;
  _ ← upd_manager m (set_queue []);
  each (node_queue x) (fun d => _ ← set_nil d; lru_remove d).

(** The entries that were closed leave the pool. *)
Definition clean_queue (m : nat) : stm Store unit :=
  x ← manager m;
  s ← gets id;
  let dead := filter (fun d => is_nil s d = true) (node_queue x) in
  _ ← upd_manager m (set_queue (filter (fun d => is_nil s d = false) (node_queue x)));
  each dead lru_remove.

(** The first open file of the pool; closed ones before it are dropped. *)
Fixpoint pool_front (q : list nat) (m : nat) : stm Store (option (nat * nat)) :=
  match q with
  | [] => mret None
  | d :: q =>
      s ← gets id;
      match datas s !! d with
      | Some (Some n) => mret (Some (n, d))
      | _ => _ ← upd_manager m (set_queue q); _ ← lru_remove d; pool_front q m
      end
  end.

(** ** The node of a manager *)

Definition set_status (x : CacheFileStatus) (c : NodeCtx) : NodeCtx := mkNodeCtx x (cx_version c) (cx_bitmap c) (cx_slices c).

(** [ProxyCacheFileNode::update_file_node_status] *)
Definition update_node_status (n : nat) : stm Store unit :=
  x ← node n;
  h ← head_of (fn_head x);
  s ← gets id;
  if is_expires (now s) h then upd_ctx (fn_ctx x) (set_status Expire) else mret tt.

(** The node that was read, as a node of the store; and its copy that keeps no
    file open. *)
Definition store_node (x : ProxyCacheFileNode) (uniq : Z) (h : nat) : stm Store nat :=
  s ← gets id;
  c ← new_ctx (mkNodeCtx (cache_file_status x) (cache_file_node_version x) (node_bitmap x) ∅);
  new_node (mkFN c uniq (response_info x) h (now s) 0).

Definition closed_copy (n : nat) : stm Store nat :=
  x ← node n; s ← gets id; new_node (mkFN (fn_ctx x) (fn_uniq x) (fn_info x) (fn_head x) (now s) 0).

Definition do_get_cache_file_node (ci : ProxyCacheFileInfo) (m : nat) (is_open_file : bool) : stm Store (bool * option nat) :=
  x ← manager m;
  match cache_node x with
  | Some n => _ ← update_node_status n; mret (false, Some n)
  | None =>
      if negb is_open_file then mret (false, None)
      else
        s ← gets id;
        match from_file (now s) ci (snd <$> disk s !! proxy_cache_path ci) (manage_version x) with
        | Panic => lift Panic
        | Fuel => lift Fuel
        | Err _ | Ok None => mret (false, None)
        | Ok (Some y) =>
            h ← match manage_head x with
                | Some h => mret h
                | None => h ← new_head (node_head y); _ ← upd_manager m (set_manage_head (Some h)); mret h
                end;
            n ← store_node y (default 0 (fst <$> disk s !! proxy_cache_path ci)) h;
            n' ← closed_copy n;
            _ ← upd_manager m (set_cache_node (Some n'));
            d ← new_data n;
            _ ← lru_push d;
            _ ← upd_manager m (fun x => set_queue (node_queue x ++ [d]) x);
            mret (true, Some n')
        end
  end.

(** ** The gate

    What a call of [get_cache_file_node] carries from one stretch to the next:
    what the request asks for, and the variables of the loop. *)
Record Loop := mkLoop {
  l_range : bool;
  l_head : bool;
  l_is_open_file : bool;
  l_upstream_version : Z;
  l_is_ok : bool;
  l_open_err : Z;
  l_file_err : Z
}.

Definition loop_new (is_range is_head : bool) : Loop := mkLoop is_range is_head true (-1) false 0 0.

Definition eta_loop (l : Loop) : Loop :=
  mkLoop (l_range l) (l_head l) (l_is_open_file l) (l_upstream_version l) (l_is_ok l) (l_open_err l) (l_file_err l).
Definition set_open_file : bool -> Loop -> Loop := ltac:(setter eta_loop l_is_open_file).
Definition set_seen_version : Z -> Loop -> Loop := ltac:(setter eta_loop l_upstream_version).
Definition set_ok : bool -> Loop -> Loop := ltac:(setter eta_loop l_is_ok).
Definition set_open_err : Z -> Loop -> Loop := ltac:(setter eta_loop l_open_err).
Definition set_file_err : Z -> Loop -> Loop := ltac:(setter eta_loop l_file_err).

(** What it returns, but for the manager: whether to go upstream, the status
    and the node with its entry of the pool, the count, and whether the count
    goes down when the request is dropped. *)
Record Answer := mkAnswer {
  a_is_upstream : bool;
  a_status : option CacheFileStatus;
  a_data : option nat;
  a_node : option nat;
  a_count : Z;
  a_drop : bool
}.

(** Where the loop is: at its top; looking for the node; at the pool with the
    node that was found; at the file, before and after it was opened; deciding
    with the open node; without a node; at the end of a round; waiting on a
    channel. *)
Inductive Pc :=
  | Start
  | Look (m : nat) (version : Z)
  | Clean (m : nat) (version : Z) (n : nat)
  | Pool (m : nat) (version : Z) (n : nat)
  | Open (m : nat) (version : Z) (n : nat)
  | Opened (m : nat) (uniq : Z) (n : nat)
  | Decide (m : nat) (d n : nat)
  | NoNode (m : nat)
  | Close (m : nat)
  | Waiting (rx : nat)
  | Done (m : nat) (a : Answer)
  | Failed (e : string).

Definition once_time : Z := 1000 * 10.
Definition open_file_err_num_max : Z := 10.
Definition cache_file_err_num_max : Z := 10.

(** A request that takes the gate. *)
Definition take_gate (m : nat) (is_time : bool) : stm Store Z :=
  x ← manager m;
  s ← gets id;
  let count := swrap64 (upstream_count x + 1) in
  _ ← upd_manager m (fun x =>
        let x := set_upstream_count count (set_upstream_version (swrap64 (upstream_version x + 1)) (set_is_upstream true x)) in
        if is_time then set_upstream_time (now s) x else x);
  mret count.

(** Whether a node that was found can be used without waiting. *)
Definition is_usable (l : Loop) (status : CacheFileStatus) (is_full : bool) : bool :=
  match status with
  | Exist => if l_range l || l_head l then true else if is_full then true else l_is_ok l
  | Expire => if is_full || l_head l then true else l_is_ok l
  end.

(** With an open node: what to answer, or another round. *)
Definition decide_node (m d n : nat) (l : Loop) : stm Store (Pc * Loop) :=
  c ← node_ctx n;
  let status := cx_status c in
  let is_full := is_full (cx_bitmap c) in
  let stay := Done m (mkAnswer false (Some status) (Some d) (Some n) 0 false) in
  let go := count ← take_gate m true; mret (Done m (mkAnswer true (Some status) (Some d) (Some n) count true), l) in
  match status with
  | Exist =>
      if l_range l || l_head l then mret (stay, l)
      else if is_full then mret (stay, l)
      else
        x ← manager m;
        if is_upstream x then mret (Start, set_ok false l) else go
  | Expire =>
      x ← manager m;
      s ← gets id;
      if is_upstream x && (now s - upstream_time x <? once_time) && is_full then mret (stay, l)
      else if is_upstream x then mret (Start, set_ok false l)
      else go
  end.

(** The file could not be opened. *)
Definition open_failed (ci : ProxyCacheFileInfo) (m : nat) (version : Z) (l : Loop) : stm Store (Pc * Loop) :=
  x ← manager m;
  if negb (manage_version x =? version) then mret (Start, l)
  else
    s ← gets id;
    match disk s !! proxy_cache_path ci with
    | Some _ =>
        let l := set_open_err (l_open_err l + 1) l in
        if open_file_err_num_max <? l_open_err l then mret (Failed "err:open file", l) else mret (Start, l)
    | None =>
        '(_, n) ← do_get_cache_file_node ci m false;
        _ ← match n with
            | Some _ => _ ← cache_file_node_queue_clear m; upd_manager m (set_cache_node None)
            | None => mret tt
            end;
        mret (Start, l)
    end.

(** The file is another one than that of the node. *)
Definition file_changed (ci : ProxyCacheFileInfo) (m : nat) (version uniq : Z) (l : Loop) : stm Store (Pc * Loop) :=
  x ← manager m;
  if negb (manage_version x =? version) then mret (Start, l)
  else
    '(_, n) ← do_get_cache_file_node ci m true;
    match n with
    | None => mret (Start, l)
    | Some n =>
        y ← node n;
        if fn_uniq y =? uniq then mret (Start, l)
        else
          x ← manager m;
          if negb (manage_version x =? version) then mret (Start, l)
          else
            let l := set_file_err (l_file_err l + 1) l in
            if cache_file_err_num_max <=? l_file_err l then
              _ ← cache_file_node_queue_clear m;
              _ ← upd_manager m (set_cache_node None);
              mret (Start, set_file_err 0 l)
            else mret (Start, l)
    end.

Definition open_node (ci : ProxyCacheFileInfo) (m : nat) (version : Z) (n : nat) (l : Loop) : stm Store (Pc * Loop) :=
  s ← gets id;
  x ← node n;
  match disk s !! proxy_cache_path ci with
  | None => open_failed ci m version l
  | Some (uniq, f) =>
      match load_cache_file_head f with
      | Panic => lift Panic
      | Fuel => lift Fuel
      | Err _ => open_failed ci m version l
      | Ok _ =>
          if negb (fn_uniq x =? uniq) then file_changed ci m version uniq l else mret (Opened m uniq n, l)
      end
  end.

(** The open file joins the pool. *)
Definition pool_node (m : nat) (uniq : Z) (n : nat) : stm Store (nat * nat) :=
  s ← gets id;
  x ← node n;
  n' ← new_node (mkFN (fn_ctx x) uniq (fn_info x) (fn_head x) (now s) 0);
  d ← new_data n';
  _ ← lru_push d;
  _ ← upd_manager m (fun x => set_queue (node_queue x ++ [d]) x);
  mret (d, n').

Definition get_turn (ci : ProxyCacheFileInfo) (pc : Pc) (l : Loop) : stm Store (Pc * Loop) :=
  match pc with
  | Start =>
      '(_, m) ← read_cache_file_node_manage (md5 ci);
      x ← manager m;
      mret (Look m (manage_version x), l)
  | Look m version =>
      '(_, n) ← do_get_cache_file_node ci m (l_is_open_file l);
      let l := set_open_file false l in
      match n with
      | Some n =>
          c ← node_ctx n;
          if is_usable l (cx_status c) (is_full (cx_bitmap c)) then mret (Clean m version n, l) else mret (Close m, l)
      | None => if l_is_ok l then mret (NoNode m, l) else mret (Close m, l)
      end
  | Clean m version n => _ ← clean_queue m; mret (Pool m version n, l)
  | Pool m version n =>
      x ← manager m;
      if negb (manage_version x =? version) then mret (Start, l)
      else
        front ← pool_front (node_queue x) m;
        match front with
        | Some (n, d) => mret (Decide m d n, l)
        | None => mret (Open m version n, l)
        end
  | Open m version n => open_node ci m version n l
  | Opened m uniq n => '(d, n) ← pool_node m uniq n; mret (Decide m d n, l)
  | Decide m d n => decide_node m d n l
  | NoNode m =>
      x ← manager m;
      if is_upstream x then mret (Start, set_ok false l)
      else count ← take_gate m false; mret (Done m (mkAnswer true None None None count true), l)
  | Close m =>
      x ← manager m;
      if negb (is_upstream x) || ((0 <=? l_upstream_version l) && (l_upstream_version l =? upstream_version x)) then
        _ ← upd_manager m (set_is_upstream false);
        mret (Start, set_ok true l)
      else
        rx ← fresh_ref;
        _ ← upd_manager m (fun x => set_waits (upstream_waits x ++ [rx]) x);
        mret (Waiting rx, set_seen_version (upstream_version x) l)
  | Waiting rx => s ← gets id; mret (if bool_decide (rx ∈ fired s) then Start else Waiting rx, l)
  | Done m a => mret (Done m a, l)
  | Failed e => mret (Failed e, l)
  end.

(** The ten seconds of a wait are over. *)
Definition wait_over (pc : Pc) : Pc := match pc with Waiting _ => Start | pc => pc end.
End gate.
