(* ===== verification/CacheServe.v ===== *)
(** A request and the node of its answer: what it does once it is through the
    gate, how the answer of the upstream server changes the node, and how a
    request lets the others go on
    ([any-proxy/src/proxy/http_proxy/http_server_proxy.rs], [util.rs],
    [http_cache_file.rs]).  And how cached answers are taken
    away: a purge, and the files that have expired or for which there is no
    room. *)
From S2P Require Import Prelude RustStd Bitmap FileCache HttpLib HttpHeader CacheFile CacheGate.
From S2P Require HttpCtx.
#[local] Open Scope string_scope.
#[local] Open Scope list_scope.
#[local] Open Scope Z_scope.

Section serve.
Context `{HttpParse}.

(** [HttpCacheStatus] *)
Inductive HttpCacheStatus := Create | Miss | Hit | Bypass | Expired.

(** The fields of [HttpStreamRequestContext] and of its [HttpCacheFile] that
    the gate is about.  [rq_drop] is the manager whose count the
    [UpstreamCountDrop] of the request holds; [rq_body] whether the body of the
    request is still there. *)
Record Request := mkRequest {
  rq_ci : ProxyCacheFileInfo;
  rq_method : Method;
  rq_uri : Uri;
  rq_is_range : bool;
  rq_is_head : bool;
  rq_is_load_range : bool;
  rq_is_304 : bool;
  rq_body : bool;
  rq_content_length : Z;
  rq_is_upstream : bool;
  rq_is_upstream_add : bool;
  rq_drop : option nat;
  rq_max_count : Z;
  rq_expire_to_miss : bool;
  rq_cache_status : HttpCacheStatus;
  rq_is_cache_err : bool;
  hcf_manage : option nat;
  hcf_node : option nat;
  hcf_data : option nat;
  hcf_version : Z;
  hcf_status : option CacheFileStatus
}.

Definition eta_request (r : Request) : Request :=
  mkRequest (rq_ci r) (rq_method r) (rq_uri r) (rq_is_range r) (rq_is_head r) (rq_is_load_range r) (rq_is_304 r) (rq_body r) (rq_content_length r) (rq_is_upstream r)
    (rq_is_upstream_add r) (rq_drop r) (rq_max_count r) (rq_expire_to_miss r) (rq_cache_status r) (rq_is_cache_err r) (hcf_manage r)
    (hcf_node r) (hcf_data r) (hcf_version r) (hcf_status r).
Definition set_is_304 : bool -> Request -> Request := ltac:(setter eta_request rq_is_304).
Definition set_body : bool -> Request -> Request := ltac:(setter eta_request rq_body).
Definition set_rq_upstream : bool -> Request -> Request := ltac:(setter eta_request rq_is_upstream).
Definition set_upstream_add : bool -> Request -> Request := ltac:(setter eta_request rq_is_upstream_add).
Definition set_rq_drop : option nat -> Request -> Request := ltac:(setter eta_request rq_drop).
Definition set_max_count : Z -> Request -> Request := ltac:(setter eta_request rq_max_count).
Definition set_expire_to_miss : bool -> Request -> Request := ltac:(setter eta_request rq_expire_to_miss).
Definition set_cache_status : HttpCacheStatus -> Request -> Request := ltac:(setter eta_request rq_cache_status).
Definition set_is_cache_err : bool -> Request -> Request := ltac:(setter eta_request rq_is_cache_err).
Definition set_hcf_manage : option nat -> Request -> Request := ltac:(setter eta_request hcf_manage).
Definition set_hcf_node : option nat -> Request -> Request := ltac:(setter eta_request hcf_node).
Definition set_hcf_data : option nat -> Request -> Request := ltac:(setter eta_request hcf_data).
Definition set_hcf_version : Z -> Request -> Request := ltac:(setter eta_request hcf_version).
Definition set_hcf_status : option CacheFileStatus -> Request -> Request := ltac:(setter eta_request hcf_status).

Abbreviation W := (Store * Request)%type.
Definition on_store {A} (m : stm Store A) : stm W A := on_fst m.
Definition request : stm W Request := fun w => (Ok w.2, w).
Definition upd (f : Request -> Request) : stm W unit := modify (fun w => (w.1, f w.2)).

(** ** Through the gate *)

(** What [HttpStream::get_cache_file_node] returns. *)
Record Got := mkGot { g_is_ok : bool; g_count : Z; g_drop : option nat; g_status : option CacheFileStatus }.

(** Its first branch: a request that has a node keeps it. *)
Definition keep_node : stm W (option Got) :=
  r ← request;
  match hcf_node r with
  | None => mret None
  | Some n => c ← on_store (node_ctx n); _ ← upd (set_hcf_version (cx_version c)); mret (Some (mkGot true (-1) None None))
  end.

Definition add_request (n : nat) : stm Store unit :=
  s ← gets id;
  upd_node n (fun x => mkFN (fn_ctx x) (fn_uniq x) (fn_info x) (fn_head x) (now s) (swrap64 (fn_requests x + 1))).
Definition done_request (n : nat) : stm Store unit :=
  s ← gets id;
  upd_node n (fun x => mkFN (fn_ctx x) (fn_uniq x) (fn_info x) (fn_head x) (now s) (swrap64 (fn_requests x - 1))).

(** The rest of it, with the answer of the gate. *)
Definition settle (m : nat) (a : Answer) : stm W Got :=
  _ ← match a_data a with
      | None => mret tt
      | Some d =>
          _ ← match a_node a with Some n => on_store (add_request n) | None => mret tt end;
          _ ← on_store (lru_remove d);
          on_store (lru_push d)
      end;
  x ← on_store (manager m);
  _ ← upd (set_hcf_version (manage_version x));
  _ ← upd (set_hcf_manage (Some m));
  _ ← upd (set_hcf_status (a_status a));
  _ ← upd (set_hcf_data (a_data a));
  _ ← upd (set_hcf_node (a_node a));
  let drop := if a_drop a then Some m else None in
  mret (mkGot (negb (match a_node a with None => true | Some _ => a_is_upstream a end)) (a_count a) drop (a_status a)).

(** [Drop] of an [UpstreamCountDrop]. *)
Definition count_down (m : nat) : stm Store unit := upd_manager m (fun x => set_upstream_count (swrap64 (upstream_count x - 1)) x).
Definition drop_count (d : option nat) : stm Store unit := match d with Some m => count_down m | None => mret tt end.

(** The flags of a request that goes upstream. *)
Definition go_upstream (g : Got) : stm W unit :=
  r ← request;
  _ ← upd (set_rq_upstream true);
  _ ← upd (set_upstream_add true);
  _ ← upd (set_max_count (Z.max (rq_max_count r) (g_count g)));
  _ ← on_store (drop_count (rq_drop r));
  upd (set_rq_drop (g_drop g)).

Inductive Served := FromCache | ToUpstream | Nothing.

Definition node_full (n : nat) : stm W bool := c ← on_store (node_ctx n); mret (is_full (cx_bitmap c)).

(** [check_upstream_header], but for the headers. *)
Definition check_upstream_header (n : option nat) (status : option CacheFileStatus) : stm W HttpCacheStatus :=
  match n with
  | None => mret Create
  | Some n =>
      full ← node_full n;
      if full : bool then mret Expired
      else
        _ ← match status with Some Expire => upd (set_expire_to_miss true) | _ => mret tt end;
        mret Miss
  end.

(** [stream_cache_request_not_range]: first the flags, then the gate, then this. *)
Definition start_asking : stm W unit := _ ← upd (set_rq_upstream false); upd (set_upstream_add false).

Definition to_upstream (g : Got) (n : option nat) : stm W Served :=
  r ← request;
  if negb (rq_body r) then fail "body.is_none()"
  else
    _ ← upd (set_body false);
    _ ← go_upstream g;
    status ← check_upstream_header n (g_status g);
    _ ← upd (set_cache_status status);
    mret ToUpstream.

(** [HeaderValue::from_bytes] takes no other characters than these. *)
Definition is_header_char (c : Ascii.ascii) : bool :=
  let n := Z.of_N (Ascii.N_of_ascii c) in ((32 <=? n) && negb (n =? 127)) || (n =? 9).
Fixpoint is_header_text (s : string) : bool :=
  match s with EmptyString => true | String c s => is_header_char c && is_header_text s end.

(** Whether [HttpCacheFile::cache_file_request_head] and
    [cache_file_request_not_range] give an answer from the node [n]. *)
Definition whole_range (raw : Z) : string := "bytes 0-" ++ show_u (raw - 1) ++ "/" ++ show_u raw.
Definition cache_file_request_head (n : nat) : stm W bool :=
  y ← on_store (node n);
  let raw := raw_content_length (HttpCtx.info_range (fn_info y)) in
  mret (if 0 <? raw then is_header_text (whole_range raw) else true).
Definition cache_file_request_not_range (n : nat) : stm W bool := node_full n.

Definition serve_not_range (g : Got) : stm W Served :=
  r ← request;
  match hcf_node r with
  | Some n =>
      if g_is_ok g || rq_is_304 r then
        full ← node_full n;
        if negb (rq_is_head r) && negb full then
          if rq_is_304 r then fail "is_304 not is_full" else to_upstream g (Some n)
        else
          ok ← if rq_is_head r then cache_file_request_head n else cache_file_request_not_range n;
          if negb ok then to_upstream g (Some n)
          else
            _ ← if 0 <? rq_content_length r then upd (set_body false) else mret tt;
            _ ← upd (set_cache_status Hit); mret FromCache
      else to_upstream g (Some n)
  | None => if g_is_ok g then lift Panic else to_upstream g None
  end.

(** [get_or_update_cache_file_node]: a request for a range asks for the head
    of the whole. *)
Definition serve_range (g : Got) : stm W Served :=
  r ← request;
  if g_is_ok g then
    n ← lift (expect (hcf_node r));
    full ← node_full n;
    if negb (rq_is_head r) && (rq_is_load_range r || full) then mret Nothing
    else _ ← upd (set_cache_status Hit); mret FromCache
  else
    _ ← go_upstream g;
    _ ← upd (set_cache_status (match hcf_node r with Some _ => Expired | None => Create end));
    mret ToUpstream.

(** ** Letting the others go on *)

(** The request is no longer upstream. *)
Definition release_count (m : nat) : stm W unit :=
  r ← request;
  if rq_is_upstream_add r then _ ← upd (set_upstream_add false); on_store (count_down m) else mret tt.

Definition open_gate (m : nat) : stm W unit := _ ← on_store (upd_manager m (set_is_upstream false)); release_count m.

Definition wake_all (m : nat) : stm W unit := l ← on_store (take_waits m); on_store (wake l).

(** The answer of the upstream server, as the header filters have made it. *)
Record Out := mkOut {
  o_is_cache : bool;
  o_info : HttpCtx.HttpResponseInfo;
  o_head : option (list Z);
  o_response : Response
}.

(** Where a request is between two places where another task can run, while it
    takes in what came from upstream and when it ends: before the lock of
    [update_expired_cache_file_304]; in [create_cache_file], before the file is
    written, before the manager of the key is looked up, and before its lock; in
    [stream_end_err] before its second lock. *)
Inductive Stage :=
  | Renew304 (headers : HeaderMap) (n m : nat)
  | WriteFile (o : Out) (add version : Z)
  | FindManager (add uniq : Z) (y : ProxyCacheFileNode)
  | Install (add uniq : Z) (y : ProxyCacheFileNode) (m : nat)
  | WakeWaits (m : nat).

(** It is through, and its answer goes on to the client or not; or there is more
    to do. *)
Inductive Next := Over (goes_on : bool) | More (st : Stage).

(** [stream_end_err], but for the slices. *)
Definition stream_end_err : stm W Next :=
  r ← request;
  _ ← if rq_is_upstream r then
        m ← lift (expect (hcf_manage r));
        _ ← on_store (manager m);
        if rq_is_upstream_add r then
          _ ← upd (set_upstream_add false);
          _ ← on_store (upd_manager m (set_is_upstream false));
          on_store (count_down m)
        else mret tt
      else mret tt;
  mret (match hcf_manage r with Some m => More (WakeWaits m) | None => Over false end).

(** The end of the request itself drops its [UpstreamCountDrop]. *)
Definition drop_request : stm W unit := r ← request; _ ← on_store (drop_count (rq_drop r)); upd (set_rq_drop None).

(** [HttpCacheFile::cache_file_node_to_pool]; [after_requests] is
    [proxy_cache_after_requests]. *)
Definition node_to_pool (after_requests : Z) (n d m : nat) : stm W unit :=
  _ ← on_store (done_request n);
  r ← request;
  x ← on_store (manager m);
  _ ← if (match cache_node x with None => true | Some _ => false end) || negb (hcf_version r =? manage_version x) || (request_num x <? after_requests)
      then _ ← on_store (set_nil d); on_store (lru_remove d)
      else mret tt;
  on_store (clean_queue m).

(** [HttpStream::cache_file_node_to_pool] *)
Definition cache_file_node_to_pool (after_requests : Z) : stm W unit :=
  r ← request;
  _ ← upd (set_hcf_node None);
  _ ← upd (set_hcf_data None);
  match hcf_node r with
  | None => mret tt
  | Some n =>
      d ← lift (expect (hcf_data r));
      m ← lift (expect (hcf_manage r));
      node_to_pool after_requests n d m
  end.

(** ** The answer of the upstream server *)

(** The file [from] takes the place of [to], which is renamed away and unlinked
    first. *)
Definition install (from to : string) : stm Store unit :=
  _ ← modify (fun s => set_disk (delete to (disk s)) s);
  s ← gets id;
  match disk s !! from with
  | None => fail "rename"
  | Some f => modify (fun s => set_disk (<[to:=f]> (delete from (disk s))) s)
  end.

Definition write_inode (uniq : Z) (f : File -> File) : stm Store unit :=
  modify (fun s => set_disk ((fun p : Z * File => if p.1 =? uniq then (p.1, f p.2) else p) <$> disk s) s).

(** [HttpCacheFile::set_cache_file_node]: the node [n] becomes the node of its
    key, unless another one was put there since the request came. *)
Definition set_cache_file_node (n m : nat) : stm W bool :=
  r ← request;
  x ← on_store (manager m);
  if (match manage_head x with Some _ => true | None => false end) && negb (hcf_version r =? manage_version x) then mret false
  else
    y ← on_store (node n);
    _ ← on_store (upd_manager m (set_manage_version (wrap64 (manage_version x + 1))));
    _ ← upd (set_hcf_version (wrap64 (hcf_version r + 1)));
    _ ← on_store (upd_ctx (fn_ctx y) (fun c => mkNodeCtx (cx_status c) (wrap64 (cx_version c + 1)) (cx_bitmap c) (cx_slices c)));
    _ ← on_store (upd_manager m (set_manage_head (Some (fn_head y))));
    n' ← on_store (closed_copy n);
    _ ← on_store (upd_manager m (set_cache_node (Some n')));
    _ ← on_store (cache_file_node_queue_clear m);
    _ ← if rq_is_range r then _ ← open_gate m; wake_all m else mret tt;
    _ ← on_store (install (proxy_cache_path_tmp (rq_ci r)) (proxy_cache_path (rq_ci r)));
    mret true.

(** [create_cache_file]: [raw] is the length of the body it replaces. *)
Definition create_cache_file (o : Out) (raw : Z) : stm W Next :=
  r ← request;
  mret (More (WriteFile o (swrap64 (raw_content_length (HttpCtx.info_range (o_info o))) - swrap64 raw) (hcf_version r))).

Definition write_file (o : Out) (add version : Z) : stm W Next :=
  r ← request;
  let ci := rq_ci r in
  '(y, f) ← lift (create_file (rq_method r) (rq_uri r) ci (o_info o) (o_head o) (o_response o) version);
  s ← on_store (gets id);
  _ ← on_store (modify (fun s => set_next_inode (next_inode s + 1) (set_disk (<[proxy_cache_path_tmp ci:=(next_inode s, f)]> (disk s)) s)));
  mret (More (FindManager add (next_inode s) y)).

Definition find_manager (add uniq : Z) (y : ProxyCacheFileNode) : stm W Next :=
  r ← request;
  '(_, m) ← on_store (read_cache_file_node_manage (md5 (rq_ci r)));
  mret (More (Install add uniq y m)).

(** With the lock of the manager [m]. *)
Definition install_node (add uniq : Z) (y : ProxyCacheFileNode) (m : nat) : stm W Next :=
  r ← request;
  let ci := rq_ci r in
  h ← on_store (new_head (node_head y));
  n ← on_store (store_node y uniq h);
  d ← on_store (new_data n);
  ok ← set_cache_file_node n m;
  if ok : bool then
    _ ← on_store (upd_manager m (fun x => set_version_expires (wrap64 (version_expires x + 1)) x));
    x ← on_store (manager m);
    _ ← on_store (modify (fun s => set_curr_size (swrap64 (curr_size s + add))
                            (set_expires_tmp (expires_tmp s ++ [mkExpires (md5 ci) (version_expires x) (manage_version x) h]) s)));
    _ ← upd (set_hcf_node (Some n));
    _ ← match hcf_data r with Some d => _ ← on_store (set_nil d); on_store (lru_remove d) | None => mret tt end;
    _ ← upd (set_hcf_data (Some d));
    _ ← upd (set_hcf_manage (Some m));
    _ ← on_store (lru_push d);
    _ ← on_store (upd_manager m (fun x => set_queue (node_queue x ++ [d]) x));
    mret (Over true)
  else
    _ ← upd (set_is_cache_err true);
    _ ← on_store (modify (fun s => set_disk (delete (proxy_cache_path_tmp ci) (disk s)) s));
    mret (Over true).

Definition same_value (a b : HeaderValue) : bool := String.eqb (hv_bytes a) (hv_bytes b).

(** The answer is still that of the node. *)
Definition same_answer (a b : HttpCtx.HttpResponseInfo) : bool :=
  (HttpCtx.last_modified_time a =? HttpCtx.last_modified_time b) && same_value (HttpCtx.info_last_modified a) (HttpCtx.info_last_modified b) &&
  same_value (HttpCtx.info_e_tag a) (HttpCtx.info_e_tag b) &&
  (raw_content_length (HttpCtx.info_range a) =? raw_content_length (HttpCtx.info_range b)).

Definition set_times (control expires : Z) (h : ProxyCacheFileNodeHead) : ProxyCacheFileNodeHead :=
  mkNodeHead (head_md5 h) (head_md5_str h) (head_path h) (head_path_tmp h) (head_uri h) (head_method h) (head_raw_length h) (head_trie_url h)
    (head_directio h) (head_slice h) expires control false.

(** The times of the node, in memory and in its file. *)
Definition renew_times (m h : nat) (control expires : Z) : stm Store unit :=
  _ ← upd_head h (set_times control expires);
  upd_manager m (fun x => set_version_expires (wrap64 (version_expires x + 1)) x).
Definition write_times (n : nat) (control expires : Z) : stm Store unit :=
  x ← node n; write_inode (fn_uniq x) (update_file_times control expires).

(** The checks [update_expired_cache_file] and its variant for 304 share: the
    node is the current one and was stale, and now counts as fresh. *)
Inductive Checked := Gone | Fresh | Stale (head : nat).
Definition check_stale (n m : nat) : stm Store Checked :=
  x ← manager m;
  y ← node n;
  c ← node_ctx n;
  if negb (cx_version c =? manage_version x) then mret Gone
  else
    match cx_status c with
    | Exist => mret Fresh
    | Expire =>
        _ ← upd_ctx (fn_ctx y) (set_status Exist);
        mret (match manage_head x with Some h => Stale h | None => Gone end)
    end.

Definition update_expired_cache_file (o : Out) (n m : nat) : stm W bool :=
  checked ← on_store (check_stale n m);
  match checked with
  | Gone => mret false
  | Fresh => mret true
  | Stale h =>
      y ← on_store (node n);
      x ← on_store (head_of h);
      let info := o_info o in
      if negb (same_answer (fn_info y) info) then mret false
      else if HttpCtx.expires_time info <=? head_expires_time x then mret true
      else
        _ ← open_gate m;
        l ← on_store (take_waits m);
        _ ← on_store (renew_times m h (HttpCtx.info_cache_control_time info) (HttpCtx.expires_time info));
        _ ← on_store (wake l);
        _ ← on_store (write_times n (HttpCtx.info_cache_control_time info) (HttpCtx.expires_time info));
        mret true
  end.

(** [check_miss] with [update_expired_cache_file_by_not_get]. *)
Definition check_miss (o : Out) (n m : nat) : stm W bool :=
  r ← request;
  x ← on_store (manager m);
  y ← on_store (node n);
  c ← on_store (node_ctx n);
  if negb (cx_version c =? manage_version x) && negb (rq_is_range r) then mret false
  else
    let was_stale := (cx_version c =? manage_version x) && match cx_status c with Expire => true | Exist => false end in
    _ ← if was_stale then on_store (upd_ctx (fn_ctx y) (set_status Exist)) else mret tt;
    match manage_head x with
    | None => mret false
    | Some h =>
        let info := o_info o in
        if negb (same_answer (fn_info y) info) then mret false
        else
          _ ← if was_stale then
                _ ← on_store (renew_times m h (HttpCtx.info_cache_control_time info) (HttpCtx.expires_time info));
                on_store (write_times n (HttpCtx.info_cache_control_time info) (HttpCtx.expires_time info))
              else mret tt;
          mret true
    end.

Definition update_expired_cache_file_304 (headers : HeaderMap) (n m : nat) : stm W bool :=
  let tag := e_tag headers in
  '(modified, modified_time) ← lift (last_modified headers);
  s ← on_store (gets id);
  '(control, expires, _) ← lift (cache_control_time (now s) headers);
  checked ← on_store (check_stale n m);
  match checked with
  | Gone => mret false
  | Fresh => mret true
  | Stale h =>
      y ← on_store (node n);
      x ← on_store (head_of h);
      let info := fn_info y in
      if negb ((HttpCtx.last_modified_time info =? modified_time) && same_value (HttpCtx.info_last_modified info) modified &&
               same_value (HttpCtx.info_e_tag info) tag) then mret false
      else if expires <=? head_expires_time x then mret false
      else
        l ← on_store (take_waits m);
        _ ← on_store (renew_times m h control expires);
        _ ← on_store (wake l);
        _ ← on_store (write_times n control expires);
        mret true
  end.

Definition update_or_create_cache_file (o : Out) : stm W Next :=
  r ← request;
  if negb (o_is_cache o) then
    match hcf_manage r with
    | None => mret (Over true)
    | Some m => _ ← open_gate m; _ ← wake_all m; mret (Over true)
    end
  else
    let or_create (check : Out -> nat -> nat -> stm W bool) :=
      n ← lift (expect (hcf_node r));
      m ← lift (expect (hcf_manage r));
      ok ← check o n m;
      if ok : bool then mret (Over true)
      else x ← on_store (node n); create_cache_file o (raw_content_length (HttpCtx.info_range (fn_info x)))
    in
    match rq_cache_status r with
    | Create => create_cache_file o 0
    | Expired => or_create update_expired_cache_file
    | Miss => or_create check_miss
    | Hit | Bypass => mret (Over true)
    end.

(** An answer of 304 goes no further. *)
Definition not_modified : stm W Next := _ ← upd (set_is_304 true); mret (Over false).

Definition update_or_create_cache_file_304 (headers : HeaderMap) : stm W Next :=
  r ← request;
  m ← lift (expect (hcf_manage r));
  _ ← open_gate m;
  match rq_cache_status r with
  | Expired => n ← lift (expect (hcf_node r)); mret (More (Renew304 headers n m))
  | _ => not_modified
  end.

(** What [stream_response] does of this with a body from upstream, up to the
    first place where another task can run; and each stretch after it. *)
Definition upstream_response (is_not_modified : bool) (headers : HeaderMap) (o : Out) : stm W Next :=
  r ← request;
  if is_not_modified then
    if negb (rq_is_304 r) then update_or_create_cache_file_304 headers else fail "err: 304"
  else update_or_create_cache_file o.

Definition stage_turn (st : Stage) : stm W Next :=
  match st with
  | Renew304 headers n m => _ ← update_expired_cache_file_304 headers n m; not_modified
  | WriteFile o add version => write_file o add version
  | FindManager add uniq y => find_manager add uniq y
  | Install add uniq y m => install_node add uniq y m
  | WakeWaits m => _ ← wake_all m; mret (Over false)
  end.
End serve.

(** ** Taking an answer away

    A deletion looks for the manager of a key, waits for its lock and then
    deletes; the key may have lost the manager or found another one while it
    waited. *)
Section delete.
Context `{HttpParse}.

(** With the lock of the manager [m].  The index of the urls, from which the
    entry of the node goes too, is not part of the store. *)
Definition do_del_cache_file (m : nat) : stm Store unit :=
  x ← manager m;
  h ← lift (expect (manage_head x));
  head ← head_of h;
  _ ← upd_manager m (set_version_expires (wrap64 (version_expires x + 1)));
  _ ← upd_manager m (set_manage_version (wrap64 (manage_version x + 1)));
  _ ← cache_file_node_queue_clear m;
  s ← gets id;
  match disk s !! head_path head with
  | None => mret tt
  | Some _ => modify (fun s => set_disk (delete (head_path head) (disk s)) (set_curr_size (swrap64 (curr_size s - swrap64 (head_raw_length head))) s))
  end.

(** The key goes from the map whatever has become of the file, and whichever
    manager it has by now. *)
Definition del_cache_file (key : list Z) (m : nat) : stm Store unit := fun s =>
  let '(o, s) := do_del_cache_file m s in
  match o with
  | Panic | Fuel => (o, s)
  | Ok _ | Err _ => (o, set_node_map (delete key (node_map s)) s)
  end.

(** [del_md5], for one cache: the manager it then waits for; with its lock it
    calls [del_cache_file]. *)
Definition del_md5_find (key : list Z) : stm Store (option nat) := gets (fun s => node_map s !! key).

(** [set_expires_cache_file], for one cache and with the lock of [m]. *)
Definition set_delay_del (h : ProxyCacheFileNodeHead) : ProxyCacheFileNodeHead :=
  mkNodeHead (head_md5 h) (head_md5_str h) (head_path h) (head_path_tmp h) (head_uri h) (head_method h) (head_raw_length h) (head_trie_url h)
    (head_directio h) (head_slice h) (head_expires_time h) (head_control_time h) true.
Definition set_expires_cache_file (m : nat) : stm Store unit :=
  x ← manager m;
  match manage_head x with Some h => upd_head h set_delay_del | None => mret tt end.

(** [del_expires_cache_file], up to the lock and with it. *)
Definition next_expires : stm Store (option (NodeExpires * nat)) :=
  s ← gets id;
  match expires_total s with
  | [] => mret None
  | e :: l => _ ← modify (set_expires_total l); mret (pair e <$> node_map s !! ex_md5 e)
  end.

Definition del_expires_cache_file (max_size : Z) (e : NodeExpires) (m : nat) : stm Store unit :=
  x ← manager m;
  if negb (ex_node_version e =? manage_version x) then mret tt
  else if negb (ex_version_expires e =? version_expires x) then
    modify (fun s => set_expires_total (expires_total s ++ [mkExpires (ex_md5 e) (version_expires x) (ex_node_version e) (ex_head e)]) s)
  else
    h ← lift (expect (manage_head x));
    head ← head_of h;
    s ← gets id;
    if negb (is_expires (now s) head) && ((max_size <=? 0) || (curr_size s <? max_size)) then
      modify (fun s => set_expires_total (e :: expires_total s) s)
    else del_cache_file (ex_md5 e) m.
End delete.
