(* ===== verification/CacheGateRun.v ===== *)
(** The requests for cached answers as they run together: each may be anywhere
    between two stretches of [get_cache_file_node] or of what follows it, and
    one of them moves at a time.  What holds of the gate in every such run. *)
From S2P Require Import Prelude RustStd Bitmap FileCache HttpLib HttpHeader CacheFile CacheGate CacheServe.
From S2P Require HttpCtx.
#[local] Open Scope string_scope.
#[local] Open Scope list_scope.
#[local] Open Scope Z_scope.

(** ** What a computation may change

    [moves R m]: from every state, [m] ends, with a value or without, in a
    state that is in relation [R]. *)
Definition moves {S A} (R : S -> S -> Prop) (m : stm S A) : Prop := forall s, R s (m s).2.

Section moves.
Context {S : Type} (R : S -> S -> Prop) `{!PreOrder R}.

Lemma moves_bind {A B} (m : stm S A) (f : A -> stm S B) : moves R m -> (forall a, moves R (f a)) -> moves R (m ≫= f).
Proof.
  intros Hm Hf s. unfold mbind, stm_bind. specialize (Hm s). destruct (m s) as [[a|e| |] s1]; cbn in *; [|done..].
  etrans; [exact Hm|apply Hf].
Qed.
Lemma moves_ret {A} (a : A) : moves R (mret a : stm S A).
Proof. intros s. cbn. reflexivity. Qed.
Lemma moves_gets {A} (f : S -> A) : moves R (gets f).
Proof. intros s. cbn. reflexivity. Qed.
Lemma moves_lift {A} (o : outcome A) : moves R (lift o).
Proof. intros s. cbn. reflexivity. Qed.
Lemma moves_fail {A} e : moves R (fail e : stm S A).
Proof. intros s. cbn. reflexivity. Qed.
End moves.

Create HintDb moves.
#[export] Hint Resolve moves_ret moves_gets moves_lift moves_fail : moves.

(** Splits a computation into its calls. *)
Ltac moves_step :=
  lazymatch goal with
  | |- moves _ (_ ≫= _) => apply moves_bind; [apply _| |intros]
  | |- moves _ (let _ := _ in _) => cbv zeta
  | |- moves _ (match ?x with _ => _ end) => destruct x
  end.
Ltac moves_tac := repeat first [progress (auto with moves typeclass_instances) | moves_step].

(** [yields P m]: every value of [m] has [P]. *)
Definition yields {S A} (P : A -> Prop) (m : stm S A) : Prop := forall s a s', m s = (Ok a, s') -> P a.

Section yields.
Context {S A : Type} (P : A -> Prop).

Lemma yields_bind {B} (m : stm S B) (f : B -> stm S A) : (forall b, yields P (f b)) -> yields P (m ≫= f).
Proof.
  intros Hf s a s'. unfold mbind, stm_bind. destruct (m s) as [[b|e| |] s1]; [|done..]. apply Hf.
Qed.
Lemma yields_ret (a : A) : P a -> yields P (mret a : stm S A).
Proof. intros Ha s a' s' E. by injection E as <- _. Qed.
Lemma yields_fail e : yields P (fail e : stm S A).
Proof. done. Qed.
Lemma yields_lift (o : outcome A) : (forall a, o = Ok a -> P a) -> yields P (lift o : stm S A).
Proof. intros Ho s a s' E. injection E as E _. by apply Ho. Qed.
End yields.

Ltac yields_tac :=
  repeat first
    [ apply yields_ret | apply yields_fail | apply yields_bind; intros
    | lazymatch goal with
      | |- yields _ (let _ := _ in _) => cbv zeta
      | |- yields _ (match ?x with _ => _ end) => destruct x
      | |- yields _ (lift _) => apply yields_lift; done
      end ].

Section run.
Context `{HttpParse}.

(** ** Quiet changes of the store *)

(** What the gate of a manager is: closed or open, how often it was taken, and
    who waits. A manager that is not there has a new one's gate. *)
Definition gview (s : Store) (m : nat) : bool * Z * list nat :=
  match managers s !! m with Some x => (is_upstream x, upstream_version x, upstream_waits x) | None => (false, 0, []) end.

Record wf (s : Store) : Prop := {
  wf_new : forall m, is_Some (managers s !! m) -> (m < next_ref s)%nat;
  wf_map : forall k m, node_map s !! k = Some m -> is_Some (managers s !! m);
  wf_key : forall k k' m, node_map s !! k = Some m -> node_map s !! k' = Some m -> k = k'
}.

(** Managers stay, and a key that joins has a new one. *)
Record grown (s s' : Store) : Prop := {
  gr_map : node_map s ⊆ node_map s';
  gr_new : forall k m, node_map s' !! k = Some m -> node_map s !! k = Some m \/ (next_ref s <= m)%nat;
  gr_next : (next_ref s <= next_ref s')%nat;
  gr_there : forall m, is_Some (managers s !! m) -> is_Some (managers s' !! m)
}.

#[export] Instance grown_preorder : PreOrder grown.
Proof.
  split; [by split; auto|]. intros s1 s2 s3 [A1 A2 A3 A4] [B1 B2 B3 B4]. split; [by etrans| |lia|auto].
  intros k m Hk. destruct (B2 k m Hk) as [Hk'|]; [by apply A2|right; lia].
Qed.
Lemma keys_grown_same (s s' : Store) : node_map s' = node_map s -> (next_ref s <= next_ref s')%nat ->
  (forall m, is_Some (managers s !! m) -> is_Some (managers s' !! m)) -> grown s s'.
Proof. intros E1 E2 E3. split; rewrite ?E1; auto. Qed.

Record quiet_changes (s s' : Store) : Prop := {
  qc_grown : grown s s';
  qc_gate : forall m, gview s' m = gview s m;
  qc_fired : fired s' = fired s
}.

(** Everything but the gates may change, and keys may join. *)
Definition quiet (s s' : Store) : Prop := wf s -> wf s' /\ quiet_changes s s'.

#[export] Instance quiet_preorder : PreOrder quiet.
Proof.
  split.
  - intros s Hs. split; [done|]. by split; [reflexivity|..].
  - intros s1 s2 s3 H1 H2 Hs. destruct (H1 Hs) as [Hs2 [A1 A2 A3]]. destruct (H2 Hs2) as [Hs3 [B1 B2 B3]]. split; [done|]. split.
    + by etrans.
    + intros m. by rewrite B2.
    + congruence.
Qed.

(** A change that leaves managers and keys alone. *)
Lemma quiet_same (s s' : Store) : managers s' = managers s -> node_map s' = node_map s -> fired s' = fired s ->
  (next_ref s <= next_ref s')%nat -> quiet s s'.
Proof.
  intros E1 E2 E3 E4 [W1 W2 W3]. split.
  - split; rewrite ?E1, ?E2; [|done..]. intros m Hm. specialize (W1 m Hm). lia.
  - split; [apply keys_grown_same; rewrite ?E1; done| |done]. unfold gview. by rewrite E1.
Qed.

Lemma moves_quiet (f : Store -> Store) : (forall s, managers (f s) = managers s) -> (forall s, node_map (f s) = node_map s) ->
  (forall s, fired (f s) = fired s) -> (forall s, (next_ref s <= next_ref (f s))%nat) -> moves quiet (modify f).
Proof. intros H1 H2 H3 H4 s. apply quiet_same; cbn; auto. Qed.

Lemma moves_manager (m : nat) (f : NodeManage -> NodeManage) :
  (forall x, is_upstream (f x) = is_upstream x /\ upstream_version (f x) = upstream_version x /\ upstream_waits (f x) = upstream_waits x) ->
  moves quiet (upd_manager m f).
Proof.
  intros Hf s [W1 W2 W3]. cbn. split.
  - split; cbn; [| |done].
    + intros m' Hm. apply W1. by rewrite lookup_alter_is_Some in Hm.
    + intros k m' Hk. rewrite lookup_alter_is_Some. by apply (W2 k).
  - split; cbn; [apply keys_grown_same; cbn; [done..|intros m'; by rewrite lookup_alter_is_Some]| |done]. intros m'. unfold gview. cbn.
    destruct (decide (m = m')) as [->|Hm]; [rewrite lookup_alter_eq|by rewrite lookup_alter_ne].
    destruct (managers s !! m') as [x|]; [|done]. cbn. destruct (Hf x) as (-> & -> & ->). done.
Qed.

#[local] Hint Extern 2 (moves quiet (modify _)) => apply moves_quiet; intros; cbn; reflexivity : moves.
#[local] Hint Extern 2 (moves quiet (upd_manager _ _)) => apply moves_manager; intros []; done : moves.

Lemma moves_fresh_ref : moves quiet fresh_ref.
Proof. intros s. apply quiet_same; cbn; [done..|lia]. Qed.
Lemma moves_fresh_version : moves quiet fresh_version.
Proof. intros s. by apply quiet_same. Qed.
#[local] Hint Resolve moves_fresh_ref moves_fresh_version : moves.

Lemma moves_each (l : list nat) f : (forall x, moves quiet (f x)) -> moves quiet (each l f).
Proof. intros Hf. induction l; cbn [each]; moves_tac. Qed.
Ltac quiet_tac := repeat first [progress (auto with moves typeclass_instances) | moves_step | apply moves_each; intros].

Lemma moves_manager_get m : moves quiet (manager m).
Proof. unfold manager. quiet_tac. Qed.
Lemma moves_node n : moves quiet (node n).
Proof. unfold node. quiet_tac. Qed.
#[local] Hint Resolve moves_manager_get moves_node : moves.
Lemma moves_node_ctx n : moves quiet (node_ctx n).
Proof. unfold node_ctx. quiet_tac. Qed.
Lemma moves_head h : moves quiet (head_of h).
Proof. unfold head_of. quiet_tac. Qed.
#[local] Hint Resolve moves_node_ctx moves_head : moves.

Lemma moves_set_nil d : moves quiet (set_nil d).
Proof. unfold set_nil. quiet_tac. Qed.
Lemma moves_lru_remove d : moves quiet (lru_remove d).
Proof. unfold lru_remove. quiet_tac. Qed.
Lemma moves_lru_push d : moves quiet (lru_push d).
Proof. unfold lru_push. quiet_tac. Qed.
#[local] Hint Resolve moves_set_nil moves_lru_remove moves_lru_push : moves.

Lemma moves_queue_clear m : moves quiet (cache_file_node_queue_clear m).
Proof. unfold cache_file_node_queue_clear. quiet_tac. Qed.
Lemma moves_clean m : moves quiet (clean_queue m).
Proof. unfold clean_queue. quiet_tac. Qed.
Lemma moves_pool_front q m : moves quiet (pool_front q m).
Proof. induction q; cbn; quiet_tac. Qed.
Lemma moves_status n : moves quiet (update_node_status n).
Proof. unfold update_node_status, upd_ctx. quiet_tac. Qed.
Lemma moves_new_node x : moves quiet (new_node x).
Proof. unfold new_node. quiet_tac. Qed.
Lemma moves_new_data x : moves quiet (new_data x).
Proof. unfold new_data. quiet_tac. Qed.
Lemma moves_new_head x : moves quiet (new_head x).
Proof. unfold new_head. quiet_tac. Qed.
Lemma moves_new_ctx x : moves quiet (new_ctx x).
Proof. unfold new_ctx. quiet_tac. Qed.
#[local] Hint Resolve moves_queue_clear moves_clean moves_pool_front moves_status moves_new_node moves_new_data moves_new_head moves_new_ctx : moves.
Lemma moves_store_node x u h : moves quiet (store_node x u h).
Proof. unfold store_node. quiet_tac. Qed.
Lemma moves_closed_copy n : moves quiet (closed_copy n).
Proof. unfold closed_copy. quiet_tac. Qed.
#[local] Hint Resolve moves_store_node moves_closed_copy : moves.

Lemma moves_do_get ci m b : moves quiet (do_get_cache_file_node ci m b).
Proof. unfold do_get_cache_file_node. quiet_tac. Qed.
#[local] Hint Resolve moves_do_get : moves.

Lemma moves_open_failed ci m v l : moves quiet (open_failed ci m v l).
Proof. unfold open_failed. quiet_tac. Qed.
Lemma moves_file_changed ci m v u l : moves quiet (file_changed ci m v u l).
Proof. unfold file_changed. quiet_tac. Qed.
#[local] Hint Resolve moves_open_failed moves_file_changed : moves.
Lemma moves_open_node ci m v n l : moves quiet (open_node ci m v n l).
Proof. unfold open_node. quiet_tac. Qed.
Lemma moves_pool_node m u n : moves quiet (pool_node m u n).
Proof. unfold pool_node. quiet_tac. Qed.
#[local] Hint Resolve moves_open_node moves_pool_node : moves.

(** ** What a stretch of [get_cache_file_node] does to a gate *)

Definition pc_manager (pc : Pc) : option nat :=
  match pc with
  | Look m _ | Clean m _ _ | Pool m _ _ | Open m _ _ | Opened m _ _ | Decide m _ _ | NoNode m | Close m | Done m _ => Some m
  | Start | Waiting _ | Failed _ => None
  end.

Definition granted (pc : Pc) : option nat := match pc with Done m a => if a_is_upstream a then Some m else None | _ => None end.

(** The stretches that leave the gates alone end where no gate was taken, and
    remember what the request has seen. *)
Definition plain_end (l : Loop) (r : Pc * Loop) : Prop :=
  granted r.1 = None /\ (forall rx, r.1 <> Waiting rx) /\ l_upstream_version r.2 = l_upstream_version l.

Definition same_manager (m : nat) (r : Pc * Loop) : Prop := pc_manager r.1 = Some m \/ pc_manager r.1 = None.

Lemma open_node_plain ci m v n l : yields (fun r => plain_end l r /\ same_manager m r) (open_node ci m v n l).
Proof.
  unfold open_node, open_failed, file_changed. yields_tac; (split; [by split_and!|]); ((left; reflexivity) || (right; reflexivity)).
Qed.

Record gate_moves (m : nat) (g : bool * Z * list nat) (s s' : Store) : Prop := {
  gm_wf : wf s';
  gm_map : node_map s' = node_map s;
  gm_next : (next_ref s <= next_ref s')%nat;
  gm_gate : gview s' m = g;
  gm_other : forall m', m' <> m -> gview s' m' = gview s m';
  gm_there : forall m', is_Some (managers s' !! m') <-> is_Some (managers s !! m')
}.

Lemma manager_ok m s x : managers s !! m = Some x -> manager m s = (Ok x, s).
Proof. intros E. unfold manager, mbind, stm_bind, gets, lift, expect. cbn. by rewrite E. Qed.

Lemma gate_moves_alter m f s x : wf s -> managers s !! m = Some x ->
  gate_moves m (is_upstream (f x), upstream_version (f x), upstream_waits (f x)) s (set_managers (alter f m (managers s)) s).
Proof.
  intros [W1 W2 W3] E. split; cbn.
  - split; cbn; [intros m'; rewrite lookup_alter_is_Some; auto| |done]. intros k m' Hk. rewrite lookup_alter_is_Some. by apply (W2 k).
  - done.
  - done.
  - unfold gview. cbn. by rewrite lookup_alter_eq, E.
  - intros m' Hm. unfold gview. cbn. by rewrite lookup_alter_ne.
  - intros m'. by rewrite lookup_alter_is_Some.
Qed.

Lemma gate_grown m g s s' : gate_moves m g s s' -> grown s s'.
Proof. intros G. apply keys_grown_same; [apply G..|]. intros m'. apply (gm_there _ _ _ _ G). Qed.

Lemma take_gate_ok m b s x : wf s -> managers s !! m = Some x ->
  exists s', take_gate m b s = (Ok (swrap64 (upstream_count x + 1)), s') /\ fired s' = fired s /\
    gate_moves m (true, swrap64 (upstream_version x + 1), upstream_waits x) s s'.
Proof.
  intros Hs E. unfold take_gate. rewrite (stm_step _ _ _ _ _ (manager_ok _ _ _ E)). eexists. split; [reflexivity|]. split; [done|].
  match goal with |- gate_moves _ _ _ (set_managers (alter ?f _ _) _) => pose proof (gate_moves_alter m f s x Hs E) as G end.
  destruct b, x; exact G.
Qed.

(** ** The four things a stretch can do to the gates *)

Definition closed (s : Store) (m : nat) : bool := (gview s m).1.1.
Definition taken (s : Store) (m : nat) : Z := (gview s m).1.2.
Definition waiting (s : Store) (m : nat) : list nat := (gview s m).2.

Lemma gview_eta s m : gview s m = (closed s m, taken s m, waiting s m).
Proof. unfold closed, taken, waiting. by destruct (gview s m) as [[? ?] ?]. Qed.
Lemma gview_manager s m x : managers s !! m = Some x -> gview s m = (is_upstream x, upstream_version x, upstream_waits x).
Proof. unfold gview. by intros ->. Qed.

(** The gates stay; the request knows only managers of its key, has seen what it
    had seen, and neither waits nor takes a gate. *)
Record quiet_turn (ci : ProxyCacheFileInfo) (pc : Pc) (l : Loop) (r : Pc * Loop) (s' : Store) : Prop := {
  qt_seen : l_upstream_version r.2 = l_upstream_version l;
  qt_manager : forall m, pc_manager r.1 = Some m -> pc_manager pc = Some m \/ node_map s' !! md5 ci = Some m;
  qt_plain : r.1 = pc \/ (granted r.1 = None /\ forall rx, r.1 <> Waiting rx)
}.

(** Where a gate is taken. *)
Definition takes (pc : Pc) (m : nat) : Prop := match pc with Decide k _ _ | NoNode k => k = m | _ => False end.

Inductive turned (ci : ProxyCacheFileInfo) (pc : Pc) (l : Loop) (s : Store) : outcome (Pc * Loop) * Store -> Prop :=
  | TurnQuiet o s' : wf s' -> quiet_changes s s' -> (forall r, o = Ok r -> quiet_turn ci pc l r s') -> turned ci pc l s (o, s')
  | TurnTake m a l' s' : takes pc m -> closed s m = false -> a_is_upstream a = true -> a_drop a = true -> l_upstream_version l' = l_upstream_version l ->
      gate_moves m (true, swrap64 (taken s m + 1), waiting s m) s s' -> fired s' = fired s ->
      turned ci pc l s (Ok (Done m a, l'), s')
  | TurnOpen m l' s' : pc = Close m -> closed s m = true -> l_upstream_version l = taken s m -> 0 <= l_upstream_version l -> l_upstream_version l' = l_upstream_version l ->
      gate_moves m (false, taken s m, waiting s m) s s' -> fired s' = fired s ->
      turned ci pc l s (Ok (Start, l'), s')
  | TurnWait m rx l' s' : pc = Close m -> closed s m = true -> (0 <= l_upstream_version l -> l_upstream_version l <> taken s m) ->
      l_upstream_version l' = taken s m -> next_ref s = rx ->
      gate_moves m (true, taken s m, waiting s m ++ [rx]) s s' -> fired s' = fired s ->
      turned ci pc l s (Ok (Waiting rx, l'), s').

(** A computation that is quiet and ends in a quiet turn. *)
Lemma turned_quiet ci pc l s (c : stm Store (Pc * Loop)) : wf s -> moves quiet c ->
  (forall r s', c s = (Ok r, s') -> quiet_turn ci pc l r s') -> turned ci pc l s (c s).
Proof.
  intros Hs Hq Hr. destruct (Hq s Hs) as [W Q]. destruct (c s) as [o s'] eqn:E. apply TurnQuiet; [done..|]. intros r ->. by apply Hr.
Qed.

Lemma turned_quiet_yields ci pc l s (c : stm Store (Pc * Loop)) : wf s -> moves quiet c ->
  yields (fun r => forall s', quiet_turn ci pc l r s') c -> turned ci pc l s (c s).
Proof. intros Hs Hq Hy. apply turned_quiet; [done..|]. intros r s' E. by apply (Hy _ _ _ E). Qed.

Lemma quiet_turn_of ci pc l r s' : l_upstream_version r.2 = l_upstream_version l ->
  (pc_manager r.1 = pc_manager pc \/ pc_manager r.1 = None) -> granted r.1 = None -> (forall rx, r.1 <> Waiting rx) ->
  quiet_turn ci pc l r s'.
Proof. intros H1 H2 H3 H4. split; [done| |by right]. intros m Hm. left. destruct H2 as [<-|H2]; [done|]. by rewrite Hm in H2. Qed.

Lemma manage_new_ok s : exists x s1, manage_new s = (Ok x, s1) /\ (is_upstream x, upstream_version x, upstream_waits x) = (false, 0, []) /\
  managers s1 = managers s /\ node_map s1 = node_map s /\ next_ref s1 = next_ref s /\ fired s1 = fired s.
Proof. unfold manage_new, mbind, stm_bind. cbn. by do 2 eexists. Qed.

Lemma wf_next s : wf s -> managers s !! next_ref s = None.
Proof.
  intros [W1 _ _]. destruct (managers s !! next_ref s) eqn:E; [|done]. specialize (W1 (next_ref s)). rewrite E in W1.
  assert (next_ref s < next_ref s)%nat by eauto. lia.
Qed.

(** A new manager has a number no one had, and a new gate. *)
Lemma quiet_add_manager key s x : node_map s !! key = None -> (is_upstream x, upstream_version x, upstream_waits x) = (false, 0, []) ->
  quiet s (set_node_map (<[key:=next_ref s]> (node_map s)) (set_managers (<[next_ref s:=x]> (managers s)) (set_next_ref (S (next_ref s)) s))).
Proof.
  intros Ek Ex Hs. pose proof (wf_next s Hs) as En. destruct Hs as [W1 W2 W3]. split; split; cbn.
  - intros m. rewrite lookup_insert_is_Some. intros [<-|[_ Hm]]; [lia|]. specialize (W1 m Hm). lia.
  - intros k m. rewrite lookup_insert_Some. intros [[<- <-]|[_ Hk]]; [by rewrite lookup_insert_eq|].
    rewrite lookup_insert_is_Some. destruct (decide (next_ref s = m)); [by left|]. right. split; [done|]. by apply (W2 k).
  - assert (forall k, node_map s !! k <> Some (next_ref s)) as Hn.
    { intros k Hk. destruct (W2 k _ Hk) as [y Ey]. congruence. }
    intros k k' m. rewrite !lookup_insert_Some. intros [[<- <-]|[_ Hk]] [[<- E]|[_ Hk']]; subst; try done; [by destruct (Hn k')|by destruct (Hn k)|by eapply W3].
  - split; cbn; [by apply insert_subseteq| |lia|].
    + intros k m. rewrite lookup_insert_Some. intros [[_ <-]|[_ Hk]]; [right; lia|by left].
    + intros m Hm. rewrite lookup_insert_is_Some. destruct (decide (next_ref s = m)); [by left|]. by right.
  - intros m. unfold gview. cbn. destruct (decide (next_ref s = m)) as [<-|Hm]; [|by rewrite lookup_insert_ne].
    by rewrite lookup_insert_eq, En.
  - done.
Qed.

Lemma read_manage_ok key s : exists b m s', read_cache_file_node_manage key s = (Ok (b, m), s') /\ node_map s' !! key = Some m /\ quiet s s'.
Proof.
  unfold read_cache_file_node_manage, mbind at 1, stm_bind at 1, gets. cbn. destruct (node_map s !! key) as [m|] eqn:Ek.
  - do 3 eexists. split; [reflexivity|]. split; [done|reflexivity].
  - destruct (manage_new_ok s) as (x & s1 & E & Ex & E1 & E2 & E3 & E4). rewrite (stm_step _ _ _ _ _ E). cbn.
    do 3 eexists. split; [reflexivity|]. cbn. rewrite lookup_insert_eq. split; [done|].
    trans s1; [by apply quiet_same; [..|lia]|]. apply quiet_add_manager; [by rewrite E2|done].
Qed.

Lemma moves_read_manage key : moves quiet (read_cache_file_node_manage key).
Proof. intros s. destruct (read_manage_ok key s) as (b & m & s' & -> & _ & Q). done. Qed.
#[local] Hint Resolve moves_read_manage : moves.

Lemma manager_cases m s : (exists x, managers s !! m = Some x /\ manager m s = (Ok x, s)) \/ manager m s = (Panic, s).
Proof. unfold manager, mbind, stm_bind, gets, lift, expect. cbn. destruct (managers s !! m); eauto. Qed.

Lemma node_ctx_cases n s : (exists c, node_ctx n s = (Ok c, s)) \/ node_ctx n s = (Panic, s).
Proof.
  unfold node_ctx, node, mbind, stm_bind, gets, lift, expect. cbn. destruct (nodes s !! n) as [x|]; cbn; [|eauto].
  destruct (ctxs s !! fn_ctx x); eauto.
Qed.

Lemma stm_step_panic {S A B} (c : stm S A) (f : A -> stm S B) s s1 : c s = (Panic, s1) -> (c ≫= f) s = (Panic, s1).
Proof. unfold mbind, stm_bind. by intros ->. Qed.

Lemma turned_still ci pc l s r : wf s -> quiet_turn ci pc l r s -> turned ci pc l s (Ok r, s).
Proof. intros Hs Hq. apply TurnQuiet; [done|by destruct (reflexivity (R := quiet) s Hs)|]. intros r' E. by injection E as <-. Qed.
Lemma turned_panic ci pc l s : wf s -> turned ci pc l s (Panic, s).
Proof. intros Hs. apply TurnQuiet; [done|by destruct (reflexivity (R := quiet) s Hs)|]. done. Qed.

Lemma turned_manager ci pc l s m (f : NodeManage -> stm Store (Pc * Loop)) : wf s ->
  (forall x, managers s !! m = Some x -> turned ci pc l s (f x s)) -> turned ci pc l s ((x ← manager m; f x) s).
Proof.
  intros Hs Hf. destruct (manager_cases m s) as [(x & Ex & Em)|Em].
  - rewrite (stm_step _ _ _ _ _ Em). by apply Hf.
  - rewrite (stm_step_panic _ _ _ _ Em). by apply turned_panic.
Qed.

Lemma turned_node_ctx ci pc l s n (f : NodeCtx -> stm Store (Pc * Loop)) : wf s ->
  (forall c, turned ci pc l s (f c s)) -> turned ci pc l s ((c ← node_ctx n; f c) s).
Proof.
  intros Hs Hf. destruct (node_ctx_cases n s) as [(c & E)|E].
  - rewrite (stm_step _ _ _ _ _ E). by apply Hf.
  - rewrite (stm_step_panic _ _ _ _ E). by apply turned_panic.
Qed.

Ltac still := by apply turned_still; [|apply quiet_turn_of; auto].

(** A request that takes the gate of a manager that was open. *)
Lemma turned_take ci pc l s m x b (a : Z -> Answer) l' : wf s -> takes pc m -> managers s !! m = Some x -> is_upstream x = false ->
  (forall z, a_is_upstream (a z) = true) -> (forall z, a_drop (a z) = true) -> l_upstream_version l' = l_upstream_version l ->
  turned ci pc l s ((count ← take_gate m b; mret (Done m (a count), l')) s).
Proof.
  intros Hs Hm E Ho Ha Hd Hl. destruct (take_gate_ok m b s x Hs E) as (s' & Et & Ef & G). rewrite (stm_step _ _ _ _ _ Et).
  apply TurnTake; auto; unfold closed, taken, waiting; by rewrite (gview_manager _ _ _ E).
Qed.

Lemma decide_turned ci m d n l s : wf s -> turned ci (Decide m d n) l s (decide_node m d n l s).
Proof.
  intros Hs. unfold decide_node. apply turned_node_ctx; [done|]. intros c. cbv zeta. destruct (cx_status c).
  - apply turned_manager; [done|]. intros x Ex. rewrite (stm_step (gets id) _ s s s eq_refl).
    destruct (is_upstream x && _ && _); [still|]. destruct (is_upstream x) eqn:Eu; [still|].
    by apply (turned_take ci _ l s m x true (fun count => mkAnswer true _ _ _ count true)).
  - destruct (l_range l || l_head l); [still|]. destruct (is_full (cx_bitmap c)); [still|].
    apply turned_manager; [done|]. intros x Ex. destruct (is_upstream x) eqn:Eu; [still|].
    by apply (turned_take ci _ l s m x true (fun count => mkAnswer true _ _ _ count true)).
Qed.

Lemma no_node_turned ci m l s : wf s -> turned ci (NoNode m) l s (get_turn ci (NoNode m) l s).
Proof.
  intros Hs. cbn [get_turn]. apply turned_manager; [done|]. intros x Ex. destruct (is_upstream x) eqn:Eu; [still|].
  by apply (turned_take ci _ l s m x false (fun count => mkAnswer true _ _ _ count true)).
Qed.

Lemma close_turned ci m l s : wf s -> turned ci (Close m) l s (get_turn ci (Close m) l s).
Proof.
  intros Hs. cbn [get_turn]. apply turned_manager; [done|]. intros x Ex. pose proof (gview_manager s m x Ex) as Eg.
  assert (closed s m = is_upstream x /\ taken s m = upstream_version x /\ waiting s m = upstream_waits x) as (Ec & Et & Ew).
  { unfold closed, taken, waiting. by rewrite Eg. }
  destruct (is_upstream x) eqn:Eu; cbn [negb orb].
  - destruct ((0 <=? l_upstream_version l) && (l_upstream_version l =? upstream_version x)) eqn:Es.
    + apply andb_prop in Es as [E0 E1]. apply Z.leb_le in E0. apply Z.eqb_eq in E1.
      eapply TurnOpen; [reflexivity|done|congruence|done|done| |reflexivity].
      rewrite Et, Ew. apply (gate_moves_alter m (set_is_upstream false) s x Hs Ex).
    + unfold fresh_ref, mbind, stm_bind. cbn. eapply TurnWait; [reflexivity|done| |done|reflexivity| |reflexivity].
      { intros E0 E1. rewrite Et in E1. apply Z.leb_le in E0. by rewrite E0, E1, Z.eqb_refl in Es. }
      assert (wf (set_next_ref (S (next_ref s)) s)) as Hs1.
      { apply (quiet_same s); cbn; [done..|lia|done]. }
      rewrite Et, Ew, <- Eu.
      destruct (gate_moves_alter m (fun x => set_waits (upstream_waits x ++ [next_ref s]) x) _ x Hs1 Ex) as [G1 G2 G3 G4 G5 G6]. split; [done|done|cbn in *; lia|done..].
  - unfold mbind, stm_bind. cbn. apply TurnQuiet.
    + by apply (gate_moves_alter m (set_is_upstream false) s x Hs Ex).
    + pose proof (gate_moves_alter m (set_is_upstream false) s x Hs Ex) as G. split; [exact (gate_grown _ _ _ _ G)| |done].
      intros m'. destruct (decide (m' = m)) as [->|Hm]; [|by apply G]. rewrite (gm_gate _ _ _ _ G), Eg. done.
    + intros r E. injection E as <-. by apply quiet_turn_of; auto.
Qed.

Theorem turn_turned ci pc l s : wf s -> turned ci pc l s (get_turn ci pc l s).
Proof.
  intros Hs. destruct pc as [|m v|m v n|m v n|m v n|m u n|m d n|m|m|rx|m a|e].
  - cbn [get_turn]. destruct (read_manage_ok (md5 ci) s) as (b & m & s1 & E & Em & Q). rewrite (stm_step _ _ _ _ _ E).
    destruct (Q Hs) as [Hs1 Qs]. destruct (manager_cases m s1) as [(x & Ex & E1)|E1].
    + rewrite (stm_step _ _ _ _ _ E1). apply TurnQuiet; [done..|]. intros r Er. injection Er as <-. split; [done| |by right].
      intros m' Hm. injection Hm as <-. by right.
    + rewrite (stm_step_panic _ _ _ _ E1). by apply TurnQuiet.
  - apply turned_quiet_yields; [done|cbn [get_turn]; quiet_tac|]. cbn [get_turn]. yields_tac; intros s'; apply quiet_turn_of; auto.
  - apply turned_quiet_yields; [done|cbn [get_turn]; quiet_tac|]. cbn [get_turn]. yields_tac; intros s'; apply quiet_turn_of; auto.
  - apply turned_quiet_yields; [done|cbn [get_turn]; quiet_tac|]. cbn [get_turn]. yields_tac; intros s'; apply quiet_turn_of; auto.
  - apply turned_quiet; [done|cbn [get_turn]; quiet_tac|]. intros r s' E.
    destruct (open_node_plain ci m v n l _ _ _ E) as [(H1 & H2 & H3) H4]. by apply quiet_turn_of.
  - apply turned_quiet_yields; [done|cbn [get_turn]; quiet_tac|]. cbn [get_turn]. yields_tac; intros s'; apply quiet_turn_of; auto.
  - by apply decide_turned.
  - by apply no_node_turned.
  - by apply close_turned.
  - cbn [get_turn]. apply turned_still; [done|]. unfold id.
    destruct (bool_decide (rx ∈ fired s)); split; cbn; [done|done|by right|done|auto|by left].
  - apply turned_still; [done|]. split; [done|auto|by left].
  - apply turned_still; [done|]. split; [done|auto|by left].
Qed.
End run.

#[export] Hint Extern 2 (moves quiet (modify _)) => apply moves_quiet; intros; cbn; reflexivity : moves.
#[export] Hint Extern 2 (moves quiet (upd_manager _ _)) => apply moves_manager; intros []; done : moves.
#[export] Hint Resolve moves_fresh_ref moves_fresh_version moves_manager_get moves_node moves_node_ctx moves_head moves_set_nil moves_lru_remove
  moves_lru_push moves_queue_clear moves_clean moves_status moves_new_node moves_new_data moves_new_head moves_new_ctx moves_store_node
  moves_closed_copy moves_do_get moves_read_manage : moves.
Ltac quiet_tac := repeat first [progress (auto with moves typeclass_instances) | moves_step | apply moves_each; intros].

(** ** What the rest of a request does to the gates

    No stretch takes one, each opens at most the gate of the manager it is about,
    and a request whose stretch has opened a gate no longer counts as one that is
    upstream. *)
Section serve.
Context `{HttpParse}.
Abbreviation W := (Store * Request)%type.

(** The request is upstream with the gate of [m]. *)
Definition holds (m : nat) (r : Request) : bool := rq_is_upstream_add r && bool_decide (hcf_manage r = Some m).

(** The manager [m] is there; and it is the one the request knows, when [b]. *)
Record through (b : bool) (m : nat) (w : W) : Prop := {
  th_wf : wf w.1;
  th_there : is_Some (managers w.1 !! m);
  th_manage : b = true -> hcf_manage w.2 = Some m
}.

Record served_changes (m : nat) (w w' : W) : Prop := {
  sc_grown : grown w.1 w'.1;
  sc_other : forall k, k <> m -> gview w'.1 k = gview w.1 k;
  sc_taken : taken w'.1 m = taken w.1 m;
  sc_closed : closed w'.1 m = true -> closed w.1 m = true;
  sc_add : rq_is_upstream_add w'.2 = true -> rq_is_upstream_add w.2 = true;
  sc_release : closed w.1 m = true -> closed w'.1 m = false -> rq_is_upstream_add w'.2 = false;
  sc_ci : rq_ci w'.2 = rq_ci w.2;
  sc_manage : hcf_manage w'.2 = hcf_manage w.2 \/ hcf_manage w'.2 = Some m
}.

Definition serves (b : bool) (m : nat) (w w' : W) : Prop := through b m w -> through b m w' /\ served_changes m w w'.

#[export] Instance serves_preorder b m : PreOrder (serves b m).
Proof.
  split.
  - intros w Hw. split; [done|]. split; try done; [|by left]. intros E1 E2. congruence.
  - intros w1 w2 w3 H1 H2 Hw. destruct (H1 Hw) as [Hw2 [A1 A2 A3 A4 A5 A6 A7 A8]]. destruct (H2 Hw2) as [Hw3 [B1 B2 B3 B4 B5 B6 B7 B8]].
    split; [done|]. split; [by etrans|intros k Hk; by rewrite B2, A2|congruence|auto|auto| |congruence|].
    + intros E1 E3. destruct (closed w2.1 m) eqn:E2; [auto|]. destruct (rq_is_upstream_add w3.2) eqn:E; [|done].
      rewrite (A6 E1 eq_refl) in B5. symmetry. auto.
    + destruct B8 as [->|]; [done|by right].
Qed.

Lemma serves_store b m (w : W) s' : quiet w.1 s' -> serves b m w (s', w.2).
Proof.
  intros Q [W1 W2 W3]. destruct (Q W1) as [W5 [Q1 Q2 Q3]]. split; [split; [done|by apply Q1|done]|].
  split; cbn; auto; try (unfold taken, closed; by rewrite Q2). unfold closed. rewrite Q2. congruence.
Qed.

Lemma serves_on_store {A} b m (c : stm Store A) : moves quiet c -> moves (serves b m) (on_store c).
Proof.
  intros Hc [s r]. unfold on_store, on_fst. specialize (Hc s). destruct (c s) as [o s']. by apply (serves_store b m (s, r)).
Qed.

Lemma serves_upd b m f : (forall r, rq_ci (f r) = rq_ci r /\ hcf_manage (f r) = hcf_manage r) ->
  (forall r, rq_is_upstream_add (f r) = true -> rq_is_upstream_add r = true) -> moves (serves b m) (upd f).
Proof.
  intros Hf Ha [s r] [W1 W2 W3]. cbn in *. destruct (Hf r) as [F1 F2]. split; [split; cbn; [done..|rewrite F2; done]|].
  split; cbn; auto; [reflexivity|congruence].
Qed.

(** What the request is can be used in what follows. *)
Lemma serves_request {A} b m (f : Request -> stm W A) :
  (forall r, (b = true -> hcf_manage r = Some m) -> moves (serves b m) (f r)) -> moves (serves b m) (r ← request; f r).
Proof. intros Hf [s r] Hw. pose proof Hw as [W1 W2 W3]. by apply (Hf r). Qed.

Lemma serves_manager b m f : (forall x, is_upstream (f x) = is_upstream x /\ upstream_version (f x) = upstream_version x) ->
  moves (serves b m) (on_store (upd_manager m f)).
Proof.
  intros Hf [s r] [[W1a W1b W1c] W2 W3]. cbn in *.
  assert (forall k, gview (set_managers (alter f m (managers s)) s) k = if decide (k = m) then (closed s m, taken s m, waiting (set_managers (alter f m (managers s)) s) m) else gview s k) as Eg.
  { intros k. destruct (decide (k = m)) as [->|Hk]; unfold closed, taken, waiting, gview; cbn; [|by rewrite lookup_alter_ne].
    rewrite lookup_alter_eq. destruct (managers s !! m) as [x|]; [|done]. cbn. by destruct (Hf x) as [-> ->]. }
  split.
  - split; cbn; [|by rewrite lookup_alter_is_Some|done]. split; cbn; [intros k; rewrite lookup_alter_is_Some; auto| |done].
    intros k m' Hk. rewrite lookup_alter_is_Some. by apply (W1b k).
  - split; cbn; auto.
    + apply keys_grown_same; cbn; [done..|]. intros k. by rewrite lookup_alter_is_Some.
    + intros k Hk. rewrite Eg. by destruct (decide (k = m)).
    + unfold taken at 1. rewrite Eg. by destruct (decide (m = m)).
    + unfold closed at 1. rewrite Eg. by destruct (decide (m = m)).
    + unfold closed at 2. rewrite Eg. destruct (decide (m = m)); [|done]. cbn. congruence.
Qed.

(** A request that does not count as upstream may open the gate of its key. *)
Lemma serves_open b m (w : W) : rq_is_upstream_add w.2 = false ->
  serves b m w (set_managers (alter (set_is_upstream false) m (managers w.1)) w.1, w.2).
Proof.
  intros Ea [W1 [x Ex] W3]. pose proof (gate_moves_alter m (set_is_upstream false) w.1 x W1 Ex) as G. pose proof G as [G1 _ _ G3 G4 G5].
  split; [split; cbn; [done|by apply G5; eauto|done]|]. split; cbn; auto.
  - exact (gate_grown _ _ _ _ G).
  - unfold taken. rewrite G3. by rewrite (gview_manager _ _ _ Ex).
  - unfold closed. by rewrite G3.
Qed.

Lemma serves_release b m : moves (serves b m) (open_gate m).
Proof.
  intros [s r]. unfold open_gate, release_count, count_down. unfold mbind, stm_bind. cbn. destruct (rq_is_upstream_add r) eqn:Ea; cbn.
  - trans (s, set_upstream_add false r).
    { pose proof (serves_upd b m (set_upstream_add false) (fun r => conj eq_refl eq_refl)) as Hu. apply (Hu ltac:(done) (s, r)). }
    etrans; [by apply (serves_open b m)|]. cbn.
    exact (serves_manager b m (fun x => set_upstream_count (swrap64 (upstream_count x - 1)) x) ltac:(by intros [])
      (set_managers (alter (set_is_upstream false) m (managers s)) s, set_upstream_add false r)).
  - by apply (serves_open b m (s, r)).
Qed.

#[local] Hint Extern 2 (moves (serves _ _) (upd _)) => apply serves_upd; [intros; split; reflexivity|intros; done] : moves.
#[local] Hint Extern 2 (moves (serves _ _) (on_store (upd_manager _ _))) => apply serves_manager; intros []; done : moves.
#[local] Hint Extern 3 (moves (serves _ _) (on_store _)) => apply serves_on_store; solve [quiet_tac] : moves.
#[local] Hint Resolve serves_release : moves.

Ltac serves_step :=
  first
    [ progress (auto with moves typeclass_instances)
    | lazymatch goal with
      | |- moves (serves _ _) (request ≫= _) => let E := fresh in apply serves_request; intros ? E; try specialize (E eq_refl)
      | |- moves ?R (lift (Ok ?a) ≫= ?f) => change (moves R (f a)); cbv beta
      | E : hcf_manage ?r = Some _ |- moves (serves _ _) ?g =>
          match g with context [hcf_manage r] => rewrite E; cbn [expect] end
      end
    | moves_step ].
Ltac serves_tac := repeat serves_step.

Lemma serves_take_waits b m : moves (serves b m) (on_store (take_waits m)).
Proof.
  intros [s r]. unfold on_store, on_fst, take_waits.
  destruct (manager_cases m s) as [(x & Ex & Em)|Em]; [rewrite (stm_step _ _ _ _ _ Em)|rewrite (stm_step_panic _ _ _ _ Em)].
  - exact (serves_manager b m (set_waits []) ltac:(by intros []) (s, r)).
  - cbn. reflexivity.
Qed.

Lemma serves_wake b m l : moves (serves b m) (on_store (wake l)).
Proof.
  intros [s r] [[W1a W1b W1c] W2 W3]. split; [by split|]. split; cbn; try done; [by apply keys_grown_same|unfold closed, gview; cbn; congruence|by left].
Qed.
#[local] Hint Resolve serves_take_waits serves_wake : moves.

Lemma serves_wake_all b m : moves (serves b m) (wake_all m).
Proof. unfold wake_all. serves_tac. Qed.
#[local] Hint Resolve serves_wake_all : moves.

Lemma moves_count_down k : moves quiet (count_down k).
Proof. apply moves_manager. by intros []. Qed.
Lemma moves_drop_count d : moves quiet (drop_count d).
Proof. destruct d; [apply moves_count_down|apply moves_ret; apply _]. Qed.
#[local] Hint Resolve moves_count_down moves_drop_count : moves.
Lemma serves_count_down b m k : moves (serves b m) (on_store (count_down k)).
Proof. serves_tac. Qed.

(** Not counting as upstream any more, and then opening the gate. *)
Lemma serves_no_longer b m : moves (serves b m) (_ ← upd (set_upstream_add false); _ ← on_store (upd_manager m (set_is_upstream false)); on_store (count_down m)).
Proof.
  intros [s r]. unfold mbind, stm_bind. cbn. trans (s, set_upstream_add false r).
  { exact (serves_upd b m (set_upstream_add false) (fun r => conj eq_refl eq_refl) ltac:(done) (s, r)). }
  etrans; [by apply (serves_open b m)|]. exact (serves_count_down b m m (set_managers (alter (set_is_upstream false) m (managers s)) s, set_upstream_add false r)).
Qed.
#[local] Hint Resolve serves_no_longer : moves.

(** *** The operations *)

Lemma serves_end_err m : moves (serves true m) stream_end_err.
Proof. unfold stream_end_err. serves_tac. Qed.
Lemma serves_drop b m : moves (serves b m) drop_request.
Proof. unfold drop_request. serves_tac. Qed.
Lemma serves_node_to_pool b m a n d k : moves (serves b m) (node_to_pool a n d k).
Proof. unfold node_to_pool, done_request, upd_node. serves_tac. Qed.
#[local] Hint Resolve serves_node_to_pool : moves.
Lemma serves_to_pool b m a : moves (serves b m) (cache_file_node_to_pool a).
Proof. unfold cache_file_node_to_pool. serves_tac. Qed.

Lemma moves_install a b : moves quiet (install a b).
Proof. unfold install. quiet_tac. Qed.
Lemma moves_write_inode u f : moves quiet (write_inode u f).
Proof. unfold write_inode. quiet_tac. Qed.
Lemma moves_add_request n : moves quiet (add_request n).
Proof. unfold add_request, upd_node. quiet_tac. Qed.
Lemma moves_upd_ctx n f : moves quiet (upd_ctx n f).
Proof. unfold upd_ctx. quiet_tac. Qed.
Lemma moves_renew m h c e : moves quiet (renew_times m h c e).
Proof. unfold renew_times, upd_head. quiet_tac. Qed.
#[local] Hint Resolve moves_install moves_write_inode moves_add_request moves_upd_ctx moves_renew : moves.
Lemma moves_write_times n c e : moves quiet (write_times n c e).
Proof. unfold write_times. quiet_tac. Qed.
Lemma moves_check_stale n m : moves quiet (check_stale n m).
Proof. unfold check_stale. quiet_tac. Qed.
#[local] Hint Resolve moves_write_times moves_check_stale : moves.

Lemma serves_set_node b m n : moves (serves b m) (set_cache_file_node n m).
Proof. unfold set_cache_file_node. serves_tac. Qed.
#[local] Hint Resolve serves_set_node : moves.

Lemma serves_set_manage b m : moves (serves b m) (upd (set_hcf_manage (Some m))).
Proof.
  intros [s r] [W1 W2 W3]. cbn in *. split; [by split|]. split; cbn; auto; [reflexivity|]. intros E1 E2. congruence.
Qed.
#[local] Hint Resolve serves_set_manage : moves.

Lemma serves_install b m add u y : moves (serves b m) (install_node add u y m).
Proof. unfold install_node. serves_tac. Qed.
Lemma serves_write_file b m o add v : moves (serves b m) (write_file o add v).
Proof. unfold write_file. serves_tac. Qed.
Lemma serves_find b m add u y : moves (serves b m) (find_manager add u y).
Proof. unfold find_manager. serves_tac. Qed.
Lemma serves_create b m o z : moves (serves b m) (create_cache_file o z).
Proof. unfold create_cache_file. serves_tac. Qed.
Lemma serves_not_modified b m : moves (serves b m) not_modified.
Proof. unfold not_modified. serves_tac. Qed.
#[local] Hint Resolve serves_install serves_write_file serves_find serves_create serves_not_modified : moves.

Lemma serves_update_expired b m o n : moves (serves b m) (update_expired_cache_file o n m).
Proof. unfold update_expired_cache_file. serves_tac. Qed.
Lemma serves_check_miss b m o n : moves (serves b m) (check_miss o n m).
Proof. unfold check_miss. serves_tac. Qed.
Lemma serves_update_304 b m h n : moves (serves b m) (update_expired_cache_file_304 h n m).
Proof. unfold update_expired_cache_file_304. serves_tac. Qed.
#[local] Hint Resolve serves_update_expired serves_check_miss serves_update_304 : moves.
Lemma serves_update_or_create m o : moves (serves true m) (update_or_create_cache_file o).
Proof. unfold update_or_create_cache_file. serves_tac. Qed.
Lemma serves_update_or_create_304 m h : moves (serves true m) (update_or_create_cache_file_304 h).
Proof. unfold update_or_create_cache_file_304. serves_tac. Qed.
#[local] Hint Resolve serves_update_or_create serves_update_or_create_304 : moves.
Lemma serves_response m b h o : moves (serves true m) (upstream_response b h o).
Proof. unfold upstream_response. serves_tac. Qed.

(** The manager whose lock a stretch takes, or any other. *)
Definition stage_manager (st : Stage) (m : nat) : Prop := match st with Renew304 _ _ k | Install _ _ _ k | WakeWaits k => k = m | _ => True end.
Lemma serves_stage b m st : stage_manager st m -> moves (serves b m) (stage_turn st).
Proof. destruct st; intros Hm; cbn in Hm; subst; cbn [stage_turn]; serves_tac. Qed.
End serve.

#[export] Hint Resolve moves_add_request moves_drop_count moves_count_down : moves.
