(* ===== verification/CacheWorld.v ===== *)
(** All requests for the answers of one cache, with the store they share: one of
    them at a time does its next stretch, in any order; purges and expiry take
    keys out of the map; and the rest of the program changes what is not a
    gate. *)
From S2P Require Import Prelude RustStd Bitmap FileCache HttpLib HttpHeader CacheFile CacheGate CacheServe CacheGateRun.
From S2P Require HttpCtx.
#[local] Open Scope string_scope.
#[local] Open Scope list_scope.
#[local] Open Scope Z_scope.

Section world.
Context `{HttpParse}.
Abbreviation W := (Store * Request)%type.

(** A request is in [get_cache_file_node], or at a place where it waits in what
    follows, or somewhere else. *)
Inductive Phase := Idle | Asking (pc : Pc) (l : Loop) | Answering (st : Stage).
Record Client := mkClient { c_request : Request; c_phase : Phase }.
Record World := mkWorld { w_store : Store; w_clients : list Client }.

(** What a stretch has done that the gates are about: it starts to ask; it took
    the gate of a manager; it starts to wait at one; or it is a stray, which opens
    a gate it has not taken, or goes upstream without having taken one.  And a key
    may lose its manager. *)
Inductive Event := Asked | Granted (m : nat) | Waits (m : nat) | Stray (m : nat) | Removed (key : list Z).

(** What a client can do next. *)
Inductive Act :=
  | Ask
  | Turn
  | TimedOut
  | Serve
  | Respond (is_not_modified : bool) (headers : HeaderMap) (o : Out)
  | Proceed
  | EndErr
  | ToPool (after_requests : Z)
  | DropCount.

(** A request for a range is served by the one function, the others by the
    other. *)
Definition serve (g : Got) : stm W Served := r ← request; if rq_is_range r then serve_range g else serve_not_range g.

(** Before the gate: a request that has a node is served at once. *)
Definition ask : stm W bool :=
  _ ← start_asking;
  g ← keep_node;
  match g with
  | None => mret true
  | Some g => _ ← serve g; mret false
  end.

(** After the gate. *)
Definition after_gate (m : nat) (a : Answer) : stm W Served := g ← settle m a; serve g.

Definition without_grant (is_granted : bool) (r : Request) : list Event :=
  match hcf_manage r with Some m => if rq_is_upstream_add r && negb is_granted then [Stray m] else [] | None => [] end.

(** A waiter that finds the gate closed since it last looked, and by the same
    request, opens it. *)
Definition turn_event (pc : Pc) (l : Loop) (s : Store) (o : outcome (Pc * Loop)) : list Event :=
  match o, pc with
  | Ok (Done m a, _), (Decide _ _ _ | NoNode _) => if a_is_upstream a then [Granted m] else []
  | Ok (Waiting _, _), Close m => [Waits m]
  | Ok (Start, _), Close m => if closed s m then [Stray m] else []
  | _, _ => []
  end.

Definition phase_of (o : outcome (Pc * Loop)) : Phase := match o with Ok (pc, l) => Asking pc l | _ => Idle end.

(** A stretch about the manager [m] after which the request counts as upstream
    with its gate, or the gate is open, although it did not before. *)
Definition stray_of (m : nat) (r : Request) (s : Store) (r' : Request) (s' : Store) : list Event :=
  if negb (holds m r) && (holds m r' || (closed s m && negb (closed s' m))) then [Stray m] else [].

Definition next_phase (o : outcome Next) : Phase := match o with Ok (More st) => Answering st | _ => Idle end.

(** The manager a stretch is about. *)
Definition stage_known (st : Stage) : option nat := match st with Renew304 _ _ m | Install _ _ _ m | WakeWaits m => Some m | _ => None end.
Definition stage_gate (st : Stage) (r : Request) : option nat := match stage_known st with Some m => Some m | None => hcf_manage r end.

(** The next stretch of a client. *)
Definition act (a : Act) (c : Client) (s : Store) : option (Client * Store * list Event) :=
  let r := c_request c in
  let idle {A} (m : stm W A) (e : Request -> list Event) :=
    let '(_, (s', r')) := m (s, r) in Some (mkClient r' Idle, s', e r') in
  let answers (g : option nat) (m : stm W Next) :=
    match g with
    | Some k => let '(o, (s', r')) := m (s, r) in Some (mkClient r' (next_phase o), s', stray_of k r s r' s')
    | None => None
    end in
  match a, c_phase c with
  | Ask, Idle =>
      let '(o, (s', r')) := ask (s, r) in
      match o with
      | Ok true => Some (mkClient r' (Asking Start (loop_new (rq_is_range r) (rq_is_head r))), s', [Asked])
      | _ => Some (mkClient r' Idle, s', without_grant false r')
      end
  | Turn, Asking pc l => let '(o, s') := get_turn (rq_ci r) pc l s in Some (mkClient r (phase_of o), s', turn_event pc l s o)
  | TimedOut, Asking pc l => Some (mkClient r (Asking (wait_over pc) l), s, [])
  | Serve, Asking (Done m a) _ => idle (after_gate m a) (without_grant (a_is_upstream a))
  | Respond b h o, Idle => answers (hcf_manage r) (upstream_response b h o)
  | Proceed, Answering st => answers (stage_gate st r) (stage_turn st)
  | EndErr, Idle => answers (hcf_manage r) stream_end_err
  | ToPool n, Idle => if bool_decide (is_Some (hcf_manage r)) then idle (cache_file_node_to_pool n) (fun _ => []) else None
  | DropCount, Idle => if bool_decide (is_Some (hcf_manage r)) then idle drop_request (fun _ => []) else None
  | _, _ => None
  end.

(** What a deletion does to a key. *)
Definition removal (key : list Z) (s s' : Store) : list Event :=
  match node_map s !! key, node_map s' !! key with Some _, None => [Removed key] | _, _ => [] end.

(** A step of the world, with who did what.  A deletion has the lock of a
    manager that its key may have lost since it looked; here it may be any. *)
Inductive step : World -> list (nat * Event) -> World -> Prop :=
  | step_env w s' : quiet (w_store w) s' -> step w [] (mkWorld s' (w_clients w))
  | step_come w r : rq_is_upstream_add r = false -> hcf_manage r = None ->
      step w [] (mkWorld (w_store w) (w_clients w ++ [mkClient r Idle]))
  | step_purge w i key m o s' : del_cache_file key m (w_store w) = (o, s') ->
      step w (pair i <$> removal key (w_store w) s') (mkWorld s' (w_clients w))
  | step_expires w i max_size e m o s' : del_expires_cache_file max_size e m (w_store w) = (o, s') ->
      step w (pair i <$> removal (ex_md5 e) (w_store w) s') (mkWorld s' (w_clients w))
  | step_act w i a c c' s' ev : w_clients w !! i = Some c -> act a c (w_store w) = Some (c', s', ev) ->
      step w (pair i <$> ev) (mkWorld s' (<[i:=c']> (w_clients w))).

Inductive run (w : World) : list (nat * Event) -> World -> Prop :=
  | run_nil : run w [] w
  | run_step tr w1 ev w2 : run w tr w1 -> step w1 ev w2 -> run w (tr ++ ev) w2.

#[export] Instance event_eq_dec : EqDecision Event.
Proof. solve_decision. Defined.

(** ** Who is upstream *)

Definition holder (m : nat) (c : Client) : bool :=
  match c_phase c with Idle | Answering _ => holds m (c_request c) | Asking pc _ => bool_decide (granted pc = Some m) end.
Definition holders (m : nat) (cs : list Client) : nat := length (filter (fun c => holder m c = true) cs).
Definition events (e : Event) (tr : list Event) : nat := length (filter (fun x => x = e) tr).


Lemma holders_insert m cs i c c' : cs !! i = Some c ->
  (holders m (<[i:=c']> cs) + Nat.b2n (holder m c) = holders m cs + Nat.b2n (holder m c'))%nat.
Proof.
  unfold holders. revert i. induction cs as [|x cs IH]; intros [|i] E; cbn in E; [done|done| |].
  - injection E as ->. cbn [insert list_insert]. rewrite !filter_cons. clear IH. destruct (holder m c), (holder m c'); cbn [Nat.b2n]; repeat case_decide; done || (cbn [length]; lia).
  - change (<[S i:=c']> (x :: cs)) with (x :: <[i:=c']> cs). rewrite !filter_cons. specialize (IH i E).
    case_decide; cbn [length]; lia.
Qed.
Lemma holders_app m cs c : holders m (cs ++ [c]) = (holders m cs + Nat.b2n (holder m c))%nat.
Proof. unfold holders. rewrite filter_app, length_app, filter_cons, filter_nil. by destruct (holder m c). Qed.
Lemma events_app e tr ev : events e (tr ++ ev) = (events e tr + events e ev)%nat.
Proof. unfold events. by rewrite filter_app, length_app. Qed.
Lemma events_one e : events e [e] = 1%nat.
Proof. unfold events. by rewrite filter_cons, decide_True. Qed.

(** The managers a request knows. *)
Definition in_phase (p : Phase) : option nat := match p with Idle => None | Asking pc _ => pc_manager pc | Answering st => stage_known st end.
Definition knows (c : Client) (m : nat) : Prop := hcf_manage (c_request c) = Some m \/ in_phase (c_phase c) = Some m.
Definition key_of (c : Client) : list Z := md5 (rq_ci (c_request c)).

(** They are there; while a request asks it does not count as upstream; and
    what it takes in comes through the gate of a manager. *)
Record client_ok (s : Store) (c : Client) : Prop := {
  ck_known : forall m, knows c m -> is_Some (managers s !! m);
  ck_asking : forall pc l, c_phase c = Asking pc l -> rq_is_upstream_add (c_request c) = false;
  ck_answering : forall st, c_phase c = Answering st -> is_Some (hcf_manage (c_request c))
}.

Lemma client_kept s s' c : (forall m, is_Some (managers s !! m) -> is_Some (managers s' !! m)) -> client_ok s c -> client_ok s' c.
Proof. intros Hs [H1 H2 H3]. split; auto. Qed.

(** ** Before the gate and after it *)

(** The gates stay, and the request learns of no manager but [o]. *)
Record goes (o : option nat) (w w' : W) : Prop := {
  go_quiet : quiet w.1 w'.1;
  go_ci : rq_ci w'.2 = rq_ci w.2;
  go_manage : hcf_manage w'.2 = hcf_manage w.2 \/ (is_Some o /\ hcf_manage w'.2 = o)
}.

#[local] Instance goes_preorder o : PreOrder (goes o).
Proof.
  split; [by split; auto|]. intros w1 w2 w3 [A1 A2 A3] [B1 B2 B3]. split; [by etrans|congruence|].
  destruct B3 as [->|]; [done|by right].
Qed.

Lemma goes_store {A} o (c : stm Store A) : moves quiet c -> moves (goes o) (on_store c).
Proof. intros Hc [s r]. unfold on_store, on_fst. specialize (Hc s). destruct (c s) as [x s']. split; cbn; auto. Qed.
Lemma goes_upd o f : (forall r, rq_ci (f r) = rq_ci r /\ hcf_manage (f r) = hcf_manage r) -> moves (goes o) (upd f).
Proof. intros Hf [s r]. destruct (Hf r). split; cbn; auto. reflexivity. Qed.
Lemma goes_set_manage m : moves (goes (Some m)) (upd (set_hcf_manage (Some m))).
Proof. intros [s r]. split; cbn; [reflexivity|done|right; eauto]. Qed.
Lemma goes_request o : moves (goes o) request.
Proof. intros [s r]. cbn. reflexivity. Qed.
#[local] Hint Extern 2 (moves (goes _) (upd _)) => apply goes_upd; intros; split; reflexivity : moves.
#[local] Hint Extern 3 (moves (goes _) (on_store _)) => apply goes_store; solve [quiet_tac] : moves.
#[local] Hint Resolve goes_set_manage goes_request : moves.

Lemma goes_settle m a : moves (goes (Some m)) (settle m a).
Proof. unfold settle. moves_tac. Qed.
Lemma goes_go_upstream o g : moves (goes o) (go_upstream g).
Proof. unfold go_upstream. moves_tac. Qed.
Lemma goes_full o n : moves (goes o) (node_full n).
Proof. unfold node_full. moves_tac. Qed.
#[local] Hint Resolve goes_settle goes_go_upstream goes_full : moves.
Lemma goes_check o n st : moves (goes o) (check_upstream_header n st).
Proof. unfold check_upstream_header. moves_tac. Qed.
#[local] Hint Resolve goes_check : moves.
Lemma goes_serve o g : moves (goes o) (serve g).
Proof. unfold serve, serve_range, serve_not_range, to_upstream, cache_file_request_head, cache_file_request_not_range. moves_tac. Qed.
#[local] Hint Resolve goes_serve : moves.
Lemma goes_after_gate m a : moves (goes (Some m)) (after_gate m a).
Proof. unfold after_gate. moves_tac. Qed.
Lemma goes_ask : moves (goes None) ask.
Proof. unfold ask, start_asking, keep_node. moves_tac. Qed.

Lemma goes_to_pool n : moves (goes None) (cache_file_node_to_pool n).
Proof. unfold cache_file_node_to_pool, node_to_pool, done_request, upd_node. moves_tac. Qed.
Lemma goes_drop : moves (goes None) drop_request.
Proof. unfold drop_request. moves_tac. Qed.

(** ** What an act does to one gate *)

(** The holders of [m], with one client that moves from [c] to [c'], stay within
    the closed gate and the strays. *)
Definition accounted (m : nat) (c c' : Client) (s s' : Store) (ev : list Event) : Prop :=
  (Nat.b2n (holder m c') + Nat.b2n (closed s m) <= Nat.b2n (holder m c) + Nat.b2n (closed s' m) + events (Stray m) ev)%nat.

Record act_spec (c c' : Client) (s s' : Store) (ev : list Event) : Prop := {
  as_wf : wf s';
  as_grown : grown s s';
  as_key : key_of c' = key_of c;
  as_learns : forall m, knows c' m -> knows c m \/ node_map s' !! key_of c = Some m;
  as_asking : forall pc l, c_phase c' = Asking pc l -> rq_is_upstream_add (c_request c') = false;
  as_answering : forall st, c_phase c' = Answering st -> is_Some (hcf_manage (c_request c'));
  as_account : forall m, accounted m c c' s s' ev
}.

Lemma act_client_ok c c' s s' ev : client_ok s c -> act_spec c c' s s' ev -> client_ok s' c'.
Proof.
  intros [K1 K2 K3] [A1 A2 A3 A4 A5 A6 A7]. split; [|done..]. intros m Hm.
  destruct (A4 m Hm) as [Hm'|Hm']; [by apply A2, K1|by eapply wf_map].
Qed.

Lemma closed_same s s' m : gview s' m = gview s m -> closed s' m = closed s m.
Proof. unfold closed. by intros ->. Qed.

Lemma holds_manage m r : holds m r = true -> hcf_manage r = Some m /\ rq_is_upstream_add r = true.
Proof. unfold holds. intros [E1 E2]%andb_prop. by apply bool_decide_eq_true in E2. Qed.
Lemma holds_not m r : rq_is_upstream_add r = false -> holds m r = false.
Proof. unfold holds. by intros ->. Qed.

Lemma without_grant_stray m b r : holds m r = true -> b = false -> without_grant b r = [Stray m].
Proof. intros [E1 E2]%holds_manage ->. unfold without_grant. by rewrite E1, E2. Qed.

Lemma holder_plain m r pc l : granted pc = None -> holder m (mkClient r (Asking pc l)) = false.
Proof. unfold holder. cbn. intros ->. by apply bool_decide_eq_false. Qed.

(** A request that has left the gates alone. *)
Lemma act_goes (c : Client) o s r' s' (b : bool) : wf s -> client_ok s c -> goes o (s, c_request c) (s', r') ->
  (forall k, o = Some k -> knows c k) ->
  (b = true -> exists k, holder k c = true /\ (rq_is_upstream_add r' = true -> hcf_manage r' = Some k)) ->
  act_spec c (mkClient r' Idle) s s' (without_grant b r').
Proof.
  intros Hs [K1 K2 K3] [Q Ec Em] Ho Hb. cbn in *. destruct (Q Hs) as [Hs' [Q1 Q2 Q3]]. split; [done|done| | |done|done|].
  - unfold key_of. cbn. by rewrite Ec.
  - intros m [Hm|[=]]. cbn in Hm. left. destruct Em as [Em|[_ Em]]; [left; congruence|apply Ho; congruence].
  - intros m. unfold accounted. rewrite (closed_same s s' m (Q2 m)). cbn.
    destruct (holds m r') eqn:Eh; cbn; [|lia]. destruct b.
    + destruct (Hb eq_refl) as (k & Hk & Hk'). destruct (holds_manage m r' Eh) as [E1 E2]. rewrite (Hk' E2) in E1.
      injection E1 as ->. rewrite Hk. cbn. lia.
    + rewrite (without_grant_stray m false r' Eh eq_refl), events_one. lia.
Qed.

Lemma ask_asks s r o w : ask (s, r) = (o, w) -> o = Ok true -> rq_is_upstream_add w.2 = false.
Proof.
  unfold ask, start_asking, keep_node, mbind, stm_bind. cbn. destruct (hcf_node r) as [n|].
  - cbn. destruct (node_ctx n s) as [[x|e| |] s2]; cbn; [|by intros [= <- _]..].
    destruct (serve _ _) as [[x1|e| |] w1]; by intros [= <- _].
  - cbn. by intros [= <- <-].
Qed.

Lemma act_ask c s c' s' ev : wf s -> client_ok s c -> act Ask c s = Some (c', s', ev) -> act_spec c c' s s' ev.
Proof.
  intros Hs Hc. destruct c as [r []]; [|done..]. cbn [act c_phase c_request]. pose proof (goes_ask (s, r)) as G.
  destruct (ask (s, r)) as [o [s1 r1]] eqn:Ea. cbn [snd] in G.
  assert (act_spec (mkClient r Idle) (mkClient r1 Idle) s s1 (without_grant false r1)) as Hidle.
  { by apply (act_goes (mkClient r Idle) None). }
  destruct o as [[|]|e| |]; intros E; injection E as <- <- <-; try exact Hidle.
  pose proof (ask_asks _ _ _ _ Ea eq_refl) as Ea1. cbn in Ea1.
  destruct G as [Q Ec Em]. destruct (Q Hs) as [Hs' [Q1 Q2 Q3]]. cbn in *. split; [done|done| | |done|done|].
  - unfold key_of. cbn. by rewrite Ec.
  - intros m [Hm|[=]]. cbn in Hm. left. left. cbn. destruct Em as [Em|[[] Em]]; congruence.
  - intros m. unfold accounted. rewrite (closed_same s s1 m (Q2 m)), holder_plain by done. cbn [Nat.b2n]. lia.
Qed.

Lemma gate_moves_spec m0 g s s' : gate_moves m0 g s s' -> closed s' m0 = g.1.1 /\ forall m, m <> m0 -> closed s' m = closed s m.
Proof. intros G. split; [unfold closed; by rewrite (gm_gate _ _ _ _ G)|]. intros m Hm. by apply closed_same, G. Qed.

Lemma takes_manager pc m : takes pc m -> pc_manager pc = Some m.
Proof. by destruct pc; try done; cbn; intros ->. Qed.

Lemma act_turn c s c' s' ev : wf s -> client_ok s c -> act Turn c s = Some (c', s', ev) -> act_spec c c' s s' ev.
Proof.
  intros Hs [K1 K2 K3]. destruct c as [r [|pc l|]]; [done| |done]. cbn [act c_phase c_request] in *. pose proof (turn_turned (rq_ci r) pc l s Hs) as T.
  specialize (K2 pc l eq_refl). destruct (get_turn (rq_ci r) pc l s) as [o s1]. intros E. injection E as <- <- <-.
  remember (o, s1) as os eqn:Eos.
  destruct T as [o0 s0 Hs0 [Q1 Q2 Q3] Hq|m0 a l' s0 Hp Hc Ha Hd Hl G Ef|m0 l' s0 -> Hc He Hv Hok G Ef|m0 rx l' s0 -> Hc He El Erx G Ef];
    injection Eos as <- <-.
  - split; [done|done|done| |done|by destruct o0 as [[]| | |]|].
    + intros m [Hm|Hm]; cbn in Hm; [by left; left|]. destruct o0 as [[pc1 l1]|e| |]; try done.
      destruct (Hq _ eq_refl) as [H1 H2 H3]. destruct (H2 m Hm) as [Hm'|]; [left; by right|by right].
    + intros m. unfold accounted. rewrite (closed_same s _ m (Q2 m)).
      destruct o0 as [[pc1 l1]|e| |]; cbn [phase_of]; [|cbn; rewrite (holds_not m r K2); cbn [Nat.b2n]; lia..].
      destruct (Hq _ eq_refl) as [H1 H2 [H3|[H3 H4]]]; cbn [fst] in *.
      * subst pc1. cbn. lia.
      * rewrite holder_plain by done. cbn [Nat.b2n]. lia.
  - pose proof (gate_moves_spec _ _ _ _ G) as [C1 C2]. split; [apply G|exact (gate_grown _ _ _ _ G)|done| |done|done|].
    + intros m [Hm|Hm]; cbn in Hm; left; [by left|right]. injection Hm as <-. by apply takes_manager.
    + intros m. unfold accounted. destruct (decide (m = m0)) as [->|Hm].
      * rewrite C1, Hc. cbn. rewrite Ha. rewrite bool_decide_true by done. cbn [Nat.b2n]. lia.
      * rewrite (C2 m Hm). cbn. rewrite Ha. rewrite (bool_decide_false (Some m0 = Some m)) by congruence. cbn [Nat.b2n]. lia.
  - pose proof (gate_moves_spec _ _ _ _ G) as [C1 C2]. split; [apply G|exact (gate_grown _ _ _ _ G)|done| |done|done|].
    + intros m [Hm|Hm]; cbn in Hm; [left; by left|done].
    + intros m. unfold accounted. cbn [phase_of]. rewrite !holder_plain by done. cbn [turn_event]. rewrite Hc. destruct (decide (m = m0)) as [->|Hm].
      * rewrite Hc, C1, events_one. cbn [Nat.b2n fst]. lia.
      * rewrite (C2 m Hm). lia.
  - pose proof (gate_moves_spec _ _ _ _ G) as [C1 C2]. split; [apply G|exact (gate_grown _ _ _ _ G)|done| |done|done|].
    + intros m [Hm|Hm]; cbn in Hm; [left; by left|done].
    + intros m. unfold accounted. cbn [phase_of]. rewrite !holder_plain by done. destruct (decide (m = m0)) as [->|Hm].
      * rewrite Hc, C1. cbn [Nat.b2n fst]. lia.
      * rewrite (C2 m Hm). lia.
Qed.

(** *** What follows the gate *)

(** The gates before and after a stretch about the manager [k]. *)
Lemma served_account k s r s' r' p p' : served_changes k (s, r) (s', r') ->
  (forall m, holder m (mkClient r p) = holds m r) -> (forall m, holder m (mkClient r' p') = holds m r') ->
  forall m, accounted m (mkClient r p) (mkClient r' p') s s' (stray_of k r s r' s').
Proof.
  intros [S1 S2 S3 S4 S5 S6 S7 S8] Hp Hp' m. unfold accounted. rewrite Hp, Hp'. cbn [fst snd] in *. destruct (decide (m = k)) as [->|Hm].
  - unfold stray_of. destruct (holds k r') eqn:E'.
    + destruct (holds_manage _ _ E') as [_ E2].
      assert (Nat.b2n (closed s k) <= Nat.b2n (closed s' k))%nat.
      { destruct (closed s k) eqn:C1, (closed s' k) eqn:C2; cbn; try lia. rewrite (S6 eq_refl eq_refl) in E2. done. }
      destruct (holds k r); cbn [negb andb orb]; rewrite ?events_one; cbn [Nat.b2n]; lia.
    + destruct (holds k r), (closed s k) eqn:C1, (closed s' k) eqn:C2; cbn [negb andb orb]; rewrite ?events_one; cbn [Nat.b2n]; lia.
  - rewrite (closed_same s s' m (S2 m Hm)). destruct (holds m r') eqn:E'; [|cbn [Nat.b2n]; lia].
    destruct (holds_manage _ _ E') as [E1 E2]. destruct S8 as [E8|E8]; [|congruence].
    assert (holds m r = true) as ->; [|cbn [Nat.b2n]; lia]. unfold holds. rewrite S5 by done. rewrite <- E8. by apply bool_decide_eq_true.
Qed.
(** The stretches that wait again know no more managers than the request does,
    or than its key has. *)
Definition next_known (r : Request) (s' : Store) (o : outcome Next) : Prop :=
  forall st m, o = Ok (More st) -> stage_known st = Some m -> hcf_manage r = Some m \/ node_map s' !! md5 (rq_ci r) = Some m.

Lemma next_known_yields (c : stm W Next) r w : yields (fun x => forall st m, x = More st -> stage_known st = Some m -> hcf_manage r = Some m) c ->
  next_known r (c w).2.1 (c w).1.
Proof. intros Hy st m E Hm. left. destruct (c w) as [o w'] eqn:Ec. cbn in E. subst o. by apply (Hy _ _ _ Ec st m). Qed.
Ltac known_tac := intros ? ? [=]; subst; cbn; intros [=]; subst; done.

Lemma response_known b h o s r : next_known r (upstream_response b h o (s, r)).2.1 (upstream_response b h o (s, r)).1.
Proof.
  unfold upstream_response. rewrite (stm_step request _ (s, r) r (s, r) eq_refl). destruct b.
  - destruct (negb (rq_is_304 r)); [|by intros st m E]. unfold update_or_create_cache_file_304. rewrite (stm_step request _ (s, r) r (s, r) eq_refl).
    destruct (hcf_manage r) as [k|] eqn:Ek; [|by intros st m E].
    rewrite (stm_step (lift (expect (Some k))) _ (s, r) k (s, r) eq_refl). apply next_known_yields. unfold not_modified. rewrite Ek. yields_tac; known_tac.
  - apply next_known_yields. unfold update_or_create_cache_file, create_cache_file. yields_tac; known_tac.
Qed.

Lemma end_known s r : next_known r (stream_end_err (s, r)).2.1 (stream_end_err (s, r)).1.
Proof.
  unfold stream_end_err. rewrite (stm_step request _ (s, r) r (s, r) eq_refl). apply next_known_yields.
  apply yields_bind. intros _. apply yields_ret. destruct (hcf_manage r); known_tac.
Qed.

Lemma stage_turn_known st s r : next_known r (stage_turn st (s, r)).2.1 (stage_turn st (s, r)).1.
Proof.
  destruct st; cbn [stage_turn].
  1,4,5: apply next_known_yields; unfold not_modified, install_node; yields_tac; known_tac.
  - apply next_known_yields. unfold write_file. yields_tac; known_tac.
  - unfold find_manager. rewrite (stm_step request _ (s, r) r (s, r) eq_refl). destruct (read_manage_ok (md5 (rq_ci r)) s) as (b & m & s1 & E & Em & _).
    assert (on_store (read_cache_file_node_manage (md5 (rq_ci r))) (s, r) = (Ok (b, m), (s1, r))) as E1 by (unfold on_store, on_fst; by rewrite E).
    rewrite (stm_step _ _ _ _ _ E1). intros st j [= <-]. cbn. intros [= <-]. by right.
Qed.

Lemma stage_gate_known st r : is_Some (hcf_manage r) ->
  exists k, stage_gate st r = Some k /\ stage_manager st k /\ knows (mkClient r (Answering st)) k.
Proof. intros [j Ej]. unfold stage_gate, knows. destruct st; cbn; eauto. Qed.

(** A stretch that may wait again. *)
Lemma act_answers (c : stm W Next) b k r p s : (forall s r, next_known r (c (s, r)).2.1 (c (s, r)).1) -> moves (serves b k) c -> (forall pc l, p <> Asking pc l) ->
  wf s -> client_ok s (mkClient r p) -> knows (mkClient r p) k -> is_Some (hcf_manage r) -> (b = true -> hcf_manage r = Some k) ->
  let '(o, (s', r')) := c (s, r) in act_spec (mkClient r p) (mkClient r' (next_phase o)) s s' (stray_of k r s r' s').
Proof.
  intros Hk Hm Hp Hs [K1 K2 K3] Hkn Hsome Hb. specialize (Hm (s, r)). specialize (Hk s r). destruct (c (s, r)) as [o [s' r']]. cbn [fst snd] in *.
  destruct Hm as [[T1 T2 T3] Sc]; [by split; [|apply K1|]|]. pose proof Sc as [S1 S2 S3 S4 S5 S6 S7 S8]. cbn [fst snd] in *. split; [done|done| | |..].
  - unfold key_of. cbn. by rewrite S7.
  - intros m [Hm|Hm]; cbn in Hm.
    + left. destruct S8 as [E|E]; rewrite E in Hm; [by left|by injection Hm as <-].
    + destruct o as [[|st]|e| |]; try done. cbn in Hm. destruct (Hk st m eq_refl Hm) as [Hm'|Hm']; [left; by left|by right].
  - intros pc l. by destruct o as [[]| | |].
  - intros st _. cbn. destruct S8 as [->| ->]; [done|by eexists].
  - apply served_account; [done| |]; intros m; [|by destruct o as [[]| | |]]. destruct p as [|pc l|]; [done| |done]. by destruct (Hp pc l).
Qed.

(** A request that ends without opening a gate. *)
Lemma act_quiet r s r' s' : wf s -> client_ok s (mkClient r Idle) -> goes None (s, r) (s', r') ->
  (rq_is_upstream_add r' = true -> rq_is_upstream_add r = true) -> act_spec (mkClient r Idle) (mkClient r' Idle) s s' [].
Proof.
  intros Hs [K1 K2 K3] [Q Ec Em] Ha. destruct (Q Hs) as [Hs' [Q1 Q2 Q3]]. cbn in *.
  assert (hcf_manage r' = hcf_manage r) as E by (destruct Em as [Em|[[] Em]]; congruence).
  split; [done|done| | |done|done|].
  - unfold key_of. cbn. by rewrite Ec.
  - intros m [Hm|[=]]. cbn in Hm. left. left. cbn. by rewrite <- E.
  - intros m. unfold accounted. rewrite (closed_same s s' m (Q2 m)). cbn. destruct (holds m r') eqn:Eh; [|cbn; lia].
    destruct (holds_manage _ _ Eh) as [E1 E2]. assert (holds m r = true) as ->; [|cbn; lia].
    unfold holds. rewrite Ha by done. rewrite <- E. by apply bool_decide_eq_true.
Qed.

(** *** Going upstream with the gate that was taken *)

Definition keeps_add (w w' : W) : Prop := rq_is_upstream_add w'.2 = rq_is_upstream_add w.2.
#[local] Instance keeps_add_preorder : PreOrder keeps_add.
Proof. split; [done|]. intros w1 w2 w3 E1 E2. unfold keeps_add in *. congruence. Qed.
Lemma keeps_add_store {A} (c : stm Store A) : moves keeps_add (on_store c).
Proof. intros [s r]. unfold on_store, on_fst. by destruct (c s). Qed.
Lemma keeps_add_upd f : (forall r, rq_is_upstream_add (f r) = rq_is_upstream_add r) -> moves keeps_add (upd f).
Proof. intros Hf [s r]. apply Hf. Qed.
Lemma keeps_add_request : moves keeps_add request.
Proof. by intros [s r]. Qed.
#[local] Hint Extern 2 (moves keeps_add (upd _)) => apply keeps_add_upd; intros []; done : moves.
#[local] Hint Resolve keeps_add_store keeps_add_request : moves.

Lemma settle_keeps m a : moves keeps_add (settle m a).
Proof. unfold settle. moves_tac. Qed.
Lemma settle_manage m a w g w' : settle m a w = (Ok g, w') -> hcf_manage w'.2 = Some m.
Proof.
  unfold settle. intros E. apply stm_bind_ok in E as (u1 & w1 & _ & E). apply stm_bind_ok in E as (x & w2 & _ & E).
  apply stm_bind_ok in E as (u2 & w3 & _ & E). cbn in E. by injection E as _ <-.
Qed.

(** Only the manager whose gate was asked for. *)
Lemma after_gate_manage m a s r s' r' o : rq_is_upstream_add r = false -> after_gate m a (s, r) = (o, (s', r')) ->
  rq_is_upstream_add r' = true -> hcf_manage r' = Some m.
Proof.
  intros Ea E Ea'. unfold after_gate, mbind, stm_bind in E. pose proof (settle_keeps m a (s, r)) as K.
  destruct (settle m a (s, r)) as [[g|e| |] [s1 r1]] eqn:Es; [|injection E as <- <- <-; unfold keeps_add in K; cbn in K; congruence..].
  pose proof (settle_manage _ _ _ _ _ Es) as Em. cbn in Em. destruct (goes_serve None g (s1, r1)) as [_ _ G]. rewrite E in G. cbn in G.
  destruct G as [->|[[] _]]; done.
Qed.

Theorem act_ok a c s c' s' ev : wf s -> client_ok s c -> act a c s = Some (c', s', ev) -> act_spec c c' s s' ev.
Proof.
  intros Hs Hc. destruct a as [| | | |b h o| | |n|].
  - by apply act_ask.
  - by apply act_turn.
  - destruct c as [r [|pc l|]]; [done| |done]. cbn [act c_phase c_request]. intros E. injection E as <- <- <-. destruct Hc as [K1 K2 K3].
    split; [done|reflexivity|done| |intros; by apply (K2 pc l)|done|].
    + intros m [Hm|Hm]; left; [by left|right]. cbn in Hm |- *. by destruct pc.
    + intros m. unfold accounted. cbn. by destruct pc; cbn; lia.
  - destruct c as [r [|[] l|]]; try done. cbn [act c_phase c_request]. pose proof (goes_after_gate m a (s, r)) as G.
    destruct (after_gate m a (s, r)) as [o [s1 r1]] eqn:Eg. intros E. injection E as <- <- <-. cbn [snd] in G.
    apply (act_goes (mkClient r (Asking (Done m a) l)) (Some m)); [done..| |].
    + intros k E. injection E as <-. by right.
    + intros Ha. exists m. split; [cbn; rewrite Ha; by apply bool_decide_eq_true|].
      intros Ea. eapply after_gate_manage; [|exact Eg|done]. by apply (ck_asking _ _ Hc (Done m a) l).
  - destruct c as [r []]; [|done..]. cbn [act c_phase c_request]. destruct (hcf_manage r) as [k|] eqn:Ek; [|done].
    pose proof (act_answers (upstream_response b h o) true k r Idle s (response_known b h o) (serves_response _ _ _ _) ltac:(done) Hs Hc ltac:(by left) ltac:(by eexists) ltac:(done)) as A.
    destruct (upstream_response b h o (s, r)) as [x [s1 r1]]. by intros [= <- <- <-].
  - destruct c as [r [| |st]]; [done..|]. cbn [act c_phase c_request]. destruct (ck_answering _ _ Hc st eq_refl) as [j Ej]. cbn in Ej.
    destruct (stage_gate_known st r ltac:(by eexists)) as (k & -> & Hk1 & Hk2).
    pose proof (act_answers (stage_turn st) false k r (Answering st) s (stage_turn_known st) (serves_stage _ _ _ Hk1) ltac:(done) Hs Hc Hk2 ltac:(by eexists) ltac:(done)) as A.
    destruct (stage_turn st (s, r)) as [x [s1 r1]]. by intros [= <- <- <-].
  - destruct c as [r []]; [|done..]. cbn [act c_phase c_request]. destruct (hcf_manage r) as [k|] eqn:Ek; [|done].
    pose proof (act_answers stream_end_err true k r Idle s end_known (serves_end_err _) ltac:(done) Hs Hc ltac:(by left) ltac:(by eexists) ltac:(done)) as A.
    destruct (stream_end_err (s, r)) as [x [s1 r1]]. by intros [= <- <- <-].
  - destruct c as [r []]; [|done..]. cbn [act c_phase c_request]. case_bool_decide as Hk; [|done]. destruct Hk as [k Ek].
    pose proof (serves_to_pool true k n (s, r) ltac:(split; [done|apply (ck_known _ _ Hc); by left|done])) as [_ [_ _ _ _ S5 _ _ _]].
    pose proof (goes_to_pool n (s, r)) as G. destruct (cache_file_node_to_pool n (s, r)) as [x [s1 r1]]. intros [= <- <- <-]. by apply act_quiet.
  - destruct c as [r []]; [|done..]. cbn [act c_phase c_request]. case_bool_decide as Hk; [|done]. destruct Hk as [k Ek].
    pose proof (serves_drop true k (s, r) ltac:(split; [done|apply (ck_known _ _ Hc); by left|done])) as [_ [_ _ _ _ S5 _ _ _]].
    pose proof (goes_drop (s, r)) as G. destruct (drop_request (s, r)) as [x [s1 r1]]. intros [= <- <- <-]. by apply act_quiet.
Qed.

(** ** Deletions *)

(** Managers stay, and a manager that a key gets is new. *)
Record aged (s s' : Store) : Prop := {
  ag_new : forall k m, node_map s' !! k = Some m -> node_map s !! k = Some m \/ (next_ref s <= m)%nat;
  ag_next : (next_ref s <= next_ref s')%nat;
  ag_there : forall m, is_Some (managers s !! m) -> is_Some (managers s' !! m)
}.

#[export] Instance aged_preorder : PreOrder aged.
Proof.
  split; [by split; auto|]. intros s1 s2 s3 [A1 A2 A3] [B1 B2 B3]. split; [|lia|auto].
  intros k m Hk. destruct (B1 k m Hk) as [Hk'|]; [by apply A1|right; lia].
Qed.
Lemma grown_aged s s' : grown s s' -> aged s s'.
Proof. intros [G1 G2 G3 G4]. by split. Qed.

(** A key keeps its manager, or loses it. *)
Definition keeps_keys (s s' : Store) (ev : list Event) : Prop := forall k m, node_map s !! k = Some m ->
  node_map s' !! k = Some m \/ node_map s' !! k = None /\ (1 <= events (Removed k) ev)%nat.

Record deleted (s s' : Store) (ev : list Event) : Prop := {
  dl_wf : wf s';
  dl_aged : aged s s';
  dl_keys : keeps_keys s s' ev;
  dl_gate : forall m, gview s' m = gview s m
}.

Lemma grown_keeps s s' ev : grown s s' -> keeps_keys s s' ev.
Proof. intros G k m Hk. left. eapply lookup_weaken; [done|apply G]. Qed.
Lemma quiet_deleted s s' ev : wf s -> quiet s s' -> deleted s s' ev.
Proof. intros Hs Q. destruct (Q Hs) as [W [G Q2 Q3]]. split; [done|by apply grown_aged|by apply grown_keeps|done]. Qed.

Lemma delete_deleted s key : wf s -> deleted s (set_node_map (delete key (node_map s)) s) (removal key s (set_node_map (delete key (node_map s)) s)).
Proof.
  intros [W1 W2 W3]. split; cbn; [| | |done].
  - split; cbn; [done| |].
    + intros k m [_ Hk]%lookup_delete_Some. by apply (W2 k).
    + intros k k' m [_ Hk]%lookup_delete_Some [_ Hk']%lookup_delete_Some. by eapply W3.
  - split; cbn; [|done..]. intros k m [_ Hk]%lookup_delete_Some. by left.
  - intros k m Hk. cbn. destruct (decide (key = k)) as [->|Hkk]; [|left; by rewrite lookup_delete_ne].
    right. unfold removal. cbn. rewrite lookup_delete_eq, Hk, events_one. done.
Qed.

Lemma deleted_quiet s s1 s2 key : quiet s s1 -> wf s -> deleted s1 s2 (removal key s1 s2) -> deleted s s2 (removal key s s2).
Proof.
  intros Q Hs [D1 D2 D3 D4]. destruct (Q Hs) as [W [G Q2 Q3]]. split; [done|etrans; [by apply grown_aged|done]| |intros m; by rewrite D4].
  intros k m Hk. assert (node_map s1 !! k = Some m) as Hk1 by (eapply lookup_weaken; [done|apply G]).
  destruct (D3 k m Hk1) as [Hk2|[Hk2 He]]; [by left|right]. split; [done|]. revert He. unfold removal.
  destruct (decide (key = k)) as [->|Hkk]; [by rewrite Hk, Hk1|].
  assert (events (Removed k) [Removed key] = 0%nat) as E0 by (unfold events; rewrite filter_cons, decide_False by congruence; done).
  destruct (node_map s1 !! key), (node_map s2 !! key); rewrite ?E0; intros He; inversion He.
Qed.

Lemma moves_do_del m : moves quiet (do_del_cache_file m).
Proof. unfold do_del_cache_file. quiet_tac. Qed.

Lemma del_cache_file_deleted key m s o s' : wf s -> del_cache_file key m s = (o, s') -> deleted s s' (removal key s s').
Proof.
  intros Hs. unfold del_cache_file. pose proof (moves_do_del m s) as Q. destruct (do_del_cache_file m s) as [o1 s1]. cbn [snd] in Q.
  pose proof (Q Hs) as [W _]. pose proof (delete_deleted s1 key W) as D.
  destruct o1; intros [= <- <-]; first [by apply quiet_deleted|by apply (deleted_quiet s s1)].
Qed.

(** A computation that ends in a deletion, or changes no gate and no key. *)
Definition deletes {A} (key : list Z) (c : stm Store A) : Prop := forall s, wf s -> deleted s (c s).2 (removal key s (c s).2).
Lemma deletes_quiet {A} key (c : stm Store A) : moves quiet c -> deletes key c.
Proof. intros Hc s Hs. by apply quiet_deleted. Qed.
Lemma deletes_del key m : deletes key (del_cache_file key m).
Proof. intros s Hs. destruct (del_cache_file key m s) as [o s'] eqn:E. by eapply del_cache_file_deleted. Qed.
Lemma deletes_bind {A B} key (c : stm Store A) (f : A -> stm Store B) : moves quiet c -> (forall a, deletes key (f a)) -> deletes key (c ≫= f).
Proof.
  intros Hc Hf s Hs. unfold mbind, stm_bind. specialize (Hc s). destruct (c s) as [[a|e| |] s1]; cbn [snd] in *; [|by apply quiet_deleted..].
  destruct (Hc Hs) as [W _]. by apply (deleted_quiet s s1), Hf.
Qed.

Lemma deletes_expires max_size e m : deletes (ex_md5 e) (del_expires_cache_file max_size e m).
Proof.
  unfold del_expires_cache_file. apply deletes_bind; [quiet_tac|]. intros x. destruct (negb _); [by apply deletes_quiet; quiet_tac|].
  destruct (negb _); [apply deletes_quiet; quiet_tac|]. repeat (apply deletes_bind; [quiet_tac|intros ?]).
  destruct (_ && _); [apply deletes_quiet; quiet_tac|apply deletes_del].
Qed.

(** What comes before the locks, and the mark of a node that is to be deleted
    later, are among the quiet steps. *)
Lemma moves_before_delete key m : moves quiet (del_md5_find key) /\ moves quiet next_expires /\ moves quiet (set_expires_cache_file m).
Proof. unfold del_md5_find, next_expires, set_expires_cache_file, upd_head. split_and!; quiet_tac. Qed.

(** ** Every run *)

Record world_ok (w : World) : Prop := { wo_wf : wf (w_store w); wo_clients : Forall (client_ok (w_store w)) (w_clients w) }.

(** The holders of the gate of [m] stay within its closing and the strays. *)
Definition covered (m : nat) (w w' : World) (ev : list Event) : Prop :=
  (holders m (w_clients w') + Nat.b2n (closed (w_store w) m) <=
    holders m (w_clients w) + Nat.b2n (closed (w_store w') m) + events (Stray m) ev)%nat.

(** A client that has moved, or has come. *)
Definition came_from (w : World) (s' : Store) (c' : Client) : Prop :=
  (forall m, ~ knows c' m) \/
  exists c, c ∈ w_clients w /\ key_of c' = key_of c /\ forall m, knows c' m -> knows c m \/ node_map s' !! key_of c = Some m.

Record step_spec (w : World) (ev : list Event) (w' : World) : Prop := {
  st_ok : world_ok w';
  st_aged : aged (w_store w) (w_store w');
  st_keys : keeps_keys (w_store w) (w_store w') ev;
  st_clients : Forall (came_from w (w_store w')) (w_clients w');
  st_covered : forall m, covered m w w' ev
}.

Lemma came_same w s' c : c ∈ w_clients w -> came_from w s' c.
Proof. intros Hc. right. exists c. split_and!; [done..|]. intros m. by left. Qed.

Lemma pair_snd {A} (i : nat) (ev : list A) : (pair i <$> ev).*2 = ev.
Proof. rewrite <- list_fmap_compose. cbn. apply list_fmap_id. Qed.

Lemma deleted_step w s' ev : world_ok w -> deleted (w_store w) s' ev -> step_spec w ev (mkWorld s' (w_clients w)).
Proof.
  intros [H1 H2] [D1 D2 D3 D4]. split; [|done|done| |]; cbn.
  - split; [done|]. eapply Forall_impl; [exact H2|]. intros c. apply client_kept, D2.
  - apply Forall_forall. intros c. apply came_same.
  - intros m. unfold covered. cbn [w_store w_clients]. rewrite (closed_same _ _ m (D4 m)). lia.
Qed.

Lemma step_ok w tr w' : world_ok w -> step w tr w' -> step_spec w tr.*2 w'.
Proof.
  intros Hw Hs. destruct Hs as [w s' Q|w r Ea Em|w i key m o s' E|w i max_size e m o s' E|w i a c c' s' ev Ei Ha]; rewrite ?pair_snd.
  - apply deleted_step; [done|]. by apply quiet_deleted; [apply Hw|].
  - destruct Hw as [H1 H2]. assert (forall m, ~ knows (mkClient r Idle) m) as Hk by (intros m [Hm|Hm]; cbn in Hm; congruence).
    split; [|reflexivity|by intros k m Hk'; left| |]; cbn.
    + split; [done|]. apply Forall_app. split; [done|]. apply Forall_singleton. split; cbn; [|done..]. intros m Hm. by destruct (Hk m).
    + apply Forall_app. split; [apply Forall_forall; intros c; apply came_same|]. apply Forall_singleton. by left.
    + intros m. unfold covered. cbn [w_store w_clients]. rewrite holders_app. cbn [holder c_phase c_request]. rewrite (holds_not m r Ea). cbn. lia.
  - apply deleted_step; [done|]. eapply del_cache_file_deleted; [apply Hw|exact E].
  - apply deleted_step; [done|]. destruct Hw as [H1 _]. pose proof (deletes_expires max_size e m _ H1) as D. by rewrite E in D.
  - destruct Hw as [H1 H2]. pose proof (proj1 (Forall_lookup _ _) H2 i c Ei) as Hc.
    pose proof (act_ok a c _ c' s' ev H1 Hc Ha) as A. pose proof (act_client_ok _ _ _ _ _ Hc A) as Hc'. destruct A as [A1 A2 A3 A4 A5 A6 A7].
    split; [|by apply grown_aged|by apply grown_keeps| |]; cbn.
    + split; [done|]. apply Forall_insert; [|done]. eapply Forall_impl; [exact H2|]. intros x. apply client_kept, A2.
    + apply Forall_insert; [apply Forall_forall; intros x; apply came_same|]. right. exists c. split_and!; [by eapply list_elem_of_lookup_2|done..].
    + intros m. pose proof (holders_insert m _ i c c' Ei) as E. specialize (A7 m). unfold accounted in A7. unfold covered. cbn [w_store w_clients]. lia.
Qed.

Lemma run_ok w tr w' : world_ok w -> run w tr w' ->
  world_ok w' /\ aged (w_store w) (w_store w') /\ forall m, covered m w w' tr.*2.
Proof.
  intros Hw. induction 1 as [|tr w1 ev w2 Hr IH Hs]; [split; [done|split; [reflexivity|]]; intros m; unfold covered; lia|].
  destruct IH as (I1 & I2 & I3). destruct (step_ok _ _ _ I1 Hs) as [S1 S2 _ _ S3]. split; [done|]. split; [by etrans|].
  intros m. specialize (I3 m). specialize (S3 m). unfold covered in *. rewrite fmap_app, events_app. lia.
Qed.

(** ** The managers of one key *)

(** [ms] are the managers the key [k] has had: the one it has now is among them,
    and the requests know them exactly when they are for [k]. *)
Record key_ok (k : list Z) (ms : list nat) (w : World) : Prop := {
  ko_there : forall m, m ∈ ms -> is_Some (managers (w_store w) !! m);
  ko_map : forall k' m, node_map (w_store w) !! k' = Some m -> (m ∈ ms <-> k' = k);
  ko_clients : Forall (fun c => forall m, knows c m -> (m ∈ ms <-> key_of c = k)) (w_clients w)
}.

Definition mapped (k : list Z) (w : World) : nat := match node_map (w_store w) !! k with Some _ => 1 | None => 0 end.
(** The managers after a step. *)
Definition more_managers (k : list Z) (ms : list nat) (w w' : World) : list nat :=
  match node_map (w_store w) !! k, node_map (w_store w') !! k with None, Some m => m :: ms | _, _ => ms end.

Lemma more_managers_in k ms w w' m :
  m ∈ more_managers k ms w w' <-> m ∈ ms \/ node_map (w_store w) !! k = None /\ node_map (w_store w') !! k = Some m.
Proof.
  unfold more_managers. destruct (node_map (w_store w) !! k), (node_map (w_store w') !! k) as [m'|]; rewrite ?elem_of_cons; naive_solver.
Qed.

Lemma step_key k ms w tr w' : world_ok w -> key_ok k ms w -> step w tr w' ->
  key_ok k (more_managers k ms w w') w' /\
  (length (more_managers k ms w w') + mapped k w <= length ms + mapped k w' + events (Removed k) tr.*2)%nat.
Proof.
  intros Hw [K1 K2 K3] Hs. destruct (step_ok w tr w' Hw Hs) as [[W' C'] [A1 A2 A3] Hk Hcs _]. destruct Hw as [W C].
  assert (forall m, is_Some (managers (w_store w) !! m) -> (m < next_ref (w_store w))%nat) as Hold by apply W.
  assert (forall m, is_Some (managers (w_store w) !! m) -> (m ∈ more_managers k ms w w' <-> m ∈ ms)) as Hms.
  { intros m Hm. rewrite more_managers_in. split; [|by left]. intros [|[E1 E2]]; [done|]. destruct (A1 _ _ E2) as [E|]; [congruence|].
    specialize (Hold m Hm). lia. }
  assert (forall k' m, node_map (w_store w') !! k' = Some m -> (m ∈ more_managers k ms w w' <-> k' = k)) as Hmap.
  { intros k' m Hm. destruct (A1 _ _ Hm) as [Hm'|Hn].
    - rewrite Hms; [by apply K2|by eapply wf_map].
    - rewrite more_managers_in. split.
      + intros [Hin|[_ E]]; [specialize (Hold m (K1 m Hin)); lia|]. by apply (wf_key _ W' k' k m).
      + intros ->. right. split; [|done]. destruct (node_map (w_store w) !! k) as [m1|] eqn:E1; [|done].
        destruct (Hk k m1 E1) as [E2|[E2 _]]; [|congruence]. rewrite Hm in E2. injection E2 as <-. specialize (Hold m (wf_map _ W _ _ E1)). lia. }
  split.
  - split; [|done|].
    + intros m [Hin|[_ E]]%more_managers_in; [by apply A3, K1|by eapply wf_map].
    + eapply Forall_impl; [exact Hcs|]. intros c' [Hno|(c & Hin & Ek & Hl)] m Hm; [by destruct (Hno m)|]. rewrite Ek.
      destruct (Hl m Hm) as [Hm'|Hm']; [|by apply Hmap].
      rewrite Hms; [by apply (proj1 (Forall_forall _ _) K3 c Hin)|]. by apply (ck_known _ _ (proj1 (Forall_forall _ _) C c Hin)).
  - unfold more_managers, mapped. destruct (node_map (w_store w) !! k) as [m1|] eqn:E1, (node_map (w_store w') !! k) as [m2|] eqn:E2; cbn [length]; try lia.
    destruct (Hk k m1 E1) as [E3|[_ E3]]; [congruence|lia].
Qed.

Lemma run_key k ms w0 tr w : world_ok w0 -> key_ok k ms w0 -> (length ms <= mapped k w0)%nat -> run w0 tr w ->
  exists ms', key_ok k ms' w /\ (length ms' <= mapped k w + events (Removed k) tr.*2)%nat.
Proof.
  intros Hw Hk Hl. induction 1 as [|tr w1 ev w2 Hr (ms1 & IH1 & IH2) Hs]; [exists ms; split; [done|cbn; lia]|].
  destruct (run_ok _ _ _ Hw Hr) as (Hw1 & _ & _). destruct (step_key k ms1 w1 ev w2 Hw1 IH1 Hs) as [H1 H2].
  eexists. split; [exact H1|]. rewrite fmap_app, events_app. lia.
Qed.

Lemma key_start k w : wf (w_store w) -> w_clients w = [] -> key_ok k (option_list (node_map (w_store w) !! k)) w /\
  length (option_list (node_map (w_store w) !! k)) = mapped k w.
Proof.
  intros [W1 W2 W3] Hc. split; [split|].
  - intros m Hm. destruct (node_map (w_store w) !! k) as [m'|] eqn:E; cbn in Hm; [|set_solver]. apply list_elem_of_singleton in Hm as ->. by eapply W2.
  - intros k' m Hm. split.
    + destruct (node_map (w_store w) !! k) as [m'|] eqn:E; cbn; [|set_solver]. intros ->%list_elem_of_singleton. by eapply W3.
    + intros ->. rewrite Hm. cbn. by apply list_elem_of_singleton.
  - by rewrite Hc.
  - unfold mapped. by destruct (node_map (w_store w) !! k).
Qed.

(** ** The requests that are upstream for a key *)

(** The manager with whose gate a request is upstream. *)
Definition held (c : Client) : option nat :=
  match c_phase c with
  | Asking pc _ => granted pc
  | Idle | Answering _ => if rq_is_upstream_add (c_request c) then hcf_manage (c_request c) else None
  end.
Definition upstream_for (k : list Z) (cs : list Client) : nat := length (filter (fun c => key_of c = k /\ is_Some (held c)) cs).

Lemma held_holder c m : held c = Some m -> holder m c = true /\ knows c m.
Proof.
  unfold held, holder, holds, knows. destruct (c_phase c) as [|pc l|st]; cbn.
  1,3: destruct (rq_is_upstream_add _); [|done]; intros ->; split; [by apply bool_decide_eq_true|by left].
  intros E. split; [by apply bool_decide_eq_true|]. right. destruct pc; try done. cbn in E. by destruct (a_is_upstream _).
Qed.

Lemma sum_add {A} (f g : A -> nat) l : sum_list_with (fun x => f x + g x)%nat l = (sum_list_with f l + sum_list_with g l)%nat.
Proof. induction l as [|x l IH]; cbn; lia. Qed.
Lemma sum_eq {A} (f g : A -> nat) l : (forall x, f x = g x) -> sum_list_with f l = sum_list_with g l.
Proof. intros Hfg. induction l as [|x l IH]; cbn; [done|]. by rewrite Hfg, IH. Qed.
Lemma sum_le {A} (f g : A -> nat) l : (forall x, f x <= g x)%nat -> (sum_list_with f l <= sum_list_with g l)%nat.
Proof. intros Hfg. induction l as [|x l IH]; cbn; [lia|]. specialize (Hfg x). lia. Qed.
Lemma sum_in {A} (f : A -> nat) l x : x ∈ l -> (f x <= sum_list_with f l)%nat.
Proof. induction 1 as [x l|x y l Hx IH]; cbn; lia. Qed.

Lemma upstream_holders k ms cs : Forall (fun c => forall m, knows c m -> (m ∈ ms <-> key_of c = k)) cs ->
  (upstream_for k cs <= sum_list_with (fun m => holders m cs) ms)%nat.
Proof.
  unfold upstream_for. induction 1 as [|c cs Hc Hcs IH]; [cbn; lia|].
  assert (forall m, holders m (c :: cs) = Nat.b2n (holder m c) + holders m cs)%nat as E.
  { intros m. unfold holders. rewrite filter_cons. destruct (holder m c); cbn [Nat.b2n]; case_decide; done || cbn [length]; lia. }
  assert (sum_list_with (fun m => holders m (c :: cs)) ms = sum_list_with (fun m => Nat.b2n (holder m c) + holders m cs)%nat ms) as ->.
  { by apply sum_eq. }
  rewrite sum_add, filter_cons. case_decide as Hd; [|lia]. destruct Hd as [Hk [m Hm]]. destruct (held_holder c m Hm) as [Hh Hkn].
  pose proof (sum_in (fun m => Nat.b2n (holder m c)) ms m (proj2 (Hc m Hkn) Hk)) as Hs. cbn beta in Hs. rewrite Hh in Hs. cbn [Nat.b2n length] in *. lia.
Qed.
End world.
