(* ===== verification/CacheFlight.v ===== *)
(** What the gate is for: one request at a time fetches an answer. *)
From S2P Require Import Prelude RustStd Bitmap FileCache HttpLib HttpHeader CacheFile CacheRestart CacheGate CacheServe CacheGateRun CacheWorld.
From S2P Require HttpCtx.
#[local] Open Scope string_scope.
#[local] Open Scope list_scope.
#[local] Open Scope Z_scope.

Section flight.
Context `{HttpParse}.

(** ** One request upstream *)

(** How many strays of the gate of [m] a run has. *)
Definition strays (m : nat) (tr : list (nat * Event)) : nat := events (Stray m) tr.*2.

(** How often a run took the manager of [k] away. *)
Definition removals (k : list Z) (tr : list (nat * Event)) : nat := events (Removed k) tr.*2.

(** C4. In every run, from a store without requests, whatever the order in which
    requests come, ask, wait, are answered and end, and keys are purged and
    expire: the requests that are upstream with the gate of one manager are at
    most the one that holds it closed, and one for each stray; and those that are
    upstream for one key are at most one, one more for each time the manager of
    the key was taken away, and one for each stray at the managers it has had,
    which are the managers that the requests for this key, and no others, know. *)
Theorem one_upstream_per_opening w0 tr w : wf (w_store w0) -> w_clients w0 = [] -> run w0 tr w ->
  (forall m, (holders m (w_clients w) <= Nat.b2n (closed (w_store w) m) + strays m tr)%nat) /\
  (forall k, exists ms, (length ms <= S (removals k tr))%nat /\
    Forall (fun c => forall m, knows c m -> (m ∈ ms <-> key_of c = k)) (w_clients w) /\
    (upstream_for k (w_clients w) <= S (removals k tr) + sum_list_with (fun m => strays m tr) ms)%nat).
Proof.
  intros Hw Hc Hr. assert (world_ok w0) as Hok by (split; [done|by rewrite Hc]).
  assert (forall m, (holders m (w_clients w) <= Nat.b2n (closed (w_store w) m) + strays m tr)%nat) as Hh.
  { intros m. destruct (run_ok w0 tr w Hok Hr) as (_ & _ & Ha). specialize (Ha m). unfold covered in Ha. rewrite Hc in Ha. unfold strays. cbn in Ha. lia. }
  split; [done|]. intros k. destruct (key_start k w0 Hw Hc) as [K1 K2].
  destruct (run_key k _ w0 tr w Hok K1 ltac:(lia) Hr) as (ms & [_ _ Hms] & Hl). exists ms. fold (removals k tr) in Hl.
  assert (length ms <= S (removals k tr))%nat as Hl' by (unfold mapped in Hl; destruct (node_map (w_store w) !! k); lia).
  split; [done|]. split; [done|]. pose proof (upstream_holders k ms _ Hms) as Hu. etrans; [exact Hu|].
  etrans; [apply (sum_le _ (fun m => 1 + strays m tr)%nat); intros m; specialize (Hh m); destruct (closed (w_store w) m); cbn [Nat.b2n] in Hh; lia|].
  rewrite sum_add. enough (sum_list_with (fun _ : nat => 1%nat) ms = length ms) by lia. clear. induction ms as [|m ms IH]; cbn; lia.
Qed.

(** ** Waiting *)

(** The gate of a manager counts how often it was taken. *)
Definition counted (m : nat) (s s' : Store) (ev : list Event) : Prop :=
  taken s' m = taken s m /\ events (Granted m) ev = 0%nat \/ taken s' m = swrap64 (taken s m + 1) /\ events (Granted m) ev = 1%nat.

Lemma counted_same m s s' ev : gview s' m = gview s m -> events (Granted m) ev = 0%nat -> counted m s s' ev.
Proof. intros E Ee. left. split; [|done]. unfold taken. by rewrite E. Qed.

Lemma no_grant_without m b r : events (Granted m) (without_grant b r) = 0%nat.
Proof. unfold without_grant. destruct (hcf_manage r); [|done]. by destruct (_ && _). Qed.

Lemma counted_goes m (c : Client) o s r' s' (b : bool) : wf s -> goes o (s, c_request c) (s', r') -> counted m s s' (without_grant b r').
Proof. intros Hs [Q _ _]. destruct (Q Hs) as [_ [_ Q2 _]]. apply counted_same; [apply Q2|apply no_grant_without]. Qed.

Lemma counted_served m k r s r' s' : served_changes k (s, r) (s', r') -> counted m s s' (stray_of k r s r' s').
Proof.
  intros [_ S2 S3 _ _ _ _ _]. left. split; [|unfold stray_of; by destruct (_ && _)]. destruct (decide (m = k)) as [->|Hk]; [done|].
  unfold taken. by rewrite S2.
Qed.

(** A stretch that may wait again takes no gate. *)
Lemma counted_answers m (c : stm (Store * Request) Next) b k r p s : moves (serves b k) c -> wf s -> client_ok s (mkClient r p) ->
  knows (mkClient r p) k -> (b = true -> hcf_manage r = Some k) -> let '(_, (s', r')) := c (s, r) in counted m s s' (stray_of k r s r' s').
Proof.
  intros Hm Hs Hc Hk Hb. specialize (Hm (s, r)). destruct (c (s, r)) as [o [s' r']].
  destruct Hm as [_ S]; [split; [done|by apply (ck_known _ _ Hc)|done]|]. by apply counted_served.
Qed.

Lemma counted_quiet {A} m (c : stm (Store * Request) A) s r : wf s -> moves (goes None) c -> let '(_, (s', _)) := c (s, r) in counted m s s' [].
Proof.
  intros Hs Hm. specialize (Hm (s, r)). destruct (c (s, r)) as [o [s' r']]. destruct Hm as [Q _ _]. destruct (Q Hs) as [_ [_ Q2 _]]. by apply counted_same.
Qed.

Lemma act_counted m a c s c' s' ev : wf s -> client_ok s c -> act a c s = Some (c', s', ev) -> counted m s s' ev.
Proof.
  intros Hs Hc. destruct c as [r [|pc l|st]], a as [| | | |b h o| | |n|]; try done; cbn [act c_phase c_request].
  - pose proof (goes_ask (s, r)) as G. destruct (ask (s, r)) as [o [s1 r1]]. cbn [snd] in G.
    destruct G as [Q G2 G3]. destruct (Q Hs) as [_ [_ Q2 _]].
    destruct o as [[|]|e| |]; intros E; injection E as <- <- <-; (apply counted_same; [apply Q2|first [apply no_grant_without|done]]).
  - destruct (hcf_manage r) as [k|] eqn:Ek; [|done].
    pose proof (counted_answers m (upstream_response b h o) true k r Idle s (serves_response _ _ _ _) Hs Hc ltac:(by left) ltac:(done)) as A.
    destruct (upstream_response b h o (s, r)) as [x [s1 r1]]. by intros [= <- <- <-].
  - destruct (hcf_manage r) as [k|] eqn:Ek; [|done].
    pose proof (counted_answers m stream_end_err true k r Idle s (serves_end_err _) Hs Hc ltac:(by left) ltac:(done)) as A.
    destruct (stream_end_err (s, r)) as [x [s1 r1]]. by intros [= <- <- <-].
  - case_bool_decide; [|done]. pose proof (counted_quiet m (cache_file_node_to_pool n) s r Hs (goes_to_pool n)) as A.
    destruct (cache_file_node_to_pool n (s, r)) as [x [s1 r1]]. by intros [= <- <- <-].
  - case_bool_decide; [|done]. pose proof (counted_quiet m drop_request s r Hs goes_drop) as A.
    destruct (drop_request (s, r)) as [x [s1 r1]]. by intros [= <- <- <-].
  - pose proof (turn_turned (rq_ci r) pc l s Hs) as T. destruct (get_turn (rq_ci r) pc l s) as [o s1]. intros E. injection E as <- <- <-.
    remember (o, s1) as os eqn:Eos.
    destruct T as [o0 s0 Hs0 [Q1 Q2 Q3] Hq|m0 a l' s0 Hp Hg Ha Hd Hl G Ef|m0 l' s0 -> Hg He Hv Hok G Ef|m0 rx l' s0 -> Hg He El Erx G Ef];
      injection Eos as <- <-.
    + apply counted_same; [apply Q2|]. destruct o0 as [[pc1 l1]|e| |]; [|done..]. destruct (Hq _ eq_refl) as [_ _ Hp]. cbn in Hp.
      destruct pc, pc1; try done; cbn; try (by destruct (closed s _)).
      all: destruct Hp as [Hp|[Hp _]]; [done|]; cbn in Hp; by destruct (a_is_upstream _).
    + destruct (decide (m = m0)) as [->|Hm].
      * right. unfold taken at 1. rewrite (gm_gate _ _ _ _ G). split; [done|].
        destruct pc; try done; cbn; rewrite Ha; apply events_one.
      * apply counted_same; [by apply G|]. destruct pc; try done; cbn; rewrite Ha; unfold events; rewrite filter_cons, decide_False; done || congruence.
    + left. split; [|cbn; by destruct (closed s m0)]. unfold taken at 1.
      destruct (decide (m = m0)) as [->|Hm]; [by rewrite (gm_gate _ _ _ _ G)|by rewrite (gm_other _ _ _ _ G)].
    + left. split; [|done]. unfold taken at 1.
      destruct (decide (m = m0)) as [->|Hm]; [by rewrite (gm_gate _ _ _ _ G)|by rewrite (gm_other _ _ _ _ G)].
  - intros E. injection E as <- <- <-. by apply counted_same.
  - destruct pc as [|m' v|m' v n|m' v n|m' v n|m' u n|m' d n|m'|m'|rx|m' a|e]; try done.
    pose proof (goes_after_gate m' a (s, r)) as G. destruct (after_gate m' a (s, r)) as [o [s1 r1]]. intros E. injection E as <- <- <-. cbn [snd] in G.
    by apply (counted_goes m (mkClient r Idle) (Some m')).
  - destruct (ck_answering _ _ Hc st eq_refl) as [j Ej]. cbn in Ej.
    destruct (stage_gate_known st r ltac:(by eexists)) as (k & -> & Hk1 & Hk2).
    pose proof (counted_answers m (stage_turn st) false k r (Answering st) s (serves_stage _ _ _ Hk1) Hs Hc Hk2 ltac:(done)) as A.
    destruct (stage_turn st (s, r)) as [x [s1 r1]]. by intros [= <- <- <-].
Qed.

Lemma counted_deleted m s s' ev : deleted s s' ev -> events (Granted m) ev = 0%nat -> counted m s s' ev.
Proof. intros D. apply counted_same, D. Qed.
Lemma no_grant_removal m k s s' : events (Granted m) (removal k s s') = 0%nat.
Proof. unfold removal. by destruct (node_map s !! k), (node_map s' !! k). Qed.

Lemma taken_step w tr w' m : world_ok w -> step w tr w' ->
  taken (w_store w') m = taken (w_store w) m /\ events (Granted m) tr.*2 = 0%nat \/
  taken (w_store w') m = swrap64 (taken (w_store w) m + 1) /\ events (Granted m) tr.*2 = 1%nat.
Proof.
  intros [H1 H2] Hs. destruct Hs as [w s' Q|w r Ea Em|w i key k o s' E|w i max_size e k o s' E|w i a c c' s' ev Ei Ha]; rewrite ?pair_snd; cbn [w_store w_clients].
  - destruct (Q H1) as [_ [_ Q2 _]]. by apply counted_same.
  - by left.
  - apply counted_deleted; [by eapply del_cache_file_deleted|apply no_grant_removal].
  - apply counted_deleted; [|apply no_grant_removal]. pose proof (deletes_expires max_size e k _ H1) as D. by rewrite E in D.
  - exact (act_counted m a c _ c' s' ev H1 (proj1 (Forall_lookup _ _) H2 i c Ei) Ha).
Qed.

(** How often the client [i] began to wait at [m]. *)
Definition waits (i m : nat) (tr : list (nat * Event)) : nat := length (filter (fun x => x = (i, Waits m)) tr).
Lemma waits_app i m tr ev : waits i m (tr ++ ev) = (waits i m tr + waits i m ev)%nat.
Proof. unfold waits. by rewrite filter_app, length_app. Qed.
Lemma waits_other i j m ev : i <> j -> waits i m (pair j <$> ev) = 0%nat.
Proof.
  intros Hij. unfold waits. induction ev as [|e ev IH]; [done|]. cbn [fmap list_fmap]. rewrite filter_cons, decide_False by congruence. done.
Qed.
Lemma waits_events i m ev : waits i m (pair i <$> ev) = events (Waits m) ev.
Proof.
  unfold waits, events. induction ev as [|e ev IH]; [done|]. cbn [fmap list_fmap]. rewrite !filter_cons.
  destruct (decide (e = Waits m)) as [->|He]; [rewrite !decide_True by done; cbn [length]; by rewrite IH|].
  by rewrite !decide_False by congruence.
Qed.

Lemma waits_removal i j m k s s' : waits i m (pair j <$> removal k s s') = 0%nat.
Proof. unfold removal. destruct (node_map s !! k), (node_map s' !! k); try done. unfold waits. change (pair j <$> [Removed k]) with [(j, Removed k)]. rewrite filter_cons, decide_False by congruence. done. Qed.

Lemma no_wait_without m b r : events (Waits m) (without_grant b r) = 0%nat.
Proof. unfold without_grant. destruct (hcf_manage r); [|done]. by destruct (_ && _). Qed.

Definition asks (p : Phase) : bool := match p with Asking _ _ => true | _ => false end.
Lemma no_wait_stray m k r s r' s' : events (Waits m) (stray_of k r s r' s') = 0%nat.
Proof. unfold stray_of. by destruct (_ && _). Qed.

(** A client that is not asking stays so unless it asks, and does not wait at a
    gate. *)
Lemma idle_act a r p c' s s' ev m : asks p = false -> act a (mkClient r p) s = Some (c', s', ev) -> Asked ∉ ev ->
  (exists r' p', c' = mkClient r' p' /\ asks p' = false) /\ events (Waits m) ev = 0%nat.
Proof.
  intros Hp Ha Hask.
  assert (forall (c : stm (Store * Request) Next) g, match g with Some k => let '(o, (s', r')) := c (s, r) in Some (mkClient r' (next_phase o), s', stray_of k r s r' s') | None => None end = Some (c', s', ev) ->
    (exists r' p', c' = mkClient r' p' /\ asks p' = false) /\ events (Waits m) ev = 0%nat) as Hanswers.
  { intros c [k|] E; [|done]. destruct (c (s, r)) as [o [s1 r1]]. injection E as <- <- <-. split; [|apply no_wait_stray].
    do 2 eexists. split; [done|]. by destruct o as [[]| | |]. }
  destruct p as [|pc l|st]; [|done|].
  - destruct a as [| | | |b h o| | |k|]; try done; cbn [act c_phase c_request] in Ha; try (by eapply Hanswers).
    + destruct (ask (s, r)) as [[[|]|e| |] [s1 r2]]; injection Ha as <- <- <-; [by destruct Hask; left|..].
      all: split; [by do 2 eexists|apply no_wait_without].
    + case_bool_decide; [|done]. destruct (cache_file_node_to_pool k _) as [x [s1 r2]]. injection Ha as <- <- <-. split; [by do 2 eexists|done].
    + case_bool_decide; [|done]. destruct (drop_request _) as [x [s1 r2]]. injection Ha as <- <- <-. split; [by do 2 eexists|done].
  - destruct a; try done; cbn [act c_phase c_request] in Ha. by eapply Hanswers.
Qed.

(** What a client that asks has seen of the gate of [m], and how often it has
    waited there: not yet; or it has seen it when it had been taken [h] of the
    [g] times, and since then it knows no other manager. *)
Definition seen_ok (m : nat) (t : Z) (g n : nat) (pc : Pc) (l : Loop) (s : Store) : Prop :=
  n = 0%nat \/
  (is_Some (managers s !! m) /\ (forall k, pc_manager pc = Some k -> k = m) /\
    exists h, l_upstream_version l = t + Z.of_nat h /\ (h <= g)%nat /\ (n <= S h)%nat).

Lemma seen_on m t g n pc l s g' pc' l' s' : seen_ok m t g n pc l s -> (g <= g')%nat -> l_upstream_version l' = l_upstream_version l ->
  (is_Some (managers s !! m) -> is_Some (managers s' !! m)) -> (is_Some (managers s !! m) -> (forall k, pc_manager pc = Some k -> k = m) -> forall k, pc_manager pc' = Some k -> k = m) ->
  seen_ok m t g' n pc' l' s'.
Proof.
  intros [->|(H1 & H2 & h & H3 & H4 & H5)] Hg El Hs Hpc; [by left|right]. split; [by apply Hs|]. split; [by apply Hpc|]. exists h. rewrite El. split_and!; [done|lia|done].
Qed.
Lemma seen_bound m t g n pc l s : seen_ok m t g n pc l s -> (n <= S g)%nat.
Proof. intros [->|(_ & _ & h & _ & Hh & Hn)]; lia. Qed.

Lemma closed_there s m : closed s m = true -> is_Some (managers s !! m).
Proof. unfold closed, gview. destruct (managers s !! m); [by eexists|done]. Qed.

Lemma turn_no_wait m pc l s o : (forall r, o = Ok r -> r.1 = pc \/ forall rx, r.1 <> Waiting rx) -> events (Waits m) (turn_event pc l s o) = 0%nat.
Proof.
  intros Ho. destruct o as [[pc1 l1]|e| |]; [|by destruct pc..]. destruct (Ho _ eq_refl) as [Hp|Hp]; cbn in Hp.
  - subst. by destruct pc.
  - destruct pc; cbn; destruct pc1 as [| | | | | | | | |rx1| |]; try done; try (by destruct (a_is_upstream _)); try (by destruct (closed s _)). by destruct (Hp rx1).
Qed.

Lemma turn_seen m t g n ci pc l s o s' : wf s -> get_turn ci pc l s = (o, s') -> seen_ok m t g n pc l s -> 0 <= t ->
  taken s m = t + Z.of_nat g -> (is_Some (managers s' !! m) -> node_map s' !! md5 ci = Some m) ->
  let ev := turn_event pc l s o in
  match o with
  | Ok (pc', l') => seen_ok m t (g + events (Granted m) ev) (n + events (Waits m) ev) pc' l' s'
  | _ => (n + events (Waits m) ev <= S (g + events (Granted m) ev))%nat
  end.
Proof.
  intros Hs E Hl Ht Hg Hk. pose proof (turn_turned ci pc l s Hs) as T. rewrite E in T. remember (o, s') as os eqn:Eos. cbv zeta.
  destruct T as [o0 s0 Hs0 Q Hq|m0 a l' s0 Hp Hc Ha Hd El G Ef|m0 l' s0 -> Hc He Hv El G Ef|m0 rx l' s0 -> Hc He El Erx G Ef]; injection Eos as <- <-.
  - rewrite turn_no_wait by (intros r Er; destruct (Hq r Er) as [_ _ [|[_ Hp]]]; [by left|by right]). rewrite Nat.add_0_r.
    destruct o0 as [[pc1 l1]|e| |]; [|pose proof (seen_bound _ _ _ _ _ _ _ Hl); lia..].
    destruct (Hq _ eq_refl) as [E1 E2 _]. destruct Q as [Q1 _ _]. eapply seen_on; [exact Hl|lia|exact E1|apply Q1|].
    intros Hm Hpc k Hk1. destruct (E2 k Hk1) as [|Hk2]; [by apply Hpc|]. rewrite Hk in Hk2 by (by apply Q1). by injection Hk2.
  - rewrite turn_no_wait by (intros r [= <-]; by right). rewrite Nat.add_0_r. eapply seen_on; [exact Hl|lia|exact El|apply (gate_grown _ _ _ _ G)|].
    intros _ Hpc k [= <-]. apply Hpc. by apply takes_manager.
  - rewrite turn_no_wait by (intros r [= <-]; by right). rewrite Nat.add_0_r. by eapply seen_on; [exact Hl|lia|exact El|apply (gate_grown _ _ _ _ G)|].
  - change (turn_event (Close m0) l s (Ok (Waiting rx, l'))) with [Waits m0]. change (events (Granted m) [Waits m0]) with 0%nat. rewrite Nat.add_0_r.
    destruct (decide (m0 = m)) as [->|Hm].
    + rewrite (events_one (Waits m)), Nat.add_1_r. right. split; [apply (gate_grown _ _ _ _ G); by apply closed_there|]. split; [done|].
      exists g. split_and!; [by rewrite El|done|]. destruct Hl as [->|(_ & _ & h & E1 & Hh & Hn)]; [lia|]. rewrite E1, Hg in He.
      enough (h <> g) by lia. intros ->. lia.
    + assert (events (Waits m) [Waits m0] = 0%nat) as -> by (unfold events; rewrite filter_cons, decide_False by congruence; done).
      destruct Hl as [->|(_ & Hpc & _)]; [by left|]. by specialize (Hpc m0 eq_refl).
Qed.

(** What has become of the call that client [i] began with the request [r]. *)
Inductive call_ok (i m : nat) (r : Request) (t : Z) (g n : nat) (w : World) : Prop :=
  | CallAsking pc l : w_clients w !! i = Some (mkClient r (Asking pc l)) -> seen_ok m t g n pc l (w_store w) -> call_ok i m r t g n w
  | CallOver r' p : w_clients w !! i = Some (mkClient r' p) -> asks p = false -> (n <= S g)%nat -> call_ok i m r t g n w.

Lemma call_kept i m r t g n g' w w' : call_ok i m r t g n w -> w_clients w' !! i = w_clients w !! i -> (g <= g')%nat ->
  (is_Some (managers (w_store w) !! m) -> is_Some (managers (w_store w') !! m)) -> call_ok i m r t g' n w'.
Proof.
  intros [pc l E1 E2|r' p E1 E2 E3] E Hg Hm.
  - eapply CallAsking; [by rewrite E|]. by eapply seen_on.
  - eapply CallOver; [by rewrite E|done|lia].
Qed.

Lemma call_act i m r t g n w a c c' s' ev : world_ok w -> call_ok i m r t g n w -> w_clients w !! i = Some c ->
  act a c (w_store w) = Some (c', s', ev) -> taken (w_store w) m = t + Z.of_nat g -> 0 <= t -> Asked ∉ ev ->
  (is_Some (managers s' !! m) -> node_map s' !! md5 (rq_ci r) = Some m) ->
  call_ok i m r t (g + events (Granted m) ev) (n + events (Waits m) ev) (mkWorld s' (<[i:=c']> (w_clients w))).
Proof.
  intros [Hs Hcs] Hok Ei Ha Ht H0t Hask Hkey.
  assert (<[i:=c']> (w_clients w) !! i = Some c') as Hin.
  { apply list_lookup_insert_eq. by eapply lookup_lt_Some. }
  destruct Hok as [pc l E1 E2|r' p E1 Ep E2]; rewrite E1 in Ei; injection Ei as <-.
  - pose proof (seen_bound _ _ _ _ _ _ _ E2) as Hn. destruct a; try done; cbn [act c_phase c_request] in Ha.
    + destruct (get_turn (rq_ci r) pc l (w_store w)) as [o s1] eqn:E. injection Ha as <- <- <-.
      pose proof (turn_seen m t g n _ pc l _ o s1 Hs E E2 H0t Ht Hkey) as Hseen. cbv zeta in Hseen.
      destruct o as [[pc' l']|e| |]; [by eapply CallAsking|by eapply CallOver..].
    + injection Ha as <- <- <-. cbn. rewrite !Nat.add_0_r. eapply CallAsking; [done|]. eapply seen_on; [exact E2|done|done|done|].
      intros _ Hpc k Hk. apply Hpc. by destruct pc.
    + destruct pc as [| | | | | | | | | |m' a|]; try done. destruct (after_gate m' a _) as [x [s1 r1]]. injection Ha as <- <- <-.
      eapply CallOver; [exact Hin|done|]. rewrite no_wait_without. lia.
  - destruct (idle_act _ _ _ _ _ _ _ m Ep Ha Hask) as [(r'' & p'' & -> & Ep') ->]. eapply CallOver; [exact Hin|done|lia].
Qed.

(** A manager that a key has in the end is the one it had ever since it is
    there. *)
Lemma step_had w ev w' k m : world_ok w -> step w ev w' ->
  (is_Some (managers (w_store w') !! m) -> node_map (w_store w') !! k = Some m) ->
  is_Some (managers (w_store w) !! m) -> node_map (w_store w) !! k = Some m.
Proof.
  intros Hw Hs Hk Hm. destruct (step_ok w ev w' Hw Hs) as [_ [A1 A2 A3] _ _ _]. destruct (A1 k m (Hk (A3 m Hm))) as [|Hn]; [done|].
  pose proof (wf_new _ (wo_wf _ Hw) m Hm). lia.
Qed.

(** C5. A request that asks for the node of a key waits at most once more than
    the gate of the key was taken by requests since it began to ask, as long as
    the count of the gate does not overflow: between two waits of one request
    another one got through, or it gets through itself. *)
Theorem waits_bounded w1 tr w2 i r rng hd m : world_ok w1 -> w_clients w1 !! i = Some (mkClient r (Asking Start (loop_new rng hd))) ->
  run w1 tr w2 -> (i, Asked) ∉ tr -> node_map (w_store w2) !! md5 (rq_ci r) = Some m ->
  0 <= taken (w_store w1) m -> taken (w_store w1) m + Z.of_nat (events (Granted m) tr.*2) < 2 ^ 63 ->
  (waits i m tr <= S (events (Granted m) tr.*2))%nat.
Proof.
  intros Hw Ei Hr Hask Hm Ht Hmax.
  enough (call_ok i m r (taken (w_store w1) m) (events (Granted m) tr.*2) (waits i m tr) w2 /\
    taken (w_store w2) m = taken (w_store w1) m + Z.of_nat (events (Granted m) tr.*2)) as [[pc l _ Hs|] _]; [by eapply seen_bound|done|].
  assert (is_Some (managers (w_store w2) !! m) -> node_map (w_store w2) !! md5 (rq_ci r) = Some m) as Hkey by done. clear Hm.
  induction Hr as [|tr w ev w' Hr IH Hs].
  - split; [|cbn; lia]. eapply CallAsking; [exact Ei|]. by left.
  - destruct (run_ok w1 tr w Hw Hr) as (Hok & _ & _). pose proof (step_had _ _ _ _ _ Hok Hs Hkey) as Hkey'.
    pose proof (ag_there _ _ (st_aged _ _ _ (step_ok w ev w' Hok Hs)) m) as Hthere.
    rewrite fmap_app, events_app in *. rewrite waits_app. apply not_elem_of_app in Hask as [Hask1 Hask2].
    destruct IH as [IH1 IH2]; [done|lia|done|].
    assert (taken (w_store w') m = taken (w_store w1) m + Z.of_nat (events (Granted m) tr.*2 + events (Granted m) ev.*2)) as Et.
    { destruct (taken_step w ev w' m Hok Hs) as [[-> ->]|[-> E1]]; [lia|]. rewrite E1 in *. rewrite swrap64_id; lia. }
    split; [|done]. destruct Hs as [w s' Q|w r1 Ea Em|w j key k o s' E|w j max_size e k o s' E|w j a c c' s' ev Ej Ha].
    + cbn. rewrite !Nat.add_0_r. by eapply (call_kept _ _ _ _ _ _ _ _ _ IH1).
    + cbn. rewrite !Nat.add_0_r. eapply (call_kept _ _ _ _ _ _ _ _ _ IH1); [|done|done]. cbn. apply lookup_app_l. destruct IH1 as [? ? E|? ? E]; by eapply lookup_lt_Some.
    + rewrite waits_removal, Nat.add_0_r. eapply (call_kept _ _ _ _ _ _ _ _ _ IH1); [done|lia|done].
    + rewrite waits_removal, Nat.add_0_r. eapply (call_kept _ _ _ _ _ _ _ _ _ IH1); [done|lia|done].
    + rewrite pair_snd. destruct (decide (j = i)) as [->|Hij].
      * rewrite waits_events. eapply call_act; [done..|lia| |done]. intros Hin. apply Hask2. by apply list_elem_of_fmap_2.
      * rewrite waits_other by done. rewrite Nat.add_0_r. eapply (call_kept _ _ _ _ _ _ _ _ _ IH1); [cbn; by apply list_lookup_insert_ne|lia|done].
Qed.

(** ** Runs that are written down *)

Fixpoint play (acts : list (nat * Act)) (w : World) : option (World * list (nat * Event)) :=
  match acts with
  | [] => Some (w, [])
  | (i, a) :: acts =>
      match w_clients w !! i with
      | None => None
      | Some c =>
          match act a c (w_store w) with
          | None => None
          | Some (c', s', ev) =>
              match play acts (mkWorld s' (<[i:=c']> (w_clients w))) with
              | Some (w', tr) => Some (w', (pair i <$> ev) ++ tr)
              | None => None
              end
          end
      end
  end.

Lemma run_cons w ev w1 tr w2 : step w ev w1 -> run w1 tr w2 -> run w (ev ++ tr) w2.
Proof.
  intros Hs. induction 1 as [|tr w2 ev' w3 Hr IH Hs'].
  - rewrite app_nil_r. rewrite <- (app_nil_l ev). by apply (run_step _ [] w); [apply run_nil|].
  - rewrite app_assoc. by eapply run_step.
Qed.

Lemma play_run acts w w' tr : play acts w = Some (w', tr) -> run w tr w'.
Proof.
  revert w tr. induction acts as [|[i a] acts IH]; intros w tr E; cbn in E; [injection E as <- <-; apply run_nil|].
  destruct (w_clients w !! i) as [c|] eqn:Ei; [|done]. destruct (act a c (w_store w)) as [[[c' s'] ev]|] eqn:Ea; [|done].
  destruct (play acts _) as [[w2 tr2]|] eqn:Ep; [|done]. injection E as <- <-. eapply run_cons; [by eapply step_act|by apply IH].
Qed.

Lemma run_app w1 tr w2 tr' w3 : run w1 tr w2 -> run w2 tr' w3 -> run w1 (tr ++ tr') w3.
Proof.
  intros H1. induction 1 as [|tr' w3 ev w4 Hr IH Hs]; [by rewrite app_nil_r|]. rewrite app_assoc. by eapply run_step.
Qed.

(** The clients [rs] come. *)
Lemma run_come s cs rs : Forall (fun r => rq_is_upstream_add r = false /\ hcf_manage r = None) rs ->
  run (mkWorld s cs) [] (mkWorld s (cs ++ ((fun r => mkClient r Idle) <$> rs))).
Proof.
  revert cs. induction rs as [|r rs IH]; intros cs Hrs; cbn.
  - rewrite app_nil_r. apply run_nil.
  - inversion Hrs as [|? ? [H1 H2] H3]; subst. rewrite <- (app_nil_l []). eapply run_app.
    + rewrite <- (app_nil_l []). eapply run_step; [apply run_nil|by apply (step_come (mkWorld s cs) r)].
    + cbn. change (mkClient r Idle :: ((fun r => mkClient r Idle) <$> rs)) with ([mkClient r Idle] ++ ((fun r => mkClient r Idle) <$> rs)).
      rewrite app_assoc. by apply IH.
Qed.
End flight.

(** ** A concrete cache *)

Definition empty_store `{HttpParse} : Store :=
  mkStore ∅ ∅ ∅ ∅ ∅ ∅ ∅ [] 0 [] [] ∅ ∅ 1800000000 1 1 1.

Definition demo_request (is_range is_head : bool) : @Request assoc_http plain_parse :=
  @mkRequest assoc_http plain_parse demo_cache_info GET "http://a.cn/x" is_range is_head false false true 0 false false None 0 false Bypass false
    None None None 0 None.
Definition turns_of (i n : nat) : list (nat * @Act assoc_http) := replicate n (i, Turn).

(** Two requests for the same answer, of which the cache has nothing: the first
    gets through the gate, the second waits for it. *)
Definition two_requests : list (nat * @Act assoc_http) :=
  [(0%nat, Ask); (1%nat, Ask)] ++ turns_of 0 6 ++ turns_of 1 3 ++ [(0%nat, Serve); (1%nat, Turn)].
Definition two_come : @World assoc_http plain_parse := mkWorld empty_store [mkClient (demo_request false false) Idle; mkClient (demo_request false false) Idle].

Lemma wf_empty `{HttpParse} : wf empty_store.
Proof. split; cbn; [intros m; rewrite lookup_empty; by intros []|intros k m; by rewrite lookup_empty|intros k k' m; by rewrite lookup_empty]. Qed.

Lemma come_run `{HttpParse} rs : Forall (fun r => rq_is_upstream_add r = false /\ hcf_manage r = None) rs ->
  run (mkWorld empty_store []) [] (mkWorld empty_store ((fun r => mkClient r Idle) <$> rs)).
Proof. intros Hrs. exact (run_come empty_store [] rs Hrs). Qed.

(** A fact of what a list of acts leads to. *)
Definition leads (acts : list (nat * @Act assoc_http)) (w : @World assoc_http plain_parse) (P : @World assoc_http plain_parse -> list (nat * Event) -> Prop) : Prop :=
  match play acts w with Some (w', tr) => P w' tr | None => False end.

Lemma waits_bounded_witness :
  leads (drop 2 two_requests) (match play (take 2 two_requests) two_come with Some (w, _) => w | None => two_come end)
    (fun w tr => waits 1 1 tr = 1%nat /\ (waits 1 1 tr <= S (events (Granted 1) tr.*2))%nat).
Proof.
  set (w1 := match play (take 2 two_requests) two_come with Some (w, _) => w | None => two_come end).
  unfold leads. pose proof (play_run (drop 2 two_requests) w1) as Hr.
  assert (leads (drop 2 two_requests) w1 (fun w tr => waits 1 1 tr = 1%nat /\ ((1%nat, Asked) ∉ tr) /\
    node_map (w_store w) !! md5 (rq_ci (demo_request false false)) = Some 1%nat /\ events (Granted 1) tr.*2 = 1%nat)) as Hl.
  { vm_compute. split_and!; try reflexivity. apply not_elem_of_cons; split; [done|]. apply not_elem_of_cons; split; [done|]. apply not_elem_of_nil. }
  unfold leads in Hl. destruct (play (drop 2 two_requests) w1) as [[w tr]|]; [|done]. destruct Hl as (H1 & H2 & H3 & H4). split; [done|].
  apply (waits_bounded w1 tr w 1 (c_request (nth 1 (w_clients w1) (mkClient (demo_request false false) Idle))) false false 1);
    [|reflexivity|by apply Hr|done|exact H3|vm_compute; congruence|rewrite H4; vm_compute; reflexivity].
  assert (world_ok two_come) as Hok.
  { eapply (run_ok (mkWorld empty_store [])); [split; [apply wf_empty|done]|].
    apply (come_run [demo_request false false; demo_request false false]). by repeat constructor. }
  destruct (play (take 2 two_requests) two_come) as [[w2 tr2]|] eqn:E; [|done]. apply play_run in E.
  by eapply (run_ok two_come).
Defined.

(** *** A node that is not complete *)

Definition partial_head : @ProxyCacheFileNodeHead assoc_http plain_parse :=
  @mkNodeHead assoc_http plain_parse (as_bytes "9f86") (as_bytes "GETa.cn/x") "/c/6/9f86" "/c/6/tmp/9f86_1_1" "http://a.cn/x" GET 5000 "a.cn" 0 1024
    1800003600 3600 false.
Definition partial_store (gate : bool) (status : CacheFileStatus) : @Store assoc_http plain_parse :=
  let x := mkFN 3 1 (demo_info 1800003600) 4 1800000000 0 in
  mkStore {[1%nat := mkManage gate 0 1800000000 0 [] [5%nat] (Some 2%nat) 0 0 true (Some 4%nat) 0]} {[md5 demo_cache_info := 1%nat]}
    {[2%nat := x; 6%nat := x]} {[3%nat := mkNodeCtx status 0 demo_bits ∅]} {[4%nat := partial_head]} ∅ {[5%nat := Some 6%nat]} [5%nat] 0 [] [] ∅ ∅
    1800000000 7 1 1.
Definition three_come : @World assoc_http plain_parse :=
  mkWorld (partial_store false Exist) ((fun r => mkClient r Idle) <$> [demo_request true false; demo_request false false; demo_request false false]).

(** The second request goes upstream for the whole answer, and the third waits;
    then the first, which asked for a range, is served from the cache and ends. *)
Definition stray_end : list (nat * @Act assoc_http) :=
  [(1%nat, Ask)] ++ turns_of 1 8 ++ [(1%nat, Serve); (2%nat, Ask)] ++ turns_of 2 3 ++
  [(0%nat, Ask)] ++ turns_of 0 5 ++ [(0%nat, Serve); (0%nat, EndErr); (0%nat, Proceed)] ++ turns_of 2 9 ++ [(2%nat, Serve)].

(** The end of a request that is not upstream can let a second request go
    upstream for the same answer: it wakes whoever waits at the gate, and the
    request that wakes finds the gate as it last saw it and takes the request
    that is upstream for lost.  No time has passed, and nothing was answered. *)
Theorem stray_end_opens_gate :
  forallb (fun x => match x.2 with TimedOut | Respond _ _ _ => false | _ => true end) stray_end = true /\
  leads stray_end three_come (fun w tr =>
    holders 1 (w_clients w) = 2%nat /\ strays 1 tr = 1%nat /\ now (w_store w) = now (w_store three_come)).
Proof. vm_compute. split_and!; reflexivity. Qed.

(** A request goes upstream for the whole answer; then the answer is purged, and
    another request for it finds a new manager and goes upstream too. *)
Definition one_goes : list (nat * @Act assoc_http) := [(0%nat, Ask)] ++ turns_of 0 8 ++ [(0%nat, Serve)].
Definition another_goes : list (nat * @Act assoc_http) := [(1%nat, Ask)] ++ turns_of 1 6 ++ [(1%nat, Serve)].
Definition whole_requests : list (@Request assoc_http plain_parse) := [demo_request false false; demo_request false false].
Definition whole_come : @World assoc_http plain_parse := mkWorld (partial_store false Exist) ((fun r => mkClient r Idle) <$> whole_requests).
Definition purged (w : @World assoc_http plain_parse) : @World assoc_http plain_parse :=
  mkWorld (del_cache_file (md5 demo_cache_info) 1 (w_store w)).2 (w_clients w).

Definition purge_run (P : @World assoc_http plain_parse -> list (nat * Event) -> Prop) : Prop :=
  leads one_goes whole_come (fun w1 tr1 => leads another_goes (purged w1) (fun w2 tr2 =>
    P w2 (tr1 ++ (pair 2%nat <$> removal (md5 demo_cache_info) (w_store w1) (w_store (purged w1))) ++ tr2))).

Lemma purge_run_runs P : purge_run P -> exists w tr, run (mkWorld (partial_store false Exist) []) tr w /\ P w tr.
Proof.
  unfold purge_run, leads. destruct (play one_goes whole_come) as [[w1 tr1]|] eqn:E1; [|done].
  destruct (play another_goes (purged w1)) as [[w2 tr2]|] eqn:E2; [|done]. intros HP. exists w2. eexists. split; [|exact HP].
  apply play_run in E1, E2. rewrite <- (app_nil_l (tr1 ++ _)). eapply (run_app _ _ whole_come).
  { apply (run_come _ [] whole_requests). by repeat constructor. }
  eapply run_app; [exact E1|]. eapply run_cons; [|exact E2].
  destruct (del_cache_file (md5 demo_cache_info) 1 (w_store w1)) as [o s'] eqn:Ed. pose proof (step_purge w1 2 _ 1 o s' Ed) as Hs.
  unfold purged. by rewrite Ed.
Qed.

Lemma wf_partial gate status : wf (partial_store gate status).
Proof.
  split; cbn.
  - intros m [x Hm]. apply lookup_singleton_Some in Hm as [<- _]. lia.
  - intros k m [_ <-]%lookup_singleton_Some. by eexists.
  - intros k k' m [<- _]%lookup_singleton_Some [<- _]%lookup_singleton_Some. done.
Qed.

Lemma one_upstream_per_opening_witness : exists w tr, wf (partial_store false Exist) /\ run (mkWorld (partial_store false Exist) []) tr w /\
  removals (md5 demo_cache_info) tr = 1%nat /\ upstream_for (md5 demo_cache_info) (w_clients w) = 2%nat /\
  exists ms, (upstream_for (md5 demo_cache_info) (w_clients w) <= S (removals (md5 demo_cache_info) tr) + sum_list_with (fun m => strays m tr) ms)%nat /\
    (length ms <= 2)%nat.
Proof.
  assert (purge_run (fun w tr => removals (md5 demo_cache_info) tr = 1%nat /\ upstream_for (md5 demo_cache_info) (w_clients w) = 2%nat)) as Hp by (vm_compute; by split).
  destruct (purge_run_runs _ Hp) as (w & tr & Hr & H1 & H2). exists w, tr. split; [apply wf_partial|]. split; [done|]. split; [done|]. split; [done|].
  destruct (one_upstream_per_opening (mkWorld (partial_store false Exist) []) tr w (wf_partial false Exist) eq_refl Hr) as [_ Hk].
  destruct (Hk (md5 demo_cache_info)) as (ms & K1 & _ & K3). exists ms. split; [exact K3|]. by rewrite H1 in K1.
Defined.
