(* ===== verification/CacheTurns.v ===== *)
(** What a request meets whose node is there with an open file: its answer, or
    no end of turns. *)
From S2P Require Import Prelude RustStd Bitmap FileCache HttpLib HttpHeader CacheFile CacheRestart CacheGate CacheServe CacheGateRun CacheWorld CacheFlight.
From S2P Require HttpCtx.
#[local] Open Scope string_scope.
#[local] Open Scope list_scope.
#[local] Open Scope Z_scope.

Section turns.
Context `{HttpParse}.

(** [n] turns of one request that no one else comes between. *)
Fixpoint turns (n : nat) (ci : ProxyCacheFileInfo) (p : Pc * Loop) : stm Store (Pc * Loop) :=
  match n with O => mret p | S n => p ← get_turn ci p.1 p.2; turns n ci p end.

(** The manager [m] of the key has the node [n] with the context [c], and its
    pool begins with the entry [d] of the open file [n'] and has no closed
    ones. *)
Record open_here (ci : ProxyCacheFileInfo) (s : Store) (m n d n' : nat) (x : NodeManage) (c : NodeCtx) : Prop := {
  oh_map : node_map s !! md5 ci = Some m;
  oh_manager : managers s !! m = Some x;
  oh_node : cache_node x = Some n;
  oh_ctx : exists y h, nodes s !! n = Some y /\ ctxs s !! fn_ctx y = Some c /\ heads s !! fn_head y = Some h /\
    (is_expires (now s) h = false \/ cx_status c = Expire);
  oh_pool : exists q, node_queue x = d :: q /\ Forall (fun d => is_nil s d = false) (d :: q);
  oh_data : datas s !! d = Some (Some n');
  oh_open : exists y, nodes s !! n' = Some y /\ ctxs s !! fn_ctx y = Some c
}.

Lemma filter_all {A} (P : A -> Prop) `{forall a, Decision (P a)} l : Forall P l -> filter P l = l.
Proof. induction 1 as [|a l Ha Hl IH]; [done|]. rewrite filter_cons, decide_True, IH; done. Qed.
Lemma filter_none {A} (P : A -> Prop) `{forall a, Decision (P a)} l : Forall (fun a => ~ P a) l -> filter P l = [].
Proof. induction 1 as [|a l Ha Hl IH]; [done|]. rewrite filter_cons, decide_False; done. Qed.

Lemma set_managers_id s : set_managers (managers s) s = s.
Proof. by destruct s. Qed.
Lemma set_ctxs_id s : set_ctxs (ctxs s) s = s.
Proof. by destruct s. Qed.

Lemma upd_manager_same m f s x : managers s !! m = Some x -> f x = x -> upd_manager m f s = (Ok tt, s).
Proof.
  intros E Ef. unfold upd_manager, modify. replace (alter f m (managers s)) with (managers s); [by rewrite set_managers_id|].
  apply map_eq. intros k. destruct (decide (k = m)) as [->|Hk]; [rewrite lookup_alter_eq, E; cbn; by rewrite Ef|by rewrite lookup_alter_ne].
Qed.
Lemma upd_ctx_same k f s c : ctxs s !! k = Some c -> f c = c -> upd_ctx k f s = (Ok tt, s).
Proof.
  intros E Ef. unfold upd_ctx, modify. replace (alter f k (ctxs s)) with (ctxs s); [by rewrite set_ctxs_id|].
  apply map_eq. intros j. destruct (decide (j = k)) as [->|Hj]; [rewrite lookup_alter_eq, E; cbn; by rewrite Ef|by rewrite lookup_alter_ne].
Qed.

Lemma node_ok n s y : nodes s !! n = Some y -> node n s = (Ok y, s).
Proof. intros E. unfold node, mbind, stm_bind, gets, lift, expect. cbn. by rewrite E. Qed.
Lemma head_of_ok h s y : heads s !! h = Some y -> head_of h s = (Ok y, s).
Proof. intros E. unfold head_of, mbind, stm_bind, gets, lift, expect. cbn. by rewrite E. Qed.
Lemma node_ctx_ok n s y c : nodes s !! n = Some y -> ctxs s !! fn_ctx y = Some c -> node_ctx n s = (Ok c, s).
Proof. intros E1 E2. unfold node_ctx. rewrite (stm_step _ _ _ _ _ (node_ok _ _ _ E1)). unfold mbind, stm_bind, gets, lift, expect. cbn. by rewrite E2. Qed.

Section here.
Context (ci : ProxyCacheFileInfo) (s : Store) (m n d n' : nat) (x : NodeManage) (c : NodeCtx) (Hh : open_here ci s m n d n' x c).

Lemma status_same : update_node_status n s = (Ok tt, s).
Proof using Hh.
  destruct Hh as [_ _ _ (y & h & E1 & E2 & E3 & E4) _ _ _]. unfold update_node_status.
  rewrite (stm_step _ _ _ _ _ (node_ok _ _ _ E1)), (stm_step _ _ _ _ _ (head_of_ok _ _ _ E3)), (stm_step (gets id) _ s s s eq_refl).
  change (now (id s)) with (now s). destruct (is_expires (now s) h); [|done].
  destruct E4 as [|E4]; [done|]. apply (upd_ctx_same _ _ _ _ E2). destruct c. cbn in *. by rewrite E4.
Qed.

Lemma start_here l : get_turn ci Start l s = (Ok (Look m (manage_version x), l), s).
Proof using Hh.
  cbn [get_turn]. assert (read_cache_file_node_manage (md5 ci) s = (Ok (false, m), s)) as E.
  { unfold read_cache_file_node_manage, mbind, stm_bind, gets. cbn. by rewrite (oh_map _ _ _ _ _ _ _ _ Hh). }
  rewrite (stm_step _ _ _ _ _ E), (stm_step _ _ _ _ _ (manager_ok _ _ _ (oh_manager _ _ _ _ _ _ _ _ Hh))). done.
Qed.

Lemma look_here l v : get_turn ci (Look m v) l s =
  (Ok (if is_usable l (cx_status c) (is_full (cx_bitmap c)) then Clean m v n else Close m, set_open_file false l), s).
Proof using Hh.
  cbn [get_turn]. assert (do_get_cache_file_node ci m (l_is_open_file l) s = (Ok (false, Some n), s)) as E.
  { unfold do_get_cache_file_node. rewrite (stm_step _ _ _ _ _ (manager_ok _ _ _ (oh_manager _ _ _ _ _ _ _ _ Hh))), (oh_node _ _ _ _ _ _ _ _ Hh).
    by rewrite (stm_step _ _ _ _ _ status_same). }
  rewrite (stm_step _ _ _ _ _ E). cbv zeta. destruct (oh_ctx _ _ _ _ _ _ _ _ Hh) as (y & h & E1 & E2 & _).
  rewrite (stm_step _ _ _ _ _ (node_ctx_ok _ _ _ _ E1 E2)). change (is_usable (set_open_file false l)) with (is_usable l).
  by destruct (is_usable l _ _).
Qed.

Lemma clean_here l v : get_turn ci (Clean m v n) l s = (Ok (Pool m v n, l), s).
Proof using Hh.
  cbn [get_turn]. assert (clean_queue m s = (Ok tt, s)) as E.
  { unfold clean_queue. rewrite (stm_step _ _ _ _ _ (manager_ok _ _ _ (oh_manager _ _ _ _ _ _ _ _ Hh))), (stm_step (gets id) _ s s s eq_refl).
    destruct (oh_pool _ _ _ _ _ _ _ _ Hh) as (q & Eq & Hq).
    assert (filter (fun d => is_nil s d = false) (node_queue x) = node_queue x) as E1.
    { rewrite Eq. by apply filter_all. }
    assert (filter (fun d => is_nil s d = true) (node_queue x) = []) as E2.
    { rewrite Eq. apply filter_none. eapply Forall_impl; [exact Hq|]. by intros e ->. }
    cbv zeta. change (is_nil (id s)) with (is_nil s). rewrite E1, E2.
    by rewrite (stm_step _ _ _ _ _ (upd_manager_same m (set_queue (node_queue x)) s x (oh_manager _ _ _ _ _ _ _ _ Hh) ltac:(by destruct x))). }
  by rewrite (stm_step _ _ _ _ _ E).
Qed.

Lemma pool_here l : get_turn ci (Pool m (manage_version x) n) l s = (Ok (Decide m d n', l), s).
Proof using Hh.
  cbn [get_turn]. rewrite (stm_step _ _ _ _ _ (manager_ok _ _ _ (oh_manager _ _ _ _ _ _ _ _ Hh))), Z.eqb_refl. cbn [negb].
  assert (pool_front (node_queue x) m s = (Ok (Some (n', d)), s)) as E.
  { destruct (oh_pool _ _ _ _ _ _ _ _ Hh) as (q & -> & _). cbn [pool_front]. rewrite (stm_step (gets id) _ s s s eq_refl). change (datas (id s)) with (datas s).
    by rewrite (oh_data _ _ _ _ _ _ _ _ Hh). }
  by rewrite (stm_step _ _ _ _ _ E).
Qed.

(** Four turns lead to the decision, and change nothing. *)
Lemma to_decide k l : is_usable l (cx_status c) (is_full (cx_bitmap c)) = true ->
  turns (S (S (S (S k)))) ci (Start, l) s = turns k ci (Decide m d n', set_open_file false l) s.
Proof using Hh.
  intros Hu. cbn [turns fst snd]. rewrite (stm_step _ _ _ _ _ (start_here l)). cbn [fst snd].
  rewrite (stm_step _ _ _ _ _ (look_here _ _)), Hu. cbn [fst snd].
  rewrite (stm_step _ _ _ _ _ (clean_here _ _)). cbn [fst snd]. by rewrite (stm_step _ _ _ _ _ (pool_here _)).
Qed.

Lemma decide_ctx : node_ctx n' s = (Ok c, s).
Proof using Hh. destruct (oh_open _ _ _ _ _ _ _ _ Hh) as (y & E1 & E2). exact (node_ctx_ok _ _ _ _ E1 E2). Qed.

Lemma decide_fresh l : cx_status c = Exist -> l_range l || l_head l || is_full (cx_bitmap c) = true ->
  get_turn ci (Decide m d n') l s = (Ok (Done m (mkAnswer false (Some Exist) (Some d) (Some n') 0 false), l), s).
Proof using Hh.
  intros Ec Hl. cbn [get_turn]. unfold decide_node. rewrite (stm_step _ _ _ _ _ decide_ctx), Ec.
  destruct (l_range l || l_head l); [done|]. cbn [orb] in Hl. by rewrite Hl.
Qed.

(** A stale node while another request is upstream. *)
Lemma decide_stale l : cx_status c = Expire -> is_upstream x = true ->
  (now s - upstream_time x <? once_time) && is_full (cx_bitmap c) = false ->
  get_turn ci (Decide m d n') l s = (Ok (Start, set_ok false l), s).
Proof using Hh.
  intros Ec Hu Ht. cbn [get_turn]. unfold decide_node. rewrite (stm_step _ _ _ _ _ decide_ctx), Ec.
  cbv zeta. rewrite (stm_step _ _ _ _ _ (manager_ok _ _ _ (oh_manager _ _ _ _ _ _ _ _ Hh))), (stm_step (gets id) _ s s s eq_refl).
  change (now (id s)) with (now s). rewrite Hu, andb_true_l, Ht. done.
Qed.
End here.

(** The header of the answer to a HEAD request is always one that can be sent. *)
Lemma header_text_app s1 s2 : is_header_text (s1 ++ s2)%string = is_header_text s1 && is_header_text s2.
Proof.
  induction s1 as [|c s1 IH]; [done|].
  change (is_header_char c && is_header_text (s1 ++ s2)%string = is_header_char c && is_header_text s1 && is_header_text s2). by rewrite IH, andb_assoc.
Qed.
Lemma header_text_digits t : all_digits t = true -> is_header_text t = true.
Proof.
  induction t as [|c t IH]; [done|]. intros [Hc Ht]%andb_prop. change (is_header_char c && is_header_text t = true). rewrite IH, andb_true_r by done.
  revert Hc. clear.
  destruct c as [[] [] [] [] [] [] [] []]; vm_compute; congruence.
Qed.
Lemma whole_range_text raw : is_header_text (whole_range raw) = true.
Proof.
  unfold whole_range. rewrite !header_text_app. rewrite !(header_text_digits (show_u _)) by apply show_all_digits. done.
Qed.
Lemma request_head_ok n s r y : nodes s !! n = Some y -> cache_file_request_head n (s, r) = (Ok true, (s, r)).
Proof.
  intros E. unfold cache_file_request_head. assert (on_store (node n) (s, r) = (Ok y, (s, r))) as En by (apply on_fst_ok; by apply node_ok).
  rewrite (stm_step _ _ _ _ _ En). cbv zeta. rewrite whole_range_text. by destruct (0 <? _).
Qed.

(** What the request then does with the answer. *)
Lemma hit_served ci s m n d n' x c r : open_here ci s m n d n' x c -> rq_is_range r = false ->
  rq_is_head r || is_full (cx_bitmap c) = true -> exists s' r', 
  after_gate m (mkAnswer false (Some Exist) (Some d) (Some n') 0 false) (s, r) = (Ok FromCache, (s', r')) /\
  rq_cache_status r' = Hit /\ hcf_node r' = Some n' /\ hcf_manage r' = Some m /\ hcf_version r' = manage_version x /\
  rq_is_upstream_add r' = rq_is_upstream_add r /\ rq_is_upstream r' = rq_is_upstream r /\ managers s' = managers s /\
  fn_requests <$> nodes s' !! n' = (fun z => swrap64 (z + 1)) <$> (fn_requests <$> nodes s !! n').
Proof.
  intros Hh Er Hf. destruct (oh_open _ _ _ _ _ _ _ _ Hh) as (y & E1 & E2). pose proof (oh_manager _ _ _ _ _ _ _ _ Hh) as Em.
  set (s1 := set_lru (filter (fun x => x <> d) (node_lru s) ++ [d])
    (set_lru (filter (fun x => x <> d) (node_lru s)) (set_nodes (alter (fun x => mkFN (fn_ctx x) (fn_uniq x) (fn_info x) (fn_head x) (now s) (swrap64 (fn_requests x + 1))) n' (nodes s)) s))).
  set (r1 := set_hcf_node (Some n') (set_hcf_data (Some d) (set_hcf_status (Some Exist) (set_hcf_manage (Some m) (set_hcf_version (manage_version x) r))))).
  assert (settle m (mkAnswer false (Some Exist) (Some d) (Some n') 0 false) (s, r) = (Ok (mkGot true 0 None (Some Exist)), (s1, r1))) as Es.
  { unfold settle. cbn [a_data a_node]. assert (on_store (manager m) (s1, r) = (Ok x, (s1, r))) as E.
    { unfold on_store. apply on_fst_ok. by apply manager_ok. }
    rewrite (stm_step _ _ (s, r) tt (s1, r)) by reflexivity. by rewrite (stm_step _ _ _ _ _ E). }
  unfold after_gate. rewrite (stm_step _ _ _ _ _ Es). unfold serve. rewrite (stm_step request _ (s1, r1) r1 (s1, r1) eq_refl).
  change (rq_is_range r1) with (rq_is_range r). rewrite Er. unfold serve_not_range. rewrite (stm_step request _ (s1, r1) r1 (s1, r1) eq_refl).
  change (hcf_node r1) with (Some n'). cbn [g_is_ok orb].
  assert (nodes s1 !! n' = Some (mkFN (fn_ctx y) (fn_uniq y) (fn_info y) (fn_head y) (now s) (swrap64 (fn_requests y + 1)))) as En.
  { cbn. by rewrite lookup_alter_eq, E1. }
  assert (node_full n' (s1, r1) = (Ok (is_full (cx_bitmap c)), (s1, r1))) as Ef.
  { unfold node_full. assert (on_store (node_ctx n') (s1, r1) = (Ok c, (s1, r1))) as E; [|by rewrite (stm_step _ _ _ _ _ E)].
    unfold on_store. apply on_fst_ok. by eapply node_ctx_ok. }
  rewrite (stm_step _ _ _ _ _ Ef). change (rq_is_head r1) with (rq_is_head r).
  assert (negb (rq_is_head r) && negb (is_full (cx_bitmap c)) = false) as ->.
  { destruct (rq_is_head r); [done|]. cbn in Hf. by rewrite Hf. }
  assert ((if rq_is_head r then cache_file_request_head n' else cache_file_request_not_range n') (s1, r1) = (Ok true, (s1, r1))) as Eq.
  { destruct (rq_is_head r); [exact (request_head_ok _ _ _ _ En)|]. unfold cache_file_request_not_range. rewrite Ef. cbn in Hf. by rewrite Hf. }
  rewrite (stm_step _ _ _ _ _ Eq). cbn [negb].
  destruct (0 <? rq_content_length r1); cbn; (do 2 eexists; split; [reflexivity|]; cbn; by rewrite lookup_alter_eq, E1).
Qed.

(** C21. A fresh node with an open file at the head of its pool answers a request
    for a range or a head, and any request when it is complete, closed gate or
    not: in five turns, and without a change to the store; and such a request that
    is not for a range is then served from the cache, with one more request
    counted for the node. *)
Theorem fresh_node_answers ci s m n d n' x c l r : open_here ci s m n d n' x c -> cx_status c = Exist ->
  l_range l = rq_is_range r -> l_head l = rq_is_head r -> rq_is_range r || rq_is_head r || is_full (cx_bitmap c) = true ->
  let a := mkAnswer false (Some Exist) (Some d) (Some n') 0 false in
  turns 5 ci (Start, l) s = (Ok (Done m a, set_open_file false l), s) /\
  (rq_is_range r = false -> exists s' r', after_gate m a (s, r) = (Ok FromCache, (s', r')) /\
    rq_cache_status r' = Hit /\ hcf_node r' = Some n' /\ rq_is_upstream_add r' = rq_is_upstream_add r /\ managers s' = managers s /\
    fn_requests <$> nodes s' !! n' = (fun z => swrap64 (z + 1)) <$> (fn_requests <$> nodes s !! n')).
Proof.
  intros Hh Ec El1 El2 Hl a. assert (l_range l || l_head l || is_full (cx_bitmap c) = true) as Hl' by (by rewrite El1, El2). split.
  - rewrite (to_decide ci s m n d n' x c Hh).
    + cbn [turns fst snd]. by rewrite (stm_step _ _ _ _ _ (decide_fresh ci s m n d n' x c Hh (set_open_file false l) Ec Hl')).
    + unfold is_usable. rewrite Ec. destruct (l_range l || l_head l); [done|]. cbn [orb] in Hl'. by rewrite Hl'.
  - intros Er. rewrite Er in Hl. destruct (hit_served ci s m n d n' x c r Hh Er Hl) as (s' & r' & E & H1 & H2 & H3 & H4 & H5 & H6 & H7 & H8).
    by exists s', r'.
Qed.

Lemma turns_add j k ci p s p' : turns j ci p s = (Ok p', s) -> turns (j + k) ci p s = turns k ci p' s.
Proof.
  revert k. enough (forall s1 s2 k, turns j ci p s1 = (Ok p', s2) -> turns (j + k) ci p s1 = turns k ci p' s2) by eauto.
  revert p. induction j as [|j IH]; intros p s1 s2 k E; cbn in E; [by injection E as -> ->|].
  cbn [Nat.add turns]. apply stm_bind_ok in E as (p1 & s3 & E1 & E2). rewrite (stm_step _ _ _ _ _ E1). by apply IH.
Qed.

(** A HEAD request for a stale node that is not complete, while another
    request is upstream for it, turns round and round: five turns lead back to
    the top of the loop with the store and the loop as they were, however often,
    so that it neither waits nor yields to another request. *)
Theorem stale_head_spins ci s m n d n' x c l k : open_here ci s m n d n' x c -> cx_status c = Expire -> is_upstream x = true ->
  is_full (cx_bitmap c) = false -> l_head l = true ->
  turns (5 * S k) ci (Start, l) s = (Ok (Start, set_ok false (set_open_file false l)), s).
Proof.
  intros Hh Ec Hu Hf Hl.
  assert (forall l, l_head l = true -> turns 5 ci (Start, l) s = (Ok (Start, set_ok false (set_open_file false l)), s)) as Hround.
  { intros l0 Hl0. rewrite (to_decide ci s m n d n' x c Hh).
    - cbn [turns fst snd]. rewrite (stm_step _ _ _ _ _ (decide_stale ci s m n d n' x c Hh (set_open_file false l0) Ec Hu ltac:(by rewrite Hf, andb_false_r))). done.
    - unfold is_usable. by rewrite Ec, Hl0, orb_true_r. }
  revert l Hl. induction k as [|k IH]; intros l Hl; [by apply Hround|].
  replace (5 * S (S k))%nat with (5 + 5 * S k)%nat by lia. rewrite (turns_add _ _ _ _ _ _ (Hround l Hl)), IH; done.
Qed.
End turns.

Lemma partial_open gate status : exists x, is_upstream x = gate /\
  open_here demo_cache_info (partial_store gate status) 1 2 5 6 x (mkNodeCtx status 0 demo_bits ∅).
Proof.
  exists (mkManage gate 0 1800000000 0 [] [5%nat] (Some 2%nat) 0 0 true (Some 4%nat) 0). split; [done|]. split; try reflexivity.
  - do 2 eexists. split_and!; first [reflexivity|left; reflexivity].
  - eexists. split; [reflexivity|]. by repeat constructor.
  - by eexists.
Qed.

Lemma fresh_node_answers_witness : exists l r, rq_is_head r = true /\
  turns 5 demo_cache_info (Start, l) (partial_store true Exist) =
    (Ok (Done 1 (mkAnswer false (Some Exist) (Some 5%nat) (Some 6%nat) 0 false), set_open_file false l), partial_store true Exist) /\
  exists s' r', after_gate 1 (mkAnswer false (Some Exist) (Some 5%nat) (Some 6%nat) 0 false) (partial_store true Exist, r) = (Ok FromCache, (s', r')) /\
    rq_cache_status r' = Hit.
Proof.
  exists (loop_new false true), (demo_request false true). destruct (partial_open true Exist) as (x & _ & Hx).
  destruct (fresh_node_answers _ _ _ _ _ _ _ _ (loop_new false true) (demo_request false true) Hx eq_refl eq_refl eq_refl eq_refl) as [H1 H2].
  split_and!; [done|exact H1|]. destruct (H2 eq_refl) as (s' & r' & E & Ec & _). by exists s', r'.
Defined.

Lemma stale_head_spins_witness : exists l, l_head l = true /\
  turns 1000 demo_cache_info (Start, l) (partial_store true Expire) = (Ok (Start, set_ok false (set_open_file false l)), partial_store true Expire).
Proof.
  exists (loop_new false true). split; [done|]. destruct (partial_open true Expire) as (x & Ex & Hx).
  exact (stale_head_spins _ _ _ _ _ _ _ _ (loop_new false true) 199 Hx eq_refl Ex eq_refl eq_refl).
Defined.
