(* ===== verification/ConfLine.v ===== *)
(** The lines of a configuration file
    ([any-base/src/module/module.rs], the reading half of
    [Modules::parse_config]): comments, the head of an entry with its key and
    type, and its value, on one line or on many. *)
From S2P Require Import Prelude RustStd.
#[local] Open Scope string_scope.
#[local] Open Scope Z_scope.

Definition BLOCK_COMMENTS_START : string := "r###".
Definition BLOCK_COMMENTS_END : string := "###r".
Definition BLOCK_START : string := "r```".
Definition BLOCK_END : string := "```r".
Definition CMD_TYPE_STR : string := "str".
Definition CMD_TYPE_RAW : string := "raw".

(** [s.split_whitespace()] *)
Fixpoint split_ws (s : string) : list string :=
  match s with
  | EmptyString => [""]
  | String c s =>
      if is_ws c then "" :: split_ws s
      else match split_ws s with w :: ws => String c w :: ws | [] => [String c ""] end
  end.
Definition split_whitespace (s : string) : list string := filter (fun w => w <> "") (split_ws s).

(** [s.find(c) == Some(0)] *)
Definition at_start (c : ascii) (s : string) : bool := match find_char c s with Some O => true | _ => false end.

(** ** The head of an entry *)

(** What a line is: nothing to read, the start of a comment of many lines, the
    end of a block, or an entry with its key, its type, what follows the [=],
    and whether it is for another system. *)
Inductive Head :=
  | Blank
  | CommentStart
  | BlockClose
  | Entry (key typ value : string) (is_ignore : bool).

(** The words before the [=] *)
Definition read_key (ks : list string) (v : string) : outcome Head :=
  match ks with
  | [k] => Ok (Entry k CMD_TYPE_STR (trim_start v) false)
  | [k; typ] =>
      match split_once "_" typ with
      | Some (typ_key, typ_value) => Ok (Entry k typ_value (trim_start v) (bool_decide (typ_key = "window" \/ typ_key = "windows")))
      | None => Ok (Entry k typ (trim_start v) false)
      end
  | _ => Err ""
  end.

(** A line without [=]: the start or the end of a block. *)
Definition read_brace (str : string) : outcome Head :=
  let str := trim (match find_char "#" str with Some i => stake i str | None => str end) in
  end_char ← text_slice str (slen str - 1) (slen str);
  if String.eqb end_char "{" then
    s ← text_slice str 0 (slen str - 1);
    Ok (Entry (trim s) "" "" false)
  else if String.eqb end_char "}" then Ok BlockClose
  else Err "".

Definition read_head (raw : string) : outcome Head :=
  let left := trim_start raw in
  if at_start "#" left then Ok Blank
  else
    let str := trim_end left in
    if String.eqb str "" then Ok Blank
    else if String.eqb str BLOCK_COMMENTS_START then Ok CommentStart
    else
      match split_once "=" str with
      | Some (k, v) => read_key (split_whitespace (trim k)) v
      | None => read_brace str
      end.

(** The lines up to the end of a comment. *)
Fixpoint skip_comment (lines : list string) : outcome (list string) :=
  match lines with
  | [] => Err ""
  | l :: lines => if String.eqb (trim l) BLOCK_COMMENTS_END then Ok lines else skip_comment lines
  end.

(** ** The value of an entry *)

(** What may follow the [;]. *)
Definition ends_well (v : string) : bool := let v := trim v in String.eqb v "" || at_start "#" v.

Definition plain_value (value : string) : outcome string :=
  match split_once ";" value with
  | Some (k, v) => if ends_well v then Ok (trim k) else Err ""
  | None => Err ""
  end.

(** One line of a raw value, and whether it is the last. *)
Definition raw_piece (value : string) : outcome (string * bool) :=
  match find_str BLOCK_END value with
  | Some index =>
      match split_once ";" value with
      | Some (k, v) =>
          if ends_well v then s ← text_slice k (slen BLOCK_START) (Z.of_nat index); Ok (s, true) else Err ""
      | None => Err ""
      end
  | None => Ok (value, false)
  end.

Fixpoint raw_lines (value : string) (lines : list string) : outcome (string * list string) :=
  '(s, is_end) ← raw_piece value;
  if is_end : bool then Ok (s, lines)
  else
    match lines with
    | [] => Err ""
    | l :: lines => '(t, rest) ← raw_lines l lines; Ok (s +:+ t, rest)
    end.

(** With the lines that are left. *)
Definition read_value (typ value : string) (lines : list string) : outcome (string * list string) :=
  if String.eqb typ "" && String.eqb value "" then Ok (value, lines)
  else if negb (String.eqb typ CMD_TYPE_RAW) then v ← plain_value value; Ok (v, lines)
  else
    match find_str BLOCK_START value with
    | Some O => raw_lines (sdrop (String.length BLOCK_START) value) lines
    | _ => Err ""
    end.

(** The examples of the header of [GModules] and of the README. *)
Example scalar_line : read_head "timeout u32 = 30s; # half a minute" = Ok (Entry "timeout" "u32" "30s; # half a minute" false) /\
  plain_value "30s; # half a minute" = Ok "30s".
Proof. split; vm_compute; reflexivity. Qed.
Example block_line : read_head "  net_server http { # a block" = Ok (Entry "net_server http" "" "" false).
Proof. vm_compute. reflexivity. Qed.
Example readme_path : read_head "path linux_raw  = r``` /var/www/html ```r;" = Ok (Entry "path" "raw" "r``` /var/www/html ```r;" false) /\
  read_value "raw" "r``` /var/www/html ```r;" [] = Ok ("r/www/html ", []).
Proof. split; vm_compute; reflexivity. Qed.
