(* ===== verification/ConfValue.v ===== *)
(** The values of a configuration file: the readers of [VALUE_MAP]
    ([any-base/src/module/module.rs]) and the sizes and times of
    [ValueParser] ([any-base/src/parse_utils.rs]).  A floating-point number is
    a [spec_float] of 53 bits, the standard library's specification of the
    arithmetic of [f64]. *)
From Stdlib Require Import Floats.SpecFloat.
From S2P Require Import Prelude RustStd.
#[local] Open Scope string_scope.
#[local] Open Scope Z_scope.

(** ** Floating-point numbers *)

Definition f64 : Type := spec_float.
Definition f64_prec : Z := 53.
Definition f64_emax : Z := 1024.

(** The [f64] nearest to [n / d], for [d > 0]. *)
Definition f64_ratio (neg : bool) (n d : Z) : f64 :=
  if n =? 0 then S754_zero neg
  else SFdiv f64_prec f64_emax (S754_finite neg (Z.to_pos n) 0) (S754_finite false (Z.to_pos d) 0).
Definition f64_of_Z (n : Z) : f64 := f64_ratio (n <? 0) (Z.abs n) 1.
Definition f64_mul (x y : f64) : f64 := SFmul f64_prec f64_emax x y.

(** [x as u64]: towards zero, and saturating. *)
Definition f64_as_u64 (x : f64) : Z :=
  match x with
  | S754_finite false m e => Z.min (Z.shiftl (Zpos m) e) (2 ^ 64 - 1)
  | S754_infinity false => 2 ^ 64 - 1
  | _ => 0
  end.

(** The digits a text starts with, and the rest. *)
Fixpoint span_digits (s : string) : string * string :=
  match s with
  | String c s' => if is_digit c then let '(d, r) := span_digits s' in (String c d, r) else ("", s)
  | EmptyString => ("", "")
  end.

Definition digits_or_0 (s : string) : Z := default 0 (digits s).

(** [s.parse::<i{w}>()] *)
Definition parse_i (w : Z) (s : string) : option Z :=
  n ← match s with
      | String "-" s' => Z.opp <$> digits s'
      | String "+" s' => digits s'
      | _ => digits s
      end;
  if (- 2 ^ (w - 1) <=? n) && (n <? 2 ^ (w - 1)) then Some n else None.

(** The exponent of a number: nothing, or [e], a sign and digits. *)
Definition parse_exp (s : string) : option Z :=
  match s with
  | EmptyString => Some 0
  | String c s =>
      if Ascii.eqb (lower_char c) "e" then
        let '(neg, s) := match s with String "-" s => (true, s) | String "+" s => (false, s) | _ => (false, s) end in
        if all_digits s then (fun n => if neg : bool then - n else n) <$> digits s else None
      else None
  end.

Definition parse_number (neg : bool) (s : string) : option f64 :=
  let '(i, s) := span_digits s in
  let '(f, s) := match s with String "." s => span_digits s | _ => ("", s) end in
  if String.eqb i "" && String.eqb f "" then None
  else
    e ← parse_exp s;
    let n := digits_or_0 (i +:+ f) in
    let e := e - slen f in
    Some (if 0 <=? e then f64_ratio neg (n * 10 ^ e) 1 else f64_ratio neg n (10 ^ (- e))).

Definition parse_inf_nan (neg : bool) (s : string) : option f64 :=
  let s := to_lowercase s in
  if String.eqb s "nan" then Some S754_nan
  else if String.eqb s "inf" || String.eqb s "infinity" then Some (S754_infinity neg)
  else None.

(** [s.parse::<f64>()] *)
Definition parse_f64 (s : string) : option f64 :=
  let '(neg, s) := match s with String "-" s => (true, s) | String "+" s => (false, s) | _ => (false, s) end in
  match parse_number neg s with Some x => Some x | None => parse_inf_nan neg s end.

(** ** Sizes and times *)
Module ValueParser.

(** Where the digits, the [.] and the [-] of a text end. *)
Fixpoint num_end (s : string) : nat :=
  match s with
  | String c s => if is_digit c || Ascii.eqb c "." || Ascii.eqb c "-" then S (num_end s) else O
  | EmptyString => O
  end.

Definition split_num_and_unit (input : string) : string * string :=
  let mid := num_end input in (trim (stake mid input), trim (sdrop mid input)).

Definition parse_as_truncated_integer (num_str : string) : outcome Z :=
  let target_str := match find_char "." num_str with Some idx => stake idx num_str | None => num_str end in
  if String.eqb target_str "" then if String.eqb num_str "." then Err "" else Ok 0
  else ok_or "" (parse_u 64 target_str).

Definition parse_as_float_with_multiplier (num_str : string) (multiplier : Z) : outcome Z :=
  val ← ok_or "" (parse_f64 num_str);
  Ok (f64_as_u64 (f64_mul val (f64_of_Z multiplier))).

Definition parse (input : string) : outcome Z :=
  let input := trim input in
  if String.eqb input "" then Err ""
  else if starts_with "-" input then Err ""
  else
    let '(num_str, unit_str) := split_num_and_unit input in
    let unit_lower := to_lowercase unit_str in
    let float := has_char "." num_str in
    if String.eqb unit_lower "" || String.eqb unit_lower "b" then parse_as_truncated_integer num_str
    else if String.eqb unit_lower "k" then parse_as_float_with_multiplier num_str 1024
    else if String.eqb unit_lower "m" then parse_as_float_with_multiplier num_str (1024 * 1024)
    else if String.eqb unit_lower "g" then parse_as_float_with_multiplier num_str (1024 * 1024 * 1024)
    else if String.eqb unit_lower "ms" then parse_as_truncated_integer num_str
    else if String.eqb unit_lower "s" then
      if float then parse_as_float_with_multiplier num_str 1000 else parse_as_truncated_integer num_str
    else if String.eqb unit_lower "min" then
      parse_as_float_with_multiplier num_str (if float then 60 * 1000 else 60)
    else if String.eqb unit_lower "h" then
      parse_as_float_with_multiplier num_str (if float then 60 * 60 * 1000 else 60 * 60)
    else Err "".

End ValueParser.

(** ** The value of an entry *)

(** The integer types a value can have. *)
Inductive IntTy := I8 | I16 | I32 | Isize | I64 | U8 | U16 | U32 | Usize | U64.
#[global] Instance IntTy_eq_dec : EqDecision IntTy.
Proof. solve_decision. Defined.

Definition int_bits (t : IntTy) : Z :=
  match t with I8 | U8 => 8 | I16 | U16 => 16 | I32 | U32 => 32 | Isize | I64 | Usize | U64 => 64 end.

(** What [conf_arg.value] holds. *)
Inductive Value :=
  | VBool (b : bool)
  | VInt (t : IntTy) (n : Z)
  | VF64 (x : f64)
  | VStr (s : string)
  | VInts (t : IntTy) (l : list Z)
  | VF64s (l : list f64)
  | VStrs (l : list string).

(** One integer: the narrow unsigned types are read as they are, the wide
    ones are sizes and times, cut to their width. *)
Definition int_value (t : IntTy) (value : string) : outcome Z :=
  match t with
  | I8 | I16 | I32 | Isize | I64 => ok_or "" (parse_i (int_bits t) value)
  | U8 | U16 => ok_or "" (parse_u (int_bits t) value)
  | U32 | Usize | U64 => wrap (int_bits t) <$> ValueParser.parse value
  end.

Definition f64_value (value : string) : outcome f64 := ok_or "" (parse_f64 value).
Definition bool_value (value : string) : bool := String.eqb value "true".

Definition quote : ascii := "034".

Definition trim_str_value (value : string) : outcome string :=
  if String.eqb value "" || String.eqb value (String quote "") || String.eqb value (String quote (String quote "")) then Ok ""
  else
    first ← text_slice value 0 1;
    value ← (if String.eqb first (String quote "") then text_slice value 1 (slen value) else Ok value);
    last ← text_slice value (slen value - 1) (slen value);
    if String.eqb last (String quote "") then text_slice value 0 (slen value - 1) else Ok value.

(** The words of a list, without the empty ones. *)
Definition words (value : string) : list string :=
  filter (fun v => v <> "") (trim <$> split_char " " value).

Definition ints_value (t : IntTy) (value : string) : outcome (list Z) :=
  match t with
  | U64 => mapM (fun _ => ValueParser.parse value) (words value)
  | _ => mapM (int_value t) (words value)
  end.

Definition strs_value (value : string) : outcome (list string) :=
  value ← trim_str_value value; mapM trim_str_value (words value).

(** The types by their names, and [VALUE_MAP]: the reader of a type. *)
Definition int_types : list (string * IntTy) :=
  [("i8", I8); ("i16", I16); ("i32", I32); ("isize", Isize); ("i64", I64);
   ("u8", U8); ("u16", U16); ("u32", U32); ("usize", Usize); ("u64", U64)].
Definition ints_types : list (string * IntTy) :=
  [("i8s", I8); ("i16s", I16); ("i32s", I32); ("isizes", Isize); ("i64s", I64);
   ("u8s", U8); ("u16s", U16); ("u32s", U32); ("usizes", Usize); ("u64s", U64)].

Fixpoint assoc_s {A} (k : string) (l : list (string * A)) : option A :=
  match l with [] => None | (k', a) :: l => if String.eqb k k' then Some a else assoc_s k l end.

Definition read_typed (typ value : string) : outcome Value :=
  match assoc_s typ int_types, assoc_s typ ints_types with
  | Some t, _ => VInt t <$> int_value t value
  | None, Some t => VInts t <$> ints_value t value
  | None, None =>
      if String.eqb typ "bool" then Ok (VBool (bool_value value))
      else if String.eqb typ "f64" then VF64 <$> f64_value value
      else if String.eqb typ "f64s" then VF64s <$> mapM f64_value (words value)
      else if String.eqb typ "str" || String.eqb typ "raw" then VStr <$> trim_str_value value
      else if String.eqb typ "strs" then VStrs <$> strs_value value
      else Err ""
  end.

(** The values of the unit tests of [parse_utils.rs]. *)
Example sizes_and_times :
  ValueParser.parse <$> ["1.3"; "10.2B"; "1.2k"; "1.7M"; "1.1g"; "1.20ms"; "1.22s"; "10s"; "1.33min"; "2h"; "2.5h"; "  5m  "; "1.5   M"; ".5"; "0.01g"; "100.5s"]
  = Ok <$> [1; 10; 1228; 1782579; 1181116006; 1; 1220; 10; 79800; 7200; 9000000; 5242880; 1572864; 0; 10737418; 100500].
Proof. vm_compute. reflexivity. Qed.
Example sizes_refused :
  ValueParser.parse <$> [""; "abc"; "m"; "100xyz"; "1.2.3M"; "-1"; "1e3k"; "+1"; "."; "1kb"] = replicate 10 (Err "").
Proof. vm_compute. reflexivity. Qed.
