(* ===== verification/ConfNumber.v ===== *)
(** The sizes and times of a configuration file are what they say: the
    arithmetic of [f64] is exact on the integers below [2 ^ 53], so a whole
    number with a unit is that number times the unit; and an integer is read
    back as it was written. *)
From Stdlib Require Import Floats.SpecFloat.
From S2P Require Import Prelude RustStd ConfValue.
#[local] Open Scope string_scope.
#[local] Open Scope Z_scope.

(** ** Exact arithmetic *)

(** The float that holds an integer of at most 53 bits. *)
Definition canon (x : Z) : f64 :=
  S754_finite false (Z.to_pos (x * 2 ^ (52 - Z.log2 x))) (Z.log2 x - 52).

Lemma digits2_log2 p : Zpos (digits2_pos p) = Z.log2 (Zpos p) + 1.
Proof.
  assert (E : digits2_pos p = Pos.size p) by (induction p; cbn; congruence).
  rewrite E. destruct p; cbn [Pos.size Z.log2]; lia.
Qed.

Lemma iter_pos_iter {A} (f : A -> A) p x : SpecFloat.iter_pos f p x = Pos.iter f x p.
Proof.
  revert x. induction p as [p IH|p IH|]; intros x; cbn; [|by rewrite !IH|done].
  by rewrite !IH, <- Pos.iter_swap, Pos.iter_swap.
Qed.

Lemma iter_succ {A} (f : A -> A) p x : SpecFloat.iter_pos f (Pos.succ p) x = f (SpecFloat.iter_pos f p x).
Proof. by rewrite !iter_pos_iter, Pos.iter_succ. Qed.

(** Shifting out zeros loses nothing. *)
Lemma shr_exact m p : 0 < m ->
  SpecFloat.iter_pos shr_1 p (Build_shr_record (m * 2 ^ Zpos p) false false) = Build_shr_record m false false.
Proof.
  revert m. induction p as [|p IH] using Pos.peano_ind; intros m Hm.
  - destruct m as [|m|]; [lia| |lia]. replace (Zpos m * 2 ^ 1) with (Zpos m~0) by lia. done.
  - rewrite iter_succ. replace (m * 2 ^ Zpos (Pos.succ p)) with ((m * 2) * 2 ^ Zpos p)
      by (rewrite Pos2Z.inj_succ, Z.pow_succ_r by lia; ring).
    rewrite IH by lia. destruct m as [|m|]; [lia| |lia]. by replace (Zpos m * 2) with (Zpos m~0) by lia.
Qed.

Lemma log2_mul_pow x k : 0 < x -> 0 <= k -> Z.log2 (x * 2 ^ k) = Z.log2 x + k.
Proof. intros. rewrite Z.log2_mul_pow2 by lia. lia. Qed.

(** Rounding an integer of at most 53 bits, written with [k] zeros after it. *)
Lemma round_exact x k :
  0 < x -> x < 2 ^ 53 -> 52 - Z.log2 x <= k -> 
  binary_round_aux f64_prec f64_emax false (x * 2 ^ k) (- k) loc_Exact = canon x.
Proof.
  intros Hx H53 Hk. assert (Hl : Z.log2 x < 53) by (apply Z.log2_lt_pow2; lia).
  pose proof (Z.log2_nonneg x) as H0. set (j := 52 - Z.log2 x) in *.
  assert (Hpos : forall i, 0 <= i -> 0 < x * 2 ^ i) by (intros i Hi; apply Z.mul_pos_pos; [lia|apply Z.pow_pos_nonneg; lia]).
  assert (Hdig : forall i, 0 <= i -> Zdigits2 (x * 2 ^ i) = Z.log2 x + i + 1).
  { intros i Hi. rewrite <- log2_mul_pow by lia. specialize (Hpos i Hi).
    destruct (x * 2 ^ i) as [|p|]; [lia| |lia]. apply digits2_log2. }
  assert (E1 : shr_fexp f64_prec f64_emax (x * 2 ^ k) (- k) loc_Exact = (Build_shr_record (x * 2 ^ j) false false, - j)).
  { unfold shr_fexp. rewrite Hdig by lia. unfold fexp, emin, f64_prec, f64_emax.
    replace (Z.max (Z.log2 x + k + 1 + - k - 53) (3 - 1024 - 53) - - k) with (k - j) by lia.
    unfold shr. destruct (k - j) as [|p|] eqn:E.
    - assert (k = j) as -> by lia. done.
    - cbn [shr_record_of_loc]. replace (x * 2 ^ k) with (x * 2 ^ j * 2 ^ Zpos p).
      + rewrite shr_exact by (apply Hpos; lia). f_equal. lia.
      + rewrite <- Z.mul_assoc, <- Z.pow_add_r by lia. do 2 f_equal. lia.
    - lia. }
  assert (E2 : shr_fexp f64_prec f64_emax (x * 2 ^ j) (- j) loc_Exact = (Build_shr_record (x * 2 ^ j) false false, - j)).
  { unfold shr_fexp. rewrite Hdig by lia. unfold fexp, emin, f64_prec, f64_emax.
    replace (Z.max (Z.log2 x + j + 1 + - j - 53) (3 - 1024 - 53) - - j) with 0 by lia. done. }
  unfold binary_round_aux. rewrite E1. cbn [shr_m loc_of_shr_record round_nearest_even]. rewrite E2.
  cbn [shr_m]. unfold canon. fold j. specialize (Hpos j ltac:(lia)).
  destruct (x * 2 ^ j) as [|p|]; [lia| |lia]. cbn [Z.to_pos].
  replace (- j) with (Z.log2 x - 52) by lia. unfold f64_prec, f64_emax.
  by destruct (Z.leb_spec (Z.log2 x - 52) (1024 - 53)); [|lia].
Qed.

Lemma f64_of_Z_canon x : 0 < x < 2 ^ 53 -> f64_of_Z x = canon x.
Proof.
  intros Hx. unfold f64_of_Z, f64_ratio. destruct (Z.ltb_spec x 0); [lia|]. rewrite Z.abs_eq by lia.
  destruct (Z.eqb_spec x 0); [lia|]. cbn [SFdiv xorb]. unfold SFdiv_core_binary.
  rewrite Z2Pos.id by lia. cbn [Z.to_pos Zdigits2 digits2_pos].
  assert (Hl : Z.log2 x < 53) by (apply Z.log2_lt_pow2; lia). pose proof (Z.log2_nonneg x).
  assert (Zdigits2 x = Z.log2 x + 1) as ->.
  { destruct x as [|p|]; [lia| |lia]. apply digits2_log2. }
  unfold fexp, emin. replace (Z.min _ _) with (- (53 - Z.log2 x)) by (unfold f64_prec, f64_emax; lia).
  replace (0 - 0 - - (53 - Z.log2 x)) with (53 - Z.log2 x) by lia.
  destruct (53 - Z.log2 x) as [|p|] eqn:E; [lia| |lia].
  rewrite Z.shiftl_mul_pow2 by lia.
  assert (E1 : Z.div_eucl (x * 2 ^ Zpos p) 1 = (x * 2 ^ Zpos p, 0)).
  { pose proof (Z.div_1_r (x * 2 ^ Zpos p)) as D. pose proof (Z.mod_1_r (x * 2 ^ Zpos p)) as M.
    unfold Z.div, Z.modulo in D, M. destruct (Z.div_eucl (x * 2 ^ Zpos p) 1). congruence. }
  rewrite E1. change (new_location 1 0) with loc_Exact. apply round_exact; lia.
Qed.

Lemma canon_mul a b : 0 < a -> 0 < b -> a * b < 2 ^ 53 -> f64_mul (canon a) (canon b) = canon (a * b).
Proof.
  intros Ha Hb Hab. assert (Hla : a < 2 ^ 53) by nia. assert (Hlb : b < 2 ^ 53) by nia.
  assert (Z.log2 a < 53) by (apply Z.log2_lt_pow2; lia). assert (Z.log2 b < 53) by (apply Z.log2_lt_pow2; lia).
  pose proof (Z.log2_nonneg a). pose proof (Z.log2_nonneg b).
  pose proof (Z.log2_mul_below a b Ha Hb).
  unfold f64_mul, canon. cbn [SFmul xorb].
  assert (P : forall i, 0 <= i -> 0 < 2 ^ i) by (intros; apply Z.pow_pos_nonneg; lia).
  rewrite Pos2Z.inj_mul, !Z2Pos.id by (apply Z.mul_pos_pos; [lia|apply P; lia]).
  replace (a * 2 ^ (52 - Z.log2 a) * (b * 2 ^ (52 - Z.log2 b))) with (a * b * 2 ^ (104 - Z.log2 a - Z.log2 b)).
  - replace (Z.log2 a - 52 + (Z.log2 b - 52)) with (- (104 - Z.log2 a - Z.log2 b)) by lia.
    apply round_exact; [nia|done|]. lia.
  - replace (104 - Z.log2 a - Z.log2 b) with ((52 - Z.log2 a) + (52 - Z.log2 b)) by lia.
    rewrite Z.pow_add_r by lia. ring.
Qed.

Lemma canon_as_u64 x : 0 < x < 2 ^ 53 -> f64_as_u64 (canon x) = x.
Proof.
  intros Hx. assert (Z.log2 x < 53) by (apply Z.log2_lt_pow2; lia). pose proof (Z.log2_nonneg x).
  unfold f64_as_u64, canon. rewrite Z2Pos.id by (apply Z.mul_pos_pos; [lia|apply Z.pow_pos_nonneg; lia]).
  replace (Z.log2 x - 52) with (- (52 - Z.log2 x)) by lia.
  rewrite Z.shiftl_opp_r, Z.shiftr_div_pow2 by lia. rewrite Z.div_mul; [lia|]. apply Z.pow_nonzero; lia.
Qed.

(** ** Whole numbers with a unit *)

Lemma span_digits_all s : all_digits s = true -> span_digits s = (s, "").
Proof.
  induction s as [|c s IH]; [done|]. cbn. intros [Hc Hs]%andb_true_iff. rewrite Hc, (IH Hs). done.
Qed.

Lemma parse_f64_show n : 0 <= n -> parse_f64 (show_u n) = Some (f64_ratio false n 1).
Proof.
  intros Hn. pose proof (show_all_digits n) as Hd. pose proof (show_nonempty n) as Hne.
  unfold parse_f64.
  assert (match show_u n with String "-" s => (true, s) | String "+" s => (false, s) | _ => (false, show_u n) end = (false, show_u n)) as ->.
  { destruct (show_u n) as [|c s]; [done|]. cbn in Hd. apply andb_true_iff in Hd as [Hc _].
    destruct c as [[] [] [] [] [] [] [] []]; done. }
  unfold parse_number. rewrite span_digits_all by done.
  destruct (String.eqb_spec (show_u n) ""); [done|]. cbn [andb parse_exp mbind option_bind].
  rewrite app_empty_r. unfold digits_or_0. rewrite show_digits by lia. cbn.
  by rewrite Z.mul_1_r.
Qed.

Lemma num_end_app d u :
  all_digits d = true -> ValueParser.num_end u = O -> ValueParser.num_end (d +:+ u) = String.length d.
Proof.
  intros Hd Hu. induction d as [|c d IH]; [done|]. rewrite app_cons. cbn in Hd |- *.
  apply andb_true_iff in Hd as [Hc Hd]. rewrite Hc, IH by done. done.
Qed.

Lemma show_not_negative n u : starts_with "-" (show_u n +:+ u) = false.
Proof.
  pose proof (show_all_digits n) as Hd. pose proof (show_nonempty n) as Hne.
  destruct (show_u n) as [|c s]; [done|]. cbn in Hd. apply andb_true_iff in Hd as [Hc _].
  by destruct c as [[] [] [] [] [] [] [] []].
Qed.

Lemma show_app_nonempty n u : String.eqb (show_u n +:+ u) "" = false.
Proof. pose proof (show_nonempty n) as Hne. by destruct (show_u n). Qed.

Lemma parse_num n u :
  no_ws u = true -> ValueParser.num_end u = O ->
  ValueParser.split_num_and_unit (show_u n +:+ u) = (show_u n, u).
Proof.
  intros Hw Hu. unfold ValueParser.split_num_and_unit.
  rewrite num_end_app by (done || apply show_all_digits). rewrite stake_app, sdrop_app, trim_show, trim_no_ws by done.
  done.
Qed.

Lemma show_no_dot n : has_char "." (show_u n) = false.
Proof. apply digits_no_char; [done|apply show_all_digits]. Qed.

Lemma truncated_show n : 0 <= n < 2 ^ 64 -> ValueParser.parse_as_truncated_integer (show_u n) = Ok n.
Proof.
  intros Hn. unfold ValueParser.parse_as_truncated_integer.
  rewrite find_char_none by apply show_no_dot.
  pose proof (show_nonempty n) as Hne. destruct (String.eqb_spec (show_u n) ""); [done|].
  by rewrite parse_show.
Qed.

Lemma scaled_show n mult :
  0 <= n -> 0 < mult < 2 ^ 53 -> n * mult < 2 ^ 53 ->
  ValueParser.parse_as_float_with_multiplier (show_u n) mult = Ok (n * mult).
Proof.
  intros Hn Hm Hb. unfold ValueParser.parse_as_float_with_multiplier. rewrite parse_f64_show by done.
  cbn [ok_or mbind outcome_bind]. f_equal. destruct (decide (n = 0)) as [->|].
  - change (f64_ratio false 0 1) with (S754_zero false). unfold f64_mul. cbn.
    destruct (f64_of_Z mult) eqn:E; [done| | |done]; rewrite (f64_of_Z_canon mult) in E by lia; done.
  - assert (n <= n * mult) by nia. pose proof (f64_of_Z_canon n ltac:(lia)) as E. unfold f64_of_Z in E.
    destruct (Z.ltb_spec n 0); [lia|]. rewrite Z.abs_eq in E by lia. rewrite E.
    rewrite f64_of_Z_canon by lia. rewrite canon_mul by lia. apply canon_as_u64. lia.
Qed.

(** The units and what they stand for: bytes, milliseconds and seconds as
    they are, the others scaled. *)
Definition units : list (string * Z) :=
  [("", 1); ("b", 1); ("ms", 1); ("s", 1); ("k", 1024); ("m", 1024 * 1024); ("g", 1024 * 1024 * 1024);
   ("min", 60); ("h", 60 * 60)].

(** Below this bound nothing is rounded. *)
Definition exact_below (mult : Z) : Z := if mult =? 1 then 2 ^ 64 else 2 ^ 53.

Lemma assoc_s_In {A} k (l : list (string * A)) a : assoc_s k l = Some a -> In (k, a) l.
Proof.
  induction l as [|[k' a'] l IH]; cbn; [done|]. destruct (String.eqb_spec k k') as [->|]; [|by right; apply IH].
  intros [= ->]. by left.
Qed.

(** C23. A whole number with a unit is read as that number times what the unit
    stands for, as long as the product is below [2 ^ 53] (below [2 ^ 64] for
    the units that scale nothing): the floating-point product loses nothing
    there. *)
Theorem whole_sizes n u mult :
  0 <= n -> assoc_s u units = Some mult -> n * mult < exact_below mult ->
  ValueParser.parse (show_u n +:+ u) = Ok (n * mult).
Proof.
  intros Hn Hu Hb. apply assoc_s_In in Hu. unfold ValueParser.parse.
  assert (no_ws u = true /\ ValueParser.num_end u = O) as [Hw He].
  { cbn in Hu. by repeat destruct Hu as [[= <- <-]|Hu]. }
  rewrite trim_no_ws by (rewrite no_ws_app, Hw, (all_digits_no_ws _ (show_all_digits n)); done).
  rewrite show_app_nonempty, show_not_negative, parse_num, show_no_dot by done. clear Hw He.
  cbn in Hu. repeat destruct Hu as [[= <- <-]|Hu]; [..|done]; cbn in Hb |- *;
    try change (exact_below _) with (2 ^ 53) in Hb; try change (exact_below _) with (2 ^ 64) in Hb;
    first [rewrite truncated_show by lia; f_equal; lia|apply scaled_show; lia].
Qed.

Lemma whole_sizes_witness : ValueParser.parse (show_u 8388607 +:+ "g") = Ok (8388607 * 2 ^ 30) /\
  ValueParser.parse (show_u (2 ^ 63) +:+ "ms") = Ok (2 ^ 63).
Proof.
  split.
  - rewrite (whole_sizes 8388607 "g" (2 ^ 30)); [done|lia|reflexivity|vm_compute; reflexivity].
  - rewrite (whole_sizes (2 ^ 63) "ms" 1); [f_equal; lia|lia|reflexivity|vm_compute; reflexivity].
Defined.

(** ** Integers and lists of integers, written and read back *)

(** The numbers of an integer type. *)
Definition signed (t : IntTy) : bool :=
  match t with I8 | I16 | I32 | Isize | I64 => true | _ => false end.
Definition fits (t : IntTy) (n : Z) : bool :=
  let w := int_bits t in
  if signed t then (- 2 ^ (w - 1) <=? n) && (n <? 2 ^ (w - 1)) else (0 <=? n) && (n <? 2 ^ w).

(** [n.to_string()] *)
Definition show_i (n : Z) : string := if n <? 0 then "-" +:+ show_u (- n) else show_u n.

Lemma parse_plain n : 0 <= n < 2 ^ 64 -> ValueParser.parse (show_u n) = Ok n.
Proof.
  intros Hn. unfold ValueParser.parse. rewrite trim_show.
  pose proof (show_app_nonempty n "") as E1. pose proof (show_not_negative n "") as E2.
  pose proof (parse_num n "" eq_refl eq_refl) as E3. rewrite app_empty_r in E1, E2, E3.
  rewrite E1, E2, E3. cbn. by apply truncated_show.
Qed.

Lemma parse_i_show w n : - 2 ^ (w - 1) <= n < 2 ^ (w - 1) -> parse_i w (show_i n) = Some n.
Proof.
  intros Hn. unfold parse_i, show_i. destruct (Z.ltb_spec n 0).
  - rewrite app_cons, app_nil. cbn -[Z.leb Z.ltb Z.pow show_u digits fmap]. rewrite show_digits by lia. cbn -[Z.leb Z.ltb Z.pow]. rewrite Z.opp_involutive.
    destruct (Z.leb_spec (- 2 ^ (w - 1)) n); [|lia]. by destruct (Z.ltb_spec n (2 ^ (w - 1))); [|lia].
  - assert (match show_u n with String "-" s' => Z.opp <$> digits s' | String "+" s' => digits s' | _ => digits (show_u n) end = Some n) as ->.
    { rewrite show_digits by lia. pose proof (show_all_digits n) as Hd. destruct (show_u n) as [|c s] eqn:E; [done|].
      cbn in Hd. apply andb_true_iff in Hd as [Hc _]. by destruct c as [[] [] [] [] [] [] [] []]. }
    cbn -[Z.leb Z.ltb Z.pow]. destruct (Z.leb_spec (- 2 ^ (w - 1)) n); [|lia]. by destruct (Z.ltb_spec n (2 ^ (w - 1))); [|lia].
Qed.

Lemma int_value_show t n : fits t n = true -> int_value t (show_i n) = Ok n.
Proof.
  unfold fits. intros Hf.
  assert (Hr : if signed t then - 2 ^ (int_bits t - 1) <= n < 2 ^ (int_bits t - 1) else 0 <= n < 2 ^ int_bits t).
  { destruct (signed t); apply andb_true_iff in Hf as [?%Z.leb_le ?%Z.ltb_lt]; done. }
  clear Hf. assert (Hu : signed t = false -> show_i n = show_u n).
  { intros E. rewrite E in Hr. unfold show_i. by destruct (Z.ltb_spec n 0); [lia|]. }
  destruct t; cbn [signed int_bits] in Hr, Hu; unfold int_value; cbn [int_bits];
    first [by rewrite parse_i_show|rewrite Hu by done];
    first [by rewrite parse_show|rewrite parse_plain by lia; cbn; unfold wrap; by rewrite Z.mod_small].
Qed.

Lemma show_i_word n : no_ws (show_i n) = true /\ show_i n <> "".
Proof.
  unfold show_i. pose proof (all_digits_no_ws _ (show_all_digits n)). pose proof (all_digits_no_ws _ (show_all_digits (- n))).
  pose proof (show_nonempty n). destruct (n <? 0); done.
Qed.

(** The words of a list written with one space between them. *)
Lemma words_join ws :
  Forall (fun w => no_ws w = true /\ w <> "") ws -> words (join " " ws) = ws.
Proof.
  intros H. unfold words. destruct ws as [|w ws].
  - done.
  - rewrite split_join; [|done|].
    + induction H as [|v vs [Hv Hne] H IH]; [done|]. cbn [fmap list_fmap]. rewrite trim_no_ws by done.
      rewrite filter_cons_True by done. by rewrite IH.
    + eapply Forall_impl; [exact H|]. intros v [Hv _]. by apply no_ws_space.
Qed.

Lemma words_show ns : words (join " " (show_i <$> ns)) = show_i <$> ns.
Proof. apply words_join, Forall_fmap, Forall_true. intros n. apply show_i_word. Qed.

Lemma mapM_show t ns : Forall (fun n => fits t n = true) ns -> mapM (int_value t) (show_i <$> ns) = Ok ns.
Proof.
  induction 1 as [|n ns Hn H IH]; [done|]. cbn [fmap list_fmap mapM]. rewrite int_value_show by done.
  cbn. by rewrite IH.
Qed.

(** The unit a text of two words would have starts with a space and a digit. *)
Lemma parse_two_words n ws :
  ws <> [] -> ValueParser.parse (join " " (show_u <$> n :: ws)) = Err "".
Proof.
  intros Hne. destruct ws as [|m ws]; [done|].
  change (join " " (show_u <$> n :: m :: ws)) with (show_u n +:+ String " " (join " " (show_u <$> m :: ws))).
  set (rest := join " " (show_u <$> m :: ws)).
  assert (Hrest : exists c r, rest = String c r /\ is_digit c = true).
  { subst rest. pose proof (show_all_digits m) as Hd. pose proof (show_nonempty m) as Hn.
    destruct (show_u m) as [|c r] eqn:E; [done|]. cbn in Hd. apply andb_true_iff in Hd as [Hc _].
    destruct ws; cbn [fmap list_fmap join]; rewrite E; [|rewrite app_cons]; eauto. }
  destruct Hrest as (c & r & -> & Hc).
  assert (exists r', trim (show_u n +:+ String " " (String c r)) = show_u n +:+ String " " (String c r')) as [r' Etr].
  { unfold trim. pose proof (show_all_digits n) as Hd. destruct (show_u n) as [|d s] eqn:E; [by apply show_nonempty in E|].
    cbn in Hd. apply andb_true_iff in Hd as [Hdd Hs]. destruct (is_digit_cases d Hdd) as [Hw _].
    rewrite !app_cons. cbn [trim_start]. rewrite Hw.
    apply is_digit_cases in Hc as [Hcw _]. exists (trim_end r).
    assert (Hin : forall t, no_ws t = true -> trim_end (t +:+ String " " (String c r)) = t +:+ String " " (String c (trim_end r))).
    { intros t. induction t as [|e t IH]; intros Ht.
      - rewrite !app_nil. cbn. rewrite Hcw. by destruct (trim_end r).
      - rewrite !app_cons. cbn in Ht |- *. apply andb_true_iff in Ht as [_ Ht]. rewrite IH by done.
        by destruct t. }
    rewrite <- !app_cons. apply Hin. cbn. rewrite Hw. by apply all_digits_no_ws. }
  unfold ValueParser.parse. rewrite Etr, show_app_nonempty, show_not_negative. unfold ValueParser.split_num_and_unit.
  rewrite num_end_app by (done || apply show_all_digits). rewrite stake_app, sdrop_app.
  assert (exists u, trim (String " " (String c r')) = String c u) as [u ->].
  { unfold trim. change (trim_start (String " " (String c r'))) with (trim_start (String c r')). cbn [trim_start].
    rewrite (proj1 (is_digit_cases c Hc)). cbn [trim_end]. rewrite (proj1 (is_digit_cases c Hc)).
    destruct (trim_end r'); eauto. }
  cbn [to_lowercase]. clear -Hc. by destruct c as [[] [] [] [] [] [] [] []].
Qed.

(** A list of integers written with one space between them is read back as
    it was written, for every integer type but [u64]: there the reader hands
    the whole text to the reader of one size for each of its words, so a list
    of two or more is refused. *)
Theorem integer_lists typ t ns :
  assoc_s typ ints_types = Some t -> Forall (fun n => fits t n = true) ns ->
  (t <> U64 -> read_typed typ (join " " (show_i <$> ns)) = Ok (VInts t ns)) /\
  (t = U64 -> (2 <= length ns)%nat -> read_typed typ (join " " (show_i <$> ns)) = Err "").
Proof.
  intros Ht Hns.
  assert (E : read_typed typ (join " " (show_i <$> ns)) = VInts t <$> ints_value t (join " " (show_i <$> ns))).
  { unfold read_typed. rewrite Ht. apply assoc_s_In in Ht. cbn in Ht. by repeat destruct Ht as [[= <- <-]|Ht]. }
  split.
  - intros Hne. rewrite E. assert (ints_value t (join " " (show_i <$> ns)) = mapM (int_value t) (words (join " " (show_i <$> ns)))) as ->.
    { by destruct t. }
    by rewrite words_show, mapM_show.
  - intros -> Hlen. rewrite E. unfold ints_value. rewrite words_show. destruct ns as [|n [|m ns]]; cbn in Hlen; [lia..|].
    assert (Heq : show_i <$> n :: m :: ns = show_u <$> n :: m :: ns).
    { clear -Hns. induction Hns as [|k ks Hk H IH]; [done|]. cbn [fmap list_fmap]. f_equal; [|exact IH].
      apply andb_true_iff in Hk as [Hk%Z.leb_le _]. unfold show_i. by destruct (Z.ltb_spec k 0); [lia|]. }
    rewrite Heq. assert (Hp := parse_two_words n (m :: ns) ltac:(done)).
    cbn [fmap list_fmap mapM] in Hp |- *. by rewrite Hp.
Qed.

Lemma integer_lists_witness :
  read_typed "i8s" "-128 0 127" = Ok (VInts I8 [-128; 0; 127]) /\ read_typed "u64s" "80 443" = Err "".
Proof.
  split.
  - apply (proj1 (integer_lists "i8s" I8 [-128; 0; 127] eq_refl ltac:(by repeat constructor))). done.
  - apply (proj2 (integer_lists "u64s" U64 [80; 443] eq_refl ltac:(by repeat constructor))); [done|cbn; lia].
Defined.

(** A size cut to 32 bits, and text that a quote is looked for in. *)
Example four_gigabytes : read_typed "u32" "4g" = Ok (VInt U32 0).
Proof. vm_compute. reflexivity. Qed.
Example quoted_text : read_typed "str" (String quote (String "a" (String quote ""))) = Ok (VStr "a").
Proof. vm_compute. reflexivity. Qed.
Example text_in_chinese : read_typed "str" (String "228" (String "184" (String "173" ""))) = Panic.
Proof. vm_compute. reflexivity. Qed.
