(* ===== verification/ConfModules.v ===== *)
(** The modules of the configuration ([GModules] of
    [any-base/src/module/module.rs]): their commands, and the numbers that say
    where the configuration of a module lies in the vectors of its block. *)
From S2P Require Import Prelude RustStd.
#[local] Open Scope string_scope.
#[local] Open Scope Z_scope.

Definition CMD_TYPE_MAIN : Z := 0.
Definition CMD_TYPE_SUB : Z := 1.
Definition CMD_TYPE_DATA : Z := 2.
Definition CMD_TYPE_BLOCK : Z := 3.

(** The bits of a module's type and of a command's places. *)
Definition MODULE_TYPE_NET : Z := Z.shiftl 1 0.
Definition MODULE_TYPE_EBPF : Z := Z.shiftl 1 1.
Definition MODULE_TYPE_UPSTREAM : Z := Z.shiftl 1 2.
Definition MODULE_TYPE_COMMON : Z := Z.shiftl 1 3.
Definition MODULE_TYPE_TUNNEL : Z := Z.shiftl 1 4.
Definition MODULE_TYPE_TUNNEL2 : Z := Z.shiftl 1 5.
Definition MODULE_TYPE_SOCKET : Z := Z.shiftl 1 6.

Definition CMD_CONF_TYPE_MAIN : Z := Z.shiftl 1 0.
Definition CMD_CONF_TYPE_SERVER : Z := Z.shiftl 1 1.
Definition CMD_CONF_TYPE_LOCAL : Z := Z.shiftl 1 2.

(** A command; [F] is the type of what it runs. *)
Record Cmd (F : Type) : Type := mkCmd {
  cmd_name : string;
  cmd_set : F;
  cmd_typ : Z;
  cmd_conf_typ : Z;
}.
Arguments mkCmd {F} _ _ _ _.
Arguments cmd_name {F} _.
Arguments cmd_set {F} _.
Arguments cmd_typ {F} _.
Arguments cmd_conf_typ {F} _.

(** A module; [creates] says that it has [create_main_confs], the mark of the
    module that heads a block of the file. *)
Record Module_ (F : Type) : Type := mkModule {
  mod_name : string;
  main_index : Z;
  ctx_index : Z;
  index : Z;
  ctx_index_len : Z;
  cmds : list (Cmd F);
  creates : bool;
  mod_typ : Z;
}.
Arguments mkModule {F} _ _ _ _ _ _ _ _.
Arguments mod_name {F} _.
Arguments main_index {F} _.
Arguments ctx_index {F} _.
Arguments index {F} _.
Arguments ctx_index_len {F} _.
Arguments cmds {F} _.
Arguments creates {F} _.
Arguments mod_typ {F} _.

Section modules.
Context {F : Type}.
Implicit Types (m : Module_ F) (ms : list (Module_ F)).

(** A module as its file declares it. *)
Definition new_module (name : string) (typ : Z) (creates : bool) (cmds : list (Cmd F)) : Module_ F :=
  mkModule name (-1) (-1) (-1) (-1) cmds creates typ.

(** [GModules]: the modules in the order they were added. *)
Definition add_module ms m : outcome (list (Module_ F)) :=
  if existsb (fun m' => String.eqb (mod_name m) (mod_name m')) ms then Err "" else Ok (ms ++ [m])%list.

Definition add_modules ms (news : list (Module_ F)) : outcome (list (Module_ F)) :=
  foldl (fun acc m => ms ← acc; add_module ms m) (Ok ms) news.

Definition set_index (i : Z) m : Module_ F :=
  mkModule (mod_name m) (main_index m) (ctx_index m) i (ctx_index_len m) (cmds m) (creates m) (mod_typ m).
Definition set_ctx_index (c : Z) m : Module_ F :=
  mkModule (mod_name m) (main_index m) c (index m) (ctx_index_len m) (cmds m) (creates m) (mod_typ m).
Definition set_main_index (k len : Z) m : Module_ F :=
  mkModule (mod_name m) k (ctx_index m) (index m) len (cmds m) (creates m) (mod_typ m).

(** [typ & sub_module.typ != 0] *)
Definition meets (typ : Z) m : bool := negb (Z.land (mod_typ m) typ =? 0).

(** The loop that numbers the modules of a block, and how many there are. *)
Fixpoint number_block (typ ctx_index : Z) ms : list (Module_ F) * Z :=
  match ms with
  | [] => ([], ctx_index)
  | m :: ms =>
      if meets typ m then
        let '(ms, n) := number_block typ (ctx_index + 1) ms in (set_ctx_index ctx_index m :: ms, n)
      else let '(ms, n) := number_block typ ctx_index ms in (m :: ms, n)
  end.

Definition close_block (typ k len : Z) ms : list (Module_ F) :=
  (fun m => if meets typ m then set_main_index k len m else m) <$> ms.

(** What [parse_modules] keeps: the modules, the types that have a head
    already, and the number the next head gets. *)
Definition PState : Type := list (Module_ F) * list Z * Z.

(** One round of the outer loop, for the module at place [i]. *)
Definition parse_module (i : nat) (st : PState) : outcome PState :=
  let '(ms, main_names, k) := st in
  m ← expect (ms !! i);
  let ms := <[i := set_index (Z.of_nat i) m]> ms in
  if negb (creates m) then Ok (ms, main_names, k)
  else if bool_decide (mod_typ m ∈ main_names) then Panic
  else
    let ms := <[i := set_main_index k (ctx_index_len m) (set_index (Z.of_nat i) m)]> ms in
    let '(ms, len) := number_block (mod_typ m) 0 ms in
    Ok (close_block (mod_typ m) k len ms, (main_names ++ [mod_typ m])%list, k + 1).

Fixpoint parse_from (i n : nat) (st : PState) : outcome PState :=
  match n with
  | O => Ok st
  | S n => st ← parse_module i st; parse_from (S i) n st
  end.

(** [parse_modules]: the modules with their numbers, and [main_index_len]. *)
Definition parse_modules ms : outcome (list (Module_ F) * Z) :=
  '(ms, _, k) ← parse_from 0 (length ms) (ms, [], 0);
  if k =? 0 then Err "" else Ok (ms, k).

(** ** What the numbers mean *)

(** What a module keeps of its declaration. *)
Definition static m := (mod_name m, cmds m, creates m, mod_typ m).

Definition meets_typ (typ t : Z) : bool := negb (Z.land t typ =? 0).
Definition count (typ : Z) (j : nat) ms : Z := zlen (filter (fun m => meets typ m) (take j ms)).

Lemma static_meets typ m m' : static m = static m' -> meets typ m = meets typ m'.
Proof. intros E. unfold static in E. injection E as _ _ _ E. unfold meets. by rewrite E. Qed.

Lemma count_0 typ ms : count typ 0 ms = 0.
Proof. done. Qed.

Lemma count_cons typ j m ms : count typ (S j) (m :: ms) = (if meets typ m then 1 else 0) + count typ j ms.
Proof.
  unfold count, zlen. cbn [take]. rewrite filter_cons. destruct (meets typ m) eqn:E; cbn.
  - destruct (decide True); [|tauto]. cbn [length]. lia.
  - by destruct (decide False).
Qed.

Lemma count_static typ j ms ms' : static <$> ms = static <$> ms' -> count typ j ms = count typ j ms'.
Proof.
  revert j ms'. induction ms as [|m ms IH]; intros j [|m' ms'] E; try done.
  cbn [fmap list_fmap] in E. injection E as E1 E2 E3 E4 E. assert (Es : static m = static m') by (unfold static; congruence).
  destruct j as [|j]; [done|]. by rewrite !count_cons, (IH j ms' E), (static_meets typ _ _ Es).
Qed.

Lemma number_block_spec typ ms : forall c,
  (forall j, fst (number_block typ c ms) !! j = (fun m => if meets typ m then set_ctx_index (c + count typ j ms) m else m) <$> ms !! j) /\
  snd (number_block typ c ms) = c + count typ (length ms) ms.
Proof.
  induction ms as [|m ms IH]; intros c.
  - split; [by intros j; rewrite !lookup_nil|]. cbn [length]. rewrite count_0. cbn. lia.
  - cbn [number_block length]. rewrite count_cons. specialize (IH (if meets typ m then c + 1 else c)).
    destruct (meets typ m) eqn:Hm; destruct IH as [IH1 IH2]; destruct (number_block typ _ ms) as [ms' n]; cbn [fst snd] in *;
      (split; [|lia]); intros [|j]; cbn [lookup list_lookup fmap option_fmap option_map]; rewrite ?Hm, ?count_0, ?Z.add_0_r; try done;
      change (list_lookup j ms') with (ms' !! j); change (list_lookup j ms) with (ms !! j); rewrite IH1;
      destruct (ms !! j) as [x|]; cbn [fmap option_fmap option_map]; try done; destruct (meets typ x); try done;
      rewrite count_cons, Hm; do 2 f_equal; lia.
Qed.

Lemma number_block_static typ ms : forall c, static <$> fst (number_block typ c ms) = static <$> ms.
Proof.
  induction ms as [|m ms IH]; intros c; [done|]. cbn [number_block].
  destruct (meets typ m); [specialize (IH (c + 1))|specialize (IH c)];
    destruct (number_block _ _ ms); cbn in *; by rewrite IH.
Qed.

Lemma close_block_static typ k len ms : static <$> close_block typ k len ms = static <$> ms.
Proof.
  unfold close_block. rewrite <- list_fmap_compose. apply list_fmap_ext. intros _ m _. cbn. by destruct (meets typ m).
Qed.

(** The types of the heads among the first [i] modules. *)
Definition heads (i : nat) ms : list Z := mod_typ <$> filter (fun m => creates m) (take i ms).

Lemma heads_S i ms m :
  ms !! i = Some m -> heads (S i) ms = (heads i ms ++ if creates m then [mod_typ m] else [])%list.
Proof.
  intros Hm. unfold heads. rewrite (take_S_r _ _ _ Hm), filter_app, fmap_app. f_equal.
  rewrite filter_cons. by destruct (creates m).
Qed.

Lemma heads_static i ms ms' : static <$> ms = static <$> ms' -> heads i ms = heads i ms'.
Proof.
  unfold heads. revert i ms'. induction ms as [|m ms IH]; intros i [|m' ms'] E; try done.
  cbn [fmap list_fmap] in E. injection E as E1 E2 E3 E4 E. destruct i as [|i]; [done|]. cbn [take].
  rewrite !filter_cons, E3. destruct (decide (creates m')); cbn [fmap list_fmap]; [rewrite E4; f_equal|]; by apply IH.
Qed.

(** The numbers of the modules of the blocks [names]. *)
Definition numbered (names : list Z) ms : Prop := forall j m k T,
  ms !! j = Some m -> names !! k = Some T -> meets T m ->
  (forall T', T' ∈ names -> meets T' m -> T' = T) ->
  main_index m = Z.of_nat k /\ ctx_index m = count T j ms /\ ctx_index_len m = count T (length ms) ms.

Record pinv (decls : list (Module_ F)) (i : nat) (st : PState) : Prop := {
  p_static : static <$> st.1.1 = static <$> decls;
  p_k : st.2 = zlen st.1.2;
  p_names : st.1.2 = heads i st.1.1;
  p_dup : NoDup st.1.2;
  p_numbered : numbered st.1.2 st.1.1;
  p_index : forall j m, (j < i)%nat -> st.1.1 !! j = Some m -> index m = Z.of_nat j;
}.

Lemma insert_static i m m' ms : ms !! i = Some m -> static m' = static m -> static <$> <[i := m']> ms = static <$> ms.
Proof.
  intros Hm E. rewrite list_fmap_insert, E. apply list_insert_id. by rewrite list_lookup_fmap, Hm.
Qed.

Lemma static_length ms ms' : static <$> ms = static <$> ms' -> length ms = length ms'.
Proof. intros E%(f_equal length). by rewrite !length_fmap in E. Qed.

(** The place of a module after the round of a head [m] at [i]. *)
Lemma head_lookup i m k ms ms1 len j x :
  ms !! i = Some m ->
  number_block (mod_typ m) 0 (<[i := set_main_index k (ctx_index_len m) (set_index (Z.of_nat i) m)]> ms) = (ms1, len) ->
  close_block (mod_typ m) k len ms1 !! j = Some x ->
  len = count (mod_typ m) (length ms) ms /\
  exists y, ms !! j = Some y /\ static x = static y /\
    index x = (if decide (j = i) then Z.of_nat i else index y) /\
    (if meets (mod_typ m) y then main_index x = k /\ ctx_index x = count (mod_typ m) j ms /\ ctx_index_len x = len
     else j <> i -> main_index x = main_index y /\ ctx_index x = ctx_index y /\ ctx_index_len x = ctx_index_len y).
Proof.
  intros Hm Hn Hx. set (m0 := set_main_index k (ctx_index_len m) (set_index (Z.of_nat i) m)) in *.
  assert (Hs : static <$> <[i := m0]> ms = static <$> ms) by by apply insert_static with m.
  destruct (number_block_spec (mod_typ m) (<[i := m0]> ms) 0) as [H1 H2]. rewrite Hn in H1, H2. cbn [fst snd] in H1, H2.
  rewrite (count_static _ _ _ _ Hs), (static_length _ _ Hs) in H2. split; [lia|].
  unfold close_block in Hx. rewrite list_lookup_fmap, H1 in Hx.
  destruct (<[i := m0]> ms !! j) as [z|] eqn:Ez; [|done]. cbn [fmap option_fmap option_map] in Hx. injection Hx as <-.
  rewrite (count_static _ _ _ _ Hs).
  assert (exists y, ms !! j = Some y /\ static z = static y /\ index z = (if decide (j = i) then Z.of_nat i else index y) /\
    (j <> i -> z = y)) as (y & Hy & Hzy & Hi & Hne).
  { apply list_lookup_insert_Some in Ez as [(<- & Ez & _)|[Hne Hy]].
    - exists m. rewrite <- Ez. destruct (decide (i = i)); [|done]. done.
    - exists z. destruct (decide (j = i)); [by subst|]. done. }
  exists y. split; [done|]. rewrite <- (static_meets _ _ _ Hzy).
  destruct (meets (mod_typ m) z) eqn:Ez'.
  - rewrite (static_meets (mod_typ m) (set_ctx_index _ z) z eq_refl), Ez'. cbn [main_index ctx_index ctx_index_len index set_main_index set_ctx_index].
    split; [exact Hzy|]. split; [exact Hi|]. split; [done|]. split; [lia|done].
  - rewrite Ez'. split; [exact Hzy|]. split; [exact Hi|]. intros Hj. by rewrite (Hne Hj).
Qed.

Lemma meets_self typ m : meets typ m = true -> meets (mod_typ m) m = true.
Proof.
  unfold meets. rewrite !negb_true_iff, !Z.eqb_neq, Z.land_diag. intros H E. by rewrite E, Z.land_0_l in H.
Qed.

Lemma NoDup_snoc_new (x : Z) l : NoDup l -> x ∉ l -> NoDup (l ++ [x]).
Proof.
  intros Hl Hx. apply NoDup_app. split; [done|]. split; [|apply NoDup_singleton].
  intros y Hy Hyx%list_elem_of_singleton. by subst.
Qed.

Lemma numbered_head i m ms ms1 len names :
  ms !! i = Some m -> NoDup names -> mod_typ m ∉ names -> numbered names ms ->
  number_block (mod_typ m) 0 (<[i := set_main_index (zlen names) (ctx_index_len m) (set_index (Z.of_nat i) m)]> ms) = (ms1, len) ->
  static <$> close_block (mod_typ m) (zlen names) len ms1 = static <$> ms ->
  numbered (names ++ [mod_typ m])%list (close_block (mod_typ m) (zlen names) len ms1).
Proof.
  intros Hm Hdup Hnew Hold Hn Hs j x k' T Hx HT Hmeets Hex.
  destruct (head_lookup _ _ _ _ _ _ _ _ Hm Hn Hx) as (-> & y & Hy & Hxy & _ & Hfields).
  rewrite !(count_static _ _ _ _ Hs), (static_length _ _ Hs).
  assert (Hxm : forall t, meets t x = meets t y) by (intros t; by apply static_meets).
  destruct (meets (mod_typ m) y) eqn:Hmy.
  - assert (mod_typ m = T) as <-.
    { apply Hex; [|by rewrite Hxm, Hmy]. apply elem_of_app. right. by apply list_elem_of_singleton. }
    assert (k' = length names) as ->.
    { apply (NoDup_lookup (names ++ [mod_typ m]) _ _ (mod_typ m)); [|done|].
      - by apply NoDup_snoc_new.
      - rewrite lookup_app_r by lia. by rewrite Nat.sub_diag. }
    destruct Hfields as (-> & -> & ->). done.
  - assert (HT' : names !! k' = Some T).
    { apply lookup_app_Some in HT as [HT|[_ HT]]; [done|]. apply list_lookup_singleton_Some in HT as [_ <-].
      by rewrite Hxm, Hmy in Hmeets. }
    assert (Hj : j <> i).
    { intros ->. rewrite Hm in Hy. injection Hy as <-. rewrite Hxm in Hmeets.
      apply Is_true_true, meets_self in Hmeets. congruence. }
    destruct (Hfields Hj) as (-> & -> & ->).
    apply (Hold j y k' T Hy HT'); [by rewrite <- Hxm|]. intros T' HT1 HT2. apply Hex; [apply elem_of_app; by left|by rewrite Hxm].
Qed.

Lemma parse_module_pinv decls i st st' :
  pinv decls i st -> parse_module i st = Ok st' -> pinv decls (S i) st'.
Proof.
  destruct st as [[ms names] k]. intros [Hs Hk Hnames Hdup Hnum Hidx]. cbn in *. unfold parse_module.
  destruct (ms !! i) as [m|] eqn:Hm; [|done]. cbn [expect mbind outcome_bind]. subst k.
  assert (Hs1 : static <$> <[i := set_index (Z.of_nat i) m]> ms = static <$> ms) by by apply insert_static with m.
  destruct (creates m) eqn:Hc; cbn [negb].
  - case_bool_decide as Hnew; [done|]. rewrite list_insert_insert_eq.
    destruct (number_block _ 0 _) as [ms1 len] eqn:Hn. intros [= <-].
    assert (Hs2 : static <$> close_block (mod_typ m) (zlen names) len ms1 = static <$> ms).
    { rewrite close_block_static. pose proof (number_block_static (mod_typ m) (<[i := set_main_index (zlen names) (ctx_index_len m) (set_index (Z.of_nat i) m)]> ms) 0) as E.
      rewrite Hn in E. cbn [fst] in E. rewrite E. by apply insert_static with m. }
    constructor; cbn [fst snd].
    + congruence.
    + rewrite zlen_app. done.
    + rewrite (heads_static _ _ _ Hs2), (heads_S _ _ _ Hm), Hc, <- Hnames. done.
    + by apply NoDup_snoc_new.
    + by eapply numbered_head.
    + intros j x Hj Hx. destruct (head_lookup _ _ _ _ _ _ _ _ Hm Hn Hx) as (_ & y & Hy & _ & -> & _).
      destruct (decide (j = i)) as [->|]; [done|]. apply Hidx; [lia|done].
  - intros [= <-]. constructor; cbn [fst snd].
    + congruence.
    + done.
    + rewrite (heads_static _ _ _ Hs1), (heads_S _ _ _ Hm), Hc, app_nil_r. done.
    + done.
    + intros j x k' T Hx HT Hmeets Hex. rewrite !(count_static _ _ _ _ Hs1), (static_length _ _ Hs1).
      apply list_lookup_insert_Some in Hx as [(<- & <- & _)|[Hne Hx]]; [apply (Hnum i m k' T)|apply (Hnum j x k' T)]; done.
    + intros j x Hj Hx. apply list_lookup_insert_Some in Hx as [(<- & <- & _)|[Hne Hx]]; [done|].
      apply Hidx; [lia|done].
Qed.

Lemma parse_from_pinv decls n : forall i st st',
  pinv decls i st -> parse_from i n st = Ok st' -> pinv decls (i + n) st'.
Proof.
  induction n as [|n IH]; intros i st st' Hi E.
  - injection E as <-. by rewrite Nat.add_0_r.
  - cbn in E. apply outcome_bind_ok in E as (st1 & E1 & E). replace (i + S n)%nat with (S i + n)%nat by lia.
    eapply IH; [|exact E]. by eapply parse_module_pinv.
Qed.

Lemma filter_place (f : Module_ F -> bool) ms j m :
  ms !! j = Some m -> f m = true -> filter f ms !! length (filter f (take j ms)) = Some m.
Proof.
  intros Hj Hf.
  assert (E : filter f ms = (filter f (take j ms) ++ m :: filter f (drop (S j) ms))%list).
  { rewrite <- (take_drop_middle ms j m Hj) at 1. rewrite filter_app, filter_cons, Hf. by destruct (decide True). }
  rewrite E, lookup_app_r by lia. by rewrite Nat.sub_diag.
Qed.

(** C22. Once the modules are numbered, a module finds its own configuration.
    The configurations of a block are made by going through the modules and
    taking those whose type meets the type of the block's head: the place of a
    module among them is its [ctx_index], their number its [ctx_index_len]; and
    the head of its block is the one at [main_index] among the modules that
    head a block.  The module must not meet two blocks. *)
Theorem modules_numbered decls ms n p m :
  parse_modules decls = Ok (ms, n) ->
  p ∈ ms -> m ∈ ms -> creates p = true -> meets (mod_typ p) m = true ->
  (forall q, q ∈ ms -> creates q = true -> meets (mod_typ q) m = true -> mod_typ q = mod_typ p) ->
  filter (fun x => creates x) ms !! Z.to_nat (main_index m) = Some p /\
  filter (fun x => meets (mod_typ p) x) ms !! Z.to_nat (ctx_index m) = Some m /\
  ctx_index_len m = zlen (filter (fun x => meets (mod_typ p) x) ms) /\
  0 <= main_index m < n /\ 0 <= ctx_index m /\ static <$> ms = static <$> decls.
Proof.
  unfold parse_modules. intros E Hp Hm Hc Hmeets Hex. apply outcome_bind_ok in E as ([[ms' names] k] & E & Hk).
  destruct (k =? 0); [done|]. injection Hk as -> ->.
  assert (H0 : pinv decls 0 (decls, [], 0)).
  { constructor; cbn [fst snd]; try done; [apply NoDup_nil_2|lia]. }
  apply parse_from_pinv with (decls := decls) in E; [|done]. destruct E as [Hs Hk Hnames Hdup Hnum _]. cbn [fst snd Nat.add] in *.
  rewrite <- (static_length _ _ Hs) in Hnames.
  assert (Hall : names = mod_typ <$> filter (fun x => creates x) ms).
  { rewrite Hnames. unfold heads. by rewrite take_ge by lia. }
  assert (Hpf : p ∈ filter (fun x => creates x) ms) by (apply list_elem_of_filter; split; [by rewrite Hc|done]).
  apply list_elem_of_lookup in Hpf as [i Hi]. apply list_elem_of_lookup in Hm as [j Hj].
  destruct (Hnum j m i (mod_typ p)) as (E1 & E2 & E3).
  - done.
  - by rewrite Hall, list_lookup_fmap, Hi.
  - by rewrite Hmeets.
  - intros T HT HmT. rewrite Hall in HT. apply list_elem_of_fmap in HT as (q & -> & Hq).
    apply list_elem_of_filter in Hq as [Hqc Hq]. apply Hex; [done|by destruct (creates q)|by apply Is_true_true].
  - rewrite E1, E2, E3. unfold count. rewrite (take_ge ms (length ms)) by lia. rewrite Nat2Z.id.
    split; [done|]. split; [unfold zlen; rewrite Nat2Z.id; by apply filter_place|]. split; [done|].
    split; [|split; [apply zlen_nonneg|done]].
    apply lookup_lt_Some in Hi. rewrite Hk, Hall. unfold zlen. rewrite length_fmap. lia.
Qed.
End modules.

(** Four of the modules in the order [anymodule.rs] adds them. *)
Definition four_modules : list (Module_ unit) :=
  [new_module "upstream" MODULE_TYPE_UPSTREAM true []; new_module "upstream_core" MODULE_TYPE_UPSTREAM false [];
   new_module "net" MODULE_TYPE_NET true []; new_module "net_server" MODULE_TYPE_NET false []].

Lemma modules_numbered_witness :
  let m := mkModule "net_server" 1 1 3 2 [] false MODULE_TYPE_NET in
  exists ms, parse_modules four_modules = Ok (ms, 2) /\ m ∈ ms /\
    filter (fun x => meets MODULE_TYPE_NET x) ms !! 1%nat = Some m.
Proof.
  intros m. set (p := mkModule "net" 1 0 2 2 [] true MODULE_TYPE_NET : Module_ unit).
  set (u := mkModule "upstream" 0 0 0 2 [] true MODULE_TYPE_UPSTREAM : Module_ unit).
  set (c := mkModule "upstream_core" 0 1 1 2 [] false MODULE_TYPE_UPSTREAM : Module_ unit).
  assert (E : parse_modules four_modules = Ok ([u; c; p; m], 2)) by (vm_compute; reflexivity).
  exists [u; c; p; m]. split; [exact E|]. split; [repeat constructor|].
  destruct (modules_numbered four_modules [u; c; p; m] 2 p m E) as (_ & H & _); [repeat constructor..|reflexivity| | |exact H].
  - vm_compute. reflexivity.
  - intros q Hq Hc Hm. repeat (apply elem_of_cons in Hq as [->|Hq]; [vm_compute in Hc, Hm |- *; congruence|]).
    by apply elem_of_nil in Hq.
Defined.

(** A name twice, two heads of one type, and no head. *)
Example module_twice : add_modules (F := unit) [] [new_module "net" 1 true []; new_module "net" 4 true []] = Err "".
Proof. vm_compute. reflexivity. Qed.
Example two_heads : parse_modules (F := unit) [new_module "net" 1 true []; new_module "net2" 1 true []] = Panic.
Proof. vm_compute. reflexivity. Qed.
Example no_head : parse_modules (F := unit) [new_module "net" 1 false []] = Err "".
Proof. vm_compute. reflexivity. Qed.
