(* ===== verification/ConfParse.v ===== *)
(** The reader of a configuration file ([Modules::parse_config] of
    [any-base/src/module/module.rs]): it finds the command of each entry among
    the modules and runs it.  What the commands do to the configurations is an
    interface, [Commands]; a command that opens a block calls the reader again
    on the lines that follow. *)
From S2P Require Import Prelude RustStd ConfLine ConfValue ConfModules.
#[local] Open Scope string_scope.
#[local] Open Scope Z_scope.

(** [ConfArg]; [R] is the type of a reference to a configuration.  The value
    and the two places are [None] before they are set. *)
Record ConfArg (R : Type) : Type := mkArg {
  is_sub_file : bool;
  path : string;
  module_type : Z;
  cmd_conf_type : Z;
  arg_main_index : Z;
  is_block : bool;
  last_module_confs : option R;
  curr_module_confs : option R;
  arg_value : option Value;
}.
Arguments mkArg {R} _ _ _ _ _ _ _ _ _.
Arguments is_sub_file {R} _.
Arguments path {R} _.
Arguments module_type {R} _.
Arguments cmd_conf_type {R} _.
Arguments arg_main_index {R} _.
Arguments is_block {R} _.
Arguments last_module_confs {R} _.
Arguments curr_module_confs {R} _.
Arguments arg_value {R} _.

Section arg.
Context {R : Type}.
Implicit Types a : ConfArg R.

(** [ConfArg::new] *)
Definition new_arg : ConfArg R := mkArg false "" 0 0 (-1) false None None None.

Definition in_file (sub : bool) (p : string) a : ConfArg R :=
  mkArg sub p (module_type a) (cmd_conf_type a) (arg_main_index a) (is_block a) (last_module_confs a) (curr_module_confs a) (arg_value a).
Definition set_types (mt ct : Z) a : ConfArg R :=
  mkArg (is_sub_file a) (path a) mt ct (arg_main_index a) (is_block a) (last_module_confs a) (curr_module_confs a) (arg_value a).
Definition set_arg_main (k : Z) a : ConfArg R :=
  mkArg (is_sub_file a) (path a) (module_type a) (cmd_conf_type a) k (is_block a) (last_module_confs a) (curr_module_confs a) (arg_value a).
Definition set_block (b : bool) a : ConfArg R :=
  mkArg (is_sub_file a) (path a) (module_type a) (cmd_conf_type a) (arg_main_index a) b (last_module_confs a) (curr_module_confs a) (arg_value a).
Definition set_last (r : option R) a : ConfArg R :=
  mkArg (is_sub_file a) (path a) (module_type a) (cmd_conf_type a) (arg_main_index a) (is_block a) r (curr_module_confs a) (arg_value a).
Definition set_curr (r : R) a : ConfArg R :=
  mkArg (is_sub_file a) (path a) (module_type a) (cmd_conf_type a) (arg_main_index a) (is_block a) (last_module_confs a) (Some r) (arg_value a).
Definition set_value (v : Value) a : ConfArg R :=
  mkArg (is_sub_file a) (path a) (module_type a) (cmd_conf_type a) (arg_main_index a) (is_block a) (last_module_confs a) (curr_module_confs a) (Some v).

(** What a closing brace leaves in the counters. *)
Definition close_arg a : ConfArg R := set_types 0 0 (set_arg_main (-1) a).
End arg.

(** What a command does: it is done, or it opens a block.  The block is read
    with an argument of its own, into the configurations [confs]; the counters of
    its argument are the caller's when [shared]; [after] is what the command
    does when the block was read. *)
Inductive Step (S R : Type) : Type :=
  | Done (s : S)
  | OpenBlock (shared : bool) (arg : ConfArg R) (confs : R) (s : S) (after : S -> outcome S).
Arguments Done {S R} s.
Arguments OpenBlock {S R} shared arg confs s after.

(** The commands [F], over configurations [S] with references [R]. *)
Class Commands (F S R : Type) : Type := {
  (** the command of a module, given the module as well *)
  run_cmd : Module_ F -> F -> ConfArg R -> R -> S -> outcome (Step S R);
  (** [module_confs.get_mut::<Vec<ArcUnsafeAny>>()[i].clone()] *)
  nth_conf : S -> R -> Z -> outcome R;
  (** whether [init_main_confs_map] has a head, and [self.main_index.store] *)
  loadable : S -> Z -> bool;
  enter_main : Z -> S -> S;
}.

(** ** Files *)

(** The lines [read_line] gives, each with its end. *)
Fixpoint file_lines (s : string) : list string :=
  match s with
  | EmptyString => []
  | String c s =>
      if Ascii.eqb c "010" then String c "" :: file_lines s
      else match file_lines s with [] => [String c ""] | l :: ls => String c l :: ls end
  end.

(** [path.parent()] of a path to a file. *)
Definition parent (p : string) : string :=
  match rsplit_once "/" p with Some ("", _) => "/" | Some (d, _) => d | None => "" end.

(** The separators and the [.] components a path starts with. *)
Fixpoint skip_components (s : string) : string :=
  match s with
  | String "/" s => skip_components s
  | String "." EmptyString => ""
  | String "." (String "/" s) => skip_components s
  | _ => s
  end.

(** [sub_path.strip_prefix("./")] and [sub_path.strip_prefix("/")] *)
Definition strip_cur (s : string) : option string :=
  match s with
  | String "." EmptyString => Some ""
  | String "." (String "/" s) => Some (skip_components s)
  | _ => None
  end.
Definition strip_root (s : string) : option string :=
  match s with String "/" s => Some (skip_components s) | _ => None end.

Definition include_path (dir value : string) : string :=
  dir +:+ "/" +:+ (match strip_cur value with
                   | Some s => s
                   | None => match strip_root value with Some s => s | None => value end
                   end).

Section parse.
Context {F S R : Type} `{Commands F S R}.
Context (modules : list (Module_ F)) (files : string -> option string).
Implicit Types (a : ConfArg R) (confs : R) (s : S).

(** ** The command of an entry *)

Fixpoint find_in_cmds (ct : Z) (key : string) (cs : list (Cmd F)) : outcome (option (Cmd F)) :=
  match cs with
  | [] => Ok None
  | c :: cs =>
      if negb (String.eqb key (cmd_name c)) then find_in_cmds ct key cs
      else if (0 <? ct) && (Z.land ct (cmd_conf_typ c) =? 0) then Err ""
      else Ok (Some c)
  end.

Fixpoint find_cmd (mt ct : Z) (key : string) (ms : list (Module_ F)) : outcome (Module_ F * Cmd F) :=
  match ms with
  | [] => Err ""
  | m :: ms =>
      if (0 <? mt) && (Z.land mt (mod_typ m) =? 0) then find_cmd mt ct key ms
      else
        r ← find_in_cmds ct key (cmds m);
        match r with Some c => Ok (m, c) | None => find_cmd mt ct key ms end
  end.

(** What an entry does, up to the block it may open. *)
Definition run_entry a confs s (key typ value : string) : outcome (ConfArg R * Step S R) :=
  '(m, c) ← find_cmd (module_type a) (cmd_conf_type a) key modules;
  if cmd_typ c =? CMD_TYPE_MAIN then
    if negb (loadable s (main_index m)) then Panic
    else
      let a := set_arg_main (main_index m) a in
      st ← run_cmd m (cmd_set c) a confs (enter_main (main_index m) s); Ok (a, st)
  else if cmd_typ c =? CMD_TYPE_SUB then st ← run_cmd m (cmd_set c) a confs s; Ok (a, st)
  else
    a ← (if cmd_typ c =? CMD_TYPE_BLOCK then Ok a else v ← read_typed typ value; Ok (set_value v a));
    if is_block a then st ← run_cmd m (cmd_set c) a confs s; Ok (a, st)
    else
      let a := set_curr confs a in
      conf ← nth_conf s confs (ctx_index m);
      st ← run_cmd m (cmd_set c) a conf s; Ok (a, st).

(** The caller's argument after a block: the counters it shares. *)
Definition after_block (shared : bool) a (inner : ConfArg R) : ConfArg R :=
  if shared then set_types (module_type inner) (cmd_conf_type inner) (set_arg_main (arg_main_index inner) a) else a.

(** ** The loop

    It gives back the argument and the lines it has not read. *)
Fixpoint parse_config (fuel : nat) a confs (lines : list string) s : outcome (ConfArg R * list string * S) :=
  match fuel with
  | O => Fuel
  | Datatypes.S fuel =>
      match lines with
      | [] => if negb (is_sub_file a) && negb (arg_main_index a =? -1) then Err "" else Ok (a, [], s)
      | raw :: lines =>
          h ← read_head raw;
          match h with
          | Blank => parse_config fuel a confs lines s
          | CommentStart => lines ← skip_comment lines; parse_config fuel a confs lines s
          | BlockClose => if arg_main_index a =? -1 then Err "" else Ok (close_arg a, lines, s)
          | Entry key typ value is_ignore =>
              if String.eqb key "" then Ok (a, lines, s)
              else
                '(value, lines) ← read_value typ value lines;
                if is_ignore : bool then parse_config fuel a confs lines s
                else if String.eqb key "include" then
                  if String.eqb value "" then Err ""
                  else
                    let name := include_path (path a) value in
                    text ← ok_or "" (files name);
                    '(b, _, s) ← parse_config fuel (in_file true (parent name) a) confs (file_lines text) s;
                    parse_config fuel (in_file (is_sub_file a) (path a) b) confs lines s
                else
                  '(a, st) ← run_entry a confs s key typ value;
                  match st with
                  | Done s => parse_config fuel a confs lines s
                  | OpenBlock shared b inner s after =>
                      '(b, lines, s) ← parse_config fuel b inner lines s;
                      s ← after s;
                      parse_config fuel (after_block shared a b) confs lines s
                  end
          end
      end
  end.

Definition parse_config_file (fuel : nat) a (name : string) confs s : outcome (ConfArg R * list string * S) :=
  text ← ok_or "" (files name);
  parse_config fuel (in_file (is_sub_file a) (parent name) a) confs (file_lines text) s.
End parse.
