(* ===== verification/ConfText.v ===== *)
(** A configuration as a tree, its text, and the reader: the text of a tree is
    read as the tree says. *)
From S2P Require Import Prelude RustStd ConfLine ConfValue ConfModules ConfParse.
#[local] Open Scope string_scope.
#[local] Open Scope Z_scope.

(** ** White space at the ends of a text *)

Fixpoint all_ws (s : string) : bool :=
  match s with EmptyString => true | String c s => is_ws c && all_ws s end.

(** A text that starts, or ends, with something to read. *)
Definition starts_solid (s : string) : bool := match s with String c _ => negb (is_ws c) | "" => false end.
Fixpoint ends_solid (s : string) : bool :=
  match s with "" => false | String c "" => negb (is_ws c) | String _ s => ends_solid s end.

Lemma trim_start_ws w s : all_ws w = true -> trim_start (w +:+ s) = trim_start s.
Proof.
  induction w as [|c w IH]; [done|]. cbn [all_ws]. intros [Hc Hw]%andb_true_iff. rewrite app_cons. cbn. by rewrite Hc, IH.
Qed.

Lemma trim_start_solid s : starts_solid s = true -> trim_start s = s.
Proof. destruct s as [|c s]; [done|]. cbn. by intros ->%negb_true_iff. Qed.

Lemma trim_end_all_ws w : all_ws w = true -> trim_end w = "".
Proof. induction w as [|c w IH]; [done|]. cbn. intros [-> Hw]%andb_true_iff. by rewrite IH. Qed.

Lemma trim_end_ws s w : all_ws w = true -> trim_end (s +:+ w) = trim_end s.
Proof.
  intros Hw. induction s as [|c s IH].
  - rewrite app_nil. by apply trim_end_all_ws.
  - rewrite app_cons. cbn. by rewrite IH.
Qed.

Lemma trim_end_solid s : ends_solid s = true -> trim_end s = s.
Proof.
  induction s as [|c s IH]; [done|]. intros H. cbn [trim_end]. destruct s as [|d s].
  - cbn in H |- *. by rewrite (proj1 (negb_true_iff _) H).
  - cbn [ends_solid] in H. by rewrite IH.
Qed.

Lemma starts_solid_app s t : starts_solid s = true -> starts_solid (s +:+ t) = true.
Proof. by destruct s. Qed.

Lemma ends_solid_app s t : ends_solid t = true -> ends_solid (s +:+ t) = true.
Proof.
  intros Ht. induction s as [|c s IH]; [done|]. rewrite app_cons. destruct s as [|d s].
  - rewrite app_nil in *. by destruct t.
  - rewrite app_cons in *. exact IH.
Qed.

(** A word: something to read, and no white space. *)
Definition is_word (s : string) : bool := no_ws s && negb (String.eqb s "").

Lemma word_starts s : is_word s = true -> starts_solid s = true.
Proof. destruct s as [|c s]; [done|]. unfold is_word. cbn. by destruct (is_ws c). Qed.

Lemma word_ends s : is_word s = true -> ends_solid s = true.
Proof.
  unfold is_word. intros [Hs Hne]%andb_true_iff. induction s as [|c s IH]; [done|]. cbn in Hs.
  apply andb_true_iff in Hs as [Hc Hs]. cbn [ends_solid]. destruct s; [done|]. by apply IH.
Qed.

Lemma split_ws_word s : no_ws s = true -> split_ws s = [s].
Proof.
  induction s as [|c s IH]; [done|]. cbn. intros [Hc Hs]%andb_true_iff.
  by rewrite (proj1 (negb_true_iff _) Hc), IH.
Qed.

Lemma split_ws_app k c t : no_ws k = true -> is_ws c = true -> split_ws (k +:+ String c t) = k :: split_ws t.
Proof.
  intros Hk Hc. induction k as [|d k IH].
  - rewrite app_nil. cbn. by rewrite Hc.
  - rewrite app_cons. cbn in Hk |- *. apply andb_true_iff in Hk as [Hd Hk].
    by rewrite (proj1 (negb_true_iff _) Hd), IH.
Qed.

Lemma split_two k t : is_word k = true -> is_word t = true -> split_whitespace (k +:+ " " +:+ t) = [k; t].
Proof.
  unfold is_word. intros [Hk Hk0]%andb_true_iff [Ht Ht0]%andb_true_iff. unfold split_whitespace.
  rewrite app_cons, app_nil, split_ws_app, split_ws_word by done.
  apply negb_true_iff, String.eqb_neq in Hk0, Ht0.
  by rewrite !filter_cons_True, filter_nil by done.
Qed.

(** ** The tree and its text *)

(** An entry with its type and value, a block, or a comment. *)
#[warnings="-register-all"]
Inductive Item : Type :=
  | Data (key typ value : string)
  | Block (key : string) (items : list Item)
  | Note (text : string).

Definition nl : string := String "010" "".

(** The lines of an item, [ind] being its indentation. *)
Fixpoint print_item (ind : string) (it : Item) : list string :=
  match it with
  | Data key typ value => [ind +:+ key +:+ " " +:+ typ +:+ " = " +:+ value +:+ ";" +:+ nl]
  | Block key items =>
      (ind +:+ key +:+ " {" +:+ nl) ::
      ((fix prints (l : list Item) : list string :=
          match l with [] => [] | i :: l => print_item (ind +:+ "    ") i ++ prints l end) items ++ [ind +:+ "}" +:+ nl])%list
  | Note text => [ind +:+ "#" +:+ text +:+ nl]
  end.
Fixpoint print_items (ind : string) (items : list Item) : list string :=
  match items with [] => [] | i :: l => (print_item ind i ++ print_items ind l)%list end.

(** What can be written: a key and a type are words without [=] and [#] that
    start with the start of a character; the type is not [raw] and names no system; a value has no [;], no end of line and
    no white space at its ends; [include] is not a key. *)
Definition is_name (s : string) : bool :=
  is_word s && negb (has_char "=" s) && negb (has_char "#" s) && match s with String c _ => negb (is_continuation c) | "" => false end.
Definition is_typ (s : string) : bool := is_name s && negb (has_char "_" s) && negb (String.eqb s "raw").
Definition is_plain (s : string) : bool :=
  negb (has_char ";" s) && negb (has_char "010" s) && (String.eqb s "" || (starts_solid s && ends_solid s)).
Fixpoint writable (it : Item) : bool :=
  match it with
  | Data key typ value => is_name key && negb (String.eqb key "include") && is_typ typ && is_plain value
  | Block key items => is_name key && negb (String.eqb key "include") &&
      (fix all (l : list Item) : bool := match l with [] => true | i :: l => writable i && all l end) items
  | Note text => negb (has_char "010" text)
  end.
Fixpoint all_writable (items : list Item) : bool :=
  match items with [] => true | i :: l => writable i && all_writable l end.

Lemma print_block ind key items :
  print_item ind (Block key items) = ((ind +:+ key +:+ " {" +:+ nl) :: print_items (ind +:+ "    ") items ++ [ind +:+ "}" +:+ nl])%list.
Proof. cbn [print_item]. do 2 f_equal. induction items as [|i l IH]; [done|]. cbn [print_items]. by rewrite IH. Qed.

Lemma writable_block key items :
  writable (Block key items) = is_name key && negb (String.eqb key "include") && all_writable items.
Proof. reflexivity. Qed.

(** Induction on trees. *)
Lemma item_ind' (P : Item -> Prop) :
  (forall key typ value, P (Data key typ value)) ->
  (forall key items, Forall P items -> P (Block key items)) ->
  (forall text, P (Note text)) -> forall it, P it.
Proof.
  intros HD HB HN. fix IH 1. intros [key typ value|key items|text]; [apply HD| |apply HN].
  apply HB. induction items as [|i l IHl]; [constructor|]. constructor; [apply IH|exact IHl].
Qed.

(** ** The heads of the lines *)

Lemma at_start_solid c s : at_start c s = match s with String d _ => Ascii.eqb c d | "" => false end.
Proof. destruct s as [|d s]; [done|]. unfold at_start. cbn. destruct (Ascii.eqb c d); [done|]. by destruct (find_char c s). Qed.

Lemma name_starts s : is_name s = true -> exists c r, s = String c r /\ is_ws c = false /\ Ascii.eqb "#" c = false.
Proof.
  destruct s as [|c r]; [done|]. unfold is_name, is_word. cbn. intros H. exists c, r. split; [done|].
  rewrite !andb_true_iff, !negb_true_iff, !orb_false_iff in H. tauto.
Qed.

Lemma is_name_word s : is_name s = true -> is_word s = true /\ has_char "=" s = false /\ has_char "#" s = false.
Proof. unfold is_name. rewrite !andb_true_iff, !negb_true_iff. tauto. Qed.

Lemma read_head_note ind text : all_ws ind = true -> read_head (ind +:+ "#" +:+ text +:+ nl) = Ok Blank.
Proof. intros Hi. unfold read_head. rewrite trim_start_ws by done. rewrite app_cons. cbn [trim_start is_ws]. by rewrite at_start_solid. Qed.

(** A line whose text starts with a name. *)
Lemma read_head_name ind key rest :
  all_ws ind = true -> is_name key = true -> ends_solid (key +:+ rest) = true -> key +:+ rest <> BLOCK_COMMENTS_START ->
  read_head (ind +:+ key +:+ rest +:+ nl) =
    match split_once "=" (key +:+ rest) with
    | Some (k, v) => read_key (split_whitespace (trim k)) v
    | None => read_brace (key +:+ rest)
    end.
Proof.
  intros Hi Hk He Hc. unfold read_head. rewrite trim_start_ws, <- app_assoc_s by done.
  destruct (name_starts key Hk) as (c & r & -> & Hw & Hh).
  rewrite trim_start_solid by (do 2 apply starts_solid_app; unfold starts_solid; by rewrite Hw). rewrite at_start_solid, !app_cons, Hh, <- !app_cons.
  rewrite trim_end_ws, trim_end_solid by done. rewrite app_cons at 1. cbn [String.eqb].
  by destruct (String.eqb_spec (String c r +:+ rest) BLOCK_COMMENTS_START).
Qed.

Lemma split_once_none c s : has_char c s = false -> split_once c s = None.
Proof. intros H. unfold split_once. by rewrite find_char_none. Qed.

Lemma not_comment key rest d : is_name key = true -> has_char d (key +:+ rest) = true -> has_char d BLOCK_COMMENTS_START = false ->
  key +:+ rest <> BLOCK_COMMENTS_START.
Proof. intros _ Hd Hn E. rewrite E in Hd. congruence. Qed.

Lemma read_head_data ind key typ value :
  all_ws ind = true -> is_name key = true -> is_typ typ = true -> is_plain value = true ->
  read_head (ind +:+ key +:+ " " +:+ typ +:+ " = " +:+ value +:+ ";" +:+ nl) = Ok (Entry key typ (value +:+ ";") false).
Proof.
  intros Hi Hk Ht Hv. pose proof Hk as (Hkw & Hke & _)%is_name_word.
  unfold is_typ in Ht. rewrite !andb_true_iff, !negb_true_iff in Ht. destruct Ht as [[Htn Htu] _].
  apply is_name_word in Htn as (Htw & Hte & _).
  replace (ind +:+ key +:+ " " +:+ typ +:+ " = " +:+ value +:+ ";" +:+ nl)
    with (ind +:+ key +:+ (" " +:+ typ +:+ " = " +:+ value +:+ ";") +:+ nl) by (by rewrite !app_assoc_s).
  assert (Heq : split_once "=" (key +:+ " " +:+ typ +:+ " = " +:+ value +:+ ";") = Some (key +:+ " " +:+ typ +:+ " ", " " +:+ value +:+ ";")).
  { replace (key +:+ " " +:+ typ +:+ " = " +:+ value +:+ ";") with ((key +:+ " " +:+ typ +:+ " ") +:+ String "=" (" " +:+ value +:+ ";"))
      by (by rewrite !app_assoc_s).
    apply split_once_app. by rewrite !has_char_app, Hke, Hte. }
  rewrite read_head_name; [|done|done| |].
  - rewrite Heq.
    assert (trim (key +:+ " " +:+ typ +:+ " ") = key +:+ " " +:+ typ) as ->.
    { unfold trim. rewrite trim_start_solid by (by apply starts_solid_app, word_starts).
      replace (key +:+ " " +:+ typ +:+ " ") with ((key +:+ " " +:+ typ) +:+ " ") by (by rewrite !app_assoc_s).
      rewrite trim_end_ws, trim_end_solid; [done| |done]. by do 2 apply ends_solid_app; apply word_ends. }
    rewrite split_two by done. cbn [read_key]. rewrite split_once_none by done.
    rewrite (trim_start_ws " ") by done. rewrite trim_start_solid; [done|].
    unfold is_plain in Hv. rewrite !andb_true_iff, orb_true_iff in Hv. destruct Hv as [_ [->%String.eqb_eq|[Hv _]%andb_true_iff]]; [done|].
    by apply starts_solid_app.
  - by do 5 apply ends_solid_app.
  - apply (not_comment _ _ "="); [done| |done]. rewrite !has_char_app. cbn. by rewrite !orb_true_r.
Qed.

Lemma stake_app_r s t : stake (String.length (s +:+ t) - String.length t) (s +:+ t) = s.
Proof.
  replace (String.length (s +:+ t) - String.length t)%nat with (String.length s); [apply stake_app|].
  rewrite <- !bytes_length, bytes_of_app, length_app. lia.
Qed.

(** The last character, when it is an ASCII one. *)
Lemma last_char s c : is_continuation c = false ->
  text_slice (s +:+ String c "") (slen (s +:+ String c "") - 1) (slen (s +:+ String c "")) = Ok (String c "") /\
  (cut_ok (s +:+ String c "") 0 = true -> text_slice (s +:+ String c "") 0 (slen (s +:+ String c "") - 1) = Ok s).
Proof.
  intros Hc. assert (Hl : slen (s +:+ String c "") = slen s + 1) by (rewrite slen_app; done).
  pose proof (slen_nonneg s). assert (Hn : Z.to_nat (slen s) = String.length s) by (unfold slen; lia).
  rewrite Hl. replace (slen s + 1 - 1) with (slen s) by lia.
  assert (C1 : cut_ok (s +:+ String c "") (slen s) = true).
  { unfold cut_ok. rewrite Hn, sdrop_app, Hc. by destruct (Z.leb_spec 0 (slen s)); [|lia]. }
  assert (C2 : cut_ok (s +:+ String c "") (slen s + 1) = true).
  { unfold cut_ok. replace (Z.to_nat (slen s + 1)) with (S (String.length s)) by (unfold slen; lia).
    rewrite sdrop_app_S, Hl. destruct (Z.leb_spec 0 (slen s + 1)); [|lia]. by destruct (Z.leb_spec (slen s + 1) (slen s + 1)); [|lia]. }
  unfold text_slice, sslice. rewrite C1, C2, Hl. split.
  - destruct (Z.leb_spec 0 (slen s)); [|lia]. destruct (Z.leb_spec (slen s) (slen s + 1)); [|lia].
    destruct (Z.leb_spec (slen s + 1) (slen s + 1)); [|lia]. cbn [andb].
    rewrite Hn, sdrop_app. by replace (Z.to_nat (slen s + 1 - slen s)) with 1%nat by lia.
  - intros ->. destruct (Z.leb_spec 0 (slen s)); [|lia]. destruct (Z.leb_spec (slen s) (slen s + 1)); [|lia]. cbn [andb].
    change (0 <=? 0) with true. cbn [andb]. rewrite Z.sub_0_r, Hn. change (sdrop (Z.to_nat 0) (s +:+ String c "")) with (s +:+ String c ""). by rewrite stake_app.
Qed.

(** A line without [=] that ends with a brace. *)
Lemma read_brace_open key : is_name key = true -> read_brace (key +:+ " {") = Ok (Entry key "" "" false).
Proof.
  intros Hk. pose proof Hk as (Hw & _ & Hh)%is_name_word. unfold read_brace.
  rewrite find_char_none by (rewrite has_char_app, Hh; done).
  assert (Et : trim (key +:+ " {") = key +:+ " {").
  { unfold trim. rewrite trim_start_solid by (by apply starts_solid_app, word_starts). apply trim_end_solid. by apply ends_solid_app. }
  rewrite Et. replace (key +:+ " {") with ((key +:+ " ") +:+ String "{" "") by (by rewrite app_assoc_s).
  destruct (last_char (key +:+ " ") "{" eq_refl) as [E1 E2]. rewrite E1. cbn [mbind outcome_bind].
  change (String.eqb (String "{" "") "{") with true. cbn match. rewrite E2.
  - cbn [mbind outcome_bind]. unfold trim. rewrite trim_start_solid by (by apply starts_solid_app, word_starts).
    by rewrite trim_end_ws, trim_end_solid by (done || by apply word_ends).
  - unfold cut_ok. cbn [Z.to_nat sdrop]. change (0 <=? 0) with true.
    unfold is_name in Hk. destruct key as [|c r]; [done|]. apply andb_true_iff in Hk as [_ Hc]. exact Hc.
Qed.

Lemma read_head_block ind key :
  all_ws ind = true -> is_name key = true -> read_head (ind +:+ key +:+ " {" +:+ nl) = Ok (Entry key "" "" false).
Proof.
  intros Hi Hk. pose proof Hk as (_ & He & _)%is_name_word. rewrite read_head_name; [|done|done| |].
  - rewrite split_once_none by (by rewrite has_char_app, He). by apply read_brace_open.
  - by apply ends_solid_app.
  - apply (not_comment _ _ "{"); [done| |done]. rewrite has_char_app. cbn. by rewrite orb_true_r.
Qed.

Lemma read_head_close ind : all_ws ind = true -> read_head (ind +:+ "}" +:+ nl) = Ok BlockClose.
Proof. intros Hi. unfold read_head. rewrite trim_start_ws by done. vm_compute. reflexivity. Qed.

Lemma read_value_data typ value lines :
  is_typ typ = true -> is_plain value = true -> read_value typ (value +:+ ";") lines = Ok (value, lines).
Proof.
  unfold is_typ, is_plain. rewrite !andb_true_iff, !negb_true_iff. intros [[Ht _] Hr] [[Hs _] Hv]. unfold read_value.
  assert (String.eqb typ "" = false) as ->.
  { apply is_name_word in Ht as [Ht _]. unfold is_word in Ht. apply andb_true_iff in Ht as [_ Ht]. by apply negb_true_iff. }
  unfold CMD_TYPE_RAW. rewrite Hr. cbn [andb negb]. unfold plain_value.
  rewrite split_once_app by done. cbn. unfold trim.
  apply orb_true_iff in Hv as [->%String.eqb_eq|[Ha Hb]%andb_true_iff]; [done|].
  by rewrite trim_start_solid, trim_end_solid.
Qed.

(** ** What a tree does *)

Section exec.
Context {F S R : Type} `{Commands F S R}.
Context (modules : list (Module_ F)) (files : string -> option string).

(** The commands of a tree, one after the other: an entry runs its command, a
    block runs its command, its items, and what the command does at its end. *)
Fixpoint exec_item (it : Item) (a : ConfArg R) (confs : R) (s : S) : outcome (ConfArg R * S) :=
  match it with
  | Note _ => Ok (a, s)
  | Data key typ value =>
      '(a, st) ← run_entry modules a confs s key typ value;
      match st with Done s => Ok (a, s) | OpenBlock _ _ _ _ _ => Err "" end
  | Block key items =>
      '(a, st) ← run_entry modules a confs s key "" "";
      match st with
      | Done _ => Err ""
      | OpenBlock shared b inner s after =>
          '(b, s) ← (fix execs (l : list Item) (b : ConfArg R) (s : S) : outcome (ConfArg R * S) :=
                       match l with [] => Ok (b, s) | i :: l => '(b, s) ← exec_item i b inner s; execs l b s end) items b s;
          if arg_main_index b =? -1 then Err "" else s ← after s; Ok (after_block shared a (close_arg b), s)
      end
  end.
Fixpoint exec_items (items : list Item) (a : ConfArg R) (confs : R) (s : S) : outcome (ConfArg R * S) :=
  match items with [] => Ok (a, s) | i :: l => '(a, s) ← exec_item i a confs s; exec_items l a confs s end.

Lemma exec_block key items a confs s :
  exec_item (Block key items) a confs s =
    ('(a, st) ← run_entry modules a confs s key "" "";
     match st with
     | Done _ => Err ""
     | OpenBlock shared b inner s after =>
         '(b, s) ← exec_items items b inner s;
         if arg_main_index b =? -1 then Err "" else s ← after s; Ok (after_block shared a (close_arg b), s)
     end).
Proof.
  cbn [exec_item]. destruct (run_entry _ _ _ _ _ _ _) as [[a1 [s1|shared b inner s1 after]]| | |]; try done. cbn [mbind outcome_bind].
  assert (E : forall l b s, (fix execs (l : list Item) (b : ConfArg R) (s : S) : outcome (ConfArg R * S) :=
                       match l with [] => Ok (b, s) | i :: l => '(b, s) ← exec_item i b inner s; execs l b s end) l b s = exec_items l b inner s).
  { induction l as [|i l IH]; intros b' s'; [done|]. cbn [exec_items]. destruct (exec_item i b' inner s') as [[b2 s2]| | |]; try done. apply IH. }
  by rewrite E.
Qed.

(** The rounds the reader needs below an item. *)
Fixpoint need (it : Item) : nat :=
  match it with
  | Block _ items => Datatypes.S (length items + (fix needs (l : list Item) : nat := match l with [] => O | i :: l => Nat.max (need i) (needs l) end) items)
  | _ => O
  end.
Fixpoint needs (items : list Item) : nat := match items with [] => O | i :: l => Nat.max (need i) (needs l) end.

Lemma need_block key items : need (Block key items) = Datatypes.S (length items + needs items).
Proof. reflexivity. Qed.

Lemma key_not_empty key : is_name key = true -> String.eqb key "" = false.
Proof. intros (Hw & _)%is_name_word. unfold is_word in Hw. apply andb_true_iff in Hw as [_ Hw]. by apply negb_true_iff. Qed.

(** An entry whose command opens a block, or a block whose command opens none,
    is not an item of the tree. *)
Definition is_done (st : Step S R) : bool := match st with Done _ => true | OpenBlock _ _ _ _ _ => false end.
Fixpoint fits (it : Item) : Prop :=
  match it with
  | Note _ => True
  | Data key typ value => forall a confs s a' st, run_entry modules a confs s key typ value = Ok (a', st) -> is_done st = true
  | Block key items =>
      (forall a confs s a' st, run_entry modules a confs s key "" "" = Ok (a', st) -> is_done st = false) /\
      (fix all (l : list Item) : Prop := match l with [] => True | i :: l => fits i /\ all l end) items
  end.
Fixpoint all_fit (items : list Item) : Prop := match items with [] => True | i :: l => fits i /\ all_fit l end.

Lemma fits_block key items : fits (Block key items) =
  ((forall a confs s a' st, run_entry modules a confs s key "" "" = Ok (a', st) -> is_done st = false) /\ all_fit items).
Proof. reflexivity. Qed.

(** The text of an item is read as the item says. *)
Definition item_read (it : Item) : Prop := forall ind a confs s rest fuel,
  all_ws ind = true -> writable it = true -> fits it -> (need it <= fuel)%nat ->
  parse_config modules files (Datatypes.S fuel) a confs (print_item ind it ++ rest)%list s =
    ('(a', s') ← exec_item it a confs s; parse_config modules files fuel a' confs rest s').

Lemma items_read l : forall ind a confs s rest fuel,
  Forall item_read l -> all_ws ind = true -> all_writable l = true -> all_fit l -> (length l + needs l <= fuel)%nat ->
  parse_config modules files fuel a confs (print_items ind l ++ rest)%list s =
    ('(a', s') ← exec_items l a confs s; parse_config modules files (fuel - length l) a' confs rest s').
Proof.
  induction l as [|i l IHl]; intros ind a confs s rest fuel HF Hi Hw Ht Hf.
  - cbn. by rewrite Nat.sub_0_r.
  - apply Forall_cons in HF as [Hi1 HF]. cbn [all_writable] in Hw. apply andb_true_iff in Hw as [Hw1 Hw]. destruct Ht as [Ht1 Ht].
    cbn [exec_items print_items needs length] in *. rewrite <- app_assoc. destruct fuel as [|fuel]; [lia|].
    rewrite (Hi1 ind a confs s) by (done || lia). destruct (exec_item i a confs s) as [[a1 s1]| | |]; try done. cbn [mbind outcome_bind].
    by rewrite (IHl ind a1 confs s1 rest fuel) by (done || lia).
Qed.

Lemma all_ws_app s t : all_ws (s +:+ t) = all_ws s && all_ws t.
Proof. induction s as [|c s IH]; [done|]. rewrite app_cons. cbn. by rewrite IH, andb_assoc. Qed.

Lemma parse_item it : item_read it.
Proof.
  induction it as [key typ value|key items IH|text] using item_ind'; intros ind a confs s rest fuel Hi Hw Ht Hf.
  - cbn [writable] in Hw. rewrite !andb_true_iff, negb_true_iff in Hw. destruct Hw as [[[Hk Hinc] Hty] Hv].
    cbn [print_item app parse_config]. rewrite read_head_data by done. cbn [mbind outcome_bind].
    rewrite key_not_empty, read_value_data, Hinc by done. cbn [mbind outcome_bind].
    cbn [exec_item fits] in *. specialize (Ht a confs s). destruct (run_entry _ _ _ _ _ _ _) as [[a1 st]| | |]; try done. cbn [mbind outcome_bind].
    by destruct st; [|specialize (Ht _ _ eq_refl)].
  - rewrite writable_block, !andb_true_iff, negb_true_iff in Hw. destruct Hw as [[Hk Hinc] Hws].
    rewrite fits_block in Ht. destruct Ht as [Ht Hts]. rewrite print_block, exec_block. rewrite need_block in Hf.
    cbn [app parse_config]. rewrite read_head_block by done. cbn [mbind outcome_bind].
    rewrite key_not_empty, Hinc by done. cbn [mbind outcome_bind read_value String.eqb andb]. specialize (Ht a confs s).
    destruct (run_entry _ _ _ _ _ _ _) as [[a1 [s1|shared b inner s1 after]]| | |]; try done; [by specialize (Ht _ _ eq_refl)|]. cbn [mbind outcome_bind].
    rewrite <- app_assoc, (items_read items _ _ _ _ _ fuel IH) by (done || lia || by rewrite all_ws_app, Hi).
    destruct (exec_items items b inner s1) as [[b2 s2]| | |]; try done. cbn [mbind outcome_bind].
    destruct (fuel - length items)%nat as [|f] eqn:Ef; [lia|]. cbn [app parse_config].
    rewrite read_head_close by done. cbn [mbind outcome_bind].
    destruct (arg_main_index b2 =? -1); [done|]. cbn [mbind outcome_bind]. by destruct (after s2).
  - cbn [exec_item mbind outcome_bind print_item app parse_config]. by rewrite read_head_note.
Qed.

(** The file, with enough rounds for it. *)
Definition enough (items : list Item) : nat := Datatypes.S (length items + needs items).
End exec.

(** ** Files *)

(** The text of a file with these lines. *)
Fixpoint text_of_lines (ls : list string) : string := match ls with [] => "" | l :: ls => l +:+ text_of_lines ls end.

(** A line that ends where its only end of line is. *)
Definition whole_line (l : string) : Prop := exists x, l = x +:+ nl /\ has_char "010" x = false.

Lemma file_lines_line x t : has_char "010" x = false -> file_lines ((x +:+ nl) +:+ t) = (x +:+ nl) :: file_lines t.
Proof.
  induction x as [|c x IH]; intros Hx; [done|]. rewrite !app_cons. cbn [has_char] in Hx. apply orb_false_iff in Hx as [Hc Hx].
  cbn [file_lines]. assert (Ascii.eqb c "010" = false) as -> by (apply Ascii.eqb_neq; apply Ascii.eqb_neq in Hc; congruence).
  by rewrite IH.
Qed.

Lemma file_lines_text ls : Forall whole_line ls -> file_lines (text_of_lines ls) = ls.
Proof.
  induction 1 as [|l ls (x & -> & Hx) H IH]; [done|]. cbn [text_of_lines]. by rewrite file_lines_line, IH.
Qed.

Lemma no_ws_line s : no_ws s = true -> has_char "010" s = false.
Proof.
  induction s as [|c s IH]; [done|]. cbn [no_ws has_char]. intros [Hc Hs]%andb_true_iff. rewrite IH, orb_false_r by done.
  apply Ascii.eqb_neq. intros <-. by vm_compute in Hc.
Qed.

Lemma name_line s : is_name s = true -> has_char "010" s = false.
Proof. intros (Hw & _)%is_name_word. unfold is_word in Hw. apply andb_true_iff in Hw as [Hw _]. by apply no_ws_line. Qed.

Lemma printed_lines it : forall ind, has_char "010" ind = false -> writable it = true -> Forall whole_line (print_item ind it).
Proof.
  induction it as [key typ value|key items IH|text] using item_ind'; intros ind Hi Hw.
  - cbn [writable] in Hw. unfold is_typ, is_plain in Hw. rewrite !andb_true_iff, !negb_true_iff in Hw.
    destruct Hw as [[[Hk _] [[Ht _] _]] [[_ Hv] _]]. apply Forall_singleton.
    exists (ind +:+ key +:+ " " +:+ typ +:+ " = " +:+ value +:+ ";"). split; [by rewrite !app_assoc_s|].
    by rewrite !has_char_app, Hi, (name_line key Hk), (name_line typ Ht), Hv.
  - rewrite writable_block, !andb_true_iff in Hw. destruct Hw as [[Hk _] Hws]. rewrite print_block. apply Forall_cons. split.
    + exists (ind +:+ key +:+ " {"). split; [by rewrite !app_assoc_s|]. by rewrite !has_char_app, Hi, (name_line key Hk).
    + apply Forall_app. split.
      * assert (Hi' : has_char "010" (ind +:+ "    ") = false) by (by rewrite has_char_app, Hi).
        induction IH as [|i l Hl IH IHl]; [constructor|]. cbn [all_writable] in Hws. apply andb_true_iff in Hws as [H1 H2].
        cbn [print_items]. apply Forall_app. split; [by apply Hl|by apply IHl].
      * apply Forall_singleton. exists (ind +:+ "}"). split; [by rewrite !app_assoc_s|]. by rewrite has_char_app, Hi.
  - cbn [writable] in Hw. apply negb_true_iff in Hw. apply Forall_singleton. exists (ind +:+ "#" +:+ text).
    split; [by rewrite !app_assoc_s|]. by rewrite !has_char_app, Hi, Hw.
Qed.

Lemma printed_items items : all_writable items = true -> Forall whole_line (print_items "" items).
Proof.
  induction items as [|i l IH]; [constructor|]. cbn [all_writable print_items]. intros [Hi Hl]%andb_true_iff.
  apply Forall_app. split; [by apply printed_lines|by apply IH].
Qed.

(** The text of a configuration. *)
Definition print (items : list Item) : string := text_of_lines (print_items "" items).

Section read.
Context {F S R : Type} `{Commands F S R}.
Context (modules : list (Module_ F)) (files : string -> option string).

Lemma read_printed items a confs s fuel :
  all_writable items = true -> all_fit modules items -> (enough items <= fuel)%nat ->
  parse_config modules files fuel a confs (file_lines (print items)) s =
    ('(b, s) ← exec_items modules items a confs s;
     if negb (is_sub_file b) && negb (arg_main_index b =? -1) then Err "" else Ok (b, [], s)).
Proof.
  intros Hw Ht Hn. unfold print. rewrite file_lines_text by by apply printed_items.
  rewrite <- (app_nil_r (print_items "" items)). unfold enough in Hn.
  rewrite (items_read modules files items "" a confs s []); [|apply Forall_true, parse_item|done|done|done|lia].
  destruct (fuel - length items)%nat as [|f] eqn:E; [lia|]. done.
Qed.

(** C7. A configuration is read as it was written, its errors included.  A
    file that holds the text of a tree of entries, blocks and comments has the
    reader run the commands of the tree in their order: each entry with its
    key, type and value, each block with its items between its command and what
    the command does at its end.  The reader comes to its end, leaves no line
    over, and fails where a command of the tree fails. *)
Theorem printed_configuration items name a confs s fuel :
  all_writable items = true -> all_fit modules items -> files name = Some (print items) -> (enough items <= fuel)%nat ->
  parse_config_file modules files fuel a name confs s =
    ('(b, s) ← exec_items modules items (in_file (is_sub_file a) (parent name) a) confs s;
     if negb (is_sub_file b) && negb (arg_main_index b =? -1) then Err "" else Ok (b, [], s)).
Proof. intros Hw Ht Hf Hn. unfold parse_config_file. rewrite Hf. by apply read_printed. Qed.
End read.
