(* ===== verification/ConfHeap.v ===== *)
(** The configurations of the [net] block as the program holds them: vectors
    of shared references to the configurations of the modules, one vector for
    the block, one for each [server] and one for each [local]
    ([any-proxy/src/config/net.rs], [net_server.rs], [net_local.rs],
    [net_local_core.rs]).  A reference is a place in a heap that only grows;
    what the other modules keep is an interface, [DataModules]. *)
From S2P Require Import Prelude RustStd ConfValue ConfModules ConfParse.
From S2P Require Var.
#[local] Open Scope string_scope.
#[local] Open Scope Z_scope.

Abbreviation Ref := nat.

(** [net_local_core::LocalRule] *)
Record LocalRule := mkLocalRule {
  rule_data : string;
  rule_filter : string;
  rule_regex : option string;
  rule_local : Ref;
}.

(** The modules whose commands touch their own configuration only: what they
    start from, what a command stores, and what a level takes from the one
    above, by the names of the module and of the command. *)
Class DataModules (D : Type) : Type := {
  create_data : string -> outcome D;
  set_data : string -> string -> Value -> D -> outcome D;
  merge_data : string -> option D -> D -> outcome D;
}.

(** The toml reader of the rules, the regular expressions, and the variables of
    a stream, looked up on the sample stream of [VAR_STREAM_INFO]. *)
Class RuleText : Type := {
  toml_rules : string -> outcome (list (string * string));
  regex_ok : string -> bool;
  sample_var : string -> outcome (option Var.VarAnyData);
}.

(** What a reference holds: a vector, the configuration of a head of a block, of
    [net_server], of [net_local], of [net_local_core], or of another module. *)
Inductive Obj (D : Type) : Type :=
  | OVec (refs : list Ref)
  | OHead (name : string) (confs sub_confs : list Ref)
  | OServer (net_confs server_confs sub_confs : list Ref)
  | OLocal (net_confs server_confs local_confs : list Ref)
  | OLocalCore (local_rules : list LocalRule) (full_match : option LocalRule) (name : string) (is_find_rule : bool)
  | OData (name : string) (d : D).
Arguments OVec {D} _.
Arguments OHead {D} _ _ _.
Arguments OServer {D} _ _ _.
Arguments OLocal {D} _ _ _.
Arguments OLocalCore {D} _ _ _ _.
Arguments OData {D} _ _.

(** The commands: the head of a block, [server], [local], [rule], [name], and a
    command of another module. *)
Inductive SetFn := SetHead | SetServer | SetLocal | SetRule | SetName | SetData (cmd : string).

(** The heap, the heads that can still be loaded, and [self.main_index]. *)
Record CState (D : Type) : Type := mkState { heap : list (Obj D); uninit : list Z; self_main : Z }.
Arguments mkState {D} _ _ _.
Arguments heap {D} _.
Arguments uninit {D} _.
Arguments self_main {D} _.

Section heap.
Context {D : Type} `{DataModules D} `{RuleText}.
Context (modules : list (Module_ SetFn)).
Implicit Types (h : list (Obj D)) (r : Ref) (a : ConfArg Ref).

Definition set_heap h (s : CState D) : CState D := mkState h (uninit s) (self_main s).

(** ** References: reading one at another type panics *)

Definition alloc (o : Obj D) h : Ref * list (Obj D) := (length h, (h ++ [o])%list).
Definition as_vec h r : outcome (list Ref) := o ← expect (h !! r); match o with OVec rs => Ok rs | _ => Panic end.
Definition as_head (name : string) h r : outcome (list Ref * list Ref) :=
  o ← expect (h !! r);
  match o with OHead n confs subs => if String.eqb n name then Ok (confs, subs) else Panic | _ => Panic end.
Definition as_server h r : outcome (list Ref * list Ref * list Ref) :=
  o ← expect (h !! r); match o with OServer n s l => Ok (n, s, l) | _ => Panic end.
Definition as_local h r : outcome (list Ref * list Ref * list Ref) :=
  o ← expect (h !! r); match o with OLocal n s l => Ok (n, s, l) | _ => Panic end.
Definition as_core h r : outcome (list LocalRule * option LocalRule * string * bool) :=
  o ← expect (h !! r); match o with OLocalCore rs full name found => Ok (rs, full, name, found) | _ => Panic end.
Definition as_data (name : string) h r : outcome D :=
  o ← expect (h !! r); match o with OData n d => if String.eqb n name then Ok d else Panic | _ => Panic end.

(** [crate::config::<name>::module()] *)
Definition module_named (name : string) : outcome (Module_ SetFn) :=
  expect (List.find (fun m => String.eqb (mod_name m) name) modules).

(** [Modules::get_currs_conf]: the place of a module's configuration. *)
Definition currs_conf (confs : list Ref) (name : string) : outcome Ref :=
  m ← module_named name;
  if (ctx_index_len m <=? 0) || (main_index m <? 0) || (ctx_index m <? 0) then Panic else vget confs (ctx_index m).

(** ** The configurations of a block *)

(** The [create_conf] of a module. *)
Definition create_conf (m : Module_ SetFn) : outcome (Obj D) :=
  let name := mod_name m in
  if creates m then Ok (OHead name [] [])
  else if String.eqb name "net_server" then Ok (OServer [] [] [])
  else if String.eqb name "net_local" then Ok (OLocal [] [] [])
  else if String.eqb name "net_local_core" then Ok (OLocalCore [] None "" false)
  else OData name <$> create_data name.

(** The loop that makes one configuration for each module of a block. *)
Fixpoint create_confs (typ : Z) (ms : list (Module_ SetFn)) h : outcome (list Ref * list (Obj D)) :=
  match ms with
  | [] => Ok ([], h)
  | m :: ms =>
      if negb (meets typ m) then create_confs typ ms h
      else
        o ← create_conf m;
        let '(r, h) := alloc o h in
        '(rs, h) ← create_confs typ ms h; Ok (r :: rs, h)
  end.

(** [create_main_confs] of a head. *)
Definition create_main_confs (m : Module_ SetFn) h : outcome (Ref * list (Obj D)) :=
  if ctx_index_len m <=? 0 then Panic
  else '(rs, h) ← create_confs (mod_typ m) modules h; Ok (alloc (OVec rs) h).

(** ** Commands that open a block *)

(** [net::net], [upstream::upstream], [common::common] and the like: the
    configurations of the block are there already. *)
Definition head_block (m : Module_ SetFn) a (conf : Ref) (s : CState D) : outcome (Step (CState D) Ref) :=
  if main_index m <? 0 then Panic
  else
    main_confs ← as_vec (heap s) conf;
    main_conf ← vget main_confs (main_index m);
    confs ← as_vec (heap s) main_conf;
    if ctx_index m <? 0 then Panic
    else
      r ← vget confs (ctx_index m);
      '(_, subs) ← as_head (mod_name m) (heap s) r;
      let s := set_heap (<[r := OHead (mod_name m) confs subs]> (heap s)) s in
      Ok (OpenBlock true (set_types (mod_typ m) CMD_CONF_TYPE_MAIN a) main_conf s Ok).

(** [net_server::server] *)
Definition server (m : Module_ SetFn) a (conf : Ref) (s : CState D) : outcome (Step (CState D) Ref) :=
  net_confs ← as_vec (heap s) conf;
  if ctx_index_len m <=? 0 then Panic
  else
    '(server_confs, h) ← create_confs MODULE_TYPE_NET modules (heap s);
    net ← module_named "net";
    net_conf ← vget net_confs (ctx_index net);
    '(nc, subs) ← as_head "net" h net_conf;
    server_conf ← vget server_confs (ctx_index m);
    '(_, _, sub_confs) ← as_server h server_conf;
    let h := <[server_conf := OServer net_confs server_confs sub_confs]> h in
    let h := <[net_conf := OHead "net" nc (subs ++ [server_conf])%list]> h in
    let '(server_confs_, h) := alloc (OVec server_confs) h in
    let a := set_last (curr_module_confs a) (set_types MODULE_TYPE_NET CMD_CONF_TYPE_SERVER a) in
    Ok (OpenBlock false a server_confs_ (set_heap h s) Ok).

(** The template of a rule, tried on the sample stream. *)
Definition try_template (data : string) : outcome unit :=
  p ← Var.var_parse data "-";
  match Var.for_each sample_var (Var.copy p) with
  | (Ok _, v) => _ ← Var.join v; Ok tt
  | (Err e, _) => Err e
  | (Panic, _) => Panic
  | (Fuel, _) => Fuel
  end.

(** [net_local::local], after its block: a [local] without a rule takes the
    place of the rule that matches all. *)
Definition local_end (local_confs_ : Ref) (s : CState D) : outcome (CState D) :=
  local_confs ← as_vec (heap s) local_confs_;
  r ← currs_conf local_confs "net_local_core";
  '(_, _, _, is_find_rule) ← as_core (heap s) r;
  if is_find_rule : bool then Ok s
  else
    l ← currs_conf local_confs "net_local";
    '(_, server_confs, _) ← as_local (heap s) l;
    c ← currs_conf server_confs "net_local_core";
    '(rules, full, name, found) ← as_core (heap s) c;
    match full with
    | Some _ => Err ""
    | None =>
        _ ← try_template "";
        let full := mkLocalRule "" "$$(.*)" None local_confs_ in
        Ok (set_heap (<[c := OLocalCore rules (Some full) name found]> (heap s)) s)
    end.

Definition local (m : Module_ SetFn) a (conf : Ref) (s : CState D) : outcome (Step (CState D) Ref) :=
  server_confs ← as_vec (heap s) conf;
  if ctx_index_len m <=? 0 then Panic
  else
    '(local_confs, h) ← create_confs MODULE_TYPE_NET modules (heap s);
    net_server ← module_named "net_server";
    server_conf ← vget server_confs (ctx_index net_server);
    '(net_confs, sc, subs) ← as_server h server_conf;
    local_conf ← vget local_confs (ctx_index m);
    _ ← as_local h local_conf;
    let h := <[local_conf := OLocal net_confs server_confs local_confs]> h in
    let h := <[server_conf := OServer net_confs sc (subs ++ [local_conf])%list]> h in
    let '(local_confs_, h) := alloc (OVec local_confs) h in
    let a := set_last (curr_module_confs a) (set_types MODULE_TYPE_NET CMD_CONF_TYPE_LOCAL a) in
    Ok (OpenBlock false a local_confs_ (set_heap h s) (local_end local_confs_)).

(** ** Commands of [net_local_core] *)

Definition add_rule (local_any c : Ref) h (rule : string * string) : outcome (list (Obj D)) :=
  let '(data, filter) := rule in
  _ ← try_template data;
  '(rules, full, name, found) ← as_core h c;
  let v := trim filter in
  if String.eqb v "" then Err ""
  else
    dollars ← (if 3 <=? slen v then p ← text_slice v 0 2; Ok (String.eqb p "$$") else Ok false);
    if dollars : bool then
      let v := sdrop 2 v in
      if String.eqb v "(.*)" then
        match full with
        | Some _ => Err ""
        | None => Ok (<[c := OLocalCore rules (Some (mkLocalRule data filter None local_any)) name found]> h)
        end
      else if negb (regex_ok v) then Err ""
      else Ok (<[c := OLocalCore (rules ++ [mkLocalRule data filter (Some v) local_any])%list full name found]> h)
    else Ok (<[c := OLocalCore (rules ++ [mkLocalRule data filter None local_any])%list full name found]> h).

Fixpoint add_rules (local_any c : Ref) h (rules : list (string * string)) : outcome (list (Obj D)) :=
  match rules with [] => Ok h | rule :: rules => h ← add_rule local_any c h rule; add_rules local_any c h rules end.

Definition text_value a : outcome string := match arg_value a with Some (VStr s) => Ok s | _ => Panic end.

Definition rule a (conf : Ref) (s : CState D) : outcome (Step (CState D) Ref) :=
  '(rs, full, name, _) ← as_core (heap s) conf;
  let h := <[conf := OLocalCore rs full name true]> (heap s) in
  str ← text_value a;
  rules ← toml_rules str;
  local_any ← expect (curr_module_confs a);
  confs ← as_vec h local_any;
  l ← currs_conf confs "net_local";
  '(_, server_confs, _) ← as_local h l;
  c ← currs_conf server_confs "net_local_core";
  _ ← as_core h c;
  h ← add_rules local_any c h rules;
  Ok (Done (set_heap h s)).

Definition name a (conf : Ref) (s : CState D) : outcome (Step (CState D) Ref) :=
  '(rs, full, _, found) ← as_core (heap s) conf;
  str ← text_value a;
  Ok (Done (set_heap (<[conf := OLocalCore rs full str found]> (heap s)) s)).

(** A command of another module. *)
Definition data_cmd (m : Module_ SetFn) (cmd : string) a (conf : Ref) (s : CState D) : outcome (Step (CState D) Ref) :=
  d ← as_data (mod_name m) (heap s) conf;
  v ← expect (arg_value a);
  d ← set_data (mod_name m) cmd v d;
  Ok (Done (set_heap (<[conf := OData (mod_name m) d]> (heap s)) s)).

Definition run_set (m : Module_ SetFn) (f : SetFn) a (conf : Ref) (s : CState D) : outcome (Step (CState D) Ref) :=
  match f with
  | SetHead => head_block m a conf s
  | SetServer => server m a conf s
  | SetLocal => local m a conf s
  | SetRule => rule a conf s
  | SetName => name a conf s
  | SetData cmd => data_cmd m cmd a conf s
  end.

#[export] Instance net_commands : Commands SetFn (CState D) Ref := {
  run_cmd := run_set;
  nth_conf s r i := rs ← as_vec (heap s) r; vget rs i;
  loadable s k := bool_decide (k ∈ uninit s);
  enter_main k s := mkState (heap s) (uninit s) k;
}.

(** ** After the reading *)

(** The [merge_conf] of a module, with the configuration above it if there is
    one: those of the structure do nothing. *)
Definition merge_conf (m : Module_ SetFn) (parent : option Ref) (child : Ref) h : outcome (list (Obj D)) :=
  let name := mod_name m in
  if creates m then _ ← (match parent with Some p => as_head name h p | None => Ok ([], []) end); _ ← as_head name h child; Ok h
  else if String.eqb name "net_server" then
    _ ← (match parent with Some p => as_server h p | None => Ok ([], [], []) end); _ ← as_server h child; Ok h
  else if String.eqb name "net_local" then
    _ ← (match parent with Some p => as_local h p | None => Ok ([], [], []) end); _ ← as_local h child; Ok h
  else if String.eqb name "net_local_core" then
    _ ← (match parent with Some p => as_core h p | None => Ok ([], None, "", false) end); _ ← as_core h child; Ok h
  else
    p ← (match parent with Some p => Some <$> as_data name h p | None => Ok None end);
    c ← as_data name h child;
    d ← merge_data name p c;
    Ok (<[child := OData name d]> h).

(** One level, the vectors of the level above if there is one. *)
Fixpoint merge_level (ms : list (Module_ SetFn)) (parents : option (list Ref)) (childs : list Ref) h : outcome (list (Obj D)) :=
  match ms with
  | [] => Ok h
  | m :: ms =>
      if negb (meets MODULE_TYPE_NET m) then merge_level ms parents childs h
      else
        p ← (match parents with Some ps => Some <$> vget ps (ctx_index m) | None => Ok None end);
        c ← vget childs (ctx_index m);
        h ← merge_conf m p c h;
        merge_level ms parents childs h
  end.

Fixpoint merge_locals (subs : list Ref) h : outcome (list (Obj D)) :=
  match subs with
  | [] => Ok h
  | l :: subs =>
      '(_, server_confs, local_confs) ← as_local h l;
      h ← merge_level modules (Some server_confs) local_confs h;
      merge_locals subs h
  end.

Fixpoint merge_servers (subs : list Ref) h : outcome (list (Obj D)) :=
  match subs with
  | [] => Ok h
  | v :: subs =>
      '(net_confs, server_confs, locals) ← as_server h v;
      h ← merge_level modules (Some net_confs) server_confs h;
      h ← merge_locals locals h;
      merge_servers subs h
  end.

(** [net::merge_confs] *)
Definition merge_confs (main_confs : Ref) h : outcome (list (Obj D)) :=
  net ← module_named "net";
  if main_index net <? 0 then Panic
  else
    mains ← as_vec h main_confs;
    main_conf ← vget mains (main_index net);
    net_confs ← as_vec h main_conf;
    h ← merge_level modules None net_confs h;
    if ctx_index net <? 0 then Panic
    else
      r ← vget net_confs (ctx_index net);
      '(_, subs) ← as_head "net" h r;
      merge_servers subs h.

(** [net_local_core::init_conf]: every server has a rule that matches all. *)
Fixpoint rules_complete (subs : list Ref) h : outcome unit :=
  match subs with
  | [] => Ok tt
  | v :: subs =>
      '(_, server_confs, _) ← as_server h v;
      c ← currs_conf server_confs "net_local_core";
      '(_, full, _, _) ← as_core h c;
      match full with None => Err "" | Some _ => rules_complete subs h end
  end.
End heap.

(** The cases of a call that came to an end: [E] says what it gave. *)
Ltac all_steps E :=
  repeat (match type of E with
          | mbind _ _ = _ => let x := fresh "x" in let Ex := fresh "Ex" in apply outcome_bind_ok in E as (x & Ex & E); clear Ex
          | match ?x with _ => _ end = _ => destruct x
          end; try discriminate E).
