(* ===== verification/ConfTree.v ===== *)
(** The [net] block as a tree, and the heap that holds it: reading a block
    and merging it give each [server] and each [local] the configurations the
    tree says, whatever else is on the heap. *)
From S2P Require Import Prelude RustStd ConfValue ConfModules ConfParse ConfText ConfHeap.
#[local] Open Scope string_scope.
#[local] Open Scope Z_scope.

(** ** The tree

    What the modules of a level hold, in the order of the modules; the
    structure's own modules are not counted. *)
Record ServerT (D : Type) : Type := mkServerT { s_data : list D; s_locals : list (list D) }.
Arguments mkServerT {D} _ _.
Arguments s_data {D} _.
Arguments s_locals {D} _.

Record NetT (D : Type) : Type := mkNetT { n_data : list D; n_servers : list (ServerT D) }.
Arguments mkNetT {D} _ _.
Arguments n_data {D} _.
Arguments n_servers {D} _.

(** The number of modules that make the structure: [net], [net_server],
    [net_local] and [net_local_core]. *)
Definition structural : nat := 4.

Section tree.
Context {D : Type} `{DataModules D} `{RuleText}.
Context (modules datas : list (Module_ SetFn)).
Implicit Types (h : list (Obj D)) (ds : list D).

(** ** What a file says: the tree its items build *)

Definition fresh : outcome (list D) := mapM (fun m => create_data (mod_name m)) datas.

(** An entry at the level [lvl]: its module's configuration changes. *)
Definition load_entry (lvl : Z) ds (key typ value : string) : outcome (list D) :=
  '(m, c) ← find_cmd MODULE_TYPE_NET lvl key modules;
  match cmd_set c with
  | SetData cmd =>
      v ← read_typed typ value;
      let i := (Z.to_nat (ctx_index m) - structural)%nat in
      d ← expect (ds !! i);
      d ← set_data (mod_name m) cmd v d;
      Ok (<[i := d]> ds)
  | _ => Ok ds
  end.

(** Whether a key opens a block of this kind at the level [lvl]. *)
Definition opens (f : SetFn) (lvl : Z) (key : string) : bool :=
  match find_cmd MODULE_TYPE_NET lvl key modules, f with
  | Ok (_, mkCmd _ SetServer _ _), SetServer => true
  | Ok (_, mkCmd _ SetLocal _ _), SetLocal => true
  | _, _ => false
  end.

Fixpoint load_local (items : list Item) ds : outcome (list D) :=
  match items with
  | [] => Ok ds
  | Note _ :: items => load_local items ds
  | Data key typ value :: items => ds ← load_entry CMD_CONF_TYPE_LOCAL ds key typ value; load_local items ds
  | Block _ _ :: _ => Err ""
  end.

Fixpoint load_server (items : list Item) (sv : ServerT D) : outcome (ServerT D) :=
  match items with
  | [] => Ok sv
  | Note _ :: items => load_server items sv
  | Data key typ value :: items =>
      ds ← load_entry CMD_CONF_TYPE_SERVER (s_data sv) key typ value;
      load_server items (mkServerT ds (s_locals sv))
  | Block key sub :: items =>
      if opens SetLocal CMD_CONF_TYPE_SERVER key then
        ds ← fresh;
        l ← load_local sub ds;
        load_server items (mkServerT (s_data sv) (s_locals sv ++ [l])%list)
      else Err ""
  end.

Fixpoint load_net (items : list Item) (t : NetT D) : outcome (NetT D) :=
  match items with
  | [] => Ok t
  | Note _ :: items => load_net items t
  | Data key typ value :: items =>
      ds ← load_entry CMD_CONF_TYPE_MAIN (n_data t) key typ value;
      load_net items (mkNetT ds (n_servers t))
  | Block key sub :: items =>
      if opens SetServer CMD_CONF_TYPE_MAIN key then
        ds ← fresh;
        sv ← load_server sub (mkServerT ds []);
        load_net items (mkNetT (n_data t) (n_servers t ++ [sv])%list)
      else Err ""
  end.

(** The top of a file: the [net] block, in one piece or in several. *)
Definition opens_net (key : string) : bool :=
  match find_cmd 0 0 key modules with
  | Ok (m, mkCmd _ SetHead _ _) => String.eqb (mod_name m) "net"
  | _ => false
  end.

Fixpoint load_main (items : list Item) (t : NetT D) : outcome (NetT D) :=
  match items with
  | [] => Ok t
  | Note _ :: items => load_main items t
  | Data _ _ _ :: _ => Err ""
  | Block key sub :: items =>
      if opens_net key then t ← load_net sub t; load_main items t else Err ""
  end.

(** ** What the levels take from one another *)

Fixpoint merge_datas (ms : list (Module_ SetFn)) (parents : option (list D)) ds : outcome (list D) :=
  match ms, ds with
  | m :: ms, d :: ds =>
      p ← (match parents with Some ps => Some <$> expect (ps !! 0%nat) | None => Ok None end);
      d ← merge_data (mod_name m) p d;
      ds ← merge_datas ms (tail <$> parents) ds; Ok (d :: ds)
  | _, _ => Ok []
  end.

Definition merge_server_t (main : list D) (sv : ServerT D) : outcome (ServerT D) :=
  ds ← merge_datas datas (Some main) (s_data sv);
  ls ← mapM (merge_datas datas (Some ds)) (s_locals sv);
  Ok (mkServerT ds ls).

Definition merge_net_t (t : NetT D) : outcome (NetT D) :=
  ds ← merge_datas datas None (n_data t);
  svs ← mapM (merge_server_t ds) (n_servers t);
  Ok (mkNetT ds svs).

(** ** What the heap holds *)

Definition view_level h (rs : list Ref) : outcome (list D) :=
  mapM (fun m => r ← vget rs (ctx_index m); as_data (mod_name m) h r) datas.
Definition view_local h r : outcome (list D) := '(_, _, lc) ← as_local h r; view_level h lc.
Definition view_server h r : outcome (ServerT D) :=
  '(_, sc, subs) ← as_server h r;
  ds ← view_level h sc;
  ls ← mapM (view_local h) subs;
  Ok (mkServerT ds ls).
Definition view_net h (main_confs : Ref) : outcome (NetT D) :=
  net ← module_named modules "net";
  mains ← as_vec h main_confs;
  main_conf ← vget mains (main_index net);
  confs ← as_vec h main_conf;
  ds ← view_level h confs;
  r ← vget confs (ctx_index net);
  '(_, subs) ← as_head "net" h r;
  svs ← mapM (view_server h) subs;
  Ok (mkNetT ds svs).
End tree.

(** ** Objects up to what [net_local_core] holds *)

Section same.
Context {D : Type}.
Implicit Types (o : Obj D) (h : list (Obj D)).

Definition same_obj o o' : Prop :=
  match o, o' with OLocalCore _ _ _ _, OLocalCore _ _ _ _ => True | _, _ => o = o' end.

#[export] Instance same_obj_equiv : Equivalence same_obj.
Proof.
  split.
  - by intros [].
  - intros [] []; cbn; congruence.
  - intros [] [] []; cbn; congruence.
Qed.

(** The objects [l] lie in [h] from the place [n] on. *)
Definition at_ h (n : nat) (l : list (Obj D)) : Prop :=
  forall i o, l !! i = Some o -> exists o', h !! (n + i)%nat = Some o' /\ same_obj o' o.

(** Nothing changes between [lo] and [hi], up to what [net_local_core] holds. *)
Definition kept (lo hi : nat) h h' : Prop :=
  forall i o, (lo <= i < hi)%nat -> h !! i = Some o -> exists o', h' !! i = Some o' /\ same_obj o' o.

Lemma kept_refl lo hi h : kept lo hi h h.
Proof. intros i o _ Ho. by exists o. Qed.

Lemma heap_kept_trans lo hi h1 h2 h3 : kept lo hi h1 h2 -> kept lo hi h2 h3 -> kept lo hi h1 h3.
Proof.
  intros H1 H2 i o Hi Ho. destruct (H1 i o Hi Ho) as (o2 & E2 & S2). destruct (H2 i o2 Hi E2) as (o3 & E3 & S3).
  exists o3. split; [done|]. by transitivity o2.
Qed.

Lemma kept_weaken lo hi lo' hi' h h' : kept lo hi h h' -> (lo <= lo')%nat -> (hi' <= hi)%nat -> kept lo' hi' h h'.
Proof. intros Hk H1 H2 i o Hi. apply Hk. lia. Qed.

Lemma at_kept h h' n l lo hi :
  at_ h n l -> kept lo hi h h' -> (lo <= n)%nat -> (n + length l <= hi)%nat -> at_ h' n l.
Proof.
  intros Ha Hk H1 H2 i o Hi. pose proof (lookup_lt_Some _ _ _ Hi). destruct (Ha i o Hi) as (o1 & E1 & S1).
  destruct (Hk (n + i)%nat o1 ltac:(lia) E1) as (o2 & E2 & S2). exists o2. split; [done|]. by transitivity o1.
Qed.

Lemma kept_insert lo hi h n o o' : h !! n = Some o -> (n < lo)%nat \/ (hi <= n)%nat \/ same_obj o' o -> kept lo hi h (<[n := o']> h).
Proof.
  intros Hn Hc i x Hi Hx. destruct (decide (i = n)) as [->|Hne].
  - exists o'. split; [apply list_lookup_insert_eq; by apply lookup_lt_Some in Hn|]. destruct Hc as [|[|Hc]]; [lia..|]. congruence.
  - exists x. split; [|reflexivity]. by rewrite list_lookup_insert_ne.
Qed.

Lemma kept_app lo hi h k : kept lo hi h (h ++ k)%list.
Proof. intros i o _ Ho. exists o. split; [by apply lookup_app_l_Some|reflexivity]. Qed.

Lemma at_insert h n l i o :
  at_ h n l -> (i < length l)%nat -> at_ (<[(n + i)%nat := o]> h) n (<[i := o]> l).
Proof.
  intros Ha Hi j x Hj. apply list_lookup_insert_Some in Hj as [(<- & <- & _)|[Hne Hj]].
  - exists o. split; [|reflexivity]. apply list_lookup_insert_eq.
    destruct (lookup_lt_is_Some_2 l i Hi) as [y Hy]. destruct (Ha i y Hy) as (o' & E & _). by apply lookup_lt_Some in E.
  - rewrite list_lookup_insert_ne by lia. by apply Ha.
Qed.

Lemma at_app h l : at_ (h ++ l)%list (length h) l.
Proof. intros i o Hi. exists o. split; [|reflexivity]. rewrite lookup_app_r by lia. by rewrite Nat.add_comm, Nat.add_sub. Qed.
End same.
