(* ===== verification/ConfBuild.v ===== *)
(** Reading a [net] block puts the tree of its items on the heap. *)
From S2P Require Import Prelude RustStd ConfValue ConfModules ConfParse ConfText ConfHeap ConfTree.
#[local] Open Scope string_scope.
#[local] Open Scope Z_scope.

(** The modules of the [net] block, numbered: its structure first. *)
Record NetModules (modules datas : list (Module_ SetFn)) (net net_server net_local net_local_core : Module_ SetFn) : Prop := {
  nm_block : filter (fun m => meets MODULE_TYPE_NET m) modules = ([net; net_server; net_local; net_local_core] ++ datas)%list;
  nm_ctx : forall i m, ([net; net_server; net_local; net_local_core] ++ datas)%list !! i = Some m ->
    ctx_index m = Z.of_nat i /\ ctx_index_len m = Z.of_nat (4 + length datas) /\ main_index m = main_index net;
  nm_main : 0 <= main_index net;
  nm_net : module_named modules "net" = Ok net /\ mod_name net = "net" /\ creates net = true;
  nm_server : module_named modules "net_server" = Ok net_server /\ mod_name net_server = "net_server" /\ creates net_server = false;
  nm_local : module_named modules "net_local" = Ok net_local /\ mod_name net_local = "net_local" /\ creates net_local = false;
  nm_core : module_named modules "net_local_core" = Ok net_local_core /\ mod_name net_local_core = "net_local_core" /\ creates net_local_core = false;
  nm_cmds : forall m c cmd, m ∈ modules -> c ∈ cmds m -> cmd_set c = SetData cmd -> cmd_typ c = CMD_TYPE_DATA;
  nm_blocks : forall m c, m ∈ modules -> c ∈ cmds m ->
    (cmd_set c = SetServer -> cmd_typ c = CMD_TYPE_SUB /\ m = net_server) /\
    (cmd_set c = SetLocal -> cmd_typ c = CMD_TYPE_SUB /\ m = net_local);
  nm_heads : forall m c, m ∈ modules -> c ∈ cmds m -> cmd_set c = SetHead ->
    cmd_typ c = CMD_TYPE_MAIN /\ (mod_name m = "net" -> m = net);
  nm_type : mod_typ net = MODULE_TYPE_NET;
  nm_structure : forall m c cmd, m ∈ [net; net_server; net_local; net_local_core] -> c ∈ cmds m -> cmd_set c <> SetData cmd;
  nm_datas : forall m, m ∈ datas -> creates m = false /\ mod_name m ∉ ["net_server"; "net_local"; "net_local_core"];
}.

Section build.
Context {D : Type} `{DataModules D} `{RuleText}.
Context {modules datas : list (Module_ SetFn)} {net net_server net_local net_local_core : Module_ SetFn}.
Context (NM : NetModules modules datas net net_server net_local net_local_core).
Implicit Types (h : list (Obj D)) (ds : list D).
#[local] Instance these_commands : Commands SetFn (CState D) Ref := net_commands modules.

(** ** A level on the heap

    Its configurations lie one after the other, and then their vector. *)
Definition size : nat := (4 + length datas)%nat.
Definition refs (n : nat) : list Ref := seq n size.
Definition data_objs ds : list (Obj D) := zip_with (fun m d => OData (mod_name m) d) datas ds.
Definition core0 : Obj D := OLocalCore [] None "" false.
Definition confs (o0 o1 o2 : Obj D) ds : list (Obj D) := ([o0; o1; o2; core0] ++ data_objs ds)%list.
Definition level (o0 o1 o2 : Obj D) ds (n : nat) : list (Obj D) := (confs o0 o1 o2 ds ++ [OVec (refs n)])%list.

Lemma data_objs_length ds : length ds = length datas -> length (data_objs ds) = length datas.
Proof. intros E. unfold data_objs. rewrite length_zip_with. lia. Qed.

Lemma confs_length o0 o1 o2 ds : length ds = length datas -> length (confs o0 o1 o2 ds) = size.
Proof. intros E. unfold confs, size. rewrite length_app, data_objs_length by done. done. Qed.

Lemma level_length o0 o1 o2 ds n : length ds = length datas -> length (level o0 o1 o2 ds n) = S size.
Proof. intros E. unfold level. rewrite length_app, confs_length by done. cbn. lia. Qed.

Lemma level_vec h o0 o1 o2 ds n : length ds = length datas -> at_ h n (level o0 o1 o2 ds n) -> h !! (n + size)%nat = Some (OVec (refs n)).
Proof.
  intros E Ha. destruct (Ha size (OVec (refs n))) as (o & Ho & Hs).
  - unfold level. rewrite lookup_app_r; rewrite confs_length by done; [|lia]. by rewrite Nat.sub_diag.
  - destruct o; cbn [same_obj] in Hs; congruence.
Qed.

Lemma level_data h o0 o1 o2 ds n i m d :
  at_ h n (level o0 o1 o2 ds n) -> datas !! i = Some m -> ds !! i = Some d -> h !! (n + (4 + i))%nat = Some (OData (mod_name m) d).
Proof.
  intros Ha Hm Hd. destruct (Ha (4 + i)%nat (OData (mod_name m) d)) as (o & Ho & Hs).
  - unfold level, confs. apply lookup_app_l_Some. rewrite lookup_app_r by (cbn; lia).
    cbn [length]. rewrite Nat.add_comm, Nat.add_sub. unfold data_objs. by rewrite lookup_zip_with, Hm, Hd.
  - destruct o; cbn [same_obj] in Hs; congruence.
Qed.

Lemma level_set h o0 o1 o2 ds n i m d :
  length ds = length datas -> at_ h n (level o0 o1 o2 ds n) -> datas !! i = Some m ->
  at_ (<[(n + (4 + i))%nat := OData (mod_name m) d]> h) n (level o0 o1 o2 (<[i := d]> ds) n).
Proof.
  intros E Ha Hm. apply lookup_lt_Some in Hm as Hi.
  replace (level o0 o1 o2 (<[i := d]> ds) n) with (<[(4 + i)%nat := OData (mod_name m) d]> (level o0 o1 o2 ds n)).
  - apply at_insert; [done|]. rewrite level_length by done. unfold size. lia.
  - unfold level, confs. rewrite insert_app_l by (rewrite length_app, data_objs_length by done; cbn; lia). f_equal.
    cbn [app Nat.add insert list_insert]. do 4 f_equal. unfold data_objs.
    clear -Hm. revert i ds Hm. induction datas as [|m' ms IH]; intros [|i] [|d' ds] Hm; try done; cbn in Hm |- *; [congruence|]. f_equal. by apply IH.
Qed.

Lemma refs_lookup n i : (i < size)%nat -> refs n !! i = Some (n + i)%nat.
Proof. intros Hi. unfold refs. rewrite lookup_seq. lia. Qed.

(** ** Making a level *)

Lemma create_confs_block ms : forall h rs h',
  create_confs MODULE_TYPE_NET ms h = Ok (rs, h') ->
  exists os, Forall2 (fun m o => create_conf m = Ok o) (filter (fun m => meets MODULE_TYPE_NET m) ms) os /\
    rs = seq (length h) (length os) /\ h' = (h ++ os)%list.
Proof.
  induction ms as [|m ms IH]; intros h rs h' E.
  - injection E as <- <-. exists []. split; [constructor|]. by rewrite app_nil_r.
  - cbn [create_confs] in E. rewrite filter_cons. destruct (meets MODULE_TYPE_NET m); cbn [negb] in E.
    + apply outcome_bind_ok in E as (o & Eo & E). unfold alloc in E.
      apply outcome_bind_ok in E as ([rs1 h1] & E1 & E). injection E as <- <-.
      destruct (IH _ _ _ E1) as (os & Hos & -> & ->). exists (o :: os).
      destruct (decide True); [|tauto]. split; [by constructor|]. split; [|by rewrite <- app_assoc].
      rewrite length_app. cbn [length seq]. f_equal. f_equal. lia.
    + destruct (decide False); [tauto|]. by apply IH.
Qed.

Lemma create_data_conf m : m ∈ datas -> create_conf (D := D) m = OData (mod_name m) <$> create_data (mod_name m).
Proof.
  intros Hm. destruct (nm_datas _ _ _ _ _ _ NM m Hm) as [Hc Hn]. unfold create_conf. rewrite Hc.
  destruct (String.eqb_spec (mod_name m) "net_server") as [E|]; [rewrite E in Hn; set_solver|].
  destruct (String.eqb_spec (mod_name m) "net_local") as [E|]; [rewrite E in Hn; set_solver|].
  destruct (String.eqb_spec (mod_name m) "net_local_core") as [E|]; [rewrite E in Hn; set_solver|]. done.
Qed.

Lemma create_level h rs h' ds :
  create_confs MODULE_TYPE_NET modules h = Ok (rs, h') -> fresh datas = Ok ds ->
  rs = refs (length h) /\ h' = (h ++ confs (OHead "net" [] []) (OServer [] [] []) (OLocal [] [] []) ds)%list /\ length ds = length datas.
Proof.
  intros E Ef. apply create_confs_block in E as (os & Hos & -> & ->). rewrite (nm_block _ _ _ _ _ _ NM) in Hos.
  apply Forall2_app_inv_l in Hos as (os1 & os2 & H1 & H2 & ->).
  destruct (nm_net _ _ _ _ _ _ NM) as (_ & N1 & C1). destruct (nm_server _ _ _ _ _ _ NM) as (_ & N2 & C2).
  destruct (nm_local _ _ _ _ _ _ NM) as (_ & N3 & C3). destruct (nm_core _ _ _ _ _ _ NM) as (_ & N4 & C4).
  repeat match goal with X : Forall2 _ (_ :: _) _ |- _ => apply Forall2_cons_inv_l in X as (? & ? & ? & X & ->) end.
  apply Forall2_nil_inv_l in H1 as ->.
  unfold create_conf in *. rewrite C1, N1 in *. rewrite C2, N2 in *. rewrite C3, N3 in *. rewrite C4, N4 in *. cbn in *.
  simplify_eq.
  assert (os2 = data_objs ds /\ length ds = length datas) as [-> Hlen].
  { clear -NM Ef H2. unfold fresh, data_objs in *.
    assert (Hsub : forall m, m ∈ datas -> m ∈ datas) by done. revert Hsub Ef H2. generalize datas at 1 3 4 5 6.
    intros l. revert ds os2. induction l as [|m l IH]; intros ds os2 Hsub Ef H2.
    - apply Forall2_nil_inv_l in H2 as ->. injection Ef as <-. done.
    - apply Forall2_cons_inv_l in H2 as (o & os & Ho & H2 & ->). cbn [mapM] in Ef.
      apply outcome_bind_ok in Ef as (d & Ed & Ef). apply outcome_bind_ok in Ef as (ds1 & E1 & Ef). injection Ef as <-.
      fold (create_conf (D := D) m) in Ho. rewrite create_data_conf in Ho by (apply Hsub; left). rewrite Ed in Ho. injection Ho as <-.
      destruct (IH ds1 os) as [-> Hl]; [intros; apply Hsub; by right|done..|]. cbn. by rewrite Hl. }
  split; [|split; [|done]].
  - unfold refs, size. by rewrite data_objs_length.
  - done.
Qed.

(** ** Steps that write only what [net_local_core] holds *)

Definition quiet h h' : Prop := length h' = length h /\ forall lo hi, kept lo hi h h'.

Lemma quiet_refl h : quiet h h.
Proof. split; [done|]. intros. apply kept_refl. Qed.

Lemma quiet_trans h1 h2 h3 : quiet h1 h2 -> quiet h2 h3 -> quiet h1 h3.
Proof. intros [L1 K1] [L2 K2]. split; [congruence|]. intros. by eapply heap_kept_trans. Qed.

Lemma quiet_core h r x rules full nm found : as_core h r = Ok x -> quiet h (<[r := OLocalCore rules full nm found]> h).
Proof.
  unfold as_core. destruct (h !! r) as [o|] eqn:E; [|done]. cbn [expect mbind outcome_bind].
  destruct o; try done. intros _. split; [by rewrite length_insert|]. intros lo hi. eapply kept_insert; [exact E|]. by right; right.
Qed.

Lemma quiet_at h h' n l : quiet h h' -> at_ h n l -> at_ h' n l.
Proof. intros [_ K] Ha. eapply at_kept; [exact Ha|apply (K 0%nat (n + length l)%nat)|lia|lia]. Qed.

Lemma add_rule_quiet la c h r h' : add_rule la c h r = Ok h' -> quiet h h'.
Proof.
  destruct r as [data flt]. unfold add_rule. intros E. apply outcome_bind_ok in E as ([] & _ & E).
  apply outcome_bind_ok in E as ([[[rules full] nm] found] & Hc & E).
  destruct (String.eqb _ ""); [done|]. apply outcome_bind_ok in E as (b & _ & E). destruct b.
  - destruct (String.eqb _ _).
    + destruct full; [done|]. injection E as <-. by eapply quiet_core.
    + destruct (negb _); [done|]. injection E as <-. by eapply quiet_core.
  - injection E as <-. by eapply quiet_core.
Qed.

Lemma add_rules_quiet la c rules : forall h h', add_rules la c h rules = Ok h' -> quiet h h'.
Proof.
  induction rules as [|r rules IH]; intros h h' E; cbn [add_rules] in E; [injection E as <-; apply quiet_refl|].
  apply outcome_bind_ok in E as (h1 & E1 & E). eapply quiet_trans; [by eapply add_rule_quiet|by apply IH].
Qed.

Lemma rule_quiet a r s st : rule (D := D) modules a r s = Ok st -> exists s', st = Done s' /\ quiet (heap s) (heap s').
Proof.
  unfold rule. intros E. apply outcome_bind_ok in E as ([[[rs full] nm] fd] & Hc & E).
  apply outcome_bind_ok in E as (str & _ & E). apply outcome_bind_ok in E as (rules & _ & E).
  apply outcome_bind_ok in E as (la & _ & E). apply outcome_bind_ok in E as (cs & _ & E).
  apply outcome_bind_ok in E as (l & _ & E). apply outcome_bind_ok in E as ([[nc sc] lc] & _ & E).
  apply outcome_bind_ok in E as (c & _ & E). apply outcome_bind_ok in E as ([[[r1 f1] n1] d1] & _ & E).
  apply outcome_bind_ok in E as (h1 & E1 & E). injection E as <-. eexists. split; [done|]. cbn [heap set_heap].
  eapply quiet_trans; [by eapply quiet_core|by eapply add_rules_quiet].
Qed.

Lemma name_quiet a r s st : name (D := D) a r s = Ok st -> exists s', st = Done s' /\ quiet (heap s) (heap s').
Proof.
  unfold name. intros E. apply outcome_bind_ok in E as ([[[rs full] nm] fd] & Hc & E).
  apply outcome_bind_ok in E as (str & _ & E). injection E as <-. eexists. split; [done|]. by eapply quiet_core.
Qed.

Lemma local_end_quiet r s s' : local_end modules r s = Ok s' -> quiet (heap s) (heap s') /\ uninit s' = uninit s.
Proof.
  unfold local_end. intros E. apply outcome_bind_ok in E as (lc & _ & E). apply outcome_bind_ok in E as (c1 & _ & E).
  apply outcome_bind_ok in E as ([[[r0 f0] n0] found] & _ & E). destruct found; [injection E as <-; split; [apply quiet_refl|done]|].
  apply outcome_bind_ok in E as (l & _ & E). apply outcome_bind_ok in E as ([[nc sc] lc'] & _ & E).
  apply outcome_bind_ok in E as (c & _ & E). apply outcome_bind_ok in E as ([[[rs full] nm] fd] & Hc & E).
  destruct full; [done|]. apply outcome_bind_ok in E as (u & _ & E). injection E as <-. split; [|done]. by eapply quiet_core.
Qed.

(** ** Entries *)

Lemma find_in_cmds_in ct key (cs : list (Cmd SetFn)) c : find_in_cmds ct key cs = Ok (Some c) -> c ∈ cs.
Proof.
  induction cs as [|c' cs IH]; [done|]. cbn [find_in_cmds]. destruct (negb _); [intros E; right; by apply IH|].
  destruct (_ && _); [done|]. intros [= ->]. left.
Qed.

Lemma find_cmd_in mt ct key (ms : list (Module_ SetFn)) m c :
  find_cmd mt ct key ms = Ok (m, c) -> m ∈ ms /\ c ∈ cmds m /\ (0 < mt -> Z.land mt (mod_typ m) <> 0).
Proof.
  induction ms as [|m' ms IH]; [done|]. cbn [find_cmd].
  assert (Hskip : find_cmd mt ct key ms = Ok (m, c) -> m ∈ m' :: ms /\ c ∈ cmds m /\ (0 < mt -> Z.land mt (mod_typ m) <> 0)).
  { intros E. destruct (IH E) as (H1 & H2 & H3). split; [by right|done]. }
  destruct (_ && _) eqn:Ec; [done|]. intros E. apply outcome_bind_ok in E as ([c'|] & Ef & E); [|by apply Hskip].
  injection E as <- <-. split; [left|]. split; [by eapply find_in_cmds_in|]. intros Hmt.
  destruct (Z.ltb_spec 0 mt); [|lia]. cbn in Ec. by apply Z.eqb_neq.
Qed.

(** The module of a command found in the block. *)
Lemma find_net ct key m c :
  find_cmd MODULE_TYPE_NET ct key modules = Ok (m, c) ->
  exists i, ([net; net_server; net_local; net_local_core] ++ datas)%list !! i = Some m /\ (i < size)%nat /\ ctx_index m = Z.of_nat i /\ m ∈ modules /\ c ∈ cmds m.
Proof.
  intros E. apply find_cmd_in in E as (Hm & Hc & Hl). specialize (Hl ltac:(done)).
  assert (Hb : m ∈ ([net; net_server; net_local; net_local_core] ++ datas)%list).
  { rewrite <- (nm_block _ _ _ _ _ _ NM). apply list_elem_of_filter. split; [|done].
    unfold meets. rewrite Z.land_comm. by destruct (Z.eqb_spec (Z.land MODULE_TYPE_NET (mod_typ m)) 0). }
  apply list_elem_of_lookup in Hb as [i Hi]. exists i. split; [done|]. destruct (nm_ctx _ _ _ _ _ _ NM i m Hi) as [Hx _].
  apply lookup_lt_Some in Hi. rewrite length_app in Hi. unfold size. cbn in Hi. split; [lia|done].
Qed.

Definition arg_at (lvl : Z) (a : ConfArg Ref) : Prop :=
  module_type a = MODULE_TYPE_NET /\ cmd_conf_type a = lvl /\ is_block a = false.

(** A command that opens no block, run on the vector of a level, touches
    nothing: it finds a type it does not expect. *)
Lemma run_on_vec m f a r s s' rs : heap s !! r = Some (OVec rs) -> run_set modules m f a r s <> Ok (Done s').
Proof.
  intros Hr E. destruct f; cbn [run_set] in E; unfold head_block, server, local, rule, name, data_cmd, as_vec, as_core, as_data, as_head, as_server, as_local, alloc in E;
    rewrite ?Hr in E; cbn [expect mbind outcome_bind] in E; try discriminate E; all_steps E.
Qed.

Lemma nth_level (s : CState D) n o0 o1 o2 ds i :
  length ds = length datas -> at_ (heap s) n (level o0 o1 o2 ds n) -> (i < size)%nat ->
  (rs ← as_vec (heap s) (n + size)%nat; vget rs (Z.of_nat i)) = Ok (n + i)%nat.
Proof.
  intros E Ha Hi. unfold as_vec. rewrite (level_vec _ _ _ _ _ _ E Ha). cbn [expect mbind outcome_bind].
  apply vget_ok. split; [lia|]. rewrite Nat2Z.id. by apply refs_lookup.
Qed.

(** What an entry changes at a level: the data of one module at most. *)
Definition entry_step n h h' : Prop :=
  length h' = length h /\ forall lo hi, ((hi <= n + 4)%nat \/ (n + size <= lo)%nat) -> kept lo hi h h'.

Lemma entry_step_trans n h1 h2 h3 : entry_step n h1 h2 -> entry_step n h2 h3 -> entry_step n h1 h3.
Proof. intros [L1 K1] [L2 K2]. split; [congruence|]. intros lo hi Hc. eapply heap_kept_trans; [by apply K1|by apply K2]. Qed.

Lemma entry_step_refl n h : entry_step n h h.
Proof. split; [done|]. intros. apply kept_refl. Qed.

Lemma quiet_entry n h h' : quiet h h' -> entry_step n h h'.
Proof. intros [L K]. split; [done|]. intros. apply K. Qed.

Lemma run_data lvl a n (s : CState D) key typ value a' s' o0 o1 o2 ds ds' :
  arg_at lvl a -> length ds = length datas -> at_ (heap s) n (level o0 o1 o2 ds n) ->
  run_entry modules a (n + size)%nat s key typ value = Ok (a', Done s') ->
  load_entry modules lvl ds key typ value = Ok ds' ->
  at_ (heap s') n (level o0 o1 o2 ds' n) /\ length ds' = length datas /\ entry_step n (heap s) (heap s') /\
  arg_at lvl a'.
Proof.
  intros (A1 & A2 & A3) Hlen Ha Hrun Hload. pose proof (level_vec _ _ _ _ _ _ Hlen Ha) as Hvec.
  unfold run_entry in Hrun. unfold load_entry in Hload. rewrite A1, A2 in Hrun.
  apply outcome_bind_ok in Hrun as ([m c] & Hf & Hrun). rewrite Hf in Hload. cbn [mbind outcome_bind] in Hload.
  destruct (find_net _ _ _ _ Hf) as (i & Hi & Hsz & Hctx & Hm & Hc).
  destruct (cmd_typ c =? CMD_TYPE_MAIN) eqn:T1.
  { destruct (negb _); [done|]. apply outcome_bind_ok in Hrun as (st & Hst & Hrun). injection Hrun as <- ->.
    by apply run_on_vec with (rs := refs n) in Hst. }
  destruct (cmd_typ c =? CMD_TYPE_SUB) eqn:T2.
  { apply outcome_bind_ok in Hrun as (st & Hst & Hrun). injection Hrun as <- ->. by apply run_on_vec with (rs := refs n) in Hst. }
  apply outcome_bind_ok in Hrun as (a1 & Ha1 & Hrun).
  assert (Hat : arg_at lvl a1 /\ (cmd_typ c <> CMD_TYPE_BLOCK -> exists v, read_typed typ value = Ok v /\ arg_value a1 = Some v)).
  { destruct (cmd_typ c =? CMD_TYPE_BLOCK) eqn:T3.
    - injection Ha1 as <-. split; [done|]. apply Z.eqb_eq in T3. done.
    - apply outcome_bind_ok in Ha1 as (v & Hv & Ha1). injection Ha1 as <-. split; [done|]. intros _. by exists v. }
  destruct Hat as [(B1 & B2 & B3) Hval]. rewrite B3 in Hrun. cbn [nth_conf these_commands net_commands] in Hrun.
  rewrite Hctx, (nth_level s n o0 o1 o2 ds) in Hrun by done. cbn [mbind outcome_bind] in Hrun.
  apply outcome_bind_ok in Hrun as (st & Hst & Hrun). injection Hrun as <- ->.
  assert (Hcommon : arg_at lvl (set_curr (n + size)%nat a1)) by done.
  destruct (cmd_set c) as [| | | | |cmd] eqn:Ec; cbn [run_cmd these_commands net_commands run_set] in Hst.
  - unfold head_block in Hst. all_steps Hst.
  - unfold server, alloc in Hst. all_steps Hst.
  - unfold local, alloc in Hst. all_steps Hst.
  - apply rule_quiet in Hst as (s1 & [= <-] & Hq). injection Hload as <-.
    split; [by eapply quiet_at|]. split; [done|]. split; [by apply quiet_entry|done].
  - apply name_quiet in Hst as (s1 & [= <-] & Hq). injection Hload as <-.
    split; [by eapply quiet_at|]. split; [done|]. split; [by apply quiet_entry|done].
  - destruct Hval as (v & Hv & Hav). { rewrite (nm_cmds _ _ _ _ _ _ NM m c cmd Hm Hc Ec). done. }
    unfold data_cmd in Hst. apply outcome_bind_ok in Hst as (d & Hd & Hst). cbn [set_curr arg_value] in Hst.
    rewrite Hav in Hst. cbn [expect mbind outcome_bind] in Hst. apply outcome_bind_ok in Hst as (d' & Hd' & Hst).
    injection Hst as <-. cbn [heap set_heap]. rewrite Hv in Hload. cbn [mbind outcome_bind] in Hload.
    apply outcome_bind_ok in Hload as (x & Hx & Hload). apply outcome_bind_ok in Hload as (y & Hy & Hload). injection Hload as <-.
    rewrite Hctx, Nat2Z.id in Hx |- *. destruct (ds !! (i - structural)%nat) as [x'|] eqn:Ex; [|done]. injection Hx as ->.
    destruct (decide (i < 4)%nat) as [Hlt|Hge].
    { exfalso. rewrite lookup_app_l in Hi by (cbn; lia). apply list_elem_of_lookup_2 in Hi.
      by apply (nm_structure _ _ _ _ _ _ NM m c cmd Hi Hc). }
    rewrite lookup_app_r in Hi by (cbn; lia). cbn [length] in Hi. unfold structural in *.
    assert (Hn : (n + i)%nat = (n + (4 + (i - 4)))%nat) by lia. rewrite Hn in *.
    pose proof (level_data _ _ _ _ _ _ _ _ _ Ha Hi Ex) as Ho. unfold as_data in Hd. rewrite Ho in Hd. cbn [expect mbind outcome_bind] in Hd.
    rewrite String.eqb_refl in Hd. injection Hd as <-. rewrite Hy in Hd'. injection Hd' as <-.
    split; [by apply level_set|]. split; [by rewrite length_insert|]. split; [|done].
    split; [by rewrite length_insert|]. intros lo hi Hc'. eapply kept_insert; [exact Ho|]. unfold size in *. lia.
Qed.

(** ** The levels of the tree on the heap

    A [local] made at the place [n] under the server made at [sb]; the
    [local]s of a server, one after the other between [lo] and [hi]; and the
    same for the servers. *)
Definition local_at h (n sb : nat) ds : Prop :=
  length ds = length datas /\ exists o0 o1 nc, at_ h n (level o0 o1 (OLocal nc (refs sb) (refs n)) ds n).

Fixpoint locals_at h (sb lo : nat) (rs : list Ref) (ls : list (list D)) (hi : nat) : Prop :=
  match rs, ls with
  | [], [] => (lo <= hi)%nat
  | r :: rs, l :: ls => exists n, (lo <= n)%nat /\ r = (n + 2)%nat /\ local_at h n sb l /\ locals_at h sb (n + S size) rs ls hi
  | _, _ => False
  end.

Definition server_at h (n hi mb : nat) (subs : list Ref) (sv : ServerT D) : Prop :=
  length (s_data sv) = length datas /\
  (exists o0 o2, at_ h n (level o0 (OServer (refs mb) (refs n) subs) o2 (s_data sv) n)) /\
  locals_at h n (n + S size) subs (s_locals sv) hi.

Fixpoint servers_at h (mb lo : nat) (rs : list Ref) (svs : list (ServerT D)) (hi : nat) : Prop :=
  match rs, svs with
  | [], [] => (lo <= hi)%nat
  | r :: rs, sv :: svs => exists n m subs, (lo <= n)%nat /\ r = (n + 1)%nat /\ server_at h n m mb subs sv /\ servers_at h mb m rs svs hi
  | _, _ => False
  end.

Lemma locals_le h sb : forall rs ls lo hi, locals_at h sb lo rs ls hi -> (lo <= hi)%nat.
Proof.
  induction rs as [|r rs IH]; intros [|l ls] lo hi Hl; try done. destruct Hl as (n & H1 & _ & _ & Hl).
  apply IH in Hl. lia.
Qed.

Lemma servers_le h mb : forall rs svs lo hi, servers_at h mb lo rs svs hi -> (lo <= hi)%nat.
Proof.
  induction rs as [|r rs IH]; intros [|l ls] lo hi Hl; try done. destruct Hl as (n & m & subs & H1 & _ & (_ & _ & Hs) & Hl).
  apply IH in Hl. apply locals_le in Hs. lia.
Qed.

Lemma local_kept h h' n sb ds lo hi : local_at h n sb ds -> kept lo hi h h' -> (lo <= n)%nat -> (n + S size <= hi)%nat -> local_at h' n sb ds.
Proof.
  intros (Hl & o0 & o1 & nc & Ha) Hk H1 H2. split; [done|]. exists o0, o1, nc.
  eapply at_kept; [exact Ha|exact Hk|done|by rewrite level_length].
Qed.

Lemma locals_kept h h' sb : forall rs ls lo hi, locals_at h sb lo rs ls hi -> kept lo hi h h' -> locals_at h' sb lo rs ls hi.
Proof.
  induction rs as [|r rs IH]; intros [|l ls] lo hi Hl Hk; try done. destruct Hl as (n & H1 & -> & Ha & Hl).
  pose proof (locals_le _ _ _ _ _ _ Hl). exists n. split; [done|]. split; [done|]. split.
  - eapply local_kept; [exact Ha|exact Hk|done|done].
  - apply IH; [done|]. eapply kept_weaken; [exact Hk|lia|lia].
Qed.

Lemma locals_snoc h sb n l : forall rs ls lo hi hi',
  locals_at h sb lo rs ls hi -> (hi <= n)%nat -> local_at h n sb l -> (n + S size <= hi')%nat ->
  locals_at h sb lo (rs ++ [(n + 2)%nat])%list (ls ++ [l])%list hi'.
Proof.
  induction rs as [|r rs IH]; intros [|l' ls] lo hi hi' Hl H1 Ha H2; try done.
  - cbn in Hl |- *. exists n. split; [lia|]. done.
  - destruct Hl as (m & H3 & -> & Hm & Hl). cbn. exists m. split; [done|]. split; [done|]. split; [done|]. by eapply IH.
Qed.

Lemma server_kept h h' n hi mb subs sv : server_at h n hi mb subs sv -> kept n hi h h' -> server_at h' n hi mb subs sv.
Proof.
  intros (Hl & (o0 & o2 & Ha) & Hs) Hk. pose proof (locals_le _ _ _ _ _ _ Hs). split; [done|]. split.
  - exists o0, o2. eapply at_kept; [exact Ha|exact Hk|lia|rewrite level_length by done; lia].
  - eapply locals_kept; [exact Hs|]. eapply kept_weaken; [exact Hk|lia|lia].
Qed.

Lemma servers_kept h h' mb : forall rs svs lo hi, servers_at h mb lo rs svs hi -> kept lo hi h h' -> servers_at h' mb lo rs svs hi.
Proof.
  induction rs as [|r rs IH]; intros [|sv svs] lo hi Hl Hk; try done. destruct Hl as (n & m & subs & H1 & -> & Ha & Hl).
  pose proof (servers_le _ _ _ _ _ _ Hl). pose proof (proj2 (proj2 Ha)) as Hx. apply locals_le in Hx.
  exists n, m, subs. split; [done|]. split; [done|]. split.
  - apply server_kept with h; [done|]. eapply kept_weaken; [exact Hk|lia|lia].
  - apply IH; [done|]. eapply kept_weaken; [exact Hk|lia|lia].
Qed.

Lemma servers_snoc h mb n m subs sv : forall rs svs lo hi hi',
  servers_at h mb lo rs svs hi -> (hi <= n)%nat -> server_at h n m mb subs sv -> (m <= hi')%nat ->
  servers_at h mb lo (rs ++ [(n + 1)%nat])%list (svs ++ [sv])%list hi'.
Proof.
  induction rs as [|r rs IH]; intros [|sv' svs] lo hi hi' Hl H1 Ha H2; try done.
  - cbn in Hl |- *. exists n, m, subs. split; [lia|]. done.
  - destruct Hl as (n' & m' & subs' & H3 & -> & Hm & Hl). cbn. exists n', m', subs'. split; [done|]. split; [done|]. split; [done|]. by eapply IH.
Qed.

(** ** A [local] *)

Lemma local_entry h h' n : entry_step n h h' -> length h = length h' /\ kept 0 n h h'.
Proof. intros [L K]. split; [done|]. apply K. lia. Qed.

Lemma exec_local n sb items : forall ds ds' a a' s s',
  arg_at CMD_CONF_TYPE_LOCAL a -> local_at (heap s) n sb ds -> load_local modules items ds = Ok ds' ->
  exec_items modules items a (n + size)%nat s = Ok (a', s') ->
  local_at (heap s') n sb ds' /\ entry_step n (heap s) (heap s').
Proof.
  induction items as [|[key typ value|key sub|text] items IH]; intros ds ds' a a' s s' Ha Hl Hload He.
  - cbn in Hload, He. injection Hload as <-. injection He as _ <-. split; [done|apply entry_step_refl].
  - cbn [load_local] in Hload. cbn [exec_items exec_item] in He. apply outcome_bind_ok in Hload as (ds1 & H1 & Hload).
    apply outcome_bind_ok in He as ([a1 s1] & He1 & He). apply outcome_bind_ok in He1 as ([a2 st] & Hr & He1).
    destruct st as [s2|]; [|done]. injection He1 as <- <-. destruct Hl as (Hlen & o0 & o1 & nc & Hat).
    destruct (run_data _ _ _ _ _ _ _ _ _ _ _ _ _ _ Ha Hlen Hat Hr H1) as (Hat' & Hlen' & Hstep & Ha').
    destruct (IH ds1 ds' a2 a' s2 s' Ha') as [R1 R2]; [split; [done|by exists o0, o1, nc]|done..|].
    split; [done|]. by eapply entry_step_trans.
  - done.
  - cbn [load_local] in Hload. cbn [exec_items exec_item mbind outcome_bind] in He. by eapply IH.
Qed.

(** ** Making a level under another

    The heap after the configurations of a level, its own object at [j], its
    parent's object at [p], and its vector. *)
Definition child h ds (j : nat) (o : Obj D) (p : nat) (po : Obj D) : list (Obj D) :=
  (<[p := po]> (<[(length h + j)%nat := o]> (h ++ confs (OHead "net" [] []) (OServer [] [] []) (OLocal [] [] []) ds)) ++ [OVec (refs (length h))])%list.

Lemma child_length h ds j o p po : length ds = length datas -> length (child h ds j o p po) = (length h + S size)%nat.
Proof. intros E. unfold child. rewrite length_app, !length_insert, length_app, confs_length by done. cbn. lia. Qed.

Lemma child_kept h ds j o p po x lo hi :
  length ds = length datas -> h !! p = Some x -> (hi <= p)%nat \/ (p < lo)%nat -> (hi <= length h)%nat -> kept lo hi h (child h ds j o p po).
Proof.
  intros E Hp Hc Hhi i y Hi Hy. exists y. split; [|reflexivity]. unfold child.
  apply lookup_app_l_Some. rewrite !list_lookup_insert_ne by lia. by apply lookup_app_l_Some.
Qed.

Lemma child_parent h ds j o i n po l :
  at_ h n l -> (i < length l)%nat -> (n + length l <= length h)%nat -> at_ (child h ds j o (n + i) po) n (<[i := po]> l).
Proof.
  intros Ha Hi Hn. unfold child. apply (at_kept (<[(n + i)%nat := po]> (<[(length h + j)%nat := o]> (h ++ confs (OHead "net" [] []) (OServer [] [] []) (OLocal [] [] []) ds)%list))) with (lo := 0%nat) (hi := (n + length l)%nat).
  - apply at_insert; [|done]. intros i' x Hi'. destruct (Ha i' x Hi') as (y & Hy & Hs). pose proof (lookup_lt_Some _ _ _ Hi').
    exists y. split; [|done]. rewrite list_lookup_insert_ne by lia. by apply lookup_app_l_Some.
  - apply kept_app.
  - lia.
  - rewrite length_insert. lia.
Qed.

Lemma child_level h ds j o p po :
  length ds = length datas -> (p < length h)%nat -> (j < 3)%nat ->
  at_ (child h ds j o p po) (length h) (<[j := o]> (level (OHead "net" [] []) (OServer [] [] []) (OLocal [] [] []) ds (length h))).
Proof.
  intros E Hp Hj. set (cs := confs (OHead "net" [] []) (OServer [] [] []) (OLocal [] [] []) ds).
  assert (Hcs : length cs = size) by by apply confs_length.
  assert (Hlen : length (h ++ cs) = (length h + size)%nat) by (rewrite length_app; lia).
  intros i x Hi. unfold level in Hi. fold cs in Hi. unfold child. fold cs.
  rewrite insert_app_l in Hi by (unfold size in Hcs; lia). apply lookup_app_Some in Hi as [Hi|[Hge Hi]].
  - exists x. split; [|reflexivity]. apply lookup_app_l_Some. rewrite list_lookup_insert_ne by lia.
    apply list_lookup_insert_Some in Hi as [(<- & <- & Hlt)|[Hne Hi]].
    + apply list_lookup_insert_eq. lia.
    + rewrite list_lookup_insert_ne by lia. rewrite lookup_app_r by lia. by rewrite Nat.add_comm, Nat.add_sub.
  - rewrite length_insert in *. apply list_lookup_singleton_Some in Hi as [Hz <-].
    exists (OVec (refs (length h))). split; [|reflexivity]. rewrite lookup_app_r; rewrite !length_insert, Hlen; [|lia].
    by replace (length h + i - (length h + size))%nat with 0%nat by lia.
Qed.

(** A command found at a level opens a block. *)
Lemma opens_found f lvl key m c :
  f = SetServer \/ f = SetLocal -> opens modules f lvl key = true -> find_cmd MODULE_TYPE_NET lvl key modules = Ok (m, c) ->
  cmd_set c = f /\ cmd_typ c = CMD_TYPE_SUB /\ m = (match f with SetServer => net_server | _ => net_local end).
Proof.
  intros Hf Ho E. unfold opens in Ho. rewrite E in Ho. destruct (find_net _ _ _ _ E) as (_ & _ & _ & _ & Hm & Hc).
  destruct (nm_blocks _ _ _ _ _ _ NM m c Hm Hc) as [Hs Hl].
  destruct c as [nm [] tp ct]; destruct Hf as [-> | ->]; try done; cbn [cmd_set cmd_typ] in *.
  - destruct Hs as [-> ->]; done.
  - destruct Hl as [-> ->]; done.
Qed.

(** The places of the structure's modules, and the lookups they make. *)
Lemma structure_index :
  ctx_index net = 0 /\ ctx_index net_server = 1 /\ ctx_index net_local = 2 /\ ctx_index net_local_core = 3 /\
  0 < ctx_index_len net_server /\ 0 < ctx_index_len net_local.
Proof.
  pose proof (nm_ctx _ _ _ _ _ _ NM) as Hc.
  destruct (Hc 0%nat net eq_refl) as [-> _]. destruct (Hc 1%nat net_server eq_refl) as (-> & -> & _).
  destruct (Hc 2%nat net_local eq_refl) as (-> & -> & _). destruct (Hc 3%nat net_local_core eq_refl) as [-> _]. lia.
Qed.

Lemma level_object h n i o0 o1 o2 ds o :
  at_ h n (level o0 o1 o2 ds n) -> [o0; o1; o2] !! i = Some o -> (match o with OLocalCore _ _ _ _ => False | _ => True end) -> h !! (n + i)%nat = Some o.
Proof.
  intros Ha Hi Ho. destruct (Ha i o) as (x & Hx & Hs).
  - unfold level, confs. do 2 apply lookup_app_l_Some. change [o0; o1; o2; core0] with ([o0; o1; o2] ++ [core0])%list. by apply lookup_app_l_Some.
  - rewrite Hx. f_equal. destruct o, x; cbn in Hs; try done; congruence.
Qed.

(** The command [local]. *)
Lemma run_local key lvl a a' n mb subs shared b inner s s1 after o0 o2 ds ds0 :
  arg_at lvl a -> opens modules SetLocal lvl key = true -> fresh datas = Ok ds0 -> length ds = length datas ->
  at_ (heap s) n (level o0 (OServer (refs mb) (refs n) subs) o2 ds n) -> (n + S size <= length (heap s))%nat ->
  run_entry modules a (n + size)%nat s key "" "" = Ok (a', OpenBlock shared b inner s1 after) ->
  let L := length (heap s) in
  arg_at CMD_CONF_TYPE_LOCAL b /\ shared = false /\ a' = a /\ inner = (L + size)%nat /\ after = local_end modules (L + size)%nat /\
  heap s1 = child (heap s) ds0 2 (OLocal (refs mb) (refs n) (refs L)) (n + 1) (OServer (refs mb) (refs n) (subs ++ [(L + 2)%nat])%list) /\ length ds0 = length datas.
Proof.
  intros (A1 & A2 & A3) Hop Hfresh Hlen Ha Hn Hrun L. pose proof (level_vec _ _ _ _ _ _ Hlen Ha) as Hvec.
  pose proof (level_object _ _ 1%nat _ _ _ _ _ Ha eq_refl I) as Hserver.
  unfold run_entry in Hrun. rewrite A1, A2 in Hrun.
  apply outcome_bind_ok in Hrun as ([m c] & Hf & Hrun).
  destruct (opens_found SetLocal lvl key m c ltac:(by right) Hop Hf) as (Hset & Htyp & ->).
  rewrite Htyp in Hrun. cbn [CMD_TYPE_SUB CMD_TYPE_MAIN Z.eqb Pos.eqb] in Hrun.
  apply outcome_bind_ok in Hrun as (st & Hst & Hrun). injection Hrun as <- ->.
  cbn [run_cmd these_commands net_commands run_set] in Hst. rewrite Hset in Hst. cbn [run_set] in Hst.
  destruct structure_index as (I0 & I1 & I2 & I3 & _ & Il). unfold local in Hst. unfold as_vec in Hst at 1. rewrite Hvec in Hst. cbn [expect mbind outcome_bind] in Hst.
  destruct (Z.leb_spec (ctx_index_len net_local) 0); [lia|].
  apply outcome_bind_ok in Hst as ([rs h1] & Hc & Hst). destruct (create_level _ _ _ _ Hc Hfresh) as (-> & -> & Hl0).
  rewrite (proj1 (nm_server _ _ _ _ _ _ NM)) in Hst. cbn [mbind outcome_bind] in Hst. rewrite I1, I2 in Hst.
  assert (Hv1 : vget (refs n) 1 = Ok (n + 1)%nat) by (apply vget_ok; split; [lia|apply refs_lookup; unfold size; lia]).
  rewrite Hv1 in Hst. cbn [mbind outcome_bind] in Hst. unfold as_server in Hst.
  assert (Hs1 : (heap s ++ confs (OHead "net" [] []) (OServer [] [] []) (OLocal [] [] []) ds0)%list !! (n + 1)%nat = Some (OServer (refs mb) (refs n) subs))
    by by apply lookup_app_l_Some.
  rewrite Hs1 in Hst. cbn [expect mbind outcome_bind] in Hst. fold L in Hst.
  assert (Hv2 : vget (refs L) 2 = Ok (L + 2)%nat) by (apply vget_ok; split; [lia|apply refs_lookup; unfold size; lia]).
  rewrite Hv2 in Hst. cbn [mbind outcome_bind] in Hst. apply outcome_bind_ok in Hst as (? & _ & Hst).
  unfold alloc in Hst. rewrite !length_insert, length_app, confs_length in Hst by done. fold L in Hst.
  injection Hst as <- <- <- <- <-. done.
Qed.

(** ** A [server] *)

(** Adding a [local] that has been read to its server. *)
Lemma add_local n mb subs sv l h1 h2 h3 h ds0 :
  server_at h n (length h) mb subs sv -> length ds0 = length datas ->
  h1 = child h ds0 2 (OLocal (refs mb) (refs n) (refs (length h))) (n + 1) (OServer (refs mb) (refs n) (subs ++ [(length h + 2)%nat])%list) ->
  (local_at h1 (length h) n ds0 -> local_at h2 (length h) n l /\ entry_step (length h) h1 h2) -> quiet h2 h3 ->
  server_at h3 n (length h3) mb (subs ++ [(length h + 2)%nat])%list (mkServerT (s_data sv) (s_locals sv ++ [l])%list) /\
  kept 0 n h h3 /\ (length h <= length h3)%nat.
Proof.
  intros (Hlen & (o0 & o2 & Ha) & Hls) Hl0 E1 Hsub [L3 K3]. set (L := length h) in *.
  pose proof (locals_le _ _ _ _ _ _ Hls) as HL. assert (H4 : (4 <= size)%nat) by (unfold size; lia).
  pose proof (level_object _ _ 1%nat _ _ _ _ _ Ha eq_refl I) as Hold.
  assert (HL1 : length h1 = (L + S size)%nat) by (rewrite E1; by apply child_length).
  assert (Hloc : local_at h1 L n ds0).
  { split; [done|]. exists (OHead "net" [] []), (OServer [] [] []), (refs mb). rewrite E1.
    apply (child_level h ds0 2 (OLocal (refs mb) (refs n) (refs L))); [done|unfold size in HL; lia|lia]. }
  assert (Hpar : at_ h1 n (level o0 (OServer (refs mb) (refs n) (subs ++ [(L + 2)%nat])%list) o2 (s_data sv) n)).
  { rewrite E1. apply (child_parent h ds0 2 _ 1 n _ (level o0 (OServer (refs mb) (refs n) subs) o2 (s_data sv) n)); [done|rewrite level_length by done; unfold size; lia|].
    rewrite level_length by done. lia. }
  assert (Hk1 : forall lo hi, (hi <= n + 1)%nat \/ (n + 1 < lo)%nat -> (hi <= L)%nat -> kept lo hi h h1).
  { intros lo hi Hc Hhi. rewrite E1. by eapply child_kept. }
  destruct (Hsub Hloc) as (Hl2 & Ln2 & K2). assert (Hk : forall lo hi, (hi <= L)%nat -> kept lo hi h1 h3).
  { intros lo hi Hhi. eapply heap_kept_trans; [apply K2; lia|apply K3]. }
  split; [|split; [|lia]].
  - split; [done|]. split.
    + exists o0, o2. apply (at_kept h1 h3 n _ n L Hpar); [by apply Hk|done|]. cbn [s_data]. rewrite level_length by done. exact HL.
    + cbn [s_locals]. eapply locals_snoc; [| |eapply local_kept; [exact Hl2|apply (K3 L (L + S size)%nat)|lia|lia]|]; [|apply Nat.le_refl|lia].
      eapply locals_kept; [exact Hls|]. eapply heap_kept_trans; [apply Hk1; lia|apply Hk; lia].
  - eapply heap_kept_trans; [apply Hk1; lia|apply Hk; lia].
Qed.

Lemma exec_server n mb items : forall sv sv' subs a a' s s',
  arg_at CMD_CONF_TYPE_SERVER a -> server_at (heap s) n (length (heap s)) mb subs sv -> load_server modules datas items sv = Ok sv' ->
  exec_items modules items a (n + size)%nat s = Ok (a', s') ->
  exists subs', server_at (heap s') n (length (heap s')) mb subs' sv' /\ kept 0 n (heap s) (heap s') /\ (length (heap s) <= length (heap s'))%nat.
Proof.
  induction items as [|[key typ value|key sub|text] items IH]; intros sv sv' subs a a' s s' Ha Hs Hload He.
  - cbn in Hload, He. injection Hload as <-. injection He as _ <-. exists subs. split; [done|]. split; [apply kept_refl|done].
  - cbn [load_server] in Hload. cbn [exec_items exec_item] in He. apply outcome_bind_ok in Hload as (ds1 & H1 & Hload).
    apply outcome_bind_ok in He as ([a1 s1] & He1 & He). apply outcome_bind_ok in He1 as ([a2 st] & Hr & He1).
    destruct st as [s2|]; [|done]. injection He1 as <- <-. destruct Hs as (Hlen & (o0 & o2 & Hat) & Hls).
    destruct (run_data _ _ _ _ _ _ _ _ _ _ _ _ _ _ Ha Hlen Hat Hr H1) as (Hat' & Hlen' & [Ls Ks] & Ha').
    destruct (IH (mkServerT ds1 (s_locals sv)) sv' subs a2 a' s2 s' Ha') as (subs' & R1 & R2 & R3); [|done..|].
    + split; [done|]. split; [by exists o0, o2|]. cbn [s_locals]. rewrite Ls. eapply locals_kept; [exact Hls|]. apply Ks. lia.
    + exists subs'. split; [done|]. split; [|lia]. eapply heap_kept_trans; [apply Ks; lia|done].
  - cbn [load_server] in Hload. destruct (opens _ _ _ _) eqn:Hop; [|done].
    apply outcome_bind_ok in Hload as (ds0 & Hfresh & Hload). apply outcome_bind_ok in Hload as (l & Hl & Hload).
    cbn [exec_items] in He. apply outcome_bind_ok in He as ([a1 s1] & He1 & He). rewrite exec_block in He1.
    apply outcome_bind_ok in He1 as ([a2 st] & Hr & He1). destruct st as [|shared b inner s2 after]; [done|].
    pose proof Hs as (Hlen & (o0 & o2 & Hat) & Hls). pose proof (locals_le _ _ _ _ _ _ Hls) as HL.
    destruct (run_local _ _ _ _ _ _ _ _ _ _ _ _ _ _ _ _ _ Ha Hop Hfresh Hlen Hat HL Hr) as (Hb & -> & -> & -> & -> & Hh & Hl0).
    apply outcome_bind_ok in He1 as ([b1 s3] & Hsub & He1). destruct (arg_main_index b1 =? -1); [done|].
    apply outcome_bind_ok in He1 as (s4 & Hend & He1). injection He1 as <- <-.
    destruct (local_end_quiet _ _ _ Hend) as [Hq _].
    destruct (add_local n mb subs sv l _ (heap s3) (heap s4) _ ds0 Hs Hl0 Hh) as (R1 & R2 & R3); [|done|].
    { intros Hloc. by eapply exec_local. }
    destruct (IH _ sv' _ a a' s4 s' Ha R1 Hload He) as (subs' & Q1 & Q2 & Q3).
    exists subs'. split; [done|]. split; [by eapply heap_kept_trans|lia].
  - cbn [load_server] in Hload. cbn [exec_items exec_item mbind outcome_bind] in He. by eapply IH.
Qed.

(** ** The block [net] *)

(** The block: its level at [nb], the vector of all blocks at [root], and the
    servers after both. *)
Definition net_at h (root nb lo : nat) (t : NetT D) : Prop :=
  length (n_data t) = length datas /\ (nb + S size <= lo)%nat /\ (root < lo)%nat /\ ((root < nb)%nat \/ (nb + S size <= root)%nat) /\
  (exists mains, h !! root = Some (OVec mains) /\ vget mains (main_index net) = Ok (nb + size)%nat) /\
  exists o1 o2 nc subs, at_ h nb (level (OHead "net" nc subs) o1 o2 (n_data t) nb) /\ servers_at h nb lo subs (n_servers t) (length h).

Lemma root_kept h h' (root : nat) mains : h !! root = Some (OVec mains) -> kept root (S root) h h' -> h' !! root = Some (OVec mains).
Proof. intros Hr Hk. destruct (Hk root _ ltac:(lia) Hr) as (o & Ho & Hs). destruct o; cbn in Hs; congruence. Qed.

(** The command [server]. *)
Lemma run_server key lvl a a' nb nc subs shared b inner s s1 after o1 o2 ds ds0 :
  arg_at lvl a -> opens modules SetServer lvl key = true -> fresh datas = Ok ds0 -> length ds = length datas ->
  at_ (heap s) nb (level (OHead "net" nc subs) o1 o2 ds nb) ->
  run_entry modules a (nb + size)%nat s key "" "" = Ok (a', OpenBlock shared b inner s1 after) ->
  let L := length (heap s) in
  arg_at CMD_CONF_TYPE_SERVER b /\ shared = false /\ a' = a /\ inner = (L + size)%nat /\ after = Ok /\
  heap s1 = child (heap s) ds0 1 (OServer (refs nb) (refs L) []) (nb + 0) (OHead "net" nc (subs ++ [(L + 1)%nat])%list) /\ length ds0 = length datas.
Proof.
  intros (A1 & A2 & A3) Hop Hfresh Hlen Ha Hrun L. pose proof (level_vec _ _ _ _ _ _ Hlen Ha) as Hvec.
  pose proof (level_object _ _ 0%nat _ _ _ _ _ Ha eq_refl I) as Hnet. rewrite Nat.add_0_r in *.
  unfold run_entry in Hrun. rewrite A1, A2 in Hrun.
  apply outcome_bind_ok in Hrun as ([m c] & Hf & Hrun).
  destruct (opens_found SetServer lvl key m c ltac:(by left) Hop Hf) as (Hset & Htyp & ->).
  rewrite Htyp in Hrun. cbn [CMD_TYPE_SUB CMD_TYPE_MAIN Z.eqb Pos.eqb] in Hrun.
  apply outcome_bind_ok in Hrun as (st & Hst & Hrun). injection Hrun as <- ->.
  cbn [run_cmd these_commands net_commands run_set] in Hst. rewrite Hset in Hst. cbn [run_set] in Hst.
  destruct structure_index as (I0 & I1 & I2 & I3 & Il & _). unfold server in Hst. unfold as_vec in Hst at 1. rewrite Hvec in Hst. cbn [expect mbind outcome_bind] in Hst.
  destruct (Z.leb_spec (ctx_index_len net_server) 0); [lia|].
  apply outcome_bind_ok in Hst as ([rs h1] & Hc & Hst). destruct (create_level _ _ _ _ Hc Hfresh) as (-> & -> & Hl0).
  rewrite (proj1 (nm_net _ _ _ _ _ _ NM)) in Hst. cbn [mbind outcome_bind] in Hst. rewrite I0, I1 in Hst.
  assert (Hv1 : vget (refs nb) 0 = Ok nb) by (apply vget_ok; split; [lia|rewrite refs_lookup by (unfold size; lia); f_equal; lia]).
  rewrite Hv1 in Hst. cbn [mbind outcome_bind] in Hst. unfold as_head in Hst.
  assert (Hs1 : (heap s ++ confs (OHead "net" [] []) (OServer [] [] []) (OLocal [] [] []) ds0)%list !! nb = Some (OHead "net" nc subs))
    by by apply lookup_app_l_Some.
  rewrite Hs1 in Hst. cbn [expect mbind outcome_bind] in Hst. rewrite String.eqb_refl in Hst. cbn [mbind outcome_bind] in Hst. fold L in Hst.
  assert (Hv2 : vget (refs L) 1 = Ok (L + 1)%nat) by (apply vget_ok; split; [lia|apply refs_lookup; unfold size; lia]).
  rewrite Hv2 in Hst. cbn [mbind outcome_bind] in Hst.
  assert (Hs2 : (heap s ++ confs (OHead "net" [] []) (OServer [] [] []) (OLocal [] [] []) ds0)%list !! (L + 1)%nat = Some (OServer [] [] [])).
  { rewrite lookup_app_r by (subst L; lia). by replace (L + 1 - length (heap s))%nat with 1%nat by (subst L; lia). }
  unfold as_server in Hst. rewrite Hs2 in Hst. cbn [expect mbind outcome_bind] in Hst.
  unfold alloc in Hst. rewrite !length_insert, length_app, confs_length in Hst by done. fold L in Hst.
  injection Hst as <- <- <- <- <-. done.
Qed.

(** Adding a server that has been read. *)
Lemma add_server root nb lo t sv h1 h2 h ds0 :
  net_at h root nb lo t -> length ds0 = length datas ->
  (forall nc subs o1 o2, at_ h nb (level (OHead "net" nc subs) o1 o2 (n_data t) nb) ->
     h1 = child h ds0 1 (OServer (refs nb) (refs (length h)) []) (nb + 0) (OHead "net" nc (subs ++ [(length h + 1)%nat])%list)) ->
  (server_at h1 (length h) (length h1) nb [] (mkServerT ds0 []) ->
     exists subs', server_at h2 (length h) (length h2) nb subs' sv /\ kept 0 (length h) h1 h2 /\ (length h1 <= length h2)%nat) ->
  net_at h2 root nb lo (mkNetT (n_data t) (n_servers t ++ [sv])%list).
Proof.
  intros (Hlen & Hlo & Hr1 & Hr2 & (mains & Hm1 & Hm2) & o1 & o2 & nc & subs & Ha & Hss) Hl0 E1 Hsub.
  specialize (E1 _ _ _ _ Ha). set (L := length h) in *. pose proof (servers_le _ _ _ _ _ _ Hss) as HL.
  assert (H4 : (4 <= size)%nat) by (unfold size; lia).
  pose proof (level_object _ _ 0%nat _ _ _ _ _ Ha eq_refl I) as Hold.
  assert (HL1 : length h1 = (L + S size)%nat) by (rewrite E1; by apply child_length).
  assert (Hsv : server_at h1 L (length h1) nb [] (mkServerT ds0 [])).
  { split; [done|]. split; [|cbn [locals_at s_locals]; lia]. exists (OHead "net" [] []), (OLocal [] [] []). rewrite E1.
    apply (child_level h ds0 1 (OServer (refs nb) (refs L) [])); [done|lia|lia]. }
  assert (Hpar : at_ h1 nb (level (OHead "net" nc (subs ++ [(L + 1)%nat])%list) o1 o2 (n_data t) nb)).
  { rewrite E1. apply (child_parent h ds0 1 _ 0 nb _ (level (OHead "net" nc subs) o1 o2 (n_data t) nb)); [done|rewrite level_length by done; lia|].
    rewrite level_length by done. lia. }
  assert (Hk1 : forall lo hi, (hi <= nb + 0)%nat \/ (nb + 0 < lo)%nat -> (hi <= L)%nat -> kept lo hi h h1).
  { intros lo' hi' Hc Hhi. rewrite E1. by eapply child_kept. }
  destruct (Hsub Hsv) as (subs' & Hs2 & K2 & L2).
  assert (Hk2 : forall lo hi, (hi <= L)%nat -> kept lo hi h1 h2) by (intros lo' hi' Hhi; eapply kept_weaken; [exact K2|lia|exact Hhi]).
  split; [done|]. split; [done|]. split; [done|]. split; [done|]. split.
  - exists mains. split; [|done]. eapply root_kept; [exact Hm1|]. eapply heap_kept_trans; [apply Hk1; lia|apply Hk2; lia].
  - exists o1, o2, nc, (subs ++ [(L + 1)%nat])%list. split.
    + apply (at_kept h1 h2 nb _ nb L Hpar); [by apply Hk2|done|]. cbn [n_data]. rewrite level_length by done. lia.
    + cbn [n_servers]. eapply servers_snoc; [|apply Nat.le_refl|exact Hs2|apply Nat.le_refl].
      eapply servers_kept; [exact Hss|]. eapply heap_kept_trans; [apply Hk1; lia|by apply Hk2].
Qed.

Lemma exec_net root nb lo items : forall t t' a a' s s',
  arg_at CMD_CONF_TYPE_MAIN a -> net_at (heap s) root nb lo t -> load_net modules datas items t = Ok t' ->
  exec_items modules items a (nb + size)%nat s = Ok (a', s') -> net_at (heap s') root nb lo t'.
Proof.
  induction items as [|[key typ value|key sub|text] items IH]; intros t t' a a' s s' Ha Ht Hload He.
  - cbn in Hload, He. injection Hload as <-. by injection He as _ <-.
  - cbn [load_net] in Hload. cbn [exec_items exec_item] in He. apply outcome_bind_ok in Hload as (ds1 & H1 & Hload).
    apply outcome_bind_ok in He as ([a1 s1] & He1 & He). apply outcome_bind_ok in He1 as ([a2 st] & Hr & He1).
    destruct st as [s2|]; [|done]. injection He1 as <- <-.
    destruct Ht as (Hlen & Hlo & Hr1 & Hr2 & (mains & Hm1 & Hm2) & o1 & o2 & nc & subs & Hat & Hss).
    destruct (run_data _ _ _ _ _ _ _ _ _ _ _ _ _ _ Ha Hlen Hat Hr H1) as (Hat' & Hlen' & [Ls Ks] & Ha').
    apply (IH (mkNetT ds1 (n_servers t)) t' a2 a' s2 s' Ha'); [|done..].
    split; [done|]. split; [done|]. split; [done|]. split; [done|]. split.
    + exists mains. split; [|done]. eapply root_kept; [exact Hm1|]. apply Ks. lia.
    + exists o1, o2, nc, subs. split; [done|]. cbn [n_servers]. rewrite Ls. eapply servers_kept; [exact Hss|]. apply Ks. lia.
  - cbn [load_net] in Hload. destruct (opens _ _ _ _) eqn:Hop; [|done].
    apply outcome_bind_ok in Hload as (ds0 & Hfresh & Hload). apply outcome_bind_ok in Hload as (sv & Hsv & Hload).
    cbn [exec_items] in He. apply outcome_bind_ok in He as ([a1 s1] & He1 & He). rewrite exec_block in He1.
    apply outcome_bind_ok in He1 as ([a2 st] & Hr & He1). destruct st as [|shared b inner s2 after]; [done|].
    apply outcome_bind_ok in He1 as ([b1 s3] & Hsub & He1). destruct (arg_main_index b1 =? -1); [done|].
    pose proof Ht as (Hlen & _ & _ & _ & _ & o1 & o2 & nc & subs & Hat & _).
    destruct (run_server _ _ _ _ _ _ _ _ _ _ _ _ _ _ _ _ _ Ha Hop Hfresh Hlen Hat Hr) as (Hb & -> & -> & -> & -> & Hh & Hl0).
    cbn [mbind outcome_bind] in He1. injection He1 as <- <-.
    apply (IH (mkNetT (n_data t) (n_servers t ++ [sv])%list) t' a a' s3 s' Ha); [|done..].
    apply (add_server _ _ _ _ _ (heap s2) _ (heap s) ds0 Ht Hl0).
    + intros nc' subs' o1' o2' Hat'.
      pose proof (level_object _ _ 0%nat _ _ _ _ _ Hat eq_refl I) as X. pose proof (level_object _ _ 0%nat _ _ _ _ _ Hat' eq_refl I) as Y.
      rewrite X in Y. by injection Y as <- <-.
    + intros Hs. by eapply exec_server.
  - cbn [load_net] in Hload. cbn [exec_items exec_item mbind outcome_bind] in He. by eapply IH.
Qed.

(** ** The file *)

Definition arg_top (a : ConfArg Ref) : Prop := module_type a = 0 /\ cmd_conf_type a = 0 /\ is_block a = false.

(** The command [net]. *)
Lemma run_net key a a' root nb lo t shared b inner s s1 after :
  arg_top a -> opens_net modules key = true -> net_at (heap s) root nb lo t ->
  run_entry modules a root s key "" "" = Ok (a', OpenBlock shared b inner s1 after) ->
  arg_at CMD_CONF_TYPE_MAIN b /\ shared = true /\ arg_top a' /\ inner = (nb + size)%nat /\ after = Ok /\ net_at (heap s1) root nb lo t.
Proof.
  intros (A1 & A2 & A3) Hop (Hlen & Hlo & Hr1 & Hr2 & (mains & Hm1 & Hm2) & o1 & o2 & nc & subs & Ha & Hss) Hrun.
  unfold run_entry in Hrun. rewrite A1, A2 in Hrun. apply outcome_bind_ok in Hrun as ([m c] & Hf & Hrun).
  unfold opens_net in Hop. rewrite Hf in Hop. apply find_cmd_in in Hf as (Hm & Hc & _).
  destruct c as [nm [] tp ct]; try done. apply String.eqb_eq in Hop.
  destruct (nm_heads _ _ _ _ _ _ NM _ _ Hm Hc eq_refl) as [Htyp Hnet]. specialize (Hnet Hop) as ->. cbn [cmd_typ cmd_set] in *. rewrite Htyp in Hrun.
  cbn [CMD_TYPE_MAIN Z.eqb] in Hrun. destruct (negb _); [done|]. apply outcome_bind_ok in Hrun as (st & Hst & Hrun). injection Hrun as <- ->.
  cbn [run_cmd these_commands net_commands run_set enter_main] in Hst. unfold head_block in Hst.
  pose proof (nm_main _ _ _ _ _ _ NM) as Hk. destruct (Z.ltb_spec (main_index net) 0); [lia|].
  unfold as_vec in Hst. cbn [heap] in Hst. rewrite Hm1 in Hst. cbn [expect mbind outcome_bind] in Hst. rewrite Hm2 in Hst. cbn [mbind outcome_bind] in Hst.
  rewrite (level_vec _ _ _ _ _ _ Hlen Ha) in Hst. cbn [expect mbind outcome_bind] in Hst.
  destruct structure_index as (I0 & _). rewrite I0 in Hst. destruct (Z.ltb_spec 0 0); [lia|].
  assert (Hv1 : vget (refs nb) 0 = Ok nb) by (apply vget_ok; split; [lia|rewrite refs_lookup by (unfold size; lia); f_equal; lia]).
  rewrite Hv1 in Hst. cbn [mbind outcome_bind] in Hst. unfold as_head in Hst.
  pose proof (level_object _ _ 0%nat _ _ _ _ _ Ha eq_refl I) as Hold. rewrite Nat.add_0_r in Hold. rewrite Hold, Hop in Hst.
  cbn [expect mbind outcome_bind] in Hst. rewrite String.eqb_refl in Hst. cbn [mbind outcome_bind] in Hst.
  injection Hst as <- <- <- <- <-. rewrite (nm_type _ _ _ _ _ _ NM).
  split; [done|]. split; [done|]. split; [done|]. split; [done|]. split; [done|]. cbn [heap set_heap].
  split; [done|]. split; [done|]. split; [done|]. split; [done|]. split.
  - exists mains. split; [|done]. eapply root_kept; [exact Hm1|]. eapply kept_insert; [exact Hold|]. lia.
  - exists o1, o2, (refs nb), subs. split.
    + pose proof (at_insert _ _ _ 0%nat (OHead "net" (refs nb) subs) Ha) as Hi. rewrite Nat.add_0_r in Hi. apply Hi.
      rewrite level_length by done. lia.
    + rewrite length_insert. eapply servers_kept; [exact Hss|]. eapply kept_insert; [exact Hold|]. lia.
Qed.

Lemma exec_main root nb lo items : forall t t' a a' s s',
  arg_top a -> net_at (heap s) root nb lo t -> load_main modules datas items t = Ok t' ->
  exec_items modules items a root s = Ok (a', s') -> net_at (heap s') root nb lo t'.
Proof.
  induction items as [|[key typ value|key sub|text] items IH]; intros t t' a a' s s' Ha Ht Hload He.
  - cbn in Hload, He. injection Hload as <-. by injection He as _ <-.
  - done.
  - cbn [load_main] in Hload. destruct (opens_net _ _) eqn:Hop; [|done]. apply outcome_bind_ok in Hload as (t1 & H1 & Hload).
    cbn [exec_items] in He. apply outcome_bind_ok in He as ([a1 s1] & He1 & He). rewrite exec_block in He1.
    apply outcome_bind_ok in He1 as ([a2 st] & Hr & He1). destruct st as [|shared b inner s2 after]; [done|].
    apply outcome_bind_ok in He1 as ([b1 s3] & Hsub & He1). destruct (arg_main_index b1 =? -1); [done|].
    destruct (run_net _ _ _ _ _ _ _ _ _ _ _ _ _ Ha Hop Ht Hr) as (Hb & -> & (B1 & B2 & B3) & -> & -> & Ht2).
    cbn [mbind outcome_bind] in He1. injection He1 as <- <-.
    apply (IH t1 t' (after_block true a2 (close_arg b1)) a' s3 s'); [done|by eapply exec_net|done..].
  - cbn [load_main] in Hload. cbn [exec_items exec_item mbind outcome_bind] in He. by eapply IH.
Qed.
End build.
