(* ===== verification/ConfMerge.v ===== *)
(** Merging the [net] block: each level takes from the one above, on the heap
    as on the tree; and the heap is seen as the tree. *)
From S2P Require Import Prelude RustStd ConfValue ConfModules ConfParse ConfText ConfHeap ConfTree ConfBuild.
#[local] Open Scope string_scope.
#[local] Open Scope Z_scope.

Section merge.
Context {D : Type} `{DataModules D} `{RuleText}.
Context {modules datas : list (Module_ SetFn)} {net net_server net_local net_local_core : Module_ SetFn}.
Context (NM : NetModules modules datas net net_server net_local net_local_core).
Implicit Types (h : list (Obj D)) (ds : list D).
#[local] Abbreviation size := (size (datas := datas)).
#[local] Abbreviation refs := (refs (datas := datas)).
#[local] Abbreviation level := (level (datas := datas)).
#[local] Abbreviation entry_step := (entry_step (datas := datas)).
#[local] Abbreviation local_at := (local_at (datas := datas)).
#[local] Abbreviation locals_at := (locals_at (datas := datas)).
#[local] Abbreviation server_at := (server_at (datas := datas)).
#[local] Abbreviation servers_at := (servers_at (datas := datas)).
#[local] Abbreviation net_at := (net_at (datas := datas) (net := net)).

(** ** Seeing a level *)

Lemma mapM_ok {A B} (f : A -> outcome B) l k : Forall2 (fun a b => f a = Ok b) l k -> mapM f l = Ok k.
Proof. induction 1 as [|a b l k Hab Hl IH]; [done|]. cbn [mapM]. rewrite Hab. cbn. by rewrite IH. Qed.

Lemma data_place i m : datas !! i = Some m -> ctx_index m = Z.of_nat (4 + i) /\ (4 + i < size)%nat.
Proof.
  intros Hm. destruct (nm_ctx _ _ _ _ _ _ NM (4 + i)%nat m) as [-> _]; [done|]. split; [done|].
  apply lookup_lt_Some in Hm. unfold ConfBuild.size. lia.
Qed.

Lemma see_level h n o0 o1 o2 ds :
  length ds = length datas -> at_ h n (level o0 o1 o2 ds n) -> view_level datas h (refs n) = Ok ds.
Proof.
  intros Hl Ha. unfold view_level. apply mapM_ok. apply Forall2_same_length_lookup_2; [done|].
  intros i m d Hm Hd. destruct (data_place i m Hm) as [Hc Hsz]. rewrite Hc.
  assert (vget (refs n) (Z.of_nat (4 + i)) = Ok (n + (4 + i))%nat) as ->.
  { apply vget_ok. split; [lia|]. rewrite Nat2Z.id. by apply refs_lookup. }
  cbn [mbind outcome_bind]. unfold as_data. rewrite (level_data _ _ _ _ _ _ _ _ _ Ha Hm Hd). cbn [expect mbind outcome_bind].
  by rewrite String.eqb_refl.
Qed.

Lemma see_local h n sb ds : local_at h n sb ds -> view_local datas h (n + 2)%nat = Ok ds.
Proof.
  intros (Hl & o0 & o1 & nc & Ha). unfold view_local, as_local. rewrite (level_object _ _ 2%nat _ _ _ _ _ Ha eq_refl I).
  cbn [expect mbind outcome_bind]. by eapply see_level.
Qed.

Lemma see_locals h sb : forall rs ls lo hi, locals_at h sb lo rs ls hi -> mapM (view_local datas h) rs = Ok ls.
Proof.
  induction rs as [|r rs IH]; intros [|l ls] lo hi Hl; try done. destruct Hl as (n & _ & -> & Ha & Hl).
  cbn [mapM]. rewrite (see_local _ _ _ _ Ha). cbn. by rewrite (IH _ _ _ Hl).
Qed.

Lemma see_server h n hi mb subs sv : server_at h n hi mb subs sv -> view_server datas h (n + 1)%nat = Ok sv.
Proof.
  intros (Hl & (o0 & o2 & Ha) & Hs). unfold view_server, as_server. rewrite (level_object _ _ 1%nat _ _ _ _ _ Ha eq_refl I).
  cbn [expect mbind outcome_bind]. rewrite (see_level _ _ _ _ _ _ Hl Ha). cbn [mbind outcome_bind].
  rewrite (see_locals _ _ _ _ _ _ Hs). by destruct sv.
Qed.

Lemma see_servers h mb : forall rs svs lo hi, servers_at h mb lo rs svs hi -> mapM (view_server datas h) rs = Ok svs.
Proof.
  induction rs as [|r rs IH]; intros [|sv svs] lo hi Hl; try done. destruct Hl as (n & m & subs & _ & -> & Ha & Hl).
  cbn [mapM]. rewrite (see_server _ _ _ _ _ _ Ha). cbn. by rewrite (IH _ _ _ Hl).
Qed.

Lemma see_net h root nb lo t : net_at h root nb lo t -> view_net modules datas h root = Ok t.
Proof.
  intros (Hl & _ & _ & _ & (mains & Hm1 & Hm2) & o1 & o2 & nc & subs & Ha & Hs).
  unfold view_net. rewrite (proj1 (nm_net _ _ _ _ _ _ NM)). unfold as_vec. cbn [mbind outcome_bind]. rewrite Hm1. cbn [expect mbind outcome_bind].
  rewrite Hm2. cbn [mbind outcome_bind]. rewrite (level_vec _ _ _ _ _ _ Hl Ha). cbn [expect mbind outcome_bind].
  rewrite (see_level _ _ _ _ _ _ Hl Ha). cbn [mbind outcome_bind].
  destruct (structure_index NM) as (I0 & _). rewrite I0.
  assert (vget (refs nb) 0 = Ok (nb + 0)%nat) as ->.
  { apply vget_ok. split; [lia|]. apply refs_lookup. unfold ConfBuild.size. lia. }
  cbn [mbind outcome_bind]. unfold as_head. rewrite (level_object _ _ 0%nat _ _ _ _ _ Ha eq_refl I). cbn [expect mbind outcome_bind].
  rewrite String.eqb_refl. cbn [mbind outcome_bind]. rewrite (see_servers _ _ _ _ _ _ Hs). by destruct t.
Qed.

(** ** Merging a level *)

Lemma merge_level_filter ms ps cs : forall h,
  merge_level ms ps cs h = merge_level (filter (fun m => meets MODULE_TYPE_NET m) ms) ps cs h.
Proof.
  induction ms as [|m ms IH]; intros h; [done|]. destruct (meets MODULE_TYPE_NET m) eqn:E.
  - rewrite filter_cons_True by (by rewrite E). cbn [merge_level]. rewrite E. cbn [negb].
    destruct (match ps with Some ps => _ | None => _ end) as [p| | |]; try done. cbn [mbind outcome_bind].
    destruct (vget cs (ctx_index m)) as [c| | |]; try done. cbn [mbind outcome_bind].
    destruct (merge_conf m p c h) as [h1| | |]; try done. cbn [mbind outcome_bind]. apply IH.
  - rewrite filter_cons_False by (rewrite E; by intros []). cbn [merge_level]. rewrite E. apply IH.
Qed.

(** The modules of the structure take nothing. *)
Lemma merge_structure m p c h h' :
  (creates m = true \/ mod_name m ∈ ["net_server"; "net_local"; "net_local_core"]) -> merge_conf (D := D) m p c h = Ok h' -> h' = h.
Proof.
  intros Hm E. unfold merge_conf in E. destruct (creates m); [all_steps E; by injection E|].
  destruct Hm as [|Hm]; [done|]. rewrite !elem_of_cons, elem_of_nil in Hm.
  destruct Hm as [Hm|[Hm|[Hm|[]]]]; rewrite Hm in E; cbn [String.eqb Ascii.eqb Bool.eqb] in E; all_steps E; by injection E.
Qed.

(** The vector of the level above, and what it holds. *)
Definition above h (n : nat) (P : option (nat * list D)) : Prop :=
  match P with
  | None => True
  | Some (p, dp) => length dp = length datas /\ ((p + S size <= n)%nat \/ (n + S size <= p)%nat) /\ exists o0 o1 o2, at_ h p (level o0 o1 o2 dp p)
  end.

Lemma above_step h h' n P : above h n P -> entry_step n h h' -> above h' n P.
Proof.
  destruct P as [[p dp]|]; [|done]. intros (Hl & Hd & o0 & o1 & o2 & Ha) [_ Hk]. split; [done|]. split; [done|].
  exists o0, o1, o2. eapply at_kept; [exact Ha|apply (Hk p (p + S size)%nat); unfold ConfBuild.size in *; lia|lia|].
  rewrite level_length by done. lia.
Qed.

Lemma merge_data_conf m p c h h' :
  m ∈ datas -> merge_conf (D := D) m p c h = Ok h' ->
  exists dp dc d, (match p with Some p => exists x, dp = Some x /\ as_data (mod_name m) h p = Ok x | None => dp = None end) /\
    as_data (mod_name m) h c = Ok dc /\ merge_data (mod_name m) dp dc = Ok d /\ h' = <[c := OData (mod_name m) d]> h.
Proof.
  intros Hm E. destruct (nm_datas _ _ _ _ _ _ NM m Hm) as [Hc Hn]. unfold merge_conf in E. rewrite Hc in E.
  destruct (String.eqb_spec (mod_name m) "net_server") as [X|]; [rewrite X in Hn; set_solver|].
  destruct (String.eqb_spec (mod_name m) "net_local") as [X|]; [rewrite X in Hn; set_solver|].
  destruct (String.eqb_spec (mod_name m) "net_local_core") as [X|]; [rewrite X in Hn; set_solver|].
  apply outcome_bind_ok in E as (dp & Hp & E). apply outcome_bind_ok in E as (dc & Hdc & E). apply outcome_bind_ok in E as (d & Hd & E).
  injection E as <-. exists dp, dc, d. split; [|done]. destruct p as [p|]; [|by injection Hp].
  apply outcome_fmap_ok in Hp as (x & Hx & <-). by exists x.
Qed.

(** The loop over the modules from the place [j] on. *)
Lemma merge_datas_level n o0 o1 o2 P : forall l j ds h h',
  (forall i m, l !! i = Some m -> datas !! (j + i)%nat = Some m /\ meets MODULE_TYPE_NET m = true) -> (j + length l = length datas)%nat ->
  length ds = length datas -> at_ h n (level o0 o1 o2 ds n) -> above h n P ->
  merge_level l ((fun x => refs x.1) <$> P) (refs n) h = Ok h' ->
  exists ds', merge_datas l ((fun x => drop j x.2) <$> P) (drop j ds) = Ok ds' /\
    at_ h' n (level o0 o1 o2 (take j ds ++ ds')%list n) /\ entry_step n h h' /\ length ds' = length l.
Proof.
  induction l as [|m l IH]; intros j ds h h' Hsub Hj Hlen Ha HP E.
  - cbn [merge_level] in E. injection E as <-. cbn [length] in Hj. rewrite drop_ge by lia. exists []. split; [done|].
    rewrite app_nil_r, take_ge by lia. split; [done|]. split; [apply entry_step_refl|done].
  - destruct (Hsub 0%nat m eq_refl) as [Hm Hmeets]. rewrite Nat.add_0_r in Hm. cbn [length] in Hj.
    destruct (data_place _ _ Hm) as [Hctx Hsz].
    assert (Hvg : forall x, vget (refs x) (ctx_index m) = Ok (x + (4 + j))%nat).
    { intros x. rewrite Hctx. apply vget_ok. split; [lia|]. rewrite Nat2Z.id. by apply refs_lookup. }
    cbn [merge_level] in E. rewrite Hmeets in E. cbn [negb] in E. apply outcome_bind_ok in E as (p & Hp & E).
    rewrite Hvg in E. cbn [mbind outcome_bind] in E. apply outcome_bind_ok in E as (h1 & Hmc & E).
    apply merge_data_conf in Hmc as (dp & dc & d & Hdp & Hdc & Hd & ->); [|by eapply list_elem_of_lookup_2].
    destruct (lookup_lt_is_Some_2 ds j ltac:(lia)) as [x Hx]. pose proof (level_data _ _ _ _ _ _ _ _ _ Ha Hm Hx) as Ho.
    unfold as_data in Hdc. rewrite Ho in Hdc. cbn [expect mbind outcome_bind] in Hdc. rewrite String.eqb_refl in Hdc. injection Hdc as <-.
    assert (Hpar : (match (fun x => drop j x.2) <$> P with Some ps => Some <$> expect (ps !! 0%nat) | None => Ok None end) = Ok dp).
    { destruct P as [[q dq]|]; cbn [fmap option_fmap option_map fst snd] in *.
      - rewrite Hvg in Hp. injection Hp as <-. destruct Hdp as (y & -> & Hy). destruct HP as (Hlq & _ & p0 & p1 & p2 & Haq).
        destruct (lookup_lt_is_Some_2 dq j ltac:(lia)) as [z Hz]. rewrite lookup_drop, Nat.add_0_r, Hz. cbn.
        change (q + S (S (S (S j))))%nat with (q + (4 + j))%nat in Hy. unfold as_data in Hy. rewrite (level_data _ _ _ _ _ _ _ _ _ Haq Hm Hz) in Hy. cbn [expect mbind outcome_bind] in Hy.
        rewrite String.eqb_refl in Hy. by injection Hy as <-.
      - injection Hp as <-. by rewrite Hdp. }
    assert (Hstep : entry_step n h (<[(n + (4 + j))%nat := OData (mod_name m) d]> h)).
    { split; [by rewrite length_insert|]. intros lo hi Hc. eapply kept_insert; [exact Ho|]. unfold ConfBuild.size in *. lia. }
    destruct (IH (S j) (<[j := d]> ds) (<[(n + (4 + j))%nat := OData (mod_name m) d]> h) h') as (ds' & H1 & H2 & H3 & H4).
    + intros i y Hy. destruct (Hsub (S i) y Hy) as [Hy1 Hy2]. split; [|done]. by replace (S j + i)%nat with (j + S i)%nat by lia.
    + lia.
    + by rewrite length_insert.
    + by apply level_set.
    + by eapply above_step.
    + exact E.
    + exists (d :: ds'). rewrite (drop_S _ _ _ Hx). cbn [merge_datas]. rewrite Hpar. cbn [mbind outcome_bind]. rewrite Hd. cbn [mbind outcome_bind].
      assert (tail <$> ((fun x => drop j x.2) <$> P) = (fun x => drop (S j) x.2) <$> P) as ->.
      { destruct P as [[q dq]|]; [|done]. cbn. f_equal. clear. revert j. induction dq as [|y dq IHq]; intros [|j]; try done. apply IHq. }
      rewrite drop_insert_lt in H1 by lia. rewrite H1. split; [done|]. split; [|split; [by eapply entry_step_trans|cbn; lia]].
      rewrite (take_S_r _ _ d), take_insert_ge in H2 by (lia || (apply list_lookup_insert_eq; lia)). by rewrite <- app_assoc in H2.
Qed.

Lemma merge_level_ok n o0 o1 o2 P ds h h' :
  length ds = length datas -> at_ h n (level o0 o1 o2 ds n) -> above h n P ->
  merge_level modules ((fun x => refs x.1) <$> P) (refs n) h = Ok h' ->
  exists ds', merge_datas datas (snd <$> P) ds = Ok ds' /\ at_ h' n (level o0 o1 o2 ds' n) /\ entry_step n h h' /\ length ds' = length datas.
Proof.
  intros Hlen Ha HP E. rewrite merge_level_filter in E. pose proof (nm_block _ _ _ _ _ _ NM) as Hb.
  assert (Hmeets : forall m, m ∈ ([net; net_server; net_local; net_local_core] ++ datas)%list -> meets MODULE_TYPE_NET m = true).
  { intros m Hm. rewrite <- Hb in Hm. apply list_elem_of_filter in Hm as [Hm _]. by apply Is_true_true. }
  rewrite Hb in E. cbn [app merge_level] in E. rewrite !Hmeets in E by set_solver. cbn [negb] in E.
  destruct (nm_net _ _ _ _ _ _ NM) as (_ & _ & C0). destruct (nm_server _ _ _ _ _ _ NM) as (_ & N1 & _).
  destruct (nm_local _ _ _ _ _ _ NM) as (_ & N2 & _). destruct (nm_core _ _ _ _ _ _ NM) as (_ & N3 & _).
  repeat (apply outcome_bind_ok in E as (? & _ & E); apply outcome_bind_ok in E as (? & _ & E);
    let x := fresh "g" in let Hx := fresh "Hx" in apply outcome_bind_ok in E as (x & Hx & E);
    apply merge_structure in Hx as ->; [|first [left; exact C0|right; rewrite ?N1, ?N2, ?N3; set_solver]]).
  destruct (merge_datas_level n o0 o1 o2 P datas 0 ds h h') as (ds' & H1 & H2 & H3 & H4); [|done..|].
  - intros i m Hm. split; [done|]. apply Hmeets. apply elem_of_app. right. by eapply list_elem_of_lookup_2.
  - exists ds'. split; [|done]. rewrite drop_0 in H1. rewrite <- H1. by destruct P.
Qed.

(** ** Merging what is below a level *)

(** Nothing changes outside the places from [lo] to [hi]. *)
Definition framed (lo hi : nat) h h' : Prop :=
  length h' = length h /\ forall a b, (b <= lo)%nat \/ (hi <= a)%nat -> kept a b h h'.

Lemma framed_refl lo hi h : framed lo hi h h.
Proof. split; [done|]. intros. apply kept_refl. Qed.

Lemma framed_trans lo hi lo1 hi1 lo2 hi2 h1 h2 h3 :
  framed lo1 hi1 h1 h2 -> framed lo2 hi2 h2 h3 -> (lo <= lo1)%nat -> (lo <= lo2)%nat -> (hi1 <= hi)%nat -> (hi2 <= hi)%nat -> framed lo hi h1 h3.
Proof. intros [L1 K1] [L2 K2] ? ? ? ?. split; [congruence|]. intros a b Hc. eapply heap_kept_trans; [apply K1; lia|apply K2; lia]. Qed.

Lemma entry_framed n h h' : entry_step n h h' -> framed n (n + size)%nat h h'.
Proof. intros [L K]. split; [done|]. intros a b Hc. apply K. lia. Qed.

Definition level_at h (n : nat) ds : Prop := length ds = length datas /\ exists o0 o1 o2, at_ h n (level o0 o1 o2 ds n).

Lemma level_framed h h' n ds lo hi : level_at h n ds -> framed lo hi h h' -> (n + S size <= lo)%nat \/ (hi <= n)%nat -> level_at h' n ds.
Proof.
  intros (Hl & o0 & o1 & o2 & Ha) [_ K] Hc. split; [done|]. exists o0, o1, o2.
  eapply at_kept; [exact Ha|apply (K n (n + S size)%nat); lia|lia|by rewrite level_length].
Qed.

Lemma level_above h n p dp : level_at h p dp -> (p + S size <= n)%nat -> above h n (Some (p, dp)).
Proof. intros (Hl & Ha) Hp. split; [done|]. split; [by left|done]. Qed.

Lemma merge_locals_ok sb dp : forall rs ls lo hi h h',
  locals_at h sb lo rs ls hi -> level_at h sb dp -> (sb + S size <= lo)%nat -> merge_locals modules rs h = Ok h' ->
  exists ls', mapM (merge_datas datas (Some dp)) ls = Ok ls' /\ locals_at h' sb lo rs ls' hi /\ framed lo hi h h'.
Proof.
  induction rs as [|r rs IH]; intros [|l ls] lo hi h h' Hl Hp Hsb E; try done.
  - injection E as <-. exists []. split; [done|]. split; [done|apply framed_refl].
  - destruct Hl as (n & Hn & -> & (Hlen & o0 & o1 & nc & Ha) & Hls). pose proof (locals_le _ _ _ _ _ _ Hls).
    cbn [merge_locals] in E. unfold as_local in E. rewrite (level_object _ _ 2%nat _ _ _ _ _ Ha eq_refl I) in E.
    cbn [expect mbind outcome_bind] in E. apply outcome_bind_ok in E as (h1 & E1 & E).
    destruct (merge_level_ok n o0 o1 (OLocal nc (refs sb) (refs n)) (Some (sb, dp)) l h h1 Hlen Ha) as (l' & M1 & A1 & S1 & L1);
      [by apply level_above; [|lia]|done|]. pose proof (entry_framed _ _ _ S1) as F1.
    destruct (IH ls (n + S size)%nat hi h1 h') as (ls' & M2 & A2 & F2); [| |lia|done|].
    + eapply locals_kept; [exact Hls|]. apply F1. lia.
    + eapply level_framed; [exact Hp|exact F1|lia].
    + exists (l' :: ls'). cbn [mapM]. cbn [fmap option_fmap option_map snd] in M1. rewrite M1. cbn [mbind outcome_bind]. rewrite M2. cbn [mbind outcome_bind mret outcome_ret].
      split; [done|]. split; [|eapply framed_trans; [exact F1|exact F2|lia..]].
      exists n. split; [done|]. split; [done|]. split; [|done]. split; [done|]. exists o0, o1, nc.
      eapply at_kept; [exact A1|apply (proj2 F2 n (n + S size)%nat); lia|lia|by rewrite level_length].
Qed.

Lemma merge_servers_ok mb dm : forall rs svs lo hi h h',
  servers_at h mb lo rs svs hi -> level_at h mb dm -> (mb + S size <= lo)%nat -> merge_servers modules rs h = Ok h' ->
  exists svs', mapM (merge_server_t datas dm) svs = Ok svs' /\ servers_at h' mb lo rs svs' hi /\ framed lo hi h h'.
Proof.
  induction rs as [|r rs IH]; intros [|sv svs] lo hi h h' Hl Hp Hmb E; try done.
  - injection E as <-. exists []. split; [done|]. split; [done|apply framed_refl].
  - destruct Hl as (n & m & subs & Hn & -> & (Hlen & (o0 & o2 & Ha) & Hls) & Hss).
    pose proof (locals_le _ _ _ _ _ _ Hls). pose proof (servers_le _ _ _ _ _ _ Hss).
    cbn [merge_servers] in E. unfold as_server in E. rewrite (level_object _ _ 1%nat _ _ _ _ _ Ha eq_refl I) in E.
    cbn [expect mbind outcome_bind] in E. apply outcome_bind_ok in E as (h1 & E1 & E). apply outcome_bind_ok in E as (h2 & E2 & E).
    destruct (merge_level_ok n o0 (OServer (refs mb) (refs n) subs) o2 (Some (mb, dm)) (s_data sv) h h1 Hlen Ha) as (ds' & M1 & A1 & S1 & L1);
      [by apply level_above; [|lia]|done|]. pose proof (entry_framed _ _ _ S1) as F1.
    destruct (merge_locals_ok n ds' subs (s_locals sv) (n + S size)%nat m h1 h2) as (ls' & M2 & A2 & F2); [| |lia|done|].
    { eapply locals_kept; [exact Hls|]. apply F1. lia. }
    { split; [done|]. by exists o0, (OServer (refs mb) (refs n) subs), o2. }
    destruct (IH svs m hi h2 h') as (svs' & M3 & A3 & F3); [| |lia|done|].
    { eapply servers_kept; [exact Hss|]. eapply heap_kept_trans; [apply F1; lia|apply F2; lia]. }
    { eapply level_framed; [eapply level_framed; [exact Hp|exact F1|lia]|exact F2|lia]. }
    exists (mkServerT ds' ls' :: svs'). cbn [fmap option_fmap option_map snd] in M1. cbn [mapM]. assert (merge_server_t datas dm sv = Ok (mkServerT ds' ls')) as ->. { unfold merge_server_t. rewrite M1. cbn [mbind outcome_bind]. by rewrite M2. } cbn [mbind outcome_bind].
    rewrite M3. cbn [mbind outcome_bind mret outcome_ret]. split; [done|]. split.
    + exists n, m, subs. split; [done|]. split; [done|]. split; [|done]. split; [done|]. split.
      * exists o0, o2. cbn [s_data]. eapply at_kept; [exact A1|eapply heap_kept_trans; [apply (proj2 F2 n (n + S size)%nat); lia|apply (proj2 F3); lia]|lia|by rewrite level_length].
      * cbn [s_locals]. eapply locals_kept; [exact A2|]. apply F3. lia.
    + eapply framed_trans; [eapply (framed_trans n m); [exact F1|exact F2|lia..]|exact F3|lia..].
Qed.

Lemma merge_net_ok root nb lo t h h' :
  net_at h root nb lo t -> merge_confs modules root h = Ok h' ->
  exists t', merge_net_t datas t = Ok t' /\ net_at h' root nb lo t'.
Proof.
  intros (Hlen & Hlo & Hr1 & Hr2 & (mains & Hm1 & Hm2) & o1 & o2 & nc & subs & Ha & Hs) E.
  pose proof (servers_le _ _ _ _ _ _ Hs). pose proof (nm_main _ _ _ _ _ _ NM). destruct (structure_index NM) as (I0 & _).
  unfold merge_confs in E. rewrite (proj1 (nm_net _ _ _ _ _ _ NM)) in E. cbn [mbind outcome_bind] in E.
  destruct (Z.ltb_spec (main_index net) 0); [lia|]. unfold as_vec in E. rewrite Hm1 in E. cbn [expect mbind outcome_bind] in E.
  rewrite Hm2 in E. cbn [mbind outcome_bind] in E. rewrite (level_vec _ _ _ _ _ _ Hlen Ha) in E. cbn [expect mbind outcome_bind] in E.
  apply outcome_bind_ok in E as (h1 & E1 & E).
  destruct (merge_level_ok nb (OHead "net" nc subs) o1 o2 None (n_data t) h h1 Hlen Ha I E1) as (ds' & M1 & A1 & S1 & L1).
  pose proof (entry_framed _ _ _ S1) as F1. rewrite I0 in E. destruct (Z.ltb_spec 0 0); [lia|].
  assert (vget (refs nb) 0 = Ok (nb + 0)%nat) as Hv.
  { apply vget_ok. split; [lia|]. apply refs_lookup. unfold ConfBuild.size. lia. }
  rewrite Hv in E. cbn [mbind outcome_bind] in E. unfold as_head in E.
  rewrite (level_object _ _ 0%nat _ _ _ _ _ A1 eq_refl I) in E. cbn [expect mbind outcome_bind] in E. rewrite String.eqb_refl in E. cbn [mbind outcome_bind] in E.
  destruct (merge_servers_ok nb ds' subs (n_servers t) lo (length h) h1 h') as (svs' & M2 & A2 & F2); [| |lia|done|].
  - eapply servers_kept; [exact Hs|]. apply F1. lia.
  - split; [done|]. by exists (OHead "net" nc subs), o1, o2.
  - exists (mkNetT ds' svs'). split.
    + unfold merge_net_t. cbn [fmap option_fmap option_map] in M1. rewrite M1. cbn [mbind outcome_bind]. by rewrite M2.
    + split; [done|]. split; [done|]. split; [done|]. split; [done|]. split.
      * exists mains. split; [|done]. eapply root_kept; [exact Hm1|]. eapply heap_kept_trans; [apply F1; lia|apply F2; lia].
      * exists o1, o2, nc, subs. cbn [n_data n_servers]. split.
        -- eapply at_kept; [exact A1|apply (proj2 F2 nb (nb + S size)%nat); lia|lia|by rewrite level_length].
        -- by rewrite (proj1 F2), (proj1 F1).
Qed.
End merge.
