(* ===== verification/ConfCore.v ===== *)
(** The settings of [net_core] ([any-proxy/src/config/net_core.rs]): what they
    start from, what each command stores, and what a level takes from the one
    above it.  The fields of a kind are an enumeration and the struct a function
    of them; what [ConfStream::new] makes of the settings is that of
    [StreamCopy]. *)
From stdpp Require Import base gmap strings list.
From S2P Require Import Prelude RustStd ConfValue ConfModules ConfHeap.
From S2P Require StreamCopy.
#[local] Open Scope string_scope.
#[local] Open Scope Z_scope.

(** ** The fields *)

Inductive SizeField :=
  | stream_cache_size | debug_print_access_log_time | debug_print_stream_flow_time | stream_so_singer_time
  | download_limit_rate_after | download_limit_rate | upload_limit_rate_after | upload_limit_rate
  | download_tmp_file_size | upload_tmp_file_size | download_tmp_file_reopen_size | upload_tmp_file_reopen_size
  | sendfile_max_write_size | read_buffer_page_size | write_buffer_page_size
  | client_timeout_mil_time_ebpf | upstream_timeout_mil_time_ebpf | stream_delay_mil_time | stream_nodelay_size
  | directio | tmp_file_cache_size | expires | static_max_open_file | static_cache_after_requests.

Inductive FlagField :=
  | is_upload_open_stream_cache | is_download_open_stream_cache | debug_is_open_stream_work_times | is_tmp_file_io_page
  | debug_is_open_print | is_open_sendfile | is_proxy_protocol_hello | is_open_ebpf | is_disable_share_http_context
  | is_port_direct_ebpf | stream_nopush | transfer_encoding_chunked.

Inductive NameField := tcp_config_name | quic_config_name.

#[export] Instance SizeField_eq : EqDecision SizeField.
Proof. solve_decision. Defined.
#[export] Instance FlagField_eq : EqDecision FlagField.
Proof. solve_decision. Defined.
#[export] Instance NameField_eq : EqDecision NameField.
Proof. solve_decision. Defined.

(** The commands by their names, with the type of the value they read. *)
Definition size_cmds : list (string * (SizeField * IntTy)) :=
  [("stream_cache_size", (stream_cache_size, Usize)); ("debug_print_access_log_time", (debug_print_access_log_time, U64));
   ("debug_print_stream_flow_time", (debug_print_stream_flow_time, U64)); ("stream_so_singer_time", (stream_so_singer_time, Usize));
   ("download_limit_rate_after", (download_limit_rate_after, U64)); ("download_limit_rate", (download_limit_rate, U64));
   ("upload_limit_rate_after", (upload_limit_rate_after, U64)); ("upload_limit_rate", (upload_limit_rate, U64));
   ("download_tmp_file_size", (download_tmp_file_size, U64)); ("upload_tmp_file_size", (upload_tmp_file_size, U64));
   ("download_tmp_file_reopen_size", (download_tmp_file_reopen_size, U64)); ("upload_tmp_file_reopen_size", (upload_tmp_file_reopen_size, U64));
   ("sendfile_max_write_size", (sendfile_max_write_size, Usize)); ("read_buffer_page_size", (read_buffer_page_size, Usize));
   ("write_buffer_page_size", (write_buffer_page_size, Usize)); ("client_timeout_mil_time_ebpf", (client_timeout_mil_time_ebpf, U64));
   ("upstream_timeout_mil_time_ebpf", (upstream_timeout_mil_time_ebpf, U64)); ("stream_delay_mil_time", (stream_delay_mil_time, U64));
   ("stream_nodelay_size", (stream_nodelay_size, Usize)); ("directio", (directio, U64)); ("tmp_file_cache_size", (tmp_file_cache_size, Usize));
   ("expires", (expires, Usize)); ("static_max_open_file", (static_max_open_file, Usize));
   ("static_cache_after_requests", (static_cache_after_requests, Usize))].

Definition flag_cmds : list (string * FlagField) :=
  [("is_upload_open_stream_cache", is_upload_open_stream_cache); ("is_download_open_stream_cache", is_download_open_stream_cache);
   ("debug_is_open_stream_work_times", debug_is_open_stream_work_times); ("is_tmp_file_io_page", is_tmp_file_io_page);
   ("debug_is_open_print", debug_is_open_print); ("is_open_sendfile", is_open_sendfile);
   ("is_proxy_protocol_hello", is_proxy_protocol_hello); ("is_open_ebpf", is_open_ebpf);
   ("is_disable_share_http_context", is_disable_share_http_context); ("is_port_direct_ebpf", is_port_direct_ebpf);
   ("stream_nopush", stream_nopush); ("transfer_encoding_chunked", transfer_encoding_chunked)].

Definition name_cmds : list (string * NameField) :=
  [("tcp_config_name", tcp_config_name); ("quic_config_name", quic_config_name)].

(** The constants [..._DEFAULT]. *)
Definition size_default (f : SizeField) : Z :=
  match f with
  | stream_cache_size => 131072
  | sendfile_max_write_size => 1048576
  | read_buffer_page_size => 8
  | write_buffer_page_size => 16
  | client_timeout_mil_time_ebpf => 120000
  | upstream_timeout_mil_time_ebpf => 2000
  | stream_nodelay_size => 8192
  | tmp_file_cache_size => 10
  | _ => 0
  end.
Definition flag_default (f : FlagField) : bool :=
  match f with
  | is_upload_open_stream_cache | is_download_open_stream_cache | is_tmp_file_io_page | is_port_direct_ebpf => true
  | _ => false
  end.
Definition name_default (f : NameField) : string :=
  match f with tcp_config_name => "tcp_config_default" | quic_config_name => "quic_config_default" end.
Definition STREAM_MAX_DELAY_MIL_TIME_DEFAULT : Z := 200.

(** [DomainFromHttpV1] *)
Record DomainFromHttpV1 := mkDomainFrom { is_open : bool; check_methods : gmap string bool }.
Definition domain_from_new : DomainFromHttpV1 := mkDomainFrom false ∅.

(** The plugin of a stream, of [net_core_plugin]. *)
Inductive PluginHandle := PluginUnset | PluginCache | PluginMemory.

(** The maps of open static files, shared by reference, the page size of
    [default_config], and the toml reader of a [DomainFromHttpV1]. *)
Class CoreWorld : Type := {
  StaticFiles : Type;
  files_new : StaticFiles;
  files_empty : StaticFiles -> bool;
  PAGE_SIZE : Z;
  toml_domain : string -> outcome (bool * list (string * bool));
}.

Section core.
Context `{CoreWorld}.

Record Conf := mkConf {
  size_of : SizeField -> Z;
  flag_of : FlagField -> bool;
  name_of : NameField -> string;
  domain : string;
  close_type : StreamCopy.StreamCloseType;
  domain_from_http_v1 : DomainFromHttpV1;
  http_static_file : StaticFiles;
  http_static_file_request_num : StaticFiles;
  download : StreamCopy.ConfStream * PluginHandle;
  upload : StreamCopy.ConfStream * PluginHandle;
}.

Definition set_size (f : SizeField) (n : Z) (c : Conf) : Conf :=
  mkConf (fun g => if decide (g = f) then n else size_of c g) (flag_of c) (name_of c) (domain c) (close_type c)
    (domain_from_http_v1 c) (http_static_file c) (http_static_file_request_num c) (download c) (upload c).
Definition set_flag (f : FlagField) (b : bool) (c : Conf) : Conf :=
  mkConf (size_of c) (fun g => if decide (g = f) then b else flag_of c g) (name_of c) (domain c) (close_type c)
    (domain_from_http_v1 c) (http_static_file c) (http_static_file_request_num c) (download c) (upload c).
Definition set_name (f : NameField) (s : string) (c : Conf) : Conf :=
  mkConf (size_of c) (flag_of c) (fun g => if decide (g = f) then s else name_of c g) (domain c) (close_type c)
    (domain_from_http_v1 c) (http_static_file c) (http_static_file_request_num c) (download c) (upload c).
Definition set_domain (s : string) (c : Conf) : Conf :=
  mkConf (size_of c) (flag_of c) (name_of c) s (close_type c)
    (domain_from_http_v1 c) (http_static_file c) (http_static_file_request_num c) (download c) (upload c).
Definition set_close (t : StreamCopy.StreamCloseType) (c : Conf) : Conf :=
  mkConf (size_of c) (flag_of c) (name_of c) (domain c) t
    (domain_from_http_v1 c) (http_static_file c) (http_static_file_request_num c) (download c) (upload c).
Definition set_domain_from (d : DomainFromHttpV1) (c : Conf) : Conf :=
  mkConf (size_of c) (flag_of c) (name_of c) (domain c) (close_type c)
    d (http_static_file c) (http_static_file_request_num c) (download c) (upload c).

(** [Conf::new] *)
Definition conf_new : outcome Conf :=
  stream ← StreamCopy.conf_stream_new PAGE_SIZE 1 0 1 1 1 true 2 2 0 8192;
  Ok (mkConf size_default flag_default name_default "" StreamCopy.Shutdown domain_from_new files_new files_new
        (stream, PluginUnset) (stream, PluginUnset)).

(** ** The commands *)

Definition get_int (t : IntTy) (v : Value) : outcome Z :=
  match v with VInt t' n => if decide (t = t') then Ok n else Panic | _ => Panic end.
Definition get_bool (v : Value) : outcome bool := match v with VBool b => Ok b | _ => Panic end.
Definition get_str (v : Value) : outcome string := match v with VStr s => Ok s | _ => Panic end.

(** What a size is cut to. *)
Definition size_kept (f : SizeField) (n : Z) : Z :=
  match f with
  | read_buffer_page_size | write_buffer_page_size => if n <? 2 then 2 else n
  | stream_delay_mil_time => if STREAM_MAX_DELAY_MIL_TIME_DEFAULT <? n then STREAM_MAX_DELAY_MIL_TIME_DEFAULT else n
  | stream_nodelay_size => swrap64 n
  | _ => n
  end.

Definition close_of (s : string) : outcome StreamCopy.StreamCloseType :=
  if String.eqb s "fast" then Ok StreamCopy.Fast
  else if String.eqb s "shutdown" then Ok StreamCopy.Shutdown
  else if String.eqb s "wait_empty" then Ok StreamCopy.WaitEmpty
  else Err "".

(** The methods are trimmed and put in lower case, the later of two that
    become the same stays. *)
Definition domain_from (str : string) : outcome DomainFromHttpV1 :=
  '(open, methods) ← toml_domain str;
  Ok (mkDomainFrom open (foldl (fun m kv => <[to_lowercase (trim kv.1) := kv.2]> m) ∅ methods)).

Definition set_cmd (cmd : string) (v : Value) (c : Conf) : outcome Conf :=
  match assoc_s cmd size_cmds, assoc_s cmd flag_cmds, assoc_s cmd name_cmds with
  | Some (f, t), _, _ => n ← get_int t v; Ok (set_size f (size_kept f n) c)
  | _, Some f, _ => b ← get_bool v; Ok (set_flag f b c)
  | _, _, Some f => s ← get_str v; Ok (if 0 <? slen s then set_name f s c else c)
  | _, _, _ =>
      if String.eqb cmd "domain" then s ← get_str v; Ok (set_domain s c)
      else if String.eqb cmd "close_type" then s ← get_str v; t ← close_of s; Ok (set_close t c)
      else if String.eqb cmd "domain_from_http_v1" then s ← get_str v; d ← domain_from s; Ok (set_domain_from d c)
      else Err ""
  end.

(** ** Merging *)

(** What the two directions of a stream are given. *)
Definition download_of (c : Conf) : outcome StreamCopy.ConfStream :=
  StreamCopy.conf_stream_new PAGE_SIZE (size_of c download_tmp_file_size) (size_of c download_tmp_file_reopen_size)
    (size_of c download_limit_rate_after) (size_of c download_limit_rate) (size_of c stream_cache_size) (flag_of c is_tmp_file_io_page)
    (size_of c read_buffer_page_size) (size_of c write_buffer_page_size) (size_of c stream_delay_mil_time) (size_of c stream_nodelay_size).
Definition upload_of (c : Conf) : outcome StreamCopy.ConfStream :=
  StreamCopy.conf_stream_new PAGE_SIZE (size_of c upload_tmp_file_size) (size_of c upload_tmp_file_reopen_size)
    (size_of c upload_limit_rate_after) (size_of c upload_limit_rate) (size_of c stream_cache_size) (flag_of c is_tmp_file_io_page)
    (size_of c read_buffer_page_size) (size_of c write_buffer_page_size) (size_of c stream_delay_mil_time) (size_of c stream_nodelay_size).
Definition plugin_of (open : bool) : PluginHandle := if open then PluginCache else PluginMemory.

(** The settings of a level, with those above it. *)
Definition merge_size (f : SizeField) (p c : Z) : Z :=
  match f with tmp_file_cache_size => c | _ => if c =? size_default f then p else c end.
Definition merge_flag (f : FlagField) (p c : bool) : bool := if eqb c (flag_default f) then p else c.
Definition merge_name (f : NameField) (p c : string) : string :=
  if String.eqb c (name_default f) && (0 <? slen p) then p else c.
Definition merge_close (p c : StreamCopy.StreamCloseType) : StreamCopy.StreamCloseType :=
  match c with StreamCopy.Shutdown => p | _ => c end.
Definition merge_settings (p c : Conf) : Conf :=
  mkConf (fun f => merge_size f (size_of p f) (size_of c f)) (fun f => merge_flag f (flag_of p f) (flag_of c f))
    (fun f => merge_name f (name_of p f) (name_of c f)) (if String.eqb (domain c) "" then domain p else domain c)
    (merge_close (close_type p) (close_type c)) (if negb (is_open (domain_from_http_v1 c)) then domain_from_http_v1 p else domain_from_http_v1 c)
    (if files_empty (http_static_file c) then http_static_file p else http_static_file c)
    (if files_empty (http_static_file_request_num c) then http_static_file_request_num p else http_static_file_request_num c)
    (download c) (upload c).

Definition merge_conf (parent : option Conf) (child : Conf) : outcome Conf :=
  match parent with
  | None => Ok child
  | Some p =>
      let c := merge_settings p child in
      down ← download_of c; up ← upload_of c;
      Ok (mkConf (size_of c) (flag_of c) (name_of c) (domain c) (close_type c) (domain_from_http_v1 c) (http_static_file c)
            (http_static_file_request_num c) (down, plugin_of (flag_of c is_download_open_stream_cache))
            (up, plugin_of (flag_of c is_upload_open_stream_cache)))
  end.
End core.

(** ** The module *)

Definition every_level : Z := Z.lor CMD_CONF_TYPE_MAIN (Z.lor CMD_CONF_TYPE_SERVER CMD_CONF_TYPE_LOCAL).
Definition cmd_level (name : string) : Z :=
  if bool_decide (name ∈ ["tcp_config_name"; "quic_config_name"; "domain"; "domain_from_http_v1"]) then CMD_CONF_TYPE_SERVER
  else if bool_decide (name ∈ ["tmp_file_cache_size"; "static_max_open_file"]) then CMD_CONF_TYPE_MAIN
  else every_level.

(** [MODULE_CMDS] *)
Definition core_cmds : list (Cmd SetFn) :=
  (fun name => mkCmd name (SetData name) CMD_TYPE_DATA (cmd_level name)) <$>
  ["stream_cache_size"; "is_upload_open_stream_cache"; "is_download_open_stream_cache"; "debug_is_open_stream_work_times";
   "debug_print_access_log_time"; "debug_print_stream_flow_time"; "is_tmp_file_io_page"; "stream_so_singer_time";
   "download_limit_rate_after"; "download_limit_rate"; "upload_limit_rate_after"; "upload_limit_rate"; "download_tmp_file_size";
   "upload_tmp_file_size"; "download_tmp_file_reopen_size"; "upload_tmp_file_reopen_size"; "debug_is_open_print"; "is_open_sendfile";
   "sendfile_max_write_size"; "tcp_config_name"; "quic_config_name"; "is_proxy_protocol_hello"; "domain"; "is_open_ebpf";
   "is_disable_share_http_context"; "read_buffer_page_size"; "write_buffer_page_size"; "is_port_direct_ebpf";
   "client_timeout_mil_time_ebpf"; "upstream_timeout_mil_time_ebpf"; "close_type"; "stream_delay_mil_time"; "stream_nopush";
   "stream_nodelay_size"; "directio"; "tmp_file_cache_size"; "expires"; "domain_from_http_v1"; "transfer_encoding_chunked";
   "static_max_open_file"; "static_cache_after_requests"].
Definition net_core : Module_ SetFn := new_module "net_core" MODULE_TYPE_NET false core_cmds.

(** The modules whose commands touch their own configuration only, [net_core]
    and others. *)
#[export] Instance core_and_others {D} `{CoreWorld} `{DataModules D} : DataModules (Conf + D) := {
  create_data name := if String.eqb name "net_core" then inl <$> conf_new else inr <$> create_data name;
  set_data name cmd v d :=
    match d with
    | inl c => if String.eqb name "net_core" then inl <$> set_cmd cmd v c else Panic
    | inr d => if String.eqb name "net_core" then Panic else inr <$> set_data name cmd v d
    end;
  merge_data name p d :=
    match d, p with
    | inl c, None => if String.eqb name "net_core" then inl <$> merge_conf None c else Panic
    | inl c, Some (inl p) => if String.eqb name "net_core" then inl <$> merge_conf (Some p) c else Panic
    | inr d, None => if String.eqb name "net_core" then Panic else inr <$> merge_data name None d
    | inr d, Some (inr p) => if String.eqb name "net_core" then Panic else inr <$> merge_data name (Some p) d
    | _, _ => Panic
    end;
}.
