(* ===== verification/ConfInherit.v ===== *)
(** What a [local] works with: the innermost setting that differs from where
    it starts. *)
From stdpp Require Import base gmap strings list.
From S2P Require Import Prelude RustStd ConfValue ConfModules ConfParse ConfText ConfHeap ConfTree ConfCore.
From S2P Require StreamCopy.
#[local] Open Scope string_scope.
#[local] Open Scope Z_scope.

#[export] Instance close_eq : EqDecision StreamCopy.StreamCloseType.
Proof. solve_decision. Defined.

(** ** The innermost value

    of a list from the outermost level in: the last that is not the default. *)
Section innermost.
Context {A : Type} `{EqDecision A} (d : A).

Fixpoint innermost (l : list A) : A :=
  match l with [] => d | x :: l => let y := innermost l in if decide (y = d) then x else y end.

(** What a level takes, when it takes what is above for the default. *)
Definition take_from (p c : A) : A := if decide (c = d) then p else c.

Lemma innermost_snoc l x : innermost (l ++ [x]) = take_from (innermost l) x.
Proof.
  unfold take_from in *. induction l as [|y l IH]; cbn.
  - rewrite decide_True by done. by case_decide.
  - rewrite IH. destruct (decide (x = d)) as [->|Hx]; [done|]. by rewrite decide_False.
Qed.

Lemma innermost_default l : Forall (fun x => x = d) l -> innermost l = d.
Proof. induction 1 as [|x l -> Hl IH]; [done|]. cbn. rewrite IH. by rewrite decide_True. Qed.

Lemma innermost_found l x k : x <> d -> Forall (fun y => y = d) k -> innermost (l ++ x :: k) = x.
Proof.
  intros Hx Hk. induction l as [|y l IH]; cbn.
  - rewrite innermost_default by done. by rewrite decide_True.
  - rewrite IH. by rewrite decide_False.
Qed.
End innermost.

(** The last that is set, or the first where none is. *)
Definition last_set {A} (unset : A -> bool) (l : list A) : option A :=
  match last (filter (fun x => unset x = false) l) with Some x => Some x | None => head l end.

Lemma last_set_snoc {A} (unset : A -> bool) l (x c : A) : last_set unset l = Some x ->
  last_set unset (l ++ [c]) = Some (if unset c then x else c).
Proof.
  unfold last_set. rewrite filter_app, filter_cons, filter_nil. intros E. destruct (unset c).
  - rewrite decide_False, app_nil_r by done. destruct (last _); [done|]. by destruct l.
  - rewrite decide_True by done. by rewrite last_snoc.
Qed.
Lemma last_set_one {A} (unset : A -> bool) (x : A) : last_set unset [x] = Some x.
Proof. unfold last_set. rewrite filter_cons, filter_nil. by case_decide. Qed.

Section inherit.
Context `{CoreWorld}.

(** ** Merging one level into the next *)

Lemma merge_size_take f p c : f <> tmp_file_cache_size -> merge_size f p c = take_from (size_default f) p c.
Proof. 
  intros Hf. unfold take_from. assert (merge_size f p c = if c =? size_default f then p else c) as -> by by destruct f.
  by destruct (Z.eqb_spec c (size_default f)); case_decide.
Qed.

Lemma merge_flag_take f p c : merge_flag f p c = take_from (flag_default f) p c.
Proof. unfold merge_flag, take_from. destruct (eqb_spec c (flag_default f)); by case_decide. Qed.

Lemma merge_name_take f p c : p <> "" -> merge_name f p c = take_from (name_default f) p c.
Proof.
  intros Hp. unfold merge_name, take_from. assert ((0 <? slen p) = true) as ->.
  { destruct p; [done|]. apply Z.ltb_lt. unfold slen. cbn. lia. }
  rewrite andb_true_r. destruct (String.eqb_spec c (name_default f)); by case_decide.
Qed.

Lemma merge_close_take p c : merge_close p c = take_from StreamCopy.Shutdown p c.
Proof. unfold take_from. by destruct c. Qed.

(** Settings above, from the outermost level in. *)
Fixpoint merge_levels (p : Conf) (cs : list Conf) : outcome Conf :=
  match cs with [] => Ok p | c :: cs => c ← merge_conf (Some p) c; merge_levels c cs end.

(** What the levels [ls], the outermost first, leave to the last of them. *)
Record inherited (ls : list Conf) (c : Conf) : Prop := {
  in_sizes : forall f, f <> tmp_file_cache_size -> size_of c f = innermost (size_default f) ((fun l => size_of l f) <$> ls);
  in_flags : forall f, flag_of c f = innermost (flag_default f) ((fun l => flag_of l f) <$> ls);
  in_names : forall f, Forall (fun l => name_of l f <> "") ls -> name_of c f = innermost (name_default f) ((fun l => name_of l f) <$> ls);
  in_domain : domain c = innermost "" (domain <$> ls);
  in_close : close_type c = innermost StreamCopy.Shutdown (close_type <$> ls);
  in_http : last_set (fun h => negb (is_open h)) (domain_from_http_v1 <$> ls) = Some (domain_from_http_v1 c);
  in_files : last_set files_empty (http_static_file <$> ls) = Some (http_static_file c);
  in_numbers : last_set files_empty (http_static_file_request_num <$> ls) = Some (http_static_file_request_num c);
  in_own : (fun l => size_of l tmp_file_cache_size) <$> last ls = Some (size_of c tmp_file_cache_size)
}.

Lemma inherited_one c : inherited [c] c.
Proof. split; intros; first [done|apply last_set_one|cbn; by rewrite decide_True]. Qed.

Lemma inherited_step ls p c c' : inherited ls p -> merge_conf (Some p) c = Ok c' -> inherited (ls ++ [c]) c'.
Proof.
  intros [Hs Hf Hn Hd Hc H1 H2 H3 Ho] E. unfold merge_conf in E. apply outcome_bind_ok in E as (down & _ & E). apply outcome_bind_ok in E as (up & _ & E).
  injection E as <-. split.
  - intros f Hne. cbn. rewrite merge_size_take, fmap_app by done. cbn. by rewrite innermost_snoc, Hs.
  - intros f. cbn. rewrite merge_flag_take, fmap_app. cbn. by rewrite innermost_snoc, Hf.
  - intros f [Hne _]%Forall_app. cbn. rewrite fmap_app. cbn. rewrite innermost_snoc, <- Hn by done. apply merge_name_take.
    assert (Hls : ls <> []) by (intros ->; done).
    rewrite Hn by done. clear -Hne Hls. revert Hls Hne. generalize ls. intros l.
    induction l as [|x l IH]; [done|]. intros _ [Hx Hl]%Forall_cons. cbn. case_decide as Hd; [done|].
    destruct l as [|y l]; [done|]. by apply IH.
  - cbn. rewrite fmap_app. cbn. rewrite innermost_snoc, <- Hd. unfold take_from. destruct (String.eqb_spec (domain c) ""); by case_decide.
  - cbn. rewrite fmap_app. cbn. by rewrite innermost_snoc, <- Hc, merge_close_take.
  - cbn. rewrite fmap_app. exact (last_set_snoc _ _ _ (domain_from_http_v1 c) H1).
  - cbn. rewrite fmap_app. exact (last_set_snoc _ _ _ (http_static_file c) H2).
  - cbn. rewrite fmap_app. exact (last_set_snoc _ _ _ (http_static_file_request_num c) H3).
  - by rewrite last_snoc.
Qed.

Lemma merged_streams p c c' : merge_conf (Some p) c = Ok c' ->
  download_of c' = Ok (download c').1 /\ (download c').2 = plugin_of (flag_of c' is_download_open_stream_cache) /\
  upload_of c' = Ok (upload c').1 /\ (upload c').2 = plugin_of (flag_of c' is_upload_open_stream_cache).
Proof.
  unfold merge_conf. intros E. apply outcome_bind_ok in E as (down & E1 & E). apply outcome_bind_ok in E as (up & E2 & E).
  injection E as <-. split; [exact E1|]. split; [done|]. split; [exact E2|done].
Qed.

(** ** Merging the tree *)

Context {D : Type} `{DataModules D}.

Lemma mapM_lookup {A B} (f : A -> outcome B) l k i a : mapM f l = Ok k -> l !! i = Some a -> exists b, k !! i = Some b /\ f a = Ok b.
Proof.
  revert k i. induction l as [|x l IH]; intros k i E Hi; [done|]. cbn [mapM] in E.
  apply outcome_bind_ok in E as (y & Ey & E). apply outcome_bind_ok in E as (k' & E' & E). injection E as <-.
  destruct i as [|i]; cbn in Hi |- *; [injection Hi as <-; by exists y|]. by apply (IH k' i).
Qed.

Lemma merge_datas_lookup (datas : list (Module_ SetFn)) : forall ps (ds ds' : list (Conf + D)) i m d,
  merge_datas datas ps ds = Ok ds' -> datas !! i = Some m -> ds !! i = Some d ->
  exists p d', (match ps with Some ps => exists x, p = Some x /\ ps !! i = Some x | None => p = None end) /\
    merge_data (mod_name m) p d = Ok d' /\ ds' !! i = Some d'.
Proof.
  induction datas as [|m0 datas IH]; intros ps [|d0 ds] ds' i m d E Hm Hd; try done. cbn [merge_datas] in E.
  apply outcome_bind_ok in E as (p & Ep & E). apply outcome_bind_ok in E as (d1 & E1 & E). apply outcome_bind_ok in E as (ds1 & E2 & E).
  injection E as <-. destruct i as [|i]; cbn in Hm, Hd.
  - injection Hm as <-. injection Hd as <-. exists p, d1. split; [|done]. destruct ps as [ps|]; [|by injection Ep].
    destruct (ps !! 0%nat) as [x|] eqn:Ex; [|done]. cbn in Ep. injection Ep as <-. by exists x.
  - destruct (IH (tail <$> ps) ds ds1 i m d E2 Hm Hd) as (q & d' & Hq & H1 & H2). exists q, d'. split; [|done].
    destruct ps as [ps|]; [|done]. destruct Hq as (x & -> & Hx). exists x. split; [done|]. by destruct ps.
Qed.

Lemma merge_core p c d' : merge_data (D := Conf + D) "net_core" (Some (inl p)) (inl c) = Ok d' -> exists c', d' = inl c' /\ merge_conf (Some p) c = Ok c'.
Proof. intros E. cbn in E. apply outcome_fmap_ok in E as (c' & E & <-). by exists c'. Qed.

(** C8. What a [local] works with, from the file to the stream.  Each setting of
    the [net_core] of a [local] is after merging that of the innermost of local,
    server and block whose value differs from the one every level starts from
    ([Conf::new]), and that one where none differs: to write the starting value
    at an inner level does not override what is set above it.  For the domain
    taken from HTTP and the two tables of static files, a level counts that has
    the one switched on, and that has an entry in the table.
    [tmp_file_cache_size] alone is never taken from above.  The two streams of
    the [local] are set up from these values, and get the plugin its two flags
    ask for. *)
Theorem settings_inherited (datas : list (Module_ SetFn)) (t t' : NetT (Conf + D)) i k j m0 sv l m s c :
  merge_net_t datas t = Ok t' -> datas !! i = Some m0 -> mod_name m0 = "net_core" ->
  n_data t !! i = Some (inl m) -> n_servers t !! k = Some sv -> s_data sv !! i = Some (inl s) ->
  s_locals sv !! j = Some l -> l !! i = Some (inl c) ->
  exists sv' l' c', n_servers t' !! k = Some sv' /\ s_locals sv' !! j = Some l' /\ l' !! i = Some (inl c') /\
    inherited [m; s; c] c' /\
    download_of c' = Ok (download c').1 /\ (download c').2 = plugin_of (flag_of c' is_download_open_stream_cache) /\
    upload_of c' = Ok (upload c').1 /\ (upload c').2 = plugin_of (flag_of c' is_upload_open_stream_cache).
Proof.
  unfold merge_net_t. intros E Hi Hname Hm Hk Hs Hj Hc. apply outcome_bind_ok in E as (ds & Eds & E). apply outcome_bind_ok in E as (svs & Esvs & E).
  injection E as <-. destruct (mapM_lookup _ _ _ _ _ Esvs Hk) as (sv' & Hsv' & Esv). unfold merge_server_t in Esv.
  apply outcome_bind_ok in Esv as (sds & Esds & Esv). apply outcome_bind_ok in Esv as (ls & Els & Esv). injection Esv as <-.
  destruct (mapM_lookup _ _ _ _ _ Els Hj) as (l' & Hl' & El).
  destruct (merge_datas_lookup _ _ _ _ _ _ _ Eds Hi Hm) as (p0 & d0 & -> & E0 & L0). rewrite Hname in E0. cbn in E0. injection E0 as <-.
  destruct (merge_datas_lookup _ _ _ _ _ _ _ Esds Hi Hs) as (p1 & d1 & (x1 & -> & Hx1) & E1 & L1). rewrite L0 in Hx1. injection Hx1 as <-.
  rewrite Hname in E1. apply merge_core in E1 as (s' & -> & E1).
  destruct (merge_datas_lookup _ _ _ _ _ _ _ El Hi Hc) as (p2 & d2 & (x2 & -> & Hx2) & E2 & L2). rewrite L1 in Hx2. injection Hx2 as <-.
  rewrite Hname in E2. apply merge_core in E2 as (c' & -> & E2).
  exists (mkServerT sds ls), l', c'. split; [done|]. split; [done|]. split; [done|]. split; [|by eapply merged_streams].
  apply (inherited_step [m; s] s' c c'); [|done]. apply (inherited_step [m] m s s'); [apply inherited_one|done].
Qed.
End inherit.
