(* ===== verification/ConfStart.v ===== *)
(** A configuration from its file to what its servers work with: the vectors
    that are there before the file is read, the reading, and the merging
    ([Modules::parse_module_config] of [any-base/src/module/module.rs], for the
    block [net]). *)
From S2P Require Import Prelude RustStd ConfValue ConfModules ConfParse ConfText ConfHeap ConfTree ConfBuild ConfMerge.
#[local] Open Scope string_scope.
#[local] Open Scope Z_scope.

Section start.
Context {D : Type} `{DataModules D} `{RuleText}.
Context (modules : list (Module_ SetFn)) (files : string -> option string).
#[local] Instance these_commands : Commands SetFn (CState D) Ref := net_commands modules.

(** The configurations of every head, and the heads that can be entered. *)
Fixpoint create_mains (ms : list (Module_ SetFn)) (h : list (Obj D)) : outcome (list Ref * list Z * list (Obj D)) :=
  match ms with
  | [] => Ok ([], [], h)
  | m :: ms =>
      if negb (creates m) then create_mains ms h
      else
        '(r, h) ← create_main_confs modules m h;
        '(rs, ks, h) ← create_mains ms h; Ok (r :: rs, main_index m :: ks, h)
  end.

Definition start : outcome (Ref * CState D) :=
  '(mains, ks, h) ← create_mains modules [];
  let '(root, h) := alloc (OVec mains) h in
  Ok (root, mkState h ks (-1)).

(** The servers of the block. *)
Definition net_servers (main_confs : Ref) (h : list (Obj D)) : outcome (list Ref) :=
  net ← module_named modules "net";
  mains ← as_vec h main_confs;
  main_conf ← vget mains (main_index net);
  confs ← as_vec h main_conf;
  r ← vget confs (ctx_index net);
  '(_, subs) ← as_head "net" h r; Ok subs.

(** What follows the reading, for [net]: [init_main_confs] asks that every
    server has the rule that matches all, then [merge_confs]. *)
Definition finish_net (main_confs : Ref) (h : list (Obj D)) : outcome (list (Obj D)) :=
  subs ← net_servers main_confs h;
  _ ← rules_complete modules subs h;
  merge_confs modules main_confs h.

Definition parse_module_config (fuel : nat) (name : string) : outcome (Ref * list (Obj D)) :=
  '(root, s) ← start;
  '(_, _, s) ← parse_config_file modules files fuel new_arg name root s;
  h ← finish_net root (heap s); Ok (root, h).
End start.

Section loaded.
Context {D : Type} `{DataModules D} `{RuleText}.
Context {modules datas : list (Module_ SetFn)} {net net_server net_local net_local_core : Module_ SetFn}.
Context (NM : NetModules modules datas net net_server net_local net_local_core).
#[local] Instance commands_here : Commands SetFn (CState D) Ref := net_commands modules.
#[local] Abbreviation net_at := (net_at (datas := datas) (net := net)).

Lemma create_confs_grows typ ms : forall h rs h', create_confs (D := D) typ ms h = Ok (rs, h') -> exists k, h' = (h ++ k)%list.
Proof.
  induction ms as [|m ms IH]; intros h rs h' E; cbn [create_confs] in E.
  - injection E as _ <-. exists []. by rewrite app_nil_r.
  - destruct (negb _); [by eapply IH|]. apply outcome_bind_ok in E as (o & _ & E). unfold alloc in E.
    apply outcome_bind_ok in E as ([rs1 h1] & E1 & E). injection E as <- <-. destruct (IH _ _ _ E1) as (k & ->).
    exists (o :: k). by rewrite <- app_assoc.
Qed.

Lemma create_main_grows m h r h' : create_main_confs (D := D) modules m h = Ok (r, h') -> exists k, h' = (h ++ k)%list.
Proof.
  unfold create_main_confs. destruct (_ <=? _); [done|]. intros E. apply outcome_bind_ok in E as ([rs h1] & E1 & E).
  unfold alloc in E. injection E as _ <-. destruct (create_confs_grows _ _ _ _ _ E1) as (k & ->). rewrite <- app_assoc. by eexists.
Qed.

Lemma create_mains_grows ms : forall h rs ks h', create_mains (D := D) modules ms h = Ok (rs, ks, h') -> exists k, h' = (h ++ k)%list.
Proof.
  induction ms as [|m ms IH]; intros h rs ks h' E; cbn [create_mains] in E.
  - injection E as _ _ <-. exists []. by rewrite app_nil_r.
  - destruct (negb _); [by eapply IH|]. apply outcome_bind_ok in E as ([r h1] & E1 & E).
    apply outcome_bind_ok in E as ([[rs1 ks1] h2] & E2 & E). injection E as _ _ <-.
    destruct (create_main_grows _ _ _ _ E1) as (k1 & ->). destruct (IH _ _ _ _ E2) as (k2 & ->). rewrite <- app_assoc. by eexists.
Qed.

(** The level of [net] is there, where its place among the heads says. *)
Lemma create_mains_net ds0 : fresh datas = Ok ds0 -> forall ms h rs ks h' k,
  filter (fun m => creates m) ms !! k = Some net -> create_mains (D := D) modules ms h = Ok (rs, ks, h') ->
  exists nb, rs !! k = Some (nb + ConfBuild.size (datas := datas))%nat /\ (nb + S (ConfBuild.size (datas := datas)) <= length h')%nat /\
    length ds0 = length datas /\
    at_ h' nb (level (datas := datas) (OHead "net" [] []) (OServer [] [] []) (OLocal [] [] []) ds0 nb).
Proof.
  intros Hf. induction ms as [|m ms IH]; intros h rs ks h' k Hk E; [by rewrite filter_nil, lookup_nil in Hk|].
  rewrite filter_cons in Hk. cbn [create_mains] in E. destruct (creates m); cbn [negb] in E.
  - apply outcome_bind_ok in E as ([r h1] & E1 & E). apply outcome_bind_ok in E as ([[rs1 ks1] h2] & E2 & E). injection E as <- _ <-.
    destruct (decide True) as [_|]; [|done]. destruct k as [|k]; cbn in Hk; [|destruct (IH _ _ _ _ _ Hk E2) as (nb & Hnb); by exists nb].
    injection Hk as ->. destruct (create_mains_grows _ _ _ _ _ E2) as (k2 & ->).
    unfold create_main_confs in E1. destruct (_ <=? _); [done|]. apply outcome_bind_ok in E1 as ([rs0 h0] & E0 & E1).
    rewrite (nm_type _ _ _ _ _ _ NM) in E0. destruct (create_level NM _ _ _ _ E0 Hf) as (-> & -> & Hl).
    unfold alloc in E1. injection E1 as <- <-. exists (length h). cbn [lookup list_lookup].
    rewrite !length_app, confs_length by done. split; [done|]. split; [cbn; lia|]. split; [done|].
    intros i o Hi. exists o. split; [|reflexivity]. unfold level in Hi. rewrite <- !app_assoc, lookup_app_r by lia.
    rewrite Nat.add_comm, Nat.add_sub. rewrite app_assoc. by apply lookup_app_l_Some.
  - destruct (decide False); [done|]. by eapply IH.
Qed.

Lemma start_net ds0 root s :
  fresh datas = Ok ds0 -> filter (fun m => creates m) modules !! Z.to_nat (main_index net) = Some net ->
  start (D := D) modules = Ok (root, s) -> exists nb, net_at (heap s) root nb (length (heap s)) (mkNetT ds0 []).
Proof.
  intros Hf Hk E. unfold start in E. apply outcome_bind_ok in E as ([[mains ks] h] & E1 & E). unfold alloc in E. injection E as <- <-.
  destruct (create_mains_net _ Hf _ _ _ _ _ _ Hk E1) as (nb & Hnb & Hle & Hl & Ha). exists nb. cbn [heap].
  unfold ConfBuild.net_at. cbn [n_data n_servers]. rewrite length_app. cbn [length]. split; [done|]. split; [lia|]. split; [lia|]. split; [lia|]. split.
  - exists mains. split; [by rewrite lookup_app_r, Nat.sub_diag by lia|]. apply vget_ok. split; [apply (nm_main _ _ _ _ _ _ NM)|done].
  - exists (OServer [] [] []), (OLocal [] [] []), [], []. split; [|cbn; lia].
    eapply at_kept; [exact Ha|apply (kept_app 0 (length h))|lia|]. by rewrite level_length.
Qed.

(** ** The items of the file *)

(** Whether the commands of a name all open a block, or none does. *)
Definition opening (f : SetFn) : bool := match f with SetHead | SetServer | SetLocal => true | _ => false end.
Definition all_opening (b : bool) (key : string) : bool :=
  forallb (fun m => forallb (fun c => negb (String.eqb key (cmd_name c)) || Bool.eqb (opening (cmd_set c)) b) (cmds m)) modules.
Fixpoint known (it : Item) : bool :=
  match it with
  | Note _ => true
  | Data key _ _ => all_opening false key
  | Block key items => all_opening true key && (fix all (l : list Item) : bool := match l with [] => true | i :: l => known i && all l end) items
  end.
Fixpoint all_known (items : list Item) : bool := match items with [] => true | i :: l => known i && all_known l end.

Lemma find_in_cmds_name ct key (cs : list (Cmd SetFn)) c : find_in_cmds ct key cs = Ok (Some c) -> cmd_name c = key.
Proof.
  induction cs as [|c' cs IH]; [done|]. cbn [find_in_cmds]. destruct (String.eqb_spec key (cmd_name c')) as [E|]; [|done].
  cbn [negb]. destruct (_ && _); [done|]. by intros [= ->].
Qed.

Lemma find_cmd_name mt ct key (ms : list (Module_ SetFn)) m c : find_cmd mt ct key ms = Ok (m, c) -> cmd_name c = key.
Proof.
  induction ms as [|m' ms IH]; [done|]. cbn [find_cmd]. destruct (_ && _); [done|].
  intros E. apply outcome_bind_ok in E as ([c'|] & Ef & E); [|by apply IH]. injection E as _ <-. by eapply find_in_cmds_name.
Qed.

Lemma run_set_kind m f a r (s : CState D) st : run_set modules m f a r s = Ok st -> is_done st = negb (opening f).
Proof.
  intros E. destruct f; cbn [run_set] in E; unfold head_block, server, local, rule, name, data_cmd, alloc in E; all_steps E; by injection E as <-.
Qed.

Lemma run_entry_kind key b a confs (s : CState D) typ value a' st :
  all_opening b key = true -> run_entry modules a confs s key typ value = Ok (a', st) -> is_done st = negb b.
Proof.
  intros Hb E. unfold run_entry in E. apply outcome_bind_ok in E as ([m c] & Hf & E).
  assert (opening (cmd_set c) = b) as <-.
  { unfold all_opening in Hb. rewrite forallb_forall in Hb. pose proof (find_cmd_in _ _ _ _ _ _ Hf) as (Hm & Hc & _).
    specialize (Hb m (proj1 (list_elem_of_In _ _) Hm)). rewrite forallb_forall in Hb.
    specialize (Hb c (proj1 (list_elem_of_In _ _) Hc)). rewrite (find_cmd_name _ _ _ _ _ _ Hf), String.eqb_refl in Hb. by apply eqb_prop. }
  assert (G : forall r st0 (s0 : CState D) a0, run_cmd m (cmd_set c) a0 r s0 = Ok st0 -> is_done st0 = negb (opening (cmd_set c))).
  { intros r st0 s0 a0. apply run_set_kind. }
  destruct (_ =? _); [destruct (negb _); [done|]; apply outcome_bind_ok in E as (x & Ex & E); injection E as _ <-; by eapply G|].
  destruct (_ =? _); [apply outcome_bind_ok in E as (x & Ex & E); injection E as _ <-; by eapply G|].
  apply outcome_bind_ok in E as (a1 & _ & E). destruct (is_block a1); [apply outcome_bind_ok in E as (x & Ex & E); injection E as _ <-; by eapply G|].
  apply outcome_bind_ok in E as (r & _ & E). apply outcome_bind_ok in E as (x & Ex & E). injection E as _ <-. by eapply G.
Qed.

Lemma known_fits it : known it = true -> fits (S := CState D) (R := Ref) modules it.
Proof.
  induction it as [key typ value|key items IH|text] using item_ind'; intros Hk; [|rewrite fits_block|done].
  - intros a confs s a' st. by apply (run_entry_kind _ false).
  - cbn [known] in Hk. apply andb_true_iff in Hk as [Hk Hs]. split; [intros a confs s a' st; by apply (run_entry_kind _ true)|].
    induction IH as [|i l Hi IH IHl]; [done|]. apply andb_true_iff in Hs as [H1 H2]. split; [by apply Hi|by apply IHl].
Qed.

Lemma all_known_fit items : all_known items = true -> all_fit (S := CState D) (R := Ref) modules items.
Proof.
  induction items as [|i l IH]; [done|]. cbn [all_known]. intros [Hi Hl]%andb_true_iff. split; [by apply known_fits|by apply IH].
Qed.

(** C6. From the text of a configuration to what its servers work with.  When
    the file that holds the text of a tree of blocks and entries is loaded with
    no error, the vectors of references that the program keeps for the block
    [net] (one for the block, one for each [server], one for each [local]) hold
    what the tree says: each configuration has its own entries, and has taken
    from its server, and this one from the block, what merging takes; there are
    as many servers and [local]s as blocks, in their order; and no
    configuration is another's by aliasing. *)
Theorem configuration_loaded files items name ds0 t fuel root h' :
  all_writable items = true -> all_known items = true -> files name = Some (print items) -> (enough items <= fuel)%nat ->
  filter (fun m => creates m) modules !! Z.to_nat (main_index net) = Some net ->
  fresh datas = Ok ds0 -> load_main modules datas items (mkNetT ds0 []) = Ok t ->
  parse_module_config (D := D) modules files fuel name = Ok (root, h') ->
  exists t', merge_net_t datas t = Ok t' /\ view_net modules datas h' root = Ok t'.
Proof.
  intros Hw Hk Hf Hn Hplace Hfresh Hload E. unfold parse_module_config in E.
  apply outcome_bind_ok in E as ([root0 s0] & Hstart & E). apply outcome_bind_ok in E as ([[a l] s] & Hparse & E).
  apply outcome_bind_ok in E as (h & Hfinish & E). injection E as -> ->.
  destruct (start_net _ _ _ Hfresh Hplace Hstart) as (nb & Hnet).
  unfold parse_config_file in Hparse. rewrite Hf in Hparse. cbn [ok_or mbind outcome_bind] in Hparse.
  rewrite (read_printed modules files items) in Hparse by (done || by apply all_known_fit).
  apply outcome_bind_ok in Hparse as ([b s1] & He & Hparse). destruct (_ && _); [done|]. injection Hparse as _ _ <-.
  assert (Hnet' : net_at (heap s1) root nb (length (heap s0)) t) by (eapply (exec_main NM); [|exact Hnet|exact Hload|exact He]; done).
  unfold finish_net in Hfinish. apply outcome_bind_ok in Hfinish as (subs & _ & Hfinish). apply outcome_bind_ok in Hfinish as ([] & _ & Hfinish).
  destruct (merge_net_ok NM _ _ _ _ _ _ Hnet' Hfinish) as (t' & Hm & Hv). exists t'. split; [done|]. by eapply see_net.
Qed.
End loaded.
