(* ===== verification/ConfRun.v ===== *)
(** The modules of the [net] block as they are declared, and a file read by
    them. *)
From stdpp Require Import base gmap strings list.
From S2P Require Import Prelude RustStd ConfValue ConfModules ConfParse ConfText ConfHeap ConfTree ConfBuild ConfMerge ConfCore ConfInherit ConfStart.
From S2P Require StreamCopy Var.
#[local] Open Scope string_scope.
#[local] Open Scope Z_scope.

(** ** The modules *)

Definition net : Module_ SetFn := new_module "net" MODULE_TYPE_NET true [mkCmd "net" SetHead CMD_TYPE_MAIN every_level].
Definition net_server : Module_ SetFn := new_module "net_server" MODULE_TYPE_NET false [mkCmd "server" SetServer CMD_TYPE_SUB every_level].
Definition net_local : Module_ SetFn := new_module "net_local" MODULE_TYPE_NET false [mkCmd "local" SetLocal CMD_TYPE_SUB every_level].
Definition net_local_core : Module_ SetFn := new_module "net_local_core" MODULE_TYPE_NET false
  [mkCmd "rule" SetRule CMD_TYPE_DATA CMD_CONF_TYPE_LOCAL; mkCmd "name" SetName CMD_TYPE_DATA CMD_CONF_TYPE_LOCAL].

(** The modules of [net] in the order of [anymodule.rs], after a block that
    has only its head; those that follow [net_core] are left out. *)
Definition declared : list (Module_ SetFn) :=
  [new_module "upstream" MODULE_TYPE_UPSTREAM true [mkCmd "upstream" SetHead CMD_TYPE_MAIN every_level];
   net; net_server; net_local; net_local_core; net_core].
Definition modules : list (Module_ SetFn) := match parse_modules declared with Ok (ms, _) => ms | _ => [] end.
Definition numbered_ (name : string) : Module_ SetFn :=
  match module_named modules name with Ok m => m | _ => net end.
Definition datas : list (Module_ SetFn) := [numbered_ "net_core"].

Ltac each_member H := repeat (apply elem_of_cons in H as [->|H]); try by apply elem_of_nil in H.

Ltac each_command Hm Hc := vm_compute in Hm; each_member Hm; vm_compute in Hc; each_member Hc.

Lemma modules_ok : NetModules modules datas (numbered_ "net") (numbered_ "net_server") (numbered_ "net_local") (numbered_ "net_local_core").
Proof.
  split.
  - vm_compute. reflexivity.
  - intros i m Hi. do 5 (destruct i as [|i]; [vm_compute in Hi; injection Hi as <-; vm_compute; done|]). done.
  - vm_compute. done.
  - vm_compute. done.
  - vm_compute. done.
  - vm_compute. done.
  - vm_compute. done.
  - intros m c cmd Hm Hc E. each_command Hm Hc; done.
  - intros m c Hm Hc. each_command Hm Hc; done.
  - intros m c Hm Hc E. each_command Hm Hc; try discriminate E; vm_compute; done.
  - vm_compute. done.
  - intros m c cmd Hm Hc E. each_command Hm Hc; done.
  - intros m Hm. vm_compute in Hm. each_member Hm. split; [done|]. intros Hx. repeat (apply elem_of_cons in Hx as [Hx|Hx]; [done|]). by apply elem_of_nil in Hx.
Qed.

(** ** A file *)

(** A world: the rules of a text are one, with the text as its filter. *)
#[local] Instance small_world : CoreWorld := {|
  StaticFiles := list string; files_new := []; files_empty l := bool_decide (l = []); PAGE_SIZE := 4096;
  toml_domain _ := Ok (true, [(" GET", true)]);
|}.
#[local] Instance no_others : DataModules Empty_set := {|
  create_data _ := Panic; set_data _ _ _ _ := Panic; merge_data _ _ _ := Panic;
|}.
#[local] Instance one_rule : RuleText := {|
  toml_rules s := Ok [("", s)]; regex_ok _ := true; sample_var _ := Ok None;
|}.
#[local] Instance commands_run : Commands SetFn (CState (Conf + Empty_set)) Ref := net_commands modules.

Definition small_file : list Item :=
  [Note " limits for all";
   Block "net" [
     Data "stream_cache_size" "usize" "1m";
     Data "stream_delay_mil_time" "u64" "500ms";
     Block "server" [
       Data "domain" "str" "example.org";
       Data "download_limit_rate" "u64" "64k";
       Block "local" [
         Data "rule" "str" "$$/a/.*";
         Data "stream_cache_size" "usize" "128k";
         Data "is_upload_open_stream_cache" "bool" "false"];
       Block "local" [Data "read_buffer_page_size" "usize" "1"]]]].
Definition small_files (name : string) : option string := if String.eqb name "conf/anyproxy.conf" then Some (print small_file) else None.

Definition loaded : outcome (NetT (Conf + Empty_set)) :=
  '(root, h) ← parse_module_config modules small_files 16 "conf/anyproxy.conf"; view_net modules datas h root.

Definition sizes_of (l : list (Conf + Empty_set)) : list Z :=
  match l with inl c :: _ => [size_of c stream_cache_size; size_of c stream_delay_mil_time; size_of c download_limit_rate; size_of c read_buffer_page_size] | _ => [] end.
Definition all_sizes (t : NetT (Conf + Empty_set)) : list Z * list (list Z * list (list Z)) :=
  (sizes_of (n_data t), (fun sv => (sizes_of (s_data sv), sizes_of <$> s_locals sv)) <$> n_servers t).

(** Two [local]s: a setting is the innermost; [128k], the size it starts from,
    is not seen as a setting; and a rule that matches all is added. *)
Example small_file_sizes :
  all_sizes <$> loaded =
    Ok ([1048576; 200; 0; 8], [([1048576; 200; 65536; 8], [[1048576; 200; 65536; 8]; [1048576; 200; 65536; 2]])]).
Proof. vm_compute. reflexivity. Qed.

(** What a call gave, for a call that came to an end. *)
Definition value_of {A} (d : A) (o : outcome A) : A := match o with Ok x => x | _ => d end.
Lemma value_ok {A} (d : A) o : is_ok o = true -> o = Ok (value_of d o).
Proof. by destruct o. Qed.

Definition start_data : list (Conf + Empty_set) := value_of [] (fresh datas).
Definition file_tree : NetT (Conf + Empty_set) := value_of (mkNetT [] []) (load_main modules datas small_file (mkNetT start_data [])).
Definition loaded_heap : Ref * list (Obj (Conf + Empty_set)) :=
  value_of (0%nat, []) (parse_module_config modules small_files 16 "conf/anyproxy.conf").

Lemma configuration_loaded_witness :
  exists t', merge_net_t datas file_tree = Ok t' /\ view_net modules datas loaded_heap.2 loaded_heap.1 = Ok t'.
Proof.
  apply (configuration_loaded modules_ok small_files small_file "conf/anyproxy.conf" start_data file_tree 16 loaded_heap.1 loaded_heap.2).
  - vm_compute. reflexivity.
  - vm_compute. reflexivity.
  - reflexivity.
  - apply Nat.leb_le. vm_compute. reflexivity.
  - vm_compute. reflexivity.
  - apply value_ok. vm_compute. reflexivity.
  - apply value_ok. vm_compute. reflexivity.
  - transitivity (Ok loaded_heap); [unfold loaded_heap; apply value_ok; vm_compute; reflexivity|]. generalize loaded_heap. by intros [].
Defined.

Lemma printed_configuration_witness :
  exists root (s : CState (Conf + Empty_set)), start modules = Ok (root, s) /\
    parse_config_file modules small_files 16 new_arg "conf/anyproxy.conf" root s =
      ('(b, s) ← exec_items modules small_file (in_file false "conf" new_arg) root s;
       if negb (is_sub_file b) && negb (arg_main_index b =? -1) then Err "" else Ok (b, [], s)).
Proof.
  destruct (value_of (0%nat, mkState [] [] 0) (start (D := Conf + Empty_set) modules)) as [root s] eqn:E. exists root, s.
  split; [rewrite <- E; apply value_ok; vm_compute; reflexivity|].
  apply (printed_configuration modules small_files small_file "conf/anyproxy.conf" new_arg root s 16).
  - vm_compute. reflexivity.
  - apply all_known_fit. vm_compute. reflexivity.
  - reflexivity.
  - apply Nat.leb_le. vm_compute. reflexivity.
Defined.

(** The settings of [net_core] at a level of the file. *)
Definition no_stream : StreamCopy.ConfStream := StreamCopy.mkConfStream 0 0 0 0 0 0 0 false 0 0 0 0 0 0 0 0.
Definition no_core : Conf := mkConf size_default flag_default name_default "" StreamCopy.Shutdown domain_from_new [] [] (no_stream, PluginUnset) (no_stream, PluginUnset).
Definition is_core (ds : list (Conf + Empty_set)) : bool := match ds with inl _ :: _ => true | _ => false end.
Definition core_of (ds : list (Conf + Empty_set)) : Conf := match ds with inl c :: _ => c | _ => no_core end.
Lemma core_head ds : is_core ds = true -> ds !! 0%nat = Some (inl (core_of ds)).
Proof. by destruct ds as [|[c|[]] ds]. Qed.
Definition server_of (t : NetT (Conf + Empty_set)) : ServerT (Conf + Empty_set) := nth 0 (n_servers t) (mkServerT [] []).
Definition local_of (sv : ServerT (Conf + Empty_set)) : list (Conf + Empty_set) := nth 1 (s_locals sv) [].

Lemma nth_there {A} (l : list A) k d : (k <? length l)%nat = true -> l !! k = Some (nth k l d).
Proof. intros Hk%Nat.ltb_lt. destruct (lookup_lt_is_Some_2 l k Hk) as [x Hx]. rewrite Hx. by rewrite (nth_lookup_Some _ _ _ _ Hx). Qed.

Lemma settings_inherited_witness :
  exists t' sv' l' c', merge_net_t datas file_tree = Ok t' /\ n_servers t' !! 0%nat = Some sv' /\ s_locals sv' !! 1%nat = Some l' /\
    l' !! 0%nat = Some (inl c') /\ size_of c' stream_cache_size = 1048576 /\ size_of c' download_limit_rate = 65536 /\
    size_of c' read_buffer_page_size = 2 /\ domain c' = "example.org" /\ (download c').2 = PluginCache.
Proof.
  assert (E : merge_net_t datas file_tree = Ok (value_of (mkNetT [] []) (merge_net_t datas file_tree))) by (apply value_ok; vm_compute; reflexivity).
  destruct (settings_inherited datas file_tree _ 0 0 1 (numbered_ "net_core") (server_of file_tree) (local_of (server_of file_tree))
    (core_of (n_data file_tree)) (core_of (s_data (server_of file_tree))) (core_of (local_of (server_of file_tree))) E)
    as (sv' & l' & c' & H1 & H2 & H3 & [Hs Hf _ Hd _ _] & _ & Hp & _).
  - reflexivity.
  - vm_compute. reflexivity.
  - apply core_head. vm_compute. reflexivity.
  - apply nth_there. vm_compute. reflexivity.
  - apply core_head. vm_compute. reflexivity.
  - apply nth_there. vm_compute. reflexivity.
  - apply core_head. vm_compute. reflexivity.
  - eexists _, sv', l', c'. split; [exact E|]. split; [exact H1|]. split; [exact H2|]. split; [exact H3|].
    clear E. do 3 (split; [etransitivity; [apply Hs; discriminate|vm_compute; reflexivity]|]).
    split; [etransitivity; [exact Hd|vm_compute; reflexivity]|].
    etransitivity; [exact Hp|]. transitivity (plugin_of true); [|reflexivity]. apply f_equal.
    etransitivity; [apply Hf|vm_compute; reflexivity].
Defined.

(** An unknown key and a key at a level that does not take it stop the
    reading; so does a second [local] with no rule. *)
Definition file_of (items : list Item) : string -> option string := fun _ => Some (print items).
Definition read_file (items : list Item) : outcome unit :=
  (fun _ => tt) <$> parse_module_config (D := Conf + Empty_set) modules (file_of items) 20 "a.conf".
Example wrong_entries :
  read_file [Block "net" [Data "cache" "usize" "1m"]] = Err "" /\
  read_file [Block "net" [Data "domain" "str" "example.org"]] = Err "" /\
  read_file [Block "net" [Block "server" [Block "local" []; Block "local" []]]] = Err "" /\
  read_file [Block "net" [Block "server" [Block "local" []]]] = Ok tt /\
  read_file [Block "net" [Block "server" []]] = Err "".
Proof. vm_compute. done. Qed.

(** A [local] outside a [server] is accepted and never used, a [net] within a
    [net] panics. *)
Example misplaced_blocks :
  ((fun t => length (n_servers t)) <$>
     ('(root, h) ← parse_module_config modules (file_of [Block "net" [Block "local" []]]) 20 "a.conf";
      view_net (D := (Conf + Empty_set)%type) modules datas h root)) = Ok 0%nat /\
  read_file [Block "net" [Block "net" []]] = Panic.
Proof. vm_compute. done. Qed.
