(* ===== verification/Tunnel1Wire.v ===== *)
(** The packs of the first tunnel on a connection: what is written is read back,
    so that a connection may be taken for a line of packs. *)
From S2P Require Import Prelude RustStd Wire Tunnel1Pack.
#[local] Open Scope string_scope.
#[local] Open Scope list_scope.
#[local] Open Scope Z_scope.

Section wire.
Context `{TunnelTomlLaws}.
#[local] Existing Instances laws_header laws_hello laws_hello_ack laws_data_header laws_add laws_max laws_close.

(** A pack as the tasks write it. *)
Definition write_any (p : TunnelPack) : outcome (list Z) :=
  match p with
  | PHello v => write_pack HdrHello v
  | PHelloAck v => write_pack HdrHelloAck v
  | PData v => write_tunnel_data v
  | PAddConnect v => write_pack HdrAddConnect v
  | PMaxConnect v => write_pack HdrMaxConnect v
  | PClose v => write_pack HdrClose v
  end.

(** A value whose text, and that of its header, fit in the reader's buffer. *)
Definition value_fits {T} `{Toml T} (typ : TunnelHeaderType) (v : T) : Prop :=
  exists s h, to_vec v = Ok s /\ 0 < zlen s <= TUNNEL_MAX_HEADER_SIZE /\
    to_vec (mkTunnelHeader (type_code typ) (zlen s)) = Ok h /\ 0 < zlen h <= TUNNEL_MAX_HEADER_SIZE.

Definition pack_fits (p : TunnelPack) : Prop :=
  match p with
  | PHello v => value_fits HdrHello v
  | PHelloAck v => value_fits HdrHelloAck v
  | PData v => value_fits HdrData (header v) /\ pack_size (header v) = zlen (datas v) /\ zlen (datas v) <= MAX_PACK_SIZE
  | PAddConnect v => value_fits HdrAddConnect v
  | PMaxConnect v => value_fits HdrMaxConnect v
  | PClose v => value_fits HdrClose v
  end.

Context `{ReadLaws R}.

Lemma from_code typ : from_u8 (type_code typ) = Some typ.
Proof. by destruct typ. Qed.

#[local] Instance Ok_inj {A} : Inj eq eq (@Ok A).
Proof. by intros x y [= ->]. Qed.

(** The frame of a pack, up to what depends on its kind. *)
Lemma frame_parses {T} `{TomlLaws T} typ (v : T) b rest p :
  value_fits typ v -> write_pack typ v = Ok b ->
  (forall s, to_vec v = Ok s -> parses (read_body (R := R) typ s) rest p) ->
  parses (read_pack_all TUNNEL_MAX_HEADER_SIZE) (b ++ rest) p.
Proof.
  intros (s & h & Hs & Hl & Hh & Hlh) Hw Hb. unfold write_pack in Hw. rewrite Hs in Hw. cbn [mbind outcome_bind] in Hw.
  assert (TUNNEL_MAX_HEADER_SIZE < 2 ^ 16) as Hm by done. rewrite (wrap_id 16 (zlen s)), Hh in Hw by (unfold in_width; lia). cbn [mbind outcome_bind] in Hw.
  apply (inj Ok) in Hw as <-.
  assert (forall k l m n o : list Z, (k ++ l ++ m ++ n) ++ o = (k ++ l ++ m) ++ n ++ o) as Ea by (intros; by rewrite <- !app_assoc).
  rewrite (Ea flag_bytes (u16_bytes (wrap16 (zlen h))) h s rest). fold (header_bytes flag_bytes h).
  unfold read_pack_all, read_pack.
  eapply (parses_last _ _ _ (Some p)); [|apply parses_ret]. eapply parses_bind; [apply (parses_header flag_bytes _ (mkTunnelHeader (type_code typ) (zlen s)) h Hh); done|].
  cbv beta iota. cbn [header_type body_size]. eapply parses_bind_nil; [apply parses_lift; by rewrite from_code|]. cbv beta.
  destruct (Z.ltb_spec TUNNEL_MAX_HEADER_SIZE (zlen s)); [lia|]. destruct (Z.ltb_spec 0 (zlen s)); [|lia].
  eapply parses_bind; [by apply parses_exact|]. cbv beta. eapply parses_last; [by apply Hb|apply parses_ret].
Qed.

Lemma simple_parses {T} `{TomlLaws T} typ (v : T) b (mk : T -> TunnelPack) :
  value_fits typ v -> write_pack typ v = Ok b -> (forall s, read_body (R := R) typ s = (v ← lift (from_slice s); mret (mk v))) ->
  parses (read_pack_all TUNNEL_MAX_HEADER_SIZE) b (mk v).
Proof.
  intros Hf Hw Hb. rewrite <- (app_nil_r b). apply (frame_parses typ v); [done..|]. intros s Hs. rewrite Hb.
  eapply parses_bind_nil; [apply parses_lift; by apply from_slice_to_vec|apply parses_ret].
Qed.

(** However the bytes of a pack are cut, it is the pack that is read, and reading
    stops right behind it. *)
Theorem tunnel1_pack_read_back p b :
  pack_fits p -> write_any p = Ok b -> parses (read_pack_all TUNNEL_MAX_HEADER_SIZE) b p.
Proof.
  intros Hp Hw. destruct p as [v|v|d|v|v|v]; cbn [pack_fits write_any] in *.
  3:{ destruct Hp as (Hp & Hsz & Hm). unfold write_tunnel_data in Hw. apply outcome_bind_ok in Hw as (b0 & Hw & [= <-]).
      apply (frame_parses HdrData (header d)); [exact Hp|exact Hw|]. intros s Hs. cbn [read_body]. rewrite <- (app_nil_l (datas d)).
      eapply parses_bind_nil; [apply parses_lift; by apply from_slice_to_vec|]. cbv beta. rewrite Hsz.
      destruct (Z.ltb_spec MAX_PACK_SIZE (zlen (datas d))); [lia|]. eapply parses_last; [by apply parses_exact|]. cbv beta.
      destruct d. apply parses_ret. }
  - by apply (simple_parses HdrHello v b PHello).
  - by apply (simple_parses HdrHelloAck v b PHelloAck).
  - by apply (simple_parses HdrAddConnect v b PAddConnect).
  - by apply (simple_parses HdrMaxConnect v b PMaxConnect).
  - by apply (simple_parses HdrClose v b PClose).
Qed.
End wire.
