(* ===== verification/Tunnel1Peer.v ===== *)
(** One end of a connection of the first tunnel, [any-tunnel/src/peer_stream.rs]:
    it carries one session after the other, and each is closed by a handshake so
    that the connection can be used again. *)
From S2P Require Import Prelude Wire Tunnel1Pack.
#[local] Open Scope string_scope.
#[local] Open Scope list_scope.
#[local] Open Scope Z_scope.

(** ** What a session keeps

    The names that the packs have too begin with [once_]. *)
Record PeerStreamOnce := mkOnce {
  close_num : Z;
  tunnel_peer_close : option TunnelClose;
  is_send_close : bool;
  once_session_id : option string;
  once_index : Z;
  peer_stream_id : Z;
  tx_pack_id : Z;
  rx_pack_id : Z
}.

(** [PeerStreamOnce::new], and what [init] makes of any other. *)
Definition once_new : PeerStreamOnce := mkOnce 0 None false None 0 0 0 0.

Definition eta_once (o : PeerStreamOnce) : PeerStreamOnce :=
  mkOnce (close_num o) (tunnel_peer_close o) (is_send_close o) (once_session_id o) (once_index o)
         (peer_stream_id o) (tx_pack_id o) (rx_pack_id o).
Definition set_close_num : Z -> PeerStreamOnce -> PeerStreamOnce := ltac:(setter eta_once close_num).
Definition set_peer_close : option TunnelClose -> PeerStreamOnce -> PeerStreamOnce := ltac:(setter eta_once tunnel_peer_close).
Definition set_send_close : bool -> PeerStreamOnce -> PeerStreamOnce := ltac:(setter eta_once is_send_close).
Definition set_session_id : option string -> PeerStreamOnce -> PeerStreamOnce := ltac:(setter eta_once once_session_id).
Definition set_index : Z -> PeerStreamOnce -> PeerStreamOnce := ltac:(setter eta_once once_index).
Definition set_stream_id : Z -> PeerStreamOnce -> PeerStreamOnce := ltac:(setter eta_once peer_stream_id).
Definition set_tx_id : Z -> PeerStreamOnce -> PeerStreamOnce := ltac:(setter eta_once tx_pack_id).
Definition set_rx_id : Z -> PeerStreamOnce -> PeerStreamOnce := ltac:(setter eta_once rx_pack_id).

(** What the connections of a session share: whether the channel to the peer
    client is closed ([peer_stream_to_peer_client_tx]), whether the
    [RoundAsyncChannel] is, [is_error], and the largest pack ids that went either
    way. *)
Record Session := mkSession {
  client_closed : bool;
  round_closed : bool;
  is_error : bool;
  session_tx_id : Z;
  session_rx_id : Z
}.

(** A message of [to_peer_stream_tx]: the channel [stream_to_peer_stream_rx] by
    what waits in it. *)
Record PeerStreamRecvHello := mkMsg {
  m_channel : option (list TunnelPack);
  m_session : Session;
  m_hello : option TunnelHello;
  m_min_cache : Z;
  m_index : Z;
  m_session_id : option string;
  m_stream_id : option Z;
  m_is_ack : bool
}.

(** Where the task [do_start] is: in the [select!] of [stream], with the hello
    it has read; waiting for the answer to a hello; in the [select!] of
    [do_stream], by whether [read_stream] has returned and, once [write_pack]
    has, the [wait_num] of its successor. *)
Inductive Phase :=
  | Waiting (got : option TunnelHello)
  | WaitAck (msg : PeerStreamRecvHello)
  | Running (read_over : bool) (write_over : option Z).

(** [chan] and [chan_closed] are [stream_to_peer_stream_rx], [put] what was
    written on the connection and [got] what was handed to the peer client
    since the world last looked. *)
Record PeerStream := mkPeer {
  ps_client : bool;
  once : PeerStreamOnce;
  session : Session;
  phase : Phase;
  chan : list TunnelPack;
  chan_closed : bool;
  min_cache : Z;
  put : list TunnelPack;
  got : list TunnelPack
}.

Definition session_none : Session := mkSession false false false 0 0.
Definition peer_new (is_client : bool) : PeerStream :=
  mkPeer is_client once_new session_none (Waiting None) [] false 0 [] [].

Definition eta_peer (s : PeerStream) : PeerStream :=
  mkPeer (ps_client s) (once s) (session s) (phase s) (chan s) (chan_closed s) (min_cache s) (put s) (got s).
Definition set_once : PeerStreamOnce -> PeerStream -> PeerStream := ltac:(setter eta_peer once).
Definition set_session : Session -> PeerStream -> PeerStream := ltac:(setter eta_peer session).
Definition set_phase : Phase -> PeerStream -> PeerStream := ltac:(setter eta_peer phase).
Definition set_chan : list TunnelPack -> PeerStream -> PeerStream := ltac:(setter eta_peer chan).
Definition set_chan_closed : bool -> PeerStream -> PeerStream := ltac:(setter eta_peer chan_closed).
Definition set_min_cache : Z -> PeerStream -> PeerStream := ltac:(setter eta_peer min_cache).
Definition set_put : list TunnelPack -> PeerStream -> PeerStream := ltac:(setter eta_peer put).
Definition set_got : list TunnelPack -> PeerStream -> PeerStream := ltac:(setter eta_peer got).

Definition in_once (f : PeerStreamOnce -> PeerStreamOnce) : stm PeerStream unit := modify (fun s => set_once (f (once s)) s).
Definition write_out (p : TunnelPack) : stm PeerStream unit := modify (fun s => set_put (put s ++ [p]) s).
Definition to_peer_client (p : TunnelPack) : stm PeerStream unit := modify (fun s => set_got (got s ++ [p]) s).
Definition peer_close_some (s : PeerStream) : bool := bool_decide (is_Some (tunnel_peer_close (once s))).

(** The largest id so far: the loops around [compare_exchange]. *)
Definition raise_rx (id : Z) (x : Session) : Session :=
  mkSession (client_closed x) (round_closed x) (is_error x) (session_tx_id x) (Z.max (session_rx_id x) id).
Definition raise_tx (id : Z) (x : Session) : Session :=
  mkSession (client_closed x) (round_closed x) (is_error x) (Z.max (session_tx_id x) id) (session_rx_id x).

(** ** Reading

    A round of [read_stream] with the pack it read: whether it returns. *)
Definition read_pack_round (pack : TunnelPack) : stm PeerStream bool :=
  match pack with
  | PHello _ => fail "err:TunnelHello"
  | PClose value =>
      me ← gets ps_client;
      if negb (Bool.eqb (is_client value) me) then
        _ ← in_once (set_peer_close (Some value));
        sent ← gets (fun s => is_send_close (once s));
        mret (negb sent)
      else mret true
  | PData value =>
      let id := pack_id (header value) in
      _ ← in_once (set_rx_id id);
      _ ← modify (fun s => set_session (raise_rx id (session s)) s);
      _ ← to_peer_client pack;
      mret false
  | _ => _ ← to_peer_client pack; mret false
  end.

(** [PeerStreamRead::start]: it counts its end and sleeps, until the writing
    side is done too. *)
Definition read_turn (pack : TunnelPack) : stm PeerStream bool :=
  over ← read_pack_round pack;
  if over : bool then _ ← in_once (fun o => set_close_num (close_num o + 1) o); mret true else mret false.

(** ** Writing *)

Definition write_one (pack : TunnelPack) : stm PeerStream unit :=
  match pack with
  | PHello _ => fail "err: write_stream TunnelHello"
  | PHelloAck _ => fail "err: write_stream TunnelHelloAck"
  | PClose _ => fail "err: write_stream TunnelClose"
  | PData value =>
      let id := pack_id (header value) in
      _ ← in_once (set_tx_id id);
      _ ← modify (fun s => set_session (raise_tx id (session s)) s);
      write_out pack
  | PAddConnect _ | PMaxConnect _ => write_out pack
  end.

(** A round of [write_pack], from the answer of its channel, which may be that a
    second has passed, to the next time it looks whether the peer has closed:
    whether it returns. *)
Definition write_pack_round : stm PeerStream bool :=
  s ← gets id;
  match chan s with
  | pack :: rest => _ ← modify (set_chan rest); _ ← write_one pack; gets peer_close_some
  | [] =>
      if chan_closed s then
        if peer_close_some s then mret true
        else
          _ ← in_once (set_send_close true);
          _ ← write_out (PClose (mkClose (ps_client s)));
          mret true
      else mret (peer_close_some s)
  end.

(** The loop after it: the peer's close is sent back, and both sides must have
    counted their end. *)
Definition echo_round : stm PeerStream bool :=
  c ← gets (fun s => tunnel_peer_close (once s));
  _ ← in_once (set_peer_close None);
  _ ← match c with Some c => write_out (PClose c) | None => done_ end;
  n ← gets (fun s => close_num (once s));
  mret (2 <=? n).

(** A turn of [PeerStreamWrite::start]: it returns [Some wait_num] while it has
    to go on. *)
Definition write_turn (write_over : option Z) : stm PeerStream (option (option Z)) :=
  match write_over with
  | None =>
      over ← write_pack_round;
      if over : bool then
        _ ← in_once (fun o => set_close_num (close_num o + 1) o);
        b ← echo_round;
        mret (if b : bool then None else Some (Some 0))
      else mret (Some None)
  | Some wait_num =>
      if 400 <? wait_num + 1 then fail "err:peer_stream write wait stop"
      else b ← echo_round; mret (if b : bool then None else Some (Some (wait_num + 1)))
  end.

(** ** A session *)

(** The end of [do_stream] without an error: whether the connection ends too.
    A client puts itself back for the next session. *)
Definition stream_over : stm PeerStream bool :=
  m ← gets min_cache;
  if m <=? 0 then mret true
  else _ ← modify (set_once once_new); _ ← modify (set_phase (Waiting None)); mret false.

(** The middle of [do_stream], after the hello: a client that asked for an answer
    has no channel yet, and gets none when the stream has closed meanwhile. *)
Definition attach (msg : PeerStreamRecvHello) : stm PeerStream bool :=
  s ← gets id;
  match m_channel msg, round_closed (session s) with
  | None, true => stream_over
  | c, _ =>
      _ ← modify (fun s => set_chan (default [] c) (set_chan_closed false s));
      _ ← (if negb (ps_client s) && m_is_ack msg then write_out (PHelloAck mkHelloAck) else done_);
      _ ← match m_hello msg with Some h => in_once (set_session_id (Some (session_id h))) | None => done_ end;
      _ ← modify (set_phase (Running false None));
      mret false
  end.

(** [do_stream] up to there, [write_tunnel_hello] included. *)
Definition do_stream (msg : PeerStreamRecvHello) : stm PeerStream bool :=
  _ ← in_once (set_stream_id (default 0 (m_stream_id msg)));
  _ ← in_once (set_index (m_index msg));
  _ ← in_once (set_session_id (m_session_id msg));
  _ ← modify (fun s => set_session (m_session msg) (set_min_cache (m_min_cache msg) s));
  me ← gets ps_client;
  match m_hello msg with
  | None =>
      if me : bool then fail "err:self.is_client && tunnel_hello.is_none()"
      else if client_closed (m_session msg) then fail "peer_stream_to_peer_client_tx.is_none"
      else attach msg
  | Some hello =>
      if client_closed (m_session msg) then fail "peer_stream_to_peer_client_tx.is_none"
      else
        _ ← write_out (PHello hello);
        if is_ack hello then _ ← modify (set_phase (WaitAck msg)); mret false else attach msg
  end.

(** What [do_stream] does of an error: the peer client is told when the session
    has moved packs here, or when the connection timed out in writing. *)
Definition stream_failed (is_timeout : bool) : stm PeerStream unit :=
  o ← gets once;
  if is_timeout || (0 <? tx_pack_id o) || (0 <? rx_pack_id o)
  then modify (fun s => let x := session s in set_session (mkSession true (round_closed x) true (session_tx_id x) (session_rx_id x)) s)
  else done_.

(** ** The task

    What can happen to it: a message, a pack on the connection, a turn of the
    writing side. The result tells whether the connection ends. *)
Inductive Act := Told (msg : PeerStreamRecvHello) | Arrived (pack : TunnelPack) | WriteTurn.

(** [read_tunnel_hello], which sends what it reads to the accepting side: a
    client has none. *)
Definition read_hello (pack : TunnelPack) : stm PeerStream bool :=
  me ← gets ps_client;
  match pack with
  | PHello h => if me : bool then fail "err:read_tunnel_hello => accept_tx is none" else _ ← modify (set_phase (Waiting (Some h))); mret false
  | _ => fail "err:not tunnel_hello"
  end.

(** After a turn of the writing side: it goes on, or the session is over. *)
Definition written (read_over : bool) (write_over : option (option Z)) : stm PeerStream bool :=
  match write_over with
  | Some w => _ ← modify (set_phase (Running read_over w)); mret false
  | None => stream_over
  end.

Definition turn (a : Act) : stm PeerStream bool :=
  ph ← gets phase;
  match ph, a with
  | Waiting _, Told msg => do_stream msg
  | Waiting None, Arrived p => read_hello p
  | WaitAck msg, Arrived p => match p with PHelloAck _ => attach msg | _ => fail "err:not tunnel_hello_ack" end
  | Running false w, Arrived p =>
      over ← read_turn p;
      _ ← modify (set_phase (Running over w)); mret false
  | Running r w, WriteTurn => w' ← write_turn w; written r w'
  | _, _ => mret false
  end.
