(* ===== verification/Tunnel1Close.v ===== *)
(** The handshake that closes a session of the first tunnel, by itself: which of
    its steps each end has made and which [TunnelClose] packs are on the way. It
    has finitely many states, and they are looked through one by one. *)
From S2P Require Import Prelude.
#[local] Open Scope list_scope.

(** One end: [is_send_close], whether [tunnel_peer_close] is there, whether
    [read_stream] and [write_pack] have returned, and whether [do_stream] has. *)
Record Hand := mkHand { h_sent : bool; h_peer : bool; h_read : bool; h_write : bool; h_fin : bool }.

Definition hand_new : Hand := mkHand false false false false false.

#[export] Instance hand_eq_dec : EqDecision Hand.
Proof. solve_decision. Defined.

(** A close is known by the end that sent it first, as [is_client] tells. An end
    with the flag [me] reads a close. *)
Definition hand_read (me c : bool) (h : Hand) : Hand :=
  if Bool.eqb c me then mkHand (h_sent h) (h_peer h) true (h_write h) (h_fin h)
  else mkHand (h_sent h) true (negb (h_sent h)) (h_write h) (h_fin h).

(** It looks whether the peer's close is there, to send it back. *)
Definition hand_echo (me : bool) (h : Hand) : Hand * list bool :=
  (mkHand (h_sent h) false (h_read h) true (h_read h), if h_peer h then [negb me] else []).

(** It finds its channel closed, or has waited. *)
Definition hand_close (me : bool) (h : Hand) : Hand * list bool :=
  if h_peer h then hand_echo me h else (mkHand true false (h_read h) true (h_read h), [me]).

(** Both ends of a session, the client first, and the closes on the way from the
    client and from the server. *)
Record Pair := mkPair { p_client : Hand; p_server : Hand; p_cs : list bool; p_sc : list bool }.

#[export] Instance pair_eq_dec : EqDecision Pair.
Proof. solve_decision. Defined.

Definition pair_new : Pair := mkPair hand_new hand_new [] [].

(** The steps of an end whose incoming closes are [inn]: its new state, what is
    left of [inn], and what it sends. *)
Definition hand_steps (me : bool) (h : Hand) (inn : list bool) : list (Hand * list bool * list bool) :=
  if h_fin h then []
  else
    (match inn with c :: inn => if h_read h then [] else [(hand_read me c h, inn, [])] | [] => [] end) ++
    (let '(h', o) := if h_write h || h_peer h then hand_echo me h else hand_close me h in [(h', inn, o)]).

Definition pair_steps (q : Pair) : list Pair :=
  ((fun '(h, inn, o) => mkPair h (p_server q) (p_cs q ++ o) inn) <$> hand_steps true (p_client q) (p_sc q)) ++
  ((fun '(h, inn, o) => mkPair (p_client q) h inn (p_sc q ++ o)) <$> hand_steps false (p_server q) (p_cs q)).

(** ** All states *)

Fixpoint explore (fuel : nat) (todo seen : list Pair) : list Pair :=
  match fuel, todo with
  | S fuel, q :: todo =>
      if decide (q ∈ seen) then explore fuel todo seen else explore fuel (pair_steps q ++ todo) (q :: seen)
  | _, _ => seen
  end.

Definition states : list Pair := Eval vm_compute in explore 200 [pair_new] [].

(** These are all: no step leads out of them. *)
Definition closed_under (l : list Pair) : bool := forallb (fun q => forallb (fun q' => bool_decide (q' ∈ l)) (pair_steps q)) l.

Lemma states_closed q q' : q ∈ states -> q' ∈ pair_steps q -> q' ∈ states.
Proof.
  intros Hq Hs. assert (closed_under states = true) as H by (vm_compute; reflexivity).
  unfold closed_under in H. rewrite forallb_forall in H. specialize (H q (proj1 (list_elem_of_In _ _) Hq)).
  rewrite forallb_forall in H. specialize (H q' (proj1 (list_elem_of_In _ _) Hs)). by apply bool_decide_eq_true in H.
Qed.

Lemma states_new : pair_new ∈ states.
Proof. apply (bool_decide_unpack _). vm_compute. exact I. Qed.

(** What holds of every one of them. *)
Lemma states_all (P : Pair -> bool) q : forallb P states = true -> q ∈ states -> P q = true.
Proof. rewrite forallb_forall. intros H Hq. apply H. by apply list_elem_of_In. Qed.

Ltac all_states H := apply (states_all _ _ ltac:(vm_compute; reflexivity)) in H.

(** ** One end and the other *)

Definition own (me : bool) (q : Pair) : Hand := if me then p_client q else p_server q.
Definition outs (me : bool) (q : Pair) : list bool := if me then p_cs q else p_sc q.
Definition pair_of (me : bool) (h other : Hand) (out inn : list bool) : Pair :=
  if me then mkPair h other out inn else mkPair other h inn out.

Lemma own_pair me h k o i : own me (pair_of me h k o i) = h /\ own (negb me) (pair_of me h k o i) = k /\
  outs me (pair_of me h k o i) = o /\ outs (negb me) (pair_of me h k o i) = i.
Proof. by destruct me. Qed.

Lemma states_step me q h inn o :
  q ∈ states -> (h, inn, o) ∈ hand_steps me (own me q) (outs (negb me) q) ->
  pair_of me h (own (negb me) q) (outs me q ++ o) inn ∈ states.
Proof.
  intros Hq Hs. eapply states_closed; [exact Hq|]. unfold pair_steps. apply elem_of_app.
  destruct me; [left|right]; apply list_elem_of_fmap; by exists (h, inn, o).
Qed.

Lemma states_read me q c inn :
  q ∈ states -> h_fin (own me q) = false -> h_read (own me q) = false -> outs (negb me) q = c :: inn ->
  pair_of me (hand_read me c (own me q)) (own (negb me) q) (outs me q) inn ∈ states.
Proof.
  intros Hq Hf Hr Ho. rewrite <- (app_nil_r (outs me q)). apply states_step; [done|]. unfold hand_steps. rewrite Hf, Ho, Hr.
  apply list_elem_of_here.
Qed.

Lemma states_write me q h o :
  q ∈ states -> h_fin (own me q) = false ->
  (h, o) = (if h_write (own me q) || h_peer (own me q) then hand_echo me (own me q) else hand_close me (own me q)) ->
  pair_of me h (own (negb me) q) (outs me q ++ o) (outs (negb me) q) ∈ states.
Proof.
  intros Hq Hf Ho. apply states_step; [done|]. unfold hand_steps. rewrite Hf, <- Ho. apply elem_of_app. right. apply list_elem_of_here.
Qed.

(** What is so in every state. *)
Lemma states_both (P : bool -> Pair -> bool) me q :
  forallb (fun q => P true q && P false q) states = true -> q ∈ states -> P me q = true.
Proof. intros H Hq. apply (states_all _ _ H) in Hq. apply andb_true_iff in Hq as [??]. by destruct me. Qed.

(** An end that is done has heard all of the other, which sends no more. *)
Lemma fin_states me q :
  q ∈ states -> h_fin (own me q) = true ->
  outs (negb me) q = [] /\ h_read (own me q) = true /\ h_write (own (negb me) q) = true /\ h_peer (own (negb me) q) = false /\
  (h_read (own (negb me) q) = false -> outs me q <> []).
Proof.
  intros Hq Hf.
  pose proof (states_both (fun me q => implb (h_fin (own me q)) (bool_decide (outs (negb me) q = [] /\ h_read (own me q) = true /\
    h_write (own (negb me) q) = true /\ h_peer (own (negb me) q) = false /\ (h_read (own (negb me) q) = true \/ outs me q <> [])))) me q eq_refl Hq) as H.
  cbv beta in H. rewrite Hf in H. apply bool_decide_eq_true in H as (? & ? & ? & ? & H). split_and!; try done.
  intros Hr. rewrite Hr in H. by destruct H.
Qed.

(** An end that writes has sent no close, and has not been heard to. *)
Lemma writing_states me q :
  q ∈ states -> h_write (own me q) = false -> outs me q = [] /\ h_read (own (negb me) q) = false.
Proof.
  intros Hq Hw.
  pose proof (states_both (fun me q => h_write (own me q) || bool_decide (outs me q = [] /\ h_read (own (negb me) q) = false)) me q eq_refl Hq) as H.
  cbv beta in H. rewrite Hw in H. by apply bool_decide_eq_true in H.
Qed.

(** An end that has heard nothing is not done. *)
Lemma alone_states me q :
  q ∈ states -> own (negb me) q = hand_new -> outs (negb me) q = [] -> h_fin (own me q) = false.
Proof.
  intros Hq Ho Hi. destruct (h_fin (own me q)) eqn:Hf; [|done]. destruct (fin_states me q Hq Hf) as (_ & _ & H & _). by rewrite Ho in H.
Qed.

(** ** The handshake ends

    What is still to come: a close of the sender's own is read, sent back and
    read again. *)
Definition to_come (me : bool) (h : Hand) (out : list bool) : nat :=
  (if h_write h then 0 else 4) + (if h_peer h then 2 else 0) + (if h_fin h then 0 else 1) +
  sum_list ((fun c => if Bool.eqb c me then 3 else 1)%nat <$> out).
Definition rank (q : Pair) : nat := to_come true (p_client q) (p_cs q) + to_come false (p_server q) (p_sc q).

(** What an end does whose stream goes on. *)
Definition open_steps (q : Pair) : list Pair :=
  filter (fun q' => (h_sent (p_client q') = h_sent (p_client q) /\ h_sent (p_server q') = h_sent (p_server q))) (pair_steps q).

Definition both_done (q : Pair) : bool := h_fin (p_client q) && h_fin (p_server q) && bool_decide (p_cs q = [] /\ p_sc q = []).

(** Every step that changes something brings the handshake nearer to its end, and
    once an end has closed there is one until both are done, whether or not the
    stream of the other ever closes. *)
Theorem handshake_ends q :
  q ∈ states ->
  (forall q', q' ∈ pair_steps q -> q' = q \/ (rank q' < rank q)%nat) /\
  (h_sent (p_client q) || h_sent (p_server q) = true -> both_done q = true \/ exists q', q' ∈ open_steps q /\ q' <> q).
Proof.
  intros Hq. split.
  - intros q' Hq'.
    pose proof (states_all (fun q => forallb (fun q' => bool_decide (q' = q \/ (rank q' < rank q)%nat)) (pair_steps q)) q eq_refl Hq) as H.
    cbv beta in H. rewrite forallb_forall in H. specialize (H q' (proj1 (list_elem_of_In _ _) Hq')). by apply bool_decide_eq_true in H.
  - intros Hs.
    pose proof (states_all (fun q => implb (h_sent (p_client q) || h_sent (p_server q)) (both_done q || existsb (fun q' => bool_decide (q' <> q)) (open_steps q))) q eq_refl Hq) as H.
    cbv beta in H. rewrite Hs in H. apply orb_true_iff in H as [H|H]; [by left|right].
    apply existsb_exists in H as (q' & Hq' & H). exists q'. split; [by apply list_elem_of_In|]. by apply bool_decide_eq_true in H.
Qed.
