(* ===== verification/Tunnel1Conn.v ===== *)
(** A connection of the first tunnel from end to end: a client and a server side
    with the packs on the way, session after session, in every interleaving. *)
From S2P Require Import Prelude Wire Tunnel1Pack Tunnel1Peer Tunnel1Close.
#[local] Open Scope string_scope.
#[local] Open Scope list_scope.
#[local] Open Scope Z_scope.

(** ** The ends and the connection

    A side is a [PeerStream] while its task runs, the number of sessions it has
    had, and what these have put on the connection and handed to their peer
    clients, each pack with the number of its session. *)
Record Side := mkSide {
  ps : PeerStream;
  alive : bool;
  nth : nat;
  sent : list (nat * TunnelPack);
  handed : list (nat * TunnelPack)
}.

Definition side_new (is_client : bool) : Side := mkSide (peer_new is_client) true 0 [] [].

Abbreviation Line := (list (nat * TunnelPack)).

(** The packs of the streams. *)
Definition is_data (p : TunnelPack) : bool :=
  match p with PData _ | PAddConnect _ | PMaxConnect _ => true | _ => false end.

Definition tag (n : nat) (l : list TunnelPack) : Line := pair n <$> l.
Definition datas_of (l : Line) : Line := filter (fun x => is_data x.2 = true) l.

(** After a turn: what it wrote and handed on is noted. *)
Definition after (x : Side) (n : nat) (ends : bool) (s : PeerStream) : Side :=
  mkSide (set_put [] (set_got [] s)) (negb ends) n (sent x ++ datas_of (tag n (put s))) (handed x ++ tag n (got s)).

Definition stopped (x : Side) (s : PeerStream) : Side := mkSide s false (nth x) (sent x) (handed x).

(** The message a side can get: a client's for a new session, with a channel
    unless it asks for an answer ([hello_to_peer_stream]); a server's in answer to
    the hello it has read ([accept]). *)
Definition tells (is_client : bool) (g : option TunnelHello) (m : PeerStreamRecvHello) : Prop :=
  if is_client
  then exists h, g = None /\ m_hello m = Some h /\ m_is_ack m = is_ack h /\ (m_channel m = None <-> is_ack h = true)
  else exists h, g = Some h /\ m_hello m = None /\ m_is_ack m = is_ack h /\ m_channel m <> None.

Definition reads (s : PeerStream) : bool :=
  match phase s with Waiting None | WaitAck _ | Running false _ => true | _ => false end.
Definition writes (s : PeerStream) : bool := match phase s with Running _ _ => true | _ => false end.

(** The stream has closed while its client waited for the answer to its hello. *)
Definition abandons (s : PeerStream) : bool :=
  match phase s with
  | WaitAck m => match m_channel m with None => round_closed (session s) | Some _ => false end
  | _ => false
  end.

(** The other tasks change the channel and what the session shares. *)
Definition others (s : PeerStream) (x : Session) (c : list TunnelPack) (b : bool) : PeerStream :=
  set_session x (set_chan c (set_chan_closed b s)).

(** A step of a side, with what waits for it and what it has sent. [free] lets a
    client abandon a session. *)
Inductive end_step (free : bool) (x : Side) : Line -> Line -> Side -> Line -> Line -> Prop :=
  | step_told g m b s inn out :
      alive x = true -> phase (ps x) = Waiting g -> tells (ps_client (ps x)) g m ->
      turn (Told m) (ps x) = (Ok b, s) ->
      end_step free x inn out (after x (S (nth x)) b s) inn (out ++ tag (S (nth x)) (put s))
  | step_arrived k p b s inn out :
      alive x = true -> reads (ps x) = true -> free || negb (abandons (ps x)) = true ->
      turn (Arrived p) (ps x) = (Ok b, s) ->
      end_step free x ((k, p) :: inn) out (after x (nth x) b s) inn (out ++ tag (nth x) (put s))
  | step_write b s inn out :
      alive x = true -> writes (ps x) = true ->
      turn WriteTurn (ps x) = (Ok b, s) ->
      end_step free x inn out (after x (nth x) b s) inn (out ++ tag (nth x) (put s))
  | step_fails a e s inn out :
      alive x = true -> turn a (ps x) = (Err e, s) ->
      end_step free x inn out (stopped x (stream_failed false s).2) inn out
  | step_stops is_timeout inn out :
      alive x = true -> end_step free x inn out (stopped x (stream_failed is_timeout (ps x)).2) inn out
  | step_others y c b inn out :
      alive x = true ->
      end_step free x inn out (mkSide (others (ps x) y c b) true (nth x) (sent x) (handed x)) inn out.

Record World := mkWorld { client : Side; server : Side; cs : Line; sc : Line }.

Definition world_new : World := mkWorld (side_new true) (side_new false) [] [].

Inductive step (free : bool) : World -> World -> Prop :=
  | step_client x x' y ab ba ab' ba' : end_step free x ba ab x' ba' ab' -> step free (mkWorld x y ab ba) (mkWorld x' y ab' ba')
  | step_server x y y' ab ba ab' ba' : end_step free y ab ba y' ab' ba' -> step free (mkWorld x y ab ba) (mkWorld x y' ab' ba').

Inductive reach (free : bool) : World -> Prop :=
  | reach_new : reach free world_new
  | reach_step w w' : reach free w -> step free w w' -> reach free w'.

(** ** An end and its part in the handshake *)

Definition fresh (o : PeerStreamOnce) : Prop :=
  is_send_close o = false /\ tunnel_peer_close o = None /\ close_num o = 0.

Definition b2z (b : bool) : Z := if b then 1 else 0.

Record holds (o : PeerStreamOnce) (me : bool) (h : Hand) : Prop := {
  ho_sent : is_send_close o = h_sent h;
  ho_peer : tunnel_peer_close o = if h_peer h then Some (mkClose (negb me)) else None;
  ho_num : close_num o = b2z (h_read h) + b2z (h_write h)
}.

Definition quiet (s : PeerStream) : Prop := put s = [] /\ got s = [].

Definition looks (s : PeerStream) (h : Hand) : Prop :=
  quiet s /\
  if h_fin h then phase s = Waiting None /\ fresh (once s)
  else exists w, phase s = Running (h_read h) w /\ bool_decide (is_Some w) = h_write h /\ holds (once s) (ps_client s) h.

Definition closes (l : list bool) : list TunnelPack := (fun c => PClose (mkClose c)) <$> l.
Abbreviation all_data := (Forall (fun p => is_data p = true)).

(** A pack of a stream is handed on. *)
Lemma read_data s h p :
  looks s h -> h_fin h = false -> h_read h = false -> is_data p = true ->
  exists s', turn (Arrived p) s = (Ok false, s') /\ put s' = [] /\ got s' = [p] /\ ps_client s' = ps_client s /\
    looks (set_put [] (set_got [] s')) h.
Proof.
  intros ([Hp Hg] & Hl) Hf Hr Hd. rewrite Hf in Hl. destruct Hl as (w & Hph & Hw & Ho). rewrite Hr in *.
  unfold turn. step. rewrite Hph.
  destruct p; try done; cbn [read_turn read_pack_round] in *;
    (eexists; split; [reflexivity|]); cbn; rewrite ?Hg, ?Hp; (split_and!; [done..|]);
    (split; [done|]); rewrite Hf; exists w; cbn; rewrite Hr; by destruct Ho.
Qed.

(** A close is noted. *)
Lemma read_close s h c :
  looks s h -> h_fin h = false -> h_read h = false ->
  exists s', turn (Arrived (PClose (mkClose c))) s = (Ok false, s') /\ put s' = [] /\ got s' = [] /\ ps_client s' = ps_client s /\
    looks s' (hand_read (ps_client s) c h).
Proof.
  intros ([Hp Hg] & Hl) Hf Hr. rewrite Hf in Hl. destruct Hl as (w & Hph & Hw & [Hs Hc Hn]). rewrite Hr in *.
  unfold turn. step. rewrite Hph. unfold read_turn, read_pack_round, hand_read. cbn [is_client].
  destruct (Bool.eqb c (ps_client s)) eqn:E; [|apply eqb_false_iff in E; destruct (h_sent h) eqn:Es];
    (eexists; split; [unfold gets, modify, in_once, mbind, stm_bind, mret, stm_ret; cbn; rewrite ?E; cbn;
       rewrite ?(proj2 (eqb_false_iff _ _) E); cbn; rewrite ?Hs; reflexivity|]).
  all: cbn; split_and!; [done..|]; split; [done|]; cbn; rewrite Hf; exists w; cbn; split_and!; [done..|]; split; cbn.
  all: try done; try (f_equal; f_equal; destruct c, (ps_client s); done); rewrite ?Hn; cbn [b2z]; lia.
Qed.

(** What the loop after [write_pack] does. *)
Lemma echo_round_ok s h :
  is_send_close (once s) = h_sent h ->
  tunnel_peer_close (once s) = (if h_peer h then Some (mkClose (negb (ps_client s))) else None) ->
  close_num (once s) = b2z (h_read h) + 1 ->
  exists s', echo_round s = (Ok (h_read h), s') /\ put s' = put s ++ closes (hand_echo (ps_client s) h).2 /\ got s' = got s /\
    ps_client s' = ps_client s /\ holds (once s') (ps_client s) (hand_echo (ps_client s) h).1.
Proof.
  intros Hs Hc Hn. unfold echo_round. step. rewrite Hc. destruct (h_peer h) eqn:Eh.
  all: step; step; step; eexists; split; [unfold mret, stm_ret; cbn; rewrite Hn; by destruct (h_read h)|];
    cbn; rewrite ?Eh, ?app_nil_r; split_and!; try done.
Qed.

(** A round of [write_pack]: a pack goes out, or the own close does. *)
Lemma write_pack_round_ok s h :
  put s = [] -> holds (once s) (ps_client s) h ->
  match write_pack_round s with
  | (Ok over, s') =>
      got s' = got s /\ ps_client s' = ps_client s /\ close_num (once s') = close_num (once s) /\
      tunnel_peer_close (once s') = tunnel_peer_close (once s) /\
      (over = h_peer h /\ all_data (put s') /\ is_send_close (once s') = h_sent h \/
       over = true /\ h_peer h = false /\ put s' = closes [ps_client s] /\ is_send_close (once s') = true)
  | _ => True
  end.
Proof.
  intros Hp [Hs Hc Hn]. unfold write_pack_round. step. change (id s) with s.
  assert (peer_close_some s = h_peer h) as Ep by (unfold peer_close_some; rewrite Hc; by destruct (h_peer h)).
  destruct (chan s) as [|p rest].
  - destruct (chan_closed s); rewrite Ep; [destruct (h_peer h) eqn:Eh|]; cbn; rewrite ?Hp, ?Eh; split_and!; try done.
    + left. by split_and!.
    + right. split_and!; [done..|cbn; by rewrite Hp|done].
    + left. by split_and!.
  - step. destruct p; cbn [write_one fail mbind stm_bind]; try done.
    all: unfold gets, modify, in_once, write_out, mbind, stm_bind; cbn; rewrite Hp; split_and!; try done.
    all: left; split_and!; [exact Ep|by constructor|done].
Qed.

(** What the writing side leaves for [written]. *)
Definition wrote (me : bool) (h h' : Hand) (s' : PeerStream) (w' : option (option Z)) : Prop :=
  got s' = [] /\ ps_client s' = me /\
  exists d o, put s' = d ++ closes o /\ all_data d /\ (h_write h = true -> d = []) /\
    (h' = h /\ o = [] \/ (h', o) = if h_write h || h_peer h then hand_echo me h else hand_close me h) /\
    match w' with
    | None => h_fin h' = true
    | Some w => h_fin h' = false /\ h_read h' = h_read h /\ bool_decide (is_Some w) = h_write h' /\ holds (once s') me h'
    end.

(** An echo round ends every turn after [write_pack]. *)
Lemma wrote_echo s h0 h d o0 (w : Z) :
  got s = [] -> put s = d ++ closes o0 -> all_data d -> (h_write h0 = true -> d = []) ->
  is_send_close (once s) = h_sent h ->
  tunnel_peer_close (once s) = (if h_peer h then Some (mkClose (negb (ps_client s))) else None) ->
  close_num (once s) = b2z (h_read h) + 1 -> h_read h = h_read h0 ->
  ((hand_echo (ps_client s) h).1, o0 ++ (hand_echo (ps_client s) h).2) =
    (if h_write h0 || h_peer h0 then hand_echo (ps_client s) h0 else hand_close (ps_client s) h0) ->
  match (b ← echo_round; mret (if b : bool then None else Some (Some w))) s with
  | (Ok w', s') => exists h', wrote (ps_client s) h0 h' s' w'
  | _ => False
  end.
Proof.
  intros Hg Hp Hd Hd0 Hs Hc Hn Hr He.
  destruct (echo_round_ok s h Hs Hc Hn) as (s1 & E & P1 & G1 & C1 & O1). step by exact E.
  exists (hand_echo (ps_client s) h).1. split_and!; [by rewrite G1|done|]. exists d, (o0 ++ (hand_echo (ps_client s) h).2).
  split_and!; [unfold closes in *; by rewrite P1, Hp, fmap_app, app_assoc|done|done|by right|].
  unfold hand_echo in *; cbn in *. by destruct (h_read h).
Qed.

Lemma write_turn_ok s h w :
  quiet s -> holds (once s) (ps_client s) h -> bool_decide (is_Some w) = h_write h -> h_fin h = false ->
  match write_turn w s with
  | (Ok w', s') => exists h', wrote (ps_client s) h h' s' w'
  | _ => True
  end.
Proof.
  intros [Hp Hg] Ho Hw Hf. destruct w as [w|]; cbn [write_turn].
  - rewrite bool_decide_true in Hw by done. destruct (400 <? w + 1); [done|]. destruct Ho as [Hs Hc Hn]. rewrite <- Hw in Hn.
    pose proof (wrote_echo s h h [] [] (w + 1) Hg Hp) as H.
    ospecialize (H _ _ Hs Hc Hn eq_refl _); [done|done|by rewrite <- Hw, <- surjective_pairing|].
    revert H. by destruct ((b ← echo_round; _) s) as [[] ?].
  - rewrite bool_decide_false in Hw by (by intros [? ?]).
    pose proof (write_pack_round_ok s h Hp Ho) as H. unfold mbind at 1, stm_bind at 1.
    destruct (write_pack_round s) as [[over| | |] s1]; try done. destruct H as (G1 & C1 & N1 & T1 & H). destruct Ho as [Hs Hc Hn].
    rewrite <- Hw in Hn. destruct over.
    + step. set (s2 := set_once _ s1). assert (ps_client s2 = ps_client s) as C2 by done.
      assert (close_num (once s2) = b2z (h_read h) + 1) as N2 by (unfold s2; cbn; rewrite N1, Hn; cbn; lia).
      destruct H as [(Eo & Hd & S1)|(_ & Eo & P1 & S1)].
      * pose proof (wrote_echo s2 h h (put s1) [] 0) as H. rewrite C2 in H.
        ospecialize (H _ _ Hd _ S1 _ N2 eq_refl _); [by cbn; rewrite G1|by rewrite app_nil_r|by rewrite <- Hw|by cbn; rewrite T1|
          by rewrite <- Eo, orb_true_r, <- surjective_pairing|].
        revert H. by destruct ((b ← echo_round; _) s2) as [[] ?].
      * pose proof (wrote_echo s2 h (mkHand true false (h_read h) false false) [] [ps_client s] 0) as H. rewrite C2 in H.
        ospecialize (H _ P1 _ _ S1 _ N2 eq_refl _); [by cbn; rewrite G1|done|done|by cbn; rewrite T1, Hc, Eo|
          by rewrite <- Hw, Eo; unfold hand_close; rewrite Eo|].
        revert H. by destruct ((b ← echo_round; _) s2) as [[] ?].
    + destruct H as [(Eo & Hd & S1)|(? & _)]; [|done]. exists h. unfold wrote. split; [by rewrite G1|]. split; [done|].
      exists (put s1), []. split_and!; [by rewrite app_nil_r|done|by rewrite <- Hw|by left|done|done|
        by rewrite bool_decide_false by (by intros [? ?])|split; [done|by rewrite T1|by rewrite N1, <- Hw]].
Qed.

Lemma write_looks s h :
  looks s h -> h_fin h = false ->
  match turn WriteTurn s with
  | (Ok b, s') => exists h' d o, put s' = d ++ closes o /\ all_data d /\ (h_write h = true -> d = []) /\ got s' = [] /\
      ps_client s' = ps_client s /\ (b = false -> looks (set_put [] (set_got [] s')) h') /\
      (h' = h /\ o = [] \/ (h', o) = if h_write h || h_peer h then hand_echo (ps_client s) h else hand_close (ps_client s) h)
  | _ => True
  end.
Proof.
  intros (Hq & Hl) Hf. rewrite Hf in Hl. destruct Hl as (w & Hph & Hw & Ho).
  pose proof (write_turn_ok s h w Hq Ho Hw Hf) as H.
  assert (turn WriteTurn s = (w' ← write_turn w; written (h_read h) w') s) as ->.
  { unfold turn. step. rewrite Hph. by destruct (h_read h). }
  unfold mbind, stm_bind. destruct (write_turn w s) as [[w'| | |] s1]; try done.
  destruct H as (h' & G1 & C1 & d & o & P1 & Hd & Hd0 & Hm & H). destruct w' as [w'|]; cbn [written].
  - destruct H as (F' & R' & W' & O'). step. exists h', d, o. split_and!; try done. intros _. split; [done|]. rewrite F'. cbn.
    exists w'. rewrite R', C1. by split_and!.
  - unfold stream_over. step. destruct (min_cache s1 <=? 0).
    + by exists h', d, o.
    + step. step. exists h', d, o. split_and!; try done. intros _. split; [done|]. rewrite H. done.
Qed.

(** A session is joined to its channel. *)
Lemma attach_ok s m :
  m_channel m <> None \/ round_closed (session s) = false -> fresh (once s) ->
  exists s', attach m s = (Ok false, s') /\
    put s' = put s ++ (if negb (ps_client s) && m_is_ack m then [PHelloAck mkHelloAck] else []) /\ got s' = got s /\
    ps_client s' = ps_client s /\ phase s' = Running false None /\ fresh (once s').
Proof.
  intros Hm Hf. unfold attach. step. change (id s) with s.
  assert (exists c, (match m_channel m, round_closed (session s) with
    | None, true => stream_over
    | c, _ =>
        _ ← modify (fun s => set_chan (default [] c) (set_chan_closed false s));
        _ ← (if negb (ps_client s) && m_is_ack m then write_out (PHelloAck mkHelloAck) else done_);
        _ ← match m_hello m with Some h => in_once (set_session_id (Some (session_id h))) | None => done_ end;
        _ ← modify (set_phase (Running false None));
        mret false
    end) = (_ ← modify (fun s => set_chan c (set_chan_closed false s));
        _ ← (if negb (ps_client s) && m_is_ack m then write_out (PHelloAck mkHelloAck) else done_);
        _ ← match m_hello m with Some h => in_once (set_session_id (Some (session_id h))) | None => done_ end;
        _ ← modify (set_phase (Running false None));
        mret false)) as [c ->].
  { destruct (m_channel m) as [c|]; [by exists c|]. destruct Hm as [?| ->]; [done|by exists []]. }
  destruct Hf as (F1 & F2 & F3). step. destruct (negb (ps_client s) && m_is_ack m); step; (destruct (m_hello m); step; step);
    (eexists; split; [reflexivity|]); cbn; rewrite ?app_nil_r; by split_and!.
Qed.

Lemma looks_new s : got s = [] -> phase s = Running false None -> fresh (once s) -> looks (set_put [] (set_got [] s)) hand_new.
Proof. intros Hg Hp (F1 & F2 & F3). split; [done|]. cbn. exists None. by split_and!. Qed.

(** What [do_stream] has set when it writes its hello. *)
Definition begun (m : PeerStreamRecvHello) (s : PeerStream) : PeerStream :=
  set_session (m_session m) (set_min_cache (m_min_cache m)
    (set_once (set_session_id (m_session_id m) (set_index (m_index m) (set_stream_id (default 0 (m_stream_id m)) (once s)))) s)).

Lemma do_stream_eq m s :
  do_stream m s =
  match m_hello m with
  | None => if ps_client s then fail "err:self.is_client && tunnel_hello.is_none()"
            else if client_closed (m_session m) then fail "peer_stream_to_peer_client_tx.is_none" else attach m
  | Some hello =>
      if client_closed (m_session m) then fail "peer_stream_to_peer_client_tx.is_none"
      else _ ← write_out (PHello hello); if is_ack hello then _ ← modify (set_phase (WaitAck m)); mret false else attach m
  end (begun m s).
Proof. reflexivity. Qed.

(** A client begins a session. *)
Lemma begin_client s m b s' :
  quiet s -> ps_client s = true -> phase s = Waiting None -> fresh (once s) -> tells true None m ->
  turn (Told m) s = (Ok b, s') ->
  exists h, b = false /\ put s' = [PHello h] /\ got s' = [] /\ ps_client s' = true /\
    if is_ack h then phase s' = WaitAck m /\ m_channel m = None /\ fresh (once s')
    else looks (set_put [] (set_got [] s')) hand_new.
Proof.
  intros [Hp Hg] Hme Hph Hf (h & _ & Hh & Ha & Hc). unfold turn. step. rewrite Hph, do_stream_eq, Hh.
  destruct (client_closed (m_session m)); [done|]. step. destruct (is_ack h) eqn:Ei.
  - step. intros [= <- <-]. exists h. cbn. rewrite Hp, Ei. split_and!; try done. by apply Hc.
  - set (s1 := set_put _ _). destruct (attach_ok s1 m) as (s2 & E & P & G & C & Ph & F); [|done|].
    { left. intros E. by apply Hc in E. }
    rewrite E. intros [= <- <-]. exists h. rewrite P, G, C, Ha, Ei, andb_false_r. cbn. rewrite Hp.
    split_and!; try done. by apply looks_new; [rewrite G|..].
Qed.

(** A server joins one. *)
Lemma begin_server s h m b s' :
  quiet s -> ps_client s = false -> phase s = Waiting (Some h) -> fresh (once s) -> tells false (Some h) m ->
  turn (Told m) s = (Ok b, s') ->
  b = false /\ put s' = (if is_ack h then [PHelloAck mkHelloAck] else []) /\ got s' = [] /\ ps_client s' = false /\
  looks (set_put [] (set_got [] s')) hand_new.
Proof.
  intros [Hp Hg] Hme Hph Hf (h' & [= <-] & Hh & Ha & Hc). unfold turn. step. rewrite Hph, do_stream_eq, Hh, Hme.
  destruct (client_closed (m_session m)); [done|].
  destruct (attach_ok (begun m s) m) as (s2 & E & P & G & C & Ph & F); [by left|done|].
  rewrite E. intros [= <- <-]. change (ps_client (begun m s)) with (ps_client s) in *. rewrite P, G, C, Ha, Hme. cbn. rewrite Hp.
  split_and!; try done. by apply looks_new; [rewrite G|..].
Qed.

(** The answer to a hello. *)
Lemma ack_client s m p b s' :
  quiet s -> ps_client s = true -> phase s = WaitAck m -> fresh (once s) -> abandons s = false ->
  turn (Arrived p) s = (Ok b, s') ->
  is_data p = false /\ b = false /\ put s' = [] /\ got s' = [] /\ ps_client s' = true /\ looks (set_put [] (set_got [] s')) hand_new.
Proof.
  intros [Hp Hg] Hme Hph Hf Hab. unfold turn. step. rewrite Hph. unfold abandons in Hab. rewrite Hph in Hab.
  destruct p; try done. destruct (attach_ok s m) as (s2 & E & P & G & C & Ph & F); [|done|].
  { destruct (m_channel m); [by left|by right]. }
  rewrite E. intros [= <- <-]. rewrite P, G, C, Hme. cbn. rewrite Hp. split_and!; try done. by apply looks_new; [rewrite G|..].
Qed.

(** The hello itself. *)
Lemma hello_server s p b s' :
  quiet s -> phase s = Waiting None -> fresh (once s) -> turn (Arrived p) s = (Ok b, s') ->
  exists h, ps_client s = false /\ p = PHello h /\ b = false /\ quiet s' /\ ps_client s' = false /\ phase s' = Waiting (Some h) /\ fresh (once s').
Proof.
  intros [Hp Hg] Hph Hf. unfold turn. step. rewrite Hph. unfold read_hello. step. destruct p; try done.
  destruct (ps_client s) eqn:Hme; [done|]. step. intros [= <- <-]. exists v. split_and!; done.
Qed.
