(* ===== verification/Tunnel1Sessions.v ===== *)
(** The sessions of one connection of the first tunnel, one after the other: none
    gets a pack of another, and none that is over has left a pack behind. *)
From S2P Require Import Prelude Wire Tunnel1Pack Tunnel1Peer Tunnel1Close Tunnel1Conn.
#[local] Open Scope string_scope.
#[local] Open Scope list_scope.
#[local] Open Scope Z_scope.

(** ** Where a connection can be

    What is said of a side holds as long as its task runs. *)
Definition x_looks (me : bool) (x : Side) (h : Hand) : Prop := alive x = true -> ps_client (ps x) = me /\ looks (ps x) h.

Definition x_asks (x : Side) : Prop :=
  alive x = true -> ps_client (ps x) = true /\ quiet (ps x) /\ fresh (once (ps x)) /\ exists m, phase (ps x) = WaitAck m.

Definition x_told (h : TunnelHello) (y : Side) : Prop :=
  alive y = true -> ps_client (ps y) = false /\ quiet (ps y) /\ fresh (once (ps y)) /\ phase (ps y) = Waiting (Some h).

(** Both ends have come to the session [n]. *)
Definition together (me : bool) (n : nat) (x y : Side) (out inn : Line) : Prop :=
  nth x = n /\ nth y = n /\
  exists q dx dy, q ∈ states /\ x_looks me x (own me q) /\ x_looks (negb me) y (own (negb me) q) /\
    out = tag n (dx ++ closes (outs me q)) /\ inn = tag n (dy ++ closes (outs (negb me) q)) /\ all_data dx /\ all_data dy /\
    (h_read (own (negb me) q) = true -> dx = []) /\ (h_read (own me q) = true -> dy = []).

(** An end that has come there before the other, and what it has sent. *)
Definition alone (me : bool) (n : nat) (x : Side) (out : Line) : Prop :=
  exists q dx, q ∈ states /\ x_looks me x (own me q) /\ own (negb me) q = hand_new /\ outs (negb me) q = [] /\
    out = tag n (dx ++ closes (outs me q)) /\ all_data dx.

(** The client waits for the answer, and the server has given it. *)
Definition acking (n : nat) (x y : Side) (ab ba : Line) : Prop :=
  nth x = n /\ nth y = n /\ x_asks x /\ ab = [] /\ exists l, alone false n y l /\ ba = (n, PHelloAck mkHelloAck) :: l.

(** The client is a session ahead. The server may have to read the end of its
    session, the hello is behind that, unless it has read it too. *)
Definition ahead (n : nat) (x y : Side) (ab ba : Line) : Prop :=
  nth x = S n /\ nth y = n /\ ba = [] /\
  exists h l, (if is_ack h then x_asks x /\ l = [] else alone true (S n) x l) /\
    ((x_told h y /\ ab = l) \/
     exists q d, q ∈ states /\ h_fin (own true q) = true /\ x_looks false y (own false q) /\ all_data d /\
       (h_read (own false q) = true -> d = []) /\ ab = tag n (d ++ closes (outs true q)) ++ (S n, PHello h) :: l).

Definition shape (x y : Side) (ab ba : Line) : Prop :=
  exists n, together true n x y ab ba \/ acking n x y ab ba \/ ahead n x y ab ba.

(** What a step does to the notes of its side. *)
Definition flow (x : Side) (inn out : Line) (x' : Side) (inn' out' : Line) : Prop :=
  (nth x <= nth x')%nat /\ exists o used, out' = out ++ o /\ sent x' = sent x ++ datas_of o /\
    handed x' = handed x ++ used /\ datas_of inn = used ++ datas_of inn' /\ Forall (fun e => e.1 = nth x') used.

Lemma flow_same x inn out x' : nth x' = nth x -> sent x' = sent x -> handed x' = handed x -> flow x inn out x' inn out.
Proof. intros Hn Hs Hh. split; [lia|]. exists [], []. by rewrite !app_nil_r, Hs, Hh. Qed.

Lemma tag_app n l k : tag n (l ++ k) = tag n l ++ tag n k.
Proof. apply fmap_app. Qed.

Lemma datas_app l k : datas_of (l ++ k) = datas_of l ++ datas_of k.
Proof. apply filter_app. Qed.

Lemma datas_data n d : all_data d -> datas_of (tag n d) = tag n d.
Proof. induction 1 as [|p d Hp Hd IH]; [done|]. unfold datas_of, tag in *. cbn [fmap list_fmap]. by rewrite filter_cons, decide_True, IH. Qed.

Lemma datas_closes n l : datas_of (tag n (closes l)) = [].
Proof. induction l as [|c l IH]; [done|]. unfold datas_of, tag, closes in *. cbn [fmap list_fmap]. by rewrite filter_cons, decide_False. Qed.

(** Nothing was handed on. *)
Lemma flow_sends x inn out n b s o :
  got s = [] -> (nth x <= n)%nat -> o = tag n (put s) -> flow x inn out (after x n b s) inn (out ++ o).
Proof.
  intros Hg Hn ->. split; [done|]. exists (tag n (put s)), []. cbn. rewrite Hg. cbn. by rewrite !app_nil_r.
Qed.

(** A pack that is not for a stream was read. *)
Lemma flow_reads x k p inn out b s :
  is_data p = false -> got s = [] -> put s = [] -> flow x ((k, p) :: inn) out (after x (nth x) b s) inn (out ++ tag (nth x) (put s)).
Proof.
  intros Hp Hg Ht. split; [done|]. exists [], []. cbn [after sent handed nth]. rewrite Hg, Ht. cbn [tag fmap list_fmap]. rewrite !app_nil_r.
  split_and!; try done. unfold datas_of. by rewrite filter_cons, decide_False by (cbn; by rewrite Hp).
Qed.

(** What the others do to a side is not seen. *)
Lemma looks_others s h x c b : looks s h -> looks (others s x c b) h.
Proof. intros [Hq Hl]. split; [done|]. exact Hl. Qed.

Lemma looks_waiting s h g : looks s h -> phase s = Waiting g -> h_fin h = true /\ g = None /\ quiet s /\ fresh (once s).
Proof. intros [Hq Hl] Hp. destruct (h_fin h); [destruct Hl as [E F]; by rewrite Hp in E; injection E as ->|by destruct Hl as (w & E & _); rewrite Hp in E]. Qed.

Lemma looks_reads s h : looks s h -> reads s = true -> h_fin h = true \/ h_fin h = false /\ h_read h = false.
Proof.
  intros [Hq Hl] Hp. destruct (h_fin h); [by left|right]. destruct Hl as (w & E & _). unfold reads in Hp. rewrite E in Hp. by destruct (h_read h).
Qed.

Lemma looks_writes s h : looks s h -> writes s = true -> h_fin h = false.
Proof. intros [Hq Hl] Hp. destruct (h_fin h); [|done]. destruct Hl as (E & _). unfold writes in Hp. by rewrite E in Hp. Qed.

Lemma x_looks_stopped me x h s : x_looks me (stopped x s) h.
Proof. by intros ?. Qed.

Lemma x_looks_after me x n b s h :
  ps_client s = me -> (b = false -> looks (set_put [] (set_got [] s)) h) -> x_looks me (after x n b s) h.
Proof. intros Hm Hl Ha. cbn in Ha. apply negb_true_iff in Ha. split; [done|]. by apply Hl. Qed.

Lemma x_looks_others me x h y c b : alive x = true -> x_looks me x h -> x_looks me (mkSide (others (ps x) y c b) true (nth x) (sent x) (handed x)) h.
Proof. intros Ha Hx _. destruct (Hx Ha) as [Hm Hl]. split; [done|]. by apply looks_others. Qed.

(** A turn of the writing side, from what has been sent on. *)
Lemma side_writes me x q n b s dx out :
  alive x = true -> x_looks me x (own me q) -> q ∈ states -> writes (ps x) = true -> turn WriteTurn (ps x) = (Ok b, s) ->
  out = tag n (dx ++ closes (outs me q)) -> all_data dx ->
  got s = [] /\ exists q' d, q' ∈ states /\ own (negb me) q' = own (negb me) q /\ outs (negb me) q' = outs (negb me) q /\
    h_read (own me q') = h_read (own me q) /\
    x_looks me (after x (nth x) b s) (own me q') /\ out ++ tag n (put s) = tag n (dx ++ d ++ closes (outs me q')) /\ all_data d /\
    (h_write (own me q) = true -> d = []).
Proof.
  intros Ha Hx Hq Hw Ht -> Hd. destruct (Hx Ha) as [Hm Hl]. pose proof (looks_writes _ _ Hl Hw) as Hf.
  pose proof (write_looks _ _ Hl Hf) as H. rewrite Ht in H. destruct H as (h' & d & o & P & Hdd & Hd0 & G & C & L & Hm'). split; [done|].
  rewrite Hm in *. assert (h_write (own me q) = false -> outs me q = []) as Ho by (intros E; by destruct (writing_states me q Hq E)).
  assert (tag n (dx ++ closes (outs me q)) ++ tag n (put s) = tag n (dx ++ d ++ closes (outs me q ++ o))) as Et.
  { rewrite <- tag_app, P. f_equal. unfold closes. rewrite fmap_app, <- !app_assoc. f_equal. destruct (h_write (own me q)); [by rewrite Hd0|]. by rewrite Ho. }
  destruct Hm' as [[-> ->]|Hm'].
  - exists q, d. rewrite Et, app_nil_r. split_and!; try done. by apply x_looks_after.
  - pose proof (states_write me q h' o Hq Hf Hm') as Hq'. destruct (own_pair me h' (own (negb me) q) (outs me q ++ o) (outs (negb me) q)) as (E1 & E2 & E3 & E4).
    exists (pair_of me h' (own (negb me) q) (outs me q ++ o) (outs (negb me) q)), d. rewrite E1, E2, E3, E4. split_and!; try done; [|by apply x_looks_after].
    unfold hand_echo, hand_close in Hm'. destruct (h_write (own me q)), (h_peer (own me q)); cbn in Hm'; by injection Hm' as -> _.
Qed.

(** A reading turn of an end in the midst of a session, from what waits for it. *)
Lemma side_reads me x q n k p b s dy inn :
  alive x = true -> x_looks me x (own me q) -> q ∈ states -> h_fin (own me q) = false -> h_read (own me q) = false ->
  turn (Arrived p) (ps x) = (Ok b, s) -> (k, p) :: inn = tag n (dy ++ closes (outs (negb me) q)) -> all_data dy ->
  put s = [] /\ got s = (if is_data p then [p] else []) /\ k = n /\
  exists q' d, q' ∈ states /\ own (negb me) q' = own (negb me) q /\ outs me q' = outs me q /\ x_looks me (after x (nth x) b s) (own me q') /\
    inn = tag n (d ++ closes (outs (negb me) q')) /\ all_data d /\ (h_read (own me q') = true -> d = []).
Proof.
  intros Ha Hx Hq Hf Hr Ht Hi Hd. destruct (Hx Ha) as [Hm Hl]. destruct dy as [|p' d].
  - destruct (outs (negb me) q) as [|c l] eqn:Eo; [done|]. cbn in Hi. injection Hi as -> -> ->.
    destruct (read_close _ _ c Hl Hf Hr) as (s' & E & P & G & C & L). rewrite E in Ht. injection Ht as <- <-. rewrite Hm in *.
    destruct (own_pair me (hand_read me c (own me q)) (own (negb me) q) (outs me q) l) as (E1 & E2 & E3 & E4).
    split_and!; try done. exists (pair_of me (hand_read me c (own me q)) (own (negb me) q) (outs me q) l), [].
    rewrite E1, E2, E3, E4. split_and!; try done; [by apply states_read|]. apply x_looks_after; [done|]. intros _.
    destruct L as [_ L]. by split.
  - cbn in Hi. injection Hi as -> -> ->. inversion Hd as [|? ? Hp Hd']; subst.
    destruct (read_data _ _ p' Hl Hf Hr Hp) as (s' & E & P & G & C & L). rewrite E in Ht. injection Ht as <- <-.
    rewrite Hp. split_and!; try done. exists q, d. split_and!; try done. by rewrite Hr.
Qed.

Lemma together_sym me n x y out inn : together me n x y out inn -> together (negb me) n y x inn out.
Proof.
  intros (Hx & Hy & q & dx & dy & Hq & Lx & Ly & Ho & Hi & Dx & Dy & Rx & Ry). split; [done|]. split; [done|].
  exists q, dy, dx. rewrite negb_involutive. by split_and!.
Qed.

(** Reading what an end has got hands on the packs of its own session. *)
Lemma flow_hands x k p inn out b s :
  k = nth x -> got s = (if is_data p then [p] else []) -> put s = [] ->
  flow x ((k, p) :: inn) out (after x (nth x) b s) inn (out ++ tag (nth x) (put s)).
Proof.
  intros -> Hg Ht. destruct (is_data p) eqn:Ep; [|by apply flow_reads]. split; [done|]. exists [], [(nth x, p)].
  cbn [after sent handed nth]. rewrite Hg, Ht. cbn [tag fmap list_fmap]. rewrite !app_nil_r. split_and!; try done; [|by constructor].
  unfold datas_of. by rewrite filter_cons, decide_True.
Qed.

Lemma together_step me n x y out inn x' inn' out' :
  together me n x y out inn -> end_step false x inn out x' inn' out' ->
  flow x inn out x' inn' out' /\ (together me n x' y out' inn' \/ me = true /\ ahead n x' y out' inn').
Proof.
  intros (Hx & Hy & q & dx & dy & Hq & Lx & Ly & Ho & Hi & Dx & Dy & Rx & Ry) Hs.
  assert (forall x', nth x' = n -> x_looks me x' (own me q) -> together me n x' y out inn) as Hkeep.
  { intros z Hz Lz. split; [done|]. split; [done|]. by exists q, dx, dy. }
  destruct Hs as [g m b s inn out Ha Hp Ht E|k p b s inn out Ha Hr Hab E|b s inn out Ha Hw E|a e s inn out Ha E|t inn out Ha|z c b inn out Ha].
  - destruct (Lx Ha) as [Hm Hl]. destruct (looks_waiting _ _ _ Hl Hp) as (Hf & -> & Hqu & Hfr).
    destruct (fin_states me q Hq Hf) as (F1 & F2 & F3 & F4 & F5). rewrite Hm in Ht. destruct me; [|by destruct Ht as (h & ? & _)].
    destruct (begin_client _ _ _ _ Hqu Hm Hp Hfr Ht E) as (h & -> & P & G & C & Hh).
    split; [apply flow_sends; [done|lia|done]|]. right. split; [done|]. split; [by cbn; rewrite Hx|]. split; [done|].
    split; [by rewrite Hi, F1, Ry|]. exists h, []. split.
    { destruct (is_ack h).
      - split; [|done]. intros _. destruct Hh as (H1 & H2 & H3). split; [done|]. split; [done|]. split; [done|]. by exists m.
      - exists pair_new, []. split_and!; try done. apply states_new. }
    right. exists q, dx. cbn [negb] in *. split_and!; try done. by rewrite Ho, P, Hx.
  - destruct (Lx Ha) as [Hm Hl]. destruct (looks_reads _ _ Hl Hr) as [Hf|[Hf Hrd]].
    { destruct (fin_states me q Hq Hf) as (F1 & F2 & _). by rewrite F1, Ry in Hi. }
    destruct (side_reads me x q n k p b s dy inn Ha Lx Hq Hf Hrd E Hi Dy) as (P & G & -> & q' & d & Hq' & O1 & O2 & L' & I' & D' & R').
    split; [by apply flow_hands|]. left. split; [done|]. split; [done|]. exists q', dx, d. rewrite O1, O2, P. cbn. rewrite app_nil_r.
    by split_and!.
  - destruct (side_writes me x q n b s dx out Ha Lx Hq Hw E Ho Dx) as (G & q' & d & Hq' & O1 & O2 & R' & L' & T' & D' & D0).
    split; [by apply flow_sends|]. left. split; [done|]. split; [done|]. exists q', (dx ++ d), dy. rewrite O1, O2, R', Hx, <- app_assoc.
    split_and!; try done; [by apply Forall_app|]. intros Hrd. rewrite Rx by done.
    destruct (h_write (own me q)) eqn:Ew; [by rewrite D0|]. destruct (writing_states me q Hq Ew) as [_ Hrd']. by rewrite Hrd in Hrd'.
  - split; [by apply flow_same|]. left. by apply Hkeep.
  - split; [by apply flow_same|]. left. by apply Hkeep.
  - split; [by apply flow_same|]. left. apply Hkeep; [done|]. by apply x_looks_others.
Qed.

(** An end alone goes on writing. *)
Lemma alone_step me n x out inn x' inn' out' :
  nth x = n -> alone me n x out -> end_step false x inn out x' inn' out' -> (forall k p l, inn <> (k, p) :: l) ->
  flow x inn out x' inn' out' /\ inn' = inn /\ nth x' = n /\ exists o, out' = out ++ o /\ alone me n x' out'.
Proof.
  intros Hn (q & dx & Hq & Lx & H1 & H2 & Ho & Dx) Hs Hin. pose proof (alone_states me q Hq H1 H2) as Hf.
  destruct Hs as [g m b s inn out Ha Hp Ht E|k p b s inn out Ha Hr Hab E|b s inn out Ha Hw E|a e s inn out Ha E|t inn out Ha|z c b inn out Ha].
  - destruct (Lx Ha) as [Hm Hl]. destruct (looks_waiting _ _ _ Hl Hp) as (Hf' & _). by rewrite Hf in Hf'.
  - by destruct (Hin k p inn).
  - destruct (side_writes me x q n b s dx out Ha Lx Hq Hw E Ho Dx) as (G & q' & d & Hq' & O1 & O2 & R' & L' & T' & D' & D0).
    split; [by apply flow_sends|]. split; [done|]. split; [done|]. eexists. split; [done|]. exists q', (dx ++ d). rewrite O1, O2, Hn, <- app_assoc.
    split_and!; try done. by apply Forall_app.
  - split; [by apply flow_same|]. split; [done|]. split; [done|]. exists []. rewrite app_nil_r. split; [done|]. by exists q, dx.
  - split; [by apply flow_same|]. split; [done|]. split; [done|]. exists []. rewrite app_nil_r. split; [done|]. by exists q, dx.
  - split; [by apply flow_same|]. split; [done|]. split; [done|]. exists []. rewrite app_nil_r. split; [done|]. exists q, dx. split_and!; try done.
    by apply x_looks_others.
Qed.

(** What lies further ahead on the line does not matter to who writes on it. *)
Lemma end_step_frame free x inn pre l x' inn' out' :
  end_step free x inn (pre ++ l) x' inn' out' -> exists l', out' = pre ++ l' /\ end_step free x inn l x' inn' l'.
Proof.
  intros Hs. remember (pre ++ l) as out eqn:Eo.
  destruct Hs; subst; rewrite <- ?app_assoc; eexists; (split; [reflexivity|]); by econstructor.
Qed.

Lemma flow_frame x inn pre l x' inn' l' : flow x inn l x' inn' l' -> flow x inn (pre ++ l) x' inn' (pre ++ l').
Proof. intros (Hn & o & used & -> & H). split; [done|]. exists o, used. by rewrite app_assoc. Qed.

(** While it waits for the answer, a client reads that and does nothing else. *)
Lemma asks_step x inn out x' inn' out' :
  x_asks x -> end_step false x inn out x' inn' out' ->
  (x_asks x' /\ inn' = inn /\ out' = out /\ nth x' = nth x /\ flow x inn out x' inn' out') \/
  exists k p, inn = (k, p) :: inn' /\ out' = out /\ nth x' = nth x /\ flow x inn out x' inn' out' /\ x_looks true x' hand_new.
Proof.
  intros Hx Hs.
  destruct Hs as [g m b s inn out Ha Hp Ht E|k p b s inn out Ha Hr Hab E|b s inn out Ha Hw E|a e s inn out Ha E|t inn out Ha|z c b inn out Ha].
  - destruct (Hx Ha) as (_ & _ & _ & m' & Hph). by rewrite Hph in Hp.
  - right. destruct (Hx Ha) as (Hm & Hqu & Hfr & m & Hph). cbn [orb] in Hab. apply negb_true_iff in Hab.
    destruct (ack_client _ _ _ _ _ Hqu Hm Hph Hfr Hab E) as (Hd & -> & P & G & C & L).
    exists k, p. split_and!; [done|rewrite P; apply app_nil_r|done|by apply flow_reads|by apply x_looks_after].
  - destruct (Hx Ha) as (_ & _ & _ & m' & Hph). unfold writes in Hw. by rewrite Hph in Hw.
  - left. split_and!; try done. by apply flow_same.
  - left. split_and!; try done. by apply flow_same.
  - left. destruct (Hx Ha) as (Hm & Hqu & Hfr & Hph). split_and!; try done. by apply flow_same.
Qed.

(** A step of the client. *)
Lemma shape_client x y ab ba x' ba' ab' :
  shape x y ab ba -> end_step false x ba ab x' ba' ab' -> flow x ba ab x' ba' ab' /\ shape x' y ab' ba'.
Proof.
  intros [n [Ht|[Hk|Hd]]] Hs.
  - destruct (together_step true n x y ab ba x' ba' ab' Ht Hs) as [Hf [H|[_ H]]]; (split; [done|]); exists n; auto.
  - destruct Hk as (Hx & Hy & Ask & -> & l & Al & ->).
    destruct (asks_step _ _ _ _ _ _ Ask Hs) as [(H1 & -> & -> & H2 & Hf)|(k & p & E & -> & Hn & Hf & L)]; (split; [done|]); exists n.
    + right. left. split; [by rewrite H2|]. split; [done|]. split; [done|]. split; [done|]. by exists l.
    + left. injection E as <- <- <-. split; [by rewrite Hn|]. split; [done|]. destruct Al as (q & dx & Hq & Ly & O1 & O2 & -> & D).
      cbn [negb] in *. exists q, [], dx. rewrite O1, O2. by split_and!.
  - destruct Hd as (Hx & Hy & -> & h & l & Hc & Hsv).
    assert (exists pre, ab = pre ++ l /\ forall l', (x_told h y /\ pre ++ l' = l' \/ exists q d, q ∈ states /\ h_fin (own true q) = true /\
      x_looks false y (own false q) /\ all_data d /\ (h_read (own false q) = true -> d = []) /\
      pre ++ l' = tag n (d ++ closes (outs true q)) ++ (S n, PHello h) :: l')) as (pre & -> & Hpre).
    { destruct Hsv as [[Ht ->]|(q & d & Hq & Hf & Ly & D & R & ->)].
      - exists []. split; [done|]. intros l'. by left.
      - exists (tag n (d ++ closes (outs true q)) ++ [(S n, PHello h)]). rewrite <- app_assoc. split; [done|]. intros l'. right.
        exists q, d. rewrite <- app_assoc. by split_and!. }
    destruct (end_step_frame _ _ _ _ _ _ _ _ Hs) as (l' & -> & Hs').
    assert (flow x [] l x' ba' l' /\ ba' = [] /\ nth x' = S n /\ if is_ack h then x_asks x' /\ l' = [] else alone true (S n) x' l') as (Hf & -> & Hn & Hc').
    { destruct (is_ack h).
      - destruct Hc as [Ask ->]. destruct (asks_step _ _ _ _ _ _ Ask Hs') as [(H1 & -> & -> & H2 & Hf)|(k & p & E & _)]; [|done].
        by rewrite H2, Hx.
      - destruct (alone_step true (S n) x l [] x' ba' l' Hx Hc Hs') as (Hf & -> & Hn & o & -> & H); [done|]. by split_and!. }
    split; [by apply flow_frame|]. exists n. right. right. split; [done|]. split; [done|]. split; [done|]. exists h, l'. split; [done|]. apply Hpre.
Qed.

(** The server, which has read the hello, is told of its session. *)
Lemma told_step h n x y l y' ab' ba' :
  nth x = S n -> nth y = n -> (if is_ack h then x_asks x /\ l = [] else alone true (S n) x l) -> x_told h y ->
  end_step false y l [] y' ab' ba' -> flow y l [] y' ab' ba' /\ shape x y' ab' ba'.
Proof.
  intros Hx Hy Hc Ht Hs.
  assert (forall y', nth y' = n -> x_told h y' -> shape x y' l []) as Hkeep.
  { intros z Hz Hz'. exists n. right. right. split; [done|]. split; [done|]. split; [done|]. exists h, l. split; [done|]. by left. }
  remember [] as e0 eqn:Ee in Hs.
  destruct Hs as [g m b s inn out Ha Hp Htl E|k p b s inn out Ha Hr Hab E|b s inn out Ha Hw E|a e s inn out Ha E|t inn out Ha|z c b inn out Ha]; subst.
  - destruct (Ht Ha) as (Hm & Hqu & Hfr & Hph). rewrite Hph in Hp. injection Hp as <-. rewrite Hm in Htl.
    destruct (begin_server _ _ _ _ _ Hqu Hm Hph Hfr Htl E) as (-> & P & G & C & L). split; [apply flow_sends; [done|lia|done]|].
    exists (S (nth y)). destruct (is_ack h).
    + right. left. destruct Hc as [Ask ->]. split; [done|]. split; [done|]. split; [done|]. split; [done|]. exists []. split; [|by rewrite P].
      exists pair_new, []. split_and!; try done. apply states_new.
    + left. split; [done|]. split; [done|]. destruct Hc as (q & dx & Hq & Lx & O1 & O2 & -> & D). cbn [negb] in *.
      exists q, dx, []. rewrite O1, O2, P. split_and!; done.
  - destruct (Ht Ha) as (_ & _ & _ & Hph). unfold reads in Hr. by rewrite Hph in Hr.
  - destruct (Ht Ha) as (_ & _ & _ & Hph). unfold writes in Hw. by rewrite Hph in Hw.
  - split; [by apply flow_same|]. by apply Hkeep.
  - split; [by apply flow_same|]. by apply Hkeep.
  - split; [by apply flow_same|]. apply Hkeep; [done|]. intros _. by destruct (Ht Ha) as (? & ? & ? & ?).
Qed.

(** It is still at the end of the session before. *)
Lemma behind_step h n x y l q d y' ab' ba' :
  nth x = S n -> nth y = n -> (if is_ack h then x_asks x /\ l = [] else alone true (S n) x l) ->
  q ∈ states -> h_fin (own true q) = true -> x_looks false y (own false q) -> all_data d -> (h_read (own false q) = true -> d = []) ->
  end_step false y (tag n (d ++ closes (outs true q)) ++ (S n, PHello h) :: l) [] y' ab' ba' ->
  flow y (tag n (d ++ closes (outs true q)) ++ (S n, PHello h) :: l) [] y' ab' ba' /\ shape x y' ab' ba'.
Proof.
  intros Hx Hy Hc Hq Hf Ly D R Hs. destruct (fin_states true q Hq Hf) as (F1 & F2 & F3 & F4 & F5). cbn [negb] in *.
  assert (forall y' q' d', nth y' = n -> q' ∈ states -> own true q' = own true q -> x_looks false y' (own false q') -> all_data d' ->
    (h_read (own false q') = true -> d' = []) -> shape x y' (tag n (d' ++ closes (outs true q')) ++ (S n, PHello h) :: l) []) as Hkeep.
  { intros z q' d' Hz Hq' Hf' Lz D' R'. exists n. right. right. split; [done|]. split; [done|]. split; [done|]. exists h, l. split; [done|]. right.
    exists q', d'. by rewrite Hf'. }
  remember [] as e0 eqn:Ee in Hs. remember (tag n _ ++ _) as ab eqn:Eab in Hs.
  destruct Hs as [g m b s inn out Ha Hp Htl E|k p b s inn out Ha Hr Hab E|b s inn out Ha Hw E|a e s inn out Ha E|t inn out Ha|z c b inn out Ha]; subst out.
  - destruct (Ly Ha) as [Hm Hl]. destruct (looks_waiting _ _ _ Hl Hp) as (_ & -> & _). rewrite Hm in Htl. by destruct Htl as (? & ? & _).
  - destruct (Ly Ha) as [Hm Hl]. destruct (looks_reads _ _ Hl Hr) as [Hfy|[Hfy Hrd]].
    + destruct (fin_states false q Hq Hfy) as (G1 & G2 & _). cbn [negb] in *. rewrite G1, R in Eab by done. cbn in Eab. injection Eab as -> -> ->.
      assert (phase (ps y) = Waiting None /\ quiet (ps y) /\ fresh (once (ps y))) as (Hph & Hqu & Hfr).
      { destruct Hl as [Hqu Hl]. rewrite Hfy in Hl. by destruct Hl. }
      destruct (hello_server _ _ _ _ Hqu Hph Hfr E) as (h' & _ & [= <-] & -> & [P' G'] & C' & Ph' & Fr').
      rewrite R by done. rewrite G1. split; [by apply flow_reads|]. rewrite P'. exists n. right. right. split; [done|]. split; [done|]. split; [done|].
      exists h, l. split; [done|]. left. split; [|done]. intros _. by split_and!.
    + destruct (tag n (d ++ closes (outs true q))) as [|e l0] eqn:El.
      { assert (d ++ closes (outs true q) = []) as [E1 E2]%app_eq_nil by (by destruct (d ++ closes (outs true q))).
        destruct (F5 Hrd). by destruct (outs true q). }
      cbn in Eab. injection Eab as <- ->. symmetry in El.
      destruct (side_reads false y q n k p b s d l0 Ha Ly Hq Hfy Hrd E El D) as (P & G & -> & q' & d' & Hq' & O1 & O2 & L' & I' & D' & R').
      split; [by apply flow_hands|]. cbn [negb] in *. rewrite P, I'. apply Hkeep; done.
  - destruct (side_writes false y q n b s [] [] Ha Ly Hq Hw E) as (G & q' & d' & Hq' & O1 & O2 & R' & L' & T' & D' & D0); [by rewrite F1|done|].
    cbn [negb] in *. rewrite D0 in T' by done. assert (outs false q' = []) as O3.
    { rewrite <- O1 in Hf. by destruct (fin_states true q' Hq' Hf). }
    rewrite O3 in T'. cbn in T'. subst inn. split; [apply flow_sends; [done|lia|by rewrite Hy]|]. rewrite Hy, T', <- O2. apply Hkeep; try done. by rewrite R'.
  - subst inn. split; [by apply flow_same|]. by apply Hkeep.
  - subst inn. split; [by apply flow_same|]. by apply Hkeep.
  - subst inn. split; [by apply flow_same|]. apply Hkeep; try done. by apply x_looks_others.
Qed.

Lemma shape_server x y ab ba y' ab' ba' :
  shape x y ab ba -> end_step false y ab ba y' ab' ba' -> flow y ab ba y' ab' ba' /\ shape x y' ab' ba'.
Proof.
  intros [n [Ht|[Hk|Hd]]] Hs.
  - apply together_sym in Ht. destruct (together_step false n y x ba ab y' ab' ba' Ht Hs) as [Hf [H|[? _]]]; [|done]. split; [done|].
    exists n. left. by apply (together_sym false).
  - destruct Hk as (Hx & Hy & Ask & -> & l & Al & ->).
    destruct (end_step_frame _ _ _ [(n, PHelloAck mkHelloAck)] _ _ _ _ Hs) as (l' & -> & Hs').
    destruct (alone_step false n y l [] y' ab' l' Hy Al Hs') as (Hf & -> & Hn & o & -> & H); [done|].
    split; [by apply (flow_frame _ _ [_])|]. exists n. right. left. split_and!; try done. by exists (l ++ o).
  - destruct Hd as (Hx & Hy & -> & h & l & Hc & [[Ht ->]|(q & d & Hq & Hf & Ly & D & R & ->)]).
    + by eapply told_step.
    + by eapply behind_step.
Qed.

(** ** Every reachable state *)

Definition pipe (x y : Side) (out : Line) : Prop :=
  sent x = handed y ++ datas_of out /\ Forall (fun e => (e.1 <= nth y)%nat) (handed y).

Lemma flow_pipe x y inn out x' inn' out' :
  flow x inn out x' inn' out' -> pipe x y out -> pipe y x inn -> pipe x' y out' /\ pipe y x' inn'.
Proof.
  intros (Hn & o & used & -> & Hs & Hh & Hi & Hu) [P1 P2] [Q1 Q2]. split; split.
  - by rewrite Hs, P1, datas_app, app_assoc.
  - done.
  - by rewrite Q1, Hh, Hi, app_assoc.
  - rewrite Hh. apply Forall_app. split; [eapply Forall_impl; [exact Q2|]; cbn; lia|]. eapply Forall_impl; [exact Hu|]. cbn. intros e ->. lia.
Qed.

Lemma reach_shape w : reach false w ->
  shape (client w) (server w) (cs w) (sc w) /\ pipe (client w) (server w) (cs w) /\ pipe (server w) (client w) (sc w).
Proof.
  induction 1 as [|w w' _ (S1 & P1 & P2) Hs].
  - split; [|by repeat split]. exists 0%nat. left. split; [done|]. split; [done|].
    exists (mkPair (mkHand true false true true true) (mkHand true false true true true) [] []), [], [].
    split_and!; try done. by apply (bool_decide_unpack _).
  - destruct Hs as [x x' y ab ba ab' ba' Hs|x y y' ab ba ab' ba' Hs]; cbn in *.
    + destruct (shape_client _ _ _ _ _ _ _ S1 Hs) as [Hf H]. split; [done|]. by destruct (flow_pipe _ _ _ _ _ _ _ Hf P1 P2).
    + destruct (shape_server _ _ _ _ _ _ _ S1 Hs) as [Hf H]. split; [done|]. by destruct (flow_pipe _ _ _ _ _ _ _ Hf P2 P1).
Qed.

(** The packs of the first sessions. *)
Definition up_to (n : nat) (l : Line) : Line := filter (fun e => (e.1 <= n)%nat) l.

(** An end between two sessions. *)
Definition between (x : Side) : Prop := alive x = true /\ exists g, phase (ps x) = Waiting g.

Lemma up_to_all n l : Forall (fun e => (e.1 <= n)%nat) l -> up_to n l = l.
Proof. induction 1 as [|e l He Hl IH]; [done|]. unfold up_to in *. by rewrite filter_cons, decide_True, IH. Qed.

Lemma up_to_none n k l : (n < k)%nat -> up_to n (datas_of (tag k l)) = [].
Proof.
  intros Hk. induction l as [|p l IH]; [done|]. unfold up_to, datas_of, tag in *. cbn [fmap list_fmap]. rewrite filter_cons.
  case_decide; [|done]. rewrite filter_cons, decide_False by (cbn; lia). done.
Qed.

Lemma pipe_over x y out : pipe x y out -> up_to (nth y) (datas_of out) = [] -> handed y = up_to (nth y) (sent x).
Proof.
  intros [P1 P2] Ho. rewrite P1. unfold up_to in *. rewrite filter_app, Ho, app_nil_r. symmetry. by apply up_to_all.
Qed.

Lemma together_over me n x y out inn : together me n x y out inn -> between x -> inn = [].
Proof.
  intros (_ & _ & q & dx & dy & Hq & Lx & _ & _ & -> & _ & _ & _ & R) [Ha [g Hp]].
  destruct (looks_waiting _ _ _ (proj2 (Lx Ha)) Hp) as (Hf & _). destruct (fin_states me q Hq Hf) as (F1 & F2 & _). by rewrite F1, R.
Qed.

Lemma alone_over me n x out : alone me n x out -> between x -> False.
Proof.
  intros (q & dx & Hq & Lx & O1 & O2 & _) [Ha [g Hp]]. destruct (looks_waiting _ _ _ (proj2 (Lx Ha)) Hp) as (Hf & _).
  by rewrite (alone_states me q Hq O1 O2) in Hf.
Qed.

Lemma asks_over x : x_asks x -> between x -> False.
Proof. intros Hx [Ha [g Hp]]. destruct (Hx Ha) as (_ & _ & _ & m & E). by rewrite E in Hp. Qed.

Lemma client_over x y ab ba : shape x y ab ba -> between x -> ba = [].
Proof.
  intros [n [Ht|[(_ & _ & Hk & _)|(_ & _ & _ & h & l & Hc & _)]]] Hb; [by eapply together_over|by destruct (asks_over x)|].
  destruct (is_ack h); [destruct Hc; by destruct (asks_over x)|by destruct (alone_over _ _ _ _ Hc Hb)].
Qed.

Lemma server_over x y ab ba : shape x y ab ba -> between y -> up_to (nth y) (datas_of ab) = [].
Proof.
  intros [n [Ht|[(_ & _ & _ & _ & l & Hk & _)|(_ & Hy & _ & h & l & Hc & Hs)]]] Hb.
  - apply together_sym in Ht. by rewrite (together_over _ _ _ _ _ _ Ht Hb).
  - by destruct (alone_over _ _ _ _ Hk Hb).
  - assert (up_to (nth y) (datas_of l) = []) as Hl.
    { destruct (is_ack h); [by destruct Hc as [_ ->]|]. destruct Hc as (q & dx & _ & _ & _ & _ & -> & _). apply up_to_none. lia. }
    destruct Hs as [[_ ->]|(q & d & Hq & _ & Ly & _ & R & ->)]; [done|]. destruct Hb as [Ha [g Hp]].
    destruct (looks_waiting _ _ _ (proj2 (Ly Ha)) Hp) as (Hf & _). destruct (fin_states false q Hq Hf) as (F1 & F2 & _). cbn [negb] in F1.
    rewrite F1, R by done. unfold datas_of in *. cbn [app closes tag fmap list_fmap]. by rewrite filter_cons, decide_False.
Qed.

(** C9. A connection of the first tunnel is used by one session after the other. In
    every interleaving of its two ends, as long as no client abandons a session
    while it waits for the answer to its hello, what the sessions of one end hand
    on is, session by session, a beginning of what those of the other put on the
    connection; and an end that is between two sessions has handed on all that
    was sent to it in the sessions it has had. *)
Theorem sessions_kept_apart w :
  reach false w ->
  handed (server w) `prefix_of` sent (client w) /\ handed (client w) `prefix_of` sent (server w) /\
  (between (server w) -> handed (server w) = up_to (nth (server w)) (sent (client w))) /\
  (between (client w) -> handed (client w) = up_to (nth (client w)) (sent (server w))).
Proof.
  intros (Hs & P1 & P2)%reach_shape. split_and!.
  - exists (datas_of (cs w)). apply P1.
  - exists (datas_of (sc w)). apply P2.
  - intros Hb. apply (pipe_over _ _ _ P1). by eapply server_over.
  - intros Hb. apply (pipe_over _ _ _ P2). by rewrite (client_over _ _ _ _ Hs Hb).
Qed.
