(* ===== verification/Tunnel1Stream.v ===== *)
(** The streams of the first tunnel: the channels of a session that take turns,
    [any-tunnel/src/round_async_channel.rs], and what an application reads from and
    writes to, [any-tunnel/src/stream.rs]. *)
From S2P Require Import Prelude Wire Tunnel1Pack.
#[local] Open Scope string_scope.
#[local] Open Scope list_scope.
#[local] Open Scope Z_scope.

(** ** The channels of a session

    A channel by what waits in it, its capacity, and whether it is open. *)
Record Chan := mkChan { waiting : list TunnelPack; capacity : option Z; is_open : bool }.

Definition chan_full (c : Chan) : bool := match capacity c with Some n => zlen (waiting c) =? n | None => false end.
Definition chan_close (c : Chan) : Chan := mkChan (waiting c) (capacity c) false.
Definition chan_push (p : TunnelPack) (c : Chan) : Chan := mkChan (waiting c ++ [p]) (capacity c) (is_open c).

Record RoundAsyncChannel := mkRound { index : Z; senders : list Chan; round_is_close : bool }.

Definition round_new : RoundAsyncChannel := mkRound 0 [] false.
Definition is_full (r : RoundAsyncChannel) : bool := existsb chan_full (senders r).

(** [fetch_add] wraps; a session without a channel would divide by zero. *)
Definition next_index : stm RoundAsyncChannel Z :=
  r ← gets id;
  _ ← modify (fun r => mkRound (wrap64 (index r + 1)) (senders r) (round_is_close r));
  lift (zrem (index r) (zlen (senders r))).

(** The sender is known by its place. *)
Definition round_sender_clone : stm RoundAsyncChannel Z :=
  i ← next_index; s ← gets senders; _ ← lift (vget s i); mret i.

Definition round_close : stm RoundAsyncChannel unit :=
  modify (fun r => if round_is_close r then r else mkRound (index r) (chan_close <$> senders r) true).

Definition round_clear : stm RoundAsyncChannel unit := modify (fun r => mkRound (index r) (senders r) true).

Definition channel (buffer : Z) : stm RoundAsyncChannel unit :=
  r ← gets id;
  if round_is_close r then fail "self.is_close()"
  else
    let c := mkChan [] (if buffer <=? 0 then None else Some buffer) true in
    modify (fun r => mkRound (index r) (senders r ++ [c]) (round_is_close r)).

(** A poll of [sender.send(pack)]: it fails on a closed channel and waits on a
    full one. *)
Inductive SendPoll := Taken | Waits | Refused.

Definition poll_send (i : Z) (p : TunnelPack) : stm RoundAsyncChannel SendPoll :=
  s ← gets senders;
  c ← lift (vget s i);
  if negb (is_open c) then mret Refused
  else if chan_full c then mret Waits
  else
    s' ← lift (vset s i (chan_push p c));
    _ ← modify (fun r => mkRound (index r) s' (round_is_close r));
    mret Taken.

(** [sender.send(pack)] awaited to its end: there is room by then. *)
Definition send (i : Z) (p : TunnelPack) : stm RoundAsyncChannel bool :=
  s ← gets senders;
  c ← lift (vget s i);
  if negb (is_open c) then mret false
  else
    s' ← lift (vset s i (chan_push p c));
    _ ← modify (fun r => mkRound (index r) s' (round_is_close r));
    mret true.

(** ** The stream

    [tx_open] and [rx_open] tell whether [stream_tx] and [stream_rx] are there.
    [tx_future] is a write that waits, by its channel and its pack; [inq] what
    waits in the channel from the peer client and [in_closed] whether that is
    closed. *)
Record Stream := mkStream {
  rx_open : bool;
  rx_buf : list Z;
  tx_open : bool;
  tx_data_size : Z;
  tx_future : option (Z * TunnelPack);
  stream_tx_pack_id : Z;
  stream_rx_pack_id : Z;
  inq : list TunnelData;
  in_closed : bool;
  round : RoundAsyncChannel
}.

Definition stream_new (r : RoundAsyncChannel) : Stream := mkStream true [] true 0 None 0 0 [] false r.

Definition eta_stream (s : Stream) : Stream :=
  mkStream (rx_open s) (rx_buf s) (tx_open s) (tx_data_size s) (tx_future s) (stream_tx_pack_id s) (stream_rx_pack_id s)
           (inq s) (in_closed s) (round s).
Definition set_rx_open : bool -> Stream -> Stream := ltac:(setter eta_stream rx_open).
Definition set_rx_buf : list Z -> Stream -> Stream := ltac:(setter eta_stream rx_buf).
Definition set_tx_open : bool -> Stream -> Stream := ltac:(setter eta_stream tx_open).
Definition set_tx_data_size : Z -> Stream -> Stream := ltac:(setter eta_stream tx_data_size).
Definition set_tx_future : option (Z * TunnelPack) -> Stream -> Stream := ltac:(setter eta_stream tx_future).
Definition set_tx_pack_id : Z -> Stream -> Stream := ltac:(setter eta_stream stream_tx_pack_id).
Definition set_rx_pack_id : Z -> Stream -> Stream := ltac:(setter eta_stream stream_rx_pack_id).
Definition set_inq : list TunnelData -> Stream -> Stream := ltac:(setter eta_stream inq).
Definition set_in_closed : bool -> Stream -> Stream := ltac:(setter eta_stream in_closed).
Definition set_round : RoundAsyncChannel -> Stream -> Stream := ltac:(setter eta_stream round).

(** A call on the shared channels. *)
Definition on_round {A} (m : stm RoundAsyncChannel A) : stm Stream A := fun s =>
  let '(o, r) := m (round s) in (o, set_round r s).

Definition add_write_pack_id : stm Stream Z :=
  s ← gets id;
  let next := wrap32 (stream_tx_pack_id s + 1) in
  _ ← modify (set_tx_pack_id next); mret next.

Definition read_close : stm Stream unit := modify (set_rx_open false).

Definition write_close : stm Stream unit :=
  s ← gets id;
  if tx_open s then _ ← modify (set_tx_open false); on_round round_close else done_.

Definition close : stm Stream unit := _ ← write_close; read_close.

(** ** Writing *)

(** A pack of these bytes, and the channel whose turn it is. *)
Definition write_begin (id : Z) (bytes : list Z) : stm Stream (Z * TunnelPack) :=
  i ← on_round round_sender_clone;
  mret (i, PData (mkData (mkDataHeader id (wrap32 (zlen bytes))) bytes)).

(** The future is polled: it waits for the lock of the channels, which others
    hold while they send, and then sends. *)
Definition write_poll (lock_free : bool) (f : Z * TunnelPack) : stm Stream (Poll Z) :=
  r ← (if lock_free then on_round (poll_send f.1 f.2) else mret Waits);
  match r with
  | Taken => n ← gets tx_data_size; mret (Ready n)
  | Refused => _ ← write_close; mret (Ready 0)
  | Waits => _ ← modify (set_tx_future (Some f)); mret Pending
  end.

Definition poll_write (bytes : list Z) (lock_free : bool) : stm Stream (Poll Z) :=
  s ← gets id;
  if negb (tx_open s) then mret (Ready 0)
  else
    match tx_future s with
    | Some f => _ ← modify (set_tx_future None); write_poll lock_free f
    | None =>
        _ ← modify (set_tx_data_size (zlen bytes));
        id ← add_write_pack_id;
        f ← write_begin id bytes;
        write_poll lock_free f
    end.

(** [poll_write_msg]: the bytes of a buffer of [len] bytes, if it has some in
    memory. The pack id is taken before that is known. *)
Definition poll_write_msg (len : Z) (data : option (list Z)) (lock_free : bool) : stm Stream (Poll Z) :=
  s ← gets id;
  if negb (tx_open s) then mret (Ready 0)
  else
    match tx_future s with
    | Some f => _ ← modify (set_tx_future None); write_poll lock_free f
    | None =>
        _ ← modify (set_tx_data_size len);
        id ← add_write_pack_id;
        match data with
        | None => mret (Ready 0)
        | Some bytes => f ← write_begin id bytes; write_poll lock_free f
        end
    end.

Definition poll_shutdown : stm Stream unit := write_close.

(** ** Reading *)

(** [read_buf]: what fits of the pack at hand. *)
Definition read_buf (room : Z) : stm Stream (option (list Z)) :=
  b ← gets rx_buf;
  match b with
  | [] => mret None
  | _ =>
      let split_at := Z.min room (zlen b) in
      _ ← modify (set_rx_buf (drop (Z.to_nat split_at) b)); mret (Some (take (Z.to_nat split_at) b))
  end.

(** A pack is taken from the channel. *)
Definition next_pack (d : TunnelData) (q : list TunnelData) : stm Stream unit :=
  modify (fun s => set_inq q (set_rx_buf (datas d) (set_rx_pack_id (pack_id (header d)) s))).

(** The loop of [poll_read] and, for [is_try], of [poll_try_read], while the
    stream is open: [acc] is what has been put in the caller's buffer. A kept
    future answers as the channel does. *)
Fixpoint read_loop (is_try : bool) (room : Z) (acc : list Z) (is_read : bool) (q : list TunnelData) : stm Stream (Poll (list Z)) :=
  d ← read_buf room;
  let acc := acc ++ default [] d in
  let is_read := is_read || bool_decide (is_Some d) in
  let room := room - zlen (default [] d) in
  if bool_decide (is_Some d) && (room <=? 0) then mret (Ready acc)
  else
    match q with
    | d :: q => _ ← next_pack d q; read_loop is_try room acc is_read q
    | [] =>
        c ← gets in_closed;
        if c : bool then
          _ ← read_close;
          if is_try && negb is_read then fail "err:read msg close" else mret (Ready acc)
        else if is_try || is_read then mret (Ready acc) else mret Pending
    end.

Definition poll_read (room : Z) : stm Stream (Poll (list Z)) :=
  s ← gets id;
  if negb (rx_open s) then mret (Ready []) else read_loop false room [] false (inq s).

Definition poll_try_read (room : Z) : stm Stream (Poll (list Z)) :=
  s ← gets id;
  if negb (rx_open s) then fail "err:read msg close" else read_loop true room [] false (inq s).

(** The loop of [poll_read_msg] and [poll_try_read_msg]: whole packs, until there
    are [msg_size] bytes. *)
Fixpoint msg_loop (is_try : bool) (msg_size : Z) (msg : list (list Z)) (q : list TunnelData) : stm Stream (Poll (list (list Z))) :=
  b ← gets rx_buf;
  let got := match b with [] => false | _ => true end in
  let msg := if got then msg ++ [b] else msg in
  _ ← (if got then modify (set_rx_buf []) else done_);
  if got && (msg_size <=? zlen (concat msg)) then mret (Ready msg)
  else
    match q with
    | d :: q => _ ← next_pack d q; msg_loop is_try msg_size msg q
    | [] =>
        c ← gets in_closed;
        if c : bool then
          _ ← read_close;
          if is_try && bool_decide (msg = []) then fail "err:read msg close" else mret (Ready msg)
        else if is_try || (0 <? zlen (concat msg)) then mret (Ready msg) else mret Pending
    end.

Definition poll_read_msg (msg_size : Z) : stm Stream (Poll (list (list Z))) :=
  s ← gets id;
  if negb (rx_open s) then mret (Ready []) else msg_loop false msg_size [] (inq s).

Definition poll_try_read_msg (msg_size : Z) : stm Stream (Poll (list (list Z))) :=
  s ← gets id;
  if negb (rx_open s) then fail "err:read msg close" else msg_loop true msg_size [] (inq s).

(** ** What reading gives

    The bytes that have arrived and were not read. *)
Definition at_hand (s : Stream) : list Z := rx_buf s ++ concat (datas <$> inq s).

(** A call that reads: what it gives comes off what is at hand, and the writing
    half is left alone. *)
Definition same_writer (s s' : Stream) : Prop :=
  round s' = round s /\ tx_future s' = tx_future s /\ stream_tx_pack_id s' = stream_tx_pack_id s /\ tx_open s' = tx_open s /\
  in_closed s' = in_closed s.

#[export] Instance same_writer_po : PreOrder same_writer.
Proof. split; [done|]. intros a b c (?&?&?&?&?) (?&?&?&?&?). unfold same_writer. by split_and!; etrans. Qed.

Lemma read_buf_ok room s :
  0 < room ->
  exists d s', read_buf room s = (Ok d, s') /\ same_writer s s' /\ inq s' = inq s /\ rx_open s' = rx_open s /\
    rx_buf s = default [] d ++ rx_buf s' /\ zlen (default [] d) <= room /\
    (d = None -> rx_buf s' = []) /\ (forall x, d = Some x -> x <> [] /\ (zlen x < room -> rx_buf s' = [])).
Proof.
  intros Hr. unfold read_buf. step. destruct (rx_buf s) as [|y b] eqn:Eb.
  - exists None, s. split_and!; try done. unfold zlen. cbn. lia.
  - assert (0 < zlen (y :: b)) as Hl by (unfold zlen; cbn; lia). remember (y :: b) as l eqn:El. clear El.
    step. eexists _, _. split; [reflexivity|]. cbn [default set_rx_buf rx_buf inq rx_open]. split_and!; try done.
    + cbn. by rewrite take_drop.
    + cbn. unfold zlen in *. rewrite length_take. lia.
    + intros x [= <-]. split.
      * intros E%(f_equal length). rewrite length_take in E. unfold zlen in *. cbn [length] in E. lia.
      * intros Hx. apply drop_ge. unfold zlen in *. rewrite length_take in Hx. lia.
Qed.

Definition given {A} (r : Poll (list A)) : list A := match r with Ready d => d | Pending => [] end.

(** The outcome of a reading call that has already got [acc]. *)
Definition reads_well {A} (bytes : list A -> list Z) (is_try : bool) (acc : list A) (s : Stream) (r : outcome (Poll (list A)) * Stream) : Prop :=
  match r with
  | (Ok p, s') => same_writer s s' /\ bytes acc ++ at_hand s = bytes (given p) ++ at_hand s' /\
      (rx_open s' = rx_open s \/ rx_open s' = false /\ in_closed s = true /\ at_hand s' = [])
  | (Err _, s') => same_writer s s' /\ acc = [] /\ at_hand s = [] /\ at_hand s' = [] /\ in_closed s = true /\ is_try = true /\ rx_open s' = false
  | _ => False
  end.

Lemma bytes_loop_ok is_try room acc is_read q s :
  0 < room -> inq s = q -> (is_read = false -> acc = []) ->
  reads_well id is_try acc s (read_loop is_try room acc is_read q s).
Proof.
  revert room acc is_read s. induction q as [|d q IH]; intros room acc is_read s Hr Hq Ha; cbn [read_loop];
    destruct (read_buf_ok room s Hr) as (o & s1 & E & W & I & O & B & L & N & S); step by exact E;
    rewrite Hq in I; set (acc1 := acc ++ default [] o);
    assert (acc1 ++ at_hand s1 = acc ++ at_hand s) as Eh by (unfold at_hand, acc1; by rewrite B, I, Hq, <- !app_assoc).
  all: destruct (bool_decide (is_Some o) && (room - zlen (default [] o) <=? 0)) eqn:Ef; [by cbn; split; [done|]; split; [|left]|].
  all: assert (rx_buf s1 = []) as Eb by (destruct o as [x|]; [|by apply N]; destruct (S x eq_refl) as [_ H]; apply H; cbn in *; lia).
  - step. assert (at_hand s1 = []) as H0 by (unfold at_hand; by rewrite Eb, I). assert (in_closed s1 = in_closed s) as Ec by apply W.
    destruct (in_closed s1) eqn:E1; cycle 1.
    { assert (is_read || bool_decide (is_Some o) = false -> acc1 = []) as Hn.
      { unfold acc1. destruct is_read, o; cbn; try done. by rewrite Ha. }
      destruct (is_try || (is_read || bool_decide (is_Some o))) eqn:E2; cbn; (split; [done|]; split; [|by left]); [done|].
      apply orb_false_iff in E2 as [_ E2]. by rewrite <- Eh, (Hn E2). }
    step. destruct (is_try && negb (is_read || bool_decide (is_Some o))) eqn:E2.
    + apply andb_true_iff in E2 as [-> E2%negb_true_iff]. apply orb_false_iff in E2 as [-> E2]. destruct o; [done|].
      cbn. unfold acc1 in Eh. cbn in Eh. rewrite Ha, H0 in Eh by done. cbn in Eh. split_and!; try done; auto; by rewrite <- Ec.
    + cbn. split; [done|]. split; [by rewrite <- Eh|]. right. by rewrite <- Ec.
  - unfold next_pack. step. set (s2 := set_inq q _). pose proof (zlen_nonneg (default [] o)).
    assert (at_hand s2 = at_hand s1) as E2 by (unfold at_hand, s2; cbn; by rewrite Eb, I).
    assert (same_writer s s2) as W2 by (etrans; [exact W|done]).
    specialize (IH (room - zlen (default [] o)) acc1 (is_read || bool_decide (is_Some o)) s2).
    assert (reads_well id is_try acc1 s2 (read_loop is_try (room - zlen (default [] o)) acc1 (is_read || bool_decide (is_Some o)) q s2)) as HI.
    { apply IH; [|done|].
      - destruct o; cbn in *; [lia|]. unfold zlen. cbn. lia.
      - unfold acc1. destruct is_read, o; cbn; try done. by rewrite Ha. }
    assert (in_closed s1 = in_closed s) as Ec by apply W.
    destruct (read_loop _ _ _ _ q s2) as [[p|e| |] s3]; cbn in *; try done; destruct HI as (W3 & HI).
    + split; [by etrans|]. rewrite <- Eh, <- E2. split; [apply HI|]. destruct HI as [_ [HI|(H1 & H2 & H3)]]; [left; by rewrite HI|right]. rewrite <- Ec. by split_and!.
    + split; [by etrans|]. rewrite <- Ec. destruct HI as (H1 & H2 & H3 & H4 & H5 & H6). rewrite E2 in H2. rewrite H1, H2 in Eh. cbn in Eh. symmetry in Eh.
      apply app_eq_nil in Eh as [-> ->]. by split_and!.
Qed.

Lemma msg_loop_ok is_try n msg q s :
  inq s = q -> reads_well (@concat Z) is_try msg s (msg_loop is_try n msg q s).
Proof.
  revert msg s. induction q as [|d q IH]; intros msg s Hq; cbn [msg_loop]; step;
    set (got := match rx_buf s with [] => false | _ => true end);
    set (msg1 := if got then msg ++ [rx_buf s] else msg).
  all: assert (exists s1, ((if got then modify (set_rx_buf []) else done_) : stm Stream unit) s = (Ok tt, s1) /\ same_writer s s1 /\ rx_buf s1 = [] /\
    inq s1 = inq s /\ rx_open s1 = rx_open s) as (s1 & E & W & B & I & O)
    by (unfold got; destruct (rx_buf s) eqn:Eb; (eexists; split; [reflexivity|]; split_and!; try done)).
  all: step by exact E; assert (in_closed s1 = in_closed s) as Ec by apply W.
  all: assert (concat msg1 ++ at_hand s1 = concat msg ++ at_hand s) as Eh
    by (unfold at_hand, msg1, got; rewrite B, I; destruct (rx_buf s); [done|]; by rewrite concat_app, <- app_assoc; cbn; rewrite app_nil_r).
  all: destruct (got && (n <=? zlen (concat msg1))); [cbn; split; [done|]; split; [by rewrite <- Eh|by left]|].
  - step. assert (at_hand s1 = []) as H0 by (unfold at_hand; by rewrite B, I, Hq). destruct (in_closed s1) eqn:E1; cycle 1.
    { destruct (is_try || (0 <? zlen (concat msg1))) eqn:E2; cbn; (split; [done|]; split; [|by left]); [done|].
      apply orb_false_iff in E2 as [_ E2%Z.ltb_ge]. rewrite <- Eh. unfold zlen in E2. destruct (concat msg1); [done|cbn in E2; lia]. }
    step. destruct (is_try && bool_decide (msg1 = [])) eqn:E2.
    + apply andb_true_iff in E2 as [-> E2%bool_decide_eq_true]. rewrite E2, H0 in Eh. cbn. unfold msg1 in E2. destruct got.
      { by apply app_eq_nil in E2 as []. }
      subst msg. cbn in Eh. split_and!; try done; auto.
    + cbn. split; [done|]. split; [by rewrite <- Eh|]. right. by rewrite <- Ec.
  - unfold next_pack. step. set (s2 := set_inq q _).
    assert (at_hand s2 = at_hand s1) as E2 by (unfold at_hand, s2; cbn; by rewrite B, I, Hq).
    assert (same_writer s s2) as W2 by (etrans; [exact W|done]). specialize (IH msg1 s2 eq_refl).
    destruct (msg_loop _ _ _ q s2) as [[p|e| |] s3]; cbn in *; try done; destruct IH as (W3 & HI).
    + split; [by etrans|]. rewrite <- Eh, <- E2. split; [apply HI|]. destruct HI as [_ [HI|(H1 & H2 & H3)]]; [left; by rewrite HI|right]. rewrite <- Ec. by split_and!.
    + split; [by etrans|]. rewrite <- Ec. destruct HI as (H1 & H2 & H3 & H4 & H5 & H6). rewrite E2 in H2. rewrite H1, H2 in Eh. cbn in Eh. symmetry in Eh.
      apply app_eq_nil in Eh as [Em ->]. unfold msg1 in H1. destruct got; [by apply app_eq_nil in H1 as []|]. subst msg. by split_and!.
Qed.

(** ** Calls that read *)

Inductive ReadCall := CRead (room : Z) | CTryRead (room : Z) | CReadMsg (size : Z) | CTryReadMsg (size : Z).

Definition read_call (c : ReadCall) : stm Stream (list Z) :=
  match c with
  | CRead room => r ← poll_read room; mret (given r)
  | CTryRead room => r ← attempt (poll_try_read room); mret (default [] (given <$> r))
  | CReadMsg size => r ← poll_read_msg size; mret (concat (given r))
  | CTryReadMsg size => r ← attempt (poll_try_read_msg size); mret (default [] ((fun r => concat (given r)) <$> r))
  end.

Definition call_ok (c : ReadCall) : Prop :=
  match c with CRead room | CTryRead room => 0 < room | CReadMsg _ | CTryReadMsg _ => True end.

Definition reads_off (s : Stream) (d : list Z) (s' : Stream) : Prop :=
  same_writer s s' /\ at_hand s = d ++ at_hand s' /\
  (rx_open s' = rx_open s \/ rx_open s' = false /\ in_closed s = true /\ at_hand s' = []).

Lemma reads_off_call {A} (bytes : list A -> list Z) (m : stm Stream (Poll (list A))) s :
  bytes [] = [] -> reads_well bytes false [] s (m s) -> exists d s', (r ← m; mret (bytes (given r))) s = (Ok d, s') /\ reads_off s d s'.
Proof.
  intros Hb. unfold mbind, stm_bind. destruct (m s) as [[p|e| |] s']; cbn; try done; rewrite ?Hb.
  - intros H. by exists (bytes (given p)), s'.
  - by intros (_ & _ & _ & _ & _ & ? & _).
Qed.

Lemma reads_off_try {A} (bytes : list A -> list Z) (m : stm Stream (Poll (list A))) s :
  bytes [] = [] -> reads_well bytes true [] s (m s) ->
  exists d s', (r ← attempt m; mret (default [] ((fun r => bytes (given r)) <$> r))) s = (Ok d, s') /\ reads_off s d s'.
Proof.
  intros Hb. unfold mbind, stm_bind, attempt. destruct (m s) as [[p|e| |] s']; cbn; try done; rewrite ?Hb.
  - intros H. by exists (bytes (given p)), s'.
  - intros (H1 & H2 & H3 & H4 & H5 & H6 & H7). exists [], s'. split; [done|]. split; [done|]. rewrite H3, H4. split; [done|right]. by split_and!.
Qed.

(** Whatever the call, the bytes it gives come off what is at hand, and an end is
    told only when nothing is left and nothing can come. *)
Lemma read_call_ok c s :
  call_ok c -> exists d s', read_call c s = (Ok d, s') /\ reads_off s d s'.
Proof.
  assert (forall s : Stream, reads_off s [] s) as Hn by (intros x; split; [done|]; split; [done|by left]).
  destruct c as [room|room|n|n]; intros Hc; cbn [call_ok read_call] in *;
    unfold poll_read, poll_try_read, poll_read_msg, poll_try_read_msg;
    (destruct (rx_open s) eqn:Eo; [|exists [], s; split; [|apply Hn]; unfold attempt, mbind, stm_bind, gets; cbn; by rewrite Eo]).
  - apply (reads_off_call id); [done|]. step. change (id s) with s. rewrite Eo. by apply bytes_loop_ok.
  - apply (reads_off_try id); [done|]. step. change (id s) with s. rewrite Eo. by apply bytes_loop_ok.
  - apply (reads_off_call (@concat Z)); [done|]. step. change (id s) with s. rewrite Eo. by apply msg_loop_ok.
  - apply (reads_off_try (@concat Z)); [done|]. step. change (id s) with s. rewrite Eo. by apply msg_loop_ok.
Qed.
