(* ===== verification/Tunnel1Client.v ===== *)
(** The receiving task of a session of the first tunnel, [PeerClientToStream] of
    [any-tunnel/src/peer_client.rs]: packs come over all connections of the
    session and go to its stream in the order of their numbers. *)
From S2P Require Import Prelude Wire Tunnel1Pack Tunnel1Stream.
#[local] Open Scope string_scope.
#[local] Open Scope list_scope.
#[local] Open Scope Z_scope.

(** ** The task

    [peer_connect] is the [max_stream_size] of [peer_stream_connect], which only a
    client has; [to_stream] what was sent to the stream and [to_stream_open]
    whether its channel is open; [rounds] the [RoundAsyncChannel]. *)
Record PeerClientToStream := mkToStream {
  next_id : Z;
  recv_pack_cache_map : gmap Z TunnelData;
  is_close : bool;
  peer_connect : option Z;
  peer_stream_size : Z;
  wait_peer_stream_size : Z;
  is_peer_stream_max : bool;
  max_pack_id : Z;
  order_pack_id : Z;
  to_stream : list TunnelData;
  to_stream_open : bool;
  rounds : RoundAsyncChannel
}.

Definition to_stream_new (connect : option Z) (r : RoundAsyncChannel) : PeerClientToStream :=
  mkToStream 1 ∅ false connect 0 0 false 0 0 [] true r.

Definition eta_to (s : PeerClientToStream) : PeerClientToStream :=
  mkToStream (next_id s) (recv_pack_cache_map s) (is_close s) (peer_connect s) (peer_stream_size s) (wait_peer_stream_size s)
    (is_peer_stream_max s) (max_pack_id s) (order_pack_id s) (to_stream s) (to_stream_open s) (rounds s).
Definition set_next_id : Z -> PeerClientToStream -> PeerClientToStream := ltac:(setter eta_to next_id).
Definition set_cache : gmap Z TunnelData -> PeerClientToStream -> PeerClientToStream := ltac:(setter eta_to recv_pack_cache_map).
Definition set_is_close : bool -> PeerClientToStream -> PeerClientToStream := ltac:(setter eta_to is_close).
Definition set_wait_size : Z -> PeerClientToStream -> PeerClientToStream := ltac:(setter eta_to wait_peer_stream_size).
Definition set_is_max : bool -> PeerClientToStream -> PeerClientToStream := ltac:(setter eta_to is_peer_stream_max).
Definition set_max_id : Z -> PeerClientToStream -> PeerClientToStream := ltac:(setter eta_to max_pack_id).
Definition set_order_id : Z -> PeerClientToStream -> PeerClientToStream := ltac:(setter eta_to order_pack_id).
Definition set_to_stream : list TunnelData -> PeerClientToStream -> PeerClientToStream := ltac:(setter eta_to to_stream).
Definition set_to_stream_open : bool -> PeerClientToStream -> PeerClientToStream := ltac:(setter eta_to to_stream_open).
Definition set_rounds : RoundAsyncChannel -> PeerClientToStream -> PeerClientToStream := ltac:(setter eta_to rounds).

(** The answer of [peer_stream_to_peer_client_rx] within a second. *)
Inductive Received := TimedOut | Closed | Got (pack : TunnelPack).

(** A pack of data: late, awaited, known, or ahead of its turn. *)
Definition take_data (d : TunnelData) : stm PeerClientToStream (option TunnelData) :=
  s ← gets id;
  let id := pack_id (header d) in
  if id <? next_id s then mret None
  else if id =? next_id s then
    _ ← (if bool_decide (recv_pack_cache_map s = ∅) then modify (set_max_id id) else done_);
    mret (Some d)
  else if bool_decide (is_Some (recv_pack_cache_map s !! id)) then mret None
  else
    _ ← modify (set_max_id (Z.max id (max_pack_id s)));
    _ ← modify (set_cache (<[id := d]> (recv_pack_cache_map s)));
    mret None.

(** The server asks for one more connection. A refusal goes out on the channel
    whose turn it is; that it cannot be sent is ignored. *)
Definition add_connect : stm PeerClientToStream (option TunnelData) :=
  s ← gets id;
  match peer_connect s with
  | None => fail "err:peer_stream_connect.is_none"
  | Some peer_max_stream_size =>
      if peer_max_stream_size <=? peer_stream_size s then
        let pack := PMaxConnect (mkMaxConnect (peer_stream_size s)) in
        let '(o, r) := (i ← round_sender_clone; send i pack) (rounds s) in
        _ ← modify (set_rounds r);
        _ ← lift o;
        mret None
      else _ ← modify (set_wait_size (wait_peer_stream_size s + 1)); mret None
  end.

Definition read_tunnel_data (ev : Received) : stm PeerClientToStream (option TunnelData) :=
  match ev with
  | TimedOut => mret None
  | Closed => _ ← modify (set_is_close true); mret None
  | Got (PHello _) => fail "err:peer_client recv TunnelHello"
  | Got (PHelloAck _) => fail "err:peer_client recv TunnelHelloAck"
  | Got (PClose _) => fail "err:peer_client recv TunnelClose"
  | Got (PData d) => take_data d
  | Got (PAddConnect _) => add_connect
  | Got (PMaxConnect _) =>
      s ← gets id;
      if bool_decide (is_Some (peer_connect s)) then fail "err:peer_stream_connect.is_some"
      else _ ← modify (set_is_max true); mret None
  end.

(** The loop that hands packs on, from the one just read. The timer of the task
    may go off while a pack is sent, and then the loop stops unless all
    connections have closed: [ticks] tells, pack by pack. The result is whether
    the stream still listens. *)
Fixpoint hand_on (fuel : nat) (tunnel_data : option TunnelData) (ticks : list bool) : stm PeerClientToStream bool :=
  match fuel with
  | O => lift Fuel
  | S fuel =>
      s ← gets id;
      let '(d, cache) := match tunnel_data with
        | Some d => (Some d, recv_pack_cache_map s)
        | None => (recv_pack_cache_map s !! next_id s, delete (next_id s) (recv_pack_cache_map s))
        end in
      match d with
      | None => mret true
      | Some d =>
          _ ← modify (set_cache cache);
          _ ← modify (set_order_id (pack_id (header d)));
          _ ← modify (set_next_id (wrap32 (next_id s + 1)));
          if negb (to_stream_open s) then mret false
          else
            _ ← modify (set_to_stream (to_stream s ++ [d]));
            if negb (is_close s) && default false (head ticks) then mret true
            else hand_on fuel None (tail ticks)
      end
  end.

(** A turn of [start]: whether it goes on. When all connections have closed it
    closes the channel to the stream. Fuel: a round per pack kept, one for
    the pack read and one to find that there is none. *)
Definition turn (ev : Received) (ticks : list bool) : stm PeerClientToStream bool :=
  s ← gets id;
  if is_close s then _ ← modify (set_to_stream_open false); mret false
  else if negb (to_stream_open s) then mret false
  else
    d ← read_tunnel_data ev;
    n ← gets (fun s => size (recv_pack_cache_map s));
    hand_on (S (S n)) d ticks.

(** ** Order

    A pack that one of these writes made: the k-th has the number k + 1. *)
Definition genuine (w : list (list Z)) (d : TunnelData) : Prop :=
  1 <= pack_id (header d) /\ w !! Z.to_nat (pack_id (header d) - 1) = Some (datas d).

Lemma genuine_longer w more d : genuine w d -> genuine (w ++ more) d.
Proof. intros [H1 H2]. split; [done|]. by apply lookup_app_l_Some. Qed.

(** What was handed on is a beginning of what was written, and what is kept is of
    it too. *)
Record in_order (w : list (list Z)) (s : PeerClientToStream) : Prop := {
  io_id : 1 <= next_id s <= zlen w + 1;
  io_out : datas <$> to_stream s = take (Z.to_nat (next_id s - 1)) w;
  io_map : forall i d, recv_pack_cache_map s !! i = Some d -> pack_id (header d) = i /\ genuine w d
}.

Definition genuine_pack (w : list (list Z)) (p : TunnelPack) : Prop := match p with PData d => genuine w d | _ => True end.

Lemma in_order_new w connect r : in_order w (to_stream_new connect r).
Proof. split; cbn; [pose proof (zlen_nonneg w); lia|done|]. intros i d Hi. by rewrite lookup_empty in Hi. Qed.

Lemma in_order_app w more s : in_order w s -> to_stream_open s = true -> in_order (w ++ more) s.
Proof.
  intros [H1 H2 H3] _. split.
  - rewrite zlen_app. pose proof (zlen_nonneg more). lia.
  - rewrite H2, take_app_le; [done|]. unfold zlen in *. lia.
  - intros i d Hi. destruct (H3 i d Hi). split; [done|]. by apply genuine_longer.
Qed.

(** A pack with the number that is awaited, handed on. *)
Lemma take_next w d i :
  genuine w d -> pack_id (header d) = i ->
  take (Z.to_nat (i + 1 - 1)) w = take (Z.to_nat (i - 1)) w ++ [datas d] /\ i + 1 <= zlen w + 1.
Proof.
  intros [H1 H2] <-. set (k := Z.to_nat (pack_id (header d) - 1)) in *.
  replace (Z.to_nat (pack_id (header d) + 1 - 1)) with (S k) by lia. rewrite (take_S_r _ _ _ H2).
  split; [done|]. apply lookup_lt_Some in H2. unfold zlen, k in *. lia.
Qed.

Definition knows (s : PeerClientToStream) (i : Z) : Prop := i < next_id s \/ is_Some (recv_pack_cache_map s !! i).

(** After a turn without a tick nothing that could be handed on is kept. *)
Definition drained (s : PeerClientToStream) : Prop := recv_pack_cache_map s !! next_id s = None.

Definition calm (ticks : list bool) : Prop := Forall (fun b => b = false) ticks.

Lemma hand_on_ok w fuel d ticks s :
  in_order w s -> to_stream_open s = true -> zlen w < 2 ^ 32 - 1 ->
  (forall x, d = Some x -> genuine w x /\ pack_id (header x) = next_id s) ->
  (size (recv_pack_cache_map s) + (match d with Some _ => 2 | None => 1 end) <= fuel)%nat ->
  exists s', hand_on fuel d ticks s = (Ok true, s') /\ in_order w s' /\ to_stream_open s' = true /\ is_close s' = is_close s /\
    rounds s' = rounds s /\ (next_id s + (match d with Some _ => 1 | None => 0 end) <= next_id s') /\
    (forall i, knows s i -> knows s' i) /\ (calm ticks -> drained s').
Proof.
  intros Ho Hop Hw. revert d ticks s Ho Hop. induction fuel as [|fuel IH]; intros d ticks s Ho Hop Hd Hf; [destruct d; lia|].
  destruct Ho as [O1 O2 O3]. cbn [hand_on]. step. change (id s) with s.
  assert (forall d' cache, (forall i x, cache !! i = Some x -> recv_pack_cache_map s !! i = Some x) ->
    genuine w d' -> pack_id (header d') = next_id s ->
    (forall i, i <> next_id s -> recv_pack_cache_map s !! i = cache !! i) -> (size cache + 1 <= fuel)%nat ->
    exists s', (_ ← modify (set_cache cache); _ ← modify (set_order_id (pack_id (header d')));
      _ ← modify (set_next_id (wrap32 (next_id s + 1)));
      if negb (to_stream_open s) then mret false
      else _ ← modify (set_to_stream (to_stream s ++ [d']));
        if negb (is_close s) && default false (head ticks) then mret true else hand_on fuel None (tail ticks)) s = (Ok true, s') /\
      in_order w s' /\ to_stream_open s' = true /\ is_close s' = is_close s /\ rounds s' = rounds s /\ next_id s + 1 <= next_id s' /\
      (forall i, knows s i -> knows s' i) /\ (calm ticks -> drained s')) as Hsend.
  { intros d' cache Hc Hg Hi He Hsz. destruct (take_next w d' (next_id s) Hg Hi) as [Ht Hl].
    step. step. step. rewrite Hop. cbn [negb]. step. rewrite wrap_id by (unfold in_width; lia). set (s1 := set_to_stream _ _).
    assert (in_order w s1) as Ho1.
    { split; cbn; [lia|by rewrite fmap_app, O2, Ht|]. intros i x Hx. by apply O3, Hc. }
    assert (forall i, knows s i -> knows s1 i) as Hk.
    { intros i [?|[x Hx]]; [left; cbn; lia|]. destruct (decide (i = next_id s)) as [->|Hne]; [left; cbn; lia|].
      right. cbn. rewrite <- He by done. by exists x. }
    destruct (negb (is_close s) && default false (head ticks)) eqn:Et.
    - exists s1. split_and!; try done; try (cbn; lia). intros Hcalm. apply andb_true_iff in Et as [_ Et].
      destruct ticks as [|b ticks]; [done|]. inversion Hcalm; subst. done.
    - destruct (IH None (tail ticks) s1 Ho1 Hop) as (s' & E & H1 & H2 & H3 & H4 & H5 & H6 & H7); [done|cbn; lia|].
      exists s'. cbn in H5. split_and!; try done; try lia; [by auto|]. intros Hcalm. apply H7. by destruct ticks; inversion Hcalm. }
  destruct d as [d|].
  - destruct (Hd d eq_refl) as [Hg Hi]. destruct (Hsend d (recv_pack_cache_map s)) as (s' & E & H); [done..|lia|]. by exists s'.
  - destruct (recv_pack_cache_map s !! next_id s) as [d|] eqn:Em.
    + destruct (O3 _ _ Em) as [Hi Hg]. destruct (Hsend d (delete (next_id s) (recv_pack_cache_map s))) as (s' & E & H1 & H2 & H3 & H4 & H5 & H6 & H7); try done.
      * intros i x [_ Hx]%lookup_delete_Some. done.
      * intros i Hne. by rewrite lookup_delete_ne.
      * assert (size (recv_pack_cache_map s) = S (size (delete (next_id s) (recv_pack_cache_map s)))) as Es.
        { rewrite <- (insert_delete_id _ _ _ Em) at 1. apply map_size_insert_None, lookup_delete_eq. }
        lia.
      * exists s'. split_and!; try done; lia.
    + exists s. split_and!; try done; lia.
Qed.

(** What reading a pack leaves. *)
Definition took (w : list (list Z)) (ev : Received) (s : PeerClientToStream) (d : option TunnelData) (s' : PeerClientToStream) : Prop :=
  in_order w s' /\ next_id s' = next_id s /\ to_stream s' = to_stream s /\ to_stream_open s' = to_stream_open s /\
  is_close s' = match ev with Closed => true | _ => is_close s end /\
  (forall i, knows s i -> knows s' i) /\ (forall x, d = Some x -> genuine w x /\ pack_id (header x) = next_id s) /\
  (forall x, ev = Got (PData x) -> d = Some x \/ knows s' (pack_id (header x))).

Lemma took_same w ev s s' :
  in_order w s -> recv_pack_cache_map s' = recv_pack_cache_map s -> next_id s' = next_id s -> to_stream s' = to_stream s ->
  to_stream_open s' = to_stream_open s -> is_close s' = match ev with Closed => true | _ => is_close s end ->
  (forall x, ev = Got (PData x) -> knows s (pack_id (header x))) -> took w ev s None s'.
Proof.
  intros [O1 O2 O3] Hm Hn Ht Ho Hc Hx. split_and!; try done.
  - split; rewrite ?Hm, ?Hn, ?Ht; done.
  - intros i. unfold knows. by rewrite Hm, Hn.
  - intros x Hev. right. unfold knows in *. rewrite Hm, Hn. by apply Hx.
Qed.

Lemma read_tunnel_data_ok w ev s :
  in_order w s -> (forall p, ev = Got p -> genuine_pack w p) ->
  match read_tunnel_data ev s with
  | (Ok d, s') => took w ev s d s'
  | (Fuel, _) => False
  | (_, s') => to_stream s' = to_stream s
  end.
Proof.
  intros Ho Hg. destruct ev as [| |p]; cbn [read_tunnel_data].
  - by apply took_same.
  - by apply took_same.
  - destruct p as [v|v|d|v|v|v]; try done.
    + specialize (Hg _ eq_refl). cbn in Hg. unfold take_data. step. change (id s) with s.
      destruct (Z.ltb_spec (pack_id (header d)) (next_id s)) as [Hlt|Hge].
      { apply took_same; try done. intros x [= <-]. by left. }
      destruct (Z.eqb_spec (pack_id (header d)) (next_id s)) as [He|Hne].
      { assert (forall s', s' = s \/ s' = set_max_id (pack_id (header d)) s -> took w (Got (PData d)) s (Some d) s') as H.
        { intros s' [-> | ->]; (split_and!; try done); try (by intros x [= <-]); try (intros x [= <-]; by left). destruct Ho. by split. }
        case_bool_decide; step; apply H; auto. }
      destruct (recv_pack_cache_map s !! pack_id (header d)) as [x|] eqn:Em.
      { rewrite bool_decide_true by done. apply took_same; try done. intros y [= <-]. right. by exists x. }
      rewrite bool_decide_false by (by intros [? ?]). step. step. cbn. destruct Ho as [O1 O2 O3]. split_and!; try done.
      * split; try done. cbn. intros i x Hx. apply lookup_insert_Some in Hx as [[<- <-]|[_ Hi]]; [done|by apply O3].
      * intros i [?|Hi]; [by left|right]. cbn. destruct (decide (pack_id (header d) = i)) as [->|Hn]; [by rewrite lookup_insert_eq|by rewrite lookup_insert_ne].
      * intros x [= <-]. right. right. cbn. by rewrite lookup_insert_eq.
    + unfold add_connect. step. change (id s) with s. destruct (peer_connect s) as [n|]; [|done].
      destruct (n <=? peer_stream_size s); [|by apply took_same].
      destruct ((i ← round_sender_clone; send i _) (rounds s)) as [[b|e| |] r] eqn:E; step; try done; [by apply took_same|].
      revert E. unfold round_sender_clone, next_index, send, mbind, stm_bind, gets, modify, lift, zrem, vget, vset. cbn.
      repeat (case_match; try done); intros [= <-]; try done; match goal with H : expect ?o = Fuel |- _ => by destruct o end.
    + step. change (id s) with s. case_bool_decide; [done|]. by apply took_same.
Qed.

(** Every turn keeps the order; it fails only on packs that no stream sends, and
    keeps nothing that could be handed on unless the timer goes off. *)
Lemma turn_ok w ev ticks s :
  in_order w s -> to_stream_open s = true -> is_close s = false -> zlen w < 2 ^ 32 - 1 -> (forall p, ev = Got p -> genuine_pack w p) ->
  match turn ev ticks s with
  | (Ok true, s') => in_order w s' /\ to_stream_open s' = true /\ next_id s <= next_id s' /\ (forall i, knows s i -> knows s' i) /\
      (forall x, ev = Got (PData x) -> knows s' (pack_id (header x))) /\ (calm ticks -> drained s') /\
      is_close s' = match ev with Closed => true | _ => false end
  | (Ok false, _) | (Fuel, _) => False
  | (_, s') => to_stream s' = to_stream s
  end.
Proof.
  intros Ho Hop Hc Hw Hg. unfold turn. step. change (id s) with s. rewrite Hc, Hop. cbn [negb].
  pose proof (read_tunnel_data_ok w ev s Ho Hg) as H. unfold mbind at 1, stm_bind at 1.
  destruct (read_tunnel_data ev s) as [[d|e| |] s1]; try done. destruct H as (O1 & Hn & Ht & Hop1 & Hc1 & Hk & Hd & Hx).
  step. destruct (hand_on_ok w (S (S (size (recv_pack_cache_map s1)))) d ticks s1 O1) as (s2 & E & O2 & Hop2 & Hc2 & Hr & Hn2 & Hk2 & Hdr);
    [by rewrite Hop1|done|by rewrite Hn|destruct d; lia|].
  rewrite E. split_and!; try done; [destruct d; lia|by auto| |by rewrite Hc2, Hc1, Hc].
  intros x Hev. destruct (Hx x Hev) as [->|Hi]; [|by apply Hk2]. destruct (Hd x eq_refl) as [_ ->]. left. lia.
Qed.

Lemma turn_over ev ticks s :
  is_close s || negb (to_stream_open s) = true ->
  exists s', turn ev ticks s = (Ok false, s') /\ to_stream s' = to_stream s.
Proof.
  unfold turn. step. change (id s) with s. destruct (is_close s); [by eexists|]. cbn [orb]. intros ->. by exists s.
Qed.

(** What a turn has handed on follows what was handed on before. *)
Lemma handed_on w s s' :
  in_order w s -> in_order w s' -> next_id s <= next_id s' ->
  (datas <$> to_stream s') = (datas <$> to_stream s) ++ (datas <$> drop (length (to_stream s)) (to_stream s')).
Proof.
  intros [O1 O2 _] [P1 P2 _] Hn. rewrite fmap_drop, P2, O2.
  assert (length (to_stream s) = Z.to_nat (next_id s - 1)) as ->.
  { rewrite <- (length_fmap datas), O2, length_take. unfold zlen in *. lia. }
  rewrite <- (take_drop (Z.to_nat (next_id s - 1)) (take (Z.to_nat (next_id s' - 1)) w)) at 1. f_equal.
  rewrite take_take. f_equal. lia.
Qed.
