(* ===== verification/Tunnel1Order.v ===== *)
(** One direction of a session of the first tunnel, from the stream that is
    written to the stream that is read, over any number of connections. *)
From S2P Require Import Prelude Wire Tunnel1Pack Tunnel1Stream Tunnel1Client.
#[local] Open Scope string_scope.
#[local] Open Scope list_scope.
#[local] Open Scope Z_scope.

(** ** What a writing stream has not sent on *)

Definition contents (r : RoundAsyncChannel) : list TunnelPack := concat (waiting <$> senders r).
Definition kept (s : Stream) : list TunnelPack := match tx_future s with Some f => [f.2] | None => [] end.
Definition flight (s : Stream) : list TunnelPack := kept s ++ contents (round s).

Lemma concat_insert {A} (ls : list (list A)) i l l' :
  ls !! i = Some l -> concat (<[i:=l']> ls) ++ l ≡ₚ l' ++ concat ls.
Proof.
  revert i. induction ls as [|k ls IH]; intros [|i] Hi; cbn in Hi; [done|done| |].
  - injection Hi as ->. cbn. rewrite <- app_assoc. f_equiv. apply Permutation_app_comm.
  - change (<[S i:=l']> (k :: ls)) with (k :: <[i:=l']> ls). cbn. rewrite <- app_assoc, (IH i Hi). by rewrite !app_assoc, (Permutation_app_comm k l').
Qed.

Lemma contents_set r i c c' n b :
  senders r !! i = Some c -> contents (mkRound n (<[i:=c']> (senders r)) b) ++ waiting c ≡ₚ waiting c' ++ contents r.
Proof. intros Hi. unfold contents. cbn. rewrite list_fmap_insert. apply concat_insert. by rewrite list_lookup_fmap, Hi. Qed.

Lemma contents_push r i c p n b :
  senders r !! i = Some c -> contents (mkRound n (<[i:=chan_push p c]> (senders r)) b) ≡ₚ p :: contents r.
Proof.
  intros Hi. apply (Permutation_app_inv_r (waiting c)). rewrite (contents_set r i c _ n b Hi). cbn.
  by rewrite <- app_assoc, (Permutation_app_comm (waiting c)).
Qed.

Lemma vget_some {A} (l : list A) i x : vget l i = Ok x -> 0 <= i < zlen l /\ l !! Z.to_nat i = Some x.
Proof. intros [H1 H2]%vget_ok. split; [|done]. apply lookup_lt_Some in H2. unfold zlen. lia. Qed.

Lemma sender_clone_ok r i r' :
  round_sender_clone r = (Ok i, r') -> senders r' = senders r.
Proof.
  unfold round_sender_clone, next_index, lift, mbind, stm_bind, gets, modify, mret, stm_ret. cbn.
  destruct (zrem (index r) (zlen (senders r))) as [j| | |]; try done.
  destruct (vget (senders r) j) as [c| | |]; try done. by intros [= <- <-].
Qed.

(** A pack joins the others of its channel. *)
Lemma channel_push_ok i p r (s' : list Chan) c n b :
  vget (senders r) i = Ok c -> vset (senders r) i (chan_push p c) = Ok s' -> contents (mkRound n s' b) ≡ₚ p :: contents r.
Proof.
  intros [Hi Hc]%vget_some Hs. rewrite vset_ok in Hs by done. injection Hs as <-. by apply contents_push.
Qed.

Lemma poll_send_ok i p r x r' :
  poll_send i p r = (Ok x, r') -> match x with Taken => contents r' ≡ₚ p :: contents r | _ => r' = r end.
Proof.
  unfold poll_send, lift, mbind, stm_bind, gets, modify, mret, stm_ret.
  destruct (vget (senders r) i) as [c| | |] eqn:Ev; try done. destruct (is_open c); cbn [negb]; [|by intros [= <- <-]].
  destruct (chan_full c); [by intros [= <- <-]|]. destruct (vset _ _ _) as [s'| | |] eqn:Es; try done. intros [= <- <-].
  by eapply channel_push_ok.
Qed.

Lemma send_ok i p r x r' :
  send i p r = (Ok x, r') -> if x : bool then contents r' ≡ₚ p :: contents r else r' = r.
Proof.
  unfold send, lift, mbind, stm_bind, gets, modify, mret, stm_ret.
  destruct (vget (senders r) i) as [c| | |] eqn:Ev; try done. destruct (is_open c); cbn [negb]; [|by intros [= <- <-]].
  destruct (vset _ _ _) as [s'| | |] eqn:Es; try done. intros [= <- <-]. by eapply channel_push_ok.
Qed.

Lemma round_close_ok r : exists r', round_close r = (Ok tt, r') /\ contents r' = contents r.
Proof.
  eexists. split; [reflexivity|]. destruct (round_is_close r); [done|]. unfold contents. cbn. f_equal.
  rewrite <- list_fmap_compose. by apply list_fmap_ext.
Qed.

Lemma write_close_ok s : exists s', write_close s = (Ok tt, s') /\ flight s' = flight s /\ stream_tx_pack_id s' = stream_tx_pack_id s /\ tx_open s' = false /\
  tx_future s' = tx_future s.
Proof.
  unfold write_close. step. change (id s) with s. destruct (tx_open s) eqn:Et; [|by exists s].
  destruct (round_close_ok (round s)) as (r' & E & C). step. unfold on_round. cbn [round set_tx_open]. rewrite E.
  eexists. split; [reflexivity|]. unfold flight, kept. cbn. by rewrite C.
Qed.

(** A call that writes: [made] is the pack it has made, [lost] what it had to
    give up. *)
Definition writes_on (s : Stream) (made : list TunnelPack) (s' : Stream) : Prop :=
  exists lost, flight s' ++ lost ≡ₚ made ++ flight s /\ (tx_open s' = true -> lost = []).

Lemma write_poll_ok lf f s :
  tx_future s = None ->
  match write_poll lf f s with
  | (Ok _, s') => writes_on s [f.2] s' /\ stream_tx_pack_id s' = stream_tx_pack_id s
  | _ => True
  end.
Proof.
  intros Hf. unfold write_poll. destruct lf.
  - unfold mbind at 1, stm_bind at 1. unfold on_round. destruct (poll_send f.1 f.2 (round s)) as [[x| | |] r'] eqn:E; try done.
    apply poll_send_ok in E. destruct x.
    + cbn. split; [|done]. exists []. split; [|done]. unfold flight, kept. cbn. rewrite Hf, app_nil_r. cbn. by rewrite E.
    + cbn. split; [|done]. exists []. split; [|done]. unfold flight, kept. cbn. by rewrite E, Hf, app_nil_r.
    + subst r'. destruct (write_close_ok (set_round (round s) s)) as (s2 & E2 & F2 & I2 & T2 & _). step by exact E2.
      split; [|done]. exists [f.2]. rewrite F2, T2. split; [|done]. by rewrite Permutation_app_comm.
  - cbn. split; [|done]. exists []. split; [|done]. unfold flight, kept. cbn. by rewrite Hf, app_nil_r.
Qed.

Definition pack_of (id : Z) (bytes : list Z) : TunnelPack := PData (mkData (mkDataHeader id (wrap32 (zlen bytes))) bytes).

(** What both writing calls do with the bytes they are given. *)
Definition makes (s : Stream) : bool := tx_open s && negb (bool_decide (is_Some (tx_future s))).

Lemma write_call_ok (m : stm Stream (Poll Z)) len bytes lf s :
  m = (s ← gets id;
       if negb (tx_open s) then mret (Ready 0)
       else
         match tx_future s with
         | Some f => _ ← modify (set_tx_future None); write_poll lf f
         | None => _ ← modify (set_tx_data_size len); id ← add_write_pack_id; f ← write_begin id bytes; write_poll lf f
         end) ->
  match m s with
  | (Ok _, s') =>
      if makes s then writes_on s [pack_of (wrap32 (stream_tx_pack_id s + 1)) bytes] s' /\ stream_tx_pack_id s' = wrap32 (stream_tx_pack_id s + 1)
      else writes_on s [] s' /\ stream_tx_pack_id s' = stream_tx_pack_id s
  | _ => True
  end.
Proof.
  intros ->. step. change (id s) with s. unfold makes. destruct (tx_open s) eqn:Et; cbn [negb andb].
  2:{ cbn. split; [|done]. exists []. by rewrite app_nil_r. }
  destruct (tx_future s) as [f|] eqn:Ef.
  - rewrite bool_decide_true by done. cbn [negb]. step. pose proof (write_poll_ok lf f (set_tx_future None s) eq_refl) as H.
    destruct (write_poll lf f _) as [[x| | |] s']; try done. destruct H as [(lost & H1 & H2) H3]. split; [|done]. exists lost. split; [|done].
    rewrite H1. unfold flight, kept. cbn. by rewrite Ef.
  - rewrite bool_decide_false by (by intros [? ?]). cbn [negb]. step. unfold add_write_pack_id at 1. step by reflexivity. cbn [stream_tx_pack_id set_tx_data_size id].
    unfold write_begin, on_round. unfold mbind at 1, stm_bind at 1. unfold mbind at 1, stm_bind at 1.
    destruct (round_sender_clone _) as [[i| | |] r'] eqn:E; try done. apply sender_clone_ok in E. cbn in E.
    unfold mret at 1, stm_ret at 1. set (s1 := set_round r' _). set (f := (i, _)).
    pose proof (write_poll_ok lf f s1 Ef) as H. destruct (write_poll lf f s1) as [[x| | |] s']; try done. destruct H as [(lost & H1 & H2) H3].
    split; [|done]. exists lost. split; [|done]. rewrite H1. unfold flight, kept, contents, s1. cbn. by rewrite Ef, E.
Qed.

(** ** A direction of a session

    [lines] are the packs each connection carries, from the end of its channel to
    the task of the other side; [inbox] the channel to that task. [wrote] are the
    bytes of the packs that were made, [gave] those that were read. *)
Record Direction := mkDir {
  writer : Stream;
  lines : list (list TunnelPack);
  inbox : list TunnelPack;
  task : PeerClientToStream;
  reader : Stream;
  wrote : list (list Z);
  gave : list Z
}.

Definition dir_new (connect : option Z) (r r' : RoundAsyncChannel) : Direction :=
  mkDir (stream_new round_new) [] [] (to_stream_new connect r) (stream_new r') [] [].

(** The task has sent something, or has come to its end. *)
Definition tasked (w : Direction) (inbox : list TunnelPack) (s : PeerClientToStream) (goes_on : bool) : Direction :=
  let r := reader w in
  let r := set_inq (inq r ++ drop (length (to_stream (task w))) (to_stream s)) r in
  mkDir (writer w) (lines w) inbox (set_to_stream_open (to_stream_open s && goes_on) s) (set_in_closed (in_closed r || negb goes_on) r) (wrote w) (gave w).

(** A write call of the application, [AsyncWrite] or [AsyncWriteMsg]. *)
Inductive WriteCall := WBytes (bytes : list Z) | WMsg (len : Z) (bytes : list Z).
Definition write_call (c : WriteCall) (lock_free : bool) : stm Stream (Poll Z) :=
  match c with WBytes b => poll_write b lock_free | WMsg n b => poll_write_msg n (Some b) lock_free end.
Definition call_bytes (c : WriteCall) : list Z := match c with WBytes b | WMsg _ b => b end.

(** What can happen; with [lossy] connections may be lost with what they carry,
    streams be closed, and the task fail. *)
Inductive dir_step (lossy : bool) (w : Direction) : Direction -> Prop :=
  | dir_write c lf r s :
      write_call c lf (writer w) = (Ok r, s) -> lossy || tx_open s = true ->
      dir_step lossy w (mkDir s (lines w) (inbox w) (task w) (reader w)
        (if makes (writer w) then wrote w ++ [call_bytes c] else wrote w) (gave w))
  | dir_channel buffer s :
      on_round (channel buffer) (writer w) = (Ok tt, s) ->
      dir_step lossy w (mkDir s (lines w ++ [[]]) (inbox w) (task w) (reader w) (wrote w) (gave w))
  | dir_control i p x s :
      match p with PData _ => False | _ => True end -> on_round (send i p) (writer w) = (Ok x, s) ->
      dir_step lossy w (mkDir s (lines w) (inbox w) (task w) (reader w) (wrote w) (gave w))
  | dir_take i c p rest l n b :
      senders (round (writer w)) !! i = Some c -> waiting c = p :: rest -> lines w !! i = Some l ->
      dir_step lossy w (mkDir (set_round (mkRound n (<[i := mkChan rest (capacity c) b]> (senders (round (writer w)))) (round_is_close (round (writer w)))) (writer w))
        (<[i := l ++ [p]]> (lines w)) (inbox w) (task w) (reader w) (wrote w) (gave w))
  | dir_arrive i p l :
      lines w !! i = Some (p :: l) ->
      dir_step lossy w (mkDir (writer w) (<[i := l]> (lines w)) (inbox w ++ [p]) (task w) (reader w) (wrote w) (gave w))
  | dir_turn ev inbox' ticks b s :
      match ev with Got p => inbox w = p :: inbox' | TimedOut => inbox' = inbox w | Closed => lossy = true /\ inbox' = inbox w end ->
      turn ev ticks (task w) = (Ok b, s) -> lossy || b = true ->
      dir_step lossy w (tasked w inbox' s b)
  | dir_turn_fails ev inbox' ticks o s :
      match ev with Got p => inbox w = p :: inbox' | _ => inbox' = inbox w end ->
      turn ev ticks (task w) = (o, s) -> is_ok o = false -> lossy = true ->
      dir_step lossy w (tasked w inbox' s false)
  | dir_read c d s :
      call_ok c -> read_call c (reader w) = (Ok d, s) ->
      dir_step lossy w (mkDir (writer w) (lines w) (inbox w) (task w) s (wrote w) (gave w ++ d))
  | dir_close s :
      lossy = true -> write_close (writer w) = (Ok tt, s) ->
      dir_step lossy w (mkDir s (lines w) (inbox w) (task w) (reader w) (wrote w) (gave w))
  | dir_lose i c l b n :
      lossy = true -> senders (round (writer w)) !! i = Some c -> lines w !! i = Some l ->
      dir_step lossy w (mkDir (set_round (mkRound n (<[i := mkChan [] (capacity c) b]> (senders (round (writer w)))) (round_is_close (round (writer w)))) (writer w))
        (<[i := []]> (lines w)) (inbox w) (task w) (reader w) (wrote w) (gave w)).

Inductive dir_reach (lossy : bool) : Direction -> Prop :=
  | dir_init connect r r' : dir_reach lossy (dir_new connect r r')
  | dir_next w w' : dir_reach lossy w -> dir_step lossy w w' -> dir_reach lossy w'.

(** ** Everything on its way *)

Definition transit (w : Direction) : list TunnelPack := flight (writer w) ++ concat (lines w) ++ inbox w.

Definition has_id (i : Z) (p : TunnelPack) : Prop := match p with PData d => pack_id (header d) = i | _ => False end.

Record dir_inv (lossy : bool) (w : Direction) : Prop := {
  di_id : stream_tx_pack_id (writer w) = zlen (wrote w);
  di_transit : Forall (genuine_pack (wrote w)) (transit w);
  di_task : to_stream_open (task w) = true -> in_order (wrote w) (task w);
  di_out : (datas <$> to_stream (task w)) `prefix_of` wrote w;
  di_read : concat (datas <$> to_stream (task w)) = gave w ++ at_hand (reader w);
  di_all : lossy = false -> tx_open (writer w) = true /\ to_stream_open (task w) = true /\ is_close (task w) = false /\
    forall i, 1 <= i <= zlen (wrote w) -> knows (task w) i \/ Exists (has_id i) (transit w)
}.

(** Packs move: those that are on their way afterwards were before, or are new. *)
Lemma inv_moves lossy w w' made lost more :
  dir_inv lossy w ->
  stream_tx_pack_id (writer w') = zlen (wrote w') -> wrote w' = wrote w ++ more -> task w' = task w -> reader w' = reader w -> gave w' = gave w ->
  transit w' ++ lost ≡ₚ made ++ transit w -> Forall (genuine_pack (wrote w')) made ->
  (lossy = false -> lost = [] /\ tx_open (writer w') = true /\
    forall i, zlen (wrote w) < i <= zlen (wrote w') -> Exists (has_id i) made) ->
  dir_inv lossy w'.
Proof.
  intros [I1 I2 I3 I4 I5 I6] Hid Hw Ht Hr Hg Hp Hm Hl. split; rewrite ?Ht, ?Hr, ?Hg; try done.
  - assert (Forall (genuine_pack (wrote w')) (transit w' ++ lost)) as H.
    { rewrite Hp. apply Forall_app. split; [done|]. eapply Forall_impl; [exact I2|]. rewrite Hw. intros [|?|d|?|?|?]; try done. apply genuine_longer. }
    by apply Forall_app in H as [H _].
  - intros Ho. rewrite Hw. apply in_order_app; auto.
  - rewrite Hw. by apply prefix_app_r.
  - intros E. destruct (I6 E) as (J1 & J2 & J3 & J4). destruct (Hl E) as (-> & K1 & K2). split_and!; try done.
    intros i Hi. rewrite app_nil_r in Hp. destruct (decide (i <= zlen (wrote w))) as [Hle|Hgt].
    + destruct (J4 i ltac:(lia)) as [?|Hx]; [by left|right]. rewrite Hp. apply Exists_app. by right.
    + right. rewrite Hp. apply Exists_app. left. apply K2. lia.
Qed.

Lemma at_hand_more r l b : at_hand (set_in_closed b (set_inq (inq r ++ l) r)) = at_hand r ++ concat (datas <$> l).
Proof. unfold at_hand. cbn. by rewrite fmap_app, concat_app, app_assoc. Qed.

(** The task's turns. *)
Lemma inv_turn lossy w ev inbox' ticks o s :
  dir_inv lossy w -> zlen (wrote w) < 2 ^ 32 - 1 ->
  match ev with Got p => inbox w = p :: inbox' | _ => inbox' = inbox w end -> (lossy = false -> ev <> Closed) ->
  turn ev ticks (task w) = (o, s) -> (lossy = false -> o = Ok true) ->
  dir_inv lossy (tasked w inbox' s (bool_decide (o = Ok true))).
Proof.
  intros [I1 I2 I3 I4 I5 I6] Hw Hin Hcl Ht Hl.
  assert (forall p, ev = Got p -> genuine_pack (wrote w) p) as Hg.
  { intros p ->. unfold transit in I2. rewrite Hin in I2. rewrite !Forall_app in I2. destruct I2 as (_ & _ & I2). by inversion I2. }
  assert (Forall (genuine_pack (wrote w)) (flight (writer w) ++ concat (lines w) ++ inbox')) as I2'.
  { unfold transit in I2. rewrite !Forall_app in *. destruct I2 as (J1 & J2 & J3). split_and!; try done. destruct ev; subst; try done. rewrite Hin in J3. by inversion J3. }
  assert (o <> Ok true -> to_stream s = to_stream (task w) -> dir_inv lossy (tasked w inbox' s (bool_decide (o = Ok true)))) as Hstop.
  { intros Hno Hs. rewrite bool_decide_false by done. assert (drop (length (to_stream (task w))) (to_stream s) = []) as Hd by (rewrite Hs; by apply drop_ge).
    split; cbn [tasked writer wrote task reader gave]; try done.
    - cbn. by rewrite andb_false_r.
    - cbn. by rewrite Hs.
    - rewrite at_hand_more, Hd. cbn. by rewrite Hs, app_nil_r.
    - intros E. by apply Hl in E. }
  destruct (is_close (task w) || negb (to_stream_open (task w))) eqn:Eo.
  { destruct (turn_over ev ticks (task w) Eo) as (s' & E & Hs). rewrite Ht in E. injection E as -> ->. by apply Hstop. }
  apply orb_false_iff in Eo as [Ec Eo%negb_false_iff]. pose proof (turn_ok (wrote w) ev ticks (task w) (I3 Eo) Eo Ec Hw Hg) as H. rewrite Ht in H.
  destruct o as [[]|e| |]; try (by apply Hstop). destruct H as (O1 & Op & Hn & Hk & Hx & Hd & Hcl').
  rewrite bool_decide_true by done. pose proof (handed_on _ _ _ (I3 Eo) O1 Hn) as He.
  split; cbn [tasked writer wrote task reader gave]; try done.
  - intros _. by destruct O1.
  - cbn. destruct O1 as [_ -> _]. apply prefix_take.
  - rewrite at_hand_more, app_assoc, <- I5, <- concat_app. cbn. by rewrite He at 1.
  - intros E. destruct (I6 E) as (J1 & J2 & J3 & J4). split_and!; [done|cbn; by rewrite Op|cbn; rewrite Hcl'; specialize (Hcl E); by destruct ev|].
    intros i Hi. change (knows (set_to_stream_open _ s) i) with (knows s i). destruct (J4 i Hi) as [?|Hex]; [left; by apply Hk|].
    destruct ev as [| |p]; [by right; subst..|]. unfold transit in *. rewrite Hin in Hex. cbn [tasked writer lines inbox].
    rewrite !Exists_app in *. rewrite Exists_cons in Hex. destruct Hex as [?|[?|[Hp|?]]]; [auto|auto| |auto]. left. destruct p; try done. cbn in Hp. subst i. by apply Hx.
Qed.

Lemma step_wrote lossy w w' : dir_step lossy w w' -> wrote w `prefix_of` wrote w'.
Proof. destruct 1; cbn; try done. destruct (makes _); [by apply prefix_app_r|done]. Qed.

(** A channel gives a pack to its line, and a line to the task. *)
Lemma take_moves r i c p rest n b b' (ls : list (list TunnelPack)) l :
  senders r !! i = Some c -> waiting c = p :: rest -> ls !! i = Some l ->
  contents (mkRound n (<[i := mkChan rest (capacity c) b]> (senders r)) b') ++ concat (<[i := l ++ [p]]> ls) ≡ₚ contents r ++ concat ls.
Proof.
  intros Hc Hw Hl. pose proof (contents_set r i c (mkChan rest (capacity c) b) n b' Hc) as H1. pose proof (concat_insert ls i l (l ++ [p]) Hl) as H2.
  rewrite Hw in H1. cbn [waiting] in H1. apply (Permutation_app_inv_r (p :: rest ++ l)).
  transitivity ((contents (mkRound n (<[i:=mkChan rest (capacity c) b]> (senders r)) b') ++ p :: rest) ++ (concat (<[i:=l ++ [p]]> ls) ++ l)); [solve_Permutation|].
  rewrite H1, H2. solve_Permutation.
Qed.

Lemma arrive_moves (ls : list (list TunnelPack)) i p l inb :
  ls !! i = Some (p :: l) -> concat (<[i := l]> ls) ++ inb ++ [p] ≡ₚ concat ls ++ inb.
Proof.
  intros Hl. pose proof (concat_insert ls i (p :: l) l Hl) as H. apply (Permutation_app_inv_r l).
  transitivity ((concat (<[i:=l]> ls) ++ p :: l) ++ inb); [solve_Permutation|]. rewrite H. solve_Permutation.
Qed.

Lemma lose_moves r i c n b b' (ls : list (list TunnelPack)) l :
  senders r !! i = Some c -> ls !! i = Some l ->
  contents (mkRound n (<[i := mkChan [] (capacity c) b]> (senders r)) b') ++ concat (<[i := []]> ls) ++ waiting c ++ l ≡ₚ contents r ++ concat ls.
Proof.
  intros Hc Hl. pose proof (contents_set r i c (mkChan [] (capacity c) b) n b' Hc) as H1. pose proof (concat_insert ls i l [] Hl) as H2.
  cbn [waiting] in H1. transitivity ((contents (mkRound n (<[i:=mkChan [] (capacity c) b]> (senders r)) b') ++ waiting c) ++ (concat (<[i:=[]]> ls) ++ l)); [solve_Permutation|].
  rewrite H1, H2. done.
Qed.

Lemma channel_moves buffer r r' : channel buffer r = (Ok tt, r') -> contents r' = contents r.
Proof.
  unfold channel, mbind, stm_bind, gets, modify, fail. cbn. destruct (round_is_close r); [done|]. intros [= <-]. unfold contents. cbn.
  rewrite fmap_app, concat_app. cbn. by rewrite app_nil_r.
Qed.

Lemma inv_write lossy w c lf r s :
  dir_inv lossy w -> zlen (if makes (writer w) then wrote w ++ [call_bytes c] else wrote w) < 2 ^ 32 - 1 ->
  write_call c lf (writer w) = (Ok r, s) -> lossy || tx_open s = true ->
  dir_inv lossy (mkDir s (lines w) (inbox w) (task w) (reader w) (if makes (writer w) then wrote w ++ [call_bytes c] else wrote w) (gave w)).
Proof.
  intros Hi Hb Hc Hl. assert (match write_call c lf (writer w) with
    | (Ok _, s') => if makes (writer w) then writes_on (writer w) [pack_of (wrap32 (stream_tx_pack_id (writer w) + 1)) (call_bytes c)] s' /\
          stream_tx_pack_id s' = wrap32 (stream_tx_pack_id (writer w) + 1)
        else writes_on (writer w) [] s' /\ stream_tx_pack_id s' = stream_tx_pack_id (writer w)
    | _ => True end) as H.
  { destruct c as [b|n b]; cbn [write_call call_bytes]; [by apply (write_call_ok _ (zlen b) b lf)|by apply (write_call_ok _ n b lf)]. }
  rewrite Hc in H. pose proof (di_id _ _ Hi) as Hid. pose proof (zlen_nonneg (wrote w)) as Hz. destruct (makes (writer w)).
  - rewrite zlen_app in Hb. change (zlen [call_bytes c]) with 1 in Hb. rewrite Hid, wrap_id in H by (unfold in_width; lia).
    destruct H as [(lost & Hp & Hlo) Hs]. eapply (inv_moves lossy w _ [pack_of (zlen (wrote w) + 1) (call_bytes c)] lost [call_bytes c]); try done.
    + cbn. by rewrite Hs, zlen_app.
    + unfold transit. cbn [writer lines inbox]. transitivity ((flight s ++ lost) ++ concat (lines w) ++ inbox w); [solve_Permutation|]. rewrite Hp. by rewrite <- app_assoc.
    + constructor; [|done]. cbn. split; cbn; [lia|]. rewrite lookup_app_r by (unfold zlen; lia). by replace (Z.to_nat _ - length (wrote w))%nat with 0%nat by (unfold zlen; lia).
    + intros ->. cbn in Hl. split; [by apply Hlo|]. split; [done|]. cbn. rewrite zlen_app. change (zlen [call_bytes c]) with 1. intros i Hii. constructor. cbn. lia.
  - destruct H as [(lost & Hp & Hlo) Hs]. eapply (inv_moves lossy w _ [] lost []); try done.
    + cbn. by rewrite Hs, Hid.
    + cbn. by rewrite app_nil_r.
    + unfold transit. cbn [writer lines inbox]. transitivity ((flight s ++ lost) ++ concat (lines w) ++ inbox w); [solve_Permutation|]. by rewrite Hp.
    + intros ->. cbn in Hl. split; [by apply Hlo|]. split; [done|]. cbn. lia.
Qed.

(** What only moves packs, or adds some that are not data. *)
Lemma inv_flight lossy w s ls inb made lost :
  dir_inv lossy w -> stream_tx_pack_id s = stream_tx_pack_id (writer w) ->
  (flight s ++ concat ls ++ inb) ++ lost ≡ₚ made ++ transit w -> Forall (fun p => match p with PData _ => False | _ => True end) made ->
  (lossy = false -> lost = [] /\ tx_open s = tx_open (writer w)) ->
  dir_inv lossy (mkDir s ls inb (task w) (reader w) (wrote w) (gave w)).
Proof.
  intros Hi Hid Hp Hm Hl. eapply (inv_moves lossy w _ made lost []); try done.
  - cbn. rewrite Hid. apply Hi.
  - cbn. by rewrite app_nil_r.
  - eapply Forall_impl; [exact Hm|]. by intros [].
  - intros E. destruct (Hl E) as [-> Ho]. split; [done|]. split; [cbn; rewrite Ho; by apply Hi|]. cbn. lia.
Qed.

Lemma inv_step lossy w w' :
  dir_inv lossy w -> zlen (wrote w') < 2 ^ 32 - 1 -> dir_step lossy w w' -> dir_inv lossy w'.
Proof.
  intros Hi Hb Hs.
  destruct Hs as [c lf r s Hc Hl|buffer s Hc|i p x s Hp Hc|i c p rest l n b Hc Hw Hl|i p l Hl|ev inbox' ticks b s Hev Ht Hl|ev inbox' ticks o s Hev Ht Ho Hl|c d s Hc Hr|s Hl Hc|i c l b n Hl Hc Hll].
  - by eapply inv_write.
  - unfold on_round in Hc. destruct (channel buffer (round (writer w))) as [o r'] eqn:E. injection Hc as -> <-. apply channel_moves in E.
    apply (inv_flight _ _ _ _ _ [] []); try done. unfold transit, flight, kept. cbn. rewrite E, concat_app. cbn. by rewrite !app_nil_r.
  - unfold on_round in Hc. destruct (send i p (round (writer w))) as [o r'] eqn:E. injection Hc as -> <-. apply send_ok in E.
    apply (inv_flight _ _ _ _ _ (if x then [p] else []) []); try done; [|by destruct x; constructor].
    unfold transit, flight, kept. cbn. rewrite app_nil_r. destruct x; [rewrite E|by subst]. solve_Permutation.
  - apply (inv_flight _ _ _ _ _ [] []); try done. rewrite app_nil_r. unfold transit, flight. cbn [round set_round kept tx_future app].
    pose proof (take_moves (round (writer w)) i c p rest n b (round_is_close (round (writer w))) (lines w) l Hc Hw Hl) as H.
    rewrite <- !app_assoc. change (kept (set_round _ (writer w))) with (kept (writer w)). f_equiv. rewrite !app_assoc. by rewrite H.
  - apply (inv_flight _ _ _ _ _ [] []); try done. rewrite app_nil_r. unfold transit. cbn [app]. f_equiv. by apply arrive_moves.
  - cbn [tasked wrote] in Hb. replace b with (bool_decide (Ok b = Ok true)) by (destruct b; [by rewrite bool_decide_true|by rewrite bool_decide_false]).
    apply (inv_turn lossy w ev inbox' ticks (Ok b) s Hi Hb); [by destruct ev as [| |p]; try apply Hev|..]; [|done|].
    + intros -> ->. by destruct Hev.
    + intros ->. cbn in Hl. by subst.
  - cbn [tasked wrote] in Hb. replace false with (bool_decide (o = Ok true)) by (rewrite bool_decide_false; [done|by intros ->]).
    apply (inv_turn lossy w ev inbox' ticks o s Hi Hb); try done; by rewrite Hl.
  - destruct (read_call_ok c (reader w) Hc) as (d' & s' & E & _ & Ha & _). rewrite Hr in E. injection E as <- <-.
    destruct Hi as [I1 I2 I3 I4 I5 I6]. split; try done. cbn. by rewrite <- app_assoc, <- Ha.
  - destruct (write_close_ok (writer w)) as (s' & E & F & I & T & K). rewrite Hc in E. injection E as <-.
    apply (inv_flight _ _ _ _ _ [] []); try done; [unfold transit; rewrite F; cbn; by rewrite app_nil_r|by rewrite Hl].
  - apply (inv_flight _ _ _ _ _ [] (waiting c ++ l)); try done; [|by rewrite Hl].
    pose proof (lose_moves (round (writer w)) i c n b (round_is_close (round (writer w))) (lines w) l Hc Hll) as H.
    unfold transit, flight. cbn [round set_round app]. change (kept (set_round _ (writer w))) with (kept (writer w)).
    transitivity (kept (writer w) ++ (contents (mkRound n (<[i:=mkChan [] (capacity c) b]> (senders (round (writer w)))) (round_is_close (round (writer w)))) ++ concat (<[i:=[]]> (lines w)) ++ waiting c ++ l) ++ inbox w); [solve_Permutation|].
    rewrite H. solve_Permutation.
Qed.

Lemma reach_inv lossy w : dir_reach lossy w -> zlen (wrote w) < 2 ^ 32 - 1 -> dir_inv lossy w.
Proof.
  induction 1 as [connect r r'|w w' _ IH Hs]; intros Hb.
  - split; try done; intros _. split_and!; try done. cbn. unfold zlen. cbn. lia.
  - eapply inv_step; [|exact Hb|exact Hs]. apply IH.
    destruct (step_wrote _ _ _ Hs) as [k' Ek]. rewrite Ek, zlen_app in Hb. pose proof (zlen_nonneg k'). lia.
Qed.

(** Nothing is on its way any more. *)
Definition settled (w : Direction) : Prop := transit w = [] /\ drained (task w) /\ at_hand (reader w) = [].

(** C10. A session of the first tunnel is a byte stream over any number of
    connections, added at any time: however its packs are spread over them, in
    whatever order these deliver, and however reads and writes are cut, the bytes
    read are a beginning of the bytes written, also when connections are lost and
    the stream is closed; and when none is and nothing is on its way, all have
    been read. *)
Theorem session_in_order lossy w :
  dir_reach lossy w -> zlen (wrote w) < 2 ^ 32 - 1 ->
  gave w `prefix_of` concat (wrote w) /\ (lossy = false -> settled w -> gave w = concat (wrote w)).
Proof.
  intros Hr Hb. destruct (reach_inv lossy w Hr Hb) as [I1 I2 I3 [more I4] I5 I6]. split.
  - rewrite I4, concat_app, I5, <- app_assoc. by apply prefix_app_r.
  - intros E (S1 & S2 & S3). destruct (I6 E) as (J1 & J2 & J3 & J4). destruct (I3 J2) as [O1 O2 O3].
    rewrite S3, app_nil_r in I5. rewrite <- I5, O2. f_equal. apply take_ge. destruct (decide (next_id (task w) <= zlen (wrote w))) as [Hle|Hgt]; [|unfold zlen in *; lia].
    destruct (J4 (next_id (task w)) ltac:(lia)) as [[?|Hx]|Hx]; [lia| |].
    + unfold drained in S2. rewrite S2 in Hx. by destruct Hx.
    + rewrite S1 in Hx. by apply Exists_nil in Hx.
Qed.
