(* ===== verification/Tunnel1Pool.v ===== *)
(** The connections a client of the first tunnel keeps between sessions,
    [ClientContext] of [any-tunnel/src/client.rs]. *)
From S2P Require Import Prelude.
#[local] Open Scope string_scope.
#[local] Open Scope list_scope.
#[local] Open Scope Z_scope.

(** ** The pool

    A [PeerStreamKey] is a number; [closed] are those whose [to_peer_stream_tx] is
    closed, by its own task or here. *)
Record ClientContext := mkContext {
  peer_stream_key_map : gmap string (list (nat * Z));
  closed : gset nat
}.

Definition context_new : ClientContext := mkContext ∅ ∅.
Definition is_closed (k : nat) (c : ClientContext) : bool := bool_decide (k ∈ closed c).
Definition close_key (k : nat) (c : ClientContext) : ClientContext := mkContext (peer_stream_key_map c) ({[k]} ∪ closed c).

(** Up to [n] of the oldest are let go, while they have been here for more than
    ten seconds or are closed. *)
Fixpoint let_go (n : nat) (curr_time : Z) (shut : gset nat) (values : list (nat * Z)) : list (nat * Z) * gset nat :=
  match n, values with
  | S n, (k, time) :: rest =>
      if (10 <? swrap64 (curr_time - time)) || bool_decide (k ∈ shut)
      then let_go n curr_time ({[k]} ∪ shut) rest
      else (values, shut)
  | _, _ => (values, shut)
  end.

Definition shrink (min_stream_cache_size curr_time : Z) (shut : gset nat) (values : list (nat * Z)) : list (nat * Z) * gset nat :=
  if min_stream_cache_size <? zlen values then let_go 5 curr_time shut values else (values, shut).

Definition add_peer_stream_key (key : string) (k : nat) (min_stream_cache_size curr_time : Z) (c : ClientContext) : ClientContext :=
  if min_stream_cache_size <=? 0 then close_key k c
  else
    match peer_stream_key_map c !! key with
    | None => mkContext (<[key := [(k, curr_time)]]> (peer_stream_key_map c)) (closed c)
    | Some values =>
        let '(values, shut) := shrink min_stream_cache_size curr_time (closed c) (values ++ [(k, curr_time)]) in
        mkContext (<[key := values]> (peer_stream_key_map c)) shut
    end.

(** The oldest that is open, and what is left behind it. *)
Fixpoint pop_open (shut : gset nat) (values : list (nat * Z)) : option nat * list (nat * Z) :=
  match values with
  | [] => (None, [])
  | (k, _) :: rest => if bool_decide (k ∈ shut) then pop_open shut rest else (Some k, rest)
  end.

Definition get_peer_stream_key (key : string) (min_stream_cache_size curr_time : Z) (c : ClientContext) : option nat * ClientContext :=
  if min_stream_cache_size <=? 0 then (None, c)
  else
    match peer_stream_key_map c !! key with
    | None => (None, c)
    | Some values =>
        match pop_open (closed c) values with
        | (None, rest) => (None, mkContext (<[key := rest]> (peer_stream_key_map c)) (closed c))
        | (Some k, rest) =>
            let '(rest, shut) := shrink min_stream_cache_size curr_time (closed c) rest in
            (Some k, mkContext (<[key := rest]> (peer_stream_key_map c)) shut)
        end
    end.

(** ** What it promises

    Every connection is in the pool of one address, once. *)
Definition pooled (c : ClientContext) (k : nat) : Prop := exists key l t, peer_stream_key_map c !! key = Some l /\ (k, t) ∈ l.

Record pool_ok (c : ClientContext) : Prop := {
  pool_once : forall key l, peer_stream_key_map c !! key = Some l -> NoDup l.*1;
  pool_apart : forall key key' l l' k, peer_stream_key_map c !! key = Some l -> peer_stream_key_map c !! key' = Some l' ->
    k ∈ l.*1 -> k ∈ l'.*1 -> key = key'
}.

Lemma let_go_suffix n now shut l l' shut' :
  let_go n now shut l = (l', shut') -> exists gone, l = gone ++ l' /\ shut ⊆ shut' /\ (forall k, k ∈ gone.*1 -> k ∈ shut') /\ shut' ⊆ shut ∪ list_to_set gone.*1.
Proof.
  revert shut l. induction n as [|n IH]; intros shut [|[k t] l]; cbn [let_go]; try (intros [= <- <-]; exists []; split_and!; [done|done|cbn; set_solver|set_solver]).
  destruct (_ || _); [|intros [= <- <-]; exists []; split_and!; [done|done|cbn; set_solver|set_solver]].
  intros (gone & -> & H1 & H2 & H3)%IH. exists ((k, t) :: gone). cbn. split_and!; [done|set_solver| |set_solver].
  intros j [->|Hj]%elem_of_cons; [set_solver|by apply H2].
Qed.

Lemma shrink_suffix m now shut l l' shut' :
  shrink m now shut l = (l', shut') -> exists gone, l = gone ++ l' /\ shut ⊆ shut' /\ (forall k, k ∈ gone.*1 -> k ∈ shut') /\ shut' ⊆ shut ∪ list_to_set gone.*1.
Proof.
  unfold shrink. destruct (_ <? _); [apply let_go_suffix|]. intros [= <- <-]. exists []. split_and!; [done|done|cbn; set_solver|set_solver].
Qed.

Lemma pop_open_suffix shut l o rest :
  pop_open shut l = (o, rest) ->
  exists dead, Forall (fun e => e.1 ∈ shut) dead /\
    match o with Some k => k ∉ shut /\ exists t, l = dead ++ (k, t) :: rest | None => l = dead /\ rest = [] end.
Proof.
  induction l as [|[k t] l IH]; cbn [pop_open]; [intros [= <- <-]; by exists []|]. case_bool_decide as Hk.
  - intros (dead & Hd & H)%IH. exists ((k, t) :: dead). split; [by constructor|]. destruct o as [j|].
    + destruct H as (Hj & t' & ->). split; [done|]. by exists t'.
    + by destruct H as [-> ->].
  - intros [= <- <-]. exists []. split; [done|]. split; [done|]. by exists t.
Qed.

(** The list of one address changes for a part of it, with at most a new
    connection. *)
Lemma pool_ok_insert c key l shut :
  pool_ok c -> NoDup l.*1 ->
  (forall k, k ∈ l.*1 -> (exists l0, peer_stream_key_map c !! key = Some l0 /\ k ∈ l0.*1) \/ ~ pooled c k) ->
  pool_ok (mkContext (<[key := l]> (peer_stream_key_map c)) shut).
Proof.
  intros [P1 P2] Hn Hl. split; cbn.
  - intros key' l' [[<- <-]|[_ H]]%lookup_insert_Some; [done|by eapply P1].
  - intros k1 k2 l1 l2 k [[<- <-]|[N1 H1]]%lookup_insert_Some [[<- <-]|[N2 H2]]%lookup_insert_Some K1 K2; try done.
    + destruct (Hl k K1) as [(l0 & H0 & K0)|Hno]; [by eapply P2|]. destruct Hno. apply list_elem_of_fmap in K2 as ([k' t] & -> & K2). by exists k2, l2, t.
    + destruct (Hl k K2) as [(l0 & H0 & K0)|Hno]; [by eapply P2|]. destruct Hno. apply list_elem_of_fmap in K1 as ([k' t] & -> & K1). by exists k1, l1, t.
    + by eapply P2.
Qed.

Lemma add_ok key k m now c : pool_ok c -> ~ pooled c k -> pool_ok (add_peer_stream_key key k m now c).
Proof.
  intros Hc Hk. unfold add_peer_stream_key. destruct (m <=? 0); [by destruct Hc; split|].
  destruct (peer_stream_key_map c !! key) as [l|] eqn:El.
  - destruct (shrink _ _ _ _) as [l' shut] eqn:Es. apply shrink_suffix in Es as (gone & Eg & _).
    assert (NoDup (l ++ [(k, now)]).*1) as Hn.
    { rewrite fmap_app, NoDup_app. split_and!; [by eapply pool_once|..|apply NoDup_singleton].
      intros x Hx Hs. cbn in Hs. apply list_elem_of_singleton in Hs as ->. destruct Hk. apply list_elem_of_fmap in Hx as ([k' t] & -> & Hx). by exists key, l, t. }
    rewrite Eg, fmap_app, NoDup_app in Hn. apply pool_ok_insert; [done|apply Hn|]. intros x Hx.
    assert (x ∈ (l ++ [(k, now)]).*1) as Hx' by (rewrite Eg, fmap_app; apply elem_of_app; by right).
    rewrite fmap_app in Hx'. apply elem_of_app in Hx' as [Hx'|Hx']; [left; by exists l|right]. cbn in Hx'. by apply list_elem_of_singleton in Hx' as ->.
  - apply pool_ok_insert; [done|apply NoDup_singleton|]. intros x Hx. cbn in Hx. apply list_elem_of_singleton in Hx as ->. by right.
Qed.

(** A connection that is kept for the next session is lent to one session
    only: the pool gives the longest kept one of those for the address that are
    open, it is not in the pool afterwards, and every other is still there or
    closed. *)
Theorem pool_lends_once key m now c k c' :
  pool_ok c -> get_peer_stream_key key m now c = (Some k, c') ->
  pool_ok c' /\ ~ pooled c' k /\ k ∉ closed c' /\
  exists dead t rest, peer_stream_key_map c !! key = Some (dead ++ (k, t) :: rest) /\ Forall (fun e => e.1 ∈ closed c) dead /\
    forall j, pooled c j -> j = k \/ pooled c' j \/ j ∈ closed c'.
Proof.
  intros Hc. unfold get_peer_stream_key. destruct (m <=? 0); [done|]. destruct (peer_stream_key_map c !! key) as [l|] eqn:El; [|done].
  destruct (pop_open (closed c) l) as [[j|] rest] eqn:Ep; [|done]. apply pop_open_suffix in Ep as (dead & Hd & Hj & t & ->).
  destruct (shrink m now (closed c) rest) as [l' shut] eqn:Es. apply shrink_suffix in Es as (gone & -> & S1 & S2 & S3). intros [= <- <-].
  pose proof (pool_once c Hc _ _ El) as Hn. rewrite fmap_app, NoDup_app in Hn. destruct Hn as (N1 & N2 & N3). cbn in N3. inversion N3 as [|? ? N4 N5]; subst.
  rewrite fmap_app in N4, N5. rewrite NoDup_app in N5. destruct N5 as (_ & _ & N5).
  assert (pool_ok (mkContext (<[key:=l']> (peer_stream_key_map c)) shut)) as Hc'.
  { apply pool_ok_insert; [done|done|]. intros x Hx. left. exists (dead ++ (j, t) :: gone ++ l'). split; [done|]. rewrite fmap_app. cbn. rewrite fmap_app. set_solver. }
  split; [done|]. split; [|split].
  - intros (key' & l0 & t0 & H0 & Hin). cbn in H0. apply lookup_insert_Some in H0 as [[<- <-]|[Hne H0]].
    + apply N4, elem_of_app. right. apply list_elem_of_fmap. by exists (j, t0).
    + destruct Hne. eapply (pool_apart c Hc _ _ _ _ j El H0); [rewrite fmap_app; cbn; set_solver|]. apply list_elem_of_fmap. by exists (j, t0).
  - cbn. intros Hx. apply S3, elem_of_union in Hx as [?|Hx]; [done|]. apply N4, elem_of_app. left. by apply elem_of_list_to_set in Hx.
  - exists dead, t, (gone ++ l'). split_and!; [done|done|]. intros x (key' & l0 & t0 & H0 & Hin). destruct (decide (key' = key)) as [->|Hne].
    + rewrite El in H0. injection H0 as <-. apply elem_of_app in Hin as [Hin|[Hin|Hin]%elem_of_cons].
      * right. right. cbn. apply S1. rewrite Forall_forall in Hd. by apply (Hd (x, t0)).
      * left. by injection Hin as -> _.
      * right. apply elem_of_app in Hin as [Hin|Hin]; [right; cbn; apply S2, list_elem_of_fmap; by exists (x, t0)|left]. exists key, l', t0. cbn. by rewrite lookup_insert_eq.
    + right. left. exists key', l0, t0. cbn. by rewrite lookup_insert_ne.
Qed.
