(* ===== verification/Tunnel1Run.v ===== *)
(** Runs of the first tunnel: two sessions in a row on one connection that close
    in different ways, what a session leaves behind that its client abandons, one
    session over two connections, and a pool that lends a connection. *)
From S2P Require Import Prelude Wire Tunnel1Pack Tunnel1Peer Tunnel1Close Tunnel1Conn Tunnel1Sessions.
From S2P Require Tunnel1Stream Tunnel1Client Tunnel1Order Tunnel1Pool.
#[local] Open Scope string_scope.
#[local] Open Scope list_scope.
#[local] Open Scope Z_scope.

(** ** Playing a run *)

Inductive Move :=
  | Tell (m : PeerStreamRecvHello)
  | Read
  | Write
  | Others (x : Session) (c : list TunnelPack) (closed : bool).

Definition tells_b (is_client : bool) (g : option TunnelHello) (m : PeerStreamRecvHello) : bool :=
  match (if is_client then m_hello m else g), (if is_client then g else m_hello m) with
  | Some h, None => Bool.eqb (m_is_ack m) (is_ack h) &&
      match m_channel m with None => is_client && is_ack h | Some _ => negb is_client || negb (is_ack h) end
  | _, _ => false
  end.

Lemma tells_b_ok me g m : tells_b me g m = true -> tells me g m.
Proof.
  unfold tells_b, tells. destruct me, (m_hello m) as [h|], g as [g|]; try done; intros [He Hc]%andb_true_iff; apply eqb_prop in He.
  - exists h. destruct (m_channel m), (is_ack h); try done; by split_and!.
  - exists g. destruct (m_channel m); by split_and!.
Qed.

Definition end_move (free : bool) (mv : Move) (x : Side) (inn out : Line) : option (Side * Line * Line) :=
  if negb (alive x) then None
  else
    let result (n : nat) (inn : Line) (r : outcome bool * PeerStream) :=
      match r with (Ok b, s) => Some (after x n b s, inn, out ++ tag n (put s)) | _ => None end in
    match mv with
    | Tell m =>
        match phase (ps x) with
        | Waiting g => if tells_b (ps_client (ps x)) g m then result (S (nth x)) inn (turn (Told m) (ps x)) else None
        | _ => None
        end
    | Read =>
        match inn with
        | (_, p) :: inn => if reads (ps x) && (free || negb (abandons (ps x))) then result (nth x) inn (turn (Arrived p) (ps x)) else None
        | [] => None
        end
    | Write => if writes (ps x) then result (nth x) inn (turn WriteTurn (ps x)) else None
    | Others y c b => Some (mkSide (others (ps x) y c b) true (nth x) (sent x) (handed x), inn, out)
    end.

Lemma end_move_step free mv x inn out x' inn' out' :
  end_move free mv x inn out = Some (x', inn', out') -> end_step free x inn out x' inn' out'.
Proof.
  unfold end_move. destruct (alive x) eqn:Ha; [|done]. cbn [negb]. destruct mv as [m| | |y c b].
  - destruct (phase (ps x)) as [g| |] eqn:Hp; try done. destruct (tells_b _ g m) eqn:Ht; [|done]. apply tells_b_ok in Ht.
    destruct (turn (Told m) (ps x)) as [[b| | |] s] eqn:E; try done. intros [= <- <- <-]. by eapply step_told.
  - destruct inn as [|[k p] inn]; [done|]. destruct (reads (ps x)) eqn:Hr; [|done]. destruct (free || negb (abandons (ps x))) eqn:Hab; [|done].
    cbn [andb]. destruct (turn (Arrived p) (ps x)) as [[b| | |] s] eqn:E; try done. intros [= <- <- <-]. by eapply step_arrived.
  - destruct (writes (ps x)) eqn:Hw; [|done]. destruct (turn WriteTurn (ps x)) as [[b| | |] s] eqn:E; try done. intros [= <- <- <-]. by eapply step_write.
  - intros [= <- <- <-]. by apply step_others.
Qed.

(** [true] is a move of the client. *)
Fixpoint play (free : bool) (l : list (bool * Move)) (w : World) : option World :=
  match l with
  | [] => Some w
  | (me, mv) :: l =>
      if me : bool
      then '(x, ba, ab) ← end_move free mv (client w) (sc w) (cs w); play free l (mkWorld x (server w) ab ba)
      else '(y, ab, ba) ← end_move free mv (server w) (cs w) (sc w); play free l (mkWorld (client w) y ab ba)
  end.

Lemma play_reach free l w w' : reach free w -> play free l w = Some w' -> reach free w'.
Proof.
  revert w. induction l as [|[me mv] l IH]; intros [x y ab ba] Hw; cbn [play]; [by intros [= <-]|].
  destruct me; cbn [client server cs sc].
  - destruct (end_move free mv x ba ab) as [[[x' ba'] ab']|] eqn:E; [|done]. apply end_move_step in E. cbn. apply IH.
    eapply reach_step; [exact Hw|by constructor].
  - destruct (end_move free mv y ab ba) as [[[y' ab'] ba']|] eqn:E; [|done]. apply end_move_step in E. cbn. apply IH.
    eapply reach_step; [exact Hw|by constructor].
Qed.

(** ** Packs and messages *)

Definition a_hello (id : string) (ack : bool) : TunnelHello := mkHello TUNNEL_VERSION id 5 10 0 ack.
Definition a_pack (id : Z) (l : list Z) : TunnelPack := PData (mkData (mkDataHeader id (zlen l)) l).
Definition told_client (id : string) (ack : bool) : PeerStreamRecvHello :=
  mkMsg (if ack then None else Some []) session_none (Some (a_hello id ack)) 5 0 (Some id) None ack.
Definition told_server (id : string) (ack : bool) : PeerStreamRecvHello :=
  mkMsg (Some []) session_none None 5 0 (Some id) (Some 0) ack.

(** A stream puts a pack in its channel, or closes it; the [RoundAsyncChannel] of
    the session closes. *)
Definition offers (p : TunnelPack) : Move := Others session_none [p] false.
Definition closes_it : Move := Others session_none [] true.

(** Two sessions: the client of the first closes, both ends of the second do at
    once, and its client asks for an answer. *)
Definition two_sessions : list (bool * Move) := [
  (true, Tell (told_client "a" false)); (true, offers (a_pack 1 [1; 2])); (true, Write);
  (false, Read); (false, Tell (told_server "a" false)); (false, Read);
  (false, offers (a_pack 1 [3])); (false, Write); (true, closes_it); (true, Write);
  (false, Read); (false, Write); (true, Read); (true, Read); (true, Write);
  (true, Tell (told_client "b" true)); (false, Read); (false, Tell (told_server "b" true)); (true, Read);
  (false, offers (a_pack 1 [4])); (false, Write); (true, closes_it); (false, closes_it); (true, Write); (false, Write);
  (true, Read); (true, Read); (false, Read); (true, Write); (false, Write); (true, Read); (false, Read); (false, Write); (true, Write)].

Definition the_end (free : bool) (l : list (bool * Move)) : World := default world_new (play free l world_new).

(** Each session of the run gets its own packs, and all of them. *)
Lemma sessions_kept_apart_witness :
  handed (client (the_end false two_sessions)) = [(1%nat, a_pack 1 [3]); (2%nat, a_pack 1 [4])] /\
  handed (server (the_end false two_sessions)) = up_to (nth (server (the_end false two_sessions))) (sent (client (the_end false two_sessions))).
Proof.
  split; [vm_compute; reflexivity|].
  refine (proj1 (proj2 (proj2 (sessions_kept_apart (the_end false two_sessions) _))) _).
  - apply (play_reach false two_sessions world_new); [apply reach_new|vm_compute; reflexivity].
  - split; [vm_compute; reflexivity|]. exists None. vm_compute. reflexivity.
Defined.

(** ** A session that is abandoned

    The client asks for an answer to its hello, as for every further connection
    of a session, and before it has come its stream closes. It takes the
    connection back for the next session without a word to the server, whose
    session goes on: what the server sends for the one, the other gets. *)









(** ** A half-closed stream

    When one end closes, the other sends no more of what waits in its channel: a
    client that has written all it has to say and closes its writing half does
    not get what its server had still to answer. *)
Definition half_closed : list (bool * Move) := [
  (true, Tell (told_client "a" false)); (false, Read); (false, Tell (told_server "a" false));
  (true, closes_it); (true, Write); (false, Read);
  (false, Others session_none [a_pack 1 [1]; a_pack 2 [2]] false); (false, Write); (true, Read); (true, Read); (true, Write)].

Example half_closed_loses :
  let w := the_end false half_closed in
  phase (ps (client w)) = Waiting None /\ phase (ps (server w)) = Waiting None /\
  chan (ps (server w)) = [a_pack 2 [2]] /\ handed (client w) = [(1%nat, a_pack 1 [1])].
Proof. vm_compute. done. Qed.

(** ** One session over two connections *)
Module Order.
Import Tunnel1Stream Tunnel1Client Tunnel1Order.

Inductive DirMove :=
  | MWrite (c : WriteCall)
  | MChannel (buffer : Z)
  | MTake (i : nat)
  | MArrive (i : nat)
  | MTurn (ticks : list bool)
  | MRead (c : ReadCall).

Definition move (m : DirMove) (w : Direction) : option Direction :=
  match m with
  | MWrite c =>
      match write_call c true (writer w) with
      | (Ok _, s) => if tx_open s then Some (mkDir s (lines w) (inbox w) (task w) (reader w)
          (if makes (writer w) then wrote w ++ [call_bytes c] else wrote w) (gave w)) else None
      | _ => None
      end
  | MChannel n =>
      match on_round (channel n) (writer w) with
      | (Ok tt, s) => Some (mkDir s (lines w ++ [[]]) (inbox w) (task w) (reader w) (wrote w) (gave w))
      | _ => None
      end
  | MTake i =>
      let r := round (writer w) in
      match senders r !! i, lines w !! i with
      | Some c, Some l =>
          match waiting c with
          | p :: rest => Some (mkDir (set_round (mkRound (index r) (<[i := mkChan rest (capacity c) (is_open c)]> (senders r)) (round_is_close r)) (writer w))
              (<[i := l ++ [p]]> (lines w)) (inbox w) (task w) (reader w) (wrote w) (gave w))
          | [] => None
          end
      | _, _ => None
      end
  | MArrive i =>
      match lines w !! i with
      | Some (p :: l) => Some (mkDir (writer w) (<[i := l]> (lines w)) (inbox w ++ [p]) (task w) (reader w) (wrote w) (gave w))
      | _ => None
      end
  | MTurn ticks =>
      let '(ev, rest) := match inbox w with p :: rest => (Got p, rest) | [] => (TimedOut, []) end in
      match turn ev ticks (task w) with (Ok true, s) => Some (tasked w rest s true) | _ => None end
  | MRead c =>
      match c, read_call c (reader w) with
      | CRead n, (Ok d, s) => if 0 <? n then Some (mkDir (writer w) (lines w) (inbox w) (task w) s (wrote w) (gave w ++ d)) else None
      | CReadMsg n, (Ok d, s) => Some (mkDir (writer w) (lines w) (inbox w) (task w) s (wrote w) (gave w ++ d))
      | _, _ => None
      end
  end.

Lemma move_step m w w' : move m w = Some w' -> dir_step false w w'.
Proof.
  destruct m as [c|n|i|i|ticks|c]; cbn [move].
  - destruct (write_call c true (writer w)) as [[r| | |] s] eqn:E; try done. destruct (tx_open s) eqn:Eo; [|done]. intros [= <-]. by eapply dir_write.
  - destruct (on_round (channel n) (writer w)) as [[[]| | |] s] eqn:E; try done. intros [= <-]. by eapply dir_channel.
  - destruct (senders (round (writer w)) !! i) as [c|] eqn:Ec; [|done]. destruct (lines w !! i) as [l|] eqn:El; [|done].
    destruct (waiting c) as [|p rest] eqn:Ew; [done|]. intros [= <-]. by eapply dir_take.
  - destruct (lines w !! i) as [[|p l]|] eqn:El; try done. intros [= <-]. by eapply dir_arrive.
  - destruct (inbox w) as [|p rest] eqn:Ei; destruct (turn _ ticks (task w)) as [[[]| | |] s] eqn:E; try done; intros [= <-]; eapply dir_turn; try exact E; done.
  - destruct c as [n|n|n|n]; try done; match goal with |- context [read_call ?c _] => destruct (read_call c (reader w)) as [[d| | |] s] eqn:E end; try done.
    + destruct (Z.ltb_spec 0 n); [|done]. intros [= <-]. by apply (dir_read _ _ (CRead n)).
    + intros [= <-]. by apply (dir_read _ _ (CReadMsg n)).
Qed.

Fixpoint moves (l : list DirMove) (w : Direction) : option Direction :=
  match l with [] => Some w | m :: l => w ← move m w; moves l w end.

Lemma moves_reach l w w' : dir_reach false w -> moves l w = Some w' -> dir_reach false w'.
Proof.
  revert w. induction l as [|m l IH]; intros w Hw; cbn [moves]; [by intros [= <-]|].
  destruct (move m w) as [w1|] eqn:E; [|done]. cbn. apply IH. eapply dir_next; [exact Hw|]. by apply move_step in E.
Qed.

(** The second connection is the faster one. *)
Definition two_connections : list DirMove := [
  MChannel 4; MChannel 4; MWrite (WBytes [1; 2; 3]); MWrite (WMsg 2 [4; 5]); MWrite (WBytes [6]);
  MTake 1; MArrive 1; MTurn []; MRead (CReadMsg 1); MTake 0; MTake 0; MArrive 0; MTurn [true]; MRead (CRead 2);
  MArrive 0; MTurn []; MRead (CRead 10)].

Definition dir_end (l : list DirMove) : Direction :=
  default (dir_new (Some 10) round_new round_new) (moves l (dir_new (Some 10) round_new round_new)).

Lemma session_in_order_witness :
  gave (dir_end two_connections) = concat (wrote (dir_end two_connections)) /\ gave (dir_end two_connections) = [1; 2; 3; 4; 5; 6].
Proof.
  split; [|vm_compute; reflexivity].
  refine (proj2 (session_in_order false (dir_end two_connections) _ _) eq_refl _).
  - apply (moves_reach two_connections (dir_new (Some 10) round_new round_new)); [apply dir_init|vm_compute; reflexivity].
  - vm_compute. reflexivity.
  - split; [vm_compute; reflexivity|]. split; vm_compute; reflexivity.
Defined.
End Order.

(** ** A pool *)
Module Pool.
Import Tunnel1Pool.

Definition two_kept : ClientContext :=
  add_peer_stream_key "10.0.0.1:443" 2 5 101 (close_key 1 (add_peer_stream_key "10.0.0.1:443" 1 5 100 context_new)).

Lemma two_kept_ok : pool_ok two_kept.
Proof.
  assert (pool_ok context_new) as H0 by (split; [intros key l Hl|intros ? ? ? ? ? Hl]; cbn in Hl; by rewrite lookup_empty in Hl).
  apply add_ok; [|intros (key & l & t & Hl & Hin)].
  - assert (pool_ok (add_peer_stream_key "10.0.0.1:443" 1 5 100 context_new)) as [H1 H2]; [|by split].
    apply add_ok; [done|]. intros (key & l & t & Hl & _). cbn in Hl. by rewrite lookup_empty in Hl.
  - change ((<["10.0.0.1:443" := [(1%nat, 100)]]> ∅ : gmap string (list (nat * Z))) !! key = Some l) in Hl.
    apply lookup_insert_Some in Hl as [[_ <-]|[_ Hl]]; [|by rewrite lookup_empty in Hl]. by apply list_elem_of_singleton in Hin.
Qed.

Lemma pool_lends_once_witness : exists c', get_peer_stream_key "10.0.0.1:443" 5 102 two_kept = (Some 2%nat, c') /\ ~ pooled c' 2.
Proof.
  eexists. split; [vm_compute; reflexivity|].
  refine (proj1 (proj2 (pool_lends_once "10.0.0.1:443" 5 102 two_kept 2 _ two_kept_ok _))). vm_compute. reflexivity.
Defined.
End Pool.
